(* ===== verification/_CoqProject ===== *)
-Q . S2P
Prelude.v
Disk.v
Crc.v
Subr.v
Bitmap.v
Freemap.v
BmapAlloc.v
FreemapAlloc.v
FreemapMaint.v
Bulkfree.v
BulkfreeProof.v
BulkfreePass.v
BlockTable.v
BlockTableProof.v
BlockTableSpec.v
ChainFind.v
ChainFindProof.v
IndkeyProof.v
Xxh.v
Sha256.v
Check.v
Io.v
IoLemmas.v
IoProof.v
IoSpec.v
IoDedup.v
Trans.v
Volumes.v
VolumesProof.v
VolumeTable.v
ChainCore.v
ChainLife.v
ChainLifeProof.v
ChainSteps.v
Lookup.v
LookupSpec.v
LookupProof.v
LookupTop.v
LookupTheorems.v
Topology.v
FreemapStorage.v
Reshape.v
Flush.v
ModifySpec.v
CowProof.v
CowOps.v
Cow.v
Lz4.v
Lz4Decode.v
Lz4Format.v
Lz4Encode.v
Lz4Theorems.v
FileData.v
FileRead.v
FileWrite.v
FileStored.v
FileTheorems.v
FileSafe.v
Xop.v
XopProof.v
XopTheorems.v
Ipdep.v
IpdepTheorems.v
DirRead.v
DirTheorems.v
DirWitness.v
Ccms.v
CcmsTheorems.v
Tools.v
ToolsProof.v
Newfs.v
NewfsBytes.v
NewfsLayout.v
NewfsFormat.v
NewfsMount.v
NewfsTheorems.v
Recovery.v
RecoveryProof.v
RecoveryWalk.v
RecoveryTheorems.v
