(* ===== verification/Prelude.v ===== *)
(** * A verification development for the Windows port of HAMMER2

    HAMMER2 is a copy-on-write file system.  This repository is its port to
    Windows: a user-mode driver (the [hammer2_*.c] core, the [*_windows.*] shims
    and [hammer2_windows_vfs.c]) and the tools newfs, fsck and hammer2 (lh1/).
    The target is LLP64: [unsigned long] has 32 bits.

    ** The program and its parts

    A volume is a tree of blocks.  A block reference ([hammer2_blockref], 128
    bytes) names a block by device offset and radix, carries the check code of
    the block and the statistics of the tree below it.  The parts modelled here:

    - the freemap (hammer2_freemap.c) records which 16KB blocks are in use, two
      bits each, in 4MB elements ([bmap_data]) grouped in 1GB leaves;
      [hammer2_freemap_alloc] is the storage allocator,
      [hammer2_freemap_adjust] the crash recovery;
    - bulkfree (hammer2_bulkfree.c) scans the topology, builds a freemap in
      memory and merges it into the live one: the garbage collector;
    - the block tables of chains (hammer2_chain.c) map keys to block references,
      on the medium as a sparse sorted array, in memory as a red-black tree of
      chains that overlays it; indirect blocks are inserted when a table is full;
    - the check codes: CRC32C (hammer2.h, hammer2_user_subs.c), XXH64
      (hammer2_xxhash_windows.h), SHA-256 (sha256_user.c, hammer2_compat.h), and
      the two routines that store and test them (hammer2_chain.c), with the test
      of fsck_hammer2 (lh1/src/sbin/fsck_hammer2/test.c);
    - the device buffer cache (hammer2_io.c) with its file back end
      (hammer2_device_windows.c);
    - transactions (hammer2_flush.c: [hammer2_trans_init] ... [hammer2_trans_done]),
      which let modifying calls and the flusher take turns;
    - the volume headers and the volume table (hammer2_ondisk.c): where a mount
      finds the newest header, how a flush writes the next one, which byte ranges
      the volumes of a device serve;
    - the life of chains (hammer2_chain.c): the in-memory nodes of the topology,
      shared by threads, with locks, reference counts and the drop that frees;
    - the lookup in the topology (hammer2_chain.c: [hammer2_chain_lookup],
      [hammer2_chain_next]): how everything above finds a block by its key;
    - the topology as operations change it (hammer2_chain.c, hammer2_flush.c):
      [hammer2_chain_modify], which moves a block before it is changed, creation,
      deletion and renaming of chains, indirect blocks, and the flush that writes a
      new tree and then its volume header;
    - LZ4 (hammer2_lz4.c, hammer2_lz4_encoder.h), the compression of file blocks;
    - file data (hammer2_strategy.c): how a logical block is stored in a data chain,
      compressed, left out when it is zeros, or shared with a block of the same
      contents, and how it is read back;
    - the helpers of hammer2_subr.c (names, radixes, times, error codes).

    The allocator and bulkfree reach the buffer cache through [IoOps], the
    freemap topology through [LeafStore]; a chain stores a check code of the data
    that the cache holds; bulkfree shares the dedup bits of the cache with the
    allocator.  The lookup finds children through the combined lookup of the block
    tables; the chains it returns live by the rules of the chain life.  A file write
    uses the topology for its chain, LZ4 for the block, the check codes, and the dedup
    bits of the cache through [DedupBits].

    ** Files

    - Prelude: C arithmetic on [Z] ([u8] ... [u64], [i32], the [c_scope]
      notations), the [outcome] monad, arrays, bounded loops, bit lemmas.
    - Disk: constants of hammer2_disk.h and hammer2.h, [blockref], [bmap_data].
    - Subr: hammer2_subr.c and the error conversions of hammer2.h.
    - Crc, Xxh, Sha256: the three hash functions; Check: [hammer2_chain_setcheck]
      and [hammer2_chain_testcheck], and the test of fsck.
    - Bitmap: a freemap element as 256 block states.
    - Freemap: hammer2_freemap.c.  BmapAlloc: one element; FreemapAlloc: the
      device-wide search; FreemapMaint: leaf creation, rotation of the freemap's
      own blocks, crash recovery.
    - Bulkfree: hammer2_bulkfree.c.  BulkfreeProof, BulkfreePass: its proofs.
    - BlockTable: the table routines of hammer2_chain.c ([hammer2_base_find],
      [hammer2_base_insert], [hammer2_base_delete], [hammer2_chain_countbrefs]).
      BlockTableProof, BlockTableSpec: invariant, specification, refinement.
    - ChainFind: [RB_SCAN] (hammer2_rb.h), [hammer2_chain_find],
      [hammer2_combined_find] and the [hammer2_chain_indkey_*] functions.
      ChainFindProof, IndkeyProof: their proofs.
    - Io: hammer2_io.c, [hammer2_get_volume] (hammer2_ondisk.c) and the back end.
      IoLemmas, IoProof: lemmas; IoSpec: the refinement; IoDedup: dedup bits.

    - Trans: the transaction machine.
    - Volumes: hammer2_ondisk.c and the header commit of [hammer2_vfs_sync].
      VolumesProof: headers; VolumeTable: the table of a multi-volume device.
    - ChainCore: the operations on chains, as threads interleave them; ChainLife:
      the machine and its invariant; ChainLifeProof, ChainSteps: the proofs.
    - Lookup: lookup and iteration; LookupSpec: what a search meets, well-formed
      topologies; LookupProof, LookupTop, LookupTheorems: the proofs.

    - Topology: nodes with their dirty flags, the device behind them, and
      [hammer2_chain_modify]; Reshape: creation, deletion, renaming, indirect blocks;
      Flush: hammer2_flush.c without the transactions; FreemapStorage: the allocator of
      Freemap as an instance of [Storage], and a small volume.
      ModifySpec: what modify and setflush do; CowProof, CowOps, Cow: copy on write.
    - Lz4: the compressor and the decompressor.  Lz4Decode: memory and the safety of
      decompression; Lz4Format: the block format and its reading; Lz4Encode: matches
      and the hash table; Lz4Theorems: the loop of the compressor and the results.
    - FileData: hammer2_strategy.c.  FileRead: the decompression callbacks; FileWrite:
      what a chain is after [hammer2_assign_physical]; FileStored: a stored block and
      its reading; FileTheorems: the round trip and the lost write; FileSafe: file
      writes under the copy-on-write invariant.
    - Xop: hammer2_admin.c and hammer2_cluster.c, the life of a cluster operation:
      its rings, [hammer2_xop_feed], [hammer2_xop_collect], [hammer2_xop_retire].
      XopProof: the ring as a queue ([xst]); XopTheorems: operations from beginning to
      end.  Ipdep: the dependencies of inodes as a machine of threads; IpdepTheorems.
    - DirRead: hammer2_xops.c, the back ends that read directories, on the topology of
      Lookup and the operations of Xop, with [hammer2_chain_inode_find] and the choice
      of a key in hammer2_dirent_create.  DirTheorems: listing, finding a name, finding a
      free key; DirWitness: a directory.
    - Ccms: hammer2_ccms.c, the recursive shared and exclusive lock, and threads that
      follow its protocol; CcmsTheorems: exclusion and progress.
    - Recovery: crash recovery at mount time (hammer2_vfsops.c), on the topology of
      Lookup and the freemap of Freemap, with [hammer2_chain_scan].  RecoveryProof: the
      scan of children; RecoveryWalk: the scan of the tree; RecoveryTheorems: the freemap
      afterwards and the results.
    - Tools: the volume set of the tools (lh1/src/sbin/hammer2/ondisk.c) over the CRT
      calls ([Crt]).  ToolsProof: its header reading is the driver's, the overflow of
      the table of file states.
    - Newfs: mkfs_hammer2.c, byte by byte.  NewfsBytes: the structures it makes;
      NewfsLayout: the areas of a volume; NewfsFormat: what is on the devices at the
      end; NewfsMount: the driver's reading of it; NewfsTheorems: the results.

    ** How code becomes definitions

    A C function is a function on explicit state; a handler that fails returns
    the error code of the source; [KKASSERT], [KASSERTMSG] and [hpanic] are the
    value [Panic] of [outcome], so a theorem that a call is [Done] says that none
    of them fires.  Unsigned arithmetic wraps where the source's type does
    ([u32], [u64]); signed [int] values are kept through [i32].  Arrays are lists
    read with [aget] and written with [aset] at indexes the code keeps in range.
    Structures are records with the C field names under a short prefix, one
    setter per group of fields the code assigns.  Pointers into shared structures
    are names: a dio is its [pbase], an in-memory chain its key.

    Loops are structural where they count down, [for_up] where they count up, and
    have fuel otherwise.  The fuel is the loop's own bound where the source has
    one ([maxloops = 300000] in the indirect block scan, [maxscan] in the cache
    cleaning, [maxloops] in the lookup); elsewhere the theorems prove it is enough: [alloc_fuel] of the
    allocator (freemap_alloc_correct), one more than the buffer's length in XXH64
    (xxh64_total), 64 in the search for a buffer mask (bmap_alloc_exact).

    What is not under src/ is a parameter: the Win32 calls and [malloc] ([Win32],
    laws [Win32Laws], with a concrete instance in IoSpec), zlib ([Zlib], laws
    [ZlibLaws]), and the CRT calls of the tools ([Crt]).  Three more interfaces stand
    between components that are under src/:
    - [LeafStore] is what hammer2_chain.c gives the freemap: leaves by their key.  Its
      laws ([LeafStoreLaws]) suppose that a leaf can be created, and a lookup finds a leaf
      or none, without an error of its own; [hammer2_chain_modify] may report an error, which the allocator ignores,
      crash recovery ignores for a leaf that exists and asserts for a new one, and
      bulkfree answers by leaving the element as it is.
    - [IoOps] is what hammer2_io.c gives the freemap and bulkfree; [cache_ops] of Io
      implements it.  [IoTotal] supposes that the two calls of the allocator complete
      (memory and device available).
    - [Storage] is the search of [hammer2_freemap_alloc] as the topology uses it, and
      [hammer2_freemap_adjust] for dedup.  The rest of [hammer2_freemap_alloc], an empty
      request and the rotation of the freemap's own blocks, is in
      [chain_freemap_alloc].  The law that a block handed out was not in use is proved
      for the allocator of Freemap in FreemapStorage ([freemap_storage_laws]).

    ** What the theorems show

    - Allocation (BmapAlloc, FreemapAlloc, FreemapMaint): no byte of the volume is
      handed out twice, over any sequence of requests; one request terminates, and
      takes and marks a free range, or leaves the map as it was with ENOSPC or EIO;
      the counters agree with the bitmap; leaf creation, block rotation and crash
      recovery do what they say, the last with the wrong block in half the cases.
    - Bulkfree (BulkfreeProof, BulkfreePass): a pass never frees referenced
      storage; a block needs two passes to become free; two defects in the
      accounting of the in-memory map.
    - Tables (BlockTableSpec, ChainFindProof, IndkeyProof): a block table is a
      finite map under insertion, deletion and lookup, with the statistics of the
      parent; the combined lookup finds the nearest child whatever the search
      hint and the shape of the tree; the range of a new indirect block contains
      what it must and takes at least half of the children.
    - Check codes (Crc, Xxh, Sha256, Check): the hash functions equal their
      reference definitions; a stored code passes its test; short corruptions are
      detected under the CRC methods, none under SHA192 in this port; what fsck
      accepts and rejects.
    - Buffer cache (IoSpec, IoDedup): the cache is a flat store of 64KB buffers as
      long as written buffers are released synchronously; delayed writes are lost,
      an access after a read error stops the program, a quick read that misses
      keeps the hash lock; the dedup bits interlock with their assertion.
    - Transactions (Trans): a flush runs alone, in every interleaving, and a sleeper
      is woken.
    - Volumes (VolumesProof, VolumeTable): a crash during the header commit leaves
      a valid header, on volumes with room for two copies; a mount chooses the newest valid one; the volume table tiles
      the device.
    - Chain life (ChainSteps): in every interleaving the counts are exact and no
      freed chain is used, with one exception, a drop of a chain that was deleted
      meanwhile; an undisturbed drop returns and frees what it must.
    - Lookup (LookupTheorems): a search returns the first leaf of the range and an
      iteration all of them, whatever is in memory, except a last key one past an
      indirect block, which is missed.
    - Topology (ModifySpec, Cow): modify moves a chain, with its contents, to a free
      block, and leaves everything as it was when there is none; the flag for the
      flush reaches the root of its inode; whatever runs and whatever subset of its
      writes has reached the device, the main topology of the header at mount time is
      intact.  The freemap's own blocks are not covered: each has eight slots in the
      reserved segment, of which the oldest is written over.
    - LZ4 (Lz4Theorems): every block that is compressed, under a limit that is not
      negative, decompresses to itself; no
      input makes the decompressor leave its buffers.
    - File data (FileTheorems, FileSafe, FileRead): a block that is written reads back,
      whatever the way it is stored; file writes with dedup never touch a block of the
      committed tree, if the file has check codes; a write over a chain without check
      codes can be lost to a dedup; a block that does not decompress makes the read
      clear memory before the buffer.
    - Cluster operations (XopTheorems): what is collected is what was fed, in key order,
      with rings that grow as needed (fewer than 2^30 responses), and nothing stays
      held.  Inode dependencies (IpdepTheorems): exclusion when no operation names an
      inode twice; a rename within any directory breaks it; for any two slots a wakeup
      can be lost.
    - Directories (DirTheorems): on every well-formed directory, whatever is in memory,
      listing gives all entries in order, a name gives its inode, and the key for a new
      entry is free.  The fuel of the loops is the number of entries.
    - Cache coherency locks (CcmsTheorems): in every interleaving no assertion fails and
      an exclusive holder is alone; a lock that nobody holds is granted to a waiter.
    - Crash recovery (RecoveryTheorems): it ends, reaches exactly the blocks newer than
      the freemap and marks them (with the restriction of [hammer2_freemap_adjust] above);
      an embedded directory entry among them stops the program.
    - newfs (NewfsTheorems, ToolsProof): on suitable devices it ends without an error,
      and a mount finds its volumes, super-root and PFS roots with checks that pass; a
      header of an older file system past the end of a volume wins over the new one;
      the tools and the driver read the same header.
    - Helpers (Subr): radixes and block sizes are least, times and error codes
      round-trip, the directory hash has its documented shape.

    ** Not modelled, and why

    The topology of Topology, Reshape and Flush is sequential: an operation runs with
    the nodes it uses locked, the data of a node stays loaded, and blocks are typed
    (bytes and a table of blockrefs).  The recovery of dedup bits when a chain is
    destroyed, the copy of the root blockset for mounted PFSs, the chain
    scan of bulkfree and the reptrack list are left out of it.  Its depth limits are
    those of the code (60 levels of flush) and one nested creation of indirect
    blocks.  The freemap's own use of the topology is still the interface [LeafStore].
    The back ends of hammer2_xops.c that change a directory, the in-memory inodes and
    the management threads are not modelled: they combine lookups with creation and
    deletion on one topology, while Lookup keeps only what lookups see.  The vnode
    operations, mounting and the ioctls sit on top of those.  The DMSG network protocol, the command line of newfs,
    the walk of fsck and the hammer2 utility are separate parts of the repository, not
    modelled beyond what is named above.  The
    Windows glue (Dokan callbacks, threads, compatibility headers) is I/O and
    operating system calls.  Rebalancing of the red-black tree, console output,
    statistics, timeouts and the throttling clock are left out of the modelled
    parts.  The chain life leaves out the non-blocking lock and [ref_hold],
    [unhold], [rehold]; the lookup is sequential: the reread after a race and the
    reptrack list are left out.  Reads and writes of a buffer by a client between getting and releasing
    it are explicit operations of IoSpec. *)

From Stdlib Require Import ZArith Lia Bool.
From stdpp Require Import base numbers list option.

#[global] Open Scope Z_scope.

(** * C integer arithmetic on [Z] *)

Declare Scope c_scope.
Delimit Scope c_scope with c.
Infix ".&" := Z.land (at level 40, left associativity) : c_scope.
Infix ".|" := Z.lor (at level 50, left associativity) : c_scope.
Infix ".^" := Z.lxor (at level 45, left associativity) : c_scope.
Infix ".<<" := Z.shiftl (at level 38, left associativity) : c_scope.
Infix ".>>" := Z.shiftr (at level 38, left associativity) : c_scope.
(** [x .&~ m] is the C idiom [x & ~m]. *)
Infix ".&~" := Z.ldiff (at level 40, left associativity) : c_scope.
#[global] Open Scope c_scope.

(** Conversions to the unsigned types of the code and to [int32_t]. *)
Definition u8 (x : Z) : Z := x mod 2 ^ 8.
Definition u16 (x : Z) : Z := x mod 2 ^ 16.
Definition u32 (x : Z) : Z := x mod 2 ^ 32.
Definition u64 (x : Z) : Z := x mod 2 ^ 64.
Definition i32 (x : Z) : Z := (x + 2 ^ 31) mod 2 ^ 32 - 2 ^ 31.

(** A C condition [if (x & m)]. *)
Definition tst (x m : Z) : bool := negb (Z.land x m =? 0).

(** * Fallible computations: [KKASSERT] and [hpanic] stop the program *)

Inductive outcome (A : Type) : Type :=
| Done (a : A)
| Panic.
Arguments Done {A} a.
Arguments Panic {A}.

Definition obind {A B} (m : outcome A) (k : A -> outcome B) : outcome B :=
  match m with
  | Done a => k a
  | Panic => Panic
  end.

(** [KKASSERT(b)] *)
Definition kassert (b : bool) : outcome unit := if b then Done tt else Panic.

Notation "'let!' x ':=' m 'in' k" := (obind m (fun x => k))
  (at level 10, x pattern, m at level 100, k at level 200,
   format "'[v' 'let!'  x  ':='  m  'in' '/' k ']'") : c_scope.
Notation "'assert!' b ';' k" := (obind (kassert b) (fun _ => k))
  (at level 10, b at level 100, k at level 200,
   format "'[v' 'assert!'  b ';' '/' k ']'") : c_scope.

Lemma obind_Done {A B} (m : outcome A) (k : A -> outcome B) b :
  obind m k = Done b <-> exists a, m = Done a /\ k a = Done b.
Proof.
  destruct m; simpl; split.
  - eauto.
  - intros (a' & [= <-] & H); exact H.
  - discriminate.
  - intros (a' & H & _); discriminate.
Qed.

Lemma kassert_Done b u : kassert b = Done u <-> b = true.
Proof. destruct b, u; simpl; split; congruence. Qed.

Lemma assert_true {A} b (k : outcome A) : b = true -> (assert! b; k) = k.
Proof. intros ->; reflexivity. Qed.

(** Invert every successful bind and assertion of the context. *)
Ltac inv_done :=
  repeat match goal with
  | H : obind _ _ = Done _ |- _ =>
      apply obind_Done in H; destruct H as (? & ? & H)
  | H : kassert _ = Done _ |- _ => apply kassert_Done in H
  | H : Done _ = Done _ |- _ => injection H; clear H; intros; subst
  | H : Panic = Done _ |- _ => discriminate H
  end.

(** * Bounds *)

Create HintDb h2 discriminated.
#[export] Hint Constants Opaque : h2.
Create Rewrite HintDb h2.

Lemma u64_range x : 0 <= u64 x < 2 ^ 64.
Proof. apply Z.mod_pos_bound; lia. Qed.
Lemma u32_range x : 0 <= u32 x < 2 ^ 32.
Proof. apply Z.mod_pos_bound; lia. Qed.
Lemma u16_range x : 0 <= u16 x < 2 ^ 16.
Proof. apply Z.mod_pos_bound; lia. Qed.
Lemma u8_range x : 0 <= u8 x < 2 ^ 8.
Proof. apply Z.mod_pos_bound; lia. Qed.
Lemma i32_range x : - 2 ^ 31 <= i32 x < 2 ^ 31.
Proof. unfold i32. pose proof (Z.mod_pos_bound (x + 2 ^ 31) (2 ^ 32)). lia. Qed.
#[export] Hint Resolve u64_range u32_range u16_range u8_range i32_range : h2.

Lemma u64_small x : 0 <= x < 2 ^ 64 -> u64 x = x.
Proof. apply Z.mod_small. Qed.
Lemma u32_small x : 0 <= x < 2 ^ 32 -> u32 x = x.
Proof. apply Z.mod_small. Qed.
Lemma u16_small x : 0 <= x < 2 ^ 16 -> u16 x = x.
Proof. apply Z.mod_small. Qed.
Lemma u8_small x : 0 <= x < 2 ^ 8 -> u8 x = x.
Proof. apply Z.mod_small. Qed.
Lemma i32_small x : - 2 ^ 31 <= x < 2 ^ 31 -> i32 x = x.
Proof. intros H. unfold i32. rewrite Z.mod_small; lia. Qed.
#[export] Hint Rewrite u64_small u32_small u16_small u8_small i32_small using lia : h2.

(** * Masks and shifts as arithmetic *)

Lemma pow2_pos n : 0 <= n -> 0 < 2 ^ n.
Proof. intros. apply Z.pow_pos_nonneg; lia. Qed.

Lemma mod_pow2_range x n : 0 <= n -> 0 <= x mod 2 ^ n < 2 ^ n.
Proof. intros. apply Z.mod_pos_bound, pow2_pos. exact H. Qed.

Lemma land_ones_mod x n : 0 <= n -> x .& Z.ones n = x mod 2 ^ n.
Proof. apply Z.land_ones. Qed.

Lemma ldiff_ones x n : 0 <= n -> x .&~ Z.ones n = 2 ^ n * (x / 2 ^ n).
Proof.
  intros Hn. rewrite Z.ldiff_ones_r, Z.shiftl_mul_pow2, Z.shiftr_div_pow2 by lia.
  lia.
Qed.

Lemma ldiff_ones_sub x n : 0 <= n -> x .&~ Z.ones n = x - x mod 2 ^ n.
Proof.
  intros Hn. rewrite ldiff_ones by lia.
  pose proof (pow2_pos n Hn). rewrite Z.mod_eq by lia. lia.
Qed.

Lemma ldiff_ones_le x n : 0 <= n -> x .&~ Z.ones n <= x.
Proof.
  intros Hn. rewrite ldiff_ones_sub by lia.
  pose proof (mod_pow2_range x n Hn). lia.
Qed.

Lemma ldiff_ones_divide x n : 0 <= n -> (2 ^ n | x .&~ Z.ones n).
Proof. intros Hn. rewrite ldiff_ones by lia. exists (x / 2 ^ n). lia. Qed.

(** [(x + m) & ~m] rounds up to a multiple of [m + 1 = 2^n]. *)
Lemma roundup_mask x n :
  0 <= n ->
  let y := (x + Z.ones n) .&~ Z.ones n in
  x <= y < x + 2 ^ n /\ (2 ^ n | y).
Proof.
  intros Hn y. split; [|apply ldiff_ones_divide; lia].
  subst y. rewrite ldiff_ones_sub by lia. rewrite Z.ones_equiv.
  pose proof (mod_pow2_range (x + Z.pred (2 ^ n)) n Hn). lia.
Qed.

(** Equality of integers bit by bit: reduce the goal to a boolean identity. *)
Ltac zbits k :=
  apply Z.bits_inj'; intros k ?;
  repeat first
    [ rewrite Z.land_spec | rewrite Z.lor_spec | rewrite Z.ldiff_spec
    | rewrite Z.lxor_spec | rewrite Z.bits_0
    | rewrite Z.shiftl_spec by lia | rewrite Z.shiftr_spec by lia ].

Lemma testbit_high r n k : 0 <= r < 2 ^ n -> n <= k -> Z.testbit r k = false.
Proof.
  intros Hr Hk. destruct (decide (r = 0)) as [->|]; [apply Z.bits_0|].
  apply Z.bits_above_log2; [lia|]. apply Z.lt_le_trans with n; [|lia].
  apply Z.log2_lt_pow2; lia.
Qed.

Lemma testbit_low_mul q n k : 0 <= n -> k < n -> Z.testbit (q * 2 ^ n) k = false.
Proof.
  intros Hn Hk. destruct (decide (k < 0)); [apply Z.testbit_neg_r; lia|].
  rewrite <- Z.shiftl_mul_pow2, Z.shiftl_spec, Z.testbit_neg_r by lia. reflexivity.
Qed.

(** Or-ing disjoint fields is addition. *)
Lemma lor_disjoint x r n :
  0 <= n -> (2 ^ n | x) -> 0 <= r < 2 ^ n -> x .| r = x + r.
Proof.
  intros Hn [q ->] Hr.
  assert (Hland : (q * 2 ^ n) .& r = 0).
  { zbits k. destruct (decide (k < n)).
    - rewrite testbit_low_mul by lia. reflexivity.
    - rewrite (testbit_high r n) by lia. apply andb_false_r. }
  rewrite <- Z.lxor_lor, <- Z.add_nocarry_lxor by exact Hland. reflexivity.
Qed.

Lemma lt_pow2_bits x n :
  0 <= n -> 0 <= x -> (forall k, n <= k -> Z.testbit x k = false) -> x < 2 ^ n.
Proof.
  intros Hn Hx Hb. apply Z.lt_nge. intros Hge. pose proof (pow2_pos n Hn).
  assert (n <= Z.log2 x) by (apply Z.log2_le_pow2; lia).
  pose proof (Z.bit_log2 x ltac:(lia)) as E. rewrite Hb in E by lia. discriminate.
Qed.

Lemma lor_range x y n : 0 <= n -> 0 <= x < 2 ^ n -> 0 <= y < 2 ^ n -> 0 <= x .| y < 2 ^ n.
Proof.
  intros Hn Hx Hy. split; [apply Z.lor_nonneg; lia|].
  apply lt_pow2_bits; [lia|apply Z.lor_nonneg; lia|]. intros k Hk.
  rewrite Z.lor_spec, !(testbit_high _ n) by lia. reflexivity.
Qed.

Lemma lxor_range x y n : 0 <= n -> 0 <= x < 2 ^ n -> 0 <= y < 2 ^ n -> 0 <= x .^ y < 2 ^ n.
Proof.
  intros Hn Hx Hy. split; [apply Z.lxor_nonneg; lia|].
  apply lt_pow2_bits; [lia|apply Z.lxor_nonneg; lia|]. intros k Hk.
  rewrite Z.lxor_spec, !(testbit_high _ n) by lia. reflexivity.
Qed.

Lemma land_range x m n : 0 <= n -> 0 <= m < 2 ^ n -> 0 <= x .& m < 2 ^ n.
Proof.
  intros Hn Hm. split; [apply Z.land_nonneg; lia|].
  apply lt_pow2_bits; [lia|apply Z.land_nonneg; lia|]. intros k Hk.
  rewrite Z.land_spec, (testbit_high m n) by lia. apply andb_false_r.
Qed.

Lemma ldiff_range x y n : 0 <= n -> 0 <= x < 2 ^ n -> 0 <= y -> 0 <= x .&~ y < 2 ^ n.
Proof.
  intros Hn Hx Hy. split; [apply Z.ldiff_nonneg; lia|].
  apply lt_pow2_bits; [lia|apply Z.ldiff_nonneg; lia|]. intros k Hk.
  rewrite Z.ldiff_spec, (testbit_high x n) by lia. reflexivity.
Qed.

Lemma tst_true x m : tst x m = true <-> x .& m <> 0.
Proof. unfold tst. rewrite negb_true_iff, Z.eqb_neq. reflexivity. Qed.
Lemma tst_false x m : tst x m = false <-> x .& m = 0.
Proof. unfold tst. rewrite negb_false_iff, Z.eqb_eq. reflexivity. Qed.

(** Testing one bit. *)
Lemma tst_pow2 x k : 0 <= k -> tst x (2 ^ k) = Z.testbit x k.
Proof.
  intros Hk. apply Bool.eq_iff_eq_true. rewrite tst_true. split.
  - intros H. destruct (Z.testbit x k) eqn:E; [reflexivity|]. destruct H. zbits j.
    rewrite Z.pow2_bits_eqb by lia. destruct (Z.eqb_spec k j) as [<-|]; [rewrite E; reflexivity|].
    apply andb_false_r.
  - intros E H. apply (f_equal (fun z => Z.testbit z k)) in H.
    rewrite Z.land_spec, E, Z.pow2_bits_true, Z.bits_0 in H by lia. discriminate H.
Qed.

(** * Arrays: C array accesses with the index in range *)

Section array.
Context {A : Type} `{!Inhabited A}.

(** [a[i]] *)
Definition aget (l : list A) (i : Z) : A := l !!! Z.to_nat i.
(** [a[i] = x] *)
Definition aset (l : list A) (i : Z) (x : A) : list A := <[Z.to_nat i := x]> l.

Definition alen (l : list A) : Z := Z.of_nat (length l).

Lemma alen_aset l i x : alen (aset l i x) = alen l.
Proof. unfold alen, aset. rewrite length_insert. reflexivity. Qed.

Lemma aget_aset_eq l i x : 0 <= i < alen l -> aget (aset l i x) i = x.
Proof.
  unfold alen. intros H. unfold aget, aset.
  apply list_lookup_total_insert_eq. lia.
Qed.

Lemma aget_aset_ne l i j x :
  0 <= i -> 0 <= j -> i <> j -> aget (aset l i x) j = aget l j.
Proof.
  intros. unfold aget, aset. apply list_lookup_total_insert_ne. lia.
Qed.

Lemma aset_aget l i : aset l i (aget l i) = l.
Proof.
  unfold aset, aget. destruct (l !! Z.to_nat i) eqn:E.
  - rewrite (list_lookup_total_correct _ _ _ E). apply list_insert_id. exact E.
  - apply list_insert_ge. apply lookup_ge_None_1. exact E.
Qed.

Lemma aset_aset_eq l i x y : aset (aset l i x) i y = aset l i y.
Proof. unfold aset. apply list_insert_insert_eq. Qed.

Lemma aget_ext l1 l2 :
  alen l1 = alen l2 ->
  (forall i, 0 <= i < alen l1 -> aget l1 i = aget l2 i) -> l1 = l2.
Proof.
  unfold alen. intros Hl H. apply list_eq_same_length with (length l1); try lia.
  intros i x y Hi H1 H2. specialize (H (Z.of_nat i) ltac:(lia)).
  unfold aget in H. rewrite Nat2Z.id in H.
  apply list_lookup_total_correct in H1. apply list_lookup_total_correct in H2.
  congruence.
Qed.

Lemma aget_elem l i : 0 <= i < alen l -> aget l i ∈ l.
Proof.
  unfold alen, aget. intros H. apply list_elem_of_lookup_total_2. lia.
Qed.
End array.
#[export] Hint Rewrite @alen_aset : h2.
#[global] Arguments aget {_ _} l i : simpl never.
#[global] Arguments aset {_} l i x : simpl never.
#[global] Arguments alen {_} l : simpl never.

(** * Bounded counting loops

    [for_up n i body s] runs [body] on [i, i+1, ..., i+n-1]; [body] returns
    [inl] to continue with a new state and [inr] to leave the loop (a [break],
    [goto] or [return]). *)
Fixpoint for_up {S R} (n : nat) (i : Z) (body : Z -> S -> S + R) (s : S) : S + R :=
  match n with
  | O => inl s
  | S n' =>
      match body i s with
      | inl s' => for_up n' (i + 1) body s'
      | inr r => inr r
      end
  end.

Lemma for_up_inl {S R} (P : Z -> S -> Prop) n i (body : Z -> S -> S + R) s s' :
  P i s ->
  (forall j t t', i <= j < i + Z.of_nat n -> P j t -> body j t = inl t' -> P (j + 1) t') ->
  for_up n i body s = inl s' -> P (i + Z.of_nat n) s'.
Proof.
  revert i s. induction n as [|n IH]; intros i s HP Hstep Hrun; simpl in Hrun.
  - injection Hrun as <-. replace (i + Z.of_nat 0) with i by lia. exact HP.
  - destruct (body i s) as [t|r] eqn:Hb; [|discriminate].
    replace (i + Z.of_nat (Datatypes.S n)) with ((i + 1) + Z.of_nat n) by lia.
    apply IH with t; [|intros; eapply Hstep; eauto; lia|exact Hrun].
    eapply Hstep; eauto. lia.
Qed.

Lemma for_up_inr {S R} (P : Z -> S -> Prop) n i (body : Z -> S -> S + R) s r :
  P i s ->
  (forall j t t', i <= j < i + Z.of_nat n -> P j t -> body j t = inl t' -> P (j + 1) t') ->
  for_up n i body s = inr r ->
  exists j t, i <= j < i + Z.of_nat n /\ P j t /\ body j t = inr r.
Proof.
  revert i s. induction n as [|n IH]; intros i s HP Hstep Hrun; simpl in Hrun.
  - discriminate.
  - destruct (body i s) as [t|r'] eqn:Hb.
    + destruct (IH (i + 1) t) as (j & t' & Hj & HPj & Hbj); eauto.
      * eapply Hstep; eauto. lia.
      * intros; eapply Hstep; eauto; lia.
      * exists j, t'. repeat split; auto; lia.
    + injection Hrun as <-. exists i, s. repeat split; auto; lia.
Qed.

(** A computation on integers that a range split settles. *)
Ltac div_mod_lia := Z.div_mod_to_equations; lia.
