(* ===== verification/Disk.v ===== *)
(** The on-media format of [hammer2_disk.h] and the shared in-memory records.

    Constants are notations for their numeric values, so that [lia] computes
    with them; the data that several components share ([blockref],
    [bmap_data]) are records with the field names of the C structures, and one
    functional update per field the code assigns.  Reserved fields, which the
    code never reads, are left out. *)

From Stdlib Require Import ZArith Lia.
From stdpp Require Import base numbers list option.
From S2P Require Import Prelude.

(** ** Sizes and radixes (hammer2_disk.h) *)

Abbreviation HAMMER2_ALLOC_MIN := 1024 (only parsing).
Abbreviation HAMMER2_RADIX_MIN := 10 (only parsing).
Abbreviation HAMMER2_ALLOC_MAX := 65536 (only parsing).
Abbreviation HAMMER2_RADIX_MAX := 16 (only parsing).
Abbreviation HAMMER2_SEGSIZE := 4194304 (only parsing).
Abbreviation HAMMER2_SEGRADIX := 22 (only parsing).
Abbreviation HAMMER2_SEGMASK := 4194303 (only parsing).
Abbreviation HAMMER2_PBUFRADIX := 16 (only parsing).
Abbreviation HAMMER2_PBUFSIZE := 65536 (only parsing).
Abbreviation HAMMER2_PBUFMASK := 65535 (only parsing).
Abbreviation HAMMER2_LBUFRADIX := 14 (only parsing).
Abbreviation HAMMER2_LBUFSIZE := 16384 (only parsing).
Abbreviation HAMMER2_VOLUME_ALIGNMASK64 := 8388607 (only parsing).
Abbreviation HAMMER2_ZONE_BYTES64 := 2147483648 (only parsing).
Abbreviation HAMMER2_ZONE_MASK64 := 2147483647 (only parsing).
Abbreviation HAMMER2_ZONE_SEG := 4194304 (only parsing).
Abbreviation HAMMER2_ZONE_FREEMAP_INC := 5 (only parsing).
Abbreviation HAMMER2_ZONE_FREEMAP_00 := 1 (only parsing).
Abbreviation HAMMER2_ZONE_FREEMAP_END := 41 (only parsing).
Abbreviation HAMMER2_NFREEMAPS := 8 (only parsing).
Abbreviation HAMMER2_FREEMAP_LEVEL5_RADIX := 62 (only parsing).
Abbreviation HAMMER2_FREEMAP_LEVEL4_RADIX := 54 (only parsing).
Abbreviation HAMMER2_FREEMAP_LEVEL3_RADIX := 46 (only parsing).
Abbreviation HAMMER2_FREEMAP_LEVEL2_RADIX := 38 (only parsing).
Abbreviation HAMMER2_FREEMAP_LEVEL1_RADIX := 30 (only parsing).
Abbreviation HAMMER2_FREEMAP_LEVEL0_RADIX := 22 (only parsing).
Abbreviation HAMMER2_FREEMAP_LEVELN_PSIZE := 32768 (only parsing).
Abbreviation HAMMER2_FREEMAP_LEVEL1_SIZE := 1073741824 (only parsing).
Abbreviation HAMMER2_FREEMAP_LEVEL0_SIZE := 4194304 (only parsing).
Abbreviation HAMMER2_FREEMAP_LEVEL1_MASK := 1073741823 (only parsing).
Abbreviation HAMMER2_FREEMAP_LEVEL0_MASK := 4194303 (only parsing).
Abbreviation HAMMER2_FREEMAP_COUNT := 256 (only parsing).
Abbreviation HAMMER2_FREEMAP_BLOCK_RADIX := 14 (only parsing).
Abbreviation HAMMER2_FREEMAP_BLOCK_SIZE := 16384 (only parsing).
Abbreviation HAMMER2_FREEMAP_BLOCK_MASK := 16383 (only parsing).
Abbreviation HAMMER2_BMAP_ALLONES := 18446744073709551615 (only parsing).
Abbreviation HAMMER2_BMAP_ELEMENTS := 8 (only parsing).
Abbreviation HAMMER2_BMAP_BITS_PER_ELEMENT := 64 (only parsing).
Abbreviation HAMMER2_BMAP_INDEX_RADIX := 5 (only parsing).
Abbreviation HAMMER2_BMAP_BLOCKS_PER_ELEMENT := 32 (only parsing).
Abbreviation HAMMER2_BMAP_INDEX_SIZE := 524288 (only parsing).
Abbreviation HAMMER2_BMAP_INDEX_MASK := 524287 (only parsing).
Abbreviation HAMMER2_BMAP_SIZE := 4194304 (only parsing).
Abbreviation HAMMER2_BMAP_MASK := 4194303 (only parsing).
Abbreviation HAMMER2_OFF_MASK_RADIX := 63 (only parsing).
Abbreviation HAMMER2_KEY_MAX := 18446744073709551615 (only parsing).
Abbreviation HAMMER2_BLOCKREF_LEAF_MAX := 65535 (only parsing).
Abbreviation HAMMER2_MAX_VOLUMES := 64 (only parsing).
Abbreviation HAMMER2_ROOT_VOLUME := 0 (only parsing).

Abbreviation HAMMER2_BREF_TYPE_EMPTY := 0 (only parsing).
Abbreviation HAMMER2_BREF_TYPE_INODE := 1 (only parsing).
Abbreviation HAMMER2_BREF_TYPE_INDIRECT := 2 (only parsing).
Abbreviation HAMMER2_BREF_TYPE_DATA := 3 (only parsing).
Abbreviation HAMMER2_BREF_TYPE_DIRENT := 4 (only parsing).
Abbreviation HAMMER2_BREF_TYPE_FREEMAP_NODE := 5 (only parsing).
Abbreviation HAMMER2_BREF_TYPE_FREEMAP_LEAF := 6 (only parsing).
Abbreviation HAMMER2_BREF_TYPE_INVALID := 7 (only parsing).
Abbreviation HAMMER2_BREF_TYPE_FREEMAP := 254 (only parsing).
Abbreviation HAMMER2_BREF_TYPE_VOLUME := 255 (only parsing).

(** ** Error bits (hammer2.h) *)

Abbreviation HAMMER2_ERROR_EIO := 1 (only parsing).
Abbreviation HAMMER2_ERROR_CHECK := 2 (only parsing).
Abbreviation HAMMER2_ERROR_BADBREF := 16 (only parsing).
Abbreviation HAMMER2_ERROR_ENOSPC := 32 (only parsing).
Abbreviation HAMMER2_ERROR_ENOENT := 64 (only parsing).
Abbreviation HAMMER2_ERROR_ENOTEMPTY := 128 (only parsing).
Abbreviation HAMMER2_ERROR_EAGAIN := 256 (only parsing).
Abbreviation HAMMER2_ERROR_ENOTDIR := 512 (only parsing).
Abbreviation HAMMER2_ERROR_EISDIR := 1024 (only parsing).
Abbreviation HAMMER2_ERROR_ABORTED := 4096 (only parsing).
Abbreviation HAMMER2_ERROR_EOF := 8192 (only parsing).
Abbreviation HAMMER2_ERROR_EINVAL := 16384 (only parsing).
Abbreviation HAMMER2_ERROR_EEXIST := 32768 (only parsing).
Abbreviation HAMMER2_ERROR_EOPNOTSUPP := 268435456 (only parsing).

(** [round_down(x, y)] of the port layer, and the two freemap base macros. *)
Definition round_down (x y : Z) : Z := x .&~ (y - 1).
Definition H2FMBASE (key radix : Z) : Z := round_down key (1 .<< radix).
Definition H2FMZONEBASE (key : Z) : Z := key .&~ HAMMER2_FREEMAP_LEVEL1_MASK.

Lemma H2FMBASE_ldiff key radix : H2FMBASE key radix = key .&~ Z.ones radix.
Proof.
  unfold H2FMBASE, round_down. rewrite Z.ones_equiv, <- Z.sub_1_r.
  destruct (decide (0 <= radix)).
  - rewrite Z.shiftl_1_l. reflexivity.
  - rewrite Z.shiftl_1_l. reflexivity.
Qed.

Lemma H2FMBASE_eq key radix : 0 <= radix -> H2FMBASE key radix = key - key mod 2 ^ radix.
Proof. intros. rewrite H2FMBASE_ldiff. apply ldiff_ones_sub. exact H. Qed.

Lemma H2FMZONEBASE_eq key : H2FMZONEBASE key = key - key mod 2 ^ 30.
Proof.
  unfold H2FMZONEBASE. change HAMMER2_FREEMAP_LEVEL1_MASK with (Z.ones 30).
  apply ldiff_ones_sub. lia.
Qed.

(** ** [struct hammer2_bmap_data]: 4MB of storage, 256 blocks of 16KB *)

Record bmap_data := Bmap {
  bm_linear : Z;          (* s32: byte offset of the sub-block allocator *)
  bm_class : Z;           (* u16: (type << 8) | radix, 0 when free *)
  bm_avail : Z;           (* u32: bytes in unallocated 16KB blocks *)
  bm_bitmapq : list Z     (* u64[8], two bits per block *)
}.

#[export] Instance bmap_data_inhabited : Inhabited bmap_data :=
  populate (Bmap 0 0 0 []).
#[export] Instance bmap_data_eq_dec : EqDecision bmap_data.
Proof. solve_decision. Defined.

Definition set_linear (v : Z) (b : bmap_data) : bmap_data :=
  Bmap v (bm_class b) (bm_avail b) (bm_bitmapq b).
Definition set_class (v : Z) (b : bmap_data) : bmap_data :=
  Bmap (bm_linear b) v (bm_avail b) (bm_bitmapq b).
Definition set_avail (v : Z) (b : bmap_data) : bmap_data :=
  Bmap (bm_linear b) (bm_class b) v (bm_bitmapq b).
Definition set_bitmapq (v : list Z) (b : bmap_data) : bmap_data :=
  Bmap (bm_linear b) (bm_class b) (bm_avail b) v.

(** ** [struct hammer2_blockref], the fields the modelled code uses.
    [br_data_count] and [br_inode_count] are the [embed.stats] view of the
    embedded union. *)

Record blockref := Bref {
  br_type : Z;
  br_methods : Z;
  br_keybits : Z;
  br_leaf_count : Z;
  br_key : Z;
  br_mirror_tid : Z;
  br_modify_tid : Z;
  br_data_off : Z;
  br_data_count : Z;
  br_inode_count : Z;
  br_flags : Z;
  br_check : list Z       (* check.buf[64] *)
}.

#[export] Instance blockref_inhabited : Inhabited blockref :=
  populate (Bref 0 0 0 0 0 0 0 0 0 0 0 []).
#[export] Instance blockref_eq_dec : EqDecision blockref.
Proof. solve_decision. Defined.

(** A [bzero]ed entry of a block table. *)
Definition bref_zero : blockref := Bref 0 0 0 0 0 0 0 0 0 0 0 (replicate 64 0).

Definition set_data_off (v : Z) (b : blockref) : blockref :=
  Bref (br_type b) (br_methods b) (br_keybits b) (br_leaf_count b) (br_key b)
       (br_mirror_tid b) (br_modify_tid b) v (br_data_count b) (br_inode_count b) (br_flags b) (br_check b).
Definition set_stats (lc dc ic : Z) (b : blockref) : blockref :=
  Bref (br_type b) (br_methods b) (br_keybits b) lc (br_key b)
       (br_mirror_tid b) (br_modify_tid b) (br_data_off b) dc ic (br_flags b) (br_check b).
Definition set_tids (mirror modify : Z) (b : blockref) : blockref :=
  Bref (br_type b) (br_methods b) (br_keybits b) (br_leaf_count b) (br_key b)
       mirror modify (br_data_off b) (br_data_count b) (br_inode_count b) (br_flags b) (br_check b).
Definition set_check (flags : Z) (check : list Z) (b : blockref) : blockref :=
  Bref (br_type b) (br_methods b) (br_keybits b) (br_leaf_count b) (br_key b)
       (br_mirror_tid b) (br_modify_tid b) (br_data_off b) (br_data_count b) (br_inode_count b) flags check.
Definition set_key (key keybits : Z) (b : blockref) : blockref :=
  Bref (br_type b) (br_methods b) keybits (br_leaf_count b) key
       (br_mirror_tid b) (br_modify_tid b) (br_data_off b) (br_data_count b) (br_inode_count b) (br_flags b) (br_check b).
