(* ===== verification/Crc.v ===== *)
(** The software CRC32C of [hammer2.h] ([crc32c], [hammer2_icrc32],
    [hammer2_icrc32c]) and of [hammer2_user_subs.c] ([crc32c_raw],
    [iscsi_crc32], [iscsi_crc32_ext]).

    Buffers are lists of bytes in [Z].  The CRC is the check code of the volume
    header sections, of freemap blocks and of check method ISCSI32, and the
    kernel of the directory hash. *)

From Stdlib Require Import ZArith Lia Bool.
From stdpp Require Import base numbers list option.
From S2P Require Import Prelude.

Abbreviation CRC32C_POLY := 2197175160 (only parsing).   (* 0x82F63B78 *)

(** [crc = (crc >> 1) ^ (0x82F63B78U & (~(crc & 1) + 1))] *)
Definition crc32c_bit (crc : Z) : Z :=
  (crc .>> 1) .^ (CRC32C_POLY .& u32 (Z.lnot (crc .& 1) + 1)).

(** The inner [for (k = 0; k < 8; ++k)] loop. *)
Definition crc32c_byte (crc b : Z) : Z :=
  Nat.iter 8 crc32c_bit (crc .^ b).

Definition crc32c (crc : Z) (buf : list Z) : Z := foldl crc32c_byte crc buf.

(** C's [~] at 32 bits. *)
Definition not32 (x : Z) : Z := 4294967295 .^ x.

Definition hammer2_icrc32 (buf : list Z) : Z := not32 (crc32c (not32 0) buf).
Definition hammer2_icrc32c (buf : list Z) (crc : Z) : Z :=
  not32 (crc32c (not32 (u32 crc)) buf).

(** The user-space copies. *)
Definition crc32c_raw (crc : Z) (buf : list Z) : Z :=
  foldl crc32c_byte crc buf.
Definition iscsi_crc32 (buf : list Z) : Z := not32 (crc32c_raw (not32 0) buf).
Definition iscsi_crc32_ext (buf : list Z) (ocrc : Z) : Z :=
  not32 (crc32c_raw (not32 ocrc) buf).

Definition is_byte (b : Z) : Prop := 0 <= b < 2 ^ 8.

(** Every element of a literal buffer is a byte. *)
Ltac bytes :=
  repeat first
    [apply List.Forall_nil | apply List.Forall_cons; [unfold is_byte; lia|]].

Lemma crc32c_cons crc b buf : crc32c crc (b :: buf) = crc32c (crc32c_byte crc b) buf.
Proof. reflexivity. Qed.

Lemma crc32c_byte_eq crc b : crc32c_byte crc b = Nat.iter 8 crc32c_bit (crc .^ b).
Proof. reflexivity. Qed.

(** * Ranges *)

Lemma shiftr1_range x n : 0 < n -> 0 <= x < 2 ^ n -> 0 <= x .>> 1 < 2 ^ (n - 1).
Proof.
  intros Hn Hx. rewrite Z.shiftr_div_pow2 by lia. change (2 ^ 1) with 2.
  replace n with (Z.succ (n - 1)) in Hx by lia. rewrite Z.pow_succ_r in Hx by lia.
  div_mod_lia.
Qed.

(** The conditional xor, as arithmetic on the low bit. *)
Lemma crc32c_bit_odd crc :
  crc32c_bit crc = (crc .>> 1) .^ (if Z.odd crc then CRC32C_POLY else 0).
Proof.
  unfold crc32c_bit. f_equal. change 1 with (Z.ones 1) at 1.
  rewrite Z.land_ones by lia. change (2 ^ 1) with 2. rewrite Zmod_odd.
  destruct (Z.odd crc); reflexivity.
Qed.

Lemma crc32c_bit_range crc : 0 <= crc < 2 ^ 32 -> 0 <= crc32c_bit crc < 2 ^ 32.
Proof.
  intros H. rewrite crc32c_bit_odd. pose proof (shiftr1_range crc 32 ltac:(lia) H) as Hs.
  change (2 ^ (32 - 1)) with (2 ^ 31) in Hs. apply lxor_range; [lia|lia|]. destruct (Z.odd crc); lia.
Qed.

Lemma iter_bit_range n crc :
  0 <= crc < 2 ^ 32 -> 0 <= Nat.iter n crc32c_bit crc < 2 ^ 32.
Proof. intros H. induction n; [exact H|]. apply crc32c_bit_range. exact IHn. Qed.

Lemma crc32c_byte_range crc b :
  0 <= crc < 2 ^ 32 -> is_byte b -> 0 <= crc32c_byte crc b < 2 ^ 32.
Proof.
  intros Hc Hb. apply iter_bit_range, lxor_range; unfold is_byte in Hb; lia.
Qed.

Lemma crc32c_range buf : forall crc,
  0 <= crc < 2 ^ 32 -> Forall is_byte buf -> 0 <= crc32c crc buf < 2 ^ 32.
Proof.
  induction buf as [|b buf IH]; intros crc Hc Hb; [exact Hc|].
  inversion Hb; subst. rewrite crc32c_cons. apply IH; [apply crc32c_byte_range|]; assumption.
Qed.

(** * The bit step is injective and linear *)

Lemma crc32c_bit_top crc :
  0 <= crc < 2 ^ 32 -> Z.testbit (crc32c_bit crc) 31 = Z.odd crc.
Proof.
  intros H. rewrite crc32c_bit_odd, Z.lxor_spec.
  pose proof (shiftr1_range crc 32 ltac:(lia) H) as Hs. change (2 ^ (32 - 1)) with (2 ^ 31) in Hs.
  rewrite (testbit_high (crc .>> 1) 31) by lia.
  destruct (Z.odd crc); reflexivity.
Qed.

Lemma crc32c_bit_inj x y :
  0 <= x < 2 ^ 32 -> 0 <= y < 2 ^ 32 -> crc32c_bit x = crc32c_bit y -> x = y.
Proof.
  intros Hx Hy E.
  assert (Ho : Z.odd x = Z.odd y) by (rewrite <- !crc32c_bit_top, E by assumption; reflexivity).
  rewrite !crc32c_bit_odd, Ho in E.
  assert (Hs : x .>> 1 = y .>> 1).
  { rewrite <- (Z.lxor_0_r (x .>> 1)), <- (Z.lxor_0_r (y .>> 1)).
    rewrite <- (Z.lxor_nilpotent (if Z.odd y then CRC32C_POLY else 0)).
    rewrite <- !Z.lxor_assoc, E. reflexivity. }
  rewrite !Z.shiftr_div_pow2 in Hs by lia. change (2 ^ 1) with 2 in Hs.
  pose proof (Zmod_odd x). pose proof (Zmod_odd y). rewrite Ho in *.
  rewrite (Z.div_mod x 2), (Z.div_mod y 2) by lia. congruence.
Qed.

Lemma iter_bit_inj n x y :
  0 <= x < 2 ^ 32 -> 0 <= y < 2 ^ 32 ->
  Nat.iter n crc32c_bit x = Nat.iter n crc32c_bit y -> x = y.
Proof.
  intros Hx Hy. induction n as [|n IH]; [auto|]. cbn [Nat.iter nat_rect]. intros E.
  apply IH. apply crc32c_bit_inj; try apply iter_bit_range; auto.
Qed.

Lemma lxor_cancel_r x y z : x .^ z = y .^ z -> x = y.
Proof.
  intros E. rewrite <- (Z.lxor_0_r x), <- (Z.lxor_0_r y), <- (Z.lxor_nilpotent z).
  rewrite <- !Z.lxor_assoc, E. reflexivity.
Qed.

(** Different states stay different over a common suffix. *)
Lemma crc32c_inj buf : forall x y,
  0 <= x < 2 ^ 32 -> 0 <= y < 2 ^ 32 -> Forall is_byte buf ->
  crc32c x buf = crc32c y buf -> x = y.
Proof.
  induction buf as [|b buf IH]; intros x y Hx Hy Hb E; [exact E|].
  inversion Hb; subst. rewrite !crc32c_cons in E. apply IH in E; try apply crc32c_byte_range; try assumption.
  rewrite !crc32c_byte_eq in E. unfold is_byte in *.
  apply iter_bit_inj in E; try (apply lxor_range; lia).
  apply lxor_cancel_r in E. exact E.
Qed.

(** Bits that the step only shifts can be xored before or after it. *)
Lemma crc32c_bit_shift x w : crc32c_bit (x .^ (w .<< 1)) = crc32c_bit x .^ w.
Proof.
  rewrite !crc32c_bit_odd.
  assert (Hodd : Z.odd (x .^ (w .<< 1)) = Z.odd x).
  { rewrite <- !Z.bit0_odd, Z.lxor_spec, Z.shiftl_spec_low by lia.
    apply xorb_false_r. }
  rewrite Hodd, Z.shiftr_lxor, Z.shiftr_shiftl_l, Z.sub_diag, Z.shiftl_0_r by lia.
  rewrite !Z.lxor_assoc. f_equal. apply Z.lxor_comm.
Qed.

Lemma iter_bit_shift n x w :
  Nat.iter n crc32c_bit (x .^ (w .<< Z.of_nat n)) = Nat.iter n crc32c_bit x .^ w.
Proof.
  revert w. induction n as [|n IH]; intros w; [rewrite Z.shiftl_0_r; reflexivity|].
  cbn [Nat.iter nat_rect]. replace (Z.of_nat (S n)) with (1 + Z.of_nat n) by lia.
  rewrite <- Z.shiftl_shiftl by lia. rewrite <- crc32c_bit_shift. f_equal. apply IH.
Qed.

(** Little-endian value of a byte string. *)
Fixpoint le_value (bs : list Z) : Z :=
  match bs with
  | [] => 0
  | b :: bs => b .^ (le_value bs .<< 8)
  end.

(** Feeding bytes one at a time is xoring the word in and stepping. *)
Lemma crc32c_word bs : forall crc,
  crc32c crc bs = Nat.iter (8 * length bs) crc32c_bit (crc .^ le_value bs).
Proof.
  induction bs as [|b bs IH]; intros crc.
  - cbn. rewrite Z.lxor_0_r. reflexivity.
  - rewrite crc32c_cons.
    cbn [le_value length]. rewrite IH, crc32c_byte_eq.
    replace (8 * S (length bs))%nat with (8 * length bs + 8)%nat by lia.
    rewrite Nat.iter_add. f_equal.
    rewrite <- Z.lxor_assoc. change (le_value bs .<< 8) with (le_value bs .<< Z.of_nat 8).
    rewrite iter_bit_shift. reflexivity.
Qed.

Lemma le_value_range bs :
  Forall is_byte bs -> 0 <= le_value bs < 2 ^ (8 * Z.of_nat (length bs)).
Proof.
  induction 1 as [|b bs Hb Hbs IH]; [cbn; lia|]. cbn [le_value length].
  replace (8 * Z.of_nat (S (length bs))) with (8 * Z.of_nat (length bs) + 8) by lia.
  apply lxor_range; [lia| |].
  - unfold is_byte in Hb. split; [lia|]. apply Z.lt_le_trans with (2 ^ 8); [lia|].
    apply Z.pow_le_mono_r; lia.
  - rewrite Z.shiftl_mul_pow2, Z.pow_add_r by lia. nia.
Qed.

Lemma le_value_inj b1 : forall b2,
  Forall is_byte b1 -> Forall is_byte b2 -> length b1 = length b2 ->
  le_value b1 = le_value b2 -> b1 = b2.
Proof.
  induction b1 as [|x b1 IH]; intros [|y b2] H1 H2 Hl E; try discriminate; [reflexivity|].
  inversion H1 as [|? ? Hx Hb1]; inversion H2 as [|? ? Hy Hb2]; subst. cbn [le_value] in E.
  assert (Hxy : x = y).
  { apply Z.bits_inj'. intros k Hk. unfold is_byte in Hx, Hy.
    destruct (decide (k < 8)); [|rewrite !(testbit_high _ 8) by lia; reflexivity].
    apply (f_equal (fun z => Z.testbit z k)) in E.
    rewrite !Z.lxor_spec, !Z.shiftl_spec_low, !xorb_false_r in E by lia. exact E. }
  subst y. f_equal. apply IH; try assumption; [injection Hl; auto|].
  apply (f_equal (fun z => z .>> 8)) in E. rewrite !Z.shiftr_lxor in E.
  rewrite !Z.shiftr_shiftl_l, Z.sub_diag, !Z.shiftl_0_r in E by lia.
  rewrite !(Z.lxor_comm (x .>> 8)) in E. apply lxor_cancel_r in E. exact E.
Qed.

Lemma crc32c_app a : forall crc b, crc32c crc (a ++ b) = crc32c (crc32c crc a) b.
Proof. induction a as [|x a IH]; intros crc b; [reflexivity|].
  change ((x :: a) ++ b) with (x :: (a ++ b)). rewrite !crc32c_cons. apply IH.
Qed.

Lemma not32_invol x : not32 (not32 x) = x.
Proof. unfold not32. rewrite <- Z.lxor_assoc, Z.lxor_nilpotent. apply Z.lxor_0_l. Qed.

Lemma not32_range x : 0 <= x < 2 ^ 32 -> 0 <= not32 x < 2 ^ 32.
Proof. intros. apply lxor_range; lia. Qed.

Lemma not32_inj x y : not32 x = not32 y -> x = y.
Proof. intros E. rewrite <- (not32_invol x), E. apply not32_invol. Qed.

Lemma hammer2_icrc32_range buf : Forall is_byte buf -> 0 <= hammer2_icrc32 buf < 2 ^ 32.
Proof. intros. apply not32_range, crc32c_range; [vm_compute; intuition discriminate|assumption]. Qed.

(** Two readings that differ only inside a window of four bytes have
    different codes. *)
Lemma burst_codes_differ pre w1 w2 post :
  Forall is_byte pre -> Forall is_byte w1 -> Forall is_byte w2 -> Forall is_byte post ->
  length w1 = length w2 -> (length w1 <= 4)%nat ->
  hammer2_icrc32 (pre ++ w1 ++ post) = hammer2_icrc32 (pre ++ w2 ++ post) -> w1 = w2.
Proof.
  intros Hpre H1 H2 Hpost Hl H4 E. unfold hammer2_icrc32 in E.
  apply not32_inj in E. rewrite !crc32c_app in E.
  assert (Hs : 0 <= crc32c (not32 0) pre < 2 ^ 32).
  { apply crc32c_range; [vm_compute; intuition discriminate|exact Hpre]. }
  apply crc32c_inj in E; try apply crc32c_range; try assumption.
  rewrite (crc32c_word w1), (crc32c_word w2), Hl in E.
  assert (Hw : forall w, Forall is_byte w -> (length w <= 4)%nat -> 0 <= le_value w < 2 ^ 32).
  { intros w Hw Hlen. pose proof (le_value_range w Hw). split; [lia|].
    apply Z.lt_le_trans with (2 ^ (8 * Z.of_nat (length w))); [lia|].
    apply Z.pow_le_mono_r; lia. }
  assert (Hw1 := Hw w1 H1 H4). assert (Hw2 := Hw w2 H2 ltac:(lia)).
  apply iter_bit_inj in E; try (apply lxor_range; lia).
  rewrite !(Z.lxor_comm (crc32c _ pre)) in E. apply lxor_cancel_r in E.
  apply le_value_inj; assumption.
Qed.

(** * Properties *)

(** C5. Corruption confined to four consecutive bytes (any error burst of up to
    32 bits) of a buffer of any length always changes its check code. *)
Theorem icrc32_detects_burst pre w1 w2 post :
  Forall is_byte pre -> Forall is_byte w1 -> Forall is_byte w2 -> Forall is_byte post ->
  length w1 = length w2 -> (length w1 <= 4)%nat -> w1 <> w2 ->
  hammer2_icrc32 (pre ++ w1 ++ post) <> hammer2_icrc32 (pre ++ w2 ++ post).
Proof. intros Hpre H1 H2 Hpost Hl H4 Hne E. apply Hne. exact (burst_codes_differ pre w1 w2 post Hpre H1 H2 Hpost Hl H4 E). Qed.

Lemma icrc32_detects_burst_witness :
  hammer2_icrc32 ([1; 2; 3] ++ [4; 5; 6; 7] ++ [8; 9])
  <> hammer2_icrc32 ([1; 2; 3] ++ [132; 5; 6; 8] ++ [8; 9]).
Proof.
  apply icrc32_detects_burst; try bytes.
  - reflexivity.
  - cbn. lia.
  - discriminate.
Defined.

(** The incremental form continues a finished check code: extending the
    code of [a] with [b] gives the code of [a ++ b], and the user-space copies
    compute the same codes. *)
Theorem icrc32_streaming a b :
  Forall is_byte a ->
  hammer2_icrc32c b (hammer2_icrc32 a) = hammer2_icrc32 (a ++ b)
  /\ iscsi_crc32 (a ++ b) = hammer2_icrc32 (a ++ b)
  /\ iscsi_crc32_ext b (iscsi_crc32 a) = hammer2_icrc32 (a ++ b)
  /\ hammer2_icrc32 [49; 50; 51; 52; 53; 54; 55; 56; 57] = 3808858755.
Proof.
  intros Ha. unfold iscsi_crc32_ext, iscsi_crc32, hammer2_icrc32c.
  change crc32c_raw with crc32c.
  pose proof (hammer2_icrc32_range a Ha). rewrite u32_small by assumption.
  unfold hammer2_icrc32. rewrite !crc32c_app, !not32_invol.
  split; [reflexivity|]. split; [reflexivity|]. split; [reflexivity|].
  vm_compute. reflexivity.
Qed.

Lemma icrc32_streaming_witness :
  hammer2_icrc32c [3] (hammer2_icrc32 [1; 2]) = hammer2_icrc32 ([1; 2] ++ [3])
  /\ iscsi_crc32 ([1; 2] ++ [3]) = hammer2_icrc32 ([1; 2] ++ [3])
  /\ iscsi_crc32_ext [3] (iscsi_crc32 [1; 2]) = hammer2_icrc32 ([1; 2] ++ [3])
  /\ hammer2_icrc32 [49; 50; 51; 52; 53; 54; 55; 56; 57] = 3808858755.
Proof. apply icrc32_streaming. bytes. Defined.
