(* ===== verification/Subr.v ===== *)
(** [hammer2_subr.c] and the error conversions of [hammer2.h]: pure helpers.

    Windows is an LLP64 target, so [unsigned long] is 32 bits wide; the time
    conversions keep that width.  The inode is reduced to the one field these
    functions read, [meta.size]; a [struct uuid] is its sixteen bytes. *)

From Stdlib Require Import ZArith Lia Bool String.
From stdpp Require Import base numbers list option.
From S2P Require Import Prelude Disk Crc.

(** * Object types *)

Abbreviation HAMMER2_OBJTYPE_UNKNOWN := 0 (only parsing).
Abbreviation HAMMER2_OBJTYPE_DIRECTORY := 1 (only parsing).
Abbreviation HAMMER2_OBJTYPE_REGFILE := 2 (only parsing).
Abbreviation HAMMER2_OBJTYPE_FIFO := 4 (only parsing).
Abbreviation HAMMER2_OBJTYPE_CDEV := 5 (only parsing).
Abbreviation HAMMER2_OBJTYPE_BDEV := 6 (only parsing).
Abbreviation HAMMER2_OBJTYPE_SOFTLINK := 7 (only parsing).
Abbreviation HAMMER2_OBJTYPE_SOCKET := 9 (only parsing).
Abbreviation HAMMER2_OBJTYPE_WHITEOUT := 10 (only parsing).

Abbreviation DT_UNKNOWN := 0 (only parsing).
Abbreviation DT_FIFO := 1 (only parsing).
Abbreviation DT_CHR := 2 (only parsing).
Abbreviation DT_DIR := 4 (only parsing).
Abbreviation DT_BLK := 6 (only parsing).
Abbreviation DT_REG := 8 (only parsing).
Abbreviation DT_LNK := 10 (only parsing).
Abbreviation DT_SOCK := 12 (only parsing).
Abbreviation VBAD := 0 (only parsing).

Definition hammer2_get_dtype (type : Z) : Z :=
  match type with
  | HAMMER2_OBJTYPE_UNKNOWN => DT_UNKNOWN
  | HAMMER2_OBJTYPE_DIRECTORY => DT_DIR
  | HAMMER2_OBJTYPE_REGFILE => DT_REG
  | HAMMER2_OBJTYPE_FIFO => DT_FIFO
  | HAMMER2_OBJTYPE_CDEV => DT_CHR
  | HAMMER2_OBJTYPE_BDEV => DT_BLK
  | HAMMER2_OBJTYPE_SOFTLINK => DT_LNK
  | HAMMER2_OBJTYPE_SOCKET => DT_SOCK
  | HAMMER2_OBJTYPE_WHITEOUT => DT_UNKNOWN
  | _ => DT_UNKNOWN
  end.

(** The [V*] vnode types are defined as the [DT_*] values. *)
Definition hammer2_get_vtype (type : Z) : Z :=
  match type with
  | HAMMER2_OBJTYPE_UNKNOWN => VBAD
  | HAMMER2_OBJTYPE_DIRECTORY => DT_DIR
  | HAMMER2_OBJTYPE_REGFILE => DT_REG
  | HAMMER2_OBJTYPE_FIFO => DT_FIFO
  | HAMMER2_OBJTYPE_CDEV => DT_CHR
  | HAMMER2_OBJTYPE_BDEV => DT_BLK
  | HAMMER2_OBJTYPE_SOFTLINK => DT_LNK
  | HAMMER2_OBJTYPE_SOCKET => DT_SOCK
  | HAMMER2_OBJTYPE_WHITEOUT => VBAD
  | _ => VBAD
  end.

Definition hammer2_get_obj_type (vtype : Z) : Z :=
  match vtype with
  | DT_DIR => HAMMER2_OBJTYPE_DIRECTORY
  | DT_REG => HAMMER2_OBJTYPE_REGFILE
  | DT_FIFO => HAMMER2_OBJTYPE_FIFO
  | DT_SOCK => HAMMER2_OBJTYPE_SOCKET
  | DT_CHR => HAMMER2_OBJTYPE_CDEV
  | DT_BLK => HAMMER2_OBJTYPE_BDEV
  | DT_LNK => HAMMER2_OBJTYPE_SOFTLINK
  | _ => HAMMER2_OBJTYPE_UNKNOWN
  end.

Definition hammer2_breftype_to_str (type : Z) : string :=
  match type with
  | HAMMER2_BREF_TYPE_EMPTY => "empty"
  | HAMMER2_BREF_TYPE_INODE => "inode"
  | HAMMER2_BREF_TYPE_INDIRECT => "indirect"
  | HAMMER2_BREF_TYPE_DATA => "data"
  | HAMMER2_BREF_TYPE_DIRENT => "dirent"
  | HAMMER2_BREF_TYPE_FREEMAP_NODE => "freemap_node"
  | HAMMER2_BREF_TYPE_FREEMAP_LEAF => "freemap_leaf"
  | HAMMER2_BREF_TYPE_INVALID => "invalid"
  | HAMMER2_BREF_TYPE_FREEMAP => "freemap"
  | HAMMER2_BREF_TYPE_VOLUME => "volume"
  | _ => "unknown"
  end.

(** * Time *)

(** [(tv_sec, tv_nsec)]; the seconds go through a 32-bit [unsigned long]. *)
Definition hammer2_time_to_timespec (xtime : Z) : Z * Z :=
  (u32 (xtime / 1000000), u32 (u32 (xtime mod 1000000) * 1000)).

Definition hammer2_timespec_to_time (ts : Z * Z) : Z :=
  let '(tv_sec, tv_nsec) := ts in
  u64 (u32 (Z.quot tv_nsec 1000) + u32 tv_sec * 1000000).

(** [*timep], for the real time clock reading [ts]. *)
Definition hammer2_update_time (ts : Z * Z) : Z :=
  let '(tv_sec, tv_nsec) := ts in
  u32 (u32 (u32 tv_sec * 1000000) + Z.quot tv_nsec 1000).

(** * Ownership ids *)

(** Little-endian 32-bit access at [&uuid->node[2]], byte 12. *)
Definition hammer2_to_unix_xid (uuid : list Z) : Z :=
  aget uuid 12 .| (aget uuid 13 .<< 8) .| (aget uuid 14 .<< 16) .| (aget uuid 15 .<< 24).

Definition hammer2_guid_to_uuid (guid : Z) : list Z :=
  let uuid := replicate 16 0 in
  let uuid := aset uuid 12 (guid .& 255) in
  let uuid := aset uuid 13 (guid .>> 8 .& 255) in
  let uuid := aset uuid 14 (guid .>> 16 .& 255) in
  aset uuid 15 (guid .>> 24 .& 255).

(** [(x & 0xffffff00) || (y & 0x0000ff00)] *)
Definition makeudev (x y : Z) : Z :=
  if tst (u32 x) 4294967040 || tst y 65280 then -1
  else i32 (x .<< 8) .| y.

(** * Directory hash *)

(** Field separators: ['.'], ['-'], ['_'], ['~']. *)
Definition is_sep (c : Z) : bool :=
  (c =? 46) || (c =? 45) || (c =? 95) || (c =? 126).

(** [aname + j, i - j] *)
Definition slice (aname : list Z) (j i : Z) : list Z :=
  take (Z.to_nat (i - j)) (drop (Z.to_nat j) aname).

(** The scan over the name: state [(crcx, j)]. *)
Definition dirhash_step (aname : list Z) (st : Z * Z) (i : Z) : Z * Z :=
  let '(crcx, j) := st in
  if is_sep (aget aname i) then
    (if negb (i =? j) then u32 (crcx + hammer2_icrc32 (slice aname j i)) else crcx, i + 1)
  else (crcx, j).

Definition hammer2_dirhash (aname : list Z) : Z :=
  let len := alen aname in
  let '(crcx, j) := foldl (dirhash_step aname) (0, 0) (seqZ 0 len) in
  let crcx := if negb (len =? j)
              then u32 (crcx + hammer2_icrc32 (slice aname j len)) else crcx in
  let crcx := crcx .| 2147483648 in
  let key := 0 .| (crcx .<< 32) in
  let crcx := hammer2_icrc32 aname in
  let crcx := crcx .^ u32 (crcx .<< 16) in
  let key := key .| (crcx .& 4294901760) in
  key .| 32768.

(** * Block sizes *)

(** [while (((size_t)1 << radix) < bytes) ++radix] *)
Fixpoint getradix_loop (fuel : nat) (radix bytes : Z) : outcome Z :=
  match fuel with
  | O => Panic
  | S fuel' =>
      if u64 (1 .<< radix) <? bytes then getradix_loop fuel' (radix + 1) bytes
      else Done radix
  end.

Definition hammer2_getradix (bytes : Z) : outcome Z :=
  let radix :=
    if bytes =? HAMMER2_PBUFSIZE then HAMMER2_PBUFRADIX
    else if HAMMER2_LBUFSIZE <=? bytes then HAMMER2_LBUFRADIX
    else if HAMMER2_ALLOC_MIN <=? bytes then HAMMER2_RADIX_MIN
    else 0 in
  getradix_loop 64 radix bytes.

(** Returns (lblksize, *lbasep, *leofp). *)
Definition hammer2_calc_logical (size uoff : Z) : Z * Z * Z :=
  (HAMMER2_PBUFSIZE, uoff .&~ HAMMER2_PBUFMASK,
   u64 (size + HAMMER2_PBUFMASK) .&~ HAMMER2_PBUFMASK).

Definition hammer2_get_logical : Z := (hammer2_calc_logical 0 0).1.1.

(** [while (pblksize >= eofbytes && pblksize >= HAMMER2_ALLOC_MIN)
    pblksize >>= 1] *)
Fixpoint pblk_loop (fuel : nat) (pblksize eofbytes : Z) : outcome Z :=
  match fuel with
  | O => Panic
  | S fuel' =>
      if (eofbytes <=? pblksize) && (HAMMER2_ALLOC_MIN <=? pblksize)
      then pblk_loop fuel' (pblksize .>> 1) eofbytes
      else Done pblksize
  end.

Definition hammer2_calc_physical (size lbase : Z) : outcome Z :=
  let lblksize := (hammer2_calc_logical size lbase).1.1 in
  if u64 (lbase + lblksize) <=? size then Done lblksize
  else if size <=? lbase then Done 0
  else
    let eofbytes := i32 (size - lbase) in
    let! pblksize := pblk_loop 17 lblksize eofbytes in
    Done (pblksize .<< 1).

(** * Errors *)

(** The errno values of the Windows C runtime. *)
Abbreviation ENOENT := 2 (only parsing).
Abbreviation EINTR := 4 (only parsing).
Abbreviation EIO := 5 (only parsing).
Abbreviation EAGAIN := 11 (only parsing).
Abbreviation EEXIST := 17 (only parsing).
Abbreviation ENOTDIR := 20 (only parsing).
Abbreviation EISDIR := 21 (only parsing).
Abbreviation EINVAL := 22 (only parsing).
Abbreviation ENOSPC := 28 (only parsing).
Abbreviation EDOM := 33 (only parsing).
Abbreviation ENOTEMPTY := 41 (only parsing).
Abbreviation EOPNOTSUPP := 130 (only parsing).

Definition hammer2_error_to_errno (error : Z) : Z :=
  if error =? 0 then 0
  else if tst error HAMMER2_ERROR_EIO then EIO
  else if tst error HAMMER2_ERROR_CHECK then EDOM
  else if tst error HAMMER2_ERROR_BADBREF then EIO
  else if tst error HAMMER2_ERROR_ENOSPC then ENOSPC
  else if tst error HAMMER2_ERROR_ENOENT then ENOENT
  else if tst error HAMMER2_ERROR_ENOTEMPTY then ENOTEMPTY
  else if tst error HAMMER2_ERROR_EAGAIN then EAGAIN
  else if tst error HAMMER2_ERROR_ENOTDIR then ENOTDIR
  else if tst error HAMMER2_ERROR_EISDIR then EISDIR
  else if tst error HAMMER2_ERROR_ABORTED then EINTR
  else if tst error HAMMER2_ERROR_EINVAL then EINVAL
  else if tst error HAMMER2_ERROR_EEXIST then EEXIST
  else if tst error HAMMER2_ERROR_EOPNOTSUPP then EOPNOTSUPP
  else EDOM.

Definition hammer2_errno_to_error (error : Z) : Z :=
  match error with
  | 0 => 0
  | EIO => HAMMER2_ERROR_EIO
  | EDOM => HAMMER2_ERROR_CHECK
  | ENOSPC => HAMMER2_ERROR_ENOSPC
  | ENOENT => HAMMER2_ERROR_ENOENT
  | ENOTEMPTY => HAMMER2_ERROR_ENOTEMPTY
  | EAGAIN => HAMMER2_ERROR_EAGAIN
  | ENOTDIR => HAMMER2_ERROR_ENOTDIR
  | EISDIR => HAMMER2_ERROR_EISDIR
  | EINTR => HAMMER2_ERROR_ABORTED
  | EINVAL => HAMMER2_ERROR_EINVAL
  | EEXIST => HAMMER2_ERROR_EEXIST
  | EOPNOTSUPP => HAMMER2_ERROR_EOPNOTSUPP
  | _ => HAMMER2_ERROR_EINVAL
  end.

(** * Lemmas *)

Lemma u64_shiftl_1 r : 0 <= r < 64 -> u64 (1 .<< r) = 2 ^ r.
Proof.
  intros. rewrite Z.shiftl_1_l. apply u64_small. split; [apply Z.pow_nonneg; lia|].
  apply Z.pow_lt_mono_r; lia.
Qed.

Lemma getradix_loop_spec fuel : forall radix bytes,
  0 <= radix <= 63 -> 2 ^ (radix - 1) < bytes <= 2 ^ 63 -> 64 - radix <= Z.of_nat fuel ->
  exists r, getradix_loop fuel radix bytes = Done r
            /\ radix <= r <= 63 /\ 2 ^ (r - 1) < bytes <= 2 ^ r.
Proof.
  induction fuel as [|fuel IH]; intros radix bytes Hr Hb Hf; [lia|]. cbn [getradix_loop].
  rewrite u64_shiftl_1 by lia. destruct (Z.ltb_spec (2 ^ radix) bytes).
  - assert (radix < 63).
    { destruct (decide (radix = 63)) as [->|]; [|lia]. lia. }
    destruct (IH (radix + 1) bytes) as (r & -> & Hr1 & Hr2); try lia.
    { replace (radix + 1 - 1) with radix by lia. lia. }
    exists r. split; [reflexivity|]. split; [lia|exact Hr2].
  - exists radix. split; [reflexivity|]. split; [lia|]. lia.
Qed.

Lemma getradix_spec bytes :
  0 < bytes <= 2 ^ 63 ->
  exists r, hammer2_getradix bytes = Done r /\ 0 <= r <= 63 /\ 2 ^ (r - 1) < bytes <= 2 ^ r.
Proof.
  intros Hb. unfold hammer2_getradix.
  assert (Hgo : forall r0, 0 <= r0 <= 63 -> 2 ^ (r0 - 1) < bytes ->
            exists r, getradix_loop 64 r0 bytes = Done r /\ 0 <= r <= 63
                      /\ 2 ^ (r - 1) < bytes <= 2 ^ r).
  { intros r0 H0 H1. destruct (getradix_loop_spec 64 r0 bytes) as (r & -> & ? & ?); try lia.
    exists r. split; [reflexivity|]. lia. }
  destruct (Z.eqb_spec bytes HAMMER2_PBUFSIZE); [apply Hgo; cbn; lia|].
  destruct (Z.leb_spec HAMMER2_LBUFSIZE bytes); [apply Hgo; cbn; lia|].
  destruct (Z.leb_spec HAMMER2_ALLOC_MIN bytes); apply Hgo; cbn; lia.
Qed.

Lemma pow2_lt_le a b : 0 <= b -> 2 ^ (a - 1) < 2 ^ b -> a <= b.
Proof.
  intros Hb H. destruct (Z.le_gt_cases a b); [assumption|].
  assert (2 ^ b <= 2 ^ (a - 1)) by (apply Z.pow_le_mono_r; lia). lia.
Qed.

(** A radix is a shift count, whatever the size. *)
Lemma getradix_loop_lt fuel : forall radix bytes r, 0 <= radix -> (radix < 64 \/ 0 < bytes) ->
  getradix_loop fuel radix bytes = Done r -> 0 <= r < 64.
Proof.
  induction fuel as [|fuel IH]; intros radix bytes r Hr Hb H; [discriminate|]. cbn [getradix_loop] in H.
  destruct (Z.ltb_spec (u64 (1 .<< radix)) bytes) as [Hlt|Hge].
  - eapply IH in H; [exact H|lia|]. right. pose proof (u64_range (1 .<< radix)). lia.
  - injection H as ->. destruct (decide (r < 64)) as [Hlt|Hn]; [lia|]. exfalso. destruct Hb as [Hb|Hb]; [lia|].
    pose proof (u64_range (1 .<< r)). assert (u64 (1 .<< r) = 0); [|lia]. unfold u64.
    rewrite Z.shiftl_mul_pow2, Z.mul_1_l by lia. apply Z.mod_divide; [lia|]. exists (2 ^ (r - 64)). rewrite <- Z.pow_add_r by lia.
    f_equal. lia.
Qed.
Lemma getradix_lt bytes r : hammer2_getradix bytes = Done r -> 0 <= r < 64.
Proof. unfold hammer2_getradix. intros H. repeat case_match; eapply getradix_loop_lt in H; lia. Qed.

(** A power of two is its own radix. *)
Lemma getradix_pow2 k : 0 <= k <= 63 -> hammer2_getradix (2 ^ k) = Done k.
Proof.
  intros Hk. destruct (getradix_spec (2 ^ k)) as (r & -> & Hr & H1 & H2).
  { split; [apply pow2_pos; lia|apply Z.pow_le_mono_r; lia]. }
  f_equal. apply Z.pow_le_mono_r_iff in H2; try lia.
  apply pow2_lt_le in H1; lia.
Qed.

Lemma testbit_ge x n : 0 <= x < 2 ^ 64 -> 64 <= n -> Z.testbit x n = false.
Proof. apply testbit_high. Qed.

Lemma land_lor_high x y n :
  0 <= n -> 0 <= y < 2 ^ n -> (2 ^ n | x) -> (x .| y) .& Z.ones n = y.
Proof.
  intros Hn Hy Hx. rewrite (lor_disjoint x y n) by assumption.
  rewrite Z.land_ones by lia. destruct Hx as [q ->].
  rewrite Z.add_comm, Z_mod_plus_full. apply Z.mod_small. exact Hy.
Qed.

(** * Properties *)

(** [hammer2_getradix] terminates on every size up to 2^63 and returns the
    least radix whose block holds the size; the shortcut starting points do not
    change the answer. *)
Theorem getradix_least bytes :
  0 < bytes <= 2 ^ 63 ->
  exists r, hammer2_getradix bytes = Done r /\ bytes <= 2 ^ r
            /\ forall r', 0 <= r' -> bytes <= 2 ^ r' -> r <= r'.
Proof.
  intros Hb. destruct (getradix_spec bytes Hb) as (r & -> & Hr & H1 & H2).
  exists r. split; [reflexivity|]. split; [exact H2|]. intros r' Hr' Hle.
  apply pow2_lt_le; lia.
Qed.

Lemma getradix_least_witness :
  exists r, hammer2_getradix 20000 = Done r /\ 20000 <= 2 ^ r
            /\ forall r', 0 <= r' -> 20000 <= 2 ^ r' -> r <= r'.
Proof. apply getradix_least. lia. Defined.

Lemma pblk_loop_spec k : forall fuel eof,
  10 <= k <= 16 -> 0 < eof <= 2 ^ k -> k - 8 <= Z.of_nat fuel ->
  exists r, pblk_loop fuel (2 ^ k) eof = Done (2 ^ (r - 1))
            /\ 10 <= r <= k /\ eof <= 2 ^ r /\ (r = 10 \/ 2 ^ (r - 1) < eof).
Proof.
  assert (Hstep : forall fuel k eof, 10 <= k -> 0 < eof <= 2 ^ k ->
            pblk_loop (S fuel) (2 ^ k) eof = pblk_loop fuel (2 ^ (k - 1)) eof).
  { intros fuel k' eof Hk He. cbn [pblk_loop].
    assert (2 ^ 10 <= 2 ^ k') by (apply Z.pow_le_mono_r; lia).
    replace (_ && _) with true by lia. rewrite Z.shiftr_div_pow2 by lia.
    rewrite <- Z.pow_sub_r by lia. reflexivity. }
  intros fuel eof Hk. remember (Z.to_nat (k - 10)) as n eqn:Hn.
  revert k Hk fuel Hn. induction n as [|n IH]; intros k Hk fuel Hn He Hf.
  - assert (k = 10) as -> by lia. destruct fuel as [|[|fuel]]; try lia.
    rewrite Hstep by lia. exists 10. split; [|lia].
    cbn [pblk_loop]. replace (HAMMER2_ALLOC_MIN <=? 2 ^ (10 - 1)) with false by reflexivity.
    rewrite andb_false_r. reflexivity.
  - destruct fuel as [|fuel]; [lia|]. rewrite Hstep by lia.
    destruct (Z.le_gt_cases eof (2 ^ (k - 1))) as [Hle|Hgt].
    + destruct (IH (k - 1) ltac:(lia) fuel ltac:(lia)) as (r & -> & ? & ?); try lia.
      exists r. split; [reflexivity|]. lia.
    + exists k. split; [|lia]. destruct fuel; [lia|]. cbn [pblk_loop].
      replace (eof <=? 2 ^ (k - 1)) with false by lia. reflexivity.
Qed.

(** The physical size of the block at [lbase]: the full 64KB when the file
    covers it, 0 beyond the end of file, and otherwise the least power of two
    from 1KB up that holds the bytes before the end of file. *)
Theorem calc_physical_least size lbase :
  0 <= lbase -> lbase + HAMMER2_PBUFSIZE < 2 ^ 64 -> 0 <= size < 2 ^ 64 ->
  if lbase + HAMMER2_PBUFSIZE <=? size then
    hammer2_calc_physical size lbase = Done HAMMER2_PBUFSIZE
  else if size <=? lbase then hammer2_calc_physical size lbase = Done 0
  else exists r, hammer2_calc_physical size lbase = Done (2 ^ r)
                 /\ HAMMER2_RADIX_MIN <= r <= HAMMER2_RADIX_MAX
                 /\ size - lbase <= 2 ^ r
                 /\ (r = HAMMER2_RADIX_MIN \/ 2 ^ (r - 1) < size - lbase).
Proof.
  intros H1 H2 H3. unfold hammer2_calc_physical. cbn [hammer2_calc_logical fst].
  rewrite u64_small by lia.
  destruct (Z.leb_spec (lbase + HAMMER2_PBUFSIZE) size); [reflexivity|].
  destruct (Z.leb_spec size lbase); [reflexivity|].
  rewrite i32_small by lia.
  change HAMMER2_PBUFSIZE with (2 ^ 16) at 1.
  destruct (pblk_loop_spec 16 17 (size - lbase)) as (r & -> & Hr & Hle & Hmin); try lia.
  cbn [obind]. exists r. split; [|lia].
  rewrite Z.shiftl_mul_pow2, <- Z.pow_add_r by lia. do 2 f_equal. lia.
Qed.

Lemma calc_physical_least_witness :
  if 131072 + HAMMER2_PBUFSIZE <=? 133000 then
    hammer2_calc_physical 133000 131072 = Done HAMMER2_PBUFSIZE
  else if 133000 <=? 131072 then hammer2_calc_physical 133000 131072 = Done 0
  else exists r, hammer2_calc_physical 133000 131072 = Done (2 ^ r)
                 /\ HAMMER2_RADIX_MIN <= r <= HAMMER2_RADIX_MAX
                 /\ 133000 - 131072 <= 2 ^ r
                 /\ (r = HAMMER2_RADIX_MIN \/ 2 ^ (r - 1) < 133000 - 131072).
Proof. apply calc_physical_least; lia. Defined.

(** ** Directory hash *)

(** Reference definition: the maximal separator-free fields of a name, [cur]
    being the field under construction. *)
Definition open_field (cur : list Z) : list (list Z) :=
  match cur with [] => [] | _ => [cur] end.

Fixpoint fields (cur l : list Z) : list (list Z) :=
  match l with
  | [] => open_field cur
  | c :: l =>
      if is_sep c
      then open_field cur ++ fields [] l
      else fields (cur ++ [c]) l
  end.

(** The sum of the codes of the fields, modulo 2^32. *)
Definition field_sum (fs : list (list Z)) : Z :=
  u32 (foldr (fun f acc => hammer2_icrc32 f + acc) 0 fs).

Definition scan_result (aname : list Z) (st : Z * Z) : Z :=
  if negb (alen aname =? st.2)
  then u32 (st.1 + hammer2_icrc32 (slice aname st.2 (alen aname))) else st.1.

Lemma slice_length aname j i :
  0 <= j <= i -> i <= alen aname -> Z.of_nat (length (slice aname j i)) = i - j.
Proof.
  unfold slice, alen. intros. rewrite length_take, length_drop. lia.
Qed.

Lemma slice_snoc aname j i :
  0 <= j <= i -> i < alen aname -> slice aname j (i + 1) = slice aname j i ++ [aget aname i].
Proof.
  unfold slice, alen, aget. intros Hj Hi.
  replace (Z.to_nat (i + 1 - j)) with (S (Z.to_nat (i - j))) by lia.
  apply take_S_r. rewrite lookup_drop.
  replace (Z.to_nat j + Z.to_nat (i - j))%nat with (Z.to_nat i) by lia.
  apply list_lookup_lookup_total_lt. lia.
Qed.

Lemma dirhash_step_sep aname crcx j i :
  is_sep (aget aname i) = true ->
  dirhash_step aname (crcx, j) i =
    (if negb (i =? j) then u32 (crcx + hammer2_icrc32 (slice aname j i)) else crcx, i + 1).
Proof. intros E. unfold dirhash_step. rewrite E. reflexivity. Qed.

Lemma dirhash_step_char aname crcx j i :
  is_sep (aget aname i) = false -> dirhash_step aname (crcx, j) i = (crcx, j).
Proof. intros E. unfold dirhash_step. rewrite E. reflexivity. Qed.

Lemma u32_add_l a b : u32 (u32 a + b) = u32 (a + b).
Proof. apply Zplus_mod_idemp_l. Qed.

(** A field in progress is empty exactly when it starts at the cursor. *)
Lemma slice_field aname j i (fs : list (list Z)) crcx :
  0 <= j <= i -> i <= alen aname -> 0 <= crcx < 2 ^ 32 ->
  u32 ((if negb (i =? j) then u32 (crcx + hammer2_icrc32 (slice aname j i)) else crcx)
       + field_sum fs)
  = u32 (crcx + field_sum (open_field (slice aname j i) ++ fs)).
Proof.
  intros Hj Hi Hc. pose proof (slice_length aname j i Hj Hi) as Hlen.
  destruct (slice aname j i) as [|c cur] eqn:E; cbn [length] in Hlen.
  - replace (i =? j) with true by lia. reflexivity.
  - replace (i =? j) with false by lia. unfold field_sum. cbn [open_field app foldr negb].
    unfold u32. rewrite Zplus_mod_idemp_l, !Zplus_mod_idemp_r. f_equal. lia.
Qed.

Lemma field_sum_nil_r x : 0 <= x < 2 ^ 32 -> u32 (x + field_sum []) = x.
Proof. intros. cbn. rewrite Z.add_0_r. apply u32_small. assumption. Qed.

Lemma dirhash_step_crc_range aname st i :
  0 <= st.1 < 2 ^ 32 -> 0 <= (dirhash_step aname st i).1 < 2 ^ 32.
Proof.
  destruct st as [crcx j]. intros H. unfold dirhash_step.
  destruct (is_sep _); [destruct (negb _)|]; cbn [fst]; auto with h2.
Qed.

Lemma drop_aget (aname : list Z) i :
  0 <= i < alen aname -> drop (Z.to_nat i) aname = aget aname i :: drop (Z.to_nat (i + 1)) aname.
Proof.
  unfold alen, aget. intros H. replace (Z.to_nat (i + 1)) with (S (Z.to_nat i)) by lia.
  apply drop_S. apply list_lookup_lookup_total_lt. lia.
Qed.

Lemma dirhash_scan aname n : forall i j crcx,
  n = Z.to_nat (alen aname - i) ->
  0 <= j <= i -> i <= alen aname -> 0 <= crcx < 2 ^ 32 ->
  scan_result aname (foldl (dirhash_step aname) (crcx, j) (seqZ i (alen aname - i)))
  = u32 (crcx + field_sum (fields (slice aname j i) (drop (Z.to_nat i) aname))).
Proof.
  induction n as [|n IH]; intros i j crcx Hn Hj Hi Hc.
  - assert (i = alen aname) as -> by lia. rewrite Z.sub_diag. cbn [seqZ foldl].
    rewrite drop_ge by (unfold alen; lia). cbn [fields].
    rewrite <- (app_nil_r (open_field _)).
    rewrite <- slice_field by assumption. unfold scan_result. cbn [fst snd].
    rewrite field_sum_nil_r; [reflexivity|]. destruct (negb _); auto with h2.
  - rewrite seqZ_cons by lia. cbn [foldl].
    replace (Z.succ i) with (i + 1) by lia.
    replace (Z.pred (alen aname - i)) with (alen aname - (i + 1)) by lia.
    rewrite (drop_aget aname i) by lia. cbn [fields].
    destruct (is_sep (aget aname i)) eqn:Es.
    + rewrite dirhash_step_sep by exact Es. rewrite IH; try lia.
      * replace (slice aname (i + 1) (i + 1)) with (@nil Z)
          by (unfold slice; rewrite Z.sub_diag; reflexivity).
        apply slice_field; assumption || lia.
      * destruct (negb _); auto with h2.
    + rewrite dirhash_step_char by exact Es. rewrite IH by lia.
      rewrite slice_snoc by lia. reflexivity.
Qed.

Lemma dirhash_eq aname :
  hammer2_dirhash aname =
    ((field_sum (fields [] aname) .| 2147483648) .<< 32)
    .| ((hammer2_icrc32 aname .^ u32 (hammer2_icrc32 aname .<< 16)) .& 4294901760)
    .| 32768.
Proof.
  assert (H0 : 0 <= alen aname) by (unfold alen; lia).
  pose proof (dirhash_scan aname _ 0 0 0 eq_refl) as Hs. rewrite Z.sub_0_r in Hs.
  specialize (Hs ltac:(lia) H0 ltac:(lia)). unfold hammer2_dirhash. cbv zeta.
  destruct (foldl _ _ _) as [crcx j]. unfold scan_result in Hs. cbn [fst snd] in Hs.
  rewrite Hs, Z.lor_0_l, Z.add_0_l. unfold slice. cbn [Z.to_nat take drop Z.sub].
  rewrite drop_0. unfold field_sum. rewrite (u32_small (u32 _)) by auto with h2. reflexivity.
Qed.

Lemma field_sum_range fs : 0 <= field_sum fs < 2 ^ 32.
Proof. apply u32_range. Qed.

(** The directory hash of every name is a 64-bit key with bits 63 and 15
    set and the low 15 bits clear (so that stripping bit 63 gives a positive
    readdir cookie above the artificial entries), and its upper half is the sum
    of the CRCs of the maximal separator-free fields of the name. *)
Theorem dirhash_shape aname :
  Forall is_byte aname ->
  let key := hammer2_dirhash aname in
  0 <= key < 2 ^ 64
  /\ Z.testbit key 63 = true /\ Z.testbit key 15 = true /\ key .& 32767 = 0
  /\ key .>> 32 = field_sum (fields [] aname) .| 2147483648.
Proof.
  intros Hb. cbv zeta. rewrite dirhash_eq.
  pose proof (field_sum_range (fields [] aname)) as Hf.
  assert (Ht : 0 <= (hammer2_icrc32 aname .^ u32 (hammer2_icrc32 aname .<< 16))
                    .& 4294901760 < 2 ^ 32).
  { apply land_range; lia. }
  set (top := field_sum (fields [] aname) .| 2147483648).
  assert (Htop : 0 <= top < 2 ^ 32) by (apply lor_range; lia).
  set (low := (_ .& 4294901760) : Z) in *.
  assert (Hlow : 0 <= low .| 32768 < 2 ^ 32) by (apply lor_range; lia).
  rewrite <- Z.lor_assoc. rewrite (lor_disjoint (top .<< 32) _ 32) by
    (try rewrite Z.shiftl_mul_pow2 by lia; try exists top; lia).
  assert (Hsh : (top .<< 32) + (low .| 32768) = (top .<< 32) .| (low .| 32768)).
  { symmetry. apply (lor_disjoint _ _ 32); try lia. rewrite Z.shiftl_mul_pow2 by lia. exists top. lia. }
  split; [rewrite Z.shiftl_mul_pow2 by lia; lia|].
  split; [|split; [|split]].
  - rewrite Hsh, Z.lor_spec, Z.shiftl_spec by lia. change (63 - 32) with 31.
    unfold top. rewrite Z.lor_spec. change (Z.testbit 2147483648 31) with true.
    rewrite orb_true_r. reflexivity.
  - rewrite Hsh, !Z.lor_spec. rewrite !orb_true_r. reflexivity.
  - rewrite Hsh. zbits k. change 32767 with (Z.ones 15). unfold low. rewrite Z.land_spec.
    destruct (decide (k < 15)).
    + rewrite Z.testbit_neg_r by lia. change 4294901760 with (Z.ones 16 .<< 16).
      change 32768 with (1 .<< 15). rewrite !Z.shiftl_spec_low by lia.
      rewrite andb_false_r. reflexivity.
    + rewrite Z.ones_spec_high by lia. apply andb_false_r.
  - rewrite Z.shiftr_div_pow2, Z.shiftl_mul_pow2 by lia.
    rewrite Z.div_add_l by lia. rewrite (Z.div_small _ _ Hlow). lia.
Qed.

Lemma dirhash_shape_witness :
  let key := hammer2_dirhash [97; 46; 99] in
  0 <= key < 2 ^ 64
  /\ Z.testbit key 63 = true /\ Z.testbit key 15 = true /\ key .& 32767 = 0
  /\ key .>> 32 = field_sum (fields [] [97; 46; 99]) .| 2147483648.
Proof. apply (dirhash_shape [97; 46; 99]). bytes. Defined.

(** ** Errors *)

(** The errno values the file system produces. *)
Definition known_errno (e : Z) : bool :=
  bool_decide (e ∈ [0; EIO; EDOM; ENOSPC; ENOENT; ENOTEMPTY; EAGAIN; ENOTDIR;
                    EISDIR; EINTR; EINVAL; EEXIST; EOPNOTSUPP]).

(** Errors survive translation: an errno the file system produces comes
    back unchanged from its HAMMER2 code, every non-zero combination of HAMMER2
    error bits is a non-zero errno whatever bits are merged, an I/O error
    dominates any other bit, and no errno is lost in the other direction. *)
Theorem error_translation error :
  (known_errno error = true ->
     hammer2_error_to_errno (hammer2_errno_to_error error) = error)
  /\ (hammer2_error_to_errno error = 0 <-> error = 0)
  /\ (tst error HAMMER2_ERROR_EIO = true -> hammer2_error_to_errno error = EIO)
  /\ (hammer2_errno_to_error error = 0 <-> error = 0).
Proof.
  split; [|split; [|split]].
  - intros H%bool_decide_eq_true. repeat (apply elem_of_cons in H as [->|H]; [reflexivity|]).
    apply elem_of_nil in H as [].
  - unfold hammer2_error_to_errno. destruct (Z.eqb_spec error 0); [lia|].
    repeat case_match; lia.
  - unfold hammer2_error_to_errno. destruct (Z.eqb_spec error 0) as [->|]; [discriminate|].
    intros ->. reflexivity.
  - unfold hammer2_errno_to_error. repeat case_match; lia.
Qed.

(** ** Time *)

(** A stored time survives the round trip through [struct timespec64] as
    long as its seconds fit the 32-bit [unsigned long]; the converted value has
    a valid nanosecond part. *)
Theorem time_roundtrip xtime :
  0 <= xtime < 2 ^ 32 * 1000000 ->
  hammer2_timespec_to_time (hammer2_time_to_timespec xtime) = xtime
  /\ 0 <= (hammer2_time_to_timespec xtime).2 < 1000000000.
Proof.
  intros Hx. pose proof (Z.mod_pos_bound xtime 1000000 ltac:(lia)) as Hm.
  pose proof (Z.div_mod xtime 1000000 ltac:(lia)) as Hd.
  assert (0 <= xtime / 1000000 < 2 ^ 32) by div_mod_lia.
  unfold hammer2_timespec_to_time, hammer2_time_to_timespec. cbn [snd].
  rewrite (u32_small (xtime mod 1000000)) by lia.
  rewrite (u32_small (xtime mod 1000000 * 1000)) by lia.
  rewrite Z.quot_mul by lia. rewrite !u32_small by (rewrite ?u32_small; lia).
  split; [|lia]. rewrite u64_small; lia.
Qed.

Lemma time_roundtrip_witness :
  hammer2_timespec_to_time (hammer2_time_to_timespec 1700000000123456) = 1700000000123456
  /\ 0 <= (hammer2_time_to_timespec 1700000000123456).2 < 1000000000.
Proof. apply time_roundtrip. lia. Defined.

(** The time that [hammer2_update_time] stores is the clock reading in
    microseconds reduced modulo 2^32, not the reading: it is right only for
    the first 4294 seconds after the epoch. *)
Theorem update_time_truncates sec nsec :
  0 <= sec < 2 ^ 32 -> 0 <= nsec < 1000000000 ->
  hammer2_update_time (sec, nsec) = (sec * 1000000 + nsec / 1000) mod 2 ^ 32
  /\ (hammer2_update_time (sec, nsec) = hammer2_timespec_to_time (sec, nsec)
      <-> sec * 1000000 + nsec / 1000 < 2 ^ 32).
Proof.
  intros Hs Hn. assert (0 <= nsec / 1000 < 1000000) by div_mod_lia.
  unfold hammer2_update_time, hammer2_timespec_to_time.
  rewrite Z.quot_div_nonneg by lia. rewrite u32_add_l, (u32_small sec) by lia.
  rewrite (u32_small (nsec / 1000)), u64_small by lia. unfold u32.
  split; [reflexivity|]. rewrite (Z.add_comm (nsec / 1000)). split; intros H0.
  - rewrite <- H0. apply Z.mod_pos_bound. lia.
  - apply Z.mod_small. lia.
Qed.

Lemma update_time_truncates_witness :
  hammer2_update_time (1700000000, 5000) = (1700000000 * 1000000 + 5000 / 1000) mod 2 ^ 32
  /\ (hammer2_update_time (1700000000, 5000) = hammer2_timespec_to_time (1700000000, 5000)
      <-> 1700000000 * 1000000 + 5000 / 1000 < 2 ^ 32).
Proof. apply update_time_truncates; lia. Defined.
