(* ===== verification/Bitmap.v ===== *)
(** The abstract view of a freemap element: 256 two-bit block states.

    [pair q k] is the state of block [k] of a 64-bit bitmap word and
    [blk bm b] the state of block [b] of a [bmap_data]; the lemmas say what
    masking, or-ing and clearing a run of pairs does to every block, and how
    the number of unallocated blocks changes.  Used by the allocator and by
    bulkfree. *)

From Stdlib Require Import ZArith Lia Bool.
From stdpp Require Import base numbers list option.
From S2P Require Import Prelude Disk.

(** * Block states of one word *)

(** 0 = unallocated, 1 = reserved, 2 = possibly free (staged), 3 = allocated. *)
Definition pair (q k : Z) : Z := (q .>> (2 * k)) .& 3.

(** The mask of [m] consecutive pairs starting at pair [k]. *)
Definition run (k m : Z) : Z := Z.ones (2 * m) .<< (2 * k).

Lemma pair_range q k : 0 <= pair q k < 4.
Proof.
  unfold pair. change 3 with (Z.ones 2). rewrite Z.land_ones by lia.
  apply Z.mod_pos_bound. lia.
Qed.

Lemma testbit_3 i : Z.testbit 3 i = (0 <=? i) && (i <? 2).
Proof. change 3 with (Z.ones 2). destruct (decide (0 <= i)).
  - rewrite Z.testbit_ones by lia. reflexivity.
  - rewrite Z.testbit_neg_r by lia.
    replace (0 <=? i) with false by (symmetry; apply Z.leb_gt; lia). reflexivity.
Qed.

Lemma testbit_ones_lt n i : 0 <= n -> Z.testbit (Z.ones n) i = (0 <=? i) && (i <? n).
Proof. intros. apply Z.testbit_ones. exact H. Qed.

Lemma testbit_pair q k i :
  0 <= k -> Z.testbit (pair q k) i = (0 <=? i) && (i <? 2) && Z.testbit q (i + 2 * k).
Proof.
  intros Hk. unfold pair. rewrite Z.land_spec, testbit_3.
  destruct (decide (0 <= i)).
  - rewrite Z.shiftr_spec by lia. apply andb_comm.
  - rewrite Z.testbit_neg_r by lia.
    replace (0 <=? i) with false by (symmetry; apply Z.leb_gt; lia). reflexivity.
Qed.

Lemma testbit_run k m i :
  0 <= k -> 0 <= m ->
  Z.testbit (run k m) i = (2 * k <=? i) && (i <? 2 * (k + m)).
Proof.
  intros Hk Hm. unfold run. destruct (decide (0 <= i)).
  - rewrite Z.shiftl_spec, testbit_ones_lt by lia. f_equal;
      apply eq_true_iff_eq; rewrite ?Z.leb_le, ?Z.ltb_lt; lia.
  - rewrite Z.testbit_neg_r by lia.
    replace (2 * k <=? i) with false by (symmetry; apply Z.leb_gt; lia). reflexivity.
Qed.

Lemma run_range k m : 0 <= k -> 0 <= m -> k + m <= 32 -> 0 <= run k m < 2 ^ 64.
Proof.
  intros. unfold run. rewrite Z.ones_equiv, Z.shiftl_mul_pow2 by lia.
  pose proof (pow2_pos (2 * m) ltac:(lia)). pose proof (pow2_pos (2 * k) ltac:(lia)).
  assert (2 ^ (2 * m) * 2 ^ (2 * k) <= 2 ^ 64).
  { rewrite <- Z.pow_add_r by lia. apply Z.pow_le_mono_r; lia. }
  nia.
Qed.

Lemma run_shift k m s :
  0 <= k -> 0 <= m -> 0 <= s -> run k m .<< (2 * s) = run (k + s) m.
Proof.
  intros. unfold run. rewrite Z.shiftl_shiftl by lia. f_equal. lia.
Qed.

(** The pairs of a word determine it. *)
Lemma pair_ext q1 q2 :
  (forall k, 0 <= k -> pair q1 k = pair q2 k) -> q1 = q2.
Proof.
  intros H. apply Z.bits_inj'. intros i Hi.
  specialize (H (i / 2) ltac:(apply Z.div_pos; lia)).
  apply (f_equal (fun z => Z.testbit z (i mod 2))) in H.
  rewrite !testbit_pair in H by (apply Z.div_pos; lia).
  replace (i mod 2 + 2 * (i / 2)) with i in H by div_mod_lia.
  pose proof (Z.mod_pos_bound i 2 ltac:(lia)).
  replace ((0 <=? i mod 2) && (i mod 2 <? 2)) with true in H by lia.
  exact H.
Qed.

(** Split a goal about the two bits of a pair. *)
Lemma pair_bits_ext x y :
  0 <= x < 4 -> 0 <= y < 4 ->
  (forall i, 0 <= i < 2 -> Z.testbit x i = Z.testbit y i) -> x = y.
Proof.
  intros Hx Hy H. apply Z.bits_inj'. intros i Hi. destruct (decide (i < 2)).
  - apply H. lia.
  - rewrite (testbit_high x 2), (testbit_high y 2) by lia. reflexivity.
Qed.

Lemma pair_lor_run q k m b :
  0 <= k -> 0 <= m -> 0 <= b ->
  pair (q .| run k m) b = if (k <=? b) && (b <? k + m) then 3 else pair q b.
Proof.
  intros. apply pair_bits_ext; [apply pair_range| |].
  { case_match; [lia|apply pair_range]. }
  intros i Hi. rewrite testbit_pair, Z.lor_spec, testbit_run by lia.
  replace ((0 <=? i) && (i <? 2)) with true by lia.
  destruct (decide (k <= b < k + m)).
  - replace ((k <=? b) && (b <? k + m)) with true by lia.
    replace ((2 * k <=? i + 2 * b) && (i + 2 * b <? 2 * (k + m))) with true by lia.
    rewrite testbit_3, orb_true_r. simpl. lia.
  - replace ((k <=? b) && (b <? k + m)) with false by lia.
    replace ((2 * k <=? i + 2 * b) && (i + 2 * b <? 2 * (k + m))) with false by lia.
    rewrite orb_false_r, testbit_pair by lia.
    replace ((0 <=? i) && (i <? 2)) with true by lia. reflexivity.
Qed.

Lemma land_run_zero q k m :
  0 <= k -> 0 <= m ->
  q .& run k m = 0 <-> (forall b, k <= b < k + m -> pair q b = 0).
Proof.
  intros Hk Hm. split.
  - intros H b Hb. apply pair_bits_ext; [apply pair_range|lia|].
    intros i Hi. rewrite testbit_pair, Z.bits_0 by lia.
    apply (f_equal (fun z => Z.testbit z (i + 2 * b))) in H.
    rewrite Z.land_spec, testbit_run, Z.bits_0 in H by lia.
    replace ((2 * k <=? i + 2 * b) && (i + 2 * b <? 2 * (k + m))) with true in H by lia.
    rewrite andb_true_r in H. rewrite H. apply andb_false_r.
  - intros H. apply Z.bits_inj'. intros i Hi.
    rewrite Z.land_spec, testbit_run, Z.bits_0 by lia.
    destruct ((2 * k <=? i) && (i <? 2 * (k + m))) eqn:E; [|apply andb_false_r].
    assert (Hb : k <= i / 2 < k + m) by div_mod_lia.
    specialize (H _ Hb). apply (f_equal (fun z => Z.testbit z (i mod 2))) in H.
    rewrite testbit_pair, Z.bits_0 in H by lia.
    replace (i mod 2 + 2 * (i / 2)) with i in H by div_mod_lia.
    replace ((0 <=? i mod 2) && (i mod 2 <? 2)) with true in H by div_mod_lia.
    simpl in H. rewrite H. reflexivity.
Qed.

(** [q & ~(v << 2k)] and [q | (v << 2k)] on a single pair. *)
Lemma pair_ldiff_pair q v k b :
  0 <= v < 4 -> 0 <= k -> 0 <= b ->
  pair (q .&~ (v .<< (2 * k))) b = if b =? k then pair q b .&~ v else pair q b.
Proof.
  intros Hv Hk Hb. apply pair_bits_ext; [apply pair_range| |].
  { case_match; [|apply pair_range]. pose proof (pair_range q b).
    assert (v = 0 \/ v = 1 \/ v = 2 \/ v = 3) by lia.
    assert (pair q b = 0 \/ pair q b = 1 \/ pair q b = 2 \/ pair q b = 3) by lia.
    intuition (subst; repeat match goal with H : _ = _ |- _ => rewrite H end; simpl; lia). }
  intros i Hi. rewrite testbit_pair, Z.ldiff_spec by lia.
  replace ((0 <=? i) && (i <? 2)) with true by lia. simpl.
  rewrite Z.shiftl_spec by lia.
  destruct (Z.eqb_spec b k) as [->|Hne].
  - rewrite Z.ldiff_spec, testbit_pair by lia.
    replace ((0 <=? i) && (i <? 2)) with true by lia.
    replace (i + 2 * k - 2 * k) with i by lia. reflexivity.
  - rewrite testbit_pair by lia. replace ((0 <=? i) && (i <? 2)) with true by lia.
    replace (Z.testbit v (i + 2 * b - 2 * k)) with false; [apply andb_true_r|].
    symmetry. destruct (decide (b < k)); [apply Z.testbit_neg_r; lia|].
    apply (testbit_high v 2); lia.
Qed.

(** * Block states of an element *)

(** State of block [b], [0 <= b < 256], of a list of eight words. *)
Definition blkq (qs : list Z) (b : Z) : Z := pair (aget qs (b / 32)) (b mod 32).
Definition blk (bm : bmap_data) (b : Z) : Z := blkq (bm_bitmapq bm) b.

(** Eight 64-bit words. *)
Definition words_ok (qs : list Z) : Prop :=
  alen qs = 8 /\ (forall i, 0 <= i < 8 -> 0 <= aget qs i < 2 ^ 64).

Lemma blkq_range qs b : 0 <= blkq qs b < 4.
Proof. apply pair_range. Qed.

Lemma words_ok_aset qs i q :
  words_ok qs -> 0 <= i < 8 -> 0 <= q < 2 ^ 64 -> words_ok (aset qs i q).
Proof.
  intros [Hl Hq] Hi Hr. split; [rewrite alen_aset; exact Hl|].
  intros j Hj. destruct (decide (i = j)) as [<-|].
  - rewrite aget_aset_eq by lia. exact Hr.
  - rewrite aget_aset_ne by lia. auto.
Qed.

Lemma blkq_aset qs i q b :
  alen qs = 8 -> 0 <= i < 8 -> 0 <= b < 256 ->
  blkq (aset qs i q) b = if b / 32 =? i then pair q (b mod 32) else blkq qs b.
Proof.
  intros Hl Hi Hb. unfold blkq. assert (0 <= b / 32) by (apply Z.div_pos; lia).
  destruct (Z.eqb_spec (b / 32) i) as [->|].
  - rewrite aget_aset_eq by lia. reflexivity.
  - rewrite aget_aset_ne by lia. reflexivity.
Qed.

(** Mark the blocks [32 i + k, 32 i + k + m) allocated. *)
Lemma blkq_lor_run qs i k m b :
  alen qs = 8 -> 0 <= i < 8 -> 0 <= k -> 0 <= m -> k + m <= 32 -> 0 <= b < 256 ->
  blkq (aset qs i (aget qs i .| run k m)) b =
    if (32 * i + k <=? b) && (b <? 32 * i + k + m) then 3 else blkq qs b.
Proof.
  intros Hl Hi Hk Hm Hkm Hb. rewrite blkq_aset by lia.
  destruct (Z.eqb_spec (b / 32) i) as [<-|Hne].
  - rewrite pair_lor_run by (try apply Z.mod_pos_bound; lia).
    replace ((k <=? b mod 32) && (b mod 32 <? k + m))
      with ((32 * (b / 32) + k <=? b) && (b <? 32 * (b / 32) + k + m)); [reflexivity|].
    apply eq_true_iff_eq. rewrite !andb_true_iff, !Z.leb_le, !Z.ltb_lt. div_mod_lia.
  - replace ((32 * i + k <=? b) && (b <? 32 * i + k + m)) with false; [reflexivity|].
    symmetry. apply andb_false_iff. rewrite Z.leb_gt, Z.ltb_ge. div_mod_lia.
Qed.

Lemma land_run_zero_blkq qs i k m :
  0 <= i < 8 -> 0 <= k -> 0 <= m -> k + m <= 32 ->
  aget qs i .& run k m = 0 <->
  (forall b, 32 * i + k <= b < 32 * i + k + m -> blkq qs b = 0).
Proof.
  intros Hi Hk Hm Hkm. rewrite land_run_zero by lia. unfold blkq. split; intros H b Hb.
  - replace (b / 32) with i by div_mod_lia. apply H. div_mod_lia.
  - specialize (H (32 * i + b) ltac:(lia)).
    replace ((32 * i + b) / 32) with i in H by div_mod_lia.
    replace ((32 * i + b) mod 32) with b in H by div_mod_lia. exact H.
Qed.

Lemma words_ok_lor_run qs i k m :
  words_ok qs -> 0 <= i < 8 -> 0 <= k -> 0 <= m -> k + m <= 32 ->
  words_ok (aset qs i (aget qs i .| run k m)).
Proof.
  intros Hw Hi Hk Hm Hkm. apply words_ok_aset; [exact Hw|exact Hi|].
  apply lor_range; [lia|apply Hw; lia|apply run_range; lia].
Qed.

(** * Counting unallocated blocks *)

(** Number of [b < n] with [f b = 0]. *)
Fixpoint nzero (f : Z -> Z) (n : nat) : Z :=
  match n with
  | O => 0
  | S n' => nzero f n' + (if f (Z.of_nat n') =? 0 then 1 else 0)
  end.

Definition free_blocks (bm : bmap_data) : Z := nzero (blk bm) 256.

Lemma nzero_range f n : 0 <= nzero f n <= Z.of_nat n.
Proof. induction n as [|n IH]; simpl nzero; [lia|]. case_match; lia. Qed.

Lemma nzero_ext f g n :
  (forall b, 0 <= b < Z.of_nat n -> f b = g b) -> nzero f n = nzero g n.
Proof.
  induction n as [|n IH]; intros H; simpl nzero; [reflexivity|].
  rewrite IH by (intros; apply H; lia). rewrite H by lia. reflexivity.
Qed.

(** Only whether a state is zero matters. *)
Lemma nzero_ext_zero f g n :
  (forall b, 0 <= b < Z.of_nat n -> (f b =? 0) = (g b =? 0)) -> nzero f n = nzero g n.
Proof.
  induction n as [|n IH]; intros H; simpl nzero; [reflexivity|].
  rewrite IH by (intros; apply H; lia). rewrite H by lia. reflexivity.
Qed.

Lemma nzero_pos f n b : 0 <= b < Z.of_nat n -> f b = 0 -> 1 <= nzero f n.
Proof.
  induction n as [|n IH]; intros Hb Hf; [lia|]. simpl nzero.
  pose proof (nzero_range f n). destruct (decide (b = Z.of_nat n)) as [->|].
  - rewrite Hf. simpl. lia.
  - specialize (IH ltac:(lia) Hf). case_match; lia.
Qed.

(** A run of zeros that becomes nonzero reduces the count by its length. *)
Lemma nzero_run f g n k m :
  0 <= k -> 0 <= m -> k + m <= Z.of_nat n ->
  (forall b, k <= b < k + m -> f b = 0) ->
  (forall b, k <= b < k + m -> g b <> 0) ->
  (forall b, 0 <= b < Z.of_nat n -> ~ (k <= b < k + m) -> g b = f b) ->
  nzero g n = nzero f n - m.
Proof.
  intros Hk Hm Hn Hf Hg He.
  enough (forall j, (j <= n)%nat ->
            nzero g j = nzero f j - Z.max 0 (Z.min m (Z.of_nat j - k))) as Hj.
  { rewrite Hj by lia. lia. }
  induction j as [|j IH]; intros Hjn; simpl nzero; [lia|].
  rewrite IH by lia. destruct (decide (k <= Z.of_nat j < k + m)).
  - rewrite Hf by lia. destruct (Z.eqb_spec (g (Z.of_nat j)) 0) as [E|_].
    { exfalso. apply (Hg _ ltac:(eassumption)). exact E. }
    simpl. lia.
  - rewrite He by lia. lia.
Qed.

Lemma nzero_none f n :
  (forall b, 0 <= b < Z.of_nat n -> f b <> 0) -> nzero f n = 0.
Proof.
  induction n as [|n IH]; intros H; simpl nzero; [reflexivity|].
  rewrite IH by (intros; apply H; lia).
  destruct (Z.eqb_spec (f (Z.of_nat n)) 0) as [E|]; [|lia].
  exfalso. apply (H (Z.of_nat n)); [lia|exact E].
Qed.

Lemma nzero_all f n :
  (forall b, 0 <= b < Z.of_nat n -> f b = 0) -> nzero f n = Z.of_nat n.
Proof.
  induction n as [|n IH]; intros H; simpl nzero; [reflexivity|].
  rewrite IH by (intros; apply H; lia). rewrite H by lia. simpl. lia.
Qed.

(** Changing one block changes the count by its contribution. *)
Lemma nzero_upd f g n b :
  0 <= b < Z.of_nat n -> (forall c, 0 <= c < Z.of_nat n -> c <> b -> g c = f c) ->
  nzero g n = nzero f n - (if f b =? 0 then 1 else 0) + (if g b =? 0 then 1 else 0).
Proof.
  induction n as [|n IH]; intros Hb Hg; [lia|]. simpl nzero.
  destruct (decide (b = Z.of_nat n)) as [->|].
  - rewrite (nzero_ext f g n) by (intros c Hc; symmetry; apply Hg; lia). lia.
  - rewrite IH by (try lia; intros; apply Hg; lia). rewrite (Hg (Z.of_nat n)) by lia. lia.
Qed.

Lemma nzero_lt f n b : 0 <= b < Z.of_nat n -> f b <> 0 -> nzero f n <= Z.of_nat n - 1.
Proof.
  induction n as [|n IH]; intros Hb Hf; [lia|]. simpl nzero. pose proof (nzero_range f n).
  destruct (decide (b = Z.of_nat n)) as [->|].
  - apply Z.eqb_neq in Hf. rewrite Hf. lia.
  - specialize (IH ltac:(lia) Hf). case_match; lia.
Qed.

Lemma free_blocks_upd bm bm' b :
  0 <= b < 256 -> (forall c, 0 <= c < 256 -> c <> b -> blk bm' c = blk bm c) ->
  free_blocks bm' = free_blocks bm - (if blk bm b =? 0 then 1 else 0)
                    + (if blk bm' b =? 0 then 1 else 0).
Proof. intros Hb Hc. apply (nzero_upd (blk bm) (blk bm') 256 b); [lia|exact Hc]. Qed.

Lemma free_blocks_pos bm b : 0 <= b < 256 -> blk bm b = 0 -> 1 <= free_blocks bm.
Proof. intros Hb Hz. apply (nzero_pos (blk bm) 256 b); [lia|exact Hz]. Qed.
Lemma free_blocks_lt bm b : 0 <= b < 256 -> blk bm b <> 0 -> free_blocks bm <= 255.
Proof. intros Hb Hz. apply (nzero_lt (blk bm) 256 b); [lia|exact Hz]. Qed.
Lemma free_blocks_range bm : 0 <= free_blocks bm <= 256.
Proof. exact (nzero_range (blk bm) 256). Qed.

(** ** Constant bitmaps *)

Lemma pair_allones k : 0 <= k < 32 -> pair HAMMER2_BMAP_ALLONES k = 3.
Proof.
  intros Hk. apply pair_bits_ext; [apply pair_range|lia|]. intros i Hi.
  rewrite testbit_pair by lia. change HAMMER2_BMAP_ALLONES with (Z.ones 64).
  rewrite testbit_ones_lt, testbit_3 by lia. lia.
Qed.

Lemma pair_zero k : pair 0 k = 0.
Proof. unfold pair. rewrite Z.shiftr_0_l. reflexivity. Qed.

Lemma blkq_replicate q b : 0 <= b < 256 -> blkq (replicate 8 q) b = pair q (b mod 32).
Proof.
  intros Hb. unfold blkq, aget. f_equal. apply list_lookup_total_correct.
  apply lookup_replicate_2. apply Nat2Z.inj_lt.
  rewrite Z2Nat.id by (apply Z.div_pos; lia). div_mod_lia.
Qed.

Lemma words_ok_replicate q : 0 <= q < 2 ^ 64 -> words_ok (replicate 8 q).
Proof.
  intros Hq. split; [reflexivity|]. intros i Hi. unfold aget.
  rewrite (list_lookup_total_correct _ _ q); [exact Hq|].
  apply lookup_replicate_2. lia.
Qed.
