(* ===== verification/Freemap.v ===== *)
(** [hammer2_freemap.c]: the on-media storage allocator.

    Level-0 element ([bmap_data], 4MB), level-1 leaf (256 elements, 1GB) and
    the allocation loop over the device.  The freemap topology below
    [hmp->fchain] and the buffer cache are reached through the interfaces
    [LeafStore] and [IoOps]; every state change of the allocator itself is
    explicit. *)

From Stdlib Require Import ZArith Lia Bool.
From stdpp Require Import base numbers list option.
From S2P Require Import Prelude Disk Subr.

(** * Interfaces *)

(** What the allocator asks of [hammer2_io.c]: [hammer2_io_newnz] followed by
    [hammer2_io_putblk], and the dedup bookkeeping.  A call may panic. *)
Class IoOps (IO : Type) := {
  io_newnz : Z -> Z -> Z -> IO -> outcome IO;            (* btype lbase lsize *)
  io_dedup_set : blockref -> IO -> outcome IO;
  io_dedup_delete : Z -> Z -> Z -> IO -> outcome IO;     (* btype off bytes *)
  io_dedup_assert : Z -> Z -> IO -> outcome IO           (* off bytes *)
}.

(** One level-1 leaf: its chain's [bref.check.freemap] hints, its error state
    and its 256 bitmap elements. *)
Record leaf := Leaf {
  lf_error : Z;
  lf_bigmask : Z;
  lf_avail : Z;
  lf_bmdata : list bmap_data
}.
#[export] Instance leaf_inhabited : Inhabited leaf := populate (Leaf 0 0 0 []).

Definition set_bigmask (v : Z) (l : leaf) : leaf :=
  Leaf (lf_error l) v (lf_avail l) (lf_bmdata l).
Definition set_bmdata (v : list bmap_data) (l : leaf) : leaf :=
  Leaf (lf_error l) (lf_bigmask l) (lf_avail l) v.

(** * Bitmap element allocation *)

(** [(bmradix == BITS_PER_ELEMENT) ? ALLONES : ((hammer2_bitmap_t)1 << bmradix) - 1] *)
Definition bmmask_of (bmradix : Z) : Z :=
  if bmradix =? HAMMER2_BMAP_BITS_PER_ELEMENT then HAMMER2_BMAP_ALLONES
  else u64 (1 .<< bmradix) - 1.

(** 2 bits per 16KB block, at least one block. *)
Definition bmradix_of (radix : Z) : Z :=
  if radix <=? HAMMER2_FREEMAP_BLOCK_RADIX then 2
  else 2 .<< (radix - HAMMER2_FREEMAP_BLOCK_RADIX).

(** The linear iterator is usable: mid-block, and the request fits. *)
Definition linear_usable (bmap : bmap_data) (size : Z) : bool :=
  ((u32 (bm_linear bmap) .& HAMMER2_FREEMAP_BLOCK_MASK) + size
     <=? HAMMER2_FREEMAP_BLOCK_SIZE)
  && tst (bm_linear bmap) HAMMER2_FREEMAP_BLOCK_MASK
  && (bm_linear bmap <? HAMMER2_SEGSIZE).

(** [for (j = 0; j < 64; j += bmradix) { if (!(q & bmmask)) goto success;
    bmmask <<= bmradix; }] *)
Fixpoint scan_element (fuel : nat) (q bmradix j bmmask : Z) : option (Z * Z) :=
  match fuel with
  | O => None
  | S fuel' =>
      if j <? HAMMER2_BMAP_BITS_PER_ELEMENT then
        if q .& bmmask =? 0 then Some (j, bmmask)
        else scan_element fuel' q bmradix (j + bmradix) (u64 (bmmask .<< bmradix))
      else None
  end.

(** The general element scan over [bitmapq[0..7]]. *)
Definition scan_bitmap (bitmapq : list Z) (bmradix : Z) : option (Z * Z * Z) :=
  match for_up 8 0 (fun i (_ : unit) =>
          match scan_element 32 (aget bitmapq i) bmradix 0 (bmmask_of bmradix) with
          | Some (j, bmmask) => inr (i, j, bmmask)
          | None => inl tt
          end) tt with
  | inl _ => None
  | inr r => Some r
  end.

(** The starting point derived from [sub_key], for data of at least 16KB. *)
Definition sub_key_start (class sub_key radix : Z) : option (Z * Z) :=
  if (class .>> 8 =? HAMMER2_BREF_TYPE_DATA)
     && (HAMMER2_FREEMAP_BLOCK_RADIX <=? radix) then
    Some ((sub_key .& HAMMER2_BMAP_MASK)
            / (HAMMER2_BMAP_SIZE / HAMMER2_BMAP_ELEMENTS),
          (sub_key .& HAMMER2_BMAP_INDEX_MASK)
            / (HAMMER2_BMAP_INDEX_SIZE / HAMMER2_BMAP_BLOCKS_PER_ELEMENT) * 2)
  else None.

(** Where to allocate: element [i], its [bmmask], the byte [offset] and the new
    linear iterator; [None] is ENOSPC. *)
Definition bmap_select (bmap : bmap_data) (class sub_key radix : Z)
  : outcome (option (Z * Z * Z * Z)) :=
  let size := 1 .<< radix in
  let bmradix := bmradix_of radix in
  if linear_usable bmap size then
    let linear := bm_linear bmap in
    assert! 0 <=? linear;
    assert! linear + size <=? HAMMER2_SEGSIZE;
    assert! linear .& (HAMMER2_ALLOC_MIN - 1) =? 0;
    let offset := linear in
    let i := offset / (HAMMER2_SEGSIZE / HAMMER2_BMAP_ELEMENTS) in
    let j := (offset / (HAMMER2_FREEMAP_BLOCK_SIZE / 2)) .& 62 in
    Done (Some (i, u64 (bmmask_of bmradix .<< j), offset, offset + size))
  else
    let success '(i, j, bmmask) :=
      let offset := i * (HAMMER2_SEGSIZE / HAMMER2_BMAP_ELEMENTS)
                    + j * (HAMMER2_FREEMAP_BLOCK_SIZE / 2) in
      Some (i, bmmask, offset,
            if tst size HAMMER2_FREEMAP_BLOCK_MASK then offset + size
            else bm_linear bmap) in
    let general :=
      match scan_bitmap (bm_bitmapq bmap) bmradix with
      | Some r => success r
      | None => None
      end in
    match sub_key_start class sub_key radix with
    | Some (i, j) =>
        assert! i <? HAMMER2_BMAP_ELEMENTS;
        assert! j <? 2 * HAMMER2_BMAP_BLOCKS_PER_ELEMENT;
        assert! j + bmradix <=? HAMMER2_BMAP_BITS_PER_ELEMENT;
        let bmmask := u64 (bmmask_of bmradix .<< j) in
        if aget (bm_bitmapq bmap) i .& bmmask =? 0
        then Done (success (i, j, bmmask))
        else Done general
    | None => Done general
    end.

(** * The device, as far as the allocator uses it *)

Record dev (T IO : Type) := Dev {
  dv_total_size : Z;              (* hmp->total_size *)
  dv_allocator_beg : Z;           (* hmp->voldata.allocator_beg *)
  dv_allocator_free : Z;          (* hmp->voldata.allocator_free *)
  dv_voldata_mirror_tid : Z;      (* hmp->voldata.mirror_tid *)
  dv_vchain_modified : bool;      (* vchain.flags & HAMMER2_CHAIN_MODIFIED *)
  dv_vchain_mirror_tid : Z;       (* vchain.bref.mirror_tid *)
  dv_modify_tid : Z;              (* hmp->spmp->modify_tid *)
  dv_freemap_relaxed : Z;         (* hmp->freemap_relaxed *)
  dv_heur_freemap : list Z;       (* hmp->heur_freemap[32] *)
  dv_fchain : T;                  (* freemap topology below hmp->fchain *)
  dv_io : IO                      (* buffer cache *)
}.
Arguments Dev {T IO}.
Arguments dv_total_size {T IO}. Arguments dv_allocator_beg {T IO}.
Arguments dv_allocator_free {T IO}. Arguments dv_voldata_mirror_tid {T IO}.
Arguments dv_vchain_modified {T IO}. Arguments dv_vchain_mirror_tid {T IO}.
Arguments dv_modify_tid {T IO}. Arguments dv_freemap_relaxed {T IO}.
Arguments dv_heur_freemap {T IO}. Arguments dv_fchain {T IO}.
Arguments dv_io {T IO}.

Section dev_updates.
Context {T IO : Type}.
Implicit Types h : dev T IO.

Definition set_allocator_free v h : dev T IO :=
  Dev (dv_total_size h) (dv_allocator_beg h) v (dv_voldata_mirror_tid h)
      (dv_vchain_modified h) (dv_vchain_mirror_tid h) (dv_modify_tid h)
      (dv_freemap_relaxed h) (dv_heur_freemap h) (dv_fchain h) (dv_io h).
Definition set_vchain m t h : dev T IO :=
  Dev (dv_total_size h) (dv_allocator_beg h) (dv_allocator_free h)
      (dv_voldata_mirror_tid h) m t (dv_modify_tid h)
      (dv_freemap_relaxed h) (dv_heur_freemap h) (dv_fchain h) (dv_io h).
Definition set_dev_modify_tid v h : dev T IO :=
  Dev (dv_total_size h) (dv_allocator_beg h) (dv_allocator_free h)
      (dv_voldata_mirror_tid h) (dv_vchain_modified h)
      (dv_vchain_mirror_tid h) v
      (dv_freemap_relaxed h) (dv_heur_freemap h) (dv_fchain h) (dv_io h).
Definition set_freemap_relaxed v h : dev T IO :=
  Dev (dv_total_size h) (dv_allocator_beg h) (dv_allocator_free h)
      (dv_voldata_mirror_tid h) (dv_vchain_modified h)
      (dv_vchain_mirror_tid h) (dv_modify_tid h)
      v (dv_heur_freemap h) (dv_fchain h) (dv_io h).
Definition set_heur_freemap v h : dev T IO :=
  Dev (dv_total_size h) (dv_allocator_beg h) (dv_allocator_free h)
      (dv_voldata_mirror_tid h) (dv_vchain_modified h)
      (dv_vchain_mirror_tid h) (dv_modify_tid h)
      (dv_freemap_relaxed h) v (dv_fchain h) (dv_io h).
Definition set_fchain v h : dev T IO :=
  Dev (dv_total_size h) (dv_allocator_beg h) (dv_allocator_free h)
      (dv_voldata_mirror_tid h) (dv_vchain_modified h)
      (dv_vchain_mirror_tid h) (dv_modify_tid h)
      (dv_freemap_relaxed h) (dv_heur_freemap h) v (dv_io h).
Definition set_io v h : dev T IO :=
  Dev (dv_total_size h) (dv_allocator_beg h) (dv_allocator_free h)
      (dv_voldata_mirror_tid h) (dv_vchain_modified h)
      (dv_vchain_mirror_tid h) (dv_modify_tid h)
      (dv_freemap_relaxed h) (dv_heur_freemap h) (dv_fchain h) v.

(** [hammer2_voldata_modify] (hammer2_vfsops.c) *)
Definition hammer2_voldata_modify h : dev T IO :=
  if dv_vchain_modified h then h
  else set_vchain true (u64 (dv_voldata_mirror_tid h + 1)) h.

(** [hammer2_trans_sub(hmp->spmp)] (hammer2_flush.c): returns the old tid. *)
Definition hammer2_trans_sub h : Z * dev T IO :=
  (dv_modify_tid h, set_dev_modify_tid (u64 (dv_modify_tid h + 1)) h).

(** [voldata.allocator_free += delta] under the volume lock. *)
Definition adjust_allocator_free (delta : Z) h : dev T IO :=
  set_allocator_free (u64 (dv_allocator_free h + delta))
    (hammer2_voldata_modify h).
End dev_updates.

(** * [hammer2_bmap_alloc] *)

Section bmap_alloc.
Context {T IO : Type} `{!IoOps IO}.

(** [while ((pbmmask & bmmask) == 0) pbmmask <<= pbmradix] *)
Fixpoint find_pbmmask (fuel : nat) (pbmmask bmmask pbmradix : Z) : outcome Z :=
  match fuel with
  | O => Panic
  | S fuel' =>
      if pbmmask .& bmmask =? 0
      then find_pbmmask fuel' (u64 (pbmmask .<< pbmradix)) bmmask pbmradix
      else Done pbmmask
  end.

(** Avoid a read-before-write when the whole 64KB device buffer is free. *)
Definition bmap_newnz (hmp : dev T IO) (bmap : bmap_data)
    (class size i bmmask offset basep : Z) : outcome (dev T IO) :=
  if (aget (bm_bitmapq bmap) i .& bmmask =? 0) && negb (HAMMER2_PBUFSIZE =? size) then
    let pbmradix := 2 .<< (HAMMER2_PBUFRADIX - HAMMER2_FREEMAP_BLOCK_RADIX) in
    let! pbmmask := find_pbmmask 9 (bmmask_of pbmradix) bmmask pbmradix in
    if aget (bm_bitmapq bmap) i .& pbmmask =? 0 then
      let! io := io_newnz (class .>> 8)
                   (u64 (basep + offset .&~ HAMMER2_PBUFMASK) .| HAMMER2_PBUFRADIX)
                   HAMMER2_PBUFSIZE (dv_io hmp) in
      Done (set_io io hmp)
    else Done hmp
  else Done hmp.

(** Returns (error, hmp, bmap, *basep). *)
Definition hammer2_bmap_alloc (hmp : dev T IO) (bmap : bmap_data)
    (class n sub_key radix basep : Z)
  : outcome (Z * dev T IO * bmap_data * Z) :=
  let size := 1 .<< radix in
  let! sel := bmap_select bmap class sub_key radix in
  match sel with
  | None => Done (HAMMER2_ERROR_ENOSPC, hmp, bmap, basep)
  | Some (i, bmmask, offset, linear) =>
      assert! (0 <=? i) && (i <? HAMMER2_BMAP_ELEMENTS);
      let! hmp := bmap_newnz hmp bmap class size i bmmask offset basep in
      let q := aget (bm_bitmapq bmap) i in
      let bgsize :=
        if radix <? HAMMER2_FREEMAP_BLOCK_RADIX then
          if tst q bmmask then 0 else HAMMER2_FREEMAP_BLOCK_SIZE
        else size in
      let bmap' := Bmap linear
                     (if bm_class bmap =? 0 then class else bm_class bmap)
                     (u32 (bm_avail bmap - bgsize))
                     (aset (bm_bitmapq bmap) i (q .| bmmask)) in
      let hmp := if bgsize =? 0 then hmp
                 else adjust_allocator_free (- bgsize) hmp in
      Done (0, hmp, bmap', u64 (basep + offset))
  end.
End bmap_alloc.

(** * [hammer2_freemap_reserve] *)

Abbreviation HAMMER2_ZONEFM_LEVEL1 := 0 (only parsing).
Abbreviation HAMMER2_ZONEFM_LEVEL2 := 1 (only parsing).
Abbreviation HAMMER2_ZONEFM_LEVEL3 := 2 (only parsing).
Abbreviation HAMMER2_ZONEFM_LEVEL4 := 3 (only parsing).
Abbreviation HAMMER2_ZONEFM_LEVEL5 := 4 (only parsing).
(** The 6-bit radix field of a [data_off]. *)
Abbreviation HAMMER2_OFF_MASK_RADIX6 := 63 (only parsing).

(** The rotating block selection index 0..7. *)
Definition reserve_index (data_off : Z) : outcome Z :=
  if data_off .&~ HAMMER2_OFF_MASK_RADIX6 =? 0 then Done 0
  else
    let off := (data_off .&~ HAMMER2_OFF_MASK_RADIX6) .& HAMMER2_SEGMASK in
    let off := off / HAMMER2_PBUFSIZE in
    assert! (HAMMER2_ZONE_FREEMAP_00 <=? off) && (off <? HAMMER2_ZONE_FREEMAP_END);
    let index := (off - HAMMER2_ZONE_FREEMAP_00) / HAMMER2_ZONE_FREEMAP_INC in
    assert! (0 <=? index) && (index <? HAMMER2_NFREEMAPS);
    Done (if index + 1 =? HAMMER2_NFREEMAPS then 0 else index + 1).

(** One [case] of the level switch. *)
Definition reserve_level (bref : blockref) (bytes index_inc btype radix zonefm : Z)
  : outcome Z :=
  assert! br_type bref =? btype;
  assert! bytes =? HAMMER2_FREEMAP_LEVELN_PSIZE;
  Done (u64 (H2FMBASE (br_key bref) radix
             + (index_inc + HAMMER2_ZONE_FREEMAP_00 + zonefm) * HAMMER2_PBUFSIZE)).

(** Returns the updated [chain->bref]. *)
Definition hammer2_freemap_reserve (bref : blockref) (radix : Z) : outcome blockref :=
  let bytes := 1 .<< radix in
  let! index := reserve_index (br_data_off bref) in
  let index_inc := index * HAMMER2_ZONE_FREEMAP_INC in
  let! off :=
    match br_keybits bref with
    | HAMMER2_FREEMAP_LEVEL5_RADIX =>
        reserve_level bref bytes index_inc HAMMER2_BREF_TYPE_FREEMAP_NODE
          HAMMER2_FREEMAP_LEVEL5_RADIX HAMMER2_ZONEFM_LEVEL5
    | HAMMER2_FREEMAP_LEVEL4_RADIX =>
        reserve_level bref bytes index_inc HAMMER2_BREF_TYPE_FREEMAP_NODE
          HAMMER2_FREEMAP_LEVEL4_RADIX HAMMER2_ZONEFM_LEVEL4
    | HAMMER2_FREEMAP_LEVEL3_RADIX =>
        reserve_level bref bytes index_inc HAMMER2_BREF_TYPE_FREEMAP_NODE
          HAMMER2_FREEMAP_LEVEL3_RADIX HAMMER2_ZONEFM_LEVEL3
    | HAMMER2_FREEMAP_LEVEL2_RADIX =>
        reserve_level bref bytes index_inc HAMMER2_BREF_TYPE_FREEMAP_NODE
          HAMMER2_FREEMAP_LEVEL2_RADIX HAMMER2_ZONEFM_LEVEL2
    | HAMMER2_FREEMAP_LEVEL1_RADIX =>
        reserve_level bref bytes index_inc HAMMER2_BREF_TYPE_FREEMAP_LEAF
          HAMMER2_FREEMAP_LEVEL1_RADIX HAMMER2_ZONEFM_LEVEL1
    | _ => Panic
    end in
  Done (set_data_off (off .| radix) bref).

(** * Leaves: creation and initialisation *)

(** The freemap topology, as [hammer2_chain.c] presents it: leaves by their
    1GB-aligned key. *)
Class LeafStore (T : Type) := {
  leaf_lookup : Z -> T -> option leaf;         (* hammer2_chain_lookup *)
  leaf_create : Z -> Z -> T -> outcome T;      (* hammer2_chain_create: key mtid *)
  leaf_modify : Z -> Z -> T -> outcome (T * Z); (* hammer2_chain_modify: key mtid; its error *)
  leaf_write : Z -> leaf -> T -> T             (* stores through chain->data, ->bref *)
}.

Definition bmap_zero : bmap_data := Bmap 0 0 0 (replicate 8 0).

(** [lokey]: the end of the static allocation and of the reserved segment. *)
Definition init_lokey (allocator_beg key : Z) : Z :=
  let lokey := u64 (allocator_beg + HAMMER2_SEGMASK) .&~ HAMMER2_SEGMASK in
  let lokey := if lokey <? H2FMBASE key HAMMER2_FREEMAP_LEVEL1_RADIX
               then H2FMBASE key HAMMER2_FREEMAP_LEVEL1_RADIX else lokey in
  if lokey <? H2FMZONEBASE key + HAMMER2_ZONE_SEG
  then H2FMZONEBASE key + HAMMER2_ZONE_SEG else lokey.

(** [hikey]: the end of the volume. *)
Definition init_hikey (total_size key : Z) : Z :=
  let hikey := u64 (key + HAMMER2_FREEMAP_LEVEL1_SIZE) in
  if total_size <? hikey then total_size .&~ HAMMER2_SEGMASK else hikey.

(** The [for (count = 0; count < HAMMER2_FREEMAP_COUNT; ++count)] loop: returns
    the elements and [check.freemap.avail]. *)
Fixpoint init_elements (bms : list bmap_data) (lokey hikey key avail : Z)
  : list bmap_data * Z :=
  match bms with
  | [] => ([], avail)
  | bm :: bms =>
      let '(bm, avail) :=
        if (key <? lokey) || (hikey <=? key)
        then (Bmap HAMMER2_SEGSIZE (bm_class bm) 0
                (replicate 8 HAMMER2_BMAP_ALLONES),
              u64 (avail - HAMMER2_FREEMAP_LEVEL0_SIZE))
        else (set_avail HAMMER2_FREEMAP_LEVEL0_SIZE bm, avail) in
      let '(bms, avail) :=
        init_elements bms lokey hikey (u64 (key + HAMMER2_FREEMAP_LEVEL0_SIZE)) avail in
      (bm :: bms, avail)
  end.

Definition hammer2_freemap_init (total_size allocator_beg key : Z) (lf : leaf) : leaf :=
  let '(bms, avail) :=
    init_elements (lf_bmdata lf) (init_lokey allocator_beg key)
      (init_hikey total_size key) key HAMMER2_FREEMAP_LEVEL1_SIZE in
  Leaf (lf_error lf) (lf_bigmask lf) avail bms.

(** * The allocation loop *)

Record fiterate := Fiter {
  fi_bpref : Z;
  fi_bnext : Z;
  fi_loops : Z;
  fi_relaxed : Z
}.

(** Returns (error, iter). *)
Definition hammer2_freemap_iterate (total_size : Z) (iter : fiterate) : Z * fiterate :=
  let bnext := u64 ((fi_bnext iter .&~ HAMMER2_FREEMAP_LEVEL1_MASK)
                    + HAMMER2_FREEMAP_LEVEL1_SIZE) in
  if total_size <=? bnext then
    let loops := fi_loops iter + 1 in
    if 2 <=? loops then
      if fi_relaxed iter =? 0
      then (HAMMER2_ERROR_EAGAIN, Fiter (fi_bpref iter) 0 loops 1)
      else (HAMMER2_ERROR_ENOSPC, Fiter (fi_bpref iter) 0 loops (fi_relaxed iter))
    else (HAMMER2_ERROR_EAGAIN, Fiter (fi_bpref iter) 0 loops (fi_relaxed iter))
  else (HAMMER2_ERROR_EAGAIN,
        Fiter (fi_bpref iter) bnext (fi_loops iter) (fi_relaxed iter)).

Section freemap_alloc.
Context {T IO : Type} `{!LeafStore T} `{!IoOps IO}.

(** [availchk] for an element that exists. *)
Definition availchk (bmap : bmap_data) (radix : Z) : bool :=
  if negb (bm_avail bmap =? 0) then true
  else (radix <? HAMMER2_FREEMAP_BLOCK_RADIX)
       && tst (bm_linear bmap) HAMMER2_FREEMAP_BLOCK_MASK.

(** Try the element at index [n]; ENOSPC also when it is not eligible.
    Returns (error, hmp, leaf, key). *)
Definition try_element (hmp : dev T IO) (lf : leaf) (bref : blockref)
    (radix relaxed class key n : Z) : outcome (Z * dev T IO * leaf * Z) :=
  if (n <? 0) || (HAMMER2_FREEMAP_COUNT <=? n)
  then Done (HAMMER2_ERROR_ENOSPC, hmp, lf, key)
  else
    let bmap := aget (lf_bmdata lf) n in
    if availchk bmap radix
       && ((bm_class bmap =? 0) || (bm_class bmap =? class) || negb (relaxed =? 0))
    then
      let base_key := u64 (key + n * HAMMER2_FREEMAP_LEVEL0_SIZE) in
      let! (error, hmp, bmap, base_key) :=
        hammer2_bmap_alloc hmp bmap class n (i32 (br_key bref)) radix base_key in
      if error =? HAMMER2_ERROR_ENOSPC
      then Done (error, hmp, set_bmdata (aset (lf_bmdata lf) n bmap) lf, key)
      else Done (error, hmp, set_bmdata (aset (lf_bmdata lf) n bmap) lf, base_key)
    else Done (HAMMER2_ERROR_ENOSPC, hmp, lf, key).

(** The scan of the 4MB entries, forwards and backwards from [start]. *)
Fixpoint scan_leaf (fuel : nat) (count start : Z) (hmp : dev T IO) (lf : leaf)
    (bref : blockref) (radix relaxed class key : Z)
  : outcome (Z * dev T IO * leaf * Z) :=
  match fuel with
  | O => Done (HAMMER2_ERROR_ENOSPC, hmp, lf, key)
  | S fuel =>
      if (HAMMER2_FREEMAP_COUNT <=? start + count) && (start - count <? 0)
      then Done (HAMMER2_ERROR_ENOSPC, hmp, lf, key)
      else
        let! (error, hmp, lf, key) :=
          try_element hmp lf bref radix relaxed class key (start + count) in
        if negb (error =? HAMMER2_ERROR_ENOSPC) then Done (error, hmp, lf, key)
        else
          let! (error, hmp, lf, key) :=
            try_element hmp lf bref radix relaxed class key (start - count) in
          if negb (error =? HAMMER2_ERROR_ENOSPC) then Done (error, hmp, lf, key)
          else scan_leaf fuel (count + 1) start hmp lf bref radix relaxed class key
  end.

(** Find or create the leaf; returns (error, hmp). *)
Definition try_leaf (hmp : dev T IO) (key radix mtid : Z) : outcome (Z * dev T IO) :=
  match leaf_lookup key (dv_fchain hmp) with
  | None =>
      let! t := leaf_create key mtid (dv_fchain hmp) in
      let! (t, _) := leaf_modify key mtid t in
      match leaf_lookup key t with
      | None => Panic
      | Some lf =>
          let lf := Leaf (lf_error lf) 4294967295 HAMMER2_FREEMAP_LEVEL1_SIZE
                      (replicate (Z.to_nat HAMMER2_FREEMAP_COUNT) bmap_zero) in
          let lf := hammer2_freemap_init (dv_total_size hmp) (dv_allocator_beg hmp) key lf in
          Done (0, set_fchain (leaf_write key lf t) hmp)
      end
  | Some lf =>
      if negb (lf_error lf =? 0) then Done (HAMMER2_ERROR_EIO, hmp)
      else if lf_bigmask lf .& (1 .<< radix) =? 0 then Done (HAMMER2_ERROR_ENOSPC, hmp)
      else
        let! (t, _) := leaf_modify key mtid (dv_fchain hmp) in
        Done (0, set_fchain t hmp)
  end.

(** The scan of one leaf with its hint update; returns (error, hmp, key). *)
Definition try_scan (hmp : dev T IO) (bref : blockref) (radix : Z) (iter : fiterate)
    (class key mtid : Z) : outcome (Z * dev T IO * Z) :=
  let start := i32 ((fi_bnext iter - key) .>> HAMMER2_FREEMAP_LEVEL0_RADIX) in
  assert! (0 <=? start) && (start <? HAMMER2_FREEMAP_COUNT);
  let! (t, _) := leaf_modify key mtid (dv_fchain hmp) in
  match leaf_lookup key t with
  | None => Panic
  | Some lf =>
      let! (error, hmp', lf, key') :=
        scan_leaf (Z.to_nat HAMMER2_FREEMAP_COUNT) 0 start (set_fchain t hmp) lf bref
          radix (fi_relaxed iter) class key in
      let lf := if (error =? HAMMER2_ERROR_ENOSPC) && (start =? 0)
                   && negb (fi_relaxed iter =? 0)
                then set_bigmask (lf_bigmask lf .&~ (1 .<< radix)) lf else lf in
      Done (error, set_fchain (leaf_write key lf (dv_fchain hmp')) hmp', key')
  end.

(** Returns (error, hmp, bref, iter). *)
Definition hammer2_freemap_try_alloc (hmp : dev T IO) (bref : blockref) (radix : Z)
    (iter : fiterate) (mtid : Z) : outcome (Z * dev T IO * blockref * fiterate) :=
  let bytes := 1 .<< radix in
  let class := u16 ((br_type bref .<< 8) .| HAMMER2_PBUFRADIX) in
  let key := H2FMBASE (fi_bnext iter) HAMMER2_FREEMAP_LEVEL1_RADIX in
  let! (error, hmp) := try_leaf hmp key radix mtid in
  let! (error, hmp, key) :=
    if error =? 0 then try_scan hmp bref radix iter class key mtid
    else Done (error, hmp, key) in
  if error =? 0 then
    assert! (dv_allocator_beg hmp <=? key) && (u64 (key + bytes) <=? dv_total_size hmp);
    assert! HAMMER2_ZONE_SEG <=? (key .& HAMMER2_ZONE_MASK64);
    let bref := set_data_off (key .| radix) bref in
    if br_type bref =? HAMMER2_BREF_TYPE_DATA then
      let! io := io_dedup_set bref (dv_io hmp) in
      Done (0, set_io io hmp, bref, iter)
    else Done (0, hmp, bref, iter)
  else if error =? HAMMER2_ERROR_ENOSPC then
    let '(error, iter) := hammer2_freemap_iterate (dv_total_size hmp) iter in
    Done (error, hmp, bref, iter)
  else Done (error, hmp, bref, iter).

(** [while (error == HAMMER2_ERROR_EAGAIN) error = try_alloc(...)] *)
Fixpoint alloc_loop (fuel : nat) (hmp : dev T IO) (bref : blockref) (radix : Z)
    (iter : fiterate) (mtid : Z) : outcome (Z * dev T IO * blockref * fiterate) :=
  match fuel with
  | O => Panic
  | S fuel =>
      let! (error, hmp, bref, iter) :=
        hammer2_freemap_try_alloc hmp bref radix iter mtid in
      if error =? HAMMER2_ERROR_EAGAIN then alloc_loop fuel hmp bref radix iter mtid
      else Done (error, hmp, bref, iter)
  end.

(** At most three passes over the 1GB zones. *)
Definition alloc_fuel (total_size : Z) : nat :=
  Z.to_nat (3 * (total_size / HAMMER2_FREEMAP_LEVEL1_SIZE + 1)).

(** Returns (error, hmp, chain->bref). *)
Definition hammer2_freemap_alloc (hmp : dev T IO) (bref : blockref) (bytes : Z)
  : outcome (Z * dev T IO * blockref) :=
  if bytes =? 0 then Done (0, hmp, set_data_off 0 bref)
  else
    let '(mtid, hmp) := hammer2_trans_sub hmp in
    let! radix := hammer2_getradix bytes in
    assert! u64 (1 .<< radix) =? bytes;
    if (br_type bref =? HAMMER2_BREF_TYPE_FREEMAP_NODE)
       || (br_type bref =? HAMMER2_BREF_TYPE_FREEMAP_LEAF) then
      let! bref := hammer2_freemap_reserve bref radix in
      Done (0, hmp, bref)
    else
      assert! (HAMMER2_ALLOC_MIN <=? bytes) && (bytes <=? HAMMER2_ALLOC_MAX);
      let hindex := HAMMER2_PBUFRADIX - HAMMER2_LBUFRADIX in
      assert! hindex <? 4;
      let hindex := (hindex + br_type bref * 4) .& (8 * 4 - 1) in
      assert! hindex <? 32;
      let bpref := aget (dv_heur_freemap hmp) hindex in
      let bpref := if dv_total_size hmp <? bpref
                   then u64 (dv_total_size hmp - 1) else bpref in
      let iter := Fiter bpref bpref 0 (dv_freemap_relaxed hmp) in
      let! (error, hmp, bref, iter) :=
        alloc_loop (alloc_fuel (dv_total_size hmp)) hmp bref radix iter mtid in
      let hmp := set_freemap_relaxed (dv_freemap_relaxed hmp .| fi_relaxed iter) hmp in
      let hmp := set_heur_freemap
                   (aset (dv_heur_freemap hmp) hindex (fi_bnext iter)) hmp in
      Done (error, hmp, bref).
End freemap_alloc.

(** * [hammer2_freemap_adjust]: recovery marks a block as allocated *)

Abbreviation HAMMER2_FREEMAP_DORECOVER := 1 (only parsing).

Section freemap_adjust.
Context {T IO : Type} `{!LeafStore T}.

(** [while (count) { ... }] on word [w] of one element.  The first block that
    needs marking restarts at [again:], which resets the linear iterator. *)
Fixpoint adjust_loop (count : nat) (bm : bmap_data) (w class bmmask11 : Z)
    (modified : bool) (bgsize : Z) : outcome (bmap_data * bool * Z) :=
  match count with
  | O => Done (bm, modified, bgsize)
  | S count =>
      assert! negb (bmmask11 =? 0);
      let q := aget (bm_bitmapq bm) w in
      let next := u64 (bmmask11 .<< 2) in
      if q .& bmmask11 =? bmmask11
      then adjust_loop count bm w class next modified bgsize
      else
        let bm := if modified then bm else set_linear 0 bm in
        let fresh := q .& bmmask11 =? 0 in
        let bm := Bmap (bm_linear bm)
                    (if bm_class bm =? 0 then class else bm_class bm)
                    (if fresh then u32 (bm_avail bm - HAMMER2_FREEMAP_BLOCK_SIZE)
                     else bm_avail bm)
                    (aset (bm_bitmapq bm) w (q .| bmmask11)) in
        adjust_loop count bm w class next true
          (if fresh then bgsize + HAMMER2_FREEMAP_BLOCK_SIZE else bgsize)
  end.

(** The element and word [data_off] selects, and the first mask. *)
Definition adjust_element (data_off : Z) : Z :=
  i32 (data_off .>> HAMMER2_SEGRADIX) .& (HAMMER2_FREEMAP_COUNT - 1).
Definition adjust_word (data_off : Z) : Z :=
  i32 (data_off .>> (HAMMER2_SEGRADIX - 3)) .& 7.
Definition adjust_mask (data_off : Z) : Z :=
  u64 (3 .<< ((i32 (data_off .>> HAMMER2_FREEMAP_BLOCK_RADIX) .& 15) * 2)).
Definition adjust_count (radix : Z) : Z :=
  if radix <? HAMMER2_FREEMAP_BLOCK_RADIX then 1
  else 1 .<< (radix - HAMMER2_FREEMAP_BLOCK_RADIX).

(** Find or create the leaf; [None] when its chain has an error. *)
Definition adjust_leaf (hmp : dev T IO) (key mtid : Z) : outcome (option (dev T IO * leaf)) :=
  match leaf_lookup key (dv_fchain hmp) with
  | Some lf => if negb (lf_error lf =? 0) then Done None else Done (Some (hmp, lf))
  | None =>
      let! t := leaf_create key mtid (dv_fchain hmp) in
      let! (t, error) := leaf_modify key mtid t in
      assert! error =? 0;
      match leaf_lookup key t with
      | None => Panic
      | Some lf =>
          let lf := Leaf (lf_error lf) 4294967295 HAMMER2_FREEMAP_LEVEL1_SIZE
                      (replicate (Z.to_nat HAMMER2_FREEMAP_COUNT) bmap_zero) in
          let lf := hammer2_freemap_init (dv_total_size hmp) (dv_allocator_beg hmp) key lf in
          Done (Some (set_fchain (leaf_write key lf t) hmp, lf))
      end
  end.

Definition hammer2_freemap_adjust (hmp : dev T IO) (bref : blockref) (how : Z)
  : outcome (dev T IO) :=
  assert! how =? HAMMER2_FREEMAP_DORECOVER;
  let '(mtid, hmp) := hammer2_trans_sub hmp in
  let radix := br_data_off bref .& HAMMER2_OFF_MASK_RADIX6 in
  assert! negb (radix =? 0);
  assert! radix <=? HAMMER2_RADIX_MAX;
  let data_off := br_data_off bref .&~ HAMMER2_OFF_MASK_RADIX6 in
  let class := u16 ((br_type bref .<< 8) .| HAMMER2_PBUFRADIX) in
  if data_off <? dv_allocator_beg hmp then Done hmp
  else
    assert! HAMMER2_ZONE_SEG <=? (data_off .& HAMMER2_ZONE_MASK64);
    let key := H2FMBASE data_off HAMMER2_FREEMAP_LEVEL1_RADIX in
    let! found := adjust_leaf hmp key mtid in
    match found with
    | None => Done hmp
    | Some (hmp, lf) =>
        let n := adjust_element data_off in
        let! (bm, modified, bgsize) :=
          adjust_loop (Z.to_nat (adjust_count radix)) (aget (lf_bmdata lf) n)
            (adjust_word data_off) class (adjust_mask data_off) false 0 in
        let! hmp :=
          if modified then
            let! (t, _) := leaf_modify key mtid (dv_fchain hmp) in
            let lf := Leaf (lf_error lf) 4294967295 (lf_avail lf)
                        (aset (lf_bmdata lf) n bm) in
            Done (set_freemap_relaxed 0 (set_fchain (leaf_write key lf t) hmp))
          else Done hmp in
        Done (if bgsize =? 0 then hmp else adjust_allocator_free (- bgsize) hmp)
    end.
End freemap_adjust.
