(* ===== verification/BmapAlloc.v ===== *)
(** Correctness of [hammer2_bmap_alloc] on one 4MB element.

    The search lemmas describe exactly which block run [bmap_select] picks;
    the section [ownership] then shows, by induction over any sequence of
    allocations, that no byte of the element is ever handed out twice. *)

From Stdlib Require Import ZArith Lia Bool.
From stdpp Require Import base numbers list option.
From S2P Require Import Prelude Disk Bitmap Freemap.

(** * Radixes and masks *)

(** Allocation radixes: 1KB to 64KB. *)
Definition radix_ok (radix : Z) : Prop :=
  HAMMER2_RADIX_MIN <= radix <= HAMMER2_RADIX_MAX.

(** 16KB blocks covered by an allocation of [2^radix] bytes. *)
Definition nblk (radix : Z) : Z :=
  if radix <=? HAMMER2_FREEMAP_BLOCK_RADIX then 1
  else 2 ^ (radix - HAMMER2_FREEMAP_BLOCK_RADIX).

Ltac radix_cases H :=
  match type of H with
  | radix_ok ?r =>
      let E := fresh in
      assert (r = 10 \/ r = 11 \/ r = 12 \/ r = 13 \/ r = 14 \/ r = 15 \/ r = 16)
        as E by (unfold radix_ok in H; lia);
      destruct E as [->|[->|[->|[->|[->|[->| ->]]]]]]
  end.

Lemma nblk_cases radix :
  radix_ok radix ->
  (nblk radix = 1 /\ radix <= 14) \/ (nblk radix = 2 /\ radix = 15)
  \/ (nblk radix = 4 /\ radix = 16).
Proof. intros H. radix_cases H; vm_compute; intuition discriminate. Qed.

Lemma bmradix_of_nblk radix : radix_ok radix -> bmradix_of radix = 2 * nblk radix.
Proof. intros H. radix_cases H; reflexivity. Qed.

Lemma bmmask_of_nblk radix :
  radix_ok radix -> bmmask_of (bmradix_of radix) = run 0 (nblk radix).
Proof. intros H. radix_cases H; reflexivity. Qed.

Lemma size_eq radix : 1 .<< radix = 2 ^ radix.
Proof. apply Z.shiftl_1_l. Qed.

Lemma size_nblk radix :
  radix_ok radix ->
  1024 <= 2 ^ radix <= 65536 /\
  (if radix <? 14 then 2 ^ radix < 16384 else 2 ^ radix = 16384 * nblk radix).
Proof. intros H. radix_cases H; vm_compute; intuition discriminate. Qed.

Lemma size_divide_1024 radix : radix_ok radix -> (1024 | 2 ^ radix).
Proof.
  intros H. exists (2 ^ (radix - 10)). change 1024 with (2 ^ 10).
  rewrite <- Z.pow_add_r by (unfold radix_ok in H; lia). f_equal. lia.
Qed.

Lemma size_fragment radix :
  radix_ok radix -> tst (2 ^ radix) HAMMER2_FREEMAP_BLOCK_MASK = (radix <? 14).
Proof. intros H. radix_cases H; reflexivity. Qed.

Lemma u64_run_shift k m s :
  0 <= k -> 0 <= m -> 0 <= s -> k + s + m <= 32 ->
  u64 (run k m .<< (2 * s)) = run (k + s) m.
Proof.
  intros. rewrite run_shift by lia. apply u64_small. apply run_range; lia.
Qed.

(** A multiple of [m] below another one leaves room for [m]. *)
Lemma divide_lt_room m k n : 0 < m -> (m | n) -> (m | k) -> k < n -> k + m <= n.
Proof.
  intros Hm [a ->] [b ->] Hlt. assert (b < a) by (apply (Zmult_lt_reg_r b a m); lia).
  assert ((b + 1) * m <= a * m) by (apply Z.mul_le_mono_nonneg_r; lia). lia.
Qed.

(** * The element scan *)

Lemma scan_element_Some fuel q m k mask j mask' :
  0 < m -> 0 <= k -> (k + m <= 32 -> mask = run k m) -> (m | 32) -> (m | k) ->
  scan_element fuel q (2 * m) (2 * k) mask = Some (j, mask') ->
  exists k', j = 2 * k' /\ mask' = run k' m /\ k <= k' /\ k' + m <= 32
             /\ (m | k') /\ q .& run k' m = 0.
Proof.
  revert k mask. induction fuel as [|fuel IH]; intros k mask Hm Hk Hmask H32 Hd Hs;
    cbn [scan_element] in Hs; [discriminate|].
  destruct (Z.ltb_spec (2 * k) 64) as [Hlt|]; [|discriminate].
  assert (Hkm : k + m <= 32) by (apply divide_lt_room; auto; lia).
  rewrite (Hmask Hkm) in Hs. destruct (Z.eqb_spec (q .& run k m) 0) as [E|E].
  - injection Hs as <- <-. exists k. repeat split; auto; lia.
  - replace (2 * k + 2 * m) with (2 * (k + m)) in Hs by lia.
    apply IH in Hs; try lia; auto.
    + destruct Hs as (k' & ? & ? & ? & ? & ? & ?). exists k'. repeat split; auto; lia.
    + intros. rewrite u64_run_shift by lia. reflexivity.
    + apply Z.divide_add_r; [exact Hd|apply Z.divide_refl].
Qed.

Lemma scan_element_None fuel q m k mask :
  0 < m -> 0 <= k -> (k + m <= 32 -> mask = run k m) -> (m | 32) -> (m | k) ->
  32 <= k + m * Z.of_nat fuel ->
  scan_element fuel q (2 * m) (2 * k) mask = None ->
  forall k', k <= k' -> k' + m <= 32 -> (m | k') -> q .& run k' m <> 0.
Proof.
  revert k mask. induction fuel as [|fuel IH];
    intros k mask Hm Hk Hmask H32 Hd Hf Hs k' Hk' Hkm' Hd'; [nia|].
  rewrite Nat2Z.inj_succ, Z.mul_succ_r in Hf.
  cbn [scan_element] in Hs. replace (2 * k <? 64) with true in Hs by lia.
  assert (Hkm : k + m <= 32) by lia. rewrite (Hmask Hkm) in Hs.
  destruct (Z.eqb_spec (q .& run k m) 0) as [E|E]; [discriminate|].
  destruct (decide (k' = k)) as [->|Hne]; [exact E|].
  replace (2 * k + 2 * m) with (2 * (k + m)) in Hs by lia.
  eapply (IH (k + m)); [exact Hm|lia| |exact H32| |lia|exact Hs| |exact Hkm'|exact Hd'].
  - intros. rewrite u64_run_shift by lia. reflexivity.
  - apply Z.divide_add_r; [exact Hd|apply Z.divide_refl].
  - apply divide_lt_room; auto. lia.
Qed.

Lemma nblk_divides_32 radix : radix_ok radix -> 0 < nblk radix <= 4 /\ (nblk radix | 32).
Proof.
  intros H. destruct (nblk_cases radix H) as [[-> _]|[[-> _]|[-> _]]];
    (split; [lia|]); [exists 32|exists 16|exists 8]; reflexivity.
Qed.

Lemma scan_bitmap_Some qs radix i j mask :
  radix_ok radix -> scan_bitmap qs (bmradix_of radix) = Some (i, j, mask) ->
  exists k, j = 2 * k /\ mask = run k (nblk radix) /\ 0 <= i < 8 /\ 0 <= k
            /\ k + nblk radix <= 32 /\ (nblk radix | k)
            /\ aget qs i .& run k (nblk radix) = 0.
Proof.
  intros Hr. unfold scan_bitmap. destruct (for_up _ _ _ _) as [|r] eqn:E; [discriminate|].
  intros [= ->]. destruct (nblk_divides_32 radix Hr) as [Hm H32].
  apply (for_up_inr (fun _ _ => True)) in E; [|exact I|intros; exact I].
  destruct E as (i' & u & Hi & _ & E). rewrite bmmask_of_nblk, bmradix_of_nblk in E by exact Hr.
  destruct (scan_element _ _ _ _ _) as [[j' m']|] eqn:Es; [|discriminate].
  injection E as -> -> ->.
  apply (scan_element_Some _ _ _ 0) in Es; try lia; auto.
  - destruct Es as (k & -> & -> & ? & ? & ? & ?). exists k. repeat split; auto; lia.
  - apply Z.divide_0_r.
Qed.

Lemma scan_bitmap_None qs radix :
  radix_ok radix -> scan_bitmap qs (bmradix_of radix) = None ->
  forall i k, 0 <= i < 8 -> 0 <= k -> k + nblk radix <= 32 -> (nblk radix | k) ->
              aget qs i .& run k (nblk radix) <> 0.
Proof.
  intros Hr. unfold scan_bitmap. destruct (for_up _ _ _ _) as [u|] eqn:E; [|discriminate].
  intros _ i k Hi Hk Hkm Hd. destruct (nblk_divides_32 radix Hr) as [Hm H32].
  pose (P := fun (n : Z) (_ : unit) => forall i, 0 <= i < n ->
           scan_element 32 (aget qs i) (bmradix_of radix) 0 (bmmask_of (bmradix_of radix)) = None).
  apply (for_up_inl P) in E; unfold P in *.
  - specialize (E i ltac:(lia)). rewrite bmmask_of_nblk, bmradix_of_nblk in E by exact Hr.
    eapply (scan_element_None 32 _ (nblk radix) 0); eauto; try lia. apply Z.divide_0_r.
  - intros; lia.
  - intros n t t' Hn HP Hb i' Hi'. destruct (decide (i' = n)) as [->|].
    + destruct (scan_element _ _ _ _ _) as [[? ?]|]; [discriminate|reflexivity].
    + apply HP. lia.
Qed.

(** * What [bmap_select] chooses *)

(** File data of 16KB or more is placed by [sub_key]; its chain key is aligned
    to the allocation ([hammer2_calc_logical] hands out 64KB-aligned keys). *)
Definition key_aligned (class sub_key radix : Z) : Prop :=
  class .>> 8 = HAMMER2_BREF_TYPE_DATA -> HAMMER2_FREEMAP_BLOCK_RADIX <= radix ->
  (2 ^ radix | sub_key).

(** Well-formed element: eight words, the linear iterator in range and
    1KB-aligned, inside a marked block when it is mid-block, and [avail]
    counting exactly the unallocated blocks. *)
Record bmap_ok (bm : bmap_data) : Prop := {
  ok_words : words_ok (bm_bitmapq bm);
  ok_linear : 0 <= bm_linear bm <= HAMMER2_SEGSIZE;
  ok_linear_align : (1024 | bm_linear bm);
  ok_linear_marked : bm_linear bm mod 16384 <> 0 -> blk bm (bm_linear bm / 16384) <> 0;
  ok_avail : bm_avail bm = HAMMER2_FREEMAP_BLOCK_SIZE * free_blocks bm
}.

(** The block run [32 i + k, ...] chosen for a request, its byte offset and
    the new linear iterator. *)
Inductive choice (bm : bmap_data) (radix i k : Z) : Z -> Z -> Prop :=
| choice_linear :
    radix < 14 ->
    bm_linear bm mod 16384 <> 0 ->
    bm_linear bm mod 16384 + 2 ^ radix <= 16384 ->
    32 * i + k = bm_linear bm / 16384 ->
    choice bm radix i k (bm_linear bm) (bm_linear bm + 2 ^ radix)
| choice_fresh :
    (forall b, 32 * i + k <= b < 32 * i + k + nblk radix -> blk bm b = 0) ->
    (nblk radix | k) ->
    choice bm radix i k (16384 * (32 * i + k))
      (if radix <? 14 then 16384 * (32 * i + k) + 2 ^ radix else bm_linear bm).

Lemma linear_usable_spec bm radix :
  radix_ok radix -> 0 <= bm_linear bm <= HAMMER2_SEGSIZE ->
  linear_usable bm (2 ^ radix) = true <->
  radix < 14 /\ bm_linear bm mod 16384 <> 0 /\ bm_linear bm mod 16384 + 2 ^ radix <= 16384.
Proof.
  intros Hr Hl. unfold linear_usable. rewrite u32_small by lia.
  change HAMMER2_FREEMAP_BLOCK_MASK with (Z.ones 14).
  unfold tst. rewrite !Z.land_ones by lia. change (2 ^ 14) with 16384.
  pose proof (size_nblk radix Hr) as [? Hsz].
  pose proof (Z.mod_pos_bound (bm_linear bm) 16384 ltac:(lia)).
  rewrite !andb_true_iff, Z.leb_le, Z.ltb_lt, negb_true_iff, Z.eqb_neq.
  split; [intros [[? ?] ?]|intros (? & ? & ?)]; repeat split; try lia.
  - destruct (Z.ltb_spec radix 14); [assumption|]. unfold radix_ok in Hr.
    assert (2 ^ 14 <= 2 ^ radix) by (apply Z.pow_le_mono_r; lia). lia.
  - assert (bm_linear bm <> 4194304); [|lia].
    intros E. match goal with H : _ mod _ <> 0 |- _ => apply H; rewrite E; reflexivity end.
Qed.

(** The bit index of a byte offset: [(offset / 8192) & 62]. *)
Lemma linear_bit_index x : 0 <= x -> (x / 8192) .& 62 = 2 * (x / 16384 mod 32).
Proof.
  intros Hx. change 62 with (Z.ones 6 .&~ Z.ones 1).
  transitivity ((x / 8192 .& Z.ones 6) .&~ Z.ones 1).
  { zbits i. destruct (Z.testbit (x / 8192) i), (Z.testbit (Z.ones 6) i);
      destruct (Z.testbit (Z.ones 1) i); reflexivity. }
  rewrite ldiff_ones, Z.land_ones by lia. change (2 ^ 1) with 2. change (2 ^ 6) with 64.
  div_mod_lia.
Qed.

Lemma sub_key_start_spec class sub_key radix i j :
  radix_ok radix -> key_aligned class sub_key radix ->
  sub_key_start class sub_key radix = Some (i, j) ->
  14 <= radix /\ exists k, j = 2 * k /\ 0 <= i < 8 /\ 0 <= k /\ k + nblk radix <= 32
                           /\ (nblk radix | k).
Proof.
  unfold sub_key_start. intros Hr Hka. destruct (_ && _) eqn:E; [|discriminate].
  apply andb_true_iff in E as [E1 E2]. apply Z.eqb_eq in E1. apply Z.leb_le in E2.
  specialize (Hka E1 E2). intros [= <- <-]. split; [lia|].
  change HAMMER2_BMAP_MASK with (Z.ones 22). change HAMMER2_BMAP_INDEX_MASK with (Z.ones 19).
  rewrite !Z.land_ones by lia.
  pose proof (mod_pow2_range sub_key 22). pose proof (mod_pow2_range sub_key 19).
  change (HAMMER2_BMAP_SIZE / HAMMER2_BMAP_ELEMENTS) with 524288.
  change (HAMMER2_BMAP_INDEX_SIZE / HAMMER2_BMAP_BLOCKS_PER_ELEMENT) with 16384.
  exists (sub_key mod 2 ^ 19 / 16384).
  assert (Hd : (nblk radix | sub_key mod 2 ^ 19 / 16384)).
  { destruct Hka as [c ->].
    assert (Hb : 2 ^ radix = nblk radix * 16384).
    { pose proof (size_nblk radix Hr) as [_ Hs].
      replace (radix <? 14) with false in Hs by lia. lia. }
    rewrite Hb. destruct (nblk_cases radix Hr) as [[-> _]|[[-> _]|[-> _]]];
      change (2 ^ 19) with (32 * 16384);
      [exists (c mod 32)|exists (c mod 16)|exists (c mod 8)]; div_mod_lia. }
  assert (0 <= sub_key mod 2 ^ 19 / 16384 < 32) by div_mod_lia.
  destruct (nblk_divides_32 radix Hr).
  split; [lia|]. split; [div_mod_lia|]. split; [lia|]. split; [|exact Hd].
  apply divide_lt_room; auto; lia.
Qed.

Lemma choice_of_success bm radix i k :
  radix_ok radix -> 0 <= i < 8 -> 0 <= k -> k + nblk radix <= 32 -> (nblk radix | k) ->
  aget (bm_bitmapq bm) i .& run k (nblk radix) = 0 ->
  choice bm radix i k
    (i * (HAMMER2_SEGSIZE / HAMMER2_BMAP_ELEMENTS)
     + 2 * k * (HAMMER2_FREEMAP_BLOCK_SIZE / 2))
    (if tst (2 ^ radix) HAMMER2_FREEMAP_BLOCK_MASK then
       i * (HAMMER2_SEGSIZE / HAMMER2_BMAP_ELEMENTS)
       + 2 * k * (HAMMER2_FREEMAP_BLOCK_SIZE / 2) + 2 ^ radix
     else bm_linear bm).
Proof.
  intros Hr Hi Hk Hkm Hd Hz. rewrite size_fragment by exact Hr.
  change (HAMMER2_SEGSIZE / HAMMER2_BMAP_ELEMENTS) with 524288.
  change (HAMMER2_FREEMAP_BLOCK_SIZE / 2) with 8192.
  replace (i * 524288 + 2 * k * 8192) with (16384 * (32 * i + k)) by lia.
  apply choice_fresh; [|exact Hd]. destruct (nblk_divides_32 radix Hr).
  apply land_run_zero_blkq; auto; lia.
Qed.

Lemma bmap_select_general bm radix :
  radix_ok radix ->
  match match scan_bitmap (bm_bitmapq bm) (bmradix_of radix) with
        | Some (i, j, bmmask) =>
            let offset := i * (HAMMER2_SEGSIZE / HAMMER2_BMAP_ELEMENTS)
                          + j * (HAMMER2_FREEMAP_BLOCK_SIZE / 2) in
            Some (i, bmmask, offset,
                  if tst (2 ^ radix) HAMMER2_FREEMAP_BLOCK_MASK then offset + 2 ^ radix
                  else bm_linear bm)
        | None => None
        end with
  | Some (i, mask, offset, linear) =>
      exists k, mask = run k (nblk radix) /\ 0 <= i < 8 /\ 0 <= k /\ k + nblk radix <= 32
                /\ choice bm radix i k offset linear
  | None =>
      forall i k, 0 <= i < 8 -> 0 <= k -> k + nblk radix <= 32 -> (nblk radix | k) ->
        aget (bm_bitmapq bm) i .& run k (nblk radix) <> 0
  end.
Proof.
  intros Hr. destruct (scan_bitmap _ _) as [[[i j] mask]|] eqn:E.
  - apply scan_bitmap_Some in E as (k & -> & -> & ? & ? & ? & ? & ?); [|exact Hr].
    cbn zeta. exists k. repeat split; auto; try lia. apply choice_of_success; auto; lia.
  - eapply scan_bitmap_None; eassumption.
Qed.

(** No aligned run of unallocated blocks is left. *)
Definition no_room (bm : bmap_data) (radix : Z) : Prop :=
  forall i k, 0 <= i < 8 -> 0 <= k -> k + nblk radix <= 32 -> (nblk radix | k) ->
    exists b, 32 * i + k <= b < 32 * i + k + nblk radix /\ blk bm b <> 0.

Definition select_spec (bm : bmap_data) (radix : Z)
    (r : option (Z * Z * Z * Z)) : Prop :=
  match r with
  | Some (i, mask, offset, linear) =>
      exists k, mask = run k (nblk radix) /\ 0 <= i < 8 /\ 0 <= k /\ k + nblk radix <= 32
                /\ choice bm radix i k offset linear
  | None => no_room bm radix /\ linear_usable bm (2 ^ radix) = false
  end.

(** A run that is not clear has an allocated block. *)
Lemma run_nonzero_block qs i k m :
  0 <= i < 8 -> 0 <= k -> 0 <= m -> k + m <= 32 -> aget qs i .& run k m <> 0 ->
  exists b, 32 * i + k <= b < 32 * i + k + m /\ blkq qs b <> 0.
Proof.
  intros Hi Hk Hm Hkm Hne.
  destruct (decide (Forall (fun b => blkq qs b = 0) (seqZ (32 * i + k) m))) as [Hall|Hno].
  - exfalso. apply Hne, land_run_zero_blkq; try lia. intros b Hb.
    rewrite Forall_forall in Hall. apply Hall, list_elem_of_In, elem_of_seqZ. lia.
  - apply not_Forall_Exists in Hno; [|intros b; apply _].
    apply Exists_exists in Hno as (b & Hb%list_elem_of_In%elem_of_seqZ & Hnb). exists b. split; [lia|exact Hnb].
Qed.

(** The selection always succeeds or reports that nothing fits; none of its
    assertions can fail on a well-formed element. *)
Lemma bmap_select_spec bm class sub_key radix :
  radix_ok radix -> bmap_ok bm -> key_aligned class sub_key radix ->
  exists r, bmap_select bm class sub_key radix = Done r /\ select_spec bm radix r.
Proof.
  intros Hr Hok Hka. pose proof (ok_linear _ Hok) as Hlin.
  pose proof (nblk_divides_32 radix Hr) as [Hm _].
  unfold bmap_select. rewrite !size_eq. destruct (linear_usable bm (2 ^ radix)) eqn:Elu.
  { apply linear_usable_spec in Elu as (H14 & Hmid & Hfit); [|assumption..].
    pose proof (size_divide_1024 radix Hr).
    assert (Hend : bm_linear bm + 2 ^ radix <= HAMMER2_SEGSIZE) by div_mod_lia.
    assert (Hal : (bm_linear bm .& (HAMMER2_ALLOC_MIN - 1) =? 0) = true).
    { change (HAMMER2_ALLOC_MIN - 1) with (Z.ones 10). rewrite Z.land_ones by lia.
      apply Z.eqb_eq, Z.mod_divide; [lia|apply Hok]. }
    rewrite !assert_true by (assumption || lia).
    eexists. split; [reflexivity|]. cbn [select_spec].
    assert (Hn1 : nblk radix = 1) by (destruct (nblk_cases radix Hr); lia).
    exists (bm_linear bm / 16384 mod 32).
    change (HAMMER2_SEGSIZE / HAMMER2_BMAP_ELEMENTS) with 524288.
    change (HAMMER2_FREEMAP_BLOCK_SIZE / 2) with 8192.
    assert (bm_linear bm < HAMMER2_SEGSIZE).
    { pose proof (size_nblk radix Hr). lia. }
    rewrite linear_bit_index, bmmask_of_nblk, Hn1, u64_run_shift by (assumption || div_mod_lia).
    rewrite Z.add_0_l. repeat split; try div_mod_lia.
    apply choice_linear; auto. div_mod_lia. }
  pose proof (bmap_select_general bm radix Hr) as Hg. cbv zeta in Hg |- *.
  set (general := match scan_bitmap _ _ with Some _ => _ | None => None end) in *.
  change (match scan_bitmap (bm_bitmapq bm) (bmradix_of radix) with
          | Some _ => _ | None => None end) with general.
  assert (Hgen : select_spec bm radix general).
  { destruct general as [[[[i mask] offset] linear]|]; [exact Hg|].
    split; [|exact Elu]. intros i k Hi Hk Hkm Hd.
    apply run_nonzero_block; auto; try lia. }
  destruct (sub_key_start class sub_key radix) as [[i j]|] eqn:Esk; [|eauto].
  apply sub_key_start_spec in Esk as (H14 & k & -> & Hi & Hk & Hkm & Hd); [|assumption..].
  rewrite !assert_true by (rewrite ?bmradix_of_nblk by assumption; lia).
  rewrite bmmask_of_nblk, u64_run_shift, Z.add_0_l by (assumption || lia).
  destruct (Z.eqb_spec (aget (bm_bitmapq bm) i .& run k (nblk radix)) 0) as [E|E]; [|eauto].
  eexists. split; [reflexivity|]. exists k. repeat split; auto; try lia.
  apply choice_of_success; auto; lia.
Qed.

(** * The allocation step *)

Lemma run_land_run k m a n :
  0 <= k -> 0 < m -> 0 <= a -> a <= k < a + n -> run a n .& run k m <> 0.
Proof.
  intros Hk Hm Ha Han H. apply land_run_zero with (b := k) in H; try lia.
  rewrite <- (Z.lor_0_l (run a n)), pair_lor_run in H by lia.
  replace ((a <=? k) && (k <? a + n)) with true in H by lia. discriminate.
Qed.

(** The search for the 64KB buffer mask terminates within the word. *)
Lemma find_pbmmask_total fuel s k m :
  0 <= s -> 4 * s <= k -> 0 < m -> k + m <= 32 -> 8 <= s + Z.of_nat fuel ->
  exists r, find_pbmmask fuel (run (4 * s) 4) (run k m) 8 = Done r.
Proof.
  revert s. induction fuel as [|fuel IH]; intros s Hs Hk Hm Hkm Hf; [lia|].
  cbn [find_pbmmask]. destruct (Z.eqb_spec (run (4 * s) 4 .& run k m) 0) as [E|]; [|eauto].
  destruct (decide (k < 4 * s + 4)).
  { exfalso. revert E. apply run_land_run; lia. }
  change 8 with (2 * 4) at 1. rewrite u64_run_shift by lia.
  replace (4 * s + 4) with (4 * (s + 1)) by lia. apply IH; lia.
Qed.

Section step.
Context {T IO : Type} `{!IoOps IO}.
Implicit Types h : dev T IO.

(** Everything of the device the allocation step leaves alone. *)
Definition same_freemap h h' : Prop :=
  dv_fchain h' = dv_fchain h /\ dv_total_size h' = dv_total_size h /\
  dv_allocator_beg h' = dv_allocator_beg h /\
  dv_heur_freemap h' = dv_heur_freemap h /\
  dv_freemap_relaxed h' = dv_freemap_relaxed h /\
  dv_modify_tid h' = dv_modify_tid h.

Lemma same_freemap_refl h : same_freemap h h.
Proof. repeat split. Qed.
Lemma same_freemap_trans h1 h2 h3 :
  same_freemap h1 h2 -> same_freemap h2 h3 -> same_freemap h1 h3.
Proof. unfold same_freemap. intuition congruence. Qed.
Lemma same_freemap_io h io : same_freemap h (set_io io h).
Proof. repeat split. Qed.
Lemma same_freemap_adjust h d : same_freemap h (adjust_allocator_free d h).
Proof. unfold adjust_allocator_free, hammer2_voldata_modify. case_match; repeat split. Qed.

Lemma adjust_allocator_free_val h d :
  dv_allocator_free (adjust_allocator_free d h) = u64 (dv_allocator_free h + d).
Proof. reflexivity. Qed.

Lemma bmap_newnz_frame h bm class size i mask offset base h' :
  bmap_newnz h bm class size i mask offset base = Done h' ->
  same_freemap h h' /\ dv_allocator_free h' = dv_allocator_free h.
Proof.
  unfold bmap_newnz. intros H.
  destruct (_ && _); [|inv_done; split; [apply same_freemap_refl|reflexivity]].
  cbv zeta in H. apply obind_Done in H as (pb & _ & H).
  destruct (_ =? _); inv_done; split; try reflexivity;
    (apply same_freemap_io || apply same_freemap_refl).
Qed.

(** Bytes the step takes out of [avail] and [allocator_free]. *)
Definition bgsize_of (bm : bmap_data) (radix b : Z) : Z :=
  if radix <? 14 then (if blk bm b =? 0 then 16384 else 0) else 2 ^ radix.

(** The element after allocating blocks [b, b + nblk radix). *)
Definition marked (bm bm' : bmap_data) (b m : Z) : Prop :=
  forall c, 0 <= c < 256 ->
    blk bm' c = if (b <=? c) && (c <? b + m) then 3 else blk bm c.

Lemma choice_range bm radix i k offset linear :
  radix_ok radix -> bmap_ok bm -> 0 <= i < 8 -> 0 <= k -> k + nblk radix <= 32 ->
  choice bm radix i k offset linear ->
  0 <= offset /\ offset + 2 ^ radix <= 4194304 /\ (1024 | offset) /\
  0 <= linear <= 4194304 /\ (1024 | linear) /\
  16384 * (32 * i + k) <= offset /\
  offset + 2 ^ radix <= 16384 * (32 * i + k + nblk radix).
Proof.
  intros Hr Hok Hi Hk Hkm Hc. pose proof (size_nblk radix Hr) as [Hs1 Hs2].
  pose proof (size_divide_1024 radix Hr). pose proof (ok_linear _ Hok).
  pose proof (ok_linear_align _ Hok).
  destruct (nblk_divides_32 radix Hr) as [Hm _].
  assert (Hblk : (1024 | 16384 * (32 * i + k))) by (exists (16 * (32 * i + k)); lia).
  destruct Hc as [H14 Hmid Hfit Hb|Hz Hd].
  - replace (radix <? 14) with true in Hs2 by lia.
    assert (nblk radix = 1) as -> by (destruct (nblk_cases radix Hr); lia).
    repeat split; try div_mod_lia; auto. apply Z.divide_add_r; auto.
  - assert (2 ^ radix <= 16384 * nblk radix).
    { destruct (radix <? 14); lia. }
    repeat split; try (destruct (radix <? 14); lia); auto.
    destruct (radix <? 14); [apply Z.divide_add_r|]; auto.
Qed.

(** Marking the chosen run keeps the element well formed and debits [avail]
    by the bitmap-granular size. *)
Lemma commit_ok bm radix class i k offset linear :
  radix_ok radix -> bmap_ok bm -> 0 <= i < 8 -> 0 <= k -> k + nblk radix <= 32 ->
  choice bm radix i k offset linear ->
  let bm' := Bmap linear (if bm_class bm =? 0 then class else bm_class bm)
               (u32 (bm_avail bm - bgsize_of bm radix (32 * i + k)))
               (aset (bm_bitmapq bm) i (aget (bm_bitmapq bm) i .| run k (nblk radix))) in
  bmap_ok bm' /\ marked bm bm' (32 * i + k) (nblk radix) /\
  bm_avail bm' = bm_avail bm - bgsize_of bm radix (32 * i + k).
Proof.
  intros Hr Hok Hi Hk Hkm Hc bm'.
  pose proof (choice_range _ _ _ _ _ _ Hr Hok Hi Hk Hkm Hc) as (_ & _ & _ & Hl & Hla & _).
  destruct (nblk_divides_32 radix Hr) as [Hm _].
  pose proof (ok_words _ Hok) as Hw.
  assert (Hmk : marked bm bm' (32 * i + k) (nblk radix)).
  { intros c Hc'. apply blkq_lor_run; auto; try lia. apply Hw. }
  assert (Hcount : 16384 * free_blocks bm'
                   = 16384 * free_blocks bm - bgsize_of bm radix (32 * i + k)).
  { unfold free_blocks, bgsize_of. pose proof (size_nblk radix Hr) as [_ Hs].
    assert (Hrun : (forall b, 32 * i + k <= b < 32 * i + k + nblk radix -> blk bm b = 0) ->
              nzero (blk bm') 256 = nzero (blk bm) 256 - nblk radix).
    { intros Hz. apply (nzero_run _ _ _ (32 * i + k)); try lia; auto.
      - intros b Hb. rewrite Hmk by lia.
        replace ((_ <=? b) && _) with true by lia. lia.
      - intros b Hb Hnb. rewrite Hmk by lia.
        replace ((_ <=? b) && _) with false by lia. reflexivity. }
    destruct (Z.ltb_spec radix 14) as [H14|H14].
    - assert (Hn1 : nblk radix = 1) by (destruct (nblk_cases radix Hr); lia).
      rewrite Hn1 in *. destruct (Z.eqb_spec (blk bm (32 * i + k)) 0) as [E|E].
      + rewrite Hrun; [lia|]. intros b Hb. replace b with (32 * i + k) by lia. exact E.
      + rewrite Z.sub_0_r. f_equal. apply nzero_ext_zero. intros b Hb. rewrite Hmk by lia.
        destruct (_ && _) eqn:Eb; [|reflexivity].
        replace b with (32 * i + k) by lia. lia.
    - rewrite Hrun; [lia|]. destruct Hc; [lia|assumption]. }
  assert (Hav : bm_avail bm' = bm_avail bm - bgsize_of bm radix (32 * i + k)).
  { subst bm'. cbn [bm_avail]. apply u32_small.
    pose proof (ok_avail _ Hok) as Ha. rewrite Ha, <- Hcount.
    pose proof (nzero_range (blk (Bmap linear (if bm_class bm =? 0 then class else bm_class bm)
        (u32 (bm_avail bm - bgsize_of bm radix (32 * i + k)))
        (aset (bm_bitmapq bm) i (aget (bm_bitmapq bm) i .| run k (nblk radix))))) 256).
    unfold free_blocks. lia. }
  split; [constructor|split; assumption].
  - apply words_ok_lor_run; auto; lia.
  - exact Hl.
  - exact Hla.
  - intros Hmid. change (linear mod 16384 <> 0) in Hmid.
    change (blk bm' (linear / 16384) <> 0).
    assert (Hlb : 0 <= linear / 16384 < 256) by (clear - Hl Hmid; div_mod_lia).
    rewrite (Hmk _ Hlb).
    pose proof (ok_linear_marked _ Hok) as Hcov. pose proof (size_nblk radix Hr) as [_ Hs].
    destruct (_ && _) eqn:E; [lia|]. destruct Hc as [H14 Hmid' Hfit Hb|Hz Hd].
    + exfalso. destruct (nblk_cases radix Hr); [div_mod_lia|lia].
    + destruct (Z.ltb_spec radix 14); [exfalso|apply Hcov; exact Hmid].
      destruct (nblk_cases radix Hr); [div_mod_lia|lia].
  - rewrite Hav, Hcount, (ok_avail _ Hok). reflexivity.
Qed.

(** What one call may do, in terms of block states. *)
Inductive alloc_result (h : dev T IO) (bm : bmap_data) (class radix base : Z)
  : Z * dev T IO * bmap_data * Z -> Prop :=
| alloc_enospc :
    no_room bm radix ->
    linear_usable bm (2 ^ radix) = false ->
    alloc_result h bm class radix base (HAMMER2_ERROR_ENOSPC, h, bm, base)
| alloc_done h' bm' i k offset linear :
    0 <= i < 8 -> 0 <= k -> k + nblk radix <= 32 ->
    choice bm radix i k offset linear ->
    same_freemap h h' ->
    dv_allocator_free h' =
      (if bgsize_of bm radix (32 * i + k) =? 0 then dv_allocator_free h
       else u64 (dv_allocator_free h - bgsize_of bm radix (32 * i + k))) ->
    bmap_ok bm' ->
    marked bm bm' (32 * i + k) (nblk radix) ->
    bm_linear bm' = linear ->
    bm_class bm' = (if bm_class bm =? 0 then class else bm_class bm) ->
    bm_avail bm' = bm_avail bm - bgsize_of bm radix (32 * i + k) ->
    alloc_result h bm class radix base (0, h', bm', u64 (base + offset)).

Lemma blkq_word qs i k : 0 <= i -> 0 <= k < 32 -> blkq qs (32 * i + k) = pair (aget qs i) k.
Proof.
  intros. unfold blkq. f_equal; [f_equal|]; div_mod_lia.
Qed.

(** The C test [bitmapq[i] & bmmask] for a single block. *)
Lemma tst_single bm i k :
  0 <= i < 8 -> 0 <= k < 32 ->
  tst (aget (bm_bitmapq bm) i) (run k 1) = negb (blk bm (32 * i + k) =? 0).
Proof.
  intros Hi Hk. unfold tst, blk. f_equal. apply eq_true_iff_eq. rewrite !Z.eqb_eq.
  rewrite land_run_zero_blkq by lia. split.
  - intros H. apply H. lia.
  - intros H b Hb. replace b with (32 * i + k) by lia. exact H.
Qed.

Lemma bmap_alloc_spec h bm class n sub_key radix base :
  radix_ok radix -> bmap_ok bm -> key_aligned class sub_key radix ->
  (forall ty lbase sz io, exists io', io_newnz ty lbase sz io = Done io') ->
  exists r, hammer2_bmap_alloc h bm class n sub_key radix base = Done r
            /\ alloc_result h bm class radix base r.
Proof.
  intros Hr Hok Hka Hio. unfold hammer2_bmap_alloc.
  destruct (bmap_select_spec bm class sub_key radix Hr Hok Hka) as (sel & -> & Hs).
  cbn [obind]. destruct sel as [[[[i mask] offset] linear]|].
  2: { eexists. split; [reflexivity|]. destruct Hs. constructor; assumption. }
  destruct Hs as (k & -> & Hi & Hk & Hkm & Hc).
  rewrite assert_true by lia. rewrite size_eq.
  destruct (nblk_divides_32 radix Hr) as [Hm _].
  assert (Hnz : exists h', bmap_newnz h bm class (2 ^ radix) i (run k (nblk radix)) offset base
                           = Done h').
  { unfold bmap_newnz. destruct (_ && _); [|eauto]. cbv zeta.
    change (bmmask_of (2 .<< (HAMMER2_PBUFRADIX - HAMMER2_FREEMAP_BLOCK_RADIX)))
      with (run (4 * 0) 4).
    destruct (find_pbmmask_total 9 0 k (nblk radix)) as (pb & Hpb); try lia.
    change (2 .<< (HAMMER2_PBUFRADIX - HAMMER2_FREEMAP_BLOCK_RADIX)) with 8.
    rewrite Hpb. cbn [obind]. case_match; [|eauto].
    edestruct (Hio (class .>> 8)) as (io' & ->). cbn [obind]. eauto. }
  destruct Hnz as (h1 & Hnz). pose proof (bmap_newnz_frame _ _ _ _ _ _ _ _ _ Hnz) as [Hf1 Hf2].
  rewrite Hnz. cbn [obind]. eexists. split; [reflexivity|].
  assert (Hbg : (if radix <? HAMMER2_FREEMAP_BLOCK_RADIX
                 then if tst (aget (bm_bitmapq bm) i) (run k (nblk radix)) then 0
                      else HAMMER2_FREEMAP_BLOCK_SIZE
                 else 2 ^ radix) = bgsize_of bm radix (32 * i + k)).
  { unfold bgsize_of. destruct (Z.ltb_spec radix 14); [|reflexivity].
    assert (nblk radix = 1) as -> by (destruct (nblk_cases radix Hr); lia).
    rewrite tst_single by lia. destruct (blk bm _ =? 0); reflexivity. }
  rewrite Hbg. destruct (commit_ok bm radix class i k offset linear) as (Hok' & Hmk & Hav); auto.
  econstructor; try eassumption; try reflexivity.
  - destruct (bgsize_of _ _ _ =? 0); [exact Hf1|].
    eapply same_freemap_trans; [exact Hf1|apply same_freemap_adjust].
  - rewrite <- Hf2. destruct (bgsize_of _ _ _ =? 0); reflexivity.
Qed.
End step.

(** * Ownership: storage is never handed out twice *)

(** A byte range [off, off + size). *)
Definition range : Type := Z * Z.
Definition disjoint_ranges (r1 r2 : range) : Prop :=
  r1.1 + r1.2 <= r2.1 \/ r2.1 + r2.2 <= r1.1.

Record range_owned (bm : bmap_data) (r : range) : Prop := {
  ro_range : 0 <= r.1 /\ 0 < r.2 /\ r.1 + r.2 <= HAMMER2_SEGSIZE;
  (* every block it touches is marked *)
  ro_marked : forall b, 0 <= b < 256 -> 16384 * b < r.1 + r.2 -> r.1 < 16384 * (b + 1) ->
              blk bm b <> 0;
  (* the linear iterator is past it, unless it is in another block *)
  ro_linear : bm_linear bm mod 16384 <> 0 ->
              r.1 + r.2 <= bm_linear bm \/ 16384 * (bm_linear bm / 16384 + 1) <= r.1
}.

Record owned (bm : bmap_data) (R : list range) : Prop := {
  ow_ranges : Forall (range_owned bm) R;
  ow_disjoint : ForallOrdPairs disjoint_ranges R
}.

Lemma choice_disjoint bm radix i k offset linear r :
  radix_ok radix -> bmap_ok bm -> 0 <= i < 8 -> 0 <= k -> k + nblk radix <= 32 ->
  choice bm radix i k offset linear ->
  range_owned bm r -> disjoint_ranges (offset, 2 ^ radix) r.
Proof.
  intros Hr Hok Hi Hk Hkm Hc [(Hr1 & Hr2 & Hr3) Hmk Hlin].
  pose proof (choice_range _ _ _ _ _ _ Hr Hok Hi Hk Hkm Hc) as Hcr.
  pose proof (size_nblk radix Hr) as [Hs _].
  unfold disjoint_ranges; cbn [fst snd]. destruct Hc as [H14 Hmid Hfit Hb|Hz Hd].
  - destruct (Hlin Hmid); [right; lia|left; div_mod_lia].
  - destruct (decide (r.1 + r.2 <= 16384 * (32 * i + k))); [right; lia|].
    destruct (decide (16384 * (32 * i + k) + 2 ^ radix <= r.1)); [left; lia|].
    exfalso. destruct (nblk_divides_32 radix Hr).
    (* the first block of the run that the range touches is clear *)
    pose (b := Z.max (32 * i + k) (r.1 / 16384)).
    apply (Hmk b); try (subst b; div_mod_lia). apply Hz. subst b. div_mod_lia.
Qed.

Lemma range_owned_after bm bm' radix i k offset linear r :
  radix_ok radix -> bmap_ok bm -> 0 <= i < 8 -> 0 <= k -> k + nblk radix <= 32 ->
  choice bm radix i k offset linear ->
  marked bm bm' (32 * i + k) (nblk radix) -> bm_linear bm' = linear ->
  range_owned bm r -> range_owned bm' r.
Proof.
  intros Hr Hok Hi Hk Hkm Hc Hmk Hl' Hro.
  pose proof (choice_disjoint _ _ _ _ _ _ _ Hr Hok Hi Hk Hkm Hc Hro) as Hdj.
  pose proof (choice_range _ _ _ _ _ _ Hr Hok Hi Hk Hkm Hc) as Hcr.
  pose proof (size_nblk radix Hr) as [Hs Hs'].
  destruct Hro as [Hrr Hrm Hrl]. constructor; [exact Hrr| |].
  - intros b Hb Hb1 Hb2. rewrite Hmk by exact Hb. destruct (_ && _); [lia|auto].
  - rewrite Hl'. intros Hmid. unfold disjoint_ranges in Hdj; cbn [fst snd] in Hdj.
    destruct Hc as [H14 Hmid' Hfit Hb|Hz Hd].
    + destruct (Hrl Hmid'); [left; lia|right].
      replace ((bm_linear bm + 2 ^ radix) / 16384) with (bm_linear bm / 16384) by div_mod_lia.
      assumption.
    + destruct (Z.ltb_spec radix 14); [|auto]. assert (nblk radix = 1) as Hn1.
      { destruct (nblk_cases radix Hr); lia. }
      rewrite Hn1 in *. destruct Hdj; [|left; lia]. right.
      destruct (decide (16384 * (32 * i + k + 1) <= r.1)); [div_mod_lia|].
      exfalso. apply (Hrm (32 * i + k)); try lia. apply Hz. lia.
Qed.

Lemma range_owned_new bm bm' radix i k offset linear :
  radix_ok radix -> bmap_ok bm -> 0 <= i < 8 -> 0 <= k -> k + nblk radix <= 32 ->
  choice bm radix i k offset linear -> bmap_ok bm' ->
  marked bm bm' (32 * i + k) (nblk radix) -> bm_linear bm' = linear ->
  range_owned bm' (offset, 2 ^ radix).
Proof.
  intros Hr Hok Hi Hk Hkm Hc Hok' Hmk Hl'. pose proof (ok_linear_marked _ Hok) as Hcov.
  pose proof (choice_range _ _ _ _ _ _ Hr Hok Hi Hk Hkm Hc) as Hcr.
  pose proof (size_nblk radix Hr) as [Hs Hs'].
  constructor; cbn [fst snd].
  - lia.
  - intros b Hb Hb1 Hb2. rewrite Hmk by exact Hb.
    replace ((32 * i + k <=? b) && (b <? 32 * i + k + nblk radix)) with true by lia. lia.
  - rewrite Hl'. intros Hmid. destruct Hc as [H14 Hmid' Hfit Hb|Hz Hd]; [left; lia|].
    destruct (Z.ltb_spec radix 14); [left; lia|].
    pose proof (ok_linear _ Hok). pose proof (Z.mod_pos_bound (bm_linear bm) 16384).
    destruct (decide (32 * i + k + nblk radix <= bm_linear bm / 16384)); [left; div_mod_lia|].
    destruct (decide (bm_linear bm / 16384 < 32 * i + k)); [right; div_mod_lia|].
    exfalso. apply (Hcov Hmid). apply Hz. lia.
Qed.

(** * Sequences of allocations *)

Record request := Req { rq_class : Z; rq_sub_key : Z; rq_radix : Z }.

Definition request_ok (rq : request) : Prop :=
  radix_ok (rq_radix rq) /\ key_aligned (rq_class rq) (rq_sub_key rq) (rq_radix rq).

Section sequences.
Context {T IO : Type} `{!IoOps IO}.

(** Run the requests in order on the element at device offset [base],
    collecting the device ranges handed out. *)
Fixpoint alloc_all (base : Z) (rqs : list request) (h : dev T IO) (bm : bmap_data)
    (R : list range) : outcome (dev T IO * bmap_data * list range) :=
  match rqs with
  | [] => Done (h, bm, R)
  | rq :: rqs =>
      let! (e, h, bm, off) :=
        hammer2_bmap_alloc h bm (rq_class rq) 0 (rq_sub_key rq) (rq_radix rq) base in
      alloc_all base rqs h bm (if e =? 0 then (off, 1 .<< rq_radix rq) :: R else R)
  end.

Definition shift_range (base : Z) (r : range) : range := (base + r.1, r.2).

Lemma owned_step (h : dev T IO) bm class radix base r h' bm' off R :
  radix_ok radix -> bmap_ok bm -> 0 <= base -> base + HAMMER2_SEGSIZE <= 2 ^ 64 ->
  alloc_result h bm class radix base r -> r = (0, h', bm', off) ->
  owned bm R ->
  bmap_ok bm' /\ exists o, off = base + o /\ owned bm' ((o, 1 .<< radix) :: R).
Proof.
  intros Hr Hok Hb0 Hb Hres. destruct Hres as [|h1 bm1 i k offset linear ? ? ? ? ? ? ? ? ? ? ?]; [discriminate|].
  intros [= -> -> <-] [Hrs Hdj].
  match goal with H : choice _ _ _ _ _ _ |- _ => rename H into Hc end.
  assert (Hcr := Hc). apply choice_range in Hcr; [|assumption..].
  pose proof (size_nblk radix Hr) as [Hs _].
  split; [assumption|]. exists offset. rewrite size_eq. split; [rewrite u64_small by lia; reflexivity|].
  rewrite List.Forall_forall in Hrs. constructor.
  - constructor; [eapply (range_owned_new bm); eauto|].
    apply List.Forall_forall. intros x Hx. eapply (range_owned_after bm); eauto.
  - constructor; [|exact Hdj]. apply List.Forall_forall. intros x Hx.
    eapply (choice_disjoint bm); eauto.
Qed.

Lemma alloc_all_owned base rqs : forall (h : dev T IO) bm R,
  Forall request_ok rqs -> bmap_ok bm -> 0 <= base -> base + HAMMER2_SEGSIZE <= 2 ^ 64 ->
  (forall ty lbase sz io, exists io', io_newnz ty lbase sz io = Done io') ->
  owned bm R ->
  exists h' bm' R', alloc_all base rqs h bm (map (shift_range base) R)
                      = Done (h', bm', map (shift_range base) R')
                    /\ bmap_ok bm' /\ owned bm' R'.
Proof.
  induction rqs as [|rq rqs IH]; intros h bm R Hrq Hok Hb0 Hb Hio Hown; cbn [alloc_all].
  - exists h, bm, R. auto.
  - inversion Hrq as [|? ? [Hr Hka] Hrqs]; subst.
    destruct (bmap_alloc_spec h bm (rq_class rq) 0 (rq_sub_key rq) (rq_radix rq) base Hr Hok Hka Hio)
      as ([[[e h1] bm1] off] & -> & Hres).
    cbn [obind]. destruct (Z.eqb_spec e 0) as [->|Hne].
    + destruct (owned_step _ _ _ _ _ _ _ _ _ _ Hr Hok Hb0 Hb Hres eq_refl Hown)
        as (Hok1 & o & -> & Hown1).
      change ((base + o, 1 .<< rq_radix rq) :: map (shift_range base) R)
        with (map (shift_range base) ((o, 1 .<< rq_radix rq) :: R)).
      apply IH; auto.
    + inversion Hres; subst; [|contradiction]. apply IH; auto.
Qed.
End sequences.

(** A freshly initialised free element. *)
Definition bmap_fresh : bmap_data := Bmap 0 0 HAMMER2_FREEMAP_LEVEL0_SIZE (replicate 8 0).

Lemma bmap_fresh_ok : bmap_ok bmap_fresh.
Proof.
  constructor.
  - apply words_ok_replicate. lia.
  - cbn. lia.
  - apply Z.divide_0_r.
  - intros H. exfalso. apply H. reflexivity.
  - reflexivity.
Qed.

(** * Properties *)

(** No double allocation: any sequence of valid requests against a fresh
    4MB element runs without panic, and the device ranges it hands out lie in
    the element and are pairwise disjoint. *)
Theorem bmap_alloc_no_overlap {T IO} `{!IoOps IO} base rqs (h : dev T IO) :
  Forall request_ok rqs -> 0 <= base -> base + HAMMER2_SEGSIZE <= 2 ^ 64 ->
  (forall ty lbase sz io, exists io', io_newnz ty lbase sz io = Done io') ->
  exists h' bm' R,
    alloc_all base rqs h bmap_fresh [] = Done (h', bm', R)
    /\ ForallOrdPairs disjoint_ranges R
    /\ Forall (fun r => base <= r.1 /\ 0 < r.2 /\ r.1 + r.2 <= base + HAMMER2_SEGSIZE) R.
Proof.
  intros Hrq Hb0 Hb Hio.
  destruct (alloc_all_owned base rqs h bmap_fresh [] Hrq bmap_fresh_ok Hb0 Hb Hio)
    as (h' & bm' & R & Hrun & _ & [Hrs Hdj]); [constructor; constructor|].
  exists h', bm', (map (shift_range base) R). split; [exact Hrun|]. clear Hrun. split.
  - induction Hdj as [|x l Hx Hl IH]; cbn [map]; constructor.
    + apply List.Forall_map. eapply List.Forall_impl; [|exact Hx].
      unfold disjoint_ranges, shift_range. cbn. intros; lia.
    + apply IH. inversion Hrs; assumption.
  - apply List.Forall_map. eapply List.Forall_impl; [|exact Hrs].
    intros x [Hx _ _]. unfold shift_range. cbn. lia.
Qed.

(** The smallest buffer cache: a log of the [hammer2_io_newnz] calls. *)
Definition log_io : IoOps (list (Z * Z * Z)) := {|
  io_newnz ty lbase sz io := Done ((ty, lbase, sz) :: io);
  io_dedup_set b io := Done io;
  io_dedup_delete ty off bytes io := Done io;
  io_dedup_assert off bytes io := Done io
|}.

Definition dev_demo {T} (t : T) : dev T (list (Z * Z * Z)) :=
  Dev 4294967296 0 1000000000 7 false 0 1 0 (replicate 32 0) t [].

Lemma bmap_alloc_no_overlap_witness :
  exists h' bm' R,
    @alloc_all unit _ log_io 8388608
      [Req 778 0 10; Req 784 65536 16; Req 266 0 10; Req 781 0 13]
      (dev_demo tt) bmap_fresh [] = Done (h', bm', R)
    /\ ForallOrdPairs disjoint_ranges R
    /\ Forall (fun r => 8388608 <= r.1 /\ 0 < r.2
                        /\ r.1 + r.2 <= 8388608 + HAMMER2_SEGSIZE) R.
Proof.
  apply (@bmap_alloc_no_overlap unit _ log_io); try lia.
  - repeat (constructor; [split; [unfold radix_ok; cbn; lia|unfold key_aligned; cbn; intros Hc Hx]|]);
      [..|constructor].
    all: first [discriminate Hc|lia|apply Z.divide_0_r|exists 1; reflexivity].
  - intros. cbn. eauto.
Defined.

(** One allocation from a 4MB element is exact.  It fails, with ENOSPC and
    without changing anything, precisely when no aligned run of free blocks is
    left and the linear iterator cannot serve the request; otherwise it returns
    error 0 and a 1KB-aligned range inside the element, marks precisely the
    blocks of that range, and keeps the element well formed. *)
Theorem bmap_alloc_exact {T IO} `{!IoOps IO} (h : dev T IO) bm class n sub_key radix base :
  radix_ok radix -> bmap_ok bm -> key_aligned class sub_key radix ->
  0 <= base -> base + HAMMER2_SEGSIZE <= 2 ^ 64 ->
  (forall ty lbase sz io, exists io', io_newnz ty lbase sz io = Done io') ->
  exists e h' bm' off,
    hammer2_bmap_alloc h bm class n sub_key radix base = Done (e, h', bm', off)
    /\ (e <> 0 <-> no_room bm radix /\ linear_usable bm (1 .<< radix) = false)
    /\ (e <> 0 -> e = HAMMER2_ERROR_ENOSPC /\ h' = h /\ bm' = bm /\ off = base)
    /\ (e = 0 ->
        base <= off /\ off + (1 .<< radix) <= base + HAMMER2_SEGSIZE
        /\ (1024 | off - base)
        /\ bmap_ok bm'
        /\ forall b, 0 <= b < 256 ->
             blk bm' b = if (16384 * b <? off - base + (1 .<< radix))
                            && (off - base <? 16384 * (b + 1))
                         then 3 else blk bm b).
Proof.
  intros Hr Hok Hka Hb0 Hb Hio.
  destruct (bmap_alloc_spec h bm class n sub_key radix base Hr Hok Hka Hio)
    as ([[[e h'] bm'] off] & -> & Hres).
  exists e, h', bm', off. split; [reflexivity|]. rewrite size_eq.
  inversion Hres as [Hno Hlin|h1 bm1 i k offset linear Hi Hk Hkm Hc _ _ Hok' Hmk Hl _ _]; subst.
  - repeat split; try discriminate; auto.
  - pose proof (choice_range _ _ _ _ _ _ Hr Hok Hi Hk Hkm Hc) as Hcr.
    pose proof (size_nblk radix Hr) as [Hs Hs2].
    rewrite !(u64_small (base + offset)) by lia.
    replace (base + offset - base) with offset by lia.
    split; [|split; [lia|]].
    + split; [lia|]. intros [Hno Hlu]. exfalso. destruct Hc as [H14 Hmid Hfit _|Hz Hd].
      * rewrite (proj2 (linear_usable_spec bm radix Hr (ok_linear _ Hok))) in Hlu; auto.
        discriminate.
      * destruct (Hno i k Hi Hk Hkm Hd) as (b & Hb1 & Hb2). apply Hb2, Hz, Hb1.
    + intros _. split; [lia|]. split; [lia|]. split; [apply Hcr|]. split; [exact Hok'|].
      intros b Hbr. rewrite Hmk by exact Hbr.
      destruct (nblk_cases radix Hr) as [[Hn H14]|[[Hn H14]|[Hn H14]]]; rewrite Hn in *;
        destruct (Z.ltb_spec radix 14); try lia;
        match goal with |- (if ?c1 then _ else _) = (if ?c2 then _ else _) =>
          replace c2 with c1; [reflexivity|] end; try lia.
Qed.

Lemma bmap_alloc_exact_witness :
  exists e h' bm' off,
    @hammer2_bmap_alloc unit _ log_io (dev_demo tt) bmap_fresh 784 0 65536 16 8388608
      = Done (e, h', bm', off)
    /\ (e <> 0 <-> no_room bmap_fresh 16 /\ linear_usable bmap_fresh (1 .<< 16) = false)
    /\ (e <> 0 -> e = HAMMER2_ERROR_ENOSPC /\ h' = dev_demo tt /\ bm' = bmap_fresh
                  /\ off = 8388608)
    /\ (e = 0 ->
        8388608 <= off /\ off + (1 .<< 16) <= 8388608 + HAMMER2_SEGSIZE
        /\ (1024 | off - 8388608)
        /\ bmap_ok bm'
        /\ forall b, 0 <= b < 256 ->
             blk bm' b = if (16384 * b <? off - 8388608 + (1 .<< 16))
                            && (off - 8388608 <? 16384 * (b + 1))
                         then 3 else blk bmap_fresh b).
Proof.
  apply (@bmap_alloc_exact unit _ log_io); try (unfold radix_ok; lia).
  - apply bmap_fresh_ok.
  - intros _ _. exists 1. reflexivity.
  - intros. cbn. eauto.
Defined.

Lemma adjust_sum a x y z : u64 (u64 (a - (x - y)) - (y - z)) = u64 (a - (x - z)).
Proof. unfold u64. rewrite Zminus_mod_idemp_l. f_equal. lia. Qed.

Lemma bgsize_nonneg bm radix b : radix_ok radix -> 0 <= bgsize_of bm radix b.
Proof.
  intros Hr. pose proof (size_nblk radix Hr). unfold bgsize_of. repeat case_match; lia.
Qed.

(** Space accounting over any sequence of requests on one element: [avail]
    always equals 16KB times the number of unallocated blocks, it never grows,
    and [voldata.allocator_free] is debited by exactly what [avail] lost. *)
Theorem bmap_alloc_accounting {T IO} `{!IoOps IO} base rqs :
  forall (h : dev T IO) bm R,
  Forall request_ok rqs -> bmap_ok bm -> 0 <= dv_allocator_free h < 2 ^ 64 ->
  (forall ty lbase sz io, exists io', io_newnz ty lbase sz io = Done io') ->
  exists h' bm' R',
    alloc_all base rqs h bm R = Done (h', bm', R')
    /\ bm_avail bm' = HAMMER2_FREEMAP_BLOCK_SIZE * free_blocks bm'
    /\ bm_avail bm' <= bm_avail bm
    /\ dv_allocator_free h' = u64 (dv_allocator_free h - (bm_avail bm - bm_avail bm')).
Proof.
  induction rqs as [|rq rqs IH]; intros h bm R Hrq Hok Hfree Hio; cbn [alloc_all].
  - exists h, bm, R. split; [reflexivity|]. split; [apply Hok|]. split; [lia|].
    rewrite Z.sub_diag, Z.sub_0_r, u64_small by lia. reflexivity.
  - inversion Hrq as [|? ? [Hr Hka] Hrqs]; subst.
    destruct (bmap_alloc_spec h bm (rq_class rq) 0 (rq_sub_key rq) (rq_radix rq) base Hr Hok Hka Hio)
      as ([[[e h1] bm1] off] & -> & Hres).
    cbn [obind]. inversion Hres as [|h2 bm2 i k offset linear _ _ _ _ _ Hf Hok' _ _ _ Hav]; subst;
      [apply IH; auto|].
    pose proof (bgsize_nonneg bm (rq_radix rq) (32 * i + k) Hr) as Hbg.
    assert (Hf1 : dv_allocator_free h1 = u64 (dv_allocator_free h - (bm_avail bm - bm_avail bm1))).
    { rewrite Hf, Hav. destruct (Z.eqb_spec (bgsize_of bm (rq_radix rq) (32 * i + k)) 0) as [->|].
      - rewrite u64_small; lia.
      - f_equal; lia. }
    edestruct (IH h1 bm1) as (h' & bm' & R' & -> & Hav' & Hle & Hf'); auto.
    { rewrite Hf1. auto with h2. }
    exists h', bm', R'. split; [reflexivity|]. split; [exact Hav'|]. split; [lia|].
    rewrite Hf', Hf1. apply adjust_sum.
Qed.

Lemma bmap_alloc_accounting_witness :
  exists h' bm' R',
    @alloc_all unit _ log_io 8388608 [Req 778 0 10; Req 784 65536 16; Req 266 0 10]
      (dev_demo tt) bmap_fresh [] = Done (h', bm', R')
    /\ bm_avail bm' = HAMMER2_FREEMAP_BLOCK_SIZE * free_blocks bm'
    /\ bm_avail bm' <= bm_avail bmap_fresh
    /\ dv_allocator_free h' = u64 (1000000000 - (bm_avail bmap_fresh - bm_avail bm')).
Proof.
  apply (@bmap_alloc_accounting unit _ log_io _ _ (dev_demo tt)).
  - repeat (constructor; [split; [unfold radix_ok; cbn; lia|unfold key_aligned; cbn; intros Hc Hx]|]);
      [..|constructor].
    all: first [discriminate Hc|lia|apply Z.divide_0_r|exists 1; reflexivity].
  - apply bmap_fresh_ok.
  - cbn. lia.
  - intros. cbn. eauto.
Defined.
