(* ===== verification/FreemapAlloc.v ===== *)
(** The device-wide freemap allocator: the state of leaves and of the volume,
    the search over leaves and zones, and sequences of requests.

    Properties of [hammer2_freemap_iterate], [hammer2_freemap_try_alloc] and
    [hammer2_freemap_alloc], with the laws of the freemap topology and of the
    buffer cache they rely on. *)

From Stdlib Require Import ZArith Lia Bool.
From stdpp Require Import base numbers list option gmap.
From S2P Require Import Prelude Disk Bitmap Subr Freemap BmapAlloc.

(** * The interfaces' laws *)

(** What the chain layer promises the allocator: leaves can be created and
    made writable, and stores go to the leaf they name. *)
Class LeafStoreLaws (T : Type) `{!LeafStore T} : Prop := {
  leaf_create_ok k m t :
    leaf_lookup k t = None ->
    exists t', leaf_create k m t = Done t'
      /\ (exists lf, leaf_lookup k t' = Some lf /\ lf_error lf = 0)
      /\ forall k', k' <> k -> leaf_lookup k' t' = leaf_lookup k' t;
  leaf_modify_ok k m t lf :
    leaf_lookup k t = Some lf ->
    exists t' e, leaf_modify k m t = Done (t', e)
      /\ forall k', leaf_lookup k' t' = leaf_lookup k' t;
  leaf_write_eq k lf t : leaf_lookup k (leaf_write k lf t) = Some lf;
  leaf_write_ne k k' lf t :
    k' <> k -> leaf_lookup k' (leaf_write k lf t) = leaf_lookup k' t
}.

(** What the buffer cache promises: the calls the allocator makes succeed. *)
Class IoTotal (IO : Type) `{!IoOps IO} : Prop := {
  io_newnz_total ty lbase sz io : exists io', io_newnz ty lbase sz io = Done io';
  io_dedup_set_total b io : exists io', io_dedup_set b io = Done io'
}.

(** Leaves in a finite map, the specification of the store. *)
#[export] Instance gmap_store : LeafStore (gmap Z leaf) := {|
  leaf_lookup k t := t !! k;
  leaf_create k m t := Done (<[k := Leaf 0 0 0 []]> t);
  leaf_modify k m t := Done (t, 0);
  leaf_write k lf t := <[k := lf]> t
|}.

#[export] Instance gmap_store_laws : LeafStoreLaws (gmap Z leaf).
Proof.
  constructor.
  - intros k m t _. eexists. split; [reflexivity|]. cbn. split.
    + exists (Leaf 0 0 0 []). rewrite lookup_insert_eq. auto.
    + intros k' Hne. apply lookup_insert_ne. congruence.
  - intros. eexists _, _. split; reflexivity.
  - intros. apply lookup_insert_eq.
  - intros. apply lookup_insert_ne. congruence.
Qed.

Lemma log_io_total : @IoTotal (list (Z * Z * Z)) log_io.
Proof. constructor; intros; cbn; eauto. Qed.

(** * Leaves *)

Section leaves.
Variables total beg : Z.

(** The volume geometry: sizes below 2^62, so that no 64-bit sum wraps. *)
Definition geometry : Prop := 0 < total < 2 ^ 62 /\ 0 <= beg < 2 ^ 62.

(** Element [n] of the leaf at [key] is not available for data. *)
Definition reserved (key n : Z) : Prop :=
  key + n * HAMMER2_FREEMAP_LEVEL0_SIZE < init_lokey beg key
  \/ init_hikey total key <= key + n * HAMMER2_FREEMAP_LEVEL0_SIZE.

(** Nothing of [2^r] bytes can be allocated from the element. *)
Definition exhausted (bm : bmap_data) (r : Z) : Prop :=
  no_room bm r /\ linear_usable bm (2 ^ r) = false.

Record leaf_ok (key : Z) (lf : leaf) : Prop := {
  lfo_len : length (lf_bmdata lf) = 256%nat;
  lfo_elem n : 0 <= n < 256 -> bmap_ok (aget (lf_bmdata lf) n);
  lfo_reserved n : 0 <= n < 256 -> reserved key n ->
    bm_avail (aget (lf_bmdata lf) n) = 0 /\ bm_linear (aget (lf_bmdata lf) n) mod 16384 = 0;
  (* the radix hints are never restrictive *)
  lfo_bigmask r n : radix_ok r -> 0 <= n < 256 -> lf_bigmask lf .& 2 ^ r = 0 ->
    exhausted (aget (lf_bmdata lf) n) r
}.
End leaves.

(** ** Initialisation *)

Definition bmap_full (class : Z) : bmap_data :=
  Bmap HAMMER2_SEGSIZE class 0 (replicate 8 HAMMER2_BMAP_ALLONES).

Lemma bmap_full_ok class : bmap_ok (bmap_full class).
Proof.
  constructor.
  - apply words_ok_replicate. lia.
  - cbn. lia.
  - exists 4096. reflexivity.
  - intros H. exfalso. apply H. reflexivity.
  - vm_compute. reflexivity.
Qed.

Lemma init_elements_length bms : forall lo hi key avail,
  length (init_elements bms lo hi key avail).1 = length bms.
Proof.
  induction bms as [|bm bms IH]; intros; [reflexivity|]. cbn [init_elements].
  destruct (_ || _);
    match goal with |- context [init_elements bms ?a ?b ?c ?d] =>
      specialize (IH a b c d); destruct (init_elements bms a b c d) end;
    cbn in *; congruence.
Qed.

Lemma aget_cons {A} `{!Inhabited A} (x : A) l n :
  0 <= n -> aget (x :: l) n = if n =? 0 then x else aget l (n - 1).
Proof.
  intros Hn. unfold aget. destruct (Z.eqb_spec n 0) as [->|]; [reflexivity|].
  replace (Z.to_nat n) with (S (Z.to_nat (n - 1))) by lia. reflexivity.
Qed.

Lemma init_elements_get bms : forall lo hi key avail n,
  0 <= n < alen bms -> 0 <= key -> key + alen bms * 4194304 < 2 ^ 64 ->
  aget (init_elements bms lo hi key avail).1 n =
    if (key + n * 4194304 <? lo) || (hi <=? key + n * 4194304)
    then bmap_full (bm_class (aget bms n))
    else set_avail HAMMER2_FREEMAP_LEVEL0_SIZE (aget bms n).
Proof.
  unfold alen. induction bms as [|bm bms IH]; intros lo hi key avail n Hn Hk Hb;
    cbn [length] in *; [lia|]. cbn [init_elements].
  set (p := if (key <? lo) || (hi <=? key) then _ else _).
  assert (Hp : p.1 = if (key <? lo) || (hi <=? key) then bmap_full (bm_class bm)
                     else set_avail HAMMER2_FREEMAP_LEVEL0_SIZE bm).
  { unfold p. destruct (_ || _); reflexivity. }
  destruct p as [bm' avail']. cbn [fst] in Hp. rewrite u64_small by lia.
  specialize (IH lo hi (key + 4194304) avail' (n - 1)).
  destruct (init_elements bms lo hi (key + 4194304) avail') as [bms' av]. cbn [fst] in *.
  rewrite !aget_cons by lia. destruct (Z.eqb_spec n 0) as [->|].
  - rewrite Hp. replace (key + 0 * 4194304) with key by lia. reflexivity.
  - rewrite IH by lia. replace (key + 4194304 + (n - 1) * 4194304) with (key + n * 4194304) by lia.
    reflexivity.
Qed.

Lemma aget_replicate {A} `{!Inhabited A} (x : A) k n :
  0 <= n < Z.of_nat k -> aget (replicate k x) n = x.
Proof. intros. unfold aget. apply lookup_total_replicate_2. lia. Qed.

Lemma freemap_init_get total beg key err big av n :
  0 <= key < 2 ^ 62 -> 0 <= n < 256 ->
  aget (lf_bmdata (hammer2_freemap_init total beg key
                     (Leaf err big av (replicate 256 bmap_zero)))) n =
    if (key + n * 4194304 <? init_lokey beg key) || (init_hikey total key <=? key + n * 4194304)
    then bmap_full 0 else bmap_fresh.
Proof.
  intros Hk Hn. unfold hammer2_freemap_init. cbn [lf_bmdata].
  pose proof (init_elements_get (replicate 256 bmap_zero) (init_lokey beg key)
                (init_hikey total key) key HAMMER2_FREEMAP_LEVEL1_SIZE n) as H.
  unfold alen in H. rewrite length_replicate in H. specialize (H Hn ltac:(lia) ltac:(lia)).
  destruct (init_elements _ _ _ _ _) as [bms avail]. cbn [lf_bmdata fst] in *.
  rewrite H, aget_replicate by lia. reflexivity.
Qed.

Lemma freemap_init_error total beg key lf :
  lf_error (hammer2_freemap_init total beg key lf) = lf_error lf.
Proof. unfold hammer2_freemap_init. destruct (init_elements _ _ _ _ _). reflexivity. Qed.
Lemma freemap_init_bigmask total beg key lf :
  lf_bigmask (hammer2_freemap_init total beg key lf) = lf_bigmask lf.
Proof. unfold hammer2_freemap_init. destruct (init_elements _ _ _ _ _). reflexivity. Qed.

Lemma bigmask_all r : radix_ok r -> 4294967295 .& 2 ^ r <> 0.
Proof. intros H. radix_cases H; discriminate. Qed.

(** A freshly initialised leaf is well formed. *)
Lemma freemap_init_ok total beg key err av :
  0 <= key < 2 ^ 62 ->
  leaf_ok total beg key (hammer2_freemap_init total beg key
                           (Leaf err 4294967295 av (replicate 256 bmap_zero))).
Proof.
  intros Hk. constructor.
  - unfold hammer2_freemap_init. cbn [lf_bmdata].
    pose proof (init_elements_length (replicate 256 bmap_zero) (init_lokey beg key)
                  (init_hikey total key) key HAMMER2_FREEMAP_LEVEL1_SIZE) as H.
    destruct (init_elements _ _ _ _ _). cbn [fst lf_bmdata] in *. rewrite H. reflexivity.
  - intros n Hn. rewrite freemap_init_get by lia.
    destruct (_ || _); [apply bmap_full_ok|apply bmap_fresh_ok].
  - intros n Hn Hres. rewrite freemap_init_get by lia. unfold reserved in Hres.
    replace (_ || _) with true by lia. split; reflexivity.
  - intros r n Hr _ H0. rewrite freemap_init_bigmask in H0. apply bigmask_all in H0; [destruct H0|exact Hr].
Qed.

(** * The scan of one leaf *)

Lemma bmap_ok_linear_tst bm :
  bmap_ok bm -> tst (bm_linear bm) HAMMER2_FREEMAP_BLOCK_MASK = negb (bm_linear bm mod 16384 =? 0).
Proof.
  intros Hok. unfold tst. change HAMMER2_FREEMAP_BLOCK_MASK with (Z.ones 14).
  rewrite Z.land_ones by lia. reflexivity.
Qed.

(** An element the availability check rejects has no room. *)
Lemma availchk_false bm r :
  radix_ok r -> bmap_ok bm -> availchk bm r = false -> exhausted bm r.
Proof.
  intros Hr Hok. unfold availchk. destruct (Z.eqb_spec (bm_avail bm) 0) as [Ha|]; [|discriminate].
  cbn [negb]. rewrite bmap_ok_linear_tst by exact Hok. intros Hc. split.
  - intros i k Hi Hk Hkm Hd. exists (32 * i + k). destruct (nblk_divides_32 r Hr) as [Hm _].
    split; [lia|]. intros Hz. pose proof (ok_avail _ Hok) as Hav. rewrite Ha in Hav.
    pose proof (free_blocks_pos bm (32 * i + k) ltac:(lia) Hz). lia.
  - destruct (linear_usable bm (2 ^ r)) eqn:E; [|reflexivity].
    apply linear_usable_spec in E as (H14 & Hmid & _); [|assumption|apply Hok].
    replace (r <? HAMMER2_FREEMAP_BLOCK_RADIX) with true in Hc by lia.
    apply Z.eqb_neq in Hmid. rewrite Hmid in Hc. discriminate.
Qed.

Lemma nblk_small r : radix_ok r -> r < 14 -> nblk r = 1.
Proof. intros Hr H. destruct (nblk_cases r Hr); lia. Qed.

(** Allocating never makes room: an exhausted element stays exhausted. *)
Lemma exhausted_after bm bm' r radix i k offset linear :
  radix_ok r -> radix_ok radix -> bmap_ok bm -> bmap_ok bm' ->
  0 <= i < 8 -> 0 <= k -> k + nblk radix <= 32 ->
  choice bm radix i k offset linear ->
  marked bm bm' (32 * i + k) (nblk radix) -> bm_linear bm' = linear ->
  exhausted bm r -> exhausted bm' r.
Proof.
  intros Hr Hr' Hok Hok' Hi Hk Hkm Hc Hmk Hl [Hno Hlu]. split.
  - intros i' k' Hi' Hk' Hkm' Hd. destruct (Hno i' k' Hi' Hk' Hkm' Hd) as (b & Hb & Hnb).
    exists b. split; [exact Hb|]. rewrite Hmk by lia. destruct (_ && _); [lia|exact Hnb].
  - destruct (linear_usable bm' (2 ^ r)) eqn:E; [|reflexivity]. exfalso.
    apply linear_usable_spec in E as (H14 & Hmid & Hfit); [|assumption|apply Hok'].
    rewrite Hl in *. destruct Hc as [H14' Hmid' Hfit' _|Hz Hd].
    + enough (linear_usable bm (2 ^ r) = true) by congruence.
      apply linear_usable_spec; [assumption|apply Hok|]. split; [assumption|]. split; [assumption|].
      pose proof (size_nblk r Hr). div_mod_lia.
    + destruct (Z.ltb_spec radix 14) as [H|H].
      * destruct (Hno i k Hi Hk) as (b & Hb & Hnb).
        -- rewrite nblk_small by assumption. rewrite (nblk_small radix) in Hkm by assumption. lia.
        -- rewrite nblk_small by assumption. apply Z.divide_1_l.
        -- apply Hnb, Hz. rewrite nblk_small in Hb by assumption.
           rewrite (nblk_small radix) by assumption. lia.
      * enough (linear_usable bm (2 ^ r) = true) by congruence.
        apply linear_usable_spec; [assumption|apply Hok|]. auto.
Qed.

Section scan.
Context {T IO : Type} `{!LeafStore T} `{!IoOps IO} `{!IoTotal IO}.
Implicit Types h : dev T IO.

(** The outcome of scanning a leaf: nothing, or one allocation in element [n]. *)
Inductive scan_result h (lf : leaf) (class radix key : Z) : Z * dev T IO * leaf * Z -> Prop :=
| scan_none : scan_result h lf class radix key (HAMMER2_ERROR_ENOSPC, h, lf, key)
| scan_some n h' bm' off :
    0 <= n < 256 ->
    availchk (aget (lf_bmdata lf) n) radix = true ->
    alloc_result h (aget (lf_bmdata lf) n) class radix (key + n * 4194304) (0, h', bm', off) ->
    scan_result h lf class radix key
      (0, h', set_bmdata (aset (lf_bmdata lf) n bm') lf, off).

Definition elems_ok (lf : leaf) : Prop :=
  length (lf_bmdata lf) = 256%nat /\ forall n, 0 <= n < 256 -> bmap_ok (aget (lf_bmdata lf) n).

Lemma set_bmdata_same lf n : set_bmdata (aset (lf_bmdata lf) n (aget (lf_bmdata lf) n)) lf = lf.
Proof. rewrite aset_aget. destruct lf. reflexivity. Qed.

Lemma try_element_spec h lf bref radix relaxed class key n :
  radix_ok radix -> elems_ok lf -> key_aligned class (i32 (br_key bref)) radix ->
  0 <= key -> key + 2 ^ 30 <= 2 ^ 64 ->
  exists r, try_element h lf bref radix relaxed class key n = Done r
            /\ scan_result h lf class radix key r
            /\ (r.1.1.1 = HAMMER2_ERROR_ENOSPC -> relaxed <> 0 -> 0 <= n < 256 ->
                exhausted (aget (lf_bmdata lf) n) radix).
Proof.
  intros Hr [Hlen Hel] Hka Hk0 Hk. unfold try_element.
  destruct ((n <? 0) || (HAMMER2_FREEMAP_COUNT <=? n)) eqn:En.
  { eexists. split; [reflexivity|]. split; [constructor|lia]. }
  assert (Hn : 0 <= n < 256) by lia. specialize (Hel n Hn).
  destruct (availchk _ _) eqn:Eav; cbn [andb].
  2: { eexists. split; [reflexivity|]. split; [constructor|]. intros. apply availchk_false; assumption. }
  destruct ((bm_class (aget (lf_bmdata lf) n) =? 0) || (bm_class (aget (lf_bmdata lf) n) =? class)
            || negb (relaxed =? 0)) eqn:Erel.
  2: { eexists. split; [reflexivity|]. split; [constructor|]. intros _ Hrel. exfalso.
       apply Z.eqb_neq in Hrel. rewrite Hrel, orb_true_r in Erel. discriminate. }
  rewrite u64_small by lia.
  destruct (bmap_alloc_spec h (aget (lf_bmdata lf) n) class n (i32 (br_key bref)) radix
              (key + n * HAMMER2_FREEMAP_LEVEL0_SIZE) Hr Hel Hka io_newnz_total)
    as (r & -> & Hres).
  cbn [obind]. inversion Hres as [Hno Hlu|h1 bm1 i k offset linear]; subst.
  - change (HAMMER2_ERROR_ENOSPC =? HAMMER2_ERROR_ENOSPC) with true. rewrite set_bmdata_same.
    eexists. split; [reflexivity|]. split; [constructor|]. intros. split; assumption.
  - change (0 =? HAMMER2_ERROR_ENOSPC) with false.
    eexists. split; [reflexivity|]. split; [econstructor; eassumption|]. intros [=].
Qed.

Lemma scan_result_error h lf class radix key r :
  scan_result h lf class radix key r ->
  r = (HAMMER2_ERROR_ENOSPC, h, lf, key) \/ r.1.1.1 = 0.
Proof. intros []; auto. Qed.

Lemma scan_leaf_spec h lf bref radix relaxed class key start :
  radix_ok radix -> elems_ok lf -> key_aligned class (i32 (br_key bref)) radix ->
  0 <= key -> key + 2 ^ 30 <= 2 ^ 64 -> 0 <= start ->
  forall fuel count, 0 <= count ->
  exists r, scan_leaf fuel count start h lf bref radix relaxed class key = Done r
            /\ scan_result h lf class radix key r
            /\ (r.1.1.1 = HAMMER2_ERROR_ENOSPC -> relaxed <> 0 -> start = 0 ->
                forall n, count <= n < 256 -> n < count + Z.of_nat fuel ->
                exhausted (aget (lf_bmdata lf) n) radix).
Proof.
  intros Hr Hel Hka Hk0 Hk Hst fuel. induction fuel as [|fuel IH]; intros count Hc; cbn [scan_leaf].
  { eexists. split; [reflexivity|]. split; [constructor|lia]. }
  destruct ((HAMMER2_FREEMAP_COUNT <=? start + count) && (start - count <? 0)) eqn:Ebrk.
  { eexists. split; [reflexivity|]. split; [constructor|lia]. }
  destruct (try_element_spec h lf bref radix relaxed class key (start + count)) as (r1 & -> & Hr1 & Hx1);
    try assumption.
  cbn [obind]. destruct (scan_result_error _ _ _ _ _ _ Hr1) as [->|E1].
  2: { destruct r1 as [[[e h1] lf1] k1]. cbn [fst] in *. subst e. cbn [negb Z.eqb].
       eexists. split; [reflexivity|]. split; [assumption|]. intros [=]. }
  change (negb (HAMMER2_ERROR_ENOSPC =? HAMMER2_ERROR_ENOSPC)) with false. cbv iota beta.
  destruct (try_element_spec h lf bref radix relaxed class key (start - count)) as (r2 & -> & Hr2 & _);
    try assumption.
  cbn [obind]. destruct (scan_result_error _ _ _ _ _ _ Hr2) as [->|E2].
  2: { destruct r2 as [[[e h1] lf1] k1]. cbn [fst] in *. subst e. cbn [negb Z.eqb].
       eexists. split; [reflexivity|]. split; [assumption|]. intros [=]. }
  change (negb (HAMMER2_ERROR_ENOSPC =? HAMMER2_ERROR_ENOSPC)) with false. cbv iota beta.
  destruct (IH (count + 1)) as (r & -> & Hres & Hx); [lia|].
  eexists. split; [reflexivity|]. split; [assumption|]. intros He Hrel Hs n Hn Hf.
  destruct (decide (n = count)) as [->|].
  - subst start. rewrite Z.add_0_l in Hx1. apply Hx1; auto; lia.
  - apply Hx; auto; lia.
Qed.
End scan.

(** * Geometry *)

Lemma H2FMBASE_aligned key : (2 ^ 30 | key) -> H2FMBASE key 30 = key.
Proof.
  intros Hd. rewrite H2FMBASE_eq by lia. apply Z.mod_divide in Hd; [|lia]. lia.
Qed.

Lemma H2FMBASE_spec b :
  0 <= b -> (2 ^ 30 | H2FMBASE b 30) /\ 0 <= H2FMBASE b 30 <= b /\ b < H2FMBASE b 30 + 2 ^ 30.
Proof.
  intros Hb. rewrite H2FMBASE_ldiff, ldiff_ones by lia.
  split; [exists (b / 2 ^ 30); lia|]. change (2 ^ 30) with 1073741824. div_mod_lia.
Qed.

Lemma element_bounds total beg key n :
  geometry total beg -> (2 ^ 30 | key) -> 0 <= key < 2 ^ 62 -> 0 <= n < 256 ->
  ~ reserved total beg key n ->
  let e := key + n * 4194304 in
  beg <= e /\ e + 4194304 <= total /\ 4194304 <= e mod 2 ^ 30.
Proof.
  intros [Ht Hb] Hd Hk Hn Hres e. unfold reserved in Hres.
  change HAMMER2_FREEMAP_LEVEL0_SIZE with 4194304 in Hres. fold e in Hres.
  assert (Hlo : init_lokey beg key <= e) by lia. assert (Hhi : e < init_hikey total key) by lia.
  clear Hres. unfold init_lokey in Hlo. rewrite H2FMBASE_aligned in Hlo by exact Hd.
  rewrite H2FMZONEBASE_eq in Hlo. assert (Hkm : key mod 2 ^ 30 = 0) by (apply Z.mod_divide; [lia|exact Hd]).
  rewrite Hkm, Z.sub_0_r, u64_small in Hlo by lia.
  change HAMMER2_SEGMASK with (Z.ones 22) in Hlo.
  pose proof (roundup_mask beg 22 ltac:(lia)) as [[Hru _] _].
  set (lo := (beg + Z.ones 22) .&~ Z.ones 22) in *. cbv zeta in Hlo.
  assert (Hlo' : lo <= e /\ key + 4194304 <= e).
  { destruct (Z.ltb_spec lo key); destruct (Z.ltb_spec key (key + 4194304)); try lia;
      destruct (Z.ltb_spec lo (key + 4194304)); lia. }
  split; [lia|]. unfold init_hikey in Hhi. rewrite u64_small in Hhi by lia. cbv zeta in Hhi.
  change HAMMER2_SEGMASK with (Z.ones 22) in Hhi. rewrite ldiff_ones in Hhi by lia.
  change (2 ^ 22) with 4194304 in Hhi.
  destruct Hd as [c Hc]. change (2 ^ 30) with (256 * 4194304) in *.
  split.
  - destruct (Z.ltb_spec total (key + 1073741824)); subst e key; [|lia].
    assert (c * 256 + n < total / 4194304) by lia. div_mod_lia.
  - assert (e mod (256 * 4194304) = n * 4194304) as ->; [|subst e; lia].
    subst e key. rewrite Z.add_comm, Z.mod_add by lia.
    apply Z.mod_small. lia.
Qed.

(** * One step of the search *)

Section search.
Context {T IO : Type} `{!LeafStore T} `{!LeafStoreLaws T} `{!IoOps IO} `{!IoTotal IO}.
Implicit Types h : dev T IO.

Definition leaf_at h key : option leaf := leaf_lookup key (dv_fchain h).

(** The elements of a zone; a leaf that is not there yet is made with those of
    [hammer2_freemap_init]. *)
Definition fresh_elements total beg key : list bmap_data :=
  lf_bmdata (hammer2_freemap_init total beg key (Leaf 0 0 0 (replicate 256 bmap_zero))).
Definition elements h key : list bmap_data :=
  match leaf_at h key with
  | Some lf => lf_bmdata lf
  | None => fresh_elements (dv_total_size h) (dv_allocator_beg h) key
  end.

Lemma freemap_init_elements total beg key err big av :
  lf_bmdata (hammer2_freemap_init total beg key (Leaf err big av (replicate 256 bmap_zero)))
  = fresh_elements total beg key.
Proof.
  unfold fresh_elements, hammer2_freemap_init. cbn [lf_bmdata]. destruct (init_elements _ _ _ _ _). reflexivity.
Qed.

(** Every leaf is well formed for the volume. *)
Record dev_ok h : Prop := {
  do_geom : geometry (dv_total_size h) (dv_allocator_beg h);
  do_leaf key lf : (2 ^ 30 | key) -> 0 <= key -> leaf_at h key = Some lf ->
    leaf_ok (dv_total_size h) (dv_allocator_beg h) key lf
}.

(** [h'] has the same elements as [h], possibly with more leaves. *)
Record extends h h' : Prop := {
  ex_total : dv_total_size h' = dv_total_size h;
  ex_beg : dv_allocator_beg h' = dv_allocator_beg h;
  ex_heur : dv_heur_freemap h' = dv_heur_freemap h;
  ex_relaxed : dv_freemap_relaxed h' = dv_freemap_relaxed h;
  ex_free : dv_allocator_free h' = dv_allocator_free h;
  ex_leaf key lf : leaf_at h key = Some lf ->
    exists lf', leaf_at h' key = Some lf' /\ lf_bmdata lf' = lf_bmdata lf
                /\ lf_error lf' = lf_error lf;
  ex_elements key : elements h' key = elements h key
}.

Lemma extends_refl h : extends h h.
Proof. constructor; eauto. Qed.

Lemma extends_trans h1 h2 h3 : extends h1 h2 -> extends h2 h3 -> extends h1 h3.
Proof.
  intros [] [He1 He2 He3 He4 He5 He6 He7]. constructor; try congruence.
  intros key lf Hl. edestruct ex_leaf0 as (lf' & Hl' & ? & ?); [exact Hl|].
  edestruct He6 as (lf'' & Hl'' & ? & ?); [exact Hl'|]. exists lf''. split; [assumption|].
  split; congruence.
Qed.

Lemma extends_modify h t :
  (forall k, leaf_lookup k t = leaf_lookup k (dv_fchain h)) -> extends h (set_fchain t h).
Proof.
  intros Ht. constructor; try reflexivity.
  - intros key lf Hl. unfold leaf_at in *. cbn. rewrite Ht. eauto.
  - intros key. unfold elements, leaf_at. cbn. rewrite Ht. reflexivity.
Qed.

Lemma dev_ok_extends h h' :
  extends h h' -> dev_ok h ->
  (forall key lf, (2 ^ 30 | key) -> 0 <= key -> leaf_at h' key = Some lf ->
     leaf_at h key = Some lf \/ leaf_ok (dv_total_size h) (dv_allocator_beg h) key lf) ->
  dev_ok h'.
Proof.
  intros [] [] Hl. constructor; rewrite ?ex_total0, ?ex_beg0; [assumption|].
  intros key lf Hd Hk Hlf. destruct (Hl key lf Hd Hk Hlf); auto.
Qed.

(** [try_leaf] finds or makes the leaf. *)
Lemma try_leaf_spec h key radix mtid :
  dev_ok h -> radix_ok radix -> (2 ^ 30 | key) -> 0 <= key < 2 ^ 62 ->
  exists e h', try_leaf h key radix mtid = Done (e, h')
    /\ extends h h' /\ dev_ok h'
    /\ ((e = 0 /\ exists lf, leaf_at h' key = Some lf /\ lf_error lf = 0)
        \/ (e = HAMMER2_ERROR_EIO /\ h' = h
            /\ exists lf, leaf_at h key = Some lf /\ lf_error lf <> 0)
        \/ (e = HAMMER2_ERROR_ENOSPC /\ h' = h
            /\ exists lf, leaf_at h key = Some lf /\ lf_error lf = 0
               /\ lf_bigmask lf .& 2 ^ radix = 0)).
Proof.
  intros Hok Hr Hd Hk. unfold try_leaf, leaf_at.
  destruct (leaf_lookup key (dv_fchain h)) as [lf|] eqn:El.
  - destruct (Z.eqb_spec (lf_error lf) 0) as [He|He]; cbn [negb].
    2: { exists HAMMER2_ERROR_EIO, h. split; [reflexivity|]. split; [apply extends_refl|].
         split; [exact Hok|]. right; left. eauto. }
    rewrite size_eq. destruct (Z.eqb_spec (lf_bigmask lf .& 2 ^ radix) 0) as [Hb|Hb].
    { exists HAMMER2_ERROR_ENOSPC, h. split; [reflexivity|]. split; [apply extends_refl|].
      split; [exact Hok|]. right; right. eauto 6. }
    destruct (leaf_modify_ok key mtid _ _ El) as (t' & me & -> & Ht). cbn [obind].
    exists 0, (set_fchain t' h). split; [reflexivity|].
    assert (Hex : extends h (set_fchain t' h)) by (apply extends_modify; exact Ht).
    split; [exact Hex|]. split.
    + eapply dev_ok_extends; [exact Hex|exact Hok|]. intros k lf' _ _. unfold leaf_at. cbn.
      rewrite Ht. auto.
    + left. split; [reflexivity|]. exists lf. cbn. rewrite Ht. auto.
  - destruct (leaf_create_ok key mtid _ El) as (t1 & -> & (lf & Hlf & Herr) & Hoth). cbn [obind].
    destruct (leaf_modify_ok key mtid _ _ Hlf) as (t2 & me & -> & Ht2). cbn [obind].
    rewrite Ht2, Hlf. eexists 0, _. split; [reflexivity|].
    set (lf1 := hammer2_freemap_init _ _ _ _).
    set (h' := set_fchain _ h).
    assert (Hat : leaf_at h' key = Some lf1) by apply leaf_write_eq.
    assert (Hne : forall k, k <> key -> leaf_at h' k = leaf_at h k).
    { intros k Hkne. unfold leaf_at, h'. cbn. rewrite leaf_write_ne, Ht2 by exact Hkne. auto. }
    assert (Hex : extends h h').
    { constructor; try reflexivity.
      - intros k lf' Hl. exists lf'. rewrite Hne; [auto|]. intros ->. unfold leaf_at in Hl. congruence.
      - intros k. unfold elements. destruct (decide (k = key)) as [->|Hkne]; [|rewrite Hne by exact Hkne; reflexivity].
        rewrite Hat. unfold leaf_at. rewrite El. apply freemap_init_elements. }
    split; [exact Hex|]. split.
    + eapply dev_ok_extends; [exact Hex|exact Hok|]. intros k lf' Hdk Hk0 Hl.
      destruct (decide (k = key)) as [->|Hkne]; [|rewrite Hne in Hl by exact Hkne; auto].
      right. rewrite Hat in Hl. injection Hl as <-. apply freemap_init_ok. exact Hk.
    + left. split; [reflexivity|]. exists lf1. split; [exact Hat|].
      unfold lf1. rewrite freemap_init_error. exact Herr.
Qed.

(** A successful step: one element of one leaf served the request. *)
Inductive allocated h (class radix : Z) : dev T IO -> Z -> Prop :=
| allocated_intro h1 key n lf h2 bm' h' off lf' :
    extends h h1 -> dev_ok h1 -> (2 ^ 30 | key) -> 0 <= key < 2 ^ 62 ->
    leaf_at h1 key = Some lf -> 0 <= n < 256 ->
    ~ reserved (dv_total_size h) (dv_allocator_beg h) key n ->
    alloc_result h1 (aget (lf_bmdata lf) n) class radix (key + n * 4194304) (0, h2, bm', off) ->
    dv_total_size h' = dv_total_size h -> dv_allocator_beg h' = dv_allocator_beg h ->
    dv_heur_freemap h' = dv_heur_freemap h -> dv_freemap_relaxed h' = dv_freemap_relaxed h ->
    dv_allocator_free h' = dv_allocator_free h2 ->
    leaf_at h' key = Some lf' -> lf_bmdata lf' = aset (lf_bmdata lf) n bm' ->
    lf_error lf' = lf_error lf ->
    (forall k, k <> key -> leaf_at h' k = leaf_at h1 k) -> dev_ok h' ->
    allocated h class radix h' off.

Lemma bigmask_clear m r r' :
  r <> r' -> 0 <= r -> 0 <= r' -> (m .&~ 2 ^ r) .& 2 ^ r' = m .& 2 ^ r'.
Proof.
  intros Hne Hr Hr'. apply Z.bits_inj'. intros k Hk.
  rewrite !Z.land_spec, Z.ldiff_spec, !Z.pow2_bits_eqb by lia.
  destruct (Z.eqb_spec r k) as [->|], (Z.eqb_spec r' k) as [->|], (Z.testbit m k);
    try reflexivity; congruence.
Qed.

(** A leaf stays well formed when one of its elements is allocated from. *)
Lemma leaf_ok_alloc total beg key lf h1 n class radix base h2 bm' off :
  radix_ok radix -> leaf_ok total beg key lf -> 0 <= n < 256 -> ~ reserved total beg key n ->
  alloc_result h1 (aget (lf_bmdata lf) n) class radix base (0, h2, bm', off) ->
  leaf_ok total beg key (set_bmdata (aset (lf_bmdata lf) n bm') lf).
Proof.
  intros Hr [Hlen Hel Hres Hbig] Hn Hnres Hal.
  inversion Hal as [|h' bm1 i k offset linear Hi Hk Hkm Hc _ _ Hok' Hmk Hl _ _]; subst.
  assert (Halen : alen (lf_bmdata lf) = 256) by (unfold alen; lia).
  assert (Hget : forall m, 0 <= m < 256 ->
            aget (aset (lf_bmdata lf) n bm') m = if m =? n then bm' else aget (lf_bmdata lf) m).
  { intros m Hm. destruct (Z.eqb_spec m n) as [->|].
    - apply aget_aset_eq. lia.
    - apply aget_aset_ne; lia. }
  constructor; cbn [set_bmdata lf_bmdata lf_bigmask].
  - unfold aset. rewrite length_insert. exact Hlen.
  - intros m Hm. rewrite Hget by exact Hm. destruct (m =? n); auto.
  - intros m Hm Hrm. rewrite Hget by exact Hm. destruct (Z.eqb_spec m n) as [->|]; [contradiction|auto].
  - intros r m Hr' Hm Hb. rewrite Hget by exact Hm. destruct (Z.eqb_spec m n) as [->|]; [|auto].
    apply (exhausted_after (aget (lf_bmdata lf) n) bm' r radix i k offset (bm_linear bm')); auto.
Qed.

Lemma leaf_ok_clear total beg key lf radix :
  radix_ok radix -> leaf_ok total beg key lf ->
  (forall n, 0 <= n < 256 -> exhausted (aget (lf_bmdata lf) n) radix) ->
  leaf_ok total beg key (set_bigmask (lf_bigmask lf .&~ (1 .<< radix)) lf).
Proof.
  intros Hr [Hlen Hel Hres Hbig] Hex. constructor; cbn [set_bigmask lf_bmdata lf_bigmask]; auto.
  intros r n Hr' Hn Hb. rewrite size_eq in Hb. destruct (decide (r = radix)) as [->|Hne]; [auto|].
  rewrite bigmask_clear in Hb; [auto|congruence|unfold radix_ok in *; lia..].
Qed.

Lemma availchk_not_reserved total beg key lf n radix :
  leaf_ok total beg key lf -> 0 <= n < 256 ->
  availchk (aget (lf_bmdata lf) n) radix = true -> ~ reserved total beg key n.
Proof.
  intros Hlf Hn Hav Hres. destruct (lfo_reserved _ _ _ _ Hlf n Hn Hres) as [Ha Hl].
  unfold availchk in Hav. rewrite Ha in Hav. cbn [negb Z.eqb] in Hav.
  rewrite bmap_ok_linear_tst in Hav by (eapply lfo_elem; eauto).
  rewrite Hl, andb_false_r in Hav. discriminate.
Qed.

(** Storing a leaf with well-formed contents. *)
Lemma dev_ok_write h h2 key lf :
  dev_ok h -> dv_total_size h2 = dv_total_size h -> dv_allocator_beg h2 = dv_allocator_beg h ->
  (forall k, leaf_at h2 k = leaf_at h k) ->
  leaf_ok (dv_total_size h) (dv_allocator_beg h) key lf ->
  dev_ok (set_fchain (leaf_write key lf (dv_fchain h2)) h2).
Proof.
  intros [Hg Hl] Ht Hb Heq Hlf. constructor; cbn; rewrite Ht, Hb; [exact Hg|].
  intros k lf' Hd Hk. unfold leaf_at. cbn. destruct (decide (k = key)) as [->|Hne].
  - rewrite leaf_write_eq. intros [= <-]. exact Hlf.
  - rewrite leaf_write_ne by exact Hne. intros Hlf'. eapply Hl; eauto.
    rewrite <- Heq. exact Hlf'.
Qed.

Lemma try_scan_spec h bref radix iter class key mtid lf :
  dev_ok h -> radix_ok radix -> key_aligned class (i32 (br_key bref)) radix ->
  0 <= fi_bnext iter < 2 ^ 62 -> key = H2FMBASE (fi_bnext iter) 30 ->
  leaf_at h key = Some lf ->
  exists e h' off, try_scan h bref radix iter class key mtid = Done (e, h', off)
    /\ ((e = 0 /\ allocated h class radix h' off)
        \/ (e = HAMMER2_ERROR_ENOSPC /\ off = key /\ extends h h' /\ dev_ok h'
            /\ (fi_relaxed iter <> 0 -> fi_bnext iter = key ->
                forall n, 0 <= n < 256 -> exhausted (aget (lf_bmdata lf) n) radix))).
Proof.
  intros Hok Hr Hka Hbn Hkey Hlf. destruct (H2FMBASE_spec (fi_bnext iter)) as (Hd & Hk1 & Hk2); [lia|].
  rewrite <- Hkey in *. pose proof (do_leaf _ Hok _ _ Hd ltac:(lia) Hlf) as Hlo.
  unfold try_scan. change HAMMER2_FREEMAP_LEVEL0_RADIX with 22.
  rewrite Z.shiftr_div_pow2 by lia. change (2 ^ 22) with 4194304 in *.
  assert (Hst : 0 <= (fi_bnext iter - key) / 4194304 < 256) by (clear - Hk1 Hk2; div_mod_lia).
  rewrite i32_small by lia. rewrite assert_true by lia.
  destruct (leaf_modify_ok key mtid _ _ Hlf) as (t & me & -> & Ht). cbn [obind].
  assert (Hlf' : leaf_lookup key t = Some lf) by (rewrite Ht; exact Hlf). rewrite Hlf'.
  set (h1 := set_fchain t h).
  assert (Hex1 : extends h h1) by (apply extends_modify; exact Ht).
  assert (Hat1 : forall k, leaf_at h1 k = leaf_at h k) by (intros k; apply Ht).
  assert (Hok1 : dev_ok h1).
  { eapply dev_ok_extends; [exact Hex1|exact Hok|]. intros k lf1 _ _ E. left. rewrite <- Hat1. exact E. }
  destruct (scan_leaf_spec h1 lf bref radix (fi_relaxed iter) class key
              ((fi_bnext iter - key) / 4194304)) with (fuel := 256%nat) (count := 0)
    as (r & Hrun & Hres & Hx); try lia; try assumption.
  { split; [eapply lfo_len|eapply lfo_elem]; eauto. }
  change (Z.to_nat HAMMER2_FREEMAP_COUNT) with 256%nat. rewrite Hrun. cbn [obind].
  destruct Hres as [|n h2 bm' off Hn Hav Hal].
  - change (HAMMER2_ERROR_ENOSPC =? HAMMER2_ERROR_ENOSPC) with true. cbn [andb fst] in *.
    specialize (Hx eq_refl).
    set (lf2 := if _ && _ then _ else lf).
    assert (Hlf2 : lf_bmdata lf2 = lf_bmdata lf /\ lf_error lf2 = lf_error lf).
    { unfold lf2. destruct (_ && _); auto. }
    assert (Hlo2 : leaf_ok (dv_total_size h) (dv_allocator_beg h) key lf2).
    { unfold lf2. destruct ((_ =? 0) && negb (_ =? 0)) eqn:E; [|exact Hlo].
      apply andb_true_iff in E as [E1 E2]. apply leaf_ok_clear; auto.
      intros n Hn. apply Hx; lia. }
    eexists _, _, _. split; [reflexivity|]. right. split; [reflexivity|]. split; [reflexivity|].
    split; [|split].
    + eapply extends_trans; [exact Hex1|]. constructor; try reflexivity.
      * intros k lf0 Hl. unfold leaf_at in *. cbn. destruct (decide (k = key)) as [->|Hne].
        -- rewrite leaf_write_eq. exists lf2. cbn in Hl. rewrite Hlf' in Hl. injection Hl as <-.
           split; [reflexivity|exact Hlf2].
        -- rewrite leaf_write_ne by exact Hne. eauto.
      * intros k. unfold elements, leaf_at. cbn. destruct (decide (k = key)) as [->|Hne].
        -- rewrite leaf_write_eq, Hlf'. apply Hlf2.
        -- rewrite leaf_write_ne by exact Hne. reflexivity.
    + apply (dev_ok_write h h1); auto.
    + intros Hrel Hs n Hn. apply Hx; try lia. rewrite Hs, Z.sub_diag. reflexivity.
  - cbn [fst Z.eqb andb] in *. change (0 =? HAMMER2_ERROR_ENOSPC) with false. cbn [andb].
    eexists _, _, _. split; [reflexivity|]. left. split; [reflexivity|].
    assert (Hnr : ~ reserved (dv_total_size h) (dv_allocator_beg h) key n)
      by (eapply availchk_not_reserved; eauto).
    assert (Hsf : same_freemap h1 h2).
    { inversion Hal. assumption. }
    destruct Hsf as (Hf1 & Hf2 & Hf3 & Hf4 & Hf5 & _).
    assert (Hat2 : forall k, leaf_at h2 k = leaf_at h k).
    { intros k. unfold leaf_at. rewrite Hf1. apply Ht. }
    apply (allocated_intro h class radix h1 key n lf h2 bm' _ off
             (set_bmdata (aset (lf_bmdata lf) n bm') lf)); cbn; auto; try lia.
    + unfold leaf_at. cbn. apply leaf_write_eq.
    + intros k Hne. unfold leaf_at. cbn. rewrite leaf_write_ne by exact Hne. rewrite Hf1. reflexivity.
    + apply (dev_ok_write h h2); auto. eapply leaf_ok_alloc; eauto.
Qed.

(** ** [hammer2_freemap_try_alloc] *)

Lemma allocated_extends h h0 class radix h' off :
  extends h h0 -> allocated h0 class radix h' off -> allocated h class radix h' off.
Proof.
  intros Hex Hal. destruct Hal as [h1 key n lf h2 bm' h' off lf' He].
  destruct Hex as [E1 E2 E3 E4 E5 E6 E7] eqn:Eq. rewrite E1, E2 in *.
  eapply (allocated_intro h class radix h1 key n lf h2 bm' h' off lf'); eauto; try congruence.
  eapply extends_trans; eauto.
Qed.

Lemma allocated_io h class radix h' off io :
  allocated h class radix h' off -> allocated h class radix (set_io io h') off.
Proof.
  intros []. eapply allocated_intro; eauto. destruct H16. constructor; assumption.
Qed.

Lemma allocated_dev_ok h class radix h' off : allocated h class radix h' off -> dev_ok h'.
Proof. intros []. assumption. Qed.

(** The chosen range lies in the volume, past the static allocation and
    outside the reserved segment of its zone. *)
Lemma allocated_bounds h class radix h' off :
  dev_ok h -> radix_ok radix -> allocated h class radix h' off ->
  dv_allocator_beg h <= off /\ off + 2 ^ radix <= dv_total_size h
  /\ 4194304 <= off mod 2 ^ 30 /\ (1024 | off).
Proof.
  intros Hok Hr [h1 key n lf h2 bm' h'' off' lf' Hex Hok1 Hd Hk Hlf Hn Hnr Hal].
  pose proof (element_bounds _ _ _ _ (do_geom _ Hok) Hd Hk Hn Hnr) as (Hb1 & Hb2 & Hb3).
  pose proof (do_leaf _ Hok1 _ _ Hd ltac:(lia) Hlf) as Hlo.
  inversion Hal as [|h3 bm1 i k offset linear Hi Hk' Hkm Hc]; subst.
  apply choice_range in Hc as (Ho1 & Ho2 & Ho3 & _); auto; [|eapply lfo_elem; eauto].
  destruct (do_geom _ Hok) as [Ht _].
  pose proof (pow2_pos radix ltac:(unfold radix_ok in Hr; lia)).
  rewrite u64_small by lia. destruct Hd as [c ->].
  change (2 ^ 30) with (1048576 * 1024) in *. change (1048576 * 1024) with 1073741824 in *.
  split; [lia|]. split; [lia|]. split; [div_mod_lia|].
  apply Z.divide_add_r; [|exact Ho3]. exists (c * 1048576 + n * 4096). lia.
Qed.

Definition class_of (bref : blockref) : Z := u16 ((br_type bref .<< 8) .| HAMMER2_PBUFRADIX).

Lemma class_of_type bref : 0 <= br_type bref < 256 -> class_of bref .>> 8 = br_type bref.
Proof.
  intros H. unfold class_of. rewrite (lor_disjoint _ HAMMER2_PBUFRADIX 8); try lia.
  2: { rewrite Z.shiftl_mul_pow2 by lia. exists (br_type bref). lia. }
  rewrite Z.shiftl_mul_pow2 by lia. change (2 ^ 8) with 256. rewrite u16_small by lia.
  rewrite Z.shiftr_div_pow2 by lia. change (2 ^ 8) with 256. div_mod_lia.
Qed.

(** The caller's part: a type in range, and data keys aligned to the
    allocation. *)
Definition bref_ok (bref : blockref) (radix : Z) : Prop :=
  0 <= br_type bref < 256 /\
  (br_type bref = HAMMER2_BREF_TYPE_DATA -> (2 ^ radix | br_key bref)).

Lemma bref_key_aligned bref radix :
  radix_ok radix -> bref_ok bref radix ->
  key_aligned (class_of bref) (i32 (br_key bref)) radix.
Proof.
  intros Hr [Ht Hk]. unfold key_aligned. rewrite class_of_type by exact Ht. intros E _.
  specialize (Hk E). unfold radix_ok in Hr.
  assert (Hd : forall m, radix <= m -> (2 ^ radix | 2 ^ m)).
  { intros m Hm. exists (2 ^ (m - radix)). rewrite <- Z.pow_add_r by lia. f_equal. lia. }
  unfold i32. rewrite Z.mod_eq by lia.
  repeat apply Z.divide_sub_r; try apply Z.divide_add_r; auto; try (apply Hd; lia).
  apply Z.divide_mul_l. apply Hd. lia.
Qed.

(** Every element of the leaf at [key] is exhausted. *)
Definition zone_exhausted h key radix : Prop :=
  exists lf, leaf_at h key = Some lf
             /\ forall n, 0 <= n < 256 -> exhausted (aget (lf_bmdata lf) n) radix.

Lemma zone_exhausted_extends h h' key radix :
  extends h h' -> zone_exhausted h key radix -> zone_exhausted h' key radix.
Proof.
  intros Hex (lf & Hl & Hn). destruct (ex_leaf _ _ Hex _ _ Hl) as (lf' & Hl' & Hb & _).
  exists lf'. rewrite Hb. auto.
Qed.

Definition bad_leaf h : Prop := exists key lf, leaf_at h key = Some lf /\ lf_error lf <> 0.

(** One iteration of the search. *)
Inductive try_result h (bref : blockref) (radix : Z) (iter : fiterate)
  : Z * dev T IO * blockref * fiterate -> Prop :=
| try_done h' off :
    allocated h (class_of bref) radix h' off ->
    try_result h bref radix iter (0, h', set_data_off (off .| radix) bref, iter)
| try_eio :
    bad_leaf h -> try_result h bref radix iter (HAMMER2_ERROR_EIO, h, bref, iter)
| try_next h' :
    extends h h' -> dev_ok h' ->
    (fi_relaxed iter <> 0 -> fi_bnext iter = H2FMBASE (fi_bnext iter) 30 ->
     zone_exhausted h' (fi_bnext iter) radix) ->
    try_result h bref radix iter
      ((hammer2_freemap_iterate (dv_total_size h) iter).1, h', bref,
       (hammer2_freemap_iterate (dv_total_size h) iter).2).

Lemma try_alloc_spec h bref radix iter mtid :
  dev_ok h -> radix_ok radix -> bref_ok bref radix -> 0 <= fi_bnext iter < 2 ^ 62 ->
  exists r, hammer2_freemap_try_alloc h bref radix iter mtid = Done r
            /\ try_result h bref radix iter r.
Proof.
  intros Hok Hr Hb Hbn. unfold hammer2_freemap_try_alloc. fold (class_of bref). cbv zeta.
  pose proof (bref_key_aligned _ _ Hr Hb) as Hka.
  set (key := H2FMBASE (fi_bnext iter) HAMMER2_FREEMAP_LEVEL1_RADIX).
  destruct (H2FMBASE_spec (fi_bnext iter)) as (Hd & Hk1 & Hk2); [lia|]. fold key in Hd, Hk1, Hk2.
  destruct (try_leaf_spec h key radix mtid) as (e & h1 & -> & Hex1 & Hok1 & Hcase);
    try assumption; [lia|].
  cbn [obind]. destruct Hcase as [(-> & lf & Hlf & Herr)|[(-> & -> & lf & Hlf & Herr)|
                                  (-> & -> & lf & Hlf & Herr & Hbig)]].
  - cbn [Z.eqb].
    destruct (try_scan_spec h1 bref radix iter (class_of bref) key mtid lf)
      as (e & h2 & off & -> & Hcase); try assumption; [reflexivity|]. cbn [obind].
    destruct Hcase as [(-> & Hal)|(-> & -> & Hex2 & Hok2 & Hx)].
    + cbn [Z.eqb]. apply (allocated_extends h) in Hal; [|exact Hex1].
      pose proof (allocated_bounds _ _ _ _ _ Hok Hr Hal) as (B1 & B2 & B3 & B4).
      assert (Hsz : dv_total_size h2 = dv_total_size h /\ dv_allocator_beg h2 = dv_allocator_beg h)
        by (destruct Hal; auto).
      destruct Hsz as [Hts Hab]. destruct (do_geom _ Hok) as [Ht Hbe].
      rewrite size_eq, Hts, Hab. pose proof (size_nblk radix Hr) as [Hs _].
      rewrite u64_small by lia. rewrite !assert_true.
      2: { change HAMMER2_ZONE_MASK64 with (Z.ones 31). rewrite Z.land_ones by lia.
           change (2 ^ 30) with 1073741824 in B3. change (2 ^ 31) with 2147483648.
           apply Z.leb_le. div_mod_lia. }
      2: lia.
      change (br_type (set_data_off (off .| radix) bref)) with (br_type bref).
      destruct (br_type bref =? HAMMER2_BREF_TYPE_DATA).
      * destruct (io_dedup_set_total (set_data_off (off .| radix) bref) (dv_io h2)) as (io & Hio).
        rewrite Hio. cbn [obind]. eexists. split; [reflexivity|].
        apply (try_done h bref radix iter). apply allocated_io. exact Hal.
      * eexists. split; [reflexivity|]. apply (try_done h bref radix iter). exact Hal.
    + change (HAMMER2_ERROR_ENOSPC =? 0) with false.
      change (HAMMER2_ERROR_ENOSPC =? HAMMER2_ERROR_ENOSPC) with true. cbv iota.
      assert (Hex : extends h h2) by (eapply extends_trans; eauto).
      rewrite (ex_total _ _ Hex).
      pose proof (try_next h bref radix iter h2 Hex Hok2) as Hnext.
      destruct (hammer2_freemap_iterate (dv_total_size h) iter) as [e it]. cbn [fst snd] in Hnext.
      eexists. split; [reflexivity|]. apply Hnext. intros Hrel Hal.
      change (fi_bnext iter = key) in Hal. rewrite Hal.
      apply (zone_exhausted_extends h1); [exact Hex2|]. exists lf. auto.
  - change (HAMMER2_ERROR_EIO =? 0) with false. cbv iota. cbn [obind].
    change (HAMMER2_ERROR_EIO =? 0) with false.
    change (HAMMER2_ERROR_EIO =? HAMMER2_ERROR_ENOSPC) with false. cbv iota.
    eexists. split; [reflexivity|]. apply try_eio. exists key, lf. auto.
  - change (HAMMER2_ERROR_ENOSPC =? 0) with false. cbv iota. cbn [obind].
    change (HAMMER2_ERROR_ENOSPC =? 0) with false.
    change (HAMMER2_ERROR_ENOSPC =? HAMMER2_ERROR_ENOSPC) with true. cbv iota.
    pose proof (try_next h bref radix iter h (extends_refl h) Hok) as Hnext.
    destruct (hammer2_freemap_iterate (dv_total_size h) iter) as [e it]. cbn [fst snd] in Hnext.
    eexists. split; [reflexivity|]. apply Hnext. intros _ Hal.
    change (fi_bnext iter = key) in Hal. rewrite Hal. exists lf. split; [exact Hlf|].
    intros n Hn. eapply lfo_bigmask; eauto. eapply do_leaf; eauto. lia.
Qed.

(** ** The loop over the zones *)

(** Passes over the device still to come, counting the current one. *)
Definition passes (iter : fiterate) : Z :=
  if fi_relaxed iter =? 0 then 3 - fi_loops iter
  else if fi_loops iter =? 0 then 2 else 1.

Definition zones (total : Z) : Z := total / 2 ^ 30 + 1.

(** Iterations left before ENOSPC. *)
Definition remaining (total : Z) (iter : fiterate) : Z :=
  passes iter * zones total - fi_bnext iter / 2 ^ 30.

Record iter_ok (total : Z) (iter : fiterate) : Prop := {
  io_bnext : 0 <= fi_bnext iter <= total;
  io_loops : 0 <= fi_loops iter;
  io_passes : fi_relaxed iter = 0 -> fi_loops iter <= 1
}.

(** In the last pass (relaxed, from the start of the device), every zone below
    the iterator is exhausted. *)
Definition swept h (iter : fiterate) radix : Prop :=
  fi_relaxed iter <> 0 -> 1 <= fi_loops iter ->
  fi_bnext iter = H2FMBASE (fi_bnext iter) 30
  /\ forall key, (2 ^ 30 | key) -> 0 <= key < fi_bnext iter -> zone_exhausted h key radix.

Definition all_exhausted h radix : Prop :=
  forall key, (2 ^ 30 | key) -> 0 <= key < dv_total_size h -> zone_exhausted h key radix.

Inductive iterate_result h (iter : fiterate) (radix : Z) : Z * fiterate -> Prop :=
| iterate_enospc iter' :
    all_exhausted h radix -> fi_bnext iter' = 0 ->
    iterate_result h iter radix (HAMMER2_ERROR_ENOSPC, iter')
| iterate_again iter' :
    iter_ok (dv_total_size h) iter' -> swept h iter' radix ->
    remaining (dv_total_size h) iter' < remaining (dv_total_size h) iter ->
    iterate_result h iter radix (HAMMER2_ERROR_EAGAIN, iter').

(** A multiple of 2^30 below the next zone is this zone or an earlier one. *)
Lemma zone_below key b :
  (2 ^ 30 | key) -> b = H2FMBASE b 30 -> 0 <= b -> key < b + 2 ^ 30 -> key = b \/ key < b.
Proof.
  intros [c Hc] Hb Hb0 Hlt. destruct (H2FMBASE_spec b Hb0) as [[c' Hc'] _]. rewrite <- Hb in Hc'.
  change (2 ^ 30) with 1073741824 in *. lia.
Qed.

Lemma iterate_spec h iter radix :
  0 < dv_total_size h < 2 ^ 62 -> iter_ok (dv_total_size h) iter -> swept h iter radix ->
  (fi_relaxed iter <> 0 -> fi_bnext iter = H2FMBASE (fi_bnext iter) 30 ->
   zone_exhausted h (fi_bnext iter) radix) ->
  iterate_result h iter radix (hammer2_freemap_iterate (dv_total_size h) iter).
Proof.
  intros Ht [Hbn Hlp Hps] Hsw Hz. unfold hammer2_freemap_iterate.
  change HAMMER2_FREEMAP_LEVEL1_MASK with (Z.ones 30).
  rewrite <- H2FMBASE_ldiff. change HAMMER2_FREEMAP_LEVEL1_SIZE with (2 ^ 30).
  destruct (H2FMBASE_spec (fi_bnext iter)) as (Hd & Hk1 & Hk2); [lia|].
  set (z := H2FMBASE (fi_bnext iter) 30) in *. rewrite u64_small by lia. cbv zeta.
  assert (Hzz : z / 2 ^ 30 = fi_bnext iter / 2 ^ 30).
  { destruct Hd as [c ->]. change (2 ^ 30) with 1073741824 in *. div_mod_lia. }
  assert (Hzt : z / 2 ^ 30 <= dv_total_size h / 2 ^ 30) by (apply Z.div_le_mono; lia).
  assert (Hz0 : 0 <= z / 2 ^ 30) by (apply Z.div_pos; lia).
  assert (Hal : z = H2FMBASE z 30) by (symmetry; apply H2FMBASE_aligned; exact Hd).
  assert (Hcover : fi_relaxed iter <> 0 -> 1 <= fi_loops iter ->
            forall key, (2 ^ 30 | key) -> 0 <= key < z + 2 ^ 30 -> zone_exhausted h key radix).
  { intros Hr1 Hl1 key Hdk Hk. destruct (Hsw Hr1 Hl1) as [Hb Hsw']. fold z in Hb.
    destruct (zone_below key z Hdk Hal ltac:(lia) ltac:(lia)) as [->|]; [rewrite <- Hb; auto|].
    apply Hsw'; [exact Hdk|lia]. }
  unfold remaining, passes. unfold zones.
  destruct (Z.leb_spec (dv_total_size h) (z + 2 ^ 30)) as [Hend|Hmore].
  - destruct (Z.leb_spec 2 (fi_loops iter + 1)) as [Hl2|Hl2];
      destruct (Z.eqb_spec (fi_relaxed iter) 0) as [Hr0|Hr0].
    + specialize (Hps Hr0). apply iterate_again.
      * constructor; cbn; lia.
      * intros _ _. cbn [fi_bnext]. split; [reflexivity|intros; lia].
      * unfold remaining, passes, zones. cbn [fi_bnext fi_relaxed fi_loops].
        rewrite Hr0. change (1 =? 0) with false. change (0 =? 0) with true. cbv iota.
        replace (fi_loops iter + 1 =? 0) with false by lia. change (0 / 2 ^ 30) with 0. nia.
    + apply iterate_enospc; [|reflexivity]. intros key Hdk Hk. apply Hcover; auto; lia.
    + apply iterate_again.
      * constructor; cbn; lia.
      * intros Hr1. cbn in Hr1. contradiction.
      * unfold remaining, passes, zones. cbn [fi_bnext fi_relaxed fi_loops].
        rewrite Hr0. change (0 =? 0) with true. cbv iota. change (0 / 2 ^ 30) with 0. nia.
    + apply iterate_again.
      * constructor; cbn; try lia.
      * intros _ _. cbn [fi_bnext]. split; [reflexivity|intros; lia].
      * unfold remaining, passes, zones. cbn [fi_bnext fi_relaxed fi_loops].
        replace (fi_relaxed iter =? 0) with false by lia.
        replace (fi_loops iter + 1 =? 0) with false by lia.
        replace (fi_loops iter =? 0) with true by lia. change (0 / 2 ^ 30) with 0. nia.
  - apply iterate_again.
    + constructor; cbn; try lia; try exact Hps.
    + intros Hr1 Hl1. cbn [fi_bnext fi_relaxed fi_loops] in *. split.
      * symmetry. apply H2FMBASE_aligned. apply Z.divide_add_r; [exact Hd|apply Z.divide_refl].
      * intros key Hdk Hk. apply Hcover; auto.
    + unfold remaining, passes. cbn [fi_bnext fi_relaxed fi_loops].
      replace ((z + 2 ^ 30) / 2 ^ 30) with (z / 2 ^ 30 + 1); [lia|].
      rewrite <- (Z.div_add z 1) by lia. f_equal.
Qed.

Lemma swept_extends h h' iter radix :
  extends h h' -> swept h iter radix -> swept h' iter radix.
Proof.
  intros Hex Hsw Hr Hl. destruct (Hsw Hr Hl) as [Hb Hk]. split; [exact Hb|].
  intros. eapply zone_exhausted_extends; eauto.
Qed.

Inductive loop_result h (bref : blockref) (radix : Z)
  : Z * dev T IO * blockref * fiterate -> Prop :=
| loop_done h' off iter' :
    allocated h (class_of bref) radix h' off -> 0 <= fi_bnext iter' <= dv_total_size h ->
    loop_result h bref radix (0, h', set_data_off (off .| radix) bref, iter')
| loop_eio h' iter' :
    extends h h' -> dev_ok h' -> bad_leaf h' -> 0 <= fi_bnext iter' <= dv_total_size h ->
    loop_result h bref radix (HAMMER2_ERROR_EIO, h', bref, iter')
| loop_enospc h' iter' :
    extends h h' -> dev_ok h' -> all_exhausted h' radix -> fi_bnext iter' = 0 ->
    loop_result h bref radix (HAMMER2_ERROR_ENOSPC, h', bref, iter').

Lemma loop_result_extends h h1 bref radix r :
  extends h h1 -> loop_result h1 bref radix r -> loop_result h bref radix r.
Proof.
  intros Hex Hr. pose proof (ex_total _ _ Hex) as Et. destruct Hr.
  - apply loop_done; [eapply allocated_extends; eauto|congruence].
  - apply loop_eio; auto; [eapply extends_trans; eauto|congruence].
  - apply loop_enospc; auto. eapply extends_trans; eauto.
Qed.

Lemma alloc_loop_spec fuel : forall h bref radix iter mtid,
  dev_ok h -> radix_ok radix -> bref_ok bref radix ->
  iter_ok (dv_total_size h) iter -> swept h iter radix ->
  remaining (dv_total_size h) iter <= Z.of_nat fuel -> (0 < fuel)%nat ->
  exists r, alloc_loop fuel h bref radix iter mtid = Done r /\ loop_result h bref radix r.
Proof.
  induction fuel as [|fuel IH]; intros h bref radix iter mtid Hok Hr Hb Hit Hsw Hm Hf; [lia|].
  cbn [alloc_loop]. destruct (do_geom _ Hok) as [Ht _]. pose proof (io_bnext _ _ Hit) as Hbn.
  destruct (try_alloc_spec h bref radix iter mtid) as (r & -> & Hres); try assumption; [lia|].
  cbn [obind]. inversion Hres as [h' off Hal|Hbad|h' Hex Hok' Hz]; subst.
  - change (0 =? HAMMER2_ERROR_EAGAIN) with false.
    eexists. split; [reflexivity|]. apply loop_done; assumption.
  - change (HAMMER2_ERROR_EIO =? HAMMER2_ERROR_EAGAIN) with false.
    eexists. split; [reflexivity|]. apply loop_eio; auto. apply extends_refl.
  - pose proof (ex_total _ _ Hex) as Et. rewrite <- Et in *.
    pose proof (iterate_spec h' iter radix Ht Hit (swept_extends _ _ _ _ Hex Hsw) Hz) as Hi.
    destruct Hi as [iter' Hall Hb0|iter' Hit' Hsw' Hdec]; cbn [fst snd].
    + change (HAMMER2_ERROR_ENOSPC =? HAMMER2_ERROR_EAGAIN) with false.
      eexists. split; [reflexivity|]. apply loop_enospc; auto.
    + change (HAMMER2_ERROR_EAGAIN =? HAMMER2_ERROR_EAGAIN) with true. cbv iota.
      assert (Hpos : 0 < remaining (dv_total_size h') iter').
      { unfold remaining, passes, zones. pose proof (io_bnext _ _ Hit').
        pose proof (io_passes _ _ Hit'). pose proof (io_loops _ _ Hit').
        assert (fi_bnext iter' / 2 ^ 30 <= dv_total_size h' / 2 ^ 30) by (apply Z.div_le_mono; lia).
        assert (0 <= dv_total_size h' / 2 ^ 30) by (apply Z.div_pos; lia).
        destruct (Z.eqb_spec (fi_relaxed iter') 0); [nia|]. destruct (_ =? 0); nia. }
      destruct (IH h' bref radix iter' mtid) as (r & -> & Hlr); auto; try lia.
      eexists. split; [reflexivity|]. eapply loop_result_extends; eauto.
Qed.

(** * [hammer2_freemap_alloc] *)

(** Same volume and same leaves: only bookkeeping differs. *)
Definition same_leaves h h' : Prop :=
  dv_total_size h' = dv_total_size h /\ dv_allocator_beg h' = dv_allocator_beg h
  /\ forall k, leaf_at h' k = leaf_at h k.

Lemma dev_ok_same h h' : same_leaves h h' -> dev_ok h -> dev_ok h'.
Proof.
  intros (Ht & Hb & Hl) [Hg Hlf]. constructor; rewrite Ht, Hb; [exact Hg|].
  intros key lf Hd Hk. rewrite Hl. apply Hlf; assumption.
Qed.

Definition heur_ok h : Prop :=
  length (dv_heur_freemap h) = 32%nat
  /\ forall i, 0 <= i < 32 -> 0 <= aget (dv_heur_freemap h) i < 2 ^ 64.

(** A request the allocator serves from the freemap. *)
Definition data_request (bref : blockref) (radix : Z) : Prop :=
  radix_ok radix /\ bref_ok bref radix
  /\ br_type bref <> HAMMER2_BREF_TYPE_FREEMAP_NODE
  /\ br_type bref <> HAMMER2_BREF_TYPE_FREEMAP_LEAF.

(** The result of the call, against the device as [hammer2_trans_sub] leaves it. *)
Definition alloc_spec h (bref : blockref) (radix : Z) (r : Z * dev T IO * blockref) : Prop :=
  exists h0 h1 e h' bref' iter',
    r = (e, h', bref') /\ same_leaves h h0 /\ dv_allocator_free h0 = dv_allocator_free h
    /\ loop_result h0 bref radix (e, h1, bref', iter')
    /\ same_leaves h1 h' /\ dv_allocator_free h' = dv_allocator_free h1 /\ heur_ok h'.

Lemma heur_extends h h' : extends h h' -> heur_ok h -> heur_ok h'.
Proof. intros Hex. unfold heur_ok. rewrite (ex_heur _ _ Hex). auto. Qed.

Lemma loop_result_heur h bref radix r : loop_result h bref radix r -> heur_ok h -> heur_ok r.1.1.2.
Proof.
  intros [h' off it Hal _|h' it Hex _ _ _|h' it Hex _ _ _] Hh; cbn.
  - destruct Hal. unfold heur_ok in *.
    match goal with E : dv_heur_freemap _ = dv_heur_freemap _ |- _ => rewrite E end. exact Hh.
  - eapply heur_extends; eauto.
  - eapply heur_extends; eauto.
Qed.

Lemma loop_result_iter h bref radix r :
  0 < dv_total_size h -> loop_result h bref radix r ->
  0 <= fi_bnext r.2 <= dv_total_size h.
Proof. intros Ht []; cbn; lia. Qed.

Lemma freemap_alloc_spec h bref radix :
  dev_ok h -> heur_ok h -> data_request bref radix ->
  exists r, hammer2_freemap_alloc h bref (1 .<< radix) = Done r /\ alloc_spec h bref radix r.
Proof.
  intros Hok Hheur (Hr & Hb & Ht1 & Ht2). unfold hammer2_freemap_alloc.
  pose proof (size_nblk radix Hr) as [Hs _]. destruct (do_geom _ Hok) as [Hgt _].
  rewrite size_eq. replace (2 ^ radix =? 0) with false by lia.
  cbn [hammer2_trans_sub]. rewrite getradix_pow2 by (unfold radix_ok in Hr; lia). cbn [obind].
  rewrite size_eq, u64_small by lia. rewrite assert_true by lia.
  replace (br_type bref =? HAMMER2_BREF_TYPE_FREEMAP_NODE) with false by lia.
  replace (br_type bref =? HAMMER2_BREF_TYPE_FREEMAP_LEAF) with false by lia.
  cbn [orb]. rewrite assert_true by lia. rewrite assert_true by reflexivity. cbv zeta.
  set (h0 := set_dev_modify_tid _ h).
  assert (Hsl : same_leaves h h0) by (repeat split).
  set (hindex := (_ .& (8 * 4 - 1)) : Z).
  assert (Hhi : 0 <= hindex < 32).
  { apply (land_range _ (8 * 4 - 1) 5); lia. }
  rewrite assert_true by lia.
  set (bpref := if dv_total_size h0 <? _ then _ else _).
  assert (Hbp : 0 <= bpref <= dv_total_size h).
  { unfold bpref, h0. cbn. destruct Hheur as [_ Hh]. specialize (Hh hindex Hhi).
    destruct (Z.ltb_spec (dv_total_size h) (aget (dv_heur_freemap h) hindex)); [|lia].
    rewrite u64_small; lia. }
  set (iter := Fiter bpref bpref 0 (dv_freemap_relaxed h0)).
  destruct (alloc_loop_spec (alloc_fuel (dv_total_size h0)) h0 bref radix iter (dv_modify_tid h))
    as ([[[e h1] bref'] iter'] & Hrun & Hres); try assumption.
  - eapply dev_ok_same; eauto.
  - constructor; cbn; lia.
  - intros _ H. cbn in H. lia.
  - unfold alloc_fuel, remaining, passes, zones, iter. cbn [fi_bnext fi_relaxed fi_loops].
    change HAMMER2_FREEMAP_LEVEL1_SIZE with (2 ^ 30).
    assert (0 <= bpref / 2 ^ 30) by (apply Z.div_pos; lia).
    assert (0 <= dv_total_size h0 / 2 ^ 30) by (apply Z.div_pos; cbn; lia).
    destruct (_ =? 0); change (0 =? 0) with true; cbv iota; lia.
  - unfold alloc_fuel. change HAMMER2_FREEMAP_LEVEL1_SIZE with (2 ^ 30).
    assert (0 <= dv_total_size h0 / 2 ^ 30) by (apply Z.div_pos; cbn; lia). lia.
  - rewrite Hrun. cbn [obind]. eexists. split; [reflexivity|].
    pose proof (loop_result_heur _ _ _ _ Hres Hheur) as [Hl1 Hl2]. cbn [fst snd] in Hl1, Hl2.
    pose proof (loop_result_iter h0 _ _ _ ltac:(cbn; lia) Hres) as Hit. cbn in Hit.
    eexists h0, h1, e, _, bref', iter'. split; [reflexivity|]. split; [exact Hsl|].
    split; [reflexivity|]. split; [exact Hres|]. split; [repeat split|]. split; [reflexivity|].
    split; cbn.
    + unfold aset. rewrite length_insert. exact Hl1.
    + intros i Hi. destruct (decide (i = hindex)) as [->|].
      * rewrite aget_aset_eq by (unfold alen; lia). lia.
      * rewrite aget_aset_ne by lia. apply Hl2, Hi.
Qed.

Lemma alloc_spec_ok h bref radix r :
  dev_ok h -> alloc_spec h bref radix r -> dev_ok r.1.2 /\ heur_ok r.1.2.
Proof.
  intros Hok (h0 & h1 & e & h' & bref' & iter' & -> & _ & _ & Hres & Hsl & _ & Hheur). cbn.
  split; [|exact Hheur]. eapply dev_ok_same; [exact Hsl|].
  inversion Hres; subst; auto. eapply allocated_dev_ok; eauto.
Qed.

(** ** Ownership across the device *)

Definition dev_range_owned h (r : range) : Prop :=
  exists key n lf, (2 ^ 30 | key) /\ 0 <= key < 2 ^ 62 /\ 0 <= n < 256
    /\ leaf_at h key = Some lf
    /\ range_owned (aget (lf_bmdata lf) n) (r.1 - (key + n * 4194304), r.2).

Record dev_owned h (R : list range) : Prop := {
  dow_ranges : Forall (dev_range_owned h) R;
  dow_disjoint : ForallOrdPairs disjoint_ranges R
}.

Lemma dev_range_owned_extends h h' r :
  extends h h' -> dev_range_owned h r -> dev_range_owned h' r.
Proof.
  intros Hex (key & n & lf & Hd & Hk & Hn & Hl & Ho).
  destruct (ex_leaf _ _ Hex _ _ Hl) as (lf' & Hl' & Hb & _).
  exists key, n, lf'. rewrite Hb. auto.
Qed.

Lemma dev_range_owned_same h h' r :
  same_leaves h h' -> dev_range_owned h r -> dev_range_owned h' r.
Proof.
  intros (_ & _ & Hl) (key & n & lf & H). exists key, n, lf. rewrite Hl. exact H.
Qed.

Lemma element_split key n key' n' :
  (2 ^ 30 | key) -> (2 ^ 30 | key') -> 0 <= n < 256 -> 0 <= n' < 256 ->
  (key = key' /\ n = n')
  \/ key + n * 4194304 + 4194304 <= key' + n' * 4194304
  \/ key' + n' * 4194304 + 4194304 <= key + n * 4194304.
Proof. intros [c ->] [c' ->]. change (2 ^ 30) with (256 * 4194304). lia. Qed.

(** The new range is disjoint from every owned one, and all stay owned. *)
Lemma dev_owned_step h class radix h' off R :
  dev_ok h -> radix_ok radix -> allocated h class radix h' off ->
  dev_owned h R -> dev_owned h' ((off, 2 ^ radix) :: R).
Proof.
  intros Hok Hr Hal [HR Hdj].
  destruct Hal as [h1 key n lf h2 bm' h' off lf' Hex Hok1 Hd Hk Hlf Hn Hnr Hres
                   _ _ _ _ _ Hlf' Hbm' _ Hoth _].
  pose proof (do_leaf _ Hok1 _ _ Hd ltac:(lia) Hlf) as Hlo.
  assert (Hel := lfo_elem _ _ _ _ Hlo n Hn).
  assert (Halen : alen (lf_bmdata lf) = 256) by (unfold alen; rewrite (lfo_len _ _ _ _ Hlo); reflexivity).
  inversion Hres as [|h3 bm1 i k offset linear Hi Hk' Hkm Hc _ _ Hok' Hmk Hl _ _]; subst.
  pose proof (choice_range _ _ _ _ _ _ Hr Hel Hi Hk' Hkm Hc) as Hcr.
  pose proof (pow2_pos radix ltac:(unfold radix_ok in Hr; lia)) as Hpos.
  rewrite u64_small by lia.
  assert (Hget : forall m, 0 <= m < 256 ->
            aget (lf_bmdata lf') m = if m =? n then bm' else aget (lf_bmdata lf) m).
  { intros m Hm. rewrite Hbm'. destruct (Z.eqb_spec m n) as [->|].
    - apply aget_aset_eq. lia.
    - apply aget_aset_ne; lia. }
  assert (Hboth : forall r, dev_range_owned h r ->
            dev_range_owned h' r
            /\ disjoint_ranges (key + n * 4194304 + offset, 2 ^ radix) r).
  { intros r Hro. apply (dev_range_owned_extends h h1) in Hro; [|exact Hex].
    destruct Hro as (key' & n' & lf0 & Hd' & Hk0 & Hn' & Hl0 & Ho).
    pose proof (ro_range _ _ Ho) as Hrr. cbn in Hrr.
    destruct (element_split key n key' n' Hd Hd' Hn Hn') as [[<- <-]|Hsep].
    - rewrite Hlf in Hl0. injection Hl0 as <-. split.
      + exists key, n, lf'. rewrite Hget, Z.eqb_refl by exact Hn.
        split; [exact Hd|]. split; [exact Hk|]. split; [exact Hn|]. split; [exact Hlf'|].
        eapply (range_owned_after (aget (lf_bmdata lf) n)); eauto.
      + pose proof (choice_disjoint _ _ _ _ _ _ _ Hr Hel Hi Hk' Hkm Hc Ho) as Hcd.
        unfold disjoint_ranges in *. cbn in *. lia.
    - split.
      + exists key', n'. destruct (decide (key' = key)) as [->|Hne].
        * rewrite Hlf in Hl0. injection Hl0 as <-. exists lf'. rewrite Hget by exact Hn'.
          replace (n' =? n) with false by lia. auto.
        * exists lf0. rewrite Hoth by exact Hne. auto.
      + unfold disjoint_ranges. cbn. lia. }
  rewrite List.Forall_forall in HR. split.
  - constructor; [|apply List.Forall_forall; intros x Hx; apply Hboth, HR, Hx].
    exists key, n, lf'. rewrite Hget, Z.eqb_refl by exact Hn. cbn [fst snd].
    replace (key + n * 4194304 + offset - (key + n * 4194304)) with offset by lia.
    split; [exact Hd|]. split; [exact Hk|]. split; [exact Hn|]. split; [exact Hlf'|].
    eapply (range_owned_new (aget (lf_bmdata lf) n)); eauto.
  - constructor; [|exact Hdj]. apply List.Forall_forall. intros x Hx. apply Hboth, HR, Hx.
Qed.

(** ** The blocks of a request *)

(** The element and the bitmap field of the 16KB block at a device offset. *)
Definition element_at h o : bmap_data :=
  aget (elements h (H2FMBASE o 30)) (o mod HAMMER2_FREEMAP_LEVEL1_SIZE / HAMMER2_SEGSIZE).
Definition block_state h o : Z := blk (element_at h o) (o mod HAMMER2_SEGSIZE / HAMMER2_FREEMAP_BLOCK_SIZE).

(** A request of [2^radix] bytes was served with the range at [off]: 16KB blocks and
    more are aligned to their size, and the range is in one 4MB element of one zone;
    its blocks were free, or it continues the partially used block that the linear
    iterator of the element points into; afterwards its blocks are marked, and no other
    block of the device is; no range handed out before meets it. *)
Record served h h' off radix : Prop := {
  sv_align : HAMMER2_FREEMAP_BLOCK_SIZE <= 2 ^ radix -> (2 ^ radix | off);
  sv_element : (off + 2 ^ radix - 1) / HAMMER2_SEGSIZE = off / HAMMER2_SEGSIZE;
  sv_free : (forall o, off <= o < off + 2 ^ radix -> block_state h o = 0)
            \/ (off mod HAMMER2_SEGSIZE = bm_linear (element_at h off)
                /\ off mod HAMMER2_FREEMAP_BLOCK_SIZE <> 0
                /\ off mod HAMMER2_FREEMAP_BLOCK_SIZE + 2 ^ radix <= HAMMER2_FREEMAP_BLOCK_SIZE);
  sv_marked o : 0 <= o ->
    block_state h' o =
      if (off / HAMMER2_FREEMAP_BLOCK_SIZE <=? o / HAMMER2_FREEMAP_BLOCK_SIZE)
         && (o / HAMMER2_FREEMAP_BLOCK_SIZE <=? (off + 2 ^ radix - 1) / HAMMER2_FREEMAP_BLOCK_SIZE)
      then 3 else block_state h o;
  sv_owned : dev_range_owned h' (off, 2 ^ radix);
  sv_disjoint r : dev_range_owned h r -> disjoint_ranges (off, 2 ^ radix) r
}.

Lemma block_state_elements h h' o : (forall key, elements h' key = elements h key) -> block_state h' o = block_state h o.
Proof. intros H. unfold block_state, element_at. rewrite H. reflexivity. Qed.
Lemma elements_same h h' key : same_leaves h h' -> elements h' key = elements h key.
Proof. intros (Ht & Hb & Hl). unfold elements. rewrite Ht, Hb, Hl. reflexivity. Qed.

(** The zone and the index of the element of an offset. *)
Lemma element_of_offset key n o : (2 ^ 30 | key) -> 0 <= n < 256 -> 0 <= o ->
  key + n * 4194304 <= o < key + n * 4194304 + 4194304 ->
  H2FMBASE o 30 = key /\ o mod HAMMER2_FREEMAP_LEVEL1_SIZE / HAMMER2_SEGSIZE = n
  /\ o mod HAMMER2_SEGSIZE = o - (key + n * 4194304).
Proof.
  intros [c ->] Hn Ho Hb. rewrite H2FMBASE_eq by lia. change (2 ^ 30) with 1073741824 in *. div_mod_lia.
Qed.
Lemma other_element key n o : (2 ^ 30 | key) -> 0 <= n < 256 -> 0 <= o ->
  ~ (key + n * 4194304 <= o < key + n * 4194304 + 4194304) ->
  H2FMBASE o 30 <> key \/ o mod HAMMER2_FREEMAP_LEVEL1_SIZE / HAMMER2_SEGSIZE <> n.
Proof.
  intros [c ->] Hn Ho Hb. rewrite H2FMBASE_eq by lia. change (2 ^ 30) with 1073741824 in *. div_mod_lia.
Qed.
Lemma element_index o : 0 <= o mod HAMMER2_FREEMAP_LEVEL1_SIZE / HAMMER2_SEGSIZE < 256.
Proof. div_mod_lia. Qed.

(** What the bitmap of one element tells of the device: [bm'] is [bm] with the run marked. *)
Lemma allocated_elements h class radix h' off : dev_ok h -> radix_ok radix -> allocated h class radix h' off ->
  exists key n bm' i k offset linear,
    (2 ^ 30 | key) /\ 0 <= key < 2 ^ 62 /\ 0 <= n < 256 /\ off = key + n * 4194304 + offset
    /\ 0 <= i < 8 /\ 0 <= k /\ k + nblk radix <= 32
    /\ bmap_ok (aget (elements h key) n) /\ choice (aget (elements h key) n) radix i k offset linear
    /\ marked (aget (elements h key) n) bm' (32 * i + k) (nblk radix)
    /\ forall o, 0 <= o -> element_at h' o =
         if decide (key + n * 4194304 <= o < key + n * 4194304 + 4194304) then bm' else element_at h o.
Proof.
  intros Hok Hr [h1 key n lf h2 bm' h'' off' lf' Hex Hok1 Hd Hk Hlf Hn Hnr Hres Ht' Hb' _ _ _ Hlf' Hbm' _ Hoth _].
  pose proof (do_leaf _ Hok1 _ _ Hd ltac:(lia) Hlf) as Hlo. pose proof (lfo_elem _ _ _ _ Hlo n Hn) as Hel.
  assert (Halen : alen (lf_bmdata lf) = 256) by (unfold alen; rewrite (lfo_len _ _ _ _ Hlo); reflexivity).
  assert (He : elements h key = lf_bmdata lf) by (rewrite <- (ex_elements _ _ Hex); unfold elements; rewrite Hlf; reflexivity).
  inversion Hres as [|h3 bm1 i k offset linear Hi Hk' Hkm Hc _ _ _ Hmk _ _ _]; subst.
  pose proof (choice_range _ _ _ _ _ _ Hr Hel Hi Hk' Hkm Hc) as Hcr.
  pose proof (pow2_pos radix ltac:(unfold radix_ok in Hr; lia)).
  exists key, n, bm', i, k, offset, linear. rewrite He, u64_small by lia.
  split; [exact Hd|]. split; [exact Hk|]. split; [exact Hn|]. split; [reflexivity|]. split; [exact Hi|]. split; [exact Hk'|].
  split; [exact Hkm|]. split; [exact Hel|]. split; [exact Hc|]. split; [exact Hmk|].
  intros o Ho. unfold element_at. destruct (decide _) as [Hin|Hout].
  - destruct (element_of_offset key n o Hd Hn Ho Hin) as (-> & -> & _). unfold elements. rewrite Hlf', Hbm'. apply aget_aset_eq. lia.
  - destruct (decide (H2FMBASE o 30 = key)) as [Ek|Hne].
    + destruct (other_element key n o Hd Hn Ho Hout) as [E|E]; [contradiction|]. rewrite Ek, He. unfold elements. rewrite Hlf', Hbm'.
      pose proof (element_index o). apply aget_aset_ne; lia.
    + rewrite <- (ex_elements _ _ Hex). unfold elements. rewrite Hoth by exact Hne.
      rewrite Ht', Hb', (ex_total _ _ Hex), (ex_beg _ _ Hex). reflexivity.
Qed.

Lemma allocated_served h class radix h' off :
  dev_ok h -> radix_ok radix -> allocated h class radix h' off -> served h h' off radix.
Proof.
  intros Hok Hr Hal.
  assert (Hdj : forall r, dev_range_owned h r -> dev_owned h' [(off, 2 ^ radix); r]).
  { intros r Ho. apply (dev_owned_step h class); auto. split; [|repeat constructor]. repeat constructor. exact Ho. }
  assert (Hown : dev_range_owned h' (off, 2 ^ radix)).
  { assert (Ho : dev_owned h' [(off, 2 ^ radix)]) by (apply (dev_owned_step h class); auto; split; constructor).
    exact (List.Forall_inv (dow_ranges _ _ Ho)). }
  destruct (allocated_elements h class radix h' off Hok Hr Hal)
    as (key & n & bm' & i & k & offset & linear & Hd & Hk & Hn & -> & Hi & Hk' & Hkm & Hel & Hc & Hmk & He).
  pose proof (choice_range _ _ _ _ _ _ Hr Hel Hi Hk' Hkm Hc) as (C1 & C2 & _ & _ & _ & C3 & C4).
  pose proof (size_nblk radix Hr) as [Hs1 Hs2]. set (E := key + n * 4194304) in *.
  assert (HE : exists w, E = 4194304 * w /\ 0 <= w).
  { destruct Hd as [c ->]. exists (c * 256 + n). change (2 ^ 30) with 1073741824 in *. subst E. lia. }
  destruct HE as (w & Ew & Hw).
  assert (Hat : forall o, E <= o < E + 4194304 -> element_at h o = aget (elements h key) n /\ o mod HAMMER2_SEGSIZE = o - E).
  { intros o Ho. destruct (element_of_offset key n o Hd Hn ltac:(lia) Ho) as (E1 & E2 & E3). unfold element_at. rewrite E1, E2. auto. }
  assert (Hm : 2 ^ radix < 16384 /\ nblk radix = 1 \/ 2 ^ radix = 16384 * nblk radix).
  { destruct (nblk_cases radix Hr) as [[E1 ?]|[[E1 ?]|[E1 ?]]]; rewrite E1 in *; revert Hs2; destruct (Z.ltb_spec radix 14); lia. }
  constructor; [| | | |exact Hown|].
  - intros Hbig. destruct Hm as [Hm|Hm]; [lia|]. rewrite Hm.
    destruct Hc as [H14|_ [q Hq]]; [rewrite (proj2 (Z.ltb_lt radix 14) H14) in Hs2; lia|].
    destruct (nblk_divides_32 radix Hr) as [_ [u Hu]]. exists (u * i + q + 8 * u * w). rewrite Ew, Hq.
    replace (4194304 * w) with (16384 * (8 * 32 * w)) by lia. rewrite Hu. ring.
  - change HAMMER2_SEGSIZE with 4194304. rewrite Ew. clear - C1 C2 Hs1. div_mod_lia.
  - revert C1 C2 C3 C4. destruct Hc as [H14 Hmid Hfit Hb|Hz _]; intros C1 C2 C3 C4.
    + right. assert (Hin : E <= E + bm_linear (aget (elements h key) n) < E + 4194304) by lia. destruct (Hat _ Hin) as [-> ->].
      replace ((E + bm_linear (aget (elements h key) n)) mod HAMMER2_FREEMAP_BLOCK_SIZE)
        with (bm_linear (aget (elements h key) n) mod 16384) by (rewrite Ew; clear; div_mod_lia).
      split; [lia|]. split; [exact Hmid|exact Hfit].
    + left. intros o Ho. unfold block_state. assert (Hin : E <= o < E + 4194304) by lia. destruct (Hat o Hin) as [-> ->]. apply Hz.
      clear - Ho C4 Hs1. change HAMMER2_FREEMAP_BLOCK_SIZE with 16384. div_mod_lia.
  - intros o Ho. change HAMMER2_FREEMAP_BLOCK_SIZE with 16384. unfold block_state. rewrite He by exact Ho.
    assert (Hend : (E + offset + 2 ^ radix - 1) / 16384 = 256 * w + (32 * i + k + nblk radix - 1)).
    { symmetry. apply (Z.div_unique _ _ _ (offset + 2 ^ radix - 1 - 16384 * (32 * i + k + nblk radix - 1))); [left|]; lia. }
    assert (Hbeg : (E + offset) / 16384 = 256 * w + (32 * i + k)).
    { symmetry. apply (Z.div_unique _ _ _ (offset - 16384 * (32 * i + k))); [left|]; lia. }
    rewrite Hbeg, Hend. destruct (decide _) as [Hin|Hout].
    + destruct (Hat o Hin) as [-> ->]. rewrite Hmk by (clear - Hin Ew; div_mod_lia).
      assert (Hc' : o / 16384 = 256 * w + (o - E) / 16384) by (rewrite Ew; clear; div_mod_lia). rewrite Hc'.
      match goal with |- (if ?a then _ else _) = (if ?b then _ else _) => replace b with a; [reflexivity|] end. lia.
    + match goal with |- _ = (if ?b then _ else _) => replace b with false; [reflexivity|] end. symmetry. apply andb_false_iff.
      assert (Hc' : o / 16384 < 256 * w \/ 256 * w + 256 <= o / 16384) by (clear - Hout Ew; div_mod_lia).
      rewrite !Z.leb_gt. lia.
  - intros r Ho. pose proof (dow_disjoint _ _ (Hdj r Ho)) as Hp. inversion Hp as [|? ? Hf _]; subst. exact (List.Forall_inv Hf).
Qed.


Lemma served_same h h0 h1 h' off radix :
  same_leaves h h0 -> same_leaves h1 h' -> served h0 h1 off radix -> served h h' off radix.
Proof.
  intros H0 H1 [A B C D E G].
  assert (E0 : forall o, element_at h0 o = element_at h o) by (intros o; unfold element_at; rewrite (elements_same _ _ _ H0); reflexivity).
  assert (E1 : forall o, block_state h' o = block_state h1 o) by (intros o; apply block_state_elements; intros; apply elements_same, H1).
  assert (E2 : forall o, block_state h0 o = block_state h o) by (intros o; apply block_state_elements; intros; apply elements_same, H0).
  constructor; [exact A|exact B| | | |].
  - rewrite <- E0. destruct C as [C|C]; [left|right; exact C]. intros o Ho. rewrite <- E2. apply C, Ho.
  - intros o Ho. rewrite E1, D, E2 by exact Ho. reflexivity.
  - eapply dev_range_owned_same; eassumption.
  - intros r Hr. apply G. eapply dev_range_owned_same; eassumption.
Qed.
Lemma data_off_split off radix :
  radix_ok radix -> (1024 | off) ->
  (off .| radix) .&~ HAMMER2_OFF_MASK_RADIX6 = off /\ (off .| radix) .& HAMMER2_OFF_MASK_RADIX6 = radix.
Proof.
  intros Hr [c ->]. unfold radix_ok in Hr.
  rewrite (lor_disjoint _ radix 6) by (try exists (c * 16); lia).
  change HAMMER2_OFF_MASK_RADIX6 with (Z.ones 6).
  rewrite ldiff_ones, Z.land_ones by lia. change (2 ^ 6) with 64. split; div_mod_lia.
Qed.

(** What the call promises: the range it hands out, or an error. *)
Lemma alloc_spec_cases h bref radix e h' bref' :
  dev_ok h -> radix_ok radix -> alloc_spec h bref radix (e, h', bref') ->
  (forall r, dev_range_owned h r -> dev_range_owned h' r)
  /\ ((e = 0 /\ exists off, bref' = set_data_off (off .| radix) bref
          /\ (1024 | off) /\ dv_allocator_beg h <= off /\ off + 2 ^ radix <= dv_total_size h
          /\ 4194304 <= off mod 2 ^ 30 /\ served h h' off radix)
       \/ (e <> 0 /\ bref' = bref /\ (forall o, block_state h' o = block_state h o)
           /\ (e = HAMMER2_ERROR_EIO /\ bad_leaf h' \/ e = HAMMER2_ERROR_ENOSPC /\ all_exhausted h' radix))).
Proof.
  intros Hok Hr (h0 & h1 & e0 & h2 & bref2 & it & E & Hsl & _ & Hres & Hsl' & _). injection E as <- <- <-.
  assert (Hback : (forall r, dev_range_owned h0 r -> dev_range_owned h1 r) -> forall r, dev_range_owned h r -> dev_range_owned h' r)
    by (intros H r Ho; eapply dev_range_owned_same, H, dev_range_owned_same; eassumption).
  assert (Hsame : extends h0 h1 -> forall o, block_state h' o = block_state h o).
  { intros Hex o. apply block_state_elements. intros key.
    rewrite (elements_same _ _ _ Hsl'), (ex_elements _ _ Hex). apply elements_same, Hsl. }
  inversion Hres as [h2 off it' Hal|h2 it' Hex _ Hbad|h2 it' Hex _ Hall]; subst.
  - assert (Hok0 : dev_ok h0) by (eapply dev_ok_same; eauto).
    pose proof (allocated_bounds _ _ _ _ _ Hok0 Hr Hal) as (B1 & B2 & B3 & B4).
    pose proof (served_same _ _ _ _ _ _ Hsl Hsl' (allocated_served _ _ _ _ _ Hok0 Hr Hal)) as Hsv.
    destruct Hsl as (Ht & Hb & Hl). rewrite Ht, Hb in *. split; [|left; split; [reflexivity|exists off; auto 10]].
    apply Hback. intros r Ho. assert (Hp : dev_owned h1 [(off, 2 ^ radix); r]).
    { apply (dev_owned_step h0 (class_of bref)); auto. split; repeat constructor. exact Ho. }
    exact (List.Forall_inv (List.Forall_inv_tail (dow_ranges _ _ Hp))).
  - split; [apply Hback; intros r; apply dev_range_owned_extends, Hex|]. right. split; [discriminate|]. split; [reflexivity|].
    split; [exact (Hsame Hex)|]. left. split; [reflexivity|].
    destruct Hbad as (k & lf & Hk & He). exists k, lf. destruct Hsl' as (_ & _ & Hl'). rewrite Hl'. auto.
  - split; [apply Hback; intros r; apply dev_range_owned_extends, Hex|]. right. split; [discriminate|]. split; [reflexivity|].
    split; [exact (Hsame Hex)|]. right. split; [reflexivity|].
    destruct Hsl' as (Ht' & _ & Hl'). intros key Hdk Hk.
    rewrite Ht' in Hk. destruct (Hall key Hdk Hk) as (lf & Hlf & Hn). exists lf. rewrite Hl'. auto.
Qed.
End search.

(** * Properties of the allocator *)

Section sequences.
Context {T IO : Type} `{!LeafStore T} `{!LeafStoreLaws T} `{!IoOps IO} `{!IoTotal IO}.

(** Serve the requests in order, collecting the device ranges handed out. *)
Fixpoint freemap_alloc_all (rqs : list (blockref * Z)) (h : dev T IO) (R : list range)
  : outcome (dev T IO * list range) :=
  match rqs with
  | [] => Done (h, R)
  | (bref, radix) :: rqs =>
      let! (error, h, bref) := hammer2_freemap_alloc h bref (1 .<< radix) in
      freemap_alloc_all rqs h
        (if error =? 0
         then (br_data_off bref .&~ HAMMER2_OFF_MASK_RADIX6, 1 .<< radix) :: R else R)
  end.

Lemma freemap_alloc_all_owned rqs : forall (h : dev T IO) R,
  Forall (fun rq => data_request rq.1 rq.2) rqs -> dev_ok h -> heur_ok h -> dev_owned h R ->
  exists h' R', freemap_alloc_all rqs h R = Done (h', R') /\ dev_ok h' /\ dev_owned h' R'.
Proof.
  induction rqs as [|[bref radix] rqs IH]; intros h R Hrq Hok Hheur Hown; cbn [freemap_alloc_all].
  { eauto. }
  inversion Hrq as [|? ? Hd Hrqs]; subst. cbn [fst snd] in Hd.
  destruct (freemap_alloc_spec h bref radix Hok Hheur Hd) as (r & -> & Hspec).
  pose proof (alloc_spec_ok _ _ _ _ Hok Hspec) as [Hok' Hheur'].
  destruct Hspec as (h0 & h1 & e & h' & bref' & it & -> & Hsl & _ & Hres & Hsl' & _).
  cbn [obind fst snd] in *. apply IH; auto.
  assert (Hown0 : dev_owned h0 R).
  { destruct Hown. split; [|assumption]. eapply List.Forall_impl; [|eassumption].
    intros. eapply dev_range_owned_same; eauto. }
  assert (Hback : forall R', dev_owned h1 R' -> dev_owned h' R').
  { intros R' []. split; [|assumption]. eapply List.Forall_impl; [|eassumption].
    intros. eapply dev_range_owned_same; eauto. }
  apply Hback. inversion Hres as [h2 off it' Hal|h2 it' Hex|h2 it' Hex]; subst.
  - change (0 =? 0) with true. cbv iota. cbn [set_data_off br_data_off].
    assert (Hok0 : dev_ok h0) by (eapply dev_ok_same; eauto).
    destruct Hd as [Hr _].
    pose proof (allocated_bounds _ _ _ _ _ Hok0 Hr Hal) as (_ & _ & _ & H1024).
    destruct (data_off_split off radix Hr H1024) as [-> _]. rewrite size_eq.
    eapply dev_owned_step; eauto.
  - change (HAMMER2_ERROR_EIO =? 0) with false. cbv iota. destruct Hown0. split; [|assumption].
    eapply List.Forall_impl; [|eassumption]. intros. eapply dev_range_owned_extends; eauto.
  - change (HAMMER2_ERROR_ENOSPC =? 0) with false. cbv iota. destruct Hown0. split; [|assumption].
    eapply List.Forall_impl; [|eassumption]. intros. eapply dev_range_owned_extends; eauto.
Qed.
End sequences.

(** C1. The device-wide allocator never hands out storage twice: any sequence of
    data, inode, indirect or dirent requests, across all 4MB elements, leaves
    and zones, terminates without panic and yields pairwise disjoint ranges. *)
Theorem freemap_alloc_no_overlap {T IO} `{!LeafStore T} `{!LeafStoreLaws T}
    `{!IoOps IO} `{!IoTotal IO} (h : dev T IO) rqs :
  dev_ok h -> heur_ok h -> Forall (fun rq => data_request rq.1 rq.2) rqs ->
  exists h' R, freemap_alloc_all rqs h [] = Done (h', R) /\ dev_ok h'
               /\ ForallOrdPairs disjoint_ranges R.
Proof.
  intros Hok Hheur Hrq.
  destruct (freemap_alloc_all_owned rqs h [] Hrq Hok Hheur) as (h' & R & Hrun & Hok' & [_ Hdj]).
  { split; constructor. }
  eauto.
Qed.

(** A volume of 4GB whose freemap has no leaf yet. *)
Definition volume_demo : dev (gmap Z leaf) (list (Z * Z * Z)) := dev_demo ∅.

Lemma volume_demo_ok : dev_ok volume_demo /\ heur_ok volume_demo.
Proof.
  split.
  - constructor; [unfold geometry; cbn; lia|]. intros key lf _ _ H. unfold leaf_at in H.
    cbn in H. rewrite lookup_empty in H. discriminate.
  - split; [reflexivity|]. intros i Hi. cbn [volume_demo dev_demo dv_heur_freemap].
    rewrite aget_replicate by lia. lia.
Qed.

(** A blockref of the given type and key. *)
Definition bref_of (type key : Z) : blockref := Bref type 0 0 0 key 0 0 0 0 0 0 [].

Lemma freemap_alloc_no_overlap_witness :
  exists h' R, @freemap_alloc_all _ _ gmap_store log_io
      [(bref_of 1 0, 10); (bref_of 3 65536, 16); (bref_of 2 7, 14)] volume_demo []
      = Done (h', R) /\ dev_ok h' /\ ForallOrdPairs disjoint_ranges R.
Proof.
  apply (@freemap_alloc_no_overlap _ _ gmap_store gmap_store_laws log_io log_io_total);
    try apply volume_demo_ok.
  repeat (apply List.Forall_cons || apply List.Forall_nil).
  all: split; [split; cbn; lia|split; [|split; cbn; lia]].
  all: split; [cbn; lia|cbn; intros Ht].
  - discriminate.
  - exists 1. reflexivity.
  - discriminate.
Defined.

(** C2. One allocation request against a well-formed volume terminates within
    the allocator's pass bound, never panics, and keeps the volume well formed.
    On success the blockref carries the radix and the offset of a range that was free,
    is 1KB-aligned (from 16KB on, aligned to its size), lies in one 4MB element of one
    zone, inside the volume, past the static allocation and outside the zone's reserved
    segment; every 16KB block it touches is marked afterwards and no other block of the
    device changes; "free" is that its blocks were clear in the bitmap, or that it
    continues the partly used block under the element's linear iterator, and no range
    handed out before meets it.  On failure the blockref and every block's state are
    untouched, and ENOSPC is reported only when no element of any zone has room for the
    size. *)
Theorem freemap_alloc_correct {T IO} `{!LeafStore T} `{!LeafStoreLaws T}
    `{!IoOps IO} `{!IoTotal IO} (h : dev T IO) bref radix :
  dev_ok h -> heur_ok h -> data_request bref radix ->
  exists e h' bref',
    hammer2_freemap_alloc h bref (1 .<< radix) = Done (e, h', bref') /\ dev_ok h' /\ heur_ok h'
    /\ ((e = 0 /\ exists off,
           bref' = set_data_off (off .| radix) bref
           /\ br_data_off bref' .&~ HAMMER2_OFF_MASK_RADIX6 = off
           /\ br_data_off bref' .& HAMMER2_OFF_MASK_RADIX6 = radix
           /\ (HAMMER2_ALLOC_MIN | off)
           /\ dv_allocator_beg h <= off /\ off + (1 .<< radix) <= dv_total_size h
           /\ HAMMER2_ZONE_SEG <= off mod HAMMER2_FREEMAP_LEVEL1_SIZE
           /\ served h h' off radix)
        \/ (e <> 0 /\ bref' = bref /\ (forall o, block_state h' o = block_state h o)
            /\ (e = HAMMER2_ERROR_EIO /\ bad_leaf h'
                \/ e = HAMMER2_ERROR_ENOSPC /\ all_exhausted h' radix))).
Proof.
  intros Hok Hheur Hd. destruct (freemap_alloc_spec h bref radix Hok Hheur Hd) as ([[e h'] bref'] & -> & Hspec).
  pose proof (alloc_spec_ok _ _ _ _ Hok Hspec) as [Hok' Hheur'].
  exists e, h', bref'. split; [reflexivity|]. split; [exact Hok'|]. split; [exact Hheur'|].
  destruct Hd as [Hr _]. destruct (alloc_spec_cases _ _ _ _ _ _ Hok Hr Hspec) as [_ [(-> & off & -> & B1 & B2 & B3 & B4 & Hsv)|Herr]]; [left|right; exact Herr].
  split; [reflexivity|]. exists off. rewrite size_eq. cbn [set_data_off br_data_off]. destruct (data_off_split off radix Hr B1) as [-> ->].
  split_and!; auto.
Qed.

Lemma freemap_alloc_correct_witness :
  exists e h' bref',
    @hammer2_freemap_alloc _ _ gmap_store log_io volume_demo (bref_of 3 65536) (1 .<< 16)
      = Done (e, h', bref') /\ dev_ok h' /\ heur_ok h'
    /\ ((e = 0 /\ exists off,
           bref' = set_data_off (off .| 16) (bref_of 3 65536)
           /\ br_data_off bref' .&~ HAMMER2_OFF_MASK_RADIX6 = off
           /\ br_data_off bref' .& HAMMER2_OFF_MASK_RADIX6 = 16
           /\ (HAMMER2_ALLOC_MIN | off)
           /\ dv_allocator_beg volume_demo <= off
           /\ off + (1 .<< 16) <= dv_total_size volume_demo
           /\ HAMMER2_ZONE_SEG <= off mod HAMMER2_FREEMAP_LEVEL1_SIZE
           /\ served volume_demo h' off 16)
        \/ (e <> 0 /\ bref' = bref_of 3 65536 /\ (forall o, block_state h' o = block_state volume_demo o)
            /\ (e = HAMMER2_ERROR_EIO /\ bad_leaf h'
                \/ e = HAMMER2_ERROR_ENOSPC /\ all_exhausted h' 16))).
Proof.
  apply (@freemap_alloc_correct _ _ gmap_store gmap_store_laws log_io log_io_total);
    try apply volume_demo_ok.
  split; [split; cbn; lia|]. split; [split; [cbn; lia|]|split; cbn; lia].
  intros _. exists 1. reflexivity.
Defined.
