(* ===== verification/FreemapMaint.v ===== *)
(** Freemap maintenance: the initialisation of a leaf, the rotation of the
    freemap's own blocks in the reserved segments, and the crash-recovery
    marking of [hammer2_freemap_adjust]. *)

From Stdlib Require Import ZArith Lia Bool.
From stdpp Require Import base numbers list option gmap.
From S2P Require Import Prelude Disk Bitmap Subr Freemap BmapAlloc FreemapAlloc.

(** * Leaf initialisation *)

Lemma init_lokey_spec beg key e :
  (2 ^ 30 | key) -> 0 <= key < 2 ^ 62 -> 0 <= beg < 2 ^ 62 -> (2 ^ 22 | e) ->
  init_lokey beg key <= e <-> beg <= e /\ key + 4194304 <= e.
Proof.
  intros Hd Hk Hb He. unfold init_lokey. rewrite H2FMBASE_aligned by exact Hd.
  rewrite H2FMZONEBASE_eq. assert (key mod 2 ^ 30 = 0) as -> by (apply Z.mod_divide; [lia|exact Hd]).
  rewrite Z.sub_0_r, u64_small by lia. change HAMMER2_SEGMASK with (Z.ones 22).
  pose proof (roundup_mask beg 22 ltac:(lia)) as [Hru Hrd].
  set (lo := (beg + Z.ones 22) .&~ Z.ones 22) in *. cbv zeta.
  assert (Hlo : lo <= e <-> beg <= e).
  { split; [lia|]. intros Hbe. destruct Hrd as [c Hc], He as [c' Hc'].
    change (2 ^ 22) with 4194304 in *. lia. }
  destruct (Z.ltb_spec lo key); repeat match goal with |- context [?a <? ?b] =>
    destruct (Z.ltb_spec a b) end; lia.
Qed.

Lemma init_hikey_spec total key e :
  (2 ^ 30 | key) -> 0 <= key < 2 ^ 62 -> 0 <= total < 2 ^ 62 -> (2 ^ 22 | e) ->
  e < key + 2 ^ 30 -> e < init_hikey total key <-> e + 4194304 <= total.
Proof.
  intros Hd Hk Ht He Hlt. unfold init_hikey. change HAMMER2_FREEMAP_LEVEL1_SIZE with (2 ^ 30).
  rewrite u64_small by lia. cbv zeta. change HAMMER2_SEGMASK with (Z.ones 22).
  rewrite ldiff_ones by lia. destruct He as [c ->], Hd as [d ->].
  change (2 ^ 30) with (256 * 4194304) in *. change (2 ^ 22) with 4194304 in *.
  destruct (Z.ltb_spec total (d * (256 * 4194304) + 256 * 4194304)); [div_mod_lia|lia].
Qed.

(** The avail hint counts the bytes of the free elements. *)
Definition sum_avail (bms : list bmap_data) : Z := foldr (fun bm acc => bm_avail bm + acc) 0 bms.

Lemma init_elements_avail bms : forall lo hi key avail,
  alen bms * 4194304 <= avail < 2 ^ 64 ->
  (init_elements bms lo hi key avail).2
  = avail - alen bms * 4194304 + sum_avail (init_elements bms lo hi key avail).1.
Proof.
  unfold alen. induction bms as [|bm bms IH]; intros lo hi key avail Ha; [cbn; lia|].
  cbn [init_elements length] in *. destruct (_ || _).
  - rewrite (u64_small (avail - _)) by lia. specialize (IH lo hi (u64 (key + 4194304)) (avail - 4194304) ltac:(lia)).
    destruct (init_elements _ _ _ _ _). cbn [fst snd sum_avail foldr bm_avail] in *.
    unfold sum_avail in IH. lia.
  - specialize (IH lo hi (u64 (key + 4194304)) avail ltac:(lia)).
    destruct (init_elements _ _ _ _ _). cbn [fst snd sum_avail foldr bm_avail set_avail] in *.
    unfold sum_avail in IH. lia.
Qed.

(** A new leaf offers exactly the usable storage of its gigabyte: element
    [e, e + 4MB) starts out wholly free if it lies past the static allocation,
    outside the reserved segment and inside the volume, and wholly allocated
    otherwise; the leaf is well formed and its [avail] hint is the number of
    free bytes. *)
Theorem freemap_init_exact total beg key err av :
  0 <= total < 2 ^ 62 -> 0 <= beg < 2 ^ 62 -> (HAMMER2_FREEMAP_LEVEL1_SIZE | key) ->
  0 <= key < 2 ^ 62 ->
  let lf := hammer2_freemap_init total beg key
              (Leaf err 4294967295 av (replicate 256 bmap_zero)) in
  leaf_ok total beg key lf
  /\ lf_avail lf = sum_avail (lf_bmdata lf)
  /\ forall n, 0 <= n < 256 ->
       let e := key + n * HAMMER2_FREEMAP_LEVEL0_SIZE in
       if (beg <=? e) && (HAMMER2_ZONE_SEG <=? e mod HAMMER2_FREEMAP_LEVEL1_SIZE)
          && (e + HAMMER2_FREEMAP_LEVEL0_SIZE <=? total)
       then free_blocks (aget (lf_bmdata lf) n) = 256
       else free_blocks (aget (lf_bmdata lf) n) = 0.
Proof.
  intros Ht Hb Hd Hk lf. change HAMMER2_FREEMAP_LEVEL1_SIZE with (2 ^ 30) in *.
  split; [apply freemap_init_ok; exact Hk|]. split.
  - unfold lf, hammer2_freemap_init. cbn [lf_bmdata].
    pose proof (init_elements_avail (replicate 256 bmap_zero) (init_lokey beg key)
                  (init_hikey total key) key HAMMER2_FREEMAP_LEVEL1_SIZE) as H.
    unfold alen in H. rewrite length_replicate in H. specialize (H ltac:(lia)).
    destruct (init_elements _ _ _ _ _). cbn [fst snd lf_avail lf_bmdata] in *. lia.
  - intros n Hn e. unfold lf. rewrite freemap_init_get by assumption.
    change HAMMER2_FREEMAP_LEVEL0_SIZE with 4194304 in *. fold e.
    assert (He : (2 ^ 22 | e)).
    { destruct Hd as [c ->]. exists (c * 256 + n). unfold e. change (2 ^ 30) with (256 * 2 ^ 22).
      change 4194304 with (2 ^ 22). lia. }
    pose proof (init_lokey_spec beg key e Hd Hk Hb He) as Hlo.
    pose proof (init_hikey_spec total key e Hd Hk Ht He ltac:(unfold e; lia)) as Hhi.
    assert (Hm : e mod 2 ^ 30 = e - key).
    { destruct Hd as [c Hc]. unfold e. rewrite Hc at 1. rewrite Z.add_comm, Z.mod_add by lia.
      rewrite Z.mod_small; lia. }
    rewrite Hm. destruct ((e <? init_lokey beg key) || (init_hikey total key <=? e)) eqn:E.
    + replace (_ && _ && _) with false by lia. vm_compute. reflexivity.
    + replace (_ && _ && _) with true by lia. vm_compute. reflexivity.
Qed.

Lemma freemap_init_exact_witness :
  let lf := hammer2_freemap_init 4294967296 5000000 0
              (Leaf 0 4294967295 0 (replicate 256 bmap_zero)) in
  leaf_ok 4294967296 5000000 0 lf
  /\ lf_avail lf = sum_avail (lf_bmdata lf)
  /\ forall n, 0 <= n < 256 ->
       let e := 0 + n * HAMMER2_FREEMAP_LEVEL0_SIZE in
       if (5000000 <=? e) && (HAMMER2_ZONE_SEG <=? e mod HAMMER2_FREEMAP_LEVEL1_SIZE)
          && (e + HAMMER2_FREEMAP_LEVEL0_SIZE <=? 4294967296)
       then free_blocks (aget (lf_bmdata lf) n) = 256
       else free_blocks (aget (lf_bmdata lf) n) = 0.
Proof. apply freemap_init_exact; try lia. apply Z.divide_0_r. Defined.

(** * Reserved freemap blocks *)

(** The type and slot of each freemap level. *)
Definition freemap_level (keybits : Z) : option (Z * Z) :=
  match keybits with
  | HAMMER2_FREEMAP_LEVEL5_RADIX => Some (HAMMER2_BREF_TYPE_FREEMAP_NODE, HAMMER2_ZONEFM_LEVEL5)
  | HAMMER2_FREEMAP_LEVEL4_RADIX => Some (HAMMER2_BREF_TYPE_FREEMAP_NODE, HAMMER2_ZONEFM_LEVEL4)
  | HAMMER2_FREEMAP_LEVEL3_RADIX => Some (HAMMER2_BREF_TYPE_FREEMAP_NODE, HAMMER2_ZONEFM_LEVEL3)
  | HAMMER2_FREEMAP_LEVEL2_RADIX => Some (HAMMER2_BREF_TYPE_FREEMAP_NODE, HAMMER2_ZONEFM_LEVEL2)
  | HAMMER2_FREEMAP_LEVEL1_RADIX => Some (HAMMER2_BREF_TYPE_FREEMAP_LEAF, HAMMER2_ZONEFM_LEVEL1)
  | _ => None
  end.

(** Copy [i] of the block of level [zonefm] covering [key]. *)
Definition reserve_slot (key keybits zonefm i : Z) : Z :=
  H2FMBASE key keybits + (i * HAMMER2_ZONE_FREEMAP_INC + HAMMER2_ZONE_FREEMAP_00 + zonefm)
                         * HAMMER2_PBUFSIZE.

Lemma freemap_level_range keybits t z :
  freemap_level keybits = Some (t, z) -> 30 <= keybits <= 62 /\ 0 <= z < 5.
Proof. unfold freemap_level. intros H. repeat case_match; try discriminate; injection H as <- <-; lia. Qed.

Lemma reserve_index_slot key keybits z i :
  30 <= keybits <= 62 -> 0 <= z < 5 -> 0 <= i < 8 -> 0 <= key ->
  reserve_index (reserve_slot key keybits z i .| 15) = Done ((i + 1) mod 8).
Proof.
  intros Hkb Hz Hi Hk. unfold reserve_slot.
  assert (Hd : (2 ^ 22 | H2FMBASE key keybits)).
  { rewrite H2FMBASE_ldiff. destruct (ldiff_ones_divide key keybits ltac:(lia)) as [c ->].
    exists (c * 2 ^ (keybits - 22)). rewrite <- Z.mul_assoc, <- Z.pow_add_r by lia. f_equal. f_equal. lia. }
  destruct Hd as [c ->]. change (2 ^ 22) with (64 * 65536).
  set (s := i * HAMMER2_ZONE_FREEMAP_INC + HAMMER2_ZONE_FREEMAP_00 + z).
  assert (Hs : 1 <= s < 41) by (unfold s; lia).
  change HAMMER2_PBUFSIZE with 65536. replace (c * (64 * 65536) + s * 65536) with ((c * 64 + s) * 65536) by lia.
  rewrite (lor_disjoint _ 15 6) by (try exists ((c * 64 + s) * 1024); lia).
  unfold reserve_index. change HAMMER2_OFF_MASK_RADIX6 with (Z.ones 6).
  rewrite ldiff_ones by lia. change (2 ^ 6) with 64.
  replace (((c * 64 + s) * 65536 + 15) / 64) with ((c * 64 + s) * 1024) by div_mod_lia.
  replace (64 * ((c * 64 + s) * 1024)) with ((c * 64 + s) * 65536) by lia.
  replace ((c * 64 + s) * 65536 =? 0) with false by lia.
  change HAMMER2_SEGMASK with (Z.ones 22). rewrite Z.land_ones by lia. change (2 ^ 22) with (64 * 65536).
  rewrite Z.mul_mod_distr_r by lia. rewrite Z.add_comm, Z.mod_add, Z.mod_small by lia.
  change HAMMER2_PBUFSIZE with 65536. rewrite Z.div_mul by lia. cbv zeta.
  rewrite assert_true by lia.
  replace ((s - HAMMER2_ZONE_FREEMAP_00) / HAMMER2_ZONE_FREEMAP_INC) with i by (unfold s; div_mod_lia).
  rewrite assert_true by lia. f_equal. destruct (Z.eqb_spec (i + 1) HAMMER2_NFREEMAPS); div_mod_lia.
Qed.

Lemma reserve_index_range data_off j : reserve_index data_off = Done j -> 0 <= j < 8.
Proof. unfold reserve_index. intros H. repeat (case_match || inv_done); lia. Qed.

Lemma reserve_level_in_segment bref bytes j t radix z off :
  reserve_level bref bytes (j * HAMMER2_ZONE_FREEMAP_INC) t radix z = Done off ->
  30 <= radix -> 0 <= j < 8 -> 0 <= z < 5 ->
  bytes = 32768 /\ (65536 | off) /\ off mod HAMMER2_FREEMAP_LEVEL1_SIZE < HAMMER2_ZONE_SEG.
Proof.
  unfold reserve_level. intros H Hr Hj Hz. inv_done. split; [lia|].
  rewrite H2FMBASE_ldiff. destruct (ldiff_ones_divide (br_key bref) radix ltac:(lia)) as [c ->].
  replace (2 ^ radix) with (2 ^ (radix - 30) * 1073741824)
    by (change 1073741824 with (2 ^ 30); rewrite <- Z.pow_add_r by lia; f_equal; lia).
  set (d := c * (2 ^ (radix - 30) * 1073741824)). set (s := j * HAMMER2_ZONE_FREEMAP_INC + HAMMER2_ZONE_FREEMAP_00 + z).
  assert (Hd : d = c * 2 ^ (radix - 30) * 1073741824) by (subst d; ring). clearbody d.
  assert (Hs : 1 <= s < 41) by (subst s; lia). change HAMMER2_PBUFSIZE with 65536. unfold u64.
  set (q := (d + s * 65536) / 2 ^ 64).
  assert (E : (d + s * 65536) mod 2 ^ 64 = d + s * 65536 - q * (17179869184 * 1073741824))
    by (subst q; change (17179869184 * 1073741824) with (2 ^ 64); div_mod_lia).
  rewrite E, Hd. split.
  - exists (c * 2 ^ (radix - 30) * 16384 + s - q * 281474976710656). lia.
  - replace (c * 2 ^ (radix - 30) * 1073741824 + s * 65536 - q * (17179869184 * 1073741824))
      with (s * 65536 + (c * 2 ^ (radix - 30) - q * 17179869184) * 1073741824) by ring.
    rewrite Z.mod_add by lia. rewrite Z.mod_small by lia. lia.
Qed.

(** Whatever blockref it is given, the block is in the reserved segment of a zone. *)
Lemma reserve_in_segment bref r bref' :
  hammer2_freemap_reserve bref r = Done bref' ->
  (br_data_off bref' .&~ HAMMER2_OFF_MASK_RADIX6) mod HAMMER2_FREEMAP_LEVEL1_SIZE < HAMMER2_ZONE_SEG.
Proof.
  unfold hammer2_freemap_reserve. intros H.
  destruct (reserve_index _) as [j|] eqn:Hj; [cbn [obind] in H|discriminate].
  apply reserve_index_range in Hj.
  match type of H with (obind ?m _) = _ => destruct m as [off|] eqn:Hm; [cbn [obind] in H|discriminate] end.
  injection H as <-. cbn [set_data_off br_data_off].
  assert (Ho : 1 .<< r = 32768 /\ (65536 | off) /\ off mod HAMMER2_FREEMAP_LEVEL1_SIZE < HAMMER2_ZONE_SEG)
    by (repeat (case_match; try discriminate); eapply reserve_level_in_segment in Hm; lia || exact Hm).
  destruct Ho as (Hr & [c ->] & Hs).
  assert (r = 15) as ->.
  { destruct (Z_lt_le_dec r 0).
    - rewrite Z.shiftl_div_pow2 in Hr by lia. pose proof (pow2_pos (- r) ltac:(lia)).
      rewrite Z.div_small in Hr; [discriminate|]. split; [lia|]. apply (Z.pow_gt_1 2); lia.
    - rewrite Z.shiftl_mul_pow2, Z.mul_1_l in Hr by lia. apply (Z.pow_inj_r 2); lia. }
  rewrite (lor_disjoint _ 15 6) by (try exists (c * 1024); lia).
  change HAMMER2_OFF_MASK_RADIX6 with (Z.ones 6). rewrite ldiff_ones by lia. change (2 ^ 6) with 64.
  replace (64 * ((c * 65536 + 15) / 64)) with (c * 65536) by div_mod_lia. exact Hs.
Qed.

(** A freemap block rotates through its eight fixed copies: given a first
    allocation or a current copy [i], [hammer2_freemap_reserve] moves the block
    to copy 0 or [i + 1 mod 8] of its own level, never to the copy in use, in
    the part of the 4MB reserved segment between the volume headers and its
    end, and blocks of different levels or copies never overlap. *)
Theorem freemap_reserve_rotates bref t z i :
  freemap_level (br_keybits bref) = Some (t, z) -> br_type bref = t ->
  0 <= br_key bref < 2 ^ 63 -> 0 <= i < 8 ->
  br_data_off bref = 0
    \/ br_data_off bref = reserve_slot (br_key bref) (br_keybits bref) z i .| 15 ->
  exists j,
    hammer2_freemap_reserve bref 15
      = Done (set_data_off (reserve_slot (br_key bref) (br_keybits bref) z j .| 15) bref)
    /\ 0 <= j < 8
    /\ (br_data_off bref <> 0 -> j = (i + 1) mod 8 /\ j <> i)
    /\ (let o := reserve_slot (br_key bref) (br_keybits bref) z j
                 - H2FMBASE (br_key bref) (br_keybits bref) in
        HAMMER2_PBUFSIZE <= o /\ o + HAMMER2_FREEMAP_LEVELN_PSIZE <= HAMMER2_ZONE_SEG
        /\ forall z' j', 0 <= z' < 5 -> 0 <= j' < 8 ->
             let o' := reserve_slot (br_key bref) (br_keybits bref) z' j'
                       - H2FMBASE (br_key bref) (br_keybits bref) in
             (z' = z /\ j' = j) \/ disjoint_ranges (o, HAMMER2_PBUFSIZE) (o', HAMMER2_PBUFSIZE)).
Proof.
  intros Hlv Hty Hk Hi Hoff. pose proof (freemap_level_range _ _ _ Hlv) as [Hkb Hz].
  assert (Hidx : exists j, reserve_index (br_data_off bref) = Done j /\ 0 <= j < 8
                  /\ (br_data_off bref <> 0 -> j = (i + 1) mod 8 /\ j <> i)).
  { destruct Hoff as [-> | ->].
    - exists 0. split; [reflexivity|]. split; [lia|]. intros H. contradiction.
    - exists ((i + 1) mod 8). rewrite reserve_index_slot by lia. split; [reflexivity|].
      split; [div_mod_lia|]. intros _. split; [reflexivity|div_mod_lia]. }
  destruct Hidx as (j & Hj & Hj1 & Hj2). exists j. split.
  - unfold hammer2_freemap_reserve. rewrite Hj. cbn [obind].
    assert (Hbase : 0 <= H2FMBASE (br_key bref) (br_keybits bref) <= br_key bref).
    { rewrite H2FMBASE_eq by lia.
      pose proof (mod_pow2_range (br_key bref) (br_keybits bref) ltac:(lia)).
      pose proof (Z.mod_le (br_key bref) (2 ^ br_keybits bref) ltac:(lia) ltac:(apply pow2_pos; lia)). lia. }
    assert (Hgo : forall radix, radix = br_keybits bref ->
              reserve_level bref (1 .<< 15) (j * HAMMER2_ZONE_FREEMAP_INC) t radix z
              = Done (reserve_slot (br_key bref) (br_keybits bref) z j)).
    { intros r ->. unfold reserve_level. rewrite !assert_true by (try reflexivity; lia).
      unfold reserve_slot. rewrite u64_small by lia. reflexivity. }
    revert Hlv Hgo. unfold freemap_level.
    repeat case_match; intros Hlv Hgo; try discriminate; injection Hlv as <- <-;
      rewrite Hgo by reflexivity; reflexivity.
  - split; [exact Hj1|]. split; [exact Hj2|]. unfold reserve_slot, disjoint_ranges. cbn [fst snd].
    split; [lia|]. split; [lia|]. intros z' j' Hz' Hj'. lia.
Qed.

Lemma freemap_reserve_rotates_witness :
  let bref := Bref 6 0 30 0 1073741824 0 0 (reserve_slot 1073741824 30 0 7 .| 15) 0 0 0 [] in
  exists j,
    hammer2_freemap_reserve bref 15
      = Done (set_data_off (reserve_slot (br_key bref) (br_keybits bref) 0 j .| 15) bref)
    /\ 0 <= j < 8
    /\ (br_data_off bref <> 0 -> j = (7 + 1) mod 8 /\ j <> 7)
    /\ (let o := reserve_slot (br_key bref) (br_keybits bref) 0 j
                 - H2FMBASE (br_key bref) (br_keybits bref) in
        HAMMER2_PBUFSIZE <= o /\ o + HAMMER2_FREEMAP_LEVELN_PSIZE <= HAMMER2_ZONE_SEG
        /\ forall z' j', 0 <= z' < 5 -> 0 <= j' < 8 ->
             let o' := reserve_slot (br_key bref) (br_keybits bref) z' j'
                       - H2FMBASE (br_key bref) (br_keybits bref) in
             (z' = 0 /\ j' = j) \/ disjoint_ranges (o, HAMMER2_PBUFSIZE) (o', HAMMER2_PBUFSIZE)).
Proof.
  intros bref. apply (freemap_reserve_rotates bref 6 0 7); try (right; reflexivity); try reflexivity; cbn; lia.
Defined.

(** * Crash recovery *)

Lemma pair_full q k : 0 <= k -> q .& run k 1 = run k 1 -> pair q k = 3.
Proof.
  intros Hk E. unfold pair. apply Z.bits_inj'. intros m Hm.
  rewrite Z.land_spec, Z.shiftr_spec by lia.
  apply (f_equal (fun x => Z.testbit x (m + 2 * k))) in E. rewrite Z.land_spec in E.
  rewrite testbit_run in E by lia. rewrite testbit_3.
  destruct (Z.ltb_spec m 2); [|rewrite !andb_false_r; reflexivity].
  replace ((2 * k <=? m + 2 * k) && (m + 2 * k <? 2 * (k + 1))) with true in E by lia.
  rewrite andb_true_r in E. rewrite E. replace (0 <=? m) with true by lia. reflexivity.
Qed.

(** What the marking loop does to one element: the blocks of the run become
    allocated, no other block changes, [avail] follows. *)
Record adjusted (bm bm' : bmap_data) (b m : Z) (modified : bool) (bytes : Z) : Prop := {
  adj_marked : marked bm bm' b m;
  adj_ok : bmap_ok bm';
  adj_avail : bm_avail bm' = bm_avail bm - bytes;
  adj_bytes : 0 <= bytes;
  adj_linear : bm_linear bm' = bm_linear bm \/ bm_linear bm' = 0;
  adj_same : modified = false -> bm' = bm /\ bytes = 0
}.

Lemma marked_none bm b : marked bm bm b 0.
Proof. intros c Hc. replace (_ && _) with false by lia. reflexivity. Qed.

Lemma marked_trans bm1 bm2 bm3 b m1 m2 :
  0 <= m1 -> 0 <= m2 -> marked bm1 bm2 b m1 -> marked bm2 bm3 (b + m1) m2 ->
  marked bm1 bm3 b (m1 + m2).
Proof.
  intros H1 H2 Hm1 Hm2 c Hc. rewrite Hm2, Hm1 by exact Hc.
  destruct ((b + m1 <=? c) && (c <? b + m1 + m2)) eqn:E1, ((b <=? c) && (c <? b + m1)) eqn:E2,
    ((b <=? c) && (c <? b + (m1 + m2))) eqn:E3; try reflexivity; lia.
Qed.

(** The update of one block. *)
Lemma adjust_block bm bm' w k class :
  bmap_ok bm -> 0 <= w < 8 -> 0 <= k < 32 ->
  bm' = Bmap 0 class
          (if aget (bm_bitmapq bm) w .& run k 1 =? 0
           then u32 (bm_avail bm - HAMMER2_FREEMAP_BLOCK_SIZE) else bm_avail bm)
          (aset (bm_bitmapq bm) w (aget (bm_bitmapq bm) w .| run k 1)) ->
  marked bm bm' (32 * w + k) 1 /\ bmap_ok bm'
  /\ bm_avail bm' = bm_avail bm
       - (if aget (bm_bitmapq bm) w .& run k 1 =? 0 then HAMMER2_FREEMAP_BLOCK_SIZE else 0).
Proof.
  intros Hok Hw Hk ->. set (bm' := Bmap _ _ _ _).
  assert (Hmk : marked bm bm' (32 * w + k) 1).
  { intros c Hc. apply blkq_lor_run; try lia. apply (ok_words _ Hok). }
  assert (Hz : (aget (bm_bitmapq bm) w .& run k 1 =? 0) = (blk bm (32 * w + k) =? 0)).
  { pose proof (tst_single bm w k Hw Hk) as Ht. unfold tst in Ht.
    destruct (_ .& _ =? 0), (blk _ _ =? 0); cbn in Ht; congruence. }
  assert (Hfree : free_blocks bm' = free_blocks bm - (if blk bm (32 * w + k) =? 0 then 1 else 0)).
  { unfold free_blocks. destruct (Z.eqb_spec (blk bm (32 * w + k)) 0) as [E|E].
    - apply (nzero_run _ _ _ (32 * w + k)); try lia.
      + intros b Hb. replace b with (32 * w + k) by lia. exact E.
      + intros b Hb. rewrite Hmk by lia. replace ((_ <=? b) && _) with true by lia. lia.
      + intros b Hb Hnb. rewrite Hmk by lia. replace ((_ <=? b) && _) with false by lia. reflexivity.
    - rewrite Z.sub_0_r. apply nzero_ext_zero. intros b Hb. rewrite Hmk by lia.
      destruct (_ && _) eqn:Eb; [|reflexivity]. replace b with (32 * w + k) by lia. lia. }
  assert (Hav : bm_avail bm' = bm_avail bm
            - (if blk bm (32 * w + k) =? 0 then HAMMER2_FREEMAP_BLOCK_SIZE else 0)).
  { subst bm'. cbn [bm_avail]. rewrite Hz. pose proof (ok_avail _ Hok).
    pose proof (free_blocks_range bm).
    destruct (Z.eqb_spec (blk bm (32 * w + k)) 0) as [E|E]; [|lia].
    pose proof (free_blocks_pos bm (32 * w + k) ltac:(lia) E). apply u32_small. lia. }
  split; [exact Hmk|]. split; [|rewrite Hz; exact Hav]. constructor.
  - apply words_ok_lor_run; try lia. apply (ok_words _ Hok).
  - cbn. lia.
  - apply Z.divide_0_r.
  - intros H. exfalso. apply H. reflexivity.
  - rewrite Hav, Hfree, (ok_avail _ Hok). destruct (blk bm (32 * w + k) =? 0); lia.
Qed.

Lemma adjust_loop_spec class w count : forall bm k modified bg,
  bmap_ok bm -> 0 <= w < 8 -> 0 <= k -> k + Z.of_nat count <= 32 ->
  (modified = true -> bm_linear bm = 0) ->
  exists bm' modified' bytes,
    adjust_loop count bm w class (run k 1) modified bg = Done (bm', modified', bg + bytes)
    /\ adjusted bm bm' (32 * w + k) (Z.of_nat count) modified' bytes
    /\ (modified = true -> modified' = true).
Proof.
  induction count as [|count IH]; intros bm k modified bg Hok Hw Hk Hkm Hmod; cbn [adjust_loop].
  { exists bm, modified, 0. rewrite Z.add_0_r. split; [reflexivity|]. split; [|auto].
    split; auto; try lia. apply marked_none. }
  assert (Hne : run k 1 <> 0).
  { intros E. pose proof (testbit_run k 1 (2 * k) ltac:(lia) ltac:(lia)) as Ht. rewrite E, Z.bits_0 in Ht.
    replace (_ && _) with true in Ht by lia. discriminate. }
  rewrite assert_true by (apply negb_true_iff, Z.eqb_neq; exact Hne). cbv zeta.
  replace (Z.of_nat (S count)) with (1 + Z.of_nat count) by lia.
  assert (Hnext : Z.of_nat count = 0 \/ u64 (run k 1 .<< 2) = run (k + 1) 1).
  { destruct (decide (Z.of_nat count = 0)); [left; assumption|right].
    change 2 with (2 * 1) at 1. rewrite u64_run_shift by lia. reflexivity. }
  assert (Hloop : forall bm0 m0 bg0, adjust_loop count bm0 w class (u64 (run k 1 .<< 2)) m0 bg0
                    = adjust_loop count bm0 w class (run (k + 1) 1) m0 bg0).
  { intros. destruct Hnext as [E| ->]; [|reflexivity]. destruct count; [reflexivity|lia]. }
  rewrite !Hloop.
  destruct (Z.eqb_spec (aget (bm_bitmapq bm) w .& run k 1) (run k 1)) as [E|E].
  - destruct (IH bm (k + 1) modified bg) as (bm' & m' & bytes & -> & Hadj & Hmm); auto; try lia.
    exists bm', m', bytes. split; [reflexivity|]. split; [|exact Hmm].
    destruct Hadj. split; auto.
    intros c Hc. rewrite adj_marked0 by exact Hc.
    destruct (decide (c = 32 * w + k)) as [->|].
    + replace (_ && _) with false by lia. replace (_ && _) with true by lia.
      unfold blk. rewrite blkq_word by lia. apply pair_full; [lia|exact E].
    + match goal with |- (if ?a then _ else _) = (if ?b then _ else _) => replace a with b by lia end.
      reflexivity.
  - set (bm1 := if modified then bm else set_linear 0 bm).
    assert (Hq : bm_bitmapq bm1 = bm_bitmapq bm) by (unfold bm1; destruct modified; reflexivity).
    assert (Ha : bm_avail bm1 = bm_avail bm) by (unfold bm1; destruct modified; reflexivity).
    assert (Hl : bm_linear bm1 = 0).
    { unfold bm1. destruct modified; [auto|reflexivity]. }
    rewrite Hq, Ha, Hl. set (bm2 := Bmap 0 _ _ _).
    destruct (adjust_block bm bm2 w k _ Hok Hw ltac:(lia) eq_refl) as (Hmk & Hok2 & Hav2).
    set (bg2 := if aget (bm_bitmapq bm) w .& run k 1 =? 0 then bg + HAMMER2_FREEMAP_BLOCK_SIZE else bg).
    destruct (IH bm2 (k + 1) true bg2) as (bm' & m' & bytes & -> & Hadj & Hmm); auto; try lia.
    set (d := if aget (bm_bitmapq bm) w .& run k 1 =? 0 then HAMMER2_FREEMAP_BLOCK_SIZE else 0) in *.
    exists bm', m', (d + bytes). split.
    { replace (bg + (d + bytes)) with (bg2 + bytes); [reflexivity|].
      unfold bg2, d. destruct (aget (bm_bitmapq bm) w .& run k 1 =? 0); lia. }
    split; [|auto]. rewrite (Hmm eq_refl) in *. destruct Hadj. split; auto.
    + eapply marked_trans; [lia..|exact Hmk|].
      replace (32 * w + k + 1) with (32 * w + (k + 1)) by lia. exact adj_marked0.
    + lia.
    + unfold d. destruct (aget (bm_bitmapq bm) w .& run k 1 =? 0); lia.
    + right. destruct adj_linear0 as [El|El]; rewrite El; reflexivity.
    + discriminate.
Qed.

Lemma i32_low x k : 0 <= k <= 32 -> i32 x mod 2 ^ k = x mod 2 ^ k.
Proof.
  intros Hk. unfold i32. rewrite (Z.mod_eq (x + 2 ^ 31) (2 ^ 32)) by lia.
  assert (Hd : 2 ^ 32 = 2 ^ (32 - k) * 2 ^ k) by (rewrite <- Z.pow_add_r by lia; f_equal; lia).
  set (q := (x + 2 ^ 31) / 2 ^ 32).
  replace (x + 2 ^ 31 - 2 ^ 32 * q - 2 ^ 31) with (x + - q * 2 ^ (32 - k) * 2 ^ k) by (rewrite Hd; ring).
  apply Z.mod_add. pose proof (pow2_pos k ltac:(lia)). lia.
Qed.

Lemma i32_land_ones x k : 0 <= k <= 32 -> i32 x .& Z.ones k = x mod 2 ^ k.
Proof. intros Hk. rewrite Z.land_ones by lia. apply i32_low. exact Hk. Qed.

(** The element and the block of an offset. *)
Definition element_of (off : Z) : Z := off / 2 ^ 22 mod 256.
Definition block_of (off : Z) : Z := off mod 2 ^ 22 / 2 ^ 14.

Lemma adjust_geometry off :
  0 <= off ->
  adjust_element off = element_of off
  /\ adjust_word off = block_of off / 32
  /\ adjust_mask off = run (block_of off mod 16) 1.
Proof.
  intros Ho. unfold adjust_element, adjust_word, adjust_mask, element_of, block_of.
  rewrite !Z.shiftr_div_pow2 by lia.
  change (HAMMER2_FREEMAP_COUNT - 1) with (Z.ones 8). change 7 with (Z.ones 3). change 15 with (Z.ones 4).
  rewrite !i32_land_ones by lia. change (2 ^ 8) with 256. split; [reflexivity|].
  change (2 ^ (HAMMER2_SEGRADIX - 3)) with 524288. change (2 ^ 22) with 4194304.
  change (2 ^ 14) with 16384. change (2 ^ 3) with 8. change (2 ^ 4) with 16.
  split; [div_mod_lia|].
  assert (Hs : off / 16384 mod 16 = off mod 4194304 / 16384 mod 16) by div_mod_lia.
  rewrite Hs. set (s := off mod 4194304 / 16384 mod 16).
  assert (0 <= s < 16) by (unfold s; apply Z.mod_pos_bound; lia).
  change 3 with (run 0 1). rewrite (Z.mul_comm s), u64_run_shift by lia. f_equal; lia.
Qed.

Lemma adjust_count_nblk radix : radix_ok radix -> adjust_count radix = nblk radix.
Proof. intros Hr. radix_cases Hr; reflexivity. Qed.

Section recovery.
Context {T IO : Type} `{!LeafStore T} `{!LeafStoreLaws T}.
Implicit Types h : dev T IO.

(** A leaf whose element was adjusted is well formed; its hint is reset. *)
Lemma leaf_ok_adjust total beg key lf n bm' b m modified bytes av :
  leaf_ok total beg key lf -> 0 <= n < 256 ->
  adjusted (aget (lf_bmdata lf) n) bm' b m modified bytes ->
  leaf_ok total beg key (Leaf (lf_error lf) 4294967295 av (aset (lf_bmdata lf) n bm')).
Proof.
  intros [Hlen Hel Hres Hbig] Hn Hadj.
  assert (Hget : forall i, 0 <= i < 256 ->
            aget (aset (lf_bmdata lf) n bm') i = if i =? n then bm' else aget (lf_bmdata lf) i).
  { intros i Hi. destruct (Z.eqb_spec i n) as [->|].
    - apply aget_aset_eq. unfold alen. lia.
    - apply aget_aset_ne; lia. }
  constructor; cbn [lf_bmdata lf_bigmask].
  - unfold aset. rewrite length_insert. exact Hlen.
  - intros i Hi. rewrite Hget by exact Hi. destruct (i =? n); [apply Hadj|auto].
  - intros i Hi Hri. rewrite Hget by exact Hi. destruct (Z.eqb_spec i n) as [->|]; [|auto].
    destruct (Hres n Hn Hri) as [Ha Hl]. destruct Hadj. split.
    + pose proof (ok_avail _ adj_ok0). pose proof (free_blocks_range bm'). lia.
    + destruct adj_linear0 as [-> | ->]; [exact Hl|reflexivity].
  - intros r i Hr _ H0. apply bigmask_all in H0; [destruct H0|exact Hr].
Qed.

(** What recovery leaves behind for the blocks [b, b + m) of the element. *)
Definition recovered h h' key n lf b m : Prop :=
  dev_ok h' /\ exists lf',
    leaf_at h' key = Some lf'
    /\ marked (aget (lf_bmdata lf) n) (aget (lf_bmdata lf') n) b m
    /\ (forall i, 0 <= i < 256 -> i <> n -> aget (lf_bmdata lf') i = aget (lf_bmdata lf) i)
    /\ (forall k, k <> key -> leaf_at h' k = leaf_at h k)
    /\ dv_allocator_free h'
       = u64 (dv_allocator_free h
              - (bm_avail (aget (lf_bmdata lf) n) - bm_avail (aget (lf_bmdata lf') n)))
    /\ (bm_linear (aget (lf_bmdata lf') n) = bm_linear (aget (lf_bmdata lf) n)
        \/ bm_linear (aget (lf_bmdata lf') n) = 0).

Lemma freemap_adjust_spec h bref off radix lf :
  dev_ok h -> radix_ok radix -> (1024 | off) -> 0 <= off < 2 ^ 62 ->
  br_data_off bref = off .| radix -> dv_allocator_beg h <= off ->
  HAMMER2_ZONE_SEG <= off mod 2 ^ 31 -> 0 <= dv_allocator_free h < 2 ^ 64 ->
  leaf_at h (H2FMBASE off 30) = Some lf -> lf_error lf = 0 ->
  exists h', hammer2_freemap_adjust h bref HAMMER2_FREEMAP_DORECOVER = Done h'
    /\ recovered h h' (H2FMBASE off 30) (element_of off) lf
         (32 * (block_of off / 32) + block_of off mod 16) (nblk radix).
Proof.
  intros Hok Hr H1024 Ho Hdo Hbeg Hseg Hfree Hlf Herr. unfold hammer2_freemap_adjust.
  cbn [hammer2_trans_sub]. rewrite Hdo. destruct (data_off_split off radix Hr H1024) as [-> ->].
  rewrite assert_true by reflexivity. unfold radix_ok in Hr. rewrite assert_true by lia.
  rewrite assert_true by lia. cbv zeta. cbn [set_dev_modify_tid dv_allocator_beg].
  replace (off <? dv_allocator_beg h) with false by lia.
  rewrite assert_true.
  2: { change HAMMER2_ZONE_MASK64 with (Z.ones 31). rewrite Z.land_ones by lia. apply Z.leb_le. lia. }
  change HAMMER2_FREEMAP_LEVEL1_RADIX with 30. set (key := H2FMBASE off 30) in *.
  destruct (H2FMBASE_spec off) as (Hd & Hk1 & Hk2); [lia|]. fold key in Hd, Hk1, Hk2.
  unfold adjust_leaf. unfold leaf_at in Hlf.
  change (dv_fchain (set_dev_modify_tid (u64 (dv_modify_tid h + 1)) h)) with (dv_fchain h).
  rewrite Hlf.
  rewrite (proj2 (Z.eqb_eq _ _) Herr). cbn [negb obind].
  destruct (adjust_geometry off ltac:(lia)) as (-> & -> & ->).
  rewrite adjust_count_nblk by exact Hr. set (n := element_of off).
  assert (Hn : 0 <= n < 256) by (apply Z.mod_pos_bound; lia).
  assert (Hb : 0 <= block_of off < 256).
  { unfold block_of. change (2 ^ 22) with 4194304. change (2 ^ 14) with 16384. div_mod_lia. }
  pose proof (do_leaf _ Hok _ _ Hd ltac:(lia) Hlf) as Hlo.
  destruct (nblk_divides_32 radix Hr) as [Hm _].
  assert (Hm4 : nblk radix <= 4) by (destruct (nblk_cases radix Hr); lia).
  set (class := u16 _).
  destruct (adjust_loop_spec class (block_of off / 32) (Z.to_nat (nblk radix))
              (aget (lf_bmdata lf) n) (block_of off mod 16) false 0)
    as (bm' & md & bytes & -> & Hadj & _).
  { eapply lfo_elem; eauto. }
  { div_mod_lia. }
  { apply Z.mod_pos_bound. lia. }
  { pose proof (Z.mod_pos_bound (block_of off) 16). lia. }
  { discriminate. }
  rewrite Z2Nat.id in Hadj by lia. cbn [obind]. rewrite Z.add_0_l.
  set (h0 := set_dev_modify_tid _ h).
  assert (Hfin : forall h1 lf1, dev_ok h1 -> leaf_at h1 key = Some lf1 ->
            dv_allocator_free h1 = dv_allocator_free h ->
            lf_bmdata lf1 = aset (lf_bmdata lf) n bm' ->
            (forall k, k <> key -> leaf_at h1 k = leaf_at h k) ->
            exists h', Done (if bytes =? 0 then h1 else adjust_allocator_free (- bytes) h1) = Done h'
              /\ recovered h h' key n lf (32 * (block_of off / 32) + block_of off mod 16) (nblk radix)).
  { intros h1 lf1 Hok1 Hl1 Hf1 Hbm1 Hoth. eexists. split; [reflexivity|].
    assert (Hget : aget (lf_bmdata lf1) n = bm').
    { rewrite Hbm1. apply aget_aset_eq. unfold alen. rewrite (lfo_len _ _ _ _ Hlo). lia. }
    set (h' := if _ =? 0 then _ else _).
    assert (Hs : same_leaves h1 h').
    { unfold h', adjust_allocator_free, hammer2_voldata_modify, same_leaves, leaf_at.
      destruct (bytes =? 0); [auto|]. destruct (dv_vchain_modified h1); auto. }
    split; [eapply dev_ok_same; eauto|]. destruct Hs as (_ & _ & Hs).
    exists lf1. rewrite Hs, Hget. destruct Hadj. split; [exact Hl1|]. split; [exact adj_marked0|].
    split; [intros i Hi Hne; rewrite Hbm1; apply aget_aset_ne; lia|].
    split; [intros k Hne; rewrite Hs; apply Hoth, Hne|].
    split; [|exact adj_linear0]. unfold h'. destruct (Z.eqb_spec bytes 0) as [E|E].
    - rewrite Hf1, u64_small; lia.
    - rewrite adjust_allocator_free_val, Hf1. f_equal. lia. }
  destruct md.
  - destruct (leaf_modify_ok key (dv_modify_tid h) _ _ Hlf) as (t & me & Ht & Hsame).
    unfold h0. cbn [set_dev_modify_tid dv_fchain]. rewrite Ht. cbn [obind]. fold h0.
    set (lf1 := Leaf (lf_error lf) 4294967295 (lf_avail lf) (aset (lf_bmdata lf) n bm')).
    apply (Hfin _ lf1); try reflexivity.
    + eapply (dev_ok_same (set_fchain (leaf_write key lf1 t) h0)); [repeat split|].
      apply (dev_ok_write h (set_fchain t h0)); auto; try reflexivity.
      eapply leaf_ok_adjust; eauto.
    + apply leaf_write_eq.
    + intros k Hne. unfold leaf_at. cbn. rewrite leaf_write_ne by exact Hne. apply Hsame.
  - destruct (adj_same _ _ _ _ _ _ Hadj eq_refl) as [Hbm _]. cbn [obind].
    apply (Hfin h0 lf); auto.
    + eapply dev_ok_same; [|exact Hok]. repeat split.
    + rewrite Hbm, aset_aget. reflexivity.
Qed.

(** What was handed out stays handed out. *)
Lemma recovered_keeps h h' key n lf b m r :
  (2 ^ 30 | key) -> 0 <= n < 256 -> leaf_at h key = Some lf -> recovered h h' key n lf b m ->
  dev_range_owned h r -> dev_range_owned h' r.
Proof.
  intros Hd Hn Hlf (_ & lf' & Hlf' & Hmk & Hoth & Hne & _ & Hlin) (key' & n' & lf0 & Hd' & Hk' & Hn' & Hl0 & [Hr Hmd Hl]).
  destruct (decide (key' = key)) as [->|Hk].
  - rewrite Hlf in Hl0. injection Hl0 as <-. exists key, n', lf'. split; [exact Hd'|]. split; [exact Hk'|]. split; [exact Hn'|]. split; [exact Hlf'|].
    destruct (decide (n' = n)) as [->|Hnn]; [|rewrite Hoth by assumption; constructor; assumption]. constructor; [exact Hr| |].
    + intros c Hc H1 H2. rewrite Hmk by exact Hc. destruct (_ && _); [discriminate|auto].
    + destruct Hlin as [-> | ->]; [exact Hl|]. intros H. destruct H. reflexivity.
  - exists key', n', lf0. rewrite Hne by exact Hk. split_and!; auto using Build_range_owned; lia.
Qed.
End recovery.

Lemma freemap_adjust_heur {T IO} `{!LeafStore T} (h h' : dev T IO) bref how :
  hammer2_freemap_adjust h bref how = Done h' -> dv_heur_freemap h' = dv_heur_freemap h.
Proof.
  unfold hammer2_freemap_adjust, hammer2_trans_sub, adjust_leaf, adjust_allocator_free, hammer2_voldata_modify. intros H.
  repeat (inv_done || case_match || simplify_eq/=); reflexivity.
Qed.

(** Crash recovery marks storage as allocated without ever freeing or
    touching anything else, and keeps the volume well formed and the space
    counters exact.  The blocks it marks are the ones of [data_off] when these
    lie in the lower half of their bitmap word; for the upper half the code
    masks the block index with 15 instead of 31 and marks the blocks 16
    positions (256KB) below, leaving the recovered ones as they were. *)
Theorem freemap_adjust_exact {T IO} `{!LeafStore T} `{!LeafStoreLaws T}
    (h : dev T IO) bref off radix lf :
  dev_ok h -> radix_ok radix -> (HAMMER2_ALLOC_MIN | off) -> 0 <= off < 2 ^ 62 ->
  br_data_off bref = off .| radix -> dv_allocator_beg h <= off ->
  HAMMER2_ZONE_SEG <= off mod HAMMER2_ZONE_BYTES64 -> 0 <= dv_allocator_free h < 2 ^ 64 ->
  leaf_at h (H2FMBASE off 30) = Some lf -> lf_error lf = 0 ->
  exists h',
    hammer2_freemap_adjust h bref HAMMER2_FREEMAP_DORECOVER = Done h'
    /\ (block_of off mod 32 < 16 ->
        recovered h h' (H2FMBASE off 30) (element_of off) lf (block_of off) (nblk radix))
    /\ (16 <= block_of off mod 32 ->
        recovered h h' (H2FMBASE off 30) (element_of off) lf (block_of off - 16) (nblk radix)).
Proof.
  intros. destruct (freemap_adjust_spec h bref off radix lf) as (h' & Hrun & Hrec); try assumption.
  exists h'. split; [exact Hrun|].
  split; intros Hm.
  - replace (block_of off) with (32 * (block_of off / 32) + block_of off mod 16) by div_mod_lia.
    exact Hrec.
  - replace (block_of off - 16) with (32 * (block_of off / 32) + block_of off mod 16) by div_mod_lia.
    exact Hrec.
Qed.

(** The demo volume with its second leaf initialised. *)
Definition leaf_demo : leaf :=
  hammer2_freemap_init 4294967296 0 1073741824
    (Leaf 0 4294967295 HAMMER2_FREEMAP_LEVEL1_SIZE (replicate 256 bmap_zero)).
Definition volume_leaf_demo : dev (gmap Z leaf) (list (Z * Z * Z)) :=
  dev_demo (<[1073741824 := leaf_demo]> ∅).

Lemma volume_leaf_demo_ok : dev_ok volume_leaf_demo.
Proof.
  constructor; [unfold geometry; cbn; lia|]. intros key lf _ _ H.
  unfold leaf_at in H. cbn [volume_leaf_demo dev_demo dv_fchain leaf_lookup gmap_store] in H.
  apply lookup_insert_Some in H as [[<- <-]|[_ H]].
  - apply freemap_init_ok. lia.
  - rewrite lookup_empty in H. discriminate.
Qed.

Lemma freemap_adjust_exact_witness :
  let off := 1073741824 + 4194304 + 20 * 16384 in
  exists h',
    hammer2_freemap_adjust volume_leaf_demo (set_data_off (off .| 14) (bref_of 3 0))
      HAMMER2_FREEMAP_DORECOVER = Done h'
    /\ (block_of off mod 32 < 16 ->
        recovered volume_leaf_demo h' (H2FMBASE off 30) (element_of off) leaf_demo (block_of off) (nblk 14))
    /\ (16 <= block_of off mod 32 ->
        recovered volume_leaf_demo h' (H2FMBASE off 30) (element_of off) leaf_demo (block_of off - 16) (nblk 14)).
Proof.
  intros off. apply freemap_adjust_exact; try reflexivity.
  - apply volume_leaf_demo_ok.
  - unfold radix_ok. lia.
  - exists 1052992. reflexivity.
  - unfold off. lia.
  - cbn. lia.
  - vm_compute. discriminate.
  - cbn. lia.
Defined.
