(* ===== verification/Bulkfree.v ===== *)
(** [hammer2_bulkfree.c]: reclaiming storage.

    A bulkfree pass records the storage that the topology references into an
    in-memory freemap ([cbinfo_bmap_init], [h2_bulkfree_callback]) and merges
    it into the live freemap ([h2_bulkfree_sync], [h2_bulkfree_sync_adjust]),
    staging each unreferenced block through the state 10 before it becomes free.
    Console output and the throttling clock are not modelled. *)

From Stdlib Require Import ZArith Lia Bool.
From stdpp Require Import base numbers list option.
From S2P Require Import Prelude Disk Crc Subr Bitmap Freemap BmapAlloc FreemapAlloc.

(** * State: the fields of [hammer2_bulkfree_info] that the modelled code uses *)

Record bulk_counts := Counts {
  ct_11_10 : Z;
  ct_00_11 : Z;
  ct_01_11 : Z;
  ct_10_11 : Z;
  ct_10_00 : Z;
  ct_linadjusts : Z;
  ct_l0cleans : Z;
  ct_adj_free : Z
}.

Record bulkfree_info := Cbinfo {
  cb_sbase : Z;
  cb_sstop : Z;
  cb_bmap : list bmap_data;
  cb_bulkfree_calls : Z;
  cb_signaled : bool;
  cb_mtid : Z;
  cb_counts : bulk_counts
}.

Definition set_cb_bmap (v : list bmap_data) (cb : bulkfree_info) : bulkfree_info :=
  Cbinfo (cb_sbase cb) (cb_sstop cb) v (cb_bulkfree_calls cb) (cb_signaled cb) (cb_mtid cb)
         (cb_counts cb).
Definition set_cb_calls (v : Z) (cb : bulkfree_info) : bulkfree_info :=
  Cbinfo (cb_sbase cb) (cb_sstop cb) (cb_bmap cb) v (cb_signaled cb) (cb_mtid cb) (cb_counts cb).
Definition set_cb_signaled (v : bool) (cb : bulkfree_info) : bulkfree_info :=
  Cbinfo (cb_sbase cb) (cb_sstop cb) (cb_bmap cb) (cb_bulkfree_calls cb) v (cb_mtid cb) (cb_counts cb).
Definition set_cb_counts (v : bulk_counts) (cb : bulkfree_info) : bulkfree_info :=
  Cbinfo (cb_sbase cb) (cb_sstop cb) (cb_bmap cb) (cb_bulkfree_calls cb) (cb_signaled cb) (cb_mtid cb) v.

(** * [cbinfo_bmap_init] *)

(** The [while (size)] loop over [n] elements; [lokey] carries over. *)
Fixpoint bmap_init_loop (n : nat) (key lokey hikey : Z) : list bmap_data :=
  match n with
  | O => []
  | S n =>
      let lokey := if lokey <? H2FMBASE key HAMMER2_FREEMAP_LEVEL1_RADIX
                   then H2FMBASE key HAMMER2_FREEMAP_LEVEL1_RADIX else lokey in
      let lokey := if lokey <? H2FMZONEBASE key + HAMMER2_ZONE_SEG
                   then H2FMZONEBASE key + HAMMER2_ZONE_SEG else lokey in
      (if (key <? lokey) || (hikey <=? key)
       then Bmap HAMMER2_SEGSIZE 0 0 (replicate 8 HAMMER2_BMAP_ALLONES)
       else Bmap 0 0 HAMMER2_FREEMAP_LEVEL0_SIZE (replicate 8 0))
      :: bmap_init_loop n (u64 (key + HAMMER2_FREEMAP_LEVEL0_SIZE)) lokey hikey
  end.

Definition cbinfo_bmap_init (total_size allocator_beg : Z) (n : nat) (cb : bulkfree_info)
  : bulkfree_info :=
  let lokey := u64 (allocator_beg + HAMMER2_SEGMASK) .&~ HAMMER2_SEGMASK in
  let hikey := total_size .&~ HAMMER2_SEGMASK in
  set_cb_bmap (bmap_init_loop n (cb_sbase cb) lokey hikey) cb.

(** * [h2_bulkfree_callback] *)

(** [while (bytes > 0)]: set the blocks to 11. *)
Fixpoint callback_mark (fuel : nat) (bm : bmap_data) (data_off bytes : Z) : outcome bmap_data :=
  match fuel with
  | O => Panic
  | S fuel =>
      if bytes =? 0 then Done bm
      else
        let bindex := data_off .>> (HAMMER2_FREEMAP_BLOCK_RADIX + HAMMER2_BMAP_INDEX_RADIX) in
        let bmask := u64 (3 .<< (((data_off .& HAMMER2_BMAP_INDEX_MASK)
                                    .>> HAMMER2_FREEMAP_BLOCK_RADIX) .<< 1)) in
        let q := aget (bm_bitmapq bm) bindex in
        let bm :=
          if q .& bmask =? 0 then
            Bmap (bm_linear bm) (bm_class bm)
              (u32 (bm_avail bm - (if bytes <? HAMMER2_FREEMAP_BLOCK_SIZE
                                   then HAMMER2_FREEMAP_BLOCK_SIZE else bytes)))
              (aset (bm_bitmapq bm) bindex (q .| bmask))
          else bm in
        callback_mark fuel bm (data_off + HAMMER2_FREEMAP_BLOCK_SIZE)
          (if bytes <? HAMMER2_FREEMAP_BLOCK_SIZE then 0 else bytes - HAMMER2_FREEMAP_BLOCK_SIZE)
  end.

(** The linear iterator: cover the range when it ends mid-block, or when the
    iterator points into it. *)
Definition callback_linear (linear data_off bytes : Z) : Z :=
  if tst bytes HAMMER2_FREEMAP_BLOCK_MASK then
    if linear <? data_off + bytes then data_off + bytes else linear
  else if (data_off <=? linear) && (linear <? data_off + bytes) then data_off + bytes
  else linear.

(** Record a range in the element that covers it. *)
Definition callback_element (bm : bmap_data) (class data_off bytes : Z) : outcome bmap_data :=
  let bm := if bm_class bm =? 0
            then Bmap (bm_linear bm) class HAMMER2_FREEMAP_LEVEL0_SIZE (bm_bitmapq bm)
            else bm in
  let bm := set_linear (callback_linear (bm_linear bm) data_off bytes) bm in
  callback_mark 257 bm data_off bytes.

(** Returns (error, cbinfo).  [sig] is [hammer2_signal_check() != 0], [tps] is
    [hammer2_bulkfree_tps]. *)
Definition h2_bulkfree_callback (total_size allocator_beg tps : Z) (sig : bool)
    (cb : bulkfree_info) (bref : blockref) : outcome (Z * bulkfree_info) :=
  if sig && negb (cb_signaled cb) then Done (HAMMER2_ERROR_ABORTED, set_cb_signaled true cb)
  else
    let cb :=
      if negb (br_type bref =? HAMMER2_BREF_TYPE_DATA)
         && negb (br_type bref =? HAMMER2_BREF_TYPE_DIRENT)
      then set_cb_calls (if tps <? cb_bulkfree_calls cb + 1 then 0
                         else cb_bulkfree_calls cb + 1) cb
      else cb in
    let data_off := br_data_off bref .&~ HAMMER2_OFF_MASK_RADIX6 in
    if (data_off <? cb_sbase cb) || (cb_sstop cb <=? data_off) then Done (0, cb)
    else if data_off <? allocator_beg then Done (0, cb)
    else if total_size <=? data_off then Done (0, cb)
    else
      let radix := br_data_off bref .& HAMMER2_OFF_MASK_RADIX6 in
      assert! negb (radix =? 0);
      let bytes := u64 (1 .<< radix) in
      let class := u16 ((br_type bref .<< 8) .| HAMMER2_PBUFRADIX) in
      let bytes := if cb_sstop cb <? u64 (data_off + bytes) then cb_sstop cb - data_off else bytes in
      let data_off := data_off - cb_sbase cb in
      let n := data_off .>> HAMMER2_FREEMAP_LEVEL0_RADIX in
      let data_off := data_off .& HAMMER2_FREEMAP_LEVEL0_MASK in
      let bytes := if HAMMER2_FREEMAP_LEVEL0_SIZE <? data_off + bytes
                   then HAMMER2_FREEMAP_LEVEL0_SIZE - data_off else bytes in
      let! bm := callback_element (aget (cb_bmap cb) n) class data_off bytes in
      Done (0, set_cb_bmap (aset (cb_bmap cb) n bm) cb).

(** * [h2_bulkfree_sync_adjust] *)

Section sync.
Context {T IO : Type} `{!LeafStore T} `{!IoOps IO}.

(** [switch (lmask & 3)] under [(mmask & 3) == 0] at pair [k] of word [i]. *)
Definition sync_unreferenced (live : bmap_data) (ct : bulk_counts) (io : IO)
    (i k l tmp_off : Z) : outcome (bmap_data * bulk_counts * IO) :=
  let q := aget (bm_bitmapq live) i in
  match l with
  | 2 =>
      let avail := u32 (bm_avail live + HAMMER2_FREEMAP_BLOCK_SIZE) in
      let avail := if HAMMER2_FREEMAP_LEVEL0_SIZE <? avail then HAMMER2_FREEMAP_LEVEL0_SIZE
                   else avail in
      let live := Bmap (bm_linear live) (bm_class live) avail
                    (aset (bm_bitmapq live) i (q .&~ (2 .<< (2 * k)))) in
      let ct := Counts (ct_11_10 ct) (ct_00_11 ct) (ct_01_11 ct) (ct_10_11 ct) (ct_10_00 ct + 1)
                  (ct_linadjusts ct) (ct_l0cleans ct)
                  (u64 (ct_adj_free ct + HAMMER2_FREEMAP_BLOCK_SIZE)) in
      let! io := io_dedup_assert (tmp_off .| HAMMER2_FREEMAP_BLOCK_RADIX)
                   HAMMER2_FREEMAP_BLOCK_SIZE io in
      Done (live, ct, io)
  | 3 =>
      let live := set_bitmapq (aset (bm_bitmapq live) i (q .&~ (1 .<< (2 * k)))) live in
      let ct := Counts (ct_11_10 ct + 1) (ct_00_11 ct) (ct_01_11 ct) (ct_10_11 ct) (ct_10_00 ct)
                  (ct_linadjusts ct) (ct_l0cleans ct) (ct_adj_free ct) in
      let! io := io_dedup_delete HAMMER2_BREF_TYPE_DATA (tmp_off .| HAMMER2_FREEMAP_BLOCK_RADIX)
                   HAMMER2_FREEMAP_BLOCK_SIZE io in
      Done (live, ct, io)
  | _ => Done (live, ct, io)
  end.

(** [switch (lmask & 3)] under [(mmask & 3) == 3]. *)
Definition sync_referenced (live : bmap_data) (ct : bulk_counts) (i k l : Z)
  : bmap_data * bulk_counts :=
  let '(avail, ct) :=
    match l with
    | 0 =>
        let avail := u32 (bm_avail live - HAMMER2_FREEMAP_BLOCK_SIZE) in
        (if i32 avail <? 0 then 0 else avail,
         Counts (ct_11_10 ct) (ct_00_11 ct + 1) (ct_01_11 ct) (ct_10_11 ct) (ct_10_00 ct)
           (ct_linadjusts ct) (ct_l0cleans ct)
           (u64 (ct_adj_free ct - HAMMER2_FREEMAP_BLOCK_SIZE)))
    | 1 => (bm_avail live,
            Counts (ct_11_10 ct) (ct_00_11 ct) (ct_01_11 ct + 1) (ct_10_11 ct) (ct_10_00 ct)
              (ct_linadjusts ct) (ct_l0cleans ct) (ct_adj_free ct))
    | 2 => (bm_avail live,
            Counts (ct_11_10 ct) (ct_00_11 ct) (ct_01_11 ct) (ct_10_11 ct + 1) (ct_10_00 ct)
              (ct_linadjusts ct) (ct_l0cleans ct) (ct_adj_free ct))
    | _ => (bm_avail live, ct)
    end in
  (Bmap (bm_linear live) (bm_class live) avail
     (aset (bm_bitmapq live) i (aget (bm_bitmapq live) i .| u64 (3 .<< (2 * k)))), ct).

(** [for (scount = 0; scount < 64; scount += 2)] *)
Fixpoint sync_pairs (fuel : nat) (k : Z) (live : bmap_data) (ct : bulk_counts) (io : IO)
    (i lmask mmask tmp_off : Z) : outcome (bmap_data * bulk_counts * IO) :=
  match fuel with
  | O => Done (live, ct, io)
  | S fuel =>
      let! (live, ct, io) :=
        if mmask .& 3 =? 0 then sync_unreferenced live ct io i k (lmask .& 3) tmp_off
        else if mmask .& 3 =? 3 then
          let '(live, ct) := sync_referenced live ct i k (lmask .& 3) in Done (live, ct, io)
        else Done (live, ct, io) in
      sync_pairs fuel (k + 1) live ct io i (lmask .>> 2) (mmask .>> 2)
        (tmp_off + HAMMER2_FREEMAP_BLOCK_SIZE)
  end.

(** [for (bindex = 0; bindex < HAMMER2_BMAP_ELEMENTS; ++bindex)] *)
Fixpoint sync_words (fuel : nat) (i : Z) (live : bmap_data) (ct : bulk_counts) (io : IO)
    (bmap : bmap_data) (tmp_off : Z) : outcome (bmap_data * bulk_counts * IO) :=
  match fuel with
  | O => Done (live, ct, io)
  | S fuel =>
      let lmask := aget (bm_bitmapq live) i in
      let mmask := aget (bm_bitmapq bmap) i in
      let! (live, ct, io) :=
        if lmask =? mmask then Done (live, ct, io)
        else sync_pairs 32 0 live ct io i lmask mmask tmp_off in
      sync_words fuel (i + 1) live ct io bmap (tmp_off + HAMMER2_BMAP_INDEX_SIZE)
  end.

(** The highest word that is not zero, or -1. *)
Fixpoint last_nonzero (fuel : nat) (qs : list Z) (bindex : Z) : Z :=
  match fuel with
  | O => bindex
  | S fuel => if negb (aget qs bindex =? 0) then bindex else last_nonzero fuel qs (bindex - 1)
  end.

(** The final adjustment of the linear iterator. *)
Definition sync_linear (live bmap : bmap_data) (ct : bulk_counts) : bmap_data * bulk_counts :=
  let bindex := last_nonzero 8 (bm_bitmapq live) (HAMMER2_BMAP_ELEMENTS - 1) in
  let linadj := Counts (ct_11_10 ct) (ct_00_11 ct) (ct_01_11 ct) (ct_10_11 ct) (ct_10_00 ct)
                  (ct_linadjusts ct + 1) (ct_l0cleans ct) (ct_adj_free ct) in
  if bindex <? 0 then
    (Bmap 0 0 HAMMER2_FREEMAP_LEVEL0_SIZE (bm_bitmapq live),
     Counts (ct_11_10 ct) (ct_00_11 ct) (ct_01_11 ct) (ct_10_11 ct) (ct_10_00 ct)
       (ct_linadjusts ct) (ct_l0cleans ct + 1) (ct_adj_free ct))
  else if bindex <? 7 then
    if (bm_linear live <? bm_linear bmap)
       && ((bm_linear live .^ bm_linear bmap) .&~ HAMMER2_FREEMAP_BLOCK_MASK =? 0)
    then (set_linear (bm_linear bmap) live, linadj)
    else (set_linear ((bm_linear bmap + HAMMER2_FREEMAP_BLOCK_MASK)
                        .&~ HAMMER2_FREEMAP_BLOCK_MASK) live, linadj)
  else (set_linear HAMMER2_SEGSIZE live, ct).

Definition h2_bulkfree_sync_adjust (live : bmap_data) (ct : bulk_counts) (io : IO)
    (bmap : bmap_data) (data_off : Z) : outcome (bmap_data * bulk_counts * IO) :=
  let! (live, ct, io) := sync_words 8 0 live ct io bmap data_off in
  let '(live, ct) := sync_linear live bmap ct in
  Done (live, ct, io).

(** * [bigmask_get], [bigmask_good] *)

(** [1LU] is 32 bits wide; shifting it by 32 is undefined, [ub32] is the value
    the target produces. *)
Variable ub32 : Z.
Definition scan_mask (iter : Z) : Z :=
  if iter =? 64 then HAMMER2_BMAP_ALLONES
  else u32 ((if iter =? 32 then ub32 else u32 (1 .<< iter)) - 1).

(** [while (j < 64)]: some aligned group of [iter] bits is clear. *)
Fixpoint bigmask_group (fuel : nat) (scan mask iter j : Z) : bool :=
  match fuel with
  | O => false
  | S fuel =>
      if j <? HAMMER2_BMAP_BITS_PER_ELEMENT
      then (scan .& mask =? 0) || bigmask_group fuel (u64 (scan .<< iter)) mask iter (j + iter)
      else false
  end.

(** [while (iter <= 64)] *)
Fixpoint bigmask_word (fuel : nat) (mask iter radix_mask bigmask : Z) : Z :=
  match fuel with
  | O => bigmask
  | S fuel =>
      bigmask_word fuel mask (2 * iter) (u32 ((radix_mask .<< 1) .| 1))
        (if bigmask_group 32 (scan_mask iter) mask iter 0 then bigmask .| radix_mask else bigmask)
  end.

Definition bigmask_get (bmap : bmap_data) : Z :=
  foldl (fun bigmask mask => bigmask_word 6 mask 2 32767 bigmask) 0
    (take 8 (bm_bitmapq bmap)).

Definition bigmask_good (bmap : bmap_data) (live_bigmask : Z) : bool :=
  (live_bigmask .& bigmask_get bmap) =? bigmask_get bmap.

(** * [h2_bulkfree_sync] *)

(** One turn of [while (data_off < cbinfo->sstop)], on the leaf that covers
    [data_off]; its lookup and [hammer2_chain_modify] go through [LeafStore].  A leaf
    that cannot be modified is left as it is; an error of the lookup itself, which ends
    the loop, is outside of [LeafStore]. *)
Definition sync_element (hmp : dev T IO) (ct : bulk_counts) (mtid : Z) (bmap : bmap_data)
    (data_off : Z) : outcome (dev T IO * bulk_counts) :=
  if data_off <? dv_allocator_beg hmp then Done (hmp, ct)
  else if dv_total_size hmp <=? data_off then Done (hmp, ct)
  else
    let key := data_off .&~ HAMMER2_FREEMAP_LEVEL1_MASK in
    match leaf_lookup key (dv_fchain hmp) with
    | None => Done (hmp, ct)
    | Some lf =>
        if negb (lf_error lf =? 0) then Done (hmp, ct)
        else
          let n := (data_off .& HAMMER2_FREEMAP_LEVEL1_MASK) .>> HAMMER2_FREEMAP_LEVEL0_RADIX in
          let live := aget (lf_bmdata lf) n in
          if bool_decide (bm_bitmapq live = bm_bitmapq bmap)
             && (bm_linear bmap <=? bm_linear live) && bigmask_good bmap (lf_bigmask lf)
          then Done (hmp, ct)
          else
            let! (t, error) := leaf_modify key mtid (dv_fchain hmp) in
            if negb (error =? 0) then Done (set_fchain t hmp, ct) else
            let! (live, ct, io) := h2_bulkfree_sync_adjust live ct (dv_io hmp) bmap data_off in
            let lf := Leaf (lf_error lf) 4294967295 (lf_avail lf) (aset (lf_bmdata lf) n live) in
            Done (set_io io (set_freemap_relaxed 0 (set_fchain (leaf_write key lf t) hmp)), ct)
    end.

Fixpoint sync_elements (bmaps : list bmap_data) (hmp : dev T IO) (ct : bulk_counts)
    (mtid data_off sstop : Z) : outcome (dev T IO * bulk_counts) :=
  match bmaps with
  | [] => Done (hmp, ct)
  | bmap :: bmaps =>
      if data_off <? sstop then
        let! (hmp, ct) := sync_element hmp ct mtid bmap data_off in
        sync_elements bmaps hmp ct mtid (u64 (data_off + HAMMER2_FREEMAP_LEVEL0_SIZE)) sstop
      else Done (hmp, ct)
  end.

Definition h2_bulkfree_sync (hmp : dev T IO) (cb : bulkfree_info)
  : outcome (dev T IO * bulkfree_info) :=
  let! (hmp, ct) := sync_elements (cb_bmap cb) hmp (cb_counts cb) (cb_mtid cb) (cb_sbase cb)
                      (cb_sstop cb) in
  Done (hmp, set_cb_counts ct cb).
End sync.

(** * [h2_bulkfree_test]: the dedup heuristic of the scan *)

Record dedup_entry := Dedup {
  de_data_off : Z;
  de_ticks : Z;
  de_saved_error : Z
}.
#[export] Instance dedup_inhabited : Inhabited dedup_entry := populate (Dedup 0 0 0).

(** Eight little-endian bytes of [bref->data_off]. *)
Definition le_bytes64 (x : Z) : list Z :=
  map (fun i => (x .>> (8 * i)) .& 255) (seqZ 0 8).

(** The eight-way set: [inl i] is a hit at index [i], [inr best] a miss. *)
Definition test_set (dedup : list dedup_entry) (base data_off : Z) : Z + Z :=
  match for_up 8 0 (fun i best =>
          if de_data_off (aget dedup (base + i)) =? data_off then inr i
          else inl (if de_ticks (aget dedup (base + i)) <? de_ticks (aget dedup (base + best))
                    then i else best)) 0 with
  | inl best => inr best
  | inr i => inl i
  end.

(** Returns (result, dedup, count_dedup_factor). *)
Definition h2_bulkfree_test (dedup : list dedup_entry) (factor data_off pri saved_error : Z)
  : Z * list dedup_entry * Z :=
  let n := hammer2_icrc32 (le_bytes64 data_off) in
  let base := n .& (262143 .&~ 7) in
  match test_set dedup base data_off with
  | inl i =>
      let e := aget dedup (base + i) in
      let e := if de_ticks e <? u32 pri then Dedup (de_data_off e) (u32 pri) (de_saved_error e)
               else e in
      (de_saved_error e .| HAMMER2_ERROR_EOF, aset dedup (base + i) e,
       if pri =? 1 then factor + de_ticks e else factor)
  | inr best =>
      (0, aset dedup (base + best) (Dedup data_off (u32 pri) saved_error), factor)
  end.
