(* ===== verification/BulkfreeProof.v ===== *)
(** Bulkfree never frees referenced storage.

    The scan of a set of ranges produces an in-memory element that covers them
    ([scan_inv]); merging it into a well-formed live element keeps the element
    well formed and every scanned range owned ([range_owned], the ownership
    predicate of the allocator), so later allocations stay clear of it. *)

From Stdlib Require Import ZArith Lia Bool.
From stdpp Require Import base numbers list option gmap.
From S2P Require Import Prelude Disk Crc Subr Bitmap Freemap BmapAlloc FreemapAlloc Bulkfree.

(** * The scan *)

(** In-memory elements only know free and allocated blocks. *)
Definition two_state (bm : bmap_data) : Prop :=
  forall b, 0 <= b < 256 -> blk bm b = 0 \/ blk bm b = 3.

(** A storage range inside an element, as the allocator hands them out. *)
Record scan_range (r : range) : Prop := {
  sr_bounds : 0 <= r.1 /\ r.1 + r.2 <= HAMMER2_SEGSIZE;
  sr_align : (1024 | r.1) /\ (1024 | r.2);
  (* a fragment of one block, or whole blocks *)
  sr_shape : (0 < r.2 < 16384 /\ r.1 mod 16384 + r.2 <= 16384)
             \/ (0 < r.2 /\ r.1 mod 16384 = 0 /\ r.2 mod 16384 = 0)
}.

(** Blocks of a range: first and count. *)
Definition first_block (r : range) : Z := r.1 / 16384.
Definition range_blocks (r : range) : Z := if r.2 <? 16384 then 1 else r.2 / 16384.

Lemma callback_mask o :
  0 <= o -> u64 (3 .<< (((o .& HAMMER2_BMAP_INDEX_MASK) .>> HAMMER2_FREEMAP_BLOCK_RADIX) .<< 1))
            = run (o mod 524288 / 16384) 1.
Proof.
  intros Ho. change HAMMER2_BMAP_INDEX_MASK with (Z.ones 19). rewrite Z.land_ones by lia.
  rewrite Z.shiftr_div_pow2, Z.shiftl_mul_pow2 with (n := 1) by lia.
  change (2 ^ 19) with 524288. change (2 ^ 14) with 16384. change (2 ^ 1) with 2.
  assert (0 <= o mod 524288 / 16384 < 32) by div_mod_lia.
  change 3 with (run 0 1). rewrite (Z.mul_comm _ 2), u64_run_shift by lia. f_equal; lia.
Qed.

(** Setting one block. *)
Lemma blk_set_one bm bm' i k :
  alen (bm_bitmapq bm) = 8 -> 0 <= i < 8 -> 0 <= k < 32 ->
  bm_bitmapq bm' = aset (bm_bitmapq bm) i (aget (bm_bitmapq bm) i .| run k 1) ->
  marked bm bm' (32 * i + k) 1.
Proof.
  intros Hl Hi Hk Hq c Hc. unfold blk. rewrite Hq. apply blkq_lor_run; try lia.
Qed.

Lemma callback_mark_spec m : forall fuel bm o bytes,
  words_ok (bm_bitmapq bm) -> two_state bm -> 0 <= o ->
  (m = 0%nat /\ bytes = 0)
    \/ (m = 1%nat /\ 0 < bytes < 16384)
    \/ bytes = 16384 * Z.of_nat m ->
  o / 16384 + Z.of_nat m <= 256 -> (m < fuel)%nat ->
  exists bm', callback_mark fuel bm o bytes = Done bm'
    /\ marked bm bm' (o / 16384) (Z.of_nat m)
    /\ words_ok (bm_bitmapq bm') /\ two_state bm'
    /\ bm_linear bm' = bm_linear bm /\ bm_class bm' = bm_class bm.
Proof.
  induction m as [|m IH]; intros fuel bm o bytes Hw H2 Ho Hb Hfit Hf;
    (destruct fuel as [|fuel]; [lia|]); cbn [callback_mark].
  - replace (bytes =? 0) with true by lia. exists bm. split; [reflexivity|]. split; [|auto].
    intros c Hc. change (Z.of_nat 0) with 0. rewrite Z.add_0_r. destruct (_ && _) eqn:E; [clear - E; lia|reflexivity].
  - replace (bytes =? 0) with false by lia. cbv zeta. rewrite callback_mask by lia.
    rewrite Z.shiftr_div_pow2 by lia.
    change (2 ^ (HAMMER2_FREEMAP_BLOCK_RADIX + HAMMER2_BMAP_INDEX_RADIX)) with 524288.
    set (i := o / 524288). set (k := o mod 524288 / 16384).
    assert (Hik : o / 16384 = 32 * i + k) by (unfold i, k; div_mod_lia).
    assert (Hk : 0 <= k < 32) by (unfold k; clear; div_mod_lia).
    assert (Hi : 0 <= i < 8) by (clearbody k; unfold i in *; clear - Ho Hfit; div_mod_lia).
    set (bm1 := if _ =? 0 then _ else bm).
    assert (H1 : marked bm bm1 (32 * i + k) 1 /\ words_ok (bm_bitmapq bm1)
                 /\ bm_linear bm1 = bm_linear bm /\ bm_class bm1 = bm_class bm).
    { unfold bm1. destruct (Z.eqb_spec (aget (bm_bitmapq bm) i .& run k 1) 0) as [E|E].
      - split; [|split; [|auto]].
        + apply blk_set_one; auto. apply Hw.
        + apply words_ok_lor_run; auto; lia.
      - split; [|auto]. intros c Hc. destruct (_ && _) eqn:Ec; [|reflexivity].
        replace c with (32 * i + k) by lia. apply tst_true in E.
        rewrite tst_single in E by assumption. destruct (H2 (32 * i + k)); lia. }
    destruct H1 as (Hm1 & Hw1 & Hl1 & Hc1).
    assert (H21 : two_state bm1).
    { intros c Hc. rewrite Hm1 by exact Hc. destruct (_ && _); [auto|apply H2, Hc]. }
    set (bytes' := if bytes <? _ then 0 else _).
    destruct (IH fuel bm1 (o + 16384) bytes') as (bm' & -> & Hm' & Hw' & H2' & Hl' & Hc');
      try assumption; try lia.
    { unfold bytes'. destruct Hb as [[? ?]|[[? ?]|Hb]]; [lia| |].
      - left. replace (bytes <? HAMMER2_FREEMAP_BLOCK_SIZE) with true by lia. lia.
      - right; right. replace (bytes <? HAMMER2_FREEMAP_BLOCK_SIZE) with false by lia. lia. }
    { replace ((o + 16384) / 16384) with (o / 16384 + 1) by div_mod_lia. lia. }
    exists bm'. split; [reflexivity|].
    replace ((o + 16384) / 16384) with (o / 16384 + 1) in Hm' by div_mod_lia.
    split; [|split; [assumption|]; split; [assumption|]; split; congruence].
    replace (Z.of_nat (S m)) with (1 + Z.of_nat m) by lia. rewrite Hik in *.
    intros c Hc. rewrite Hm', Hm1 by exact Hc.
    destruct ((32 * i + k + 1 <=? c) && (c <? 32 * i + k + 1 + Z.of_nat m)) eqn:E1,
      ((32 * i + k <=? c) && (c <? 32 * i + k + 1)) eqn:E2,
      ((32 * i + k <=? c) && (c <? 32 * i + k + (1 + Z.of_nat m))) eqn:E3; try reflexivity; lia.
Qed.

(** What the scan knows about the ranges [R] it has recorded. *)
Record scan_inv (bm : bmap_data) (R : list range) : Prop := {
  si_words : words_ok (bm_bitmapq bm);
  si_two : two_state bm;
  si_linear : 0 <= bm_linear bm <= HAMMER2_SEGSIZE;
  si_linear_align : (1024 | bm_linear bm);
  si_linear_marked : bm_linear bm mod 16384 <> 0 -> blk bm (bm_linear bm / 16384) = 3;
  si_marked : Forall (fun r => forall b, 0 <= b < 256 -> 16384 * b < r.1 + r.2 ->
                      r.1 < 16384 * (b + 1) -> blk bm b = 3) R;
  si_fragment : Forall (fun r => r.2 < 16384 -> r.1 + r.2 <= bm_linear bm) R;
  si_owned : Forall (fun r => bm_linear bm mod 16384 <> 0 ->
                      r.1 + r.2 <= bm_linear bm
                      \/ 16384 * (bm_linear bm / 16384 + 1) <= r.1) R
}.

Lemma range_blocks_spec r b :
  scan_range r -> 0 <= b ->
  (first_block r <= b < first_block r + range_blocks r)
  <-> (16384 * b < r.1 + r.2 /\ r.1 < 16384 * (b + 1)).
Proof.
  intros [[H1 H2] _ Hs] Hb. unfold first_block, range_blocks.
  destruct Hs as [[? ?]|(? & ? & ?)].
  - replace (r.2 <? 16384) with true by lia. div_mod_lia.
  - destruct (Z.ltb_spec r.2 16384); div_mod_lia.
Qed.

Inductive linear_case (linear : Z) (r : range) : Z -> Prop :=
| linear_raise :
    r.2 < 16384 -> linear < r.1 + r.2 -> linear_case linear r (r.1 + r.2)
| linear_keep :
    r.2 < 16384 -> r.1 + r.2 <= linear -> linear_case linear r linear
| linear_skip :
    16384 <= r.2 -> (r.1 + r.2) mod 16384 = 0 -> linear < r.1 + r.2 ->
    linear_case linear r (r.1 + r.2)
| linear_clear :
    16384 <= r.2 -> r.1 mod 16384 = 0 -> linear < r.1 \/ r.1 + r.2 <= linear ->
    linear_case linear r linear.

Lemma callback_linear_case linear r :
  scan_range r -> linear_case linear r (callback_linear linear r.1 r.2).
Proof.
  intros [_ _ Hs]. unfold callback_linear, tst. change HAMMER2_FREEMAP_BLOCK_MASK with (Z.ones 14).
  rewrite Z.land_ones by lia. change (2 ^ 14) with 16384. destruct Hs as [[H1 H2]|(H1 & H2 & H3)].
  - rewrite Z.mod_small by lia. replace (r.2 =? 0) with false by lia. cbn [negb].
    destruct (Z.ltb_spec linear (r.1 + r.2)); [apply linear_raise|apply linear_keep]; lia.
  - rewrite H3. cbn [Z.eqb negb].
    assert (16384 <= r.2) by (clear - H1 H3; div_mod_lia).
    assert ((r.1 + r.2) mod 16384 = 0) by (clear - H2 H3; div_mod_lia).
    destruct ((r.1 <=? linear) && (linear <? r.1 + r.2)) eqn:E.
    + apply linear_skip; lia.
    + apply linear_clear; lia.
Qed.

Lemma callback_element_spec bm class r R :
  scan_inv bm R -> scan_range r -> Forall scan_range R ->
  Forall (fun r' => r' = r \/ disjoint_ranges r r') R ->
  exists bm', callback_element bm class r.1 r.2 = Done bm' /\ scan_inv bm' (r :: R)
    /\ (forall b, 0 <= b < 256 -> blk bm b = 3 -> blk bm' b = 3)
    /\ bm_linear bm' = callback_linear (bm_linear bm) r.1 r.2.
Proof.
  intros [Hw H2 Hl Hla Hlm Hmk Hfr How] Hsr HsR Hdj. unfold callback_element. cbv zeta.
  pose proof (range_blocks_spec r) as Hbs. destruct (Hsr) as [[Hr1 Hr2] [Ha1 Ha2] Hshape].
  set (bm0 := if bm_class bm =? 0 then _ else bm).
  assert (Hq0 : bm_bitmapq bm0 = bm_bitmapq bm /\ bm_linear bm0 = bm_linear bm)
    by (unfold bm0; destruct (_ =? 0); auto).
  destruct Hq0 as [Hq0 Hl0]. set (bm1 := set_linear _ bm0).
  assert (Hq1 : bm_bitmapq bm1 = bm_bitmapq bm) by exact Hq0.
  assert (Hb1 : forall b, blk bm1 b = blk bm b) by (intros; unfold blk; rewrite Hq1; reflexivity).
  destruct (callback_mark_spec (Z.to_nat (range_blocks r)) 257 bm1 r.1 r.2)
    as (bm' & -> & Hm' & Hw' & H2' & Hl' & _).
  - rewrite Hq1. exact Hw.
  - intros b Hb. rewrite Hb1. apply H2, Hb.
  - lia.
  - unfold range_blocks. destruct Hshape as [[? ?]|(? & ? & ?)].
    + replace (r.2 <? 16384) with true by lia. right; left. lia.
    + destruct (Z.ltb_spec r.2 16384); [div_mod_lia|]. right; right.
      rewrite Z2Nat.id by div_mod_lia. div_mod_lia.
  - unfold range_blocks. destruct Hshape as [[? ?]|(? & ? & ?)].
    + replace (r.2 <? 16384) with true by lia. div_mod_lia.
    + destruct (Z.ltb_spec r.2 16384); div_mod_lia.
  - unfold range_blocks. destruct (Z.ltb_spec r.2 16384); [lia|]. div_mod_lia.
  - exists bm'. split; [reflexivity|].
    assert (Hrb : 0 <= range_blocks r) by (unfold range_blocks; destruct (_ <? _); div_mod_lia).
    rewrite Z2Nat.id in Hm' by exact Hrb. fold (first_block r) in Hm'.
    assert (Hin : forall b, 0 <= b < 256 -> 16384 * b < r.1 + r.2 -> r.1 < 16384 * (b + 1) ->
                  blk bm' b = 3).
    { intros b Hb Hx Hy. rewrite Hm' by exact Hb.
      pose proof (proj2 (Hbs b Hsr ltac:(lia)) (conj Hx Hy)).
      replace (_ && _) with true by lia. reflexivity. }
    assert (Hkeep : forall b, 0 <= b < 256 -> blk bm b = 3 -> blk bm' b = 3).
    { intros b Hb H3. rewrite Hm' by exact Hb. destruct (_ && _); [reflexivity|]. rewrite Hb1. exact H3. }
    pose proof (callback_linear_case (bm_linear bm) r Hsr) as Hcase.
    assert (Hlin : bm_linear bm' = callback_linear (bm_linear bm) r.1 r.2)
      by (rewrite Hl'; unfold bm1; cbn; rewrite Hl0; reflexivity).
    split; [|split; [exact Hkeep|exact Hlin]].
    remember (callback_linear (bm_linear bm) r.1 r.2) as lin eqn:Elin.
    clear Elin Hl' Hm' Hbs. rewrite List.Forall_forall in *.
    constructor; rewrite ?Hlin; clear Hlin; auto.
    + destruct Hcase; lia.
    + destruct Hcase; auto; apply Z.divide_add_r; assumption.
    + intros Hmid. assert (Hold : bm_linear bm mod 16384 <> 0 -> blk bm' (bm_linear bm / 16384) = 3).
      { intros Hm. apply Hkeep; [clear - Hl Hm; div_mod_lia|auto]. }
      destruct Hcase as [Hp Hlt|Hp Hge|Hp H0 Hlt|Hp H0 Hout]; auto; [|contradiction].
      apply Hin; clear - Hmid Hr1 Hr2 Hshape Hp; destruct Hshape as [[? ?]|(? & ? & ?)]; div_mod_lia.
    + constructor; [exact Hin|]. apply List.Forall_forall. intros x Hx b Hb Hx1 Hx2.
      apply Hkeep; [exact Hb|]. apply (Hmk x Hx); assumption.
    + constructor.
      * intros Hp. destruct Hcase; lia.
      * apply List.Forall_forall. intros x Hx Hp. pose proof (Hfr x Hx Hp). destruct Hcase; lia.
    + constructor.
      * intros Hmid. destruct Hcase as [Hp Hlt|Hp Hge|Hp H0 Hlt|Hp H0 Hout]; try lia.
        destruct Hout as [Hout|Hout]; [right|left; exact Hout].
        clear - Hout H0. div_mod_lia.
      * apply List.Forall_forall. intros x Hx Hmid. pose proof (HsR x Hx) as Hsx.
        destruct Hcase as [Hp Hlt|Hp Hge|Hp H0 Hlt|Hp H0 Hout]; auto; [|contradiction].
        destruct (Z.ltb_spec x.2 16384) as [Hxp|Hxp]; [left; pose proof (Hfr x Hx Hxp); lia|].
        destruct Hsx as [[Hx1 Hx2] _ [[? ?]|(? & Hxa & Hxb)]]; [lia|].
        destruct (Hdj x Hx) as [->|[Hd|Hd]]; [lia| |left; lia].
        right. clear - Hd Hxa Hmid. div_mod_lia.
Qed.

(** * The merge, one block at a time *)

(** The state of a block after the merge, from its live and scanned states. *)
Definition sync_state (l m : Z) : Z :=
  if m =? 0 then (if l =? 2 then 0 else if l =? 3 then 2 else l)
  else if m =? 3 then 3 else l.

(** What every step preserves of a live element. *)
Definition counted (bm : bmap_data) : Prop :=
  words_ok (bm_bitmapq bm) /\ bm_avail bm = HAMMER2_FREEMAP_BLOCK_SIZE * free_blocks bm.

(** [bm'] is [bm] with block [b] set to [v]. *)
Record updated (bm bm' : bmap_data) (b v : Z) : Prop := {
  up_counted : counted bm';
  up_block : blk bm' b = v;
  up_other c : 0 <= c < 256 -> c <> b -> blk bm' c = blk bm c;
  up_linear : bm_linear bm' = bm_linear bm
}.

Lemma updated_same bm b : counted bm -> updated bm bm b (blk bm b).
Proof. split; auto. Qed.

(** Clearing bits of one pair, keeping the count. *)
Lemma updated_clear bm bm' i k v avail :
  counted bm -> 0 <= i < 8 -> 0 <= k < 32 -> 0 <= v < 4 ->
  bm_bitmapq bm' = aset (bm_bitmapq bm) i (aget (bm_bitmapq bm) i .&~ (v .<< (2 * k))) ->
  bm_linear bm' = bm_linear bm -> bm_avail bm' = avail ->
  avail = HAMMER2_FREEMAP_BLOCK_SIZE
          * (free_blocks bm - (if blk bm (32 * i + k) =? 0 then 1 else 0)
             + (if blk bm (32 * i + k) .&~ v =? 0 then 1 else 0)) ->
  updated bm bm' (32 * i + k) (blk bm (32 * i + k) .&~ v).
Proof.
  intros [Hw Ha] Hi Hk Hv Hq Hl Hav Hcount.
  assert (Hblk : forall c, 0 <= c < 256 ->
            blk bm' c = if c =? 32 * i + k then blk bm c .&~ v else blk bm c).
  { intros c Hc. unfold blk. rewrite Hq, blkq_aset by (try apply Hw; lia).
    destruct (Z.eqb_spec (c / 32) i) as [E|E].
    - rewrite pair_ldiff_pair by (try apply Z.mod_pos_bound; lia). unfold blkq. rewrite E.
      replace (c mod 32 =? k) with (c =? 32 * i + k); [reflexivity|].
      apply eq_true_iff_eq. rewrite !Z.eqb_eq. div_mod_lia.
    - replace (c =? 32 * i + k) with false; [reflexivity|]. symmetry. apply Z.eqb_neq. div_mod_lia. }
  assert (Hb : blk bm' (32 * i + k) = blk bm (32 * i + k) .&~ v)
    by (rewrite Hblk, Z.eqb_refl by lia; reflexivity).
  assert (Hoth : forall c, 0 <= c < 256 -> c <> 32 * i + k -> blk bm' c = blk bm c).
  { intros c Hc Hne. rewrite Hblk by exact Hc. replace (c =? 32 * i + k) with false by lia. reflexivity. }
  split; auto. split.
  - rewrite Hq. apply words_ok_aset; auto. apply ldiff_range; [lia|apply Hw; lia|].
    apply Z.shiftl_nonneg. lia.
  - rewrite Hav, Hcount, (free_blocks_upd bm bm' (32 * i + k)) by (auto; lia). rewrite Hb. reflexivity.
Qed.

(** Setting one block to allocated. *)
Lemma updated_set bm bm' i k :
  counted bm -> 0 <= i < 8 -> 0 <= k < 32 ->
  bm_bitmapq bm' = aset (bm_bitmapq bm) i (aget (bm_bitmapq bm) i .| run k 1) ->
  bm_linear bm' = bm_linear bm ->
  bm_avail bm' = bm_avail bm - (if blk bm (32 * i + k) =? 0 then HAMMER2_FREEMAP_BLOCK_SIZE else 0) ->
  updated bm bm' (32 * i + k) 3.
Proof.
  intros [Hw Ha] Hi Hk Hq Hl Hav.
  pose proof (blk_set_one bm bm' i k (proj1 Hw) Hi Hk Hq) as Hm.
  assert (Hb : blk bm' (32 * i + k) = 3).
  { rewrite Hm by lia. replace ((_ <=? _) && _) with true by lia. reflexivity. }
  assert (Hoth : forall c, 0 <= c < 256 -> c <> 32 * i + k -> blk bm' c = blk bm c).
  { intros c Hc Hne. rewrite Hm by exact Hc. replace ((_ <=? c) && _) with false by lia. reflexivity. }
  split; auto. split.
  - rewrite Hq. apply words_ok_lor_run; auto; lia.
  - rewrite Hav, Ha, (free_blocks_upd bm bm' (32 * i + k)), Hb by (auto; lia).
    change (3 =? 0) with false. destruct (blk bm (32 * i + k) =? 0); cbv iota; lia.
Qed.

Section merge.
Context {IO : Type} `{!IoOps IO}.
Hypothesis dedup_delete_total : forall ty off n (io : IO), exists io', io_dedup_delete ty off n io = Done io'.
Hypothesis dedup_assert_total : forall off n (io : IO), exists io', io_dedup_assert off n io = Done io'.

Lemma blk_cases live b :
  blk live b = 0 \/ blk live b = 1 \/ blk live b = 2 \/ blk live b = 3.
Proof. pose proof (blkq_range (bm_bitmapq live) b). unfold blk. lia. Qed.

Lemma sync_unreferenced_spec live ct (io : IO) i k l tmp :
  counted live -> 0 <= i < 8 -> 0 <= k < 32 -> blk live (32 * i + k) = l ->
  exists live' ct' io',
    sync_unreferenced live ct io i k l tmp = Done (live', ct', io')
    /\ updated live live' (32 * i + k) (sync_state l 0).
Proof.
  intros Hc Hi Hk Hl. destruct (Hc) as [Hw Ha]. pose proof (free_blocks_range live) as Hf.
  unfold sync_unreferenced. cbv zeta.
  destruct (blk_cases live (32 * i + k)) as [E|[E|[E|E]]]; rewrite E in Hl; subst l.
  - do 3 eexists. split; [reflexivity|].
    change (sync_state 0 0) with 0. rewrite <- E. apply updated_same, Hc.
  - do 3 eexists. split; [reflexivity|].
    change (sync_state 1 0) with 1. rewrite <- E. apply updated_same, Hc.
  - pose proof (free_blocks_lt live (32 * i + k) ltac:(lia) ltac:(lia)) as Hlt.
    destruct (dedup_assert_total (tmp .| HAMMER2_FREEMAP_BLOCK_RADIX)
      HAMMER2_FREEMAP_BLOCK_SIZE io) as (io' & ->).
    do 3 eexists. split; [reflexivity|].
    replace (sync_state 2 0) with (blk live (32 * i + k) .&~ 2) by (rewrite E; reflexivity).
    eapply updated_clear; try reflexivity; try assumption; [lia|]. cbn [bm_avail].
    rewrite E. change (2 .&~ 2 =? 0) with true. change (2 =? 0) with false. cbv iota.
    rewrite u32_small by lia. rewrite Ha.
    destruct (Z.ltb_spec HAMMER2_FREEMAP_LEVEL0_SIZE
                (HAMMER2_FREEMAP_BLOCK_SIZE * free_blocks live + HAMMER2_FREEMAP_BLOCK_SIZE)); lia.
  - destruct (dedup_delete_total HAMMER2_BREF_TYPE_DATA
      (tmp .| HAMMER2_FREEMAP_BLOCK_RADIX) HAMMER2_FREEMAP_BLOCK_SIZE io) as (io' & ->).
    do 3 eexists. split; [reflexivity|].
    replace (sync_state 3 0) with (blk live (32 * i + k) .&~ 1) by (rewrite E; reflexivity).
    eapply updated_clear; try reflexivity; try assumption; [lia|]. cbn [set_bitmapq bm_avail].
    rewrite E. change (3 .&~ 1 =? 0) with false. change (3 =? 0) with false. cbv iota. lia.
Qed.

Lemma sync_referenced_spec live ct i k l :
  counted live -> 0 <= i < 8 -> 0 <= k < 32 -> blk live (32 * i + k) = l ->
  updated live (sync_referenced live ct i k l).1 (32 * i + k) 3.
Proof.
  intros Hc Hi Hk Hl. destruct (Hc) as [Hw Ha].
  assert (Hmask : u64 (3 .<< (2 * k)) = run k 1).
  { change 3 with (run 0 1). rewrite u64_run_shift by lia. reflexivity. }
  unfold sync_referenced. rewrite Hmask. pose proof (free_blocks_range live) as Hf.
  destruct (blk_cases live (32 * i + k)) as [E|[E|[E|E]]]; rewrite E in Hl; subst l; cbn [fst];
    apply updated_set; try assumption; try reflexivity; cbn [bm_avail]; rewrite E.
  - pose proof (free_blocks_pos live (32 * i + k) ltac:(lia) E) as Hp.
    change (0 =? 0) with true. cbv iota. rewrite u32_small by lia. rewrite i32_small by lia.
    destruct (Z.ltb_spec (bm_avail live - HAMMER2_FREEMAP_BLOCK_SIZE) 0); lia.
  - change (1 =? 0) with false. cbv iota. lia.
  - change (2 =? 0) with false. cbv iota. lia.
  - change (3 =? 0) with false. cbv iota. lia.
Qed.

(** The merged element relative to the initial live and the scanned one, for
    the blocks of [merged], the rest being still as in [live0]. *)
Definition merged_on (live0 bmap live : bmap_data) (merged : Z -> Prop) : Prop :=
  forall b, 0 <= b < 256 ->
    (merged b -> blk live b = sync_state (blk live0 b) (blk bmap b))
    /\ (~ merged b -> blk live b = blk live0 b).

Lemma sync_pair_step live ct (io : IO) i k bmap tmp :
  counted live -> 0 <= i < 8 -> 0 <= k < 32 ->
  exists live' ct' io',
    (if pair (aget (bm_bitmapq bmap) i) k =? 0
     then sync_unreferenced live ct io i k (blk live (32 * i + k)) tmp
     else if pair (aget (bm_bitmapq bmap) i) k =? 3
     then let '(live, ct) := sync_referenced live ct i k (blk live (32 * i + k)) in Done (live, ct, io)
     else Done (live, ct, io)) = Done (live', ct', io')
    /\ updated live live' (32 * i + k)
         (sync_state (blk live (32 * i + k)) (blk bmap (32 * i + k))).
Proof.
  intros Hc Hi Hk.
  assert (Hm : blk bmap (32 * i + k) = pair (aget (bm_bitmapq bmap) i) k) by (apply blkq_word; lia).
  rewrite Hm. destruct (Z.eqb_spec (pair (aget (bm_bitmapq bmap) i) k) 0) as [E|E].
  - destruct (sync_unreferenced_spec live ct io i k _ tmp Hc Hi Hk eq_refl) as (l & c & io' & -> & Hu).
    exists l, c, io'. split; [reflexivity|]. rewrite E. exact Hu.
  - destruct (Z.eqb_spec (pair (aget (bm_bitmapq bmap) i) k) 3) as [E3|E3].
    + pose proof (sync_referenced_spec live ct i k _ Hc Hi Hk eq_refl) as Hu.
      destruct (sync_referenced live ct i k (blk live (32 * i + k))) as [l c]. cbn [fst] in Hu.
      exists l, c, io. split; [reflexivity|]. rewrite E3. exact Hu.
    + exists live, ct, io. split; [reflexivity|]. unfold sync_state.
      apply Z.eqb_neq in E, E3. rewrite E, E3. apply updated_same, Hc.
Qed.

Lemma sync_pairs_spec live0 bmap i fuel : forall k live ct (io : IO) tmp,
  counted live -> 0 <= i < 8 -> 0 <= k -> k + Z.of_nat fuel = 32 ->
  (forall c, 32 * i + k <= c < 32 * i + 32 -> blk live c = pair (aget (bm_bitmapq live0) i) (c - 32 * i)) ->
  exists live' ct' io',
    sync_pairs fuel k live ct io i (aget (bm_bitmapq live0) i .>> (2 * k))
      (aget (bm_bitmapq bmap) i .>> (2 * k)) tmp = Done (live', ct', io')
    /\ counted live' /\ bm_linear live' = bm_linear live
    /\ merged_on live bmap live' (fun b => 32 * i + k <= b < 32 * i + 32).
Proof.
  induction fuel as [|fuel IH]; intros k live ct io tmp Hc Hi Hk Hf Hsame; cbn [sync_pairs].
  - exists live, ct, io. split; [reflexivity|]. split; [exact Hc|]. split; [reflexivity|].
    intros b Hb. split; [lia|auto].
  - change (aget (bm_bitmapq bmap) i .>> (2 * k) .& 3) with (pair (aget (bm_bitmapq bmap) i) k).
    change (aget (bm_bitmapq live0) i .>> (2 * k) .& 3) with (pair (aget (bm_bitmapq live0) i) k).
    replace (pair (aget (bm_bitmapq live0) i) k) with (blk live (32 * i + k))
      by (rewrite Hsame by lia; f_equal; lia).
    destruct (sync_pair_step live ct io i k bmap tmp Hc Hi ltac:(lia)) as (l1 & c1 & io1 & -> & Hu).
    cbn [obind]. rewrite !Z.shiftr_shiftr by lia. replace (2 * k + 2) with (2 * (k + 1)) by lia.
    destruct Hu as [Hc1 Hb1 Ho1 Hl1].
    destruct (IH (k + 1) l1 c1 io1 (tmp + HAMMER2_FREEMAP_BLOCK_SIZE)) as (l2 & c2 & io2 & -> & Hc2 & Hl2 & Hm);
      auto; try lia.
    { intros c Hcr. rewrite Ho1 by lia. apply Hsame. lia. }
    exists l2, c2, io2. split; [reflexivity|]. split; [exact Hc2|]. split; [congruence|].
    intros b Hb. destruct (Hm b Hb) as [Hin Hout].
    destruct (decide (b = 32 * i + k)) as [->|Hne].
    + split; [|lia]. intros _. rewrite Hout by lia. exact Hb1.
    + split; intros Hx.
      * rewrite Hin by lia. rewrite Ho1 by (assumption || lia). reflexivity.
      * rewrite Hout by lia. apply Ho1; assumption.
Qed.

Lemma sync_words_spec bmap fuel : forall i live ct (io : IO) tmp,
  counted live -> words_ok (bm_bitmapq bmap) -> 0 <= i -> i + Z.of_nat fuel = 8 ->
  exists live' ct' io',
    sync_words fuel i live ct io bmap tmp = Done (live', ct', io')
    /\ counted live' /\ bm_linear live' = bm_linear live
    /\ forall b, 0 <= b < 256 ->
         (32 * i <= b -> blk live' b = sync_state (blk live b) (blk bmap b)
                         \/ (blk live' b = blk live b /\ blk live b = blk bmap b))
         /\ (b < 32 * i -> blk live' b = blk live b).
Proof.
  induction fuel as [|fuel IH]; intros i live ct io tmp Hc Hw Hi Hf; cbn [sync_words].
  - exists live, ct, io. split; [reflexivity|]. split; [exact Hc|]. split; [reflexivity|].
    intros b Hb. split; [lia|auto].
  - assert (Hword : exists l1 c1 io1,
        (if aget (bm_bitmapq live) i =? aget (bm_bitmapq bmap) i then Done (live, ct, io)
         else sync_pairs 32 0 live ct io i (aget (bm_bitmapq live) i) (aget (bm_bitmapq bmap) i) tmp)
        = Done (l1, c1, io1) /\ counted l1 /\ bm_linear l1 = bm_linear live
        /\ forall b, 0 <= b < 256 ->
             (32 * i <= b < 32 * i + 32 -> blk l1 b = sync_state (blk live b) (blk bmap b)
                                \/ (blk l1 b = blk live b /\ blk live b = blk bmap b))
             /\ (~ (32 * i <= b < 32 * i + 32) -> blk l1 b = blk live b)).
    { destruct (Z.eqb_spec (aget (bm_bitmapq live) i) (aget (bm_bitmapq bmap) i)) as [E|E].
      - exists live, ct, io. split; [reflexivity|]. split; [exact Hc|]. split; [reflexivity|].
        intros b Hb. split; [|auto]. intros Hbi. right. split; [reflexivity|].
        replace b with (32 * i + (b - 32 * i)) by lia. unfold blk. rewrite !blkq_word by lia.
        rewrite E. reflexivity.
      - destruct (sync_pairs_spec live bmap i 32 0 live ct io tmp) as (l1 & c1 & io1 & Hr & Hc1 & Hl1 & Hm);
          try assumption; try lia.
        { intros c Hcr. replace c with (32 * i + (c - 32 * i)) at 1 by lia. unfold blk.
          apply blkq_word; lia. }
        rewrite !Z.shiftr_0_r in Hr. exists l1, c1, io1. split; [exact Hr|]. split; [exact Hc1|].
        split; [exact Hl1|]. intros b Hb. destruct (Hm b Hb) as [Hin Hout].
        split; intros Hx; [left; apply Hin; lia|apply Hout; lia]. }
    destruct Hword as (l1 & c1 & io1 & -> & Hc1 & Hl1 & Hb1). cbn [obind].
    destruct (IH (i + 1) l1 c1 io1 (tmp + HAMMER2_BMAP_INDEX_SIZE)) as (l2 & c2 & io2 & -> & Hc2 & Hl2 & Hb2);
      auto; try lia.
    exists l2, c2, io2. split; [reflexivity|]. split; [exact Hc2|]. split; [congruence|].
    intros b Hb. destruct (Hb1 b Hb) as [Hin1 Hout1], (Hb2 b Hb) as [Hin2 Hout2]. split; intros Hx.
    + destruct (decide (b < 32 * i + 32)) as [Hlt|Hge].
      * rewrite Hout2 by lia. apply Hin1. lia.
      * rewrite <- Hout1 by lia. apply Hin2. lia.
    + rewrite Hout2 by lia. apply Hout1. lia.
Qed.
End merge.

(** * The merge of an element *)

Lemma last_nonzero_neg fuel : forall qs j,
  j = Z.of_nat fuel - 1 -> last_nonzero fuel qs j < 0 ->
  forall i, 0 <= i <= j -> aget qs i = 0.
Proof.
  induction fuel as [|fuel IH]; intros qs j Hj Hl i Hi; [lia|]. cbn [last_nonzero] in Hl.
  destruct (Z.eqb_spec (aget qs j) 0) as [E|E]; cbn [negb] in Hl; [|lia].
  destruct (decide (i = j)) as [->|]; [exact E|]. apply (IH qs (j - 1)); lia.
Qed.

Lemma zero_words_blocks bm :
  (forall i, 0 <= i <= 7 -> aget (bm_bitmapq bm) i = 0) ->
  forall b, 0 <= b < 256 -> blk bm b = 0.
Proof.
  intros Hz b Hb. unfold blk, blkq. rewrite Hz by div_mod_lia. apply pair_zero.
Qed.

Lemma free_blocks_bitmap bm bm' :
  bm_bitmapq bm' = bm_bitmapq bm -> free_blocks bm' = free_blocks bm.
Proof. intros E. unfold free_blocks, blk. rewrite E. reflexivity. Qed.

Lemma counted_linear l bm : counted bm -> counted (set_linear l bm).
Proof.
  intros [Hw Ha]. split; [exact Hw|]. cbn [set_linear bm_avail].
  rewrite (free_blocks_bitmap bm) by reflexivity. exact Ha.
Qed.

Lemma free_blocks_all bm : (forall b, 0 <= b < 256 -> blk bm b = 0) -> free_blocks bm = 256.
Proof. intros H. exact (nzero_all (blk bm) 256 H). Qed.

(** The possible new linear iterators. *)
Inductive linear_after (bmap live : bmap_data) : Z -> Prop :=
| la_aligned l :
    0 <= l <= HAMMER2_SEGSIZE -> l mod 16384 = 0 -> linear_after bmap live l
| la_raised :
    bm_linear live < bm_linear bmap -> bm_linear live / 16384 = bm_linear bmap / 16384 ->
    linear_after bmap live (bm_linear bmap).

Lemma same_block_xor x y :
  0 <= x -> 0 <= y -> (x .^ y) .&~ HAMMER2_FREEMAP_BLOCK_MASK = 0 -> x / 16384 = y / 16384.
Proof.
  intros Hx Hy H. change HAMMER2_FREEMAP_BLOCK_MASK with (Z.ones 14) in H.
  change 16384 with (2 ^ 14). rewrite <- !Z.shiftr_div_pow2 by lia. apply Z.bits_inj'. intros k Hk.
  rewrite !Z.shiftr_spec by lia.
  apply (f_equal (fun z => Z.testbit z (k + 14))) in H.
  rewrite Z.ldiff_spec, Z.lxor_spec, Z.bits_0, Z.ones_spec_high in H by lia.
  cbn [negb] in H. rewrite andb_true_r in H.
  destruct (Z.testbit x (k + 14)), (Z.testbit y (k + 14)); cbn in H; congruence.
Qed.

Lemma sync_linear_spec live bmap ct :
  counted live -> 0 <= bm_linear live -> 0 <= bm_linear bmap <= HAMMER2_SEGSIZE ->
  let live' := (sync_linear live bmap ct).1 in
  counted live' /\ (forall b, blk live' b = blk live b)
  /\ linear_after bmap live (bm_linear live').
Proof.
  intros [Hw Ha] Hl Hb. unfold sync_linear. cbv zeta.
  destruct (Z.ltb_spec (last_nonzero 8 (bm_bitmapq live) (HAMMER2_BMAP_ELEMENTS - 1)) 0) as [Hn|Hn].
  - cbn [fst]. pose proof (last_nonzero_neg 8 _ 7 eq_refl Hn) as Hz.
    pose proof (free_blocks_all live (zero_words_blocks live Hz)) as Hf.
    split; [split; [exact Hw|]|split; [reflexivity|apply la_aligned; cbn [bm_linear]; [lia|reflexivity]]].
    cbn [bm_avail]. rewrite (free_blocks_bitmap live) by reflexivity. lia.
  - destruct (_ <? 7).
    + destruct ((bm_linear live <? bm_linear bmap) && _) eqn:E; cbn [fst].
      * split; [apply counted_linear; split; assumption|]. split; [reflexivity|].
        apply andb_true_iff in E as [E1 E2]. apply Z.eqb_eq in E2. cbn [set_linear bm_linear].
        apply la_raised; [lia|]. apply same_block_xor; auto; lia.
      * split; [apply counted_linear; split; assumption|]. split; [reflexivity|]. cbn [set_linear bm_linear].
        change HAMMER2_FREEMAP_BLOCK_MASK with (Z.ones 14).
        pose proof (roundup_mask (bm_linear bmap) 14 ltac:(lia)) as [Hr [c Hc]].
        rewrite Hc in *. change (2 ^ 14) with 16384 in *.
        apply la_aligned; [lia|apply Z.mod_mul; lia].
    + cbn [fst]. split; [apply counted_linear; split; assumption|]. split; [reflexivity|].
      cbn [set_linear bm_linear]. apply la_aligned; [lia|reflexivity].
Qed.

Section merge_element.
Context {IO : Type} `{!IoOps IO}.
Hypothesis dedup_delete_total : forall ty off n (io : IO), exists io', io_dedup_delete ty off n io = Done io'.
Hypothesis dedup_assert_total : forall off n (io : IO), exists io', io_dedup_assert off n io = Done io'.

Lemma sync_adjust_spec live ct (io : IO) bmap data_off R :
  bmap_ok live -> scan_inv bmap R ->
  exists live' ct' io',
    h2_bulkfree_sync_adjust live ct io bmap data_off = Done (live', ct', io')
    /\ bmap_ok live'
    /\ (forall b, 0 <= b < 256 -> blk live' b = sync_state (blk live b) (blk bmap b))
    /\ linear_after bmap live (bm_linear live').
Proof.
  intros Hok Hsi. assert (Hc : counted live) by (split; apply Hok).
  unfold h2_bulkfree_sync_adjust.
  destruct (sync_words_spec dedup_delete_total dedup_assert_total bmap 8 0 live ct io data_off)
    as (l1 & c1 & io1 & -> & Hc1 & Hl1 & Hb1); auto; try lia; [apply Hsi|]. cbn [obind].
  assert (Hst : forall b, 0 <= b < 256 -> blk l1 b = sync_state (blk live b) (blk bmap b)).
  { intros b Hb. destruct (Hb1 b Hb) as [H _]. destruct H as [H|[H1 H2]]; [lia|exact H|].
    rewrite H1, <- H2. destruct (si_two _ _ Hsi b Hb) as [E|E]; rewrite <- H2 in E; rewrite E; reflexivity. }
  pose proof (sync_linear_spec l1 bmap c1 Hc1) as Hsl. rewrite Hl1 in Hsl.
  specialize (Hsl (proj1 (ok_linear _ Hok)) (si_linear _ _ Hsi)). cbv zeta in Hsl.
  destruct (sync_linear l1 bmap c1) as [l2 c2]. cbn [fst] in Hsl. destruct Hsl as ([Hw2 Ha2] & Hb2 & Hla).
  assert (Hst2 : forall b, 0 <= b < 256 -> blk l2 b = sync_state (blk live b) (blk bmap b))
    by (intros; rewrite Hb2; auto).
  assert (Hla' : linear_after bmap live (bm_linear l2)).
  { destruct Hla as [l Hx Hy|Hx Hy]; [apply la_aligned; auto|]. rewrite Hl1 in *. apply la_raised; auto. }
  exists l2, c2, io1. split; [reflexivity|]. split; [|auto].
  pose proof (si_linear _ _ Hsi). pose proof (si_linear_align _ _ Hsi).
  constructor; auto.
  - destruct Hla'; lia.
  - destruct Hla' as [l _ Hm|]; [|assumption]. apply Z.mod_divide in Hm; [|lia].
    destruct Hm as [c ->]. exists (c * 16). lia.
  - intros Hm. rewrite Hst2 by (destruct Hla'; clear - Hm H H1; div_mod_lia).
    destruct Hla' as [l _ Hm'|_ _]; [contradiction|].
    rewrite (si_linear_marked _ _ Hsi Hm). unfold sync_state. cbn. lia.
Qed.

(** Scanned ranges are owned in the merged element. *)
Lemma sync_owned live live' bmap R r :
  scan_inv bmap R -> scan_range r -> In r R ->
  (forall b, 0 <= b < 256 -> blk live' b = sync_state (blk live b) (blk bmap b)) ->
  linear_after bmap live (bm_linear live') ->
  range_owned live' r.
Proof.
  intros Hsi Hsr Hin Hst Hla. pose proof (si_marked _ _ Hsi) as Hm. pose proof (si_owned _ _ Hsi) as Ho.
  rewrite List.Forall_forall in Hm, Ho. specialize (Hm r Hin). specialize (Ho r Hin).
  destruct Hsr as [Hb _ Hs]. constructor.
  - destruct Hs; lia.
  - intros b Hbr H1 H2. rewrite Hst, (Hm b Hbr H1 H2) by exact Hbr. unfold sync_state. cbn. lia.
  - intros Hmid. destruct Hla as [l _ Hal|_ _]; [contradiction|]. apply Ho, Hmid.
Qed.
End merge_element.
