(* ===== verification/BulkfreePass.v ===== *)
(** A bulkfree pass over the device: initialise the in-memory freemap, scan the
    referenced storage, synchronise the live freemap.  The pass preserves the
    well-formedness of the volume and the ownership of every scanned range. *)

From Stdlib Require Import ZArith Lia Bool.
From stdpp Require Import base numbers list option gmap.
From S2P Require Import Prelude Disk Crc Subr Bitmap Freemap BmapAlloc FreemapAlloc FreemapMaint.
From S2P Require Import Bulkfree BulkfreeProof.

(** * The in-memory freemap *)

(** Element [e, e + 4MB) holds allocatable storage. *)
Definition usable (total beg e : Z) : bool :=
  (beg <=? e) && (HAMMER2_ZONE_SEG <=? e mod HAMMER2_FREEMAP_LEVEL1_SIZE)
  && (e + HAMMER2_FREEMAP_LEVEL0_SIZE <=? total).

(** An in-memory element: what it knows about the scanned ranges [R]; wholly
    allocated when the storage is not usable. *)
Record elem_inv (use : bool) (bm : bmap_data) (R : list range) : Prop := {
  ei_scan : scan_inv bm R;
  ei_full : use = false ->
    (forall b, 0 <= b < 256 -> blk bm b = 3) /\ bm_linear bm = HAMMER2_SEGSIZE
}.

Lemma blk_full c b : 0 <= b < 256 -> blk (bmap_full c) b = 3.
Proof.
  intros Hb. unfold blk. cbn [bmap_full bm_bitmapq]. rewrite blkq_replicate by exact Hb.
  apply pair_allones. apply Z.mod_pos_bound. lia.
Qed.

Lemma blk_fresh b : 0 <= b < 256 -> blk bmap_fresh b = 0.
Proof.
  intros Hb. unfold blk. cbn [bmap_fresh bm_bitmapq]. rewrite blkq_replicate by exact Hb.
  apply pair_zero.
Qed.

Lemma elem_inv_fresh : elem_inv true bmap_fresh [].
Proof.
  split; [|discriminate].
  constructor; [apply (ok_words _ bmap_fresh_ok)| |cbn; lia|exists 0; reflexivity| |constructor..].
  - intros b Hb. left. apply blk_fresh. exact Hb.
  - intros H. exfalso. apply H. reflexivity.
Qed.

Lemma elem_inv_full use : elem_inv use (bmap_full 0) [].
Proof.
  split; [|intros _; split; [intros; apply blk_full; assumption|reflexivity]].
  constructor; [apply (ok_words _ (bmap_full_ok 0))| |cbn; lia|exists 4096; reflexivity| |constructor..].
  - intros b Hb. right. apply blk_full. exact Hb.
  - intros H. exfalso. apply H. reflexivity.
Qed.

(** The running [lokey] never rejects more than the static allocation and the
    current zone's reserved segment. *)
Lemma bmap_init_get total beg n : forall key lokey i,
  0 <= i < Z.of_nat n -> 0 <= key -> key + Z.of_nat n * 4194304 < 2 ^ 62 -> (2 ^ 22 | key) ->
  0 <= beg < 2 ^ 62 -> 0 <= total < 2 ^ 62 ->
  beg <= lokey -> (forall e, (2 ^ 22 | e) -> key <= e -> beg <= e -> 4194304 <= e mod 2 ^ 30 -> lokey <= e) ->
  aget (bmap_init_loop n key lokey (total .&~ HAMMER2_SEGMASK)) i =
    if usable total beg (key + i * 4194304) then bmap_fresh else bmap_full 0.
Proof.
  induction n as [|n IH]; intros key lokey i Hi Hk Hkn Hkd Hb Ht Hlo1 Hlo2; [lia|].
  cbn [bmap_init_loop]. cbv zeta.
  set (lo1 := if lokey <? _ then _ else lokey). set (lo2 := if lo1 <? _ then _ else lo1).
  destruct (H2FMBASE_spec key Hk) as (Hbd & Hb1 & Hb2). change HAMMER2_FREEMAP_LEVEL1_RADIX with 30 in *.
  assert (Hzone : H2FMZONEBASE key = H2FMBASE key 30)
    by (rewrite H2FMZONEBASE_eq, H2FMBASE_eq by lia; reflexivity).
  set (base := H2FMBASE key 30) in *.
  assert (Hlo : lo2 = Z.max lokey (base + 4194304)).
  { unfold lo2, lo1. rewrite Hzone.
    destruct (Z.ltb_spec lokey base); [destruct (Z.ltb_spec base (base + HAMMER2_ZONE_SEG)); lia|].
    destruct (Z.ltb_spec lokey (base + HAMMER2_ZONE_SEG)); lia. }
  assert (Hnext : forall e, (2 ^ 22 | e) -> key <= e -> beg <= e -> 4194304 <= e mod 2 ^ 30 -> lo2 <= e).
  { intros e He Hke Hbe Hem. specialize (Hlo2 e He Hke Hbe Hem). rewrite Hlo.
    destruct Hbd as [c Hc]. rewrite Hc in *. change (2 ^ 30) with 1073741824 in *.
    clear - Hlo2 Hem Hke Hb1. div_mod_lia. }
  rewrite aget_cons by lia. destruct (Z.eqb_spec i 0) as [->|Hi0].
  - replace (key + 0 * 4194304) with key by lia.
    assert (Hhi : (total .&~ HAMMER2_SEGMASK <=? key) = negb (key + 4194304 <=? total)).
    { change HAMMER2_SEGMASK with (Z.ones 22). rewrite ldiff_ones by lia. destruct Hkd as [c Hc].
      rewrite Hc. change (2 ^ 22) with 4194304. apply eq_true_iff_eq.
      rewrite negb_true_iff, Z.leb_le, Z.leb_gt. clear. div_mod_lia. }
    assert (Hlt : (key <? lo2) = negb ((beg <=? key) && (4194304 <=? key mod 2 ^ 30))).
    { assert (Hkm : key mod 2 ^ 30 = key - base) by (unfold base; rewrite H2FMBASE_eq by lia; lia).
      rewrite Hkm. destruct (Z.ltb_spec key lo2) as [Hl|Hl].
      - symmetry. apply negb_true_iff, andb_false_iff. rewrite !Z.leb_gt.
        destruct (Z.lt_ge_cases key beg); [left; lia|right].
        destruct (Z.lt_ge_cases (key - base) 4194304); [lia|].
        specialize (Hnext key Hkd ltac:(lia) ltac:(lia)). rewrite Hkm in Hnext. lia.
      - symmetry. apply negb_false_iff, andb_true_iff. rewrite !Z.leb_le. lia. }
    rewrite Hhi, Hlt. unfold usable. change HAMMER2_FREEMAP_LEVEL1_SIZE with (2 ^ 30).
    destruct (beg <=? key), (4194304 <=? key mod 2 ^ 30), (key + 4194304 <=? total); reflexivity.
  - rewrite u64_small by lia. rewrite IH; try assumption; try lia.
    + replace (key + 4194304 + (i - 1) * 4194304) with (key + i * 4194304) by lia. reflexivity.
    + apply Z.divide_add_r; [exact Hkd|exists 1; reflexivity].
    + intros e He Hke Hbe Hem. apply Hnext; auto. lia.
Qed.

Lemma bmap_init_length n : forall key lokey hikey, length (bmap_init_loop n key lokey hikey) = n.
Proof. induction n as [|n IH]; intros; cbn; [reflexivity|]. f_equal. apply IH. Qed.

(** * The scan of the topology *)

Definition off_of (bref : blockref) : Z := br_data_off bref .&~ HAMMER2_OFF_MASK_RADIX6.
Definition size_of (bref : blockref) : Z := 1 .<< (br_data_off bref .& HAMMER2_OFF_MASK_RADIX6).
Definition device_range (bref : blockref) : range := (off_of bref, size_of bref).

(** The pass covers [sbase, sstop), which starts on a gigabyte. *)
Record pass_ok (total beg : Z) (cb : bulkfree_info) : Prop := {
  po_geom : geometry total beg;
  po_sbase : 0 <= cb_sbase cb /\ (2 ^ 30 | cb_sbase cb);
  po_sstop : cb_sstop cb <= total /\ (cb_sstop cb = total \/ (2 ^ 22 | cb_sstop cb));
  po_len : cb_sstop cb <= cb_sbase cb + alen (cb_bmap cb) * HAMMER2_FREEMAP_LEVEL0_SIZE;
  po_max : cb_sbase cb + alen (cb_bmap cb) * HAMMER2_FREEMAP_LEVEL0_SIZE < 2 ^ 62
}.

(** The callback skips the blockref. *)
Definition skipped (total beg : Z) (cb : bulkfree_info) (bref : blockref) : bool :=
  (off_of bref <? cb_sbase cb) || (cb_sstop cb <=? off_of bref) || (off_of bref <? beg)
  || (total <=? off_of bref).

(** A blockref the file system can hold: its storage is a fragment of a block
    or whole blocks, inside one element and the volume. *)
Record bref_storage (total : Z) (bref : blockref) : Prop := {
  bs_radix : radix_ok (br_data_off bref .& HAMMER2_OFF_MASK_RADIX6);
  bs_off : 0 <= off_of bref /\ off_of bref + size_of bref <= total;
  bs_range : scan_range (off_of bref mod 4194304, size_of bref)
}.

(** The scanned ranges of element [n] of the pass, relative to the element. *)
Definition elem_ranges (total beg : Z) (cb : bulkfree_info) (n : Z) (brefs : list blockref)
  : list range :=
  map (fun bref => (off_of bref mod 4194304, size_of bref))
    (List.filter (fun bref => negb (skipped total beg cb bref)
                              && ((off_of bref - cb_sbase cb) / 4194304 =? n)) brefs).

(** Scan without interruption; the callback never fails. *)
Fixpoint scan_brefs (total beg tps : Z) (cb : bulkfree_info) (brefs : list blockref)
  : outcome bulkfree_info :=
  match brefs with
  | [] => Done cb
  | bref :: brefs =>
      let! (_, cb) := h2_bulkfree_callback total beg tps false cb bref in
      scan_brefs total beg tps cb brefs
  end.

Definition same_window (cb cb' : bulkfree_info) : Prop :=
  cb_sbase cb' = cb_sbase cb /\ cb_sstop cb' = cb_sstop cb
  /\ alen (cb_bmap cb') = alen (cb_bmap cb).

(** Every in-memory element of the pass. *)
Definition cb_inv (total beg : Z) (cb : bulkfree_info) (brefs : list blockref) : Prop :=
  forall n, 0 <= n < alen (cb_bmap cb) ->
    elem_inv (usable total beg (cb_sbase cb + n * 4194304)) (aget (cb_bmap cb) n)
             (elem_ranges total beg cb n brefs).

Lemma elem_inv_add use bm class r R :
  elem_inv use bm R -> scan_range r -> Forall scan_range R ->
  Forall (fun r' => r' = r \/ disjoint_ranges r r') R ->
  exists bm', callback_element bm class r.1 r.2 = Done bm' /\ elem_inv use bm' (r :: R).
Proof.
  intros [Hs Hf] Hr HR Hd.
  destruct (callback_element_spec bm class r R Hs Hr HR Hd) as (bm' & -> & Hs' & Hk & Hl).
  exists bm'. split; [reflexivity|]. split; [exact Hs'|]. intros Hu. destruct (Hf Hu) as [Hf1 Hf2].
  split; [intros; apply Hk; auto|]. rewrite Hl, Hf2. destruct Hr as [[Hb1 Hb2] _ Hsh].
  unfold callback_linear. destruct (tst _ _).
  - replace (HAMMER2_SEGSIZE <? r.1 + r.2) with false by lia. reflexivity.
  - replace (HAMMER2_SEGSIZE <? r.1 + r.2) with false by lia. rewrite andb_false_r. reflexivity.
Qed.

(** The arithmetic of the callback on a storable blockref. *)
Lemma callback_spec total beg tps cb bref :
  pass_ok total beg cb ->
  (skipped total beg cb bref = false -> bref_storage total bref) ->
  exists cb1, same_window cb cb1 /\ cb_bmap cb1 = cb_bmap cb /\
    h2_bulkfree_callback total beg tps false cb bref =
      if skipped total beg cb bref then Done (0, cb1)
      else
        let n := (off_of bref - cb_sbase cb) / 4194304 in
        let! bm := callback_element (aget (cb_bmap cb) n)
                     (u16 ((br_type bref .<< 8) .| HAMMER2_PBUFRADIX))
                     (off_of bref mod 4194304) (size_of bref) in
        Done (0, set_cb_bmap (aset (cb_bmap cb) n bm) cb1).
Proof.
  intros [[Ht Hbeg] [Hs0 Hsd] [Hss Hssa] Hlen Hmax] Hst. unfold h2_bulkfree_callback. cbn [andb].
  set (cb1 := if negb _ && negb _ then _ else cb).
  assert (H1 : cb_sbase cb1 = cb_sbase cb /\ cb_sstop cb1 = cb_sstop cb /\ cb_bmap cb1 = cb_bmap cb)
    by (unfold cb1; destruct (_ && _); auto).
  destruct H1 as (E1 & E2 & E3). exists cb1.
  split; [unfold same_window; rewrite E1, E2, E3; auto|]. split; [exact E3|]. cbv zeta.
  rewrite E1, E2, E3. fold (off_of bref). unfold skipped in *.
  destruct (Z.ltb_spec (off_of bref) (cb_sbase cb)); [reflexivity|].
  destruct (Z.leb_spec (cb_sstop cb) (off_of bref)); [reflexivity|]. cbn [orb] in *.
  destruct (off_of bref <? beg); [reflexivity|]. cbn [orb] in *.
  destruct (total <=? off_of bref); [reflexivity|].
  destruct (Hst eq_refl) as [Hr [Ho1 Ho2] [Hb _ _]]. cbn [fst snd] in Hb.
  assert (Hsz : u64 (1 .<< (br_data_off bref .& HAMMER2_OFF_MASK_RADIX6)) = size_of bref).
  { unfold size_of. rewrite size_eq. pose proof (size_nblk _ Hr). apply u64_small. lia. }
  assert (Hszp : 0 <= size_of bref).
  { unfold size_of. rewrite size_eq. pose proof (size_nblk _ Hr). lia. }
  rewrite assert_true by (unfold radix_ok in Hr; lia). rewrite Hsz.
  rewrite u64_small by lia.
  replace (cb_sstop cb <? off_of bref + size_of bref) with false.
  2: { symmetry. apply Z.ltb_ge. destruct Hssa as [->|[c Hc]]; [lia|].
       change (2 ^ 22) with 4194304 in Hc. clear - H0 Hb Hc. div_mod_lia. }
  change HAMMER2_FREEMAP_LEVEL0_RADIX with 22. change HAMMER2_FREEMAP_LEVEL0_MASK with (Z.ones 22).
  rewrite Z.shiftr_div_pow2, Z.land_ones by lia. change (2 ^ 22) with 4194304.
  replace ((off_of bref - cb_sbase cb) mod 4194304) with (off_of bref mod 4194304).
  2: { destruct Hsd as [c Hc]. rewrite Hc. change (2 ^ 30) with 1073741824. clear. div_mod_lia. }
  replace (HAMMER2_FREEMAP_LEVEL0_SIZE <? off_of bref mod 4194304 + size_of bref) with false by lia.
  reflexivity.
Qed.

(** Two storable blockrefs share storage exactly or not at all. *)
Definition compatible (b1 b2 : blockref) : Prop :=
  device_range b1 = device_range b2 \/ disjoint_ranges (device_range b1) (device_range b2).

Lemma elem_ranges_cons total beg cb n bref brefs :
  elem_ranges total beg cb n (bref :: brefs) =
    if negb (skipped total beg cb bref) && ((off_of bref - cb_sbase cb) / 4194304 =? n)
    then (off_of bref mod 4194304, size_of bref) :: elem_ranges total beg cb n brefs
    else elem_ranges total beg cb n brefs.
Proof. unfold elem_ranges. cbn [List.filter]. destruct (_ && _); reflexivity. Qed.

Lemma elem_ranges_window total beg cb cb' n brefs :
  same_window cb cb' -> elem_ranges total beg cb' n brefs = elem_ranges total beg cb n brefs.
Proof.
  intros (E1 & E2 & _). unfold elem_ranges, skipped. rewrite E1, E2. reflexivity.
Qed.

Lemma elem_ranges_in total beg cb n brefs r :
  In r (elem_ranges total beg cb n brefs) ->
  exists bref, In bref brefs /\ skipped total beg cb bref = false
    /\ (off_of bref - cb_sbase cb) / 4194304 = n
    /\ r = (off_of bref mod 4194304, size_of bref).
Proof.
  unfold elem_ranges. intros H. apply List.in_map_iff in H as (bref & <- & H).
  apply List.filter_In in H as [Hin H]. apply andb_true_iff in H as [H1 H2].
  exists bref. split; [exact Hin|]. split; [apply negb_true_iff; exact H1|].
  split; [apply Z.eqb_eq; exact H2|reflexivity].
Qed.

(** Offsets in the same element differ like their remainders. *)
Lemma same_element s o1 o2 :
  (2 ^ 30 | s) -> (o1 - s) / 4194304 = (o2 - s) / 4194304 ->
  o1 - o1 mod 4194304 = o2 - o2 mod 4194304.
Proof.
  intros [c ->] H. change (2 ^ 30) with 1073741824 in *. div_mod_lia.
Qed.

Lemma callback_inv total beg tps cb bref brefs :
  pass_ok total beg cb -> cb_inv total beg cb brefs ->
  Forall (fun b => skipped total beg cb b = false -> bref_storage total b) (bref :: brefs) ->
  Forall (compatible bref) brefs ->
  exists cb', h2_bulkfree_callback total beg tps false cb bref = Done (0, cb')
    /\ same_window cb cb' /\ cb_inv total beg cb' (bref :: brefs).
Proof.
  intros Hpo Hinv Hall Hcomp. inversion Hall as [|? ? Hst Hsts]; subst.
  destruct (callback_spec total beg tps cb bref Hpo Hst) as (cb1 & Hw1 & Hbm1 & ->).
  destruct (skipped total beg cb bref) eqn:Esk.
  - exists cb1. split; [reflexivity|]. split; [exact Hw1|]. intros n Hn. rewrite Hbm1 in *.
    rewrite elem_ranges_cons, !(elem_ranges_window _ _ _ _ _ _ Hw1).
    destruct Hw1 as (E1 & E2 & E3). unfold skipped in *. rewrite E1, E2, Esk. cbn [negb andb].
    apply Hinv. exact Hn.
  - cbv zeta. set (n := (off_of bref - cb_sbase cb) / 4194304).
    destruct (Hst eq_refl) as [Hr Ho Hsr]. destruct Hpo as [Hg [Hs0 Hsd] Hss Hlen Hmax].
    assert (Hn : 0 <= n < alen (cb_bmap cb)).
    { unfold skipped in Esk. unfold n. split; [apply Z.div_pos; lia|].
      apply Z.div_lt_upper_bound; lia. }
    destruct (elem_inv_add _ _ (u16 ((br_type bref .<< 8) .| HAMMER2_PBUFRADIX)) _ _ (Hinv n Hn) Hsr)
      as (bm & Hbm & Hei).
    { apply List.Forall_forall. intros r Hin. apply elem_ranges_in in Hin as (b & Hin & Hskb & _ & ->).
      rewrite List.Forall_forall in Hsts. apply (Hsts b Hin Hskb). }
    { apply List.Forall_forall. intros r Hin. apply elem_ranges_in in Hin as (b & Hin & Hskb & Hnb & ->).
      rewrite List.Forall_forall in Hcomp. destruct (Hcomp b Hin) as [E|E].
      - left. unfold device_range in E. injection E as -> ->. reflexivity.
      - right. unfold disjoint_ranges, device_range in *. cbn [fst snd] in *.
        pose proof (same_element _ (off_of b) (off_of bref) Hsd Hnb). lia. }
    cbn [fst snd] in Hbm. rewrite Hbm. cbn [obind]. eexists. split; [reflexivity|].
    destruct Hw1 as (E1 & E2 & E3).
    assert (Hw : same_window cb (set_cb_bmap (aset (cb_bmap cb) n bm) cb1)).
    { unfold same_window. cbn. rewrite alen_aset. auto. }
    split; [exact Hw|]. intros m Hm. rewrite (elem_ranges_window _ _ _ _ _ _ Hw).
    cbn [set_cb_bmap cb_bmap cb_sbase] in *. rewrite alen_aset in Hm. rewrite E1.
    rewrite elem_ranges_cons, Esk. cbn [negb andb]. fold n.
    destruct (Z.eqb_spec n m) as [<-|Hne].
    + rewrite aget_aset_eq by exact Hn. exact Hei.
    + rewrite aget_aset_ne by lia. apply Hinv, Hm.
Qed.

Lemma pass_ok_window total beg cb cb' : same_window cb cb' -> pass_ok total beg cb -> pass_ok total beg cb'.
Proof. intros (E1 & E2 & E3) []. constructor; rewrite ?E1, ?E2, ?E3; assumption. Qed.

Lemma compatible_sym b1 b2 : compatible b1 b2 -> compatible b2 b1.
Proof. unfold compatible, disjoint_ranges. intros [E|E]; [left; auto|right; lia]. Qed.

(** The whole scan. *)
Lemma scan_brefs_spec total beg tps brefs : forall cb seen,
  pass_ok total beg cb -> cb_inv total beg cb seen ->
  (forall b, In b (brefs ++ seen) -> skipped total beg cb b = false -> bref_storage total b) ->
  (forall b1 b2, In b1 (brefs ++ seen) -> In b2 (brefs ++ seen) -> compatible b1 b2) ->
  exists cb', scan_brefs total beg tps cb brefs = Done cb'
    /\ same_window cb cb' /\ cb_inv total beg cb' (rev brefs ++ seen).
Proof.
  induction brefs as [|bref brefs IH]; intros cb seen Hpo Hinv Hst Hcomp; cbn [scan_brefs rev].
  { exists cb. split; [reflexivity|]. split; [repeat split|exact Hinv]. }
  destruct (callback_inv total beg tps cb bref seen Hpo Hinv) as (cb1 & -> & Hw1 & Hinv1).
  { apply List.Forall_forall. intros b Hb. apply Hst. apply in_app_iff.
    destruct Hb as [<-|Hb]; [left; left; reflexivity|right; exact Hb]. }
  { apply List.Forall_forall. intros b Hb. apply Hcomp; [left; reflexivity|].
    apply in_app_iff. right. exact Hb. }
  cbn [obind].
  assert (Hmem : forall b, In b (brefs ++ bref :: seen) -> In b ((bref :: brefs) ++ seen)).
  { intros b Hb. apply in_app_iff in Hb as [Hb|[->|Hb]]; cbn; rewrite in_app_iff; auto. }
  destruct (IH cb1 (bref :: seen)) as (cb2 & Hrun & Hw2 & Hinv2).
  - eapply pass_ok_window; eauto.
  - exact Hinv1.
  - intros b Hb Hsk. apply Hst; [apply Hmem, Hb|]. destruct Hw1 as (E1 & E2 & _).
    unfold skipped in *. rewrite E1, E2 in Hsk. exact Hsk.
  - intros b1 b2 H1 H2. apply Hcomp; apply Hmem; assumption.
  - exists cb2. split; [exact Hrun|]. split.
    + destruct Hw1 as (E1 & E2 & E3), Hw2 as (F1 & F2 & F3). repeat split; congruence.
    + rewrite <- app_assoc. exact Hinv2.
Qed.

(** * The synchronisation *)

Lemma reserved_usable total beg key n :
  geometry total beg -> (2 ^ 30 | key) -> 0 <= key < 2 ^ 62 -> 0 <= n < 256 ->
  reserved total beg key n -> usable total beg (key + n * 4194304) = false.
Proof.
  intros [Ht Hb] Hd Hk Hn Hres. unfold reserved in Hres.
  change HAMMER2_FREEMAP_LEVEL0_SIZE with 4194304 in Hres. set (e := key + n * 4194304) in *.
  assert (He : (2 ^ 22 | e)).
  { destruct Hd as [c ->]. exists (c * 256 + n). unfold e. change (2 ^ 30) with (256 * 2 ^ 22).
    change 4194304 with (2 ^ 22). lia. }
  pose proof (init_lokey_spec beg key e Hd Hk Hb He) as Hlo.
  pose proof (init_hikey_spec total key e Hd Hk ltac:(lia) He ltac:(unfold e; lia)) as Hhi.
  assert (Hm : e mod 2 ^ 30 = e - key).
  { destruct Hd as [c Hc]. unfold e. rewrite Hc at 1. rewrite Z.add_comm, Z.mod_add by lia.
    rewrite Z.mod_small; lia. }
  unfold usable. change HAMMER2_FREEMAP_LEVEL1_SIZE with (2 ^ 30). rewrite Hm.
  apply andb_false_iff. rewrite andb_false_iff, !Z.leb_gt. lia.
Qed.

Lemma leaf_ok_set total beg key lf n bm av :
  leaf_ok total beg key lf -> 0 <= n < 256 -> bmap_ok bm ->
  (reserved total beg key n -> bm_avail bm = 0 /\ bm_linear bm mod 16384 = 0) ->
  leaf_ok total beg key (Leaf (lf_error lf) 4294967295 av (aset (lf_bmdata lf) n bm)).
Proof.
  intros [Hlen Hel Hres Hbig] Hn Hbm Hr.
  assert (Hget : forall i, 0 <= i < 256 ->
            aget (aset (lf_bmdata lf) n bm) i = if i =? n then bm else aget (lf_bmdata lf) i).
  { intros i Hi. destruct (Z.eqb_spec i n) as [->|].
    - apply aget_aset_eq. unfold alen. lia.
    - apply aget_aset_ne; lia. }
  constructor; cbn [lf_bmdata lf_bigmask].
  - unfold aset. rewrite length_insert. exact Hlen.
  - intros i Hi. rewrite Hget by exact Hi. destruct (i =? n); auto.
  - intros i Hi Hri. rewrite Hget by exact Hi. destruct (Z.eqb_spec i n) as [->|]; auto.
  - intros r i Hr' _ H0. apply bigmask_all in H0; [destruct H0|exact Hr'].
Qed.

Lemma free_blocks_none bm : (forall b, 0 <= b < 256 -> blk bm b <> 0) -> free_blocks bm = 0.
Proof. intros H. exact (nzero_none (blk bm) 256 H). Qed.

Section sync_pass.
Context {T IO : Type} `{!LeafStore T} `{!LeafStoreLaws T} `{!IoOps IO}.
Hypothesis dedup_delete_total : forall ty off n (io : IO), exists io', io_dedup_delete ty off n io = Done io'.
Hypothesis dedup_assert_total : forall off n (io : IO), exists io', io_dedup_assert off n io = Done io'.
Variable ub32 : Z.
Implicit Types h : dev T IO.

(** The step over the element at [e] preserves the volume and every owned range
    that is not in this element, or that the scan has recorded. *)
Definition sync_preserves h h' (e : Z) (R : list range) : Prop :=
  dev_ok h' /\ dv_total_size h' = dv_total_size h /\ dv_allocator_beg h' = dv_allocator_beg h
  /\ dv_heur_freemap h' = dv_heur_freemap h
  /\ forall r, dev_range_owned h r ->
       (dv_allocator_beg h <= e <= r.1 -> r.1 < e + 4194304 -> In (r.1 - e, r.2) R) ->
       dev_range_owned h' r.

Lemma sync_preserves_refl h e R : dev_ok h -> sync_preserves h h e R.
Proof. intros H. split; [exact H|]. auto. Qed.

Lemma sync_preserves_modify h t e R :
  dev_ok h -> (forall k, leaf_lookup k t = leaf_lookup k (dv_fchain h)) -> sync_preserves h (set_fchain t h) e R.
Proof.
  intros H Ht. split; [apply (dev_ok_same h); [repeat split; exact Ht|exact H]|]. repeat split.
  intros r Hr _. apply (dev_range_owned_same h); [repeat split; exact Ht|exact Hr].
Qed.

Lemma element_address e :
  0 <= e -> (2 ^ 22 | e) ->
  let key := e .&~ HAMMER2_FREEMAP_LEVEL1_MASK in
  let n := (e .& HAMMER2_FREEMAP_LEVEL1_MASK) .>> HAMMER2_FREEMAP_LEVEL0_RADIX in
  (2 ^ 30 | key) /\ 0 <= key <= e /\ 0 <= n < 256 /\ e = key + n * 4194304.
Proof.
  intros He Hd. cbv zeta. change HAMMER2_FREEMAP_LEVEL1_MASK with (Z.ones 30).
  rewrite Z.land_ones, Z.shiftr_div_pow2, <- H2FMBASE_ldiff by lia.
  destruct (H2FMBASE_spec e He) as (Hk & Hk1 & Hk2). split; [exact Hk|]. split; [lia|].
  rewrite H2FMBASE_eq by lia. destruct Hd as [c ->]. change (2 ^ 30) with (256 * 4194304).
  change (2 ^ 22) with 4194304 in *. rewrite Z.mul_mod_distr_r by lia.
  rewrite Z.div_mul by lia. pose proof (Z.mod_pos_bound c 256). lia.
Qed.

Lemma sync_element_spec h ct mtid bmap e R :
  dev_ok h -> elem_inv (usable (dv_total_size h) (dv_allocator_beg h) e) bmap R ->
  Forall scan_range R -> 0 <= e < 2 ^ 62 -> (2 ^ 22 | e) ->
  exists h' ct', sync_element ub32 h ct mtid bmap e = Done (h', ct') /\ sync_preserves h h' e R.
Proof.
  intros Hok [Hsi Hfull] HR He Hd. unfold sync_element.
  destruct (Z.ltb_spec e (dv_allocator_beg h)) as [Hbe|Hbe]; [eauto using sync_preserves_refl|].
  destruct (dv_total_size h <=? e); [eauto using sync_preserves_refl|].
  destruct (element_address e ltac:(lia) Hd) as (Hkd & Hk & Hn & Heq). cbv zeta in *.
  set (key := e .&~ HAMMER2_FREEMAP_LEVEL1_MASK) in *.
  set (n := (e .& HAMMER2_FREEMAP_LEVEL1_MASK) .>> HAMMER2_FREEMAP_LEVEL0_RADIX) in *.
  destruct (leaf_lookup key (dv_fchain h)) as [lf|] eqn:Elf; [|eauto using sync_preserves_refl].
  destruct (negb (lf_error lf =? 0)); [eauto using sync_preserves_refl|].
  destruct (_ && _ && _); [eauto using sync_preserves_refl|].
  destruct (leaf_modify_ok key mtid _ _ Elf) as (t & me & -> & Ht). cbn [obind].
  destruct (negb (me =? 0)); [eauto using sync_preserves_modify|].
  pose proof (do_leaf _ Hok _ _ Hkd ltac:(lia) Elf) as Hlo.
  destruct (sync_adjust_spec dedup_delete_total dedup_assert_total (aget (lf_bmdata lf) n) ct (dv_io h)
              bmap e R) as (live' & ct' & io' & -> & Hok' & Hst & Hla).
  { eapply lfo_elem; eauto. }
  { exact Hsi. }
  cbn [obind]. eexists _, _. split; [reflexivity|].
  set (lf' := Leaf (lf_error lf) 4294967295 (lf_avail lf) (aset (lf_bmdata lf) n live')).
  set (h' := set_io io' _).
  assert (Hlf' : leaf_ok (dv_total_size h) (dv_allocator_beg h) key lf').
  { apply leaf_ok_set; auto. intros Hres.
    apply reserved_usable in Hres; try assumption; [|apply Hok|lia].
    rewrite <- Heq in Hres. destruct (Hfull Hres) as [Hf1 Hf2]. split.
    - rewrite (ok_avail _ Hok'), free_blocks_none; [lia|]. intros b Hb. rewrite Hst, Hf1 by exact Hb.
      unfold sync_state. cbn. lia.
    - destruct Hla as [l _ Hm|_ _]; [exact Hm|]. rewrite Hf2. reflexivity. }
  assert (Hat : leaf_at h' key = Some lf') by apply leaf_write_eq.
  assert (Hoth : forall k, k <> key -> leaf_at h' k = leaf_at h k).
  { intros k Hne. unfold leaf_at, h'. cbn. rewrite leaf_write_ne, Ht by exact Hne. reflexivity. }
  split; [|split; [reflexivity|split; [reflexivity|split; [reflexivity|]]]].
  - eapply (dev_ok_same (set_fchain (leaf_write key lf' t) h)); [repeat split|].
    apply (dev_ok_write h (set_fchain t h)); auto.
  - intros r (k & m & lf0 & Hkd0 & Hk0 & Hm & Hl0 & Ho) Hin.
    pose proof (ro_range _ _ Ho) as Hrr. cbn [fst snd] in Hrr.
    destruct (element_split key n k m Hkd Hkd0 Hn Hm) as [[<- <-]|Hsep].
    + exists key, n, lf'. split; [exact Hkd|]. split; [exact Hk0|]. split; [exact Hn|].
      split; [exact Hat|].
      assert (Haget : aget (lf_bmdata lf') n = live').
      { apply aget_aset_eq. unfold alen. rewrite (lfo_len _ _ _ _ Hlo). lia. }
      rewrite Haget, <- Heq in *. specialize (Hin ltac:(lia) ltac:(lia)).
      rewrite List.Forall_forall in HR. eapply sync_owned; eauto.
    + exists k, m. destruct (decide (k = key)) as [->|Hne].
      * exists lf'. assert (m <> n) by lia. unfold leaf_at in Hl0. rewrite Elf in Hl0.
        injection Hl0 as <-. unfold lf'. cbn [lf_bmdata]. rewrite aget_aset_ne by lia. auto.
      * exists lf0. rewrite Hoth by exact Hne. auto.
Qed.

Lemma sync_elements_spec sstop bmaps : forall h ct mtid e Rs,
  dev_ok h -> 0 <= e -> e + alen bmaps * 4194304 < 2 ^ 62 -> (2 ^ 22 | e) ->
  (forall i, 0 <= i < alen bmaps ->
     elem_inv (usable (dv_total_size h) (dv_allocator_beg h) (e + i * 4194304)) (aget bmaps i) (Rs i)
     /\ Forall scan_range (Rs i)) ->
  exists h' ct', sync_elements ub32 bmaps h ct mtid e sstop = Done (h', ct')
    /\ dev_ok h' /\ dv_heur_freemap h' = dv_heur_freemap h
    /\ forall r, dev_range_owned h r ->
         (forall i, 0 <= i < alen bmaps -> e + i * 4194304 < sstop ->
            dv_allocator_beg h <= e + i * 4194304 <= r.1 -> r.1 < e + i * 4194304 + 4194304 ->
            In (r.1 - (e + i * 4194304), r.2) (Rs i)) ->
         dev_range_owned h' r.
Proof.
  unfold alen. induction bmaps as [|bm bms IH]; intros h ct mtid e Rs Hok He Hmax Hd Hinv; cbn [sync_elements length] in *.
  { exists h, ct. auto. }
  destruct (Z.ltb_spec e sstop) as [Hlt|Hge]; [|exists h, ct; auto].
  destruct (Hinv 0 ltac:(lia)) as [Hei HR]. rewrite Z.add_0_r in Hei.
  change (aget (bm :: bms) 0) with bm in Hei.
  destruct (sync_element_spec h ct mtid bm e (Rs 0) Hok Hei HR ltac:(lia) Hd)
    as (h1 & c1 & -> & Hok1 & Ht1 & Hb1 & Hh1 & Hp1). cbn [obind].
  rewrite u64_small by lia.
  destruct (IH h1 c1 mtid (e + 4194304) (fun i => Rs (i + 1))) as (h2 & c2 & -> & Hok2 & Hh2 & Hp2);
    auto; try lia.
  { apply Z.divide_add_r; [exact Hd|exists 1; reflexivity]. }
  { intros i Hi. rewrite Ht1, Hb1. specialize (Hinv (i + 1) ltac:(lia)).
    rewrite aget_cons in Hinv by lia. replace (i + 1 =? 0) with false in Hinv by lia.
    replace (i + 1 - 1) with i in Hinv by lia.
    replace (e + 4194304 + i * 4194304) with (e + (i + 1) * 4194304) by lia. exact Hinv. }
  exists h2, c2. split; [reflexivity|]. split; [exact Hok2|]. split; [congruence|].
  intros r Ho Hin. apply Hp2.
  - apply Hp1; [exact Ho|]. intros H1 H2. specialize (Hin 0 ltac:(lia)). rewrite Z.add_0_r in Hin.
    apply Hin; lia.
  - intros i Hi Hs H1 H2. rewrite Hb1 in H1.
    replace (e + 4194304 + i * 4194304) with (e + (i + 1) * 4194304) in * by lia.
    apply Hin; lia.
Qed.
End sync_pass.

(** * Properties *)

Lemma freemap_alloc_all_app {T IO} `{!LeafStore T} `{!IoOps IO} rqs : forall (h h' : dev T IO) R R',
  freemap_alloc_all rqs h [] = Done (h', R') -> freemap_alloc_all rqs h R = Done (h', R' ++ R).
Proof.
  assert (Hgen : forall (h h' : dev T IO) R0 R1 R,
            freemap_alloc_all rqs h R0 = Done (h', R1) ->
            freemap_alloc_all rqs h (R0 ++ R) = Done (h', R1 ++ R)).
  { induction rqs as [|[bref radix] rqs IH]; intros h h' R0 R1 R Hrun; cbn [freemap_alloc_all] in *.
    - injection Hrun as <- <-. reflexivity.
    - destruct (hammer2_freemap_alloc h bref (1 .<< radix)) as [[[e h1] b1]|]; [|discriminate].
      cbn [obind] in *. destruct (e =? 0); apply (IH _ _ _ _ R) in Hrun; exact Hrun. }
  intros h h' R R' H. apply (Hgen h h' [] R' R H).
Qed.

Lemma ordpairs_app_r {A} (P : A -> A -> Prop) l x :
  ForallOrdPairs P (l ++ [x]) -> Forall (fun y => P y x) l.
Proof.
  induction l as [|y l IH]; intros H; [constructor|]. inversion H as [|? ? Hy Hl]; subst.
  constructor; [|auto]. rewrite List.Forall_forall in Hy. apply Hy, in_app_iff. right. left. reflexivity.
Qed.

(** The freshly initialised in-memory freemap records no range. *)
Lemma init_inv total beg cb :
  pass_ok total beg cb ->
  let cb0 := cbinfo_bmap_init total beg (length (cb_bmap cb)) cb in
  same_window cb cb0 /\ pass_ok total beg cb0 /\ cb_inv total beg cb0 [].
Proof.
  intros Hpo cb0.
  assert (Hw0 : same_window cb cb0).
  { unfold same_window, cb0, cbinfo_bmap_init, alen. cbn. rewrite bmap_init_length. auto. }
  split; [exact Hw0|]. split; [eapply pass_ok_window; eauto|].
  destruct Hpo as [[Ht Hbeg] [Hs0 Hsd] [Hss Hssa] Hlen Hmax].
  intros n Hn. destruct Hw0 as (E1 & _ & E3). rewrite E3 in Hn. rewrite E1. cbn [elem_ranges List.filter map].
  unfold cb0, cbinfo_bmap_init. cbn [set_cb_bmap cb_bmap].
  pose proof (roundup_mask beg 22 ltac:(lia)) as [Hru Hrd].
  unfold alen in *. rewrite (bmap_init_get total beg); try assumption; try lia.
  - destruct (usable total beg (cb_sbase cb + n * 4194304)); [apply elem_inv_fresh|apply elem_inv_full].
  - destruct Hsd as [c ->]. exists (c * 256). change (2 ^ 30) with (256 * 2 ^ 22). lia.
  - rewrite u64_small by lia. change HAMMER2_SEGMASK with (Z.ones 22). lia.
  - intros e [c ->] _ Hbe _. rewrite u64_small by lia. change HAMMER2_SEGMASK with (Z.ones 22).
    destruct Hrd as [d Hd]. rewrite Hd in *. change (2 ^ 22) with 4194304 in *. lia.
Qed.

(** A reported range is recorded in the element that covers it. *)
Lemma scanned_range_listed total beg cb cb1 brefs b i :
  pass_ok total beg cb -> same_window cb cb1 -> In b brefs -> bref_storage total b ->
  beg <= (device_range b).1 -> 0 <= i < alen (cb_bmap cb1) ->
  cb_sbase cb + i * 4194304 < cb_sstop cb ->
  cb_sbase cb + i * 4194304 <= (device_range b).1 < cb_sbase cb + i * 4194304 + 4194304 ->
  In ((device_range b).1 - (cb_sbase cb + i * 4194304), (device_range b).2)
    (elem_ranges total beg cb1 i (rev brefs)).
Proof.
  intros [_ [_ Hsd] [_ Hssa] _ _] (E1 & E2 & E3) Hbin Hst Hbeg Hi Hsi H1.
  assert (Hsd22 : (2 ^ 22 | cb_sbase cb)).
  { destruct Hsd as [c ->]. exists (c * 256). change (2 ^ 30) with (256 * 2 ^ 22). lia. }
  unfold device_range in *. cbn [fst snd] in *.
  assert (Hmod : off_of b - (cb_sbase cb + i * 4194304) = off_of b mod 4194304
                 /\ (off_of b - cb_sbase cb) / 4194304 = i).
  { destruct Hsd22 as [c Hc]. rewrite Hc in *. change (2 ^ 22) with 4194304 in *.
    clear - H1. div_mod_lia. }
  destruct Hmod as [Hm1 Hm2]. rewrite Hm1. unfold elem_ranges.
  apply List.in_map_iff. exists b. split; [reflexivity|]. apply List.filter_In.
  split; [apply in_rev; rewrite rev_involutive; exact Hbin|]. rewrite E1, Hm2, Z.eqb_refl, andb_true_r.
  apply negb_true_iff. unfold skipped. rewrite E1, E2.
  destruct Hst as [Hr' [Ho1 Ho2] [_ _ Hshape]]. cbn [fst snd] in Hshape.
  assert (off_of b < cb_sstop cb).
  { destruct Hssa as [->|[c Hc]]; [destruct Hshape; lia|]. destruct Hsd22 as [d Hd].
    rewrite Hc, Hd in *. change (2 ^ 22) with 4194304 in *. lia. }
  destruct Hshape; lia.
Qed.

(** C3. A bulkfree pass never frees storage in use.  Whatever blockrefs the
    topology scan reports, in whatever order and however often shared, the pass
    runs without panic, keeps the volume well formed, and every reported range
    that was allocated before stays allocated: no sequence of allocations after
    the pass can overlap any of them. *)
Theorem bulkfree_pass_safe {T IO} `{!LeafStore T} `{!LeafStoreLaws T} `{!IoOps IO} `{!IoTotal IO}
    ub32 tps (h : dev T IO) cb brefs rqs :
  let total := dv_total_size h in
  let beg := dv_allocator_beg h in
  dev_ok h -> heur_ok h -> pass_ok total beg cb ->
  (forall b, In b brefs -> bref_storage total b /\ dev_range_owned h (device_range b)) ->
  (forall b1 b2, In b1 brefs -> In b2 brefs -> compatible b1 b2) ->
  Forall (fun rq => data_request rq.1 rq.2) rqs ->
  (forall ty off n (io : IO), exists io', io_dedup_delete ty off n io = Done io') ->
  (forall off n (io : IO), exists io', io_dedup_assert off n io = Done io') ->
  exists cb1 h1 cb2 h2 R,
    scan_brefs total beg tps (cbinfo_bmap_init total beg (length (cb_bmap cb)) cb) brefs = Done cb1
    /\ h2_bulkfree_sync ub32 h cb1 = Done (h1, cb2)
    /\ freemap_alloc_all rqs h1 [] = Done (h2, R)
    /\ dev_ok h2
    /\ forall b r, In b brefs -> In r R -> disjoint_ranges r (device_range b).
Proof.
  intros total beg Hok Hheur Hpo Hb Hcomp Hrq Hdel Hass.
  destruct (init_inv total beg cb Hpo) as (Hw0 & Hpo0 & Hinv0). cbv zeta in *.
  set (cb0 := cbinfo_bmap_init total beg (length (cb_bmap cb)) cb) in *.
  destruct (Hpo) as [[Ht Hbeg] [Hs0 Hsd] [Hss Hssa] Hlen Hmax].
  destruct (scan_brefs_spec total beg tps brefs cb0 [] Hpo0 Hinv0) as (cb1 & Hscan & Hw1 & Hinv1).
  { intros b Hin _. rewrite app_nil_r in Hin. apply Hb, Hin. }
  { intros b1 b2 H1 H2. rewrite app_nil_r in *. auto. }
  rewrite app_nil_r in Hinv1.
  assert (Hw : same_window cb cb1).
  { destruct Hw0 as (E1 & E2 & E3), Hw1 as (F1 & F2 & F3). repeat split; congruence. }
  destruct (Hw) as (E1 & E2 & E3).
  assert (Hsd22 : (2 ^ 22 | cb_sbase cb)).
  { destruct Hsd as [c ->]. exists (c * 256). change (2 ^ 30) with (256 * 2 ^ 22). lia. }
  destruct (sync_elements_spec Hdel Hass ub32 (cb_sstop cb1) (cb_bmap cb1) h (cb_counts cb1) (cb_mtid cb1)
              (cb_sbase cb1) (fun i => elem_ranges total beg cb1 i (rev brefs)))
    as (h1 & ct & Hsync & Hok1 & Hh1 & Hown); rewrite ?E1, ?E3 in *; try assumption; try lia.
  { intros i Hi. split; [rewrite <- E1; apply Hinv1; lia|]. apply List.Forall_forall.
    intros r Hin. apply elem_ranges_in in Hin as (b & Hin & _ & _ & ->).
    apply (Hb b). apply in_rev. exact Hin. }
  assert (Hheur1 : heur_ok h1) by (unfold heur_ok; rewrite Hh1; exact Hheur).
  destruct (freemap_alloc_all_owned rqs h1 [] Hrq Hok1 Hheur1) as (h2 & R & Hrun & Hok2 & _);
    [split; constructor|].
  exists cb1, h1, (set_cb_counts ct cb1), h2, R. split; [exact Hscan|].
  split; [unfold h2_bulkfree_sync; rewrite E1, Hsync; reflexivity|].
  split; [exact Hrun|]. split; [exact Hok2|]. intros b r Hbin Hr.
  destruct (Hb b Hbin) as [Hst Ho].
  assert (Ho1 : dev_range_owned h1 (device_range b)).
  { apply Hown; [exact Ho|]. intros i Hi Hsi H1 H2.
    apply (scanned_range_listed total beg cb cb1 brefs b i); try assumption; lia. }
  pose proof (freemap_alloc_all_app rqs h1 h2 [device_range b] R Hrun) as Hrun'.
  destruct (freemap_alloc_all_owned rqs h1 [device_range b] Hrq Hok1 Hheur1) as (h3 & R3 & Hrun3 & _ & [_ Hdj]).
  { split; [constructor; [exact Ho1|constructor]|constructor; constructor]. }
  rewrite Hrun' in Hrun3. injection Hrun3 as <- <-.
  apply ordpairs_app_r in Hdj. rewrite List.Forall_forall in Hdj. apply Hdj, Hr.
Qed.

(** A volume holding one 16KB block of its second gigabyte, and a pass over it. *)
Definition bref_demo : blockref := set_data_off ((1073741824 + 65536) .| 14) (bref_of 1 0).
Definition pass_demo : bulkfree_info :=
  Cbinfo 0 4294967296 (replicate 1024 bmap_zero) 0 false 0 (Counts 0 0 0 0 0 0 0 0).

Lemma bref_demo_owned : dev_range_owned volume_leaf_demo (device_range bref_demo).
Proof.
  exists 1073741824, 0, leaf_demo. split; [exists 1; reflexivity|]. split; [lia|]. split; [lia|].
  split; [reflexivity|]. unfold leaf_demo. rewrite freemap_init_get by lia.
  match goal with |- context [if ?c then _ else _] =>
    replace c with true by (vm_compute; reflexivity) end.
  change (device_range bref_demo) with (1073807360, 16384). cbn [fst snd]. constructor; cbn [fst snd].
  - lia.
  - intros b Hb _ _. rewrite blk_full by exact Hb. lia.
  - intros H. exfalso. apply H. reflexivity.
Qed.

Lemma bulkfree_pass_safe_witness :
  exists cb1 h1 cb2 h2 R,
    scan_brefs 4294967296 0 1000 (cbinfo_bmap_init 4294967296 0 (length (cb_bmap pass_demo)) pass_demo)
      [bref_demo; bref_demo] = Done cb1
    /\ @h2_bulkfree_sync _ _ gmap_store log_io 1 volume_leaf_demo cb1 = Done (h1, cb2)
    /\ @freemap_alloc_all _ _ gmap_store log_io [(bref_of 3 65536, 16); (bref_of 1 0, 10)] h1 [] = Done (h2, R)
    /\ dev_ok h2
    /\ forall b r, In b [bref_demo; bref_demo] -> In r R -> disjoint_ranges r (device_range b).
Proof.
  apply (@bulkfree_pass_safe _ _ gmap_store gmap_store_laws log_io log_io_total 1 1000 volume_leaf_demo
           pass_demo).
  - apply volume_leaf_demo_ok.
  - split; [reflexivity|]. intros i Hi. cbn [volume_leaf_demo dev_demo dv_heur_freemap].
    rewrite aget_replicate by lia. lia.
  - constructor.
    + unfold geometry. cbn. lia.
    + split; [cbn; lia|exists 0; reflexivity].
    + cbn. split; [lia|left; reflexivity].
    + change (alen (cb_bmap pass_demo)) with 1024. cbn [pass_demo cb_sstop cb_sbase]. lia.
    + change (alen (cb_bmap pass_demo)) with 1024. cbn [pass_demo cb_sstop cb_sbase]. lia.
  - intros b Hb. assert (b = bref_demo) as -> by (destruct Hb as [Hb|[Hb|[]]]; symmetry; exact Hb).
    split; [|apply bref_demo_owned]. constructor.
    + change (br_data_off bref_demo .& HAMMER2_OFF_MASK_RADIX6) with 14. unfold radix_ok. lia.
    + change (off_of bref_demo) with 1073807360. change (size_of bref_demo) with 16384. cbn. lia.
    + change (off_of bref_demo) with 1073807360. change (size_of bref_demo) with 16384.
      constructor; cbn [fst snd]; change (1073807360 mod 4194304) with 65536.
      * lia.
      * split; [exists 64; reflexivity|exists 16; reflexivity].
      * right. split; [lia|]. split; reflexivity.
  - intros b1 b2 H1 H2. left.
    assert (b1 = bref_demo) as -> by (destruct H1 as [H|[H|[]]]; symmetry; exact H).
    assert (b2 = bref_demo) as -> by (destruct H2 as [H|[H|[]]]; symmetry; exact H).
    reflexivity.
  - apply List.Forall_cons; [|apply List.Forall_cons; [|apply List.Forall_nil]].
    + split; [split; cbn; lia|]. split; [split; [cbn; lia|intros _; exists 1; reflexivity]|split; cbn; lia].
    + split; [split; cbn; lia|]. split; [split; [cbn; lia|intros H; discriminate H]|split; cbn; lia].
  - intros. eexists. reflexivity.
  - intros. eexists. reflexivity.
Defined.

Section two_passes.
Context {IO : Type} `{!IoOps IO}.

(** Merge two scans in a row into a live element. *)
Definition two_merges (live bm1 bm2 : bmap_data) (ct : bulk_counts) (io : IO) (data_off : Z)
  : outcome bmap_data :=
  let! (live, ct, io) := h2_bulkfree_sync_adjust live ct io bm1 data_off in
  let! (live, ct, io) := h2_bulkfree_sync_adjust live ct io bm2 data_off in
  Done live.
End two_passes.

(** C4. Freeing takes two passes.  Merging two scans in a row into a well-formed
    element keeps it well formed (with [avail] exact), and an allocated block
    ends up free precisely when neither scan references it; a block the second
    scan references ends up allocated whatever the first one saw, and one only
    the first scan references ends up staged. *)
Theorem bulkfree_two_passes {IO} `{!IoOps IO} live bm1 bm2 R1 R2 ct (io : IO) data_off :
  bmap_ok live -> scan_inv bm1 R1 -> scan_inv bm2 R2 ->
  (forall ty off n (io : IO), exists io', io_dedup_delete ty off n io = Done io') ->
  (forall off n (io : IO), exists io', io_dedup_assert off n io = Done io') ->
  exists live',
    two_merges live bm1 bm2 ct io data_off = Done live' /\ bmap_ok live'
    /\ forall b, 0 <= b < 256 ->
         (blk bm2 b = 3 -> blk live' b = 3)
         /\ (blk live b = 3 -> blk bm1 b = 3 -> blk bm2 b = 0 -> blk live' b = 2)
         /\ (blk live b = 3 -> (blk live' b = 0 <-> blk bm1 b = 0 /\ blk bm2 b = 0)).
Proof.
  intros Hok H1 H2 Hdel Hass. unfold two_merges.
  destruct (sync_adjust_spec Hdel Hass live ct io bm1 data_off R1 Hok H1)
    as (l1 & c1 & io1 & -> & Hok1 & Hs1 & _). cbn [obind].
  destruct (sync_adjust_spec Hdel Hass l1 c1 io1 bm2 data_off R2 Hok1 H2)
    as (l2 & c2 & io2 & -> & Hok2 & Hs2 & _). cbn [obind].
  exists l2. split; [reflexivity|]. split; [exact Hok2|]. intros b Hb.
  rewrite Hs2, Hs1 by exact Hb.
  destruct (si_two _ _ H1 b Hb) as [-> | ->], (si_two _ _ H2 b Hb) as [-> | ->];
    (split; [|split]); try (intros E; rewrite E); cbn; intuition congruence.
Qed.

Lemma bulkfree_two_passes_witness :
  exists live',
    @two_merges _ log_io (bmap_full 0) bmap_fresh bmap_fresh (Counts 0 0 0 0 0 0 0 0) [] 8388608
      = Done live' /\ bmap_ok live'
    /\ forall b, 0 <= b < 256 ->
         (blk bmap_fresh b = 3 -> blk live' b = 3)
         /\ (blk (bmap_full 0) b = 3 -> blk bmap_fresh b = 3 -> blk bmap_fresh b = 0 -> blk live' b = 2)
         /\ (blk (bmap_full 0) b = 3 -> (blk live' b = 0 <-> blk bmap_fresh b = 0 /\ blk bmap_fresh b = 0)).
Proof.
  apply (@bulkfree_two_passes _ log_io _ _ _ [] []).
  - apply bmap_full_ok.
  - apply elem_inv_fresh.
  - apply elem_inv_fresh.
  - intros. eexists. reflexivity.
  - intros. eexists. reflexivity.
Defined.

(** The scan's own space estimate is wrong for multi-block storage: the
    callback subtracts the bytes still to be marked at every block, so a 32KB
    range costs 48KB and a 64KB range 160KB of [avail], although exactly 2 and
    4 blocks are marked. *)
Theorem callback_avail_overcharges radix :
  radix_ok radix ->
  exists bm, callback_element bmap_fresh 784 0 (1 .<< radix) = Done bm
    /\ free_blocks bm = 256 - nblk radix
    /\ HAMMER2_FREEMAP_LEVEL0_SIZE - bm_avail bm
       = HAMMER2_FREEMAP_BLOCK_SIZE * (nblk radix * (nblk radix + 1) / 2).
Proof.
  intros Hr. radix_cases Hr; eexists; (split; [vm_compute; reflexivity|]); vm_compute; split; reflexivity.
Qed.

Lemma callback_avail_overcharges_witness :
  exists bm, callback_element bmap_fresh 784 0 (1 .<< 16) = Done bm
    /\ free_blocks bm = 256 - nblk 16
    /\ HAMMER2_FREEMAP_LEVEL0_SIZE - bm_avail bm
       = HAMMER2_FREEMAP_BLOCK_SIZE * (nblk 16 * (nblk 16 + 1) / 2).
Proof. apply callback_avail_overcharges. unfold radix_ok. lia. Defined.

Lemma lor_land_absorb x m : (x .| m) .& m = m.
Proof. zbits k. destruct (Z.testbit x k), (Z.testbit m k); reflexivity. Qed.

Lemma land_sub x y m : x .& m = m -> (x .| y) .& m = m.
Proof.
  intros E. apply Z.bits_inj'. intros k Hk. apply (f_equal (fun z => Z.testbit z k)) in E.
  rewrite Z.land_spec in E. rewrite Z.land_spec, Z.lor_spec.
  destruct (Z.testbit x k), (Z.testbit y k), (Z.testbit m k); cbn in *; congruence.
Qed.

Lemma bigmask_word_llp64 mask bm : bigmask_word 1 6 mask 2 32767 bm .& 524287 = 524287.
Proof.
  cbn [bigmask_word]. change (u32 ((32767 .<< 1) .| 1)) with 65535.
  change (u32 ((65535 .<< 1) .| 1)) with 131071. change (u32 ((131071 .<< 1) .| 1)) with 262143.
  change (u32 ((262143 .<< 1) .| 1)) with 524287. change (u32 ((524287 .<< 1) .| 1)) with 1048575.
  set (inner := if bigmask_group 32 (scan_mask 1 (2 * (2 * (2 * 2)))) mask _ 0 then _ else _).
  change (scan_mask 1 (2 * (2 * (2 * (2 * 2))))) with 0.
  change (bigmask_group 32 0 mask (2 * (2 * (2 * (2 * 2)))) 0) with true. cbv iota.
  clearbody inner. destruct (bigmask_group _ _ _ _ _); [apply land_sub|]; apply lor_land_absorb.
Qed.

(** On the Windows (LLP64) target [1LU << 32] is a 32-bit shift by 32; with
    the x86 result 1 the radix hint computed from an element claims that every
    radix up to 2^18 is available, even for a completely allocated element, so
    the shortcut of [h2_bulkfree_sync] is only taken when the live hint has all
    of these bits set. *)
Theorem bigmask_llp64 bm lb :
  alen (bm_bitmapq bm) = 8 ->
  bigmask_get 1 bm .& 524287 = 524287
  /\ (bigmask_good 1 bm lb = true -> lb .& 524287 = 524287).
Proof.
  intros Hl. assert (Hg : bigmask_get 1 bm .& 524287 = 524287).
  { unfold bigmask_get. unfold alen in Hl. rewrite take_ge by lia.
    destruct (bm_bitmapq bm) as [|q0 qs] using rev_ind; [cbn in Hl; lia|].
    rewrite foldl_app. cbn [foldl]. apply bigmask_word_llp64. }
  split; [exact Hg|]. unfold bigmask_good. intros H%Z.eqb_eq.
  rewrite <- Hg at 1. rewrite Z.land_assoc, H. exact Hg.
Qed.

Lemma bigmask_llp64_witness :
  bigmask_get 1 (bmap_full 784) .& 524287 = 524287
  /\ (bigmask_good 1 (bmap_full 784) 0 = true -> 0 .& 524287 = 524287).
Proof. apply bigmask_llp64. reflexivity. Defined.
