(* ===== verification/BlockTable.v ===== *)
(** The block table of a chain (hammer2_chain.c): an array of blockrefs kept
    sorted by key with empty slots anywhere, and the in-memory chains that
    overlay it.  Counting, lookup, deletion and insertion;
    the proofs are in BlockTableProof and BlockTableSpec. *)

From Stdlib Require Import ZArith Lia Bool.
From stdpp Require Import base numbers list option.
From S2P Require Import Prelude Disk.

(** * State *)

(** The parent chain, as far as its block table is concerned. *)
Record core := Core {
  co_live_zero : Z;       (* core.live_zero: every slot from here on is empty *)
  co_live_count : Z;      (* core.live_count, unsigned int *)
  co_cache_index : Z;     (* cache_index, a search hint *)
  co_counted : bool;      (* flags & HAMMER2_CHAIN_COUNTEDBREFS *)
  co_bref : blockref      (* parent->bref *)
}.

Definition set_cache_index (v : Z) (co : core) : core :=
  Core (co_live_zero co) (co_live_count co) v (co_counted co) (co_bref co).
Definition set_live_zero (v : Z) (co : core) : core :=
  Core v (co_live_count co) (co_cache_index co) (co_counted co) (co_bref co).
Definition set_co_bref (v : blockref) (co : core) : core :=
  Core (co_live_zero co) (co_live_count co) (co_cache_index co) (co_counted co) v.

(** An in-memory child, with the flags these routines use. *)
Record mchain := Chain {
  ch_bref : blockref;
  ch_deleted : bool;      (* HAMMER2_CHAIN_DELETED *)
  ch_blkmapped : bool;    (* HAMMER2_CHAIN_BLKMAPPED *)
  ch_blkmapupd : bool;    (* HAMMER2_CHAIN_BLKMAPUPD *)
  ch_hint_leaf : bool     (* HAMMER2_CHAIN_HINT_LEAF_COUNT *)
}.
#[export] Instance mchain_eq_dec : EqDecision mchain.
Proof. solve_decision. Defined.

(** * Key ranges *)

Definition is_empty (b : blockref) : bool := br_type b =? HAMMER2_BREF_TYPE_EMPTY.
(** [(hammer2_key_t)1 << bref->keybits] *)
Definition key_size (b : blockref) : Z := u64 (1 .<< br_keybits b).
(** The last key of the range, and the first one after it (0 at the end). *)
Definition key_last (b : blockref) : Z := u64 (br_key b + key_size b - 1).
Definition key_after (b : blockref) : Z := u64 (br_key b + key_size b).

(** [if (e && ( *key_nextp > e || *key_nextp == 0)) *key_nextp = e] *)
Definition limit_next (key_next e : Z) : Z :=
  if negb (e =? 0) && ((e <? key_next) || (key_next =? 0)) then e else key_next.

(** * Counting *)

(** The last index below [n] with a non-empty slot, or -1. *)
Fixpoint last_live (n : nat) (bs : list blockref) : Z :=
  match n with
  | O => -1
  | S m => if is_empty (aget bs (Z.of_nat m)) then last_live m bs else Z.of_nat m
  end.

(** The non-empty slots below [n]. *)
Fixpoint count_live (n : nat) (bs : list blockref) : Z :=
  match n with
  | O => 0
  | S m => (if is_empty (aget bs (Z.of_nat m)) then 0 else 1) + count_live m bs
  end.

Definition hammer2_chain_countbrefs (co : core) (base : option (list blockref)) (count : Z)
  : core :=
  if co_counted co then co
  else
    match base with
    | Some bs =>
        let last := last_live (Z.to_nat count) bs in
        Core (last + 1) (u32 (co_live_count co + count_live (Z.to_nat (last + 1)) bs))
          (co_cache_index co) true (co_bref co)
    | None => Core 0 (co_live_count co) (co_cache_index co) true (co_bref co)
    end.

(** * [hammer2_base_find] *)

(** [while (i > 0 && (empty || scan->key > key_beg)) { --scan; --i; }] *)
Fixpoint find_back (fuel : nat) (bs : list blockref) (key_beg i : Z) : Z :=
  match fuel with
  | O => i
  | S fuel =>
      if (0 <? i) && (is_empty (aget bs i) || (key_beg <? br_key (aget bs i)))
      then find_back fuel bs key_beg (i - 1)
      else i
  end.

(** The forward search: the index it stops at, [count] when there is none. *)
Fixpoint find_fwd (fuel : nat) (bs : list blockref) (count limit key_beg i : Z) : Z :=
  match fuel with
  | O => i
  | S fuel =>
      if i <? count then
        let scan := aget bs i in
        if negb (is_empty scan)
           && ((key_beg <? br_key scan) || (key_beg <=? key_last scan))
        then i
        else if limit <=? i then count
        else find_fwd fuel bs count limit key_beg (i + 1)
      else i
  end.

(** Returns (index, *key_nextp, parent). *)
Definition hammer2_base_find (parent : core) (base : option (list blockref))
    (count key_next key_beg : Z) : outcome (Z * Z * core) :=
  assert! co_counted parent;
  match base with
  | None => Done (count, key_next, parent)
  | Some bs =>
      if count =? 0 then Done (count, key_next, parent)
      else
        let i := co_cache_index parent in
        let limit := co_live_zero parent in
        let i := if limit <=? i then limit - 1 else i in
        let i := if i <? 0 then 0 else i in
        assert! i <? count;
        let i := find_back (Z.to_nat i) bs key_beg i in
        let parent := set_cache_index i parent in
        let i := find_fwd (Z.to_nat count) bs count limit key_beg i in
        if i =? count then Done (i, key_next, parent)
        else
          let parent := set_cache_index i parent in
          if limit <=? i then Done (count, key_next, parent)
          else Done (i, limit_next key_next (key_after (aget bs i)), parent)
  end.

(** * [hammer2_base_delete] *)

(** [leaf_count] less one, or less [n]; saturated counts only raise the hint. *)
Definition leaf_dec (lc : Z) : Z * bool :=
  if lc =? HAMMER2_BLOCKREF_LEAF_MAX then (lc, true)
  else (if negb (lc =? 0) then lc - 1 else lc, false).
Definition leaf_sub (lc n : Z) : Z * bool :=
  if lc =? HAMMER2_BLOCKREF_LEAF_MAX then (lc, true)
  else (if lc <=? n then 0 else lc - n, false).

(** The statistics of [parent->bref] without [scan], and whether
    HINT_LEAF_COUNT is raised. *)
Definition delete_stats (parent scan : blockref) : blockref * bool :=
  let radix := br_data_off scan .& HAMMER2_OFF_MASK_RADIX in
  let dc := if radix =? 0 then br_data_count parent
            else u64 (br_data_count parent - u64 (1 .<< radix)) in
  let ic := br_inode_count parent in
  let lc := br_leaf_count parent in
  match br_type scan with
  | HAMMER2_BREF_TYPE_INODE =>
      let ic := u64 (ic - 1) in
      let '(lc, hint) := leaf_dec lc in
      (set_stats lc (u64 (dc - br_data_count scan)) (u64 (ic - br_inode_count scan)) parent,
       hint)
  | HAMMER2_BREF_TYPE_DATA =>
      let '(lc, hint) := leaf_dec lc in
      let '(lc, hint') := leaf_sub lc (br_leaf_count scan) in
      (set_stats lc dc ic parent, hint || hint')
  | HAMMER2_BREF_TYPE_INDIRECT =>
      let '(lc, hint) := leaf_sub lc (br_leaf_count scan) in
      (set_stats lc (u64 (dc - br_data_count scan)) (u64 (ic - br_inode_count scan)) parent,
       hint)
  | HAMMER2_BREF_TYPE_DIRENT =>
      let '(lc, hint) := leaf_dec lc in
      (set_stats lc dc ic parent, hint)
  | _ => (set_stats lc dc ic parent, false)
  end.

(** Returns (parent, base, chain, *obref). *)
Definition hammer2_base_delete (parent : core) (base : option (list blockref)) (count : Z)
    (chain : mchain) : outcome (core * list blockref * mchain * blockref) :=
  let elm := ch_bref chain in
  let! (i, _, parent) := hammer2_base_find parent base count 0 (br_key elm) in
  match base with
  | None => Panic
  | Some bs =>
      let scan := aget bs i in
      if (i =? count) || is_empty scan || negb (br_key scan =? br_key elm)
         || (negb (ch_blkmapupd chain) && negb (br_keybits scan =? br_keybits elm))
      then Panic
      else
        let '(bref, hint) := delete_stats (co_bref parent) scan in
        let parent := set_co_bref bref parent in
        let bs := aset bs i bref_zero in
        let parent :=
          if co_live_zero parent =? i + 1
          then set_live_zero (last_live (Z.to_nat i) bs + 1) parent else parent in
        Done (parent, bs,
              Chain elm (ch_deleted chain) false false (hint || ch_hint_leaf chain),
              scan)
  end.

(** * [hammer2_base_insert] *)

Definition leaf_inc (lc : Z) : Z :=
  if negb (lc =? HAMMER2_BLOCKREF_LEAF_MAX) then lc + 1 else lc.
Definition leaf_add (lc n : Z) : Z :=
  if lc + n <? HAMMER2_BLOCKREF_LEAF_MAX then lc + n else HAMMER2_BLOCKREF_LEAF_MAX.

(** The statistics of [parent->bref] with [elm]. *)
Definition insert_stats (parent elm : blockref) : blockref :=
  let radix := br_data_off elm .& HAMMER2_OFF_MASK_RADIX in
  let dc := if radix =? 0 then br_data_count parent
            else u64 (br_data_count parent + u64 (1 .<< radix)) in
  let ic := br_inode_count parent in
  let lc := br_leaf_count parent in
  match br_type elm with
  | HAMMER2_BREF_TYPE_INODE =>
      set_stats (leaf_inc lc) (u64 (dc + br_data_count elm))
        (u64 (u64 (ic + 1) + br_inode_count elm)) parent
  | HAMMER2_BREF_TYPE_DATA =>
      set_stats (leaf_add (leaf_inc lc) (br_leaf_count elm)) dc ic parent
  | HAMMER2_BREF_TYPE_INDIRECT =>
      set_stats (leaf_add lc (br_leaf_count elm)) (u64 (dc + br_data_count elm))
        (u64 (ic + br_inode_count elm)) parent
  | HAMMER2_BREF_TYPE_DIRENT => set_stats (leaf_inc lc) dc ic parent
  | _ => set_stats lc dc ic parent
  end.

(** [memmove(&bs[dst], &bs[src], n * sizeof( *bs))] *)
Definition memmove (bs : list blockref) (dst src n : Z) : list blockref :=
  take (Z.to_nat dst) bs ++ take (Z.to_nat n) (drop (Z.to_nat src) bs)
    ++ drop (Z.to_nat (dst + n)) bs.

(** Find the nearest empty slot on either side of [i] and shift the slots in
    between.  Returns (base, live_zero); no empty slot is a panic. *)
Fixpoint insert_shift (fuel : nat) (bs : list blockref) (elm : blockref)
    (count i j k live_zero : Z) : outcome (list blockref * Z) :=
  match fuel with
  | O => Panic
  | S fuel =>
      if (0 <? j) || (k <? count) then
        let j := j - 1 in
        if (0 <=? j) && is_empty (aget bs j) then
          Done (if j =? i - 1 then aset bs j elm
                else aset (memmove bs j (j + 1) (i - j - 1)) (i - 1) elm,
                live_zero)
        else
          let k := k + 1 in
          if (k <? count) && is_empty (aget bs k) then
            Done (aset (memmove bs (i + 1) i (k - i)) i elm,
                  if live_zero <=? k then k + 1 else live_zero)
          else insert_shift fuel bs elm count i j k live_zero
      else Panic
  end.

(** The final check that the non-empty slots are in order; [prev] is the last
    key of the previous one. *)
Fixpoint validate (bs : list blockref) (prev : option Z) : bool :=
  match bs with
  | [] => true
  | b :: bs =>
      if is_empty b then validate bs prev
      else
        match prev with
        | Some e => if br_key b <=? e then false else validate bs (Some (key_last b))
        | None => validate bs (Some (key_last b))
        end
  end.

(** Returns (parent, base, chain). *)
Definition hammer2_base_insert (parent : core) (base : option (list blockref)) (count : Z)
    (chain : option mchain) (elm : blockref)
  : outcome (core * list blockref * option mchain) :=
  let! (i, _, parent) := hammer2_base_find parent base count 0 (br_key elm) in
  assert! (0 <=? i) && (i <=? count);
  let chain := option_map (fun c => Chain (ch_bref c) (ch_deleted c) true (ch_blkmapupd c)
                                      (ch_hint_leaf c)) chain in
  let parent := set_co_bref (insert_stats (co_bref parent) elm) parent in
  match base with
  | None => Panic
  | Some bs =>
      if (i =? count) && (co_live_zero parent <? count) then
        let i := co_live_zero parent in
        Done (set_live_zero (i + 1) parent, aset bs i elm, chain)
      else
        let xkey := key_last elm in
        if negb (i =? count) && ((br_key (aget bs i) <? br_key elm)
                                 || (br_key (aget bs i) <=? xkey))
        then Panic
        else
          let! (bs, live_zero) :=
            insert_shift (S (Z.to_nat count)) bs elm count i i i (co_live_zero parent) in
          assert! validate bs None;
          Done (set_live_zero live_zero parent, bs, chain)
  end.
