(* ===== verification/BlockTableProof.v ===== *)
(** Correctness of the block table routines: the invariant of a table, lookup
    independent of the search hint, sorted insertion, deletion, and the
    statistics of the parent blockref. *)

From Stdlib Require Import ZArith Lia Bool Sorted.
From stdpp Require Import base numbers list option sorting.
From S2P Require Import Prelude Disk BlockTable.

(** * The invariant *)

(** A key range inside the 64-bit key space. *)
Record key_ok (b : blockref) : Prop := {
  ko_bits : 0 <= br_keybits b <= 63;
  ko_key : 0 <= br_key b /\ br_key b + 2 ^ br_keybits b <= 2 ^ 64
}.

Definition range_last (b : blockref) : Z := br_key b + 2 ^ br_keybits b - 1.

(** [a] lies wholly below [b]. *)
Definition before (a b : blockref) : Prop := range_last a < br_key b.

(** The non-empty slots, in table order. *)
Fixpoint live (bs : list blockref) : list blockref :=
  match bs with
  | [] => []
  | b :: bs => if is_empty b then live bs else b :: live bs
  end.

(** [n] is one past the last non-empty slot. *)
Definition live_end (n : Z) (bs : list blockref) : Prop :=
  0 <= n <= alen bs
  /\ (forall i, n <= i < alen bs -> is_empty (aget bs i) = true)
  /\ (n = 0 \/ is_empty (aget bs (n - 1)) = false).

Record table_ok (co : core) (bs : list blockref) (count : Z) : Prop := {
  tb_counted : co_counted co = true;
  tb_count : alen bs = count;
  tb_keys : Forall key_ok (live bs);
  tb_sorted : StronglySorted before (live bs);
  tb_zero : live_end (co_live_zero co) bs
}.

(** * Key ranges *)

Lemma key_size_pow b : key_ok b -> key_size b = 2 ^ br_keybits b.
Proof.
  intros [Hb _]. unfold key_size. rewrite Z.shiftl_1_l. apply u64_small.
  split; [lia|]. apply Z.pow_lt_mono_r; lia.
Qed.

Lemma key_last_range b : key_ok b -> key_last b = range_last b /\ br_key b <= range_last b < 2 ^ 64.
Proof.
  intros H. pose proof (key_size_pow b H) as Hs. destruct H as [Hb [Hk1 Hk2]].
  pose proof (pow2_pos (br_keybits b) ltac:(lia)). unfold key_last, range_last. rewrite Hs.
  split; [apply u64_small|]; lia.
Qed.

(** The first key after the range, 0 when there is none. *)
Lemma key_after_range b :
  key_ok b -> key_after b = if range_last b =? 2 ^ 64 - 1 then 0 else range_last b + 1.
Proof.
  intros H. pose proof (key_size_pow b H) as Hs. pose proof (key_last_range b H) as [_ Hr].
  unfold key_after. rewrite Hs. destruct H as [_ [Hk Hk2]]. unfold range_last in *.
  destruct (Z.eqb_spec (br_key b + 2 ^ br_keybits b - 1) (2 ^ 64 - 1)) as [E|E].
  - replace (br_key b + 2 ^ br_keybits b) with (2 ^ 64) by lia. reflexivity.
  - rewrite u64_small by lia. lia.
Qed.

(** * The non-empty slots *)

Lemma live_app l1 l2 : live (l1 ++ l2) = live l1 ++ live l2.
Proof.
  induction l1 as [|b l1 IH]; [reflexivity|]. cbn. rewrite IH. destruct (is_empty b); reflexivity.
Qed.

Lemma live_nil bs : (forall i, 0 <= i < alen bs -> is_empty (aget bs i) = true) -> live bs = [].
Proof.
  induction bs as [|b bs IH]; intros H; [reflexivity|]. cbn.
  pose proof (H 0 ltac:(unfold alen; cbn; lia)) as H0. change (aget (b :: bs) 0) with b in H0.
  rewrite H0.
  apply IH. intros i Hi. specialize (H (i + 1)). unfold aget, alen in *. cbn [length] in H.
  replace (Z.to_nat (i + 1)) with (S (Z.to_nat i)) in H by lia. apply H. lia.
Qed.

Lemma live_nonempty bs b : b ∈ live bs -> is_empty b = false.
Proof.
  induction bs as [|c bs IH]; cbn; [intros H; apply elem_of_nil in H as []|].
  destruct (is_empty c) eqn:E; [exact IH|]. intros [->|H]%elem_of_cons; auto.
Qed.

Lemma live_elem bs b : is_empty b = false -> b ∈ bs -> b ∈ live bs.
Proof.
  intros Hb. induction bs as [|c bs IH]; cbn; intros H; [apply elem_of_nil in H as []|].
  apply elem_of_cons in H as [<-|H]; [rewrite Hb; left|].
  destruct (is_empty c); [auto|right; auto].
Qed.

Lemma live_in bs b : b ∈ live bs -> b ∈ bs.
Proof.
  induction bs as [|c bs IH]; cbn; [auto|]. destruct (is_empty c); [right; auto|].
  intros [->|H]%elem_of_cons; [left|right; auto].
Qed.

Lemma aget_split (bs : list blockref) i :
  0 <= i < alen bs -> bs = take (Z.to_nat i) bs ++ aget bs i :: drop (Z.to_nat (i + 1)) bs.
Proof.
  unfold alen, aget. intros H. replace (Z.to_nat (i + 1)) with (S (Z.to_nat i)) by lia.
  symmetry. apply take_drop_middle. apply list_lookup_lookup_total_lt. lia.
Qed.

Lemma aset_split (bs : list blockref) i x :
  0 <= i < alen bs -> aset bs i x = take (Z.to_nat i) bs ++ x :: drop (Z.to_nat (i + 1)) bs.
Proof.
  unfold alen, aset. intros H. replace (Z.to_nat (i + 1)) with (S (Z.to_nat i)) by lia.
  apply insert_take_drop. lia.
Qed.

(** The table split at slot [i]. *)
Lemma live_split bs i :
  live bs = live (take (Z.to_nat i) bs) ++ live (drop (Z.to_nat i) bs).
Proof. rewrite <- live_app, take_drop. reflexivity. Qed.

Lemma live_drop_step bs i :
  0 <= i < alen bs ->
  live (drop (Z.to_nat i) bs)
  = (if is_empty (aget bs i) then [] else [aget bs i]) ++ live (drop (Z.to_nat (i + 1)) bs).
Proof.
  unfold alen, aget. intros H. replace (Z.to_nat (i + 1)) with (S (Z.to_nat i)) by lia.
  rewrite (drop_S _ (bs !!! Z.to_nat i)).
  2: { apply list_lookup_lookup_total_lt. lia. }
  cbn. destruct (is_empty _); reflexivity.
Qed.

Lemma aget_drop (bs : list blockref) n i :
  0 <= i -> aget (drop n bs) i = aget bs (Z.of_nat n + i).
Proof.
  intros. unfold aget. rewrite lookup_total_drop. f_equal. lia.
Qed.

Lemma live_drop_nil bs n :
  0 <= n -> (forall i, n <= i < alen bs -> is_empty (aget bs i) = true) ->
  live (drop (Z.to_nat n) bs) = [].
Proof.
  intros Hn H. apply live_nil. intros i Hi. rewrite aget_drop by lia. apply H.
  unfold alen in *. rewrite length_drop in Hi. lia.
Qed.

(** Entries at increasing slots are in key order. *)
Lemma sorted_slots bs i j :
  StronglySorted before (live bs) -> 0 <= i < j -> j < alen bs ->
  is_empty (aget bs i) = false -> is_empty (aget bs j) = false ->
  before (aget bs i) (aget bs j).
Proof.
  intros Hs Hij Hj Hi1 Hj1.
  rewrite (live_split bs i), (live_drop_step bs i) in Hs by lia. rewrite Hi1 in Hs.
  apply StronglySorted_app_1_r in Hs. cbn in Hs. apply StronglySorted_inv in Hs as [_ Hs].
  rewrite List.Forall_forall in Hs. apply Hs, list_elem_of_In, live_elem; [exact Hj1|].
  replace (aget bs j) with (aget (drop (Z.to_nat (i + 1)) bs) (j - i - 1)).
  - apply aget_elem. unfold alen in *. rewrite length_drop. lia.
  - rewrite aget_drop by lia. f_equal. lia.
Qed.

Lemma slot_key_ok bs i :
  Forall key_ok (live bs) -> 0 <= i < alen bs -> is_empty (aget bs i) = false -> key_ok (aget bs i).
Proof.
  intros H Hi Hne. rewrite Forall_forall in H. apply H, live_elem; [exact Hne|]. apply aget_elem, Hi.
Qed.

(** * Lookup *)

(** Slot [b] ends at or after [key_beg]. *)
Definition hits (key_beg : Z) (b : blockref) : Prop :=
  is_empty b = false /\ key_beg <= range_last b.

(** [i] is the first slot that ends at or after [key_beg], or the table size. *)
Definition first_hit (bs : list blockref) (key_beg i : Z) : Prop :=
  0 <= i <= alen bs
  /\ (i < alen bs -> hits key_beg (aget bs i))
  /\ (forall j, 0 <= j < i -> ~ hits key_beg (aget bs j)).

Lemma first_hit_unique bs k i j : first_hit bs k i -> first_hit bs k j -> i = j.
Proof.
  intros (Hi & Hi1 & Hi2) (Hj & Hj1 & Hj2).
  destruct (Z.lt_trichotomy i j) as [H|[H|H]]; [|exact H|].
  - destruct (Hj2 i ltac:(lia)). apply Hi1. lia.
  - destruct (Hi2 j ltac:(lia)). apply Hj1. lia.
Qed.

Lemma find_back_spec bs k n i :
  i = Z.of_nat n ->
  let j := find_back n bs k i in
  0 <= j <= i /\ (j = 0 \/ (is_empty (aget bs j) = false /\ br_key (aget bs j) <= k)).
Proof.
  revert i. induction n as [|n IH]; intros i Hi; cbn -[Z.sub]; [split; [lia|left; lia]|].
  destruct (Z.ltb_spec 0 i) as [H0|H0]; [|lia].
  pose proof (IH (i - 1) ltac:(lia)) as [IH1 IH2]. cbv zeta in *.
  destruct (is_empty (aget bs i)) eqn:He; cbn [orb andb]; [split; [lia|exact IH2]|].
  destruct (Z.ltb_spec k (br_key (aget bs i))) as [H|H]; [split; [lia|exact IH2]|].
  split; [lia|]. right. auto.
Qed.

(** The condition that stops the forward search. *)
Lemma stop_hits b k :
  (is_empty b = false -> key_ok b) ->
  negb (is_empty b) && ((k <? br_key b) || (k <=? key_last b)) = true <-> hits k b.
Proof.
  intros Hok. unfold hits. destruct (is_empty b) eqn:He; cbn [negb andb].
  - split; [discriminate|intros [? _]; discriminate].
  - destruct (key_last_range b (Hok eq_refl)) as [-> Hr].
    rewrite orb_true_iff, Z.ltb_lt, Z.leb_le. split; [intros [?|?]; split; (reflexivity || lia)|].
    intros [_ ?]. right. assumption.
Qed.

Lemma find_fwd_spec bs limit k n i :
  Forall key_ok (live bs) -> 0 <= i <= alen bs -> (alen bs - i <= Z.of_nat n) ->
  (forall j, limit <= j < alen bs -> is_empty (aget bs j) = true) ->
  (forall j, 0 <= j < i -> ~ hits k (aget bs j)) ->
  first_hit bs k (find_fwd n bs (alen bs) limit k i).
Proof.
  intros Hk. revert i. induction n as [|n IH]; intros i Hi Hn Hl Hb; cbn -[Z.sub Z.add].
  - split; [lia|]. split; [lia|exact Hb].
  - destruct (Z.ltb_spec i (alen bs)) as [Hlt|Hge].
    2: { split; [lia|]. split; [lia|exact Hb]. }
    pose proof (stop_hits (aget bs i) k (slot_key_ok bs i Hk ltac:(lia))) as Hstop.
    destruct (negb _ && _); [|].
    + split; [lia|]. split; [|exact Hb]. intros _. apply Hstop. reflexivity.
    + assert (Hno : ~ hits k (aget bs i)) by (intros H; apply Hstop in H; discriminate).
      destruct (Z.leb_spec limit i) as [Hli|Hli].
      * split; [unfold alen; lia|]. split; [lia|]. intros j Hj Hh.
        destruct (Z.lt_ge_cases j i); [apply (Hb j ltac:(lia) Hh)|].
        destruct Hh as [He _]. rewrite Hl in He by lia. discriminate.
      * apply IH; [lia|lia|exact Hl|]. intros j Hj.
        destruct (Z.eq_dec j i) as [->|]; [exact Hno|apply Hb; lia].
Qed.

(** Lookup finds the first slot at or after [key_beg] whatever the hint, and
    lowers the next key to the end of that slot. *)
Lemma base_find_spec co bs count key_next k :
  table_ok co bs count ->
  exists i c, hammer2_base_find co (Some bs) count key_next k
              = Done (i, (if i =? count then key_next
                          else limit_next key_next (key_after (aget bs i))),
                      set_cache_index c co)
    /\ first_hit bs k i.
Proof.
  intros [Hc Hn Hk Hs (Hz & Hz1 & Hz2)]. unfold hammer2_base_find. rewrite Hc. cbn [kassert obind].
  assert (Hset : set_cache_index (co_cache_index co) co = co) by (destruct co; reflexivity).
  destruct (Z.eqb_spec count 0) as [E|E].
  - exists 0, (co_cache_index co). rewrite Hset, E. cbn. split; [reflexivity|].
    split; [unfold alen in *; lia|]. split; lia.
  - set (i0 := if co_live_zero co <=? co_cache_index co then _ else _).
    set (i1 := if i0 <? 0 then 0 else i0).
    assert (Hi1 : 0 <= i1 < alen bs).
    { unfold alen in *. subst i1 i0. destruct (Z.leb_spec (co_live_zero co) (co_cache_index co));
        case_match; lia. }
    replace (i1 <? count) with true by lia. cbn [kassert obind].
    pose proof (find_back_spec bs k (Z.to_nat i1) i1 ltac:(lia)) as [Hj1 Hj2]. cbv zeta in *.
    set (j := find_back (Z.to_nat i1) bs k i1) in *. rewrite <- Hn.
    assert (Hf : first_hit bs k (find_fwd (Z.to_nat (alen bs)) bs (alen bs) (co_live_zero co) k j)).
    { apply find_fwd_spec; try assumption; [lia|unfold alen; lia|].
      intros m Hm [He Hle]. destruct Hj2 as [?|[Hj2 Hj3]]; [lia|].
      pose proof (sorted_slots bs m j Hs ltac:(lia) ltac:(lia) He Hj2) as Hb. unfold before in Hb. lia. }
    set (i := find_fwd _ _ _ _ _ _) in *. destruct (Z.eqb_spec i (alen bs)) as [Ei|Ei].
    + exists i, j. rewrite Ei, Z.eqb_refl. split; [reflexivity|]. rewrite <- Ei. exact Hf.
    + exists i, i. destruct (Z.eqb_spec i (alen bs)); [contradiction|].
      destruct Hf as (Hf0 & Hf1 & Hf2). destruct (Z.leb_spec (co_live_zero co) i) as [Hl|Hl].
      * destruct (Hf1 ltac:(lia)) as [He _]. rewrite Hz1 in He by lia. discriminate.
      * split; [reflexivity|]. repeat split; try lia; try apply Hf1; try apply Hf2; lia.
Qed.

(** What the first hit says about the entries on either side. *)
Lemma first_hit_sides bs k i :
  Forall key_ok (live bs) -> StronglySorted before (live bs) -> first_hit bs k i ->
  Forall (fun b => range_last b < k) (live (take (Z.to_nat i) bs))
  /\ Forall (fun b => k <= range_last b) (live (drop (Z.to_nat i) bs)).
Proof.
  intros Hk Hs (Hi & Hhit & Hno). split.
  - apply Forall_forall. intros b Hb. pose proof (live_nonempty _ _ Hb) as He.
    apply live_in, list_elem_of_lookup in Hb as [n Hn].
    apply lookup_take_Some in Hn as [Hn Hlt].
    specialize (Hno (Z.of_nat n) ltac:(lia)). unfold aget in Hno. rewrite Nat2Z.id in Hno.
    rewrite (list_lookup_total_correct _ _ _ Hn) in Hno.
    destruct (Z.lt_ge_cases (range_last b) k); [assumption|]. destruct Hno. split; assumption.
  - destruct (Z.eq_dec i (alen bs)) as [->|Hne].
    { rewrite drop_ge by (unfold alen; lia). constructor. }
    destruct (Hhit ltac:(lia)) as [He Hle].
    rewrite (live_split bs i) in Hs. apply StronglySorted_app_1_r in Hs.
    rewrite live_drop_step in * by lia. rewrite He in *. cbn in *.
    apply StronglySorted_inv in Hs as [_ Hs]. constructor; [exact Hle|].
    pose proof (slot_key_ok bs i Hk ltac:(lia) He) as Hki.
    rewrite (live_split bs (i + 1)) in Hk. apply Forall_app in Hk as [_ Hk].
    rewrite Forall_forall in *. intros b Hb.
    specialize (Hs b Hb). unfold before in Hs.
    pose proof (key_last_range b (Hk b Hb)). lia.
Qed.

(** * Counting *)

Lemma last_live_spec n bs :
  let l := last_live n bs in
  -1 <= l < Z.of_nat n /\ (forall m, l < m < Z.of_nat n -> is_empty (aget bs m) = true)
  /\ (l = -1 \/ is_empty (aget bs l) = false).
Proof.
  induction n as [|n IH]; cbn [last_live]; [split; [lia|]; split; [lia|left; reflexivity]|].
  destruct (is_empty (aget bs (Z.of_nat n))) eqn:He; cbv zeta in *.
  - destruct IH as (H1 & H2 & H3). split; [lia|]. split; [|exact H3].
    intros m Hm. destruct (Z.eq_dec m (Z.of_nat n)) as [->|]; [exact He|apply H2; lia].
  - split; [lia|]. split; [lia|right; exact He].
Qed.

Lemma live_end_unique n m bs : live_end n bs -> live_end m bs -> n = m.
Proof.
  intros (Hn & Hn1 & Hn2) (Hm & Hm1 & Hm2). destruct (Z.lt_trichotomy n m) as [H|[H|H]]; [|exact H|].
  - destruct Hm2 as [?|Hm2]; [lia|]. rewrite Hn1 in Hm2 by lia. discriminate.
  - destruct Hn2 as [?|Hn2]; [lia|]. rewrite Hm1 in Hn2 by lia. discriminate.
Qed.

Lemma count_live_spec n bs :
  Z.of_nat n <= alen bs -> count_live n bs = Z.of_nat (length (live (take n bs))).
Proof.
  unfold alen. induction n as [|n IH]; intros Hn; [reflexivity|]. cbn [count_live]. rewrite IH by lia.
  rewrite (take_S_r _ _ (aget bs (Z.of_nat n))).
  2: { unfold aget. rewrite Nat2Z.id. apply list_lookup_lookup_total_lt. lia. }
  rewrite live_app, length_app. cbn [live]. destruct (is_empty _); cbn [length]; lia.
Qed.

(** A recount of a table. *)
Lemma countbrefs_spec co bs :
  co_counted co = false ->
  exists n, hammer2_chain_countbrefs co (Some bs) (alen bs)
            = Core n (u32 (co_live_count co + Z.of_nat (length (live bs)))) (co_cache_index co) true
                (co_bref co)
    /\ live_end n bs.
Proof.
  intros Hc. unfold hammer2_chain_countbrefs. rewrite Hc.
  pose proof (last_live_spec (Z.to_nat (alen bs)) bs) as (H1 & H2 & H3). cbv zeta in *.
  set (l := last_live _ bs) in *. unfold alen in *.
  assert (He : live_end (l + 1) bs).
  { split; [unfold alen; lia|]. split; [intros; apply H2; unfold alen in *; lia|].
    destruct H3 as [->|H3]; [left; lia|right]. replace (l + 1 - 1) with l by lia. exact H3. }
  exists (l + 1). split; [|exact He]. f_equal. f_equal. f_equal. rewrite count_live_spec by (unfold alen; lia).
  f_equal. f_equal. rewrite (live_split bs (l + 1)). destruct He as (He1 & He2 & _).
  rewrite (live_drop_nil bs (l + 1)), app_nil_r; [reflexivity|lia|exact He2].
Qed.

(** * Deletion *)

Lemma is_empty_zero : is_empty bref_zero = true.
Proof. reflexivity. Qed.

Lemma first_hit_at bs i :
  Forall key_ok (live bs) -> StronglySorted before (live bs) ->
  0 <= i < alen bs -> is_empty (aget bs i) = false -> first_hit bs (br_key (aget bs i)) i.
Proof.
  intros Hk Hs Hi He. pose proof (key_last_range _ (slot_key_ok bs i Hk Hi He)) as [_ Hr].
  split; [lia|]. split; [intros _; split; [exact He|lia]|].
  intros j Hj [Hje Hle]. pose proof (sorted_slots bs j i Hs Hj ltac:(lia) Hje He) as Hb.
  unfold before in Hb. lia.
Qed.

Lemma live_clear bs i :
  0 <= i < alen bs ->
  live (aset bs i bref_zero)
  = live (take (Z.to_nat i) bs) ++ live (drop (Z.to_nat (i + 1)) bs).
Proof. intros Hi. rewrite aset_split by exact Hi. rewrite live_app. reflexivity. Qed.

Lemma live_end_clear bs n i :
  live_end n bs -> 0 <= i < alen bs -> is_empty (aget bs i) = false ->
  live_end (if n =? i + 1 then last_live (Z.to_nat i) (aset bs i bref_zero) + 1 else n)
    (aset bs i bref_zero).
Proof.
  intros (Hn & Hn1 & Hn2) Hi He.
  assert (Hin : i < n) by (destruct (Z.lt_ge_cases i n) as [?|H]; [assumption|];
                           rewrite Hn1 in He by lia; discriminate).
  assert (Hc : forall j, 0 <= j < alen bs -> is_empty (aget bs j) = true ->
                         is_empty (aget (aset bs i bref_zero) j) = true).
  { intros j Hj Hje. destruct (Z.eq_dec i j) as [->|].
    - rewrite aget_aset_eq by lia. reflexivity.
    - rewrite aget_aset_ne by lia. exact Hje. }
  destruct (Z.eqb_spec n (i + 1)) as [E|E].
  - pose proof (last_live_spec (Z.to_nat i) (aset bs i bref_zero)) as (H1 & H2 & H3). cbv zeta in *.
    set (l := last_live _ _) in *. split; [rewrite alen_aset; lia|].
    rewrite alen_aset. split.
    + intros j Hj. destruct (Z.lt_trichotomy j i) as [Hji|[->|Hji]].
      * apply H2. lia.
      * rewrite aget_aset_eq by lia. reflexivity.
      * apply Hc; [lia|]. apply Hn1. lia.
    + replace (l + 1 - 1) with l by lia. destruct H3; [left; lia|right; assumption].
  - split; [rewrite alen_aset; lia|]. rewrite alen_aset.
    split; [intros j Hj; apply Hc; [lia|]; apply Hn1; lia|].
    right. destruct Hn2 as [?|Hn2]; [lia|]. rewrite aget_aset_ne by lia. exact Hn2.
Qed.

Lemma sorted_remove (l1 l2 : list blockref) b :
  StronglySorted before (l1 ++ b :: l2) -> StronglySorted before (l1 ++ l2).
Proof.
  induction l1 as [|a l1 IH]; cbn; intros [Hs Hf]%StronglySorted_inv; [exact Hs|].
  constructor; [auto|]. apply Forall_app in Hf as [H1 H2]. apply Forall_cons_1 in H2 as [_ H2].
  apply Forall_app_2; assumption.
Qed.

(** A sorted list splits at an element in one way only. *)
Lemma sorted_key_split l1 l2 m1 m2 b :
  StronglySorted before (l1 ++ b :: l2) -> Forall key_ok (l1 ++ b :: l2) ->
  l1 ++ b :: l2 = m1 ++ b :: m2 -> m1 = l1 /\ m2 = l2.
Proof.
  revert m1. induction l1 as [|a l1 IH]; intros [|c m1] Hs Hk E; cbn in *.
  - injection E as E2. auto.
  - injection E as E1 E2. subst c. apply StronglySorted_inv in Hs as [_ Hs]. rewrite Forall_forall in Hs.
    assert (Hb : b ∈ l2) by (rewrite E2; apply elem_of_app; right; left).
    specialize (Hs b Hb). apply Forall_cons_1 in Hk as [Hk _].
    pose proof (key_last_range b Hk). unfold before in Hs. lia.
  - injection E as E1 E2. subst a. apply StronglySorted_inv in Hs as [_ Hs]. rewrite Forall_forall in Hs.
    assert (Hb : b ∈ l1 ++ b :: l2) by (apply elem_of_app; right; left).
    specialize (Hs b Hb). apply Forall_cons_1 in Hk as [Hk _].
    pose proof (key_last_range b Hk). unfold before in Hs. lia.
  - injection E as E1 E2. apply StronglySorted_inv in Hs as [Hs _]. apply Forall_cons_1 in Hk as [_ Hk].
    destruct (IH m1 Hs Hk E2) as [-> ->]. subst. auto.
Qed.

(** The entry of [chain] is removed, and nothing else. *)
Lemma base_delete_spec co bs count chain l1 b l2 :
  table_ok co bs count -> live bs = l1 ++ b :: l2 -> br_key b = br_key (ch_bref chain) ->
  ch_blkmapupd chain = true \/ br_keybits b = br_keybits (ch_bref chain) ->
  exists co' bs', hammer2_base_delete co (Some bs) count chain
    = Done (co', bs', Chain (ch_bref chain) (ch_deleted chain) false false
                        ((delete_stats (co_bref co) b).2 || ch_hint_leaf chain), b)
    /\ live bs' = l1 ++ l2 /\ table_ok co' bs' count
    /\ co_bref co' = (delete_stats (co_bref co) b).1 /\ co_live_count co' = co_live_count co.
Proof.
  intros Hok Hlive Hkey Hbits.
  destruct (base_find_spec co bs count 0 (br_key (ch_bref chain)) Hok) as (i & c & Hrun & Hfirst).
  destruct Hok as [Hc Hn Hk Hs Hz].
  assert (Hbk : key_ok b) by (rewrite Hlive in Hk; apply Forall_app in Hk as [_ Hk];
                              inversion Hk; assumption).
  pose proof (key_last_range b Hbk) as [_ Hbr].
  destruct (first_hit_sides bs _ i Hk Hs Hfirst) as [Hlo Hhi].
  assert (Hbin : b ∈ live (drop (Z.to_nat i) bs)).
  { assert (Hb : b ∈ live bs) by (rewrite Hlive; apply elem_of_app; right; left).
    rewrite (live_split bs i) in Hb. apply elem_of_app in Hb as [Hb|Hb]; [|exact Hb].
    rewrite Forall_forall in Hlo. specialize (Hlo b Hb). lia. }
  destruct Hfirst as (Hi & Hhit & _).
  destruct (Z.eq_dec i (alen bs)) as [->|Hne].
  { rewrite drop_ge in Hbin by (unfold alen; lia). apply elem_of_nil in Hbin as []. }
  destruct (Hhit ltac:(lia)) as [He Hle].
  pose proof (live_drop_step bs i ltac:(lia)) as Hstep. rewrite He in Hstep. cbn [app] in Hstep.
  pose proof (live_split bs i) as Hsplit. rewrite Hstep in Hsplit.
  pose proof (slot_key_ok bs i Hk ltac:(lia) He) as Hik.
  pose proof (key_last_range _ Hik) as [_ Hir].
  assert (Hb : aget bs i = b).
  { rewrite Hstep in Hbin. apply elem_of_cons in Hbin as [Hb|Hb]; [congruence|].
    rewrite Hsplit in Hs. apply StronglySorted_app_1_r, StronglySorted_inv in Hs as [_ Hs].
    rewrite Forall_forall in Hs. specialize (Hs b Hb). unfold before in Hs. lia. }
  rewrite Hb in *.
  assert (Hparts : live (take (Z.to_nat i) bs) = l1 /\ live (drop (Z.to_nat (i + 1)) bs) = l2).
  { rewrite Hlive in Hsplit. clear - Hsplit Hs Hlive Hk.
    apply sorted_key_split with b; [rewrite <- Hlive; exact Hs|rewrite <- Hlive; exact Hk|congruence]. }
  destruct Hparts as [Hp1 Hp2].
  unfold hammer2_base_delete. rewrite Hrun. cbn [obind].
  destruct (Z.eqb_spec i count) as [?|_]; [lia|]. rewrite Hb, He, Hkey, Z.eqb_refl. cbn [orb negb].
  replace (negb (ch_blkmapupd chain) && negb (br_keybits b =? br_keybits (ch_bref chain))) with false
    by (destruct Hbits as [-> | ->]; [reflexivity|rewrite Z.eqb_refl, andb_false_r; reflexivity]).
  destruct (delete_stats (co_bref (set_cache_index c co)) b) as [bref hint] eqn:Hst.
  cbn [co_bref set_cache_index] in Hst. rewrite Hst.
  eexists _, _. split; [reflexivity|]. rewrite live_clear, Hp1, Hp2 by lia.
  split; [reflexivity|]. split; [|destruct (_ =? i + 1); split; reflexivity].
  assert (Hl : live (aset bs i bref_zero) = l1 ++ l2) by (rewrite live_clear, Hp1, Hp2 by lia; reflexivity).
  constructor.
  - destruct (_ =? i + 1); exact Hc.
  - rewrite alen_aset. exact Hn.
  - rewrite Hl. rewrite Hlive in Hk. apply Forall_app in Hk as [Hk1 Hk2].
    apply Forall_app_2; [exact Hk1|]. inversion Hk2; assumption.
  - rewrite Hl. rewrite Hlive in Hs. eapply sorted_remove, Hs.
  - pose proof (live_end_clear bs (co_live_zero co) i Hz ltac:(lia) ltac:(rewrite Hb; exact He)) as Hz'.
    cbn [co_live_zero set_co_bref set_cache_index]. destruct (co_live_zero co =? i + 1); exact Hz'.
Qed.

(** * Insertion *)

(** The table of the left shift: slots [j+1 .. i-1] move down into slot [j]. *)
Lemma left_shift bs elm i j :
  0 <= j < i -> i <= alen bs -> is_empty (aget bs j) = true -> is_empty elm = false ->
  let bs' := if j =? i - 1 then aset bs j elm
             else aset (memmove bs j (j + 1) (i - j - 1)) (i - 1) elm in
  bs' = take (Z.to_nat j) bs ++ take (Z.to_nat (i - j - 1)) (drop (Z.to_nat (j + 1)) bs)
          ++ elm :: drop (Z.to_nat i) bs
  /\ live bs' = live (take (Z.to_nat i) bs) ++ elm :: live (drop (Z.to_nat i) bs).
Proof.
  intros Hj Hi He Hne bs'.
  assert (Hbs : bs' = take (Z.to_nat j) bs
                        ++ take (Z.to_nat (i - j - 1)) (drop (Z.to_nat (j + 1)) bs)
                        ++ elm :: drop (Z.to_nat i) bs).
  { unfold alen in *. subst bs'. destruct (Z.eqb_spec j (i - 1)) as [->|Hji].
    - rewrite aset_split by (unfold alen; lia). replace (i - 1 + 1) with i by lia.
      replace (Z.to_nat (i - (i - 1) - 1)) with 0%nat by lia. reflexivity.
    - unfold memmove. unfold aset. rewrite insert_app_r_alt by (rewrite length_take; lia).
      f_equal. rewrite length_take. rewrite insert_app_r_alt.
      2: { rewrite length_take, length_drop. lia. }
      f_equal. rewrite length_take, length_drop.
      replace (_ - _ - _)%nat with 0%nat by lia.
      replace (Z.to_nat (j + (i - j - 1))) with (Z.to_nat (i - 1)) by lia.
      rewrite (drop_S bs (aget bs (i - 1)) (Z.to_nat (i - 1))).
      2: { apply list_lookup_lookup_total_lt. lia. }
      replace (S (Z.to_nat (i - 1))) with (Z.to_nat i) by lia. reflexivity. }
  split; [exact Hbs|]. rewrite Hbs, !live_app. cbn [live]. rewrite Hne.
  rewrite (live_split (take (Z.to_nat i) bs) j).
  assert (Hji : (Z.to_nat j < Z.to_nat i)%nat) by lia.
  rewrite take_take. rewrite Nat.min_l by lia.
  rewrite skipn_firstn_comm.
  replace (Z.to_nat i - Z.to_nat j)%nat with (S (Z.to_nat (i - j - 1))) by lia.
  rewrite (drop_S bs (aget bs j) (Z.to_nat j)).
  2: { apply list_lookup_lookup_total_lt. unfold alen in *. lia. }
  cbn [take live]. rewrite He. replace (S (Z.to_nat j)) with (Z.to_nat (j + 1)) by lia.
  rewrite <- app_assoc. reflexivity.
Qed.

(** The table of the right shift: slots [i .. k-1] move up into slot [k]. *)
Lemma right_shift bs elm i k :
  0 <= i < k -> k < alen bs -> is_empty (aget bs k) = true -> is_empty elm = false ->
  let bs' := aset (memmove bs (i + 1) i (k - i)) i elm in
  bs' = take (Z.to_nat i) bs ++ elm :: take (Z.to_nat (k - i)) (drop (Z.to_nat i) bs)
          ++ drop (Z.to_nat (k + 1)) bs
  /\ live bs' = live (take (Z.to_nat i) bs) ++ elm :: live (drop (Z.to_nat i) bs).
Proof.
  intros Hi Hk He Hne bs'. unfold alen in *.
  assert (Hbs : bs' = take (Z.to_nat i) bs ++ elm :: take (Z.to_nat (k - i)) (drop (Z.to_nat i) bs)
                        ++ drop (Z.to_nat (k + 1)) bs).
  { subst bs'. unfold memmove. replace (Z.to_nat (i + 1)) with (S (Z.to_nat i)) by lia.
    rewrite (take_S_r bs (Z.to_nat i) (aget bs i)).
    2: { apply list_lookup_lookup_total_lt. lia. }
    rewrite <- app_assoc. unfold aset. rewrite insert_app_r_alt by (rewrite length_take; lia).
    rewrite length_take. replace (Z.to_nat i - _)%nat with 0%nat by lia.
    replace (i + 1 + (k - i)) with (k + 1) by lia. reflexivity. }
  split; [exact Hbs|]. rewrite Hbs, live_app. cbn [live]. rewrite Hne. f_equal. f_equal.
  rewrite live_app. rewrite (live_split (drop (Z.to_nat i) bs) (k - i)). f_equal.
  rewrite drop_drop. replace (Z.to_nat i + Z.to_nat (k - i))%nat with (Z.to_nat k) by lia.
  rewrite (live_drop_step bs k) by (unfold alen; lia). rewrite He. reflexivity.
Qed.

(** Reads of a shifted table. *)
Lemma aget_app_l (l1 l2 : list blockref) i :
  0 <= i < alen l1 -> aget (l1 ++ l2) i = aget l1 i.
Proof. unfold alen, aget. intros. apply lookup_total_app_l. lia. Qed.
Lemma aget_app_r (l1 l2 : list blockref) i :
  alen l1 <= i -> aget (l1 ++ l2) i = aget l2 (i - alen l1).
Proof.
  unfold alen, aget. intros. rewrite lookup_total_app_r by lia. f_equal. lia.
Qed.
Lemma alen_app (l1 l2 : list blockref) : alen (l1 ++ l2) = alen l1 + alen l2.
Proof. unfold alen. rewrite length_app. lia. Qed.
Lemma alen_take (l : list blockref) i : 0 <= i <= alen l -> alen (take (Z.to_nat i) l) = i.
Proof. unfold alen. intros. rewrite length_take. lia. Qed.
Lemma alen_drop (l : list blockref) i : 0 <= i <= alen l -> alen (drop (Z.to_nat i) l) = alen l - i.
Proof. unfold alen. intros. rewrite length_drop. lia. Qed.
Lemma aget_drop_Z (l : list blockref) n i : 0 <= n -> 0 <= i -> aget (drop (Z.to_nat n) l) i = aget l (n + i).
Proof. intros. rewrite aget_drop by lia. f_equal. lia. Qed.
Lemma alen_cons (x : blockref) l : alen (x :: l) = 1 + alen l.
Proof. unfold alen. cbn [length]. lia. Qed.
Lemma aget_cons_S (x : blockref) l i : 0 < i -> aget (x :: l) i = aget l (i - 1).
Proof. intros. unfold aget. replace (Z.to_nat i) with (S (Z.to_nat (i - 1))) by lia. reflexivity. Qed.
Lemma aget_take (l : list blockref) n i : 0 <= i < n -> aget (take (Z.to_nat n) l) i = aget l i.
Proof. intros. unfold aget. rewrite lookup_total_take, decide_True by lia. reflexivity. Qed.

Lemma left_result bs elm i j lz :
  0 <= j < i -> i <= alen bs -> is_empty (aget bs j) = true -> is_empty elm = false ->
  live_end lz bs -> (i < alen bs -> is_empty (aget bs i) = false) ->
  (i = alen bs -> lz = alen bs) ->
  let bs' := if j =? i - 1 then aset bs j elm
             else aset (memmove bs j (j + 1) (i - j - 1)) (i - 1) elm in
  alen bs' = alen bs /\ live_end lz bs'
  /\ live bs' = live (take (Z.to_nat i) bs) ++ elm :: live (drop (Z.to_nat i) bs).
Proof.
  intros Hj Hi He Hne (Hz & Hz1 & Hz2) Hfull Hend bs'.
  destruct (left_shift bs elm i j Hj Hi He Hne) as [Hbs Hlive]. fold bs' in Hbs, Hlive.
  set (mid := take (Z.to_nat (i - j - 1)) (drop (Z.to_nat (j + 1)) bs)) in *.
  assert (Hmid : alen mid = i - j - 1).
  { unfold mid. apply alen_take. rewrite alen_drop by lia. lia. }
  assert (Hhi : forall m, i <= m < alen bs -> aget bs' m = aget bs m).
  { intros m Hm. rewrite Hbs, aget_app_r by (rewrite alen_take; lia). rewrite alen_take by lia.
    rewrite aget_app_r by lia. rewrite aget_cons_S by lia. rewrite aget_drop_Z by lia. f_equal. lia. }
  assert (Hlen : alen bs' = alen bs).
  { rewrite Hbs, !alen_app, alen_cons, alen_take, alen_drop, Hmid by lia. lia. }
  split; [exact Hlen|]. split; [|exact Hlive]. split; [lia|]. rewrite Hlen.
  assert (Hiz : i <= lz).
  { destruct (Z.eq_dec i (alen bs)) as [E|E]; [rewrite Hend by exact E; lia|].
    destruct (Z.le_gt_cases i lz) as [?|Hgt]; [assumption|].
    specialize (Hfull ltac:(lia)). rewrite Hz1 in Hfull by lia. discriminate. }
  split; [intros m Hm; rewrite Hhi by lia; apply Hz1; lia|].
  right. destruct (Z.eq_dec i lz) as [->|Hil].
  - rewrite Hbs, aget_app_r, alen_take by (rewrite ?alen_take; lia).
    rewrite aget_app_r, Hmid by lia. replace (lz - 1 - j - (lz - j - 1)) with 0 by lia. exact Hne.
  - rewrite Hhi by lia. destruct Hz2 as [?|Hz2]; [lia|exact Hz2].
Qed.

Lemma right_result bs elm i k lz :
  0 <= i < k -> k < alen bs -> is_empty (aget bs k) = true -> is_empty elm = false ->
  live_end lz bs -> (forall m, i <= m < k -> is_empty (aget bs m) = false) ->
  let bs' := aset (memmove bs (i + 1) i (k - i)) i elm in
  alen bs' = alen bs /\ live_end (if lz <=? k then k + 1 else lz) bs'
  /\ live bs' = live (take (Z.to_nat i) bs) ++ elm :: live (drop (Z.to_nat i) bs).
Proof.
  intros Hi Hk He Hne (Hz & Hz1 & Hz2) Hfull bs'.
  destruct (right_shift bs elm i k Hi Hk He Hne) as [Hbs Hlive]. fold bs' in Hbs, Hlive.
  set (mid := take (Z.to_nat (k - i)) (drop (Z.to_nat i) bs)) in *.
  assert (Hmid : alen mid = k - i).
  { unfold mid. apply alen_take. rewrite alen_drop by lia. lia. }
  assert (Hhi : forall m, k < m < alen bs -> aget bs' m = aget bs m).
  { intros m Hm. rewrite Hbs, aget_app_r by (rewrite alen_take; lia). rewrite alen_take by lia.
    rewrite aget_cons_S by lia. rewrite aget_app_r by lia. rewrite aget_drop_Z by lia. f_equal. lia. }
  assert (Hkk : is_empty (aget bs' k) = false).
  { rewrite Hbs, aget_app_r by (rewrite alen_take; lia). rewrite alen_take by lia.
    rewrite aget_cons_S by lia. rewrite aget_app_l by lia. unfold mid.
    rewrite aget_take, aget_drop_Z by lia. apply Hfull. lia. }
  assert (Hlen : alen bs' = alen bs).
  { rewrite Hbs, alen_app, alen_cons, alen_app, alen_take, alen_drop, Hmid by lia. lia. }
  split; [exact Hlen|]. split; [|exact Hlive].
  destruct (Z.leb_spec lz k) as [Hlk|Hlk]; (split; [lia|]); rewrite Hlen.
  - split; [intros m Hm; rewrite Hhi by lia; apply Hz1; lia|].
    right. replace (k + 1 - 1) with k by lia. exact Hkk.
  - split; [intros m Hm; rewrite Hhi by lia; apply Hz1; lia|].
    right. destruct Hz2 as [?|Hz2]; [lia|].
    destruct (Z.eq_dec (lz - 1) k) as [E|E]; [rewrite E; exact Hkk|]. rewrite Hhi by lia. exact Hz2.
Qed.

(** The nearest empty slot is found whenever there is one. *)
Lemma insert_shift_spec bs elm n i j k lz :
  0 <= i <= alen bs -> is_empty elm = false -> live_end lz bs ->
  (i < alen bs -> is_empty (aget bs i) = false) -> (i = alen bs -> lz = alen bs) ->
  j <= i -> i <= k ->
  (forall m, 0 <= m < alen bs -> j <= m <= k -> is_empty (aget bs m) = false) ->
  Z.max j (alen bs - k) < Z.of_nat n ->
  (exists e, 0 <= e < alen bs /\ is_empty (aget bs e) = true) ->
  exists bs' lz', insert_shift n bs elm (alen bs) i j k lz = Done (bs', lz')
    /\ alen bs' = alen bs /\ live_end lz' bs'
    /\ live bs' = live (take (Z.to_nat i) bs) ++ elm :: live (drop (Z.to_nat i) bs).
Proof.
  intros Hi Hne Hlz Hfull Hend. revert j k.
  induction n as [|n IH]; intros j k Hj Hk Hall Hn Hroom.
  { destruct Hroom as (e & He & Hee). rewrite Hall in Hee by lia. discriminate. }
  cbn -[Z.add Z.sub].
  destruct ((0 <? j) || (k <? alen bs)) eqn:Hloop.
  2: { apply orb_false_iff in Hloop as [?%Z.ltb_ge ?%Z.ltb_ge]. destruct Hroom as (e & He & Hee).
       rewrite Hall in Hee by lia. discriminate. }
  destruct ((0 <=? j - 1) && is_empty (aget bs (j - 1))) eqn:Hl.
  - apply andb_true_iff in Hl as [Hl1%Z.leb_le Hl2].
    eexists _, lz. split; [reflexivity|]. apply left_result; auto; lia.
  - destruct ((k + 1 <? alen bs) && is_empty (aget bs (k + 1))) eqn:Hr.
    + apply andb_true_iff in Hr as [Hr1%Z.ltb_lt Hr2].
      eexists _, _. split; [reflexivity|]. apply right_result; auto; try lia.
      intros m Hm. apply Hall; lia.
    + apply andb_false_iff in Hl, Hr. apply IH; try lia; [|exact Hroom].
      intros m Hm Hjk. destruct (Z.eq_dec m (j - 1)) as [->|]; [destruct Hl as [?%Z.leb_gt|?]; [lia|assumption]|].
      destruct (Z.eq_dec m (k + 1)) as [->|]; [destruct Hr as [?%Z.ltb_ge|?]; [lia|assumption]|].
      apply Hall; lia.
Qed.

Lemma insert_shift_full bs elm n i j k lz :
  j <= alen bs -> 0 <= k -> (forall m, 0 <= m < alen bs -> is_empty (aget bs m) = false) ->
  insert_shift n bs elm (alen bs) i j k lz = Panic.
Proof.
  intros Hj Hk Hall. revert j k Hj Hk. induction n as [|n IH]; intros j k Hj Hk; [reflexivity|].
  cbn -[Z.add Z.sub]. destruct ((0 <? j) || (k <? alen bs)); [|reflexivity].
  assert (Hc : forall m c, (c = true -> 0 <= m < alen bs) -> c && is_empty (aget bs m) = false).
  { intros m [] H; [|reflexivity]. cbn. apply Hall, H. reflexivity. }
  rewrite Hc by lia. rewrite Hc by lia. apply IH; lia.
Qed.
Lemma validate_sorted bs prev :
  Forall key_ok (live bs) -> StronglySorted before (live bs) ->
  (forall e, prev = Some e -> Forall (fun b => e < br_key b) (live bs)) ->
  validate bs prev = true.
Proof.
  revert prev. induction bs as [|b bs IH]; intros prev Hk Hs Hp; [reflexivity|]. cbn in *.
  destruct (is_empty b); [auto|].
  apply Forall_cons_1 in Hk as [Hb Hk]. apply StronglySorted_inv in Hs as [Hs Hf].
  assert (validate bs (Some (key_last b)) = true).
  { apply IH; [exact Hk|exact Hs|]. intros e [= <-]. rewrite (proj1 (key_last_range b Hb)). exact Hf. }
  destruct prev as [e|]; [|assumption]. specialize (Hp e eq_refl). apply Forall_cons_1 in Hp as [Hp _].
  replace (br_key b <=? e) with false by lia. assumption.
Qed.

Lemma live_length bs : Z.of_nat (length (live bs)) <= alen bs.
Proof.
  unfold alen. induction bs as [|b bs IH]; cbn [live length]; [lia|].
  destruct (is_empty b); cbn [length]; lia.
Qed.

(** There is an empty slot exactly when the table is not full. *)
Lemma empty_slot bs :
  Z.of_nat (length (live bs)) < alen bs <-> exists e, 0 <= e < alen bs /\ is_empty (aget bs e) = true.
Proof.
  split.
  - intros H. induction bs as [|b bs IH]; [unfold alen in H; cbn in H; lia|]. cbn [live] in H. rewrite alen_cons in *.
    destruct (is_empty b) eqn:E.
    + exists 0. split; [unfold alen; lia|exact E].
    + cbn [length] in H. destruct (IH ltac:(lia)) as (e & He & Hee). exists (e + 1).
      split; [lia|]. rewrite aget_cons_S by lia. replace (e + 1 - 1) with e by lia. exact Hee.
  - intros (e & He & Hee). rewrite (live_split bs e), length_app, (live_drop_step bs e), Hee by lia.
    cbn [app]. pose proof (live_length (take (Z.to_nat e) bs)).
    pose proof (live_length (drop (Z.to_nat (e + 1)) bs)).
    rewrite alen_take in * by lia. rewrite alen_drop in * by lia. lia.
Qed.

(** Key ranges that do not meet. *)
Definition apart (a b : blockref) : Prop := before a b \/ before b a.

Lemma sorted_insert l1 l2 elm :
  StronglySorted before (l1 ++ l2) -> key_ok elm -> Forall key_ok (l1 ++ l2) ->
  Forall (fun b => before b elm) l1 -> Forall (fun b => before elm b) l2 ->
  StronglySorted before (l1 ++ elm :: l2).
Proof.
  intros Hs He Hk H1 H2. induction l1 as [|a l1 IH]; cbn in *; [constructor; assumption|].
  apply StronglySorted_inv in Hs as [Hs Hf]. apply Forall_cons_1 in H1 as [Ha H1].
  apply Forall_cons_1 in Hk as [_ Hk]. apply Forall_app in Hf as [Hf1 Hf2].
  constructor; [auto|]. apply Forall_app_2; [exact Hf1|]. constructor; assumption.
Qed.

(** The entries around the insertion point. *)
Lemma insertion_point bs elm i :
  Forall key_ok (live bs) -> StronglySorted before (live bs) -> key_ok elm ->
  Forall (apart elm) (live bs) -> first_hit bs (br_key elm) i ->
  Forall (fun b => before b elm) (live (take (Z.to_nat i) bs))
  /\ Forall (fun b => before elm b) (live (drop (Z.to_nat i) bs)).
Proof.
  intros Hk Hs He Ha Hf. destruct (first_hit_sides bs _ i Hk Hs Hf) as [H1 H2].
  split; [exact H1|]. rewrite (live_split bs i) in Ha. apply Forall_app in Ha as [_ Ha].
  rewrite Forall_forall in *. intros b Hb. destruct (Ha b Hb) as [?|H]; [assumption|].
  specialize (H2 b Hb). unfold before in H. cbn in H2. lia.
Qed.

Definition mark_mapped (c : mchain) : mchain :=
  Chain (ch_bref c) (ch_deleted c) true (ch_blkmapupd c) (ch_hint_leaf c).

(** Insertion into a table with room, at the sorted position. *)
Lemma base_insert_spec co bs count chain elm :
  table_ok co bs count -> key_ok elm -> is_empty elm = false ->
  Forall (apart elm) (live bs) -> Z.of_nat (length (live bs)) < count ->
  exists co' bs' l1 l2, hammer2_base_insert co (Some bs) count chain elm
      = Done (co', bs', option_map mark_mapped chain)
    /\ live bs = l1 ++ l2 /\ live bs' = l1 ++ elm :: l2
    /\ table_ok co' bs' count
    /\ co_bref co' = insert_stats (co_bref co) elm /\ co_live_count co' = co_live_count co.
Proof.
  intros Hok He Hne Hap Hroom.
  destruct (base_find_spec co bs count 0 (br_key elm) Hok) as (i & c & Hrun & Hfirst).
  destruct Hok as [Hc Hn Hk Hs Hz].
  destruct (insertion_point bs elm i Hk Hs He Hap Hfirst) as [Hlo Hhi].
  destruct Hfirst as (Hi & Hhit & _). unfold hammer2_base_insert. rewrite Hrun. cbn [obind].
  replace ((0 <=? i) && (i <=? count)) with true by lia. cbn [kassert obind].
  cbn [set_cache_index set_co_bref co_live_zero co_bref].
  set (l1 := live (take (Z.to_nat i) bs)) in *. set (l2 := live (drop (Z.to_nat i) bs)) in *.
  pose proof (live_split bs i) as Hsplit. fold l1 l2 in Hsplit.
  assert (Htab : forall co' bs', co_counted co' = true -> alen bs' = alen bs ->
                  live bs' = l1 ++ elm :: l2 -> live_end (co_live_zero co') bs' ->
                  table_ok co' bs' count).
  { intros co' bs' H1 H2 H3 H4. rewrite Hsplit in Hk, Hs. constructor; [exact H1|lia| |  |exact H4]; rewrite H3.
    - apply Forall_app in Hk as [Hk1 Hk2]. apply Forall_app_2; [assumption|constructor; assumption].
    - apply sorted_insert; assumption. }
  destruct ((i =? count) && (co_live_zero co <? count)) eqn:Happ.
  - apply andb_true_iff in Happ as [->%Z.eqb_eq Hlt%Z.ltb_lt].
    assert (Hl2 : l2 = []) by (unfold l2; rewrite drop_ge by (unfold alen in *; lia); reflexivity).
    destruct (Hz) as (Hz0 & Hz1 & Hz2). set (lz := co_live_zero co) in *.
    assert (Hlive : live (aset bs lz elm) = l1 ++ elm :: l2).
    { rewrite aset_split by lia. rewrite live_app. cbn [live]. rewrite Hne.
      rewrite (live_drop_nil bs (lz + 1)) by (try lia; intros; apply Hz1; lia).
      rewrite (live_split bs lz) in Hsplit.
      rewrite (live_drop_nil bs lz), Hl2, !app_nil_r in Hsplit by (try lia; intros; apply Hz1; lia).
      rewrite Hl2. f_equal. exact Hsplit. }
    eexists _, _, l1, l2. split; [reflexivity|]. split; [exact Hsplit|]. split; [exact Hlive|].
    split; [|split; reflexivity]. apply Htab; [exact Hc|apply alen_aset|exact Hlive|].
    cbn [co_live_zero set_live_zero]. split; [rewrite alen_aset; lia|]. rewrite alen_aset. split.
    + intros m Hm. rewrite aget_aset_ne by lia. apply Hz1. lia.
    + right. replace (lz + 1 - 1) with lz by lia. rewrite aget_aset_eq by lia. exact Hne.
  - assert (Hend : i = alen bs -> co_live_zero co = alen bs).
    { intros ->. rewrite Hn, Z.eqb_refl in Happ. cbn in Happ. destruct Hz as [Hz _]. lia. }
    assert (Hfull : i < alen bs -> is_empty (aget bs i) = false) by (intros H; apply Hhit, H).
    replace (negb (i =? count) && ((br_key (aget bs i) <? br_key elm)
              || (br_key (aget bs i) <=? key_last elm))) with false.
    2: { symmetry. destruct (Z.eqb_spec i count) as [?|Hic]; [reflexivity|]. cbn [negb andb].
         assert (Hin : aget bs i ∈ l2).
         { unfold l2. rewrite live_drop_step, (Hfull ltac:(lia)) by lia. left. }
         rewrite Forall_forall in Hhi. specialize (Hhi _ Hin). unfold before in Hhi.
         pose proof (key_last_range elm He) as [-> ?]. lia. }
    destruct (insert_shift_spec bs elm (S (Z.to_nat count)) i i i (co_live_zero co))
      as (bs' & lz' & Hsh & Hlen & Hz' & Hlive); try assumption; try lia.
    { intros m Hm Him. replace m with i by lia. apply Hfull. lia. }
    { apply empty_slot. lia. }
    rewrite Hn in Hsh. rewrite Hsh. cbn [obind]. fold l1 l2 in Hlive.
    assert (Hok' : table_ok (set_live_zero lz' (set_co_bref (insert_stats (co_bref co) elm)
                     (set_cache_index c co))) bs' count) by (apply Htab; assumption).
    rewrite validate_sorted; [|apply Hok'|apply Hok'|discriminate]. cbn [kassert obind].
    eexists _, _, l1, l2. split; [reflexivity|]. split; [exact Hsplit|]. split; [exact Hlive|].
    split; [exact Hok'|]. split; reflexivity.
Qed.

(** Insertion stops when the key range is taken or the table is full. *)
Lemma base_insert_overlap co bs count chain elm b :
  table_ok co bs count -> key_ok elm -> b ∈ live bs -> ~ apart elm b ->
  hammer2_base_insert co (Some bs) count chain elm = Panic.
Proof.
  intros Hok He Hb Hov.
  destruct (base_find_spec co bs count 0 (br_key elm) Hok) as (i & c & Hrun & Hfirst).
  destruct Hok as [Hc Hn Hk Hs Hz].
  destruct (first_hit_sides bs _ i Hk Hs Hfirst) as [Hlo Hhi]. destruct Hfirst as (Hi & Hhit & _).
  unfold apart, before in Hov. rewrite Forall_forall in Hlo.
  assert (Hin : b ∈ live (drop (Z.to_nat i) bs)).
  { rewrite (live_split bs i) in Hb. apply elem_of_app in Hb as [Hb|Hb]; [|exact Hb].
    specialize (Hlo b Hb). cbn in Hlo. lia. }
  destruct (Z.eq_dec i (alen bs)) as [->|Hne].
  { rewrite drop_ge in Hin by (unfold alen; lia). apply elem_of_nil in Hin as []. }
  destruct (Hhit ltac:(lia)) as [Hie _].
  assert (Hik : br_key (aget bs i) <= br_key b).
  { rewrite live_drop_step, Hie in Hin by lia. cbn [app] in Hin.
    apply elem_of_cons in Hin as [->|Hin]; [lia|].
    rewrite (live_split bs i), live_drop_step, Hie in Hs by lia.
    apply StronglySorted_app_1_r, StronglySorted_inv in Hs as [_ Hs].
    rewrite Forall_forall in Hs. specialize (Hs b Hin). unfold before in Hs.
    pose proof (key_last_range _ (slot_key_ok bs i Hk ltac:(lia) Hie)). lia. }
  unfold hammer2_base_insert. rewrite Hrun. cbn [obind].
  destruct ((0 <=? i) && (i <=? count)); [|reflexivity]. cbn [kassert obind].
  destruct (Z.eqb_spec i count) as [?|_]; [lia|]. cbn [andb negb].
  rewrite (proj1 (key_last_range elm He)).
  replace (br_key (aget bs i) <=? range_last elm) with true by lia. rewrite orb_true_r. reflexivity.
Qed.

Lemma base_insert_full co bs count chain elm :
  table_ok co bs count -> (forall m, 0 <= m < alen bs -> is_empty (aget bs m) = false) ->
  hammer2_base_insert co (Some bs) count chain elm = Panic.
Proof.
  intros Hok Hall.
  destruct (base_find_spec co bs count 0 (br_key elm) Hok) as (i & c & Hrun & Hfirst).
  destruct Hok as [Hc Hn Hk Hs (Hz & Hz1 & Hz2)]. destruct Hfirst as (Hi & _ & _).
  unfold hammer2_base_insert. rewrite Hrun. cbn [obind].
  destruct ((0 <=? i) && (i <=? count)); [|reflexivity]. cbn [kassert obind].
  cbn [set_cache_index set_co_bref co_live_zero].
  assert (Hlz : co_live_zero co = alen bs).
  { destruct (Z.eq_dec (co_live_zero co) (alen bs)) as [?|Hne]; [assumption|].
    specialize (Hall (co_live_zero co) ltac:(lia)). rewrite Hz1 in Hall by lia. discriminate. }
  replace (co_live_zero co <? count) with false by lia. rewrite andb_false_r.
  destruct (negb (i =? count) && _); [reflexivity|].
  rewrite <- Hn at 2. rewrite insert_shift_full; [reflexivity|lia|lia|exact Hall].
Qed.

(** Deletion stops when there is no entry of that key, or of another size. *)
Lemma base_delete_missing co bs count chain :
  table_ok co bs count ->
  (forall b, b ∈ live bs -> br_key b = br_key (ch_bref chain) ->
     ch_blkmapupd chain = false /\ br_keybits b <> br_keybits (ch_bref chain)) ->
  hammer2_base_delete co (Some bs) count chain = Panic.
Proof.
  intros Hok Hno.
  destruct (base_find_spec co bs count 0 (br_key (ch_bref chain)) Hok) as (i & c & Hrun & Hfirst).
  destruct Hok as [Hc Hn Hk Hs Hz]. destruct Hfirst as (Hi & Hhit & _).
  unfold hammer2_base_delete. rewrite Hrun. cbn [obind].
  destruct (Z.eqb_spec i count) as [?|Hic]; [reflexivity|]. destruct (Hhit ltac:(lia)) as [He _].
  rewrite He. cbn [orb]. destruct (Z.eqb_spec (br_key (aget bs i)) (br_key (ch_bref chain))) as [E|E];
    [|reflexivity].
  destruct (Hno (aget bs i)) as [-> Hb]; [|exact E|].
  - apply live_elem; [exact He|]. apply aget_elem. lia.
  - apply Z.eqb_neq in Hb. rewrite Hb. reflexivity.
Qed.
