(* ===== verification/BlockTableSpec.v ===== *)
(** The block table as a finite map from keys to blockrefs: every sequence of
    insertions and deletions behaves as on the map, stops exactly where the map
    operation is illegal, and keeps the statistics of the parent. *)

From Stdlib Require Import ZArith Lia Bool Sorted.
From stdpp Require Import base numbers list option gmap sorting.
From S2P Require Import Prelude Disk BlockTable BlockTableProof.

(** * The abstract table *)

Inductive table_op :=
| Insert (elm : blockref)
| Delete (elm : blockref).

(** The blockrefs of an operation are well formed. *)
Definition op_ok (op : table_op) : Prop :=
  match op with
  | Insert elm => key_ok elm /\ is_empty elm = false /\ 0 <= br_leaf_count elm
  | Delete _ => True
  end.

#[export] Instance before_dec a b : Decision (before a b).
Proof. unfold before. apply _. Defined.
#[export] Instance apart_dec a b : Decision (apart a b).
Proof. unfold apart. apply _. Defined.

(** Insertion needs room and a free key range; deletion an entry of the same
    key and size. *)
Definition spec_op (count : Z) (m : gmap Z blockref) (op : table_op) : option (gmap Z blockref) :=
  match op with
  | Insert elm =>
      if decide (map_Forall (fun _ b => apart elm b) m) then
        if Z.of_nat (size m) <? count then Some (<[br_key elm := elm]> m) else None
      else None
  | Delete elm =>
      match m !! br_key elm with
      | Some b => if br_keybits b =? br_keybits elm then Some (delete (br_key elm) m) else None
      | None => None
      end
  end.

Fixpoint spec_ops (count : Z) (m : gmap Z blockref) (ops : list table_op)
  : option (gmap Z blockref) :=
  match ops with
  | [] => Some m
  | op :: ops => m ← spec_op count m op; spec_ops count m ops
  end.

(** * The code's operations *)

Definition table_step (count : Z) (st : core * list blockref) (op : table_op)
  : outcome (core * list blockref) :=
  match op with
  | Insert elm =>
      let! (co, bs, _) := hammer2_base_insert st.1 (Some st.2) count None elm in Done (co, bs)
  | Delete elm =>
      let! (co, bs, _, _) := hammer2_base_delete st.1 (Some st.2) count
                               (Chain elm false true false false) in Done (co, bs)
  end.

Fixpoint table_steps (count : Z) (st : core * list blockref) (ops : list table_op)
  : outcome (core * list blockref) :=
  match ops with
  | [] => Done st
  | op :: ops => let! st := table_step count st op in table_steps count st ops
  end.

(** A new table of [count] slots. *)
Definition table_new (count cache : Z) (bref : blockref) : core * list blockref :=
  (Core 0 0 cache true (set_stats 0 0 0 bref), replicate (Z.to_nat count) bref_zero).

(** * The abstraction *)

Definition abs (bs : list blockref) : gmap Z blockref :=
  list_to_map ((fun b => (br_key b, b)) <$> live bs).

Lemma sorted_keys_nodup l :
  StronglySorted before l -> Forall key_ok l -> NoDup (br_key <$> l).
Proof.
  induction l as [|a l IH]; intros Hs Hk; [constructor|]. cbn.
  apply StronglySorted_inv in Hs as [Hs Hf]. apply Forall_cons_1 in Hk as [Ha Hk].
  constructor; [|auto]. intros (b & Hb & Hin)%list_elem_of_fmap. rewrite Forall_forall in Hf.
  specialize (Hf b Hin). pose proof (key_last_range a Ha). unfold before in Hf. lia.
Qed.

Lemma abs_lookup bs k b :
  Forall key_ok (live bs) -> StronglySorted before (live bs) ->
  abs bs !! k = Some b <-> b ∈ live bs /\ br_key b = k.
Proof.
  intros Hk Hs. unfold abs. rewrite <- elem_of_list_to_map.
  2: { rewrite <- list_fmap_compose. apply (sorted_keys_nodup _ Hs Hk). }
  rewrite list_elem_of_fmap. split.
  - intros (c & [= -> ->] & Hc). auto.
  - intros [Hb <-]. exists b. auto.
Qed.

Lemma abs_size bs :
  Forall key_ok (live bs) -> StronglySorted before (live bs) -> size (abs bs) = length (live bs).
Proof.
  intros Hk Hs. unfold abs. rewrite <- (length_fmap (fun b => (br_key b, b)) (live bs)).
  apply map_size_list_to_map. rewrite <- list_fmap_compose. apply (sorted_keys_nodup _ Hs Hk).
Qed.

Lemma abs_ext bs m :
  Forall key_ok (live bs) -> StronglySorted before (live bs) ->
  (forall k b, m !! k = Some b <-> b ∈ live bs /\ br_key b = k) -> abs bs = m.
Proof.
  intros Hk Hs H. apply map_eq. intros k. apply option_eq. intros b.
  rewrite abs_lookup by assumption. symmetry. apply H.
Qed.

Lemma apart_key elm b : key_ok elm -> key_ok b -> apart elm b -> br_key b <> br_key elm.
Proof.
  intros He Hb Ha. pose proof (key_last_range elm He). pose proof (key_last_range b Hb).
  unfold apart, before in Ha. lia.
Qed.

(** * One operation *)

Lemma insert_refines co bs count elm :
  table_ok co bs count -> key_ok elm -> is_empty elm = false ->
  match spec_op count (abs bs) (Insert elm) with
  | Some m => exists co' bs' l1 l2, table_step count (co, bs) (Insert elm) = Done (co', bs')
      /\ table_ok co' bs' count /\ abs bs' = m
      /\ live bs = l1 ++ l2 /\ live bs' = l1 ++ elm :: l2
      /\ co_bref co' = insert_stats (co_bref co) elm
  | None => table_step count (co, bs) (Insert elm) = Panic
  end.
Proof.
  intros Hok He Hne. pose proof Hok as [Hc Hn Hk Hs Hz]. cbn [spec_op].
  destruct (decide _) as [Hap|Hov]; [destruct (Z.ltb_spec (Z.of_nat (size (abs bs))) count) as [Hr|Hr]|].
  - rewrite abs_size in Hr by assumption.
    assert (Hap' : Forall (apart elm) (live bs)).
    { apply Forall_forall. intros b Hb. apply (Hap (br_key b)). apply abs_lookup; auto. }
    destruct (base_insert_spec co bs count None elm Hok He Hne Hap' Hr)
      as (co' & bs' & l1 & l2 & Hrun & H1 & H2 & Hok' & Hst & _).
    exists co', bs', l1, l2. cbn [table_step fst snd]. rewrite Hrun. split; [reflexivity|].
    split; [exact Hok'|]. split; [|auto]. destruct Hok' as [_ _ Hk' Hs' _].
    apply abs_ext; try assumption. intros k b. rewrite H2, lookup_insert_Some, abs_lookup, H1 by assumption.
    rewrite !elem_of_app, elem_of_cons. rewrite Forall_forall in Hap'.
    split; [intros [[<- <-]|[? ?]]; tauto|]. intros [Hb <-].
    destruct Hb as [Hb|[->|Hb]]; [right|left; auto|right]; (split; [|tauto]);
      intros E; symmetry in E; revert E; apply apart_key; try assumption;
      try (apply Hap'; rewrite H1; apply elem_of_app; tauto);
      rewrite Forall_forall in Hk; apply Hk; rewrite H1; apply elem_of_app; tauto.
  - cbn [table_step fst snd]. rewrite abs_size in Hr by assumption.
    assert (Hall : forall m, 0 <= m < alen bs -> is_empty (aget bs m) = false).
    { intros m Hm. destruct (is_empty (aget bs m)) eqn:E; [|reflexivity]. exfalso.
      assert (Z.of_nat (length (live bs)) < alen bs) by (apply empty_slot; eauto). lia. }
    rewrite base_insert_full; auto.
  - cbn [table_step fst snd]. apply map_not_Forall in Hov as (k & b & Hb & Hnap); [|apply _].
    apply abs_lookup in Hb as [Hb _]; try assumption.
    rewrite (base_insert_overlap co bs count None elm b); auto.
Qed.

Lemma delete_refines co bs count elm :
  table_ok co bs count ->
  match spec_op count (abs bs) (Delete elm) with
  | Some m => exists co' bs' l1 b l2, table_step count (co, bs) (Delete elm) = Done (co', bs')
      /\ table_ok co' bs' count /\ abs bs' = m
      /\ live bs = l1 ++ b :: l2 /\ live bs' = l1 ++ l2
      /\ co_bref co' = (delete_stats (co_bref co) b).1
  | None => table_step count (co, bs) (Delete elm) = Panic
  end.
Proof.
  intros Hok. pose proof Hok as [Hc Hn Hk Hs Hz]. cbn [spec_op table_step fst snd].
  destruct (abs bs !! br_key elm) as [b|] eqn:E; [destruct (Z.eqb_spec (br_keybits b) (br_keybits elm))|].
  - apply abs_lookup in E as [Hb Hkey]; try assumption.
    apply list_elem_of_split in Hb as (l1 & l2 & Hlive).
    destruct (base_delete_spec co bs count (Chain elm false true false false) l1 b l2 Hok Hlive Hkey
                (or_intror e)) as (co' & bs' & Hrun & H2 & Hok' & Hst & _).
    rewrite Hrun. exists co', bs', l1, b, l2. split; [reflexivity|]. split; [exact Hok'|].
    split; [|auto]. destruct Hok' as [_ _ Hk' Hs' _]. apply abs_ext; try assumption.
    intros k c. rewrite H2, lookup_delete_Some, abs_lookup, Hlive, <- Hkey by assumption.
    pose proof (sorted_keys_nodup (live bs) Hs Hk) as Hnd. rewrite Hlive, fmap_app, fmap_cons in Hnd.
    rewrite !elem_of_app, elem_of_cons.
    split; [intros [Hne [[?|[->|?]] <-]]; tauto|]. intros [Hc' <-].
    split; [|tauto]. intros Heq. apply NoDup_app in Hnd as (_ & Hnd1 & Hnd2).
    apply NoDup_cons in Hnd2 as [Hnd2 _]. destruct Hc' as [Hc'|Hc'].
    + apply (Hnd1 (br_key c)); [apply list_elem_of_fmap_2, Hc'|]. rewrite Heq. left.
    + apply Hnd2. rewrite Heq. apply list_elem_of_fmap_2, Hc'.
  - apply abs_lookup in E as [Hb Hkey]; try assumption.
    rewrite (base_delete_missing co bs count); [reflexivity|exact Hok|].
    intros c Hc' Hck. cbn [ch_blkmapupd ch_bref] in *. split; [reflexivity|].
    assert (Hcb : c = b).
    { assert (E1 : abs bs !! br_key elm = Some c) by (apply abs_lookup; auto).
      assert (E2 : abs bs !! br_key elm = Some b) by (apply abs_lookup; auto). congruence. }
    rewrite Hcb. assumption.
  - rewrite (base_delete_missing co bs count); [reflexivity|exact Hok|].
    intros c Hc' Hck. cbn [ch_bref] in Hck.
    assert (E1 : abs bs !! br_key elm = Some c) by (apply abs_lookup; auto). congruence.
Qed.

Lemma table_new_ok count cache bref :
  0 <= count ->
  let st := table_new count cache bref in table_ok st.1 st.2 count /\ abs st.2 = ∅.
Proof.
  intros Hc st. unfold st, table_new. cbn [fst snd].
  assert (Hlive : live (replicate (Z.to_nat count) bref_zero) = []).
  { induction (Z.to_nat count); [reflexivity|]. cbn. assumption. }
  assert (Hlen : alen (replicate (Z.to_nat count) bref_zero) = count).
  { unfold alen. rewrite length_replicate. lia. }
  split; [|unfold abs; rewrite Hlive; reflexivity].
  constructor; [reflexivity|exact Hlen|rewrite Hlive; constructor|rewrite Hlive; constructor|].
  cbn [co_live_zero]. split; [lia|]. split; [|left; reflexivity]. intros i Hi. unfold aget.
  rewrite lookup_total_replicate_2 by lia. reflexivity.
Qed.

(** * Statistics *)

(** What a blockref contributes to its parent: allocated bytes below it,
    inodes, and leaves. *)
Definition own_bytes (b : blockref) : Z :=
  let radix := br_data_off b .& HAMMER2_OFF_MASK_RADIX in
  if radix =? 0 then 0 else u64 (1 .<< radix).
Definition bytes_below (b : blockref) : Z :=
  own_bytes b + match br_type b with 1 | 2 => br_data_count b | _ => 0 end.
Definition inodes_below (b : blockref) : Z :=
  match br_type b with 1 => 1 + br_inode_count b | 2 => br_inode_count b | _ => 0 end.
Definition leaves_below (b : blockref) : Z :=
  match br_type b with 1 | 4 => 1 | 3 => 1 + br_leaf_count b | 2 => br_leaf_count b | _ => 0 end.

Definition total (f : blockref -> Z) (l : list blockref) : Z := foldr (fun b acc => f b + acc) 0 l.

(** The counters of the parent agree with its entries; the leaf count is exact
    until it saturates, and then stays at its maximum. *)
Record stats_ok (parent : blockref) (l : list blockref) : Prop := {
  st_bytes : br_data_count parent = u64 (total bytes_below l);
  st_inodes : br_inode_count parent = u64 (total inodes_below l);
  st_leaves : br_leaf_count parent = HAMMER2_BLOCKREF_LEAF_MAX
              \/ (br_leaf_count parent = total leaves_below l
                  /\ total leaves_below l < HAMMER2_BLOCKREF_LEAF_MAX)
}.

Lemma total_app f l1 l2 : total f (l1 ++ l2) = total f l1 + total f l2.
Proof. induction l1 as [|a l1 IH]; cbn in *; [reflexivity|]. unfold total in *. lia. Qed.
Lemma total_cons f b l : total f (b :: l) = f b + total f l.
Proof. reflexivity. Qed.

Lemma total_nonneg f l : (forall b, b ∈ l -> 0 <= f b) -> 0 <= total f l.
Proof.
  induction l as [|a l IH]; intros H; cbn; [lia|]. unfold total in *.
  pose proof (H a ltac:(left)). specialize (IH ltac:(intros; apply H; right; assumption)). lia.
Qed.

Lemma u64_add_l x y : u64 (u64 x + y) = u64 (x + y).
Proof. apply Zplus_mod_idemp_l. Qed.
Lemma u64_sub_l x y : u64 (u64 x - y) = u64 (x - y).
Proof. apply Zminus_mod_idemp_l. Qed.

Lemma u64_add_l2 x y z : u64 (u64 x + y + z) = u64 (x + y + z).
Proof. rewrite <- Z.add_assoc, u64_add_l, Z.add_assoc. reflexivity. Qed.
Lemma u64_sub_l2 x y z : u64 (u64 x - y - z) = u64 (x - y - z).
Proof. rewrite <- !Z.sub_add_distr. apply u64_sub_l. Qed.

(** Equal sums modulo 2^64, with intermediate truncations. *)
Ltac u64_sum :=
  repeat (rewrite u64_add_l || rewrite u64_sub_l || rewrite u64_add_l2 || rewrite u64_sub_l2);
  apply (f_equal u64); lia.

Lemma insert_stats_ok parent l1 l2 elm :
  0 <= br_leaf_count elm -> 0 <= total leaves_below (l1 ++ l2) ->
  stats_ok parent (l1 ++ l2) -> stats_ok (insert_stats parent elm) (l1 ++ elm :: l2).
Proof.
  intros Hl Ht [Hb Hi Hv].
  rewrite total_app in *.
  constructor; rewrite ?total_app, ?total_cons.
  - generalize dependent (total bytes_below l1). generalize dependent (total bytes_below l2).
    intros t2 t1 Hb. unfold insert_stats, bytes_below, own_bytes.
    destruct (br_data_off elm .& HAMMER2_OFF_MASK_RADIX =? 0);
      repeat case_match; cbn [set_stats br_data_count]; rewrite Hb; u64_sum.
  - generalize dependent (total inodes_below l1). generalize dependent (total inodes_below l2).
    intros t2 t1 Hi. unfold insert_stats, inodes_below.
    repeat case_match; cbn [set_stats br_inode_count]; rewrite Hi; u64_sum.
  - generalize dependent (total leaves_below l1). generalize dependent (total leaves_below l2).
    intros t2 t1 Ht Hv. unfold insert_stats, leaves_below, leaf_inc, leaf_add in *.
    repeat case_match; cbn [set_stats br_leaf_count]; lia.
Qed.

Lemma delete_stats_ok parent l1 l2 b :
  0 <= br_leaf_count b -> 0 <= total leaves_below (l1 ++ l2) ->
  stats_ok parent (l1 ++ b :: l2) -> stats_ok (delete_stats parent b).1 (l1 ++ l2).
Proof.
  intros Hlc Ht [Hb Hi Hv].
  rewrite ?total_app, ?total_cons in *.
  constructor; rewrite ?total_app, ?total_cons.
  - generalize dependent (total bytes_below l1). generalize dependent (total bytes_below l2).
    intros t2 t1 Hb. unfold delete_stats, bytes_below, own_bytes, leaf_dec, leaf_sub in *.
    destruct (br_data_off b .& HAMMER2_OFF_MASK_RADIX =? 0);
      repeat case_match; simplify_eq; cbn [set_stats br_data_count fst]; rewrite Hb; u64_sum.
  - generalize dependent (total inodes_below l1). generalize dependent (total inodes_below l2).
    intros t2 t1 Hi. unfold delete_stats, inodes_below, leaf_dec, leaf_sub in *.
    repeat case_match; simplify_eq; cbn [set_stats br_inode_count fst]; rewrite Hi; u64_sum.
  - generalize dependent (total leaves_below l1). generalize dependent (total leaves_below l2).
    intros t2 t1 Ht Hv. unfold delete_stats, leaves_below, leaf_dec, leaf_sub in *.
    repeat case_match; simplify_eq; cbn [set_stats br_leaf_count fst]; lia.
Qed.

(** * Sequences of operations *)

Definition state_ok (count : Z) (st : core * list blockref) : Prop :=
  table_ok st.1 st.2 count /\ stats_ok (co_bref st.1) (live st.2)
  /\ Forall (fun b => 0 <= br_leaf_count b) (live st.2).

Lemma leaves_nonneg l : Forall (fun b => 0 <= br_leaf_count b) l -> 0 <= total leaves_below l.
Proof.
  intros H. apply total_nonneg. intros b Hb. rewrite Forall_forall in H. specialize (H b Hb).
  cbn in H. unfold leaves_below. repeat case_match; lia.
Qed.

Lemma step_refines count st op :
  state_ok count st -> op_ok op ->
  match spec_op count (abs st.2) op with
  | Some m => exists st', table_step count st op = Done st' /\ state_ok count st' /\ abs st'.2 = m
  | None => table_step count st op = Panic
  end.
Proof.
  destruct st as [co bs]. intros (Hok & Hst & Hlf). cbn [fst snd] in *. destruct op as [elm|elm].
  - intros (He & Hne & Hl). pose proof (insert_refines co bs count elm Hok He Hne) as H.
    destruct (spec_op count (abs bs) (Insert elm)) as [m|]; [|exact H].
    destruct H as (co' & bs' & l1 & l2 & Hrun & Hok' & Habs & H1 & H2 & Hbref).
    exists (co', bs'). split; [exact Hrun|]. split; [|exact Habs]. split; [exact Hok'|]. cbn [fst snd].
    rewrite H1 in *. rewrite Hbref, H2. split; [apply insert_stats_ok; auto using leaves_nonneg|].
    apply Forall_app in Hlf as [Hlf1 Hlf2]. apply Forall_app_2; [assumption|constructor; assumption].
  - intros _. pose proof (delete_refines co bs count elm Hok) as H.
    destruct (spec_op count (abs bs) (Delete elm)) as [m|]; [|exact H].
    destruct H as (co' & bs' & l1 & b & l2 & Hrun & Hok' & Habs & H1 & H2 & Hbref).
    exists (co', bs'). split; [exact Hrun|]. split; [|exact Habs]. split; [exact Hok'|]. cbn [fst snd].
    rewrite H1 in *. rewrite Hbref, H2. apply Forall_app in Hlf as [Hlf1 Hlf2].
    apply Forall_cons_1 in Hlf2 as [Hb Hlf2]. pose proof (Forall_app_2 _ _ _ Hlf1 Hlf2) as Hlf.
    split; [|exact Hlf]. apply delete_stats_ok; auto using leaves_nonneg.
Qed.

Lemma steps_refine count ops st :
  state_ok count st -> Forall op_ok ops ->
  match spec_ops count (abs st.2) ops with
  | Some m => exists st', table_steps count st ops = Done st' /\ state_ok count st' /\ abs st'.2 = m
  | None => table_steps count st ops = Panic
  end.
Proof.
  revert st. induction ops as [|op ops IH]; intros st Hok Hops; cbn [spec_ops table_steps].
  - exists st. auto.
  - apply Forall_cons_1 in Hops as [Hop Hops]. pose proof (step_refines count st op Hok Hop) as H.
    destruct (spec_op count (abs st.2) op) as [m|]; cbn [mbind option_bind].
    + destruct H as (st' & -> & Hok' & <-). cbn [obind]. apply IH; assumption.
    + rewrite H. reflexivity.
Qed.

Lemma new_ok count cache bref : 0 <= count -> state_ok count (table_new count cache bref).
Proof.
  intros Hc. pose proof (table_new_ok count cache bref Hc) as [Hok _].
  assert (Hl : live (table_new count cache bref).2 = []).
  { cbn [table_new snd]. induction (Z.to_nat count); [reflexivity|]. cbn. assumption. }
  split; [exact Hok|]. rewrite Hl. split; [|constructor].
  constructor; [reflexivity|reflexivity|right; split; reflexivity].
Qed.

(** C6. A block table is a finite map from keys to blockrefs.  Whatever sequence
    of insertions and deletions is applied to a new table, the code succeeds
    exactly when every operation is legal on the map (insertion: a free key
    range and a free slot; deletion: an entry of that key and size), panics
    otherwise, and the table then holds the map's entries, sorted by key. *)
Theorem block_table_refines ops count cache bref :
  0 <= count -> Forall op_ok ops ->
  match spec_ops count ∅ ops with
  | Some m => exists co bs, table_steps count (table_new count cache bref) ops = Done (co, bs)
      /\ table_ok co bs count
      /\ forall k b, m !! k = Some b <-> b ∈ live bs /\ br_key b = k
  | None => table_steps count (table_new count cache bref) ops = Panic
  end.
Proof.
  intros Hc Hops. pose proof (steps_refine count ops _ (new_ok count cache bref Hc) Hops) as H.
  rewrite (proj2 (table_new_ok count cache bref Hc)) in H.
  destruct (spec_ops count ∅ ops) as [m|]; [|exact H].
  destruct H as ([co bs] & Hrun & [Hok _] & <-). exists co, bs. split; [exact Hrun|].
  split; [exact Hok|]. intros k b. apply abs_lookup; apply Hok.
Qed.

Definition bref_at (type key keybits radix : Z) : blockref :=
  Bref type 0 keybits 0 key 0 0 (65536 .| radix) 0 0 0 [].
Definition ops_demo : list table_op :=
  [Insert (bref_at 3 65536 16 16); Insert (bref_at 3 0 16 14); Insert (bref_at 3 131072 16 16);
   Delete (bref_at 3 65536 16 0); Insert (bref_at 1 98304 10 10)].

Lemma ops_demo_ok : Forall op_ok ops_demo.
Proof.
  repeat apply Forall_cons_2; try apply Forall_nil_2; cbn;
    try (split; [|split; [reflexivity|cbn; lia]]); try exact I;
    split; cbn; lia.
Qed.

Lemma block_table_refines_witness :
  match spec_ops 4 ∅ ops_demo with
  | Some m => exists co bs, table_steps 4 (table_new 4 0 bref_zero) ops_demo = Done (co, bs)
      /\ table_ok co bs 4
      /\ forall k b, m !! k = Some b <-> b ∈ live bs /\ br_key b = k
  | None => table_steps 4 (table_new 4 0 bref_zero) ops_demo = Panic
  end.
Proof. apply block_table_refines; [lia|apply ops_demo_ok]. Defined.

(** The statistics a parent blockref accumulates are those of its table:
    after any sequence of insertions and deletions the byte and inode counts are
    the sums over the entries (modulo 2^64), and the leaf count is the sum until
    it reaches 65535, where it sticks. *)
Theorem block_table_stats ops count cache bref co bs :
  0 <= count -> Forall op_ok ops ->
  table_steps count (table_new count cache bref) ops = Done (co, bs) ->
  br_data_count (co_bref co) = u64 (total bytes_below (live bs))
  /\ br_inode_count (co_bref co) = u64 (total inodes_below (live bs))
  /\ (br_leaf_count (co_bref co) = HAMMER2_BLOCKREF_LEAF_MAX
      \/ br_leaf_count (co_bref co) = total leaves_below (live bs)).
Proof.
  intros Hc Hops Hrun. pose proof (steps_refine count ops _ (new_ok count cache bref Hc) Hops) as H.
  destruct (spec_ops _ _ _) as [m|]; [|rewrite H in Hrun; discriminate].
  destruct H as (st' & Hrun' & (_ & [H1 H2 H3] & _) & _). rewrite Hrun' in Hrun.
  injection Hrun as ->. cbn [fst snd] in *. tauto.
Qed.

Lemma block_table_stats_witness :
  exists co bs, br_data_count (co_bref co) = u64 (total bytes_below (live bs))
  /\ br_inode_count (co_bref co) = u64 (total inodes_below (live bs))
  /\ (br_leaf_count (co_bref co) = HAMMER2_BLOCKREF_LEAF_MAX
      \/ br_leaf_count (co_bref co) = total leaves_below (live bs)).
Proof.
  destruct (table_steps 4 (table_new 4 0 bref_zero) ops_demo) as [[co bs]|] eqn:E.
  - exists co, bs. exact (block_table_stats ops_demo 4 0 bref_zero co bs ltac:(lia) ops_demo_ok E).
  - vm_compute in E. discriminate E.
Defined.

(** Lookup: whatever the search hint and whatever was looked up before, the
    result is the entry with the least key among those that end at or after
    [key_beg], and the table size when there is none; the next key is lowered to
    the end of that entry. *)
Theorem base_find_least co bs count cache key_next k :
  table_ok co bs count ->
  exists i c, hammer2_base_find (set_cache_index cache co) (Some bs) count key_next k
    = Done (i, (if i =? count then key_next else limit_next key_next (key_after (aget bs i))),
            set_cache_index c co)
    /\ (i = count -> forall b, b ∈ live bs -> range_last b < k)
    /\ (i <> count -> aget bs i ∈ live bs /\ k <= range_last (aget bs i)
         /\ forall b, b ∈ live bs -> k <= range_last b -> br_key (aget bs i) <= br_key b).
Proof.
  intros Hok.
  assert (Hok' : table_ok (set_cache_index cache co) bs count) by (destruct Hok; constructor; assumption).
  destruct (base_find_spec _ bs count key_next k Hok') as (i & c & Hrun & Hf).
  exists i, c. split; [exact Hrun|]. destruct Hok as [_ Hn Hk Hs _].
  destruct (first_hit_sides bs k i Hk Hs Hf) as [Hlo Hhi]. destruct Hf as (Hi & Hhit & _).
  rewrite Forall_forall in *. split.
  - intros E b Hb. apply Hlo. rewrite take_ge by (unfold alen in *; lia). exact Hb.
  - intros E. destruct (Hhit ltac:(lia)) as [He Hle]. split; [|split; [exact Hle|]].
    + apply live_elem; [exact He|]. apply aget_elem. lia.
    + intros b Hb Hkb. rewrite (live_split bs i) in Hb, Hs. apply elem_of_app in Hb as [Hb|Hb].
      * specialize (Hlo b Hb). cbn in Hlo. lia.
      * apply StronglySorted_app_1_r in Hs. rewrite live_drop_step, He in Hb, Hs by lia.
        cbn [app] in Hb, Hs. apply elem_of_cons in Hb as [->|Hb]; [lia|].
        apply StronglySorted_inv in Hs as [_ Hs]. rewrite Forall_forall in Hs. specialize (Hs b Hb).
        unfold before in Hs.
        pose proof (key_last_range _ (Hk _ (live_elem bs _ He (aget_elem bs i ltac:(lia))))). lia.
Qed.

(** The demo table: 0-64KB, 96KB-97KB and 128KB-192KB, with an empty slot. *)
Definition table_demo : list blockref :=
  [bref_at 3 0 16 14; bref_zero; bref_at 1 98304 10 10; bref_at 3 131072 16 16].
Definition core_demo (cache : Z) : core := Core 4 3 cache true bref_zero.

Lemma table_demo_ok cache : table_ok (core_demo cache) table_demo 4.
Proof.
  constructor; [reflexivity|reflexivity| | |].
  - repeat apply Forall_cons_2; try apply Forall_nil_2; split; cbn; lia.
  - repeat constructor.
  - unfold live_end, alen. cbn. split; [lia|]. split; [intros i Hi; lia|right; reflexivity].
Qed.

Lemma base_find_least_witness :
  exists i c, hammer2_base_find (set_cache_index 3 (core_demo 0)) (Some table_demo) 4 0 70000
    = Done (i, (if i =? 4 then 0 else limit_next 0 (key_after (aget table_demo i))),
            set_cache_index c (core_demo 0))
    /\ (i = 4 -> forall b, b ∈ live table_demo -> range_last b < 70000)
    /\ (i <> 4 -> aget table_demo i ∈ live table_demo /\ 70000 <= range_last (aget table_demo i)
         /\ forall b, b ∈ live table_demo -> 70000 <= range_last b ->
              br_key (aget table_demo i) <= br_key b).
Proof. apply base_find_least, table_demo_ok. Defined.

(** The incrementally maintained end of a table is what a recount from
    scratch finds, whatever slots insertions and deletions used. *)
Theorem countbrefs_agrees co bs count c bref :
  table_ok co bs count -> count < 2 ^ 32 ->
  hammer2_chain_countbrefs (Core 0 0 c false bref) (Some bs) count
  = Core (co_live_zero co) (Z.of_nat (size (abs bs))) c true bref.
Proof.
  intros [_ Hn Hk Hs Hz] Hc. rewrite <- Hn.
  destruct (countbrefs_spec (Core 0 0 c false bref) bs eq_refl) as (n & -> & Hz').
  rewrite (live_end_unique n (co_live_zero co) bs Hz' Hz). rewrite abs_size by assumption.
  pose proof (live_length bs). cbn [co_live_count co_cache_index co_bref]. rewrite u32_small by lia.
  reflexivity.
Qed.

Lemma countbrefs_agrees_witness :
  hammer2_chain_countbrefs (Core 0 0 7 false bref_zero) (Some table_demo) 4
  = Core 4 (Z.of_nat (size (abs table_demo))) 7 true bref_zero.
Proof. apply (countbrefs_agrees (core_demo 0)); [apply table_demo_ok|lia]. Defined.
