(* ===== verification/ChainFind.v ===== *)
(** The view of a chain's children that merges its block table with its
    in-memory chains (hammer2_chain.c, hammer2_rb.h): the tree scan, the
    combined lookup, and the choice of the key range of a new indirect block.
    The proofs are in ChainFindProof and IndkeyProof. *)

From Stdlib Require Import ZArith Lia Bool.
From stdpp Require Import base numbers list option.
From S2P Require Import Prelude Disk BlockTable.

(** * Which array holds the block table *)

Inductive base_array :=
| InodeBlockset        (* data->ipdata.u.blockset.blockref *)
| IndirectData         (* data->npdata *)
| VolumeSroot          (* data->voldata.sroot_blockset.blockref *)
| FreemapBlockset.     (* data->blkset.blockref *)

Abbreviation HAMMER2_SET_COUNT := 4 (only parsing).
Abbreviation HAMMER2_BLOCKREF_BYTES := 128 (only parsing).

(** [parent->flags & HAMMER2_CHAIN_INITIAL], [bref.type] and [bytes] decide;
    returns (base, count). *)
Definition hammer2_chain_base_and_count (initial : bool) (type bytes : Z)
  : outcome (option base_array * Z) :=
  if initial then
    match type with
    | HAMMER2_BREF_TYPE_INODE => Done (None, HAMMER2_SET_COUNT)
    | HAMMER2_BREF_TYPE_INDIRECT | HAMMER2_BREF_TYPE_FREEMAP_NODE =>
        Done (None, bytes / HAMMER2_BLOCKREF_BYTES)
    | HAMMER2_BREF_TYPE_VOLUME => Done (None, HAMMER2_SET_COUNT)
    | HAMMER2_BREF_TYPE_FREEMAP => Done (None, HAMMER2_SET_COUNT)
    | _ => Panic
    end
  else
    match type with
    | HAMMER2_BREF_TYPE_INODE => Done (Some InodeBlockset, HAMMER2_SET_COUNT)
    | HAMMER2_BREF_TYPE_INDIRECT | HAMMER2_BREF_TYPE_FREEMAP_NODE =>
        Done (Some IndirectData, bytes / HAMMER2_BLOCKREF_BYTES)
    | HAMMER2_BREF_TYPE_VOLUME => Done (Some VolumeSroot, HAMMER2_SET_COUNT)
    | HAMMER2_BREF_TYPE_FREEMAP => Done (Some FreemapBlockset, HAMMER2_SET_COUNT)
    | _ => Panic
    end.

(** * The tree of in-memory chains

    A search tree; the scans below never look at the colours. *)

Inductive rbtree :=
| RBLeaf
| RBNode (l : rbtree) (x : mchain) (r : rbtree).

Fixpoint rb_inorder (t : rbtree) : list mchain :=
  match t with
  | RBLeaf => []
  | RBNode l x r => rb_inorder l ++ x :: rb_inorder r
  end.

(** The descent of [RB_SCAN]: the last node it kept as [_best], followed by its
    successors in order; [best] is what was kept so far. *)
Fixpoint rb_descend (scancmp : mchain -> Z) (t : rbtree) (best : list mchain) : list mchain :=
  match t with
  | RBLeaf => best
  | RBNode l x r =>
      if scancmp x <? 0 then rb_descend scancmp r best
      else rb_descend scancmp l (x :: rb_inorder r ++ best)
  end.

(** The loop of [RB_SCAN] from [_best] on; returns (_count, arg). *)
Fixpoint rb_walk {S} (scancmp : mchain -> Z) (callback : mchain -> S -> outcome (Z * S))
    (nodes : list mchain) (count : Z) (arg : S) : outcome (Z * S) :=
  match nodes with
  | [] => Done (count, arg)
  | e :: nodes =>
      if 0 <? scancmp e then Done (count, arg)
      else
        let! (c, arg) := callback e arg in
        if c <? 0 then Done (c, arg)
        else rb_walk scancmp callback nodes (count + c) arg
  end.

Definition RB_SCAN {S} (scancmp : mchain -> Z) (callback : mchain -> S -> outcome (Z * S))
    (t : rbtree) (arg : S) : outcome (Z * S) :=
  rb_walk scancmp callback (rb_descend scancmp t []) 0 arg.

(** [hammer2_chain_cmp]: overlap counts as equal. *)
Definition hammer2_chain_cmp (chain1 chain2 : mchain) : Z :=
  if key_last (ch_bref chain1) <? br_key (ch_bref chain2) then -1
  else if key_last (ch_bref chain2) <? br_key (ch_bref chain1) then 1
  else 0.

Fixpoint RB_FIND (t : rbtree) (elm : mchain) : option mchain :=
  match t with
  | RBLeaf => None
  | RBNode l cur r =>
      let c := hammer2_chain_cmp elm cur in
      if c <? 0 then RB_FIND l elm
      else if 0 <? c then RB_FIND r elm
      else Some cur
  end.

(** * [hammer2_chain_find] *)

Record chain_find_info := Find {
  ci_best : option mchain;
  ci_key_beg : Z;
  ci_key_end : Z;
  ci_key_next : Z
}.

Definition hammer2_chain_find_cmp (info : chain_find_info) (child : mchain) : Z :=
  if key_last (ch_bref child) <? ci_key_beg info then -1
  else if ci_key_end info <? br_key (ch_bref child) then 1
  else 0.

(** [if (key_next > k || key_next == 0) key_next = k] *)
Definition truncate_next (key_next k : Z) : Z :=
  if (k <? key_next) || (key_next =? 0) then k else key_next.

Definition hammer2_chain_find_callback (child : mchain) (info : chain_find_info)
  : outcome (Z * chain_find_info) :=
  let key := br_key (ch_bref child) in
  let! (best, key_next) :=
    match ci_best info with
    | None => Done (child, ci_key_next info)
    | Some best =>
        let best_key := br_key (ch_bref best) in
        if (best_key <=? ci_key_beg info) && (key <=? ci_key_beg info) then Panic
        else if key <? best_key then
          Done (child, truncate_next (ci_key_next info) best_key)
        else if key =? best_key then Panic
        else Done (best, truncate_next (ci_key_next info) key)
    end in
  Done (0, Find (Some best) (ci_key_beg info) (ci_key_end info)
             (limit_next key_next (key_after (ch_bref child)))).

(** Returns (best, *key_nextp). *)
Definition hammer2_chain_find (rbtree : rbtree) (key_next key_beg key_end : Z)
  : outcome (option mchain * Z) :=
  let info := Find None key_beg key_end key_next in
  let! (_, info) := RB_SCAN (hammer2_chain_find_cmp info) hammer2_chain_find_callback rbtree info in
  Done (ci_best info, ci_key_next info).

(** * [hammer2_combined_find]: returns (chain, *brefp, *key_nextp, parent) *)

Definition hammer2_combined_find (parent : core) (rbtree : rbtree)
    (base : option (list blockref)) (count key_beg key_end : Z)
  : outcome (option mchain * option blockref * Z * core) :=
  let key_next := u64 (key_end + 1) in
  let! (i, key_next, parent) := hammer2_base_find parent base count key_next key_beg in
  let! (chain, key_next) := hammer2_chain_find rbtree key_next key_beg key_end in
  let found (chain : option mchain) (bref : blockref) :=
    if key_end <? br_key bref then Done (None, None, key_next, parent)
    else Done (chain, Some bref, key_next, parent) in
  let slot := aget (default [] base) i in
  match chain with
  | None =>
      if i =? count then Done (None, None, key_next, parent)       (* neither *)
      else found None slot                                         (* blockref only *)
  | Some c =>
      if i =? count then found (Some c) (ch_bref c)                (* chain only *)
      else if ((br_key (ch_bref c) <=? key_beg) && (br_key slot <=? key_beg))
              || (br_key (ch_bref c) =? br_key slot) then
        assert! br_key (ch_bref c) =? br_key slot;
        found (Some c) (ch_bref c)
      else if br_key (ch_bref c) <? br_key slot then found (Some c) (ch_bref c)
      else found None slot
  end.

(** Children in key order as a search tree: the scans depend on the order only. *)
Definition rb_of (cs : list mchain) : rbtree := foldr (fun c r => RBNode RBLeaf c r) RBLeaf cs.

(** * The range of a new indirect block *)

Section scan.
Context {S : Type} (step : S -> blockref -> outcome S).
Variables (rbtree : rbtree) (base : option (list blockref)) (count : Z).

(** The loop all three functions share: visit every child that is not deleted,
    in key order; [fuel] is what is left of [maxloops]. *)
Fixpoint indkey_scan (fuel : nat) (parent : core) (key_beg : Z) (s : S) : outcome (S * core) :=
  match fuel with
  | O => Panic
  | Datatypes.S fuel =>
      let! (chain, bref, key_next, parent) :=
        hammer2_combined_find parent rbtree base count key_beg HAMMER2_KEY_MAX in
      match bref with
      | None => Done (s, parent)
      | Some bref =>
          if match chain with Some c => ch_deleted c | None => false end then
            if (key_next =? 0) || (HAMMER2_KEY_MAX <? key_next) then Done (s, parent)
            else indkey_scan fuel parent key_next s
          else
            let key_next := key_after bref in
            let! s := step s bref in
            if key_next =? 0 then Done (s, parent)
            else indkey_scan fuel parent key_next s
      end
  end.
End scan.

(** [maxloops = 300000], tested by [--maxloops == 0] on entry. *)
Definition indkey_loops : nat := Z.to_nat 299999.

(** The smallest [keybits] seen, with the lowest key of that size. *)
Definition smallest_step (s : Z * Z) (bref : blockref) : outcome (Z * Z) :=
  let '(key, keybits) := s in
  if br_keybits bref <? keybits then Done (br_key bref, br_keybits bref)
  else if (keybits =? br_keybits bref) && (br_key bref <? key) then Done (br_key bref, keybits)
  else Done (key, keybits).

(** Returns (keybits, *keyp, parent). *)
Definition hammer2_chain_indkey_freemap (parent : core) (rbtree : rbtree)
    (base : option (list blockref)) (count key : Z) : outcome (Z * Z * core) :=
  let! (s, parent) := indkey_scan smallest_step rbtree base count indkey_loops parent 0 (key, 64) in
  let '(key, keybits) := s in
  let! keybits :=
    match keybits with
    | HAMMER2_FREEMAP_LEVEL0_RADIX => Done HAMMER2_FREEMAP_LEVEL1_RADIX
    | HAMMER2_FREEMAP_LEVEL1_RADIX => Done HAMMER2_FREEMAP_LEVEL2_RADIX
    | HAMMER2_FREEMAP_LEVEL2_RADIX => Done HAMMER2_FREEMAP_LEVEL3_RADIX
    | HAMMER2_FREEMAP_LEVEL3_RADIX => Done HAMMER2_FREEMAP_LEVEL4_RADIX
    | HAMMER2_FREEMAP_LEVEL4_RADIX => Done HAMMER2_FREEMAP_LEVEL5_RADIX
    | _ => Panic
    end in
  Done (keybits, key, parent).

Abbreviation HAMMER2_IND_COUNT_MIN := 32 (only parsing).
Abbreviation HAMMER2_IND_COUNT_NOM := 128 (only parsing).
Abbreviation HAMMER2_IND_COUNT_MAX := 512 (only parsing).

Definition hammer2_chain_indkey_file (parent : core) (rbtree : rbtree)
    (base : option (list blockref)) (count key ncount : Z) : outcome (Z * Z * core) :=
  let! (s, parent) := indkey_scan smallest_step rbtree base count indkey_loops parent 0 (key, 64) in
  let '(key, keybits) := s in
  let! nradix :=
    match ncount with
    | HAMMER2_IND_COUNT_MIN => Done (12 - 7)
    | HAMMER2_IND_COUNT_NOM => Done (14 - 7)
    | HAMMER2_IND_COUNT_MAX => Done (16 - 7)
    | _ => Panic
    end in
  let nradix := if 64 <=? nradix then 63 else nradix in
  Done (keybits + nradix, key, parent).

(** ** Directories: the full range of the keys, cut in half *)

(** [rounddown2(x, (hammer2_key_t)1 << bits)] *)
Definition rounddown_bits (x bits : Z) : Z := x .&~ (u64 (1 .<< bits) - 1).

(** [while (nkeybits < 64 && rounddown2(key ^ bref->key, 1 << nkeybits) != 0)
    ++nkeybits] *)
Fixpoint widen (fuel : nat) (diff nkeybits : Z) : Z :=
  match fuel with
  | O => nkeybits
  | S fuel =>
      if (nkeybits <? 64) && negb (rounddown_bits diff nkeybits =? 0)
      then widen fuel diff (nkeybits + 1)
      else nkeybits
  end.

(** Put both counts on the side of bit [bit] of [key]. *)
Definition collapse (key bit locount hicount : Z) : Z * Z :=
  if tst key (u64 (1 .<< bit)) then (0, hicount + locount) else (locount + hicount, 0).

(** One element; the state is (keybits, locount, hicount). *)
Definition dir_step (key : Z) (s : Z * Z * Z) (bref : blockref) : outcome (Z * Z * Z) :=
  let '(keybits, locount, hicount) := s in
  let! nkeybits :=
    if keybits <? br_keybits bref then
      if 64 <? br_keybits bref then Panic else Done (br_keybits bref)
    else Done keybits in
  let nkeybits := widen 64 (key .^ br_key bref) nkeybits in
  let '(locount, hicount) :=
    if negb (keybits =? nkeybits) then collapse key (nkeybits - 1) locount hicount
    else (locount, hicount) in
  if tst (br_key bref) (u64 (1 .<< (nkeybits - 1)))
  then Done (nkeybits, locount, hicount + 1)
  else Done (nkeybits, locount + 1, hicount).

(** [while ((1 << keybits) < ncount) { ++keybits; ... }] *)
Fixpoint dir_expand (fuel : nat) (key ncount : Z) (s : Z * Z * Z) : Z * Z * Z :=
  match fuel with
  | O => s
  | S fuel =>
      let '(keybits, locount, hicount) := s in
      if u64 (1 .<< keybits) <? ncount then
        let '(locount, hicount) := collapse key (keybits + 1) locount hicount in
        dir_expand fuel key ncount (keybits + 1, locount, hicount)
      else s
  end.

Definition hammer2_chain_indkey_dir (parent : core) (rbtree : rbtree)
    (base : option (list blockref)) (count key keybits ncount : Z) : outcome (Z * Z * core) :=
  let! (s, parent) :=
    indkey_scan (dir_step key) rbtree base count indkey_loops parent 0 (keybits, 0, 0) in
  let '(keybits, locount, hicount) := s in
  let '(keybits, locount, hicount) := dir_expand 64 key ncount (keybits - 1, locount, hicount) in
  let key := if locount <? hicount then key .| u64 (1 .<< keybits)
             else key .& u64 (18446744073709551614 .<< keybits) in
  Done (keybits, key, parent).
