(* ===== verification/ChainFindProof.v ===== *)
(** Correctness of the combined view of a chain's children: the tree scan is a
    scan of the ordered chains, the combined lookup is a lookup in the merge of
    table and chains, and the shared scan loop folds over that merge. *)

From Stdlib Require Import ZArith Lia Bool Sorted.
From stdpp Require Import base numbers list option sorting.
From S2P Require Import Prelude Disk BlockTable BlockTableProof BlockTableSpec ChainFind.

(** * The tree scan *)

Fixpoint drop_neg (cmp : mchain -> Z) (l : list mchain) : list mchain :=
  match l with
  | [] => []
  | x :: l' => if cmp x <? 0 then drop_neg cmp l' else l
  end.

(** Once the comparison is not negative it stays so. *)
Definition monotone (cmp : mchain -> Z) (l : list mchain) : Prop :=
  forall l1 x l2 y, l = l1 ++ x :: l2 -> 0 <= cmp x -> y ∈ l2 -> 0 <= cmp y.

Lemma drop_neg_app cmp l1 l2 :
  (forall x, x ∈ l1 -> cmp x < 0) -> drop_neg cmp (l1 ++ l2) = drop_neg cmp l2.
Proof.
  induction l1 as [|x l1 IH]; intros H; [reflexivity|]. cbn.
  replace (cmp x <? 0) with true by (symmetry; apply Z.ltb_lt, H; left).
  apply IH. intros y Hy. apply H. right. exact Hy.
Qed.

Lemma drop_neg_stop cmp l1 x l2 :
  0 <= cmp x -> drop_neg cmp (l1 ++ x :: l2) = drop_neg cmp l1 ++ x :: l2.
Proof.
  intros Hx. induction l1 as [|y l1 IH]; cbn; [replace (cmp x <? 0) with false by lia; reflexivity|].
  destruct (cmp y <? 0); [exact IH|reflexivity].
Qed.

Lemma rb_descend_spec cmp t best :
  monotone cmp (rb_inorder t) -> rb_descend cmp t best = drop_neg cmp (rb_inorder t) ++ best.
Proof.
  revert best. induction t as [|l IHl x r IHr]; intros best Hm; [reflexivity|]. cbn in *.
  assert (Hml : monotone cmp (rb_inorder l)).
  { intros l1 y l2 z E Hy Hz. apply (Hm l1 y (l2 ++ x :: rb_inorder r)); [|exact Hy|].
    - rewrite E, <- app_assoc. reflexivity.
    - apply elem_of_app. auto. }
  assert (Hmr : monotone cmp (rb_inorder r)).
  { intros l1 y l2 z E Hy Hz. apply (Hm (rb_inorder l ++ x :: l1) y l2); [|exact Hy|exact Hz].
    rewrite E, <- app_assoc. reflexivity. }
  destruct (Z.ltb_spec (cmp x) 0) as [Hx|Hx].
  - rewrite (IHr best Hmr). rewrite drop_neg_app.
    + cbn. replace (cmp x <? 0) with true by lia. reflexivity.
    + intros y Hy. destruct (Z.lt_ge_cases (cmp y) 0) as [?|Hge]; [assumption|].
      apply list_elem_of_split in Hy as (l1 & l2 & E).
      specialize (Hm l1 y (l2 ++ x :: rb_inorder r) x ltac:(rewrite E, <- app_assoc; reflexivity) Hge
                    ltac:(apply elem_of_app; right; left)). lia.
  - rewrite (IHl _ Hml), drop_neg_stop by exact Hx. rewrite <- app_assoc. reflexivity.
Qed.

(** * [hammer2_chain_find] *)

Definition chain_before (c d : mchain) : Prop := before (ch_bref c) (ch_bref d).

(** The in-memory chains, in tree order. *)
Record chains_ok (cs : list mchain) : Prop := {
  cs_keys : Forall (fun c => key_ok (ch_bref c)) cs;
  cs_sorted : StronglySorted chain_before cs
}.

Lemma chains_ok_cons c cs :
  chains_ok (c :: cs) -> key_ok (ch_bref c) /\ chains_ok cs
  /\ (forall d, d ∈ cs -> range_last (ch_bref c) < br_key (ch_bref d)).
Proof.
  intros [Hk Hs]. apply Forall_cons_1 in Hk as [Hc Hk]. apply StronglySorted_inv in Hs as [Hs Hf].
  split; [exact Hc|]. split; [constructor; assumption|]. rewrite Forall_forall in Hf. exact Hf.
Qed.

(** The first chain that ends at or after [k], when it starts by [ke]. *)
Fixpoint first_chain (cs : list mchain) (k ke : Z) : option mchain :=
  match cs with
  | [] => None
  | c :: cs =>
      if range_last (ch_bref c) <? k then first_chain cs k ke
      else if ke <? br_key (ch_bref c) then None
      else Some c
  end.

Lemma find_cmp_cases info c :
  key_ok (ch_bref c) ->
  hammer2_chain_find_cmp info c
  = if range_last (ch_bref c) <? ci_key_beg info then -1
    else if ci_key_end info <? br_key (ch_bref c) then 1 else 0.
Proof.
  intros H. unfold hammer2_chain_find_cmp. rewrite (proj1 (key_last_range _ H)). reflexivity.
Qed.

Lemma find_cmp_monotone info cs : chains_ok cs -> monotone (hammer2_chain_find_cmp info) cs.
Proof.
  intros [Hk Hs] l1 x l2 y -> Hx Hy. apply Forall_app in Hk as [_ Hk].
  apply Forall_cons_1 in Hk as [Hkx Hk].
  apply StronglySorted_app_1_r, StronglySorted_inv in Hs as [_ Hs]. rewrite Forall_forall in Hk, Hs.
  specialize (Hk y Hy). specialize (Hs y Hy). unfold chain_before, before in Hs.
  rewrite find_cmp_cases in * by assumption. pose proof (key_last_range _ Hk).
  destruct (Z.ltb_spec (range_last (ch_bref x)) (ci_key_beg info)) in Hx; [lia|].
  replace (range_last (ch_bref y) <? ci_key_beg info) with false by lia. cbv iota. destruct (ci_key_end info <? br_key (ch_bref y)); lia.
Qed.

(** Later chains do not change the answer. *)
Lemma walk_rest info0 nodes c kb ke kn count :
  chains_ok (c :: nodes) -> kb <= range_last (ch_bref c) -> ci_key_beg info0 = kb ->
  (nodes <> [] -> kn <> 0 /\ kn <= range_last (ch_bref c) + 1) ->
  exists count', rb_walk (hammer2_chain_find_cmp info0) hammer2_chain_find_callback nodes count
                   (Find (Some c) kb ke kn) = Done (count', Find (Some c) kb ke kn).
Proof.
  intros Hok Hkb Hinfo Hkn. revert count Hok Hkn.
  induction nodes as [|d nodes IH]; intros count Hok Hkn; [exists count; reflexivity|]. cbn [rb_walk].
  destruct (0 <? _); [exists count; reflexivity|].
  pose proof (chains_ok_cons _ _ Hok) as (Hc & Hok1 & Hb1).
  pose proof (chains_ok_cons _ _ Hok1) as (Hd & Hok2 & Hb2).
  pose proof (Hb1 d ltac:(left)) as Hcd.
  pose proof (key_last_range _ Hc) as [_ Hcr]. pose proof (key_last_range _ Hd) as [_ Hdr].
  destruct (Hkn ltac:(discriminate)) as [Hkn0 Hkn1].
  unfold hammer2_chain_find_callback. cbn [ci_best ci_key_beg ci_key_end ci_key_next].
  replace (br_key (ch_bref d) <=? kb) with false by lia. rewrite andb_false_r.
  replace (br_key (ch_bref d) <? br_key (ch_bref c)) with false by lia.
  replace (br_key (ch_bref d) =? br_key (ch_bref c)) with false by lia. cbn [obind].
  assert (Ht : truncate_next kn (br_key (ch_bref d)) = kn).
  { unfold truncate_next. replace (br_key (ch_bref d) <? kn) with false by lia.
    replace (kn =? 0) with false by lia. reflexivity. }
  assert (Hl : limit_next kn (key_after (ch_bref d)) = kn).
  { unfold limit_next. rewrite key_after_range by exact Hd.
    replace (kn =? 0) with false by lia. rewrite orb_false_r.
    destruct (range_last (ch_bref d) =? 2 ^ 64 - 1); [reflexivity|].
    replace (range_last (ch_bref d) + 1 <? kn) with false by lia. rewrite andb_false_r. reflexivity. }
  rewrite Ht, Hl. change (0 <? 0) with false. cbv iota.
  apply IH; [|intros _; split; assumption].
  destruct Hok as [Hk Hs]. apply Forall_cons_1 in Hk as [Hk1 Hk]. apply Forall_cons_1 in Hk as [_ Hk].
  apply StronglySorted_inv in Hs as [Hs Hf]. apply StronglySorted_inv in Hs as [Hs _].
  apply Forall_cons_1 in Hf as [_ Hf]. constructor; constructor; assumption.
Qed.

Lemma chain_find_spec t kn kb ke :
  chains_ok (rb_inorder t) ->
  hammer2_chain_find t kn kb ke
  = Done (first_chain (rb_inorder t) kb ke,
          match first_chain (rb_inorder t) kb ke with
          | Some c => limit_next kn (key_after (ch_bref c))
          | None => kn
          end).
Proof.
  intros Hok. unfold hammer2_chain_find, RB_SCAN. set (info := Find None kb ke kn).
  rewrite rb_descend_spec, app_nil_r by (apply find_cmp_monotone, Hok).
  induction (rb_inorder t) as [|c cs IH]; [reflexivity|]. cbn [drop_neg first_chain].
  pose proof (chains_ok_cons _ _ Hok) as (Hc & Hok1 & Hb1).
  rewrite find_cmp_cases by exact Hc. cbn [ci_key_beg ci_key_end info].
  destruct (Z.ltb_spec (range_last (ch_bref c)) kb) as [Hlt|Hge]; [apply IH, Hok1|].
  replace ((if ke <? br_key (ch_bref c) then 1 else 0) <? 0) with false
    by (destruct (ke <? br_key (ch_bref c)); reflexivity).
  cbn [rb_walk]. rewrite find_cmp_cases by exact Hc. cbn [ci_key_beg ci_key_end info].
  replace (range_last (ch_bref c) <? kb) with false by lia.
  destruct (ke <? br_key (ch_bref c)); [reflexivity|]. change (0 <? 0) with false. cbv iota.
  unfold hammer2_chain_find_callback at 1. cbn [ci_best ci_key_beg ci_key_end ci_key_next info obind].
  change (0 <? 0) with false. cbv iota.
  destruct (walk_rest info cs c kb ke (limit_next kn (key_after (ch_bref c))) (0 + 0)) as [n Hn];
    [exact Hok|exact Hge|reflexivity| |].
  - intros Hne. destruct cs as [|d cs]; [contradiction|]. specialize (Hb1 d ltac:(left)).
    pose proof (chains_ok_cons _ _ Hok1) as (Hd & _ & _).
    pose proof (key_last_range _ Hc). pose proof (key_last_range _ Hd). rewrite key_after_range by exact Hc.
    unfold limit_next. replace (range_last (ch_bref c) =? 2 ^ 64 - 1) with false by lia.
    destruct Hc as [_ Hc]. replace (range_last (ch_bref c) + 1 =? 0) with false by lia. cbn [negb andb].
    destruct (Z.ltb_spec (range_last (ch_bref c) + 1) kn); cbn [orb]; [lia|].
    destruct (Z.eqb_spec kn 0); lia.
  - rewrite Hn. reflexivity.
Qed.

(** * The merged view *)

(** Table entries and in-memory chains by key; a chain hides the table entry it
    was loaded from. *)
Fixpoint view (bs : list blockref) : list mchain -> list (blockref * option mchain) :=
  match bs with
  | [] => fun cs => (fun c => (ch_bref c, Some c)) <$> cs
  | b :: bs' =>
      fix go cs :=
        match cs with
        | [] => (b, None) :: view bs' []
        | c :: cs' =>
            if br_key b <? br_key (ch_bref c) then (b, None) :: view bs' cs
            else if br_key (ch_bref c) <? br_key b then (ch_bref c, Some c) :: go cs'
            else (ch_bref c, Some c) :: view bs' cs'
        end
  end.

(** Chains were loaded from the table or cover keys the table does not have. *)
Definition coherent (bs : list blockref) (cs : list mchain) : Prop :=
  forall b c, b ∈ bs -> c ∈ cs ->
    apart b (ch_bref c)
    \/ (br_key b = br_key (ch_bref c) /\ br_keybits b = br_keybits (ch_bref c)).

Record entries_ok (bs : list blockref) : Prop := {
  es_keys : Forall key_ok bs;
  es_sorted : StronglySorted before bs
}.

Lemma entries_ok_cons b bs :
  entries_ok (b :: bs) -> key_ok b /\ entries_ok bs /\ (forall d, d ∈ bs -> range_last b < br_key d).
Proof.
  intros [Hk Hs]. apply Forall_cons_1 in Hk as [Hc Hk]. apply StronglySorted_inv in Hs as [Hs Hf].
  split; [exact Hc|]. split; [constructor; assumption|]. rewrite Forall_forall in Hf. exact Hf.
Qed.

Lemma coherent_cons_l b bs cs : coherent (b :: bs) cs -> coherent bs cs.
Proof. intros H d c Hd Hc. apply H; [right; exact Hd|exact Hc]. Qed.
Lemma coherent_cons_r bs c cs : coherent bs (c :: cs) -> coherent bs cs.
Proof. intros H d e Hd He. apply H; [exact Hd|right; exact He]. Qed.

(** Membership in the view. *)
Lemma elem_of_view bs cs x :
  x ∈ view bs cs -> (x.1 ∈ bs /\ x.2 = None) \/ (exists c, c ∈ cs /\ x = (ch_bref c, Some c)).
Proof.
  revert cs. induction bs as [|b bs IHb]; intros cs.
  - cbn [view]. intros (c & -> & Hc)%list_elem_of_fmap. right. exists c. auto.
  - induction cs as [|c cs IHc]; cbn [view].
    + intros [->|H]%elem_of_cons; [left; split; [left|reflexivity]|].
      destruct (IHb [] H) as [[H1 H2]|(c & Hc & _)]; [left; split; [right|]; assumption|].
      apply elem_of_nil in Hc as [].
    + destruct (br_key b <? br_key (ch_bref c)); [|destruct (br_key (ch_bref c) <? br_key b)];
        intros [->|H]%elem_of_cons.
      * left; split; [left|reflexivity].
      * destruct (IHb _ H) as [[H1 H2]|?]; [left; split; [right|]; assumption|right; assumption].
      * right. exists c. split; [left|reflexivity].
      * destruct (IHc H) as [?|(d & Hd & ->)]; [left; assumption|right; exists d; split; [right|]; auto].
      * right. exists c. split; [left|reflexivity].
      * destruct (IHb _ H) as [[H1 H2]|(d & Hd & ->)]; [left; split; [right|]; assumption|].
        right. exists d. split; [right|]; auto.
Qed.

(** Every chain is in the view, and every table entry without one. *)
Lemma view_chain bs cs c : c ∈ cs -> (ch_bref c, Some c) ∈ view bs cs.
Proof.
  revert cs. induction bs as [|b bs IHb]; intros cs Hc.
  - cbn [view]. apply list_elem_of_fmap. eauto.
  - induction cs as [|d cs IHc]; [apply elem_of_nil in Hc as []|]. cbn [view].
    destruct (br_key b <? br_key (ch_bref d)); [right; apply IHb, Hc|].
    apply elem_of_cons in Hc as [->|Hc]; [destruct (_ <? _); left|].
    destruct (_ <? _); right; auto.
Qed.

Lemma view_entry bs cs b :
  entries_ok bs -> b ∈ bs -> (forall c, c ∈ cs -> br_key (ch_bref c) <> br_key b) ->
  (b, None) ∈ view bs cs.
Proof.
  intros Hok. revert cs. induction bs as [|d bs IHb]; intros cs Hb Hno; [apply elem_of_nil in Hb as []|].
  destruct (entries_ok_cons _ _ Hok) as (Hd & Hok1 & Hlt).
  induction cs as [|c cs IHc]; cbn [view].
  - apply elem_of_cons in Hb as [->|Hb]; [left|right; apply IHb; auto].
  - destruct (Z.ltb_spec (br_key d) (br_key (ch_bref c))).
    { apply elem_of_cons in Hb as [->|Hb]; [left|right; apply IHb; auto]. }
    destruct (Z.ltb_spec (br_key (ch_bref c)) (br_key d)).
    { right. apply IHc. intros e He. apply Hno. right. exact He. }
    right. apply elem_of_cons in Hb as [->|Hb]; [destruct (Hno c ltac:(left)); lia|].
    apply IHb; auto. intros e He. apply Hno. right. exact He.
Qed.

Definition view_before (x y : blockref * option mchain) : Prop := before x.1 y.1.

(** The view is sorted. *)
Lemma view_sorted bs cs :
  entries_ok bs -> chains_ok cs -> coherent bs cs ->
  StronglySorted view_before (view bs cs) /\ Forall (fun x => key_ok x.1) (view bs cs).
Proof.
  intros Hb Hc Hco. split.
  2: { apply Forall_forall. intros x [[Hx _]|(c & Hin & ->)]%elem_of_view.
       - destruct Hb as [Hk _]. rewrite Forall_forall in Hk. apply Hk, Hx.
       - destruct Hc as [Hk _]. rewrite Forall_forall in Hk. apply Hk, Hin. }
  revert cs Hc Hco. induction bs as [|b bs IHb]; intros cs Hc Hco.
  - cbn [view]. clear Hco. induction cs as [|c cs IHc]; [constructor|].
    destruct (chains_ok_cons _ _ Hc) as (_ & Hc1 & Hlt). cbn. constructor; [apply IHc, Hc1|].
    apply Forall_forall. intros x (d & -> & Hd)%list_elem_of_fmap. apply Hlt, Hd.
  - destruct (entries_ok_cons _ _ Hb) as (Hbk & Hb1 & Hblt).
    assert (Hhead : forall cs', chains_ok cs' -> coherent (b :: bs) cs' ->
              (forall d, d ∈ cs' -> range_last b < br_key (ch_bref d)) ->
              StronglySorted view_before ((b, None) :: view bs cs')).
    { intros cs' Hc' Hco' Hlt. constructor; [apply IHb; eauto using coherent_cons_l|].
      apply Forall_forall. intros x [[Hx _]|(d & Hd & ->)]%elem_of_view; [apply Hblt, Hx|apply Hlt, Hd]. }
    induction cs as [|c cs IHc]; cbn [view].
    + apply Hhead; [exact Hc|exact Hco|]. intros d Hd. apply elem_of_nil in Hd as [].
    + destruct (chains_ok_cons _ _ Hc) as (Hck & Hc1 & Hclt).
      pose proof (key_last_range _ Hbk) as [_ Hbr]. pose proof (key_last_range _ Hck) as [_ Hcr].
      pose proof (Hco b c ltac:(left) ltac:(left)) as Hbc. unfold apart, before in Hbc.
      destruct (Z.ltb_spec (br_key b) (br_key (ch_bref c))) as [H1|H1].
      { apply Hhead; [exact Hc|exact Hco|]. intros d [->|Hd]%elem_of_cons; [lia|].
        specialize (Hclt d Hd). lia. }
      destruct (Z.ltb_spec (br_key (ch_bref c)) (br_key b)) as [H2|H2].
      * constructor; [apply IHc; eauto using coherent_cons_r|].
        apply Forall_forall. intros x [[Hx _]|(d & Hd & ->)]%(elem_of_view (b :: bs)); unfold view_before, before; cbn.
        -- apply elem_of_cons in Hx as [->|Hx]; [lia|]. specialize (Hblt _ Hx). lia.
        -- apply Hclt, Hd.
      * assert (Hrl : range_last b = range_last (ch_bref c)).
        { destruct Hbc as [?|[E1 E2]]; [lia|]. unfold range_last. rewrite E1, E2. reflexivity. }
        constructor; [apply IHb; eauto using coherent_cons_l, coherent_cons_r|].
        apply Forall_forall. intros x [[Hx _]|(d & Hd & ->)]%elem_of_view; unfold view_before, before; cbn.
        -- specialize (Hblt _ Hx). lia.
        -- apply Hclt, Hd.
Qed.

(** * [hammer2_combined_find] *)

Lemma first_chain_spec cs k ke :
  chains_ok cs ->
  match first_chain cs k ke with
  | Some c => c ∈ cs /\ k <= range_last (ch_bref c) /\ br_key (ch_bref c) <= ke
              /\ forall d, d ∈ cs -> range_last (ch_bref d) < k \/ br_key (ch_bref c) <= br_key (ch_bref d)
  | None => forall d, d ∈ cs -> range_last (ch_bref d) < k \/ ke < br_key (ch_bref d)
  end.
Proof.
  induction cs as [|c cs IH]; intros Hok; cbn [first_chain].
  - intros d Hd. apply elem_of_nil in Hd as [].
  - destruct (chains_ok_cons _ _ Hok) as (Hc & Hok1 & Hlt). specialize (IH Hok1).
    pose proof (key_last_range _ Hc) as [_ Hcr].
    destruct (Z.ltb_spec (range_last (ch_bref c)) k) as [H|H].
    + destruct (first_chain cs k ke) as [e|].
      * destruct IH as (H1 & H2 & H3 & H4). split; [right; exact H1|]. split; [exact H2|].
        split; [exact H3|]. intros d [->|Hd]%elem_of_cons; [left; exact H|apply H4, Hd].
      * intros d [->|Hd]%elem_of_cons; [left; exact H|apply IH, Hd].
    + destruct (Z.ltb_spec ke (br_key (ch_bref c))) as [H1|H1].
      * intros d [->|Hd]%elem_of_cons; right; [exact H1|]. specialize (Hlt d Hd). lia.
      * split; [left|]. split; [exact H|]. split; [exact H1|].
        intros d [->|Hd]%elem_of_cons; right; [lia|]. specialize (Hlt d Hd). lia.
Qed.

(** [x] is the first element of the view that ends at or after [k]. *)
Definition first_in_view (v : list (blockref * option mchain)) (k : Z)
    (x : blockref * option mchain) : Prop :=
  x ∈ v /\ k <= range_last x.1 /\ forall y, y ∈ v -> range_last y.1 < k \/ br_key x.1 <= br_key y.1.

Section combined.
Context (co : core) (bs : list blockref) (count : Z) (t : rbtree).
Hypothesis Htab : table_ok co bs count.
Hypothesis Hcs : chains_ok (rb_inorder t).
Hypothesis Hco : coherent (live bs) (rb_inorder t).

Lemma table_entries : entries_ok (live bs).
Proof. destruct Htab. constructor; assumption. Qed.

(** What the lookup returns, in terms of the nearest entry and chain. *)
Lemma chosen_entry b k ke :
  b ∈ live bs -> k <= range_last b -> br_key b <= ke ->
  (forall d, d ∈ live bs -> k <= range_last d -> br_key b <= br_key d) ->
  (forall d, d ∈ rb_inorder t -> range_last (ch_bref d) < k \/ br_key b < br_key (ch_bref d)) ->
  first_in_view (view (live bs) (rb_inorder t)) k (b, None).
Proof.
  intros Hb Hk Hke Hmin Hch.
  pose proof table_entries as He. split; [|split; [exact Hk|]].
  - apply view_entry; [exact He|exact Hb|]. intros c Hc E.
    destruct (Hch c Hc) as [H|H]; [|lia].
    destruct He as [Hkeys _]. rewrite Forall_forall in Hkeys. pose proof (key_last_range _ (Hkeys b Hb)).
    destruct Hcs as [Hck _]. rewrite Forall_forall in Hck. pose proof (key_last_range _ (Hck c Hc)).
    destruct (Hco b c Hb Hc) as [[Ha|Ha]|[_ E2]]; unfold before in *; try lia.
    unfold range_last in *. rewrite E, E2 in *. lia.
  - intros y [[Hy _]|(d & Hd & ->)]%elem_of_view; cbn.
    + destruct (Z.lt_ge_cases (range_last y.1) k); [auto|]. right. apply Hmin; assumption.
    + destruct (Hch d Hd); [left; assumption|right; lia].
Qed.

Lemma chosen_chain c k ke :
  c ∈ rb_inorder t -> k <= range_last (ch_bref c) -> br_key (ch_bref c) <= ke ->
  (forall d, d ∈ rb_inorder t ->
     range_last (ch_bref d) < k \/ br_key (ch_bref c) <= br_key (ch_bref d)) ->
  (forall b, b ∈ live bs -> k <= range_last b -> br_key (ch_bref c) <= br_key b) ->
  first_in_view (view (live bs) (rb_inorder t)) k (ch_bref c, Some c).
Proof.
  intros Hc Hk Hke Hmin Hb. split; [apply view_chain, Hc|]. split; [exact Hk|].
  intros y [[Hy _]|(d & Hd & ->)]%elem_of_view; cbn.
  - destruct (Z.lt_ge_cases (range_last y.1) k); [auto|]. right. apply Hb; assumption.
  - apply Hmin, Hd.
Qed.

(** The next key after a chain, when the search is open ended. *)
Lemma next_after_chain c b k :
  c ∈ rb_inorder t -> b ∈ live bs -> br_key (ch_bref c) <= br_key b ->
  k <= range_last (ch_bref c) ->
  limit_next (limit_next 0 (key_after b)) (key_after (ch_bref c)) = key_after (ch_bref c).
Proof.
  intros Hc Hb Hle Hk. pose proof table_entries as [Hkeys _]. rewrite Forall_forall in Hkeys.
  pose proof (Hkeys b Hb) as Hbk. pose proof (key_last_range _ Hbk) as [_ Hbr].
  destruct Hcs as [Hck _]. rewrite Forall_forall in Hck. pose proof (Hck c Hc) as Hcck. cbn in Hcck.
  pose proof (key_last_range _ Hcck) as [_ Hcr].
  rewrite !key_after_range by assumption.
  assert (Hrl : range_last b = range_last (ch_bref c) \/ range_last (ch_bref c) < br_key b).
  { destruct (Hco b c Hb Hc) as [[Ha|Ha]|[E1 E2]]; unfold before in *; [lia|auto|left].
    unfold range_last. rewrite E1, E2. reflexivity. }
  destruct Hcck as [_ [Hck0 _]]. destruct Hbk as [_ [Hbk0 _]]. unfold limit_next.
  destruct (Z.eqb_spec (range_last b) (2 ^ 64 - 1)) as [E1|E1];
    destruct (Z.eqb_spec (range_last (ch_bref c)) (2 ^ 64 - 1)) as [E2|E2]; try lia; cbn [Z.eqb negb andb].
  - reflexivity.
  - replace (range_last (ch_bref c) + 1 =? 0) with false by lia. cbn [negb andb].
    rewrite orb_true_r. reflexivity.
  - replace (range_last b + 1 =? 0) with false by lia.
    replace (range_last (ch_bref c) + 1 =? 0) with false by lia.
    rewrite !orb_true_r. cbn [negb andb].
    replace (range_last b + 1 =? 0) with false by lia. rewrite orb_false_r.
    destruct (Z.ltb_spec (range_last (ch_bref c) + 1) (range_last b + 1)); [reflexivity|lia].
Qed.

Lemma combined_find_spec k ke :
  0 <= k <= ke -> ke < 2 ^ 64 ->
  exists chain bref kn c, hammer2_combined_find co t (Some bs) count k ke
    = Done (chain, bref, kn, set_cache_index c co)
    /\ match bref with
       | Some b => first_in_view (view (live bs) (rb_inorder t)) k (b, chain) /\ br_key b <= ke
                   /\ (ke = HAMMER2_KEY_MAX -> chain <> None -> kn = key_after b)
       | None => chain = None
                 /\ forall x, x ∈ view (live bs) (rb_inorder t) -> range_last x.1 < k \/ ke < br_key x.1
       end.
Proof.
  intros Hk Hke. unfold hammer2_combined_find.
  destruct (base_find_least co bs count (co_cache_index co) (u64 (ke + 1)) k Htab)
    as (i & c & Hrun & Hnone & Hsome).
  replace (set_cache_index (co_cache_index co) co) with co in Hrun by (destruct co; reflexivity).
  rewrite Hrun. cbn [obind]. rewrite chain_find_spec by exact Hcs. cbn [obind default from_option id].
  pose proof (first_chain_spec (rb_inorder t) k ke Hcs) as Hfc.
  assert (Hnext0 : ke = HAMMER2_KEY_MAX -> u64 (ke + 1) = 0) by (intros ->; reflexivity).
  assert (Hview : forall x, x ∈ view (live bs) (rb_inorder t) ->
            x.1 ∈ live bs \/ exists d, d ∈ rb_inorder t /\ x.1 = ch_bref d).
  { intros x [[Hx _]|(d & Hd & ->)]%elem_of_view; eauto. }
  destruct (Z.eqb_spec i count) as [E|E]; [specialize (Hnone E)|destruct (Hsome E) as (Hin & Hge & Hmin)];
    destruct (first_chain (rb_inorder t) k ke) as [ch|].
  - destruct Hfc as (H1 & H2 & H3 & H4). replace (ke <? br_key (ch_bref ch)) with false by lia.
    eexists _, _, _, c. split; [reflexivity|]. split; [|split; [exact H3|]].
    + apply (chosen_chain ch k ke); try assumption. intros b Hb Hbk. specialize (Hnone b Hb). lia.
    + intros Em _. rewrite Hnext0 by exact Em. unfold limit_next.
      destruct (key_after (ch_bref ch) =? 0) eqn:Ez; [apply Z.eqb_eq in Ez; rewrite Ez; reflexivity|]. rewrite orb_true_r. reflexivity.
  - eexists _, _, _, c. split; [reflexivity|]. split; [reflexivity|].
    intros x Hx. destruct (Hview x Hx) as [Hb|(d & Hd & ->)]; [left; apply Hnone, Hb|apply Hfc, Hd].
  - destruct Hfc as (H1 & H2 & H3 & H4). pose proof Hge as Hge'. set (b := aget bs i) in *.
    assert (Hcb : br_key (ch_bref ch) <= k -> br_key b <= k -> br_key (ch_bref ch) = br_key b).
    { intros Ha Hb. destruct (Hco b ch Hin H1) as [[?|?]|[? _]]; unfold before in *; lia. }
    assert (Hchain : br_key (ch_bref ch) <= br_key b ->
      exists chain bref kn c0,
        (if ke <? br_key (ch_bref ch) then
           Done (None, None, limit_next (limit_next (u64 (ke + 1)) (key_after b)) (key_after (ch_bref ch)),
                 set_cache_index c co)
         else Done (Some ch, Some (ch_bref ch),
                    limit_next (limit_next (u64 (ke + 1)) (key_after b)) (key_after (ch_bref ch)),
                    set_cache_index c co)) = Done (chain, bref, kn, set_cache_index c0 co)
        /\ match bref with
           | Some b => first_in_view (view (live bs) (rb_inorder t)) k (b, chain) /\ br_key b <= ke
                   /\ (ke = HAMMER2_KEY_MAX -> chain <> None -> kn = key_after b)
           | None => chain = None
                 /\ forall x, x ∈ view (live bs) (rb_inorder t) -> range_last x.1 < k \/ ke < br_key x.1
           end).
    { intros Hle. replace (ke <? br_key (ch_bref ch)) with false by lia.
      eexists _, _, _, c. split; [reflexivity|]. split; [|split; [exact H3|]].
      - apply (chosen_chain ch k ke); try assumption. intros d Hd Hdk. specialize (Hmin d Hd Hdk). lia.
      - intros Em _. rewrite Hnext0 by exact Em. apply (next_after_chain ch b k); assumption. }
    destruct ((br_key (ch_bref ch) <=? k) && (br_key b <=? k) || (br_key (ch_bref ch) =? br_key b)) eqn:Es.
    + assert (Ek : br_key (ch_bref ch) = br_key b).
      { apply orb_true_iff in Es as [Es|Es%Z.eqb_eq]; [|exact Es].
        apply andb_true_iff in Es as [?%Z.leb_le ?%Z.leb_le]. auto. }
      replace (br_key (ch_bref ch) =? br_key b) with true by lia. cbn [kassert obind]. apply Hchain. lia.
    + apply orb_false_iff in Es as [_ Es%Z.eqb_neq].
      destruct (Z.ltb_spec (br_key (ch_bref ch)) (br_key b)) as [Hl|Hl]; [apply Hchain; lia|].
      replace (ke <? br_key b) with false by lia. eexists _, _, _, c. split; [reflexivity|].
      split; [|split; [lia|congruence]]. apply (chosen_entry b k ke); try assumption; [lia|].
      intros d Hd. destruct (H4 d Hd); [auto|right; lia].
  - set (b := aget bs i) in *. destruct (Z.ltb_spec ke (br_key b)) as [Hl|Hl].
    + eexists _, _, _, c. split; [reflexivity|]. split; [reflexivity|].
      intros x Hx. destruct (Hview x Hx) as [Hb|(d & Hd & ->)]; [|apply Hfc, Hd].
      destruct (Z.lt_ge_cases (range_last x.1) k) as [?|Hxk]; [auto|].
      specialize (Hmin x.1 Hb Hxk). lia.
    + eexists _, _, _, c. split; [reflexivity|]. split; [|split; [exact Hl|congruence]].
      apply (chosen_entry b k ke); try assumption. intros d Hd. destruct (Hfc d Hd); [auto|right; lia].
Qed.
End combined.

(** ** The contract of the lookup *)

Lemma sorted_pair {A} (R : A -> A -> Prop) l x y :
  StronglySorted R l -> x ∈ l -> y ∈ l -> x <> y -> R x y \/ R y x.
Proof.
  induction l as [|a l IH]; intros Hs Hx Hy Hne; [apply elem_of_nil in Hx as []|].
  apply StronglySorted_inv in Hs as [Hs Hf]. rewrite Forall_forall in Hf.
  apply elem_of_cons in Hx as [->|Hx]; apply elem_of_cons in Hy as [->|Hy]; auto; contradiction.
Qed.

(** [d] is one of the children: a table entry or an in-memory chain. *)
Definition child (bs : list blockref) (t : rbtree) (d : blockref) : Prop :=
  d ∈ live bs \/ exists c, c ∈ rb_inorder t /\ d = ch_bref c.

(** C7. The combined lookup returns the child nearest to [key_beg] from either
    source, whatever the search hint and the shape of the tree, and nothing when
    no child meets [key_beg, key_end].  An in-memory chain takes precedence over
    the table entry of the same key, and the lookup never panics. *)
Theorem combined_find_nearest co bs count t key_beg key_end :
  table_ok co bs count -> chains_ok (rb_inorder t) -> coherent (live bs) (rb_inorder t) ->
  0 <= key_beg <= key_end -> key_end < 2 ^ 64 ->
  exists chain bref key_next c,
    hammer2_combined_find co t (Some bs) count key_beg key_end
      = Done (chain, bref, key_next, set_cache_index c co)
    /\ match bref with
       | None => chain = None
                 /\ forall d, child bs t d -> range_last d < key_beg \/ key_end < br_key d
       | Some b =>
           match chain with
           | Some ch => ch ∈ rb_inorder t /\ b = ch_bref ch
           | None => b ∈ live bs /\ forall ch, ch ∈ rb_inorder t -> br_key (ch_bref ch) <> br_key b
           end
           /\ key_beg <= range_last b /\ br_key b <= key_end
           /\ forall d, child bs t d -> range_last d < key_beg \/ br_key b <= br_key d
       end.
Proof.
  intros Htab Hcs Hco Hk Hke.
  destruct (combined_find_spec co bs count t Htab Hcs Hco key_beg key_end Hk Hke)
    as (chain & bref & kn & c & Hrun & Hres).
  exists chain, bref, kn, c. split; [exact Hrun|].
  pose proof (table_entries co bs count Htab) as Hent.
  destruct (view_sorted _ _ Hent Hcs Hco) as [Hs Hkeys]. rewrite Forall_forall in Hkeys.
  (* every child is in the view, itself or as the chain that hides it *)
  assert (Hchild : forall d, child bs t d -> exists x, x ∈ view (live bs) (rb_inorder t)
             /\ br_key x.1 = br_key d /\ range_last x.1 = range_last d).
  { intros d [Hd|(ch & Hch & ->)]; [|eexists; split; [apply view_chain, Hch|auto]].
    destruct (decide (Exists (fun ch => br_key (ch_bref ch) = br_key d) (rb_inorder t))) as [Hex|Hno].
    - apply Exists_exists in Hex as (ch & Hch & E). eexists. split; [apply view_chain, Hch|]. cbn.
      split; [exact E|]. destruct Hent as [Hek _]. destruct Hcs as [Hck _].
      rewrite Forall_forall in Hek. rewrite Forall_forall in Hck. specialize (Hek d Hd). specialize (Hck ch Hch). cbn in *.
      pose proof (key_last_range _ Hek). pose proof (key_last_range _ Hck).
      destruct (Hco d ch Hd Hch) as [[?|?]|[E1 E2]]; unfold before in *; [lia|lia|].
      unfold range_last. rewrite E1, E2. reflexivity.
    - exists (d, None). split; [|auto]. apply view_entry; [exact Hent|exact Hd|].
      intros ch Hch E. apply Hno, Exists_exists. eauto. }
  destruct bref as [b|].
  - destruct Hres as ((Hin & Hkb & Hmin) & Hmax & _). cbn [fst] in *.
    split; [|split; [exact Hkb|split; [exact Hmax|]]].
    + destruct (elem_of_view _ _ _ Hin) as [[Hb Enone]|(ch & Hch & [= -> ->])]; [|auto].
      cbn in Hb, Enone. subst chain.
      split; [exact Hb|]. intros ch Hch E. apply (view_chain (live bs)) in Hch.
      cbn [fst] in *. pose proof (Hkeys _ Hin) as Hbk. pose proof (Hkeys _ Hch) as Hck. cbn in Hbk, Hck.
      pose proof (key_last_range _ Hbk). pose proof (key_last_range _ Hck).
      assert (Hne : (b, None) <> (ch_bref ch, Some ch)) by congruence.
      destruct (sorted_pair view_before _ (b, None) (ch_bref ch, Some ch) Hs Hin Hch Hne); unfold view_before, before in *; cbn in *; lia.
    + intros d Hd. destruct (Hchild d Hd) as (x & Hx & E1 & E2). rewrite <- E1, <- E2. apply Hmin, Hx.
  - destruct Hres as [-> Hnone]. split; [reflexivity|]. intros d Hd.
    destruct (Hchild d Hd) as (x & Hx & E1 & E2). rewrite <- E1, <- E2. apply Hnone, Hx.
Qed.

(** The demo table with the chain of its second entry in memory. *)
Definition tree_demo : rbtree :=
  RBNode RBLeaf (Chain (bref_at 1 98304 10 10) false true false false) RBLeaf.

Lemma tree_demo_ok : chains_ok (rb_inorder tree_demo) /\ coherent (live table_demo) (rb_inorder tree_demo).
Proof.
  split; [constructor|].
  - apply Forall_cons_2; [split; cbn; lia|apply Forall_nil_2].
  - repeat constructor.
  - intros b c Hb Hc. apply list_elem_of_singleton in Hc as ->. cbn in Hb.
    unfold apart, before, range_last. cbn [ch_bref].
    repeat (apply elem_of_cons in Hb as [->|Hb]; [cbn; lia|]). apply elem_of_nil in Hb as [].
Qed.

Lemma combined_find_nearest_witness :
  exists chain bref key_next c,
    hammer2_combined_find (core_demo 0) tree_demo (Some table_demo) 4 70000 200000
      = Done (chain, bref, key_next, set_cache_index c (core_demo 0))
    /\ match bref with
       | None => chain = None
                 /\ forall d, child table_demo tree_demo d -> range_last d < 70000 \/ 200000 < br_key d
       | Some b =>
           match chain with
           | Some ch => ch ∈ rb_inorder tree_demo /\ b = ch_bref ch
           | None => b ∈ live table_demo
                     /\ forall ch, ch ∈ rb_inorder tree_demo -> br_key (ch_bref ch) <> br_key b
           end
           /\ 70000 <= range_last b /\ br_key b <= 200000
           /\ forall d, child table_demo tree_demo d -> range_last d < 70000 \/ br_key b <= br_key d
       end.
Proof. apply combined_find_nearest; [apply table_demo_ok|apply tree_demo_ok|apply tree_demo_ok|lia|lia]. Defined.
