(* ===== verification/IndkeyProof.v ===== *)
(** The key range of a new indirect block: the shared scan visits every live
    child once in key order and terminates; the freemap and file variants pick
    the smallest children; the directory variant picks the fuller half. *)

From Stdlib Require Import ZArith Lia Bool Sorted.
From stdpp Require Import base numbers list option sorting.
From S2P Require Import Prelude Disk BlockTable BlockTableProof BlockTableSpec ChainFind ChainFindProof.

(** * The scan *)

Definition is_deleted (x : blockref * option mchain) : bool :=
  match x.2 with Some c => ch_deleted c | None => false end.

Fixpoint fold_live {S} (step : S -> blockref -> outcome S)
    (v : list (blockref * option mchain)) (s : S) : outcome S :=
  match v with
  | [] => Done s
  | x :: v => if is_deleted x then fold_live step v s
              else let! s := step s x.1 in fold_live step v s
  end.

(** The blockrefs of the children that are not deleted. *)
Fixpoint children (v : list (blockref * option mchain)) : list blockref :=
  match v with
  | [] => []
  | x :: v => if is_deleted x then children v else x.1 :: children v
  end.

(** A step that cannot fail. *)
Lemma fold_live_total {S} (step : S -> blockref -> outcome S) (f : S -> blockref -> S)
    (P : S -> list blockref -> Prop) v s l0 :
  (forall s b l, P s l -> b ∈ children v -> step s b = Done (f s b) /\ P (f s b) (l ++ [b])) ->
  P s l0 ->
  exists s', fold_live step v s = Done s' /\ P s' (l0 ++ children v).
Proof.
  revert s l0. induction v as [|x v IH]; intros s l0 Hstep HP; cbn [fold_live children].
  - exists s. rewrite app_nil_r. auto.
  - cbn [children] in Hstep. destruct (is_deleted x).
    + apply IH; assumption.
    + destruct (Hstep s x.1 l0 HP ltac:(left)) as [-> HP']. cbn [obind].
      destruct (IH (f s x.1) (l0 ++ [x.1])) as (s' & Hrun & HP'').
      * intros t b l Ht Hb. apply Hstep; [exact Ht|right; exact Hb].
      * exact HP'.
      * exists s'. rewrite <- app_assoc in HP''. auto.
Qed.

Section scan.
Context {S : Type} (step : S -> blockref -> outcome S).
Context (bs : list blockref) (count : Z) (t : rbtree).
Hypothesis Hcs : chains_ok (rb_inorder t).
Hypothesis Hco : coherent (live bs) (rb_inorder t).

Let V := view (live bs) (rb_inorder t).

(** The first element of a suffix of the view. *)
Lemma first_is_head v1 x v2 k y :
  StronglySorted view_before V -> Forall (fun x => key_ok x.1) V ->
  V = v1 ++ x :: v2 -> (forall z, z ∈ v1 -> range_last z.1 < k) ->
  (forall z, z ∈ x :: v2 -> k <= range_last z.1) ->
  first_in_view V k y -> y = x.
Proof.
  intros Hs Hk E H1 H2 (Hy & Hyk & Hmin). rewrite E in Hs, Hy, Hk.
  apply elem_of_app in Hy as [Hy|Hy]; [specialize (H1 y Hy); lia|].
  apply elem_of_cons in Hy as [->|Hy]; [reflexivity|].
  apply StronglySorted_app_1_r, StronglySorted_inv in Hs as [_ Hs]. rewrite Forall_forall in Hs.
  specialize (Hs y Hy). unfold view_before, before in Hs.
  apply Forall_app in Hk as [_ Hk]. apply Forall_cons_1 in Hk as [Hk _]. pose proof (key_last_range _ Hk).
  destruct (Hmin x) as [Hm|Hm]; [rewrite E; apply elem_of_app; right; left| |lia].
  specialize (H2 x ltac:(left)). lia.
Qed.

Lemma indkey_scan_spec fuel co k (s : S) v1 v2 :
  table_ok co bs count -> V = v1 ++ v2 ->
  (forall x, x ∈ v1 -> range_last x.1 < k) -> (forall x, x ∈ v2 -> k <= range_last x.1) ->
  0 <= k < 2 ^ 64 -> (length v2 < fuel)%nat ->
  match fold_live step v2 s with
  | Done s' => exists c, indkey_scan step t (Some bs) count fuel co k s = Done (s', set_cache_index c co)
  | Panic => indkey_scan step t (Some bs) count fuel co k s = Panic
  end.
Proof.
  intros Htab. assert (Hent : entries_ok (live bs)) by (eapply table_entries, Htab).
  destruct (view_sorted _ _ Hent Hcs Hco) as [Hs Hk]. fold V in Hs, Hk.
  revert co k s v1 v2 Htab.
  induction fuel as [|fuel IH]; intros co k s v1 v2 Htab E H1 H2 Hkr Hlen; [lia|].
  cbn [indkey_scan].
  destruct (combined_find_spec co bs count t Htab Hcs Hco k HAMMER2_KEY_MAX ltac:(lia) ltac:(lia))
    as (chain & bref & kn & c & Hrun & Hres). fold V in Hres. rewrite Hrun. cbn [obind].
  assert (Hok' : forall c, table_ok (set_cache_index c co) bs count)
    by (intros; destruct Htab; constructor; assumption).
  destruct bref as [b|].
  - destruct Hres as (Hfirst & Hmax & Hnext). destruct v2 as [|x v2].
    { destruct Hfirst as (Hin & Hbk & _). rewrite E, app_nil_r in Hin. specialize (H1 _ Hin). lia. }
    pose proof (first_is_head v1 x v2 k _ Hs Hk E H1 H2 Hfirst) as <-. cbn [fold_live length] in *.
    rewrite E in Hs, Hk. apply Forall_app in Hk as [_ Hk']. apply Forall_cons_1 in Hk' as [Hbk Hk'].
    cbn in Hbk. pose proof (key_last_range b Hbk) as [_ Hbr].
    apply StronglySorted_app in Hs as (Hs1 & _ & Hs2). apply StronglySorted_inv in Hs2 as [_ Hs2].
    rewrite Forall_forall in Hs2, Hk'.
    assert (Hk0 : 0 <= br_key b) by apply Hbk.
    (* continuing after [b] *)
    assert (Hcont : forall s' co', table_ok co' bs count -> range_last b <> 2 ^ 64 - 1 ->
              match fold_live step v2 s' with
              | Done s'' => exists c, indkey_scan step t (Some bs) count fuel co' (range_last b + 1) s'
                                      = Done (s'', set_cache_index c co')
              | Panic => indkey_scan step t (Some bs) count fuel co' (range_last b + 1) s' = Panic
              end).
    { intros s' co' Hco' Hne. apply (IH co' _ s' (v1 ++ [(b, chain)]) v2 Hco'); try lia.
      - rewrite E, <- app_assoc. reflexivity.
      - intros z [Hz|Hz]%elem_of_app; [specialize (H1 z Hz); specialize (Hs1 z (b, chain) Hz ltac:(left));
          unfold view_before, before in Hs1; cbn in Hs1; lia|].
        apply list_elem_of_singleton in Hz as ->. cbn. lia.
      - intros z Hz. specialize (Hs2 z Hz). unfold view_before, before in Hs2. cbn in Hs2.
        pose proof (key_last_range _ (Hk' z Hz)). lia. }
    (* nothing is left after the last key *)
    assert (Hstop : range_last b = 2 ^ 64 - 1 -> v2 = []).
    { intros El. destruct v2 as [|z v2]; [reflexivity|]. specialize (Hs2 z ltac:(left)).
      unfold view_before, before in Hs2. cbn in Hs2. pose proof (key_last_range _ (Hk' z ltac:(left))). lia. }
    assert (Hset : forall c d, set_cache_index c (set_cache_index d co) = set_cache_index c co) by reflexivity.
    pose proof (key_after_range b Hbk) as Hafter.
    replace (match chain with Some c0 => ch_deleted c0 | None => false end)
      with (is_deleted (b, chain)) by (destruct chain; reflexivity).
    destruct (is_deleted (b, chain)) eqn:Hd.
    + assert (Hkn : kn = key_after b) by (apply Hnext; [reflexivity|intros ->; discriminate Hd]).
      rewrite Hkn, Hafter. destruct (Z.eqb_spec (range_last b) (2 ^ 64 - 1)) as [El|El].
      * rewrite (Hstop El). cbn [fold_live]. exists c. reflexivity.
      * replace (range_last b + 1 =? 0) with false by lia.
        replace (HAMMER2_KEY_MAX <? range_last b + 1) with false by lia. cbn [orb].
        specialize (Hcont s (set_cache_index c co) (Hok' c) El).
        destruct (fold_live step v2 s); [|exact Hcont]. destruct Hcont as [c' Hc']. exists c'. exact Hc'.
    + destruct (step s b) as [s'|] eqn:Hst; [|cbn [fst]; rewrite Hst; reflexivity].
      cbn [fst]. rewrite Hst. cbn [obind].
      rewrite Hafter. destruct (Z.eqb_spec (range_last b) (2 ^ 64 - 1)) as [El|El].
      * rewrite (Hstop El). cbn [fold_live]. exists c. reflexivity.
      * replace (range_last b + 1 =? 0) with false by lia.
        specialize (Hcont s' (set_cache_index c co) (Hok' c) El).
        destruct (fold_live step v2 s'); [|exact Hcont]. destruct Hcont as [c' Hc']. exists c'. exact Hc'.
  - destruct Hres as [-> Hnone]. destruct v2 as [|x v2]; [cbn [fold_live]; exists c; reflexivity|].
    exfalso. rewrite E in Hk. apply Forall_app in Hk as [_ Hk]. apply Forall_cons_1 in Hk as [Hxk _].
    pose proof (key_last_range _ Hxk). specialize (H2 x ltac:(left)).
    destruct (Hnone x); [rewrite E; apply elem_of_app; right; left| |]; lia.
Qed.

(** The whole scan. *)
Lemma indkey_scan_all co (s s' : S) :
  table_ok co bs count -> (length V < indkey_loops)%nat -> fold_live step V s = Done s' ->
  exists c, indkey_scan step t (Some bs) count indkey_loops co 0 s = Done (s', set_cache_index c co).
Proof.
  intros Htab Hlen Hf. pose proof (indkey_scan_spec indkey_loops co 0 s [] V Htab eq_refl) as H.
  rewrite Hf in H. apply H; [| |lia|exact Hlen].
  - intros x Hx. apply elem_of_nil in Hx as [].
  - intros x Hx. destruct (view_sorted (live bs) (rb_inorder t)) as [_ Hk];
      [eapply table_entries, Htab|exact Hcs|exact Hco|].
    rewrite Forall_forall in Hk. pose proof (key_last_range _ (Hk x Hx)). destruct (Hk x Hx). lia.
Qed.
End scan.

(** * The smallest child *)

Definition smallest_f (s : Z * Z) (b : blockref) : Z * Z :=
  if br_keybits b <? s.2 then (br_key b, br_keybits b)
  else if (s.2 =? br_keybits b) && (br_key b <? s.1) then (br_key b, s.2)
  else s.

(** Among [l], [b] has the fewest key bits and the lowest key of that size. *)
Definition smallest_of (l : list blockref) (b : blockref) : Prop :=
  b ∈ l /\ forall d, d ∈ l ->
    br_keybits b < br_keybits d \/ (br_keybits b = br_keybits d /\ br_key b <= br_key d).

Lemma smallest_fold v key :
  (forall b, b ∈ children v -> br_keybits b <= 63) ->
  exists s, fold_live smallest_step v (key, 64) = Done s
    /\ ((children v = [] /\ s = (key, 64))
        \/ exists b, smallest_of (children v) b /\ s = (br_key b, br_keybits b)).
Proof.
  intros Hb. set (P := fun (s : Z * Z) (l : list blockref) =>
    (l = [] /\ s = (key, 64)) \/ exists b, smallest_of l b /\ s = (br_key b, br_keybits b)).
  apply (fold_live_total smallest_step smallest_f P v (key, 64) []).
  2: { left. auto. }
  intros s b l HP Hin. specialize (Hb b Hin).
  assert (Hstep : smallest_step s b = Done (smallest_f s b)).
  { destruct s as [k n]. unfold smallest_step, smallest_f. cbn [fst snd]. repeat case_match; reflexivity. }
  split; [exact Hstep|]. right. unfold smallest_f. destruct HP as [[-> ->]|(c & [Hc Hmin] & ->)]; cbn [fst snd].
  - replace (br_keybits b <? 64) with true by lia. exists b. split; [|reflexivity].
    split; [left|]. intros d ->%list_elem_of_singleton. right. lia.
  - destruct (Z.ltb_spec (br_keybits b) (br_keybits c)) as [H|H].
    + exists b. split; [|reflexivity]. split; [apply elem_of_app; right; left|].
      intros d [Hd| ->%list_elem_of_singleton]%elem_of_app; [|right; lia].
      destruct (Hmin d Hd); left; lia.
    + destruct ((br_keybits c =? br_keybits b) && (br_key b <? br_key c)) eqn:E.
      * apply andb_true_iff in E as [E1%Z.eqb_eq E2%Z.ltb_lt]. exists b. split; [|rewrite E1; reflexivity].
        split; [apply elem_of_app; right; left|].
        intros d [Hd| ->%list_elem_of_singleton]%elem_of_app; [|right; lia].
        destruct (Hmin d Hd); lia.
      * exists c. split; [|reflexivity]. split; [apply elem_of_app; left; exact Hc|].
        intros d [Hd| ->%list_elem_of_singleton]%elem_of_app; [apply Hmin, Hd|].
        apply andb_false_iff in E as [E%Z.eqb_neq|E%Z.ltb_ge]; lia.
Qed.

(** The next level of the freemap tree. *)
Definition next_level (keybits : Z) : option Z :=
  match keybits with
  | 22 => Some 30 | 30 => Some 38 | 38 => Some 46 | 46 => Some 54 | 54 => Some 62 | _ => None
  end.

(** * Halving a directory *)

(** [key] and [b] agree on every bit from [n] up. *)
Definition agree (key n : Z) (b : blockref) : Prop :=
  forall i, n <= i -> Z.testbit key i = Z.testbit (br_key b) i.

Lemma agree_weaken key n m b : agree key n b -> n <= m -> agree key m b.
Proof. intros H Hm i Hi. apply H. lia. Qed.

Lemma pow2_mask n : 0 <= n < 64 -> u64 (1 .<< n) - 1 = Z.ones n /\ u64 (1 .<< n) = 2 ^ n.
Proof.
  intros Hn. rewrite Z.shiftl_1_l, u64_small, Z.ones_equiv; [lia|].
  split; [apply Z.pow_nonneg; lia|apply Z.pow_lt_mono_r; lia].
Qed.

Lemma rounddown_zero x n :
  0 <= n < 64 -> rounddown_bits x n = 0 <-> forall i, n <= i -> Z.testbit x i = false.
Proof.
  intros Hn. unfold rounddown_bits. rewrite (proj1 (pow2_mask n Hn)). split.
  - intros E i Hi. apply (f_equal (fun z => Z.testbit z i)) in E.
    rewrite Z.ldiff_spec, Z.testbit_0_l, Z.testbit_ones_nonneg in E by lia.
    replace (i <? n) with false in E by lia. rewrite andb_true_r in E. exact E.
  - intros H. apply Z.bits_inj'. intros i Hi. rewrite Z.ldiff_spec, Z.testbit_0_l.
    rewrite Z.testbit_ones_nonneg by lia. destruct (Z.ltb_spec i n); [apply andb_false_r|].
    rewrite H by lia. reflexivity.
Qed.

Lemma xor_agree key n b :
  (forall i, n <= i -> Z.testbit (key .^ br_key b) i = false) <-> agree key n b.
Proof.
  split; intros H i Hi; specialize (H i Hi); rewrite Z.lxor_spec in *;
    destruct (Z.testbit key i), (Z.testbit (br_key b) i); cbn in *; congruence.
Qed.

Lemma tst_bit x n : 0 <= n < 64 -> tst x (u64 (1 .<< n)) = Z.testbit x n.
Proof.
  intros Hn. rewrite (proj2 (pow2_mask n Hn)). unfold tst.
  destruct (Z.testbit x n) eqn:E.
  - apply negb_true_iff, Z.eqb_neq. intros H. apply (f_equal (fun z => Z.testbit z n)) in H.
    rewrite Z.land_spec, E, Z.pow2_bits_true, Z.testbit_0_l in H by lia. discriminate.
  - apply negb_false_iff, Z.eqb_eq, Z.bits_inj'. intros i Hi. rewrite Z.land_spec, Z.testbit_0_l.
    destruct (Z.eq_dec i n) as [->|]; [rewrite E; reflexivity|].
    rewrite Z.pow2_bits_false by lia. apply andb_false_r.
Qed.

Lemma widen_spec key b fuel n :
  0 <= n <= 64 -> 64 - n <= Z.of_nat fuel -> 0 <= key < 2 ^ 64 -> 0 <= br_key b < 2 ^ 64 ->
  let m := widen fuel (key .^ br_key b) n in n <= m <= 64 /\ agree key m b.
Proof.
  intros Hn Hf Hk Hb. revert n Hn Hf.
  assert (H64 : agree key 64 b).
  { intros i Hi. rewrite !testbit_high with (n := 64); auto; lia. }
  induction fuel as [|fuel IH]; intros n Hn Hf; cbn [widen].
  - replace n with 64 by lia. split; [lia|exact H64].
  - destruct (Z.ltb_spec n 64) as [Hlt|Hge]; cbn [andb].
    2: { replace n with 64 by lia. split; [lia|exact H64]. }
    destruct (Z.eqb_spec (rounddown_bits (key .^ br_key b) n) 0) as [E|E]; cbn [negb].
    + split; [lia|]. apply xor_agree, rounddown_zero; [lia|exact E].
    + specialize (IH (n + 1) ltac:(lia) ltac:(lia)). cbv zeta in IH. split; [lia|apply IH].
Qed.

(** How many of [l] have bit [n] set, and how many do not. *)
Fixpoint highs (n : Z) (l : list blockref) : Z :=
  match l with
  | [] => 0
  | b :: l => (if Z.testbit (br_key b) n then 1 else 0) + highs n l
  end.
Definition lows (n : Z) (l : list blockref) : Z := Z.of_nat (length l) - highs n l.

Lemma highs_app n l1 l2 : highs n (l1 ++ l2) = highs n l1 + highs n l2.
Proof. induction l1 as [|b l1 IH]; cbn; [reflexivity|]. rewrite IH. lia. Qed.

Lemma highs_snoc n l b : highs n (l ++ [b]) = highs n l + (if Z.testbit (br_key b) n then 1 else 0).
Proof. rewrite highs_app. cbn [highs]. lia. Qed.
Lemma lows_snoc n l b : lows n (l ++ [b]) = lows n l + (if Z.testbit (br_key b) n then 0 else 1).
Proof. unfold lows. rewrite highs_snoc, length_app. cbn [length]. destruct (Z.testbit _ _); lia. Qed.

Lemma highs_range n l : 0 <= highs n l <= Z.of_nat (length l).
Proof. induction l as [|b l IH]; cbn [highs length]; [lia|]. destruct (Z.testbit _ _); lia. Qed.

(** All on the side of [key]. *)
Lemma highs_agree key n l :
  (forall b, b ∈ l -> agree key n b) ->
  highs n l = if Z.testbit key n then Z.of_nat (length l) else 0.
Proof.
  induction l as [|b l IH]; intros H; cbn [highs length]; [destruct (Z.testbit key n); reflexivity|].
  rewrite IH by (intros c Hc; apply H; right; exact Hc).
  rewrite <- (H b ltac:(left) n ltac:(lia)). destruct (Z.testbit key n); lia.
Qed.

Lemma collapse_spec key n l lo hi :
  0 <= n < 64 -> (forall b, b ∈ l -> agree key n b) -> lo + hi = Z.of_nat (length l) ->
  collapse key n lo hi = (lows n l, highs n l).
Proof.
  intros Hn Ha Hlen. unfold collapse, lows. rewrite tst_bit by exact Hn. rewrite (highs_agree key n l Ha).
  destruct (Z.testbit key n); f_equal; lia.
Qed.

(** The scan state after the children [l]: they fit the range of [keybits] bits
    around [key], and are counted by the top bit of that range. *)
Definition dir_inv (key keybits0 : Z) (s : Z * Z * Z) (l : list blockref) : Prop :=
  let '(keybits, lo, hi) := s in
  keybits0 <= keybits <= 64 /\ (l <> [] -> 1 <= keybits)
  /\ (forall b, b ∈ l -> agree key keybits b)
  /\ lo = lows (keybits - 1) l /\ hi = highs (keybits - 1) l.

(** The key being created is outside the range of [b]. *)
Definition outside (key : Z) (b : blockref) : Prop := ~ agree key (br_keybits b) b.

Definition dir_f (key : Z) (s : Z * Z * Z) (b : blockref) : Z * Z * Z :=
  match dir_step key s b with Done s => s | Panic => s end.

Lemma dir_step_spec key keybits0 s l b :
  0 <= keybits0 -> 0 <= key < 2 ^ 64 -> key_ok b -> outside key b -> dir_inv key keybits0 s l ->
  dir_step key s b = Done (dir_f key s b) /\ dir_inv key keybits0 (dir_f key s b) (l ++ [b]).
Proof.
  intros Hk0 Hkey Hok Hout. destruct s as [[kb lo] hi]. intros (Hkb & Hkb1 & Hag & -> & ->).
  assert (Hbkey : 0 <= br_key b < 2 ^ 64) by (pose proof (key_last_range b Hok); destruct Hok; lia).
  set (n0 := Z.max kb (br_keybits b)).
  assert (Hn0 : (if kb <? br_keybits b then if 64 <? br_keybits b then Panic else Done (br_keybits b)
                 else Done kb) = Done n0).
  { destruct Hok as [Hb _]. unfold n0. destruct (Z.ltb_spec kb (br_keybits b)).
    - replace (64 <? br_keybits b) with false by lia. f_equal. lia.
    - f_equal. lia. }
  pose proof (widen_spec key b 64 n0 ltac:(destruct Hok; unfold n0; lia)
                ltac:(destruct Hok; unfold n0; lia) Hkey Hbkey) as [Hn Hagb]. cbv zeta in *.
  set (n := widen 64 (key .^ br_key b) n0) in *.
  assert (Hn1 : 1 <= n).
  { destruct (Z.eq_dec n 0) as [E|]; [|lia]. exfalso. apply Hout. apply (agree_weaken key n); [exact Hagb|].
    destruct Hok. lia. }
  (* the counts, moved to the new top bit *)
  assert (Hcol : (if negb (kb =? n) then collapse key (n - 1) (lows (kb - 1) l) (highs (kb - 1) l)
                  else (lows (kb - 1) l, highs (kb - 1) l)) = (lows (n - 1) l, highs (n - 1) l)).
  { destruct (Z.eqb_spec kb n) as [Ekb|Hne]; cbn [negb].
    { replace (kb - 1) with (n - 1) by lia. reflexivity. }
    apply collapse_spec; [lia| |].
    - intros c Hc. apply (agree_weaken key kb); [apply Hag, Hc|lia].
    - unfold lows. lia. }
  assert (Hrun : dir_step key (kb, lows (kb - 1) l, highs (kb - 1) l) b
                 = Done (n, lows (n - 1) (l ++ [b]), highs (n - 1) (l ++ [b]))).
  { unfold dir_step. rewrite Hn0. cbn [obind]. fold n. rewrite Hcol, tst_bit by lia.
    rewrite lows_snoc, highs_snoc.
    destruct (Z.testbit (br_key b) (n - 1)); rewrite ?Z.add_0_r; reflexivity. }
  unfold dir_f. rewrite Hrun. split; [reflexivity|]. split; [lia|]. split; [lia|].
  split; [|split; reflexivity].
  intros c [Hc| ->%list_elem_of_singleton]%elem_of_app; [|exact Hagb].
  apply (agree_weaken key kb); [apply Hag, Hc|lia].
Qed.

(** Growing the half until it holds [ncount] keys keeps the counts right. *)
Lemma dir_expand_spec key ncount l fuel n lo hi :
  0 <= n <= 63 -> (forall b, b ∈ l -> agree key (n + 1) b) -> ncount <= 2 ^ 62 ->
  lo = lows n l -> hi = highs n l -> 64 - n <= Z.of_nat fuel ->
  exists m, dir_expand fuel key ncount (n, lo, hi) = (m, lows m l, highs m l)
    /\ n <= m <= 63 /\ ncount <= 2 ^ m /\ (forall b, b ∈ l -> agree key (m + 1) b).
Proof.
  intros Hn Hag Hnc -> ->. revert n Hn Hag. induction fuel as [|fuel IH]; intros n Hn Hag Hf; [lia|].
  cbn [dir_expand]. rewrite (proj2 (pow2_mask n ltac:(lia))).
  destruct (Z.ltb_spec (2 ^ n) ncount) as [Hlt|Hge].
  - assert (Hn62 : n < 62) by (apply (Z.pow_lt_mono_r_iff 2); lia).
    rewrite (collapse_spec key (n + 1) l); [|lia|exact Hag|unfold lows; lia].
    destruct (IH (n + 1) ltac:(lia)) as (m & Hrun & Hm & Hpow & Hagm); [|lia|].
    + intros b Hb. apply (agree_weaken key (n + 1)); [apply Hag, Hb|lia].
    + exists m. rewrite Hrun. split; [reflexivity|]. split; [lia|]. auto.
  - exists n. auto with lia.
Qed.

(** [b] goes to the new indirect block at [key]/[n]: the test of
    [hammer2_chain_create_indirect] on the normalised key. *)
Definition moved (key n : Z) (b : blockref) : bool :=
  rounddown_bits ((key .&~ (u64 (1 .<< n) - 1)) .^ br_key b) n =? 0.

Lemma moved_spec key n b : 0 <= n < 64 -> moved key n b = true <-> agree key n b.
Proof.
  intros Hn. unfold moved. rewrite Z.eqb_eq, rounddown_zero by exact Hn.
  rewrite (proj1 (pow2_mask n Hn)), xor_agree. unfold agree.
  assert (Hbit : forall i, n <= i -> Z.testbit (key .&~ Z.ones n) i = Z.testbit key i).
  { intros i Hi. rewrite Z.ldiff_spec, Z.testbit_ones_nonneg by lia.
    replace (i <? n) with false by lia. apply andb_true_r. }
  split; intros H i Hi; specialize (H i Hi); rewrite ?Hbit in * by exact Hi; exact H.
Qed.

(** The key of the chosen half. *)
Definition half_key (key n : Z) (high : bool) : Z :=
  if high then key .| u64 (1 .<< n) else key .& u64 (18446744073709551614 .<< n).

Lemma half_key_bits key n high i :
  0 <= n < 64 -> 0 <= key < 2 ^ 64 -> n <= i ->
  Z.testbit (half_key key n high) i = if i =? n then high else Z.testbit key i.
Proof.
  intros Hn Hk Hi. unfold half_key. destruct high.
  - rewrite (proj2 (pow2_mask n Hn)), Z.lor_spec. destruct (Z.eqb_spec i n) as [->|].
    + rewrite Z.pow2_bits_true by lia. apply orb_true_r.
    + rewrite Z.pow2_bits_false by lia. apply orb_false_r.
  - rewrite Z.land_spec. change 18446744073709551614 with (Z.ones 63 .<< 1).
    rewrite Z.shiftl_shiftl by lia. unfold u64. destruct (Z.lt_ge_cases i 64) as [H|H].
    + rewrite Z.mod_pow2_bits_low, Z.shiftl_spec by lia.
      destruct (Z.eqb_spec i n) as [->|].
      * rewrite (Z.testbit_neg_r (Z.ones 63)) by lia. apply andb_false_r.
      * rewrite Z.testbit_ones_nonneg by lia. replace (i - (1 + n) <? 63) with true by lia.
        apply andb_true_r.
    + rewrite Z.mod_pow2_bits_high, andb_false_r by lia. rewrite (testbit_high key 64) by lia.
      destruct (i =? n); reflexivity.
Qed.

Lemma moved_half key n high b :
  0 <= n < 64 -> 0 <= key < 2 ^ 64 -> agree key (n + 1) b ->
  moved (half_key key n high) n b = Bool.eqb (Z.testbit (br_key b) n) high.
Proof.
  intros Hn Hk Ha. apply Bool.eq_iff_eq_true. rewrite moved_spec by exact Hn. unfold agree.
  rewrite Bool.eqb_true_iff. split.
  - intros H. specialize (H n ltac:(lia)). rewrite half_key_bits, Z.eqb_refl in H by lia. congruence.
  - intros E i Hi. rewrite half_key_bits by lia. destruct (Z.eqb_spec i n) as [->|]; [congruence|].
    apply Ha. lia.
Qed.

Lemma moved_count key n high l :
  0 <= n < 64 -> 0 <= key < 2 ^ 64 -> (forall b, b ∈ l -> agree key (n + 1) b) ->
  Z.of_nat (length (List.filter (moved (half_key key n high) n) l)) = if high then highs n l else lows n l.
Proof.
  intros Hn Hk. induction l as [|b l IH]; intros Ha; [destruct high; reflexivity|].
  specialize (IH ltac:(intros c Hc; apply Ha; right; exact Hc)). cbn [List.filter].
  rewrite moved_half by (try apply Ha; try left; assumption).
  unfold lows in *. cbn [highs length]. destruct (Z.testbit (br_key b) n), high; cbn [Bool.eqb length]; lia.
Qed.

Section indkey.
Context (co : core) (bs : list blockref) (count : Z) (t : rbtree).
Let V := view (live bs) (rb_inorder t).

(** A parent and its children, none of them reaching over 2^63 keys. *)
Record parent_ok : Prop := {
  po_table : table_ok co bs count;
  po_chains : chains_ok (rb_inorder t);
  po_coherent : coherent (live bs) (rb_inorder t);
  po_loops : (length V < indkey_loops)%nat;
  po_some : children V <> []
}.

Lemma child_ok b : parent_ok -> b ∈ children V -> key_ok b.
Proof.
  intros [Htab Hcs Hco _ _] Hb.
  destruct (view_sorted (live bs) (rb_inorder t)) as [_ Hk]; [eapply table_entries, Htab|assumption..|].
  fold V in Hk. rewrite Forall_forall in Hk. clear - Hk Hb.
  induction V as [|x v IH]; [apply elem_of_nil in Hb as []|]. cbn [children] in Hb.
  assert (Hk' : forall y, y ∈ v -> key_ok y.1) by (intros y Hy; apply Hk; right; exact Hy).
  destruct (is_deleted x); [auto|]. apply elem_of_cons in Hb as [->|Hb]; [apply Hk; left|auto].
Qed.

Lemma indkey_smallest key :
  parent_ok -> exists c b, smallest_of (children V) b
    /\ indkey_scan smallest_step t (Some bs) count indkey_loops co 0 (key, 64)
       = Done ((br_key b, br_keybits b), set_cache_index c co).
Proof.
  intros Hp. destruct (smallest_fold V key) as (s & Hf & Hs).
  { intros b Hb. destruct (child_ok b Hp Hb). lia. }
  destruct Hp as [Htab Hcs Hco Hl Hne].
  destruct (indkey_scan_all smallest_step bs count t Hcs Hco co (key, 64) s Htab Hl Hf) as (c & Hrun).
  destruct Hs as [[E _]|(b & Hb & ->)]; [contradiction|]. exists c, b. auto.
Qed.

(** The indirect block for a file block starts at the lowest of the smallest
    children and covers exactly [ncount] blocks of that size.  The number of
    key bits returned is not capped at 63, as the comment in the code says it
    is: with 128 slots every smallest child of more than 56 bits goes beyond. *)
Theorem indkey_file_range key ncount :
  parent_ok -> In ncount [HAMMER2_IND_COUNT_MIN; HAMMER2_IND_COUNT_NOM; HAMMER2_IND_COUNT_MAX] ->
  exists b bits c, smallest_of (children V) b
    /\ hammer2_chain_indkey_file co t (Some bs) count key ncount
       = Done (bits, br_key b, set_cache_index c co)
    /\ 2 ^ bits = ncount * 2 ^ br_keybits b
    /\ (ncount = HAMMER2_IND_COUNT_NOM -> 56 < br_keybits b -> 63 < bits).
Proof.
  intros Hp Hnc. destruct (indkey_smallest key Hp) as (c & b & Hb & Hrun).
  destruct (child_ok b Hp (proj1 Hb)) as [Hbits _].
  unfold hammer2_chain_indkey_file. rewrite Hrun. cbn [obind].
  assert (Hpow : forall n, 0 <= n -> 2 ^ (br_keybits b + n) = 2 ^ n * 2 ^ br_keybits b).
  { intros n Hn. rewrite Z.pow_add_r by lia. lia. }
  assert (Hgo : exists n, 0 <= n /\ 2 ^ n = ncount /\ (ncount = 128 -> n = 7)
            /\ (let! nradix := match ncount with
                  | HAMMER2_IND_COUNT_MIN => Done (12 - 7)
                  | HAMMER2_IND_COUNT_NOM => Done (14 - 7)
                  | HAMMER2_IND_COUNT_MAX => Done (16 - 7)
                  | _ => Panic
                  end in Done (if 64 <=? nradix then 63 else nradix)) = Done n).
  { destruct Hnc as [<-|[<-|[<-|[]]]]; [exists 5|exists 7|exists 9]; repeat split; lia. }
  destruct Hgo as (n & Hn & En & E128 & Hm). exists b, (br_keybits b + n), c.
  split; [exact Hb|]. apply obind_Done in Hm as (r & Hr & [= Hm]). rewrite Hr. cbn [obind].
  rewrite Hm. split; [reflexivity|]. split; [rewrite Hpow, En by exact Hn; reflexivity|].
  intros E Hk. rewrite (E128 E). lia.
Qed.

(** A freemap node goes one level above the lowest of the smallest children;
    children of any other size than a freemap level stop the program. *)
Theorem indkey_freemap_level key :
  parent_ok ->
  exists b, smallest_of (children V) b
    /\ match next_level (br_keybits b) with
       | Some bits => exists c, hammer2_chain_indkey_freemap co t (Some bs) count key
                                = Done (bits, br_key b, set_cache_index c co)
       | None => hammer2_chain_indkey_freemap co t (Some bs) count key = Panic
       end.
Proof.
  intros Hp. destruct (indkey_smallest key Hp) as (c & b & Hb & Hrun). exists b. split; [exact Hb|].
  unfold hammer2_chain_indkey_freemap. rewrite Hrun. cbn [obind]. unfold next_level.
  repeat case_match; simplify_eq; try reflexivity; exists c; reflexivity.
Qed.

(** The indirect block for a directory takes at least half of the children
    of the full table: its range has room for [ncount] keys, every child whose
    key lies in it fits, and these are no fewer than the others. *)
Theorem indkey_dir_splits key keybits ncount :
  parent_ok -> 0 <= key < 2 ^ 64 -> 0 <= keybits <= 64 -> ncount <= 2 ^ 62 ->
  (forall b, b ∈ children V -> outside key b) ->
  exists bits key' c,
    hammer2_chain_indkey_dir co t (Some bs) count key keybits ncount
      = Done (bits, key', set_cache_index c co)
    /\ 0 <= bits <= 63 /\ ncount <= 2 ^ bits
    /\ (forall b, In b (List.filter (moved key' bits) (children V)) -> br_keybits b <= bits)
    /\ (length (children V) <= 2 * length (List.filter (moved key' bits) (children V)))%nat.
Proof.
  intros Hp Hkey Hkb Hnc Hout.
  destruct (fold_live_total (dir_step key) (dir_f key) (dir_inv key keybits) V (keybits, 0, 0) [])
    as ([[kb lo] hi] & Hf & (Hkb1 & Hkb2 & Hag & -> & ->)).
  { intros s b l HP Hb. apply dir_step_spec; try assumption; [lia|apply (child_ok b Hp Hb)|apply Hout, Hb]. }
  { split; [lia|]. split; [congruence|]. split; [intros b Hb; apply elem_of_nil in Hb as []|auto]. }
  cbn [app] in *. destruct (Hp) as [Htab Hcs Hco Hl Hne]. specialize (Hkb2 Hne).
  destruct (indkey_scan_all (dir_step key) bs count t Hcs Hco co (keybits, 0, 0) _ Htab Hl Hf) as (c & Hrun).
  destruct (dir_expand_spec key ncount (children V) 64 (kb - 1) _ _ ltac:(lia)
              ltac:(replace (kb - 1 + 1) with kb by lia; exact Hag) Hnc eq_refl eq_refl ltac:(lia))
    as (m & Hexp & Hm & Hpow & Hagm).
  set (high := lows m (children V) <? highs m (children V)).
  exists m, (half_key key m high), c. unfold hammer2_chain_indkey_dir. rewrite Hrun. cbn [obind].
  rewrite Hexp. fold high. split; [unfold half_key; destruct high; reflexivity|].
  split; [lia|]. split; [exact Hpow|]. split.
  - intros b [Hb _]%List.filter_In. apply list_elem_of_In in Hb.
    destruct (Z.le_gt_cases (br_keybits b) m) as [?|Hgt]; [assumption|]. exfalso.
    apply (Hout b Hb). apply (agree_weaken key kb); [apply Hag, Hb|lia].
  - pose proof (moved_count key m high (children V) ltac:(lia) Hkey Hagm) as Hcnt.
    unfold high, lows in *. destruct (Z.ltb_spec (Z.of_nat (length (children V)) - highs m (children V))
                              (highs m (children V))); lia.
Qed.
End indkey.

(** ** Examples *)

Lemma parent_demo : parent_ok (core_demo 0) table_demo 4 tree_demo.
Proof.
  split; [apply table_demo_ok|apply tree_demo_ok|apply tree_demo_ok| |discriminate].
  change (3 < Z.to_nat 299999)%nat. lia.
Qed.

Lemma indkey_file_range_witness :
  exists b bits c, smallest_of (children (view (live table_demo) (rb_inorder tree_demo))) b
    /\ hammer2_chain_indkey_file (core_demo 0) tree_demo (Some table_demo) 4 262144 128
       = Done (bits, br_key b, set_cache_index c (core_demo 0))
    /\ 2 ^ bits = 128 * 2 ^ br_keybits b
    /\ (128 = HAMMER2_IND_COUNT_NOM -> 56 < br_keybits b -> 63 < bits).
Proof. apply indkey_file_range; [apply parent_demo|]. right. left. reflexivity. Defined.

Lemma indkey_freemap_level_witness :
  exists b, smallest_of (children (view (live table_demo) (rb_inorder tree_demo))) b
    /\ match next_level (br_keybits b) with
       | Some bits => exists c, hammer2_chain_indkey_freemap (core_demo 0) tree_demo (Some table_demo) 4 0
                                = Done (bits, br_key b, set_cache_index c (core_demo 0))
       | None => hammer2_chain_indkey_freemap (core_demo 0) tree_demo (Some table_demo) 4 0 = Panic
       end.
Proof. apply indkey_freemap_level, parent_demo. Defined.

Lemma indkey_dir_splits_witness :
  exists bits key' c,
    hammer2_chain_indkey_dir (core_demo 0) tree_demo (Some table_demo) 4 262144 0 32
      = Done (bits, key', set_cache_index c (core_demo 0))
    /\ 0 <= bits <= 63 /\ 32 <= 2 ^ bits
    /\ (forall b, In b (List.filter (moved key' bits)
                          (children (view (live table_demo) (rb_inorder tree_demo)))) ->
          br_keybits b <= bits)
    /\ (length (children (view (live table_demo) (rb_inorder tree_demo)))
         <= 2 * length (List.filter (moved key' bits)
                          (children (view (live table_demo) (rb_inorder tree_demo)))))%nat.
Proof.
  apply indkey_dir_splits; [apply parent_demo|lia|lia|lia|].
  intros b Hb. unfold outside, agree. intros H. cbn in Hb.
  repeat (apply elem_of_cons in Hb as [->|Hb]; [specialize (H 18 ltac:(cbn; lia)); discriminate H|]).
  apply elem_of_nil in Hb as [].
Defined.
