(* ===== verification/Xxh.v ===== *)
(** The 64-bit check code: XXH64 of hammer2_xxhash_windows.h on byte lists, and
    its agreement with a reference that consumes the input piece by piece. *)

From Stdlib Require Import ZArith Lia Bool Znumtheory.
From stdpp Require Import base numbers list option.
From S2P Require Import Prelude Crc.

Abbreviation XXH_PRIME64_1 := 11400714785074694791 (only parsing).  (* 0x9E3779B185EBCA87 *)
Abbreviation XXH_PRIME64_2 := 14029467366897019727 (only parsing).  (* 0xC2B2AE3D27D4EB4F *)
Abbreviation XXH_PRIME64_3 := 1609587929392839161 (only parsing).   (* 0x165667B19E3779F9 *)
Abbreviation XXH_PRIME64_4 := 9650029242287828579 (only parsing).   (* 0x85EBCA77C2B2AE63 *)
Abbreviation XXH_PRIME64_5 := 2870177450012600261 (only parsing).   (* 0x27D4EB2F165667C5 *)
Abbreviation XXH_HAMMER2_SEED := 5575865856374369390 (only parsing). (* 0x4d617474446c6c6e *)

Definition xxh_rotl64 (x r : Z) : Z := u64 (x .<< r) .| (x .>> (64 - r)).

(** Little-endian reads at [p]. *)
Definition xxh_read64 (buf : list Z) (p : Z) : Z := le_value (take 8 (drop (Z.to_nat p) buf)).
Definition xxh_read32 (buf : list Z) (p : Z) : Z := le_value (take 4 (drop (Z.to_nat p) buf)).

Definition xxh64_round (acc input : Z) : Z :=
  let acc := u64 (acc + input * XXH_PRIME64_2) in
  let acc := xxh_rotl64 acc 31 in
  u64 (acc * XXH_PRIME64_1).

Definition xxh64_merge_round (acc val : Z) : Z :=
  let val := xxh64_round 0 val in
  let acc := acc .^ val in
  u64 (acc * XXH_PRIME64_1 + XXH_PRIME64_4).

(** [do { ... } while (p <= limit)]; the state is (p, v1, v2, v3, v4). *)
Fixpoint xxh64_stripes (fuel : nat) (buf : list Z) (limit : Z) (st : Z * Z * Z * Z * Z)
  : outcome (Z * Z * Z * Z * Z) :=
  match fuel with
  | O => Panic
  | S fuel =>
      let '(p, v1, v2, v3, v4) := st in
      let v1 := xxh64_round v1 (xxh_read64 buf p) in
      let v2 := xxh64_round v2 (xxh_read64 buf (p + 8)) in
      let v3 := xxh64_round v3 (xxh_read64 buf (p + 16)) in
      let v4 := xxh64_round v4 (xxh_read64 buf (p + 24)) in
      let p := p + 32 in
      if p <=? limit then xxh64_stripes fuel buf limit (p, v1, v2, v3, v4)
      else Done (p, v1, v2, v3, v4)
  end.

(** One 8-byte word, one 4-byte word, one byte of the tail. *)
Definition xxh64_tail8 (h64 k : Z) : Z :=
  let h64 := h64 .^ xxh64_round 0 k in
  u64 (xxh_rotl64 h64 27 * XXH_PRIME64_1 + XXH_PRIME64_4).
Definition xxh64_tail4 (h64 k : Z) : Z :=
  let h64 := h64 .^ u64 (k * XXH_PRIME64_1) in
  u64 (xxh_rotl64 h64 23 * XXH_PRIME64_2 + XXH_PRIME64_3).
Definition xxh64_tail1 (h64 k : Z) : Z :=
  let h64 := h64 .^ u64 (k * XXH_PRIME64_5) in
  u64 (xxh_rotl64 h64 11 * XXH_PRIME64_1).

(** [while (p + 8 <= end) ...] and [while (p < end) ...]: return (p, h64). *)
Fixpoint xxh64_words (fuel : nat) (buf : list Z) (p h64 : Z) : outcome (Z * Z) :=
  match fuel with
  | O => Panic
  | S fuel =>
      if p + 8 <=? alen buf
      then xxh64_words fuel buf (p + 8) (xxh64_tail8 h64 (xxh_read64 buf p))
      else Done (p, h64)
  end.
Fixpoint xxh64_bytes (fuel : nat) (buf : list Z) (p h64 : Z) : outcome (Z * Z) :=
  match fuel with
  | O => Panic
  | S fuel =>
      if p <? alen buf
      then xxh64_bytes fuel buf (p + 1) (xxh64_tail1 h64 (aget buf p))
      else Done (p, h64)
  end.

Definition xxh64_avalanche (h64 : Z) : Z :=
  let h64 := h64 .^ (h64 .>> 33) in
  let h64 := u64 (h64 * XXH_PRIME64_2) in
  let h64 := h64 .^ (h64 .>> 29) in
  let h64 := u64 (h64 * XXH_PRIME64_3) in
  h64 .^ (h64 .>> 32).

Definition xxh64 (buf : list Z) (seed : Z) : outcome Z :=
  let len := alen buf in
  let! (p, h64) :=
    if 32 <=? len then
      let limit := len - 32 in
      let! (p, v1, v2, v3, v4) :=
        xxh64_stripes (S (length buf)) buf limit
          (0, u64 (seed + XXH_PRIME64_1 + XXH_PRIME64_2), u64 (seed + XXH_PRIME64_2), seed,
           u64 (seed - XXH_PRIME64_1)) in
      let h64 := u64 (xxh_rotl64 v1 1 + xxh_rotl64 v2 7 + xxh_rotl64 v3 12 + xxh_rotl64 v4 18) in
      Done (p, xxh64_merge_round (xxh64_merge_round (xxh64_merge_round
                 (xxh64_merge_round h64 v1) v2) v3) v4)
    else Done (0, u64 (seed + XXH_PRIME64_5)) in
  let h64 := u64 (h64 + u64 len) in
  let! (p, h64) := xxh64_words (S (length buf)) buf p h64 in
  let '(p, h64) :=
    if p + 4 <=? len then (p + 4, xxh64_tail4 h64 (xxh_read32 buf p)) else (p, h64) in
  let! (p, h64) := xxh64_bytes 4 buf p h64 in
  Done (xxh64_avalanche h64).

(** * The reference: consume the input in 32-, 8-, 4- and 1-byte pieces *)

Fixpoint ref_stripes (n : nat) (l : list Z) (v : Z * Z * Z * Z) : Z * Z * Z * Z :=
  match n with
  | O => v
  | S n =>
      let '(v1, v2, v3, v4) := v in
      ref_stripes n (drop 32 l)
        (xxh64_round v1 (le_value (take 8 l)), xxh64_round v2 (le_value (take 8 (drop 8 l))),
         xxh64_round v3 (le_value (take 8 (drop 16 l))),
         xxh64_round v4 (le_value (take 8 (drop 24 l))))
  end.

Fixpoint ref_words (n : nat) (l : list Z) (h64 : Z) : Z :=
  match n with
  | O => h64
  | S n => ref_words n (drop 8 l) (xxh64_tail8 h64 (le_value (take 8 l)))
  end.

(** The tail of fewer than 32 bytes. *)
Definition ref_tail (l : list Z) (h64 : Z) : Z :=
  let words := (length l / 8)%nat in
  let h64 := ref_words words l h64 in
  let l := drop (8 * words) l in
  if (4 <=? length l)%nat
  then foldl xxh64_tail1 (xxh64_tail4 h64 (le_value (take 4 l))) (drop 4 l)
  else foldl xxh64_tail1 h64 l.

Definition xxh64_ref (buf : list Z) (seed : Z) : Z :=
  let stripes := (length buf / 32)%nat in
  let h64 :=
    if (1 <=? stripes)%nat then
      let '(v1, v2, v3, v4) :=
        ref_stripes stripes buf
          (u64 (seed + XXH_PRIME64_1 + XXH_PRIME64_2), u64 (seed + XXH_PRIME64_2), seed,
           u64 (seed - XXH_PRIME64_1)) in
      let h64 := u64 (xxh_rotl64 v1 1 + xxh_rotl64 v2 7 + xxh_rotl64 v3 12 + xxh_rotl64 v4 18) in
      xxh64_merge_round (xxh64_merge_round (xxh64_merge_round (xxh64_merge_round h64 v1) v2) v3) v4
    else u64 (seed + XXH_PRIME64_5) in
  xxh64_avalanche (ref_tail (drop (32 * stripes) buf) (u64 (h64 + alen buf))).

(** * The loops *)

Lemma drop_to_nat (buf : list Z) p k :
  0 <= p -> drop k (drop (Z.to_nat p) buf) = drop (Z.to_nat (p + Z.of_nat k)) buf.
Proof. intros. rewrite drop_drop. f_equal. lia. Qed.

Lemma stripes_spec buf n : forall fuel p v1 v2 v3 v4,
  0 <= p -> (1 <= n <= fuel)%nat ->
  p + 32 * Z.of_nat n <= alen buf < p + 32 * Z.of_nat n + 32 ->
  xxh64_stripes fuel buf (alen buf - 32) (p, v1, v2, v3, v4)
  = let '(w1, w2, w3, w4) := ref_stripes n (drop (Z.to_nat p) buf) (v1, v2, v3, v4) in
    Done (p + 32 * Z.of_nat n, w1, w2, w3, w4).
Proof.
  induction n as [|n IH]; intros fuel p v1 v2 v3 v4 Hp Hn Hl; [lia|].
  destruct fuel as [|fuel]; [lia|]. cbn [xxh64_stripes ref_stripes]. unfold xxh_read64.
  rewrite !drop_to_nat by lia. change (Z.of_nat 32) with 32.
  change (Z.of_nat 8) with 8. change (Z.of_nat 16) with 16. change (Z.of_nat 24) with 24.
  destruct (Z.leb_spec (p + 32) (alen buf - 32)) as [H|H].
  - rewrite IH by lia. destruct (ref_stripes n _ _) as [[[w1 w2] w3] w4].
    replace (p + 32 + 32 * Z.of_nat n) with (p + 32 * Z.of_nat (S n)) by lia. reflexivity.
  - assert (n = O) as -> by lia. reflexivity.
Qed.

Lemma words_spec buf n : forall fuel p h,
  0 <= p -> (n < fuel)%nat -> p + 8 * Z.of_nat n <= alen buf < p + 8 * Z.of_nat n + 8 ->
  xxh64_words fuel buf p h = Done (p + 8 * Z.of_nat n, ref_words n (drop (Z.to_nat p) buf) h).
Proof.
  induction n as [|n IH]; intros fuel p h Hp Hn Hl; (destruct fuel as [|fuel]; [lia|]);
    cbn [xxh64_words ref_words].
  - replace (p + 8 <=? alen buf) with false by lia. rewrite Z.add_0_r. reflexivity.
  - replace (p + 8 <=? alen buf) with true by lia. rewrite IH by lia.
    rewrite drop_to_nat by lia. unfold xxh_read64.
    replace (p + 8 + 8 * Z.of_nat n) with (p + 8 * Z.of_nat (S n)) by lia. reflexivity.
Qed.

Lemma bytes_spec buf : forall fuel p h,
  0 <= p <= alen buf -> alen buf - p < Z.of_nat fuel ->
  xxh64_bytes fuel buf p h = Done (alen buf, foldl xxh64_tail1 h (drop (Z.to_nat p) buf)).
Proof.
  induction fuel as [|fuel IH]; intros p h Hp Hf; [lia|]. cbn [xxh64_bytes].
  destruct (Z.ltb_spec p (alen buf)) as [H|H].
  - rewrite IH by lia. unfold alen in *. rewrite (drop_S buf (aget buf p) (Z.to_nat p)).
    2: { apply list_lookup_lookup_total_lt. lia. }
    replace (Z.to_nat (p + 1)) with (S (Z.to_nat p)) by lia. reflexivity.
  - replace p with (alen buf) by lia. rewrite drop_ge by (unfold alen; lia). reflexivity.
Qed.

Lemma tail_spec buf p h :
  0 <= p <= alen buf ->
  (let! (p, h64) := xxh64_words (S (length buf)) buf p h in
   let '(p, h64) :=
     if p + 4 <=? alen buf then (p + 4, xxh64_tail4 h64 (xxh_read32 buf p)) else (p, h64) in
   let! (p, h64) := xxh64_bytes 4 buf p h64 in
   Done (xxh64_avalanche h64))
  = Done (xxh64_avalanche (ref_tail (drop (Z.to_nat p) buf) h)).
Proof.
  intros Hp. unfold ref_tail. set (l := drop (Z.to_nat p) buf). set (n := (length l / 8)%nat).
  assert (Hl : Z.of_nat (length l) = alen buf - p) by (unfold l, alen in *; rewrite length_drop; lia).
  assert (Hn : 8 * Z.of_nat n <= Z.of_nat (length l) < 8 * Z.of_nat n + 8).
  { unfold n. rewrite Nat2Z.inj_div. change (Z.of_nat 8) with 8. div_mod_lia. }
  rewrite (words_spec buf n) by (unfold alen in *; lia). cbn [obind]. fold l.
  assert (Hd : drop (8 * n) l = drop (Z.to_nat (p + 8 * Z.of_nat n)) buf).
  { unfold l. rewrite drop_drop. f_equal. lia. }
  rewrite Hd. set (q := p + 8 * Z.of_nat n) in *.
  assert (Hq : Z.of_nat (length (drop (Z.to_nat q) buf)) = alen buf - q).
  { unfold alen, q in *. rewrite length_drop. lia. }
  destruct (Z.leb_spec (q + 4) (alen buf)) as [H|H].
  - replace (4 <=? length (drop (Z.to_nat q) buf))%nat with true by (symmetry; apply Nat.leb_le; lia).
    rewrite bytes_spec by (unfold q in *; lia). cbn [obind]. rewrite drop_to_nat by (unfold q; lia).
    reflexivity.
  - replace (4 <=? length (drop (Z.to_nat q) buf))%nat with false by (symmetry; apply Nat.leb_gt; lia).
    rewrite bytes_spec by (unfold q in *; lia). reflexivity.
Qed.

Lemma xxh64_run buf seed :
  alen buf < 2 ^ 64 -> xxh64 buf seed = Done (xxh64_ref buf seed).
Proof.
  intros Hlen. unfold xxh64, xxh64_ref. set (n := (length buf / 32)%nat).
  assert (Hn : 32 * Z.of_nat n <= alen buf < 32 * Z.of_nat n + 32).
  { unfold n, alen. rewrite Nat2Z.inj_div. change (Z.of_nat 32) with 32. div_mod_lia. }
  rewrite (u64_small (alen buf)) by (unfold alen in *; lia).
  replace (drop (32 * n) buf) with (drop (Z.to_nat (32 * Z.of_nat n)) buf) by (f_equal; lia).
  destruct (Z.leb_spec 32 (alen buf)) as [H|H].
  - replace (1 <=? n)%nat with true by (symmetry; apply Nat.leb_le; lia).
    rewrite (stripes_spec buf n) by (unfold alen in *; lia). change (drop (Z.to_nat 0) buf) with buf.
    destruct (ref_stripes n buf _) as [[[w1 w2] w3] w4]. cbn [obind]. apply tail_spec. lia.
  - assert (n = O) as -> by lia. cbn [Nat.leb obind]. apply tail_spec. unfold alen in *. lia.
Qed.

(** XXH64 on every input: all loops end, every byte is consumed exactly once
    (in 32-byte stripes, then 8-byte words, at most one 4-byte word, and single
    bytes), and no read goes past the end. *)
Theorem xxh64_total buf seed :
  alen buf < 2 ^ 64 -> xxh64 buf seed = Done (xxh64_ref buf seed).
Proof. intros H. exact (xxh64_run buf seed H). Qed.

(** The published vector for "abc" with seed 0. *)
Lemma xxh64_total_witness :
  xxh64 [97; 98; 99] 0 = Done (xxh64_ref [97; 98; 99] 0)
  /\ xxh64_ref [97; 98; 99] 0 = 4952883123889572249.
Proof. split; [apply xxh64_total; unfold alen; cbn; lia|vm_compute; reflexivity]. Defined.
