(* ===== verification/Sha256.v ===== *)
(** SHA-256 of the user-space tools (sha256_user.c): the streaming interface and
    its equality with the digest of the padded message, block by block. *)

From Stdlib Require Import ZArith Lia Bool.
From stdpp Require Import base numbers list option.
From S2P Require Import Prelude.

(** * Constants and word functions *)

Definition K : list Z :=
  [1116352408;1899447441;3049323471;3921009573;961987163;1508970993;
   2453635748;2870763221;3624381080;310598401;607225278;1426881987;
   1925078388;2162078206;2614888103;3248222580;3835390401;4022224774;
   264347078;604807628;770255983;1249150122;1555081692;1996064986;
   2554220882;2821834349;2952996808;3210313671;3336571891;3584528711;
   113926993;338241895;666307205;773529912;1294757372;1396182291;
   1695183700;1986661051;2177026350;2456956037;2730485921;2820302411;
   3259730800;3345764771;3516065817;3600352804;4094571909;275423344;
   430227734;506948616;659060556;883997877;958139571;1322822218;
   1537002063;1747873779;1955562222;2024104815;2227730452;2361852424;
   2428436474;2756734187;3204031479;3329325298].

Definition ROTR (x n : Z) : Z := (x .>> n) .| u32 (x .<< (32 - n)).
Definition CH (x y z : Z) : Z := (x .& y) .^ ((4294967295 .^ x) .& z).
Definition MAJ (x y z : Z) : Z := (x .& y) .^ (x .& z) .^ (y .& z).
Definition EP0 (x : Z) : Z := ROTR x 2 .^ ROTR x 13 .^ ROTR x 22.
Definition EP1 (x : Z) : Z := ROTR x 6 .^ ROTR x 11 .^ ROTR x 25.
Definition SIG0 (x : Z) : Z := ROTR x 7 .^ ROTR x 18 .^ (x .>> 3).
Definition SIG1 (x : Z) : Z := ROTR x 17 .^ ROTR x 19 .^ (x .>> 10).

(** * The context *)

Record sha256_ctx := Sha {
  sc_state : list Z;        (* uint32_t[8] *)
  sc_bitcount : Z;          (* uint64_t *)
  sc_buffer : list Z;       (* uint8_t[64] *)
  sc_buflen : Z             (* size_t *)
}.

(** [m[0..15]] from the block, then [m[16..63]]. *)
Definition sha256_load (data : list Z) (i : Z) : Z :=
  (aget data (i * 4) .<< 24) .| (aget data (i * 4 + 1) .<< 16)
  .| (aget data (i * 4 + 2) .<< 8) .| aget data (i * 4 + 3).

Fixpoint sha256_expand (n : nat) (i : Z) (m : list Z) : list Z :=
  match n with
  | O => m
  | S n =>
      sha256_expand n (i + 1)
        (m ++ [u32 (SIG1 (aget m (i - 2)) + aget m (i - 7) + SIG0 (aget m (i - 15))
                    + aget m (i - 16))])
  end.

(** One of the 64 rounds on (a, ..., h). *)
Definition sha256_round (m : list Z) (st : list Z) (i : Z) : list Z :=
  match st with
  | [a; b; c; d; e; f; g; h] =>
      let t1 := u32 (h + EP1 e + CH e f g + aget K i + aget m i) in
      let t2 := u32 (EP0 a + MAJ a b c) in
      [u32 (t1 + t2); a; b; c; u32 (d + t1); e; f; g]
  | _ => st
  end.

Definition sha256_block (state data : list Z) : list Z :=
  let m := sha256_expand 48 16 (map (sha256_load data) (seqZ 0 16)) in
  let regs := foldl (sha256_round m) state (seqZ 0 64) in
  zip_with (fun s r => u32 (s + r)) state regs.

Definition sha256_transform (ctx : sha256_ctx) (data : list Z) : sha256_ctx :=
  Sha (sha256_block (sc_state ctx) data) (sc_bitcount ctx) (sc_buffer ctx) (sc_buflen ctx).

Definition sha256_h0 : list Z :=
  [1779033703; 3144134277; 1013904242; 2773480762; 1359893119; 2600822924; 528734635; 1541459225].

(** The buffer is not initialised. *)
Definition SHA256_Init (ctx : sha256_ctx) : sha256_ctx :=
  Sha sha256_h0 0 (sc_buffer ctx) 0.

Definition sha256_byte (ctx : sha256_ctx) (b : Z) : sha256_ctx :=
  let ctx := Sha (sc_state ctx) (sc_bitcount ctx) (aset (sc_buffer ctx) (sc_buflen ctx) b)
               (sc_buflen ctx + 1) in
  if sc_buflen ctx =? 64 then
    let ctx := sha256_transform ctx (sc_buffer ctx) in
    Sha (sc_state ctx) (u64 (sc_bitcount ctx + 512)) (sc_buffer ctx) 0
  else ctx.

Definition SHA256_Update (ctx : sha256_ctx) (data : list Z) : sha256_ctx :=
  foldl sha256_byte ctx data.

(** [while (i < n) buffer[i++] = 0] *)
Fixpoint zero_from (fuel : nat) (buffer : list Z) (i n : Z) : list Z :=
  match fuel with
  | O => buffer
  | S fuel => if i <? n then zero_from fuel (aset buffer i 0) (i + 1) n else buffer
  end.

(** [buffer[63 - i] = (uint8_t)(bits >> (i * 8))] for [i] from 0 to 7. *)
Definition store_bits (buffer : list Z) (bits : Z) : list Z :=
  foldl (fun buffer i => aset buffer (63 - i) (u8 (bits .>> (i * 8)))) buffer (seqZ 0 8).

(** The four digest bytes of a state word. *)
Definition be_bytes32 (x : Z) : list Z := [u8 (x .>> 24); u8 (x .>> 16); u8 (x .>> 8); u8 x].

Definition SHA256_Final (ctx : sha256_ctx) : list Z :=
  let i := sc_buflen ctx in
  let bits := u64 (sc_bitcount ctx + sc_buflen ctx * 8) in
  let ctx := Sha (sc_state ctx) bits (aset (sc_buffer ctx) i 128) (sc_buflen ctx) in
  let i := i + 1 in
  let '(ctx, i) :=
    if 56 <? i then
      let ctx := Sha (sc_state ctx) bits (zero_from 64 (sc_buffer ctx) i 64) (sc_buflen ctx) in
      (sha256_transform ctx (sc_buffer ctx), 0)
    else (ctx, i) in
  let buffer := zero_from 64 (sc_buffer ctx) i 56 in
  let buffer := store_bits buffer (sc_bitcount ctx) in
  let ctx := sha256_transform ctx buffer in
  concat (map be_bytes32 (sc_state ctx)).

(** The whole digest, from an arbitrary context. *)
Definition sha256 (ctx : sha256_ctx) (data : list Z) : list Z :=
  SHA256_Final (SHA256_Update (SHA256_Init ctx) data).

(** * The reference: pad, split, fold *)

(** The bit length, big endian. *)
Definition be_bytes64 (x : Z) : list Z :=
  [u8 (x .>> 56); u8 (x .>> 48); u8 (x .>> 40); u8 (x .>> 32);
   u8 (x .>> 24); u8 (x .>> 16); u8 (x .>> 8); u8 x].

(** A one bit, zeros up to 8 bytes short of a block, the bit length. *)
Definition sha256_pad (data : list Z) : list Z :=
  data ++ 128 :: replicate (Z.to_nat ((55 - alen data) mod 64)) 0 ++ be_bytes64 (8 * alen data).

Fixpoint chunks (n : nat) (l : list Z) : list (list Z) :=
  match n with
  | O => []
  | S n => take 64 l :: chunks n (drop 64 l)
  end.

Definition sha256_ref (data : list Z) : list Z :=
  let padded := sha256_pad data in
  concat (map be_bytes32
            (foldl sha256_block sha256_h0 (chunks (length padded / 64) padded))).

(** * Lemmas *)

Lemma concat_length64 (bs : list (list Z)) :
  Forall (fun b => length b = 64%nat) bs -> length (concat bs) = (64 * length bs)%nat.
Proof. induction 1 as [|b bs Hb _ IH]; [reflexivity|]. cbn [concat length]. rewrite length_app. lia. Qed.

Lemma chunks_concat bs :
  Forall (fun b => length b = 64%nat) bs -> chunks (length bs) (concat bs) = bs.
Proof.
  induction 1 as [|b bs Hb _ IH]; [reflexivity|]. cbn [length chunks concat].
  rewrite take_app_length', drop_app_length', IH by (symmetry; exact Hb). reflexivity.
Qed.

Lemma foldl_chunks (data : list Z) bs :
  data = concat bs -> Forall (fun b => length b = 64%nat) bs ->
  foldl sha256_block sha256_h0 (chunks (length data / 64) data) = foldl sha256_block sha256_h0 bs.
Proof.
  intros -> H. rewrite concat_length64 by exact H. rewrite Nat.mul_comm, Nat.div_mul by lia.
  rewrite chunks_concat by exact H. reflexivity.
Qed.

Lemma zero_from_spec fuel B i n :
  0 <= i <= n -> n <= alen B -> n - i <= Z.of_nat fuel ->
  zero_from fuel B i n
  = take (Z.to_nat i) B ++ replicate (Z.to_nat (n - i)) 0 ++ drop (Z.to_nat n) B.
Proof.
  revert B i. induction fuel as [|fuel IH]; intros B i Hi Hn Hf.
  - replace n with i by lia. rewrite Z.sub_diag. symmetry. apply take_drop.
  - cbn [zero_from]. destruct (Z.ltb_spec i n) as [H|H].
    + rewrite IH by (rewrite ?alen_aset; lia). unfold aset, alen in *.
      rewrite insert_take_drop by lia.
      replace (Z.to_nat (i + 1)) with (length (take (Z.to_nat i) B) + 1)%nat at 1
        by (rewrite length_take; lia).
      rewrite take_app_add. cbn [take]. rewrite <- app_assoc. f_equal.
      rewrite drop_app_ge by (rewrite length_take; lia). rewrite length_take.
      replace (Z.to_nat n - Z.to_nat i `min` length B)%nat with (S (Z.to_nat (n - i - 1))) by lia.
      cbn [drop app]. rewrite drop_drop.
      replace (S (Z.to_nat i) + Z.to_nat (n - i - 1))%nat with (Z.to_nat n) by lia.
      replace (Z.to_nat (n - i)) with (S (Z.to_nat (n - (i + 1)))) by lia. reflexivity.
    + replace n with i by lia. rewrite Z.sub_diag. symmetry. apply take_drop.
Qed.

Lemma list8 (l : list Z) :
  length l = 8%nat -> exists a b c d e f g h, l = [a; b; c; d; e; f; g; h].
Proof.
  intros H. do 8 (destruct l as [|? l]; [discriminate H|]). destruct l; [|discriminate H].
  eexists _, _, _, _, _, _, _, _. reflexivity.
Qed.

Lemma store_bits_spec B x : length B = 64%nat -> store_bits B x = take 56 B ++ be_bytes64 x.
Proof.
  intros H. assert (H8 : length (drop 56 B) = 8%nat) by (rewrite length_drop; lia).
  destruct (list8 _ H8) as (a & b & c & d & e & f & g & h & E).
  assert (HP : length (take 56 B) = 56%nat) by (rewrite length_take; lia).
  rewrite <- (take_drop 56 B) at 1. rewrite E. set (P := take 56 B) in *. clearbody P.
  assert (Hset : forall i y l, 56 <= i -> aset (P ++ l) i y = P ++ aset l (i - 56) y).
  { intros i y l Hi. unfold aset. rewrite insert_app_r_alt by lia. rewrite HP. do 2 f_equal. lia. }
  unfold store_bits. change (seqZ 0 8) with [0; 1; 2; 3; 4; 5; 6; 7]. cbn [foldl].
  rewrite !Hset by lia. f_equal.
Qed.

(** After [data]: the full blocks are folded into the state, the rest waits in
    the buffer. *)
Record updated_with (ctx : sha256_ctx) (bs : list (list Z)) (rest : list Z) : Prop := {
  uw_state : sc_state ctx = foldl sha256_block sha256_h0 bs;
  uw_blocks : Forall (fun b => length b = 64%nat) bs;
  uw_bits : sc_bitcount ctx = u64 (512 * Z.of_nat (length bs));
  uw_len : sc_buflen ctx = alen rest /\ alen rest < 64;
  uw_buffer : length (sc_buffer ctx) = 64%nat /\ take (length rest) (sc_buffer ctx) = rest
}.

Lemma byte_step ctx bs rest b :
  updated_with ctx bs rest ->
  exists bs' rest', updated_with (sha256_byte ctx b) bs' rest'
    /\ concat bs' ++ rest' = (concat bs ++ rest) ++ [b].
Proof.
  intros [Hs Hb Hbits [Hl1 Hl2] [Hbuf1 Hbuf2]]. unfold alen in *.
  assert (Htake : take (S (length rest)) (aset (sc_buffer ctx) (sc_buflen ctx) b) = rest ++ [b]).
  { unfold aset. rewrite Hl1, Nat2Z.id. rewrite insert_take_drop by lia. rewrite Hbuf2.
    replace (S (length rest)) with (length rest + 1)%nat by lia. rewrite take_app_add. reflexivity. }
  unfold sha256_byte. cbn [sc_buflen sc_state sc_bitcount sc_buffer].
  destruct (Z.eqb_spec (sc_buflen ctx + 1) 64) as [E|E].
  - assert (Hfull : aset (sc_buffer ctx) (sc_buflen ctx) b = rest ++ [b]).
    { rewrite <- Htake. rewrite take_ge; [reflexivity|]. unfold aset. rewrite length_insert. lia. }
    exists (bs ++ [rest ++ [b]]), []. split.
    + constructor; cbn [sha256_transform sc_state sc_bitcount sc_buffer sc_buflen].
      * rewrite foldl_app. cbn [foldl]. rewrite Hs, Hfull. reflexivity.
      * apply Forall_app_2; [exact Hb|]. constructor; [rewrite length_app; cbn; lia|constructor].
      * rewrite Hbits. unfold u64. rewrite Zplus_mod_idemp_l, length_app. cbn [length]. f_equal. lia.
      * split; [reflexivity|unfold alen; cbn; lia].
      * unfold aset. rewrite length_insert. auto.
    + rewrite concat_app. cbn [concat]. rewrite !app_nil_r, app_assoc. reflexivity.
  - exists bs, (rest ++ [b]). split; [|rewrite app_assoc; reflexivity].
    constructor; cbn [sc_state sc_bitcount sc_buffer sc_buflen]; auto.
    + unfold alen. rewrite length_app. cbn [length]. lia.
    + unfold aset at 1. rewrite length_insert, length_app, Nat.add_comm. cbn [length Nat.add]. auto.
Qed.

Lemma update_spec data ctx bs rest :
  updated_with ctx bs rest ->
  exists bs' rest', updated_with (SHA256_Update ctx data) bs' rest'
    /\ concat bs' ++ rest' = (concat bs ++ rest) ++ data.
Proof.
  revert ctx bs rest. induction data as [|b data IH]; intros ctx bs rest H.
  - exists bs, rest. rewrite app_nil_r. auto.
  - destruct (byte_step ctx bs rest b H) as (bs1 & rest1 & H1 & E1).
    destruct (IH _ _ _ H1) as (bs2 & rest2 & H2 & E2). exists bs2, rest2. split; [exact H2|].
    rewrite E2, E1, <- app_assoc. reflexivity.
Qed.

(** The final padding makes one or two blocks out of the rest. *)
Lemma final_spec ctx bs rest :
  updated_with ctx bs rest -> 8 * alen (concat bs ++ rest) < 2 ^ 64 ->
  SHA256_Final ctx = sha256_ref (concat bs ++ rest).
Proof.
  intros [Hs Hb Hbits [Hl1 Hl2] [Hbuf1 Hbuf2]] Hlen. set (data := concat bs ++ rest) in *.
  assert (Hdl : alen data = 64 * Z.of_nat (length bs) + alen rest).
  { unfold data, alen. rewrite length_app, concat_length64 by exact Hb. lia. }
  assert (Hbc : u64 (sc_bitcount ctx + sc_buflen ctx * 8) = 8 * alen data).
  { rewrite Hbits, Hl1. unfold u64. rewrite Zplus_mod_idemp_l. rewrite Z.mod_small; unfold alen in *; lia. }
  set (n := alen rest) in *. assert (Hn : 0 <= n) by (unfold n, alen; lia).
  assert (Hnn : Z.to_nat n = length rest) by (unfold n, alen; lia).
  (* the buffer with the mark *)
  assert (Hmark : take (Z.to_nat (n + 1)) (aset (sc_buffer ctx) n 128) = rest ++ [128]
                  /\ length (aset (sc_buffer ctx) n 128) = 64%nat).
  { unfold aset. rewrite length_insert. split; [|exact Hbuf1]. unfold alen in *.
    rewrite insert_take_drop by lia. rewrite Hnn, Hbuf2.
    replace (Z.to_nat (n + 1)) with (length rest + 1)%nat by lia. rewrite take_app_add. reflexivity. }
  unfold SHA256_Final. rewrite Hbc, Hl1. fold n. cbn [sc_state sc_bitcount sc_buffer sc_buflen].
  set (B := aset (sc_buffer ctx) n 128) in *. destruct Hmark as [HB1 HB2]. clearbody B.
  assert (HBl : alen B = 64) by (unfold alen; lia).
  unfold sha256_ref. set (padded := sha256_pad data).
  destruct (Z.ltb_spec 56 (n + 1)) as [H|H].
  - set (b1 := rest ++ [128] ++ replicate (Z.to_nat (63 - n)) 0).
    set (b2 := replicate 56 0 ++ be_bytes64 (8 * alen data)).
    assert (E1 : zero_from 64 B (n + 1) 64 = b1).
    { rewrite zero_from_spec by lia. rewrite HB1, drop_ge, app_nil_r by lia.
      replace (64 - (n + 1)) with (63 - n) by lia. unfold b1. rewrite <- app_assoc. reflexivity. }
    assert (Hb1 : length b1 = 64%nat).
    { unfold b1. rewrite !length_app, length_replicate. cbn [length]. lia. }
    rewrite E1. cbn [sha256_transform sc_state sc_bitcount sc_buffer sc_buflen].
    rewrite zero_from_spec by (unfold alen; lia).
    change (take (Z.to_nat 0) b1) with (@nil Z). change (Z.to_nat (56 - 0)) with 56%nat.
    rewrite app_nil_l.
    rewrite store_bits_spec.
    2: { rewrite length_app, length_replicate, length_drop. lia. }
    rewrite take_app_length' by (rewrite length_replicate; reflexivity).
    fold b2. f_equal. f_equal.
    rewrite (foldl_chunks padded (bs ++ [b1; b2])).
    + rewrite foldl_app. cbn [foldl]. rewrite Hs. reflexivity.
    + unfold padded, sha256_pad. rewrite concat_app. cbn [concat]. rewrite app_nil_r.
      unfold data at 1. rewrite <- app_assoc. f_equal. unfold b1, b2. rewrite <- !app_assoc. f_equal.
      cbn [app]. f_equal. rewrite app_assoc, <- replicate_add. f_equal. f_equal.
      rewrite Hdl. replace ((55 - (64 * Z.of_nat (length bs) + n)) mod 64) with (119 - n); [lia|].
      apply Z.mod_unique with (- Z.of_nat (length bs) - 1); lia.
    + apply Forall_app_2; [exact Hb|]. constructor; [exact Hb1|]. constructor; [|constructor].
      unfold b2. rewrite length_app, length_replicate. reflexivity.
  - set (b1 := rest ++ [128] ++ replicate (Z.to_nat (55 - n)) 0 ++ be_bytes64 (8 * alen data)).
    cbn [sc_state sc_bitcount sc_buffer sc_buflen].
    rewrite zero_from_spec by lia. rewrite HB1. cbn [sha256_transform sc_state sc_bitcount].
    rewrite store_bits_spec.
    2: { rewrite !length_app, length_replicate, length_drop. cbn [length]. lia. }
    rewrite app_assoc, take_app_length'.
    2: { rewrite !length_app, length_replicate. cbn [length]. lia. }
    f_equal. f_equal. rewrite (foldl_chunks padded (bs ++ [b1])).
    + rewrite foldl_app. cbn [foldl]. rewrite Hs. f_equal. unfold b1. rewrite <- !app_assoc.
      replace (56 - (n + 1)) with (55 - n) by lia. reflexivity.
    + unfold padded, sha256_pad. rewrite concat_app. cbn [concat]. rewrite app_nil_r.
      unfold data at 1. rewrite <- app_assoc. f_equal. unfold b1. cbn [app]. do 2 f_equal.
      f_equal. f_equal. rewrite Hdl.
      replace ((55 - (64 * Z.of_nat (length bs) + n)) mod 64) with (55 - n); [lia|].
      apply Z.mod_unique with (- Z.of_nat (length bs)); lia.
    + apply Forall_app_2; [exact Hb|]. constructor; [|constructor].
      unfold b1. rewrite !length_app, length_replicate. cbn. lia.
Qed.

(** The digest of a message is the reference one, from any initial buffer. *)
Lemma sha256_stream ctx data :
  length (sc_buffer ctx) = 64%nat -> 8 * alen data < 2 ^ 64 -> sha256 ctx data = sha256_ref data.
Proof.
  intros Hbuf Hlen. unfold sha256.
  assert (Hinit : updated_with (SHA256_Init ctx) [] []).
  { constructor; try reflexivity; [constructor|split; reflexivity|split; [exact Hbuf|reflexivity]]. }
  destruct (update_spec data _ _ _ Hinit) as (bs & rest & H & E). cbn [concat app] in E.
  rewrite (final_spec _ bs rest H); rewrite E; [reflexivity|exact Hlen].
Qed.

(** The streaming SHA-256 computes the standard digest: whatever pieces the
    message arrives in and whatever the uninitialised buffer holds, the result
    is the fold of the compression function over the padded message. *)
Theorem sha256_streaming ctx pieces :
  length (sc_buffer ctx) = 64%nat -> 8 * alen (concat pieces) < 2 ^ 64 ->
  SHA256_Final (foldl SHA256_Update (SHA256_Init ctx) pieces) = sha256_ref (concat pieces).
Proof.
  intros Hbuf Hlen.
  assert (Hupd : foldl SHA256_Update (SHA256_Init ctx) pieces
                 = SHA256_Update (SHA256_Init ctx) (concat pieces)).
  { generalize (SHA256_Init ctx). clear. induction pieces as [|p ps IH]; intros c; [reflexivity|].
    cbn [foldl concat]. rewrite IH. unfold SHA256_Update. rewrite foldl_app. reflexivity. }
  rewrite Hupd. exact (sha256_stream ctx _ Hbuf Hlen).
Qed.

(** The FIPS 180-4 vector for "abc", in two pieces. *)
Lemma sha256_streaming_witness :
  SHA256_Final (foldl SHA256_Update (SHA256_Init (Sha [] 0 (replicate 64 7) 3)) [[97]; [98; 99]])
    = sha256_ref (concat [[97]; [98; 99]])
  /\ sha256_ref [97; 98; 99]
     = [186; 120; 22; 191; 143; 1; 207; 234; 65; 65; 64; 222; 93; 174; 34; 35;
        176; 3; 97; 163; 150; 23; 122; 156; 180; 16; 255; 97; 242; 0; 21; 173].
Proof.
  split; [apply sha256_streaming; [reflexivity|unfold alen; cbn; lia]|vm_compute; reflexivity].
Defined.
