(* ===== verification/Check.v ===== *)
(** Check codes of chains (hammer2_chain.c): storing the code of a block in its
    blockref and testing a block against it, for every check method; and the
    test that fsck_hammer2 makes of the same codes. *)

From Stdlib Require Import ZArith Lia Bool.
From stdpp Require Import base numbers list option.
From S2P Require Import Prelude Crc Xxh Sha256.

Abbreviation HAMMER2_CHECK_NONE := 0 (only parsing).
Abbreviation HAMMER2_CHECK_DISABLED := 1 (only parsing).
Abbreviation HAMMER2_CHECK_ISCSI32 := 2 (only parsing).
Abbreviation HAMMER2_CHECK_XXHASH64 := 3 (only parsing).
Abbreviation HAMMER2_CHECK_SHA192 := 4 (only parsing).
Abbreviation HAMMER2_CHECK_FREEMAP := 5 (only parsing).

Definition HAMMER2_ENC_CHECK (n : Z) : Z := (n .& 15) .<< 4.
Definition HAMMER2_ENC_COMP (n : Z) : Z := n .& 15.
Definition HAMMER2_DEC_CHECK (n : Z) : Z := (n .>> 4) .& 15.

(** [n] little-endian bytes of [x]. *)
Fixpoint le_bytes (n : nat) (x : Z) : list Z :=
  match n with
  | O => []
  | S n => u8 x :: le_bytes n (x .>> 8)
  end.

(** The part of a chain these routines touch. *)
Record checked := Checked {
  ck_methods : Z;          (* bref.methods *)
  ck_check : list Z;       (* bref.check, a union over 64 bytes *)
  ck_nottested : bool      (* HAMMER2_CHAIN_NOTTESTED *)
}.

(** A store into the union, all of whose members start at its base. *)
Definition store_check (c : checked) (bytes : list Z) : checked :=
  Checked (ck_methods c) (bytes ++ drop (length bytes) (ck_check c)) (ck_nottested c).

(** ** The SHA-256 entry points of the Windows driver (hammer2_compat.h)

    On this target they are placeholders: the context is zeroed, updates are
    ignored, and the digest is 32 zero bytes. *)
Record win_sha256_ctx := WinSha {
  ws_state : list Z;
  ws_count : Z;
  ws_buf : list Z
}.
Definition SHA256_Init_win (c : win_sha256_ctx) : win_sha256_ctx :=
  WinSha (replicate 8 0) 0 (replicate 64 0).
Definition SHA256_Update_win (c : win_sha256_ctx) (d : list Z) : win_sha256_ctx := c.
Definition SHA256_Final_win (c : win_sha256_ctx) : list Z := replicate 32 0.

(** [digest64[2] ^= digest64[3]], and the 24 bytes that are kept. *)
Definition sha192_fold (digest : list Z) : list Z :=
  take 16 digest ++ zip_with Z.lxor (take 8 (drop 16 digest)) (take 8 (drop 24 digest)).

Definition sha192_of (bdata : list Z) : list Z :=
  let ctx := SHA256_Init_win (WinSha [] 0 []) in
  let ctx := SHA256_Update_win ctx bdata in
  sha192_fold (SHA256_Final_win ctx).

Definition hammer2_chain_setcheck (c : checked) (bdata : list Z) : outcome checked :=
  let c := Checked (ck_methods c) (ck_check c) false in
  match HAMMER2_DEC_CHECK (ck_methods c) with
  | HAMMER2_CHECK_NONE => Done c
  | HAMMER2_CHECK_DISABLED => Done c
  | HAMMER2_CHECK_ISCSI32 => Done (store_check c (le_bytes 4 (hammer2_icrc32 bdata)))
  | HAMMER2_CHECK_XXHASH64 =>
      let! h := xxh64 bdata XXH_HAMMER2_SEED in
      Done (store_check c (le_bytes 8 h))
  | HAMMER2_CHECK_SHA192 => Done (store_check c (sha192_of bdata))
  | HAMMER2_CHECK_FREEMAP => Done (store_check c (le_bytes 4 (hammer2_icrc32 bdata)))
  | _ => Panic
  end.

Definition hammer2_chain_testcheck (c : checked) (bdata : list Z) : outcome bool :=
  if ck_nottested c then Done true
  else
    match HAMMER2_DEC_CHECK (ck_methods c) with
    | HAMMER2_CHECK_NONE => Done true
    | HAMMER2_CHECK_DISABLED => Done true
    | HAMMER2_CHECK_ISCSI32 => Done (le_value (take 4 (ck_check c)) =? hammer2_icrc32 bdata)
    | HAMMER2_CHECK_XXHASH64 =>
        let! h := xxh64 bdata XXH_HAMMER2_SEED in
        Done (le_value (take 8 (ck_check c)) =? h)
    | HAMMER2_CHECK_SHA192 => Done (bool_decide (sha192_of bdata = take 24 (ck_check c)))
    | HAMMER2_CHECK_FREEMAP => Done (le_value (take 4 (ck_check c)) =? hammer2_icrc32 bdata)
    | _ => Panic
    end.

(** The check-code test of [verify_blockref] (fsck_hammer2/test.c): true when
    the block fails.  [use_openssl] is the build option [HAMMER2_USE_OPENSSL],
    with which the SHA-256 is the one of sha256_user.c; [hash_ctx] is its
    uninitialised context. *)
Definition fsck_bad_check (use_openssl : bool) (hash_ctx : sha256_ctx) (methods : Z)
    (check media : list Z) : outcome bool :=
  match HAMMER2_DEC_CHECK methods with
  | HAMMER2_CHECK_ISCSI32 => Done (negb (le_value (take 4 check) =? hammer2_icrc32 media))
  | HAMMER2_CHECK_XXHASH64 =>
      let! h := xxh64 media XXH_HAMMER2_SEED in
      Done (negb (le_value (take 8 check) =? h))
  | HAMMER2_CHECK_SHA192 =>
      if use_openssl then Done (bool_decide (sha192_fold (sha256 hash_ctx media) <> take 24 check))
      else Done false
  | HAMMER2_CHECK_FREEMAP => Done (negb (le_value (take 4 check) =? hammer2_icrc32 media))
  | _ => Done false
  end.

(** * Lemmas *)

Lemma le_bytes_length n x : length (le_bytes n x) = n.
Proof. revert x. induction n as [|n IH]; intros x; [reflexivity|]. cbn. rewrite IH. reflexivity. Qed.

Lemma le_value_bytes n x :
  0 <= x < 2 ^ (8 * Z.of_nat n) -> le_value (le_bytes n x) = x.
Proof.
  revert x. induction n as [|n IH]; intros x Hx; [cbn in *; lia|]. cbn [le_bytes le_value].
  rewrite IH.
  - unfold u8. apply Z.bits_inj'. intros k Hk. rewrite Z.lxor_spec, Z.shiftl_spec by lia.
    destruct (Z.lt_ge_cases k 8).
    + rewrite Z.mod_pow2_bits_low, (Z.testbit_neg_r _ (k - 8)) by lia. apply xorb_false_r.
    + rewrite Z.mod_pow2_bits_high, Z.shiftr_spec by lia. rewrite xorb_false_l. f_equal. lia.
  - rewrite Z.shiftr_div_pow2 by lia.
    replace (8 * Z.of_nat (S n)) with (8 * Z.of_nat n + 8) in Hx by lia.
    rewrite Z.pow_add_r in Hx by lia. split; [apply Z.div_pos; lia|].
    apply Z.div_lt_upper_bound; lia.
Qed.

Lemma stored_value c n x :
  0 <= x < 2 ^ (8 * Z.of_nat n) -> le_value (take n (ck_check (store_check c (le_bytes n x)))) = x.
Proof.
  intros Hx. cbn [store_check ck_check]. rewrite take_app_length'; [apply le_value_bytes, Hx|].
  rewrite le_bytes_length. reflexivity.
Qed.

Lemma xorshift_range x n : 0 <= n -> 0 <= x < 2 ^ 64 -> 0 <= x .^ (x .>> n) < 2 ^ 64.
Proof.
  intros Hn Hx. apply lxor_range; [lia|exact Hx|]. rewrite Z.shiftr_div_pow2 by lia.
  pose proof (pow2_pos n Hn). split; [apply Z.div_pos; lia|].
  apply Z.le_lt_trans with x; [|lia]. apply Z.div_le_upper_bound; nia.
Qed.

Lemma xxh64_avalanche_range h : 0 <= xxh64_avalanche h < 2 ^ 64.
Proof. unfold xxh64_avalanche. apply xorshift_range; [lia|apply u64_range]. Qed.

Lemma xxh64_value buf seed : alen buf < 2 ^ 64 -> exists h, xxh64 buf seed = Done h /\ 0 <= h < 2 ^ 64.
Proof.
  intros H. exists (xxh64_ref buf seed). split; [|unfold xxh64_ref; apply xxh64_avalanche_range].
  apply xxh64_run, H.
Qed.

Lemma sha192_of_const a b : sha192_of a = sha192_of b.
Proof. reflexivity. Qed.

Lemma stored_icrc c c' bdata :
  Forall is_byte bdata ->
  c' = store_check c (le_bytes 4 (hammer2_icrc32 bdata)) ->
  le_value (take 4 (ck_check c')) = hammer2_icrc32 bdata.
Proof. intros Hb ->. apply stored_value. exact (hammer2_icrc32_range bdata Hb). Qed.

Lemma stored_sha192 c bdata : take 24 (ck_check (store_check c (sha192_of bdata))) = sha192_of bdata.
Proof. cbn [store_check ck_check]. apply take_app_length'. reflexivity. Qed.

(** The check methods are the six the format defines. *)
Lemma check_method_cases m :
  HAMMER2_DEC_CHECK m <= HAMMER2_CHECK_FREEMAP ->
  HAMMER2_DEC_CHECK m ∈ [0; 1; 2; 3; 4; 5].
Proof.
  intros H. assert (0 <= HAMMER2_DEC_CHECK m) by (apply Z.land_nonneg; lia).
  rewrite !elem_of_cons. lia.
Qed.

Ltac method_cases H :=
  repeat (apply elem_of_cons in H; destruct H as [H|H]);
  [..|apply not_elem_of_nil in H; destruct H].

Lemma bad_method (A : Type) d (x0 x1 x2 x3 x4 x5 y : A) :
  5 < d -> match d with 0 => x0 | 1 => x1 | 2 => x2 | 3 => x3 | 4 => x4 | 5 => x5 | _ => y end = y.
Proof.
  intros H. destruct d as [|p|p]; [lia| |lia].
  do 3 (destruct p as [p|p|]; try lia; try reflexivity).
Qed.

(** What [hammer2_chain_setcheck] leaves in the blockref. *)
Lemma setcheck_done c bdata :
  Forall is_byte bdata -> alen bdata < 2 ^ 32 ->
  HAMMER2_DEC_CHECK (ck_methods c) <= HAMMER2_CHECK_FREEMAP ->
  exists c', hammer2_chain_setcheck c bdata = Done c'
    /\ ck_methods c' = ck_methods c /\ ck_nottested c' = false
    /\ match HAMMER2_DEC_CHECK (ck_methods c) with
       | HAMMER2_CHECK_NONE | HAMMER2_CHECK_DISABLED => ck_check c' = ck_check c
       | HAMMER2_CHECK_XXHASH64 => xxh64 bdata XXH_HAMMER2_SEED = Done (le_value (take 8 (ck_check c')))
       | HAMMER2_CHECK_SHA192 => take 24 (ck_check c') = sha192_of bdata
       | _ => le_value (take 4 (ck_check c')) = hammer2_icrc32 bdata
       end.
Proof.
  intros Hb Hl H. pose proof (check_method_cases _ H) as Hc. unfold hammer2_chain_setcheck. cbn [ck_methods].
  destruct (xxh64_value bdata XXH_HAMMER2_SEED ltac:(lia)) as (h & Hx & Hh).
  method_cases Hc; rewrite Hc, ?Hx; cbn [obind]; eexists; (split; [reflexivity|]); (split; [reflexivity|]);
    (split; [reflexivity|]).
  - reflexivity.
  - reflexivity.
  - eapply stored_icrc; [exact Hb|reflexivity].
  - f_equal. symmetry. apply stored_value. exact Hh.
  - apply stored_sha192.
  - eapply stored_icrc; [exact Hb|reflexivity].
Qed.

(** The code that was stored for a block is that of the block. *)
Lemma stored_passes c c' bdata :
  Forall is_byte bdata -> alen bdata < 2 ^ 32 -> hammer2_chain_setcheck c bdata = Done c' ->
  HAMMER2_DEC_CHECK (ck_methods c) <= HAMMER2_CHECK_FREEMAP
  /\ ck_methods c' = ck_methods c /\ hammer2_chain_testcheck c' bdata = Done true.
Proof.
  intros Hb Hl Hset.
  assert (H : HAMMER2_DEC_CHECK (ck_methods c) <= HAMMER2_CHECK_FREEMAP).
  { apply Z.le_ngt. intros H. unfold hammer2_chain_setcheck in Hset.
    rewrite (bad_method _ _ _ _ _ _ _ _ _ H) in Hset. discriminate Hset. }
  destruct (setcheck_done c bdata Hb Hl H) as (c1 & Hs & Hm & Ht & Hv). rewrite Hs in Hset. injection Hset as ->.
  split; [exact H|]. split; [exact Hm|]. unfold hammer2_chain_testcheck. rewrite Hm, Ht.
  pose proof (check_method_cases _ H) as Hc.
  method_cases Hc; rewrite Hc in Hv |- *; rewrite ?Hv; cbn [obind]; rewrite ?Z.eqb_refl; try reflexivity.
Qed.

(** The code of a block of one zero byte is not the placeholder's. *)
Lemma sha192_differs : bool_decide (sha192_fold (sha256_ref [0]) <> sha192_of [0]) = true.
Proof. vm_compute. reflexivity. Qed.

(** * Properties *)

(** C8. A block always passes the test of the code stored for it, whatever the
    check method; an unknown method stops both operations. *)
Theorem check_roundtrip c bdata :
  Forall is_byte bdata -> alen bdata < 2 ^ 32 ->
  if HAMMER2_DEC_CHECK (ck_methods c) <=? HAMMER2_CHECK_FREEMAP
  then exists c', hammer2_chain_setcheck c bdata = Done c'
                  /\ hammer2_chain_testcheck c' bdata = Done true
  else hammer2_chain_setcheck c bdata = Panic
       /\ (ck_nottested c = false -> hammer2_chain_testcheck c bdata = Panic).
Proof.
  intros Hb Hl. destruct (Z.leb_spec (HAMMER2_DEC_CHECK (ck_methods c)) HAMMER2_CHECK_FREEMAP) as [H|H].
  - destruct (setcheck_done c bdata Hb Hl H) as (c' & Hs & _). exists c'. split; [exact Hs|]. exact (proj2 (proj2 (stored_passes c c' bdata Hb Hl Hs))).
  - unfold hammer2_chain_setcheck, hammer2_chain_testcheck.
    split; [apply (bad_method _ _ _ _ _ _ _ _ _ H)|].
    intros ->. apply (bad_method _ _ _ _ _ _ _ _ _ H).
Qed.

Lemma check_roundtrip_witness :
  exists c', hammer2_chain_setcheck (Checked (HAMMER2_ENC_CHECK 3) (replicate 64 0) true) [1; 2; 3] = Done c'
             /\ hammer2_chain_testcheck c' [1; 2; 3] = Done true.
Proof.
  apply (check_roundtrip (Checked (HAMMER2_ENC_CHECK 3) (replicate 64 0) true) [1; 2; 3]); [bytes|reflexivity].
Defined.

(** Under the two CRC methods, a block that is corrupted within four
    consecutive bytes after its code was stored always fails the driver's test
    and the test of fsck_hammer2. *)
Theorem check_detects_burst c c' use_openssl hash_ctx pre w1 w2 post :
  HAMMER2_DEC_CHECK (ck_methods c) = HAMMER2_CHECK_ISCSI32
  \/ HAMMER2_DEC_CHECK (ck_methods c) = HAMMER2_CHECK_FREEMAP ->
  Forall is_byte (pre ++ w1 ++ post) -> Forall is_byte w2 ->
  alen (pre ++ w1 ++ post) < 2 ^ 32 ->
  length w1 = length w2 -> (length w1 <= 4)%nat -> w1 <> w2 ->
  hammer2_chain_setcheck c (pre ++ w1 ++ post) = Done c' ->
  hammer2_chain_testcheck c' (pre ++ w2 ++ post) = Done false
  /\ fsck_bad_check use_openssl hash_ctx (ck_methods c') (ck_check c') (pre ++ w2 ++ post) = Done true.
Proof.
  intros Hm Hb H2 Hlen Hl H4 Hne Hset.
  destruct (setcheck_done c (pre ++ w1 ++ post) Hb Hlen ltac:(lia)) as (c1 & Hs & Hm' & Ht & Hv).
  rewrite Hs in Hset. injection Hset as ->.
  assert (Hbad : (hammer2_icrc32 (pre ++ w1 ++ post) =? hammer2_icrc32 (pre ++ w2 ++ post)) = false).
  { apply Z.eqb_neq. intros E. apply Hne.
    apply Forall_app in Hb as [Hpre Hb]. apply Forall_app in Hb as [H1 Hpost].
    exact (burst_codes_differ pre w1 w2 post Hpre H1 H2 Hpost Hl H4 E). }
  unfold hammer2_chain_testcheck, fsck_bad_check. rewrite Hm', Ht.
  destruct Hm as [Hm|Hm]; rewrite Hm in *; rewrite Hv, Hbad; split; reflexivity.
Qed.

Lemma check_detects_burst_witness :
  exists c', hammer2_chain_setcheck (Checked (HAMMER2_ENC_CHECK 2) (replicate 64 0) false) ([1] ++ [2; 3] ++ [4]) = Done c'
    /\ hammer2_chain_testcheck c' ([1] ++ [2; 7] ++ [4]) = Done false
    /\ fsck_bad_check false (Sha [] 0 [] 0) (ck_methods c') (ck_check c') ([1] ++ [2; 7] ++ [4]) = Done true.
Proof.
  eexists. split; [vm_compute; reflexivity|].
  apply (check_detects_burst (Checked (HAMMER2_ENC_CHECK 2) (replicate 64 0) false) _ false (Sha [] 0 [] 0) [1] [2; 3] [2; 7] [4]); try bytes.
  - left. reflexivity.
  - reflexivity.
  - reflexivity.
  - cbn. lia.
  - discriminate.
  - vm_compute. reflexivity.
Defined.

(** fsck_hammer2 accepts every block whose code the driver stored, for every
    method of the format but SHA192; a build with SHA-256 rejects what the
    driver stores under SHA192, as on a block of one zero byte. *)
Theorem fsck_accepts_stored c c' use_openssl hash_ctx bdata :
  Forall is_byte bdata -> alen bdata < 2 ^ 32 -> length (sc_buffer hash_ctx) = 64%nat ->
  hammer2_chain_setcheck c bdata = Done c' ->
  (HAMMER2_DEC_CHECK (ck_methods c) <> HAMMER2_CHECK_SHA192 \/ use_openssl = false ->
   fsck_bad_check use_openssl hash_ctx (ck_methods c') (ck_check c') bdata = Done false)
  /\ (HAMMER2_DEC_CHECK (ck_methods c) = HAMMER2_CHECK_SHA192 ->
      bdata = [0] ->
      fsck_bad_check true hash_ctx (ck_methods c') (ck_check c') bdata = Done true).
Proof.
  intros Hb Hl Hctx Hset.
  assert (H : HAMMER2_DEC_CHECK (ck_methods c) <= HAMMER2_CHECK_FREEMAP).
  { apply Z.le_ngt. intros H. unfold hammer2_chain_setcheck in Hset.
    rewrite (bad_method _ _ _ _ _ _ _ _ _ H) in Hset. discriminate Hset. }
  destruct (setcheck_done c bdata Hb Hl H) as (c1 & Hs & Hm & _ & Hv).
  rewrite Hs in Hset. injection Hset as ->. unfold fsck_bad_check. rewrite Hm.
  pose proof (check_method_cases _ H) as Hc.
  split.
  - intros Hd. method_cases Hc; rewrite Hc in Hv, Hd |- *; rewrite ?Hv; cbn [obind];
      rewrite ?Z.eqb_refl; try reflexivity.
    destruct Hd as [Hd| ->]; [destruct (Hd eq_refl)|reflexivity].
  - intros Hd ->. rewrite Hd in Hv |- *. rewrite Hv.
    rewrite (sha256_stream hash_ctx [0] Hctx) by reflexivity.
    rewrite sha192_differs. reflexivity.
Qed.

Lemma fsck_accepts_stored_witness :
  exists c', hammer2_chain_setcheck (Checked (HAMMER2_ENC_CHECK 3) (replicate 64 0) false) [1; 2; 3] = Done c'
    /\ fsck_bad_check true (Sha [] 0 (replicate 64 9) 0) (ck_methods c') (ck_check c') [1; 2; 3] = Done false.
Proof.
  eexists. split; [vm_compute; reflexivity|].
  apply (fsck_accepts_stored (Checked (HAMMER2_ENC_CHECK 3) (replicate 64 0) false) _ true (Sha [] 0 (replicate 64 9) 0) [1; 2; 3]).
  - bytes.
  - reflexivity.
  - reflexivity.
  - vm_compute. reflexivity.
  - left. discriminate.
Defined.

(** The SHA192 method detects nothing in the driver: after a code was stored
    for one block, every other block passes the test. *)
Theorem check_sha192_blind c c' a b :
  HAMMER2_DEC_CHECK (ck_methods c) = HAMMER2_CHECK_SHA192 ->
  hammer2_chain_setcheck c a = Done c' -> hammer2_chain_testcheck c' b = Done true.
Proof.
  intros Hm Hs. unfold hammer2_chain_setcheck in Hs. cbn [ck_methods] in Hs. rewrite Hm in Hs.
  injection Hs as <-. unfold hammer2_chain_testcheck. cbn [ck_nottested ck_methods store_check].
  rewrite Hm. rewrite stored_sha192. reflexivity.
Qed.

Lemma check_sha192_blind_witness :
  exists c', hammer2_chain_setcheck (Checked (HAMMER2_ENC_CHECK 4) (replicate 64 0) false) [1; 2; 3] = Done c'
    /\ hammer2_chain_testcheck c' [7] = Done true.
Proof.
  eexists. split; [vm_compute; reflexivity|].
  apply (check_sha192_blind (Checked (HAMMER2_ENC_CHECK 4) (replicate 64 0) false) _ [1; 2; 3]); vm_compute; reflexivity.
Defined.
