(* ===== verification/Io.v ===== *)
(** The device buffer cache: [hammer2_io.c], the volume table it consults
    ([hammer2_get_volume]) and the file back end of [hammer2_device_windows.c].

    A dio is named by its [pbase], which is unique in the hash; a pointer held
    by a client is that name.  The operations run one at a time: the per-dio
    mutex is taken and released inside each of them, and only the hold count of
    [hmp->iohash_lock], which outlives a call on one path, is kept.  The Win32
    calls and [malloc] are the class [Win32].  The I/O statistics and the
    console output are left out. *)

From Stdlib Require Import ZArith Lia Bool.
From stdpp Require Import base numbers list option gmap.
From S2P Require Import Prelude Disk Subr Freemap.

Abbreviation HAMMER2_IOHASH_SIZE := 32768 (only parsing).
Abbreviation HAMMER2_IOHASH_MASK := 32767 (only parsing).
Abbreviation HAMMER2_DIO_GOOD := 1073741824 (only parsing).    (* 0x40000000 *)
Abbreviation HAMMER2_DIO_DIRTY := 268435456 (only parsing).    (* 0x10000000 *)
Abbreviation HAMMER2_DIO_FLUSH := 134217728 (only parsing).    (* 0x08000000 *)
Abbreviation HAMMER2_DIO_MASK := 16777215 (only parsing).      (* 0x00FFFFFF *)
Abbreviation HAMMER2_DEDUP_FRAG := 1024 (only parsing).
Abbreviation HAMMER2_DEDUP_FRAGRADIX := 10 (only parsing).
Abbreviation PAGE_SHIFT := 12 (only parsing).
Abbreviation PAGE_SIZE := 4096 (only parsing).
Abbreviation EIO := 5 (only parsing).
Abbreviation ENOMEM := 12 (only parsing).
Abbreviation hz := 1000 (only parsing).

(** * The Win32 layer *)

(** [malloc n] is [None] or [n] bytes of arbitrary contents; [alloc_bh_ok] says
    that a buffer head for an offset can be allocated; [ReadFile] returns the
    bytes it got, fewer at the end of the file; [WriteFile] returns the file
    and whether it wrote everything. *)
Class Win32 := {
  malloc : Z -> option (list Z);
  alloc_bh_ok : Z -> Z -> bool;
  ReadFile : Z -> list Z -> Z -> Z -> option (list Z);
  WriteFile : Z -> list Z -> Z -> list Z -> list Z * bool
}.

(** The contents of a file after [d] was written at [off]; a gap reads zeros. *)
Definition fwrite (f : list Z) (off : Z) (d : list Z) : list Z :=
  take (Z.to_nat off) (f ++ replicate (Z.to_nat off) 0) ++ d
  ++ drop (Z.to_nat off + length d) f.

(** [len] bytes at [off], zeros past the end. *)
Definition fread (f : list Z) (off len : Z) : list Z :=
  take (Z.to_nat len) (drop (Z.to_nat off) f ++ replicate (Z.to_nat len) 0).

(** * Data *)

Record volume := Volume {
  v_bdev : Z;        (* dev->bdev *)
  v_offset : Z;
  v_size : Z
}.

Record hio := Hio {
  d_bdev : Z;
  d_dbase : Z;
  d_pbase : Z;
  d_btype : Z;
  d_refs : Z;                 (* uint32_t: count and DIO flags *)
  d_data : option (list Z);   (* private buffer, psize = HAMMER2_PBUFSIZE *)
  d_act : Z;
  d_ticks : Z;
  d_error : Z;
  d_valid : Z;                (* dedup_valid *)
  d_alloc : Z                 (* dedup_alloc *)
}.

Definition set_refs (v : Z) (d : hio) : hio :=
  Hio (d_bdev d) (d_dbase d) (d_pbase d) (d_btype d) v (d_data d) (d_act d) (d_ticks d)
    (d_error d) (d_valid d) (d_alloc d).
Definition set_data (v : option (list Z)) (d : hio) : hio :=
  Hio (d_bdev d) (d_dbase d) (d_pbase d) (d_btype d) (d_refs d) v (d_act d) (d_ticks d)
    (d_error d) (d_valid d) (d_alloc d).
Definition set_act (a t : Z) (d : hio) : hio :=
  Hio (d_bdev d) (d_dbase d) (d_pbase d) (d_btype d) (d_refs d) (d_data d) a t
    (d_error d) (d_valid d) (d_alloc d).
Definition set_error (v : Z) (d : hio) : hio :=
  Hio (d_bdev d) (d_dbase d) (d_pbase d) (d_btype d) (d_refs d) (d_data d) (d_act d) (d_ticks d)
    v (d_valid d) (d_alloc d).
Definition set_dedup (v a : Z) (d : hio) : hio :=
  Hio (d_bdev d) (d_dbase d) (d_pbase d) (d_btype d) (d_refs d) (d_data d) (d_act d) (d_ticks d)
    (d_error d) v a.

(** The part of [hammer2_dev] the cache uses, the files behind the volumes, the
    clock and the global [hammer2_count_dio_allocated]. *)
Record ios := Ios {
  s_volumes : list volume;
  s_hash : gmap Z (list hio);   (* iohash[i].base *)
  s_iofree : Z;                 (* iofree_count *)
  s_iter : Z;                   (* io_iterator *)
  s_lock : Z;                   (* holds on iohash_lock *)
  s_count : Z;                  (* hammer2_count_dio_allocated *)
  s_files : gmap Z (list Z);    (* by bdev *)
  s_ticks : Z;                  (* jiffies, unsigned long *)
  s_limit : Z                   (* hammer2_dio_limit *)
}.

Definition set_hash (v : gmap Z (list hio)) (s : ios) : ios :=
  Ios (s_volumes s) v (s_iofree s) (s_iter s) (s_lock s) (s_count s) (s_files s) (s_ticks s) (s_limit s).
Definition add_iofree (v : Z) (s : ios) : ios :=
  Ios (s_volumes s) (s_hash s) (i32 (s_iofree s + v)) (s_iter s) (s_lock s) (s_count s) (s_files s)
    (s_ticks s) (s_limit s).
Definition set_iter (v : Z) (s : ios) : ios :=
  Ios (s_volumes s) (s_hash s) (s_iofree s) v (s_lock s) (s_count s) (s_files s) (s_ticks s) (s_limit s).
Definition add_lock (v : Z) (s : ios) : ios :=
  Ios (s_volumes s) (s_hash s) (s_iofree s) (s_iter s) (s_lock s + v) (s_count s) (s_files s)
    (s_ticks s) (s_limit s).
Definition add_count (v : Z) (s : ios) : ios :=
  Ios (s_volumes s) (s_hash s) (s_iofree s) (s_iter s) (s_lock s) (i32 (s_count s + v)) (s_files s)
    (s_ticks s) (s_limit s).
Definition set_file (bdev : Z) (f : list Z) (s : ios) : ios :=
  Ios (s_volumes s) (s_hash s) (s_iofree s) (s_iter s) (s_lock s) (s_count s)
    (<[bdev := f]> (s_files s)) (s_ticks s) (s_limit s).

Definition file_of (s : ios) (bdev : Z) : list Z := default [] (s_files s !! bdev).

(** [hammer2_get_volume] *)
Definition hammer2_get_volume (vols : list volume) (offset : Z) : outcome volume :=
  let offset := offset .&~ HAMMER2_OFF_MASK_RADIX in
  match list_find (fun v => v_offset v <= offset /\ offset < u64 (v_offset v + v_size v)) vols with
  | Some (_, v) => Done v
  | None => Panic
  end.

(** * The file back end (hammer2_device_windows.c) *)

Section device.
Context `{!Win32}.

(** [None] is a failure. *)
Definition dev_pread (s : ios) (bdev off len : Z) : option (list Z) :=
  match ReadFile bdev (file_of s bdev) off len with
  | None => None
  | Some got => Some (got ++ replicate (Z.to_nat len - length got) 0)
  end.

Definition dev_pwrite (s : ios) (bdev off : Z) (buf : list Z) : ios * Z :=
  let '(f, ok) := WriteFile bdev (file_of s bdev) off buf in
  (set_file bdev f s, if ok then 0 else - EIO).

(** A buffer head: device, offset, contents. *)
Record buffer_head := Bh {
  b_bdev : Z;
  b_offset : Z;
  b_data : list Z
}.

Definition bread (s : ios) (bdev block size : Z) : option buffer_head :=
  let b_offset := u64 (block * size) in
  if alloc_bh_ok bdev b_offset then
    match dev_pread s bdev b_offset size with
    | Some d => Some (Bh bdev b_offset d)
    | None => None
    end
  else None.

Definition getblk (bdev block size : Z) : option buffer_head :=
  let b_offset := u64 (block * size) in
  if alloc_bh_ok bdev b_offset then Some (Bh bdev b_offset (replicate (Z.to_nat size) 0)) else None.

(** "write-through: sync_dirty_buffer() does the work" *)
Definition mark_buffer_dirty (bh : buffer_head) (s : ios) : ios := s.

Definition sync_dirty_buffer (bh : buffer_head) (s : ios) : ios :=
  (dev_pwrite s (b_bdev bh) (b_offset bh) (b_data bh)).1.

(** [hammer2_dev_bread]: the pages of [buf] from page [i] on are replaced as
    they are read; a failure leaves the rest of [buf] as it was. *)
Fixpoint bread_pages (n : nat) (s : ios) (bdev blk i : Z) (buf : list Z) : list Z * Z :=
  match n with
  | O => (buf, 0)
  | S n =>
      match bread s bdev (blk + i) PAGE_SIZE with
      | None => (buf, - EIO)
      | Some bh => bread_pages n s bdev blk (i + 1) (fwrite buf (i .<< PAGE_SHIFT) (b_data bh))
      end
  end.

Definition hammer2_dev_bread (s : ios) (bdev byteoff : Z) (buf : list Z) (bytes : Z) : list Z * Z :=
  bread_pages (Z.to_nat (bytes .>> PAGE_SHIFT)) s bdev (byteoff .>> PAGE_SHIFT) 0 buf.

(** [hammer2_dev_bwrite] *)
Fixpoint bwrite_pages (n : nat) (s : ios) (bdev blk i : Z) (buf : list Z) (sync : bool) : ios * Z :=
  match n with
  | O => (s, 0)
  | S n =>
      match getblk bdev (blk + i) PAGE_SIZE with
      | None => (s, - EIO)
      | Some bh =>
          let bh := Bh (b_bdev bh) (b_offset bh)
                      (take (Z.to_nat PAGE_SIZE) (drop (Z.to_nat (i .<< PAGE_SHIFT)) buf)) in
          let s := mark_buffer_dirty bh s in
          let s := if sync then sync_dirty_buffer bh s else s in
          bwrite_pages n s bdev blk (i + 1) buf sync
      end
  end.

Definition hammer2_dev_bwrite (s : ios) (bdev byteoff : Z) (buf : list Z) (bytes : Z) (sync : bool)
  : ios * Z :=
  bwrite_pages (Z.to_nat (bytes .>> PAGE_SHIFT)) s bdev (byteoff .>> PAGE_SHIFT) 0 buf sync.
End device.

(** * The hash *)

Definition hammer2_io_hashv (pbase : Z) : Z :=
  i32 (i32 pbase + i32 (pbase .>> 16)) .& HAMMER2_IOHASH_MASK.

Definition bucket (s : ios) (i : Z) : list hio := default [] (s_hash s !! i).
Definition set_bucket (i : Z) (l : list hio) (s : ios) : ios := set_hash (<[i := l]> (s_hash s)) s.

(** [for (dio = hash->base; dio; dio = dio->next) if (dio->pbase == pbase)] *)
Fixpoint find_dio (pbase : Z) (l : list hio) : option hio :=
  match l with
  | [] => None
  | d :: l => if d_pbase d =? pbase then Some d else find_dio pbase l
  end.

(** An assignment through the pointer the loop found. *)
Fixpoint update_dio (pbase : Z) (f : hio -> hio) (l : list hio) : list hio :=
  match l with
  | [] => []
  | d :: l => if d_pbase d =? pbase then f d :: l else d :: update_dio pbase f l
  end.

Definition get_dio (s : ios) (pbase : Z) : option hio :=
  find_dio pbase (bucket s (hammer2_io_hashv pbase)).
Definition mod_dio (pbase : Z) (f : hio -> hio) (s : ios) : ios :=
  let i := hammer2_io_hashv pbase in set_bucket i (update_dio pbase f (bucket s i)) s.

Definition dio_count (d : hio) : Z := d_refs d .& HAMMER2_DIO_MASK.

(** Reference an existing dio. *)
Definition ref_dio (pbase : Z) (d : hio) (s : ios) : ios :=
  let s := mod_dio pbase (fun d => set_refs (u32 (d_refs d + 1)) d) s in
  if dio_count d =? 0 then add_iofree (- 1) s else s.

Definition hammer2_io_hash_lookup (s : ios) (pbase : Z) : bool * ios :=
  match get_dio s pbase with
  | Some d => (true, ref_dio pbase d s)
  | None => (false, s)
  end.

(** True when [dio] was entered, false when its [pbase] was there already. *)
Definition hammer2_io_hash_enter (s : ios) (dio : hio) : bool * ios :=
  match get_dio s (d_pbase dio) with
  | Some xio => (false, ref_dio (d_pbase dio) xio s)
  | None =>
      let i := hammer2_io_hashv (d_pbase dio) in
      (true, set_bucket i (bucket s i ++ [dio]) s)
  end.

(** [hammer2_assert_io_refs] *)
Definition hammer2_assert_io_refs (s : ios) (pbase : Z) : outcome hio :=
  match get_dio s pbase with
  | None => Panic
  | Some d => assert! negb (dio_count d =? 0); Done d
  end.

Definition touch (s : ios) (d : hio) : hio :=
  set_act (if d_act d <? 10 then d_act d + 1 else d_act d) (i32 (s_ticks s)) d.

Definition lsize_of (data_off : Z) : Z :=
  if data_off .& HAMMER2_OFF_MASK_RADIX =? 0 then 0
  else i32 (1 .<< (data_off .& HAMMER2_OFF_MASK_RADIX)).

Definition new_dio (vol : volume) (pbase btype : Z) : hio :=
  Hio (v_bdev vol) (v_offset vol) pbase btype 1 None 5 0 0 0 0.

(** [None]: no dio and [createit] is false. *)
Definition hammer2_io_alloc (s : ios) (data_off btype : Z) (createit : bool)
  : outcome (option Z * ios) :=
  let lsize := lsize_of data_off in
  let lbase := data_off .&~ HAMMER2_OFF_MASK_RADIX in
  let pbase := lbase .&~ HAMMER2_PBUFMASK in
  if (pbase =? 0) || negb (u64 (lbase + lsize - 1) .&~ HAMMER2_PBUFMASK =? pbase) then Panic
  else
    let '(found, s) := hammer2_io_hash_lookup s pbase in
    let! r :=
      if found then Done (Some s)
      else if createit then
        let! vol := hammer2_get_volume (s_volumes s) pbase in
        assert! v_offset vol .& HAMMER2_FREEMAP_LEVEL1_MASK =? 0;
        let '(entered, s) := hammer2_io_hash_enter s (new_dio vol pbase btype) in
        Done (Some (if entered then add_count 1 s else s))
      else Done None in
    match r with
    | None => Done (None, s)
    | Some s =>
        let s := mod_dio pbase (touch s) s in
        let! _ := hammer2_assert_io_refs s pbase in
        Done (Some pbase, s)
    end.

(** [hammer2_io_data]: the offset in the private buffer. *)
Definition hammer2_io_data (d : hio) (lbase : Z) : outcome Z :=
  assert! match d_data d with Some _ => true | None => false end;
  let lbase := u64 (lbase - d_dbase d) in
  let off := i32 (lbase .&~ HAMMER2_OFF_MASK_RADIX - u64 (d_pbase d - d_dbase d)) in
  assert! 0 <=? off;
  assert! off <? HAMMER2_PBUFSIZE;
  Done off.

(** * Getting a buffer *)

Inductive dop := DOP_READ | DOP_NEW | DOP_NEWNZ | DOP_READQ.

Definition or_refs (m : Z) (d : hio) : hio := set_refs (d_refs d .| m) d.

(** [bzero(hammer2_io_data(dio, lbase), lsize)] *)
Definition bzero_data (d : hio) (lbase lsize : Z) : outcome hio :=
  let! off := hammer2_io_data d lbase in
  Done (set_data (option_map (fun x => fwrite x off (replicate (Z.to_nat lsize) 0)) (d_data d)) d).

(** The switch on [op] over a buffer with contents. *)
Definition good_op (op : dop) (d : hio) (lbase lsize : Z) : outcome hio :=
  match op with
  | DOP_NEW => let! d := bzero_data d lbase lsize in Done (or_refs HAMMER2_DIO_DIRTY d)
  | DOP_NEWNZ => Done (or_refs HAMMER2_DIO_DIRTY d)
  | _ => Done d
  end.

Section cache.
Context `{!Win32}.

Definition hammer2_bread (s : ios) (d : hio) : hio * Z :=
  match (match d_data d with Some x => Some x | None => malloc HAMMER2_PBUFSIZE end) with
  | None => (d, - ENOMEM)
  | Some x =>
      let '(x, error) := hammer2_dev_bread s (d_bdev d) (d_pbase d - d_dbase d) x HAMMER2_PBUFSIZE in
      (set_data (Some x) d, error)
  end.

(** A fresh allocation of the whole buffer. *)
Definition fresh_op (op : dop) (d : hio) : hio * Z :=
  match malloc HAMMER2_PBUFSIZE with
  | None => (d, - ENOMEM)
  | Some x =>
      let x := match op with DOP_NEW => replicate (Z.to_nat HAMMER2_PBUFSIZE) 0 | _ => x end in
      (or_refs HAMMER2_DIO_DIRTY (set_data (Some x) d), 0)
  end.

(** The path on which GOOD is not set. *)
Definition load_dio (s : ios) (op : dop) (d : hio) (lbase lsize : Z) : outcome hio :=
  assert! match d_data d with Some _ => false | None => true end;
  let! (d, error) :=
    if (d_pbase d =? lbase .&~ HAMMER2_OFF_MASK_RADIX) && (lsize =? HAMMER2_PBUFSIZE) then
      match op with
      | DOP_NEW | DOP_NEWNZ => Done (fresh_op op d)
      | _ => Done (hammer2_bread s d)
      end
    else
      let '(d, error) := hammer2_bread s d in
      match d_data d with
      | Some _ =>
          if error =? 0 then let! d := good_op op d lbase lsize in Done (d, error)
          else Done (d, error)
      | None => Done (d, error)
      end in
  let d := set_error error d in
  Done (if error =? 0 then or_refs HAMMER2_DIO_GOOD d else d).

(** Returns the dio, [None] when a quick read misses. *)
Definition hammer2_io_getblk (s : ios) (btype lbase lsize : Z) (op : dop)
  : outcome (option Z * ios) :=
  assert! i32 (1 .<< (lbase .& HAMMER2_OFF_MASK_RADIX)) =? lsize;
  let s := add_lock 1 s in
  let createit := match op with DOP_READQ => false | _ => true end in
  let! (r, s) := hammer2_io_alloc s lbase btype createit in
  match r with
  | None => match op with DOP_READQ => Done (None, s) | _ => Panic end
  | Some pbase =>
      let op := match op with DOP_READQ => DOP_READ | _ => op end in
      let! d := hammer2_assert_io_refs s pbase in
      let s := add_lock (- 1) s in
      let! d :=
        if tst (d_refs d) HAMMER2_DIO_GOOD then good_op op d lbase lsize
        else load_dio s op d lbase lsize in
      Done (Some pbase, mod_dio pbase (fun _ => d) s)
  end.

(** * Cleaning the hash *)

(** Age an unreferenced dio: [act - (getticks() - ticks) / hz - 1] in
    [unsigned long]. *)
Definition aged_act (ticks : Z) (d : hio) : Z :=
  if 0 <? d_act d then
    let act := i32 (u32 (d_act d - u32 (ticks - d_ticks d) / hz - 1)) in
    if act <? 0 then 0 else act
  else d_act d.

(** One bucket: what stays, and how many dios were freed. *)
Fixpoint clean_chain (ticks : Z) (l : list hio) : list hio * Z :=
  match l with
  | [] => ([], 0)
  | d :: l =>
      let '(kept, freed) := clean_chain ticks l in
      if negb (dio_count d =? 0) then (d :: kept, freed)
      else
        let act := aged_act ticks d in
        if negb (act =? 0) then (set_act act (d_ticks d) d :: kept, freed)
        else (kept, freed + 1)
  end.

(** [while (count > 0 && maxscan--)] *)
Fixpoint cleanup_loop (maxscan : nat) (i count : Z) (s : ios) : ios :=
  match maxscan with
  | O => s
  | S maxscan =>
      if 0 <? count then
        let b := i .& HAMMER2_IOHASH_MASK in
        let '(kept, freed) := clean_chain (s_ticks s) (bucket s b) in
        let s := add_count (- freed) (add_iofree (- freed) (set_bucket b kept s)) in
        let i := s_iter s in
        cleanup_loop maxscan i (count - freed) (set_iter (i32 (i + 1)) s)
      else s
  end.

Definition hammer2_io_hash_cleanup (s : ios) (dio_limit : Z) : ios :=
  let count := s_iofree s - dio_limit + 32 in
  if count <=? 0 then s
  else
    let i := s_iter s in
    cleanup_loop (Z.to_nat HAMMER2_IOHASH_SIZE) i count (set_iter (i32 (i + 1)) s).

(** [hammer2_io_hash_cleanup_all]: one bucket, then all of them. *)
Fixpoint drop_chain (l : list hio) (s : ios) : outcome ios :=
  match l with
  | [] => Done s
  | d :: l =>
      assert! dio_count d =? 0;
      drop_chain l (add_iofree (- 1) (add_count (- 1) s))
  end.

Fixpoint cleanup_all (n : nat) (i : Z) (s : ios) : outcome ios :=
  match n with
  | O => Done s
  | S n =>
      let! s := drop_chain (bucket s i) s in
      cleanup_all n (i + 1) (set_bucket i [] s)
  end.

Definition hammer2_io_hash_cleanup_all (s : ios) : outcome ios :=
  cleanup_all (Z.to_nat HAMMER2_IOHASH_SIZE) 0 s.

(** * Releasing a buffer *)

Definition clamp_limit (l : Z) : Z :=
  let l := if l <? 256 then 256 else l in
  if 1048576 <? l then 1048576 else l.

(** The 1->0 transition; [orefs] is the value before it. *)
Definition last_drop (s : ios) (pbase orefs : Z) (d : hio) : ios :=
  let s :=
    match d_data d with
    | Some x =>
        if tst orefs HAMMER2_DIO_GOOD && tst orefs HAMMER2_DIO_DIRTY
        then (hammer2_dev_bwrite s (d_bdev d) (d_pbase d - d_dbase d) x HAMMER2_PBUFSIZE
                (tst (d_refs d) HAMMER2_DIO_FLUSH)).1
        else s
    | None => s
    end in
  let s := mod_dio pbase (set_data None) s in
  add_iofree 1 s.

(** A released pointer whose dio is gone is a use after free: [Panic]. *)
Definition hammer2_io_putblk (s : ios) (pbase : Z) : outcome ios :=
  match get_dio s pbase with
  | None => Panic
  | Some d =>
      if dio_count d =? 0 then Done s
      else
        let orefs := d_refs d in
        if dio_count d =? 1 then
          let refs := u32 (d_refs d - 1) .&~ (HAMMER2_DIO_GOOD .| HAMMER2_DIO_DIRTY) in
          let d := set_refs refs d in
          let s := mod_dio pbase (fun _ => d) s in
          let s := last_drop s pbase orefs d in
          assert! negb (tst refs HAMMER2_DIO_GOOD);
          let s := add_lock 1 s in
          let dio_limit := clamp_limit (s_limit s) in
          let s := if dio_limit <? s_iofree s then hammer2_io_hash_cleanup s dio_limit else s in
          Done (add_lock (- 1) s)
        else Done (mod_dio pbase (set_refs (u32 (d_refs d - 1))) s)
  end.

(** * The client interface *)

Definition dio_error (s : ios) (pbase : Z) : Z :=
  match get_dio s pbase with Some d => d_error d | None => 0 end.

(** The dio and its error. *)
Definition with_error (m : outcome (option Z * ios)) : outcome (Z * Z * ios) :=
  let! (r, s) := m in
  match r with Some pbase => Done (pbase, dio_error s pbase, s) | None => Panic end.

Definition hammer2_io_new (s : ios) (btype lbase lsize : Z) : outcome (Z * Z * ios) :=
  with_error (hammer2_io_getblk s btype lbase lsize DOP_NEW).
Definition hammer2_io_newnz (s : ios) (btype lbase lsize : Z) : outcome (Z * Z * ios) :=
  with_error (hammer2_io_getblk s btype lbase lsize DOP_NEWNZ).
Definition hammer2_io_bread (s : ios) (btype lbase lsize : Z) : outcome (Z * Z * ios) :=
  with_error (hammer2_io_getblk s btype lbase lsize DOP_READ).
Definition hammer2_io_getquick (s : ios) (lbase lsize : Z) : outcome (option Z * ios) :=
  hammer2_io_getblk s 0 lbase lsize DOP_READQ.

Definition hammer2_io_setdirty (s : ios) (pbase : Z) : ios :=
  mod_dio pbase (or_refs HAMMER2_DIO_DIRTY) s.
Definition hammer2_io_bawrite (s : ios) (pbase : Z) : outcome ios :=
  hammer2_io_putblk (mod_dio pbase (or_refs (HAMMER2_DIO_DIRTY .| HAMMER2_DIO_FLUSH)) s) pbase.
Definition hammer2_io_bdwrite (s : ios) (pbase : Z) : outcome ios :=
  hammer2_io_putblk (mod_dio pbase (or_refs HAMMER2_DIO_DIRTY) s) pbase.
Definition hammer2_io_bwrite (s : ios) (pbase : Z) : outcome ios :=
  hammer2_io_putblk (mod_dio pbase (or_refs (HAMMER2_DIO_DIRTY .| HAMMER2_DIO_FLUSH)) s) pbase.
Definition hammer2_io_brelse (s : ios) (pbase : Z) : outcome ios := hammer2_io_putblk s pbase.
Definition hammer2_io_bqrelse (s : ios) (pbase : Z) : outcome ios := hammer2_io_putblk s pbase.

(** * Dedup bits *)

Definition hammer2_dedup_mask (d : hio) (data_off bytes : Z) : Z :=
  let bbeg := i32 (data_off .&~ HAMMER2_OFF_MASK_RADIX - d_pbase d) .>> HAMMER2_DEDUP_FRAGRADIX in
  let bits := i32 (u32 (bytes + (HAMMER2_DEDUP_FRAG - 1)) .>> HAMMER2_DEDUP_FRAGRADIX) in
  let mask := if bbeg + bits =? 64 then u64 (- 1) else u64 (1 .<< (bbeg + bits)) - 1 in
  mask .&~ (u64 (1 .<< bbeg) - 1).

Definition hammer2_io_dedup_set (s : ios) (bref : blockref) : outcome ios :=
  let! (r, s) := hammer2_io_alloc (add_lock 1 s) (br_data_off bref) (br_type bref) true in
  match r with
  | None => Panic
  | Some pbase =>
      let! d := hammer2_assert_io_refs s pbase in
      let s := add_lock (- 1) s in
      let lsize := lsize_of (br_data_off bref) in
      let mask := hammer2_dedup_mask d (br_data_off bref) lsize in
      let s := mod_dio pbase (fun d => set_dedup (d_valid d .&~ mask) (d_alloc d .| mask) d) s in
      hammer2_io_putblk s pbase
  end.

Definition hammer2_io_dedup_delete (s : ios) (btype data_off bytes : Z) : outcome ios :=
  if data_off .&~ HAMMER2_OFF_MASK_RADIX =? 0 then Done s
  else if negb (btype =? HAMMER2_BREF_TYPE_DATA) then Done s
  else
    let! (r, s) := hammer2_io_alloc (add_lock 1 s) data_off btype false in
    match r with
    | None => Done (add_lock (- 1) s)
    | Some pbase =>
        let! d := hammer2_assert_io_refs s pbase in
        let s := add_lock (- 1) s in
        if (data_off <? d_pbase d)
           || (u64 (d_pbase d + HAMMER2_PBUFSIZE) <? u64 (data_off .&~ HAMMER2_OFF_MASK_RADIX + bytes))
        then Panic
        else
          let mask := hammer2_dedup_mask d data_off bytes in
          let s := mod_dio pbase (fun d => set_dedup (d_valid d .&~ mask) (d_alloc d .&~ mask) d) s in
          hammer2_io_putblk s pbase
    end.

Definition hammer2_io_dedup_assert (s : ios) (data_off bytes : Z) : outcome ios :=
  let! (r, s) := hammer2_io_alloc (add_lock 1 s) data_off HAMMER2_BREF_TYPE_DATA false in
  match r with
  | None => Done (add_lock (- 1) s)
  | Some pbase =>
      let! d := hammer2_assert_io_refs s pbase in
      let s := add_lock (- 1) s in
      assert! d_alloc d .& hammer2_dedup_mask d data_off bytes =? 0;
      hammer2_io_putblk s pbase
  end.

(** The cache is what the freemap code calls. *)
#[export] Instance cache_ops : IoOps ios := {|
  io_newnz btype lbase lsize s :=
    let! (dio, _, s) := hammer2_io_newnz s btype lbase lsize in hammer2_io_putblk s dio;
  io_dedup_set bref s := hammer2_io_dedup_set s bref;
  io_dedup_delete btype off bytes s := hammer2_io_dedup_delete s btype off bytes;
  io_dedup_assert off bytes s := hammer2_io_dedup_assert s off bytes
|}.
End cache.
