(* ===== verification/IoLemmas.v ===== *)
(** Lemmas on the parts of the buffer cache: files as functions from offsets to
    bytes, the reference count word, the hash as a map, the state of one dio,
    and the page-by-page device transfers. *)

From Stdlib Require Import ZArith Lia Bool.
From stdpp Require Import base numbers list option gmap.
From S2P Require Import Prelude Disk Subr Freemap Io.

(** * Files as functions from offsets to bytes *)

Definition fbyte (f : list Z) (j : nat) : Z := default 0 (f !! j).

Lemma fbyte_ext (a b : list Z) :
  length a = length b -> (forall j, (j < length a)%nat -> fbyte a j = fbyte b j) -> a = b.
Proof.
  intros Hl H. apply list_eq_same_length with (length a); [symmetry; exact Hl|reflexivity|].
  intros j x y Hj Hx Hy. specialize (H j Hj). unfold fbyte in H. rewrite Hx, Hy in H. exact H.
Qed.

Lemma fread_length f off len : length (fread f off len) = Z.to_nat len.
Proof. unfold fread. rewrite length_take, length_app, length_replicate. lia. Qed.

Lemma fbyte_fread f off len j :
  (j < Z.to_nat len)%nat -> fbyte (fread f off len) j = fbyte f (Z.to_nat off + j).
Proof.
  intros Hj. unfold fbyte, fread. rewrite lookup_take_lt by lia.
  destruct (decide (Z.to_nat off + j < length f)%nat).
  - rewrite lookup_app_l by (rewrite length_drop; lia). rewrite lookup_drop. reflexivity.
  - rewrite lookup_app_r by (rewrite length_drop; lia).
    rewrite lookup_replicate_2 by (rewrite length_drop; lia).
    rewrite (lookup_ge_None_2 f) by lia. reflexivity.
Qed.

Lemma fbyte_fwrite f off d j :
  0 <= off ->
  fbyte (fwrite f off d) j
  = if decide (Z.to_nat off <= j < Z.to_nat off + length d)%nat
    then fbyte d (j - Z.to_nat off) else fbyte f j.
Proof.
  intros Hoff. unfold fbyte, fwrite. set (n := Z.to_nat off).
  assert (Hn : length (take n (f ++ replicate n 0)) = n).
  { rewrite length_take, length_app, length_replicate. lia. }
  case_decide as Hj.
  - rewrite lookup_app_r, Hn by lia. rewrite lookup_app_l by lia. reflexivity.
  - destruct (decide (j < n)%nat).
    + rewrite lookup_app_l by lia. rewrite lookup_take_lt by lia.
      destruct (decide (j < length f)%nat).
      * rewrite lookup_app_l by lia. reflexivity.
      * rewrite lookup_app_r by lia. rewrite lookup_replicate_2 by lia.
        rewrite (lookup_ge_None_2 f) by lia. reflexivity.
    + rewrite lookup_app_r, Hn by lia. rewrite lookup_app_r by lia. rewrite lookup_drop.
      do 2 f_equal. lia.
Qed.

Lemma fwrite_length f off d :
  0 <= off -> (Z.to_nat off + length d <= length f)%nat -> length (fwrite f off d) = length f.
Proof.
  intros Hoff H. unfold fwrite.
  rewrite !length_app, length_take, length_app, length_replicate, length_drop. lia.
Qed.

(** Reads that do not meet the written range. *)
Lemma fread_ext f f' off len :
  (forall j, (Z.to_nat off <= j < Z.to_nat off + Z.to_nat len)%nat -> fbyte f' j = fbyte f j) ->
  fread f' off len = fread f off len.
Proof.
  intros H. apply fbyte_ext; [rewrite !fread_length; reflexivity|].
  intros j Hj. rewrite fread_length in Hj. rewrite !fbyte_fread by lia. apply H. lia.
Qed.

(** * The reference count word *)

Definition flag (b : bool) (k : Z) : Z := if b then 2 ^ k else 0.
Definition enc (n : Z) (good dirty flush : bool) : Z :=
  n + (flag good 30 + flag dirty 28 + flag flush 27).

Lemma enc_range n g d f : 0 <= n < 2 ^ 24 -> 0 <= enc n g d f < 2 ^ 32.
Proof. unfold enc, flag. destruct g, d, f; lia. Qed.

Lemma enc_lor n g d f :
  0 <= n < 2 ^ 24 -> enc n g d f = (flag g 30 + flag d 28 + flag f 27) .| n.
Proof.
  intros Hn. unfold enc. rewrite (lor_disjoint _ _ 24); [lia|lia| |exact Hn].
  apply Z.mod_divide; [lia|]. destruct g, d, f; reflexivity.
Qed.

Lemma enc_count n g d f : 0 <= n < 2 ^ 24 -> enc n g d f .& HAMMER2_DIO_MASK = n.
Proof.
  intros Hn. change HAMMER2_DIO_MASK with (Z.ones 24). rewrite land_ones_mod by lia.
  unfold enc, flag. destruct g, d, f; div_mod_lia.
Qed.

Lemma enc_testbit n g d f k :
  0 <= n < 2 ^ 24 -> 24 <= k ->
  Z.testbit (enc n g d f) k = Z.testbit (flag g 30 + flag d 28 + flag f 27) k.
Proof.
  intros Hn Hk. rewrite enc_lor, Z.lor_spec, (testbit_high n 24) by lia. apply orb_false_r.
Qed.

Lemma enc_good n g d f : 0 <= n < 2 ^ 24 -> tst (enc n g d f) HAMMER2_DIO_GOOD = g.
Proof.
  intros Hn. change HAMMER2_DIO_GOOD with (2 ^ 30). rewrite tst_pow2, enc_testbit by lia.
  destruct g, d, f; reflexivity.
Qed.
Lemma enc_dirty n g d f : 0 <= n < 2 ^ 24 -> tst (enc n g d f) HAMMER2_DIO_DIRTY = d.
Proof.
  intros Hn. change HAMMER2_DIO_DIRTY with (2 ^ 28). rewrite tst_pow2, enc_testbit by lia.
  destruct g, d, f; reflexivity.
Qed.
Lemma enc_flush n g d f : 0 <= n < 2 ^ 24 -> tst (enc n g d f) HAMMER2_DIO_FLUSH = f.
Proof.
  intros Hn. change HAMMER2_DIO_FLUSH with (2 ^ 27). rewrite tst_pow2, enc_testbit by lia.
  destruct g, d, f; reflexivity.
Qed.

Lemma enc_lor_const n g d f m g' d' f' :
  0 <= n < 2 ^ 24 ->
  (flag g 30 + flag d 28 + flag f 27) .| m = flag g' 30 + flag d' 28 + flag f' 27 ->
  enc n g d f .| m = enc n g' d' f'.
Proof.
  intros Hn H. rewrite !enc_lor by exact Hn.
  rewrite <- Z.lor_assoc, (Z.lor_comm n), Z.lor_assoc, H. reflexivity.
Qed.

Lemma enc_set_good n g d f : 0 <= n < 2 ^ 24 -> enc n g d f .| HAMMER2_DIO_GOOD = enc n true d f.
Proof. intros Hn. apply enc_lor_const; [exact Hn|]. destruct g, d, f; reflexivity. Qed.
Lemma enc_set_dirty n g d f : 0 <= n < 2 ^ 24 -> enc n g d f .| HAMMER2_DIO_DIRTY = enc n g true f.
Proof. intros Hn. apply enc_lor_const; [exact Hn|]. destruct g, d, f; reflexivity. Qed.
Lemma enc_set_flush n g d f :
  0 <= n < 2 ^ 24 ->
  enc n g d f .| (HAMMER2_DIO_DIRTY .| HAMMER2_DIO_FLUSH) = enc n g true true.
Proof. intros Hn. apply enc_lor_const; [exact Hn|]. destruct g, d, f; reflexivity. Qed.

Lemma enc_succ n g d f : 0 <= n -> n + 1 < 2 ^ 24 -> u32 (enc n g d f + 1) = enc (n + 1) g d f.
Proof.
  intros Hn H. rewrite u32_small; [unfold enc; lia|].
  pose proof (enc_range (n + 1) g d f ltac:(lia)). unfold enc in *. lia.
Qed.
Lemma enc_pred n g d f : 0 < n < 2 ^ 24 -> u32 (enc n g d f - 1) = enc (n - 1) g d f.
Proof.
  intros Hn. rewrite u32_small; [unfold enc; lia|].
  pose proof (enc_range (n - 1) g d f ltac:(lia)). unfold enc in *. lia.
Qed.
Lemma enc_last g d f :
  u32 (enc 1 g d f - 1) .&~ (HAMMER2_DIO_GOOD .| HAMMER2_DIO_DIRTY) = enc 0 false false f.
Proof. destruct g, d, f; reflexivity. Qed.

(** * The hash as a map from [pbase] to dios *)

Lemma find_dio_pbase pb l d : find_dio pb l = Some d -> d_pbase d = pb.
Proof.
  induction l as [|x l IH]; [discriminate|]. cbn. destruct (Z.eqb_spec (d_pbase x) pb); [|exact IH].
  intros [= <-]. assumption.
Qed.

Lemma find_dio_notin pb l : pb ∉ map d_pbase l -> find_dio pb l = None.
Proof.
  induction l as [|x l IH]; [reflexivity|]. cbn. rewrite not_elem_of_cons. intros [Hne Hni].
  destruct (Z.eqb_spec (d_pbase x) pb); [congruence|]. exact (IH Hni).
Qed.

Lemma find_update_eq pb f l :
  (forall d, d_pbase d = pb -> d_pbase (f d) = pb) ->
  find_dio pb (update_dio pb f l) = option_map f (find_dio pb l).
Proof.
  intros Hf. induction l as [|x l IH]; [reflexivity|]. cbn.
  destruct (Z.eqb_spec (d_pbase x) pb) as [E|E]; cbn.
  - rewrite Hf, Z.eqb_refl by exact E. reflexivity.
  - destruct (Z.eqb_spec (d_pbase x) pb); [contradiction|]. exact IH.
Qed.

Lemma find_update_ne pb pb' f l :
  (forall d, d_pbase d = pb -> d_pbase (f d) = pb) -> pb' <> pb ->
  find_dio pb' (update_dio pb f l) = find_dio pb' l.
Proof.
  intros Hf Hne. induction l as [|x l IH]; [reflexivity|]. cbn.
  destruct (Z.eqb_spec (d_pbase x) pb) as [E|E]; cbn.
  - rewrite Hf, E by exact E. destruct (Z.eqb_spec pb pb'); [congruence|reflexivity].
  - rewrite IH. reflexivity.
Qed.

Lemma update_dio_pbases pb f l :
  (forall d, d_pbase d = pb -> d_pbase (f d) = pb) ->
  map d_pbase (update_dio pb f l) = map d_pbase l.
Proof.
  intros Hf. induction l as [|x l IH]; [reflexivity|]. cbn.
  destruct (Z.eqb_spec (d_pbase x) pb) as [E|E]; cbn; [rewrite (Hf x E), E|rewrite IH]; reflexivity.
Qed.

Lemma bucket_set i j l s : bucket (set_bucket i l s) j = if decide (i = j) then l else bucket s j.
Proof.
  unfold bucket, set_bucket. cbn. case_decide as H; [subst; rewrite lookup_insert_eq|rewrite lookup_insert_ne by exact H]; reflexivity.
Qed.

Definition buckets_ok (s : ios) : Prop := forall i, NoDup (map d_pbase (bucket s i)).

(** [s'] is [s] with the dio [d] at [pb], and [k] more holds on the hash lock. *)
Record upd (k pb : Z) (d : hio) (s s' : ios) : Prop := {
  upd_at : get_dio s' pb = Some d;
  upd_ne pb' : pb' <> pb -> get_dio s' pb' = get_dio s pb';
  upd_buckets : buckets_ok s -> buckets_ok s';
  upd_files : s_files s' = s_files s;
  upd_volumes : s_volumes s' = s_volumes s;
  upd_lock : s_lock s' = s_lock s + k
}.

Lemma upd_trans k1 k2 pb d1 d2 s s1 s2 :
  upd k1 pb d1 s s1 -> upd k2 pb d2 s1 s2 -> upd (k1 + k2) pb d2 s s2.
Proof.
  intros [A1 N1 B1 F1 V1 L1] [A2 N2 B2 F2 V2 L2]. constructor; try congruence; try lia; auto.
  intros pb' Hne. rewrite N2, N1 by exact Hne. reflexivity.
Qed.

Lemma upd_lock_add k j pb d s s' : upd k pb d s s' -> upd (k + j) pb d s (add_lock j s').
Proof.
  intros [A N B F V L]. constructor; try assumption. cbn. lia.
Qed.
Lemma upd_from_lock k j pb d s s' : upd k pb d (add_lock j s) s' -> upd (j + k) pb d s s'.
Proof.
  intros [A N B F V L]. constructor; try assumption. cbn in L. lia.
Qed.
Lemma upd_0 k pb d s s' : k = 0 -> upd k pb d s s' -> upd 0 pb d s s'.
Proof. intros ->. auto. Qed.

Lemma upd_mod pb d f s :
  get_dio s pb = Some d -> (forall d, d_pbase d = pb -> d_pbase (f d) = pb) ->
  upd 0 pb (f d) s (mod_dio pb f s).
Proof.
  intros Hd Hf. unfold mod_dio. constructor; try reflexivity; [| | |cbn; lia].
  - unfold get_dio in *. rewrite bucket_set, decide_True by reflexivity.
    rewrite find_update_eq by exact Hf. rewrite Hd. reflexivity.
  - intros pb' Hne. unfold get_dio. rewrite bucket_set. case_decide as H; [|reflexivity].
    rewrite H. apply find_update_ne; assumption.
  - intros Hb i. rewrite bucket_set. case_decide as H; [|apply Hb].
    rewrite update_dio_pbases by exact Hf. apply Hb.
Qed.

Lemma upd_ref pb d s :
  get_dio s pb = Some d -> upd 0 pb (set_refs (u32 (d_refs d + 1)) d) s (ref_dio pb d s).
Proof.
  intros Hd. pose proof (upd_mod pb d (fun d => set_refs (u32 (d_refs d + 1)) d) s Hd (fun _ H => H)) as H.
  unfold ref_dio. destruct (dio_count d =? 0); [|exact H].
  destruct H as [A N B F V L]. constructor; assumption.
Qed.

Lemma upd_enter d s :
  get_dio s (d_pbase d) = None ->
  let i := hammer2_io_hashv (d_pbase d) in upd 0 (d_pbase d) d s (set_bucket i (bucket s i ++ [d]) s).
Proof.
  intros Hd i. assert (Hfind : forall pb l, find_dio pb (l ++ [d])
    = match find_dio pb l with Some x => Some x | None => if d_pbase d =? pb then Some d else None end).
  { intros pb l. induction l as [|x l IH]; [reflexivity|]. cbn. destruct (d_pbase x =? pb); [reflexivity|exact IH]. }
  constructor; try reflexivity; [| | |cbn; lia].
  - unfold get_dio in *. fold i in Hd |- *. rewrite bucket_set, decide_True, Hfind, Hd, Z.eqb_refl by reflexivity.
    reflexivity.
  - intros pb' Hne. unfold get_dio. rewrite bucket_set. case_decide as H; [|reflexivity].
    rewrite Hfind, H. destruct (find_dio pb' _); [reflexivity|].
    destruct (Z.eqb_spec (d_pbase d) pb'); [congruence|reflexivity].
  - intros Hb j. rewrite bucket_set. case_decide as H; [subst j|apply Hb].
    rewrite map_app. apply NoDup_app. split; [apply Hb|]. split; [|apply NoDup_singleton].
    intros x Hx Hx'. apply list_elem_of_singleton in Hx'. subst x.
    revert Hd Hx. unfold get_dio. fold i. generalize (bucket s i) as l.
    induction l as [|x l IH]; cbn; [intros _ H; apply not_elem_of_nil in H; exact H|].
    destruct (Z.eqb_spec (d_pbase x) (d_pbase d)); [discriminate|].
    intros H1 H2. apply elem_of_cons in H2 as [H2|H2]; [congruence|]. exact (IH H1 H2).
Qed.

(** * Volumes, regions, contents *)

(** The region of the device behind the buffer at [pb]. *)
Definition region (s : ios) (pb : Z) : list Z :=
  match hammer2_get_volume (s_volumes s) pb with
  | Done v => fread (file_of s (v_bdev v)) (pb - v_offset v) HAMMER2_PBUFSIZE
  | Panic => []
  end.

(** What a client sees at [pb]. *)
Definition content (s : ios) (pb : Z) : list Z :=
  match get_dio s pb with
  | Some d => match d_data d with Some x => x | None => region s pb end
  | None => region s pb
  end.

(** Volumes start at multiples of 1GB and have a device each. *)
Definition volumes_ok (vols : list volume) : Prop :=
  Forall (fun v => 0 <= v_offset v /\ (2 ^ 30 | v_offset v)) vols /\ NoDup (map v_bdev vols).

(** The state of one dio: count and flags. *)
Record dio_st (s : ios) (pb : Z) (d : hio) (n : Z) (g di f : bool) : Prop := {
  st_pbase : d_pbase d = pb;
  st_base : 0 < pb < 2 ^ 64 /\ (2 ^ 16 | pb);
  st_refs : d_refs d = enc n g di f;
  st_count : 0 <= n < 2 ^ 24;
  st_vol : exists v, hammer2_get_volume (s_volumes s) pb = Done v
                     /\ d_bdev d = v_bdev v /\ d_dbase d = v_offset v;
  st_idle : n = 0 -> g = false;
  st_data : if g then exists x, d_data d = Some x /\ length x = Z.to_nat HAMMER2_PBUFSIZE
                                /\ d_error d = 0 /\ (di = false -> x = region s pb)
            else d_data d = None /\ di = false
}.

Definition io_ok (s : ios) : Prop :=
  volumes_ok (s_volumes s) /\ buckets_ok s
  /\ forall pb d, get_dio s pb = Some d -> exists n g di f, dio_st s pb d n g di f.

Lemma region_frame s s' pb :
  s_files s' = s_files s -> s_volumes s' = s_volumes s -> region s' pb = region s pb.
Proof. unfold region, file_of. intros -> ->. reflexivity. Qed.

Lemma dio_st_frame s s' pb d n g di f :
  s_volumes s' = s_volumes s -> region s' pb = region s pb ->
  dio_st s pb d n g di f -> dio_st s' pb d n g di f.
Proof.
  intros Hv Hr [P B R C V I D]. constructor; try assumption; [rewrite Hv; exact V|].
  destruct g; [rewrite Hr|]; exact D.
Qed.

Lemma io_ok_upd k pb d s s' n g di f :
  io_ok s -> upd k pb d s s' -> dio_st s pb d n g di f -> io_ok s'.
Proof.
  intros (Hv & Hb & Hd) [A N B F V L] H. split; [rewrite V; exact Hv|]. split; [exact (B Hb)|].
  intros pb' d' Hd'. destruct (decide (pb' = pb)) as [->|Hne].
  - rewrite A in Hd'. injection Hd' as <-. exists n, g, di, f.
    apply (dio_st_frame s); [exact V|apply region_frame; assumption|exact H].
  - rewrite N in Hd' by exact Hne. destruct (Hd _ _ Hd') as (n' & g' & di' & f' & H').
    exists n', g', di', f'. apply (dio_st_frame s); [exact V|apply region_frame; assumption|exact H'].
Qed.

Lemma content_upd_ne k pb pb' d s s' : upd k pb d s s' -> pb' <> pb -> content s' pb' = content s pb'.
Proof.
  intros [A N B F V L] Hne. unfold content. rewrite N by exact Hne.
  rewrite (region_frame s s') by assumption. reflexivity.
Qed.
Lemma content_upd_eq k pb d s s' x : upd k pb d s s' -> d_data d = Some x -> content s' pb = x.
Proof. intros [A N B F V L] Hd. unfold content. rewrite A, Hd. reflexivity. Qed.

Lemma st_dio_count s pb d n g di f : dio_st s pb d n g di f -> dio_count d = n.
Proof. intros [P B R C V I D]. unfold dio_count. rewrite R. apply enc_count. exact C. Qed.

(** * Requests *)

(** A request for [2^r] bytes at [lbase | r], inside the buffer at [pb] of a
    volume. *)
Record req_ok (s : ios) (lbase pb r : Z) : Prop := {
  rq_radix : r = lbase .& HAMMER2_OFF_MASK_RADIX;
  rq_r : 1 <= r <= 16;
  rq_base : 0 < pb < 2 ^ 64 /\ (2 ^ 16 | pb);
  rq_in : pb <= lbase .&~ HAMMER2_OFF_MASK_RADIX /\ lbase .&~ HAMMER2_OFF_MASK_RADIX + 2 ^ r <= pb + 2 ^ 16;
  rq_vol : exists v, hammer2_get_volume (s_volumes s) pb = Done v
}.

Lemma align16 x pb : (2 ^ 16 | pb) -> pb <= x < pb + 2 ^ 16 -> x .&~ HAMMER2_PBUFMASK = pb.
Proof.
  intros [q ->] H. change HAMMER2_PBUFMASK with (Z.ones 16). rewrite ldiff_ones by lia.
  rewrite (Z.mul_comm q). f_equal. symmetry. apply Z.div_unique with (x - q * 2 ^ 16); lia.
Qed.

Lemma base_room pb : 0 < pb < 2 ^ 64 -> (2 ^ 16 | pb) -> pb + 2 ^ 16 <= 2 ^ 64.
Proof. intros H [q ->]. lia. Qed.

Lemma req_lsize s lbase pb r : req_ok s lbase pb r -> lsize_of lbase = 2 ^ r /\ 2 <= 2 ^ r <= 2 ^ 16.
Proof.
  intros [Hr Hr' _ _ _]. unfold lsize_of. rewrite <- Hr.
  destruct (Z.eqb_spec r 0); [lia|]. rewrite Z.shiftl_mul_pow2, Z.mul_1_l by lia.
  assert (2 ^ 1 <= 2 ^ r <= 2 ^ 16) by (split; apply Z.pow_le_mono_r; lia).
  rewrite i32_small by lia. split; [reflexivity|]. change 2 with (2 ^ 1) at 1. lia.
Qed.

Lemma req_guard s lbase pb r :
  req_ok s lbase pb r ->
  lbase .&~ HAMMER2_OFF_MASK_RADIX .&~ HAMMER2_PBUFMASK = pb
  /\ (pb =? 0) || negb (u64 (lbase .&~ HAMMER2_OFF_MASK_RADIX + lsize_of lbase - 1) .&~ HAMMER2_PBUFMASK =? pb)
     = false.
Proof.
  intros H. destruct (req_lsize _ _ _ _ H) as [-> Hl]. destruct H as [Hr Hr' [Hb Hd] [Hi1 Hi2] _].
  pose proof (base_room pb Hb Hd). split; [apply align16; [exact Hd|lia]|].
  rewrite u64_small by lia. rewrite (align16 _ pb) by (exact Hd || lia).
  rewrite Z.eqb_refl. destruct (Z.eqb_spec pb 0); [lia|reflexivity].
Qed.

Lemma get_volume_spec vols pb v :
  volumes_ok vols -> 0 < pb -> (2 ^ 16 | pb) -> hammer2_get_volume vols pb = Done v ->
  v ∈ vols /\ 0 <= v_offset v <= pb /\ (2 ^ 30 | v_offset v)
  /\ v_offset v .& HAMMER2_FREEMAP_LEVEL1_MASK = 0.
Proof.
  intros [Hf _] Hpb [q ->] H. unfold hammer2_get_volume in H.
  assert (E : q * 2 ^ 16 .&~ HAMMER2_OFF_MASK_RADIX = q * 2 ^ 16).
  { change HAMMER2_OFF_MASK_RADIX with (Z.ones 6). rewrite ldiff_ones_sub by lia.
    replace (q * 2 ^ 16) with (q * 2 ^ 10 * 2 ^ 6) by lia. rewrite Z.mod_mul by lia. lia. }
  rewrite E in H. destruct (list_find _ vols) as [[i w]|] eqn:F; [|discriminate H]. injection H as ->.
  apply list_find_Some in F as (Hv & [Hge _] & _).
  apply list_elem_of_lookup_2 in Hv as Hin.
  rewrite Forall_forall in Hf. destruct (Hf v Hin) as [H0 Hd]. split; [exact Hin|].
  split; [lia|]. split; [exact Hd|]. change HAMMER2_FREEMAP_LEVEL1_MASK with (Z.ones 30).
  rewrite land_ones_mod by lia. apply Z.mod_divide; [lia|exact Hd].
Qed.

Lemma touch_pbase s d : d_pbase (touch s d) = d_pbase d.
Proof. reflexivity. Qed.

(** The tail of [hammer2_io_alloc]: aging and the reference check. *)
Lemma alloc_tail s s1 pb d :
  upd 0 pb d s s1 -> d_pbase d = pb -> dio_count d <> 0 ->
  (let! _ := hammer2_assert_io_refs (mod_dio pb (touch s1) s1) pb in
   Done (Some pb, mod_dio pb (touch s1) s1)) = Done (Some pb, mod_dio pb (touch s1) s1)
  /\ upd 0 pb (touch s1 d) s (mod_dio pb (touch s1) s1).
Proof.
  intros H Hp Hc. assert (H' : upd 0 pb (touch s1 d) s1 (mod_dio pb (touch s1) s1)).
  { apply upd_mod; [exact (upd_at _ _ _ _ _ H)|auto]. }
  split; [|exact (upd_trans 0 0 _ _ _ _ _ _ H H')]. unfold hammer2_assert_io_refs.
  rewrite (upd_at _ _ _ _ _ H'). rewrite assert_true; [reflexivity|].
  apply negb_true_iff, Z.eqb_neq. exact Hc.
Qed.

(** Referencing an existing dio. *)
Lemma alloc_found s lbase btype create pb r d :
  req_ok s lbase pb r -> get_dio s pb = Some d -> dio_count (set_refs (u32 (d_refs d + 1)) d) <> 0 ->
  exists s', hammer2_io_alloc s lbase btype create = Done (Some pb, s')
             /\ upd 0 pb (touch s' (set_refs (u32 (d_refs d + 1)) d)) s s'.
Proof.
  intros Hr Hd Hc. destruct (req_guard _ _ _ _ Hr) as [Hpb Hg].
  unfold hammer2_io_alloc. cbn zeta. rewrite Hpb, Hg. unfold hammer2_io_hash_lookup. rewrite Hd.
  cbn [obind]. destruct (alloc_tail s (ref_dio pb d s) pb (set_refs (u32 (d_refs d + 1)) d)) as [E H].
  - apply upd_ref. exact Hd.
  - exact (find_dio_pbase _ _ _ Hd).
  - exact Hc.
  - rewrite E. eexists. split; [reflexivity|]. exact H.
Qed.

(** Entering a new dio. *)
Lemma alloc_new s lbase btype pb r v :
  volumes_ok (s_volumes s) -> req_ok s lbase pb r -> get_dio s pb = None ->
  hammer2_get_volume (s_volumes s) pb = Done v ->
  exists s', hammer2_io_alloc s lbase btype true = Done (Some pb, s')
             /\ upd 0 pb (touch s' (new_dio v pb btype)) s s'.
Proof.
  intros Hvols Hr Hd Hv. destruct (req_guard _ _ _ _ Hr) as [Hpb Hg]. destruct Hr as [_ _ [Hb Hdiv] _ _].
  destruct (get_volume_spec _ _ _ Hvols (proj1 Hb) Hdiv Hv) as (_ & _ & _ & Hm).
  unfold hammer2_io_alloc. cbn zeta. rewrite Hpb, Hg. unfold hammer2_io_hash_lookup. rewrite Hd, Hv.
  cbn [obind]. rewrite Hm. cbn [Z.eqb kassert obind].
  assert (He : hammer2_io_hash_enter s (new_dio v pb btype)
    = (true, set_bucket (hammer2_io_hashv pb) (bucket s (hammer2_io_hashv pb) ++ [new_dio v pb btype]) s)).
  { unfold hammer2_io_hash_enter. cbn [new_dio d_pbase]. rewrite Hd. reflexivity. }
  rewrite He. cbn [obind].
  set (s1 := add_count 1 _). destruct (alloc_tail s s1 pb (new_dio v pb btype)) as [E H].
  - destruct (upd_enter (new_dio v pb btype) s Hd) as [A N B F V L]. constructor; assumption.
  - reflexivity.
  - discriminate.
  - rewrite E. eexists. split; [reflexivity|]. exact H.
Qed.

Lemma alloc_missing s lbase btype pb r :
  req_ok s lbase pb r -> get_dio s pb = None ->
  hammer2_io_alloc s lbase btype false = Done (None, s).
Proof.
  intros Hr Hd. destruct (req_guard _ _ _ _ Hr) as [Hpb Hg].
  unfold hammer2_io_alloc. cbn zeta. rewrite Hpb, Hg. unfold hammer2_io_hash_lookup. rewrite Hd. reflexivity.
Qed.

(** * Device transfers *)

(** What Win32 documents: allocation succeeds, [ReadFile] returns the bytes up to
    the end of the file, [WriteFile] writes them all. *)
Class Win32Laws `{!Win32} : Prop := {
  malloc_some : exists x, malloc HAMMER2_PBUFSIZE = Some x /\ length x = Z.to_nat HAMMER2_PBUFSIZE;
  alloc_bh_true bdev off : alloc_bh_ok bdev off = true;
  ReadFile_some bdev f off len : ReadFile bdev f off len = Some (take (Z.to_nat len) (drop (Z.to_nat off) f));
  WriteFile_some bdev f off d : WriteFile bdev f off d = (fwrite f off d, true)
}.

Section laws.
Context {W : Win32} {WL : Win32Laws}.

Lemma dev_pread_fread s bdev off len :
  dev_pread s bdev off len = Some (fread (file_of s bdev) off len).
Proof.
  unfold dev_pread. rewrite ReadFile_some. f_equal. set (f := file_of s bdev).
  apply fbyte_ext.
  - rewrite fread_length, length_app, length_replicate, length_take, length_drop. lia.
  - intros j Hj. rewrite length_app, length_replicate, length_take, length_drop in Hj.
    rewrite fbyte_fread by lia. unfold fbyte.
    destruct (decide (j < length (take (Z.to_nat len) (drop (Z.to_nat off) f)))%nat) as [Hc|Hc].
    + rewrite lookup_app_l by exact Hc. rewrite length_take, length_drop in Hc.
      rewrite lookup_take_lt by lia. rewrite lookup_drop. reflexivity.
    + rewrite lookup_app_r by lia. rewrite length_take, length_drop in Hc |- *.
      rewrite lookup_replicate_2 by lia. rewrite (lookup_ge_None_2 f) by lia. reflexivity.
Qed.

(** The offset of a page. *)
Lemma page_offset off i :
  (2 ^ 12 | off) -> 0 <= off -> 0 <= i < 16 -> off + 2 ^ 16 <= 2 ^ 64 ->
  u64 ((off .>> PAGE_SHIFT + i) * PAGE_SIZE) = off + 4096 * i.
Proof.
  intros [q ->] H0 Hi H. rewrite Z.shiftr_div_pow2, Z.div_mul by lia. rewrite u64_small; lia.
Qed.

Lemma bread_pages_spec s bdev off n : forall i buf,
  (2 ^ 12 | off) -> 0 <= off -> off + 2 ^ 16 <= 2 ^ 64 ->
  length buf = Z.to_nat HAMMER2_PBUFSIZE -> 0 <= i -> i + Z.of_nat n <= 16 ->
  exists buf', bread_pages n s bdev (off .>> PAGE_SHIFT) i buf = (buf', 0)
    /\ length buf' = length buf
    /\ forall j, fbyte buf' j
         = if decide (Z.to_nat (4096 * i) <= j < Z.to_nat (4096 * (i + Z.of_nat n)))%nat
           then fbyte (file_of s bdev) (Z.to_nat off + j) else fbyte buf j.
Proof.
  induction n as [|n IH]; intros i buf Hd H0 Hr Hl Hi Hn.
  - exists buf. split; [reflexivity|]. split; [reflexivity|]. intros j. rewrite decide_False by lia. reflexivity.
  - cbn [bread_pages]. unfold bread. rewrite page_offset by (assumption || lia).
    rewrite alloc_bh_true, dev_pread_fread. cbn [b_data].
    assert (Hsh : i .<< PAGE_SHIFT = 4096 * i) by (rewrite Z.shiftl_mul_pow2 by lia; lia).
    rewrite Hsh. set (page := fread _ _ _).
    assert (Hp : length page = 4096%nat) by apply fread_length.
    assert (Hw : length (fwrite buf (4096 * i) page) = length buf) by (apply fwrite_length; lia).
    destruct (IH (i + 1) (fwrite buf (4096 * i) page)) as (buf' & E & Hl' & Hb); try assumption; try lia.
    exists buf'. split; [exact E|]. split; [lia|]. intros j. rewrite Hb.
    rewrite fbyte_fwrite by lia. rewrite Hp.
    destruct (decide (Z.to_nat (4096 * (i + 1)) <= j < Z.to_nat (4096 * (i + 1 + Z.of_nat n)))%nat).
    + rewrite decide_True by lia. reflexivity.
    + destruct (decide (Z.to_nat (4096 * i) <= j < Z.to_nat (4096 * i) + 4096)%nat).
      * rewrite decide_True by lia. unfold page. rewrite fbyte_fread by lia. f_equal. lia.
      * rewrite decide_False by lia. reflexivity.
Qed.

Lemma dev_bread_spec s bdev off buf :
  (2 ^ 12 | off) -> 0 <= off -> off + 2 ^ 16 <= 2 ^ 64 -> length buf = Z.to_nat HAMMER2_PBUFSIZE ->
  hammer2_dev_bread s bdev off buf HAMMER2_PBUFSIZE = (fread (file_of s bdev) off HAMMER2_PBUFSIZE, 0).
Proof.
  intros Hd H0 Hr Hl. unfold hammer2_dev_bread.
  destruct (bread_pages_spec s bdev off 16 0 buf) as (buf' & E & Hl' & Hb); try assumption; try lia.
  change (Z.to_nat (HAMMER2_PBUFSIZE .>> PAGE_SHIFT)) with 16%nat. rewrite E. f_equal.
  apply fbyte_ext; [rewrite fread_length; lia|]. intros j Hj.
  rewrite Hb, decide_True by lia. rewrite fbyte_fread by lia. reflexivity.
Qed.

(** [s'] is [s] but for the contents of files. *)
Record same_cache (s s' : ios) : Prop := {
  sc_hash : s_hash s' = s_hash s;
  sc_volumes : s_volumes s' = s_volumes s;
  sc_lock : s_lock s' = s_lock s
}.

Lemma bwrite_async n s bdev blk i buf : bwrite_pages n s bdev blk i buf false = (s, 0).
Proof.
  revert i. induction n as [|n IH]; intros i; [reflexivity|]. cbn [bwrite_pages]. unfold getblk.
  rewrite alloc_bh_true. apply IH.
Qed.

Lemma bwrite_pages_spec bdev off buf n : forall i s,
  (2 ^ 12 | off) -> 0 <= off -> off + 2 ^ 16 <= 2 ^ 64 ->
  length buf = Z.to_nat HAMMER2_PBUFSIZE -> 0 <= i -> i + Z.of_nat n <= 16 ->
  exists s', bwrite_pages n s bdev (off .>> PAGE_SHIFT) i buf true = (s', 0)
    /\ same_cache s s'
    /\ (forall b, b <> bdev -> file_of s' b = file_of s b)
    /\ forall j, fbyte (file_of s' bdev) j
         = if decide (Z.to_nat (off + 4096 * i) <= j < Z.to_nat (off + 4096 * (i + Z.of_nat n)))%nat
           then fbyte buf (j - Z.to_nat off) else fbyte (file_of s bdev) j.
Proof.
  induction n as [|n IH]; intros i s Hd H0 Hr Hl Hi Hn.
  - exists s. split; [reflexivity|]. split; [constructor; reflexivity|]. split; [reflexivity|].
    intros j. rewrite decide_False by lia. reflexivity.
  - cbn [bwrite_pages]. unfold getblk. rewrite page_offset by (assumption || lia).
    rewrite alloc_bh_true. cbn [b_bdev b_offset]. unfold mark_buffer_dirty, sync_dirty_buffer, dev_pwrite.
    cbn [b_bdev b_offset b_data]. rewrite WriteFile_some. cbn [fst].
    assert (Hsh : i .<< PAGE_SHIFT = 4096 * i) by (rewrite Z.shiftl_mul_pow2 by lia; lia).
    rewrite Hsh. set (page := take _ (drop _ buf)).
    assert (Hp : length page = 4096%nat) by (unfold page; rewrite length_take, length_drop; lia).
    set (s1 := set_file _ _ s).
    destruct (IH (i + 1) s1) as (s' & E & [Hh Hv Hlk] & Ho & Hb); try assumption; try lia.
    assert (Hs1 : file_of s1 bdev = fwrite (file_of s bdev) (off + 4096 * i) page).
    { unfold file_of at 1, s1. cbn. rewrite lookup_insert_eq. reflexivity. }
    exists s'. split; [exact E|]. split; [constructor; assumption|]. split.
    + intros b Hne. rewrite Ho by exact Hne. unfold file_of, s1. cbn. rewrite lookup_insert_ne by congruence.
      reflexivity.
    + intros j. rewrite Hb, Hs1, fbyte_fwrite, Hp by lia.
      destruct (decide (Z.to_nat (off + 4096 * (i + 1)) <= j < Z.to_nat (off + 4096 * (i + 1 + Z.of_nat n)))%nat).
      * rewrite decide_True by lia. reflexivity.
      * destruct (decide (Z.to_nat (off + 4096 * i) <= j < Z.to_nat (off + 4096 * i) + 4096)%nat).
        -- rewrite decide_True by lia. unfold page, fbyte. rewrite lookup_take_lt by lia.
           rewrite lookup_drop. do 2 f_equal. lia.
        -- rewrite decide_False by lia. reflexivity.
Qed.

(** A synchronous write of a whole buffer. *)
Lemma dev_bwrite_spec s bdev off buf :
  (2 ^ 12 | off) -> 0 <= off -> off + 2 ^ 16 <= 2 ^ 64 -> length buf = Z.to_nat HAMMER2_PBUFSIZE ->
  exists s', hammer2_dev_bwrite s bdev off buf HAMMER2_PBUFSIZE true = (s', 0)
    /\ same_cache s s'
    /\ (forall b, b <> bdev -> file_of s' b = file_of s b)
    /\ fread (file_of s' bdev) off HAMMER2_PBUFSIZE = buf
    /\ forall o, 0 <= o -> o + 2 ^ 16 <= off \/ off + 2 ^ 16 <= o ->
         fread (file_of s' bdev) o HAMMER2_PBUFSIZE = fread (file_of s bdev) o HAMMER2_PBUFSIZE.
Proof.
  intros Hd H0 Hr Hl. unfold hammer2_dev_bwrite.
  change (Z.to_nat (HAMMER2_PBUFSIZE .>> PAGE_SHIFT)) with 16%nat.
  destruct (bwrite_pages_spec bdev off buf 16 0 s) as (s' & E & Hc & Ho & Hb); try assumption; try lia.
  exists s'. split; [exact E|]. split; [exact Hc|]. split; [exact Ho|]. split.
  - apply fbyte_ext; [rewrite fread_length; lia|]. intros j Hj. rewrite fread_length in Hj.
    rewrite fbyte_fread, Hb, decide_True by lia. f_equal. lia.
  - intros o Ho0 Hdis. apply fread_ext. intros j Hj. rewrite Hb, decide_False by lia. reflexivity.
Qed.
End laws.
