(* ===== verification/IoProof.v ===== *)
(** Correctness of the buffer cache: on a backend that does what Win32
    documents, the cache behaves as a flat store of 64KB buffers as long as
    every written buffer is released with a synchronous write. *)

From Stdlib Require Import ZArith Lia Bool.
From stdpp Require Import base numbers list option gmap.
From S2P Require Import Prelude Disk Subr Freemap Io IoLemmas.

(** * Getting a buffer *)

(** What an operation makes of the [len] bytes at [off] of the contents [x]. *)
Definition op_result (op : dop) (x : list Z) (off len : Z) (x' : list Z) : Prop :=
  match op with
  | DOP_NEW => x' = fwrite x off (replicate (Z.to_nat len) 0)
  | DOP_NEWNZ => length x' = length x
      /\ forall j, ~ (Z.to_nat off <= j < Z.to_nat off + Z.to_nat len)%nat -> fbyte x' j = fbyte x j
  | _ => x' = x
  end.
Definition op_dirty (op : dop) (di : bool) : bool :=
  match op with DOP_NEW | DOP_NEWNZ => true | _ => di end.

Definition doff (lbase pb : Z) : Z := lbase .&~ HAMMER2_OFF_MASK_RADIX - pb.

Lemma op_result_length op x off len x' :
  0 <= off -> 0 <= len -> off + len <= Z.of_nat (length x) -> op_result op x off len x' -> length x' = length x.
Proof.
  intros H0 H1 H2. destruct op; cbn; [congruence| |tauto|congruence].
  intros ->. apply fwrite_length; [lia|]. rewrite length_replicate. lia.
Qed.

Lemma radix_round lbase base :
  (2 ^ 6 | base) -> (lbase - base) .&~ HAMMER2_OFF_MASK_RADIX = lbase .&~ HAMMER2_OFF_MASK_RADIX - base.
Proof.
  intros [q ->]. change HAMMER2_OFF_MASK_RADIX with (Z.ones 6). rewrite !ldiff_ones by lia.
  replace (lbase - q * 2 ^ 6) with (lbase + (- q) * 2 ^ 6) by lia. rewrite Z.div_add by lia. lia.
Qed.

Lemma divide_pow2_le a b x : 0 <= a <= b -> (2 ^ b | x) -> (2 ^ a | x).
Proof.
  intros H Hd. apply Z.divide_trans with (2 ^ b); [|exact Hd].
  exists (2 ^ (b - a)). rewrite <- Z.pow_add_r by lia. f_equal. lia.
Qed.

Section getblk.
Context {W : Win32} {WL : Win32Laws}.
Variables (s : ios) (lbase pb r : Z).
Hypothesis Hvols : volumes_ok (s_volumes s).
Hypothesis Hrq : req_ok s lbase pb r.

Lemma req_off : 0 <= doff lbase pb /\ doff lbase pb + 2 ^ r <= 2 ^ 16.
Proof. destruct Hrq as [_ _ _ Hi _]. unfold doff. lia. Qed.

Lemma req_pow : 2 <= 2 ^ r <= 2 ^ 16.
Proof. exact (proj2 (req_lsize _ _ _ _ Hrq)). Qed.

Lemma st_offsets d n g di f :
  dio_st s pb d n g di f ->
  0 <= d_dbase d <= pb /\ (2 ^ 30 | d_dbase d) /\ (2 ^ 16 | pb - d_dbase d)
  /\ region s pb = fread (file_of s (d_bdev d)) (pb - d_dbase d) HAMMER2_PBUFSIZE.
Proof.
  intros [_ [Hb Hd] _ _ (v & Hv & -> & ->) _ _].
  destruct (get_volume_spec _ _ _ Hvols (proj1 Hb) Hd Hv) as (_ & H0 & H30 & _).
  split; [exact H0|]. split; [exact H30|]. split.
  - apply Z.divide_sub_r; [exact Hd|]. apply divide_pow2_le with 30; [lia|exact H30].
  - unfold region. rewrite Hv. reflexivity.
Qed.

Lemma io_data_spec d0 n g di f d x :
  dio_st s pb d0 n g di f -> d_pbase d = d_pbase d0 -> d_dbase d = d_dbase d0 -> d_data d = Some x ->
  hammer2_io_data d lbase = Done (doff lbase pb).
Proof.
  intros Hst Hpb Hdb Hx. destruct (st_offsets _ _ _ _ _ Hst) as ([H0 Hle] & H30 & _ & _).
  destruct Hst as [Hp [Hb Hd] _ _ _ _ _]. pose proof req_off as Ho. pose proof req_pow as Hpow.
  pose proof (base_room pb Hb Hd). unfold doff in *. destruct Hrq as [Hr Hrr _ Hi _].
  assert (Hlb : lbase .&~ HAMMER2_OFF_MASK_RADIX = lbase - r).
  { rewrite Hr. change HAMMER2_OFF_MASK_RADIX with (Z.ones 6). rewrite ldiff_ones_sub, land_ones_mod by lia. lia. }
  assert (Hdiv : (2 ^ 6 | lbase - r)).
  { rewrite <- Hlb. apply (ldiff_ones_divide lbase 6). lia. }
  destruct Hdiv as [q Hq].
  unfold hammer2_io_data. rewrite Hx, Hpb, Hdb, Hp. cbn [kassert obind].
  rewrite (u64_small (lbase - d_dbase d0)) by lia. rewrite (u64_small (pb - d_dbase d0)) by lia.
  rewrite radix_round by (apply divide_pow2_le with 30; [lia|exact H30]).
  replace (lbase .&~ HAMMER2_OFF_MASK_RADIX - d_dbase d0 - (pb - d_dbase d0))
    with (lbase .&~ HAMMER2_OFF_MASK_RADIX - pb) by lia.
  rewrite i32_small by lia. rewrite !assert_true; [reflexivity| |].
  - apply Z.ltb_lt. lia.
  - apply Z.leb_le. lia.
Qed.

(** The result of an operation on the dio [d]. *)
Definition done_op (op : dop) (d d' : hio) (n : Z) (di f : bool) (x : list Z) : Prop :=
  dio_st s pb d' n true (op_dirty op di) f
  /\ exists x', d_data d' = Some x' /\ op_result op x (doff lbase pb) (2 ^ r) x'.

Lemma good_op_spec op d n di f x :
  dio_st s pb d n true di f -> d_data d = Some x ->
  exists d', good_op op d lbase (2 ^ r) = Done d' /\ done_op op d d' n di f x.
Proof.
  intros Hst Hx. pose proof Hst as [Hp Hb Hr Hn Hv Hi (y & Hy & Hl & He & Hreg)].
  rewrite Hx in Hy. injection Hy as <-. pose proof req_off. pose proof req_pow.
  destruct op.
  - exists d. split; [reflexivity|]. split; [exact Hst|]. exists x. split; [exact Hx|reflexivity].
  - cbn [good_op]. unfold bzero_data. rewrite (io_data_spec _ _ _ _ _ _ _ Hst eq_refl eq_refl Hx), Hx. cbn [obind option_map].
    eexists. split; [reflexivity|]. split.
    + constructor; try assumption.
      * cbn. rewrite Hr. apply enc_set_dirty. exact Hn.
      * eexists. split; [reflexivity|]. split; [|split; [exact He|discriminate]].
        rewrite fwrite_length; [exact Hl|lia|rewrite length_replicate; lia].
    + eexists. split; reflexivity.
  - cbn [good_op]. eexists. split; [reflexivity|]. split.
    + constructor; try assumption.
      * cbn. rewrite Hr. apply enc_set_dirty. exact Hn.
      * exists x. split; [exact Hx|]. split; [exact Hl|]. split; [exact He|discriminate].
    + exists x. split; [exact Hx|]. split; [reflexivity|]. auto.
  - exists d. split; [reflexivity|]. split; [exact Hst|]. exists x. split; [exact Hx|reflexivity].
Qed.

Lemma hammer2_bread_spec d n f :
  dio_st s pb d n false false f -> hammer2_bread s d = (set_data (Some (region s pb)) d, 0).
Proof.
  intros Hst. destruct (st_offsets _ _ _ _ _ Hst) as ([H0 Hle] & H30 & H16 & ->).
  destruct Hst as [Hp [Hb Hd] _ _ _ _ [Hx _]]. unfold hammer2_bread. rewrite Hx.
  destruct malloc_some as (x & -> & Hl). rewrite Hp. pose proof (base_room pb Hb Hd).
  rewrite dev_bread_spec; [reflexivity| |lia|lia|exact Hl].
  apply divide_pow2_le with 16; [lia|exact H16].
Qed.

(** A freshly read or zeroed buffer turns GOOD. *)
Lemma good_st d n f x di :
  dio_st s pb d n false false f -> n <> 0 -> length x = Z.to_nat HAMMER2_PBUFSIZE ->
  (di = false -> x = region s pb) ->
  dio_st s pb (or_refs HAMMER2_DIO_GOOD (set_error 0
     ((if di then or_refs HAMMER2_DIO_DIRTY else id) (set_data (Some x) d)))) n true di f.
Proof.
  intros [Hp Hb Hr Hn Hv Hi _] Hn0 Hl Hx. constructor; try assumption.
  - destruct di; exact Hp.
  - destruct di; cbn; rewrite Hr.
    + rewrite enc_set_dirty, enc_set_good by exact Hn. reflexivity.
    + apply enc_set_good. exact Hn.
  - destruct Hv as (v & Hv & Hv1 & Hv2). exists v. destruct di; auto.
  - contradiction.
  - exists x. destruct di; auto.
Qed.

Lemma whole_buffer :
  pb = lbase .&~ HAMMER2_OFF_MASK_RADIX -> 2 ^ r = HAMMER2_PBUFSIZE -> doff lbase pb = 0.
Proof. unfold doff. lia. Qed.

Lemma region_length d n g di f : dio_st s pb d n g di f -> length (region s pb) = Z.to_nat HAMMER2_PBUFSIZE.
Proof. intros Hst. destruct (st_offsets _ _ _ _ _ Hst) as (_ & _ & _ & ->). apply fread_length. Qed.

Lemma zero_whole x :
  length x = Z.to_nat HAMMER2_PBUFSIZE ->
  replicate (Z.to_nat HAMMER2_PBUFSIZE) 0 = fwrite x 0 (replicate (Z.to_nat HAMMER2_PBUFSIZE) 0).
Proof.
  intros Hl. assert (Hw : length (fwrite x 0 (replicate (Z.to_nat HAMMER2_PBUFSIZE) 0)) = length x).
  { apply fwrite_length; [lia|]. rewrite length_replicate. lia. }
  apply fbyte_ext; [rewrite Hw, length_replicate; lia|]. intros j Hj. rewrite length_replicate in Hj.
  rewrite fbyte_fwrite, length_replicate, decide_True by lia. f_equal. lia.
Qed.
Lemma load_dio_spec op d n f :
  dio_st s pb d n false false f -> n <> 0 ->
  exists d', load_dio s op d lbase (2 ^ r) = Done d' /\ done_op op d d' n false f (region s pb).
Proof.
  intros Hst Hn0. pose proof (hammer2_bread_spec _ _ _ Hst) as Hbread.
  pose proof (region_length _ _ _ _ _ Hst) as Hlen. pose proof Hst as [Hp _ _ _ _ _ [Hx _]].
  unfold load_dio. rewrite Hx, Hp. cbn [kassert obind].
  destruct ((pb =? lbase .&~ HAMMER2_OFF_MASK_RADIX) && (2 ^ r =? HAMMER2_PBUFSIZE)) eqn:Hw.
  - apply andb_true_iff in Hw as [Hw1 Hw2]. apply Z.eqb_eq in Hw1. apply Z.eqb_eq in Hw2.
    pose proof (whole_buffer Hw1 Hw2) as Hoff. destruct malloc_some as (y & Hy & Hyl).
    destruct op; unfold fresh_op; rewrite ?Hbread, ?Hy; cbn [obind Z.eqb]; eexists; (split; [reflexivity|]).
    + split; [apply (good_st _ _ _ _ false Hst Hn0 Hlen); reflexivity|].
      eexists. split; [reflexivity|]. reflexivity.
    + split.
      * apply (good_st _ _ _ _ true Hst Hn0); [apply length_replicate|discriminate].
      * eexists. split; [reflexivity|]. cbn. rewrite Hoff, Hw2. apply zero_whole. exact Hlen.
    + split; [apply (good_st _ _ _ _ true Hst Hn0 Hyl); discriminate|].
      eexists. split; [reflexivity|]. cbn. split; [lia|]. intros j Hj. unfold fbyte.
      rewrite !lookup_ge_None_2 by lia. reflexivity.
    + split; [apply (good_st _ _ _ _ false Hst Hn0 Hlen); reflexivity|].
      eexists. split; [reflexivity|]. reflexivity.
  - rewrite Hbread. cbn [set_data d_data]. cbn [Z.eqb].
    pose proof req_off as Ho. pose proof req_pow as Hpow.
    destruct op; cbn [good_op]; unfold bzero_data;
      rewrite ?(io_data_spec d _ _ _ _ (set_data (Some (region s pb)) d) (region s pb) Hst) by reflexivity;
      cbn [obind set_data d_data option_map Z.eqb]; eexists; (split; [reflexivity|]).
    + split; [apply (good_st _ _ _ _ false Hst Hn0 Hlen); reflexivity|].
      eexists. split; [reflexivity|]. reflexivity.
    + split; [|eexists; split; reflexivity].
      apply (good_st _ _ _ _ true Hst Hn0); [|discriminate].
      rewrite fwrite_length; [exact Hlen|lia|rewrite length_replicate; lia].
    + split; [apply (good_st _ _ _ _ true Hst Hn0 Hlen); discriminate|].
      eexists. split; [reflexivity|]. split; [reflexivity|]. auto.
    + split; [apply (good_st _ _ _ _ false Hst Hn0 Hlen); reflexivity|].
      eexists. split; [reflexivity|]. reflexivity.
Qed.
End getblk.

(** Fewer than 2^24 - 1 references to the buffer at [pb]. *)
Definition room (s : ios) (pb : Z) : Prop := forall d, get_dio s pb = Some d -> dio_count d + 1 < 2 ^ 24.

Lemma st_touch s s' pb d n g di f : dio_st s pb d n g di f -> dio_st s pb (touch s' d) n g di f.
Proof. intros [P B R C V I D]. constructor; assumption. Qed.

Lemma st_ref s pb d n g di f :
  dio_st s pb d n g di f -> n + 1 < 2 ^ 24 ->
  dio_st s pb (set_refs (u32 (d_refs d + 1)) d) (n + 1) g di f.
Proof.
  intros [P B R C V I D] Hn. constructor; try assumption; try lia.
  cbn. rewrite R. apply enc_succ; lia.
Qed.

Lemma st_new s pb v btype lbase r :
  req_ok s lbase pb r -> hammer2_get_volume (s_volumes s) pb = Done v ->
  dio_st s pb (new_dio v pb btype) 1 false false false.
Proof.
  intros [_ _ Hb _ _] Hv. constructor; try exact Hb; try reflexivity; try lia; eauto.
Qed.

(** The dio that [hammer2_io_alloc] returns, and the contents behind it. *)
Lemma alloc_spec s lbase btype create pb r :
  io_ok s -> req_ok s lbase pb r -> room s pb -> create = true \/ get_dio s pb <> None ->
  exists s' d n g di f, hammer2_io_alloc s lbase btype create = Done (Some pb, s')
    /\ upd 0 pb d s s' /\ dio_st s pb d n g di f /\ 1 <= n
    /\ (if g then d_data d = Some (content s pb) else content s pb = region s pb)
    /\ (n = 1 -> g = false)
    /\ forall d0, get_dio s pb = Some d0 -> d_alloc d = d_alloc d0.
Proof.
  intros (Hv & Hb & Hd) Hr Hroom Hcreate. destruct (get_dio s pb) as [d|] eqn:Ed.
  - destruct (Hd _ _ Ed) as (n & g & di & f & Hst).
    specialize (Hroom d Ed). rewrite (st_dio_count _ _ _ _ _ _ _ Hst) in Hroom.
    pose proof (st_ref _ _ _ _ _ _ _ Hst Hroom) as Hst1. pose proof (st_count _ _ _ _ _ _ _ Hst) as Hn.
    destruct (alloc_found s lbase btype create pb r d Hr Ed) as (s' & E & Hupd).
    { rewrite (st_dio_count _ _ _ _ _ _ _ Hst1). lia. }
    exists s', (touch s' (set_refs (u32 (d_refs d + 1)) d)), (n + 1), g, di, f.
    split; [exact E|]. split; [exact Hupd|]. split; [apply st_touch; exact Hst1|]. split; [lia|].
    split; [|split; [intros E1; apply (st_idle _ _ _ _ _ _ _ Hst); lia|intros d0 [= <-]; reflexivity]].
    unfold content. rewrite Ed. pose proof (st_data _ _ _ _ _ _ _ Hst) as D.
    destruct g; [destruct D as (x & Hx & _)|destruct D as [Hx _]]; rewrite Hx; [exact Hx|reflexivity].
  - destruct Hcreate as [-> |Hcreate]; [|congruence]. destruct (rq_vol _ _ _ _ Hr) as [v Ev].
    destruct (alloc_new s lbase btype pb r v Hv Hr Ed Ev) as (s' & E & Hupd).
    exists s', (touch s' (new_dio v pb btype)), 1, false, false, false.
    split; [exact E|]. split; [exact Hupd|]. split; [apply st_touch, (st_new _ _ _ _ _ _ Hr Ev)|].
    split; [lia|]. split; [|split; [reflexivity|discriminate]]. unfold content. rewrite Ed. reflexivity.
Qed.

Lemma io_ok_lock s k : io_ok s -> io_ok (add_lock k s).
Proof.
  intros (Hv & Hb & Hd). split; [exact Hv|]. split; [exact Hb|]. intros pb d H.
  destruct (Hd pb d H) as (n & g & di & f & [P B R C V I D]). exists n, g, di, f. constructor; assumption.
Qed.

Lemma req_lock s k lbase pb r : req_ok s lbase pb r -> req_ok (add_lock k s) lbase pb r.
Proof. intros [A B C D E]. constructor; assumption. Qed.

Lemma assert_refs_ok k s s' pb d n g di f :
  upd k pb d s s' -> dio_st s pb d n g di f -> 1 <= n -> hammer2_assert_io_refs s' pb = Done d.
Proof.
  intros H Hst Hn. unfold hammer2_assert_io_refs. rewrite (upd_at _ _ _ _ _ H).
  rewrite assert_true; [reflexivity|]. rewrite (st_dio_count _ _ _ _ _ _ _ Hst).
  apply negb_true_iff, Z.eqb_neq. lia.
Qed.

Section getblk_spec.
Context {W : Win32} {WL : Win32Laws}.

(** [hammer2_io_getblk] returns a referenced buffer that holds the contents,
    changed as the operation says; nothing else changes. *)
Lemma getblk_spec s btype lbase pb r op :
  io_ok s -> req_ok s lbase pb r -> room s pb -> op <> DOP_READQ ->
  exists s' d n di f x,
    hammer2_io_getblk s btype lbase (2 ^ r) op = Done (Some pb, s')
    /\ upd 0 pb d s s' /\ dio_st s pb d n true (op_dirty op di) f /\ 1 <= n
    /\ d_data d = Some x /\ op_result op (content s pb) (doff lbase pb) (2 ^ r) x.
Proof.
  intros Hok Hr Hroom Hop. pose proof (proj1 Hok) as Hv.
  destruct (alloc_spec (add_lock 1 s) lbase btype true pb r) as (s1 & d & n & g & di & f & E & Hupd & Hst & Hn & Hc & _).
  { apply io_ok_lock. exact Hok. } { apply req_lock. exact Hr. } { exact Hroom. } { auto. }
  assert (Hst' : dio_st s pb d n g di f) by (destruct Hst as [P B R C V I D]; constructor; assumption).
  assert (Hupd' : upd 0 pb d s (add_lock (- 1) s1)).
  { apply (upd_0 (1 + (0 + - 1))); [lia|]. apply upd_from_lock, upd_lock_add. exact Hupd. }
  set (s2 := add_lock (- 1) s1) in *.
  assert (Hv2 : volumes_ok (s_volumes s2)) by (rewrite (upd_volumes _ _ _ _ _ Hupd'); exact Hv).
  assert (Hst2 : dio_st s2 pb d n g di f).
  { apply (dio_st_frame s); [apply Hupd'|apply region_frame; apply Hupd'|exact Hst']. }
  assert (Hr2 : req_ok s2 lbase pb r).
  { destruct Hr as [A B C D V]. constructor; try assumption. rewrite (upd_volumes _ _ _ _ _ Hupd'). exact V. }
  assert (Hreg : region s2 pb = region s pb) by (apply region_frame; apply Hupd').
  assert (Hstep : exists d' di0 x, (if tst (d_refs d) HAMMER2_DIO_GOOD then good_op op d lbase (2 ^ r)
                                    else load_dio s2 op d lbase (2 ^ r)) = Done d'
    /\ done_op s2 lbase pb r op d d' n di0 f x /\ x = content s pb).
  { rewrite (st_refs _ _ _ _ _ _ _ Hst2), enc_good by (exact (st_count _ _ _ _ _ _ _ Hst2)). destruct g.
    - destruct (good_op_spec s2 lbase pb r Hv2 Hr2 op d n di f _ Hst2 Hc) as (d' & E' & H').
      exists d', di, (content s pb). split; [exact E'|]. split; [exact H'|reflexivity].
    - destruct (st_data _ _ _ _ _ _ _ Hst2) as [_ ->].
      destruct (load_dio_spec s2 lbase pb r Hv2 Hr2 op d n f) as (d' & E' & H').
      { exact Hst2. }
      { lia. }
      exists d', false, (region s2 pb). split; [exact E'|]. split; [exact H'|]. rewrite Hreg. symmetry. exact Hc. }
  destruct Hstep as (d' & di0 & x & E' & (Hst3 & x' & Hx' & Hres) & ->).
  exists (mod_dio pb (fun _ => d') s2), d', n, di0, f, x'. split; [|split; [|split; [|split; [exact Hn|split; [exact Hx'|exact Hres]]]]].
  - unfold hammer2_io_getblk. rewrite <- (rq_radix _ _ _ _ Hr).
    destruct (req_lsize _ _ _ _ Hr) as [_ Hp]. rewrite Z.shiftl_mul_pow2, Z.mul_1_l by (pose proof (rq_r _ _ _ _ Hr); lia).
    rewrite i32_small, Z.eqb_refl by lia. cbn [kassert obind].
    destruct op; try contradiction; rewrite E; cbn [obind];
      rewrite (assert_refs_ok _ _ _ _ _ _ _ _ _ Hupd Hst Hn); cbn [obind]; fold s2; rewrite E'; reflexivity.
  - apply (upd_trans 0 0 pb d d' s s2); [exact Hupd'|].
    apply (upd_mod pb d (fun _ => d') s2); [exact (upd_at _ _ _ _ _ Hupd')|].
    intros _ _. exact (st_pbase _ _ _ _ _ _ _ Hst3).
  - apply (dio_st_frame s2); [symmetry; apply Hupd'|symmetry; exact Hreg|exact Hst3].
Qed.
End getblk_spec.

(** * Cleaning the hash *)

(** An unreferenced dio may age or disappear. *)
Definition cleaned (o o' : option hio) : Prop :=
  match o with
  | None => o' = None
  | Some d => o' = Some d
      \/ (dio_count d = 0 /\ (o' = None \/ exists a, o' = Some (set_act a (d_ticks d) d)))
  end.

Lemma cleaned_refl o : cleaned o o.
Proof. destruct o; cbn; auto. Qed.

Lemma cleaned_trans o o' o'' : cleaned o o' -> cleaned o' o'' -> cleaned o o''.
Proof.
  destruct o as [d|]; cbn; [|intros -> H; exact H].
  intros [-> |[Hc [-> |[a ->]]]]; cbn.
  - auto.
  - intros ->. auto.
  - intros [-> |[_ [-> |[b ->]]]]; right; (split; [exact Hc|]); eauto.
Qed.

Lemma clean_chain_sublist t l : sublist (map d_pbase (clean_chain t l).1) (map d_pbase l).
Proof.
  induction l as [|d l IH]; [constructor|]. cbn [clean_chain].
  destruct (clean_chain t l) as [kept freed]. cbn in IH.
  destruct (negb (dio_count d =? 0)); [apply sublist_skip; exact IH|].
  destruct (negb (aged_act t d =? 0)); [apply sublist_skip; exact IH|apply sublist_cons; exact IH].
Qed.

Lemma clean_chain_find t l pb :
  NoDup (map d_pbase l) -> cleaned (find_dio pb l) (find_dio pb (clean_chain t l).1).
Proof.
  induction l as [|d l IH]; [intros _; exact eq_refl|]. cbn [map]. intros Hnd.
  apply NoDup_cons in Hnd as [Hni Hnd]. specialize (IH Hnd).
  pose proof (clean_chain_sublist t l) as Hsub. cbn [clean_chain].
  destruct (clean_chain t l) as [kept freed]. cbn [fst] in *. cbn [find_dio].
  destruct (Z.eqb_spec (dio_count d) 0) as [Hc|Hc]; cbn [negb].
  - destruct (negb (aged_act t d =? 0)); cbn [fst find_dio set_act d_pbase].
    + destruct (Z.eqb_spec (d_pbase d) pb); [|exact IH]. right. split; [exact Hc|]. right. eauto.
    + destruct (Z.eqb_spec (d_pbase d) pb) as [<-|]; [|exact IH]. right. split; [exact Hc|]. left.
      apply find_dio_notin. intros Hin. apply Hni. exact (elem_of_sublist _ _ _ Hin Hsub).
  - cbn [fst find_dio]. destruct (Z.eqb_spec (d_pbase d) pb); [apply cleaned_refl|exact IH].
Qed.

(** [s'] is [s] after some cleaning. *)
Record swept (s s' : ios) : Prop := {
  sw_dio pb : cleaned (get_dio s pb) (get_dio s' pb);
  sw_buckets : buckets_ok s';
  sw_files : s_files s' = s_files s;
  sw_volumes : s_volumes s' = s_volumes s;
  sw_lock : s_lock s' = s_lock s
}.

Lemma swept_refl s : buckets_ok s -> swept s s.
Proof. intros H. constructor; try reflexivity; [intros pb; apply cleaned_refl|exact H]. Qed.

Lemma swept_trans s s1 s2 : swept s s1 -> swept s1 s2 -> swept s s2.
Proof.
  intros [A B C D E] [A' B' C' D' E']. constructor; try congruence; [|exact B'].
  intros pb. exact (cleaned_trans _ _ _ (A pb) (A' pb)).
Qed.

Lemma swept_bucket s i :
  buckets_ok s -> swept s (set_bucket i (clean_chain (s_ticks s) (bucket s i)).1 s).
Proof.
  intros Hb. constructor; try reflexivity.
  - intros pb. unfold get_dio. rewrite bucket_set. case_decide as H; [|apply cleaned_refl].
    rewrite H. apply clean_chain_find, Hb.
  - intros j. rewrite bucket_set. case_decide as H; [subst j|apply Hb].
    exact (sublist_NoDup _ _ (Hb i) (clean_chain_sublist _ _)).
Qed.

Lemma cleanup_loop_swept maxscan : forall i count s, buckets_ok s -> swept s (cleanup_loop maxscan i count s).
Proof.
  induction maxscan as [|maxscan IH]; intros i count s Hb; [apply swept_refl; exact Hb|].
  cbn [cleanup_loop]. destruct (0 <? count); [|apply swept_refl; exact Hb].
  set (b := i .& HAMMER2_IOHASH_MASK). pose proof (swept_bucket s b Hb) as Hsw.
  destruct (clean_chain (s_ticks s) (bucket s b)) as [kept freed]. cbn [fst] in Hsw.
  set (s1 := set_iter _ _). assert (Hs1 : swept s s1) by (destruct Hsw as [A B C D E]; constructor; assumption).
  apply swept_trans with s1; [exact Hs1|]. apply IH. exact (sw_buckets _ _ Hs1).
Qed.

Lemma cleanup_swept s limit : buckets_ok s -> swept s (hammer2_io_hash_cleanup s limit).
Proof.
  intros Hb. unfold hammer2_io_hash_cleanup. destruct (_ <=? 0); [apply swept_refl; exact Hb|].
  destruct (cleanup_loop_swept (Z.to_nat HAMMER2_IOHASH_SIZE) (s_iter s) (s_iofree s - limit + 32)
    (set_iter (i32 (s_iter s + 1)) s) Hb) as [A B C D E].
  constructor; assumption.
Qed.

(** Cleaning keeps the invariant and what clients see. *)
Lemma swept_ok s s' : io_ok s -> swept s s' -> io_ok s' /\ forall pb, content s' pb = content s pb.
Proof.
  intros (Hv & Hb & Hd) [A B C D E].
  assert (Hreg : forall pb, region s' pb = region s pb) by (intros; apply region_frame; assumption).
  split; [split; [rewrite D; exact Hv|split; [exact B|]]|].
  - intros pb d' Hd'. specialize (A pb). destruct (get_dio s pb) as [d|] eqn:Ed; cbn in A; [|congruence].
    destruct (Hd pb d Ed) as (n & g & di & f & Hst).
    exists n, g, di, f. apply (dio_st_frame s); [exact D|apply Hreg|].
    destruct A as [A|[_ [A|[a A]]]]; rewrite A in Hd'; [|discriminate|]; injection Hd' as <-; [exact Hst|].
    destruct Hst as [P' B' R' C' V' I' D']. constructor; assumption.
  - intros pb. unfold content. specialize (A pb). rewrite Hreg.
    destruct (get_dio s pb) as [d|] eqn:Ed; cbn in A; [|rewrite A; reflexivity].
    destruct A as [-> |[Hc [-> |[a ->]]]]; try reflexivity.
    destruct (Hd pb d Ed) as (n & g & di & f & Hst). rewrite (st_dio_count _ _ _ _ _ _ _ Hst) in Hc.
    pose proof (st_data _ _ _ _ _ _ _ Hst) as Hdata. rewrite (st_idle _ _ _ _ _ _ _ Hst Hc) in Hdata.
    destruct Hdata as [-> _]. reflexivity.
Qed.

(** * Releasing a buffer *)

Section putblk.
Context {W : Win32} {WL : Win32Laws}.

(** Regions of different buffers do not meet. *)
Lemma base_apart pb pb' : (2 ^ 16 | pb) -> (2 ^ 16 | pb') -> pb <> pb' -> pb + 2 ^ 16 <= pb' \/ pb' + 2 ^ 16 <= pb.
Proof. intros [q ->] [q' ->] Hne. assert (q < q' \/ q' < q) by lia. lia. Qed.

Lemma volume_unique vols v v' :
  NoDup (map v_bdev vols) -> v ∈ vols -> v' ∈ vols -> v_bdev v = v_bdev v' -> v = v'.
Proof.
  induction vols as [|w vols IH]; cbn; [intros _ H; apply not_elem_of_nil in H; destruct H|].
  intros Hnd. apply NoDup_cons in Hnd as [Hni Hnd]. intros Hv Hv' E.
  apply elem_of_cons in Hv as [->|Hv]; apply elem_of_cons in Hv' as [->|Hv']; auto.
  - destruct Hni. rewrite E. apply list_elem_of_fmap. eauto.
  - destruct Hni. rewrite <- E. apply list_elem_of_fmap. eauto.
Qed.

(** Writing a dio back changes its own region only. *)
Lemma write_back s pb d n g di f x :
  volumes_ok (s_volumes s) -> dio_st s pb d n g di f -> length x = Z.to_nat HAMMER2_PBUFSIZE ->
  exists s', hammer2_dev_bwrite s (d_bdev d) (d_pbase d - d_dbase d) x HAMMER2_PBUFSIZE true = (s', 0)
    /\ same_cache s s' /\ region s' pb = x
    /\ forall pb', 0 < pb' < 2 ^ 64 -> (2 ^ 16 | pb') -> pb' <> pb -> region s' pb' = region s pb'.
Proof.
  intros Hv Hst Hl.
  destruct (st_offsets s pb Hv _ _ _ _ _ Hst) as (Hrng & H30 & H16 & _).
  destruct Hst as [Hp [Hb Hd] _ _ (v & Ev & Hbd & Hdb) _ _]. pose proof (base_room pb Hb Hd) as Hroom.
  destruct (dev_bwrite_spec s (d_bdev d) (d_pbase d - d_dbase d) x) as (s' & E & Hc & Ho & Hr & Hr'); try lia.
  { rewrite Hp. apply divide_pow2_le with 16; [lia|exact H16]. }
  exists s'. split; [exact E|]. split; [exact Hc|]. split.
  - unfold region. rewrite (sc_volumes _ _ Hc), Ev, <- Hbd, <- Hdb, <- Hp. exact Hr.
  - intros pb' Hb' Hd' Hne. unfold region. rewrite (sc_volumes _ _ Hc).
    destruct (hammer2_get_volume (s_volumes s) pb') as [v'|] eqn:Ev'; [|reflexivity].
    destruct (get_volume_spec _ _ _ Hv (proj1 Hb') Hd' Ev') as (Hin' & Hrng' & _ & _).
    destruct (get_volume_spec _ _ _ Hv (proj1 Hb) Hd Ev) as (Hin & _ & _ & _).
    destruct (decide (v_bdev v' = d_bdev d)) as [Hsame|Hdiff].
    + assert (v' = v) as ->.
      { apply (volume_unique (s_volumes s)); [exact (proj2 Hv)|assumption|assumption|congruence]. }
      rewrite <- Hbd. apply Hr'; [lia|]. rewrite <- Hdb in *. pose proof (base_apart pb pb' Hd Hd'). lia.
    + rewrite Ho by exact Hdiff. reflexivity.
Qed.

(** Dropping one of several references. *)
Lemma putblk_shared s pb d n g di f :
  io_ok s -> get_dio s pb = Some d -> dio_st s pb d n g di f -> 1 < n ->
  exists s', hammer2_io_putblk s pb = Done s' /\ io_ok s'
    /\ upd 0 pb (set_refs (enc (n - 1) g di f) d) s s' /\ forall pb', content s' pb' = content s pb'.
Proof.
  intros Hok Hd Hst Hn. pose proof (st_count _ _ _ _ _ _ _ Hst) as Hc.
  assert (Hupd : upd 0 pb (set_refs (enc (n - 1) g di f) d) s (mod_dio pb (set_refs (u32 (d_refs d - 1))) s)).
  { rewrite (st_refs _ _ _ _ _ _ _ Hst), enc_pred by lia. apply (upd_mod pb d); [exact Hd|auto]. }
  eexists. split; [|split; [|split; [exact Hupd|]]].
  - unfold hammer2_io_putblk. rewrite Hd, (st_dio_count _ _ _ _ _ _ _ Hst).
    destruct (Z.eqb_spec n 0); [lia|]. destruct (Z.eqb_spec n 1); [lia|]. reflexivity.
  - apply (io_ok_upd 0 pb _ s _ (n - 1) g di f Hok Hupd).
    destruct Hst as [P B R C V I D]. constructor; try assumption; try reflexivity; lia.
  - intros pb'. destruct (decide (pb' = pb)) as [->|Hne]; [|exact (content_upd_ne _ _ _ _ _ _ Hupd Hne)].
    unfold content. rewrite (upd_at _ _ _ _ _ Hupd), Hd. cbn [set_refs d_data].
    rewrite (region_frame s _ pb) by apply Hupd. reflexivity.
Qed.

(** What the medium holds for the buffer after its last release. *)
Definition final (s : ios) (pb : Z) (g di f : bool) : list Z :=
  if g && di && f then content s pb else region s pb.

Definition valid_base (pb : Z) : Prop := 0 < pb < 2 ^ 64 /\ (2 ^ 16 | pb).

(** The buffer [pb] is freed after at most its own region changed. *)
Lemma drop_finish s pb d n g di f s2 :
  io_ok s -> get_dio s pb = Some d -> dio_st s pb d n g di f ->
  let d0 := set_refs (enc 0 false false f) d in
  same_cache (mod_dio pb (fun _ => d0) s) s2 ->
  (forall pb', valid_base pb' -> pb' <> pb -> region s2 pb' = region s pb') ->
  let s' := add_iofree 1 (mod_dio pb (set_data None) s2) in
  io_ok s' /\ s_lock s' = s_lock s /\ s_volumes s' = s_volumes s
  /\ get_dio s' pb = Some (set_data None d0)
  /\ forall pb', valid_base pb' -> content s' pb' = if decide (pb' = pb) then region s2 pb else content s pb'.
Proof.
  intros (Hv & Hb & Hd) Ed Hst d0 [Hh Hvol Hlk] Hreg s'.
  assert (Hp : d_pbase d = pb) by (apply Hst).
  assert (Hu1 : upd 0 pb d0 s (mod_dio pb (fun _ => d0) s)) by (apply (upd_mod pb d (fun _ => d0)); [exact Ed|intros _ _; exact Hp]).
  assert (Hg2 : forall q, get_dio s2 q = get_dio (mod_dio pb (fun _ => d0) s) q).
  { intros q. unfold get_dio, bucket. rewrite Hh. reflexivity. }
  assert (Hu2 : upd 0 pb (set_data None d0) s2 (mod_dio pb (set_data None) s2)).
  { apply (upd_mod pb d0); [rewrite Hg2; apply Hu1|auto]. }
  assert (Hvs : s_volumes s' = s_volumes s) by (unfold s'; cbn; rewrite Hvol; reflexivity).
  assert (Hat : get_dio s' pb = Some (set_data None d0)) by apply Hu2.
  assert (Hne : forall q, q <> pb -> get_dio s' q = get_dio s q).
  { intros q Hq. change (get_dio s' q) with (get_dio (mod_dio pb (set_data None) s2) q).
    rewrite (upd_ne _ _ _ _ _ Hu2), Hg2, (upd_ne _ _ _ _ _ Hu1) by exact Hq. reflexivity. }
  assert (Hrs : forall q, region s' q = region s2 q) by reflexivity.
  split; [split; [rewrite Hvs; exact Hv|split]|split; [|split; [exact Hvs|split; [exact Hat|]]]].
  - change (buckets_ok (mod_dio pb (set_data None) s2)). apply Hu2.
    intros i. pose proof (upd_buckets _ _ _ _ _ Hu1 Hb i) as H. unfold bucket in *. rewrite Hh. exact H.
  - intros q d' Hq. destruct (decide (q = pb)) as [->|Hqne].
    + rewrite Hat in Hq. injection Hq as <-. exists 0, false, false, f.
      destruct Hst as [P B R C V I D]. constructor; try assumption; try reflexivity; try lia.
      * rewrite Hvs. exact V.
      * split; reflexivity.
    + rewrite Hne in Hq by exact Hqne. destruct (Hd q d' Hq) as (n' & g' & di' & f' & Hst').
      exists n', g', di', f'. apply (dio_st_frame s); [exact Hvs| |exact Hst'].
      rewrite Hrs. apply Hreg; [apply Hst'|exact Hqne].
  - cbn. rewrite Hlk. reflexivity.
  - intros q Hq. unfold content. case_decide as E; [subst q; rewrite Hat; reflexivity|].
    rewrite Hne by exact E. rewrite Hrs, Hreg by assumption. reflexivity.
Qed.

(** The state of the cache just after the 1->0 transition. *)
Lemma last_drop_spec s pb d g di f :
  io_ok s -> get_dio s pb = Some d -> dio_st s pb d 1 g di f ->
  let d0 := set_refs (enc 0 false false f) d in
  let s' := last_drop (mod_dio pb (fun _ => d0) s) pb (d_refs d) d0 in
  io_ok s' /\ s_lock s' = s_lock s /\ s_volumes s' = s_volumes s
  /\ get_dio s' pb = Some (set_data None d0)
  /\ forall pb', valid_base pb' ->
       content s' pb' = if decide (pb' = pb) then final s pb g di f else content s pb'.
Proof.
  intros Hok Ed Hst d0 s'. set (s1 := mod_dio pb (fun _ => d0) s) in *.
  assert (Hsame : same_cache s1 s1) by (constructor; reflexivity).
  assert (Hquiet : final s pb g di f = region s pb -> s' = add_iofree 1 (mod_dio pb (set_data None) s1) ->
    io_ok s' /\ s_lock s' = s_lock s /\ s_volumes s' = s_volumes s
    /\ get_dio s' pb = Some (set_data None d0)
    /\ forall pb', valid_base pb' ->
       content s' pb' = if decide (pb' = pb) then final s pb g di f else content s pb').
  { intros -> ->. exact (drop_finish s pb d 1 g di f s1 Hok Ed Hst Hsame ltac:(reflexivity)). }
  unfold s', last_drop in Hquiet |- *. fold s1 in Hquiet |- *. cbn [d0 set_refs d_data d_bdev d_pbase d_dbase d_refs] in Hquiet |- *.
  rewrite (st_refs _ _ _ _ _ _ _ Hst), enc_good, enc_dirty, enc_flush in Hquiet |- * by lia.
  pose proof (st_data _ _ _ _ _ _ _ Hst) as Hdata. unfold final in *.
  destruct g; [|destruct Hdata as [Hx ->]; rewrite Hx in Hquiet |- *; apply Hquiet; reflexivity].
  destruct Hdata as (x & Hx & Hl & _ & Hclean). rewrite Hx in Hquiet |- *. cbn [andb] in Hquiet |- *.
  destruct di; cbn [andb] in Hquiet |- *; [|apply Hquiet; reflexivity].
  destruct f.
  - destruct (write_back s1 pb d 1 true true true x) as (s2 & E & Hsc & Hr & Hr').
    { exact (proj1 Hok). }
    { apply (dio_st_frame s); [reflexivity|reflexivity|exact Hst]. }
    { exact Hl. }
    rewrite E. cbn [fst].
    destruct (drop_finish s pb d 1 true true true s2 Hok Ed Hst Hsc) as (H1 & H2 & H3 & Hat & H4).
    { intros q [Hq1 Hq2] Hne. apply Hr'; assumption. }
    split; [exact H1|]. split; [exact H2|]. split; [exact H3|]. split; [exact Hat|]. intros q Hq. rewrite H4 by exact Hq.
    case_decide; [|reflexivity]. rewrite Hr. unfold content. rewrite Ed, Hx. reflexivity.
  - unfold hammer2_dev_bwrite in Hquiet |- *. rewrite bwrite_async in Hquiet |- *. apply Hquiet; reflexivity.
Qed.

(** Releasing the last reference: the buffer is gone, and the medium holds it
    only if it was written synchronously. *)
Lemma putblk_last s pb d g di f :
  io_ok s -> get_dio s pb = Some d -> dio_st s pb d 1 g di f ->
  exists s', hammer2_io_putblk s pb = Done s' /\ io_ok s'
    /\ s_lock s' = s_lock s /\ s_volumes s' = s_volumes s
    /\ cleaned (Some (set_data None (set_refs (enc 0 false false f) d))) (get_dio s' pb)
    /\ forall pb', valid_base pb' ->
         content s' pb' = if decide (pb' = pb) then final s pb g di f else content s pb'.
Proof.
  intros Hok Ed Hst. destruct (last_drop_spec s pb d g di f Hok Ed Hst) as (H1 & H2 & H3 & Hat & H4).
  unfold hammer2_io_putblk. rewrite Ed, (st_dio_count _ _ _ _ _ _ _ Hst). cbn [Z.eqb Pos.eqb].
  rewrite (st_refs _ _ _ _ _ _ _ Hst), enc_last in *. set (s1 := last_drop _ _ _ _) in *.
  replace (tst (enc 0 false false f) HAMMER2_DIO_GOOD) with false by (symmetry; apply enc_good; lia).
  cbn [negb kassert obind]. set (s2 := add_lock 1 s1).
  pose proof (io_ok_lock _ 1 H1) as Hok2.
  set (limit := clamp_limit _).
  assert (Hsw : swept s2 (if limit <? s_iofree s2 then hammer2_io_hash_cleanup s2 limit else s2)).
  { destruct (limit <? s_iofree s2); [apply cleanup_swept|apply swept_refl]; apply Hok2. }
  set (s3 := if limit <? _ then _ else _) in *. destruct (swept_ok _ _ Hok2 Hsw) as [Hok3 Hc3].
  exists (add_lock (- 1) s3). split; [reflexivity|]. split; [apply io_ok_lock; exact Hok3|].
  pose proof (sw_lock _ _ Hsw) as L. change (s_lock s2) with (s_lock s1 + 1) in L.
  split; [change (s_lock (add_lock (- 1) s3)) with (s_lock s3 + - 1); lia|].
  split; [cbn; rewrite (sw_volumes _ _ Hsw); exact H3|].
  split; [rewrite <- Hat; exact (sw_dio _ _ Hsw pb)|].
  intros q Hq. rewrite <- H4 by exact Hq. exact (Hc3 q).
Qed.
End putblk.
