(* ===== verification/IoSpec.v ===== *)
(** What the buffer cache promises: a flat store of 64KB buffers.  Any legal
    sequence of client operations behaves as on the store, and once the buffers
    are released the medium holds the store.  Then what it does not promise:
    delayed writes, accesses after a read error, quick reads that miss. *)

From Stdlib Require Import ZArith Lia Bool.
From stdpp Require Import base numbers list option gmap.
From S2P Require Import Prelude Disk Subr Freemap Io IoLemmas IoProof.

(** * Client operations *)

Inductive io_op :=
| Oread (btype lbase : Z)           (* hammer2_io_bread, then read hammer2_io_data *)
| Onew (btype lbase : Z)            (* hammer2_io_new *)
| Ostore (lbase : Z) (bs : list Z)  (* write through hammer2_io_data *)
| Osetdirty (pb : Z)
| Obwrite (pb : Z)
| Obawrite (pb : Z)
| Obqrelse (pb : Z)
| Otick (t : Z).                    (* the clock *)

(** The buffer a request falls in, its size. *)
Definition pbase_of (lbase : Z) : Z := lbase .&~ HAMMER2_OFF_MASK_RADIX .&~ HAMMER2_PBUFMASK.
Definition size_of (lbase : Z) : Z := 2 ^ (lbase .& HAMMER2_OFF_MASK_RADIX).

Definition set_ticks (t : Z) (s : ios) : ios :=
  Ios (s_volumes s) (s_hash s) (s_iofree s) (s_iter s) (s_lock s) (s_count s) (s_files s) t (s_limit s).

(** The bytes a client sees at [lbase] through its pointer. *)
Definition client_read (s : ios) (lbase : Z) : outcome (list Z) :=
  match get_dio s (pbase_of lbase) with
  | None => Panic
  | Some d =>
      let! off := hammer2_io_data d lbase in
      Done (fread (default [] (d_data d)) off (size_of lbase))
  end.

Definition client_store (s : ios) (lbase : Z) (bs : list Z) : outcome ios :=
  match get_dio s (pbase_of lbase) with
  | None => Panic
  | Some d =>
      let! off := hammer2_io_data d lbase in
      Done (mod_dio (pbase_of lbase) (set_data (option_map (fun x => fwrite x off bs) (d_data d))) s)
  end.

Section run.
Context {W : Win32}.

Definition io_exec (s : ios) (op : io_op) : outcome (ios * list Z) :=
  match op with
  | Oread btype lbase =>
      let! (_, _, s) := hammer2_io_bread s btype lbase (size_of lbase) in
      let! bs := client_read s lbase in Done (s, bs)
  | Onew btype lbase =>
      let! (_, _, s) := hammer2_io_new s btype lbase (size_of lbase) in Done (s, [])
  | Ostore lbase bs => let! s := client_store s lbase bs in Done (s, [])
  | Osetdirty pb => Done (hammer2_io_setdirty s pb, [])
  | Obwrite pb => let! s := hammer2_io_bwrite s pb in Done (s, [])
  | Obawrite pb => let! s := hammer2_io_bawrite s pb in Done (s, [])
  | Obqrelse pb => let! s := hammer2_io_bqrelse s pb in Done (s, [])
  | Otick t => Done (set_ticks t s, [])
  end.

Fixpoint io_run (s : ios) (ops : list io_op) : outcome (ios * list (list Z)) :=
  match ops with
  | [] => Done (s, [])
  | op :: ops =>
      let! (s, r) := io_exec s op in
      let! (s, rs) := io_run s ops in Done (s, r :: rs)
  end.
End run.

(** * The specification: a map from buffers to contents *)

Definition flat_upd (c : Z -> list Z) (pb : Z) (x : list Z) : Z -> list Z :=
  fun q => if decide (q = pb) then x else c q.

Definition flat_exec (c : Z -> list Z) (op : io_op) : (Z -> list Z) * list Z :=
  match op with
  | Oread _ lbase =>
      let pb := pbase_of lbase in (c, fread (c pb) (doff lbase pb) (size_of lbase))
  | Onew _ lbase =>
      let pb := pbase_of lbase in
      (flat_upd c pb (fwrite (c pb) (doff lbase pb) (replicate (Z.to_nat (size_of lbase)) 0)), [])
  | Ostore lbase bs =>
      let pb := pbase_of lbase in (flat_upd c pb (fwrite (c pb) (doff lbase pb) bs), [])
  | _ => (c, [])
  end.

Fixpoint flat_run (c : Z -> list Z) (ops : list io_op) : (Z -> list Z) * list (list Z) :=
  match ops with
  | [] => (c, [])
  | op :: ops =>
      let '(c, r) := flat_exec c op in
      let '(c, rs) := flat_run c ops in (c, r :: rs)
  end.

(** * Legal sequences *)

(** A buffer the client holds, with some of the flags set. *)
Definition held (s : ios) (pb : Z) (flags : Z) : Prop :=
  exists d, get_dio s pb = Some d /\ tst (d_refs d) HAMMER2_DIO_GOOD = true
    /\ (flags = 0 \/ tst (d_refs d) flags = true).

(** A dirty buffer is released with a synchronous write, unless one was asked
    for before. *)
Definition legal (s : ios) (op : io_op) : Prop :=
  match op with
  | Oread _ lbase | Onew _ lbase =>
      req_ok s lbase (pbase_of lbase) (lbase .& HAMMER2_OFF_MASK_RADIX) /\ room s (pbase_of lbase)
  | Ostore lbase bs =>
      req_ok s lbase (pbase_of lbase) (lbase .& HAMMER2_OFF_MASK_RADIX)
      /\ Z.of_nat (length bs) <= size_of lbase /\ held s (pbase_of lbase) HAMMER2_DIO_DIRTY
  | Osetdirty pb | Obwrite pb | Obawrite pb => held s pb 0
  | Obqrelse pb =>
      exists d, get_dio s pb = Some d /\ tst (d_refs d) HAMMER2_DIO_GOOD = true
        /\ (tst (d_refs d) HAMMER2_DIO_DIRTY = false \/ tst (d_refs d) HAMMER2_DIO_FLUSH = true)
  | Otick _ => True
  end.

Fixpoint legal_run `{!Win32} (s : ios) (ops : list io_op) : Prop :=
  match ops with
  | [] => True
  | op :: ops => legal s op /\ forall s' r, io_exec s op = Done (s', r) -> legal_run s' ops
  end.

(** The cache presents the store [c]. *)
Definition presents (s : ios) (c : Z -> list Z) : Prop :=
  forall pb, valid_base pb -> content s pb = c pb.

(** * One step *)

Section step.
Context {W : Win32} {WL : Win32Laws}.

Definition step_ok (s : ios) (c : Z -> list Z) (op : io_op) : Prop :=
  exists s' r, io_exec s op = Done (s', r) /\ io_ok s' /\ s_lock s' = s_lock s
    /\ s_volumes s' = s_volumes s
    /\ r = (flat_exec c op).2 /\ presents s' (flat_exec c op).1.

Lemma req_valid s lbase pb r : req_ok s lbase pb r -> valid_base pb.
Proof. intros [_ _ H _ _]. exact H. Qed.

Lemma st_valid s pb d n g di f : dio_st s pb d n g di f -> valid_base pb.
Proof. intros H. apply H. Qed.

Lemma held_st s pb m :
  io_ok s -> held s pb m ->
  exists d n di f x, get_dio s pb = Some d /\ dio_st s pb d n true di f /\ 1 <= n /\ d_data d = Some x
    /\ content s pb = x /\ (m = 0 \/ tst (enc n true di f) m = true).
Proof.
  intros (_ & _ & Hd) (d & Ed & Hg & Hm). destruct (Hd pb d Ed) as (n & g & di & f & Hst).
  pose proof (st_count _ _ _ _ _ _ _ Hst) as Hn. rewrite (st_refs _ _ _ _ _ _ _ Hst) in Hg, Hm.
  rewrite enc_good in Hg by exact Hn. subst g.
  destruct (st_data _ _ _ _ _ _ _ Hst) as (x & Hx & _).
  exists d, n, di, f, x. split; [exact Ed|]. split; [exact Hst|]. split.
  - destruct (decide (n = 0)) as [E|]; [|lia]. discriminate (st_idle _ _ _ _ _ _ _ Hst E).
  - split; [exact Hx|]. split; [|exact Hm]. unfold content. rewrite Ed, Hx. reflexivity.
Qed.

(** The contents after one dio changed. *)
Lemma presents_upd s s' c k pb d x :
  presents s c -> upd k pb d s s' -> d_data d = Some x -> presents s' (flat_upd c pb x).
Proof.
  intros Hc Hu Hx q Hq. unfold flat_upd. case_decide as E; [subst q; exact (content_upd_eq _ _ _ _ _ _ Hu Hx)|].
  rewrite (content_upd_ne _ _ _ _ _ _ Hu E). exact (Hc q Hq).
Qed.

Lemma presents_same s c pb x : presents s c -> (valid_base pb -> x = c pb) -> presents s (flat_upd c pb x).
Proof.
  intros Hc Hx q Hq. unfold flat_upd. case_decide as E; [|exact (Hc q Hq)]. subst q.
  rewrite Hx by exact Hq. exact (Hc pb Hq).
Qed.

(** Getting a buffer for reading or zeroed. *)
Lemma step_getblk s c btype lbase op :
  io_ok s -> presents s c -> op <> DOP_READQ ->
  req_ok s lbase (pbase_of lbase) (lbase .& HAMMER2_OFF_MASK_RADIX) -> room s (pbase_of lbase) ->
  let pb := pbase_of lbase in
  exists s' d n di f x,
    with_error (hammer2_io_getblk s btype lbase (size_of lbase) op) = Done (pb, 0, s')
    /\ io_ok s' /\ upd 0 pb d s s' /\ dio_st s' pb d n true di f /\ d_data d = Some x
    /\ op_result op (c pb) (doff lbase pb) (size_of lbase) x.
Proof.
  intros Hok Hc Hop Hr Hroom pb.
  destruct (getblk_spec s btype lbase pb _ op Hok Hr Hroom Hop) as (s' & d & n & di & f & x & E & Hu & Hst & Hn & Hx & Hres).
  assert (Hst' : dio_st s' pb d n true (op_dirty op di) f).
  { apply (dio_st_frame s); [apply Hu|apply region_frame; apply Hu|exact Hst]. }
  exists s', d, n, (op_dirty op di), f, x. split; [|split; [|split; [exact Hu|split; [exact Hst'|split; [exact Hx|]]]]].
  - unfold with_error, size_of. rewrite E. cbn [obind]. unfold dio_error. rewrite (upd_at _ _ _ _ _ Hu).
    destruct (st_data _ _ _ _ _ _ _ Hst) as (y & _ & _ & -> & _). reflexivity.
  - exact (io_ok_upd _ _ _ _ _ _ _ _ _ Hok Hu Hst).
  - rewrite (Hc pb (req_valid _ _ _ _ Hr)) in Hres. exact Hres.
Qed.

Lemma step_read s c btype lbase :
  io_ok s -> presents s c -> legal s (Oread btype lbase) -> step_ok s c (Oread btype lbase).
Proof.
  intros Hok Hc [Hr Hroom]. pose proof (proj1 Hok) as Hv.
  destruct (step_getblk s c btype lbase DOP_READ Hok Hc ltac:(discriminate) Hr Hroom)
    as (s' & d & n & di & f & x & E & Hok' & Hu & Hst & Hx & ->).
  assert (Hr' : req_ok s' lbase (pbase_of lbase) (lbase .& HAMMER2_OFF_MASK_RADIX)).
  { destruct Hr as [A B C D V]. constructor; try assumption. rewrite (upd_volumes _ _ _ _ _ Hu). exact V. }
  exists s', (fread (c (pbase_of lbase)) (doff lbase (pbase_of lbase)) (size_of lbase)).
  split; [|split; [exact Hok'|split; [rewrite (upd_lock _ _ _ _ _ Hu); lia|split; [apply Hu|split; [reflexivity|]]]]].
  - cbn [io_exec]. unfold hammer2_io_bread. rewrite E. cbn [obind]. unfold client_read.
    rewrite (upd_at _ _ _ _ _ Hu). pose proof (proj1 Hok') as Hv'.
    rewrite (io_data_spec s' lbase _ _ Hv' Hr' _ _ _ _ _ d _ Hst eq_refl eq_refl Hx), Hx. reflexivity.
  - intros q Hq. cbn [flat_exec fst]. pose proof (presents_upd _ _ _ _ _ _ _ Hc Hu Hx q Hq) as H.
    rewrite H. unfold flat_upd. case_decide; [subst q|]; reflexivity.
Qed.

Lemma step_new s c btype lbase :
  io_ok s -> presents s c -> legal s (Onew btype lbase) -> step_ok s c (Onew btype lbase).
Proof.
  intros Hok Hc [Hr Hroom].
  destruct (step_getblk s c btype lbase DOP_NEW Hok Hc ltac:(discriminate) Hr Hroom)
    as (s' & d & n & di & f & x & E & Hok' & Hu & Hst & Hx & ->).
  exists s', []. split; [|split; [exact Hok'|split; [rewrite (upd_lock _ _ _ _ _ Hu); lia|split; [apply Hu|split; [reflexivity|]]]]].
  - cbn [io_exec]. unfold hammer2_io_new. rewrite E. reflexivity.
  - exact (presents_upd _ _ _ _ _ _ _ Hc Hu Hx).
Qed.

Lemma step_store s c lbase bs :
  io_ok s -> presents s c -> legal s (Ostore lbase bs) -> step_ok s c (Ostore lbase bs).
Proof.
  intros Hok Hc (Hr & Hl & Hh). pose proof (proj1 Hok) as Hv. set (pb := pbase_of lbase) in *.
  destruct (held_st s pb _ Hok Hh) as (d & n & di & f & x & Ed & Hst & Hn & Hx & Hcx & [H|Hdi]); [discriminate H|].
  pose proof (st_count _ _ _ _ _ _ _ Hst) as Hcount. rewrite enc_dirty in Hdi by exact Hcount. subst di.
  pose proof (io_data_spec s lbase pb _ Hv Hr _ _ _ _ _ d _ Hst eq_refl eq_refl Hx) as Hdata.
  pose proof (req_off s lbase pb _ Hr) as Hoff. fold (size_of lbase) in Hoff.
  pose proof (st_data _ _ _ _ _ _ _ Hst) as (y & Hy & Hyl & He & _). rewrite Hx in Hy. injection Hy as <-.
  set (x' := fwrite x (doff lbase pb) bs).
  assert (Hst' : dio_st s pb (set_data (Some x') d) n true true f).
  { destruct Hst as [P B R C V I D]. constructor; try assumption. exists x'. split; [reflexivity|].
    split; [|split; [exact He|discriminate]]. unfold x'. rewrite fwrite_length; [exact Hyl|lia|lia]. }
  assert (Hu : upd 0 pb (set_data (Some x') d) s (mod_dio pb (set_data (Some x')) s)).
  { apply (upd_mod pb d); [exact Ed|auto]. }
  eexists _, _. split; [|split; [exact (io_ok_upd _ _ _ _ _ _ _ _ _ Hok Hu Hst')|split; [|split; [apply Hu|split; [reflexivity|]]]]].
  - cbn [io_exec]. unfold client_store. fold pb. rewrite Ed, Hdata, Hx. reflexivity.
  - rewrite (upd_lock _ _ _ _ _ Hu). lia.
  - cbn [flat_exec fst]. fold pb. rewrite <- (Hc pb (st_valid _ _ _ _ _ _ _ Hst)), Hcx.
    exact (presents_upd _ _ _ _ _ _ _ Hc Hu eq_refl).
Qed.

(** Setting flags of a held buffer changes no contents. *)
Lemma set_flags s c pb m d n di f x di' f' :
  io_ok s -> presents s c -> get_dio s pb = Some d -> dio_st s pb d n true di f -> d_data d = Some x ->
  enc n true di f .| m = enc n true di' f' -> (di' = false -> di = false) ->
  let s' := mod_dio pb (or_refs m) s in
  io_ok s' /\ presents s' c /\ upd 0 pb (or_refs m d) s s' /\ dio_st s' pb (or_refs m d) n true di' f'.
Proof.
  intros Hok Hc Ed Hst Hx Hm Hdi s'.
  assert (Hu : upd 0 pb (or_refs m d) s s') by (apply (upd_mod pb d); [exact Ed|auto]).
  assert (Hst' : dio_st s pb (or_refs m d) n true di' f').
  { destruct Hst as [P B R C V I (y & Hy & Hl & He & Hr)]. constructor; try assumption.
    - cbn. rewrite R. exact Hm.
    - exists y. split; [exact Hy|]. split; [exact Hl|]. split; [exact He|]. intros E. exact (Hr (Hdi E)). }
  split; [exact (io_ok_upd _ _ _ _ _ _ _ _ _ Hok Hu Hst')|]. split; [|split; [exact Hu|]].
  - intros q Hq. rewrite (presents_upd _ _ _ _ _ (or_refs m d) x Hc Hu Hx q Hq). unfold flat_upd.
    case_decide; [subst q|reflexivity]. rewrite <- (Hc pb Hq). unfold content. rewrite Ed, Hx. reflexivity.
  - apply (dio_st_frame s); [apply Hu|apply region_frame; apply Hu|exact Hst'].
Qed.

Lemma step_setdirty s c pb :
  io_ok s -> presents s c -> legal s (Osetdirty pb) -> step_ok s c (Osetdirty pb).
Proof.
  intros Hok Hc Hh. destruct (held_st s pb _ Hok Hh) as (d & n & di & f & x & Ed & Hst & Hn & Hx & _).
  destruct (set_flags s c pb HAMMER2_DIO_DIRTY d n di f x true f Hok Hc Ed Hst Hx) as (H1 & H2 & H3 & _).
  { exact (enc_set_dirty n true di f (st_count _ _ _ _ _ _ _ Hst)). } { discriminate. }
  eexists _, _. split; [reflexivity|]. split; [exact H1|].
  split; [change (s_lock (hammer2_io_setdirty s pb)) with (s_lock s); reflexivity|].
  split; [apply H3|]. split; [reflexivity|exact H2].
Qed.

(** Releasing a buffer whose contents will not be lost. *)
Lemma release s c pb d n g di f :
  io_ok s -> presents s c -> get_dio s pb = Some d -> dio_st s pb d n g di f -> 1 <= n ->
  (g = true -> di = false \/ f = true) ->
  exists s', hammer2_io_putblk s pb = Done s' /\ io_ok s' /\ s_lock s' = s_lock s
    /\ s_volumes s' = s_volumes s /\ presents s' c.
Proof.
  intros Hok Hc Ed Hst Hn Hsafe. destruct (decide (n = 1)) as [->|Hn1].
  - destruct (putblk_last s pb d g di f Hok Ed Hst) as (s' & E & H1 & H2 & H3 & _ & H4).
    exists s'. split; [exact E|]. split; [exact H1|]. split; [exact H2|]. split; [exact H3|].
    intros q Hq. rewrite H4 by exact Hq. case_decide as Eq; [subst q|exact (Hc q Hq)].
    rewrite <- (Hc pb Hq). unfold final, content. rewrite Ed.
    pose proof (st_data _ _ _ _ _ _ _ Hst) as D. destruct g; cbn [andb]; [|destruct D as [-> _]; reflexivity].
    destruct D as (x & -> & _ & _ & Hr). destruct (Hsafe eq_refl) as [-> | ->]; cbn [andb].
    + symmetry. exact (Hr eq_refl).
    + rewrite andb_true_r. destruct di; [reflexivity|symmetry; exact (Hr eq_refl)].
  - destruct (putblk_shared s pb d n g di f Hok Ed Hst ltac:(lia)) as (s' & E & H1 & H2 & H3).
    exists s'. split; [exact E|]. split; [exact H1|]. split; [rewrite (upd_lock _ _ _ _ _ H2); lia|].
    split; [apply H2|]. intros q Hq. rewrite H3. exact (Hc q Hq).
Qed.

Lemma release_sync s c pb :
  io_ok s -> presents s c -> held s pb 0 ->
  exists s', hammer2_io_putblk (mod_dio pb (or_refs (HAMMER2_DIO_DIRTY .| HAMMER2_DIO_FLUSH)) s) pb = Done s'
    /\ io_ok s' /\ s_lock s' = s_lock s /\ s_volumes s' = s_volumes s /\ presents s' c.
Proof.
  intros Hok Hc Hh. destruct (held_st s pb _ Hok Hh) as (d & n & di & f & x & Ed & Hst & Hn & Hx & _).
  destruct (set_flags s c pb (HAMMER2_DIO_DIRTY .| HAMMER2_DIO_FLUSH) d n di f x true true Hok Hc Ed Hst Hx)
    as (H1 & H2 & H3 & H4).
  { exact (enc_set_flush n true di f (st_count _ _ _ _ _ _ _ Hst)). } { discriminate. }
  destruct (release _ c pb _ _ _ _ _ H1 H2 (upd_at _ _ _ _ _ H3) H4 Hn ltac:(auto)) as (s' & E & K1 & K2 & K3 & K4).
  exists s'. split; [exact E|]. split; [exact K1|]. split; [rewrite K2, (upd_lock _ _ _ _ _ H3); lia|].
  split; [rewrite K3; apply H3|exact K4].
Qed.

Lemma step_sound s c op : io_ok s -> presents s c -> legal s op -> step_ok s c op.
Proof.
  intros Hok Hc Hl. destruct op as [btype lbase|btype lbase|lbase bs|pb|pb|pb|pb|t].
  - exact (step_read s c btype lbase Hok Hc Hl).
  - exact (step_new s c btype lbase Hok Hc Hl).
  - exact (step_store s c lbase bs Hok Hc Hl).
  - exact (step_setdirty s c pb Hok Hc Hl).
  - destruct (release_sync s c pb Hok Hc Hl) as (s' & E & H). exists s', []. cbn [io_exec].
    unfold hammer2_io_bwrite. rewrite E. tauto.
  - destruct (release_sync s c pb Hok Hc Hl) as (s' & E & H). exists s', []. cbn [io_exec].
    unfold hammer2_io_bawrite. rewrite E. tauto.
  - destruct Hl as (d & Ed & Hg & Hdf).
    destruct (held_st s pb 0 Hok) as (d' & n & di & f & x & Ed' & Hst & Hn & _); [exists d; auto|].
    rewrite Ed in Ed'. injection Ed' as <-. rewrite (st_refs _ _ _ _ _ _ _ Hst), enc_dirty, enc_flush in Hdf by (exact (st_count _ _ _ _ _ _ _ Hst)).
    destruct (release s c pb d n true di f Hok Hc Ed Hst Hn ltac:(auto)) as (s' & E & H).
    exists s', []. cbn [io_exec]. unfold hammer2_io_bqrelse. rewrite E. tauto.
  - exists (set_ticks t s), []. split; [reflexivity|]. split; [|repeat split; exact Hc].
    destruct Hok as (Hv & Hb & Hd). split; [exact Hv|]. split; [exact Hb|]. intros pb d H.
    destruct (Hd pb d H) as (n & g & di & f & [P B R C V I D]). exists n, g, di, f. constructor; assumption.
Qed.
End step.

(** * Sequences *)

Section sequences.
Context {W : Win32} {WL : Win32Laws}.

Lemma run_sound ops : forall s c,
  io_ok s -> presents s c -> legal_run s ops ->
  exists s', io_run s ops = Done (s', (flat_run c ops).2) /\ io_ok s' /\ s_lock s' = s_lock s
    /\ presents s' (flat_run c ops).1.
Proof.
  induction ops as [|op ops IH]; intros s c Hok Hc Hl; [exists s; auto|].
  destruct Hl as [Hl Hrest]. destruct (step_sound s c op Hok Hc Hl) as (s1 & r & E & Hok1 & Hk1 & _ & Hr & Hc1).
  specialize (Hrest s1 r E). cbn [flat_run]. destruct (flat_exec c op) as [c1 r1]. cbn in Hr, Hc1. subst r.
  destruct (IH s1 c1 Hok1 Hc1 Hrest) as (s' & E' & Hok' & Hk' & Hc'). destruct (flat_run c1 ops) as [c2 rs].
  exists s'. cbn [io_run]. rewrite E. cbn [obind]. rewrite E'. cbn in Hc' |- *.
  split; [reflexivity|]. split; [exact Hok'|]. split; [congruence|exact Hc'].
Qed.

(** A buffer that nobody holds is what the medium holds. *)
Lemma released_region s pb :
  io_ok s -> (forall d, get_dio s pb = Some d -> dio_count d = 0) -> content s pb = region s pb.
Proof.
  intros (_ & _ & Hd) Hc. unfold content. destruct (get_dio s pb) as [d|] eqn:Ed; [|reflexivity].
  destruct (Hd pb d Ed) as (n & g & di & f & Hst). specialize (Hc d eq_refl).
  rewrite (st_dio_count _ _ _ _ _ _ _ Hst) in Hc. pose proof (st_data _ _ _ _ _ _ _ Hst) as D.
  rewrite (st_idle _ _ _ _ _ _ _ Hst Hc) in D. destruct D as [-> _]. reflexivity.
Qed.
End sequences.

(** Deciding legality, for concrete sequences. *)
Definition req_okb (s : ios) (lbase : Z) : bool :=
  let pb := pbase_of lbase in
  let r := lbase .& HAMMER2_OFF_MASK_RADIX in
  let off := lbase .&~ HAMMER2_OFF_MASK_RADIX in
  (1 <=? r) && (r <=? 16) && (0 <? pb) && (pb <? 2 ^ 64) && (pb mod 2 ^ 16 =? 0)
  && (pb <=? off) && (off + 2 ^ r <=? pb + 2 ^ 16)
  && match hammer2_get_volume (s_volumes s) pb with Done _ => true | Panic => false end.

Definition heldb (s : ios) (pb : Z) (p : Z -> bool) : bool :=
  match get_dio s pb with
  | Some d => tst (d_refs d) HAMMER2_DIO_GOOD && p (d_refs d)
  | None => false
  end.

Definition roomb (s : ios) (pb : Z) : bool :=
  match get_dio s pb with Some d => dio_count d + 1 <? 2 ^ 24 | None => true end.

Definition legalb (s : ios) (op : io_op) : bool :=
  match op with
  | Oread _ lbase | Onew _ lbase => req_okb s lbase && roomb s (pbase_of lbase)
  | Ostore lbase bs =>
      req_okb s lbase && (Z.of_nat (length bs) <=? size_of lbase)
      && heldb s (pbase_of lbase) (fun r => tst r HAMMER2_DIO_DIRTY)
  | Osetdirty pb | Obwrite pb | Obawrite pb => heldb s pb (fun _ => true)
  | Obqrelse pb => heldb s pb (fun r => negb (tst r HAMMER2_DIO_DIRTY) || tst r HAMMER2_DIO_FLUSH)
  | Otick _ => true
  end.

Fixpoint legal_runb `{!Win32} (s : ios) (ops : list io_op) : bool :=
  match ops with
  | [] => true
  | op :: ops =>
      legalb s op && match io_exec s op with Done (s', _) => legal_runb s' ops | Panic => true end
  end.

Lemma req_okb_sound s lbase :
  req_okb s lbase = true -> req_ok s lbase (pbase_of lbase) (lbase .& HAMMER2_OFF_MASK_RADIX).
Proof.
  unfold req_okb. rewrite !andb_true_iff, !Z.leb_le, !Z.ltb_lt, Z.eqb_eq. intros [[[[[[[H1 H2] H3] H4] H5] H6] H7] H8].
  constructor; try lia.
  - split; [lia|]. apply Z.mod_divide; [lia|exact H5].
  - destruct (hammer2_get_volume (s_volumes s) (pbase_of lbase)) as [v|]; [eauto|discriminate H8].
Qed.

Lemma roomb_sound s pb : roomb s pb = true -> room s pb.
Proof. unfold roomb, room. intros H d E. rewrite E in H. apply Z.ltb_lt. exact H. Qed.

Lemma heldb_sound s pb p :
  heldb s pb p = true ->
  exists d, get_dio s pb = Some d /\ tst (d_refs d) HAMMER2_DIO_GOOD = true /\ p (d_refs d) = true.
Proof.
  unfold heldb. destruct (get_dio s pb) as [d|]; [|discriminate]. rewrite andb_true_iff. eauto.
Qed.

Lemma legalb_sound s op : legalb s op = true -> legal s op.
Proof.
  destruct op; cbn [legalb legal]; rewrite ?andb_true_iff.
  - intros [H1 H2]. auto using req_okb_sound, roomb_sound.
  - intros [H1 H2]. auto using req_okb_sound, roomb_sound.
  - intros [[H1 H2] H3]. apply heldb_sound in H3 as (d & E & Hg & Hp).
    split; [apply req_okb_sound; exact H1|]. split; [apply Z.leb_le; exact H2|]. exists d. auto.
  - intros H. apply heldb_sound in H as (d & E & Hg & _). exists d. auto.
  - intros H. apply heldb_sound in H as (d & E & Hg & _). exists d. auto.
  - intros H. apply heldb_sound in H as (d & E & Hg & _). exists d. auto.
  - intros H. apply heldb_sound in H as (d & E & Hg & Hp). exists d. split; [exact E|]. split; [exact Hg|].
    apply orb_true_iff in Hp as [Hp|Hp]; [left; apply negb_true_iff; exact Hp|right; exact Hp].
  - auto.
Qed.

Lemma legal_runb_sound {W : Win32} ops : forall s, legal_runb s ops = true -> legal_run s ops.
Proof.
  induction ops as [|op ops IH]; intros s H; [exact I|]. cbn [legal_runb legal_run] in *.
  apply andb_true_iff in H as [H1 H2]. split; [apply legalb_sound; exact H1|].
  intros s' r E. rewrite E in H2. apply IH. exact H2.
Qed.

(** A backend that obeys the laws, and an empty cache on one volume. *)
Definition demo_win32 : Win32 := {|
  malloc n := Some (replicate (Z.to_nat n) 205);
  alloc_bh_ok _ _ := true;
  ReadFile _ f off len := Some (take (Z.to_nat len) (drop (Z.to_nat off) f));
  WriteFile _ f off d := (fwrite f off d, true)
|}.

Lemma demo_win32_laws : @Win32Laws demo_win32.
Proof.
  constructor; try reflexivity. eexists. split; [reflexivity|]. apply length_replicate.
Qed.

Definition demo_cache : ios := Ios [Volume 1 0 (2 ^ 30)] ∅ 0 0 0 0 ∅ 0 256.

Lemma empty_cache_ok vols files :
  volumes_ok vols -> io_ok (Ios vols ∅ 0 0 0 0 files 0 256).
Proof.
  intros Hv. split; [exact Hv|]. split.
  - intros i. unfold bucket. cbn. rewrite lookup_empty. constructor.
  - intros pb d H. unfold get_dio, bucket in H. cbn in H. rewrite lookup_empty in H. discriminate H.
Qed.

(** * Properties *)

(** C9. The buffer cache is a flat store: on a backend that does what Win32
    documents, every legal sequence of client operations completes, returns the
    bytes the store returns, leaves the hash lock as it was, and presents the
    store's final contents; a buffer that is no longer held is on the medium. *)
Theorem io_cache_refines {W : Win32} {WL : Win32Laws} s c ops :
  io_ok s -> presents s c -> legal_run s ops ->
  exists s', io_run s ops = Done (s', (flat_run c ops).2)
    /\ io_ok s' /\ s_lock s' = s_lock s
    /\ forall pb, valid_base pb ->
         content s' pb = (flat_run c ops).1 pb
         /\ ((forall d, get_dio s' pb = Some d -> dio_count d = 0) ->
             region s' pb = (flat_run c ops).1 pb).
Proof.
  intros Hok Hc Hl. destruct (run_sound ops s c Hok Hc Hl) as (s' & E & Hok' & Hk & Hc').
  exists s'. split; [exact E|]. split; [exact Hok'|]. split; [exact Hk|]. intros pb Hpb.
  split; [exact (Hc' pb Hpb)|]. intros Hidle. rewrite <- (Hc' pb Hpb). symmetry.
  exact (released_region s' pb Hok' Hidle).
Qed.

(** A new block, two stores, a synchronous release and a later read. *)
Definition demo_ops : list io_op :=
  let b := 131072 + 1024 + 10 in
  [Onew 3 b; Ostore b [7; 8; 9]; Obawrite 131072; Otick 90000; Oread 3 b; Obqrelse 131072].

Lemma io_cache_refines_witness :
  exists s', @io_run demo_win32 demo_cache demo_ops
             = Done (s', (flat_run (fun pb => region demo_cache pb) demo_ops).2)
    /\ io_ok s' /\ s_lock s' = 0
    /\ forall pb, valid_base pb ->
         content s' pb = (flat_run (fun pb => region demo_cache pb) demo_ops).1 pb
         /\ ((forall d, get_dio s' pb = Some d -> dio_count d = 0) ->
             region s' pb = (flat_run (fun pb => region demo_cache pb) demo_ops).1 pb).
Proof.
  apply (@io_cache_refines demo_win32 demo_win32_laws).
  - apply empty_cache_ok. split; [|apply NoDup_singleton]. constructor; [|constructor].
    split; [cbn; lia|exists 0; reflexivity].
  - intros pb _. unfold content, get_dio, bucket. cbn. rewrite lookup_empty. reflexivity.
  - apply legal_runb_sound. vm_compute. reflexivity.
Defined.

(** C10. A delayed write is lost: [hammer2_io_bdwrite] of the last reference to a
    modified buffer frees it without writing, so that the old contents of the
    medium are what every later access sees.  This is so while the sticky FLUSH bit is
    clear, that is, when the buffer has not been released with [hammer2_io_bwrite] or
    [hammer2_io_bawrite] before. *)
Theorem delayed_write_lost {W : Win32} {WL : Win32Laws} s pb d :
  io_ok s -> get_dio s pb = Some d -> dio_count d = 1 ->
  tst (d_refs d) HAMMER2_DIO_GOOD = true -> tst (d_refs d) HAMMER2_DIO_FLUSH = false ->
  exists s', hammer2_io_bdwrite s pb = Done s' /\ io_ok s'
    /\ content s' pb = region s pb
    /\ forall pb', valid_base pb' -> pb' <> pb -> content s' pb' = content s pb'.
Proof.
  intros Hok Ed Hc Hg Hf. destruct (held_st s pb 0 Hok) as (d' & n & di & f & x & Ed' & Hst & Hn & Hx & _).
  { exists d. auto. }
  rewrite Ed in Ed'. injection Ed' as <-. rewrite (st_dio_count _ _ _ _ _ _ _ Hst) in Hc. subst n.
  rewrite (st_refs _ _ _ _ _ _ _ Hst), enc_flush in Hf by lia. subst f.
  destruct (set_flags s (content s) pb HAMMER2_DIO_DIRTY d 1 di false x true false Hok) as (H1 & H2 & H3 & H4);
    try assumption; try discriminate; [intros q _; reflexivity|apply enc_set_dirty; lia|].
  destruct (putblk_last _ pb _ _ _ _ H1 (upd_at _ _ _ _ _ H3) H4) as (s' & E & K1 & _ & _ & _ & K4).
  exists s'. split; [exact E|]. split; [exact K1|]. split.
  - rewrite K4, decide_True by (exact (st_valid _ _ _ _ _ _ _ Hst) || reflexivity).
    unfold final. cbn [andb]. apply region_frame; apply H3.
  - intros q Hq Hne. rewrite K4, decide_False by assumption. exact (H2 q Hq).
Qed.

(** The cache with one modified buffer. *)
Definition demo_dirty : ios :=
  match @io_run demo_win32 demo_cache (take 2 demo_ops) with Done (s, _) => s | Panic => demo_cache end.

Lemma demo_cache_ok : io_ok demo_cache.
Proof.
  apply empty_cache_ok. split; [|apply NoDup_singleton]. constructor; [|constructor].
  split; [cbn; lia|exists 0; reflexivity].
Qed.

Lemma demo_dirty_ok : io_ok demo_dirty.
Proof.
  destruct (@run_sound demo_win32 demo_win32_laws (take 2 demo_ops) demo_cache (region demo_cache))
    as (s' & E & Hok & _).
  - exact demo_cache_ok.
  - intros pb _. unfold content, get_dio, bucket. cbn. rewrite lookup_empty. reflexivity.
  - apply legal_runb_sound. vm_compute. reflexivity.
  - unfold demo_dirty. rewrite E. exact Hok.
Qed.

Lemma default_some {A} (o : option A) a : (if o is Some _ then true else false) = true -> o = Some (default a o).
Proof. destruct o; [reflexivity|discriminate]. Qed.

Lemma delayed_write_lost_witness :
  take 3 (drop 1024 (content demo_dirty 131072)) = [7; 8; 9]
  /\ exists s', @hammer2_io_bdwrite demo_win32 demo_dirty 131072 = Done s' /\ io_ok s'
       /\ content s' 131072 = region demo_dirty 131072
       /\ forall pb', valid_base pb' -> pb' <> 131072 -> content s' pb' = content demo_dirty pb'.
Proof.
  split; [vm_compute; reflexivity|].
  apply (@delayed_write_lost demo_win32 demo_win32_laws demo_dirty 131072
           (default (new_dio (Volume 0 0 0) 0 0) (get_dio demo_dirty 131072))).
  - exact demo_dirty_ok.
  - apply default_some. vm_compute. reflexivity.
  - vm_compute. reflexivity.
  - vm_compute. reflexivity.
  - vm_compute. reflexivity.
Defined.

(** The dio of a failed read. *)
Lemma failed_load {W : Win32} s op d lbase lsize x :
  malloc HAMMER2_PBUFSIZE = Some x -> (forall b f off len, ReadFile b f off len = None) ->
  d_data d = None -> op = DOP_READ \/ op = DOP_READQ ->
  load_dio s op d lbase lsize = Done (set_error (- EIO) (set_data (Some x) d)).
Proof.
  intros Hm Hr Hd Hop.
  assert (Hb : hammer2_bread s d = (set_data (Some x) d, - EIO)).
  { unfold hammer2_bread. rewrite Hd, Hm. unfold hammer2_dev_bread.
    change (Z.to_nat (HAMMER2_PBUFSIZE .>> PAGE_SHIFT)) with 16%nat.
    cbn [bread_pages]. unfold bread, dev_pread. rewrite Hr. destruct (alloc_bh_ok _ _); reflexivity. }
  unfold load_dio. rewrite Hd, Hb. cbn [kassert obind].
  destruct ((d_pbase d =? lbase .&~ HAMMER2_OFF_MASK_RADIX) && (lsize =? HAMMER2_PBUFSIZE));
    destruct Hop as [-> | ->]; reflexivity.
Qed.

(** After a read error the client gets EIO and a buffer; while it holds that
    buffer, any further access to the same 64KB stops the file system, because
    the private buffer of the failed read is still there. *)
Theorem read_error_then_panic {W : Win32} s btype lbase pb r x :
  io_ok s -> req_ok s lbase pb r -> get_dio s pb = None ->
  malloc HAMMER2_PBUFSIZE = Some x -> (forall b f off len, ReadFile b f off len = None) ->
  exists s', hammer2_io_bread s btype lbase (2 ^ r) = Done (pb, - EIO, s')
    /\ hammer2_io_bread s' btype lbase (2 ^ r) = Panic.
Proof.
  intros Hok Hr Hnone Hm Hread. pose proof (proj1 Hok) as Hv.
  assert (Hsize : (i32 (1 .<< (lbase .& HAMMER2_OFF_MASK_RADIX)) =? 2 ^ r) = true).
  { rewrite <- (rq_radix _ _ _ _ Hr). destruct (req_lsize _ _ _ _ Hr) as [_ Hp]. pose proof (rq_r _ _ _ _ Hr).
    rewrite Z.shiftl_mul_pow2, Z.mul_1_l, i32_small by lia. apply Z.eqb_refl. }
  destruct (rq_vol _ _ _ _ Hr) as [v Ev].
  destruct (alloc_new (add_lock 1 s) lbase btype pb r v Hv (req_lock _ 1 _ _ _ Hr) Hnone Ev) as (s1 & E1 & Hu1).
  set (d1 := touch s1 (new_dio v pb btype)) in *.
  set (d2 := set_error (- EIO) (set_data (Some x) d1)).
  set (s2 := mod_dio pb (fun _ => d2) (add_lock (- 1) s1)).
  assert (Hu2 : upd 0 pb d2 s s2).
  { apply (upd_trans 0 0 pb d1 d2 s (add_lock (- 1) s1)); [|apply (upd_mod pb d1 (fun _ => d2)); [apply Hu1|reflexivity]].
    apply (upd_0 (1 + (0 + - 1))); [lia|]. apply upd_from_lock, upd_lock_add. exact Hu1. }
  exists s2. split.
  - unfold hammer2_io_bread, with_error, hammer2_io_getblk. rewrite Hsize, E1. cbn [kassert obind].
    unfold hammer2_assert_io_refs. rewrite (upd_at _ _ _ _ _ Hu1). cbn [kassert obind].
    change (dio_count d1) with 1. cbn [Z.eqb negb kassert obind].
    change (tst (d_refs d1) HAMMER2_DIO_GOOD) with false. cbn iota.
    rewrite (failed_load _ _ _ _ _ x) by auto. cbn [obind]. fold d2 s2.
    unfold dio_error. rewrite (upd_at _ _ _ _ _ Hu2). reflexivity.
  - assert (Hr2 : req_ok (add_lock 1 s2) lbase pb r).
    { apply req_lock. destruct Hr as [A B C D V]. constructor; try assumption.
      rewrite (upd_volumes _ _ _ _ _ Hu2). exact V. }
    destruct (alloc_found (add_lock 1 s2) lbase btype true pb r d2 Hr2 (upd_at _ _ _ _ _ Hu2)) as (s3 & E3 & Hu3).
    { discriminate. }
    unfold hammer2_io_bread, with_error, hammer2_io_getblk. rewrite Hsize, E3. cbn [kassert obind].
    unfold hammer2_assert_io_refs. rewrite (upd_at _ _ _ _ _ Hu3). reflexivity.
Qed.

(** A backend whose reads fail. *)
Definition broken_win32 : Win32 := {|
  malloc n := Some (replicate (Z.to_nat n) 205);
  alloc_bh_ok _ _ := true;
  ReadFile _ _ _ _ := None;
  WriteFile _ f off d := (f, false)
|}.

Lemma read_error_then_panic_witness :
  exists s', @hammer2_io_bread broken_win32 demo_cache 3 (131072 + 10) (2 ^ 10) = Done (131072, - EIO, s')
    /\ @hammer2_io_bread broken_win32 s' 3 (131072 + 10) (2 ^ 10) = Panic.
Proof.
  apply (@read_error_then_panic broken_win32 demo_cache 3 (131072 + 10) 131072 10
           (replicate (Z.to_nat HAMMER2_PBUFSIZE) 205)).
  - exact demo_cache_ok.
  - exact (req_okb_sound demo_cache (131072 + 10) eq_refl).
  - vm_compute. reflexivity.
  - exact (@eq_refl (option (list Z)) (@malloc broken_win32 HAMMER2_PBUFSIZE)).
  - reflexivity.
Defined.

(** A quick read that misses returns with the hash lock held. *)
Theorem getquick_miss_keeps_lock {W : Win32} s lbase pb r :
  req_ok s lbase pb r -> get_dio s pb = None ->
  exists s', hammer2_io_getquick s lbase (2 ^ r) = Done (None, s') /\ s_lock s' = s_lock s + 1.
Proof.
  intros Hr Hnone. exists (add_lock 1 s). split; [|reflexivity].
  unfold hammer2_io_getquick, hammer2_io_getblk. rewrite <- (rq_radix _ _ _ _ Hr).
  destruct (req_lsize _ _ _ _ Hr) as [_ Hp]. pose proof (rq_r _ _ _ _ Hr).
  rewrite Z.shiftl_mul_pow2, Z.mul_1_l, i32_small, Z.eqb_refl by lia. cbn [kassert obind].
  rewrite (alloc_missing (add_lock 1 s) lbase 0 pb r (req_lock _ 1 _ _ _ Hr) Hnone). reflexivity.
Qed.

Lemma getquick_miss_keeps_lock_witness :
  exists s', @hammer2_io_getquick demo_win32 demo_cache (131072 + 10) (2 ^ 10) = Done (None, s')
    /\ s_lock s' = s_lock demo_cache + 1.
Proof.
  apply (@getquick_miss_keeps_lock demo_win32 demo_cache (131072 + 10) 131072 10).
  - exact (req_okb_sound demo_cache (131072 + 10) eq_refl).
  - reflexivity.
Defined.
