(* ===== verification/IoDedup.v ===== *)
(** The dedup bits of the buffer cache: which 1KB fragments a request covers,
    and the interlock with the freemap.  A range marked for dedup refuses
    [hammer2_io_dedup_assert] until [hammer2_io_dedup_delete] removes it; every
    one of the calls completes for a request inside a volume, and none changes
    the contents of a buffer. *)

From Stdlib Require Import ZArith Lia Bool.
From stdpp Require Import base numbers list option gmap.
From S2P Require Import Prelude Disk Subr Freemap Io IoLemmas IoProof IoSpec.

(** * The mask *)

Lemma dedup_mask_bits b n k :
  0 <= b -> 1 <= n -> b + n <= 64 -> 0 <= k ->
  Z.testbit ((if b + n =? 64 then u64 (- 1) else u64 (1 .<< (b + n)) - 1) .&~ (u64 (1 .<< b) - 1)) k
  = (b <=? k) && (k <? b + n).
Proof.
  intros Hb Hn Hbn Hk.
  assert (Hones : forall m, 0 <= m < 64 -> u64 (1 .<< m) - 1 = Z.ones m).
  { intros m Hm. rewrite Z.shiftl_mul_pow2, Z.mul_1_l, Z.ones_equiv by lia.
    rewrite u64_small; [lia|]. split; [apply Z.pow_nonneg; lia|apply Z.pow_lt_mono_r; lia]. }
  assert (E : (if b + n =? 64 then u64 (- 1) else u64 (1 .<< (b + n)) - 1) = Z.ones (b + n)).
  { destruct (Z.eqb_spec (b + n) 64) as [->|]; [reflexivity|]. apply Hones. lia. }
  rewrite E, Hones, Z.ldiff_spec, !Z.testbit_ones_nonneg by lia.
  destruct (Z.leb_spec b k), (Z.ltb_spec k (b + n)), (Z.ltb_spec k b); try lia; reflexivity.
Qed.

(** The fragments of a request. *)
Definition frag (lbase pb : Z) : Z := doff lbase pb / 1024.
Definition frags (r : Z) : Z := (2 ^ r + 1023) / 1024.

Lemma frags_range s lbase pb r :
  req_ok s lbase pb r -> 0 <= frag lbase pb /\ 1 <= frags r /\ frag lbase pb + frags r <= 64.
Proof.
  intros Hr. destruct (req_off s lbase pb r Hr) as [H0 H1]. pose proof (rq_r _ _ _ _ Hr) as Hrr.
  unfold frag, frags. destruct (Z.ltb_spec r 10) as [Hlt|Hge].
  - assert (2 ^ r <= 2 ^ 9) by (apply Z.pow_le_mono_r; lia).
    assert (2 ^ 1 <= 2 ^ r) by (apply Z.pow_le_mono_r; lia). div_mod_lia.
  - replace (2 ^ r) with (1024 * 2 ^ (r - 10)) in * by (change 1024 with (2 ^ 10); rewrite <- Z.pow_add_r by lia; f_equal; lia).
    assert (2 ^ 0 <= 2 ^ (r - 10)) by (apply Z.pow_le_mono_r; lia). div_mod_lia.
Qed.

Lemma dedup_mask_spec s lbase pb r d k :
  req_ok s lbase pb r -> d_pbase d = pb -> 0 <= k ->
  Z.testbit (hammer2_dedup_mask d lbase (2 ^ r)) k
  = (frag lbase pb <=? k) && (k <? frag lbase pb + frags r).
Proof.
  intros Hr Hp Hk. destruct (frags_range _ _ _ _ Hr) as (H1 & H2 & H3).
  destruct (req_off s lbase pb r Hr) as [H0 Ho]. pose proof (req_pow s lbase pb r Hr) as Hpow.
  rewrite <- dedup_mask_bits by assumption. unfold hammer2_dedup_mask. rewrite Hp. fold (doff lbase pb).
  rewrite (i32_small (doff lbase pb)) by lia. rewrite (u32_small (2 ^ r + (HAMMER2_DEDUP_FRAG - 1))) by lia.
  rewrite !Z.shiftr_div_pow2 by lia. change (2 ^ HAMMER2_DEDUP_FRAGRADIX) with 1024.
  fold (frag lbase pb). change (2 ^ r + (HAMMER2_DEDUP_FRAG - 1)) with (2 ^ r + 1023). fold (frags r).
  rewrite (i32_small (frags r)) by lia. reflexivity.
Qed.

Lemma dedup_mask_nonzero s lbase pb r d :
  req_ok s lbase pb r -> d_pbase d = pb -> hammer2_dedup_mask d lbase (2 ^ r) <> 0.
Proof.
  intros Hr Hp E. destruct (frags_range _ _ _ _ Hr) as (H1 & H2 & H3).
  pose proof (dedup_mask_spec _ _ _ _ _ (frag lbase pb) Hr Hp H1) as H. rewrite E, Z.bits_0 in H.
  symmetry in H. apply andb_false_iff in H as [H|H]; [apply Z.leb_gt in H|apply Z.ltb_ge in H]; lia.
Qed.

(** The mask depends on the dio only through its base. *)
Lemma dedup_mask_pbase d d' off bytes :
  d_pbase d = d_pbase d' -> hammer2_dedup_mask d off bytes = hammer2_dedup_mask d' off bytes.
Proof. unfold hammer2_dedup_mask. intros ->. reflexivity. Qed.

(** * The calls *)

Section dedup.
Context {W : Win32} {WL : Win32Laws}.

(** After a call the dio is gone or has the bits [m]. *)
Definition bits_or_gone (s : ios) (pb m : Z) : Prop :=
  forall d, get_dio s pb = Some d -> d_alloc d = m.

(** What every dedup call leaves alone. *)
Record quiet (s s' : ios) : Prop := {
  q_ok : io_ok s';
  q_lock : s_lock s' = s_lock s;
  q_volumes : s_volumes s' = s_volumes s;
  q_content pb : valid_base pb -> content s' pb = content s pb
}.

Lemma quiet_trans s s1 s2 : quiet s s1 -> quiet s1 s2 -> quiet s s2.
Proof.
  intros [A B C D] [A' B' C' D']. constructor; [exact A'|congruence|congruence|].
  intros pb Hpb. rewrite D', D by exact Hpb. reflexivity.
Qed.

Lemma req_quiet s s' lbase pb r : quiet s s' -> req_ok s lbase pb r -> req_ok s' lbase pb r.
Proof. intros [_ _ V _] [A B C D E]. constructor; try assumption. rewrite V. exact E. Qed.

(** Releasing the dio [d] that [hammer2_io_alloc] referenced. *)
Lemma put_plain s s2 pb d n g di f :
  io_ok s -> upd 0 pb d s s2 -> dio_st s pb d n g di f -> 1 <= n ->
  (if g then d_data d = Some (content s pb) else content s pb = region s pb) -> (n = 1 -> g = false) ->
  exists s', hammer2_io_putblk s2 pb = Done s'
    /\ quiet s s' /\ bits_or_gone s' pb (d_alloc d) /\ room s' pb.
Proof.
  intros Hok Hu2 Hst Hn Hdata Hfirst.
  pose proof (io_ok_upd _ _ _ _ _ _ _ _ _ Hok Hu2 Hst) as Hok2.
  assert (Hst2 : dio_st s2 pb d n g di f).
  { apply (dio_st_frame s); [apply Hu2|apply region_frame; apply Hu2|exact Hst]. }
  assert (Hc2 : forall q, content s2 q = content s q).
  { intros q. destruct (decide (q = pb)) as [->|Hne]; [|exact (content_upd_ne _ _ _ _ _ _ Hu2 Hne)].
    unfold content at 1. rewrite (upd_at _ _ _ _ _ Hu2).
    destruct g; [rewrite Hdata; reflexivity|]. destruct (st_data _ _ _ _ _ _ _ Hst) as [-> _].
    rewrite Hdata. apply region_frame; apply Hu2. }
  pose proof (st_count _ _ _ _ _ _ _ Hst) as Hcn.
  destruct (decide (n = 1)) as [->|Hn1].
  - destruct (putblk_last s2 pb d g di f Hok2 (upd_at _ _ _ _ _ Hu2) Hst2) as (s' & E & K1 & K2 & K3 & K4 & K5).
    exists s'. split; [exact E|]. split; [constructor|split].
    + exact K1.
    + rewrite K2, (upd_lock _ _ _ _ _ Hu2). lia.
    + rewrite K3. apply Hu2.
    + intros q Hq. rewrite K5, <- Hc2 by exact Hq. case_decide as Eq; [subst q|reflexivity].
      rewrite (Hfirst eq_refl) in Hst2 |- *. unfold final, content. rewrite (upd_at _ _ _ _ _ Hu2).
      destruct (st_data _ _ _ _ _ _ _ Hst2) as [-> _]. reflexivity.
    + intros d' Hd'. rewrite Hd' in K4. destruct K4 as [[= ->]|[_ [K4|[a [= ->]]]]]; [reflexivity|discriminate|reflexivity].
    + intros d' Hd'. rewrite Hd' in K4.
      assert (Hz : dio_count d' = 0).
      { destruct K4 as [[= ->]|[_ [K4|[a [= ->]]]]]; [|discriminate|];
          change (enc 0 false false f .& HAMMER2_DIO_MASK = 0); apply enc_count; lia. }
      rewrite Hz. lia.
  - destruct (putblk_shared s2 pb d n g di f Hok2 (upd_at _ _ _ _ _ Hu2) Hst2 ltac:(lia)) as (s' & E & K1 & K2 & K3).
    exists s'. split; [exact E|]. split; [constructor|split].
    + exact K1.
    + rewrite (upd_lock _ _ _ _ _ K2), (upd_lock _ _ _ _ _ Hu2). lia.
    + rewrite (upd_volumes _ _ _ _ _ K2). apply Hu2.
    + intros q _. rewrite K3. apply Hc2.
    + intros d' Hd'. rewrite (upd_at _ _ _ _ _ K2) in Hd'. injection Hd' as <-. reflexivity.
    + intros d' Hd'. rewrite (upd_at _ _ _ _ _ K2) in Hd'. injection Hd' as <-.
      unfold dio_count. cbn [set_refs d_refs]. rewrite enc_count by lia. lia.
Qed.

(** Releasing it with new dedup bits. *)
Lemma put_dedup s s1 pb d n g di f v m :
  io_ok s -> upd 0 pb d s s1 -> dio_st s pb d n g di f -> 1 <= n ->
  (if g then d_data d = Some (content s pb) else content s pb = region s pb) -> (n = 1 -> g = false) ->
  exists s', hammer2_io_putblk (mod_dio pb (fun d => set_dedup (v d) (m d) d) s1) pb = Done s'
    /\ quiet s s' /\ bits_or_gone s' pb (m d) /\ room s' pb.
Proof.
  intros Hok Hu Hst Hn Hdata Hfirst. set (d1 := set_dedup (v d) (m d) d). set (s2 := mod_dio pb _ s1).
  apply (put_plain s s2 pb d1 n g di f Hok).
  - apply (upd_trans 0 0 pb d d1 s s1); [exact Hu|].
    apply (upd_mod pb d (fun d => set_dedup (v d) (m d) d)); [apply Hu|auto].
  - destruct Hst as [P B R C V I D]. constructor; assumption.
  - exact Hn.
  - exact Hdata.
  - exact Hfirst.
Qed.

(** [hammer2_io_alloc] between taking and dropping the hash lock. *)
Lemma locked_alloc s lbase btype create pb r :
  io_ok s -> req_ok s lbase pb r -> room s pb -> create = true \/ get_dio s pb <> None ->
  exists s1 d n g di f, hammer2_io_alloc (add_lock 1 s) lbase btype create = Done (Some pb, s1)
    /\ hammer2_assert_io_refs s1 pb = Done d
    /\ upd 0 pb d s (add_lock (- 1) s1) /\ dio_st s pb d n g di f /\ 1 <= n
    /\ (if g then d_data d = Some (content s pb) else content s pb = region s pb)
    /\ (n = 1 -> g = false) /\ forall d0, get_dio s pb = Some d0 -> d_alloc d = d_alloc d0.
Proof.
  intros Hok Hr Hroom Hcreate.
  destruct (alloc_spec (add_lock 1 s) lbase btype create pb r) as (s1 & d & n & g & di & f & E & Hupd & Hst & Hn & Hc & H1 & Ha).
  { apply io_ok_lock. exact Hok. } { apply req_lock. exact Hr. } { exact Hroom. } { exact Hcreate. }
  exists s1, d, n, g, di, f. split; [exact E|].
  split; [exact (assert_refs_ok _ _ _ _ _ _ _ _ _ Hupd Hst Hn)|]. split.
  - apply (upd_0 (1 + (0 + - 1))); [lia|]. apply upd_from_lock, upd_lock_add. exact Hupd.
  - split; [destruct Hst as [P B R C V I D]; constructor; assumption|auto].
Qed.

Lemma quiet_lock s : io_ok s -> quiet s (add_lock (- 1) (add_lock 1 s)).
Proof.
  intros Hok. constructor; try reflexivity; [apply io_ok_lock, io_ok_lock; exact Hok|cbn; lia].
Qed.

(** The three calls. *)
Lemma dedup_set_spec s bref pb r :
  io_ok s -> req_ok s (br_data_off bref) pb r -> room s pb ->
  exists s', hammer2_io_dedup_set s bref = Done s' /\ quiet s s' /\ room s' pb
    /\ forall d, get_dio s' pb = Some d ->
         exists old, d_alloc d = old .| hammer2_dedup_mask d (br_data_off bref) (2 ^ r).
Proof.
  intros Hok Hr Hroom.
  destruct (locked_alloc s (br_data_off bref) (br_type bref) true pb r Hok Hr Hroom ltac:(auto))
    as (s1 & d & n & g & di & f & E & Ea & Hu & Hst & Hn & Hdata & Hfirst & Halloc).
  destruct (put_dedup s (add_lock (- 1) s1) pb d n g di f
    (fun d0 => d_valid d0 .&~ hammer2_dedup_mask d (br_data_off bref) (2 ^ r))
    (fun d0 => d_alloc d0 .| hammer2_dedup_mask d (br_data_off bref) (2 ^ r)) Hok Hu Hst Hn Hdata Hfirst)
    as (s' & E' & Hq & K4 & K5).
  exists s'. split; [|split; [exact Hq|split; [exact K5|]]].
  - unfold hammer2_io_dedup_set. rewrite E. cbn [obind]. rewrite Ea. cbn [obind].
    rewrite (proj1 (req_lsize _ _ _ _ Hr)). exact E'.
  - intros d' Hd'. exists (d_alloc d). rewrite (K4 d' Hd'). f_equal. apply dedup_mask_pbase.
    rewrite (st_pbase _ _ _ _ _ _ _ Hst). symmetry. exact (find_dio_pbase _ _ _ Hd').
Qed.

Lemma dedup_delete_spec s lbase pb r :
  io_ok s -> req_ok s lbase pb r -> room s pb -> pb + 2 ^ 16 < 2 ^ 64 ->
  exists s', hammer2_io_dedup_delete s HAMMER2_BREF_TYPE_DATA lbase (2 ^ r) = Done s' /\ quiet s s'
    /\ room s' pb
    /\ forall d, get_dio s' pb = Some d -> d_alloc d .& hammer2_dedup_mask d lbase (2 ^ r) = 0.
Proof.
  intros Hok Hr Hroom Htop. pose proof (req_off s lbase pb r Hr) as Hoff. pose proof (req_pow s lbase pb r Hr) as Hpow.
  assert (Hbase : pb <= lbase .&~ HAMMER2_OFF_MASK_RADIX <= lbase).
  { split; [apply (rq_in _ _ _ _ Hr)|]. change HAMMER2_OFF_MASK_RADIX with (Z.ones 6). apply ldiff_ones_le. lia. }
  pose proof (rq_base _ _ _ _ Hr) as [Hb Hd]. pose proof (base_room pb Hb Hd) as Hbr.
  unfold hammer2_io_dedup_delete. destruct (Z.eqb_spec (lbase .&~ HAMMER2_OFF_MASK_RADIX) 0) as [Hz|_]; [lia|].
  cbn [Z.eqb Pos.eqb negb]. destruct (get_dio s pb) as [d0|] eqn:E0.
  - destruct (locked_alloc s lbase HAMMER2_BREF_TYPE_DATA false pb r Hok Hr Hroom ltac:(right; congruence))
      as (s1 & d & n & g & di & f & E & Ea & Hu & Hst & Hn & Hdata & Hfirst & Halloc).
    destruct (put_dedup s (add_lock (- 1) s1) pb d n g di f
      (fun d0 => d_valid d0 .&~ hammer2_dedup_mask d lbase (2 ^ r))
      (fun d0 => d_alloc d0 .&~ hammer2_dedup_mask d lbase (2 ^ r)) Hok Hu Hst Hn Hdata Hfirst)
      as (s' & E' & Hq & K4 & K5).
    exists s'. split; [|split; [exact Hq|split; [exact K5|]]].
    + rewrite E. cbn [obind]. rewrite Ea. cbn [obind]. rewrite (st_pbase _ _ _ _ _ _ _ Hst).
      unfold doff in Hoff. rewrite (proj2 (Z.ltb_ge lbase pb)) by lia. cbn [orb].
      rewrite (proj2 (Z.ltb_ge _ _)); [exact E'|].
      rewrite !u64_small by lia. lia.
    + intros d' Hd'. rewrite (K4 d' Hd').
      rewrite (dedup_mask_pbase d' d) by (rewrite (st_pbase _ _ _ _ _ _ _ Hst); exact (find_dio_pbase _ _ _ Hd')).
      zbits k. destruct (Z.testbit (d_alloc d) k), (Z.testbit (hammer2_dedup_mask d lbase (2 ^ r)) k); reflexivity.
  - rewrite (alloc_missing (add_lock 1 s) lbase _ pb r (req_lock _ 1 _ _ _ Hr) E0). cbn [obind].
    exists (add_lock (- 1) (add_lock 1 s)). split; [reflexivity|]. split; [apply quiet_lock; exact Hok|].
    split; [exact Hroom|]. intros d Hd'. change (get_dio s pb = Some d) in Hd'. congruence.
Qed.

(** The assertion holds exactly when no bit of the range is set. *)
Lemma dedup_assert_holds s lbase pb r :
  io_ok s -> req_ok s lbase pb r -> room s pb ->
  (forall d, get_dio s pb = Some d -> d_alloc d .& hammer2_dedup_mask d lbase (2 ^ r) = 0) ->
  exists s', hammer2_io_dedup_assert s lbase (2 ^ r) = Done s' /\ quiet s s'.
Proof.
  intros Hok Hr Hroom Hclear. unfold hammer2_io_dedup_assert. destruct (get_dio s pb) as [d0|] eqn:E0.
  - destruct (locked_alloc s lbase HAMMER2_BREF_TYPE_DATA false pb r Hok Hr Hroom ltac:(right; congruence))
      as (s1 & d & n & g & di & f & E & Ea & Hu & Hst & Hn & Hdata & Hfirst & Halloc).
    destruct (put_plain s (add_lock (- 1) s1) pb d n g di f Hok Hu Hst Hn Hdata Hfirst) as (s' & E' & Hq & _).
    exists s'. split; [|exact Hq]. rewrite E. cbn [obind]. rewrite Ea. cbn [obind].
    rewrite (Halloc d0 E0), (dedup_mask_pbase d d0), (Hclear d0 eq_refl); [exact E'|].
    rewrite (st_pbase _ _ _ _ _ _ _ Hst). symmetry. exact (find_dio_pbase _ _ _ E0).
  - rewrite (alloc_missing (add_lock 1 s) lbase _ pb r (req_lock _ 1 _ _ _ Hr) E0). cbn [obind].
    eexists. split; [reflexivity|]. apply quiet_lock. exact Hok.
Qed.

Lemma dedup_assert_fails s lbase pb r d0 :
  io_ok s -> req_ok s lbase pb r -> room s pb ->
  get_dio s pb = Some d0 -> d_alloc d0 .& hammer2_dedup_mask d0 lbase (2 ^ r) <> 0 ->
  hammer2_io_dedup_assert s lbase (2 ^ r) = Panic.
Proof.
  intros Hok Hr Hroom E0 Hbit. unfold hammer2_io_dedup_assert.
  destruct (locked_alloc s lbase HAMMER2_BREF_TYPE_DATA false pb r Hok Hr Hroom ltac:(right; congruence))
    as (s1 & d & n & g & di & f & E & Ea & Hu & Hst & Hn & Hdata & Hfirst & Halloc).
  rewrite E. cbn [obind]. rewrite Ea. cbn [obind].
  rewrite (Halloc d0 E0), (dedup_mask_pbase d d0).
  - destruct (Z.eqb_spec (d_alloc d0 .& hammer2_dedup_mask d0 lbase (2 ^ r)) 0); [contradiction|reflexivity].
  - rewrite (st_pbase _ _ _ _ _ _ _ Hst). symmetry. exact (find_dio_pbase _ _ _ E0).
Qed.
End dedup.

(** * Properties *)

(** The dedup interlock: marking a range for dedup makes the assertion on it
    stop the file system while the buffer is cached, and deleting the range
    makes the assertion hold again; all calls complete, and they change neither
    the contents of a buffer nor the hash lock. *)
Theorem dedup_interlock {W : Win32} {WL : Win32Laws} s bref pb r :
  io_ok s -> req_ok s (br_data_off bref) pb r -> room s pb -> pb + 2 ^ 16 < 2 ^ 64 ->
  exists s1 s2 s3,
    hammer2_io_dedup_set s bref = Done s1
    /\ (get_dio s1 pb <> None -> hammer2_io_dedup_assert s1 (br_data_off bref) (2 ^ r) = Panic)
    /\ hammer2_io_dedup_delete s1 HAMMER2_BREF_TYPE_DATA (br_data_off bref) (2 ^ r) = Done s2
    /\ hammer2_io_dedup_assert s2 (br_data_off bref) (2 ^ r) = Done s3
    /\ quiet s s1 /\ quiet s s2 /\ quiet s s3.
Proof.
  intros Hok Hr Hroom Htop.
  destruct (dedup_set_spec s bref pb r Hok Hr Hroom) as (s1 & E1 & Hq1 & Hroom1 & Hbits).
  pose proof (req_quiet _ _ _ _ _ Hq1 Hr) as Hr1.
  destruct (dedup_delete_spec s1 (br_data_off bref) pb r (q_ok _ _ Hq1) Hr1 Hroom1 Htop) as (s2 & E2 & Hq2 & Hroom2 & Hclear).
  destruct (dedup_assert_holds s2 (br_data_off bref) pb r (q_ok _ _ Hq2) (req_quiet _ _ _ _ _ Hq2 Hr1) Hroom2 Hclear)
    as (s3 & E3 & Hq3).
  exists s1, s2, s3. split; [exact E1|]. split; [|split; [exact E2|split; [exact E3|]]].
  - destruct (get_dio s1 pb) as [d|] eqn:Ed; [intros _|congruence].
    apply (dedup_assert_fails s1 _ pb r d (q_ok _ _ Hq1) Hr1 Hroom1 Ed). destruct (Hbits d eq_refl) as [old ->].
    intros Hz. apply (dedup_mask_nonzero s1 (br_data_off bref) pb r d Hr1 (find_dio_pbase _ _ _ Ed)).
    rewrite <- Hz. zbits k. destruct (Z.testbit (hammer2_dedup_mask _ _ _) k), (Z.testbit old k); reflexivity.
  - pose proof (quiet_trans _ _ _ Hq1 Hq2) as Hq12. split; [exact Hq1|]. split; [exact Hq12|].
    exact (quiet_trans _ _ _ Hq12 Hq3).
Qed.

Lemma dedup_interlock_witness :
  let bref := set_data_off (131072 + 16384 + 14) bref_zero in
  exists s1 s2 s3,
    @hammer2_io_dedup_set demo_win32 demo_cache bref = Done s1
    /\ (get_dio s1 131072 <> None ->
        @hammer2_io_dedup_assert demo_win32 s1 (br_data_off bref) (2 ^ 14) = Panic)
    /\ @hammer2_io_dedup_delete demo_win32 s1 HAMMER2_BREF_TYPE_DATA (br_data_off bref) (2 ^ 14) = Done s2
    /\ @hammer2_io_dedup_assert demo_win32 s2 (br_data_off bref) (2 ^ 14) = Done s3
    /\ quiet demo_cache s1 /\ quiet demo_cache s2 /\ quiet demo_cache s3.
Proof.
  apply (@dedup_interlock demo_win32 demo_win32_laws demo_cache (set_data_off (131072 + 16384 + 14) bref_zero) 131072 14).
  - exact demo_cache_ok.
  - exact (req_okb_sound demo_cache (131072 + 16384 + 14) eq_refl).
  - apply roomb_sound. reflexivity.
  - reflexivity.
Defined.
