(* ===== verification/Trans.v ===== *)
(** Transactions (hammer2_flush.c): the flags word that counts the running
    transactions of a mount and keeps flush transactions apart, as a state
    machine of concurrent threads.

    [pmp->trans_lock] makes one iteration of each loop atomic: a compare-and-set
    succeeds on the value just read, and [hammer2_lkc_sleep] releases the lock
    and sleeps in one step.  Only [hammer2_trans_setflags] runs without the
    lock, and it is one atomic instruction. *)

From Stdlib Require Import ZArith Lia Bool.
From stdpp Require Import base numbers list option.
From S2P Require Import Prelude.

Abbreviation HAMMER2_TRANS_ISFLUSH := 2147483648 (only parsing).   (* 0x80000000 *)
Abbreviation HAMMER2_TRANS_BUFCACHE := 1073741824 (only parsing).  (* 0x40000000 *)
Abbreviation HAMMER2_TRANS_SIDEQ := 536870912 (only parsing).      (* 0x20000000 *)
Abbreviation HAMMER2_TRANS_WAITING := 134217728 (only parsing).    (* 0x08000000 *)
Abbreviation HAMMER2_TRANS_RESCAN := 67108864 (only parsing).      (* 0x04000000 *)
Abbreviation HAMMER2_TRANS_MASK := 16777215 (only parsing).        (* 0x00FFFFFF *)

(** * The operations on the flags word *)

(** One iteration of [hammer2_trans_init]: the new word, and [dowait]. *)
Definition hammer2_trans_init (oflags flags : Z) : Z * bool :=
  if tst flags HAMMER2_TRANS_ISFLUSH then
    if tst oflags HAMMER2_TRANS_ISFLUSH then (oflags .| HAMMER2_TRANS_WAITING, true)
    else (u32 ((oflags .| flags) + 1), false)
  else if tst flags HAMMER2_TRANS_BUFCACHE then (u32 ((oflags .| flags) + 1), false)
  else (u32 ((oflags .| flags) + 1), false).

Definition hammer2_trans_setflags (oflags flags : Z) : Z := oflags .| flags.

(** The new word, and whether the waiters are woken. *)
Definition hammer2_trans_clearflags (oflags flags : Z) : Z * bool :=
  let nflags := oflags .&~ flags in
  (nflags, tst (oflags .^ nflags) HAMMER2_TRANS_WAITING).

Definition hammer2_trans_done (oflags flags : Z) : outcome (Z * bool) :=
  assert! tst oflags HAMMER2_TRANS_MASK;
  let nflags := u32 (oflags - 1) .&~ flags in
  let nflags := if tst flags HAMMER2_TRANS_ISFLUSH then nflags .&~ HAMMER2_TRANS_WAITING else nflags in
  let nflags :=
    if oflags .& (HAMMER2_TRANS_ISFLUSH .| HAMMER2_TRANS_MASK) =? HAMMER2_TRANS_ISFLUSH .| 2
    then nflags .&~ HAMMER2_TRANS_WAITING else nflags in
  Done (nflags, tst (oflags .^ nflags) HAMMER2_TRANS_WAITING).

(** The id issued, and the next one. *)
Definition hammer2_trans_newinum (inode_tid : Z) : Z * Z := (inode_tid, u64 (inode_tid + 1)).

(** * The machine *)

(** A transaction: its thread and the flags it was started with. *)
Definition trans : Type := nat * Z.

Record tsys := Tsys {
  t_flags : Z;              (* pmp->trans.flags *)
  t_running : list trans;   (* between hammer2_trans_init and hammer2_trans_done *)
  t_asleep : list trans;    (* in hammer2_lkc_sleep *)
  t_trying : list trans     (* in hammer2_trans_init, about to read the flags *)
}.

(** What the callers pass: the start flags, what they may clear at the end. *)
Definition start_flags : list Z := [0; HAMMER2_TRANS_ISFLUSH; HAMMER2_TRANS_BUFCACHE].
Definition end_flags (flags : Z) : list Z :=
  if tst flags HAMMER2_TRANS_ISFLUSH
  then [HAMMER2_TRANS_ISFLUSH; HAMMER2_TRANS_ISFLUSH .| HAMMER2_TRANS_SIDEQ]
  else [0; HAMMER2_TRANS_SIDEQ; HAMMER2_TRANS_BUFCACHE; HAMMER2_TRANS_BUFCACHE .| HAMMER2_TRANS_SIDEQ].

(** [wake] moves every sleeper back into its loop. *)
Definition woken (wake : bool) (s : tsys) : list trans * list trans :=
  if wake then ([], t_asleep s ++ t_trying s) else (t_asleep s, t_trying s).

Inductive tevent :=
| Tcall (t : nat) (flags : Z)     (* a thread enters hammer2_trans_init *)
| Ttry (x : trans)                (* one iteration of its loop *)
| Tdone (x : trans) (flags : Z)   (* hammer2_trans_done *)
| Tset (flags : Z)                (* hammer2_trans_setflags *)
| Tclear (flags : Z).             (* hammer2_trans_clearflags *)

(** Fewer than 2^24 - 1 transactions run at a time. *)
Definition max_running : nat := Z.to_nat 16777214.

Inductive tstep : tsys -> tevent -> tsys -> Prop :=
| step_call s t flags :
    flags ∈ start_flags -> t ∉ map fst (t_running s ++ t_asleep s ++ t_trying s) ->
    tstep s (Tcall t flags) (Tsys (t_flags s) (t_running s) (t_asleep s) ((t, flags) :: t_trying s))
| step_try s x rest nflags :
    t_trying s ≡ₚ x :: rest -> (length (t_running s) < max_running)%nat ->
    hammer2_trans_init (t_flags s) x.2 = (nflags, false) ->
    tstep s (Ttry x) (Tsys nflags (x :: t_running s) (t_asleep s) rest)
| step_sleep s x rest nflags :
    t_trying s ≡ₚ x :: rest -> hammer2_trans_init (t_flags s) x.2 = (nflags, true) ->
    tstep s (Ttry x) (Tsys nflags (t_running s) (x :: t_asleep s) rest)
| step_done s x rest flags nflags wake :
    t_running s ≡ₚ x :: rest -> flags ∈ end_flags x.2 ->
    hammer2_trans_done (t_flags s) flags = Done (nflags, wake) ->
    tstep s (Tdone x flags) (Tsys nflags rest (woken wake s).1 (woken wake s).2)
| step_set s flags :
    flags ∈ [0; HAMMER2_TRANS_RESCAN] ->
    tstep s (Tset flags)
      (Tsys (hammer2_trans_setflags (t_flags s) flags) (t_running s) (t_asleep s) (t_trying s))
| step_clear s flags nflags wake :
    flags ∈ [HAMMER2_TRANS_RESCAN; HAMMER2_TRANS_WAITING] ->
    hammer2_trans_clearflags (t_flags s) flags = (nflags, wake) ->
    tstep s (Tclear flags) (Tsys nflags (t_running s) (woken wake s).1 (woken wake s).2).

Definition tinit : tsys := Tsys 0 [] [] [].

Inductive treach : tsys -> Prop :=
| reach_init : treach tinit
| reach_step s e s' : treach s -> tstep s e s' -> treach s'.

(** * Lemmas on the flags word *)

Definition isflush (x : trans) : bool := tst x.2 HAMMER2_TRANS_ISFLUSH.

(** The word as a count and the two bits the protocol uses. *)
Record word (w n : Z) (fl wt : bool) : Prop := {
  w_range : 0 <= w < 2 ^ 32;
  w_count : w mod 2 ^ 24 = n;
  w_flush : Z.testbit w 31 = fl;
  w_wait : Z.testbit w 27 = wt
}.


Lemma count_tst w n : w mod 2 ^ 24 = n -> tst w HAMMER2_TRANS_MASK = negb (n =? 0).
Proof.
  intros Hw. unfold tst. change HAMMER2_TRANS_MASK with (Z.ones 24).
  rewrite land_ones_mod, Hw by lia. reflexivity.
Qed.

Lemma lor_low w c : c mod 2 ^ 24 = 0 -> (w .| c) mod 2 ^ 24 = w mod 2 ^ 24.
Proof.
  intros Hc. rewrite <- !land_ones_mod, Z.land_lor_distr_l by lia.
  rewrite (land_ones_mod c) by lia. rewrite Hc. apply Z.lor_0_r.
Qed.

Lemma ldiff_low w c : c mod 2 ^ 24 = 0 -> (w .&~ c) mod 2 ^ 24 = w mod 2 ^ 24.
Proof.
  intros Hc. rewrite <- !land_ones_mod by lia. zbits k.
  destruct (Z.testbit (Z.ones 24) k) eqn:E; [|rewrite !andb_false_r; reflexivity].
  assert (Hk : Z.testbit (c .& Z.ones 24) k = false) by (rewrite land_ones_mod, Hc by lia; apply Z.bits_0).
  rewrite Z.land_spec, E, andb_true_r in Hk. rewrite Hk, !andb_true_r. reflexivity.
Qed.

Lemma word_flush w n fl wt : word w n fl wt -> tst w HAMMER2_TRANS_ISFLUSH = fl.
Proof. intros H. change HAMMER2_TRANS_ISFLUSH with (2 ^ 31). rewrite tst_pow2 by lia. apply H. Qed.

Lemma word_add w n fl wt : word w n fl wt -> n + 1 < 2 ^ 24 -> word (u32 (w + 1)) (n + 1) fl wt.
Proof.
  intros [Hr Hc Hf Hw] Hn. rewrite u32_small by (Z.div_mod_to_equations; lia).
  constructor; [Z.div_mod_to_equations; lia|Z.div_mod_to_equations; lia| |];
    rewrite <- ?Hf, <- ?Hw, !Z.testbit_odd, !Z.shiftr_div_pow2 by lia; f_equal; Z.div_mod_to_equations; lia.
Qed.

Lemma word_sub w n fl wt : word w n fl wt -> 1 <= n -> word (u32 (w - 1)) (n - 1) fl wt.
Proof.
  intros [Hr Hc Hf Hw] Hn. rewrite u32_small by (Z.div_mod_to_equations; lia).
  constructor; [Z.div_mod_to_equations; lia|Z.div_mod_to_equations; lia| |];
    rewrite <- ?Hf, <- ?Hw, !Z.testbit_odd, !Z.shiftr_div_pow2 by lia; f_equal; Z.div_mod_to_equations; lia.
Qed.

Lemma word_lor w n fl wt c :
  word w n fl wt -> 0 <= c < 2 ^ 32 -> c mod 2 ^ 24 = 0 ->
  word (w .| c) n (fl || Z.testbit c 31) (wt || Z.testbit c 27).
Proof.
  intros [Hr Hc Hf Hw] Hcr Hcm. constructor.
  - apply lor_range; lia.
  - rewrite lor_low; assumption.
  - rewrite Z.lor_spec, Hf. reflexivity.
  - rewrite Z.lor_spec, Hw. reflexivity.
Qed.

Lemma word_ldiff w n fl wt c :
  word w n fl wt -> 0 <= c -> c mod 2 ^ 24 = 0 ->
  word (w .&~ c) n (fl && negb (Z.testbit c 31)) (wt && negb (Z.testbit c 27)).
Proof.
  intros [Hr Hc Hf Hw] Hcr Hcm. constructor.
  - apply ldiff_range; lia.
  - rewrite ldiff_low; assumption.
  - rewrite Z.ldiff_spec, Hf. reflexivity.
  - rewrite Z.ldiff_spec, Hw. reflexivity.
Qed.

(** The wake-up test compares the WAITING bits. *)
Lemma wake_spec w n fl wt w' n' fl' wt' :
  word w n fl wt -> word w' n' fl' wt' -> tst (w .^ w') HAMMER2_TRANS_WAITING = xorb wt wt'.
Proof.
  intros H H'. change HAMMER2_TRANS_WAITING with (2 ^ 27). rewrite tst_pow2, Z.lxor_spec by lia.
  rewrite (w_wait _ _ _ _ H), (w_wait _ _ _ _ H'). reflexivity.
Qed.

(** The test for the transition from two transactions to one under a flush. *)
Lemma two_to_one w n fl wt :
  word w n fl wt ->
  (w .& (HAMMER2_TRANS_ISFLUSH .| HAMMER2_TRANS_MASK) =? HAMMER2_TRANS_ISFLUSH .| 2) = fl && (n =? 2).
Proof.
  intros H. change (HAMMER2_TRANS_ISFLUSH .| HAMMER2_TRANS_MASK) with (2 ^ 31 .| Z.ones 24).
  rewrite Z.land_lor_distr_r, land_ones_mod, (w_count _ _ _ _ H) by lia.
  assert (E : w .& 2 ^ 31 = if fl then 2 ^ 31 else 0).
  { rewrite <- (w_flush _ _ _ _ H). zbits k. rewrite Z.pow2_bits_eqb by lia.
    destruct (Z.eqb_spec 31 k) as [<-|Hne].
    - destruct (Z.testbit w 31); [reflexivity|]. rewrite Z.bits_0. reflexivity.
    - rewrite andb_false_r. destruct (Z.testbit w 31); [|rewrite Z.bits_0; reflexivity].
      rewrite Z.pow2_bits_false by lia. reflexivity. }
  pose proof (w_count _ _ _ _ H) as Hn. pose proof (mod_pow2_range w 24 ltac:(lia)) as Hrng. rewrite Hn in Hrng.
  rewrite E. destruct fl; cbn [andb].
  - rewrite (lor_disjoint (2 ^ 31) n 24) by (try lia; exists (2 ^ 7); reflexivity).
    change (HAMMER2_TRANS_ISFLUSH .| 2) with (2 ^ 31 + 2).
    destruct (Z.eqb_spec n 2); [apply Z.eqb_eq|apply Z.eqb_neq]; lia.
  - rewrite Z.lor_0_l. apply Z.eqb_neq. change (HAMMER2_TRANS_ISFLUSH .| 2) with (2 ^ 31 + 2). lia.
Qed.

(** * The operations on words *)

Lemma init_runs w n fl wt f :
  word w n fl wt -> n + 1 < 2 ^ 24 -> f ∈ start_flags ->
  (tst f HAMMER2_TRANS_ISFLUSH = true -> fl = false) ->
  exists w', hammer2_trans_init w f = (w', false)
             /\ word w' (n + 1) (fl || tst f HAMMER2_TRANS_ISFLUSH) wt.
Proof.
  intros H Hn Hf Hfl. unfold hammer2_trans_init. rewrite (word_flush _ _ _ _ H).
  unfold start_flags in Hf. rewrite !elem_of_cons, elem_of_nil in Hf.
  destruct Hf as [-> |[-> |[-> |[]]]]; cbn [tst]; eexists.
  - split; [reflexivity|]. pose proof (word_add _ _ _ _ (word_lor _ _ _ _ 0 H ltac:(lia) eq_refl) Hn) as K.
    rewrite !orb_false_r in K. rewrite orb_false_r. exact K.
  - change (tst HAMMER2_TRANS_ISFLUSH HAMMER2_TRANS_ISFLUSH) with true in *. rewrite (Hfl eq_refl) in *.
    split; [reflexivity|].
    pose proof (word_add _ _ _ _ (word_lor _ _ _ _ HAMMER2_TRANS_ISFLUSH H ltac:(lia) eq_refl) Hn) as K.
    rewrite orb_false_r in K. exact K.
  - split; [reflexivity|].
    pose proof (word_add _ _ _ _ (word_lor _ _ _ _ HAMMER2_TRANS_BUFCACHE H ltac:(lia) eq_refl) Hn) as K.
    rewrite !orb_false_r in K. rewrite orb_false_r. exact K.
Qed.

Lemma init_waits w n fl wt f :
  word w n fl wt -> tst f HAMMER2_TRANS_ISFLUSH = true -> fl = true ->
  exists w', hammer2_trans_init w f = (w', true) /\ word w' n true true.
Proof.
  intros H Hf ->. unfold hammer2_trans_init. rewrite (word_flush _ _ _ _ H), Hf.
  eexists. split; [reflexivity|].
  pose proof (word_lor _ _ _ _ HAMMER2_TRANS_WAITING H ltac:(lia) eq_refl) as K.
  rewrite orb_true_r in K. exact K.
Qed.

(** Finishing a transaction started with [f]. *)
Lemma done_spec w n fl wt f d :
  word w n fl wt -> 1 <= n -> d ∈ end_flags f ->
  let ends := tst f HAMMER2_TRANS_ISFLUSH in
  let wt' := wt && negb (ends || (fl && (n =? 2))) in
  exists w', hammer2_trans_done w d = Done (w', xorb wt wt')
             /\ word w' (n - 1) (fl && negb ends) wt'.
Proof.
  intros H Hn Hd ends wt'.
  assert (Hflags : 0 <= d < 2 ^ 32 /\ d mod 2 ^ 24 = 0 /\ Z.testbit d 31 = ends /\ Z.testbit d 27 = false
                   /\ tst d HAMMER2_TRANS_ISFLUSH = ends).
  { unfold end_flags in Hd. fold ends in Hd. destruct ends; rewrite !elem_of_cons, elem_of_nil in Hd.
    - destruct Hd as [-> |[-> |[]]]; vm_compute; intuition congruence.
    - destruct Hd as [-> |[-> |[-> |[-> |[]]]]]; vm_compute; intuition congruence. }
  destruct Hflags as (Hr & Hm & H31 & H27 & Ht).
  unfold hammer2_trans_done. rewrite (count_tst _ _ (w_count _ _ _ _ H)).
  replace (n =? 0) with false by (symmetry; apply Z.eqb_neq; lia). cbn [negb kassert obind].
  rewrite Ht, (two_to_one _ _ _ _ H).
  pose proof (word_ldiff _ _ _ _ d (word_sub _ _ _ _ H Hn) ltac:(lia) Hm) as K.
  rewrite H31, H27, andb_true_r in K. set (w1 := u32 (w - 1) .&~ d) in *.
  pose proof (word_ldiff _ _ _ _ HAMMER2_TRANS_WAITING K ltac:(lia) eq_refl) as K'.
  change (Z.testbit HAMMER2_TRANS_WAITING 31) with false in K'.
  change (Z.testbit HAMMER2_TRANS_WAITING 27) with true in K'. rewrite andb_true_r, andb_false_r in K'.
  set (w2 := if ends then w1 .&~ HAMMER2_TRANS_WAITING else w1).
  assert (K2 : word w2 (n - 1) (fl && negb ends) (wt && negb ends)).
  { unfold w2. destruct ends; cbn [negb] in *; rewrite ?andb_false_r, ?andb_true_r in *; assumption. }
  pose proof (word_ldiff _ _ _ _ HAMMER2_TRANS_WAITING K2 ltac:(lia) eq_refl) as K2'.
  change (Z.testbit HAMMER2_TRANS_WAITING 31) with false in K2'.
  change (Z.testbit HAMMER2_TRANS_WAITING 27) with true in K2'. rewrite andb_true_r, andb_false_r in K2'.
  set (w3 := if fl && (n =? 2) then w2 .&~ HAMMER2_TRANS_WAITING else w2).
  assert (K3 : word w3 (n - 1) (fl && negb ends) wt').
  { unfold w3, wt'. destruct (fl && (n =? 2)); rewrite ?orb_true_r, ?orb_false_r, ?andb_false_r; assumption. }
  exists w3. split; [|exact K3]. rewrite <- (wake_spec _ _ _ _ _ _ _ _ H K3). reflexivity.
Qed.

(** * The invariant *)

Definition nflush (l : list trans) : nat := length (filter (fun x => isflush x = true) l).

Lemma nflush_perm l x rest : l ≡ₚ x :: rest -> nflush l = ((if isflush x then 1 else 0) + nflush rest)%nat.
Proof.
  intros H. unfold nflush. rewrite H, filter_cons. destruct (isflush x); reflexivity.
Qed.

Lemma nflush_zero l x : nflush l = 0%nat -> x ∈ l -> isflush x = false.
Proof.
  unfold nflush. intros H Hx. apply nil_length_inv in H. destruct (isflush x) eqn:E; [|reflexivity].
  assert (Hin : x ∈ filter (fun x => isflush x = true) l) by (apply list_elem_of_filter; auto).
  rewrite H in Hin. apply not_elem_of_nil in Hin. destruct Hin.
Qed.

Lemma nflush_pos l : (0 < nflush l)%nat -> exists x, x ∈ l /\ isflush x = true.
Proof.
  unfold nflush. intros H. destruct (filter (fun x => isflush x = true) l) as [|x k] eqn:E; [cbn in H; lia|].
  assert (Hin : x ∈ filter (fun x => isflush x = true) l) by (rewrite E; left).
  apply list_elem_of_filter in Hin. exists x. tauto.
Qed.

Record tinv (s : tsys) (wt : bool) : Prop := {
  i_word : word (t_flags s) (Z.of_nat (length (t_running s))) (0 <? Z.of_nat (nflush (t_running s))) wt;
  i_one : (nflush (t_running s) <= 1)%nat;
  i_room : (length (t_running s) <= max_running)%nat;
  i_sleep : t_asleep s <> [] -> wt = true /\ (0 < nflush (t_running s))%nat;
  i_sleepers : Forall (fun x => isflush x = true) (t_asleep s);
  i_start : Forall (fun x => x.2 ∈ start_flags) (t_running s ++ t_asleep s ++ t_trying s)
}.

Lemma woken_perm wake s : (woken wake s).1 ++ (woken wake s).2 ≡ₚ t_asleep s ++ t_trying s.
Proof. destruct wake; reflexivity. Qed.

Lemma max_running_bound n : (n < max_running)%nat -> Z.of_nat n + 1 < 2 ^ 24.
Proof. unfold max_running. lia. Qed.

(** Taking one transaction out of the trying ones. *)
Lemma start_taken s x rest wt :
  tinv s wt -> t_trying s ≡ₚ x :: rest ->
  x.2 ∈ start_flags /\ Forall (fun x => x.2 ∈ start_flags) (t_running s ++ t_asleep s ++ rest).
Proof.
  intros [_ _ _ _ _ H] Hp. rewrite Hp in H. rewrite !Forall_app in H |- *.
  destruct H as (H1 & H2 & H3). inversion H3; subst. auto.
Qed.

Lemma inv_try s x rest nflags wt :
  tinv s wt -> t_trying s ≡ₚ x :: rest -> (length (t_running s) < max_running)%nat ->
  hammer2_trans_init (t_flags s) x.2 = (nflags, false) ->
  tinv (Tsys nflags (x :: t_running s) (t_asleep s) rest) wt.
Proof.
  intros Hinv Hp Hroom E. destruct (start_taken _ _ _ _ Hinv Hp) as [Hx Hall].
  destruct Hinv as [Hw H1 Hr Hs Hss _].
  assert (Hfree : isflush x = true -> nflush (t_running s) = 0%nat).
  { intros Hfx. destruct (Z.ltb_spec 0 (Z.of_nat (nflush (t_running s)))) as [Hlt|]; [|lia].
    destruct (init_waits _ _ _ _ x.2 Hw Hfx eq_refl) as (w' & E' & _). congruence. }
  assert (Hn : nflush (x :: t_running s) = ((if isflush x then 1 else 0) + nflush (t_running s))%nat)
    by (apply nflush_perm; reflexivity).
  destruct (init_runs _ _ _ _ x.2 Hw (max_running_bound _ Hroom) Hx) as (w' & E' & Hw').
  { intros Hfx. rewrite (Hfree Hfx). reflexivity. }
  rewrite E in E'. injection E' as <-. constructor; cbn [t_flags t_running t_asleep t_trying length].
  - rewrite Nat2Z.inj_succ, <- Z.add_1_r.
    replace (0 <? Z.of_nat (nflush (x :: t_running s)))
      with ((0 <? Z.of_nat (nflush (t_running s))) || isflush x); [exact Hw'|].
    rewrite Hn. destruct (isflush x); cbn [Nat.add]; [|apply orb_false_r].
    rewrite orb_true_r. symmetry. apply Z.ltb_lt. lia.
  - rewrite Hn. destruct (isflush x) eqn:Ef; [rewrite Hfree by reflexivity; lia|lia].
  - lia.
  - intros Ha. destruct (Hs Ha) as [-> Hpos]. split; [reflexivity|]. rewrite Hn. lia.
  - exact Hss.
  - cbn [app]. constructor; assumption.
Qed.

Lemma inv_sleep s x rest nflags wt :
  tinv s wt -> t_trying s ≡ₚ x :: rest -> hammer2_trans_init (t_flags s) x.2 = (nflags, true) ->
  tinv (Tsys nflags (t_running s) (x :: t_asleep s) rest) true.
Proof.
  intros Hinv Hp E. destruct (start_taken _ _ _ _ Hinv Hp) as [Hx Hall].
  destruct Hinv as [Hw H1 Hr Hs Hss _].
  assert (Hf : isflush x = true /\ (0 <? Z.of_nat (nflush (t_running s))) = true).
  { unfold hammer2_trans_init in E. rewrite (word_flush _ _ _ _ Hw) in E. unfold isflush.
    destruct (tst x.2 HAMMER2_TRANS_ISFLUSH); [|destruct (tst x.2 HAMMER2_TRANS_BUFCACHE); discriminate E].
    destruct (0 <? _); [auto|discriminate E]. }
  destruct Hf as [Hfx Hfl]. destruct (init_waits _ _ _ _ x.2 Hw Hfx Hfl) as (w' & E' & Hw').
  rewrite E in E'. injection E' as <-. constructor; cbn [t_flags t_running t_asleep t_trying].
  - rewrite Hfl. exact Hw'.
  - exact H1.
  - exact Hr.
  - intros _. split; [reflexivity|]. apply Z.ltb_lt in Hfl. lia.
  - constructor; assumption.
  - rewrite !Forall_app in *. cbn [app]. destruct Hall as (A & B & C). split; [exact A|].
    split; [constructor; assumption|exact C].
Qed.

(** The effect of [hammer2_trans_done] under the invariant. *)
Lemma inv_done s x rest d wt :
  tinv s wt -> t_running s ≡ₚ x :: rest -> d ∈ end_flags x.2 ->
  exists nflags wake wt', hammer2_trans_done (t_flags s) d = Done (nflags, wake)
    /\ tinv (Tsys nflags rest (woken wake s).1 (woken wake s).2) wt'
    /\ (isflush x = true -> (woken wake s).1 = [] /\ nflush rest = 0%nat).
Proof.
  intros [Hw H1 Hr Hs Hss Hst] Hp Hd.
  pose proof (nflush_perm _ _ _ Hp) as Hn. pose proof (Permutation_length Hp) as Hl. cbn [length] in Hl.
  destruct (done_spec _ _ _ _ x.2 d Hw ltac:(lia) Hd) as (w' & E & Hw'). fold (isflush x) in E, Hw'.
  set (fl := 0 <? Z.of_nat (nflush (t_running s))) in *.
  set (wt' := wt && negb (isflush x || fl && (Z.of_nat (length (t_running s)) =? 2))) in *.
  set (wake := xorb wt wt') in *. exists w', wake, wt'. split; [exact E|].
  assert (Hrest : nflush rest = 0%nat \/ isflush x = false) by (destruct (isflush x); [left; lia|auto]).
  assert (Hquiet : (woken wake s).1 <> [] -> wt' = true /\ isflush x = false /\ (0 < nflush (t_running s))%nat).
  { unfold woken. destruct wake eqn:Ew; cbn [fst]; [congruence|]. intros Ha. destruct (Hs Ha) as [Hwt Hpos].
    unfold wake in Ew. subst wt. destruct wt' eqn:Ewt; [|discriminate Ew]. split; [reflexivity|].
    split; [|exact Hpos]. unfold wt' in Ewt. destruct (isflush x); [discriminate Ewt|reflexivity]. }
  split.
  - constructor; cbn [t_flags t_running t_asleep t_trying].
    + replace (Z.of_nat (length rest)) with (Z.of_nat (length (t_running s)) - 1) by lia.
      replace (0 <? Z.of_nat (nflush rest)) with (fl && negb (isflush x)); [exact Hw'|].
      unfold fl. rewrite Hn. destruct (isflush x) eqn:Ef; cbn [negb Nat.add].
      * rewrite andb_false_r. symmetry. apply Z.ltb_ge. lia.
      * apply andb_true_r.
    + lia.
    + lia.
    + intros Ha. destruct (Hquiet Ha) as (-> & Hx & Hpos). split; [reflexivity|]. rewrite Hx in Hn. lia.
    + unfold woken. destruct wake; [constructor|exact Hss].
    + rewrite woken_perm. rewrite Hp in Hst. inversion Hst; subst. assumption.
  - intros Hx. rewrite Hx in Hn, Hquiet. split; [|lia].
    destruct ((woken wake s).1) as [|y l]; [reflexivity|].
    destruct (Hquiet ltac:(discriminate)) as (_ & H & _). discriminate H.
Qed.

Lemma inv_set s c wt :
  tinv s wt -> c ∈ [0; HAMMER2_TRANS_RESCAN] ->
  tinv (Tsys (hammer2_trans_setflags (t_flags s) c) (t_running s) (t_asleep s) (t_trying s)) wt.
Proof.
  intros [Hw H1 Hr Hs Hss Hst] Hc. constructor; try assumption. cbn [t_flags t_running].
  rewrite !elem_of_cons, elem_of_nil in Hc. unfold hammer2_trans_setflags.
  destruct Hc as [-> |[-> |[]]].
  - pose proof (word_lor _ _ _ _ 0 Hw ltac:(lia) eq_refl) as K. rewrite !orb_false_r in K. exact K.
  - pose proof (word_lor _ _ _ _ HAMMER2_TRANS_RESCAN Hw ltac:(lia) eq_refl) as K.
    rewrite !orb_false_r in K. exact K.
Qed.

Lemma inv_clear s c nflags wake wt :
  tinv s wt -> c ∈ [HAMMER2_TRANS_RESCAN; HAMMER2_TRANS_WAITING] ->
  hammer2_trans_clearflags (t_flags s) c = (nflags, wake) ->
  exists wt', tinv (Tsys nflags (t_running s) (woken wake s).1 (woken wake s).2) wt'.
Proof.
  intros [Hw H1 Hr Hs Hss Hst] Hc [= <- <-].
  assert (K : word (t_flags s .&~ c) (Z.of_nat (length (t_running s)))
                (0 <? Z.of_nat (nflush (t_running s))) (wt && negb (Z.testbit c 27))).
  { rewrite !elem_of_cons, elem_of_nil in Hc. destruct Hc as [-> |[-> |[]]].
    - pose proof (word_ldiff _ _ _ _ HAMMER2_TRANS_RESCAN Hw ltac:(lia) eq_refl) as K.
      rewrite andb_true_r in K. exact K.
    - pose proof (word_ldiff _ _ _ _ HAMMER2_TRANS_WAITING Hw ltac:(lia) eq_refl) as K.
      rewrite andb_true_r in K. exact K. }
  rewrite (wake_spec _ _ _ _ _ _ _ _ Hw K). set (wt' := wt && _) in *. exists wt'.
  constructor; try assumption; cbn [t_flags t_running t_asleep t_trying].
  - unfold woken. destruct (xorb wt wt') eqn:Ew; cbn [fst]; [congruence|]. intros Ha.
    destruct (Hs Ha) as [Hwt Hpos]. split; [|exact Hpos]. rewrite Hwt in Ew. destruct wt'; [reflexivity|discriminate Ew].
  - unfold woken. destruct (xorb wt wt'); [constructor|exact Hss].
  - rewrite woken_perm. exact Hst.
Qed.

Lemma inv_step s e s' wt : tinv s wt -> tstep s e s' -> exists wt', tinv s' wt'.
Proof.
  intros Hinv Hstep. destruct Hstep as [s t f Hf Hni|s x rest nflags Hp Hroom E|s x rest nflags Hp E
    |s x rest d nflags wake Hp Hd E|s c Hc|s c nflags wake Hc E].
  - exists wt. destruct Hinv as [Hw H1 Hr Hs Hss Hst]. constructor; try assumption.
    cbn [t_running t_asleep t_trying]. rewrite !Forall_app in *. destruct Hst as (A & B & C).
    split; [exact A|]. split; [exact B|]. constructor; assumption.
  - exists wt. exact (inv_try _ _ _ _ _ Hinv Hp Hroom E).
  - exists true. exact (inv_sleep _ _ _ _ _ Hinv Hp E).
  - destruct (inv_done _ _ _ _ _ Hinv Hp Hd) as (w & k & wt' & E' & H & _). rewrite E in E'.
    injection E' as <- <-. exists wt'. exact H.
  - exists wt. exact (inv_set _ _ _ Hinv Hc).
  - exact (inv_clear _ _ _ _ _ Hinv Hc E).
Qed.

Lemma inv_init : tinv tinit false.
Proof.
  constructor; cbn; try lia; try constructor; try reflexivity; try congruence; lia.
Qed.

Lemma reach_inv s : treach s -> exists wt, tinv s wt.
Proof.
  induction 1 as [|s e s' _ [wt IH] Hstep]; [exists false; exact inv_init|exact (inv_step _ _ _ _ IH Hstep)].
Qed.

(** * Properties *)

(** C11. Flush transactions exclude each other: in every reachable state at most
    one runs, the ISFLUSH bit says whether one does, the low 24 bits count the
    running transactions, and finishing any of them never fails its assertion;
    a transaction that is not a flush starts at once, even during a flush. *)
Theorem trans_flush_exclusive s :
  treach s ->
  (nflush (t_running s) <= 1)%nat
  /\ (tst (t_flags s) HAMMER2_TRANS_ISFLUSH = true <-> nflush (t_running s) = 1%nat)
  /\ t_flags s .& HAMMER2_TRANS_MASK = Z.of_nat (length (t_running s))
  /\ (forall x d, x ∈ t_running s -> d ∈ end_flags x.2 -> exists s', tstep s (Tdone x d) s')
  /\ (forall x, x ∈ t_trying s -> isflush x = false -> (length (t_running s) < max_running)%nat ->
        exists s', tstep s (Ttry x) s' /\ x ∈ t_running s').
Proof.
  intros Hs. destruct (reach_inv s Hs) as [wt Hinv]. pose proof Hinv as [Hw H1 Hr _ _ _].
  split; [exact H1|]. split; [|split; [|split]].
  - rewrite (word_flush _ _ _ _ Hw), Z.ltb_lt. lia.
  - change HAMMER2_TRANS_MASK with (Z.ones 24). rewrite land_ones_mod by lia. apply Hw.
  - intros x d Hx Hd. apply elem_of_Permutation in Hx as [rest Hp].
    destruct (inv_done _ _ _ _ _ Hinv Hp Hd) as (w & k & wt' & E & _).
    eexists. exact (step_done _ _ _ _ _ _ Hp Hd E).
  - intros x Hx Hf Hroom. apply elem_of_Permutation in Hx as [rest Hp].
    destruct (start_taken _ _ _ _ Hinv Hp) as [Hst _].
    destruct (init_runs _ _ _ _ x.2 Hw (max_running_bound _ Hroom) Hst) as (w' & E & _).
    { unfold isflush in Hf. congruence. }
    eexists. split; [exact (step_try _ _ _ _ Hp Hroom E)|]. left.
Qed.

(** A flush runs, a second one sleeps, a write starts meanwhile. *)
Definition demo_state : tsys :=
  Tsys (HAMMER2_TRANS_ISFLUSH .| HAMMER2_TRANS_WAITING .| 2)
    [(3%nat, 0); (1%nat, HAMMER2_TRANS_ISFLUSH)] [(2%nat, HAMMER2_TRANS_ISFLUSH)] [].

Lemma demo_reach : treach demo_state.
Proof.
  set (F := HAMMER2_TRANS_ISFLUSH).
  assert (Hroom : forall n, (n <= 1)%nat -> (n < max_running)%nat) by (unfold max_running; lia).
  assert (H1 : treach (Tsys 0 [] [] [(1%nat, F)])).
  { refine (reach_step _ (Tcall 1 F) _ reach_init (step_call tinit 1 F _ _)); [right; left|apply not_elem_of_nil]. }
  assert (H2 : treach (Tsys (F + 1) [(1%nat, F)] [] [])).
  { refine (reach_step _ _ _ H1 (step_try (Tsys 0 [] [] [(1%nat, F)]) (1%nat, F) [] (F + 1) _ (Hroom 0%nat _) _));
      [reflexivity|lia|reflexivity]. }
  assert (H3 : treach (Tsys (F + 1) [(1%nat, F)] [] [(2%nat, F)])).
  { refine (reach_step _ (Tcall 2 F) _ H2 (step_call (Tsys (F + 1) [(1%nat, F)] [] []) 2 F _ _)); [right; left|].
    cbn. rewrite list_elem_of_singleton. lia. }
  set (w := F .| HAMMER2_TRANS_WAITING .| 1).
  assert (H4 : treach (Tsys w [(1%nat, F)] [(2%nat, F)] [])).
  { refine (reach_step _ _ _ H3 (step_sleep (Tsys (F + 1) [(1%nat, F)] [] [(2%nat, F)]) (2%nat, F) [] w _ _)); reflexivity. }
  assert (H5 : treach (Tsys w [(1%nat, F)] [(2%nat, F)] [(3%nat, 0)])).
  { refine (reach_step _ (Tcall 3 0) _ H4 (step_call (Tsys w [(1%nat, F)] [(2%nat, F)] []) 3 0 _ _)); [left|].
    cbn. rewrite !elem_of_cons, elem_of_nil. lia. }
  refine (reach_step _ _ _ H5 (step_try (Tsys w [(1%nat, F)] [(2%nat, F)] [(3%nat, 0)]) (3%nat, 0) [] (w + 1)
    _ (Hroom 1%nat _) _)); [reflexivity|lia|reflexivity].
Qed.

Lemma trans_flush_exclusive_witness :
  (nflush (t_running demo_state) <= 1)%nat
  /\ (tst (t_flags demo_state) HAMMER2_TRANS_ISFLUSH = true <-> nflush (t_running demo_state) = 1%nat)
  /\ t_flags demo_state .& HAMMER2_TRANS_MASK = Z.of_nat (length (t_running demo_state))
  /\ (forall x d, x ∈ t_running demo_state -> d ∈ end_flags x.2 -> exists s', tstep demo_state (Tdone x d) s')
  /\ (forall x, x ∈ t_trying demo_state -> isflush x = false ->
        (length (t_running demo_state) < max_running)%nat ->
        exists s', tstep demo_state (Ttry x) s' /\ x ∈ t_running s').
Proof. exact (trans_flush_exclusive demo_state demo_reach). Defined.

(** C12. No wake-up is lost: whenever a transaction sleeps, a flush transaction is
    running; it can finish, and when it does every sleeper is awake again and
    the next one to try starts its flush. *)
Theorem trans_sleeper_wakes s x :
  treach s -> x ∈ t_asleep s ->
  exists y, y ∈ t_running s /\ isflush y = true
    /\ (forall d, d ∈ end_flags y.2 -> exists s', tstep s (Tdone y d) s')
    /\ forall d s', tstep s (Tdone y d) s' ->
         t_asleep s' = [] /\ x ∈ t_trying s'
         /\ exists s'', tstep s' (Ttry x) s'' /\ x ∈ t_running s''.
Proof.
  intros Hs Hx. destruct (reach_inv s Hs) as [wt Hinv]. pose proof Hinv as [_ _ Hr Hsl Hss _].
  destruct (Hsl ltac:(intros E; rewrite E in Hx; apply not_elem_of_nil in Hx; exact Hx)) as [_ Hpos].
  destruct (nflush_pos _ Hpos) as (y & Hy & Hfy). exists y. split; [exact Hy|]. split; [exact Hfy|].
  split; [intros d Hd; apply elem_of_Permutation in Hy as [rest Hp];
          destruct (inv_done _ _ _ _ _ Hinv Hp Hd) as (w & k & wt' & E & _);
          eexists; exact (step_done _ _ _ _ _ _ Hp Hd E)|].
  intros d s' Hstep. inversion Hstep as [| | |s0 y0 rest flags nflags wake Hp Hd E| |]; subst.
  destruct (inv_done _ _ _ _ _ Hinv Hp Hd) as (w & k & wt' & E' & Hinv' & Hempty).
  rewrite E in E'. injection E' as <- <-. destruct (Hempty Hfy) as [Hnil Hnone].
  cbn [t_asleep t_trying]. split; [exact Hnil|].
  assert (Hin : x ∈ (woken wake s).2).
  { assert (H : x ∈ (woken wake s).1 ++ (woken wake s).2) by (rewrite woken_perm, elem_of_app; auto).
    rewrite Hnil in H. exact H. }
  split; [exact Hin|]. apply elem_of_Permutation in Hin as [rest' Hp'].
  destruct (start_taken _ _ _ _ Hinv' Hp') as [Hst _]. pose proof (i_word _ _ Hinv') as Hw'.
  pose proof (Permutation_length Hp) as Hl. cbn [length t_running] in Hl, Hw'.
  destruct (init_runs _ _ _ _ x.2 Hw' (max_running_bound (length rest) ltac:(lia)) Hst) as (w' & E1 & _).
  { intros _. rewrite Hnone. reflexivity. }
  eexists. split; [exact (step_try (Tsys nflags rest _ _) x rest' w' Hp' ltac:(cbn; lia) E1)|]. left.
Qed.

Lemma trans_sleeper_wakes_witness :
  exists y, y ∈ t_running demo_state /\ isflush y = true
    /\ (forall d, d ∈ end_flags y.2 -> exists s', tstep demo_state (Tdone y d) s')
    /\ forall d s', tstep demo_state (Tdone y d) s' ->
         t_asleep s' = [] /\ (2%nat, HAMMER2_TRANS_ISFLUSH) ∈ t_trying s'
         /\ exists s'', tstep s' (Ttry (2%nat, HAMMER2_TRANS_ISFLUSH)) s''
             /\ (2%nat, HAMMER2_TRANS_ISFLUSH) ∈ t_running s''.
Proof.
  apply (trans_sleeper_wakes demo_state (2%nat, HAMMER2_TRANS_ISFLUSH) demo_reach). left.
Defined.
