(* ===== verification/Volumes.v ===== *)
(** The volume headers and the volume table: [hammer2_ondisk.c], the header part
    of [hammer2_flush_core] and [hammer2_xop_inode_flush] (hammer2_flush.c) and
    the geometry that the mount takes from the header (hammer2_vfsops.c).

    A header is its 64KB of bytes; the fields are read from and written to the
    offsets of [struct hammer2_volume_data].  A device is the [bdev] that names
    its file in [Io] and the media size the system reports for it. *)

From Stdlib Require Import ZArith Lia Bool.
From stdpp Require Import base numbers list option gmap.
From S2P Require Import Prelude Disk Crc Subr Check Io.

Abbreviation HAMMER2_VOLUME_ID_HBO := 5206527521446109201 (only parsing).  (* 0x48414d3205172011 *)
Abbreviation HAMMER2_VOLUME_ID_ABO := 1234011608985715016 (only parsing).  (* 0x11201705324d4148 *)
Abbreviation HAMMER2_MAX_VOLUMES := 64 (only parsing).
Abbreviation HAMMER2_ROOT_VOLUME := 0 (only parsing).
Abbreviation HAMMER2_VOLUME_BYTES := 65536 (only parsing).
Abbreviation HAMMER2_NUM_VOLHDRS := 4 (only parsing).
Abbreviation HAMMER2_VOL_ICRC_SECT0 := 7 (only parsing).
Abbreviation HAMMER2_VOL_ICRC_SECT1 := 6 (only parsing).
Abbreviation HAMMER2_VOL_VERSION_MIN := 1 (only parsing).
Abbreviation HAMMER2_VOL_VERSION_MULTI_VOLUMES := 2 (only parsing).
Abbreviation HAMMER2_VOL_VERSION_WIP := 3 (only parsing).
Abbreviation ENXIO := 6 (only parsing).

(** * The header *)

(** [n] bytes of [vd] at [off], as the bytes they are in memory. *)
Definition vd_bytes (vd : list Z) (off n : Z) : list Z := take (Z.to_nat n) (drop (Z.to_nat off) vd).
Definition vd_u64 (vd : list Z) (off : Z) : Z := u64 (le_value (vd_bytes vd off 8)).
Definition vd_u32 (vd : list Z) (off : Z) : Z := u32 (le_value (vd_bytes vd off 4)).
Definition vd_u8 (vd : list Z) (off : Z) : Z := u8 (le_value (vd_bytes vd off 1)).

(** [struct hammer2_volume_data] *)
Definition vd_magic (vd : list Z) : Z := vd_u64 vd 0.
Definition vd_volu_size (vd : list Z) : Z := vd_u64 vd 40.       (* 0x28 *)
Definition vd_version (vd : list Z) : Z := vd_u32 vd 48.         (* 0x30 *)
Definition vd_volu_id (vd : list Z) : Z := vd_u8 vd 59.          (* 0x3B *)
Definition vd_nvolumes (vd : list Z) : Z := vd_u8 vd 60.         (* 0x3C *)
Definition vd_fsid (vd : list Z) : list Z := vd_bytes vd 64 16.  (* 0x40 *)
Definition vd_fstype (vd : list Z) : list Z := vd_bytes vd 80 16. (* 0x50 *)
Definition vd_mirror_tid (vd : list Z) : Z := vd_u64 vd 120.     (* 0x78 *)
Definition vd_total_size (vd : list Z) : Z := vd_u64 vd 192.     (* 0xC0 *)
Definition icrc_sects_off (i : Z) : Z := 480 + 4 * i.            (* 0x1E0 *)
Definition vd_icrc_sects (vd : list Z) (i : Z) : Z := vd_u32 vd (icrc_sects_off i).
Definition vd_volu_loff (vd : list Z) (i : Z) : Z := vd_u64 vd (3584 + 8 * i). (* 0xE00 *)
Definition vd_icrc_volheader (vd : list Z) : Z := vd_u32 vd 65532. (* 0xFFFC *)

(** An assignment to a field of [n] bytes. *)
Definition vd_put (vd : list Z) (off : Z) (n : nat) (v : Z) : list Z := fwrite vd off (le_bytes n v).

(** * The volume table *)

Record devvp := Devvp {
  e_bdev : option Z;   (* the open block device *)
  e_size : Z           (* bdev_nr_bytes *)
}.

Record hvolume := Hvolume {
  vo_dev : option devvp;
  vo_id : Z;
  vo_offset : Z;
  vo_size : Z
}.
#[export] Instance hvolume_inhabited : Inhabited hvolume := populate (Hvolume None (- 1) 0 0).

(** [(hammer2_off_t)-1] *)
Abbreviation OFF_NONE := 18446744073709551615 (only parsing).

(** * Checks of the table *)

Fixpoint volumes_common_loop (vols : list hvolume) : outcome Z :=
  match vols with
  | [] => Done 0
  | vol :: vols =>
      if vo_id vol =? - 1 then volumes_common_loop vols
      else
        match vo_dev vol with
        | None => Panic
        | Some dev =>
            match e_bdev dev with
            | None => Done EINVAL
            | Some _ =>
                if vo_offset vol =? OFF_NONE then Done EINVAL
                else if vo_size vol =? OFF_NONE then Done EINVAL
                else if e_size dev <? vo_size vol then Done EINVAL
                else if vo_size vol =? 0 then Done EINVAL
                else volumes_common_loop vols
            end
        end
  end.

Definition hammer2_verify_volumes_common (volumes : list hvolume) (root : list Z) : outcome Z :=
  if negb (vd_volu_id root =? HAMMER2_ROOT_VOLUME) then Done EINVAL
  else volumes_common_loop volumes.

(** The first loop of both checks: [nvolumes] and the sum of the sizes. *)
Definition initialized (volumes : list hvolume) : list hvolume :=
  filter (fun vol => vo_id vol <> - 1) volumes.
Definition count_volumes (volumes : list hvolume) : Z := alen (initialized volumes).
Definition sum_sizes (volumes : list hvolume) : Z :=
  foldl (fun total vol => u64 (total + vo_size vol)) 0 (initialized volumes).

Definition hammer2_verify_volumes_1 (volumes : list hvolume) (root : list Z) : outcome Z :=
  if negb (count_volumes volumes =? 1) then Done EINVAL
  else if negb (vd_nvolumes root =? 0) then Done EINVAL
  else if negb (vd_total_size root =? 0) then Done EINVAL
  else if existsb (fun i => negb (vd_volu_loff root i =? 0)) (seqZ 0 HAMMER2_MAX_VOLUMES) then Done EINVAL
  else
    let vol := aget volumes HAMMER2_ROOT_VOLUME in
    assert! match vo_dev vol with Some _ => true | None => false end;
    if negb (vo_id vol =? 0) then Done EINVAL
    else if negb (vo_offset vol =? 0) then Done EINVAL
    else if tst (vo_size vol) HAMMER2_VOLUME_ALIGNMASK64 then Done EINVAL
    else Done 0.

(** The last loop of [hammer2_verify_volumes_2]; [prev] is [vol - 1], absent
    for the first. *)
Fixpoint volumes_2_loop (root : list Z) (i : Z) (prev : option hvolume) (vols : list hvolume)
  : outcome Z :=
  match vols with
  | [] => Done 0
  | vol :: vols =>
      if vo_id vol =? - 1 then volumes_2_loop root (i + 1) (Some vol) vols
      else
        match vo_dev vol with
        | None => Panic
        | Some _ =>
            if tst (vo_offset vol) HAMMER2_FREEMAP_LEVEL1_MASK then Done EINVAL
            else if match prev with
                    | Some p => (vo_id vol <=? vo_id p)
                                || negb (vo_offset vol =? u64 (vo_offset p + vo_size p))
                    | None => negb (vo_offset vol =? 0)
                    end then Done EINVAL
            else if negb (i =? vd_nvolumes root - 1) then
              if vo_size vol <? HAMMER2_FREEMAP_LEVEL1_SIZE then Done EINVAL
              else if tst (vo_size vol) HAMMER2_FREEMAP_LEVEL1_MASK then Done EINVAL
              else volumes_2_loop root (i + 1) (Some vol) vols
            else if tst (vo_size vol) HAMMER2_VOLUME_ALIGNMASK64 then Done EINVAL
            else volumes_2_loop root (i + 1) (Some vol) vols
        end
  end.

Definition hammer2_verify_volumes_2 (volumes : list hvolume) (root : list Z) : outcome Z :=
  let nvolumes := count_volumes volumes in
  if negb (vd_nvolumes root =? nvolumes) then Done EINVAL
  else if negb (vd_total_size root =? sum_sizes volumes) then Done EINVAL
  else if existsb (fun i => vd_volu_loff root i =? OFF_NONE) (seqZ 0 nvolumes) then Done EINVAL
  else if existsb (fun i => negb (vd_volu_loff root i =? OFF_NONE))
            (seqZ nvolumes (HAMMER2_MAX_VOLUMES - nvolumes)) then Done EINVAL
  else volumes_2_loop root 0 None volumes.

Definition hammer2_verify_volumes (volumes : list hvolume) (root : list Z) : outcome Z :=
  let! error := hammer2_verify_volumes_common volumes root in
  if negb (error =? 0) then Done error
  else if HAMMER2_VOL_VERSION_MULTI_VOLUMES <=? vd_version root
  then hammer2_verify_volumes_2 volumes root
  else hammer2_verify_volumes_1 volumes root.

(** * Reading the header of a device *)

(** The tests of one copy. *)
Definition header_valid (vd : list Z) : bool :=
  ((vd_magic vd =? HAMMER2_VOLUME_ID_HBO) || (vd_magic vd =? HAMMER2_VOLUME_ID_ABO))
  && negb (vd_magic vd =? HAMMER2_VOLUME_ID_ABO)
  && (vd_icrc_sects vd HAMMER2_VOL_ICRC_SECT0 =? hammer2_icrc32 (vd_bytes vd 0 508))
  && (vd_icrc_sects vd HAMMER2_VOL_ICRC_SECT1 =? hammer2_icrc32 (vd_bytes vd 512 512))
  && (vd_icrc_volheader vd =? hammer2_icrc32 (vd_bytes vd 0 65532)).

Section headers.
Context {W : Win32}.

(** The loop over the copies [i, i + 1, ...]; the buffer keeps what a failed read
    left in it. *)
Fixpoint read_header_loop (n : nat) (s : ios) (bdev mediasize i : Z) (vbuf voldata : list Z) (zone : Z)
  : Z * list Z :=
  match n with
  | O => (zone, voldata)
  | S n =>
      let blkoff := i * HAMMER2_ZONE_BYTES64 in
      if mediasize <=? blkoff then read_header_loop n s bdev mediasize (i + 1) vbuf voldata zone
      else
        let '(vbuf, error) := hammer2_dev_bread s bdev blkoff vbuf HAMMER2_VOLUME_BYTES in
        if negb (error =? 0) then read_header_loop n s bdev mediasize (i + 1) vbuf voldata zone
        else if negb (header_valid vbuf) then read_header_loop n s bdev mediasize (i + 1) vbuf voldata zone
        else if (zone =? - 1) || (vd_mirror_tid voldata <? vd_mirror_tid vbuf)
        then read_header_loop n s bdev mediasize (i + 1) vbuf vbuf i
        else read_header_loop n s bdev mediasize (i + 1) vbuf voldata zone
  end.

(** The zone or a negative error, and the caller's [voldata]. *)
Definition hammer2_read_volume_header (s : ios) (bdev mediasize : Z) (voldata : list Z) : Z * list Z :=
  match malloc HAMMER2_VOLUME_BYTES with
  | None => (- ENOMEM, voldata)
  | Some vbuf =>
      let '(zone, voldata) := read_header_loop 4 s bdev mediasize 0 vbuf voldata (- 1) in
      if zone =? - 1 then (- EINVAL, voldata) else (zone, voldata)
  end.

(** * Building the table *)

Record ivol := Ivol {
  iv_volumes : list hvolume;
  iv_voldata : list Z;
  iv_root : list Z;                            (* rootvoldata *)
  iv_zone : Z;                                 (* rootvolzone *)
  iv_rootdev : option Z;                       (* rootvoldevvp *)
  iv_ref : option (Z * Z * list Z * list Z)    (* v, nvolumes, fsid, fstype of the first header *)
}.

(** All headers must agree with the first one. *)
Definition same_header (ref : option (Z * Z * list Z * list Z)) (vd : list Z) : bool :=
  match ref with
  | None => true
  | Some (v, nvolumes, fsid, fstype) =>
      (v =? i32 (vd_version vd)) && (nvolumes =? vd_nvolumes vd)
      && bool_decide (fsid = vd_fsid vd) && bool_decide (fstype = vd_fstype vd)
  end.

Definition header_ref (ref : option (Z * Z * list Z * list Z)) (vd : list Z) : Z * Z * list Z * list Z :=
  default (i32 (vd_version vd), vd_nvolumes vd, vd_fsid vd, vd_fstype vd) ref.

(** One device; an error is a [goto done]. *)
Definition init_volume (s : ios) (e : devvp) (t : ivol) : outcome (Z * ivol) :=
  match e_bdev e with
  | None => Panic
  | Some bdev =>
      let '(zone, voldata) := hammer2_read_volume_header s bdev (e_size e) (iv_voldata t) in
      let t := Ivol (iv_volumes t) voldata (iv_root t) (iv_zone t) (iv_rootdev t) (iv_ref t) in
      let id := vd_volu_id voldata in
      if zone <? 0 then Done (- zone, t)
      else if HAMMER2_MAX_VOLUMES <=? id then Done (EINVAL, t)
      else if negb (vo_id (aget (iv_volumes t) id) =? - 1) then Done (EINVAL, t)
      else if negb (same_header (iv_ref t) voldata) then Done (ENXIO, t)
      else
        let ref := header_ref (iv_ref t) voldata in
        let v := ref.1.1.1 in
        if (v <? HAMMER2_VOL_VERSION_MIN) || (HAMMER2_VOL_VERSION_WIP <? v) then Done (EINVAL, t)
        else
          let vol := Hvolume (Some e) id (vd_volu_loff voldata id) (vd_volu_size voldata) in
          let volumes := aset (iv_volumes t) id vol in
          if id =? HAMMER2_ROOT_VOLUME then
            assert! match iv_rootdev t with None => true | Some _ => false end;
            Done (0, Ivol volumes voldata voldata zone (Some bdev) (Some ref))
          else Done (0, Ivol volumes voldata (iv_root t) (iv_zone t) (iv_rootdev t) (Some ref))
  end.

Fixpoint init_loop (s : ios) (devvpl : list devvp) (t : ivol) : outcome (Z * ivol) :=
  match devvpl with
  | [] => Done (0, t)
  | e :: devvpl =>
      let! (error, t) := init_volume s e t in
      if negb (error =? 0) then Done (error, t) else init_loop s devvpl t
  end.

(** The state before the loop: the caller passes a zeroed [hmp], so the root
    device is NULL and the zone 0. *)
Definition init_ivol : ivol :=
  Ivol (replicate 64 (Hvolume None (- 1) OFF_NONE OFF_NONE))
    (replicate (Z.to_nat HAMMER2_VOLUME_BYTES) 0) (replicate (Z.to_nat HAMMER2_VOLUME_BYTES) 0) 0 None None.

Definition hammer2_init_volumes (s : ios) (devvpl : list devvp) : outcome (Z * ivol) :=
  let! (error, t) := init_loop s devvpl init_ivol in
  if negb (error =? 0) then Done (error, t)
  else if vd_version (iv_root t) =? 0 then Done (EINVAL, t)
  else let! error := hammer2_verify_volumes (iv_volumes t) (iv_root t) in Done (error, t).

(** [hmp->nvolumes] and [hmp->total_size]. *)
Definition mount_geometry (root : list Z) : outcome (Z * Z) :=
  let r := if HAMMER2_VOL_VERSION_MULTI_VOLUMES <=? vd_version root
           then (vd_nvolumes root, vd_total_size root)
           else (1, vd_volu_size root) in
  assert! 0 <? r.1;
  Done r.

(** [hmp->volumes] as the buffer cache searches it: the first [hmp->nvolumes]. *)
Definition io_volume (vol : hvolume) : volume :=
  Volume (default 0 (vo_dev vol ≫= e_bdev)) (vo_offset vol) (vo_size vol).
Definition mounted_volumes (nvolumes : Z) (volumes : list hvolume) : list volume :=
  map io_volume (take (Z.to_nat nvolumes) volumes).

(** * Writing the header *)

(** [hammer2_flush_core] on the volume chain: [voldata] gets the transaction id of
    the flush and its check codes, and becomes [volsync]. *)
Definition sync_volume (voldata : list Z) (mirror_tid : Z) : list Z :=
  let vd := if vd_mirror_tid voldata <? mirror_tid then vd_put voldata 120 8 mirror_tid else voldata in
  let vd := vd_put vd (icrc_sects_off HAMMER2_VOL_ICRC_SECT1) 4 (hammer2_icrc32 (vd_bytes vd 512 512)) in
  let vd := vd_put vd (icrc_sects_off HAMMER2_VOL_ICRC_SECT0) 4 (hammer2_icrc32 (vd_bytes vd 0 508)) in
  vd_put vd 65532 4 (hammer2_icrc32 (vd_bytes vd 0 65532)).

(** The copy that [hammer2_xop_inode_flush] writes next. *)
Definition next_volhdr (volhdrno volu_size : Z) : Z :=
  let j := volhdrno + 1 in
  let j := if j <? 0 then 0 else j in
  let j := if HAMMER2_NUM_VOLHDRS <=? j then 0 else j in
  if volu_size <? u64 (j * HAMMER2_ZONE_BYTES64 + HAMMER2_SEGSIZE) then 0 else j.

(** The commit: the files and [hmp->volhdrno] afterwards.  An error of the write
    is printed and forgotten. *)
Definition commit_volhdr (s : ios) (devvp : option Z) (volhdrno : Z) (volsync : list Z) : ios * Z :=
  let j := next_volhdr volhdrno (vd_volu_size volsync) in
  match devvp with
  | Some bdev => ((hammer2_dev_bwrite s bdev (j * HAMMER2_ZONE_BYTES64) volsync HAMMER2_VOLUME_BYTES true).1, j)
  | None => (s, j)
  end.
End headers.
