(* ===== verification/VolumesProof.v ===== *)
(** The volume headers and the volume table, verified: which copy a mount reads,
    why a commit interrupted at any page leaves the old or the new header, and
    why an accepted set of volumes tiles the address space of the file system. *)

From Stdlib Require Import ZArith Lia Bool Zdiv.
From stdpp Require Import base numbers list option gmap.
From S2P Require Import Prelude Disk Crc Subr Check Io IoLemmas IoSpec Volumes.

(** * Fields *)

Lemma vd_bytes_fread vd off n :
  0 <= off -> 0 <= n -> off + n <= alen vd -> vd_bytes vd off n = fread vd off n.
Proof.
  unfold alen. intros Ho Hn Hl. unfold vd_bytes, fread.
  rewrite take_app_le by (rewrite length_drop; lia). reflexivity.
Qed.

(** The bytes of a field after an assignment: of the field itself, of others. *)
Lemma vd_bytes_put_eq vd off n v :
  0 <= off -> off + Z.of_nat n <= alen vd -> vd_bytes (vd_put vd off n v) off (Z.of_nat n) = le_bytes n v.
Proof.
  unfold alen. intros Ho Hl. pose proof (le_bytes_length n v) as Hb.
  assert (Hw : length (vd_put vd off n v) = length vd) by (apply fwrite_length; lia).
  rewrite vd_bytes_fread by (unfold alen; lia). apply fbyte_ext; [rewrite fread_length; lia|].
  intros j Hj. rewrite fread_length in Hj. rewrite fbyte_fread by lia. unfold vd_put.
  rewrite fbyte_fwrite, Hb, decide_True by lia. f_equal. lia.
Qed.

Lemma vd_bytes_put_ne vd off n v off' n' :
  0 <= off -> off + Z.of_nat n <= alen vd -> 0 <= off' -> 0 <= n' -> off' + n' <= alen vd ->
  off' + n' <= off \/ off + Z.of_nat n <= off' ->
  vd_bytes (vd_put vd off n v) off' n' = vd_bytes vd off' n'.
Proof.
  unfold alen. intros Ho Hl Ho' Hn' Hl' Hd. pose proof (le_bytes_length n v) as Hb.
  assert (Hw : length (vd_put vd off n v) = length vd) by (apply fwrite_length; lia).
  rewrite !vd_bytes_fread by (unfold alen; lia). apply fread_ext. intros j Hj. unfold vd_put.
  rewrite fbyte_fwrite, decide_False by lia. reflexivity.
Qed.

Lemma vd_put_len vd off n v : 0 <= off -> off + Z.of_nat n <= alen vd -> alen (vd_put vd off n v) = alen vd.
Proof.
  unfold alen. intros Ho Hl. unfold vd_put. rewrite fwrite_length; [reflexivity|lia|].
  rewrite le_bytes_length. lia.
Qed.

Lemma le_bytes_bytes n v : Forall is_byte (le_bytes n v).
Proof.
  revert v. induction n as [|n IH]; intros v; [constructor|]. constructor; [|apply IH].
  apply u8_range.
Qed.

Lemma vd_put_bytes vd off n v : Forall is_byte vd -> Forall is_byte (vd_put vd off n v).
Proof.
  intros H. unfold vd_put, fwrite. apply Forall_app. split; [|apply Forall_app; split].
  - apply Forall_take, Forall_app. split; [exact H|]. apply Forall_replicate. unfold is_byte. lia.
  - apply le_bytes_bytes.
  - apply Forall_drop, H.
Qed.

Lemma vd_bytes_bytes vd off n : Forall is_byte vd -> Forall is_byte (vd_bytes vd off n).
Proof. intros H. apply Forall_take, Forall_drop, H. Qed.

(** * Sealed headers are valid *)

(** Reading back a 32 bit code and a transaction id. *)
Lemma vd_u32_put vd off v :
  0 <= off -> off + 4 <= alen vd -> 0 <= v < 2 ^ 32 -> vd_u32 (vd_put vd off 4 v) off = v.
Proof.
  intros Ho Hl Hv. unfold vd_u32. pose proof (vd_bytes_put_eq vd off 4 v Ho Hl) as E. change (Z.of_nat 4) with 4 in E.
  rewrite E.
  rewrite le_value_bytes by lia. apply u32_small. lia.
Qed.

Lemma vd_u64_put vd off v :
  0 <= off -> off + 8 <= alen vd -> 0 <= v < 2 ^ 64 -> vd_u64 (vd_put vd off 8 v) off = v.
Proof.
  intros Ho Hl Hv. unfold vd_u64. pose proof (vd_bytes_put_eq vd off 8 v Ho Hl) as E. change (Z.of_nat 8) with 8 in E.
  rewrite E.
  rewrite le_value_bytes by lia. apply u64_small. lia.
Qed.

(** A header: 64KB of bytes. *)
Definition is_header (vd : list Z) : Prop := alen vd = HAMMER2_VOLUME_BYTES /\ Forall is_byte vd.

Lemma put_header vd off n v :
  is_header vd -> 0 <= off -> off + Z.of_nat n <= HAMMER2_VOLUME_BYTES -> is_header (vd_put vd off n v).
Proof.
  intros [Hl Hb] Ho Hn. split; [rewrite vd_put_len by lia; exact Hl|apply vd_put_bytes, Hb].
Qed.

(** The three codes, in the order [sync_volume] stores them. *)
Definition seal1 (vd : list Z) : list Z := vd_put vd 504 4 (hammer2_icrc32 (vd_bytes vd 512 512)).
Definition seal0 (vd : list Z) : list Z := vd_put vd 508 4 (hammer2_icrc32 (vd_bytes vd 0 508)).
Definition sealv (vd : list Z) : list Z := vd_put vd 65532 4 (hammer2_icrc32 (vd_bytes vd 0 65532)).

Lemma seal_valid vd :
  is_header vd -> vd_magic vd = HAMMER2_VOLUME_ID_HBO -> header_valid (sealv (seal0 (seal1 vd))) = true.
Proof.
  intros Hh Hm.
  assert (H1 : is_header (seal1 vd)) by (apply put_header; [exact Hh|lia|lia]).
  assert (H0 : is_header (seal0 (seal1 vd))) by (apply put_header; [exact H1|lia|lia]).
  assert (Hc : forall vd off n, is_header vd -> 0 <= hammer2_icrc32 (vd_bytes vd off n) < 2 ^ 32).
  { intros x off n Hx. apply hammer2_icrc32_range, vd_bytes_bytes, Hx. }
  pose proof (proj1 Hh) as L. pose proof (proj1 H1) as L1. pose proof (proj1 H0) as L0.
  set (v1 := seal1 vd) in *. set (v0 := seal0 v1) in *. set (v := sealv v0).
  assert (E : forall off n, 0 <= off -> 0 <= n -> off + n <= 65532 -> vd_bytes v off n = vd_bytes v0 off n).
  { intros off n A B C. unfold v, sealv. apply vd_bytes_put_ne; lia. }
  assert (E0 : forall off n, 0 <= off -> 0 <= n -> off + n <= 508 \/ 512 <= off ->
    off + n <= 65532 -> vd_bytes v0 off n = vd_bytes v1 off n).
  { intros off n A B C D. unfold v0, seal0. apply vd_bytes_put_ne; lia. }
  assert (E1 : forall off n, 0 <= off -> 0 <= n -> off + n <= 504 \/ 508 <= off ->
    off + n <= 65532 -> vd_bytes v1 off n = vd_bytes vd off n).
  { intros off n A B C D. unfold v1, seal1. apply vd_bytes_put_ne; lia. }
  unfold header_valid, vd_magic, vd_u64. rewrite E, E0, E1 by lia.
  change (u64 (le_value (vd_bytes vd 0 8))) with (vd_magic vd). rewrite Hm.
  change (icrc_sects_off HAMMER2_VOL_ICRC_SECT0) with 508. change (icrc_sects_off HAMMER2_VOL_ICRC_SECT1) with 504.
  unfold vd_icrc_sects, vd_icrc_volheader. change (icrc_sects_off 7) with 508. change (icrc_sects_off 6) with 504.
  assert (C0 : vd_u32 v 508 = hammer2_icrc32 (vd_bytes v 0 508)).
  { unfold vd_u32. rewrite !E by lia. rewrite (E0 0 508) by lia. fold (vd_u32 v0 508).
    unfold v0, seal0. apply vd_u32_put; [lia|lia|apply Hc, H1]. }
  assert (C1 : vd_u32 v 504 = hammer2_icrc32 (vd_bytes v 512 512)).
  { unfold vd_u32. rewrite !E by lia. rewrite !E0 by lia. rewrite (E1 512 512) by lia. fold (vd_u32 v1 504).
    unfold v1, seal1. apply vd_u32_put; [lia|lia|apply Hc, Hh]. }
  assert (Cv : vd_u32 v 65532 = hammer2_icrc32 (vd_bytes v 0 65532)).
  { rewrite E by lia. unfold v, sealv. apply vd_u32_put; [lia|lia|apply Hc, H0]. }
  rewrite C0, C1, Cv, !Z.eqb_refl. reflexivity.
Qed.

Lemma header_valid_magic vd : header_valid vd = true -> vd_magic vd = HAMMER2_VOLUME_ID_HBO.
Proof.
  unfold header_valid. rewrite !andb_true_iff. intros ((((B1 & B2) & _) & _) & _).
  apply orb_true_iff in B1 as [B1|B1]; [apply Z.eqb_eq, B1|]. rewrite B1 in B2. discriminate B2.
Qed.

(** What [sync_volume] makes of the header in memory. *)
Lemma sync_volume_facts voldata tid :
  is_header voldata -> vd_magic voldata = HAMMER2_VOLUME_ID_HBO -> 0 <= tid < 2 ^ 64 ->
  let vd := sync_volume voldata tid in
  is_header vd /\ header_valid vd = true
  /\ vd_mirror_tid vd = Z.max (vd_mirror_tid voldata) tid
  /\ vd_volu_size vd = vd_volu_size voldata.
Proof.
  intros Hh Hm Ht. unfold sync_volume.
  set (v := if _ <? tid then _ else voldata).
  assert (Hv : is_header v) by (unfold v; destruct (_ <? tid); [apply put_header; [exact Hh|lia|lia]|exact Hh]).
  assert (Hk : forall off, 0 <= off -> off + 8 <= 120 -> vd_bytes v off 8 = vd_bytes voldata off 8).
  { intros off A B. unfold v. destruct (_ <? tid); [|reflexivity].
    pose proof (proj1 Hh). apply vd_bytes_put_ne; lia. }
  assert (Ht' : vd_mirror_tid v = Z.max (vd_mirror_tid voldata) tid).
  { unfold v. destruct (Z.ltb_spec (vd_mirror_tid voldata) tid) as [C|C]; [|lia].
    unfold vd_mirror_tid at 1. rewrite vd_u64_put by (rewrite ?(proj1 Hh); lia). lia. }
  change (let vd := sealv (seal0 (seal1 v)) in is_header vd /\ header_valid vd = true
    /\ vd_mirror_tid vd = Z.max (vd_mirror_tid voldata) tid /\ vd_volu_size vd = vd_volu_size voldata).
  cbn zeta.
  assert (H1 : is_header (seal1 v)) by (apply put_header; [exact Hv|lia|lia]).
  assert (H0 : is_header (seal0 (seal1 v))) by (apply put_header; [exact H1|lia|lia]).
  assert (Hs : is_header (sealv (seal0 (seal1 v)))) by (apply put_header; [exact H0|lia|lia]).
  assert (E : forall off, 0 <= off -> off + 8 <= 504 -> vd_u64 (sealv (seal0 (seal1 v))) off = vd_u64 v off).
  { intros off A B. pose proof (proj1 H1). pose proof (proj1 H0). pose proof (proj1 Hv).
    unfold vd_u64, sealv, seal0, seal1 in *. rewrite !vd_bytes_put_ne by lia. reflexivity. }
  split; [exact Hs|]. split; [|split].
  - apply seal_valid; [exact Hv|]. unfold vd_magic, vd_u64. rewrite Hk by lia. exact Hm.
  - unfold vd_mirror_tid at 1. rewrite E by lia. exact Ht'.
  - unfold vd_volu_size, vd_u64 at 1. fold (vd_u64 (sealv (seal0 (seal1 v))) 40). rewrite E by lia.
    unfold vd_u64. rewrite Hk by lia. reflexivity.
Qed.

(** The other fields stay. *)
Lemma sync_volume_bytes voldata tid off n :
  is_header voldata -> 0 <= off -> 0 <= n -> off + n <= 65532 ->
  off + n <= 120 \/ 128 <= off /\ off + n <= 504 \/ 512 <= off ->
  vd_bytes (sync_volume voldata tid) off n = vd_bytes voldata off n.
Proof.
  intros Hh Ho Hn Hl Hd. unfold sync_volume.
  set (v := if _ <? tid then _ else voldata).
  assert (Hv : is_header v) by (unfold v; destruct (_ <? tid); [apply put_header; [exact Hh|lia|lia]|exact Hh]).
  change (vd_bytes (sealv (seal0 (seal1 v))) off n = vd_bytes voldata off n).
  assert (H1 : is_header (seal1 v)) by (apply put_header; [exact Hv|lia|lia]).
  assert (H0 : is_header (seal0 (seal1 v))) by (apply put_header; [exact H1|lia|lia]).
  pose proof (proj1 H1). pose proof (proj1 H0). pose proof (proj1 Hv). pose proof (proj1 Hh).
  unfold sealv, seal0, seal1 in *. rewrite !vd_bytes_put_ne by lia.
  unfold v. destruct (_ <? tid); [|reflexivity]. apply vd_bytes_put_ne; lia.
Qed.

(** * Which copy is read *)

(** Copy [i] on the device, and whether a mount may use it. *)
Definition header_copy (s : ios) (bdev i : Z) : list Z :=
  fread (file_of s bdev) (i * HAMMER2_ZONE_BYTES64) HAMMER2_VOLUME_BYTES.
Definition usable (s : ios) (bdev mediasize i : Z) : Prop :=
  i * HAMMER2_ZONE_BYTES64 < mediasize /\ header_valid (header_copy s bdev i) = true.

(** [zone] is the first of the newest usable copies among [0 .. hi - 1]. *)
Definition newest (s : ios) (bdev mediasize hi zone : Z) (vd : list Z) : Prop :=
  (zone = - 1 /\ forall i, 0 <= i < hi -> ~ usable s bdev mediasize i)
  \/ (0 <= zone < hi /\ usable s bdev mediasize zone /\ vd = header_copy s bdev zone
      /\ forall i, 0 <= i < hi -> usable s bdev mediasize i ->
           vd_mirror_tid (header_copy s bdev i) <= vd_mirror_tid vd
           /\ (i < zone -> vd_mirror_tid (header_copy s bdev i) < vd_mirror_tid vd)).

Section headers.
Context {W : Win32} {WL : Win32Laws}.

Lemma newest_skip s bdev m i zone vd :
  newest s bdev m i zone vd -> ~ usable s bdev m i -> newest s bdev m (i + 1) zone vd.
Proof.
  intros [[Hz H]|(Hz & Hu & Hv & H)] Hi.
  - left. split; [exact Hz|]. intros j Hj. destruct (decide (j = i)) as [->|]; [exact Hi|apply H; lia].
  - right. split; [lia|]. split; [exact Hu|]. split; [exact Hv|]. intros j Hj Hju.
    destruct (decide (j = i)) as [->|]; [contradiction|apply H; [lia|exact Hju]].
Qed.

Lemma newest_take s bdev m i zone vd :
  0 <= i -> newest s bdev m i zone vd -> usable s bdev m i ->
  (zone =? - 1) || (vd_mirror_tid vd <? vd_mirror_tid (header_copy s bdev i)) = true ->
  newest s bdev m (i + 1) i (header_copy s bdev i).
Proof.
  intros H0 Hn Hu Hc. right. split; [lia|]. split; [exact Hu|]. split; [reflexivity|].
  intros j Hj Hju. destruct (decide (j = i)) as [->|]; [lia|].
  destruct Hn as [[_ H]|(Hz & _ & _ & H)]; [destruct (H j ltac:(lia) Hju)|].
  destruct (H j ltac:(lia) Hju) as [Hle _]. apply orb_true_iff in Hc. rewrite Z.eqb_eq, Z.ltb_lt in Hc. lia.
Qed.

Lemma newest_keep s bdev m i zone vd :
  newest s bdev m i zone vd ->
  (zone =? - 1) || (vd_mirror_tid vd <? vd_mirror_tid (header_copy s bdev i)) = false ->
  newest s bdev m (i + 1) zone vd.
Proof.
  intros Hn Hc. apply orb_false_iff in Hc as [Hz Hc]. apply Z.eqb_neq in Hz. apply Z.ltb_ge in Hc.
  destruct Hn as [[E _]|(Hz' & Hu & Hv & H)]; [contradiction|]. right.
  split; [lia|]. split; [exact Hu|]. split; [exact Hv|]. intros j Hj Hju.
  destruct (decide (j = i)) as [->|]; [lia|apply H; [lia|exact Hju]].
Qed.

Lemma read_copy s bdev i vbuf :
  0 <= i <= 4 -> length vbuf = Z.to_nat HAMMER2_VOLUME_BYTES ->
  hammer2_dev_bread s bdev (i * HAMMER2_ZONE_BYTES64) vbuf HAMMER2_VOLUME_BYTES = (header_copy s bdev i, 0).
Proof.
  intros Hi Hl. apply dev_bread_spec; [exists (i * 2 ^ 19); lia|lia|lia|exact Hl].
Qed.

Lemma read_header_loop_newest s bdev m n : forall i vbuf voldata zone,
  0 <= i -> i + Z.of_nat n <= 4 -> length vbuf = Z.to_nat HAMMER2_VOLUME_BYTES ->
  newest s bdev m i zone voldata ->
  let r := read_header_loop n s bdev m i vbuf voldata zone in
  newest s bdev m (i + Z.of_nat n) r.1 r.2.
Proof.
  induction n as [|n IH]; intros i vbuf voldata zone Hi Hn Hl H.
  - cbn [read_header_loop fst snd]. replace (i + Z.of_nat 0) with i by lia. exact H.
  - cbn [read_header_loop]. replace (i + Z.of_nat (S n)) with (i + 1 + Z.of_nat n) by lia.
    destruct (Z.leb_spec m (i * HAMMER2_ZONE_BYTES64)) as [Hm|Hm].
    { apply IH; try assumption; try lia. apply newest_skip; [exact H|]. intros [Hu _]. lia. }
    rewrite (read_copy s bdev i vbuf) by (assumption || lia). cbn [Z.eqb negb].
    assert (Hl' : length (header_copy s bdev i) = Z.to_nat HAMMER2_VOLUME_BYTES) by apply fread_length.
    destruct (header_valid (header_copy s bdev i)) eqn:Hv; cbn [negb].
    2: { apply IH; try assumption; try lia. apply newest_skip; [exact H|]. intros [_ Hu]. congruence. }
    destruct ((zone =? - 1) || _) eqn:Hc; apply IH; try assumption; try lia.
    + exact (newest_take _ _ _ _ _ _ Hi H (conj Hm Hv) Hc).
    + exact (newest_keep _ _ _ _ _ _ H Hc).
Qed.

Lemma read_volume_header_newest s bdev m vd0 :
  exists zone vd, newest s bdev m 4 zone vd
    /\ hammer2_read_volume_header s bdev m vd0
       = if zone =? - 1 then (- EINVAL, vd) else (zone, vd).
Proof.
  unfold hammer2_read_volume_header. destruct malloc_some as (vbuf & E & Hl). rewrite E.
  destruct (read_header_loop 4 s bdev m 0 vbuf vd0 (- 1)) as [zone vd] eqn:Er.
  exists zone, vd. split; [|reflexivity].
  assert (H : newest s bdev m 0 (- 1) vd0) by (left; split; [reflexivity|lia]).
  pose proof (read_header_loop_newest s bdev m 4 0 vbuf vd0 (- 1) ltac:(lia) ltac:(lia) Hl H) as K.
  rewrite Er in K. exact K.
Qed.

(** The newest copy is determined. *)
Lemma newest_unique s bdev m zone zone' vd vd' :
  newest s bdev m 4 zone vd -> newest s bdev m 4 zone' vd' -> 0 <= zone' -> zone = zone' /\ vd = vd'.
Proof.
  intros [[Hz H]|(Hz & Hu & Hv & H)] [[Hz' H']|(Hz' & Hu' & Hv' & H')] Hp; try lia.
  - destruct (H zone' Hz' Hu').
  - assert (zone = zone'); [|subst; auto].
    destruct (H _ Hz' Hu') as [A B]. destruct (H' _ Hz Hu) as [A' B']. rewrite <- Hv' in A, B. rewrite <- Hv in A', B'.
    destruct (Z.lt_trichotomy zone zone') as [C|[C|C]]; [specialize (B' C); lia|exact C|specialize (B C); lia].
Qed.

Lemma read_is s bdev m vd0 zone vd :
  0 <= zone -> newest s bdev m 4 zone vd -> hammer2_read_volume_header s bdev m vd0 = (zone, vd).
Proof.
  intros Hz Hn. destruct (read_volume_header_newest s bdev m vd0) as (z & v & Hn' & E).
  destruct (newest_unique _ _ _ _ _ _ _ Hn' Hn Hz) as [-> ->]. rewrite E.
  destruct (Z.eqb_spec zone (- 1)); [lia|reflexivity].
Qed.

Lemma read_newest s bdev m vd0 zone vd :
  hammer2_read_volume_header s bdev m vd0 = (zone, vd) -> 0 <= zone -> newest s bdev m 4 zone vd.
Proof.
  intros E Hz. destruct (read_volume_header_newest s bdev m vd0) as (z & v & Hn & E'). rewrite E in E'.
  destruct (Z.eqb_spec z (- 1)); injection E' as -> ->; [lia|exact Hn].
Qed.

(** * The commit *)

(** The state when the first [k] pages of copy [j] have been written. *)
Definition torn (s : ios) (bdev j : Z) (volsync : list Z) (k : nat) : ios :=
  (bwrite_pages k s bdev ((j * HAMMER2_ZONE_BYTES64) .>> PAGE_SHIFT) 0 volsync true).1.

Lemma torn_copies s bdev j volsync k :
  0 <= j < 4 -> alen volsync = HAMMER2_VOLUME_BYTES -> (k <= 16)%nat ->
  (forall i, 0 <= i < 4 -> i <> j -> header_copy (torn s bdev j volsync k) bdev i = header_copy s bdev i)
  /\ (k = 16%nat -> header_copy (torn s bdev j volsync k) bdev j = volsync).
Proof.
  unfold alen. intros Hj Hl Hk. unfold torn.
  destruct (bwrite_pages_spec bdev (j * HAMMER2_ZONE_BYTES64) volsync k 0 s) as (s' & E & _ & _ & Hb);
    [exists (j * 2 ^ 19); lia|lia|lia|lia|lia|lia|].
  rewrite E. cbn [fst]. split.
  - intros i Hi Hne. unfold header_copy. apply fread_ext. intros x Hx.
    rewrite Hb, decide_False; [reflexivity|lia].
  - intros ->. unfold header_copy. apply fbyte_ext; rewrite fread_length; [lia|].
    intros x Hx. rewrite fbyte_fread by exact Hx.
    rewrite Hb, decide_True by lia. f_equal. lia.
Qed.

Lemma next_volhdr_spec volhdrno volu_size :
  0 <= volhdrno < 4 ->
  let j := next_volhdr volhdrno volu_size in
  0 <= j < 4 /\ (j = 0 \/ j * HAMMER2_ZONE_BYTES64 < volu_size)
  /\ (HAMMER2_ZONE_BYTES64 + HAMMER2_SEGSIZE <= volu_size -> j <> volhdrno).
Proof.
  intros Hv. unfold next_volhdr. cbn zeta.
  destruct (Z.ltb_spec (volhdrno + 1) 0); [lia|].
  destruct (Z.leb_spec HAMMER2_NUM_VOLHDRS (volhdrno + 1)).
  - destruct (volu_size <? _); split; lia.
  - rewrite u64_small by lia. destruct (Z.ltb_spec volu_size ((volhdrno + 1) * HAMMER2_ZONE_BYTES64 + HAMMER2_SEGSIZE)); lia.
Qed.

Lemma next_volhdr_small volhdrno volu_size :
  0 <= volhdrno < 4 -> volu_size < HAMMER2_ZONE_BYTES64 + HAMMER2_SEGSIZE -> next_volhdr volhdrno volu_size = 0.
Proof.
  intros Hv Hs. unfold next_volhdr. cbn zeta.
  destruct (Z.ltb_spec (volhdrno + 1) 0); [lia|].
  destruct (Z.leb_spec HAMMER2_NUM_VOLHDRS (volhdrno + 1)).
  - destruct (volu_size <? _); reflexivity.
  - rewrite u64_small by lia. destruct (Z.ltb_spec volu_size ((volhdrno + 1) * HAMMER2_ZONE_BYTES64 + HAMMER2_SEGSIZE)); [reflexivity|lia].
Qed.

(** A copy that is not read may become unusable or keep its contents. *)
Lemma newest_other s s' bdev m zone vd j :
  newest s bdev m 4 zone vd -> 0 <= zone -> zone <> j ->
  (forall i, 0 <= i < 4 -> i <> j -> header_copy s' bdev i = header_copy s bdev i) ->
  header_valid (header_copy s' bdev j) = false \/ header_copy s' bdev j = header_copy s bdev j ->
  newest s' bdev m 4 zone vd.
Proof.
  intros Hn Hz Hne Hsame Hj. destruct Hn as [[E _]|(Hr & Hu & Hv & H)]; [lia|].
  assert (Hu' : forall i, 0 <= i < 4 -> usable s' bdev m i ->
    usable s bdev m i /\ header_copy s' bdev i = header_copy s bdev i).
  { intros i Hi [A B]. destruct (decide (i = j)) as [->|Hij].
    - destruct Hj as [Hj|Hj]; [congruence|]. split; [split; [exact A|rewrite <- Hj; exact B]|exact Hj].
    - rewrite (Hsame i Hi Hij) in B |- *. split; [exact (conj A B)|reflexivity]. }
  right. split; [exact Hr|]. split; [|split; [rewrite Hsame by (lia || exact Hne); exact Hv|]].
  - destruct Hu as [A B]. split; [exact A|]. rewrite Hsame by (lia || exact Hne). exact B.
  - intros i Hi Hi'. destruct (Hu' i Hi Hi') as [Hi'' ->]. exact (H i Hi Hi'').
Qed.

(** A newer valid header in copy [j] is the newest. *)
Lemma newest_written s s' bdev m zone vd j new :
  newest s bdev m 4 zone vd -> 0 <= zone -> 0 <= j < 4 -> j * HAMMER2_ZONE_BYTES64 < m ->
  (forall i, 0 <= i < 4 -> i <> j -> header_copy s' bdev i = header_copy s bdev i) ->
  header_copy s' bdev j = new -> header_valid new = true -> vd_mirror_tid vd < vd_mirror_tid new ->
  newest s' bdev m 4 j new.
Proof.
  intros Hn Hz Hj Hm Hsame Hw Hval Hlt. destruct Hn as [[E _]|(Hr & Hu & Hv & H)]; [lia|].
  right. split; [exact Hj|]. split; [split; [exact Hm|rewrite Hw; exact Hval]|]. split; [congruence|].
  intros i Hi Hiu. destruct (decide (i = j)) as [->|Hij]; [rewrite Hw; lia|].
  assert (Hiu' : usable s bdev m i).
  { destruct Hiu as [A B]. rewrite (Hsame i Hi Hij) in B. exact (conj A B). }
  rewrite (Hsame i Hi Hij). destruct (H i Hi Hiu') as [A _]. lia.
Qed.

(** * Properties of the headers *)

(** A mount reads the newest good header: it returns the first of the copies
    with the largest transaction id among those on the device that have the
    magic and correct check codes, and EINVAL exactly when there is none. *)
Theorem read_header_best s bdev mediasize vd0 zone vd :
  hammer2_read_volume_header s bdev mediasize vd0 = (zone, vd) ->
  (zone = - EINVAL /\ forall i, 0 <= i < 4 -> ~ usable s bdev mediasize i)
  \/ (0 <= zone < 4 /\ usable s bdev mediasize zone /\ vd = header_copy s bdev zone
      /\ forall i, 0 <= i < 4 -> usable s bdev mediasize i ->
           vd_mirror_tid (header_copy s bdev i) <= vd_mirror_tid vd
           /\ (i < zone -> vd_mirror_tid (header_copy s bdev i) < vd_mirror_tid vd)).
Proof.
  destruct (read_volume_header_newest s bdev mediasize vd0) as (z & v & Hn & ->). intros E.
  destruct Hn as [[-> H]|(Hz & H)]; [injection E as <- <-; left; auto|].
  destruct (Z.eqb_spec z (- 1)); [lia|]. injection E as <- <-. right. split; [exact Hz|exact H].
Qed.

(** On a volume without a second copy the only header is overwritten: when the system
    stops in the middle and the check codes tell, the next mount fails. *)
Lemma small_volume_not_atomic s bdev mediasize vd0 voldata tid k :
  is_header voldata -> vd_magic voldata = HAMMER2_VOLUME_ID_HBO -> 0 <= tid < 2 ^ 64 ->
  vd_volu_size voldata < HAMMER2_ZONE_BYTES64 + HAMMER2_SEGSIZE -> mediasize <= HAMMER2_ZONE_BYTES64 ->
  let new := sync_volume voldata tid in
  let j := next_volhdr 0 (vd_volu_size new) in
  let s' := torn s bdev j new k in
  header_valid (header_copy s' bdev j) = false ->
  j = 0 /\ (hammer2_read_volume_header s' bdev mediasize vd0).1 = - EINVAL.
Proof.
  intros Hh Hm Ht Hsmall Hmedia new j s' Hv. destruct (sync_volume_facts voldata tid Hh Hm Ht) as (_ & _ & _ & Hvs). fold new in Hvs.
  assert (Hj : j = 0).
  { unfold j. rewrite Hvs. apply next_volhdr_small; lia. }
  split; [exact Hj|]. destruct (read_volume_header_newest s' bdev mediasize vd0) as (z & v & Hn & ->).
  destruct Hn as [[-> _]|(Hz & [Hu1 Hu2] & _)]; [reflexivity|]. assert (z = 0) as -> by lia. rewrite Hj in Hv. congruence.
Qed.

(** C13. A commit is atomic on a volume with room for a second copy of the header: with
    a volume of at least 2GB + 4MB, whatever number of pages of the header has reached
    the device when the system stops, the next mount reads the header before the commit
    or the new one, and the new one when all have; the copy that a mount would read is
    never overwritten.  This supposes that the check codes work: a partly written copy
    that passes them is the copy before the commit or the new header.  (A smaller volume
    has one header, which the commit overwrites: [small_volume_not_atomic].) *)
Theorem header_commit_atomic s bdev mediasize vd0 volhdrno old voldata tid k :
  hammer2_read_volume_header s bdev mediasize vd0 = (volhdrno, old) -> 0 <= volhdrno ->
  is_header voldata -> vd_magic voldata = HAMMER2_VOLUME_ID_HBO -> 0 <= tid < 2 ^ 64 ->
  vd_mirror_tid old < Z.max (vd_mirror_tid voldata) tid ->
  HAMMER2_ZONE_BYTES64 + HAMMER2_SEGSIZE <= vd_volu_size voldata <= mediasize ->
  let new := sync_volume voldata tid in
  let j := next_volhdr volhdrno (vd_volu_size new) in
  let s' := torn s bdev j new k in
  (k <= 16)%nat ->
  (header_valid (header_copy s' bdev j) = true ->
     header_copy s' bdev j = header_copy s bdev j \/ header_copy s' bdev j = new) ->
  j <> volhdrno
  /\ (hammer2_read_volume_header s' bdev mediasize vd0 = (volhdrno, old)
      \/ hammer2_read_volume_header s' bdev mediasize vd0 = (j, new))
  /\ (k = 16%nat -> commit_volhdr s (Some bdev) volhdrno new = (s', j)
                    /\ hammer2_read_volume_header s' bdev mediasize vd0 = (j, new)).
Proof.
  intros Hread Hz Hh Hm Ht Hlt Hsize new j s' Hk Htorn.
  destruct (sync_volume_facts voldata tid Hh Hm Ht) as (Hnh & Hval & Htid & Hvs).
  fold new in Hnh, Hval, Htid, Hvs. pose proof (read_newest _ _ _ _ _ _ Hread Hz) as Hn.
  assert (Hz4 : 0 <= volhdrno < 4) by (destruct Hn as [[E _]|(Hr & _)]; lia).
  destruct (next_volhdr_spec volhdrno (vd_volu_size new) Hz4) as (Hj & Hroom & Hne). fold j in Hj, Hroom, Hne.
  rewrite Hvs in Hroom, Hne. specialize (Hne ltac:(lia)).
  destruct (torn_copies s bdev j new k Hj (proj1 Hnh) Hk) as [Hsame Hfull]. fold s' in Hsame, Hfull.
  assert (Hnew : header_copy s' bdev j = new -> hammer2_read_volume_header s' bdev mediasize vd0 = (j, new)).
  { intros E. apply read_is; [lia|]. apply (newest_written s s' bdev mediasize volhdrno old j new);
      try assumption; lia. }
  assert (Hold : header_valid (header_copy s' bdev j) = false \/ header_copy s' bdev j = header_copy s bdev j ->
    hammer2_read_volume_header s' bdev mediasize vd0 = (volhdrno, old)).
  { intros E. apply read_is; [lia|]. apply (newest_other s s' bdev mediasize volhdrno old j);
      try assumption; lia. }
  split; [exact Hne|]. split.
  - destruct (header_valid (header_copy s' bdev j)) eqn:Ev; [|left; apply Hold; left; reflexivity].
    destruct (Htorn eq_refl) as [E|E]; [left; apply Hold; right; exact E|right; exact (Hnew E)].
  - intros Ek. split; [|exact (Hnew (Hfull Ek))]. unfold commit_volhdr, s', torn, hammer2_dev_bwrite.
    change (Z.to_nat (HAMMER2_VOLUME_BYTES .>> PAGE_SHIFT)) with 16%nat. rewrite Ek. reflexivity.
Qed.
End headers.

(** A 4GB device whose only header is the first copy, of version 1, with
    transaction id 1. *)
Definition zero_header : list Z := replicate (Z.to_nat HAMMER2_VOLUME_BYTES) 0.
Definition demo_voldata : list Z :=
  vd_put (vd_put (vd_put zero_header 0 8 HAMMER2_VOLUME_ID_HBO) 40 8 (2 ^ 32)) 48 4 1.
Definition demo_header : list Z := sync_volume demo_voldata 1.
Definition demo_disk : ios := Ios [] ∅ 0 0 0 0 {[ 1 := demo_header ]} 0 256.

Lemma zero_is_header : is_header zero_header.
Proof.
  split; [unfold alen, zero_header; rewrite length_replicate; lia|].
  apply Forall_replicate. unfold is_byte. lia.
Qed.

Lemma demo_is_header : is_header demo_voldata.
Proof. repeat (apply put_header; [|lia|lia]). exact zero_is_header. Qed.

(** The fields that are not set are zero. *)
Lemma demo_zero off n :
  0 <= off -> 0 <= n -> off + n <= 65532 -> 8 <= off /\ off + n <= 40 \/ 52 <= off ->
  vd_bytes demo_voldata off n = replicate (Z.to_nat n) 0.
Proof.
  intros Ho Hn Hl Hd. unfold demo_voldata.
  assert (L : alen zero_header = HAMMER2_VOLUME_BYTES) by apply zero_is_header.
  rewrite !vd_bytes_put_ne by (rewrite ?vd_put_len by (rewrite ?vd_put_len by lia; lia); lia).
  unfold vd_bytes, zero_header. rewrite drop_replicate, take_replicate. f_equal. lia.
Qed.

Lemma demo_voldata_facts :
  vd_magic demo_voldata = HAMMER2_VOLUME_ID_HBO
  /\ vd_volu_size demo_voldata = 2 ^ 32 /\ vd_mirror_tid demo_voldata = 0 /\ vd_version demo_voldata = 1.
Proof.
  assert (H1 := put_header _ 0 8 HAMMER2_VOLUME_ID_HBO zero_is_header ltac:(lia) ltac:(lia)).
  assert (H2 := put_header _ 40 8 (2 ^ 32) H1 ltac:(lia) ltac:(lia)).
  pose proof (proj1 zero_is_header). pose proof (proj1 H1). pose proof (proj1 H2).
  unfold vd_mirror_tid, vd_u64. rewrite (demo_zero 120 8) by lia.
  unfold demo_voldata, vd_magic, vd_volu_size. split; [|split; [|split; [reflexivity|]]].
  - unfold vd_u64. rewrite !vd_bytes_put_ne by lia. apply (vd_u64_put _ 0); lia.
  - unfold vd_u64. rewrite vd_bytes_put_ne by lia. apply (vd_u64_put _ 40); lia.
  - apply (vd_u32_put _ 48); lia.
Qed.

Lemma demo_header_facts :
  is_header demo_header /\ header_valid demo_header = true /\ vd_mirror_tid demo_header = 1
  /\ vd_volu_size demo_header = 2 ^ 32 /\ vd_magic demo_header = HAMMER2_VOLUME_ID_HBO.
Proof.
  destruct demo_voldata_facts as (Hm & Hs & Ht & _).
  destruct (sync_volume_facts demo_voldata 1 demo_is_header Hm ltac:(lia)) as (A & B & C & D).
  rewrite Ht in C. rewrite Hs in D. split; [exact A|]. split; [exact B|]. split; [exact C|]. split; [exact D|].
  exact (header_valid_magic _ B).
Qed.

Lemma demo_file : file_of demo_disk 1 = demo_header.
Proof.
  unfold file_of, demo_disk. generalize demo_header. intros h. cbn [s_files].
  rewrite lookup_singleton_eq. reflexivity.
Qed.

Lemma demo_copy_0 : header_copy demo_disk 1 0 = demo_header.
Proof.
  destruct demo_header_facts as ([Hl _] & _). unfold alen in Hl. revert Hl. unfold header_copy. rewrite demo_file.
  generalize demo_header. intros h Hl. apply fbyte_ext; rewrite fread_length; [lia|].
  intros j Hj. rewrite fbyte_fread by lia. f_equal.
Qed.

Lemma demo_copy_other i : 0 < i < 4 -> header_valid (header_copy demo_disk 1 i) = false.
Proof.
  intros Hi. destruct demo_header_facts as ([Hl _] & _). unfold alen in Hl. revert Hl.
  unfold header_copy. rewrite demo_file. generalize demo_header. intros h Hl.
  assert (E : fread h (i * HAMMER2_ZONE_BYTES64) HAMMER2_VOLUME_BYTES = zero_header).
  { unfold zero_header. apply fbyte_ext; rewrite fread_length, ?length_replicate; [lia|]. intros j Hj.
    rewrite fbyte_fread by lia. unfold fbyte. rewrite lookup_replicate_2 by lia.
    rewrite lookup_ge_None_2 by lia. reflexivity. }
  rewrite E. apply not_true_is_false. intros Hu. apply header_valid_magic in Hu. revert Hu.
  unfold vd_magic, vd_u64, vd_bytes, zero_header. rewrite drop_replicate, take_replicate, Nat.min_l by lia.
  discriminate.
Qed.

Lemma demo_newest : newest demo_disk 1 (2 ^ 32) 4 0 demo_header.
Proof.
  destruct demo_header_facts as (_ & Hv & _).
  right. split; [lia|]. split; [split; [lia|rewrite demo_copy_0; exact Hv]|].
  split; [symmetry; exact demo_copy_0|]. intros i Hi [_ Hu].
  destruct (decide (i = 0)) as [->|]; [rewrite demo_copy_0; lia|].
  rewrite demo_copy_other in Hu by lia. discriminate Hu.
Qed.

Lemma read_header_best_witness :
  (0 = - EINVAL /\ forall i, 0 <= i < 4 -> ~ usable demo_disk 1 (2 ^ 32) i)
  \/ (0 <= 0 < 4 /\ usable demo_disk 1 (2 ^ 32) 0 /\ demo_header = header_copy demo_disk 1 0
      /\ forall i, 0 <= i < 4 -> usable demo_disk 1 (2 ^ 32) i ->
           vd_mirror_tid (header_copy demo_disk 1 i) <= vd_mirror_tid demo_header
           /\ (i < 0 -> vd_mirror_tid (header_copy demo_disk 1 i) < vd_mirror_tid demo_header)).
Proof.
  exact (read_header_best (WL := demo_win32_laws) demo_disk 1 (2 ^ 32) [] 0 demo_header
    (read_is (WL := demo_win32_laws) demo_disk 1 (2 ^ 32) [] 0 demo_header ltac:(lia) demo_newest)).
Defined.

Lemma header_commit_atomic_witness :
  let new := sync_volume demo_header 2 in
  next_volhdr 0 (vd_volu_size new) <> 0
  /\ (hammer2_read_volume_header (W := demo_win32)
        (torn (W := demo_win32) demo_disk 1 (next_volhdr 0 (vd_volu_size new)) new 16) 1 (2 ^ 32) []
      = (next_volhdr 0 (vd_volu_size new), new)).
Proof.
  destruct demo_header_facts as (Hh & Hv & Ht & Hs & Hm). cbn zeta.
  destruct (sync_volume_facts demo_header 2 Hh Hm ltac:(lia)) as (Hnh & _ & _ & Hvs). rewrite Hs in Hvs.
  destruct (next_volhdr_spec 0 (vd_volu_size (sync_volume demo_header 2)) ltac:(lia)) as (Hj & _).
  pose proof (header_commit_atomic (WL := demo_win32_laws) demo_disk 1 (2 ^ 32) [] 0 demo_header demo_header 2 16
    (read_is (WL := demo_win32_laws) demo_disk 1 (2 ^ 32) [] 0 demo_header ltac:(lia) demo_newest)
    ltac:(lia) Hh Hm ltac:(lia) ltac:(rewrite Ht; lia) ltac:(rewrite Hs; lia)) as H. cbn zeta in H.
  destruct (torn_copies (WL := demo_win32_laws) demo_disk 1 _ (sync_volume demo_header 2) 16 Hj (proj1 Hnh) ltac:(lia))
    as [_ Hfull].
  destruct (H ltac:(lia) (fun _ => or_intror (Hfull eq_refl))) as (A & _ & B).
  split; [exact A|]. destruct (B eq_refl) as [_ C]. exact C.
Defined.
