(* ===== verification/VolumeTable.v ===== *)
(** The volume table that [hammer2_init_volumes] accepts: its volumes tile the
    address space of the file system, so the search of the buffer cache is
    total and unambiguous below [hmp->total_size]. *)

From Stdlib Require Import ZArith Lia Bool Zdiv.
From stdpp Require Import base numbers list option gmap.
From S2P Require Import Prelude Disk Crc Subr Check Io IoLemmas IoSpec Volumes VolumesProof.

Definition empty_vol : hvolume := Hvolume None (- 1) OFF_NONE OFF_NONE.

(** Slot [i] of the table: unused, or volume [i] on one of the devices. *)
Definition slot_ok (devs : list devvp) (i : Z) (v : hvolume) : Prop :=
  v = empty_vol
  \/ (vo_id v = i /\ 0 <= i /\ 0 <= vo_offset v < 2 ^ 64 /\ 0 <= vo_size v < 2 ^ 64
      /\ exists e b, e ∈ devs /\ vo_dev v = Some e /\ e_bdev e = Some b).

Fixpoint table_ok (devs : list devvp) (i : Z) (vols : list hvolume) : Prop :=
  match vols with
  | [] => True
  | v :: vols => slot_ok devs i v /\ table_ok devs (i + 1) vols
  end.

(** [vols] covers [o, e) without a gap. *)
Inductive tiled : Z -> list hvolume -> Z -> Prop :=
| tiled_nil o : tiled o [] o
| tiled_cons v vols e :
    0 <= vo_offset v -> (2 ^ 30 | vo_offset v) -> 0 < vo_size v -> (2 ^ 23 | vo_size v) ->
    tiled (vo_offset v + vo_size v) vols e -> tiled (vo_offset v) (v :: vols) e.

(** * Searching a tiled table *)

Lemma tiled_le o vols e : tiled o vols e -> o <= e.
Proof. induction 1; lia. Qed.

Lemma tst_mask x k : 0 <= k -> tst x (Z.ones k) = false -> (2 ^ k | x).
Proof.
  intros Hk H. apply tst_false in H. rewrite land_ones_mod in H by exact Hk.
  apply Z.mod_divide; [pose proof (pow2_pos k Hk); lia|exact H].
Qed.

(** The predicate of the search, without wrap-around. *)
Definition covers (v : hvolume) (off : Z) : Prop := vo_offset v <= off < vo_offset v + vo_size v.

Lemma tiled_bounds o vols e v :
  tiled o vols e -> v ∈ vols -> o <= vo_offset v /\ vo_offset v + vo_size v <= e
    /\ (2 ^ 30 | vo_offset v) /\ (2 ^ 23 | vo_size v) /\ 0 <= vo_offset v.
Proof.
  induction 1 as [|w vols e H0 Hd Hs Hd' H IH]; intros Hv; [apply not_elem_of_nil in Hv; contradiction|].
  pose proof (tiled_le _ _ _ H). apply elem_of_cons in Hv as [->|Hv]; [repeat split; (assumption || lia)|].
  destruct (IH Hv) as (A & B & C & D & F). repeat split; (assumption || lia).
Qed.

Lemma tiled_find o vols e off :
  tiled o vols e -> e < 2 ^ 64 -> o <= off < e ->
  exists i v, vols !! i = Some v /\ covers v off
    /\ list_find (fun w => v_offset w <= off /\ off < u64 (v_offset w + v_size w)) (map io_volume vols)
       = Some (i, io_volume v).
Proof.
  induction 1 as [|w vols e H0 Hd Hs Hd' H IH]; intros He Hoff; [lia|].
  pose proof (tiled_le _ _ _ H) as Hle. cbn [map list_find io_volume v_offset v_size].
  rewrite u64_small by lia. destruct (decide (off < vo_offset w + vo_size w)) as [Hc|Hc].
  - exists 0%nat, w. split; [reflexivity|]. split; [unfold covers; lia|]. rewrite decide_True by lia. reflexivity.
  - destruct (IH He ltac:(lia)) as (i & v & Hv & Hcov & E). exists (S i), v. split; [exact Hv|].
    split; [exact Hcov|]. rewrite decide_False by lia. rewrite E. reflexivity.
Qed.

Lemma tiled_unique o vols e i j v w off :
  tiled o vols e -> vols !! i = Some v -> vols !! j = Some w -> covers v off -> covers w off -> i = j.
Proof.
  intros H. revert i j. induction H as [|u vols e H0 Hd Hs Hd' H IH]; intros i j Hi Hj Hv Hw; [discriminate Hi|].
  destruct i as [|i], j as [|j]; cbn in Hi, Hj; [reflexivity| | |f_equal; exact (IH i j Hi Hj Hv Hw)].
  - injection Hi as ->. apply list_elem_of_lookup_2 in Hj. pose proof (tiled_bounds _ _ _ _ H Hj). unfold covers in *. lia.
  - injection Hj as ->. apply list_elem_of_lookup_2 in Hi. pose proof (tiled_bounds _ _ _ _ H Hi). unfold covers in *. lia.
Qed.

Lemma tiled_get_volume vols e off :
  tiled 0 vols e -> e < 2 ^ 64 -> 0 <= off < e ->
  exists v, hammer2_get_volume (map io_volume vols) off = Done v /\ v_offset v <= off < v_offset v + v_size v.
Proof.
  intros H He Hoff. unfold hammer2_get_volume. change HAMMER2_OFF_MASK_RADIX with (Z.ones 6).
  rewrite ldiff_ones_sub by lia. pose proof (mod_pow2_range off 6 ltac:(lia)) as Hm.
  set (off' := off - off mod 2 ^ 6).
  assert (H0' : 0 <= off') by (unfold off'; pose proof (Z.mod_le off (2 ^ 6)); lia).
  destruct (tiled_find 0 vols e off' H He ltac:(lia)) as (i & v & Hv & Hcov & E). rewrite E.
  exists (io_volume v). split; [reflexivity|]. cbn [io_volume v_offset v_size]. unfold covers in Hcov.
  apply list_elem_of_lookup_2 in Hv. destruct (tiled_bounds _ _ _ _ H Hv) as (_ & _ & [q Hq] & [r Hr] & _).
  assert (E' : off' = 64 * (off / 64)) by (unfold off'; change (2 ^ 6) with 64; rewrite (Z.mod_eq off 64) by lia; lia).
  change (2 ^ 6) with 64 in *. unfold off' in *. lia.
Qed.

(** * What the checks establish *)

Lemma common_loop_ok vols v :
  volumes_common_loop vols = Done 0 -> v ∈ vols -> vo_id v <> - 1 ->
  exists e, vo_dev v = Some e /\ 0 <> vo_size v /\ vo_size v <= e_size e.
Proof.
  induction vols as [|w vols IH]; intros H Hv Hid; [apply not_elem_of_nil in Hv; contradiction|].
  cbn in H. destruct (Z.eqb_spec (vo_id w) (- 1)) as [Hw|Hw].
  { apply elem_of_cons in Hv as [->|Hv]; [contradiction|exact (IH H Hv Hid)]. }
  destruct (vo_dev w) as [e|] eqn:Hd; [|discriminate H]. destruct (e_bdev e); [|discriminate H].
  destruct (vo_offset w =? OFF_NONE); [discriminate H|]. destruct (vo_size w =? OFF_NONE); [discriminate H|].
  destruct (Z.ltb_spec (e_size e) (vo_size w)); [discriminate H|].
  destruct (Z.eqb_spec (vo_size w) 0); [discriminate H|].
  apply elem_of_cons in Hv as [->|Hv]; [exists e; auto with lia|exact (IH H Hv Hid)].
Qed.

(** Nothing follows an unused slot. *)
Lemma loop_2_empty devs root vols : forall i,
  0 <= i -> table_ok devs i vols -> volumes_2_loop root i (Some empty_vol) vols = Done 0 ->
  Forall (fun v => v = empty_vol) vols.
Proof.
  induction vols as [|v vols IH]; intros i Hi Ht H; [constructor|]. destruct Ht as [Hs Ht].
  assert (v = empty_vol) as ->; [|constructor; [reflexivity|]; cbn in H; exact (IH (i + 1) ltac:(lia) Ht H)].
  destruct Hs as [Hs|(Hid & _ & Ho & _ & e & b & _ & He & _)]; [exact Hs|]. exfalso.
  cbn [volumes_2_loop] in H. destruct (Z.eqb_spec (vo_id v) (- 1)); [lia|]. rewrite He in H.
  destruct (tst (vo_offset v) HAMMER2_FREEMAP_LEVEL1_MASK) eqn:Hm; [discriminate H|].
  cbn [empty_vol vo_id vo_offset vo_size] in H.
  destruct (Z.leb_spec (vo_id v) (- 1)); [discriminate H|].
  destruct (Z.eqb_spec (vo_offset v) (u64 (OFF_NONE + OFF_NONE))) as [E|]; [|discriminate H].
  rewrite E in Hm. discriminate Hm.
Qed.

(** The end of the previous volume. *)
Definition prev_end (prev : option hvolume) (o : Z) : Prop :=
  match prev with
  | None => o = 0
  | Some p => vo_offset p + vo_size p = o
  end.

Lemma loop_2_tiled devs root vols : forall i prev o,
  Forall (fun e => e_size e <= 2 ^ 57) devs ->
  0 <= i -> i + alen vols = 64 -> table_ok devs i vols -> prev_end prev o -> 0 <= o <= i * 2 ^ 57 ->
  volumes_common_loop vols = Done 0 -> volumes_2_loop root i prev vols = Done 0 ->
  exists inits rest e, vols = inits ++ rest /\ Forall (fun v => v = empty_vol) rest
    /\ Forall (fun v => vo_id v <> - 1) inits /\ tiled o inits e /\ e <= 2 ^ 63.
Proof.
  induction vols as [|v vols IH]; intros i prev o Hdev Hi Hlen Ht Hp Ho Hc H.
  { exists [], [], o. unfold alen in Hlen. cbn in Hlen. repeat split; try constructor. lia. }
  destruct Ht as [Hs Ht].
  unfold alen in Hlen. cbn [length] in Hlen. rewrite Nat2Z.inj_succ in Hlen. fold (alen vols) in Hlen.
  assert (0 <= alen vols) by (unfold alen; lia).
  destruct Hs as [->|(Hid & _ & Ho' & Hs' & e & b & He & Hve & _)].
  { exists [], (empty_vol :: vols), o. cbn in H. repeat split; try constructor; try reflexivity; [|lia].
    exact (loop_2_empty devs root vols (i + 1) ltac:(lia) Ht H). }
  destruct (common_loop_ok (v :: vols) v Hc ltac:(left) ltac:(lia)) as (e' & He' & Hnz & Hle).
  assert (e' = e) as -> by congruence. rewrite Forall_forall in Hdev. pose proof (Hdev e He) as Hmax.
  cbn [volumes_2_loop volumes_common_loop] in H, Hc. destruct (Z.eqb_spec (vo_id v) (- 1)); [lia|].
  rewrite Hve in H, Hc. destruct (e_bdev e); [|discriminate Hc].
  destruct (vo_offset v =? OFF_NONE); [discriminate Hc|]. destruct (vo_size v =? OFF_NONE); [discriminate Hc|].
  destruct (e_size e <? vo_size v); [discriminate Hc|]. destruct (vo_size v =? 0); [discriminate Hc|].
  destruct (tst (vo_offset v) HAMMER2_FREEMAP_LEVEL1_MASK) eqn:Hal; [discriminate H|].
  assert (Hoff : vo_offset v = o).
  { destruct prev as [p|]; cbn in Hp, H.
    - destruct (vo_id v <=? vo_id p); [discriminate H|]. rewrite Hp, u64_small in H by lia.
      destruct (Z.eqb_spec (vo_offset v) o); [assumption|discriminate H].
    - destruct (Z.eqb_spec (vo_offset v) 0); [lia|discriminate H]. }
  destruct (match prev with Some _ => _ | None => _ end); [discriminate H|].
  assert (Hsz : (2 ^ 23 | vo_size v) /\ volumes_2_loop root (i + 1) (Some v) vols = Done 0).
  { destruct (negb (i =? vd_nvolumes root - 1)).
    - destruct (vo_size v <? HAMMER2_FREEMAP_LEVEL1_SIZE); [discriminate H|].
      destruct (tst (vo_size v) HAMMER2_FREEMAP_LEVEL1_MASK) eqn:Hm; [discriminate H|]. split; [|exact H].
      apply (tst_mask _ 30 ltac:(lia)) in Hm as [q ->]. exists (q * 2 ^ 7). lia.
    - destruct (tst (vo_size v) HAMMER2_VOLUME_ALIGNMASK64) eqn:Hm; [discriminate H|]. split; [|exact H].
      exact (tst_mask _ 23 ltac:(lia) Hm). }
  destruct Hsz as [Hd23 H'].
  destruct (IH (i + 1) (Some v) (o + vo_size v)) as (inits & rest & en & -> & Hr & Hin & Htl & Hen);
    [apply Forall_forall; exact Hdev|lia|lia|exact Ht|cbn; lia|lia|exact Hc|exact H'|].
  exists (v :: inits), rest, en. split; [reflexivity|]. split; [exact Hr|]. split; [constructor; [lia|exact Hin]|].
  split; [|exact Hen]. rewrite <- Hoff in Htl |- *. constructor; try assumption; try lia.
  exact (tst_mask _ 30 ltac:(lia) Hal).
Qed.

Lemma initialized_split inits rest :
  Forall (fun v => v = empty_vol) rest -> Forall (fun v => vo_id v <> - 1) inits ->
  initialized (inits ++ rest) = inits.
Proof.
  intros Hr Hi. unfold initialized. rewrite filter_app.
  assert (E1 : filter (fun vol => vo_id vol <> - 1) inits = inits).
  { clear Hr. induction Hi as [|v l Hv _ IH]; [reflexivity|]. rewrite filter_cons_True by exact Hv. rewrite IH. reflexivity. }
  assert (E2 : filter (fun vol => vo_id vol <> - 1) rest = []).
  { clear E1 Hi. induction Hr as [|v l -> _ IH]; [reflexivity|]. rewrite filter_cons_False by (cbn; lia). exact IH. }
  rewrite E1, E2. apply app_nil_r.
Qed.

Lemma tiled_sum o vols e :
  tiled o vols e -> 0 <= o -> e < 2 ^ 64 -> foldl (fun total vol => u64 (total + vo_size vol)) o vols = e.
Proof.
  induction 1 as [|v vols e H0 Hd Hs Hd' H IH]; intros Ho He; [reflexivity|].
  pose proof (tiled_le _ _ _ H). cbn [foldl]. rewrite u64_small by lia. apply IH; lia.
Qed.

Lemma table_ok_lookup devs vols : forall i,
  table_ok devs i vols <-> forall k v, vols !! k = Some v -> slot_ok devs (i + Z.of_nat k) v.
Proof.
  induction vols as [|w vols IH]; intros i; [split; [intros _ k v Hk; discriminate Hk|exact (fun _ => I)]|].
  cbn [table_ok]. rewrite IH. split.
  - intros [Hs H] [|k] v Hk; cbn in Hk.
    + injection Hk as <-. replace (i + Z.of_nat 0) with i by lia. exact Hs.
    + replace (i + Z.of_nat (S k)) with (i + 1 + Z.of_nat k) by lia. exact (H k v Hk).
  - intros H. split; [replace i with (i + Z.of_nat 0) by lia; apply (H 0%nat); reflexivity|].
    intros k v Hk. replace (i + 1 + Z.of_nat k) with (i + Z.of_nat (S k)) by lia. exact (H (S k) v Hk).
Qed.

Lemma table_ok_aset devs vols i v :
  table_ok devs 0 vols -> 0 <= i -> slot_ok devs i v -> table_ok devs 0 (aset vols i v).
Proof.
  rewrite !table_ok_lookup. intros H Hi Hv k w Hk. unfold aset in Hk.
  destruct (decide (Z.to_nat i = k)) as [<-|Hne].
  - rewrite list_lookup_insert in Hk. case_decide as Hd; [|apply lookup_lt_Some in Hk; exfalso; apply Hd; auto].
    injection Hk as <-.
    replace (0 + Z.of_nat (Z.to_nat i)) with i by lia. exact Hv.
  - rewrite list_lookup_insert_ne in Hk by exact Hne. exact (H k w Hk).
Qed.

(** * Building the table *)

Section init.
Context {W : Win32}.

(** The table so far; once the root header is there, slot 0 describes it. *)
Record ivol_ok (devs : list devvp) (t : ivol) : Prop := {
  io_len : alen (iv_volumes t) = 64;
  io_table : table_ok devs 0 (iv_volumes t);
  io_root : vd_version (iv_root t) = 0
            \/ (vo_id (aget (iv_volumes t) 0) = 0
                /\ vo_size (aget (iv_volumes t) 0) = vd_volu_size (iv_root t))
}.

Lemma init_ivol_ok devs : ivol_ok devs init_ivol.
Proof.
  constructor; [reflexivity| |].
  - rewrite table_ok_lookup. intros k v Hk. unfold init_ivol in Hk. cbn [iv_volumes] in Hk.
    apply lookup_replicate in Hk as [-> _]. left. reflexivity.
  - left. unfold init_ivol, vd_version, vd_u32, vd_bytes. cbn [iv_root].
    rewrite drop_replicate, take_replicate. reflexivity.
Qed.

Lemma vd_u64_range vd off : 0 <= vd_u64 vd off < 2 ^ 64.
Proof. apply u64_range. Qed.

Lemma init_volume_ok s devs e t t' :
  e ∈ devs -> ivol_ok devs t -> init_volume s e t = Done (0, t') -> ivol_ok devs t'.
Proof.
  intros He [Hl Ht Hr] H. unfold init_volume in H. destruct (e_bdev e) as [b|] eqn:Hb; [|discriminate H].
  destruct (hammer2_read_volume_header s b (e_size e) (iv_voldata t)) as [zone vd].
  cbn [iv_volumes iv_voldata iv_root iv_zone iv_rootdev iv_ref] in H. set (id := vd_volu_id vd) in *.
  destruct (Z.ltb_spec zone 0); [injection H; lia|].
  destruct (Z.leb_spec HAMMER2_MAX_VOLUMES id); [discriminate H|].
  destruct (Z.eqb_spec (vo_id (aget (iv_volumes t) id)) (- 1)) as [Hfree|]; cbn [negb] in H; [|discriminate H].
  destruct (negb (same_header _ _)); [discriminate H|].
  destruct ((_ <? HAMMER2_VOL_VERSION_MIN) || _); [discriminate H|].
  set (v := Hvolume (Some e) id (vd_volu_loff vd id) (vd_volu_size vd)) in *.
  assert (Hid : 0 <= id < 64) by (pose proof (u8_range (le_value (vd_bytes vd 59 1))); unfold id, vd_volu_id, vd_u8 in *; lia).
  assert (Hv : slot_ok devs id v).
  { right. split; [reflexivity|]. split; [lia|]. split; [apply vd_u64_range|]. split; [apply vd_u64_range|].
    exists e, b. auto. }
  assert (Ht' := table_ok_aset devs _ id v Ht ltac:(lia) Hv).
  assert (Hl' : alen (aset (iv_volumes t) id v) = 64) by (rewrite alen_aset; exact Hl).
  destruct (Z.eqb_spec id HAMMER2_ROOT_VOLUME) as [E|E].
  - destruct (iv_rootdev t); [discriminate H|]. cbn [kassert obind] in H. injection H as <-.
    constructor; cbn [iv_volumes iv_root]; [exact Hl'|exact Ht'|]. right. rewrite E in Hl' |- *.
    rewrite aget_aset_eq by lia. split; [exact E|reflexivity].
  - injection H as <-. constructor; cbn [iv_volumes iv_root]; [exact Hl'|exact Ht'|].
    rewrite aget_aset_ne by lia. exact Hr.
Qed.

Lemma init_loop_ok s devs l : forall t t',
  (forall e, e ∈ l -> e ∈ devs) -> ivol_ok devs t -> init_loop s l t = Done (0, t') -> ivol_ok devs t'.
Proof.
  induction l as [|e l IH]; intros t t' Hl Ht H; [injection H as <-; exact Ht|].
  cbn [init_loop] in H. apply obind_Done in H as ([err t1] & E & H).
  destruct (Z.eqb_spec err 0) as [->|Hne]; cbn [negb] in H; [|injection H; congruence].
  apply (IH t1 t'); [intros x Hx; apply Hl; right; exact Hx| |exact H].
  exact (init_volume_ok s devs e t t1 (Hl e ltac:(left)) Ht E).
Qed.

(** What both versions of the check leave. *)
Definition geometry_ok (devs : list devvp) (t : ivol) (n total : Z) (inits : list hvolume) : Prop :=
  mount_geometry (iv_root t) = Done (n, total)
  /\ take (Z.to_nat n) (iv_volumes t) = inits /\ tiled 0 inits total /\ total <= 2 ^ 63
  /\ forall v, v ∈ inits -> exists e b, e ∈ devs /\ vo_dev v = Some e /\ e_bdev e = Some b /\ vo_size v <= e_size e.

(** The device of an initialised slot. *)
Lemma slot_device devs t v :
  ivol_ok devs t -> volumes_common_loop (iv_volumes t) = Done 0 -> v ∈ iv_volumes t -> vo_id v <> - 1 ->
  exists e b, e ∈ devs /\ vo_dev v = Some e /\ e_bdev e = Some b /\ vo_size v <= e_size e.
Proof.
  intros [_ Ht _] Hc Hv Hid. destruct (common_loop_ok _ v Hc Hv Hid) as (e & He & _ & Hle).
  apply list_elem_of_lookup in Hv as [k Hk]. rewrite table_ok_lookup in Ht.
  destruct (Ht k v Hk) as [->|(_ & _ & _ & _ & e' & b & Hin & He' & Hb)]; [cbn in Hid; lia|].
  assert (e' = e) as -> by congruence. eauto 8.
Qed.

Lemma verify_2_geometry devs t :
  Forall (fun e => e_size e <= 2 ^ 57) devs -> ivol_ok devs t -> vd_version (iv_root t) <> 0 ->
  volumes_common_loop (iv_volumes t) = Done 0 -> HAMMER2_VOL_VERSION_MULTI_VOLUMES <= vd_version (iv_root t) ->
  hammer2_verify_volumes_2 (iv_volumes t) (iv_root t) = Done 0 ->
  exists n total inits, geometry_ok devs t n total inits.
Proof.
  intros Hdev Hok Hver Hc Hmulti H. pose proof Hok as [Hl Ht Hr].
  unfold hammer2_verify_volumes_2 in H.
  destruct (Z.eqb_spec (vd_nvolumes (iv_root t)) (count_volumes (iv_volumes t))) as [En|]; [|discriminate H].
  destruct (Z.eqb_spec (vd_total_size (iv_root t)) (sum_sizes (iv_volumes t))) as [Et|]; [|discriminate H].
  cbn [negb] in H. destruct (existsb _ _); [discriminate H|]. destruct (existsb _ _); [discriminate H|].
  destruct (loop_2_tiled devs (iv_root t) (iv_volumes t) 0 None 0 Hdev ltac:(lia) ltac:(lia) Ht eq_refl ltac:(lia) Hc H)
    as (inits & rest & e & Ev & Hrest & Hin & Htl & Hle).
  assert (Ei : initialized (iv_volumes t) = inits) by (rewrite Ev; apply initialized_split; assumption).
  unfold count_volumes in En. rewrite Ei in En.
  unfold sum_sizes in Et. rewrite Ei, (tiled_sum 0 inits e Htl) in Et by lia.
  assert (Hn : inits <> []).
  { intros ->. destruct Hr as [Hr|[Hr _]]; [contradiction|]. cbn in Ev. rewrite Ev in Hr, Hl.
    destruct rest as [|r rest]; [discriminate Hl|]. inversion Hrest; subst. discriminate Hr. }
  exists (alen inits), e, inits. unfold geometry_ok, mount_geometry, alen in *.
  destruct (Z.leb_spec HAMMER2_VOL_VERSION_MULTI_VOLUMES (vd_version (iv_root t))); [|lia].
  rewrite En, Et. cbn [fst]. split; [|split; [|split; [exact Htl|split; [exact Hle|]]]].
  - destruct inits; [contradiction|]. reflexivity.
  - rewrite Nat2Z.id, Ev. apply take_app_length.
  - intros v Hv. apply (slot_device devs t); [exact Hok|exact Hc|rewrite Ev; apply elem_of_app; auto|].
    rewrite Forall_forall in Hin. exact (Hin v Hv).
Qed.

Lemma verify_1_geometry devs t :
  Forall (fun e => e_size e <= 2 ^ 57) devs -> ivol_ok devs t -> vd_version (iv_root t) <> 0 ->
  volumes_common_loop (iv_volumes t) = Done 0 -> vd_version (iv_root t) < HAMMER2_VOL_VERSION_MULTI_VOLUMES ->
  hammer2_verify_volumes_1 (iv_volumes t) (iv_root t) = Done 0 ->
  exists n total inits, geometry_ok devs t n total inits.
Proof.
  intros Hdev Hok Hver Hc Hmulti H. pose proof Hok as [Hl Ht Hr].
  unfold hammer2_verify_volumes_1 in H. destruct (negb (_ =? 1)); [discriminate H|].
  destruct (negb _); [discriminate H|]. destruct (negb _); [discriminate H|].
  destruct (existsb _ _); [discriminate H|]. apply obind_Done in H as (u & _ & H).
  destruct Hr as [Hr|[Hid Hsz]]; [contradiction|].
  set (v := aget (iv_volumes t) 0) in *. rewrite Hid in H. cbn [Z.eqb negb] in H.
  destruct (Z.eqb_spec (vo_offset v) 0) as [Ho|]; cbn [negb] in H; [|discriminate H].
  destruct (tst (vo_size v) HAMMER2_VOLUME_ALIGNMASK64) eqn:Hal; [discriminate H|].
  assert (Hin : v ∈ iv_volumes t) by (apply aget_elem; lia).
  destruct (common_loop_ok _ v Hc Hin ltac:(lia)) as (e & _ & Hnz & _).
  destruct (slot_device devs t v Hok Hc Hin ltac:(lia)) as (e' & b & He & Hd & Hb & Hle).
  rewrite Forall_forall in Hdev. pose proof (Hdev e' He) as Hmax. pose proof (vd_u64_range (iv_root t) 40).
  exists 1, (vo_size v), [v]. unfold geometry_ok, mount_geometry.
  destruct (Z.leb_spec HAMMER2_VOL_VERSION_MULTI_VOLUMES (vd_version (iv_root t))); [lia|].
  rewrite <- Hsz. cbn [fst]. split; [reflexivity|]. split; [|split; [|split; [lia|]]].
  - unfold v, aget. destruct (iv_volumes t); [discriminate Hl|reflexivity].
  - rewrite <- Ho. constructor; rewrite ?Ho; [lia|exists 0; lia| | |constructor].
    + unfold vd_volu_size in Hsz. fold v in Hnz. lia.
    + exact (tst_mask _ 23 ltac:(lia) Hal).
  - intros w Hw. apply list_elem_of_singleton in Hw as ->. eauto 8.
Qed.

Lemma init_volumes_geometry s devs t :
  Forall (fun e => e_size e <= 2 ^ 57) devs -> hammer2_init_volumes s devs = Done (0, t) ->
  exists n total inits, geometry_ok devs t n total inits.
Proof.
  intros Hdev H. unfold hammer2_init_volumes in H. apply obind_Done in H as ([err t1] & E & H).
  destruct (Z.eqb_spec err 0) as [->|Hne]; cbn [negb] in H; [|injection H; congruence].
  destruct (Z.eqb_spec (vd_version (iv_root t1)) 0) as [|Hver]; [discriminate H|].
  apply obind_Done in H as (err & Hv & H). injection H as -> ->.
  pose proof (init_loop_ok s devs devs _ _ (fun _ H => H) (init_ivol_ok devs) E) as Hok.
  unfold hammer2_verify_volumes in Hv. apply obind_Done in Hv as (err & Hc & Hv).
  destruct (Z.eqb_spec err 0) as [->|Hne]; cbn [negb] in Hv; [|injection Hv; congruence].
  unfold hammer2_verify_volumes_common in Hc. destruct (negb _); [discriminate Hc|].
  destruct (Z.leb_spec HAMMER2_VOL_VERSION_MULTI_VOLUMES (vd_version (iv_root t))).
  - exact (verify_2_geometry devs t Hdev Hok Hver Hc ltac:(assumption) Hv).
  - exact (verify_1_geometry devs t Hdev Hok Hver Hc ltac:(assumption) Hv).
Qed.

(** * Each device fills one slot *)

Definition bdev_of (v : hvolume) : option Z := vo_dev v ≫= e_bdev.

Definition distinct (seen : list Z) (vols : list hvolume) : Prop :=
  (forall v b, v ∈ vols -> bdev_of v = Some b -> b ∈ seen)
  /\ forall i j v w b, vols !! i = Some v -> vols !! j = Some w ->
       bdev_of v = Some b -> bdev_of w = Some b -> i = j.

Lemma distinct_aset seen vols i v b :
  distinct seen vols -> bdev_of v = Some b -> b ∉ seen -> distinct (b :: seen) (aset vols i v).
Proof.
  intros [Hs Hd] Hb Hn. unfold aset.
  assert (Hold : forall k w, <[Z.to_nat i := v]> vols !! k = Some w ->
    (k = Z.to_nat i /\ w = v) \/ (k <> Z.to_nat i /\ vols !! k = Some w)).
  { intros k w Hk. rewrite list_lookup_insert in Hk. case_decide as Hc; [injection Hk as <-; left; split; [lia|reflexivity]|].
    destruct (decide (k = Z.to_nat i)) as [->|Hne]; [|right; auto]. exfalso. apply lookup_lt_Some in Hk. apply Hc. auto. }
  split.
  - intros w c Hw Hc. apply list_elem_of_lookup in Hw as [k Hk].
    destruct (Hold k w Hk) as [[_ ->]|[_ Hk']]; [assert (c = b) as -> by congruence; left|].
    right. apply (Hs w c); [exact (list_elem_of_lookup_2 _ _ _ Hk')|exact Hc].
  - intros j k w x c Hj Hk Hw Hx.
    destruct (Hold j w Hj) as [[-> ->]|[Hj1 Hj2]], (Hold k x Hk) as [[-> ->]|[Hk1 Hk2]]; try congruence.
    + destruct Hn. assert (c = b) as -> by congruence. exact (Hs x b (list_elem_of_lookup_2 _ _ _ Hk2) Hx).
    + destruct Hn. assert (c = b) as -> by congruence. exact (Hs w b (list_elem_of_lookup_2 _ _ _ Hj2) Hw).
    + exact (Hd j k w x c Hj2 Hk2 Hw Hx).
Qed.

Lemma init_loop_distinct s l : forall seen t t',
  distinct seen (iv_volumes t) -> NoDup (omap e_bdev l) -> (forall b, b ∈ omap e_bdev l -> b ∉ seen) ->
  init_loop s l t = Done (0, t') -> exists seen', distinct seen' (iv_volumes t').
Proof.
  induction l as [|e l IH]; intros seen t t' Hd Hnd Hfresh H; [injection H as <-; eauto|].
  cbn [init_loop] in H. apply obind_Done in H as ([err t1] & E & H).
  destruct (Z.eqb_spec err 0) as [->|Hne]; cbn [negb] in H; [|injection H; congruence].
  unfold init_volume in E. destruct (e_bdev e) as [b|] eqn:Hb; [|discriminate E].
  cbn [omap list_omap] in Hnd, Hfresh. rewrite Hb in Hnd, Hfresh. apply NoDup_cons in Hnd as [Hnb Hnd].
  destruct (hammer2_read_volume_header s b (e_size e) (iv_voldata t)) as [zone vd].
  cbn [iv_volumes iv_voldata iv_root iv_zone iv_rootdev iv_ref] in E.
  destruct (zone <? 0) eqn:Ez; [apply Z.ltb_lt in Ez; injection E; lia|].
  destruct (HAMMER2_MAX_VOLUMES <=? _); [discriminate E|]. destruct (negb (_ =? - 1)); [discriminate E|].
  destruct (negb (same_header _ _)); [discriminate E|]. destruct ((_ <? _) || _); [discriminate E|].
  set (v := Hvolume (Some e) _ _ _) in E.
  assert (Hv : bdev_of v = Some b) by exact Hb.
  assert (Hd' : distinct (b :: seen) (iv_volumes t1)).
  { destruct (_ =? HAMMER2_ROOT_VOLUME).
    - destruct (iv_rootdev t); [discriminate E|]. injection E as <-. apply distinct_aset; [exact Hd|exact Hv|].
      apply Hfresh. left.
    - injection E as <-. apply distinct_aset; [exact Hd|exact Hv|]. apply Hfresh. left. }
  apply (IH (b :: seen) t1 t' Hd' Hnd); [|exact H]. intros c Hc Hin. apply elem_of_cons in Hin as [->|Hin];
    [contradiction|]. apply (Hfresh c); [right; exact Hc|exact Hin].
Qed.

Lemma init_distinct : distinct [] (iv_volumes init_ivol).
Proof.
  unfold init_ivol. cbn [iv_volumes]. split.
  - intros v b Hv Hb. apply list_elem_of_lookup in Hv as [k Hk]. apply lookup_replicate in Hk as [-> _]. discriminate Hb.
  - intros i j v w b Hi Hj Hb. apply lookup_replicate in Hi as [-> _]. discriminate Hb.
Qed.

Lemma mounted_nodup seen vols n :
  distinct seen vols -> (forall v, v ∈ take n vols -> exists b, bdev_of v = Some b) ->
  NoDup (map v_bdev (map io_volume (take n vols))).
Proof.
  intros [_ Hd] Hb. rewrite map_map. apply NoDup_alt. intros i j x Hi Hj.
  apply list_lookup_fmap_Some in Hi as (v & -> & Hv). apply list_lookup_fmap_Some in Hj as (w & E & Hw).
  destruct (Hb v (list_elem_of_lookup_2 _ _ _ Hv)) as [b Eb]. destruct (Hb w (list_elem_of_lookup_2 _ _ _ Hw)) as [c Ec].
  cbn [io_volume v_bdev] in E. unfold bdev_of in Eb, Ec. rewrite Eb, Ec in E. cbn in E.
  apply lookup_take_Some in Hv as [Hv _]. apply lookup_take_Some in Hw as [Hw _].
  apply (Hd i j v w b Hv Hw); [exact Eb|]. unfold bdev_of. rewrite Ec. congruence.
Qed.

(** * Property of the table *)

(** C14. A set of devices that the mount accepts tiles the file system: the volume
    count and the total size of the mount are defined, the buffer cache finds
    exactly one volume for every offset below the total size, no volume reaches
    beyond it, each lies on one of the devices and within its size, and the
    table satisfies what the buffer cache requires of it. *)
Theorem volumes_tile s devs t :
  Forall (fun e => e_size e <= 2 ^ 57) devs -> NoDup (omap e_bdev devs) ->
  hammer2_init_volumes s devs = Done (0, t) ->
  exists n total, mount_geometry (iv_root t) = Done (n, total)
    /\ let vols := mounted_volumes n (iv_volumes t) in
       volumes_ok vols
       /\ (forall off, 0 <= off < total -> exists v, hammer2_get_volume vols off = Done v
             /\ v_offset v <= off < v_offset v + v_size v)
       /\ (forall i j v w off, vols !! i = Some v -> vols !! j = Some w ->
             v_offset v <= off < v_offset v + v_size v ->
             v_offset w <= off < v_offset w + v_size w -> i = j)
       /\ (forall v, v ∈ vols -> v_offset v + v_size v <= total
             /\ exists e, e ∈ devs /\ e_bdev e = Some (v_bdev v) /\ v_size v <= e_size e).
Proof.
  intros Hdev Hnd H. destruct (init_volumes_geometry s devs t Hdev H) as (n & total & inits & Hg & Ht & Htl & Hle & Hd).
  exists n, total. split; [exact Hg|]. cbn zeta. unfold mounted_volumes. rewrite Ht.
  assert (Hin : forall v, v ∈ map io_volume inits -> exists u, u ∈ inits /\ v = io_volume u).
  { intros v Hv. apply list_elem_of_fmap in Hv as (u & -> & Hu). eauto. }
  split; [split|split; [|split]].
  - apply Forall_forall. intros v Hv. destruct (Hin v Hv) as (u & Hu & ->).
    destruct (tiled_bounds _ _ _ _ Htl Hu) as (_ & _ & A & _ & B). exact (conj B A).
  - unfold hammer2_init_volumes in H. apply obind_Done in H as ([err t1] & E & H).
    destruct (Z.eqb_spec err 0) as [->|Hne]; cbn [negb] in H; [|injection H; congruence].
    assert (t1 = t) as ->.
    { destruct (vd_version (iv_root t1) =? 0); [discriminate H|]. apply obind_Done in H as (x & _ & H). congruence. }
    destruct (init_loop_distinct s devs [] init_ivol t init_distinct Hnd (fun b _ => not_elem_of_nil b) E) as [seen Hs].
    rewrite <- Ht. apply (mounted_nodup seen); [exact Hs|]. rewrite Ht. intros v Hv.
    destruct (Hd v Hv) as (e & b & _ & He & Hb & _). exists b. unfold bdev_of. rewrite He. exact Hb.
  - intros off Hoff. exact (tiled_get_volume inits total off Htl ltac:(lia) Hoff).
  - intros i j v w off Hi Hj Hv Hw. apply list_lookup_fmap_Some in Hi as (v' & -> & Hi).
    apply list_lookup_fmap_Some in Hj as (w' & -> & Hj). exact (tiled_unique _ _ _ i j v' w' off Htl Hi Hj Hv Hw).
  - intros v Hv. destruct (Hin v Hv) as (u & Hu & ->). destruct (tiled_bounds _ _ _ _ Htl Hu) as (_ & A & _).
    split; [exact A|]. destruct (Hd u Hu) as (e & b & He & Hdv & Hb & Hsz). exists e. split; [exact He|].
    split; [|exact Hsz]. cbn [io_volume v_bdev]. rewrite Hdv. cbn. rewrite Hb. reflexivity.
Qed.
End init.

(** The 4GB device of [demo_disk]. *)
Definition demo_devs : list devvp := [Devvp (Some 1) (2 ^ 32)].
Definition demo_vol : hvolume := Hvolume (Some (Devvp (Some 1) (2 ^ 32))) 0 0 (2 ^ 32).
Definition demo_table : ivol :=
  Ivol (aset (iv_volumes init_ivol) 0 demo_vol) demo_header demo_header 0 (Some 1)
    (Some (1, 0, vd_fsid demo_header, vd_fstype demo_header)).

Lemma demo_field off n :
  0 <= off -> 0 <= n -> off + n <= 65532 ->
  off + n <= 120 \/ 128 <= off /\ off + n <= 504 \/ 512 <= off ->
  8 <= off /\ off + n <= 40 \/ 52 <= off ->
  vd_bytes demo_header off n = replicate (Z.to_nat n) 0.
Proof.
  intros A B C D F. unfold demo_header. rewrite sync_volume_bytes by (exact demo_is_header || lia).
  apply demo_zero; assumption.
Qed.

Lemma demo_fields :
  vd_volu_id demo_header = 0 /\ vd_nvolumes demo_header = 0 /\ vd_total_size demo_header = 0
  /\ vd_version demo_header = 1 /\ forall i, 0 <= i < 64 -> vd_volu_loff demo_header i = 0.
Proof.
  unfold vd_volu_id, vd_nvolumes, vd_total_size, vd_volu_loff, vd_u8, vd_u64.
  rewrite !demo_field by lia. split; [reflexivity|]. split; [reflexivity|]. split; [reflexivity|]. split.
  - unfold vd_version, vd_u32, demo_header. rewrite sync_volume_bytes by (exact demo_is_header || lia).
    apply demo_voldata_facts.
  - intros i Hi. rewrite demo_field by lia. reflexivity.
Qed.

(** The path of [hammer2_init_volumes] on a single good device of version 1. *)
Lemma init_single {W : Win32} s e b zone h :
  e_bdev e = Some b -> 0 <= zone ->
  hammer2_read_volume_header s b (e_size e) (iv_voldata init_ivol) = (zone, h) ->
  vd_volu_id h = 0 -> vd_nvolumes h = 0 -> vd_total_size h = 0 -> vd_version h = 1 ->
  (forall i, 0 <= i < 64 -> vd_volu_loff h i = 0) ->
  0 < vd_volu_size h <= e_size e -> e_size e < OFF_NONE -> tst (vd_volu_size h) HAMMER2_VOLUME_ALIGNMASK64 = false ->
  hammer2_init_volumes s [e]
  = Done (0, Ivol (aset (iv_volumes init_ivol) 0 (Hvolume (Some e) 0 0 (vd_volu_size h))) h h zone (Some b)
               (Some (1, 0, vd_fsid h, vd_fstype h))).
Proof.
  intros Hb Hz Hr Hid Hn Ht Hv Hl Hs Hmax Hal. unfold hammer2_init_volumes. cbn [init_loop].
  unfold init_volume. rewrite Hb, Hr. destruct (Z.ltb_spec zone 0); [lia|]. cbn zeta.
  cbn [iv_ref iv_volumes iv_rootdev iv_voldata iv_root iv_zone].
  change (iv_ref init_ivol) with (@None (Z * Z * list Z * list Z)). change (iv_rootdev init_ivol) with (@None Z).
  unfold header_ref. cbn [same_header default negb fst]. rewrite Hid, Hv, Hn, (Hl 0) by lia.
  change (vo_id (aget (iv_volumes init_ivol) 0)) with (- 1).
  change (i32 1) with 1.
  set (v := Hvolume (Some e) 0 0 (vd_volu_size h)). set (tab := aset (iv_volumes init_ivol) 0 v).
  cbn -[tab vd_fsid vd_fstype hammer2_verify_volumes vd_version].
  rewrite Hv. cbn -[tab vd_fsid vd_fstype hammer2_verify_volumes].
  assert (E : volumes_common_loop tab = Done 0).
  { change tab with (v :: replicate 63 empty_vol). cbn. rewrite Hb. destruct (Z.eqb_spec (vd_volu_size h) OFF_NONE); [lia|].
    destruct (Z.ltb_spec (e_size e) (vd_volu_size h)); [lia|].
    destruct (Z.eqb_spec (vd_volu_size h) 0); [lia|reflexivity]. }
  unfold hammer2_verify_volumes, hammer2_verify_volumes_common. rewrite Hid, E, Hv. cbn [negb Z.eqb obind Z.leb Z.compare Pos.compare Pos.compare_cont].
  unfold hammer2_verify_volumes_1. rewrite Hn, Ht.
  replace (existsb _ (seqZ 0 64)) with false.
  - change (count_volumes tab) with 1. change (aget tab HAMMER2_ROOT_VOLUME) with v.
    cbn -[tab vd_fsid vd_fstype tst]. rewrite Hal. reflexivity.
  - symmetry. apply not_true_is_false. intros K. apply existsb_exists in K as (i & Hi & K).
    apply list_elem_of_In, elem_of_seqZ in Hi. rewrite Hl in K by lia. discriminate K.
Qed.

Lemma demo_init : hammer2_init_volumes (W := demo_win32) demo_disk demo_devs = Done (0, demo_table).
Proof.
  destruct demo_fields as (Hid & Hn & Ht & Hv & Hl). destruct demo_header_facts as (_ & _ & _ & Hs & _).
  pose proof (init_single (W := demo_win32) demo_disk (Devvp (Some 1) (2 ^ 32)) 1 0 demo_header) as K.
  rewrite Hs in K. cbn [e_size e_bdev] in K.
  exact (K eq_refl ltac:(lia)
    (read_is (WL := demo_win32_laws) demo_disk 1 (2 ^ 32) _ 0 demo_header ltac:(lia) demo_newest)
    Hid Hn Ht Hv Hl ltac:(lia) ltac:(lia) eq_refl).
Qed.

Lemma volumes_tile_witness :
  exists n total, mount_geometry (iv_root demo_table) = Done (n, total)
    /\ let vols := mounted_volumes n (iv_volumes demo_table) in
       volumes_ok vols
       /\ (forall off, 0 <= off < total -> exists v, hammer2_get_volume vols off = Done v
             /\ v_offset v <= off < v_offset v + v_size v)
       /\ (forall i j v w off, vols !! i = Some v -> vols !! j = Some w ->
             v_offset v <= off < v_offset v + v_size v ->
             v_offset w <= off < v_offset w + v_size w -> i = j)
       /\ (forall v, v ∈ vols -> v_offset v + v_size v <= total
             /\ exists e, e ∈ demo_devs /\ e_bdev e = Some (v_bdev v) /\ v_size v <= e_size e).
Proof.
  apply (volumes_tile (W := demo_win32) demo_disk demo_devs demo_table); [|apply NoDup_singleton|exact demo_init].
  apply Forall_singleton. cbn. lia.
Defined.
