(* ===== verification/ChainCore.v ===== *)
(** The in-memory chains (hammer2_chain.c): references, locks, data, the links
    between parents and children, and the last drop that frees a chain.

    A chain is named by its address, a number; the heap maps the allocated
    addresses to the chains, so an access to a freed chain is [Panic].  Each
    function is one atomic step on the heap; [hammer2_chain_drop] alone is split,
    into the iterations of its loop, because other threads take references
    between its read of [refs] and its compare-and-set.  ChainLife runs these
    steps in any order.  The tree of children is the list of its nodes in key
    order.  Mutex and spinlock words, sleeping, and the allocation counters are
    left out: that a mutex is free is that [lockcnt] is zero. *)

From Stdlib Require Import ZArith Lia Bool.
From stdpp Require Import base numbers list option gmap.
From S2P Require Import Prelude Disk BlockTable.

Abbreviation HAMMER2_CHAIN_MODIFIED := 1 (only parsing).
Abbreviation HAMMER2_CHAIN_ALLOCATED := 2 (only parsing).
Abbreviation HAMMER2_CHAIN_DESTROY := 4 (only parsing).
Abbreviation HAMMER2_CHAIN_DELETED := 16 (only parsing).
Abbreviation HAMMER2_CHAIN_INITIAL := 32 (only parsing).
Abbreviation HAMMER2_CHAIN_UPDATE := 64 (only parsing).
Abbreviation HAMMER2_CHAIN_NOTTESTED := 128 (only parsing).
Abbreviation HAMMER2_CHAIN_TESTEDGOOD := 256 (only parsing).
Abbreviation HAMMER2_CHAIN_ONFLUSH := 512 (only parsing).
Abbreviation HAMMER2_CHAIN_COUNTEDBREFS := 8192 (only parsing).       (* 0x00002000 *)
Abbreviation HAMMER2_CHAIN_ONRBTREE := 16384 (only parsing).          (* 0x00004000 *)
Abbreviation HAMMER2_CHAIN_BLKMAPPED := 262144 (only parsing).        (* 0x00040000 *)
Abbreviation HAMMER2_CHAIN_PFSBOUNDARY := 4194304 (only parsing).     (* 0x00400000 *)
Abbreviation HAMMER2_BREF_FLAG_PFSROOT := 1 (only parsing).

Abbreviation HAMMER2_RESOLVE_NEVER := 1 (only parsing).
Abbreviation HAMMER2_RESOLVE_MAYBE := 2 (only parsing).
Abbreviation HAMMER2_RESOLVE_ALWAYS := 3 (only parsing).

Abbreviation HAMMER2_DELETE_PERMANENT := 1 (only parsing).

(** * The heap *)

(** [struct hammer2_chain] with its core. *)
Record cnode := Cnode {
  c_bref : blockref;
  c_bytes : Z;
  c_parent : option nat;
  c_tree : list nat;         (* core.rbtree, in key order *)
  c_chain_count : Z;         (* core.chain_count, unsigned int *)
  c_live_count : Z;          (* core.live_count, unsigned int *)
  c_generation : Z;          (* core.generation, int *)
  c_refs : Z;                (* unsigned int *)
  c_lockcnt : Z;             (* unsigned int *)
  c_flags : Z;
  c_error : Z;
  c_data : bool              (* data != NULL; dio is set with it *)
}.

Abbreviation heap := (gmap nat cnode).

Definition get (h : heap) (c : nat) : outcome cnode :=
  match h !! c with
  | Some x => Done x
  | None => Panic
  end.

Definition set_crefs (v : Z) (x : cnode) : cnode :=
  Cnode (c_bref x) (c_bytes x) (c_parent x) (c_tree x) (c_chain_count x) (c_live_count x) (c_generation x)
    v (c_lockcnt x) (c_flags x) (c_error x) (c_data x).
Definition set_lockcnt (v : Z) (x : cnode) : cnode :=
  Cnode (c_bref x) (c_bytes x) (c_parent x) (c_tree x) (c_chain_count x) (c_live_count x) (c_generation x)
    (c_refs x) v (c_flags x) (c_error x) (c_data x).
Definition set_cflags (v : Z) (x : cnode) : cnode :=
  Cnode (c_bref x) (c_bytes x) (c_parent x) (c_tree x) (c_chain_count x) (c_live_count x) (c_generation x)
    (c_refs x) (c_lockcnt x) v (c_error x) (c_data x).
Definition set_cdata (error : Z) (v : bool) (x : cnode) : cnode :=
  Cnode (c_bref x) (c_bytes x) (c_parent x) (c_tree x) (c_chain_count x) (c_live_count x) (c_generation x)
    (c_refs x) (c_lockcnt x) (c_flags x) error v.
Definition set_cparent (v : option nat) (x : cnode) : cnode :=
  Cnode (c_bref x) (c_bytes x) v (c_tree x) (c_chain_count x) (c_live_count x) (c_generation x)
    (c_refs x) (c_lockcnt x) (c_flags x) (c_error x) (c_data x).
(** The core of a parent. *)
Definition set_core (tree : list nat) (chain_count live_count generation : Z) (x : cnode) : cnode :=
  Cnode (c_bref x) (c_bytes x) (c_parent x) tree chain_count live_count generation
    (c_refs x) (c_lockcnt x) (c_flags x) (c_error x) (c_data x).

Definition put (c : nat) (x : cnode) (h : heap) : heap := <[c := x]> h.

Definition set_flag (m : Z) (x : cnode) : cnode := set_cflags (c_flags x .| m) x.
Definition clear_flag (m : Z) (x : cnode) : cnode := set_cflags (c_flags x .&~ m) x.

(** [bref.type] is one of the two embedded roots of a device. *)
Definition is_root_type (x : cnode) : bool :=
  (br_type (c_bref x) =? HAMMER2_BREF_TYPE_VOLUME) || (br_type (c_bref x) =? HAMMER2_BREF_TYPE_FREEMAP).

(** * References *)

Definition hammer2_chain_ref (h : heap) (c : nat) : outcome heap :=
  let! x := get h c in
  Done (put c (set_crefs (u32 (c_refs x + 1)) x) h).

Definition hammer2_chain_assert_no_data (x : cnode) : outcome unit :=
  assert! is_root_type x || negb (c_data x);
  Done tt.

(** [hammer2_chain_setflush]: ONFLUSH upward to the first inode; [fuel] bounds the
    depth of the chain. *)
Fixpoint setflush_loop (fuel : nat) (h : heap) (c : nat) : outcome heap :=
  match fuel with
  | O => Done h
  | S fuel =>
      let! x := get h c in
      if tst (c_flags x) HAMMER2_CHAIN_ONFLUSH then Done h
      else
        let h := put c (set_flag HAMMER2_CHAIN_ONFLUSH x) h in
        if br_type (c_bref x) =? HAMMER2_BREF_TYPE_INODE then Done h
        else
          match c_parent x with
          | None => Done h
          | Some parent => setflush_loop fuel h parent
          end
  end.

(** Every turn sets the flag of one more chain. *)
Definition hammer2_chain_setflush (h : heap) (c : nat) : outcome heap :=
  setflush_loop (S (size h)) h c.

(** * Allocation and linking *)

Definition chain_bytes (bref : blockref) : Z :=
  if br_data_off bref .& HAMMER2_OFF_MASK_RADIX =? 0 then 0
  else u32 (1 .<< (br_data_off bref .& HAMMER2_OFF_MASK_RADIX)).

(** [c] is the address that the allocator returns; [pfsroot] is the flag of the
    blockref. *)
Definition hammer2_chain_alloc (h : heap) (c : nat) (bref : blockref) (pfsroot : bool) : outcome heap :=
  match br_type bref with
  | HAMMER2_BREF_TYPE_INODE | HAMMER2_BREF_TYPE_INDIRECT | HAMMER2_BREF_TYPE_DATA
  | HAMMER2_BREF_TYPE_DIRENT | HAMMER2_BREF_TYPE_FREEMAP_NODE | HAMMER2_BREF_TYPE_FREEMAP_LEAF
  | HAMMER2_BREF_TYPE_FREEMAP | HAMMER2_BREF_TYPE_VOLUME =>
      Done (put c (Cnode bref (chain_bytes bref) None [] 0 0 0 1 0
                     (if pfsroot then HAMMER2_CHAIN_ALLOCATED .| HAMMER2_CHAIN_PFSBOUNDARY
                      else HAMMER2_CHAIN_ALLOCATED) 0 false) h)
  | _ => Panic
  end.

(** The key ranges of two blockrefs overlap: [hammer2_chain_cmp] is 0. *)
Definition overlap (b1 b2 : blockref) : bool :=
  (br_key b2 <=? key_last b1) && (br_key b1 <=? key_last b2).

Definition bref_of (h : heap) (c : nat) : blockref :=
  match h !! c with Some x => c_bref x | None => bref_zero end.

(** The node that [RB_INSERT] collides with. *)
Definition collision (h : heap) (tree : list nat) (b : blockref) : option nat :=
  head (filter (fun c => overlap b (bref_of h c) = true) tree).

Fixpoint tree_insert (h : heap) (c : nat) (b : blockref) (tree : list nat) : list nat :=
  match tree with
  | [] => [c]
  | d :: tree => if br_key b <? br_key (bref_of h d) then c :: d :: tree else d :: tree_insert h c b tree
  end.

(** Flags of [hammer2_chain_insert]: LIVE, RACE. *)
Definition hammer2_chain_insert (h : heap) (parent c : nat) (live race : bool) (generation : Z)
  : outcome (Z * heap) :=
  let! p := get h parent in
  if race && negb (c_generation p =? generation) then Done (HAMMER2_ERROR_EAGAIN, h)
  else
    let! x := get h c in
    assert! match collision h (c_tree p) (c_bref x) with None => true | Some _ => false end;
    let h := put c (set_cparent (Some parent) (set_flag HAMMER2_CHAIN_ONRBTREE x)) h in
    let! p := get h parent in
    Done (0, put parent
               (set_core (tree_insert h c (c_bref x) (c_tree p)) (u32 (c_chain_count p + 1))
                  (if live then u32 (c_live_count p + 1) else c_live_count p)
                  (i32 (c_generation p + 1)) p) h).

(** [RB_REMOVE], the flag, the count and the parent pointer of [c]. *)
Definition unlink (h : heap) (parent c : nat) (live_dec : bool) (generation_inc : bool) : outcome heap :=
  let! x := get h c in
  let! p := get h parent in
  let h := put parent
    (set_core (filter (fun d => d <> c) (c_tree p)) (u32 (c_chain_count p - 1))
       (if live_dec then u32 (c_live_count p - 1) else c_live_count p)
       (if generation_inc then i32 (c_generation p + 1) else c_generation p) p) h in
  Done (put c (set_cparent None (clear_flag HAMMER2_CHAIN_ONRBTREE x)) h).

(** [_hammer2_chain_delete_helper]: [modify] is the error of [hammer2_chain_modify]
    on the parent, whose flags are a step of their own; the entry of the block
    table is deleted by BlockTable's [hammer2_base_delete]. *)
Definition hammer2_chain_delete_helper (h : heap) (parent : option nat) (c : nat) (modify : Z) : outcome (Z * heap) :=
  let! x := get h c in
  assert! negb (tst (c_flags x) HAMMER2_CHAIN_DELETED);
  assert! bool_decide (c_parent x = parent);
  let h' := put c (set_flag HAMMER2_CHAIN_DELETED x) h in
  if tst (c_flags x) (HAMMER2_CHAIN_BLKMAPPED) then
    match parent with
    | None => Panic
    | Some p =>
        let! y := get h p in
        assert! c_error y =? 0;
        assert! negb (tst (c_flags y) HAMMER2_CHAIN_INITIAL);
        if negb (modify =? 0) then Done (modify, h)
        else
          assert! tst (c_flags x) HAMMER2_CHAIN_ONRBTREE;
          let! h' := unlink h' p c true true in
          Done (0, h')
    end
  else if tst (c_flags x) HAMMER2_CHAIN_ONRBTREE then
    match parent with
    | None => Panic
    | Some p => let! h' := unlink h' p c true true in Done (0, h')
    end
  else Done (0, h').

(** * Locks and data *)

(** What the device and the check code of the blockref make of a read. *)
Inductive ioresult :=
| IOerror           (* hammer2_io_new or hammer2_io_bread fails *)
| IOdata (good : bool).   (* hammer2_chain_testcheck *)

(** The load that owns IOINPROG; others wait for it. *)
Definition hammer2_chain_load_data (h : heap) (c : nat) (io : ioresult) : outcome heap :=
  let! x := get h c in
  if c_data x then Done h
  else if br_data_off (c_bref x) .&~ HAMMER2_OFF_MASK_RADIX =? 0 then Done h
  else
    match io with
    | IOerror => Done (put c (set_cdata HAMMER2_ERROR_EIO false x) h)
    | IOdata good =>
        let x := set_cdata 0 (c_data x) x in
        let x :=
          if tst (c_flags x) HAMMER2_CHAIN_INITIAL
          then set_flag HAMMER2_CHAIN_NOTTESTED (clear_flag HAMMER2_CHAIN_INITIAL x)
          else if tst (c_flags x) HAMMER2_CHAIN_MODIFIED then x
          else if negb (tst (c_flags x) HAMMER2_CHAIN_TESTEDGOOD) then
            if negb good then set_cdata HAMMER2_ERROR_CHECK (c_data x) x
            else set_flag HAMMER2_CHAIN_TESTEDGOOD x
          else x in
        match br_type (c_bref x) with
        | HAMMER2_BREF_TYPE_VOLUME | HAMMER2_BREF_TYPE_FREEMAP => Panic
        | HAMMER2_BREF_TYPE_DIRENT =>
            assert! negb (c_bytes x =? 0);
            Done (put c (set_cdata (c_error x) true x) h)
        | _ => Done (put c (set_cdata (c_error x) true x) h)
        end
    end.

(** [how] is masked with RESOLVE_MASK; a NONBLOCK lock that fails is no step.
    Acquiring the mutex is left to the caller. *)
Definition hammer2_chain_lock (h : heap) (c : nat) (how : Z) (io : ioresult) : outcome heap :=
  let! x := get h c in
  assert! 0 <? c_refs x;
  let h := put c (set_lockcnt (u32 (c_lockcnt x + 1)) x) h in
  if c_data x then Done h
  else
    match how with
    | HAMMER2_RESOLVE_NEVER => Done h
    | HAMMER2_RESOLVE_MAYBE =>
        if tst (c_flags x) HAMMER2_CHAIN_INITIAL then Done h
        else if br_type (c_bref x) =? HAMMER2_BREF_TYPE_DATA then Done h
        else hammer2_chain_load_data h c io
    | _ => hammer2_chain_load_data h c io
    end.

(** [dio] and [data] are set together, so a chain without [dio] has no [data]. *)
Definition hammer2_chain_drop_data (x : cnode) : cnode :=
  if is_root_type x then x else set_cdata (c_error x) false x.

Definition hammer2_chain_unlock (h : heap) (c : nat) : outcome heap :=
  let! x := get h c in
  assert! 0 <? c_lockcnt x;
  if 1 <? c_lockcnt x then Done (put c (set_lockcnt (c_lockcnt x - 1) x) h)
  else Done (put c (hammer2_chain_drop_data (set_lockcnt 0 x)) h).

(** The locked chain that [hammer2_chain_get] makes of a blockref, or nothing
    when the children of the parent changed: the caller then drops it. *)
Definition hammer2_chain_get (h : heap) (parent c : nat) (generation : Z) (bref : blockref)
    (pfsroot : bool) (how : Z) (io : ioresult) : outcome (bool * heap) :=
  let! h := hammer2_chain_alloc h c bref pfsroot in
  let! x := get h c in
  let h := put c (set_flag HAMMER2_CHAIN_BLKMAPPED x) h in
  let! h := hammer2_chain_lock h c how io in
  let! p := get h parent in
  assert! 0 <? c_refs p;
  let! (error, h) := hammer2_chain_insert h parent c false true generation in
  let! x := get h c in
  if negb (error =? 0) then
    assert! negb (tst (c_flags x) HAMMER2_CHAIN_ONRBTREE);
    let! h := hammer2_chain_unlock h c in
    Done (false, h)
  else
    assert! tst (c_flags x) HAMMER2_CHAIN_ONRBTREE;
    Done (true, h).

(** * Dropping *)

(** What one iteration of the loop of [hammer2_chain_drop] leaves to do. *)
Inductive drop_next :=
| Dfinished            (* the reference is gone *)
| Dagain (c : nat).    (* the loop goes on with this chain *)

(** [atomic_cmpset_int(&chain->refs, 1, 0)] and what follows it when there are
    no further resources to release. *)
Definition drop_to_zero (h : heap) (c : nat) (x : cnode) : outcome (drop_next * heap) :=
  if c_refs x =? 1 then
    let! _ := hammer2_chain_assert_no_data x in
    Done (Dfinished, put c (set_crefs 0 x) h)
  else Done (Dagain c, h).

(** The last part: unlink from the parent, free. *)
Definition lastdrop_free (h : heap) (c : nat) (x : cnode) (rdrop : drop_next) : outcome (drop_next * heap) :=
  let! _ := hammer2_chain_assert_no_data x in
  assert! bool_decide (c_tree x = []) && (c_chain_count x =? 0);
  assert! negb (tst (c_flags x) (HAMMER2_CHAIN_UPDATE .| HAMMER2_CHAIN_MODIFIED));
  Done (rdrop, if tst (c_flags x) HAMMER2_CHAIN_ALLOCATED then delete c h else put c (set_crefs 0 x) h).

(** [hammer2_chain_lastdrop], with the mutex held.  [hammer2_flush] of a
    disconnected chain with children is done by the caller's further steps. *)
Definition hammer2_chain_lastdrop (h : heap) (c : nat) : outcome (drop_next * heap) :=
  let! x := get h c in
  match c_parent x with
  | Some parent =>
      if tst (c_flags x) (HAMMER2_CHAIN_UPDATE .| HAMMER2_CHAIN_MODIFIED) then drop_to_zero h c x
      else if negb (c_chain_count x =? 0) then drop_to_zero h c x
      else
        let! p := get h parent in
        if negb (c_refs x =? 1) then Done (Dagain c, h)
        else
          let x0 := set_crefs 0 x in
          let live_dec := tst (c_flags p) HAMMER2_CHAIN_COUNTEDBREFS
                          && negb (tst (c_flags x) HAMMER2_CHAIN_BLKMAPPED) in
          let! h := if tst (c_flags x) HAMMER2_CHAIN_ONRBTREE
                    then unlink (put c x0 h) parent c live_dec false else Done (put c x0 h) in
          let! p := get h parent in
          let! x := get h c in
          if c_chain_count p =? 0
          then lastdrop_free (put parent (set_crefs (u32 (c_refs p + 1)) p) h) c x (Dagain parent)
          else lastdrop_free h c x Dfinished
  | None =>
      if is_root_type x then
        let x := clear_flag HAMMER2_CHAIN_UPDATE x in
        if negb (c_chain_count x =? 0) then drop_to_zero (put c x h) c x
        else if negb (c_refs x =? 1) then Panic    (* parent->core.spin of a NULL parent *)
        else lastdrop_free (put c (set_crefs 0 x) h) c (set_crefs 0 x) Dfinished
      else
        let x := clear_flag HAMMER2_CHAIN_UPDATE (set_flag HAMMER2_CHAIN_DESTROY x) in
        if negb (c_chain_count x =? 0) then Done (Dagain c, put c x h)
        else
          let x := clear_flag HAMMER2_CHAIN_MODIFIED x in
          if negb (c_refs x =? 1) then Panic       (* parent->core.spin of a NULL parent *)
          else lastdrop_free (put c (set_crefs 0 x) h) c (set_crefs 0 x) Dfinished
  end.

(** The loop reads [refs], then acts on what it read. *)
Definition drop_read (h : heap) (c : nat) : outcome Z :=
  let! x := get h c in
  assert! 0 <? c_refs x;
  Done (c_refs x).

Definition drop_act (h : heap) (c : nat) (refs : Z) : outcome (drop_next * heap) :=
  let! x := get h c in
  if refs =? 1 then
    if c_lockcnt x =? 0 then hammer2_chain_lastdrop h c else Done (Dagain c, h)
  else if c_refs x =? refs then Done (Dfinished, put c (set_crefs (refs - 1) x) h)
  else Done (Dagain c, h).

(** The whole loop, run without interruption. *)
Fixpoint drop_loop (fuel : nat) (h : heap) (c : nat) : outcome (drop_next * heap) :=
  match fuel with
  | O => Done (Dagain c, h)
  | S fuel =>
      let! refs := drop_read h c in
      let! (next, h) := drop_act h c refs in
      match next with
      | Dfinished => Done (Dfinished, h)
      | Dagain c => drop_loop fuel h c
      end
  end.

Definition hammer2_chain_drop (h : heap) (c : nat) : outcome (drop_next * heap) :=
  let! x := get h c in
  assert! 0 <? c_refs x;
  drop_loop (S (size h)) h c.
