(* ===== verification/ChainLife.v ===== *)
(** The life of a chain under concurrent threads: the operations of ChainCore as
    the steps of a machine that records who owns references and locks, and the
    invariant of its reachable states.

    A thread may use a chain it holds a reference to; it finds a child through a
    parent it has locked; it drops a reference in separate steps, so that others
    run between its read of [refs] and its compare-and-set. *)

From Stdlib Require Import ZArith Lia Bool.
From stdpp Require Import base numbers list option gmap.
From S2P Require Import Prelude Disk BlockTable ChainCore.

(** * Counting occurrences *)

Fixpoint cnt (c : nat) (l : list nat) : Z :=
  match l with
  | [] => 0
  | d :: l => (if decide (d = c) then 1 else 0) + cnt c l
  end.

Fixpoint remove1 {A} `{EqDecision A} (x : A) (l : list A) : list A :=
  match l with
  | [] => []
  | y :: l => if decide (y = x) then l else y :: remove1 x l
  end.

(** * The machine *)

Record sys := Sys {
  s_heap : heap;
  s_holds : list nat;               (* references of the threads *)
  s_locks : list nat;               (* locks of the threads *)
  s_excl : list nat;                (* the chains locked exclusively *)
  s_drops : list (nat * option Z)   (* drops under way, with the refs they read *)
}.

Inductive event :=
| Eref (c : nat)
| Efind (p c : nat)                       (* a lookup under the lock of p *)
| Eget (p c : nat) (b : blockref) (pfsroot : bool) (generation how : Z) (io : ioresult)
| Elock (c : nat) (excl : bool) (how : Z) (io : ioresult)
| Eunlock (c : nat)
| Eflags (c : nat) (set clr : Z)
| Esetflush (c : nat)
| Edelete (p : option nat) (c : nat) (modify : Z)
| Einsert (p c : nat) (live : bool)
| Edrop (c : nat)
| Eread (c : nat)
| Eact (c : nat) (refs : Z).

(** The embedded chains of the device: vchain and fchain.  Their first
    reference is never dropped. *)
Definition pins : list nat := [0%nat; 1%nat].

Definition next (s : sys) (e : event) : outcome sys :=
  let '(Sys h holds locks excl drops) := s in
  match e with
  | Eref c | Efind _ c => let! h := hammer2_chain_ref h c in Done (Sys h (c :: holds) locks excl drops)
  | Eget p c b pfsroot generation how io =>
      let! (ok, h) := hammer2_chain_get h p c generation b pfsroot how io in
      if (ok : bool) then Done (Sys h (c :: holds) (c :: locks) (c :: excl) drops)
      else Done (Sys h holds locks excl ((c, None) :: drops))
  | Elock c ex how io =>
      let! h := hammer2_chain_lock h c how io in
      Done (Sys h holds (c :: locks) (if (ex : bool) then c :: excl else excl) drops)
  | Eunlock c =>
      let! h := hammer2_chain_unlock h c in
      Done (Sys h holds (remove1 c locks) (remove1 c excl) drops)
  | Eflags c set clr =>
      let! x := get h c in
      Done (Sys (put c (clear_flag clr (set_flag set x)) h) holds locks excl drops)
  | Esetflush c => let! h := hammer2_chain_setflush h c in Done (Sys h holds locks excl drops)
  | Edelete p c modify => let! (_, h) := hammer2_chain_delete_helper h p c modify in Done (Sys h holds locks excl drops)
  | Einsert p c live =>
      let! (_, h) := hammer2_chain_insert h p c live false 0 in Done (Sys h holds locks excl drops)
  | Edrop c =>
      let! _ := drop_read h c in
      Done (Sys h (remove1 c holds) locks excl ((c, None) :: drops))
  | Eread c =>
      let! refs := drop_read h c in
      Done (Sys h holds locks excl ((c, Some refs) :: remove1 (c, None) drops))
  | Eact c refs =>
      let! (nx, h) := drop_act h c refs in
      let drops := remove1 (c, Some refs) drops in
      match nx with
      | Dfinished => Done (Sys h holds locks excl drops)
      | Dagain c => Done (Sys h holds locks excl ((c, None) :: drops))
      end
  end.

(** A blockref that a block table may hold. *)
Definition bref_ok (b : blockref) : Prop :=
  br_type b ∈ [HAMMER2_BREF_TYPE_INODE; HAMMER2_BREF_TYPE_INDIRECT; HAMMER2_BREF_TYPE_DATA;
               HAMMER2_BREF_TYPE_DIRENT; HAMMER2_BREF_TYPE_FREEMAP_NODE; HAMMER2_BREF_TYPE_FREEMAP_LEAF]
  /\ (chain_bytes b = 0 -> br_data_off b .&~ HAMMER2_OFF_MASK_RADIX = 0).

(** All references: held, or in the hands of a drop. *)
Definition nrefs (s : sys) : Z := Z.of_nat (length (s_holds s) + length (s_drops s)).

(** The flags that only the linking code changes. *)
Abbreviation LINK_FLAGS := (HAMMER2_CHAIN_ONRBTREE .| HAMMER2_CHAIN_ALLOCATED).

(** What the callers guarantee. *)
Definition enabled (s : sys) (e : event) : Prop :=
  let '(Sys h holds locks excl drops) := s in
  let room := nrefs s < 2 ^ 32 - 2 in
  match e with
  | Eref c => c ∈ holds /\ room
  | Efind p c => p ∈ locks /\ (exists y, h !! p = Some y /\ c ∈ c_tree y) /\ room
  | Eget p c b _ generation _ _ =>
      p ∈ locks /\ h !! c = None /\ bref_ok b /\ room
      /\ exists y, h !! p = Some y /\ (Z.of_nat (length (c_tree y)) < 2 ^ 32 - 1)
           /\ (generation = c_generation y -> collision h (c_tree y) b = None)
  | Elock c ex _ _ =>
      cnt c locks + cnt c pins < cnt c holds
      /\ if (ex : bool) then c ∉ locks else c ∉ excl
  | Eunlock c => c ∈ locks
  | Eflags c set clr =>
      c ∈ excl /\ c ∈ locks /\ set .& LINK_FLAGS = 0 /\ clr .& LINK_FLAGS = 0
  | Esetflush c => c ∈ holds
  | Edelete p c _ =>
      c ∈ excl /\ c ∈ locks
      /\ exists x, h !! c = Some x /\ tst (c_flags x) HAMMER2_CHAIN_DELETED = false /\ c_parent x = p
           /\ match p with
              | None => tst (c_flags x) HAMMER2_CHAIN_BLKMAPPED = false
              | Some p => p ∈ excl /\ p ∈ locks
                  /\ exists y, h !! p = Some y /\ c_error y = 0 /\ tst (c_flags y) HAMMER2_CHAIN_INITIAL = false
              end
  | Einsert p c _ =>
      p ∈ excl /\ p ∈ locks /\ c ∈ excl /\ c ∈ locks /\ p <> c /\ (c ∉ pins)
      /\ exists x y, h !! c = Some x /\ h !! p = Some y /\ c_parent x = None
           /\ collision h (c_tree y) (c_bref x) = None /\ Z.of_nat (length (c_tree y)) < 2 ^ 32 - 1
  | Edrop c => cnt c locks + cnt c pins < cnt c holds
  | Eread c => (c, None) ∈ drops
  | Eact c refs => (c, Some refs) ∈ drops
  end.

(** The device after the mount set it up. *)
Definition root_chain (type : Z) : cnode :=
  Cnode (Bref type 0 0 0 0 0 0 16 0 0 0 []) 65536 None [] 0 0 0 1 0 0 0 true.
Definition init_sys : sys :=
  Sys (<[0%nat := root_chain HAMMER2_BREF_TYPE_VOLUME]> {[1%nat := root_chain HAMMER2_BREF_TYPE_FREEMAP]})
    [0%nat; 1%nat] [] [] [].

Inductive reach : sys -> Prop :=
| reach_start : reach init_sys
| reach_next s e s' : reach s -> enabled s e -> next s e = Done s' -> reach s'.

(** * Invariant *)

(** The facts about one chain [x] at [c], given its references and locks. *)
Record node_ok (R L : nat -> Z) (c : nat) (x : cnode) : Prop := {
  no_refs : c_refs x = R c /\ 0 <= R c < 2 ^ 32 - 1;
  no_locks : c_lockcnt x = L c /\ 0 <= L c;
  no_pins : L c + cnt c pins <= R c;
  no_count : c_chain_count x = Z.of_nat (length (c_tree x)) /\ Z.of_nat (length (c_tree x)) < 2 ^ 32;
  no_linked : tst (c_flags x) HAMMER2_CHAIN_ONRBTREE = bool_decide (c_parent x <> None);
  no_root : c ∈ pins -> is_root_type x = true /\ c_parent x = None /\ c_data x = true;
  no_child : c ∉ pins -> bref_ok (c_bref x) /\ c_bytes x = chain_bytes (c_bref x)
                         /\ tst (c_flags x) HAMMER2_CHAIN_ALLOCATED = true
                         /\ (c_data x = true -> 0 < L c);
  no_garbage : R c = 0 ->
    c_parent x <> None /\ (c_tree x <> [] \/ tst (c_flags x) (HAMMER2_CHAIN_UPDATE .| HAMMER2_CHAIN_MODIFIED) = true)
}.

(** The parent and child pointers agree. *)
Definition parent_of (h : heap) (c : nat) : option nat := h !! c ≫= c_parent.
Definition child_of (h : heap) (p c : nat) : Prop := exists y, h !! p = Some y /\ c ∈ c_tree y.

Record links_ok (h : heap) : Prop := {
  lk_iff : forall c p, parent_of h c = Some p <-> child_of h p c;
  lk_nodup : forall p y, h !! p = Some y -> NoDup (c_tree y);
  lk_self : forall c, parent_of h c <> Some c
}.

Record heap_ok (h : heap) (R L : nat -> Z) : Prop := {
  hk_node : forall c x, h !! c = Some x -> node_ok R L c x;
  hk_links : links_ok h;
  hk_live : forall c, h !! c = None -> R c = 0
}.

Definition refs_of (s : sys) (c : nat) : Z := cnt c (s_holds s) + cnt c (map fst (s_drops s)).
Definition locks_of (s : sys) (c : nat) : Z := cnt c (s_locks s).

Record sys_ok (s : sys) : Prop := {
  sk_heap : heap_ok (s_heap s) (refs_of s) (locks_of s);
  sk_locks : forall c, cnt c (s_locks s) + cnt c pins <= cnt c (s_holds s);
  sk_room : nrefs s <= 2 ^ 32 - 2;
  sk_drops : forall c refs, (c, Some refs) ∈ s_drops s -> 0 < refs /\ (c ∈ pins -> refs <> 1)
}.
