(* ===== verification/ChainLifeProof.v ===== *)
(** The invariant of ChainLife is kept by every step: no thread touches a freed
    chain, references and locks are counted exactly, nothing is leaked, and a
    drop that is left alone completes. *)

From Stdlib Require Import ZArith Lia Bool.
From stdpp Require Import base numbers list option gmap.
From S2P Require Import Prelude Disk BlockTable ChainCore ChainLife.

(** The next condition of the code. *)
Ltac destruct_if := match goal with |- context [if ?b then _ else _] => destruct b end.

(** * Counting *)

Lemma cnt_nonneg c l : 0 <= cnt c l.
Proof. induction l as [|d l IH]; cbn; [lia|]. destruct (decide (d = c)); lia. Qed.

Lemma cnt_elem c l : c ∈ l <-> 0 < cnt c l.
Proof.
  induction l as [|d l IH]; cbn.
  - split; [intros H; apply not_elem_of_nil in H; contradiction|lia].
  - rewrite elem_of_cons, IH. pose proof (cnt_nonneg c l). destruct (decide (d = c)); intuition (congruence || lia).
Qed.

Lemma cnt_length c l : cnt c l <= Z.of_nat (length l).
Proof. induction l as [|d l IH]; cbn [cnt length]; [lia|]. destruct (decide (d = c)); lia. Qed.

Lemma length_remove1 {A} `{EqDecision A} (x : A) l : x ∈ l -> S (length (remove1 x l)) = length l.
Proof.
  induction l as [|y l IH]; intros H; [apply not_elem_of_nil in H; contradiction|]. cbn [remove1].
  destruct (decide (y = x)) as [->|Hne]; [reflexivity|]. cbn [length].
  rewrite IH; [reflexivity|]. apply elem_of_cons in H as [->|H]; [contradiction|exact H].
Qed.

Lemma cnt_remove1 {A} `{EqDecision A} (f : A -> nat) c (x : A) l :
  x ∈ l -> cnt c (map f (remove1 x l)) = cnt c (map f l) - (if decide (f x = c) then 1 else 0).
Proof.
  induction l as [|y l IH]; intros H; [apply not_elem_of_nil in H; contradiction|]. cbn [remove1 map cnt].
  destruct (decide (y = x)) as [->|Hne]; [lia|]. cbn [map cnt].
  rewrite IH; [lia|]. apply elem_of_cons in H as [->|H]; [contradiction|exact H].
Qed.

Lemma cnt_remove1_id c (x : nat) l : x ∈ l -> cnt c (remove1 x l) = cnt c l - (if decide (x = c) then 1 else 0).
Proof. intros H. pose proof (cnt_remove1 id c x l H) as E. rewrite !map_id in E. exact E. Qed.

(** * Flags *)

Lemma tst_lor x y m : tst (x .| y) m = tst x m || tst y m.
Proof.
  unfold tst. rewrite Z.land_lor_distr_l. apply eq_true_iff_eq.
  rewrite orb_true_iff, !negb_true_iff, !Z.eqb_neq, Z.lor_eq_0_iff.
  destruct (Z.eq_dec (x .& m) 0), (Z.eq_dec (y .& m) 0); tauto.
Qed.

Lemma tst_lor_r x a b : tst x (a .| b) = tst x a || tst x b.
Proof. unfold tst. rewrite !(Z.land_comm x). apply (tst_lor a b x). Qed.

Lemma tst_disjoint x d m : d .& m = 0 -> tst (x .&~ d) m = tst x m.
Proof.
  intros H. unfold tst. do 2 f_equal. zbits k.
  apply (f_equal (fun z => Z.testbit z k)) in H. rewrite Z.land_spec, Z.bits_0 in H.
  destruct (Z.testbit d k), (Z.testbit m k), (Z.testbit x k); cbn in *; congruence.
Qed.

Lemma tst_cleared x m : tst (x .&~ m) m = false.
Proof.
  apply tst_false. zbits k. destruct (Z.testbit x k), (Z.testbit m k); reflexivity.
Qed.

Lemma tst_sub x m k : k .& m = k -> tst x m = false -> tst x k = false.
Proof.
  rewrite !tst_false. intros Hk H. rewrite <- Hk, (Z.land_comm k), Z.land_assoc, H. reflexivity.
Qed.

(** * Updating one chain *)

(** The facts about other chains only see the counts at these. *)
Definition same_but (c : nat) (R R' : nat -> Z) : Prop := forall d, d <> c -> R' d = R d.

Lemma node_ok_ext R L R' L' c x : node_ok R L c x -> R' c = R c -> L' c = L c -> node_ok R' L' c x.
Proof.
  intros [] HR HL. constructor; rewrite ?HR, ?HL; assumption.
Qed.

Lemma put_same_links h c x x' :
  h !! c = Some x -> c_parent x' = c_parent x -> c_tree x' = c_tree x ->
  (forall d, parent_of (put c x' h) d = parent_of h d) /\ (forall p d, child_of (put c x' h) p d <-> child_of h p d).
Proof.
  intros Hc Hp Ht. unfold parent_of, child_of, put. split.
  - intros d. destruct (decide (c = d)) as [<-|Hne].
    + rewrite lookup_insert_eq, Hc. exact Hp.
    + rewrite lookup_insert_ne by exact Hne. reflexivity.
  - intros p d. destruct (decide (c = p)) as [<-|Hne].
    + rewrite lookup_insert_eq, Hc. split; intros (y & [= <-] & Hin); eexists; (split; [reflexivity|congruence]).
    + rewrite lookup_insert_ne by exact Hne. reflexivity.
Qed.

Lemma links_put h c x x' :
  links_ok h -> h !! c = Some x -> c_parent x' = c_parent x -> c_tree x' = c_tree x -> links_ok (put c x' h).
Proof.
  intros [Hi Hn Hs] Hc Hp Ht. destruct (put_same_links h c x x' Hc Hp Ht) as [E1 E2]. constructor.
  - intros d p. rewrite E1, E2. apply Hi.
  - intros p y Hy. unfold put in Hy. destruct (decide (c = p)) as [<-|Hne].
    + rewrite lookup_insert_eq in Hy. injection Hy as <-. rewrite Ht. exact (Hn c x Hc).
    + rewrite lookup_insert_ne in Hy by exact Hne. exact (Hn p y Hy).
  - intros d. rewrite E1. apply Hs.
Qed.

Lemma heap_put h R L R' L' c x x' :
  heap_ok h R L -> h !! c = Some x -> c_parent x' = c_parent x -> c_tree x' = c_tree x ->
  same_but c R R' -> same_but c L L' -> node_ok R' L' c x' -> heap_ok (put c x' h) R' L'.
Proof.
  intros [Hn Hl Hz] Hc Hp Ht HR HL Hx. constructor.
  - intros d y Hy. unfold put in Hy. destruct (decide (c = d)) as [<-|Hne].
    + rewrite lookup_insert_eq in Hy. injection Hy as <-. exact Hx.
    + rewrite lookup_insert_ne in Hy by exact Hne. apply (node_ok_ext R L); [exact (Hn d y Hy)| |]; auto.
  - exact (links_put h c x x' Hl Hc Hp Ht).
  - intros d Hd. unfold put in Hd. destruct (decide (c = d)) as [<-|Hne].
    + rewrite lookup_insert_eq in Hd. discriminate Hd.
    + rewrite lookup_insert_ne in Hd by exact Hne. rewrite HR by auto. exact (Hz d Hd).
Qed.

Lemma heap_ext h R L R' L' :
  heap_ok h R L -> (forall c, R' c = R c) -> (forall c, L' c = L c) -> heap_ok h R' L'.
Proof.
  intros [Hn Hl Hz] HR HL. constructor; [|exact Hl|intros c Hc; rewrite HR; exact (Hz c Hc)].
  intros c x Hc. apply (node_ok_ext R L); auto.
Qed.

(** One more, or one fewer, at [c]. *)
Definition add (c : nat) (n : Z) (R : nat -> Z) : nat -> Z := fun d => if decide (c = d) then R d + n else R d.

Lemma add_at c n R : add c n R c = R c + n.
Proof. unfold add. rewrite decide_True by reflexivity. reflexivity. Qed.
Lemma add_ne c n R d : c <> d -> add c n R d = R d.
Proof. intros H. unfold add. rewrite decide_False by exact H. reflexivity. Qed.
Lemma add_same_but c n R : same_but c R (add c n R).
Proof. intros d Hd. apply add_ne. congruence. Qed.
Lemma same_but_refl c R : same_but c R R.
Proof. intros d _. reflexivity. Qed.
#[local] Hint Resolve add_same_but same_but_refl : core.

Lemma heap_held h R L c : heap_ok h R L -> 0 < R c -> exists x, h !! c = Some x.
Proof.
  intros H Hc. destruct (h !! c) as [x|] eqn:E; [eauto|]. rewrite (hk_live _ _ _ H c E) in Hc. lia.
Qed.

(** * References *)

Lemma ref_ok h R L c x :
  heap_ok h R L -> h !! c = Some x -> R c + 1 < 2 ^ 32 - 1 ->
  exists h', hammer2_chain_ref h c = Done h' /\ heap_ok h' (add c 1 R) L.
Proof.
  intros H Hc Hr. unfold hammer2_chain_ref, get. rewrite Hc. cbn [obind].
  destruct (hk_node _ _ _ H c x Hc) as [[Er Hr0] Hlk Hpin Hcnt Hlnk Hroot Hchild Hg].
  eexists. split; [reflexivity|].
  apply (heap_put h R L _ _ c x); [exact H|exact Hc|reflexivity|reflexivity|auto|auto|].
  constructor; cbn -[cnt pins]; rewrite ?add_at; try assumption.
  - rewrite u32_small by lia. lia.
  - lia.
  - lia.
Qed.

(** A flag change that the links and the allocator do not see, and that does not
    make an unreferenced chain garbage. *)
Lemma flags_ok h R L c x f :
  heap_ok h R L -> h !! c = Some x ->
  tst f HAMMER2_CHAIN_ONRBTREE = tst (c_flags x) HAMMER2_CHAIN_ONRBTREE ->
  tst f HAMMER2_CHAIN_ALLOCATED = tst (c_flags x) HAMMER2_CHAIN_ALLOCATED ->
  (R c = 0 -> tst (c_flags x) (HAMMER2_CHAIN_UPDATE .| HAMMER2_CHAIN_MODIFIED) = true ->
     tst f (HAMMER2_CHAIN_UPDATE .| HAMMER2_CHAIN_MODIFIED) = true) ->
  heap_ok (put c (set_cflags f x) h) R L.
Proof.
  intros H Hc Ho Ha Hu. destruct (hk_node _ _ _ H c x Hc) as [Hr Hlk Hpin Hcnt Hlnk Hroot Hchild Hg].
  apply (heap_put h R L _ _ c x); [exact H|exact Hc|reflexivity|reflexivity|auto|auto|].
  constructor; cbn -[cnt pins]; try assumption.
  - rewrite Ho. exact Hlnk.
  - intros Hp. rewrite Ha. exact (Hchild Hp).
  - intros HR. destruct (Hg HR) as [Hp [Ht|Hf]]; split; auto.
Qed.

Lemma parent_some h c x p : h !! c = Some x -> c_parent x = Some p -> parent_of h c = Some p.
Proof. intros E1 E2. unfold parent_of. rewrite E1. exact E2. Qed.

Lemma parent_node h R L c p : heap_ok h R L -> parent_of h c = Some p -> exists y, h !! p = Some y /\ c ∈ c_tree y.
Proof. intros H E. apply (lk_iff _ (hk_links _ _ _ H)). exact E. Qed.

Lemma setflush_ok R L fuel : forall h c x,
  heap_ok h R L -> h !! c = Some x -> exists h', setflush_loop fuel h c = Done h' /\ heap_ok h' R L.
Proof.
  induction fuel as [|fuel IH]; intros h c x H Hc; [eauto|]. cbn [setflush_loop]. unfold get. rewrite Hc. cbn [obind].
  destruct (tst (c_flags x) HAMMER2_CHAIN_ONFLUSH); [eauto|].
  assert (H' : heap_ok (put c (set_flag HAMMER2_CHAIN_ONFLUSH x) h) R L).
  { apply flags_ok; [exact H|exact Hc| | |]; cbn; rewrite ?tst_lor; try apply orb_false_r.
    intros _ ->. reflexivity. }
  destruct (_ =? HAMMER2_BREF_TYPE_INODE); [eauto|]. destruct (c_parent x) as [p|] eqn:Hp; [|eauto].
  assert (Hpar : parent_of (put c (set_flag HAMMER2_CHAIN_ONFLUSH x) h) c = Some p).
  { unfold parent_of, put. rewrite lookup_insert_eq. exact Hp. }
  destruct (parent_node _ _ _ _ _ H' Hpar) as (y & Hy & _). exact (IH _ _ y H' Hy).
Qed.

(** * Locks *)

Lemma child_not_root x : bref_ok (c_bref x) -> is_root_type x = false.
Proof.
  intros [Hty _]. unfold is_root_type. rewrite !elem_of_cons, elem_of_nil in Hty.
  destruct Hty as [->|[->|[->|[->|[->|[->|[]]]]]]]; reflexivity.
Qed.

Lemma lock_ok h R L c x how io :
  heap_ok h R L -> h !! c = Some x -> L c + cnt c pins < R c ->
  exists h', hammer2_chain_lock h c how io = Done h' /\ heap_ok h' R (add c 1 L).
Proof.
  intros H Hc Hl. destruct (hk_node _ _ _ H c x Hc) as [[Er Hr] [El Hl0] Hpin Hcnt Hlnk Hroot Hchild Hg].
  pose proof (cnt_nonneg c pins) as Hp0.
  assert (Hput : forall f e d, tst f HAMMER2_CHAIN_ONRBTREE = tst (c_flags x) HAMMER2_CHAIN_ONRBTREE ->
    tst f HAMMER2_CHAIN_ALLOCATED = tst (c_flags x) HAMMER2_CHAIN_ALLOCATED -> (c ∈ pins -> d = true) ->
    heap_ok (put c (set_cdata e d (set_cflags f (set_lockcnt (u32 (c_lockcnt x + 1)) x))) h) R (add c 1 L)).
  { intros f e d Ho Ha Hd. apply (heap_put h R L _ _ c x); [exact H|exact Hc|reflexivity|reflexivity|auto|auto|].
    constructor; cbn -[cnt pins]; rewrite ?add_at; try assumption.
    - split; assumption.
    - rewrite u32_small by lia. lia.
    - lia.
    - rewrite Ho. exact Hlnk.
    - intros Hp. destruct (Hroot Hp) as (A & B & _). auto.
    - intros Hp. destruct (Hchild Hp) as (A & B & C & _). rewrite Ha.
      split; [exact A|]. split; [exact B|]. split; [exact C|]. intros _. lia.
    - lia. }
  assert (Hsame : heap_ok (put c (set_lockcnt (u32 (c_lockcnt x + 1)) x) h) R (add c 1 L)).
  { assert (E : set_lockcnt (u32 (c_lockcnt x + 1)) x
                = set_cdata (c_error x) (c_data x) (set_cflags (c_flags x) (set_lockcnt (u32 (c_lockcnt x + 1)) x)))
      by reflexivity.
    rewrite E. apply Hput; try reflexivity. intros Hp. apply (Hroot Hp). }
  unfold hammer2_chain_lock, get. rewrite Hc. cbn [obind].
  rewrite assert_true by (apply Z.ltb_lt; lia).
  destruct (c_data x) eqn:Ed; [eauto|].
  assert (Hnp : c ∉ pins) by (intros Hp; destruct (Hroot Hp) as (_ & _ & E); congruence).
  assert (Hload : exists h', hammer2_chain_load_data (put c (set_lockcnt (u32 (c_lockcnt x + 1)) x) h) c io = Done h'
                   /\ heap_ok h' R (add c 1 L)).
  { unfold hammer2_chain_load_data, get. unfold put at 1. rewrite lookup_insert_eq. cbn [obind].
    change (c_data (set_lockcnt (u32 (c_lockcnt x + 1)) x)) with (c_data x). rewrite Ed.
    cbn [set_lockcnt c_bref c_bytes]. destruct (Z.eqb_spec (br_data_off (c_bref x) .&~ HAMMER2_OFF_MASK_RADIX) 0) as [|Hoff]; [eauto|].
    unfold put. destruct io as [|good].
    { eexists. split; [reflexivity|]. rewrite insert_insert_eq.
      exact (Hput (c_flags x) HAMMER2_ERROR_EIO false eq_refl eq_refl (fun Hp => match Hnp Hp with end)). }
    destruct (Hchild Hnp) as (Hb & Hbytes & _). set (x1 := set_cdata 0 _ _).
    set (x2 := if tst (c_flags x1) HAMMER2_CHAIN_INITIAL then _ else _).
    assert (Hx2 : exists f, x2 = set_cdata (c_error x2) false (set_cflags f (set_lockcnt (u32 (c_lockcnt x + 1)) x))
              /\ tst f HAMMER2_CHAIN_ONRBTREE = tst (c_flags x) HAMMER2_CHAIN_ONRBTREE
              /\ tst f HAMMER2_CHAIN_ALLOCATED = tst (c_flags x) HAMMER2_CHAIN_ALLOCATED).
    { exists (c_flags x2). unfold x2, x1. clear. repeat destruct_if; cbn; rewrite ?tst_lor, ?tst_disjoint by reflexivity;
        rewrite ?orb_false_r; auto. }
    destruct Hx2 as (f & Hx2 & Ho & Ha).
    assert (Hset : heap_ok (<[c:=set_cdata (c_error x2) true x2]> (<[c:=set_lockcnt (u32 (c_lockcnt x + 1)) x]> h)) R (add c 1 L)).
    { rewrite insert_insert_eq, Hx2. apply (Hput f (c_error x2) true Ho Ha). auto. }
    assert (Hbr : c_bref x2 = c_bref x /\ c_bytes x2 = c_bytes x) by (rewrite Hx2; auto). destruct Hbr as [-> ->].
    destruct Hb as [Hty Hb]. rewrite !elem_of_cons, elem_of_nil in Hty.
    destruct Hty as [->|[->|[->|[->|[->|[->|[]]]]]]]; cbv iota; eauto.
    rewrite assert_true; [eauto|]. apply negb_true_iff, Z.eqb_neq. rewrite Hbytes. intros E. exact (Hoff (Hb E)). }
  destruct how as [|[[]|[]|]|]; cbn -[hammer2_chain_load_data put] in *; eauto;
    destruct (tst _ HAMMER2_CHAIN_INITIAL); eauto; destruct (_ =? HAMMER2_BREF_TYPE_DATA); eauto.
Qed.

Lemma unlock_ok h R L c x :
  heap_ok h R L -> h !! c = Some x -> 0 < L c ->
  exists h', hammer2_chain_unlock h c = Done h' /\ heap_ok h' R (add c (- 1) L).
Proof.
  intros H Hc Hl. destruct (hk_node _ _ _ H c x Hc) as [Hr [El Hl0] Hpin Hcnt Hlnk Hroot Hchild Hg].
  unfold hammer2_chain_unlock, get. rewrite Hc. cbn [obind]. rewrite assert_true by (apply Z.ltb_lt; lia).
  destruct (Z.ltb_spec 1 (c_lockcnt x)) as [Hlt|Hge]; (eexists; split; [reflexivity|]);
    (apply (heap_put h R L _ _ c x); [exact H|exact Hc| | |auto|auto|]); try reflexivity;
    try (unfold hammer2_chain_drop_data; destruct (is_root_type _); reflexivity).
  - constructor; cbn -[cnt pins]; rewrite ?add_at; try assumption; try lia.
    intros Hp. destruct (Hchild Hp) as (A & B & C & D). split; [exact A|]. split; [exact B|]. split; [exact C|]. intros _. lia.
  - unfold hammer2_chain_drop_data. change (is_root_type (set_lockcnt 0 x)) with (is_root_type x).
    destruct (is_root_type x) eqn:Ert.
    + constructor; cbn -[cnt pins]; rewrite ?add_at; try assumption; try lia.
      * intros Hp. destruct (Hroot Hp) as (_ & A & B). split; [exact Ert|]. split; assumption.
      * intros Hp. exfalso. destruct (Hchild Hp) as (Hb & _). rewrite (child_not_root x Hb) in Ert. discriminate Ert.
    + constructor; cbn -[cnt pins]; rewrite ?add_at; try assumption; try lia.
      * intros Hp. destruct (Hroot Hp) as (A & _). congruence.
      * intros Hp. destruct (Hchild Hp) as (A & B & C & D). split; [exact A|]. split; [exact B|]. split; [exact C|]. discriminate.
Qed.

(** * Links *)

Lemma child_fun h R L p q c : heap_ok h R L -> child_of h p c -> child_of h q c -> p = q.
Proof.
  intros H Hp Hq. apply (lk_iff _ (hk_links _ _ _ H)) in Hp, Hq. congruence.
Qed.

Lemma no_child_of h R L c p x : heap_ok h R L -> h !! c = Some x -> c_parent x = None -> ~ child_of h p c.
Proof.
  intros H Hc Hp Hch. apply (lk_iff _ (hk_links _ _ _ H)) in Hch. unfold parent_of in Hch. rewrite Hc in Hch.
  cbn in Hch. congruence.
Qed.

(** A disconnected chain enters the tree of [p]. *)
Lemma heap_link h R L R' L' c p x y x' y' :
  heap_ok h R L -> h !! c = Some x -> h !! p = Some y -> p <> c -> c_parent x = None ->
  c_parent x' = Some p -> c_tree x' = c_tree x -> c_parent y' = c_parent y -> c_tree y' ≡ₚ c :: c_tree y ->
  same_but c R R' -> same_but c L L' -> node_ok R' L' c x' -> node_ok R' L' p y' ->
  heap_ok (put p y' (put c x' h)) R' L'.
Proof.
  intros H Hc Hp Hne Hnone Hx1 Hx2 Hy1 Hy2 HR HL Hnx Hny. set (h' := put p y' (put c x' h)).
  assert (Lp : h' !! p = Some y') by (unfold h', put; apply lookup_insert_eq).
  assert (Lc : h' !! c = Some x').
  { unfold h', put. rewrite lookup_insert_ne by exact Hne. apply lookup_insert_eq. }
  assert (Lo : forall d, d <> c -> d <> p -> h' !! d = h !! d).
  { intros d H1 H2. unfold h', put. rewrite !lookup_insert_ne by congruence. reflexivity. }
  assert (Hpar : forall d, parent_of h' d = if decide (d = c) then Some p else parent_of h d).
  { intros d. unfold parent_of. destruct (decide (d = c)) as [->|]; [rewrite Lc; exact Hx1|].
    destruct (decide (d = p)) as [->|]; [rewrite Lp, Hp; exact Hy1|]. rewrite Lo by assumption. reflexivity. }
  assert (Hch : forall q d, child_of h' q d <-> child_of h q d \/ (q = p /\ d = c)).
  { intros q d. unfold child_of. destruct (decide (q = p)) as [->|Hqp].
    - rewrite Lp, Hp. split.
      + intros (z & [= <-] & Hin). rewrite Hy2 in Hin. apply elem_of_cons in Hin as [->|Hin]; [auto|left; eauto].
      + intros [(z & [= <-] & Hin)|[_ ->]]; eexists; (split; [reflexivity|]); rewrite Hy2; [right; exact Hin|left].
    - destruct (decide (q = c)) as [->|Hqc].
      + rewrite Lc, Hc. split.
        * intros (z & [= <-] & Hin). left. eexists. split; [reflexivity|]. congruence.
        * intros [(z & [= <-] & Hin)|[E _]]; [|congruence]. eexists. split; [reflexivity|]. congruence.
      + rewrite Lo by assumption. split; [auto|]. intros [Hin|[E _]]; [exact Hin|congruence]. }
  destruct (hk_links _ _ _ H) as [Hi Hn Hs]. constructor.
  - intros d z Hd. destruct (decide (d = c)) as [->|Hdc]; [rewrite Lc in Hd; injection Hd as <-; exact Hnx|].
    destruct (decide (d = p)) as [->|Hdp]; [rewrite Lp in Hd; injection Hd as <-; exact Hny|].
    rewrite Lo in Hd by assumption. apply (node_ok_ext R L); [exact (hk_node _ _ _ H d z Hd)|apply HR|apply HL]; exact Hdc.
  - constructor.
    + intros d q. rewrite Hpar, Hch. destruct (decide (d = c)) as [->|Hdc]; [|rewrite Hi; intuition congruence].
      split; [intros [= <-]; auto|]. intros [Hin|[-> _]]; [|reflexivity]. destruct (no_child_of _ _ _ _ _ _ H Hc Hnone Hin).
    + intros q z Hz. destruct (decide (q = p)) as [->|Hqp].
      * rewrite Lp in Hz. injection Hz as <-. rewrite Hy2. constructor; [|exact (Hn p y Hp)].
        intros Hin. apply (no_child_of _ _ _ c p x H Hc Hnone). exists y. auto.
      * destruct (decide (q = c)) as [->|Hqc]; [|rewrite Lo in Hz by assumption; exact (Hn q z Hz)].
        rewrite Lc in Hz. injection Hz as <-. rewrite Hx2. exact (Hn c x Hc).
    + intros d. rewrite Hpar. destruct (decide (d = c)) as [->|]; [congruence|apply Hs].
  - intros d Hd. destruct (decide (d = c)) as [->|Hdc]; [congruence|]. destruct (decide (d = p)) as [->|Hdp]; [congruence|].
    rewrite Lo in Hd by assumption. rewrite HR by exact Hdc. exact (hk_live _ _ _ H d Hd).
Qed.

(** [c] leaves the tree of its parent [p], and stays ([ox] is its new contents) or
    is freed. *)
Lemma heap_unlink h R L R' L' c p x y ox y' h' :
  heap_ok h R L -> h !! c = Some x -> h !! p = Some y -> c_parent x = Some p ->
  h' !! p = Some y' -> h' !! c = ox -> (forall d, d <> c -> d <> p -> h' !! d = h !! d) ->
  match ox with
  | Some x' => c_parent x' = None /\ c_tree x' = c_tree x /\ node_ok R' L' c x'
  | None => c_tree x = [] /\ R' c = 0
  end ->
  c_parent y' = c_parent y -> c_tree y' = filter (fun d => d <> c) (c_tree y) ->
  (forall d, d <> c -> d <> p -> R' d = R d /\ L' d = L d) -> node_ok R' L' p y' -> heap_ok h' R' L'.
Proof.
  intros H Hc Hp Hxp Lp Lc Lo Hox Hy1 Hy2 HRL Hny.
  destruct (hk_links _ _ _ H) as [Hi Hn Hs].
  assert (Hpc : parent_of h c = Some p) by (exact (parent_some h c x p Hc Hxp)).
  assert (Hne : p <> c) by (intros ->; exact (Hs c Hpc)).
  assert (Hpar : forall d, parent_of h' d = if decide (d = c) then None else parent_of h d).
  { intros d. unfold parent_of. destruct (decide (d = c)) as [->|].
    - rewrite Lc. destruct ox as [x'|]; [|reflexivity]. destruct Hox as (E & _ & _). exact E.
    - destruct (decide (d = p)) as [->|]; [rewrite Lp, Hp; exact Hy1|]. rewrite Lo by assumption. reflexivity. }
  assert (Hch : forall q d, child_of h' q d <-> child_of h q d /\ d <> c).
  { intros q d. unfold child_of. destruct (decide (q = p)) as [->|Hqp].
    - rewrite Lp, Hp. split.
      + intros (z & [= <-] & Hin). rewrite Hy2 in Hin. apply list_elem_of_filter in Hin as [Hd Hin]. eauto.
      + intros [(z & [= <-] & Hin) Hd]. eexists. split; [reflexivity|]. rewrite Hy2. apply list_elem_of_filter. auto.
    - assert (Hdc : child_of h q d -> d <> c).
      { intros Hqd ->. apply Hi in Hqd. congruence. }
      destruct (decide (q = c)) as [->|Hqc].
      + rewrite Lc. split.
        * intros (z & E & Hin). rewrite E in Hox. destruct Hox as (_ & Et & _). rewrite Et in Hin.
          assert (Hcd : child_of h c d) by (exists x; auto). split; [exact Hcd|exact (Hdc Hcd)].
        * intros [(z & E & Hin) _]. rewrite Hc in E. injection E as <-. destruct ox as [x'|].
          -- exists x'. split; [reflexivity|]. destruct Hox as (_ & -> & _). exact Hin.
          -- destruct Hox as [E _]. rewrite E in Hin. apply not_elem_of_nil in Hin. contradiction.
      + rewrite Lo by assumption. split; [intros Hin; split; [exact Hin|exact (Hdc Hin)]|tauto]. }
  constructor.
  - intros d z Hd. destruct (decide (d = c)) as [->|Hdc].
    { rewrite Lc in Hd. rewrite Hd in Hox. destruct Hox as (_ & _ & E). exact E. }
    destruct (decide (d = p)) as [->|Hdp]; [rewrite Lp in Hd; injection Hd as <-; exact Hny|].
    rewrite Lo in Hd by assumption. destruct (HRL d Hdc Hdp) as [ER EL].
    apply (node_ok_ext R L); [exact (hk_node _ _ _ H d z Hd)|exact ER|exact EL].
  - constructor.
    + intros d q. rewrite Hpar, Hch. destruct (decide (d = c)) as [->|Hdc]; [|rewrite Hi; tauto].
      split; [discriminate|tauto].
    + intros q z Hz. destruct (decide (q = p)) as [->|Hqp].
      * rewrite Lp in Hz. injection Hz as <-. rewrite Hy2. apply NoDup_filter. exact (Hn p y Hp).
      * destruct (decide (q = c)) as [->|Hqc]; [|rewrite Lo in Hz by assumption; exact (Hn q z Hz)].
        rewrite Lc in Hz. rewrite Hz in Hox. destruct Hox as (_ & -> & _). exact (Hn c x Hc).
    + intros d. rewrite Hpar. destruct (decide (d = c)); [discriminate|apply Hs].
  - intros d Hd. destruct (decide (d = c)) as [->|Hdc].
    + rewrite Lc in Hd. rewrite Hd in Hox. destruct Hox as [_ E]. exact E.
    + destruct (decide (d = p)) as [->|Hdp]; [congruence|]. rewrite Lo in Hd by assumption.
      destruct (HRL d Hdc Hdp) as [-> _]. exact (hk_live _ _ _ H d Hd).
Qed.

(** A disconnected chain without children is freed. *)
Lemma heap_free h R L R' c x :
  heap_ok h R L -> h !! c = Some x -> c_parent x = None -> c_tree x = [] -> R' c = 0 -> same_but c R R' ->
  heap_ok (delete c h) R' L.
Proof.
  intros H Hc Hp Ht HR0 HR. destruct (hk_links _ _ _ H) as [Hi Hn Hs].
  assert (Hpar : forall d, parent_of (delete c h) d = if decide (d = c) then None else parent_of h d).
  { intros d. unfold parent_of. destruct (decide (d = c)) as [->|Hne].
    - rewrite lookup_delete_eq. reflexivity.
    - rewrite lookup_delete_ne by congruence. reflexivity. }
  assert (Hch : forall q d, child_of (delete c h) q d <-> child_of h q d).
  { intros q d. unfold child_of. destruct (decide (q = c)) as [->|Hne].
    - rewrite lookup_delete_eq, Hc. split; [intros (z & [=] & _)|]. intros (z & [= <-] & Hin). rewrite Ht in Hin.
      apply not_elem_of_nil in Hin. contradiction.
    - rewrite lookup_delete_ne by congruence. reflexivity. }
  constructor.
  - intros d z Hd. destruct (decide (d = c)) as [->|Hne]; [rewrite lookup_delete_eq in Hd; discriminate Hd|].
    rewrite lookup_delete_ne in Hd by congruence. apply (node_ok_ext R L); [exact (hk_node _ _ _ H d z Hd)|apply HR; exact Hne|reflexivity].
  - constructor.
    + intros d q. rewrite Hpar, Hch. destruct (decide (d = c)) as [->|]; [|apply Hi].
      split; [discriminate|]. intros Hin. destruct (no_child_of _ _ _ _ _ _ H Hc Hp Hin).
    + intros q z Hz. destruct (decide (q = c)) as [->|Hne]; [rewrite lookup_delete_eq in Hz; discriminate Hz|].
      rewrite lookup_delete_ne in Hz by congruence. exact (Hn q z Hz).
    + intros d. rewrite Hpar. destruct (decide (d = c)); [discriminate|apply Hs].
  - intros d Hd. destruct (decide (d = c)) as [->|Hne]; [exact HR0|]. rewrite lookup_delete_ne in Hd by congruence.
    rewrite HR by exact Hne. exact (hk_live _ _ _ H d Hd).
Qed.

(** A new chain, not linked yet. *)
Lemma heap_new h R L R' c x :
  heap_ok h R L -> h !! c = None -> c_parent x = None -> c_tree x = [] -> same_but c R R' -> node_ok R' L c x ->
  heap_ok (put c x h) R' L.
Proof.
  intros H Hc Hp Ht HR Hx. destruct (hk_links _ _ _ H) as [Hi Hn Hs].
  assert (Hpar : forall d, parent_of (put c x h) d = parent_of h d).
  { intros d. unfold parent_of, put. destruct (decide (c = d)) as [<-|Hne].
    - rewrite lookup_insert_eq, Hc. exact Hp.
    - rewrite lookup_insert_ne by exact Hne. reflexivity. }
  assert (Hch : forall q d, child_of (put c x h) q d <-> child_of h q d).
  { intros q d. unfold child_of, put. destruct (decide (c = q)) as [<-|Hne].
    - rewrite lookup_insert_eq, Hc. split; intros (z & [= <-] & Hin). rewrite Ht in Hin. apply not_elem_of_nil in Hin. contradiction.
    - rewrite lookup_insert_ne by exact Hne. reflexivity. }
  constructor.
  - intros d z Hd. unfold put in Hd. destruct (decide (c = d)) as [<-|Hne].
    + rewrite lookup_insert_eq in Hd. injection Hd as <-. exact Hx.
    + rewrite lookup_insert_ne in Hd by exact Hne. apply (node_ok_ext R L); [exact (hk_node _ _ _ H d z Hd)|apply HR; congruence|reflexivity].
  - constructor.
    + intros d q. rewrite Hpar, Hch. apply Hi.
    + intros q z Hz. unfold put in Hz. destruct (decide (c = q)) as [<-|Hne].
      * rewrite lookup_insert_eq in Hz. injection Hz as <-. rewrite Ht. constructor.
      * rewrite lookup_insert_ne in Hz by exact Hne. exact (Hn q z Hz).
    + intros d. rewrite Hpar. apply Hs.
  - intros d Hd. unfold put in Hd. destruct (decide (c = d)) as [<-|Hne]; [rewrite lookup_insert_eq in Hd; discriminate Hd|].
    rewrite lookup_insert_ne in Hd by exact Hne. rewrite HR by congruence. exact (hk_live _ _ _ H d Hd).
Qed.

Lemma tree_insert_perm h c b tree : tree_insert h c b tree ≡ₚ c :: tree.
Proof.
  induction tree as [|d tree IH]; [reflexivity|]. cbn [tree_insert]. destruct (_ <? _); [reflexivity|].
  rewrite IH. constructor.
Qed.

Lemma insert_ok h R L p c x y live race generation :
  heap_ok h R L -> h !! c = Some x -> h !! p = Some y -> p <> c -> c_parent x = None -> c ∉ pins ->
  (race = false \/ generation = c_generation y -> collision h (c_tree y) (c_bref x) = None) ->
  Z.of_nat (length (c_tree y)) < 2 ^ 32 - 1 ->
  (hammer2_chain_insert h p c live race generation = Done (HAMMER2_ERROR_EAGAIN, h) /\ race = true)
  \/ exists h' x', hammer2_chain_insert h p c live race generation = Done (0, h') /\ heap_ok h' R L
       /\ h' !! c = Some x' /\ tst (c_flags x') HAMMER2_CHAIN_ONRBTREE = true.
Proof.
  intros H Hc Hp Hne Hnone Hnp Hcol Hlen. unfold hammer2_chain_insert, get. rewrite Hp. cbn [obind].
  destruct (race && negb (c_generation y =? generation)) eqn:Er.
  { left. apply andb_true_iff in Er as [-> _]. auto. }
  right. rewrite Hc. cbn [obind].
  rewrite Hcol by (destruct race; [right; destruct (Z.eqb_spec (c_generation y) generation); [congruence|discriminate Er]|left; reflexivity]).
  rewrite assert_true by reflexivity. unfold put. rewrite lookup_insert_ne by congruence. rewrite Hp. cbn [obind].
  destruct (hk_node _ _ _ H c x Hc) as [Hr Hlk Hpin Hcnt Hlnk Hroot Hchild Hg].
  destruct (hk_node _ _ _ H p y Hp) as [Hr2 Hlk2 Hpin2 [Hcnt2 Hlt2] Hlnk2 Hroot2 Hchild2 Hg2].
  set (x' := set_cparent (Some p) (set_flag HAMMER2_CHAIN_ONRBTREE x)).
  assert (Hperm := tree_insert_perm (<[c:=x']> h) c (c_bref x) (c_tree y)).
  eexists. exists x'. split; [reflexivity|]. split; [|split].
  - eapply (heap_link h R L R L c p x y x'); try eassumption; try reflexivity; auto.
    + constructor; cbn -[cnt pins]; try assumption.
      * rewrite tst_lor. apply orb_true_r.
      * intros Hin. contradiction.
      * intros _. rewrite tst_lor. destruct (Hchild Hnp) as (A & B & -> & D). auto.
      * intros H0. destruct (Hg H0) as [E _]. congruence.
    + constructor; cbn -[cnt pins]; try assumption.
      * rewrite Hperm. cbn [length]. rewrite u32_small by lia. lia.
      * intros H0. destruct (Hg2 H0) as [E _]. split; [exact E|]. left. intros E'. rewrite E' in Hperm.
        apply Permutation_nil_cons in Hperm. exact Hperm.
  - rewrite lookup_insert_ne by exact Hne. apply lookup_insert_eq.
  - cbn. rewrite tst_lor. apply orb_true_r.
Qed.

(** A lock changes its own chain only, and not its place in the tree. *)
Lemma lock_shape h c x how io h' :
  h !! c = Some x -> hammer2_chain_lock h c how io = Done h' ->
  exists x', h' = put c x' h /\ c_bref x' = c_bref x /\ c_parent x' = c_parent x /\ c_tree x' = c_tree x.
Proof.
  intros Hc. unfold hammer2_chain_lock, get. rewrite Hc. cbn [obind]. intros H. apply obind_Done in H as (? & _ & H). revert H.
  assert (Hload : hammer2_chain_load_data (put c (set_lockcnt (u32 (c_lockcnt x + 1)) x) h) c io = Done h' ->
    exists x', h' = put c x' h /\ c_bref x' = c_bref x /\ c_parent x' = c_parent x /\ c_tree x' = c_tree x).
  { unfold hammer2_chain_load_data, get. unfold put. rewrite lookup_insert_eq. cbn [obind].
    assert (Hp : forall y, Done (<[c:=y]> (<[c:=set_lockcnt (u32 (c_lockcnt x + 1)) x]> h)) = Done h' ->
      c_bref y = c_bref x -> c_parent y = c_parent x -> c_tree y = c_tree x ->
      exists x', h' = <[c:=x']> h /\ c_bref x' = c_bref x /\ c_parent x' = c_parent x /\ c_tree x' = c_tree x).
    { intros y [= <-] A B C. rewrite insert_insert_eq. eauto. }
    do 2 (destruct_if; [intros [= <-]; eexists; split; [reflexivity|auto]|]).
    destruct io as [|good]; [intros E; apply (Hp _ E); reflexivity|].
    set (x2 := if tst (c_flags (set_cdata 0 _ _)) HAMMER2_CHAIN_INITIAL then _ else _).
    assert (Hx2 : c_bref x2 = c_bref x /\ c_parent x2 = c_parent x /\ c_tree x2 = c_tree x)
      by (unfold x2; clear; repeat destruct_if; auto).
    destruct Hx2 as (A & B & C). intros E. apply (Hp (set_cdata (c_error x2) true x2)); try assumption. revert E. clear.
    destruct (br_type _) as [|q|]; auto. repeat (destruct q as [q|q|]; auto); try discriminate.
    all: intros E; apply obind_Done in E as (? & _ & E); exact E. }
  assert (Hid : Done (put c (set_lockcnt (u32 (c_lockcnt x + 1)) x) h) = Done h' ->
    exists x', h' = put c x' h /\ c_bref x' = c_bref x /\ c_parent x' = c_parent x /\ c_tree x' = c_tree x).
  { intros [= <-]. eexists; split; [reflexivity|auto]. }
  destruct (c_data x); [auto|]. destruct how as [|[[]|[]|]|]; cbn -[hammer2_chain_load_data put] in *; auto;
    destruct (tst _ HAMMER2_CHAIN_INITIAL); auto; destruct (_ =? HAMMER2_BREF_TYPE_DATA); auto.
Qed.

Lemma collision_put h c x tree b : c ∉ tree -> collision (put c x h) tree b = collision h tree b.
Proof.
  intros Hin. unfold collision. f_equal. induction tree as [|d tree IH]; [reflexivity|].
  apply not_elem_of_cons in Hin as [Hne Hin]. rewrite !filter_cons, (IH Hin). unfold bref_of, put.
  rewrite lookup_insert_ne by congruence. reflexivity.
Qed.

Lemma alloc_ok h R L c b pfsroot :
  heap_ok h R L -> h !! c = None -> bref_ok b -> c ∉ pins -> L c = 0 ->
  exists x, hammer2_chain_alloc h c b pfsroot = Done (put c x h) /\ c_bref x = b /\ c_parent x = None /\ c_tree x = []
    /\ heap_ok (put c (set_flag HAMMER2_CHAIN_BLKMAPPED x) h) (add c 1 R) L.
Proof.
  intros H Hc Hb Hnp HL. unfold hammer2_chain_alloc.
  set (x := Cnode b _ _ _ _ _ _ _ _ _ _ _). exists x. split; [|split; [reflexivity|split; [reflexivity|split; [reflexivity|]]]].
  { destruct Hb as [Hty _]. rewrite !elem_of_cons, elem_of_nil in Hty.
    destruct Hty as [->|[->|[->|[->|[->|[->|[]]]]]]]; reflexivity. }
  pose proof (hk_live _ _ _ H c Hc) as HR.
  assert (Hp0 : cnt c pins = 0).
  { pose proof (cnt_nonneg c pins). destruct (Z.eq_dec (cnt c pins) 0) as [E|E]; [exact E|].
    destruct Hnp. apply cnt_elem. lia. }
  apply (heap_new h R); [exact H|exact Hc|reflexivity|reflexivity|auto|].
  constructor; cbn -[cnt pins]; rewrite ?add_at, ?HR, ?HL, ?Hp0; try lia.
  - destruct pfsroot; reflexivity.
  - intros Hin. contradiction.
  - intros _. split; [exact Hb|]. split; [reflexivity|]. split; [destruct pfsroot; reflexivity|discriminate].
Qed.

Lemma get_ok h R L p c y generation b pfsroot how io :
  heap_ok h R L -> h !! c = None -> bref_ok b -> c ∉ pins -> L c = 0 -> h !! p = Some y -> 0 < R p ->
  (generation = c_generation y -> collision h (c_tree y) b = None) -> Z.of_nat (length (c_tree y)) < 2 ^ 32 - 1 ->
  exists ok h', hammer2_chain_get h p c generation b pfsroot how io = Done (ok, h')
    /\ heap_ok h' (add c 1 R) (if ok : bool then add c 1 L else L).
Proof.
  intros H Hc Hb Hnp HL Hp HRp Hcol Hlen. unfold hammer2_chain_get.
  pose proof (hk_live _ _ _ H c Hc) as HR. assert (Hne : p <> c) by congruence.
  assert (Hp0 : cnt c pins = 0).
  { pose proof (cnt_nonneg c pins). destruct (Z.eq_dec (cnt c pins) 0) as [E|E]; [exact E|]. destruct Hnp. apply cnt_elem. lia. }
  destruct (alloc_ok h R L c b pfsroot H Hc Hb Hnp HL) as (x & -> & Hxb & Hxp & Hxt & H1). cbn [obind].
  unfold get at 1. unfold put at 1. rewrite lookup_insert_eq. cbn [obind].
  unfold put at 1 2. rewrite insert_insert_eq.
  set (x1 := set_flag HAMMER2_CHAIN_BLKMAPPED x) in *. fold (put c x1 h).
  assert (Hc1 : put c x1 h !! c = Some x1) by apply lookup_insert_eq.
  destruct (lock_ok _ _ _ c x1 how io H1 Hc1) as (h2 & Hl & H2); [rewrite add_at; lia|].
  rewrite Hl. cbn [obind]. destruct (lock_shape _ _ _ _ _ _ Hc1 Hl) as (x2 & -> & Hb2 & Hp2 & Ht2).
  unfold put in H2 |- *. rewrite insert_insert_eq in H2 |- *. clear Hl.
  assert (Hpp : <[c:=x2]> h !! p = Some y) by (rewrite lookup_insert_ne by congruence; exact Hp).
  assert (Hcc : <[c:=x2]> h !! c = Some x2) by apply lookup_insert_eq.
  unfold get. rewrite Hpp. cbn [obind].
  destruct (hk_node _ _ _ H p y Hp) as [[Er _] _ _ _ _ _ _ _].
  rewrite assert_true by (apply Z.ltb_lt; lia).
  assert (Hct : c ∉ c_tree y).
  { intros Hin. assert (Hch : child_of h p c) by (exists y; auto). apply (lk_iff _ (hk_links _ _ _ H)) in Hch.
    unfold parent_of in Hch. rewrite Hc in Hch. discriminate Hch. }
  destruct (insert_ok _ _ _ p c x2 y false true generation H2 Hcc Hpp Hne) as [[-> _]|(h3 & x3 & -> & H3 & Hx3 & Hon)];
    [rewrite Hp2; exact Hxp|exact Hnp| |exact Hlen| |].
  - intros [E|E]; [discriminate E|]. rewrite Hb2. change (c_bref x1) with (c_bref x). rewrite Hxb.
    rewrite (collision_put h c x2 _ _ Hct). exact (Hcol E).
  - cbn [obind]. rewrite Hcc. cbn [obind negb Z.eqb].
    destruct (hk_node _ _ _ H2 c x2 Hcc) as [_ _ _ _ Hlnk _ _ _]. assert (E : c_parent x2 = None) by (rewrite Hp2; exact Hxp). rewrite Hlnk, E.
    cbn [bool_decide decide negb]. rewrite assert_true by reflexivity.
    destruct (unlock_ok _ _ _ c x2 H2 Hcc) as (h3 & -> & H3); [rewrite add_at; lia|]. cbn [obind].
    exists false, h3. split; [reflexivity|]. apply (heap_ext _ _ _ _ _ H3); [reflexivity|].
    intros d. unfold add. destruct (decide (c = d)); lia.
  - cbn [obind]. rewrite Hx3. cbn [obind negb Z.eqb]. rewrite assert_true by exact Hon. exists true, h3. auto.
Qed.

Lemma length_filter_ne (c : nat) l : NoDup l -> c ∈ l -> Z.of_nat (length (filter (fun d => d <> c) l)) = Z.of_nat (length l) - 1.
Proof.
  induction 1 as [|d l Hd Hl IH]; intros Hin; [apply not_elem_of_nil in Hin; contradiction|].
  rewrite filter_cons. destruct (decide (d <> c)) as [Hne|He].
  - cbn [length]. apply elem_of_cons in Hin as [->|Hin]; [congruence|]. specialize (IH Hin). lia.
  - assert (d = c) as -> by (destruct (decide (d = c)); tauto). cbn [length].
    assert (E : filter (fun e => e <> c) l = l).
    { clear - Hd. induction l as [|e l IH]; [reflexivity|]. apply not_elem_of_cons in Hd as [Hne Hd].
      rewrite filter_cons, decide_True by congruence. f_equal. exact (IH Hd). }
    rewrite E. lia.
Qed.

Lemma unlink_ok h R L p c x y live_dec generation_inc :
  heap_ok h R L -> h !! c = Some x -> h !! p = Some y -> c_parent x = Some p -> 0 < R c -> 0 < R p ->
  exists h', unlink h p c live_dec generation_inc = Done h' /\ heap_ok h' R L.
Proof.
  intros H Hc Hp Hxp HRc HRp. unfold unlink, get. rewrite Hc, Hp. cbn [obind]. set (y' := set_core _ _ _ _ y).
  eexists. split; [reflexivity|].
  destruct (hk_node _ _ _ H c x Hc) as [Hr Hlk Hpin Hcnt Hlnk Hroot Hchild Hg].
  destruct (hk_node _ _ _ H p y Hp) as [Hr2 Hlk2 Hpin2 [Hcnt2 Hlt2] Hlnk2 Hroot2 Hchild2 Hg2].
  pose proof (parent_some h c x p Hc Hxp) as Hpar.
  assert (Hne : p <> c) by (intros ->; exact (lk_self _ (hk_links _ _ _ H) c Hpar)).
  destruct (parent_node _ _ _ _ _ H Hpar) as (y0 & E & Hin). rewrite Hp in E. injection E as <-.
  pose proof (length_filter_ne c _ (lk_nodup _ (hk_links _ _ _ H) p y Hp) Hin) as Hlen.
  apply (heap_unlink h R L R L c p x y (Some (set_cparent None (clear_flag HAMMER2_CHAIN_ONRBTREE x))) y');
    try assumption; try reflexivity; auto.
  - unfold put. rewrite lookup_insert_ne by congruence. apply lookup_insert_eq.
  - apply lookup_insert_eq.
  - intros d H1 H2. unfold put. rewrite !lookup_insert_ne by congruence. reflexivity.
  - split; [reflexivity|split; [reflexivity|]]. constructor; cbn -[cnt pins]; try assumption.
    + rewrite tst_cleared. reflexivity.
    + intros Hp'. destruct (Hroot Hp') as (_ & E & _). congruence.
    + rewrite tst_disjoint by reflexivity. exact Hchild.
    + lia.
  - constructor; cbn -[cnt pins]; try assumption; try lia.
    rewrite u32_small by lia. lia.
Qed.

Lemma delete_ok h R L op c x modify :
  heap_ok h R L -> h !! c = Some x -> tst (c_flags x) HAMMER2_CHAIN_DELETED = false -> c_parent x = op -> 0 < R c ->
  match op with
  | None => tst (c_flags x) HAMMER2_CHAIN_BLKMAPPED = false
  | Some p => 0 < R p /\ exists y, h !! p = Some y /\ c_error y = 0 /\ tst (c_flags y) HAMMER2_CHAIN_INITIAL = false
  end ->
  exists error h', hammer2_chain_delete_helper h op c modify = Done (error, h') /\ heap_ok h' R L.
Proof.
  intros H Hc Hdel Hop HRc Hp. unfold hammer2_chain_delete_helper, get. rewrite Hc. cbn [obind]. rewrite Hdel.
  rewrite assert_true by reflexivity. rewrite assert_true by (apply bool_decide_eq_true; exact Hop).
  set (x' := set_flag HAMMER2_CHAIN_DELETED x).
  assert (H' : heap_ok (put c x' h) R L).
  { apply flags_ok; [exact H|exact Hc| | |]; cbn; rewrite ?tst_lor; try apply orb_false_r. intros _ ->. reflexivity. }
  destruct (hk_node _ _ _ H c x Hc) as [_ _ _ _ Hlnk _ _ _]. rewrite Hop in Hlnk.
  destruct op as [p|].
  - destruct Hp as (HRp & y & Hy & He & Hi).
    assert (Hne : p <> c).
    { intros ->. apply (lk_self _ (hk_links _ _ _ H) c). exact (parent_some h c x c Hc Hop). }
    rewrite Hy. cbn [obind]. rewrite He, Hi, (assert_true (0 =? 0)), (assert_true (negb false)), (assert_true _) by (reflexivity || exact Hlnk).
    rewrite Hlnk. cbn [bool_decide decide].
    assert (Hy' : put c x' h !! p = Some y) by (unfold put; rewrite lookup_insert_ne by congruence; exact Hy).
    assert (Hcx : put c x' h !! c = Some x') by apply lookup_insert_eq.
    destruct (unlink_ok _ _ _ p c x' y true true H' Hcx Hy' Hop HRc HRp) as (h1 & E1 & H1).
    rewrite E1. cbn [obind]. destruct (tst _ HAMMER2_CHAIN_BLKMAPPED); [destruct (negb (modify =? 0))|]; eauto.
  - rewrite Hp, Hlnk. eauto.
Qed.

(** * Dropping *)

(** Who owns the reference that an iteration of the drop loop of [c] started with. *)
Definition refs_after (c : nat) (nx : drop_next) (R : nat -> Z) : nat -> Z :=
  match nx with
  | Dfinished => add c (- 1) R
  | Dagain d => add d 1 (add c (- 1) R)
  end.

Lemma again_same c R d : refs_after c (Dagain c) R d = R d.
Proof. unfold refs_after, add. destruct (decide (c = d)); lia. Qed.

(** A thread has a reference to [c] beyond the locks and the pins. *)
Definition droppable (R L : nat -> Z) (c : nat) : Prop := L c + cnt c pins < R c.

Lemma no_data_ok h R L c x : heap_ok h R L -> h !! c = Some x -> c ∉ pins -> L c = 0 -> c_data x = false.
Proof.
  intros H Hc Hnp HL. destruct (hk_node _ _ _ H c x Hc) as [_ _ _ _ _ _ Hchild _].
  destruct (Hchild Hnp) as (_ & _ & _ & D). destruct (c_data x); [|reflexivity]. specialize (D eq_refl). lia.
Qed.

(** The heap without [c], its parent [p] being [y]. *)
Definition freed (h : heap) (c p : nat) (y : cnode) : heap := delete c (<[p := y]> h).

(** Deleted from its parent, with children of its own. *)
Definition orphan (x : cnode) : Prop := c_parent x = None /\ c_tree x <> [].

(** What an iteration leaves: the drop is over, or it goes on with [c] because
    [refs] is not 1 or the children of [c] have to go first, or [c] is freed and
    its parent, which lost its last child, is next. *)
Definition drop_result (h : heap) (R : nat -> Z) (c : nat) (nx : drop_next) (h' : heap) : Prop :=
  nx = Dfinished \/ (nx = Dagain c /\ (R c <> 1 \/ exists x, h !! c = Some x /\ orphan x))
  \/ exists p y y', nx = Dagain p /\ p <> c /\ h !! p = Some y /\ h' = freed h c p y' /\ c_tree y' = [].

(** The last reference goes but the chain stays: it has children or is dirty. *)
Lemma drop_to_zero_ok h R L c x :
  heap_ok h R L -> h !! c = Some x -> droppable R L c -> c ∉ pins -> L c = 0 -> c_parent x <> None ->
  c_tree x <> [] \/ tst (c_flags x) (HAMMER2_CHAIN_UPDATE .| HAMMER2_CHAIN_MODIFIED) = true ->
  exists nx h', drop_to_zero h c x = Done (nx, h') /\ heap_ok h' (refs_after c nx R) L /\ drop_result h R c nx h'.
Proof.
  intros H Hc Hd Hnp HL Hp Hk. unfold drop_to_zero.
  destruct (hk_node _ _ _ H c x Hc) as [[Er Hr] Hlk Hpin Hcnt Hlnk Hroot Hchild Hg]. unfold droppable in Hd.
  destruct (Z.eqb_spec (c_refs x) 1) as [E1|E1].
  - unfold hammer2_chain_assert_no_data. rewrite (no_data_ok _ _ _ _ _ H Hc Hnp HL), orb_true_r. cbn [negb].
    rewrite assert_true by reflexivity. cbn [obind]. eexists Dfinished, _. split; [reflexivity|].
    split; [|left; reflexivity]. cbn [refs_after].
    apply (heap_put h R L _ _ c x); [exact H|exact Hc|reflexivity|reflexivity|auto|auto|].
    constructor; cbn -[cnt pins]; rewrite ?add_at; try assumption; try lia. auto.
  - eexists (Dagain c), h. split; [reflexivity|].
    split; [|right; left; split; [reflexivity|left; congruence]]. apply (heap_ext _ _ _ _ _ H); [|reflexivity]. apply again_same.
Qed.

(** A chain that can be freed passes the assertions. *)
Lemma lastdrop_free_ok h h0 R L c x x0 rdrop :
  heap_ok h0 R L -> h0 !! c = Some x0 -> c ∉ pins -> L c = 0 -> c_tree x0 = [] ->
  c_data x = c_data x0 -> c_tree x = [] -> c_chain_count x = c_chain_count x0 ->
  tst (c_flags x) (HAMMER2_CHAIN_UPDATE .| HAMMER2_CHAIN_MODIFIED) = false ->
  tst (c_flags x) HAMMER2_CHAIN_ALLOCATED = true ->
  lastdrop_free h c x rdrop = Done (rdrop, delete c h).
Proof.
  intros H Hc Hnp HL Ht Ed Et Ec Ef Ea. unfold lastdrop_free, hammer2_chain_assert_no_data.
  rewrite Ed, (no_data_ok _ _ _ _ _ H Hc Hnp HL), orb_true_r. cbn [negb]. rewrite (assert_true true) by reflexivity. cbn [obind].
  destruct (hk_node _ _ _ H c x0 Hc) as [_ _ _ [Hcnt _] _ _ _ _].
  rewrite Et, Ec, Hcnt, Ht, Ef, Ea. reflexivity.
Qed.

(** The parent after its child [c] left the tree. *)
Definition bereft (c : nat) (x y : cnode) : cnode :=
  set_core (filter (fun d => d <> c) (c_tree y)) (u32 (c_chain_count y - 1))
    (if tst (c_flags y) HAMMER2_CHAIN_COUNTEDBREFS && negb (tst (c_flags x) HAMMER2_CHAIN_BLKMAPPED)
     then u32 (c_live_count y - 1) else c_live_count y) (c_generation y) y.

Lemma freed_eq h c p y h' :
  p <> c -> h' !! p = Some y -> (forall i, i <> c -> i <> p -> h' !! i = h !! i) -> delete c h' = freed h c p y.
Proof.
  intros Hne Hp Ho. apply map_eq. intros i. unfold freed. destruct (decide (i = c)) as [->|]; [rewrite !lookup_delete_eq; reflexivity|].
  rewrite !lookup_delete_ne by congruence. destruct (decide (i = p)) as [->|]; [rewrite lookup_insert_eq; exact Hp|].
  rewrite lookup_insert_ne by congruence. auto.
Qed.

(** The last reference of a linked chain without children, not dirty. *)
Lemma lastdrop_linked_eq h R L c p x y :
  heap_ok h R L -> h !! c = Some x -> h !! p = Some y -> p <> c -> c ∉ pins -> L c = 0 -> c_parent x = Some p ->
  tst (c_flags x) (HAMMER2_CHAIN_UPDATE .| HAMMER2_CHAIN_MODIFIED) = false -> c_tree x = [] -> c_refs x = 1 ->
  hammer2_chain_lastdrop h c =
  Done (if c_chain_count (bereft c x y) =? 0
        then (Dagain p, freed h c p (set_crefs (u32 (c_refs y + 1)) (bereft c x y)))
        else (Dfinished, freed h c p (bereft c x y))).
Proof.
  intros H Hc Hy Hne Hnp HL Hp Ef Ht E1. unfold hammer2_chain_lastdrop, get at 1. rewrite Hc. cbn [obind]. rewrite Hp, Ef.
  destruct (hk_node _ _ _ H c x Hc) as [_ _ _ [Hcnt _] Hlnk _ Hchild _]. destruct (Hchild Hnp) as (_ & _ & Ha & _).
  rewrite Hcnt, Ht. change (negb (Z.of_nat (@length nat []) =? 0)) with false. cbv iota. unfold get at 1. rewrite Hy. cbn [obind].
  rewrite E1. cbn [Z.eqb Pos.eqb negb]. rewrite Hlnk, bool_decide_eq_true_2 by congruence.
  unfold unlink, get, put. rewrite !lookup_insert_eq, !(lookup_insert_ne _ c p) by congruence. rewrite Hy. cbn [obind].
  rewrite !lookup_insert_eq, (lookup_insert_ne _ c p), lookup_insert_eq by congruence. cbn [obind].
  fold (bereft c x y). set (x' := set_cparent None _).
  assert (Hfree : forall h1 rdrop, lastdrop_free h1 c x' rdrop = Done (rdrop, delete c h1)).
  { intros h1 rdrop. apply (lastdrop_free_ok h1 h R L c x' x rdrop H Hc Hnp HL Ht); try reflexivity; try exact Ht.
    - unfold x'. cbn. apply (tst_sub _ (HAMMER2_CHAIN_UPDATE .| HAMMER2_CHAIN_MODIFIED)); [reflexivity|].
      rewrite tst_disjoint by reflexivity. exact Ef.
    - unfold x'. cbn. rewrite tst_disjoint by reflexivity. exact Ha. }
  rewrite !Hfree. destruct (_ =? 0); (erewrite freed_eq; [reflexivity|exact Hne| |]).
  - apply lookup_insert_eq.
  - intros i H1 H2. rewrite !lookup_insert_ne by congruence. reflexivity.
  - rewrite lookup_insert_ne by congruence. apply lookup_insert_eq.
  - intros i H1 H2. rewrite !lookup_insert_ne by congruence. reflexivity.
Qed.

Lemma freed_ok h R L c p x y y1 R' :
  heap_ok h R L -> h !! c = Some x -> h !! p = Some y -> c_parent x = Some p -> c_tree x = [] -> p <> c ->
  c_parent y1 = c_parent y -> c_tree y1 = filter (fun d => d <> c) (c_tree y) ->
  R' c = 0 -> (forall d, d <> c -> d <> p -> R' d = R d) -> node_ok R' L p y1 -> heap_ok (freed h c p y1) R' L.
Proof.
  intros H Hc Hy Hp Ht Hne Hy1 Hy2 H0 HR Hny. apply (heap_unlink h R L R' L c p x y None y1); try assumption; unfold freed.
  - rewrite lookup_delete_ne by congruence. apply lookup_insert_eq.
  - apply lookup_delete_eq.
  - intros d H1 H2. rewrite lookup_delete_ne, lookup_insert_ne by congruence. reflexivity.
  - auto.
  - intros d H1 H2. auto.
Qed.

Lemma lastdrop_linked_ok h R L c p x :
  heap_ok h R L -> h !! c = Some x -> droppable R L c -> c ∉ pins -> L c = 0 -> c_parent x = Some p ->
  R p + 1 < 2 ^ 32 - 1 ->
  exists nx h', hammer2_chain_lastdrop h c = Done (nx, h') /\ heap_ok h' (refs_after c nx R) L /\ drop_result h R c nx h'.
Proof.
  intros H Hc Hd Hnp HL Hp Hroom.
  assert (Hpn : c_parent x <> None) by congruence.
  pose proof (drop_to_zero_ok h R L c x H Hc Hd Hnp HL Hpn) as Hz.
  pose proof (parent_some h c x p Hc Hp) as Hpar. destruct (parent_node _ _ _ _ _ H Hpar) as (y & Hy & Hin).
  assert (Hne : p <> c) by (intros ->; exact (lk_self _ (hk_links _ _ _ H) c Hpar)).
  pose proof (lastdrop_linked_eq h R L c p x y H Hc Hy Hne Hnp HL Hp) as Heq.
  destruct (hk_node _ _ _ H c x Hc) as [[Er Hr] _ _ [Hcnt Hlt] _ _ _ _].
  unfold hammer2_chain_lastdrop, get in *. rewrite Hc in *. cbn [obind] in *. rewrite Hp in *.
  destruct (tst (c_flags x) (HAMMER2_CHAIN_UPDATE .| HAMMER2_CHAIN_MODIFIED)) eqn:Ef; [auto|].
  destruct (Z.eqb_spec (c_chain_count x) 0) as [E0|E0]; cbn [negb] in *;
    [|apply Hz; left; intros E; rewrite E in Hcnt; apply E0; exact Hcnt].
  assert (Ht : c_tree x = []) by (destruct (c_tree x); [reflexivity|cbn [length] in Hcnt; lia]).
  destruct (Z.eqb_spec (c_refs x) 1) as [E1|E1]; cbn [negb] in *.
  2: { rewrite Hy. cbn [obind]. exists (Dagain c), h. split; [reflexivity|]. split; [|right; left; split; [reflexivity|left; congruence]].
       apply (heap_ext _ _ _ _ _ H); [|reflexivity]. apply again_same. }
  rewrite Heq by auto. clear Heq Hz.
  destruct (hk_node _ _ _ H p y Hy) as [[Er2 Hr2] Hlk2 Hpin2 [Hcnt2 Hlt2] Hlnk2 Hroot2 Hchild2 Hg2].
  pose proof (length_filter_ne c _ (lk_nodup _ (hk_links _ _ _ H) p y Hy) Hin) as Hlen.
  assert (Hy' : c_chain_count (bereft c x y) = Z.of_nat (length (filter (fun d => d <> c) (c_tree y)))).
  { cbn. rewrite u32_small by lia. lia. }
  destruct (Z.eqb_spec (c_chain_count (bereft c x y)) 0) as [Ez|Ez]; eexists _, _; (split; [reflexivity|]).
  - split.
    + apply (freed_ok h R L c p x y); cbn [refs_after]; try assumption; try reflexivity;
        try (intros; rewrite !add_ne by congruence; reflexivity); [rewrite add_ne, add_at by exact Hne; lia|].
      constructor; cbn -[cnt pins bereft]; rewrite ?add_at, ?add_ne by congruence; try assumption; try lia.
      * change (c_refs (bereft c x y)) with (c_refs y). rewrite u32_small by lia. lia.
      * rewrite Hy'. cbn. lia.
    + right. right. exists p, y, (set_crefs (u32 (c_refs y + 1)) (bereft c x y)). split; [reflexivity|]. split; [exact Hne|].
      split; [exact Hy|]. split; [reflexivity|]. apply length_zero_iff_nil. rewrite Ez in Hy'. symmetry in Hy'.
      exact (proj1 (Nat2Z.inj_iff _ 0) Hy').
  - split; [|left; reflexivity].
    apply (freed_ok h R L c p x y); cbn [refs_after]; try assumption; try reflexivity;
      try (intros; rewrite !add_ne by congruence; reflexivity); [rewrite add_at; lia|].
    constructor; cbn -[cnt pins bereft]; rewrite ?add_ne by congruence; try assumption; try lia.
    + split; [exact Er2|exact Hr2].
    + rewrite Hy'. cbn. lia.
    + intros H0. destruct (Hg2 H0) as [E2 _]. split; [exact E2|]. left. intros E3. apply Ez. rewrite Hy'. cbn in E3. rewrite E3. reflexivity.
Qed.

(** The disconnected chain [x] has no children and someone else refers to it: the
    last drop then reads [core.spin] of its parent, which is NULL. *)
Definition null_parent (x : cnode) : Prop := c_parent x = None /\ c_tree x = [] /\ c_refs x <> 1.

Lemma lastdrop_disconnected_ok h R L c x :
  heap_ok h R L -> h !! c = Some x -> droppable R L c -> c ∉ pins -> L c = 0 -> c_parent x = None ->
  (null_parent x /\ hammer2_chain_lastdrop h c = Panic)
  \/ (~ null_parent x /\ exists nx h', hammer2_chain_lastdrop h c = Done (nx, h') /\ heap_ok h' (refs_after c nx R) L
                         /\ drop_result h R c nx h').
Proof.
  intros H Hc Hd Hnp HL Hp. unfold hammer2_chain_lastdrop, get. rewrite !Hc. cbn [obind]. rewrite !Hp.
  destruct (hk_node _ _ _ H c x Hc) as [[Er Hr] [El _] Hpin [Hcnt Hlt] Hlnk Hroot Hchild Hg].
  destruct (Hchild Hnp) as (Hb & _ & Ha & _). rewrite (child_not_root x Hb).
  set (x1 := clear_flag HAMMER2_CHAIN_UPDATE (set_flag HAMMER2_CHAIN_DESTROY x)).
  set (x2 := clear_flag HAMMER2_CHAIN_MODIFIED x1).
  pose proof (cnt_nonneg c pins) as Hp0. unfold droppable in Hd. unfold null_parent.
  change (c_chain_count x1) with (c_chain_count x). destruct (Z.eqb_spec (c_chain_count x) 0) as [E0|E0]; cbn [negb].
  - assert (Ht : c_tree x = []) by (destruct (c_tree x); [reflexivity|cbn [length] in Hcnt; lia]).
    change (c_refs x2) with (c_refs x). destruct (Z.eqb_spec (c_refs x) 1) as [E1|E1]; cbn [negb]; [|left; auto].
    right. split; [tauto|]. eexists Dfinished, _. split.
    + apply (lastdrop_free_ok _ h R L c (set_crefs 0 x2) x Dfinished H Hc Hnp HL Ht); try reflexivity; try exact Ht.
      * cbn. rewrite tst_lor_r, tst_cleared, tst_disjoint by reflexivity. rewrite tst_cleared. reflexivity.
      * cbn. rewrite !tst_disjoint, tst_lor, Ha by reflexivity. reflexivity.
    + split; [|left; reflexivity]. unfold put. rewrite delete_insert_eq. cbn [refs_after].
      apply (heap_free h R L _ c x H Hc Hp Ht); [rewrite add_at; lia|auto].
  - right. split; [intros (_ & Ht & _); apply E0; rewrite Hcnt, Ht; reflexivity|].
    eexists (Dagain c), _. split; [reflexivity|].
    split; [|right; left; split; [reflexivity|right; exists x; split; [exact Hc|split; [exact Hp|]]];
             intros Ht; apply E0; rewrite Hcnt, Ht; reflexivity].
    apply (heap_ext _ R L); [|apply again_same|reflexivity].
    change x1 with (set_cflags ((c_flags x .| HAMMER2_CHAIN_DESTROY) .&~ HAMMER2_CHAIN_UPDATE) x).
    apply flags_ok; [exact H|exact Hc| | |intros E; lia]; rewrite tst_disjoint, tst_lor by reflexivity; apply orb_false_r.
Qed.

(** One iteration of the loop. *)
Lemma act_ok h R L c x refs :
  heap_ok h R L -> h !! c = Some x -> droppable R L c -> (c ∈ pins -> refs <> 1) -> 0 < refs ->
  (forall p, c_parent x = Some p -> R p + 1 < 2 ^ 32 - 1) ->
  (drop_act h c refs = Panic /\ refs = 1 /\ L c = 0 /\ null_parent x)
  \/ (exists nx h', drop_act h c refs = Done (nx, h') /\ heap_ok h' (refs_after c nx R) L
        /\ (drop_result h R c nx h' \/ refs <> R c) /\ ~ (refs = 1 /\ L c = 0 /\ null_parent x)).
Proof.
  intros H Hc Hd Hpin Hpos Hroom. unfold drop_act, get. rewrite Hc. cbn [obind].
  destruct (hk_node _ _ _ H c x Hc) as [[Er Hr] [El HL0] Hpins Hcnt Hlnk Hroot Hchild Hg].
  assert (Hagain : heap_ok h (refs_after c (Dagain c) R) L) by (apply (heap_ext _ _ _ _ _ H); [apply again_same|reflexivity]).
  destruct (Z.eqb_spec refs 1) as [->|E1].
  - assert (Hnp : c ∉ pins) by (intros Hp; apply (Hpin Hp); reflexivity).
    destruct (Z.eqb_spec (c_lockcnt x) 0) as [E0|E0].
    + rewrite El in E0. destruct (c_parent x) as [p|] eqn:Hp.
      * destruct (lastdrop_linked_ok h R L c p x H Hc Hd Hnp E0 Hp (Hroom p eq_refl)) as (nx & h' & A & B & C).
        right. exists nx, h'. split; [exact A|]. split; [exact B|]. split; [left; exact C|]. intros (_ & _ & E & _). congruence.
      * destruct (lastdrop_disconnected_ok h R L c x H Hc Hd Hnp E0 Hp) as [[A B]|[A (nx & h' & B & C & D)]].
        -- left. auto.
        -- right. exists nx, h'. split; [exact B|]. split; [exact C|]. split; [left; exact D|]. tauto.
    + right. exists (Dagain c), h. split; [reflexivity|]. split; [exact Hagain|]. unfold droppable in Hd.
      pose proof (cnt_nonneg c pins). split; [right; lia|]. intros (_ & E & _). congruence.
  - right. destruct (Z.eqb_spec (c_refs x) refs) as [E|E].
    + eexists _, _. split; [reflexivity|]. split; [|split; [left; left; reflexivity|tauto]].
      cbn [refs_after]. unfold droppable in Hd.
      apply (heap_put h R L _ _ c x); [exact H|exact Hc|reflexivity|reflexivity|auto|auto|].
      constructor; cbn -[cnt pins]; rewrite ?add_at; try assumption; try lia.
    + exists (Dagain c), h. split; [reflexivity|]. split; [exact Hagain|]. split; [right; congruence|tauto].
Qed.

(** * Steps of the machine *)

Section Steps.
Context (h : heap) (holds locks excl : list nat) (drops : list (nat * option Z)).
Abbreviation S0 := (Sys h holds locks excl drops).
Abbreviation R := (refs_of S0).
Abbreviation L := (locks_of S0).
Hypothesis Hok : sys_ok S0.

(** The next state has a sound heap for its own counts. *)
Lemma sys_step h' holds' locks' excl' drops' R' L' :
  heap_ok h' R' L' -> (forall d, cnt d holds' + cnt d (map fst drops') = R' d) -> (forall d, cnt d locks' = L' d) ->
  (forall d, cnt d locks' + cnt d pins <= cnt d holds') ->
  Z.of_nat (length holds' + length drops') <= 2 ^ 32 - 2 ->
  (forall c refs, (c, Some refs) ∈ drops' -> (c, Some refs) ∈ drops \/ (0 < refs /\ (c ∈ pins -> refs <> 1))) ->
  sys_ok (Sys h' holds' locks' excl' drops').
Proof.
  intros Hh HR HL Hlk Hroom Hd. constructor; cbn -[cnt pins]; try assumption.
  - apply (heap_ext _ _ _ _ _ Hh); intros d; [apply HR|apply HL].
  - intros c refs Hin. destruct (Hd c refs Hin) as [H|H]; [exact (sk_drops _ Hok c refs H)|exact H].
Qed.

(** Only the heap changes. *)
Lemma sys_heap h' : heap_ok h' R L -> sys_ok (Sys h' holds locks excl drops).
Proof.
  intros Hh. apply (sys_step h' _ _ _ _ R L); auto; [exact (sk_locks _ Hok)|exact (sk_room _ Hok)].
Qed.

Lemma held_pos c : c ∈ holds -> 0 < R c.
Proof.
  intros H. apply cnt_elem in H. pose proof (cnt_nonneg c (map fst drops)). unfold refs_of. cbn -[cnt]. lia.
Qed.

Lemma held_node c : c ∈ holds -> exists x, h !! c = Some x.
Proof. intros H. exact (heap_held _ _ _ _ (sk_heap _ Hok) (held_pos c H)). Qed.

Lemma locked_held c : c ∈ locks -> c ∈ holds.
Proof.
  intros H. apply cnt_elem in H. apply cnt_elem. pose proof (sk_locks _ Hok c) as E. cbn -[cnt pins] in E.
  pose proof (cnt_nonneg c pins). lia.
Qed.

Lemma dropping c o : (c, o) ∈ drops -> droppable R L c /\ 0 < R c.
Proof.
  intros H. assert (Hin : c ∈ map fst drops) by (change c with (fst (c, o)); apply list_elem_of_fmap_2; exact H).
  apply cnt_elem in Hin. pose proof (sk_locks _ Hok c) as E. pose proof (cnt_nonneg c holds).
  unfold droppable, refs_of, locks_of. cbn -[cnt pins] in *. lia.
Qed.

Lemma new_ref c : nrefs S0 < 2 ^ 32 - 2 -> R c + 1 < 2 ^ 32 - 1.
Proof.
  intros H. unfold nrefs, refs_of in *. cbn -[cnt] in *. pose proof (cnt_length c holds).
  pose proof (cnt_length c (map fst drops)) as E. rewrite length_map in E. lia.
Qed.

Definition steps (e : event) : Prop := exists s', next S0 e = Done s' /\ sys_ok s'.

Lemma step_add_ref c x : h !! c = Some x -> nrefs S0 < 2 ^ 32 - 2 ->
  exists s', (let! h := hammer2_chain_ref h c in Done (Sys h (c :: holds) locks excl drops)) = Done s' /\ sys_ok s'.
Proof.
  intros Hc Hroom. destruct (ref_ok h R L c x (sk_heap _ Hok) Hc (new_ref c Hroom)) as (h' & -> & H'). cbn [obind].
  eexists. split; [reflexivity|]. apply (sys_step h' _ _ _ _ (add c 1 R) L); auto.
  - intros d. unfold add, refs_of. cbn. destruct (decide (c = d)); lia.
  - intros d. pose proof (sk_locks _ Hok d). cbn -[cnt pins] in *. cbn [cnt]. destruct (decide (c = d)); lia.
  - unfold nrefs in Hroom. cbn in *. lia.
Qed.

Lemma step_ref c : enabled S0 (Eref c) -> steps (Eref c).
Proof. intros [Hc Hroom]. destruct (held_node c Hc) as [x Hx]. exact (step_add_ref c x Hx Hroom). Qed.

Lemma step_find p c : enabled S0 (Efind p c) -> steps (Efind p c).
Proof.
  intros (_ & (y & Hy & Hin) & Hroom).
  assert (Hch : child_of h p c) by (exists y; auto). apply (lk_iff _ (hk_links _ _ _ (sk_heap _ Hok))) in Hch.
  unfold parent_of in Hch. cbn [s_heap] in Hch. destruct (h !! c) as [x|] eqn:Hx; [|discriminate Hch].
  exact (step_add_ref c x Hx Hroom).
Qed.

Lemma step_get p c b pfsroot generation how io :
  enabled S0 (Eget p c b pfsroot generation how io) -> steps (Eget p c b pfsroot generation how io).
Proof.
  intros (Hp & Hc & Hb & Hroom & y & Hy & Hlen & Hcol).
  pose proof (hk_live _ _ _ (sk_heap _ Hok) c Hc) as HR0. pose proof (sk_locks _ Hok c) as Hlk.
  pose proof (cnt_nonneg c (map fst drops)). pose proof (cnt_nonneg c locks). pose proof (cnt_nonneg c pins).
  pose proof (cnt_nonneg c holds). unfold refs_of in HR0. cbn -[cnt pins] in *.
  assert (Hnp : c ∉ pins) by (intros E; apply cnt_elem in E; lia).
  assert (HL0 : L c = 0) by (unfold locks_of; cbn -[cnt]; lia).
  destruct (get_ok h R L p c y generation b pfsroot how io (sk_heap _ Hok) Hc Hb Hnp HL0 Hy
              (held_pos p (locked_held p Hp)) Hcol Hlen) as (ok & h' & E & H').
  unfold steps. cbn [next]. rewrite E. cbn [obind]. unfold nrefs in Hroom. cbn in Hroom.
  destruct ok; (eexists; split; [reflexivity|]); (eapply sys_step; [exact H'| | | | |]).
  - intros d. unfold add, refs_of. cbn. destruct (decide (c = d)); lia.
  - intros d. unfold add, locks_of. cbn. destruct (decide (c = d)); lia.
  - intros d. pose proof (sk_locks _ Hok d). cbn -[cnt pins] in *. cbn [cnt]. destruct (decide (c = d)); lia.
  - cbn [length]. lia.
  - auto.
  - intros d. unfold add, refs_of. cbn. destruct (decide (c = d)); lia.
  - reflexivity.
  - exact (sk_locks _ Hok).
  - cbn [length]. lia.
  - intros d refs Hin. apply elem_of_cons in Hin as [[=]|Hin]. auto.
Qed.

Lemma step_lock c ex how io : enabled S0 (Elock c ex how io) -> steps (Elock c ex how io).
Proof.
  intros [Hlt _]. assert (Hc : c ∈ holds).
  { apply cnt_elem. pose proof (cnt_nonneg c locks). pose proof (cnt_nonneg c pins). lia. }
  destruct (held_node c Hc) as [x Hx].
  assert (Hd : L c + cnt c pins < R c).
  { unfold locks_of, refs_of. cbn -[cnt pins] in *. pose proof (cnt_nonneg c (map fst drops)). lia. }
  destruct (lock_ok h R L c x how io (sk_heap _ Hok) Hx Hd) as (h' & E & H'). unfold steps. cbn [next]. rewrite E. cbn [obind].
  eexists. split; [reflexivity|]. eapply sys_step; [exact H'|reflexivity| | |exact (sk_room _ Hok)|auto].
  - intros d. unfold add, locks_of. cbn. destruct (decide (c = d)); lia.
  - intros d. pose proof (sk_locks _ Hok d). cbn -[cnt pins] in *. cbn [cnt]. destruct (decide (c = d)) as [<-|]; lia.
Qed.

Lemma step_unlock c : enabled S0 (Eunlock c) -> steps (Eunlock c).
Proof.
  intros Hc. cbn in Hc. destruct (held_node c (locked_held c Hc)) as [x Hx].
  assert (Hl : 0 < L c) by (apply cnt_elem; exact Hc).
  destruct (unlock_ok h R L c x (sk_heap _ Hok) Hx Hl) as (h' & E & H'). unfold steps. cbn [next]. rewrite E. cbn [obind].
  eexists. split; [reflexivity|]. eapply sys_step; [exact H'|reflexivity| | |exact (sk_room _ Hok)|auto].
  - intros d. rewrite (cnt_remove1_id d c locks Hc). unfold add, locks_of. cbn. destruct (decide (c = d)); lia.
  - intros d. rewrite (cnt_remove1_id d c locks Hc). pose proof (sk_locks _ Hok d). cbn -[cnt pins] in *.
    destruct (decide (c = d)); lia.
Qed.

Lemma steps_heap (m : outcome heap) :
  (exists h', m = Done h' /\ heap_ok h' R L) ->
  exists s', (let! h := m in Done (Sys h holds locks excl drops)) = Done s' /\ sys_ok s'.
Proof. intros (h' & -> & H'). eexists. split; [reflexivity|]. exact (sys_heap h' H'). Qed.

Lemma step_flags c set clr : enabled S0 (Eflags c set clr) -> steps (Eflags c set clr).
Proof.
  intros (_ & Hc & Hs & Hcl). destruct (held_node c (locked_held c Hc)) as [x Hx].
  pose proof (held_pos c (locked_held c Hc)) as HR. unfold steps. cbn [next]. unfold get. rewrite Hx. cbn [obind].
  eexists. split; [reflexivity|]. apply sys_heap.
  assert (Hk : forall m, m .& LINK_FLAGS = m -> tst ((c_flags x .| set) .&~ clr) m = tst (c_flags x) m).
  { intros m Hm. assert (Hz : forall a, a .& LINK_FLAGS = 0 -> a .& m = 0).
    { intros a Ha. rewrite <- Hm, (Z.land_comm m), Z.land_assoc, Ha. reflexivity. }
    rewrite tst_disjoint by exact (Hz clr Hcl). rewrite tst_lor. unfold tst at 2. rewrite (Hz set Hs). apply orb_false_r. }
  change (clear_flag clr (set_flag set x)) with (set_cflags ((c_flags x .| set) .&~ clr) x).
  apply flags_ok; [exact (sk_heap _ Hok)|exact Hx|apply Hk; reflexivity|apply Hk; reflexivity|intros E; lia].
Qed.

Lemma step_setflush c : enabled S0 (Esetflush c) -> steps (Esetflush c).
Proof.
  intros Hc. cbn in Hc. destruct (held_node c Hc) as [x Hx]. apply steps_heap.
  exact (setflush_ok R L _ h c x (sk_heap _ Hok) Hx).
Qed.

Lemma step_delete op c modify : enabled S0 (Edelete op c modify) -> steps (Edelete op c modify).
Proof.
  intros (_ & Hc & x & Hx & Hdel & Hop & Hp).
  destruct (delete_ok h R L op c x modify (sk_heap _ Hok) Hx Hdel Hop (held_pos c (locked_held c Hc))) as (error & h' & E & H').
  2: { unfold steps. cbn [next]. rewrite E. cbn [obind]. eexists. split; [reflexivity|]. exact (sys_heap h' H'). }
  destruct op as [p|]; [|exact Hp]. destruct Hp as (_ & Hp & y & Hy). split; [exact (held_pos p (locked_held p Hp))|eauto].
Qed.

Lemma step_insert p c live : enabled S0 (Einsert p c live) -> steps (Einsert p c live).
Proof.
  intros (_ & _ & _ & _ & Hne & Hnp & x & y & Hx & Hy & Hpar & Hcol & Hlen). unfold steps. cbn [next].
  destruct (insert_ok h R L p c x y live false 0 (sk_heap _ Hok) Hx Hy Hne Hpar Hnp (fun _ => Hcol) Hlen)
    as [[_ [=]]|(h' & x' & -> & H' & _)].
  cbn [obind]. eexists. split; [reflexivity|]. exact (sys_heap h' H').
Qed.

Lemma drop_read_ok c : 0 < R c -> exists x, h !! c = Some x /\ drop_read h c = Done (c_refs x) /\ c_refs x = R c.
Proof.
  intros Hc. destruct (heap_held _ _ _ _ (sk_heap _ Hok) Hc) as [x Hx]. exists x. split; [exact Hx|].
  destruct (hk_node _ _ _ (sk_heap _ Hok) c x Hx) as [[Er _] _ _ _ _ _ _ _]. split; [|exact Er].
  unfold drop_read, get. cbn [s_heap] in Hx. rewrite Hx. cbn [obind]. rewrite assert_true by (apply Z.ltb_lt; lia). reflexivity.
Qed.

Lemma step_drop c : enabled S0 (Edrop c) -> steps (Edrop c).
Proof.
  intros Hlt. cbn -[cnt pins] in Hlt. assert (Hc : c ∈ holds).
  { apply cnt_elem. pose proof (cnt_nonneg c locks). pose proof (cnt_nonneg c pins). lia. }
  destruct (drop_read_ok c (held_pos c Hc)) as (x & _ & E & _). unfold steps. cbn [next]. rewrite E. cbn [obind].
  eexists. split; [reflexivity|]. apply (sys_step h _ _ _ _ R L); [exact (sk_heap _ Hok)| |reflexivity| | |].
  - intros d. unfold refs_of. cbn. rewrite (cnt_remove1_id d c holds Hc). destruct (decide (c = d)); lia.
  - intros d. rewrite (cnt_remove1_id d c holds Hc). pose proof (sk_locks _ Hok d). cbn -[cnt pins] in *.
    destruct (decide (c = d)) as [<-|]; lia.
  - pose proof (length_remove1 c holds Hc). pose proof (sk_room _ Hok) as Hr. unfold nrefs in Hr. cbn in Hr |- *. lia.
  - intros d refs Hin. apply elem_of_cons in Hin as [[=]|Hin]. auto.
Qed.

Lemma remove1_sub {A} `{EqDecision A} (x y : A) l : x ∈ remove1 y l -> x ∈ l.
Proof.
  induction l as [|z l IH]; cbn [remove1]; [auto|]. destruct (decide (z = y)); [intros H; right; exact H|].
  rewrite !elem_of_cons. intuition.
Qed.

Lemma step_reads c : enabled S0 (Eread c) -> steps (Eread c).
Proof.
  intros Hin. cbn in Hin. destruct (dropping c None Hin) as [Hd HR]. destruct (drop_read_ok c HR) as (x & _ & E & Er).
  unfold steps. cbn [next]. rewrite E. cbn [obind].
  eexists. split; [reflexivity|]. apply (sys_step h _ _ _ _ R L); [exact (sk_heap _ Hok)| |reflexivity|exact (sk_locks _ Hok)| |].
  - intros d. unfold refs_of. cbn [map fst cnt]. rewrite (cnt_remove1 fst d (c, None) drops Hin). cbn. destruct (decide (c = d)); lia.
  - pose proof (length_remove1 (c, None) drops Hin). pose proof (sk_room _ Hok) as Hr. unfold nrefs in Hr. cbn in Hr |- *. lia.
  - intros d refs Hdr. apply elem_of_cons in Hdr as [[= -> ->]|Hdr]; [right|left; exact (remove1_sub _ _ _ Hdr)].
    rewrite Er. split; [exact HR|]. intros Hp. apply cnt_elem in Hp. unfold droppable in Hd.
    pose proof (cnt_nonneg c locks). unfold locks_of in Hd. cbn -[cnt pins] in Hd. lia.
Qed.

(** The chain that an iteration of the drop loop works on, and the parent of it. *)
Lemma act_room c o p : (c, o) ∈ drops -> p <> c -> R p + 1 < 2 ^ 32 - 1.
Proof.
  intros Hin Hne. assert (Hlen : forall l, cnt c l + cnt p l <= Z.of_nat (length l)).
  { induction l as [|d l IH]; cbn [cnt length]; [lia|]. destruct (decide (d = c)), (decide (d = p)); try congruence; lia. }
  pose proof (Hlen holds). pose proof (Hlen (map fst drops)) as E. rewrite length_map in E.
  destruct (dropping c o Hin) as [_ HR]. pose proof (sk_room _ Hok) as Hr. unfold nrefs, refs_of in *. cbn -[cnt] in *. lia.
Qed.

Lemma step_act c refs : enabled S0 (Eact c refs) ->
  (next S0 (Eact c refs) = Panic /\ refs = 1 /\ (c ∉ locks) /\ (exists x, h !! c = Some x /\ null_parent x))
  \/ (steps (Eact c refs) /\ ~ (refs = 1 /\ (c ∉ locks) /\ (exists x, h !! c = Some x /\ null_parent x))).
Proof.
  intros Hin. cbn in Hin. destruct (dropping c (Some refs) Hin) as [Hd HR].
  destruct (heap_held _ _ _ _ (sk_heap _ Hok) HR) as [x Hx]. cbn [s_heap] in Hx.
  destruct (sk_drops _ Hok c refs Hin) as [Hpos Hpin].
  assert (HL : L c = 0 <-> c ∉ locks).
  { rewrite cnt_elem. pose proof (cnt_nonneg c locks). unfold locks_of. cbn -[cnt]. lia. }
  assert (Hroom : forall p, c_parent x = Some p -> R p + 1 < 2 ^ 32 - 1).
  { intros p Hp. apply (act_room c (Some refs) p Hin). intros ->.
    exact (lk_self _ (hk_links _ _ _ (sk_heap _ Hok)) c (parent_some h c x c Hx Hp)). }
  unfold steps. cbn [next].
  destruct (act_ok h R L c x refs (sk_heap _ Hok) Hx Hd Hpin Hpos Hroom) as [(-> & E1 & E2 & E3)|(nx & h' & -> & H' & _ & Hn)].
  - left. cbn [obind]. rewrite HL in E2. eauto 10.
  - right. cbn [obind]. split.
    2: { intros (E1 & E2 & x' & Hx' & E3). rewrite Hx in Hx'. injection Hx' as <-. apply Hn. rewrite HL. auto. }
    assert (Hcnt : forall d, cnt d (map fst (remove1 (c, Some refs) drops)) = (cnt d (map fst drops) - (if decide (c = d) then 1 else 0))%Z).
    { intros d. apply (cnt_remove1 fst d (c, Some refs) drops Hin). }
    pose proof (length_remove1 (c, Some refs) drops Hin) as Hlen. pose proof (sk_room _ Hok) as Hr. unfold nrefs in Hr. cbn in Hr.
    destruct nx as [|d0]; (eexists; split; [reflexivity|]);
      (eapply sys_step; [exact H'| |reflexivity|exact (sk_locks _ Hok)|cbn [length]; lia|]).
    + intros d. rewrite Hcnt. unfold refs_after, add, refs_of. cbn. destruct (decide (c = d)); lia.
    + intros d r Hdr. left. exact (remove1_sub _ _ _ Hdr).
    + intros d. cbn [map fst cnt]. rewrite Hcnt. unfold refs_after, add, refs_of. cbn.
      destruct (decide (c = d)), (decide (d0 = d)); lia.
    + intros d r Hdr. apply elem_of_cons in Hdr as [[=]|Hdr]. left. exact (remove1_sub _ _ _ Hdr).
Qed.
End Steps.
