(* ===== verification/ChainSteps.v ===== *)
(** The theorems about the life of chains: the invariant of the reachable states
    of ChainLife, the one way in which a step can fail, and the termination of an
    undisturbed drop. *)

From Stdlib Require Import ZArith Lia Bool.
From stdpp Require Import base numbers list option gmap.
From S2P Require Import Prelude Disk BlockTable ChainCore ChainLife ChainLifeProof.

(** * Reachable states *)

Lemma root_node_ok (R L : nat -> Z) c type :
  R c = 1 -> L c = 0 -> cnt c pins = 1 ->
  type = HAMMER2_BREF_TYPE_VOLUME \/ type = HAMMER2_BREF_TYPE_FREEMAP -> node_ok R L c (root_chain type).
Proof.
  intros HR HL Hp Ht. constructor; cbn -[cnt pins]; rewrite ?HR, ?HL, ?Hp; try lia.
  - reflexivity.
  - intros _. split; [|split; reflexivity]. destruct Ht as [-> | ->]; reflexivity.
  - intros Hn. destruct Hn. apply cnt_elem. lia.
Qed.

Lemma init_ok : sys_ok init_sys.
Proof.
  assert (Hh : forall c x, s_heap init_sys !! c = Some x ->
    (c = 0%nat /\ x = root_chain HAMMER2_BREF_TYPE_VOLUME) \/ (c = 1%nat /\ x = root_chain HAMMER2_BREF_TYPE_FREEMAP)).
  { intros c x. cbn [init_sys s_heap]. intros H. apply lookup_insert_Some in H as [[<- <-]|[_ H]]; [auto|].
    apply lookup_singleton_Some in H as [<- <-]. auto. }
  constructor.
  - constructor.
    + intros c x H. destruct (Hh c x H) as [[-> ->]|[-> ->]]; apply root_node_ok; auto.
    + constructor.
      * intros c p. unfold parent_of, child_of. split.
        -- destruct (s_heap init_sys !! c) as [x|] eqn:E; [|discriminate].
           destruct (Hh c x E) as [[-> ->]|[-> ->]]; discriminate.
        -- intros (y & E & Hin). destruct (Hh p y E) as [[-> ->]|[-> ->]]; apply not_elem_of_nil in Hin; contradiction.
      * intros p y E. destruct (Hh p y E) as [[-> ->]|[-> ->]]; constructor.
      * intros c. unfold parent_of. destruct (s_heap init_sys !! c) as [x|] eqn:E; [|discriminate].
        destruct (Hh c x E) as [[-> ->]|[-> ->]]; discriminate.
    + intros c H. cbn [init_sys s_heap] in H. apply lookup_insert_None in H as [H H0].
      apply lookup_singleton_None in H. unfold refs_of. cbn. destruct (decide (0%nat = c)), (decide (1%nat = c)); congruence || lia.
  - intros c. cbn. destruct (decide (0%nat = c)), (decide (1%nat = c)); lia.
  - discriminate.
  - intros c refs H. apply not_elem_of_nil in H. contradiction.
Qed.

(** The race that [hammer2_chain_lastdrop] loses: a drop read [refs] as 1, and
    before it got the mutex the chain was found, deleted from its parent and
    unlocked by another thread. *)
Definition loses_race (s : sys) (e : event) : Prop :=
  exists c x, e = Eact c 1 /\ (c ∉ s_locks s) /\ s_heap s !! c = Some x /\ null_parent x.

Lemma step_ok s e : sys_ok s -> enabled s e ->
  (next s e = Panic /\ loses_race s e) \/ ((exists s', next s e = Done s' /\ sys_ok s') /\ ~ loses_race s e).
Proof.
  destruct s as [h holds locks excl drops]. intros Hok He.
  assert (Hnot : (forall c, e <> Eact c 1) -> ~ loses_race (Sys h holds locks excl drops) e).
  { intros Hne (c & x & -> & _). exact (Hne c eq_refl). }
  destruct e; try (right; split; [|apply Hnot; discriminate]).
  - exact (step_ref h holds locks excl drops Hok c He).
  - exact (step_find h holds locks excl drops Hok p c He).
  - exact (step_get h holds locks excl drops Hok p c b pfsroot generation how io He).
  - exact (step_lock h holds locks excl drops Hok c excl0 how io He).
  - exact (step_unlock h holds locks excl drops Hok c He).
  - exact (step_flags h holds locks excl drops Hok c set clr He).
  - exact (step_setflush h holds locks excl drops Hok c He).
  - exact (step_delete h holds locks excl drops Hok p c modify He).
  - exact (step_insert h holds locks excl drops Hok p c live He).
  - exact (step_drop h holds locks excl drops Hok c He).
  - exact (step_reads h holds locks excl drops Hok c He).
  - destruct (step_act h holds locks excl drops Hok c refs He) as [(A & -> & B & x & C & D)|[A B]].
    + left. split; [exact A|]. exists c, x. auto.
    + right. split; [exact A|]. intros (c' & x & [= <- ->] & Hl & Hx & Hn). apply B. eauto.
Qed.

Lemma reach_sys_ok s : reach s -> sys_ok s.
Proof.
  induction 1 as [|s e s' Hr IH He Hs]; [exact init_ok|].
  destruct (step_ok s e IH He) as [[E _]|[(s1 & E & H1) _]]; rewrite Hs in E; [discriminate E|].
  injection E as <-. exact H1.
Qed.

(** C15. In every state that threads can reach by referencing, looking up, loading,
    locking, flagging, deleting, inserting and dropping chains in any order:
    [refs] and [lockcnt] of a chain are the references and locks that exist,
    parents and children agree, an unlocked chain holds no buffer, the counters
    do not wrap, a chain that is referenced is allocated, and a chain with no
    reference stays allocated only while it is linked and has children or is
    dirty. *)
Theorem chain_life_invariant s : reach s -> sys_ok s.
Proof. exact (reach_sys_ok s). Qed.

(** C16. No step touches a freed chain or fails an assertion, with one exception:
    an enabled step fails exactly when it is the last drop of a chain that was
    deleted from its parent, without children, while the drop waited for the
    mutex, and that another thread still references. *)
Theorem chain_step_fails_iff s e :
  reach s -> enabled s e -> (next s e = Panic <-> loses_race s e).
Proof.
  intros Hr He. destruct (step_ok s e (reach_sys_ok s Hr) He) as [[E H]|[(s' & E & _) H]]; rewrite E; [tauto|].
  split; [discriminate|tauto].
Qed.

(** * A run that loses the race *)

Fixpoint run (s : sys) (es : list event) : outcome sys :=
  match es with
  | [] => Done s
  | e :: es => let! s := next s e in run s es
  end.

Fixpoint all_enabled (s : sys) (es : list event) : Prop :=
  match es with
  | [] => True
  | e :: es => enabled s e /\ match next s e with Done s => all_enabled s es | Panic => True end
  end.

Lemma reach_run es : forall s s', reach s -> all_enabled s es -> run s es = Done s' -> reach s'.
Proof.
  induction es as [|e es IH]; intros s s' Hr Hen H; [injection H as <-; exact Hr|].
  cbn [run all_enabled] in *. destruct Hen as [He Hen]. destruct (next s e) as [s1|] eqn:E; [|discriminate H].
  exact (IH s1 s' (reach_next s e s1 Hr He E) Hen H).
Qed.

Definition inode_bref : blockref := Bref HAMMER2_BREF_TYPE_INODE 0 0 0 7 0 0 (65536 .| 10) 0 0 0 [].

(** A thread loads an inode under the volume root, unlocks it and starts to drop
    it; when the drop has read [refs], a second thread finds and locks the inode. *)
Definition load_and_find : list event :=
  [Eref 0; Elock 0 true HAMMER2_RESOLVE_ALWAYS (IOdata true); Eget 0 2 inode_bref false 0 HAMMER2_RESOLVE_ALWAYS (IOdata true);
   Eunlock 2; Edrop 2; Eread 2; Efind 0 2; Elock 2 true HAMMER2_RESOLVE_NEVER IOerror].

(** The second thread deletes the inode. *)
Definition find_and_delete : list event := load_and_find ++ [Edelete (Some 0%nat) 2 0; Eunlock 2].

Ltac enable :=
  lazymatch goal with
  | |- _ /\ _ => split; enable
  | |- True => exact I
  | |- bref_ok _ => split; enable
  | |- _ -> _ => let E := fresh in intros E; first [vm_compute in E; discriminate E|clear E; enable]
  | |- _ ∈ _ => apply (bool_decide_eq_true_1 _); vm_compute; reflexivity
  | |- _ ∉ _ => apply (bool_decide_eq_true_1 _); vm_compute; reflexivity
  | |- exists y, _ => eexists; enable
  | |- _ => first [vm_compute; reflexivity | vm_compute; congruence]
  end.

(** Evaluate the step that was enabled. *)
Ltac next_step :=
  cbn [all_enabled]; split; [cbn [enabled init_sys]|
    match goal with |- match ?o with _ => _ end =>
      let v := eval vm_compute in o in replace o with v by (vm_compute; reflexivity); cbv beta iota end].

Lemma race_reach : exists s, run init_sys find_and_delete = Done s /\ reach s.
Proof.
  destruct (run init_sys find_and_delete) as [s|] eqn:E; [|vm_compute in E; discriminate E].
  exists s. split; [reflexivity|]. apply (reach_run find_and_delete init_sys s reach_start); [|exact E].
  unfold find_and_delete, load_and_find, app.
  do 10 (next_step; [enable|]). exact I.
Qed.

(** The state after the run, with the drop of the first thread still under way. *)
Lemma race_panics : exists s, run init_sys find_and_delete = Done s /\ enabled s (Eact 2 1) /\ next s (Eact 2 1) = Panic.
Proof.
  destruct (run init_sys find_and_delete) as [s|] eqn:E; [|vm_compute in E; discriminate E].
  exists s. split; [reflexivity|]. vm_compute in E. injection E as <-. split; [|vm_compute; reflexivity].
  cbn [enabled]. enable.
Qed.

(** The race can be lost: one thread loads an inode, unlocks it and drops
    it, and reads [refs] = 1; a second thread looks the inode up, locks it,
    deletes it from its parent and unlocks it; the first thread then gets the
    mutex, finds [parent] NULL, fails the compare-and-set of [refs] and uses the
    NULL parent. *)
Theorem chain_drop_null_parent :
  exists s, reach s /\ enabled s (Eact 2 1) /\ next s (Eact 2 1) = Panic.
Proof.
  destruct race_reach as (s & E & Hr), race_panics as (s' & E' & H). rewrite E in E'. injection E' as <-.
  exists s. split; [exact Hr|exact H].
Qed.

(** * An undisturbed drop *)

Lemma freed_size h c p x y y' : h !! c = Some x -> h !! p = Some y -> p <> c -> S (size (freed h c p y')) = size h.
Proof.
  intros Hc Hp Hne. unfold freed.
  assert (Hc' : <[p:=y']> h !! c = Some x) by (rewrite lookup_insert_ne by congruence; exact Hc).
  rewrite map_size_delete_Some, map_size_insert_Some by eauto.
  assert (size h <> 0%nat); [|lia]. intros E. apply map_size_empty_inv in E. subst h. rewrite lookup_empty in Hc. discriminate Hc.
Qed.

(** [hammer2_chain_drop] between two iterations. *)
Record dropping_ok (h : heap) (R L : nat -> Z) (c : nat) : Prop := {
  dk_heap : heap_ok h R L;
  dk_in : exists x, h !! c = Some x;
  dk_ref : droppable R L c;
  dk_room : forall d, d <> c -> R d + 1 < 2 ^ 32 - 1;
  dk_parent : R c = 1 -> forall x, h !! c = Some x -> ~ orphan x
}.

Lemma drop_iter h R L c x : dropping_ok h R L c -> h !! c = Some x ->
  exists nx h', drop_act h c (c_refs x) = Done (nx, h') /\ heap_ok h' (refs_after c nx R) L
    /\ (nx = Dfinished \/ exists p y y', nx = Dagain p /\ p <> c /\ h !! p = Some y /\ h' = freed h c p y' /\ c_tree y' = []).
Proof.
  intros [H _ Hd Hroom Hpar] Hc. destruct (hk_node _ _ _ H c x Hc) as [[Er _] [_ HL0] _ _ _ _ _ _]. unfold droppable in Hd.
  pose proof (cnt_nonneg c pins) as Hp0.
  destruct (act_ok h R L c x (c_refs x) H Hc Hd) as [(_ & E & _ & _ & _ & E')|(nx & h' & E & H' & Hres & _)].
  - intros Hp. apply cnt_elem in Hp. lia.
  - lia.
  - intros p Hp. apply Hroom. intros ->. exact (lk_self _ (hk_links _ _ _ H) c (parent_some h c x c Hc Hp)).
  - congruence.
  - exists nx, h'. split; [exact E|]. split; [exact H'|]. destruct Hres as [[->|[[-> Hw]|Hn]]|Hne]; auto; [|congruence].
    exfalso. destruct (Z.eq_dec (R c) 1) as [E1|E1].
    + destruct Hw as [Hw|(x' & Hx' & Hw)]; [congruence|]. exact (Hpar E1 x' Hx' Hw).
    + revert E. unfold drop_act, get. rewrite Hc. cbn [obind]. rewrite Er. destruct (Z.eqb_spec (R c) 1); [congruence|].
      rewrite Z.eqb_refl. discriminate.
Qed.

Lemma drop_loop_ok L fuel : forall h R c, dropping_ok h R L c -> (size h < fuel)%nat ->
  exists h', drop_loop fuel h c = Done (Dfinished, h') /\ heap_ok h' (add c (- 1) R) L.
Proof.
  induction fuel as [|fuel IH]; intros h R c Hok Hf; [lia|]. cbn [drop_loop].
  pose proof Hok as [H [x Hc] Hd Hroom Hpar].
  destruct (drop_iter h R L c x Hok Hc) as (nx & h' & E & H' & Hres).
  destruct (hk_node _ _ _ H c x Hc) as [[Er Hr] [_ HL0] _ _ _ _ _ _]. unfold droppable in Hd. pose proof (cnt_nonneg c pins).
  unfold drop_read, get. rewrite Hc. cbn [obind]. rewrite assert_true by (apply Z.ltb_lt; lia). cbn [obind]. rewrite E. cbn [obind].
  destruct Hres as [->|(p & y & y' & -> & Hne & Hy & -> & Ht)]; [eauto|].
  assert (Hp' : freed h c p y' !! p = Some y').
  { unfold freed. rewrite lookup_delete_ne by congruence. apply lookup_insert_eq. }
  destruct (hk_node _ _ _ H' p y' Hp') as [[_ Hr'] [_ HLp] Hpin' _ _ _ _ _].
  assert (Hok' : dropping_ok (freed h c p y') (refs_after c (Dagain p) R) L p).
  { constructor; [exact H'|eauto| | |].
    - destruct (hk_node _ _ _ H p y Hy) as [_ _ Hpin _ _ _ _ _]. unfold droppable. cbn [refs_after].
      rewrite add_at, add_ne by congruence. lia.
    - intros d Hdp. cbn [refs_after]. rewrite add_ne by congruence. unfold add. destruct (decide (c = d)) as [<-|Hcd]; [lia|].
      apply Hroom. congruence.
    - intros _ y0 E0 [_ Ho]. rewrite Hp' in E0. injection E0 as <-. exact (Ho Ht). }
  pose proof (freed_size h c p x y y' Hc Hy Hne) as Hs.
  destruct (IH _ _ p Hok' ltac:(lia)) as (h2 & E2 & H2). exists h2. split; [exact E2|].
  apply (heap_ext _ _ _ _ _ H2); [|reflexivity]. intros d. cbn [refs_after]. unfold add.
  destruct (decide (c = d)), (decide (p = d)); lia.
Qed.

(** [hammer2_chain_drop], when no other thread comes between, always
    returns, however many ancestors lose their last child on the way: the
    reference is given up exactly once and the heap stays sound.  The exception is
    a chain deleted from its parent that still has children, for which
    [hammer2_flush] has to take the children apart first. *)
Theorem chain_drop_completes h R L c : dropping_ok h R L c ->
  exists h', hammer2_chain_drop h c = Done (Dfinished, h') /\ heap_ok h' (add c (- 1) R) L.
Proof.
  intros Hok. destruct (drop_loop_ok L (S (size h)) h R c Hok ltac:(lia)) as (h' & E & H').
  exists h'. split; [|exact H']. unfold hammer2_chain_drop, get.
  pose proof Hok as [H [x Hc] Hd _ _]. rewrite Hc. cbn [obind].
  destruct (hk_node _ _ _ H c x Hc) as [[Er _] [_ HL0] _ _ _ _ _ _]. unfold droppable in Hd. pose proof (cnt_nonneg c pins).
  rewrite assert_true by (apply Z.ltb_lt; lia). exact E.
Qed.

(** * Concrete runs *)

Lemma chain_life_invariant_witness : exists s, run init_sys find_and_delete = Done s /\ sys_ok s.
Proof.
  destruct race_reach as (s & E & Hr). exists s. split; [exact E|]. exact (chain_life_invariant s Hr).
Defined.

Lemma chain_step_fails_iff_witness :
  exists s, run init_sys find_and_delete = Done s /\ (next s (Eact 2 1) = Panic <-> loses_race s (Eact 2 1)).
Proof.
  destruct race_reach as (s & E & Hr), race_panics as (s' & E' & He & _).
  exists s. split; [exact E|]. apply (chain_step_fails_iff s (Eact 2 1) Hr).
  rewrite E in E'. injection E' as <-. exact He.
Defined.

Definition load_inode : list event :=
  [Eref 0; Elock 0 true HAMMER2_RESOLVE_ALWAYS (IOdata true); Eget 0 2 inode_bref false 0 HAMMER2_RESOLVE_ALWAYS (IOdata true); Eunlock 2].

Lemma loaded_dropping : exists s, run init_sys load_inode = Done s /\ dropping_ok (s_heap s) (refs_of s) (locks_of s) 2.
Proof.
  destruct (run init_sys load_inode) as [s|] eqn:E; [|vm_compute in E; discriminate E].
  exists s. split; [reflexivity|]. assert (Hok : sys_ok s).
  { apply reach_sys_ok, (reach_run load_inode init_sys s reach_start); [|exact E].
    unfold load_inode. do 4 (next_step; [enable|]). exact I. }
  constructor; [exact (sk_heap _ Hok)| | | |]; vm_compute in E; injection E as <-.
  - eexists. vm_compute. reflexivity.
  - unfold droppable. vm_compute. reflexivity.
  - intros d _. unfold refs_of. cbn. repeat destruct (decide _); lia.
  - intros _ x Hx [Hp _]. vm_compute in Hx. injection Hx as <-. discriminate Hp.
Qed.

Lemma chain_drop_completes_witness : exists s h', run init_sys load_inode = Done s
  /\ hammer2_chain_drop (s_heap s) 2 = Done (Dfinished, h') /\ heap_ok h' (add 2 (- 1) (refs_of s)) (locks_of s).
Proof.
  destruct loaded_dropping as (s & E & Hok).
  destruct (chain_drop_completes (s_heap s) (refs_of s) (locks_of s) 2 Hok) as (h' & E' & H').
  exists s, h'. auto.
Defined.
