(* ===== verification/Lookup.v ===== *)
(** The lookup of a key in the topology under an inode (hammer2_chain.c:
    hammer2_chain_lookup, hammer2_chain_next): indirect blocks are descended and,
    when they are exhausted, left again; blocks that are not in memory are loaded.

    The model is sequential: it runs while nobody else changes the topology,
    which the locks that the functions hold from the parent downward ensure.  A
    node holds the block table that locking its chain makes available; [media]
    is what a read of the block behind a blockref returns. *)

From Stdlib Require Import ZArith Lia Bool.
From stdpp Require Import base numbers list option gmap.
From S2P Require Import Prelude Disk BlockTable ChainFind.

Abbreviation HAMMER2_LOOKUP_NODIRECT := 4 (only parsing).
Abbreviation HAMMER2_LOOKUP_MATCHIND := 512 (only parsing).      (* 0x00000200 *)

(** * State *)

(** A chain in memory, as far as lookups see it. *)
Record lnode := LNode {
  l_chain : mchain;                   (* bref and flags *)
  l_parent : option nat;
  l_initial : bool;                   (* HAMMER2_CHAIN_INITIAL *)
  l_direct : bool;                    (* op_flags & HAMMER2_OPFLAG_DIRECTDATA of an inode *)
  l_bytes : Z;
  l_error : Z;
  l_core : core;                      (* live_zero, live_count, cache_index, COUNTEDBREFS *)
  l_base : option (list blockref);    (* the block table in the data *)
  l_tree : list nat                   (* core.rbtree, in key order *)
}.

Definition l_bref (x : lnode) : blockref := ch_bref (l_chain x).
Definition set_l_core (v : core) (x : lnode) : lnode :=
  LNode (l_chain x) (l_parent x) (l_initial x) (l_direct x) (l_bytes x) (l_error x) v (l_base x) (l_tree x).
Definition set_l_tree (v : list nat) (x : lnode) : lnode :=
  LNode (l_chain x) (l_parent x) (l_initial x) (l_direct x) (l_bytes x) (l_error x) (l_core x) (l_base x) v.

(** The chains in memory; the allocator hands out the addresses from [t_next] on. *)
Record topo := Topo { t_nodes : gmap nat lnode; t_next : nat }.

Definition node (t : topo) (i : nat) : outcome lnode :=
  match t_nodes t !! i with
  | Some x => Done x
  | None => Panic
  end.
Definition set_node (i : nat) (x : lnode) (t : topo) : topo := Topo (<[i := x]> (t_nodes t)) (t_next t).

(** What a block holds: the error of the read or of its check code, and the table. *)
Record loaded := Loaded { ld_error : Z; ld_direct : bool; ld_table : list blockref }.

(** Blocks of the radix tree. *)
Definition is_node_type (b : blockref) : bool :=
  (br_type b =? HAMMER2_BREF_TYPE_INDIRECT) || (br_type b =? HAMMER2_BREF_TYPE_FREEMAP_NODE).

(** The in-memory children as chains. *)
Definition chains_of (t : topo) (l : list nat) : list mchain := omap (fun i => l_chain <$> t_nodes t !! i) l.

(** The address of a chain that a scan of the tree returned. *)
Definition chain_at (t : topo) (l : list nat) (c : mchain) : option nat :=
  head (filter (fun i => l_chain <$> t_nodes t !! i = Some c) l).

(** * Lookup *)

Section lookup.
Context (media : blockref -> loaded).

(** [base] and [count] of the parent. *)
Definition lookup_base (x : lnode) : outcome (option (list blockref) * Z) :=
  match br_type (l_bref x) with
  | HAMMER2_BREF_TYPE_INODE | HAMMER2_BREF_TYPE_VOLUME | HAMMER2_BREF_TYPE_FREEMAP =>
      match l_base x with
      | Some bs => Done (Some bs, HAMMER2_SET_COUNT)
      | None => Panic
      end
  | HAMMER2_BREF_TYPE_FREEMAP_NODE | HAMMER2_BREF_TYPE_INDIRECT =>
      if l_initial x then Done (None, l_bytes x / HAMMER2_BLOCKREF_BYTES)
      else
        match l_base x with
        | Some bs => Done (Some bs, l_bytes x / HAMMER2_BLOCKREF_BYTES)
        | None => Panic
        end
  | _ => Panic
  end.

(** The position of a new child in the tree. *)
Fixpoint tree_add (t : topo) (i : nat) (b : blockref) (l : list nat) : list nat :=
  match l with
  | [] => [i]
  | j :: l =>
      match t_nodes t !! j with
      | Some y => if br_key b <? br_key (l_bref y) then i :: j :: l else j :: tree_add t i b l
      | None => j :: tree_add t i b l
      end
  end.

Definition bref_bytes (b : blockref) : Z :=
  if br_data_off b .& HAMMER2_OFF_MASK_RADIX =? 0 then 0
  else u32 (1 .<< (br_data_off b .& HAMMER2_OFF_MASK_RADIX)).

(** The chain that [hammer2_chain_get] makes of a table entry. *)
Definition loaded_node (parent : nat) (b : blockref) : lnode :=
  LNode (Chain b false true false false) (Some parent) false (ld_direct (media b)) (bref_bytes b)
    (ld_error (media b)) (Core 0 0 0 false b)
    (if ld_error (media b) =? 0 then Some (ld_table (media b)) else None) [].

(** [hammer2_chain_get]: nobody else can insert, so it does not fail. *)
Definition chain_get (t : topo) (parent : nat) (b : blockref) : outcome (nat * topo) :=
  let! p := node t parent in
  let i := t_next t in
  Done (i, Topo (<[parent := set_l_tree (tree_add t i b (l_tree p)) p]> (<[i := loaded_node parent b]> (t_nodes t))) (S i)).

Definition hammer2_chain_repparent (t : topo) (chain : nat) : outcome nat :=
  let! x := node t chain in
  match l_parent x with
  | Some p => Done p
  | None => Panic
  end.

(** The chain, the parent, *key_nextp, *errorp. *)
Record result := Result { r_chain : option nat; r_parent : nat; r_key_next : Z; r_error : Z; r_topo : topo }.

(** The range of the parent covers the search. *)
Definition encloses (x : lnode) (key_beg key_end : Z) : bool :=
  (br_key (l_bref x) <=? key_beg) && (key_end <=? key_last (l_bref x)).

(** The first loop: up to a parent that encloses the range, or the inode.  Every
    turn goes one level up. *)
Fixpoint lookup_up (fuel : nat) (t : topo) (parent : nat) (key_beg key_end : Z) : outcome nat :=
  let! x := node t parent in
  if is_node_type (l_bref x) then
    if negb (ch_deleted (l_chain x)) && encloses x key_beg key_end then Done parent
    else
      match fuel with
      | O => Panic
      | S fuel => let! parent := hammer2_chain_repparent t parent in lookup_up fuel t parent key_beg key_end
      end
  else Done parent.

Section again.
Context (flags key_end : Z).

(** The parent has no more children in the range: [again] with the next key one
    level up, or NULL. *)
Definition lookup_exhausted (again : topo -> nat -> Z -> Z -> outcome result)
    (t : topo) (parent : nat) (key_beg key_next : Z) : outcome result :=
  let! x := node t parent in
  let stop := Done (Result None parent key_next 0 t) in
  if key_beg =? key_end then stop
  else if negb (is_node_type (l_bref x)) then stop
  else
    let key_beg := key_after (l_bref x) in
    if (key_beg =? 0) || (key_end <? key_beg) then stop
    else let! parent := hammer2_chain_repparent t parent in again t parent key_beg key_next.

(** From the label [again] on; [maxloops] bounds the turns. *)
Fixpoint lookup_again (maxloops : nat) (t : topo) (parent : nat) (key_beg key_next : Z) : outcome result :=
  match maxloops with
  | O => Panic
  | S maxloops =>
      let! x := node t parent in
      if tst flags HAMMER2_LOOKUP_MATCHIND && is_node_type (l_bref x)
         && (key_beg =? br_key (l_bref x)) && (key_end =? key_last (l_bref x)) then
        Done (Result (Some parent) parent (u64 (key_last (l_bref x) + 1)) 0 t)
      else if negb (l_error x =? 0) then Done (Result None parent key_next (l_error x) t)
      else if (br_type (l_bref x) =? HAMMER2_BREF_TYPE_INODE) && l_direct x then
        if tst flags HAMMER2_LOOKUP_NODIRECT then Done (Result None parent (u64 (key_end + 1)) 0 t)
        else Done (Result (Some parent) parent (u64 (key_end + 1)) 0 t)
      else
        let! (base, count) := lookup_base x in
        let co := hammer2_chain_countbrefs (l_core x) base count in
        let! (chain, bref, key_next, co) :=
          hammer2_combined_find co (rb_of (chains_of t (l_tree x))) base count key_beg key_end in
        let t := set_node parent (set_l_core co x) t in
        match bref with
        | None => lookup_exhausted (lookup_again maxloops) t parent key_beg key_next
        | Some b =>
            let! (c, t) :=
              match chain with
              | None => chain_get t parent b
              | Some ch => match chain_at t (l_tree x) ch with Some c => Done (c, t) | None => Panic end
              end in
            let! y := node t c in
            if ch_deleted (l_chain y) then
              if (key_next =? 0) || (key_end <? key_next) then Done (Result None parent key_next 0 t)
              else lookup_again maxloops t parent key_next key_next
            else if is_node_type (l_bref y) then lookup_again maxloops t c key_beg key_next
            else Done (Result (Some c) parent key_next 0 t)
        end
  end.
End again.

(** [--maxloops == 0] is a panic. *)
Definition lookup_maxloops : nat := Z.to_nat 299999.

Definition hammer2_chain_lookup (t : topo) (parent : nat) (key_next key_beg key_end flags : Z) : outcome result :=
  let! parent := lookup_up (size (t_nodes t)) t parent key_beg key_end in
  lookup_again flags key_end lookup_maxloops t parent key_beg key_next.

Definition hammer2_chain_next (t : topo) (parent : nat) (chain : option nat) (key_next key_end flags : Z)
  : outcome result :=
  let stop := Done (Result None parent key_next 0 t) in
  match chain with
  | Some c =>
      let! y := node t c in
      let key_beg := key_after (l_bref y) in
      if bool_decide (c = parent) then stop
      else if (key_beg =? 0) || (key_end <? key_beg) then stop
      else hammer2_chain_lookup t parent key_next key_beg key_end flags
  | None =>
      let! x := node t parent in
      if negb (is_node_type (l_bref x)) then stop
      else
        let key_beg := key_after (l_bref x) in
        if (key_beg =? 0) || (key_end <? key_beg) then stop
        else
          let! parent := hammer2_chain_repparent t parent in
          hammer2_chain_lookup t parent key_next key_beg key_end flags
  end.
End lookup.
