(* ===== verification/LookupSpec.v ===== *)
(** What a lookup sees: the items under a node in key order, well-formed
    topologies, and that loading a block changes neither. *)

From Stdlib Require Import ZArith Lia Bool Sorted.
From stdpp Require Import base numbers list option gmap sorting.
From S2P Require Import Prelude Disk BlockTable BlockTableProof BlockTableSpec ChainFind ChainFindProof Lookup.

(** * Sorted lists of blockrefs *)

Lemma before_keys a b : key_ok a -> before a b -> br_key a < br_key b.
Proof. intros Ha H. pose proof (key_last_range a Ha) as [_ Hr]. unfold before in H. lia. Qed.

Lemma sorted_nodup l : Forall key_ok l -> StronglySorted before l -> NoDup l.
Proof.
  intros Hk. induction 1 as [|a l Hs IH Hf]; [constructor|]. apply Forall_cons_1 in Hk as [Ha Hk].
  constructor; [|exact (IH Hk)]. intros Hin. rewrite Forall_forall in Hf. pose proof (before_keys a a Ha (Hf a Hin)). lia.
Qed.

(** A sorted list is determined by its elements. *)
Lemma sorted_ext l1 : forall l2, Forall key_ok l1 -> Forall key_ok l2 -> StronglySorted before l1 -> StronglySorted before l2 ->
  (forall b, b ∈ l1 <-> b ∈ l2) -> l1 = l2.
Proof.
  induction l1 as [|a l1 IH]; intros [|b l2] K1 K2 S1 S2 E; [reflexivity| | |].
  - exfalso. apply (not_elem_of_nil b), E. left.
  - exfalso. apply (not_elem_of_nil a), E. left.
  - apply Forall_cons_1 in K1 as [Ha K1]. apply Forall_cons_1 in K2 as [Hb K2].
    apply StronglySorted_inv in S1 as [S1 F1]. apply StronglySorted_inv in S2 as [S2 F2]. rewrite Forall_forall in F1, F2.
    assert (a = b) as <-.
    { pose proof (proj1 (E a) ltac:(left)) as [Ea|H1]%elem_of_cons; [assumption|].
      pose proof (proj2 (E b) ltac:(left)) as [Eb|H2]%elem_of_cons; [congruence|].
      pose proof (before_keys _ _ Hb (F2 a H1)). pose proof (before_keys _ _ Ha (F1 b H2)). lia. }
    f_equal. apply IH; try assumption. intros c. split; intros Hc.
    + pose proof (proj1 (E c) ltac:(right; exact Hc)) as [->|H]%elem_of_cons; [|exact H].
      pose proof (before_keys _ _ Ha (F1 a Hc)). lia.
    + pose proof (proj2 (E c) ltac:(right; exact Hc)) as [->|H]%elem_of_cons; [|exact H].
      pose proof (before_keys _ _ Ha (F2 a Hc)). lia.
Qed.

(** * The view as a list of blockrefs *)

Definition brefs (bs : list blockref) (cs : list mchain) : list blockref := fst <$> view bs cs.

Lemma brefs_sorted bs cs :
  entries_ok bs -> chains_ok cs -> coherent bs cs -> StronglySorted before (brefs bs cs) /\ Forall key_ok (brefs bs cs).
Proof.
  intros Hb Hc Hco. destruct (view_sorted bs cs Hb Hc Hco) as [Hs Hk]. unfold brefs. split.
  - clear Hk. induction Hs as [|x l Hs IH Hf]; cbn; constructor; [exact IH|]. apply Forall_fmap. exact Hf.
  - apply Forall_fmap. exact Hk.
Qed.

Lemma elem_of_brefs bs cs b : entries_ok bs -> chains_ok cs -> coherent bs cs ->
  b ∈ brefs bs cs <->
  (exists c, c ∈ cs /\ b = ch_bref c) \/ (b ∈ bs /\ forall c, c ∈ cs -> br_key (ch_bref c) <> br_key b).
Proof.
  intros Hb Hc Hco. destruct (view_sorted bs cs Hb Hc Hco) as [Hs Hk]. rewrite Forall_forall in Hk.
  unfold brefs. rewrite list_elem_of_fmap. split.
  - intros ([b' oc] & -> & Hin). cbn. destruct (elem_of_view _ _ _ Hin) as [[H1 H2]|(c & Hcc & [= -> ->])]; [|left; eauto].
    cbn in H1, H2. subst oc. right. split; [exact H1|]. intros c Hcc E. pose proof (view_chain bs cs c Hcc) as Hv.
    pose proof (Hk _ Hin) as K1. pose proof (Hk _ Hv) as K2. cbn in K1, K2.
    destruct (sorted_pair view_before _ (b', None) (ch_bref c, Some c) Hs Hin Hv) as [H|H]; [congruence| |];
      unfold view_before in H; cbn in H; apply before_keys in H; try assumption; lia.
  - intros [(c & Hcc & ->)|[H1 H2]].
    + exists (ch_bref c, Some c). split; [reflexivity|exact (view_chain bs cs c Hcc)].
    + exists (b, None). split; [reflexivity|exact (view_entry bs cs b Hb H1 H2)].
Qed.

(** Loading the chain of a table entry does not change the view. *)
Lemma brefs_load bs cs cs' c : entries_ok bs -> chains_ok cs -> chains_ok cs' -> coherent bs cs -> coherent bs cs' ->
  ch_bref c ∈ bs -> (forall d, d ∈ cs -> br_key (ch_bref d) <> br_key (ch_bref c)) -> (forall d, d ∈ cs' <-> d = c \/ d ∈ cs) ->
  brefs bs cs' = brefs bs cs.
Proof.
  intros Hb Hc Hc' Hco Hco' Hin Hno Hcs. destruct (brefs_sorted bs cs Hb Hc Hco) as [S1 K1].
  destruct (brefs_sorted bs cs' Hb Hc' Hco') as [S2 K2]. apply sorted_ext; try assumption.
  intros b. rewrite !elem_of_brefs by assumption. split.
  - intros [(d & [->|Hd]%Hcs & ->)|[H1 H2]]; [right; auto|left; eauto|].
    right. split; [exact H1|]. intros d Hd. apply H2, Hcs. auto.
  - intros [(d & Hd & ->)|[H1 H2]]; [left; exists d; rewrite Hcs; auto|].
    destruct (decide (br_key (ch_bref c) = br_key b)) as [E|E].
    + left. exists c. split; [apply Hcs; auto|]. destruct Hb as [Hk Hs]. rewrite Forall_forall in Hk.
      destruct (decide (ch_bref c = b)) as [|Hne]; [congruence|].
      destruct (sorted_pair before bs _ _ Hs Hin H1 Hne) as [H|H]; apply before_keys in H; try (apply Hk; assumption); lia.
    + right. split; [exact H1|]. intros d [->|Hd]%Hcs; [exact E|exact (H2 d Hd)].
Qed.

(** * The items under a node *)

(** What a search meets, in key order: leaves, blocks that cannot be read, and
    blocks of the radix tree, followed by what is under them. *)
Inductive item :=
| Leaf (b : blockref)
| Bad (b : blockref) (error : Z)
| Enter (b : blockref).

Definition item_bref (it : item) : blockref :=
  match it with Leaf b | Bad b _ | Enter b => b end.

(** The item meets the search: it is no block that can be entered, and its keys
    overlap [k, ke]. *)
Definition hit (k ke : Z) (it : item) : bool :=
  match it with
  | Enter _ => false
  | Leaf b | Bad b _ => (k <=? range_last b) && (br_key b <=? ke)
  end.

Definition first_hit_item (k ke : Z) (its : list item) : option item := head (filter (fun it => hit k ke it = true) its).

(** The blocks to enter. *)
Definition is_enter (it : item) : bool := match it with Enter _ => true | _ => false end.
Definition enters (its : list item) : nat := length (filter (fun it => is_enter it = true) its).

(** The block table that a search of [x] uses. *)
Definition table (x : lnode) : list blockref :=
  match lookup_base x with
  | Done (Some bs, _) => live bs
  | _ => []
  end.

Definition entries (t : topo) (x : lnode) : list blockref := brefs (table x) (chains_of t (l_tree x)).

(** The child in memory with blockref [b]. *)
Definition child_with (t : topo) (x : lnode) (b : blockref) : option nat :=
  head (filter (fun i => l_bref <$> t_nodes t !! i = Some b) (l_tree x)).

Section walk.
Context (media : blockref -> loaded).

(** Under a block that is not in memory; [d] bounds the depth. *)
Fixpoint mwalk (d : nat) (b : blockref) : list item :=
  match d with
  | O => []
  | S d =>
      if ld_error (media b) =? 0
      then flat_map (fun b' => if is_node_type b' then Enter b' :: mwalk d b' else [Leaf b']) (live (ld_table (media b)))
      else [Bad b (ld_error (media b))]
  end.

Definition sub (rec : nat -> list item) (d : nat) (t : topo) (x : lnode) (b : blockref) : list item :=
  if is_node_type b then
    Enter b :: match child_with t x b with Some j => rec j | None => mwalk d b end
  else [Leaf b].

Fixpoint walk (d : nat) (t : topo) (i : nat) : list item :=
  match d with
  | O => []
  | S d =>
      match t_nodes t !! i with
      | None => []
      | Some x =>
          if l_error x =? 0 then flat_map (sub (walk d t) d t x) (entries t x)
          else [Bad (l_bref x) (l_error x)]
      end
  end.

(** * Well-formed topologies *)

Definition inside (b b' : blockref) : Prop :=
  br_key b <= br_key b' /\ br_key b' <= range_last b' /\ range_last b' <= range_last b.

(** A block table of [count] slots. *)
Record table_wf (count : Z) (bs : list blockref) : Prop := {
  tw_count : alen bs = count;
  tw_entries : entries_ok (live bs)
}.

(** The blocks under [b], which is not in memory. *)
Fixpoint mwf (d : nat) (b : blockref) : Prop :=
  match d with
  | O => False
  | S d =>
      ld_error (media b) = 0 ->
      table_wf (bref_bytes b / HAMMER2_BLOCKREF_BYTES) (ld_table (media b))
      /\ forall b', b' ∈ live (ld_table (media b)) -> inside b b' /\ (is_node_type b' = true -> mwf d b')
  end.

(** The node [x] at [i] and its links. *)
Record local_ok (t : topo) (i : nat) (x : lnode) : Prop := {
  lo_kids : forall j, j ∈ l_tree x -> exists y, t_nodes t !! j = Some y /\ l_parent y = Some i /\ ch_deleted (l_chain y) = false;
  lo_chains : chains_ok (chains_of t (l_tree x));
  lo_base : exists base count, lookup_base x = Done (base, count)
      /\ match base with
         | Some bs => table_wf count bs /\ (co_counted (l_core x) = true -> live_end (co_live_zero (l_core x)) bs)
         | None => True
         end;
  lo_coherent : coherent (table x) (chains_of t (l_tree x));
  lo_inside : is_node_type (l_bref x) = true -> forall b, b ∈ entries t x -> inside (l_bref x) b
}.

Fixpoint wf (d : nat) (t : topo) (i : nat) : Prop :=
  match d with
  | O => False
  | S d =>
      exists x, t_nodes t !! i = Some x /\
      (l_error x = 0 ->
       local_ok t i x
       /\ forall b, b ∈ entries t x -> is_node_type b = true ->
            match child_with t x b with Some j => wf d t j | None => mwf d b end)
  end.

(** The allocator has not handed out the next addresses, and no tree holds them. *)
Definition fresh_ok (t : topo) : Prop :=
  forall i, (t_next t <= i)%nat -> t_nodes t !! i = None /\ forall p x, t_nodes t !! p = Some x -> i ∉ l_tree x.

(** [t'] is [t] with more blocks loaded: every node is what it was, except for its
    search hints and its loaded children, and a search meets the same items. *)
Record loads (t t' : topo) : Prop := {
  ld_fresh : fresh_ok t -> fresh_ok t';
  ld_node : forall i x, t_nodes t !! i = Some x ->
    exists x', t_nodes t' !! i = Some x' /\ l_chain x' = l_chain x /\ l_parent x' = l_parent x /\ l_error x' = l_error x
      /\ lookup_base x' = lookup_base x /\ l_direct x' = l_direct x
      /\ entries t' x' = entries t x /\ (forall j, j ∈ l_tree x -> j ∈ l_tree x');
  ld_walk : forall d i x, t_nodes t !! i = Some x -> walk d t' i = walk d t i;
  ld_sub : forall d i x x', t_nodes t !! i = Some x -> t_nodes t' !! i = Some x' ->
    forall b, b ∈ entries t x -> sub (walk d t') d t' x' b = sub (walk d t) d t x b;
  ld_wf : forall d i, wf d t i -> wf d t' i;
  ld_new : forall i x', t_nodes t !! i = None -> t_nodes t' !! i = Some x' -> l_error x' = ld_error (media (l_bref x'))
}.

Lemma loads_refl t : loads t t.
Proof.
  constructor; auto; [intros i x Hx; exists x; repeat split; auto| |congruence]. intros d i x x' Hx Hx' b _. rewrite Hx in Hx'.
  injection Hx' as <-. reflexivity.
Qed.

Lemma loads_trans t1 t2 t3 : loads t1 t2 -> loads t2 t3 -> loads t1 t3.
Proof.
  intros [F1 N1 W1 S1 K1 E1] [F2 N2 W2 S2 K2 E2]. constructor; auto.
  - intros i x Hx. destruct (N1 i x Hx) as (x2 & Hx2 & A1 & A2 & A3 & A4 & A5 & A6 & A7).
    destruct (N2 i x2 Hx2) as (x3 & Hx3 & B1 & B2 & B3 & B4 & B5 & B6 & B7).
    exists x3. repeat split; try congruence. auto.
  - intros d i x Hx. destruct (N1 i x Hx) as (x2 & Hx2 & _). rewrite (W2 d i x2 Hx2). exact (W1 d i x Hx).
  - intros d i x x3 Hx Hx3 b Hb. destruct (N1 i x Hx) as (x2 & Hx2 & A1 & A2 & A3 & A4 & A5 & A6 & A7).
    rewrite (S2 d i x2 x3 Hx2 Hx3) by (rewrite A6; exact Hb). exact (S1 d i x x2 Hx Hx2 b Hb).
  - intros i x3 Hi Hx3. destruct (t_nodes t2 !! i) as [x2|] eqn:Hx2; [|exact (E2 i x3 Hx2 Hx3)].
    destruct (N2 i x2 Hx2) as (x3' & Hx3' & A1 & _ & A3 & _). rewrite Hx3 in Hx3'. injection Hx3' as <-.
    unfold l_bref. rewrite A3, A1. exact (E1 i x2 Hi Hx2).
Qed.

(** * Loading keeps everything *)

Lemma child_with_some t x b j :
  child_with t x b = Some j -> j ∈ l_tree x /\ exists y, t_nodes t !! j = Some y /\ l_bref y = b.
Proof.
  unfold child_with. intros H. apply head_Some_elem_of in H. apply list_elem_of_filter in H as [E Hin].
  split; [exact Hin|]. apply fmap_Some in E as (y & Hy & ->). eauto.
Qed.

Lemma flat_map_ext_in {A B} (f g : A -> list B) (l : list A) : (forall x, x ∈ l -> f x = g x) -> flat_map f l = flat_map g l.
Proof.
  induction l as [|a l IH]; intros H; [reflexivity|]. cbn. rewrite (H a) by left. f_equal. apply IH. intros x Hx.
  apply H. right. exact Hx.
Qed.

(** The child for [b] is the same, or it was loaded. *)
Definition same_child (t t' : topo) (x x' : lnode) (b : blockref) : Prop :=
  child_with t' x' b = child_with t x b
  \/ child_with t x b = None /\ exists j, child_with t' x' b = Some j
       /\ (forall d, walk d t' j = mwalk d b) /\ (forall d, mwf d b -> wf d t' j).

Lemma loads_intro t t' :
  (fresh_ok t -> fresh_ok t') ->
  (forall i x', t_nodes t !! i = None -> t_nodes t' !! i = Some x' -> l_error x' = ld_error (media (l_bref x'))) ->
  (forall i x, t_nodes t !! i = Some x ->
    exists x', t_nodes t' !! i = Some x' /\ l_chain x' = l_chain x /\ l_parent x' = l_parent x /\ l_error x' = l_error x
      /\ lookup_base x' = lookup_base x /\ l_direct x' = l_direct x
      /\ entries t' x' = entries t x /\ (forall j, j ∈ l_tree x -> j ∈ l_tree x')
      /\ (forall b, b ∈ entries t x -> is_node_type b = true -> same_child t t' x x' b)
      /\ (local_ok t i x -> local_ok t' i x')) ->
  loads t t'.
Proof.
  intros Hf Hnew Hn.
  assert (Hsub : forall d i x x', (forall j y, t_nodes t !! j = Some y -> walk d t' j = walk d t j) ->
    t_nodes t !! i = Some x -> t_nodes t' !! i = Some x' ->
    forall b, b ∈ entries t x -> sub (walk d t') d t' x' b = sub (walk d t) d t x b).
  { intros d i x x' IH Hx Hx' b Hb. destruct (Hn i x Hx) as (x0 & Hx0 & _ & _ & _ & _ & _ & _ & _ & Hc & _).
    rewrite Hx' in Hx0. injection Hx0 as <-. unfold sub. destruct (is_node_type b) eqn:Hty; [|reflexivity]. f_equal.
    destruct (Hc b Hb Hty) as [->|(-> & j & -> & Hw & _)]; [|apply Hw].
    destruct (child_with t x b) as [j|] eqn:Ec; [|reflexivity]. destruct (child_with_some t x b j Ec) as (_ & y & Hy & _). exact (IH j y Hy). }
  assert (Hwalk : forall d i x, t_nodes t !! i = Some x -> walk d t' i = walk d t i).
  { induction d as [|d IH]; intros i x Hx; [reflexivity|]. cbn [walk].
    destruct (Hn i x Hx) as (x' & Hx' & A2 & _ & A4 & _ & _ & A7 & _). rewrite Hx, Hx', A4, A7. unfold l_bref. rewrite A2.
    destruct (l_error x =? 0); [|reflexivity]. apply flat_map_ext_in. exact (Hsub d i x x' IH Hx Hx'). }
  constructor; [exact Hf| |exact Hwalk| | |exact Hnew].
  - intros i x Hx. destruct (Hn i x Hx) as (x' & A1 & A2 & A3 & A4 & A5 & A6 & A7 & A8 & _). eauto 10.
  - intros d i x x' Hx Hx'. exact (Hsub d i x x' (Hwalk d) Hx Hx').
  - induction d as [|d IH]; intros i H; [exact H|]. cbn [wf] in *. destruct H as (x & Hx & H).
    destruct (Hn i x Hx) as (x' & Hx' & A2 & _ & A4 & _ & _ & A7 & _ & Hc & Hl). exists x'. split; [exact Hx'|].
    rewrite A4, A7. intros He. destruct (H He) as [H1 H2]. split; [exact (Hl H1)|]. intros b Hb Hty. specialize (H2 b Hb Hty).
    destruct (Hc b Hb Hty) as [->|(E & j & -> & _ & Hw)]; [destruct (child_with t x b); auto|]. rewrite E in H2. auto.
Qed.

(** The nodes that a tree names, in two topologies that agree on them. *)
Lemma chains_of_ext t t' l :
  (forall j, j ∈ l -> l_chain <$> t_nodes t' !! j = l_chain <$> t_nodes t !! j) -> chains_of t' l = chains_of t l.
Proof.
  unfold chains_of. induction l as [|j l IH]; intros H; [reflexivity|]. cbn. rewrite (H j) by left.
  rewrite IH; [reflexivity|]. intros i Hi. apply H. right. exact Hi.
Qed.

Lemma filter_ext_in {A} (P Q : A -> Prop) `{forall x, Decision (P x)} `{forall x, Decision (Q x)} (l : list A) :
  (forall x, x ∈ l -> (P x <-> Q x)) -> filter P l = filter Q l.
Proof.
  induction l as [|a l IH]; intros E; [reflexivity|]. rewrite !filter_cons. rewrite (IH (fun x Hx => E x (list_elem_of_further _ _ _ Hx))).
  destruct (decide (P a)) as [p|p], (decide (Q a)) as [q|q]; try reflexivity; exfalso; specialize (E a ltac:(left)); tauto.
Qed.

Lemma child_with_ext t t' x x' b : l_tree x' = l_tree x ->
  (forall j, j ∈ l_tree x -> l_chain <$> t_nodes t' !! j = l_chain <$> t_nodes t !! j) -> child_with t' x' b = child_with t x b.
Proof.
  intros Ht H. unfold child_with. rewrite Ht. f_equal. apply filter_ext_in. intros j Hj. specialize (H j Hj).
  unfold l_bref. destruct (t_nodes t' !! j), (t_nodes t !! j); cbn in *; try congruence; try reflexivity.
  injection H as ->. reflexivity.
Qed.

Lemma set_core_loads t i x co :
  t_nodes t !! i = Some x ->
  (forall bs count, lookup_base x = Done (Some bs, count) -> co_counted co = true -> live_end (co_live_zero co) bs) ->
  loads t (set_node i (set_l_core co x) t).
Proof.
  intros Hi Hco. set (t' := set_node i (set_l_core co x) t).
  assert (Hch : forall j, l_chain <$> t_nodes t' !! j = l_chain <$> t_nodes t !! j).
  { intros j. unfold t', set_node. cbn [t_nodes]. destruct (decide (i = j)) as [<-|Hne].
    - rewrite lookup_insert_eq, Hi. reflexivity.
    - rewrite lookup_insert_ne by exact Hne. reflexivity. }
  assert (Hnode : forall j y, t_nodes t !! j = Some y -> exists y', t_nodes t' !! j = Some y'
            /\ l_chain y' = l_chain y /\ l_parent y' = l_parent y /\ l_error y' = l_error y
            /\ lookup_base y' = lookup_base y /\ l_direct y' = l_direct y /\ l_tree y' = l_tree y
            /\ (j = i -> y' = set_l_core co x) /\ (j <> i -> y' = y)).
  { intros j y Hj. unfold t', set_node. cbn [t_nodes]. destruct (decide (i = j)) as [<-|Hne].
    - rewrite Hi in Hj. injection Hj as <-. rewrite lookup_insert_eq. eexists. repeat split; auto. congruence.
    - rewrite lookup_insert_ne by exact Hne. exists y. repeat split; auto. congruence. }
  apply loads_intro.
  - intros Hf j Hj. destruct (Hf j Hj) as [H1 H2]. split.
    + unfold t', set_node. cbn [t_nodes]. rewrite lookup_insert_ne; [exact H1|]. intros <-. congruence.
    + intros p y Hp. unfold t', set_node in Hp. cbn [t_nodes] in Hp. destruct (decide (i = p)) as [<-|Hne].
      * rewrite lookup_insert_eq in Hp. injection Hp as <-. exact (H2 i x Hi).
      * rewrite lookup_insert_ne in Hp by exact Hne. exact (H2 p y Hp).
  - intros j y Hj Hy. exfalso. unfold t', set_node in Hy. cbn [t_nodes] in Hy. rewrite lookup_insert_ne in Hy by congruence. congruence.
  - intros j y Hj. destruct (Hnode j y Hj) as (y' & Hy' & A1 & A2 & A3 & A4 & A5 & A6 & A7 & A8). exists y'.
    assert (He : entries t' y' = entries t y).
    { unfold entries, table. rewrite A4, A6. f_equal. apply chains_of_ext. auto. }
    do 7 (split; [assumption|]). split; [intros k; rewrite A6; auto|]. split.
    + intros b _ _. left. apply child_with_ext; [exact A6|auto].
    + intros [Lk Lc Lb Lo Li]. constructor.
      * intros k Hk. rewrite A6 in Hk. destruct (Lk k Hk) as (z & Hz & B1 & B2).
        destruct (Hnode k z Hz) as (z' & Hz' & C1 & C2 & _). exists z'. rewrite C1, C2. auto.
      * rewrite A6, (chains_of_ext t t'); auto.
      * destruct Lb as (base & count & B1 & B2). exists base, count. split; [congruence|].
        destruct base as [bs|]; [|exact I]. destruct B2 as [B2 B3]. split; [exact B2|].
        destruct (decide (j = i)) as [->|Hne]; [rewrite (A7 eq_refl)|rewrite (A8 Hne); exact B3].
        rewrite Hi in Hj. injection Hj as <-. exact (Hco bs count B1).
      * unfold table. rewrite A4, A6, (chains_of_ext t t'); auto.
      * rewrite He. unfold l_bref. rewrite A1. exact Li.
Qed.

(** ** Loading one block *)

Lemma table_entries_ok t i x : local_ok t i x -> entries_ok (table x).
Proof.
  intros [_ _ (base & count & E & H) _ _]. unfold table. rewrite E. destruct base as [bs|]; [apply H|].
  constructor; constructor.
Qed.

Lemma brefs_nil bs : brefs bs [] = bs.
Proof. unfold brefs. induction bs as [|b bs IH]; [reflexivity|]. cbn. f_equal. exact IH. Qed.

Lemma node_type_cases b : is_node_type b = true -> br_type b = HAMMER2_BREF_TYPE_INDIRECT \/ br_type b = HAMMER2_BREF_TYPE_FREEMAP_NODE.
Proof. unfold is_node_type. intros H. apply orb_true_iff in H as [H|H]; apply Z.eqb_eq in H; auto. Qed.

(** The loaded node shows what the block holds. *)
Lemma loaded_base parent b : is_node_type b = true -> ld_error (media b) = 0 ->
  lookup_base (loaded_node media parent b) = Done (Some (ld_table (media b)), bref_bytes b / HAMMER2_BLOCKREF_BYTES).
Proof.
  intros Hty He. unfold lookup_base, loaded_node, l_bref. cbn. rewrite He. cbn.
  destruct (node_type_cases b Hty) as [-> | ->]; reflexivity.
Qed.

Lemma loaded_walk t i parent b d : t_nodes t !! i = Some (loaded_node media parent b) -> is_node_type b = true ->
  walk d t i = mwalk d b.
Proof.
  intros Hi Hty. destruct d as [|d]; [reflexivity|]. cbn [walk mwalk]. rewrite Hi. cbn [loaded_node l_error l_bref].
  destruct (Z.eqb_spec (ld_error (media b)) 0) as [He|He]; [|reflexivity].
  unfold entries. unfold table. fold (loaded_node media parent b). rewrite loaded_base by assumption.
  cbn [loaded_node l_tree]. change (chains_of t []) with (@nil mchain). rewrite brefs_nil. reflexivity.
Qed.

Lemma loaded_wf t i parent b d : t_nodes t !! i = Some (loaded_node media parent b) -> is_node_type b = true ->
  mwf d b -> wf d t i.
Proof.
  intros Hi Hty. destruct d as [|d]; [intros []|]. cbn [wf mwf]. intros H. eexists. split; [exact Hi|].
  change (l_error (loaded_node media parent b)) with (ld_error (media b)). intros He. destruct (H He) as [Ht Hb].
  assert (Htab : table (loaded_node media parent b) = live (ld_table (media b))) by (unfold table; rewrite loaded_base; auto).
  assert (Hent : entries t (loaded_node media parent b) = live (ld_table (media b))).
  { unfold entries. rewrite Htab. change (l_tree _) with (@nil nat). apply brefs_nil. }
  split.
  - constructor.
    + intros j Hj. apply not_elem_of_nil in Hj as [].
    + constructor; constructor.
    + eexists _, _. split; [apply loaded_base; assumption|]. split; [exact Ht|]. discriminate.
    + intros b' c _ Hc. apply not_elem_of_nil in Hc as [].
    + intros _ b' Hb'. rewrite Hent in Hb'. exact (proj1 (Hb b' Hb')).
  - intros b' Hb' Hty'. rewrite Hent in Hb'. exact (proj2 (Hb b' Hb') Hty').
Qed.

(** Where the new child goes. *)
Lemma tree_add_split t i b l :
  exists l1 l2, l = l1 ++ l2 /\ tree_add t i b l = l1 ++ i :: l2
    /\ (forall j y, j ∈ l1 -> t_nodes t !! j = Some y -> br_key (l_bref y) <= br_key b)
    /\ (forall j y, head l2 = Some j -> t_nodes t !! j = Some y -> br_key b < br_key (l_bref y)).
Proof.
  induction l as [|j l (l1 & l2 & E1 & E2 & H1 & H2)].
  - exists [], []. repeat split; try reflexivity; [intros j y H; apply not_elem_of_nil in H as []|discriminate].
  - cbn [tree_add]. destruct (t_nodes t !! j) as [y|] eqn:Hj.
    + destruct (Z.ltb_spec (br_key b) (br_key (l_bref y))) as [Hlt|Hge].
      * exists [], (j :: l). repeat split; try reflexivity; [intros k z H; apply not_elem_of_nil in H as []|].
        intros k z [= <-] Hk. rewrite Hj in Hk. injection Hk as <-. exact Hlt.
      * exists (j :: l1), l2. subst l. rewrite E2. repeat split; try reflexivity; [|exact H2].
        intros k z Hk Hz. apply elem_of_cons in Hk as [->|Hk]; [rewrite Hj in Hz; injection Hz as <-; exact Hge|eauto].
    + exists (j :: l1), l2. subst l. rewrite E2. repeat split; try reflexivity; [|exact H2].
      intros k z Hk Hz. apply elem_of_cons in Hk as [->|Hk]; [congruence|eauto].
Qed.

Lemma chains_of_app t l1 l2 : chains_of t (l1 ++ l2) = chains_of t l1 ++ chains_of t l2.
Proof. apply omap_app. Qed.

Lemma elem_of_chains t l c : c ∈ chains_of t l <-> exists i y, i ∈ l /\ t_nodes t !! i = Some y /\ c = l_chain y.
Proof.
  unfold chains_of. rewrite list_elem_of_omap. split.
  - intros (i & Hi & E). apply fmap_Some in E as (y & Hy & ->). eauto.
  - intros (i & y & Hi & Hy & ->). exists i. rewrite Hy. auto.
Qed.

Lemma chains_ok_insert a c b : chains_ok (a ++ b) -> key_ok (ch_bref c) ->
  (forall d, d ∈ a -> chain_before d c) -> (forall d, d ∈ b -> chain_before c d) -> chains_ok (a ++ c :: b).
Proof.
  intros [Hk Hs] Hc Ha Hb. apply Forall_app in Hk as [K1 K2].
  pose proof (StronglySorted_app_1_l _ _ _ Hs) as S1. pose proof (StronglySorted_app_1_r _ _ _ Hs) as S2. constructor.
  - apply Forall_app. split; [exact K1|]. constructor; assumption.
  - apply StronglySorted_app_2; [|exact S1|constructor; [exact S2|apply Forall_forall; exact Hb]].
    intros d e Hd He. apply elem_of_cons in He as [->|He]; [exact (Ha d Hd)|].
    apply (StronglySorted_app_1_elem_of chain_before a b); assumption.
Qed.

Section get.
Context (t : topo) (p : nat) (x : lnode) (b : blockref).
Hypothesis Hfresh : fresh_ok t.
Hypothesis Hp : t_nodes t !! p = Some x.
Hypothesis Hloc : local_ok t p x.
Hypothesis Hb : b ∈ table x.
Hypothesis Hno : forall c, c ∈ chains_of t (l_tree x) -> br_key (ch_bref c) <> br_key b.

Abbreviation i := (t_next t).
Abbreviation n := (loaded_node media p b).
Definition got : topo := Topo (<[p := set_l_tree (tree_add t i b (l_tree x)) x]> (<[i := n]> (t_nodes t))) (S i).

Lemma get_new : p <> i.
Proof. intros ->. destruct (Hfresh i ltac:(lia)) as [E _]. congruence. Qed.

Lemma got_new : t_nodes got !! i = Some n.
Proof. cbn. rewrite lookup_insert_ne by exact get_new. apply lookup_insert_eq. Qed.

Lemma got_old j y : t_nodes t !! j = Some y ->
  t_nodes got !! j = Some (if decide (j = p) then set_l_tree (tree_add t i b (l_tree x)) x else y).
Proof.
  intros Hj. cbn. destruct (decide (j = p)) as [->|Hne]; [apply lookup_insert_eq|].
  rewrite lookup_insert_ne by congruence. rewrite lookup_insert_ne; [exact Hj|].
  intros <-. destruct (Hfresh i ltac:(lia)) as [E _]. congruence.
Qed.

Lemma got_chain j : j <> i -> l_chain <$> t_nodes got !! j = l_chain <$> t_nodes t !! j.
Proof.
  intros Hne. cbn. destruct (decide (p = j)) as [<-|Hpj]; [rewrite lookup_insert_eq, Hp; reflexivity|].
  rewrite !lookup_insert_ne by congruence. reflexivity.
Qed.

Lemma got_chains l : i ∉ l -> chains_of got l = chains_of t l.
Proof. intros Hl. apply chains_of_ext. intros j Hj. apply got_chain. congruence. Qed.

Lemma tree_fresh j y : t_nodes t !! j = Some y -> i ∉ l_tree y.
Proof. intros Hj. destruct (Hfresh i ltac:(lia)) as [_ H]. exact (H j y Hj). Qed.

(** The chains of the parent, with the new one between those before and after it. *)
Lemma got_tree : exists l1 l2, l_tree x = l1 ++ l2 /\ tree_add t i b (l_tree x) = l1 ++ i :: l2
  /\ chains_of got (tree_add t i b (l_tree x)) = chains_of t l1 ++ l_chain n :: chains_of t l2
  /\ chains_ok (chains_of got (tree_add t i b (l_tree x))).
Proof.
  destruct (tree_add_split t i b (l_tree x)) as (l1 & l2 & E1 & E2 & H1 & H2). exists l1, l2.
  pose proof (tree_fresh p x Hp) as Hi. rewrite E1 in Hi. apply not_elem_of_app in Hi as [Hi1 Hi2].
  assert (Ec : chains_of got (tree_add t i b (l_tree x)) = chains_of t l1 ++ l_chain n :: chains_of t l2).
  { rewrite E2, chains_of_app. rewrite (got_chains l1 Hi1). f_equal. unfold chains_of at 1. cbn [omap list_omap].
    rewrite got_new. cbn. f_equal. exact (got_chains l2 Hi2). }
  split; [exact E1|]. split; [exact E2|]. split; [exact Ec|]. rewrite Ec.
  pose proof (table_entries_ok t p x Hloc) as [Hk _]. rewrite Forall_forall in Hk. specialize (Hk b Hb).
  destruct Hloc as [_ Hc _ Hco _]. rewrite E1, chains_of_app in Hc.
  assert (Hap : forall c, c ∈ chains_of t (l_tree x) -> apart b (ch_bref c)).
  { intros c Hcin. destruct (Hco b c Hb Hcin) as [Ha|[E _]]; [exact Ha|]. specialize (Hno c Hcin). congruence. }
  assert (Hcin : forall c, c ∈ chains_of t l1 \/ c ∈ chains_of t l2 -> c ∈ chains_of t (l_tree x)).
  { intros c H. rewrite E1, chains_of_app. apply elem_of_app. exact H. }
  apply chains_ok_insert; [exact Hc|exact Hk| |].
  - intros c Hcl. pose proof (Hap c (Hcin c (or_introl Hcl))) as [Ha|Ha]; [|exact Ha].
    apply elem_of_chains in Hcl as (j & y & Hj & Hy & ->). specialize (H1 j y Hj Hy). apply before_keys in Ha; [|exact Hk].
    unfold l_bref in H1. lia.
  - intros c Hcl. pose proof (Hap c (Hcin c (or_intror Hcl))) as [Ha|Ha]; [exact Ha|]. exfalso.
    destruct Hc as [Hck Hcs]. pose proof (StronglySorted_app_1_r _ _ _ Hcs) as Hs2. apply Forall_app in Hck as [_ Hck].
    destruct l2 as [|j l2]; [apply not_elem_of_nil in Hcl as []|].
    destruct (Hloc.(lo_kids _ _ _) j) as (y & Hy & _ & _); [rewrite E1; apply elem_of_app; right; left|].
    specialize (H2 j y eq_refl Hy). unfold chains_of in Hcl, Hs2, Hck. cbn [omap list_omap] in Hcl, Hs2, Hck. rewrite Hy in Hcl, Hs2, Hck.
    cbn in Hcl, Hs2, Hck. apply StronglySorted_inv in Hs2 as [_ Hf]. rewrite Forall_forall in Hf, Hck.
    pose proof (before_keys (ch_bref c) b (Hck c Hcl) Ha) as Hlt. apply elem_of_cons in Hcl as [->|Hcl]; [unfold l_bref in H2; lia|].
    pose proof (before_keys _ _ (Hck _ ltac:(left)) (Hf c Hcl)). unfold l_bref in H2. lia.
Qed.

Lemma got_parent_tree j : j ∈ tree_add t i b (l_tree x) <-> j = i \/ j ∈ l_tree x.
Proof.
  destruct got_tree as (l1 & l2 & E1 & E2 & _). rewrite E2, E1, !elem_of_app, elem_of_cons. tauto.
Qed.

Lemma got_entries : entries got (set_l_tree (tree_add t i b (l_tree x)) x) = entries t x.
Proof.
  destruct got_tree as (l1 & l2 & E1 & E2 & Ec & Hc). unfold entries. change (table (set_l_tree _ x)) with (table x).
  cbn [set_l_tree l_tree]. apply (brefs_load _ _ _ (l_chain n)); try assumption.
  - exact (table_entries_ok t p x Hloc).
  - exact (lo_chains _ _ _ Hloc).
  - exact (lo_coherent _ _ _ Hloc).
  - intros b' c Hb' Hcin. rewrite Ec in Hcin. rewrite elem_of_app, elem_of_cons in Hcin.
    destruct (decide (c = l_chain n)) as [->|Hne].
    + destruct (table_entries_ok t p x Hloc) as [Hk Hs]. cbn. destruct (decide (b' = b)) as [->|Hbb]; [auto|].
      left. exact (sorted_pair before _ b' b Hs Hb' Hb Hbb).
    + apply (lo_coherent _ _ _ Hloc); [exact Hb'|]. rewrite E1, chains_of_app, elem_of_app. tauto.
  - intros d. rewrite Ec, E1, chains_of_app, !elem_of_app, elem_of_cons. tauto.
Qed.

Lemma got_coherent : coherent (table x) (chains_of got (tree_add t i b (l_tree x))).
Proof.
  destruct got_tree as (l1 & l2 & E1 & _ & Ec & _). intros b' c Hb' Hcin. rewrite Ec, elem_of_app, elem_of_cons in Hcin.
  destruct (decide (c = l_chain n)) as [->|Hne].
  - destruct (table_entries_ok t p x Hloc) as [_ Hs]. cbn. destruct (decide (b' = b)) as [->|Hbb]; [auto|].
    left. exact (sorted_pair before _ b' b Hs Hb' Hb Hbb).
  - apply (lo_coherent _ _ _ Hloc); [exact Hb'|]. rewrite E1, chains_of_app, elem_of_app. tauto.
Qed.

(** No child in memory is found for [b] before, the new one after. *)
Lemma got_child : child_with t x b = None /\ child_with got (set_l_tree (tree_add t i b (l_tree x)) x) b = Some i
  /\ forall b', b' <> b -> child_with got (set_l_tree (tree_add t i b (l_tree x)) x) b' = child_with t x b'.
Proof.
  destruct got_tree as (l1 & l2 & E1 & E2 & _). pose proof (tree_fresh p x Hp) as Hi.
  assert (Hnone : forall (l : list nat) b', (forall j, j ∈ l -> l_bref <$> t_nodes t !! j <> Some b') ->
            filter (fun j => l_bref <$> t_nodes t !! j = Some b') l = []).
  { induction l as [|j l IH]; intros b' H; [reflexivity|]. rewrite filter_cons, decide_False by (apply H; left).
    apply IH. intros k Hk. apply H. right. exact Hk. }
  assert (Hbn : forall j, j ∈ l_tree x -> l_bref <$> t_nodes t !! j <> Some b).
  { intros j Hj E. apply fmap_Some in E as (y & Hy & ->). apply (Hno (l_chain y)); [|reflexivity].
    apply elem_of_chains. eauto. }
  assert (Hsame : forall (l : list nat) b', (forall j, j ∈ l -> j ∈ l_tree x) ->
     filter (fun j => l_bref <$> t_nodes got !! j = Some b') l = filter (fun j => l_bref <$> t_nodes t !! j = Some b') l).
  { intros l b' Hl. apply filter_ext_in. intros j Hj. assert (Hji : j <> i) by (intros ->; exact (Hi (Hl i Hj))).
    pose proof (got_chain j Hji) as Ech. unfold l_bref. destruct (t_nodes got !! j), (t_nodes t !! j); cbn in *; try congruence; try tauto.
    injection Ech as ->. reflexivity. }
  assert (Hl1 : forall j, j ∈ l1 -> j ∈ l_tree x) by (intros j Hj; rewrite E1; apply elem_of_app; auto).
  assert (Hl2 : forall j, j ∈ l2 -> j ∈ l_tree x) by (intros j Hj; rewrite E1; apply elem_of_app; auto).
  unfold child_with. cbn [set_l_tree l_tree]. rewrite E2. split; [rewrite Hnone by exact Hbn; reflexivity|]. split.
  - rewrite filter_app, Hsame, Hnone by auto. rewrite filter_cons, got_new, decide_True by reflexivity. reflexivity.
  - intros b' Hne. rewrite E1, !filter_app, filter_cons, got_new. rewrite decide_False by (cbn; congruence).
    rewrite !Hsame by assumption. reflexivity.
Qed.

Lemma got_local j y : local_ok t j y ->
  t_nodes t !! j = Some y -> local_ok got j (if decide (j = p) then set_l_tree (tree_add t i b (l_tree x)) x else y).
Proof.
  intros [Lk Lc Lb Lo Li] Hj. assert (Hold : forall k, k ∈ l_tree y -> exists z, t_nodes got !! k = Some z /\ l_parent z = Some j /\ ch_deleted (l_chain z) = false).
  { intros k Hk. destruct (Lk k Hk) as (z & Hz & A & B). rewrite (got_old k z Hz). eexists. split; [reflexivity|].
    destruct (decide (k = p)) as [->|]; [|auto]. rewrite Hp in Hz. injection Hz as <-. auto. }
  destruct (decide (j = p)) as [->|Hne].
  - rewrite Hp in Hj. injection Hj as <-. destruct got_tree as (_ & _ & _ & _ & _ & Hc). constructor.
    + intros k Hk. cbn in Hk. apply got_parent_tree in Hk as [->|Hk]; [|exact (Hold k Hk)].
      rewrite got_new. eexists. split; [reflexivity|]. auto.
    + exact Hc.
    + exact Lb.
    + exact got_coherent.
    + rewrite got_entries. exact Li.
  - pose proof (tree_fresh j y Hj) as Hi. constructor; try assumption.
    + rewrite got_chains by exact Hi. exact Lc.
    + rewrite got_chains by exact Hi. exact Lo.
    + unfold entries. rewrite got_chains by exact Hi. exact Li.
Qed.

Lemma get_loads : loads t got.
Proof.
  apply loads_intro.
  - intros _ j Hj. cbn in Hj. destruct (Hfresh j ltac:(lia)) as [H1 H2]. split.
    + cbn. rewrite lookup_insert_ne by congruence. rewrite lookup_insert_ne by lia. exact H1.
    + intros q y Hq. cbn in Hq. destruct (decide (p = q)) as [<-|Hpq].
      * rewrite lookup_insert_eq in Hq. injection Hq as <-. cbn. rewrite got_parent_tree. intros [->|Hj']; [lia|exact (H2 p x Hp Hj')].
      * rewrite lookup_insert_ne in Hq by exact Hpq. destruct (decide (i = q)) as [<-|Hiq].
        -- rewrite lookup_insert_eq in Hq. injection Hq as <-. apply not_elem_of_nil.
        -- rewrite lookup_insert_ne in Hq by exact Hiq. exact (H2 q y Hq).
  - intros j y Hj Hy. cbn in Hy. destruct (decide (p = j)) as [<-|Hpj]; [congruence|]. rewrite lookup_insert_ne in Hy by exact Hpj.
    destruct (decide (i = j)) as [<-|Hij]; [rewrite lookup_insert_eq in Hy; injection Hy as <-; reflexivity|].
    rewrite lookup_insert_ne in Hy by exact Hij. congruence.
  - intros j y Hj. eexists. split; [exact (got_old j y Hj)|]. pose proof (got_local j y) as Hl.
    destruct (decide (j = p)) as [->|Hne].
    + rewrite Hp in Hj. injection Hj as <-. do 5 (split; [reflexivity|]). split; [exact got_entries|].
      split; [intros k Hk; apply got_parent_tree; auto|]. split; [|auto]. intros b' Hb' Hty.
      destruct got_child as (C1 & C2 & C3). destruct (decide (b' = b)) as [->|Hbb]; [right|left; exact (C3 b' Hbb)].
      split; [exact C1|]. exists i. split; [exact C2|]. split; intros d; [exact (loaded_walk got i p b d got_new Hty)|].
      exact (loaded_wf got i p b d got_new Hty).
    + pose proof (tree_fresh j y Hj) as Hi. do 5 (split; [reflexivity|]).
      split; [unfold entries; rewrite got_chains by exact Hi; reflexivity|]. split; [auto|]. split; [|auto].
      intros b' _ _. left. apply child_with_ext; [reflexivity|]. intros k Hk. apply got_chain. congruence.
Qed.
End get.

(** * Items lie inside the blocks they are under *)

Lemma inside_refl b : key_ok b -> inside b b.
Proof. intros H. pose proof (key_last_range b H) as [_ Hr]. split; lia. Qed.
Lemma inside_trans a b c : inside a b -> inside b c -> inside a c.
Proof. intros (A1 & A2 & A3) (B1 & B2 & B3). repeat split; lia. Qed.

Lemma elem_of_flat_map {A B} (f : A -> list B) (l : list A) y : y ∈ flat_map f l <-> exists x, x ∈ l /\ y ∈ f x.
Proof. rewrite list_elem_of_In, in_flat_map. split; intros (x & H1 & H2); exists x; rewrite !list_elem_of_In in *; auto. Qed.

Lemma mwalk_inside d : forall b, key_ok b -> mwf d b -> forall it, it ∈ mwalk d b -> inside b (item_bref it).
Proof.
  induction d as [|d IH]; intros b Hk; [intros []|]. cbn [mwf mwalk]. intros H it.
  destruct (Z.eqb_spec (ld_error (media b)) 0) as [He|He].
  - destruct (H He) as [[_ [Hke _]] Hb]. rewrite Forall_forall in Hke.
    intros (b' & Hb' & Hit)%elem_of_flat_map. destruct (Hb b' Hb') as [Hin Hm]. specialize (Hke b' Hb').
    destruct (is_node_type b') eqn:Hty.
    + apply elem_of_cons in Hit as [->|Hit]; [exact Hin|]. exact (inside_trans _ _ _ Hin (IH b' Hke (Hm eq_refl) it Hit)).
    + apply list_elem_of_singleton in Hit as ->. exact Hin.
  - intros ->%list_elem_of_singleton. exact (inside_refl b Hk).
Qed.

Lemma entries_key_ok t i x b : local_ok t i x -> b ∈ entries t x -> key_ok b.
Proof.
  intros Hl Hb. destruct (brefs_sorted (table x) (chains_of t (l_tree x)) (table_entries_ok t i x Hl) (lo_chains _ _ _ Hl) (lo_coherent _ _ _ Hl)) as [_ Hk].
  rewrite Forall_forall in Hk. exact (Hk b Hb).
Qed.

Lemma sub_inside_from d t i x b : (forall j y, wf d t j -> t_nodes t !! j = Some y -> is_node_type (l_bref y) = true -> key_ok (l_bref y) ->
    forall it, it ∈ walk d t j -> inside (l_bref y) (item_bref it)) ->
  wf (S d) t i -> t_nodes t !! i = Some x -> l_error x = 0 -> b ∈ entries t x ->
  forall it, it ∈ sub (walk d t) d t x b -> inside b (item_bref it).
Proof.
  intros IH (x' & Hx' & H) Hx He Hb it. rewrite Hx in Hx'. injection Hx' as <-. destruct (H He) as [Hl Hw].
  pose proof (entries_key_ok t i x b Hl Hb) as Hk. unfold sub.
  destruct (is_node_type b) eqn:Hty; [|intros ->%list_elem_of_singleton; exact (inside_refl b Hk)].
  intros [->|Hit]%elem_of_cons; [exact (inside_refl b Hk)|]. specialize (Hw b Hb Hty).
  destruct (child_with t x b) as [j|] eqn:Ec; [|exact (mwalk_inside d b Hk Hw it Hit)].
  destruct (child_with_some t x b j Ec) as (_ & y & Hy & <-). exact (IH j y Hw Hy Hty Hk it Hit).
Qed.

Lemma walk_inside d : forall t i x, wf d t i -> t_nodes t !! i = Some x -> is_node_type (l_bref x) = true -> key_ok (l_bref x) ->
  forall it, it ∈ walk d t i -> inside (l_bref x) (item_bref it).
Proof.
  induction d as [|d IH]; intros t i x Hw Hx Hty Hk it; [destruct Hw|]. cbn [walk]. rewrite Hx.
  destruct (Z.eqb_spec (l_error x) 0) as [He|He]; [|intros ->%list_elem_of_singleton; exact (inside_refl _ Hk)].
  intros (b & Hb & Hit)%elem_of_flat_map. pose proof Hw as (x' & Hx' & H). rewrite Hx in Hx'. injection Hx' as <-.
  destruct (H He) as [Hl _]. apply (inside_trans _ b); [exact (lo_inside _ _ _ Hl Hty b Hb)|].
  exact (sub_inside_from d t i x b (fun j y => IH t j y) Hw Hx He Hb it Hit).
Qed.

Lemma sub_inside d t i x b : wf (S d) t i -> t_nodes t !! i = Some x -> l_error x = 0 -> b ∈ entries t x ->
  forall it, it ∈ sub (walk d t) d t x b -> inside b (item_bref it).
Proof. exact (sub_inside_from d t i x b (fun j y => walk_inside d t j y)). Qed.
End walk.
#[export] Hint Resolve loads_refl : core.
