(* ===== verification/LookupProof.v ===== *)
(** Correctness of the lookup in the topology: from any node on the way down from
    the inode it returns the first leaf in the range, or the error of the first
    block it cannot read, and an iteration visits exactly the leaves in the
    range.  One boundary case is missed; it is shown on a concrete topology. *)

From Stdlib Require Import ZArith Lia Bool Sorted.
From stdpp Require Import base numbers list option gmap sorting.
From S2P Require Import Prelude Disk BlockTable BlockTableProof BlockTableSpec ChainFind ChainFindProof Lookup LookupSpec.

(** * The combined lookup, with or without a table *)

Lemma rb_of_inorder cs : rb_inorder (rb_of cs) = cs.
Proof. induction cs as [|c cs IH]; [reflexivity|]. cbn. f_equal. exact IH. Qed.

Lemma view_none bs cs b : entries_ok bs -> chains_ok cs -> coherent bs cs -> (b, None) ∈ view bs cs ->
  b ∈ bs /\ forall c, c ∈ cs -> br_key (ch_bref c) <> br_key b.
Proof.
  intros Hb Hc Hco Hin. destruct (view_sorted bs cs Hb Hc Hco) as [Hs Hk]. rewrite Forall_forall in Hk.
  destruct (elem_of_view _ _ _ Hin) as [[H1 _]|(c & _ & [=])]. split; [exact H1|]. intros c Hcc E.
  pose proof (view_chain bs cs c Hcc) as Hv. pose proof (Hk _ Hin) as K1. pose proof (Hk _ Hv) as K2. cbn in K1, K2.
  destruct (sorted_pair view_before _ (b, None) (ch_bref c, Some c) Hs Hin Hv) as [H|H]; [congruence| |];
    unfold view_before in H; cbn in H; apply before_keys in H; try assumption; lia.
Qed.

(** The table is in order and counted, or there is none. *)
Definition base_ok (co : core) (base : option (list blockref)) (count : Z) : Prop :=
  match base with
  | Some bs => table_ok co bs count
  | None => co_counted co = true
  end.

Lemma combined_any co base count cs k ke :
  base_ok co base count -> chains_ok cs -> coherent (live (default [] base)) cs -> 0 <= k <= ke -> ke < 2 ^ 64 ->
  exists chain bref kn c, hammer2_combined_find co (rb_of cs) base count k ke = Done (chain, bref, kn, set_cache_index c co)
    /\ match bref with
       | Some b => first_in_view (view (live (default [] base)) cs) k (b, chain) /\ br_key b <= ke
       | None => chain = None /\ forall x, x ∈ view (live (default [] base)) cs -> range_last x.1 < k \/ ke < br_key x.1
       end.
Proof.
  intros Hb Hc Hco Hk Hke.
  assert (Hc' : chains_ok (rb_inorder (rb_of cs))) by (rewrite rb_of_inorder; exact Hc).
  assert (Hco' : coherent (live (default [] base)) (rb_inorder (rb_of cs))) by (rewrite rb_of_inorder; exact Hco).
  destruct base as [bs|].
  - destruct (combined_find_spec co bs count (rb_of cs) Hb Hc' Hco' k ke Hk Hke) as (chain & bref & kn & c & E & H).
    exists chain, bref, kn, c. split; [exact E|]. rewrite rb_of_inorder in *. destruct bref as [b|]; [|exact H].
    destruct H as (A & B & _). auto.
  - unfold hammer2_combined_find, hammer2_base_find. cbn in Hb. rewrite Hb. cbn [kassert obind].
    rewrite chain_find_spec by exact Hc'. cbn [obind]. rewrite Z.eqb_refl.
    assert (Eco : co = set_cache_index (co_cache_index co) co) by (destruct co; reflexivity).
    pose proof (first_chain_spec _ k ke Hc') as Hf. rewrite rb_of_inorder in *. cbn [default live view].
    destruct (first_chain cs k ke) as [c|].
    + destruct Hf as (H1 & H2 & H3 & H4). replace (ke <? br_key (ch_bref c)) with false by lia.
      eexists (Some c), (Some (ch_bref c)), _, (co_cache_index co). split; [rewrite <- Eco; reflexivity|].
      split; [|exact H3]. split; [apply list_elem_of_fmap; eauto|]. split; [exact H2|].
      intros y (d & -> & Hd)%list_elem_of_fmap. exact (H4 d Hd).
    + eexists None, None, _, (co_cache_index co). split; [rewrite <- Eco; reflexivity|]. split; [reflexivity|].
      intros y (d & -> & Hd)%list_elem_of_fmap. exact (Hf d Hd).
Qed.

(** Counting makes the table ready. *)
Lemma countbrefs_base t i x : local_ok t i x ->
  exists base count, lookup_base x = Done (base, count) /\ live (default [] base) = table x
    /\ base_ok (hammer2_chain_countbrefs (l_core x) base count) base count.
Proof.
  intros Hl. pose proof (table_entries_ok t i x Hl) as He. destruct Hl as [_ _ (base & count & E & H) _ _].
  exists base, count. split; [exact E|]. unfold table in *. rewrite E in *. destruct base as [bs|]; cbn [default base_ok]; (split; [reflexivity|]).
  - destruct H as [[Hn [Hk Hs]] Hz]. destruct (co_counted (l_core x)) eqn:Ec.
    + unfold hammer2_chain_countbrefs. rewrite Ec. constructor; auto.
    + subst count. destruct (countbrefs_spec (l_core x) bs Ec) as (n & -> & Hn). constructor; auto.
  - unfold hammer2_chain_countbrefs. destruct (co_counted (l_core x)) eqn:Ec; [exact Ec|reflexivity].
Qed.

(** * Children in memory *)

Lemma chains_unique t l : Forall (fun c => key_ok (ch_bref c)) (chains_of t l) -> StronglySorted chain_before (chains_of t l) ->
  forall j1 j2 y1 y2, j1 ∈ l -> j2 ∈ l -> t_nodes t !! j1 = Some y1 -> t_nodes t !! j2 = Some y2 -> l_bref y1 = l_bref y2 -> j1 = j2.
Proof.
  unfold chains_of. induction l as [|j l IH]; intros Hk Hs j1 j2 y1 y2 H1 H2 E1 E2 E; [apply not_elem_of_nil in H1 as []|].
  destruct (decide (j1 = j2)) as [|Hne]; [assumption|]. exfalso.
  assert (Hhead : forall a b ya yb, a = j -> b ∈ l -> t_nodes t !! a = Some ya -> t_nodes t !! b = Some yb -> l_bref ya = l_bref yb -> False).
  { intros a b ya yb -> Hb Ea Eb Hab. cbn in Hk, Hs. rewrite Ea in Hk, Hs. cbn in Hk, Hs. apply StronglySorted_inv in Hs as [_ Hf].
    rewrite Forall_forall in Hf. specialize (Hf (l_chain yb)). apply Forall_cons_1 in Hk as [Hk _].
    assert (Hin : l_chain yb ∈ chains_of t l) by (apply elem_of_chains; eauto). apply Hf, before_keys in Hin; [|exact Hk].
    unfold l_bref in Hab. rewrite Hab in Hin. lia. }
  apply elem_of_cons in H1 as [->|H1]; apply elem_of_cons in H2 as [->|H2]; [congruence| | |].
  - exact (Hhead j j2 y1 y2 eq_refl H2 E1 E2 E).
  - exact (Hhead j j1 y2 y1 eq_refl H1 E2 E1 (eq_sym E)).
  - apply Hne. cbn in Hk, Hs. destruct (l_chain <$> t_nodes t !! j) as [c|]; [|exact (IH Hk Hs j1 j2 y1 y2 H1 H2 E1 E2 E)].
    apply Forall_cons_1 in Hk as [_ Hk]. apply StronglySorted_inv in Hs as [Hs _]. exact (IH Hk Hs j1 j2 y1 y2 H1 H2 E1 E2 E).
Qed.

Lemma child_with_at t i x j y : local_ok t i x -> j ∈ l_tree x -> t_nodes t !! j = Some y -> child_with t x (l_bref y) = Some j.
Proof.
  intros [_ [Hk Hs] _ _ _] Hj Hy. destruct (child_with t x (l_bref y)) as [j'|] eqn:E.
  - destruct (child_with_some _ _ _ _ E) as (Hj' & y' & Hy' & Eb). f_equal.
    exact (chains_unique t _ Hk Hs j' j y' y Hj' Hj Hy' Hy Eb).
  - exfalso. unfold child_with in E. assert (Hin : j ∈ filter (fun k => l_bref <$> t_nodes t !! k = Some (l_bref y)) (l_tree x)).
    { apply list_elem_of_filter. rewrite Hy. auto. }
    destruct (filter _ (l_tree x)) as [|a l]; [apply not_elem_of_nil in Hin as []|discriminate E].
Qed.

Lemma chain_at_found t l c : c ∈ chains_of t l ->
  exists j y, chain_at t l c = Some j /\ j ∈ l /\ t_nodes t !! j = Some y /\ l_chain y = c.
Proof.
  intros Hc. apply elem_of_chains in Hc as (j & y & Hj & Hy & ->). unfold chain_at.
  assert (Hin : j ∈ filter (fun k => l_chain <$> t_nodes t !! k = Some (l_chain y)) l).
  { apply list_elem_of_filter. rewrite Hy. auto. }
  destruct (filter _ l) as [|a l'] eqn:E; [apply not_elem_of_nil in Hin as []|].
  assert (Ha : a ∈ a :: l') by left. rewrite <- E in Ha. apply list_elem_of_filter in Ha as [Ea Ha].
  apply fmap_Some in Ea as (z & Hz & Ez). exists a, z. auto.
Qed.

(** * First items *)

Lemma first_hit_app k ke l1 l2 :
  first_hit_item k ke (l1 ++ l2) = match first_hit_item k ke l1 with Some it => Some it | None => first_hit_item k ke l2 end.
Proof.
  unfold first_hit_item. rewrite filter_app. destruct (filter _ l1) as [|it l]; reflexivity.
Qed.

Lemma first_hit_none k ke l : (forall it, it ∈ l -> hit k ke it = false) -> first_hit_item k ke l = None.
Proof.
  unfold first_hit_item. induction l as [|it l IH]; intros H; [reflexivity|]. rewrite filter_cons, decide_False.
  - apply IH. intros it' Hin. apply H. right. exact Hin.
  - rewrite (H it) by left. discriminate.
Qed.

(** Items of a block below or above the range. *)
Lemma inside_no_hit k ke b it : inside b (item_bref it) -> range_last b < k \/ ke < br_key b -> hit k ke it = false.
Proof.
  intros (H1 & H2 & H3) H. unfold hit. destruct it; cbn [item_bref] in *; try reflexivity; apply andb_false_iff;
    rewrite !Z.leb_gt; lia.
Qed.

(** A higher [k], when nothing ends below it. *)
Lemma first_hit_shift k k' ke l : k <= k' -> (forall it, it ∈ l -> hit k ke it = true -> k' <= range_last (item_bref it)) ->
  first_hit_item k' ke l = first_hit_item k ke l.
Proof.
  intros Hk H. unfold first_hit_item. f_equal. apply filter_ext_in. intros it Hin. specialize (H it Hin). unfold hit in *.
  destruct it; cbn [item_bref] in *; try reflexivity; rewrite !andb_true_iff, !Z.leb_le in *; intuition lia.
Qed.

Lemma enters_app l1 l2 : enters (l1 ++ l2) = (enters l1 + enters l2)%nat.
Proof. unfold enters. rewrite filter_app, length_app. reflexivity. Qed.

(** [j] is [n] levels of the radix tree below [i]. *)
Inductive path (t : topo) (i : nat) : nat -> nat -> Prop :=
| path_refl : path t i 0 i
| path_step n p x j y : path t i n p -> t_nodes t !! p = Some x -> l_error x = 0 -> j ∈ l_tree x ->
    t_nodes t !! j = Some y -> is_node_type (l_bref y) = true -> path t i (S n) j.

Lemma path_trans t i n j m l : path t i n j -> path t j m l -> path t i (n + m) l.
Proof.
  intros H. induction 1 as [|m p x l y Hp IH Hx He Hl Hy Hty]; [rewrite Nat.add_0_r; exact H|].
  rewrite Nat.add_succ_r. exact (path_step t i _ p x l y IH Hx He Hl Hy Hty).
Qed.

Lemma path_loads media t t' i n j : loads media t t' -> path t i n j -> path t' i n j.
Proof.
  intros Hl. induction 1 as [|n p x j y Hp IH Hx He Hj Hy Hty]; [constructor|].
  destruct (ld_node _ _ _ Hl p x Hx) as (x' & Hx' & _ & _ & Ex & _ & _ & _ & Hsub).
  destruct (ld_node _ _ _ Hl j y Hy) as (y' & Hy' & Ey & _). apply (path_step t' i n p x' j y'); auto; [congruence|].
  unfold l_bref. rewrite Ey. exact Hty.
Qed.

(** * One turn *)

Section search.
Context (media : blockref -> loaded) (flags ke : Z).
Hypothesis Hflags : tst flags HAMMER2_LOOKUP_MATCHIND = false.
Hypothesis Hke : ke < 2 ^ 64.
Abbreviation again := (lookup_again media flags ke).
Abbreviation walk := (walk media).
Abbreviation wf := (wf media).
Abbreviation loads := (loads media).

(** A node that a search can work on. *)
Record searchable (x : lnode) : Prop := {
  se_error : l_error x = 0;
  se_direct : (br_type (l_bref x) =? HAMMER2_BREF_TYPE_INODE) && l_direct x = false
}.

(** What a turn finds: the first child that ends at or after [k], in memory now. *)
Record child_found (t : topo) (i : nat) (x : lnode) (k : Z) (b : blockref) (t' : topo) (c : nat) (y : lnode) : Prop := {
  cf_loads : loads t t';
  cf_entry : b ∈ entries t x;
  cf_hit : k <= range_last b /\ br_key b <= ke;
  cf_first : forall b', b' ∈ entries t x -> range_last b' < k \/ br_key b <= br_key b';
  cf_node : t_nodes t' !! c = Some y;
  cf_bref : l_bref y = b;
  cf_parent : l_parent y = Some i;
  cf_live : ch_deleted (l_chain y) = false;
  cf_tree : exists x', t_nodes t' !! i = Some x' /\ c ∈ l_tree x';
  cf_walk : forall d, is_node_type b = true -> sub media (walk d t) d t x b = Enter b :: walk d t' c;
  cf_wf : forall d, wf (S d) t i -> is_node_type b = true -> wf d t' c
}.

Lemma again_ready M t i x k kn : t_nodes t !! i = Some x -> searchable x -> local_ok t i x -> 0 <= k <= ke ->
  exists chain bref kn' co,
    loads t (set_node i (set_l_core co x) t)
    /\ again (S M) t i k kn =
       (let t := set_node i (set_l_core co x) t in
        match bref with
        | None => lookup_exhausted ke (again M) t i k kn'
        | Some b =>
            let! (c, t) :=
              match chain with
              | None => chain_get media t i b
              | Some ch => match chain_at t (l_tree x) ch with Some c => Done (c, t) | None => Panic end
              end in
            let! y := node t c in
            if ch_deleted (l_chain y) then
              if (kn' =? 0) || (ke <? kn') then Done (Result None i kn' 0 t)
              else again M t i kn' kn'
            else if is_node_type (l_bref y) then again M t c k kn'
            else Done (Result (Some c) i kn' 0 t)
        end)
    /\ match bref with
       | Some b => first_in_view (view (table x) (chains_of t (l_tree x))) k (b, chain) /\ br_key b <= ke
       | None => forall b, b ∈ entries t x -> range_last b < k \/ ke < br_key b
       end.
Proof.
  intros Hi [Herr Hdir] Hl Hk. destruct (countbrefs_base t i x Hl) as (base & count & Eb & Et & Hb).
  destruct (combined_any _ base count (chains_of t (l_tree x)) k ke Hb (lo_chains _ _ _ Hl)) as (chain & bref & kn' & c & Ec & H);
    [rewrite Et; exact (lo_coherent _ _ _ Hl)|exact Hk|exact Hke|]. rewrite Et in H.
  set (co := set_cache_index c _) in Ec. exists chain, bref, kn', co. split; [|split].
  - apply set_core_loads; [exact Hi|]. intros bs cnt E _. rewrite Eb in E. injection E as -> ->. exact (tb_zero _ _ _ Hb).
  - cbn [lookup_again]. unfold node at 1. rewrite Hi. cbn [obind]. rewrite Hflags, Herr. cbn [andb negb Z.eqb].
    rewrite Hdir, Eb. cbn [obind]. rewrite Ec. cbn [obind]. reflexivity.
  - destruct bref as [b|]; [exact H|]. destruct H as [_ H]. unfold entries, brefs.
    intros b (v & -> & Hv)%list_elem_of_fmap. exact (H v Hv).
Qed.

Lemma first_entry t x k b chain : first_in_view (view (table x) (chains_of t (l_tree x))) k (b, chain) ->
  b ∈ entries t x /\ k <= range_last b /\ forall b', b' ∈ entries t x -> range_last b' < k \/ br_key b <= br_key b'.
Proof.
  intros (H1 & H2 & H3). unfold entries, brefs. split; [apply list_elem_of_fmap; exists (b, chain); auto|].
  split; [exact H2|]. intros b' (v & -> & Hv)%list_elem_of_fmap. exact (H3 v Hv).
Qed.

Lemma wf_local d t i x : wf (S d) t i -> t_nodes t !! i = Some x -> l_error x = 0 -> local_ok t i x.
Proof. intros (x' & Hx' & H) Hx He. rewrite Hx in Hx'. injection Hx' as <-. apply (H He). Qed.

(** A child that was in memory. *)
Lemma step_in_memory d t i x t1 x1 ch k : wf (S d) t i -> t_nodes t !! i = Some x -> l_error x = 0 ->
  loads t t1 -> t_nodes t1 !! i = Some x1 -> l_tree x1 = l_tree x ->
  first_in_view (view (table x) (chains_of t (l_tree x))) k (ch_bref ch, Some ch) -> br_key (ch_bref ch) <= ke ->
  exists c y, chain_at t1 (l_tree x) ch = Some c /\ child_found t i x k (ch_bref ch) t1 c y.
Proof.
  intros Hwf Hi Herr Hld Hx1 Ht Hv Hbke. destruct (first_entry t x k _ _ Hv) as (He & Hkb & Hmin).
  destruct Hv as (Hin & _ & _). pose proof (wf_local d t i x Hwf Hi Herr) as Hl.
  destruct (elem_of_view _ _ _ Hin) as [[_ H]|(ch' & Hch & E)]; [discriminate H|]. injection E as _ <-.
  apply elem_of_chains in Hch as (j & y & Hj & Hy & ->).
  destruct (ld_node _ _ _ Hld j y Hy) as (y1 & Hy1 & Ey1 & Epar & _).
  destruct (chain_at_found t1 (l_tree x) (l_chain y)) as (c & z & Eat & Hc & Hz & Ez).
  { apply elem_of_chains. exists j, y1. auto. }
  exists c, z. split; [exact Eat|].
  destruct (lo_kids _ _ _ Hl c Hc) as (zc & Hzc & Hpar & Hdel). destruct (ld_node _ _ _ Hld c zc Hzc) as (z' & Hz' & Ez1 & Ez2 & _).
  rewrite Hz in Hz'. injection Hz' as <-.
  assert (Hcw : child_with t x (ch_bref (l_chain y)) = Some c).
  { rewrite <- Ez, Ez1. exact (child_with_at t i x c zc Hl Hc Hzc). }
  constructor; try assumption.
  - auto.
  - unfold l_bref. rewrite Ez. reflexivity.
  - rewrite Ez2. exact Hpar.
  - rewrite Ez1. exact Hdel.
  - exists x1. rewrite Ht. auto.
  - intros d' Hty. unfold sub. rewrite Hty, Hcw. f_equal. symmetry. exact (ld_walk _ _ _ Hld d' c zc Hzc).
  - intros d' Hw Hty. apply (ld_wf _ _ _ Hld). destruct Hw as (x' & Hx' & Hw). rewrite Hi in Hx'. injection Hx' as <-.
    destruct (Hw Herr) as [_ Hw2]. specialize (Hw2 _ He Hty). rewrite Hcw in Hw2. exact Hw2.
Qed.

(** A child that is loaded. *)
Lemma step_load d t i x t1 x1 b k : wf (S d) t i -> t_nodes t !! i = Some x -> l_error x = 0 -> fresh_ok t ->
  loads t t1 -> t_nodes t1 !! i = Some x1 -> l_tree x1 = l_tree x -> l_error x1 = 0 -> table x1 = table x ->
  chains_of t1 (l_tree x) = chains_of t (l_tree x) ->
  first_in_view (view (table x) (chains_of t (l_tree x))) k (b, None) -> br_key b <= ke ->
  exists t' y, chain_get media t1 i b = Done (t_next t1, t') /\ child_found t i x k b t' (t_next t1) y.
Proof.
  intros Hwf Hi Herr Hf Hld Hx1 Ht Herr1 Htab Hch Hv Hbke. destruct (first_entry t x k _ _ Hv) as (He & Hkb & Hmin).
  destruct Hv as (Hin & _ & _). pose proof (wf_local d t i x Hwf Hi Herr) as Hl.
  pose proof (wf_local d t1 i x1 (ld_wf _ _ _ Hld _ _ Hwf) Hx1 Herr1) as Hl1.
  destruct (view_none _ _ b (table_entries_ok t i x Hl) (lo_chains _ _ _ Hl) (lo_coherent _ _ _ Hl) Hin) as [Hb Hno].
  pose proof (ld_fresh _ _ _ Hld Hf) as Hf1. rewrite <- Htab in Hb. rewrite <- Hch, <- Ht in Hno.
  exists (got media t1 i x1 b), (loaded_node media i b). split.
  { unfold chain_get, node. rewrite Hx1. reflexivity. }
  pose proof (get_loads media t1 i x1 b Hf1 Hx1 Hl1 Hb Hno) as Hg. pose proof (got_new media t1 i x1 b Hf1 Hx1 Hl1) as Hn.
  assert (Hcw : child_with t x b = None).
  { destruct (child_with t x b) as [j|] eqn:E; [|reflexivity]. destruct (child_with_some _ _ _ _ E) as (Hj & y & Hy & Eb).
    exfalso. apply (Hno (l_chain y)); [rewrite Ht, Hch; apply elem_of_chains; eauto|]. unfold l_bref in Eb. rewrite Eb. reflexivity. }
  constructor; try assumption; try reflexivity.
  - exact (loads_trans _ _ _ _ Hld Hg).
  - auto.
  - eexists. split; [exact (got_old media t1 i x1 b Hf1 i x1 Hx1)|]. rewrite decide_True by reflexivity. cbn.
    apply (got_parent_tree media t1 i x1 b Hf1 Hx1 Hl1 Hb Hno). auto.
  - intros d' Hty. unfold sub. rewrite Hty, Hcw. f_equal. symmetry. exact (loaded_walk media _ _ i b d' Hn Hty).
  - intros d' Hw Hty. apply (loaded_wf media _ _ i b d' Hn Hty). destruct Hw as (x' & Hx' & Hw). rewrite Hi in Hx'. injection Hx' as <-.
    destruct (Hw Herr) as [_ Hw2]. specialize (Hw2 _ He Hty). rewrite Hcw in Hw2. exact Hw2.
Qed.

Lemma again_step d M t i x k kn : fresh_ok t -> t_nodes t !! i = Some x -> searchable x -> wf (S d) t i -> 0 <= k <= ke ->
  (exists t' kn', loads t t' /\ again (S M) t i k kn = lookup_exhausted ke (again M) t' i k kn'
     /\ forall b, b ∈ entries t x -> range_last b < k \/ ke < br_key b)
  \/ (exists b t' c y kn', child_found t i x k b t' c y
     /\ again (S M) t i k kn = if is_node_type b then again M t' c k kn' else Done (Result (Some c) i kn' 0 t')).
Proof.
  intros Hf Hi Hse Hwf Hk. pose proof (se_error _ Hse) as Herr. pose proof (wf_local d t i x Hwf Hi Herr) as Hl.
  destruct (again_ready M t i x k kn Hi Hse Hl Hk) as (chain & bref & kn' & co & Hld & -> & Hv).
  cbv zeta. set (t1 := set_node i (set_l_core co x) t) in *. set (x1 := set_l_core co x).
  destruct bref as [b|]; [right|left; eauto]. destruct Hv as [Hv Hbke].
  assert (Hx1 : t_nodes t1 !! i = Some x1) by (apply lookup_insert_eq).
  assert (Hfin : forall c t' y, child_found t i x k b t' c y ->
     (let! y := node t' c in
      if ch_deleted (l_chain y) then
        if (kn' =? 0) || (ke <? kn') then Done (Result None i kn' 0 t') else again M t' i kn' kn'
      else if is_node_type (l_bref y) then again M t' c k kn' else Done (Result (Some c) i kn' 0 t'))
     = if is_node_type b then again M t' c k kn' else Done (Result (Some c) i kn' 0 t')).
  { intros c t' y [_ _ _ _ Hy Eb _ Hd _ _ _]. unfold node. rewrite Hy. cbn [obind]. rewrite Hd, Eb. reflexivity. }
  destruct chain as [ch|].
  - assert (b = ch_bref ch) as ->.
    { destruct Hv as (Hin & _). destruct (elem_of_view _ _ _ Hin) as [[_ H]|(ch' & _ & E)]; [discriminate H|]. congruence. }
    destruct (step_in_memory d t i x t1 x1 ch k Hwf Hi Herr Hld Hx1 eq_refl Hv Hbke) as (c & y & Eat & Hcf).
    exists (ch_bref ch), t1, c, y, kn'. split; [exact Hcf|]. rewrite Eat. cbn [obind]. exact (Hfin c t1 y Hcf).
  - destruct (step_load d t i x t1 x1 b k Hwf Hi Herr Hf Hld Hx1 eq_refl Herr eq_refl) as (t' & y & Eg & Hcf); [|exact Hv|exact Hbke|].
    { apply chains_of_ext. intros j _. unfold t1, set_node. cbn [t_nodes]. destruct (decide (i = j)) as [<-|Hne];
        [rewrite lookup_insert_eq, Hi; reflexivity|rewrite lookup_insert_ne by exact Hne; reflexivity]. }
    exists b, t', (t_next t1), y, kn'. split; [exact Hcf|]. rewrite Eg. cbn [obind]. exact (Hfin _ t' y Hcf).
Qed.

(** * The whole search under a node *)

(** The result tells of [it]: the chain of the leaf, under the parent it returns,
    or the error. *)
Definition reports (t : topo) (i : nat) (it : item) (r : result) : Prop :=
  loads t (r_topo r) /\ (exists n, path (r_topo r) i n (r_parent r))
  /\ match it with
     | Leaf b => exists c y, r_chain r = Some c /\ r_error r = 0 /\ t_nodes (r_topo r) !! c = Some y /\ l_bref y = b
                   /\ is_node_type b = false /\ l_parent y = Some (r_parent r) /\ ch_deleted (l_chain y) = false
     | Bad _ e => r_chain r = None /\ r_error r = e
     | Enter _ => False
     end.

(** How a search from [k] at node [i] can end: with the first item; with nothing;
    or at [i], which has no more children, with the key at most raised. *)
Inductive ends (M : nat) (t : topo) (i : nat) (k : Z) (its : list item) (out : outcome result) : Prop :=
| ends_found it r : first_hit_item k ke its = Some it -> out = Done r -> reports t i it r -> ends M t i k its out
| ends_null t' p n kn : first_hit_item k ke its = None -> out = Done (Result None p kn 0 t') -> loads t t' -> path t' i n p ->
    (forall x, t_nodes t !! i = Some x -> is_node_type (l_bref x) = true -> ke <= range_last (l_bref x)) -> ends M t i k its out
| ends_exhausted t' k1 kn M' : first_hit_item k ke its = None -> out = lookup_exhausted ke (again M') t' i k1 kn ->
    loads t t' -> k <= k1 <= ke -> (k1 = ke -> k = ke) -> (M <= M' + 2 * enters its + 1)%nat -> ends M t i k its out.

(** No block ends right before the end of the range, unless the range is one key. *)
Definition no_gap (k : Z) (its : list item) : Prop := k = ke \/ forall b, Enter b ∈ its -> range_last b + 1 <> ke.

(** What the items of the entries [V] are. *)
Definition under (d : nat) (t : topo) (x : lnode) (V : list blockref) : list item := flat_map (sub media (walk d t) d t x) V.

Lemma under_app d t x V1 V2 : under d t x (V1 ++ V2) = under d t x V1 ++ under d t x V2.
Proof. apply flat_map_app. Qed.

Lemma under_no_hit d t i x V k : wf (S d) t i -> t_nodes t !! i = Some x -> l_error x = 0 ->
  (forall b, b ∈ V -> b ∈ entries t x /\ (range_last b < k \/ ke < br_key b)) -> first_hit_item k ke (under d t x V) = None.
Proof.
  intros Hw Hx He H. apply first_hit_none. intros it (b & Hb & Hit)%elem_of_flat_map. destruct (H b Hb) as [Hin Hr].
  apply (inside_no_hit k ke b); [|exact Hr].
  exact (sub_inside media d t i x b Hw Hx He Hin it Hit).
Qed.

(** The entries of a node split at the child that a turn found. *)
Lemma entries_split t i x k b V1 V2 : local_ok t i x -> entries t x = V1 ++ V2 -> (forall b', b' ∈ V1 -> range_last b' < k) ->
  b ∈ entries t x -> k <= range_last b -> (forall b', b' ∈ entries t x -> range_last b' < k \/ br_key b <= br_key b') ->
  exists Va Vb, V2 = Va ++ b :: Vb /\ (forall b', b' ∈ Va -> range_last b' < k)
    /\ (forall b', b' ∈ Vb -> range_last b < br_key b' /\ key_ok b') /\ key_ok b.
Proof.
  intros Hl E H1 Hb Hk Hmin. assert (Hb2 : b ∈ V2).
  { rewrite E in Hb. apply elem_of_app in Hb as [Hb|Hb]; [specialize (H1 b Hb); lia|exact Hb]. }
  apply list_elem_of_split in Hb2 as (Va & Vb & ->). exists Va, Vb. split; [reflexivity|].
  destruct (brefs_sorted (table x) (chains_of t (l_tree x)) (table_entries_ok t i x Hl) (lo_chains _ _ _ Hl) (lo_coherent _ _ _ Hl)) as [Hs Hkey].
  fold (entries t x) in Hs, Hkey. rewrite E in Hs, Hkey. apply StronglySorted_app_1_r in Hs. apply Forall_app in Hkey as [_ Hkey].
  pose proof Hkey as Hkey'. rewrite Forall_forall in Hkey'.
  split; [|split; [|apply Hkey', elem_of_app; right; left]].
  - intros b' Hb'. destruct (Hmin b') as [H|H]; [rewrite E, !elem_of_app; auto|exact H|]. exfalso.
    assert (Hbef : before b' b) by (apply (StronglySorted_app_1_elem_of before Va (b :: Vb)); [exact Hs|exact Hb'|left]).
    apply before_keys in Hbef; [lia|]. apply Hkey', elem_of_app. auto.
  - intros b' Hb'. apply StronglySorted_app_1_r, StronglySorted_inv in Hs as [_ Hf]. rewrite Forall_forall in Hf.
    split; [exact (Hf b' Hb')|]. apply Hkey', elem_of_app. right. right. exact Hb'.
Qed.

(** The exhausted child [c] hands the search back to its parent, or ends it. *)
Lemma exhausted_child M' t c y i k1 kn : t_nodes t !! c = Some y -> is_node_type (l_bref y) = true -> key_ok (l_bref y) ->
  l_parent y = Some i -> k1 <= ke ->
  (lookup_exhausted ke (again M') t c k1 kn = Done (Result None c kn 0 t) /\ (k1 = ke \/ ke <= range_last (l_bref y)))
  \/ (lookup_exhausted ke (again M') t c k1 kn = again M' t i (range_last (l_bref y) + 1) kn /\ k1 <> ke /\ range_last (l_bref y) + 1 <= ke).
Proof.
  intros Hy Hty Hk Hp Hle. unfold lookup_exhausted, node. rewrite Hy. cbn [obind]. rewrite Hty. cbn [negb].
  destruct (Z.eqb_spec k1 ke) as [E|E]; [auto|]. rewrite key_after_range by exact Hk.
  destruct (Z.eqb_spec (range_last (l_bref y)) (2 ^ 64 - 1)) as [E2|E2]; [left; split; [reflexivity|lia]|].
  pose proof (key_last_range _ Hk) as [_ Hr]. destruct Hk as [_ [Hk0 _]].
  replace (range_last (l_bref y) + 1 =? 0) with false by lia. cbn [orb].
  destruct (Z.ltb_spec ke (range_last (l_bref y) + 1)) as [H|H]; [left; split; [reflexivity|lia]|].
  right. unfold hammer2_chain_repparent, node. rewrite Hy. cbn [obind]. rewrite Hp. auto.
Qed.

(** The statement of the search under node [i] of depth [d]. *)
Definition search_ok (d : nat) : Prop := forall t i x k kn M, fresh_ok t -> t_nodes t !! i = Some x -> wf d t i ->
  (br_type (l_bref x) =? HAMMER2_BREF_TYPE_INODE) && l_direct x = false ->
  l_error x = 0 \/ (k <= range_last (l_bref x) /\ br_key (l_bref x) <= ke) -> 0 <= k <= ke -> no_gap k (walk d t i) ->
  (2 * enters (walk d t i) < M)%nat -> ends M t i k (walk d t i) (again M t i k kn).

(** The rest of the search, after what the child [c] of entry [b] had to offer. *)
Lemma ends_later d t i x k b Va Vb its t1 k2 M M' out : wf (S d) t i -> t_nodes t !! i = Some x -> l_error x = 0 ->
  (forall b', b' ∈ Va -> b' ∈ entries t x /\ range_last b' < k) -> (forall b', b' ∈ Vb -> b' ∈ entries t x /\ k2 <= br_key b') ->
  sub media (walk d t) d t x b = Enter b :: its -> first_hit_item k ke its = None -> loads t t1 ->
  k < k2 -> k2 <> ke -> (M <= M' + 2 * enters its + 1)%nat ->
  ends M' t1 i k2 (under d t x Vb) out -> ends (S M) t i k (under d t x (Va ++ b :: Vb)) out.
Proof.
  intros Hw Hx He Ha Hb Hsub Hnone Hld Hk Hk2 HM H.
  assert (Efirst : first_hit_item k ke (under d t x (Va ++ b :: Vb)) = first_hit_item k2 ke (under d t x Vb)).
  { rewrite under_app, first_hit_app. rewrite (under_no_hit d t i x Va k Hw Hx He) by (intros b' Hb'; destruct (Ha b' Hb'); auto).
    unfold under. cbn [flat_map]. rewrite Hsub, first_hit_app. replace (first_hit_item k ke (Enter b :: its)) with (@None item)
      by (symmetry; exact Hnone). symmetry. apply first_hit_shift; [lia|].
    intros it (b' & Hb' & Hit)%elem_of_flat_map _. destruct (Hb b' Hb') as [Hin Hge].
    destruct (sub_inside media d t i x b' Hw Hx He Hin it Hit) as (Hi1 & Hi2 & _). lia. }
  assert (HE : enters (under d t x (Va ++ b :: Vb)) = (enters (under d t x Va) + S (enters its) + enters (under d t x Vb))%nat).
  { rewrite under_app, enters_app. unfold under at 2. cbn [flat_map]. rewrite Hsub, enters_app. unfold enters at 2. rewrite filter_cons.
    cbn [is_enter]. rewrite decide_True by reflexivity. cbn [length]. fold (enters its). fold (under d t x Vb). lia. }
  destruct H as [it r H1 H2 (R1 & R2 & R3)|t2 p n kn H1 H2 H3 H4 H5|t2 k1 kn M2 H1 H2 H3 H4 H5 H6].
  - apply (ends_found _ _ _ _ _ _ it r); [congruence|exact H2|]. split; [exact (loads_trans _ _ _ _ Hld R1)|auto].
  - apply (ends_null _ _ _ _ _ _ t2 p n kn); [congruence|exact H2|exact (loads_trans _ _ _ _ Hld H3)|exact H4|].
    intros x' Hx' Hty. destruct (ld_node _ _ _ Hld i x' Hx') as (x1 & Hx1 & Ec & _). unfold l_bref in *. rewrite <- Ec in *.
    exact (H5 x1 Hx1 Hty).
  - apply (ends_exhausted _ _ _ _ _ _ t2 k1 kn M2); [congruence|exact H2|exact (loads_trans _ _ _ _ Hld H3)|lia|lia|lia].
Qed.

(** The node a search works on, after more blocks were loaded. *)
Lemma loads_node t t1 i x : loads t t1 -> t_nodes t !! i = Some x -> exists x1, t_nodes t1 !! i = Some x1
  /\ (searchable x -> searchable x1) /\ entries t1 x1 = entries t x /\ l_bref x1 = l_bref x /\ l_parent x1 = l_parent x
  /\ forall d V, (forall b, b ∈ V -> b ∈ entries t x) -> under d t1 x1 V = under d t x V.
Proof.
  intros Hld Hx. destruct (ld_node _ _ _ Hld i x Hx) as (x1 & Hx1 & A1 & A2 & A3 & A4 & A5 & A6 & A7). exists x1.
  split; [exact Hx1|]. unfold l_bref. rewrite A1. split; [|split; [exact A6|split; [reflexivity|split; [exact A2|]]]].
  - intros [E1 E2]. constructor; [congruence|]. unfold l_bref. rewrite A1, A5. exact E2.
  - intros d V HV. unfold under. apply flat_map_ext_in. intros b Hb. exact (ld_sub _ _ _ Hld d i x x1 Hx Hx1 b (HV b Hb)).
Qed.

Section child.
Context (d : nat) (t : topo) (i : nat) (x : lnode) (k : Z) (b : blockref) (t' : topo) (c : nat) (y : lnode).
Context (V1 Va Vb : list blockref) (M : nat).
Hypothesis Hf : fresh_ok t.
Hypothesis Hx : t_nodes t !! i = Some x.
Hypothesis Hse : searchable x.
Hypothesis Hw : wf (S d) t i.
Hypothesis HE : entries t x = V1 ++ Va ++ b :: Vb.
Hypothesis HV1 : forall b', b' ∈ V1 -> range_last b' < k.
Hypothesis HVa : forall b', b' ∈ Va -> range_last b' < k.
Hypothesis HVb : forall b', b' ∈ Vb -> range_last b < br_key b' /\ key_ok b'.
Hypothesis Hkb : key_ok b.
Hypothesis Hk : 0 <= k <= ke.
Hypothesis Hgap : no_gap k (under d t x (Va ++ b :: Vb)).
Hypothesis HM : (2 * enters (under d t x (Va ++ b :: Vb)) < S M)%nat.
Hypothesis Hcf : child_found t i x k b t' c y.

Lemma in_entries b' : b' ∈ V1 \/ b' ∈ Va \/ b' = b \/ b' ∈ Vb -> b' ∈ entries t x.
Proof. rewrite HE, !elem_of_app, elem_of_cons. tauto. Qed.

Lemma skip_before : first_hit_item k ke (under d t x Va) = None.
Proof.
  apply (under_no_hit d t i x Va k Hw Hx (se_error _ Hse)). intros b' Hb'. split; [apply in_entries; auto|].
  left. exact (HVa b' Hb').
Qed.

(** Nothing after [b] is in the range when [b] reaches to its end. *)
Lemma skip_after : ke <= range_last b -> first_hit_item k ke (under d t x Vb) = None.
Proof.
  intros Hr. apply (under_no_hit d t i x Vb k Hw Hx (se_error _ Hse)). intros b' Hb'. split; [apply in_entries; auto|].
  right. destruct (HVb b' Hb'). lia.
Qed.

Lemma search_leaf kn : is_node_type b = false ->
  ends (S M) t i k (under d t x (Va ++ b :: Vb)) (Done (Result (Some c) i kn 0 t')).
Proof.
  intros Hty. destruct Hcf as [Hld _ [Hk1 Hk2] _ Hy Eb Hp Hd _ _ _].
  apply (ends_found _ _ _ _ _ _ (Leaf b) (Result (Some c) i kn 0 t')); [|reflexivity|].
  - rewrite under_app, first_hit_app, skip_before. unfold under. cbn [flat_map]. unfold sub at 1. rewrite Hty. cbn [app].
    unfold first_hit_item. rewrite filter_cons, decide_True; [reflexivity|]. cbn. apply andb_true_iff. lia.
  - split; [exact Hld|]. split; [exists O; constructor|]. exists c, y. auto 10.
Qed.

(** The rest of the section is about a child that is entered. *)
Hypothesis Hty : is_node_type b = true.
Abbreviation its := (walk d t' c).

Lemma child_items : sub media (walk d t) d t x b = Enter b :: its.
Proof. exact (cf_walk _ _ _ _ _ _ _ _ Hcf d Hty). Qed.

Lemma child_enters : enters (under d t x (Va ++ b :: Vb)) = (enters (under d t x Va) + S (enters its) + enters (under d t x Vb))%nat.
Proof.
  rewrite under_app, enters_app. unfold under at 2. cbn [flat_map]. rewrite child_items, enters_app. unfold enters at 2. rewrite filter_cons.
  cbn [is_enter]. rewrite decide_True by reflexivity. cbn [length]. fold (enters its). fold (under d t x Vb). lia.
Qed.

Lemma child_in it : it ∈ Enter b :: its \/ it ∈ under d t x Vb -> it ∈ under d t x (Va ++ b :: Vb).
Proof. intros H. rewrite under_app. apply elem_of_app. right. unfold under. cbn [flat_map]. rewrite child_items, elem_of_app. exact H. Qed.

Lemma child_first : first_hit_item k ke (under d t x (Va ++ b :: Vb))
  = match first_hit_item k ke its with Some it => Some it | None => first_hit_item k ke (under d t x Vb) end.
Proof.
  rewrite under_app, first_hit_app, skip_before. unfold under at 1. cbn [flat_map]. rewrite child_items.
  exact (first_hit_app k ke (Enter b :: its) _).
Qed.

Lemma child_path : path t' i 1 c.
Proof.
  destruct Hcf as [Hld _ _ _ Hy Eb _ _ (x' & Hx' & Hc) _ _].
  apply (path_step t' i 0 i x' c y); [constructor|exact Hx'| |exact Hc|exact Hy|rewrite Eb; exact Hty].
  destruct (ld_node _ _ _ Hld i x Hx) as (x2 & Hx2 & _ & _ & Ex & _). rewrite Hx' in Hx2. injection Hx2 as <-. rewrite Ex.
  exact (se_error _ Hse).
Qed.

(** What the search of the entries after [b] gives. *)
Definition search_rest : Prop := forall t1 x1 k2 kn M', fresh_ok t1 -> t_nodes t1 !! i = Some x1 -> searchable x1 -> wf (S d) t1 i ->
  entries t1 x1 = (V1 ++ Va ++ [b]) ++ Vb -> (forall b', b' ∈ V1 ++ Va ++ [b] -> range_last b' < k2) -> 0 <= k2 <= ke ->
  no_gap k2 (under d t1 x1 Vb) -> (2 * enters (under d t1 x1 Vb) < M')%nat ->
  ends M' t1 i k2 (under d t1 x1 Vb) (again M' t1 i k2 kn).

Lemma null_here t1 p n kn : first_hit_item k ke its = None -> ke <= range_last b -> loads t t1 -> path t1 i n p ->
  ends (S M) t i k (under d t x (Va ++ b :: Vb)) (Done (Result None p kn 0 t1)).
Proof.
  intros H1 Hr Hld Hp. apply (ends_null _ _ _ _ _ _ t1 p n kn); [rewrite child_first, H1; exact (skip_after Hr)|reflexivity|exact Hld|exact Hp|].
  intros x0 Hx0 Ht0. rewrite Hx in Hx0. injection Hx0 as <-.
  destruct (lo_inside _ _ _ (wf_local d t i x Hw Hx (se_error _ Hse)) Ht0 b (cf_entry _ _ _ _ _ _ _ _ Hcf)) as (_ & _ & H). lia.
Qed.

(** The child had nothing: the search ends, or goes on behind [b]. *)
Lemma search_behind t1 k1 kn M' : search_rest -> first_hit_item k ke its = None -> loads t' t1 ->
  k <= k1 <= ke -> (k1 = ke -> k = ke) -> (M <= M' + 2 * enters its + 1)%nat ->
  ends (S M) t i k (under d t x (Va ++ b :: Vb)) (lookup_exhausted ke (again M') t1 c k1 kn).
Proof.
  intros Hrest H1 Hld1 Hk1 Hk1e HM1. pose proof child_enters as HEn. destruct Hcf as [Hld _ [Hb1 Hb2] _ Hy Eb Hp _ _ _ _].
  destruct (loads_node t' t1 c y Hld1 Hy) as (y1 & Hy1 & _ & _ & Eb1 & Ep1 & _).
  pose proof (loads_trans _ _ _ _ Hld Hld1) as Hld2. rewrite Eb in Eb1.
  destruct (exhausted_child M' t1 c y1 i k1 kn Hy1) as [[-> Hs]|(-> & Hne & Hle)];
    [rewrite Eb1; exact Hty|rewrite Eb1; exact Hkb|congruence|lia| |]; rewrite Eb1 in *.
  - apply (null_here t1 c 1 kn H1); [destruct Hs as [E|E]; [specialize (Hk1e E); lia|exact E]|exact Hld2|].
    exact (path_loads _ _ _ _ _ _ Hld1 child_path).
  - destruct (loads_node t t1 i x Hld2 Hx) as (x1 & Hx1 & Hse1 & Hent & _ & _ & Hund).
    assert (HVb' : forall b', b' ∈ Vb -> b' ∈ entries t x) by (intros b' Hb'; apply in_entries; auto).
    assert (Hgap2 : forall b', Enter b' ∈ under d t x (Va ++ b :: Vb) -> range_last b' + 1 <> ke).
    { destruct Hgap as [E|Hg]; [lia|exact Hg]. }
    pose proof (Hgap2 b (child_in _ (or_introl (list_elem_of_here _ _)))) as Hgb.
    pose proof (key_last_range b Hkb) as [_ Hbr]. destruct Hkb as [_ [Hk0 _]].
    apply (ends_later d t i x k b Va Vb its t1 (range_last b + 1) M M'); auto; [exact (se_error _ Hse)| | |exact child_items|lia|].
    + intros b' Hb'. split; [apply in_entries; auto|exact (HVa b' Hb')].
    + intros b' Hb'. destruct (HVb b' Hb'). split; [auto|lia].
    + rewrite <- (Hund d Vb HVb'). apply Hrest; try assumption; [exact (ld_fresh _ _ _ Hld2 Hf)|auto|exact (ld_wf _ _ _ Hld2 _ _ Hw)| | |lia| |].
      * rewrite Hent, HE, <- !app_assoc. reflexivity.
      * intros b' Hb'. rewrite !elem_of_app in Hb'. destruct Hb' as [Hb'|[Hb'|Hb']]; [specialize (HV1 b' Hb')|specialize (HVa b' Hb')|apply list_elem_of_singleton in Hb' as ->]; lia.
      * right. intros b' Hb'. rewrite (Hund d Vb HVb') in Hb'. apply Hgap2, child_in. auto.
      * rewrite (Hund d Vb HVb'). lia.
Qed.

(** The search goes into the child [c], and on from there. *)
Lemma search_child kn : search_ok d -> search_rest -> ends (S M) t i k (under d t x (Va ++ b :: Vb)) (again M t' c k kn).
Proof.
  intros IHd Hrest. pose proof child_enters as HEn. pose proof child_path as Hpath. pose proof (cf_wf _ _ _ _ _ _ _ _ Hcf d Hw Hty) as Hwf.
  pose proof (cf_loads _ _ _ _ _ _ _ _ Hcf) as Hld. pose proof (cf_node _ _ _ _ _ _ _ _ Hcf) as Hy. pose proof (cf_bref _ _ _ _ _ _ _ _ Hcf) as Eb.
  assert (Hhit : k <= range_last (l_bref y) /\ br_key (l_bref y) <= ke) by (rewrite Eb; exact (cf_hit _ _ _ _ _ _ _ _ Hcf)).
  assert (Hgapc : no_gap k its).
  { destruct Hgap as [?|Hg]; [left; assumption|right]. intros b' Hb'. apply Hg, child_in. left. right. exact Hb'. }
  assert (Hdir : (br_type (l_bref y) =? HAMMER2_BREF_TYPE_INODE) && l_direct y = false).
  { rewrite Eb. destruct (node_type_cases b Hty) as [-> | ->]; reflexivity. }
  destruct (IHd t' c y k kn M (ld_fresh _ _ _ Hld Hf) Hy Hwf Hdir (or_intror Hhit) Hk Hgapc ltac:(lia))
    as [it r H1 H2 (R1 & (m & R2) & R3)|t1 p m kn1 H1 H2 H3 H4 H5|t1 k1 kn1 M' H1 H2 H3 H4 H5 H6]; rewrite H2.
  - apply (ends_found _ _ _ _ _ _ it r); [rewrite child_first, H1; reflexivity|reflexivity|]. split; [exact (loads_trans _ _ _ _ Hld R1)|].
    split; [|exact R3]. exists (1 + m)%nat. exact (path_trans _ _ _ _ _ _ (path_loads _ _ _ _ _ _ R1 Hpath) R2).
  - apply (null_here t1 p (1 + m) kn1 H1); [rewrite <- Eb; apply (H5 y Hy); rewrite Eb; exact Hty|exact (loads_trans _ _ _ _ Hld H3)|].
    exact (path_trans _ _ _ _ _ _ (path_loads _ _ _ _ _ _ H3 Hpath) H4).
  - exact (search_behind t1 k1 kn1 M' Hrest H1 H3 H4 H5 H6).
Qed.
End child.

Lemma search_entries d (IHd : search_ok d) n : forall V1 V2 t i x k kn M, (length V2 <= n)%nat ->
  fresh_ok t -> t_nodes t !! i = Some x -> searchable x -> wf (S d) t i -> entries t x = V1 ++ V2 ->
  (forall b, b ∈ V1 -> range_last b < k) -> 0 <= k <= ke -> no_gap k (under d t x V2) ->
  (2 * enters (under d t x V2) < M)%nat -> ends M t i k (under d t x V2) (again M t i k kn).
Proof.
  induction n as [|n IHn]; intros V1 V2 t i x k kn M Hn Hf Hx Hse Hw E HV1 Hk Hgap HM; (destruct M as [|M]; [lia|]);
    pose proof (se_error _ Hse) as He; pose proof (wf_local d t i x Hw Hx He) as Hl;
    (destruct (again_step d M t i x k kn Hf Hx Hse Hw Hk) as [(t' & kn' & Hld & -> & Hno)|(b & t' & c & y & kn' & Hcf & ->)];
     [apply (ends_exhausted _ _ _ _ _ _ t' k kn' M); auto; [|lia|lia]; apply (under_no_hit d t i x V2 k Hw Hx He);
      intros b Hb; assert (Hbin : b ∈ entries t x) by (rewrite E; apply elem_of_app; auto); split; [exact Hbin|exact (Hno b Hbin)]|]);
    destruct (entries_split t i x k b V1 V2 Hl E HV1 (cf_entry _ _ _ _ _ _ _ _ Hcf) (proj1 (cf_hit _ _ _ _ _ _ _ _ Hcf)) (cf_first _ _ _ _ _ _ _ _ Hcf))
      as (Va & Vb & -> & HVa & HVb & Hkb); rewrite length_app in Hn; cbn in Hn; [lia|].
  destruct (is_node_type b) eqn:Hty; [|apply (search_leaf d t i x k b t' c y V1 Va Vb M); assumption].
  apply (search_child d t i x k b t' c y V1 Va Vb M); try assumption.
  intros t1 x1 k2 kn1 M1 Hf1 Hx1 Hse1 Hw1 E1 HV Hk2 Hg2 HM2. apply (IHn (V1 ++ Va ++ [b]) Vb t1 i x1 k2 kn1 M1); try assumption. lia.
Qed.

(** The search under a node ends in one of the three ways. *)
Lemma search_correct d : search_ok d.
Proof.
  induction d as [|d IHd]; intros t i x k kn M Hf Hx Hw Hdir Herr Hk Hgap HM; [destruct Hw|].
  cbn [LookupSpec.walk] in *. rewrite Hx in *. destruct (Z.eqb_spec (l_error x) 0) as [He|He].
  - exact (search_entries d IHd (length (entries t x)) [] (entries t x) t i x k kn M (Nat.le_refl _) Hf Hx (Build_searchable x He Hdir)
             Hw eq_refl (fun b Hb => match not_elem_of_nil b Hb with end) Hk Hgap HM).
  - destruct M as [|M]; [lia|]. destruct Herr as [?|[H1 H2]]; [congruence|].
    apply (ends_found _ _ _ _ _ _ (Bad (l_bref x) (l_error x)) (Result None i kn (l_error x) t)).
    + unfold first_hit_item. rewrite filter_cons, decide_True; [reflexivity|]. cbn. apply andb_true_iff. lia.
    + cbn [lookup_again]. unfold node. rewrite Hx. cbn [obind]. rewrite Hflags. cbn [andb].
      replace (l_error x =? 0) with false by (symmetry; apply Z.eqb_neq; exact He). reflexivity.
    + split; [apply loads_refl|]. split; [exists O; constructor|]. auto.
Qed.
End search.
