(* ===== verification/LookupTop.v ===== *)
(** The theorems about lookups: what [hammer2_chain_lookup] returns from any node
    below an inode, what an iteration with [hammer2_chain_next] visits, and the
    boundary case that a lookup misses. *)

From Stdlib Require Import ZArith Lia Bool Sorted.
From stdpp Require Import base numbers list option gmap fin_maps sorting.
From S2P Require Import Prelude Disk BlockTable BlockTableProof BlockTableSpec ChainFind ChainFindProof Lookup LookupSpec LookupProof.

Section top.
Context (media : blockref -> loaded).
Abbreviation walk := (walk media).
Abbreviation wf := (wf media).
Abbreviation loads := (loads media).

(** * Paths *)

Lemma child_entry t p x j y : local_ok t p x -> j ∈ l_tree x -> t_nodes t !! j = Some y -> l_bref y ∈ entries t x.
Proof.
  intros Hl Hj Hy. unfold entries. apply elem_of_brefs; [exact (table_entries_ok t p x Hl)|exact (lo_chains _ _ _ Hl)|exact (lo_coherent _ _ _ Hl)|].
  left. exists (l_chain y). split; [apply elem_of_chains; eauto|reflexivity].
Qed.

Lemma path_wf t r n j : path t r n j -> forall D, wf D t r -> exists d, D = (n + S d)%nat /\ wf (S d) t j.
Proof.
  induction 1 as [|n p x j y Hp IH Hx He Hj Hy Hty]; intros D HD.
  - destruct D as [|d]; [destruct HD|]. eauto.
  - destruct (IH D HD) as (d & -> & Hw). pose proof (wf_local media d t p x Hw Hx He) as Hl.
    destruct Hw as (x' & Hx' & Hw). rewrite Hx in Hx'. injection Hx' as <-. destruct (Hw He) as [_ Hw2].
    specialize (Hw2 _ (child_entry t p x j y Hl Hj Hy) Hty). rewrite (child_with_at t p x j y Hl Hj Hy) in Hw2.
    destruct d as [|d]; [destruct Hw2|]. exists d. split; [lia|exact Hw2].
Qed.

Lemma no_cycle t j n D : path t j (S n) j -> ~ wf D t j.
Proof.
  intros Hp. induction D as [D IH] using lt_wf_ind. intros Hw. destruct (path_wf t j (S n) j Hp D Hw) as (d & -> & Hw').
  exact (IH (S d) ltac:(lia) Hw').
Qed.

(** The nodes of a path are all different, so it is no longer than the heap. *)
Lemma path_nodes t r D n j : wf D t r -> path t r n j ->
  exists l, length l = S n /\ NoDup l /\ forall i, i ∈ l -> i ∈ dom (t_nodes t) /\ exists m, path t i m j.
Proof.
  intros HD. induction 1 as [|n p x j y Hp (l & Hlen & Hnd & Hl) Hx He Hj Hy Hty].
  - exists [r]. split; [reflexivity|]. split; [apply NoDup_singleton|]. intros i ->%list_elem_of_singleton.
    split; [|exists O; constructor]. destruct D as [|D]; [destruct HD|]. destruct HD as (x & Hx & _). apply elem_of_dom. eauto.
  - assert (Hpj : forall i, i ∈ l -> exists m, path t i (S m) j).
    { intros i Hi. destruct (Hl i Hi) as [_ [m Hm]]. exists m. exact (path_step t i m p x j y Hm Hx He Hj Hy Hty). }
    exists (j :: l). split; [cbn; lia|]. split.
    + constructor; [|exact Hnd]. intros Hin. destruct (Hpj j Hin) as [m Hm].
      destruct (path_wf t r (S n) j (path_step t r n p x j y Hp Hx He Hj Hy Hty) D HD) as (d & _ & Hw).
      exact (no_cycle t j m (S d) Hm Hw).
    + intros i [->|Hi]%elem_of_cons.
      * split; [apply elem_of_dom; eauto|exists O; constructor].
      * split; [apply Hl; exact Hi|]. destruct (Hpj i Hi) as [m Hm]. eauto.
Qed.

Lemma path_size t r D n j : wf D t r -> path t r n j -> (n <= size (t_nodes t))%nat.
Proof.
  intros HD Hp. destruct (path_nodes t r D n j HD Hp) as (l & Hlen & Hnd & Hl).
  assert (Hs : (size (list_to_set l : gset nat) <= size (dom (t_nodes t)))%nat).
  { apply subseteq_size. intros i Hi. apply elem_of_list_to_set in Hi. apply Hl. exact Hi. }
  rewrite size_list_to_set in Hs by exact Hnd. rewrite size_dom in Hs. lia.
Qed.

(** * From the inode to a node below it *)

(** Where the items of a child are among those of its parent. *)
Lemma walk_child t p x j y d : wf (S d) t p -> t_nodes t !! p = Some x -> l_error x = 0 -> j ∈ l_tree x ->
  t_nodes t !! j = Some y -> is_node_type (l_bref y) = true ->
  exists V1 V2, entries t x = V1 ++ l_bref y :: V2
    /\ walk (S d) t p = under media d t x V1 ++ (Enter (l_bref y) :: walk d t j) ++ under media d t x V2.
Proof.
  intros Hw Hx He Hj Hy Hty. pose proof (wf_local media d t p x Hw Hx He) as Hl.
  destruct (list_elem_of_split _ _ (child_entry t p x j y Hl Hj Hy)) as (V1 & V2 & E). exists V1, V2. split; [exact E|].
  cbn [LookupSpec.walk]. rewrite Hx, He. cbn [Z.eqb]. fold (under media d t x (entries t x)). rewrite E, under_app. f_equal.
  unfold under at 1. cbn [flat_map]. unfold sub at 1. rewrite Hty, (child_with_at t p x j y Hl Hj Hy). reflexivity.
Qed.

Definition covers (b : blockref) (k ke : Z) : Prop := br_key b <= k /\ ke <= range_last b.

Lemma path_items t r n j D d : wf D t r -> path t r n j -> D = (n + d)%nat ->
  (forall it, it ∈ walk d t j -> it ∈ walk D t r) /\ (enters (walk d t j) <= enters (walk D t r))%nat
  /\ forall y k ke, t_nodes t !! j = Some y -> (n <> 0%nat -> covers (l_bref y) k ke) ->
       first_hit_item k ke (walk D t r) = first_hit_item k ke (walk d t j).
Proof.
  intros HD Hp. revert d. induction Hp as [|n p x j y Hp IH Hx He Hj Hy Hty]; intros d ->.
  { cbn [Nat.add]. auto. }
  destruct (IH (S d) ltac:(lia)) as (I1 & I2 & I3). destruct (path_wf t r n p Hp _ HD) as (d' & Ed & Hw).
  assert (d' = d) as -> by lia. destruct (walk_child t p x j y d Hw Hx He Hj Hy Hty) as (V1 & V2 & E & Ew).
  rewrite Ew in I1, I2, I3. split; [|split].
  - intros it Hit. apply I1. rewrite !elem_of_app, elem_of_cons. auto.
  - rewrite !enters_app in I2. unfold enters at 2 in I2. rewrite filter_cons in I2. cbn [is_enter] in I2.
    rewrite decide_True in I2 by reflexivity. cbn [length] in I2. fold (enters (walk d t j)) in I2. lia.
  - intros y' k ke Hy' Hc. rewrite Hy in Hy'. injection Hy' as <-. specialize (Hc ltac:(lia)).
    pose proof (wf_local media d t p x Hw Hx He) as Hl.
    rewrite (I3 x k ke Hx).
    2: { intros Hn0. destruct Hp as [|n0 q z p w _ _ _ Hpz Hw0 Htw]; [congruence|]. rewrite Hx in Hw0. injection Hw0 as <-.
         destruct (lo_inside _ _ _ Hl Htw _ (child_entry t p x j y Hl Hj Hy)) as (A & _ & B). destruct Hc. split; lia. }
    destruct (brefs_sorted (table x) (chains_of t (l_tree x)) (table_entries_ok t p x Hl) (lo_chains _ _ _ Hl) (lo_coherent _ _ _ Hl)) as [Hs _].
    fold (entries t x) in Hs. rewrite E in Hs.
    assert (Hin : forall b, b ∈ V1 \/ b ∈ V2 -> b ∈ entries t x) by (intros b; rewrite E, elem_of_app, elem_of_cons; tauto).
    assert (Hk : key_ok (l_bref y)) by exact (entries_key_ok t p x _ Hl (child_entry t p x j y Hl Hj Hy)).
    pose proof (key_last_range _ Hk) as [_ Hr]. destruct Hc as [Hc1 Hc2].
    rewrite !first_hit_app, (under_no_hit media ke d t p x V1 k Hw Hx He), (under_no_hit media ke d t p x V2 k Hw Hx He).
    + change (first_hit_item k ke (Enter (l_bref y) :: walk d t j)) with (first_hit_item k ke (walk d t j)).
      destruct (first_hit_item k ke (walk d t j)); reflexivity.
    + intros b Hb. split; [apply Hin; auto|]. right. apply StronglySorted_app_1_r, StronglySorted_inv in Hs as [_ Hf].
      rewrite Forall_forall in Hf. specialize (Hf b Hb). unfold before in Hf. lia.
    + intros b Hb. split; [apply Hin; auto|]. left.
      assert (Hbef : before b (l_bref y)) by (apply (StronglySorted_app_1_elem_of before V1 (l_bref y :: V2)); [exact Hs|exact Hb|left]).
      unfold before in Hbef. lia.
Qed.

(** A topology under the inode [r]: well formed to depth [D], nothing wrong with
    the inode, and few enough blocks for the loop limit. *)
Record root_ok (D : nat) (t : topo) (r : nat) : Prop := {
  rk_fresh : fresh_ok t;
  rk_wf : wf D t r;
  rk_node : exists x, t_nodes t !! r = Some x /\ l_error x = 0 /\ is_node_type (l_bref x) = false
    /\ (br_type (l_bref x) =? HAMMER2_BREF_TYPE_INODE) && l_direct x = false /\ l_parent x <> Some r;
  rk_turns : 2 * Z.of_nat (enters (walk D t r)) < 299999
}.

Lemma root_loads D t t' r : root_ok D t r -> loads t t' -> root_ok D t' r.
Proof.
  intros [Hf Hw (x & Hx & A & B & C & E) Ht] Hld. destruct (ld_node _ _ _ Hld r x Hx) as (x' & Hx' & A1 & A2 & A3 & A4 & A5 & _).
  constructor; [exact (ld_fresh _ _ _ Hld Hf)|exact (ld_wf _ _ _ Hld D r Hw)| |].
  - exists x'. unfold l_bref in *. rewrite A1, A2, A3, A5. auto.
  - rewrite (ld_walk _ _ _ Hld D r x Hx). exact Ht.
Qed.

(** The first loop stops at the node itself or at an ancestor that covers the
    range, or at the inode. *)
Lemma lookup_up_ok D t r n p k ke : root_ok D t r -> path t r n p -> forall fuel, (n <= fuel)%nat ->
  exists m q, path t r m q /\ lookup_up fuel t p k ke = Done q
    /\ (m <> 0%nat -> exists y, t_nodes t !! q = Some y /\ is_node_type (l_bref y) = true /\ key_ok (l_bref y) /\ covers (l_bref y) k ke).
Proof.
  intros Hr. induction 1 as [|n p x j y Hp IH Hx He Hj Hy Hty]; intros fuel Hf.
  - destruct (rk_node _ _ _ Hr) as (x & Hx & _ & Hty & _). exists 0%nat, r. split; [constructor|]. split; [|congruence].
    destruct fuel; cbn [lookup_up]; unfold node; rewrite Hx; cbn [obind]; rewrite Hty; reflexivity.
  - destruct (path_wf t r n p Hp D (rk_wf _ _ _ Hr)) as (d & _ & Hw). pose proof (wf_local media d t p x Hw Hx He) as Hl.
    destruct fuel as [|fuel]; [lia|]. cbn [lookup_up]. unfold node at 1. rewrite Hy. cbn [obind]. rewrite Hty.
    assert (Hk : key_ok (l_bref y)) by exact (entries_key_ok t p x _ Hl (child_entry t p x j y Hl Hj Hy)).
    destruct (negb (ch_deleted (l_chain y)) && encloses y k ke) eqn:E.
    + exists (S n), j. split; [exact (path_step t r n p x j y Hp Hx He Hj Hy Hty)|]. split; [reflexivity|].
      intros _. exists y. split; [exact Hy|]. split; [exact Hty|]. split; [exact Hk|]. apply andb_true_iff in E as [_ E]. unfold encloses in E.
      rewrite (proj1 (key_last_range _ Hk)) in E. unfold covers. lia.
    + destruct (lo_kids _ _ _ Hl j Hj) as (y' & Hy' & Hpar & _). rewrite Hy in Hy'. injection Hy' as <-.
      unfold hammer2_chain_repparent, node. rewrite Hy. cbn [obind]. rewrite Hpar. cbn [obind]. exact (IH fuel ltac:(lia)).
Qed.

(** * The order of the items *)

(** The items other than blocks to enter are in key order. *)
Definition item_before (x y : item) : Prop := before (item_bref x) (item_bref y).
Definition shown (its : list item) : list item := filter (fun it => is_enter it = false) its.

Lemma mwalk_key_ok d : forall b, key_ok b -> mwf media d b -> forall it, it ∈ mwalk media d b -> key_ok (item_bref it).
Proof.
  induction d as [|d IH]; intros b Hk; [intros []|]. cbn [mwf mwalk]. intros H it.
  destruct (Z.eqb_spec (ld_error (media b)) 0) as [He|He]; [|intros ->%list_elem_of_singleton; exact Hk].
  destruct (H He) as [[_ [Hke _]] Hb]. rewrite Forall_forall in Hke.
  intros (b' & Hb' & Hit)%elem_of_flat_map. destruct (Hb b' Hb') as [_ Hm]. specialize (Hke b' Hb').
  destruct (is_node_type b'); [apply elem_of_cons in Hit as [->|Hit]; eauto|apply list_elem_of_singleton in Hit as ->; exact Hke].
Qed.

Lemma walk_key_ok d : forall t i x, wf d t i -> t_nodes t !! i = Some x -> l_error x = 0 \/ key_ok (l_bref x) ->
  forall it, it ∈ walk d t i -> key_ok (item_bref it).
Proof.
  induction d as [|d IH]; intros t i x Hw Hx Hok it; [destruct Hw|]. cbn [LookupSpec.walk]. rewrite Hx.
  destruct (Z.eqb_spec (l_error x) 0) as [He|He]; [|intros ->%list_elem_of_singleton; destruct Hok; [congruence|assumption]].
  pose proof (wf_local media d t i x Hw Hx He) as Hl. destruct Hw as (x' & Hx' & Hw). rewrite Hx in Hx'. injection Hx' as <-.
  destruct (Hw He) as [_ Hw2]. intros (b & Hb & Hit)%elem_of_flat_map. pose proof (entries_key_ok t i x b Hl Hb) as Hk.
  specialize (Hw2 b Hb). unfold sub in Hit. destruct (is_node_type b); [|apply list_elem_of_singleton in Hit as ->; exact Hk].
  apply elem_of_cons in Hit as [->|Hit]; [exact Hk|]. specialize (Hw2 eq_refl).
  destruct (child_with t x b) as [j|] eqn:Ec; [|exact (mwalk_key_ok d b Hk Hw2 it Hit)].
  destruct (child_with_some t x b j Ec) as (_ & y & Hy & Eb). apply (IH t j y Hw2 Hy); [right; rewrite Eb; exact Hk|exact Hit].
Qed.

Lemma flat_sorted (f : blockref -> list item) V : StronglySorted before V ->
  (forall b, b ∈ V -> StronglySorted item_before (shown (f b)) /\ forall it, it ∈ f b -> inside b (item_bref it)) ->
  StronglySorted item_before (shown (flat_map f V)).
Proof.
  induction 1 as [|b V Hs IH Hf]; intros H; [constructor|]. cbn [flat_map]. unfold shown. rewrite filter_app.
  rewrite Forall_forall in Hf. apply StronglySorted_app_2.
  - intros x y [_ Hx]%list_elem_of_filter [_ Hy]%list_elem_of_filter. apply elem_of_flat_map in Hy as (b' & Hb' & Hy).
    destruct (H b ltac:(left)) as [_ H1]. destruct (H b' ltac:(right; exact Hb')) as [_ H2].
    destruct (H1 x Hx) as (_ & _ & A). destruct (H2 y Hy) as (B & _). specialize (Hf b' Hb'). unfold item_before, before in *. lia.
  - apply H. left.
  - apply IH. intros b' Hb'. apply H. right. exact Hb'.
Qed.

Lemma shown_enter b its : shown (Enter b :: its) = shown its.
Proof. unfold shown. rewrite filter_cons, decide_False by discriminate. reflexivity. Qed.

Lemma mwalk_sorted d : forall b, key_ok b -> mwf media d b -> StronglySorted item_before (shown (mwalk media d b)).
Proof.
  induction d as [|d IH]; intros b Hk; [intros []|]. intros H. pose proof H as Hm. cbn [mwf mwalk] in *.
  destruct (Z.eqb_spec (ld_error (media b)) 0) as [He|He]; [|repeat constructor].
  destruct (H He) as [[_ [Hke Hs]] Hb]. rewrite Forall_forall in Hke. apply flat_sorted; [exact Hs|].
  intros b' Hb'. destruct (Hb b' Hb') as [_ Hm']. specialize (Hke b' Hb'). destruct (is_node_type b').
  - rewrite shown_enter. split; [exact (IH b' Hke (Hm' eq_refl))|]. intros it [->|Hit]%elem_of_cons; [exact (inside_refl b' Hke)|].
    exact (mwalk_inside media d b' Hke (Hm' eq_refl) it Hit).
  - split; [repeat constructor|]. intros it ->%list_elem_of_singleton. exact (inside_refl b' Hke).
Qed.

Lemma walk_sorted d : forall t i, wf d t i -> StronglySorted item_before (shown (walk d t i)).
Proof.
  induction d as [|d IH]; intros t i Hw; [destruct Hw|]. pose proof Hw as (x & Hx & H). cbn [LookupSpec.walk]. rewrite Hx.
  destruct (Z.eqb_spec (l_error x) 0) as [He|He]; [|repeat constructor]. destruct (H He) as [Hl Hw2].
  destruct (brefs_sorted (table x) (chains_of t (l_tree x)) (table_entries_ok t i x Hl) (lo_chains _ _ _ Hl) (lo_coherent _ _ _ Hl)) as [Hs _].
  apply flat_sorted; [exact Hs|]. intros b Hb. split; [|exact (sub_inside media d t i x b Hw Hx He Hb)].
  specialize (Hw2 b Hb). pose proof (entries_key_ok t i x b Hl Hb) as Hk. unfold sub. destruct (is_node_type b); [|repeat constructor].
  rewrite shown_enter. specialize (Hw2 eq_refl). destruct (child_with t x b) as [j|]; [exact (IH t j Hw2)|exact (mwalk_sorted d b Hk Hw2)].
Qed.
(** * The lookup *)

(** What a search of [k, ke] from a node below the inode [r] reports. *)
Definition looked_up (t : topo) (r : nat) (k ke : Z) (its : list item) (res : result) : Prop :=
  loads t (r_topo res) /\ (exists n, path (r_topo res) r n (r_parent res))
  /\ match first_hit_item k ke its with
     | None => r_chain res = None /\ r_error res = 0
     | Some it =>
         match it with
         | Leaf b => exists c y, r_chain res = Some c /\ r_error res = 0 /\ t_nodes (r_topo res) !! c = Some y /\ l_bref y = b
                       /\ is_node_type b = false /\ l_parent y = Some (r_parent res) /\ ch_deleted (l_chain y) = false
         | Bad _ e => r_chain res = None /\ r_error res = e
         | Enter _ => False
         end
     end.

Section flags.
Context (flags ke : Z).
Hypothesis Hflags : tst flags HAMMER2_LOOKUP_MATCHIND = false.
Hypothesis Hke : ke < 2 ^ 64.

(** Exhausted where the search began: nothing is left. *)
Lemma exhausted_stops M t q k1 kn x : t_nodes t !! q = Some x -> k1 <= ke ->
  is_node_type (l_bref x) = false \/ (key_ok (l_bref x) /\ ke <= range_last (l_bref x)) ->
  lookup_exhausted ke (lookup_again media flags ke M) t q k1 kn = Done (Result None q kn 0 t).
Proof.
  intros Hx Hk1 H. unfold lookup_exhausted, node. rewrite Hx. cbn [obind]. destruct (k1 =? ke); [reflexivity|].
  destruct H as [->|[Hk Hr]]; [reflexivity|]. destruct (is_node_type (l_bref x)); [|reflexivity]. cbn [negb].
  rewrite key_after_range by exact Hk. destruct (Z.eqb_spec (range_last (l_bref x)) (2 ^ 64 - 1)); [reflexivity|].
  replace (ke <? range_last (l_bref x) + 1) with true by lia. rewrite orb_true_r. reflexivity.
Qed.

Lemma lookup_ok D t r n p k kn : root_ok D t r -> path t r n p -> 0 <= k <= ke -> no_gap ke k (walk D t r) ->
  exists res, hammer2_chain_lookup media t p kn k ke flags = Done res /\ looked_up t r k ke (walk D t r) res.
Proof.
  intros Hr Hp Hk Hgap. unfold hammer2_chain_lookup.
  destruct (lookup_up_ok D t r n p k ke Hr Hp _ (path_size t r D n p (rk_wf _ _ _ Hr) Hp)) as (m & q & Hq & -> & Hcov). cbn [obind].
  destruct (path_wf t r m q Hq D (rk_wf _ _ _ Hr)) as (d & -> & Hw). pose proof Hw as (x & Hx & _).
  destruct (path_items t r m q _ (S d) (rk_wf _ _ _ Hr) Hq eq_refl) as (I1 & I2 & I3).
  assert (Hgapq : no_gap ke k (walk (S d) t q)).
  { destruct Hgap as [E|Hg]; [left; exact E|right]. intros b Hb. exact (Hg b (I1 _ Hb)). }
  assert (Hone : first_hit_item k ke (walk (m + S d) t r) = first_hit_item k ke (walk (S d) t q)).
  { apply (I3 x k ke Hx). intros Hm. destruct (Hcov Hm) as (y & Hy & _ & _ & Hc). rewrite Hx in Hy. injection Hy as <-. exact Hc. }
  assert (Hstart : (m = 0%nat /\ l_error x = 0 /\ is_node_type (l_bref x) = false /\ (br_type (l_bref x) =? HAMMER2_BREF_TYPE_INODE) && l_direct x = false)
            \/ (is_node_type (l_bref x) = true /\ key_ok (l_bref x) /\ covers (l_bref x) k ke)).
  { destruct m as [|m]; [left|right].
    - inversion Hq; subst. destruct (rk_node _ _ _ Hr) as (x0 & A & B & C & E & _). rewrite Hx in A. injection A as <-. auto.
    - destruct (Hcov ltac:(lia)) as (y & Hy & A & B & C). rewrite Hx in Hy. injection Hy as <-. auto. }
  assert (Hdir : (br_type (l_bref x) =? HAMMER2_BREF_TYPE_INODE) && l_direct x = false).
  { destruct Hstart as [(_ & _ & _ & E)|(A & _)]; [exact E|]. destruct (node_type_cases _ A) as [-> | ->]; reflexivity. }
  assert (Herr : l_error x = 0 \/ (k <= range_last (l_bref x) /\ br_key (l_bref x) <= ke)).
  { destruct Hstart as [(_ & E & _)|(_ & _ & A & B)]; [auto|]. right. lia. }
  pose proof (rk_turns _ _ _ Hr) as Hturns.
  destruct (search_correct media flags ke Hflags Hke (S d) t q x k kn lookup_maxloops (rk_fresh _ _ _ Hr) Hx Hw Hdir Herr Hk Hgapq
              ltac:(unfold lookup_maxloops; lia)) as [it res H1 H2 (R1 & (j & R2) & R3)|t1 p1 j kn1 H1 H2 H3 H4 _|t1 k1 kn1 M' H1 H2 H3 H4 _ _];
    rewrite H2.
  - exists res. split; [reflexivity|]. split; [exact R1|]. split; [|rewrite Hone, H1; exact R3].
    exists (m + j)%nat. exact (path_trans _ _ _ _ _ _ (path_loads _ _ _ _ _ _ R1 Hq) R2).
  - eexists. split; [reflexivity|]. split; [exact H3|]. split; [|rewrite Hone, H1; auto].
    exists (m + j)%nat. exact (path_trans _ _ _ _ _ _ (path_loads _ _ _ _ _ _ H3 Hq) H4).
  - destruct (loads_node media t t1 q x H3 Hx) as (x1 & Hx1 & _ & _ & Eb & _).
    rewrite (exhausted_stops M' t1 q k1 kn1 x1 Hx1); [|lia|rewrite Eb; destruct Hstart as [(_ & _ & E & _)|(_ & A & _ & B)]; auto].
    eexists. split; [reflexivity|]. split; [exact H3|]. split; [|rewrite Hone, H1; auto].
    exists m. exact (path_loads _ _ _ _ _ _ H3 Hq).
Qed.


(** * Iteration *)

Definition hits (k : Z) (its : list item) : list item := filter (fun it => hit k ke it = true) its.

Lemma hits_shown k its : hits k (shown its) = hits k its.
Proof.
  unfold hits, shown. induction its as [|it its IH]; [reflexivity|]. rewrite filter_cons. destruct it as [b|b e|b]; cbn [is_enter];
    [rewrite decide_True by reflexivity|rewrite decide_True by reflexivity|rewrite decide_False by discriminate];
    rewrite !filter_cons, ?IH; reflexivity.
Qed.

(** Behind the first hit come the others. *)
Lemma hits_next k its it rest : StronglySorted item_before (shown its) -> (forall it', it' ∈ its -> key_ok (item_bref it')) ->
  hits k its = it :: rest -> hits (range_last (item_bref it) + 1) its = rest.
Proof.
  rewrite <- (hits_shown k its), <- (hits_shown _ its). intros Hs Hk.
  assert (Hk' : forall it', it' ∈ shown its -> key_ok (item_bref it')) by (intros it' [_ H]%list_elem_of_filter; exact (Hk it' H)).
  clear Hk. induction (shown its) as [|a l IH]; [discriminate|].
  apply StronglySorted_inv in Hs as [Hs Hf]. rewrite Forall_forall in Hf. unfold hits in *. rewrite !filter_cons.
  assert (Hka : key_ok (item_bref a)) by (apply Hk'; left). pose proof (key_last_range _ Hka) as [_ Hra].
  destruct (decide (hit k ke a = true)) as [Ha|Ha].
  - intros [= <- <-]. rewrite decide_False.
    + apply filter_ext_in. intros y Hy. specialize (Hf y Hy). unfold item_before, before in Hf.
      assert (Hky : key_ok (item_bref y)) by (apply Hk'; right; exact Hy). pose proof (key_last_range _ Hky) as [_ Hry].
      assert (Hak : k <= range_last (item_bref a)) by (destruct a; cbn in Ha |- *; [lia|lia|discriminate]).
      unfold hit. destruct y; cbn [item_bref] in *; try reflexivity; rewrite !andb_true_iff, !Z.leb_le; intuition lia.
    + unfold hit. destruct a; cbn [item_bref]; try discriminate; rewrite andb_true_iff, !Z.leb_le; lia.
  - intros H. assert (Hin : it ∈ l).
    { assert (Hin : it ∈ filter (fun it => hit k ke it = true) l) by (rewrite H; left). apply list_elem_of_filter in Hin. tauto. }
    rewrite decide_False.
    + apply IH; [exact Hs| |exact H]. intros it' Hit'. apply Hk'. right. exact Hit'.
    + specialize (Hf it Hin). unfold item_before, before in Hf. assert (Hki : key_ok (item_bref it)) by (apply Hk'; right; exact Hin).
      pose proof (key_last_range _ Hki). unfold hit. destruct a; cbn [item_bref] in *; try discriminate; rewrite andb_true_iff, !Z.leb_le; lia.
Qed.

Lemma sorted_filter (R : item -> item -> Prop) (P : item -> Prop) `{forall x, Decision (P x)} l :
  StronglySorted R l -> StronglySorted R (filter P l).
Proof.
  induction 1 as [|x l Hs IH Hf]; [constructor|]. rewrite filter_cons. destruct (decide (P x)); [|exact IH].
  constructor; [exact IH|]. rewrite Forall_forall in *. intros y [_ Hy]%list_elem_of_filter. exact (Hf y Hy).
Qed.

(** When the first hit ends behind the range, no other begins in it. *)
Lemma hit_after k its it rest : StronglySorted item_before (shown its) -> hits k its = it :: rest ->
  forall it', it' ∈ rest -> range_last (item_bref it) < br_key (item_bref it') <= ke.
Proof.
  rewrite <- (hits_shown k its). intros Hs E it' Hin. assert (H : StronglySorted item_before (hits k (shown its))).
  { unfold hits. apply sorted_filter. exact Hs. }
  assert (Hh : it' ∈ hits k (shown its)) by (rewrite E; right; exact Hin). apply list_elem_of_filter in Hh as [Hh _].
  rewrite E in H. apply StronglySorted_inv in H as [_ Hf]. rewrite Forall_forall in Hf. specialize (Hf it' Hin).
  unfold item_before, before in Hf. destruct it'; cbn in Hh, Hf |- *; try discriminate; lia.
Qed.

(** The loop of the callers: look up, use the chain, go on with the next. *)
Fixpoint iterate (fuel : nat) (res : result) : outcome (list blockref * Z) :=
  match r_chain res with
  | None => Done ([], r_error res)
  | Some c =>
      match fuel with
      | O => Panic
      | S fuel =>
          let! y := node (r_topo res) c in
          let! res := hammer2_chain_next media (r_topo res) (r_parent res) (Some c) (r_key_next res) ke flags in
          let! (l, error) := iterate fuel res in
          Done (l_bref y :: l, error)
      end
  end.

(** The leaves up to the first block that cannot be read. *)
Fixpoint collect (its : list item) : list blockref * Z :=
  match its with
  | [] => ([], 0)
  | Leaf b :: its => let '(l, e) := collect its in (b :: l, e)
  | Bad _ e :: _ => ([], e)
  | Enter _ :: its => collect its
  end.

Lemma head_hits k its : first_hit_item k ke its = head (hits k its).
Proof. reflexivity. Qed.

Lemma next_ok D t r n q c y kn : root_ok D t r -> path t r n q -> t_nodes t !! c = Some y -> is_node_type (l_bref y) = false ->
  l_parent y = Some q -> key_ok (l_bref y) ->
  (range_last (l_bref y) + 1 <= ke -> no_gap ke (range_last (l_bref y) + 1) (walk D t r)) ->
  exists res, hammer2_chain_next media t q (Some c) kn ke flags = Done res
    /\ (if ke <? range_last (l_bref y) + 1 then r_chain res = None /\ r_error res = 0 /\ r_topo res = t
        else looked_up t r (range_last (l_bref y) + 1) ke (walk D t r) res).
Proof.
  intros Hr Hq Hc Hty Hp Hk Hgap. unfold hammer2_chain_next, node. rewrite Hc. cbn [obind].
  rewrite bool_decide_eq_false_2.
  2: { intros ->. destruct Hq as [|m p x j z _ _ _ _ Hz Htz].
       - destruct (rk_node _ _ _ Hr) as (x & Hx & _ & _ & _ & Hne). rewrite Hc in Hx. injection Hx as <-. exact (Hne Hp).
       - congruence. }
  pose proof (key_last_range _ Hk) as [_ Hrl]. rewrite key_after_range by exact Hk.
  destruct (Z.eqb_spec (range_last (l_bref y)) (2 ^ 64 - 1)) as [E|E].
  - cbn [Z.eqb orb]. replace (ke <? range_last (l_bref y) + 1) with true by lia. eexists. split; [reflexivity|]. auto.
  - destruct Hk as [_ [Hk0 _]]. replace (range_last (l_bref y) + 1 =? 0) with false by lia. cbn [orb].
    destruct (Z.ltb_spec ke (range_last (l_bref y) + 1)) as [Hlt|Hge]; [eexists; split; [reflexivity|]; auto|].
    apply (lookup_ok D t r n q _ kn Hr Hq); [lia|exact (Hgap Hge)].
Qed.

(** The state of such a loop: [res] is what the last search returned and [l] are the
    hits that are left, the one it reports first. *)
Definition scanning (D : nat) (t : topo) (r : nat) (l : list item) (res : result) : Prop :=
  loads t (r_topo res) /\
  (l = [] /\ r_chain res = None /\ r_error res = 0 \/
   exists k, 0 <= k <= ke /\ no_gap ke k (walk D t r) /\ l = hits k (walk D t r) /\ looked_up t r k ke (walk D t r) res).

Lemma scanning_start D t r k res : 0 <= k <= ke -> no_gap ke k (walk D t r) ->
  looked_up t r k ke (walk D t r) res -> scanning D t r (hits k (walk D t r)) res.
Proof. intros Hk Hg H. split; [apply H|]. right. eauto. Qed.

Lemma scanning_nil D t r res : scanning D t r [] res -> r_chain res = None /\ r_error res = 0.
Proof.
  intros (_ & [(_ & H)|(k & _ & _ & E & _ & _ & H)]); [exact H|]. rewrite head_hits, <- E in H. exact H.
Qed.

Lemma scanning_bad D t r b e l res : scanning D t r (Bad b e :: l) res -> r_chain res = None /\ r_error res = e.
Proof.
  intros (_ & [(E & _)|(k & _ & _ & E & _ & _ & H)]); [discriminate E|]. rewrite head_hits, <- E in H. exact H.
Qed.

Lemma scanning_enter D t r b l res : scanning D t r (Enter b :: l) res -> False.
Proof.
  intros (_ & [(E & _)|(k & _ & _ & E & _ & _ & H)]); [discriminate E|]. rewrite head_hits, <- E in H. exact H.
Qed.

(** A leaf is the chain that was returned; the next search goes on with the others. *)
Lemma scanning_leaf D t r b l res : root_ok D t r -> scanning D t r (Leaf b :: l) res ->
  exists c y res', r_chain res = Some c /\ r_error res = 0 /\ t_nodes (r_topo res) !! c = Some y /\ l_bref y = b
    /\ hammer2_chain_next media (r_topo res) (r_parent res) (Some c) (r_key_next res) ke flags = Done res'
    /\ loads (r_topo res) (r_topo res') /\ scanning D t r l res'.
Proof.
  intros Hr (_ & [(E & _)|(k & Hk & Hgap & E & Hld & (n & Hpath) & Hres)]); [discriminate E|].
  rewrite head_hits, <- E in Hres. cbn [head] in Hres. symmetry in E.
  destruct Hres as (c & y & Hc & He & Hy & Eb & Hty & Hp & _).
  pose proof (root_loads D t (r_topo res) r Hr Hld) as Hr'. destruct (rk_node _ _ _ Hr) as (x & Hx & Hex & _).
  pose proof (ld_walk _ _ _ Hld D r x Hx) as Hwalk.
  assert (Hh : Leaf b ∈ hits k (walk D t r)) by (rewrite E; left). apply list_elem_of_filter in Hh as [Hhit Hin]. cbn in Hhit.
  assert (Hkb : key_ok b) by exact (walk_key_ok D t r x (rk_wf _ _ _ Hr) Hx (or_introl Hex) _ Hin).
  pose proof (hits_next k _ _ _ (walk_sorted D t r (rk_wf _ _ _ Hr)) (walk_key_ok D t r x (rk_wf _ _ _ Hr) Hx (or_introl Hex)) E) as Hnext.
  cbn [item_bref] in Hnext.
  destruct (next_ok D (r_topo res) r n (r_parent res) c y (r_key_next res) Hr' Hpath Hy) as (res' & En & Hres');
    rewrite ?Eb; try assumption.
  { intros Hle. rewrite Hwalk. destruct Hgap as [->|Hg]; [lia|right; exact Hg]. }
  exists c, y, res'. do 4 (split; [assumption|]). split; [exact En|]. rewrite Eb in *.
  destruct (Z.ltb_spec ke (range_last b + 1)) as [Hlt|Hge].
  - destruct Hres' as (Hc' & He' & Ht'). rewrite Ht'. split; [apply loads_refl|]. split; [rewrite Ht'; exact Hld|]. left.
    split; [|auto]. destruct l as [|it' l]; [reflexivity|]. exfalso.
    pose proof (hit_after k _ _ _ (walk_sorted D t r (rk_wf _ _ _ Hr)) E it' ltac:(left)) as H. cbn in H. lia.
  - rewrite Hwalk in Hres'. pose proof (proj1 Hres') as Hld'. pose proof (loads_trans _ _ _ _ Hld Hld') as Hld2.
    split; [exact Hld'|]. split; [exact Hld2|]. right. exists (range_last b + 1).
    split; [destruct Hkb as [_ [Hk0 _]]; pose proof (key_last_range b (walk_key_ok D t r x (rk_wf _ _ _ Hr) Hx (or_introl Hex) _ Hin)); lia|].
    split; [destruct Hgap as [->|Hg]; [lia|right; exact Hg]|]. split; [symmetry; exact Hnext|].
    split; [exact Hld2|exact (proj2 Hres')].
Qed.

Lemma iterate_ok D t r fuel : root_ok D t r -> forall l res, scanning D t r l res -> (length l <= fuel)%nat -> iterate fuel res = Done (collect l).
Proof.
  intros Hr. induction fuel as [|fuel IH]; intros l res H Hf.
  - destruct l as [|it l]; [|cbn in Hf; lia]. destruct (scanning_nil _ _ _ _ H) as [Hc He]. cbn. rewrite Hc, He. reflexivity.
  - destruct l as [|[b|b e|b] l].
    + destruct (scanning_nil _ _ _ _ H) as [Hc He]. cbn. rewrite Hc, He. reflexivity.
    + destruct (scanning_leaf _ _ _ _ _ _ Hr H) as (c & y & res' & Hc & _ & Hy & Eb & En & _ & H'). cbn [iterate collect]. rewrite Hc. unfold node.
      rewrite Hy. cbn [obind]. rewrite En. cbn [obind]. rewrite (IH l res' H') by (cbn in Hf; lia). cbn [obind]. rewrite Eb.
      destruct (collect l); reflexivity.
    + destruct (scanning_bad _ _ _ _ _ _ _ H) as [Hc He]. cbn. rewrite Hc, He. reflexivity.
    + destruct (scanning_enter _ _ _ _ _ _ H).
Qed.
End flags.
End top.
