(* ===== verification/LookupTheorems.v ===== *)
(** The properties of [hammer2_chain_lookup] and [hammer2_chain_next], on the lemmas
    of LookupTop, with a topology on which they are run. *)

From Stdlib Require Import ZArith Lia Bool Sorted.
From stdpp Require Import base numbers list option gmap fin_maps sorting.
From S2P Require Import Prelude Disk BlockTable BlockTableProof BlockTableSpec ChainFind ChainFindProof Lookup LookupSpec LookupProof LookupTop.

(** * A small topology *)

(** An inode whose table names the indirect block [ex_j] for the keys 0 to 255 and
    the leaf [ex_leaf 256]; under [ex_j] the leaf 100 and the indirect block [ex_g]
    for the keys 128 to 255, whose table is empty.  Only the inode is in memory. *)
Definition ex_bref (type keybits key data_off : Z) : blockref := Bref type 0 keybits 0 key 0 0 data_off 0 0 0 [].
Definition ex_leaf (key : Z) : blockref := ex_bref HAMMER2_BREF_TYPE_DATA 0 key 10.
Definition ex_j : blockref := ex_bref HAMMER2_BREF_TYPE_INDIRECT 8 0 10.
Definition ex_g : blockref := ex_bref HAMMER2_BREF_TYPE_INDIRECT 7 128 10.
Definition ex_none : blockref := ex_bref HAMMER2_BREF_TYPE_EMPTY 0 0 0.
Definition ex_media (b : blockref) : loaded :=
  if br_key b =? 0 then Loaded 0 false (ex_leaf 100 :: ex_g :: replicate 6 ex_none)
  else if br_key b =? 128 then Loaded 0 false (replicate 8 ex_none)
  else Loaded 0 false [].
Definition ex_inode : lnode :=
  LNode (Chain (ex_bref HAMMER2_BREF_TYPE_INODE 0 1 10) false true false false) None false false 1024 0
    (Core 0 0 0 false (ex_bref HAMMER2_BREF_TYPE_INODE 0 1 10)) (Some [ex_j; ex_leaf 256; ex_none; ex_none]) [].
Definition ex_topo : topo := Topo {[ 0%nat := ex_inode ]} 1.

(** Decides [entries_ok]. *)
Definition key_okb (b : blockref) : bool :=
  (0 <=? br_keybits b) && (br_keybits b <=? 63) && (0 <=? br_key b) && (br_key b + 2 ^ br_keybits b <=? 2 ^ 64).
Fixpoint entries_okb (l : list blockref) : bool :=
  match l with
  | [] => true
  | b :: l => key_okb b && forallb (fun b' => range_last b <? br_key b') l && entries_okb l
  end.

Lemma entries_okb_ok l : entries_okb l = true -> entries_ok l.
Proof.
  induction l as [|b l IH]; cbn; [constructor; constructor|]. rewrite !andb_true_iff, forallb_forall. intros [[Hk Hf] Hl].
  destruct (IH Hl) as [K S]. constructor; constructor; try assumption.
  - unfold key_okb in Hk. constructor; lia.
  - apply Forall_forall. intros b' Hb'. apply list_elem_of_In, Hf in Hb'. unfold before. lia.
Qed.

Lemma ex_table n : entries_okb (live n) = true -> table_wf (alen n) n.
Proof. intros H. constructor; [reflexivity|]. exact (entries_okb_ok _ H). Qed.

Lemma ex_entries : entries ex_topo ex_inode = [ex_j; ex_leaf 256].
Proof. vm_compute. reflexivity. Qed.

Lemma ex_mwf : mwf ex_media 3 ex_j.
Proof.
  intros _. split; [exact (ex_table (ld_table (ex_media ex_j)) eq_refl)|]. change (live (ld_table (ex_media ex_j))) with [ex_leaf 100; ex_g].
  intros b [->|[->|[]%not_elem_of_nil]%elem_of_cons]%elem_of_cons; (split; [vm_compute; intuition congruence|]); [discriminate|].
  intros _ _. split; [exact (ex_table (ld_table (ex_media ex_g)) eq_refl)|]. intros b []%not_elem_of_nil.
Qed.

Lemma ex_wf : wf ex_media 4 ex_topo 0.
Proof.
  exists ex_inode. split; [reflexivity|]. intros _. rewrite ex_entries. split.
  - constructor.
    + intros j []%not_elem_of_nil.
    + constructor; constructor.
    + eexists _, _. split; [reflexivity|]. split; [|discriminate]. exact (ex_table [ex_j; ex_leaf 256; ex_none; ex_none] eq_refl).
    + intros b c _ []%not_elem_of_nil.
    + discriminate.
  - intros b [->|[->|[]%not_elem_of_nil]%elem_of_cons]%elem_of_cons; [|discriminate]. intros _. exact ex_mwf.
Qed.

Lemma ex_root : root_ok ex_media 4 ex_topo 0.
Proof.
  constructor; [|exact ex_wf|exists ex_inode; repeat split; discriminate|vm_compute; reflexivity].
  intros i Hi. cbn in Hi. split.
  - cbn. rewrite lookup_singleton_ne by lia. reflexivity.
  - intros p x Hx. cbn in Hx. apply lookup_singleton_Some in Hx as [_ <-]. apply not_elem_of_nil.
Qed.

(** * The lookup *)

(** C17. From any node of the tree under an inode, hammer2_chain_lookup returns (it
    neither asserts nor runs into its loop limit) and reports the first item of the
    tree that meets [key_beg, key_end]: the chain of that leaf, in memory, locked
    under the returned parent; or NULL with the error of the block that could not be
    read; or NULL without error when there is no item.  On the way it only loads
    blocks.  Supposed: no chain is DELETED and the tree is small enough for the loop
    limit ([root_ok]), MATCHIND is not set, and ([no_gap]) the range is a single key or
    does not end one past an indirect block; for such a range the last key is missed
    ([lookup_misses_key_end]). *)
Theorem chain_lookup_first media D t r n p kn k ke flags :
  root_ok media D t r -> path t r n p -> 0 <= k <= ke -> ke < 2 ^ 64 -> tst flags HAMMER2_LOOKUP_MATCHIND = false ->
  no_gap ke k (walk media D t r) ->
  exists res, hammer2_chain_lookup media t p kn k ke flags = Done res
    /\ loads media t (r_topo res) /\ (exists m, path (r_topo res) r m (r_parent res))
    /\ match first_hit_item k ke (walk media D t r) with
       | None => r_chain res = None /\ r_error res = 0
       | Some (Leaf b) => exists c y, r_chain res = Some c /\ r_error res = 0 /\ t_nodes (r_topo res) !! c = Some y
           /\ l_bref y = b /\ l_parent y = Some (r_parent res) /\ ch_deleted (l_chain y) = false
       | Some (Bad _ e) => r_chain res = None /\ r_error res = e
       | Some (Enter _) => False
       end.
Proof.
  intros Hr Hp Hk Hke Hf Hg. destruct (lookup_ok media flags ke Hf Hke D t r n p k kn Hr Hp Hk Hg) as (res & E & Hld & Hq & H).
  exists res. split; [exact E|]. split; [exact Hld|]. split; [exact Hq|].
  destruct (first_hit_item k ke (walk media D t r)) as [[b|b e|b]|]; try exact H.
  destruct H as (c & y & A & B & C & F & _ & G & I). eauto 10.
Qed.

(** The leaf 100 in the indirect block. *)
Lemma chain_lookup_first_witness :
  exists res, hammer2_chain_lookup ex_media ex_topo 0 0 50 300 0 = Done res /\ r_chain res <> None /\ r_error res = 0.
Proof.
  destruct (chain_lookup_first ex_media 4 ex_topo 0 0 0 0 50 300 0 ex_root (path_refl _ _)) as (res & E & _ & _ & H); try lia.
  - reflexivity.
  - right. intros b Hb. vm_compute in Hb. repeat (apply elem_of_cons in Hb as [Hb|Hb]; [first [discriminate Hb|injection Hb as ->; vm_compute; discriminate]|]).
    apply not_elem_of_nil in Hb as [].
  - exists res. split; [exact E|]. change (first_hit_item 50 300 (walk ex_media 4 ex_topo 0)) with (Some (Leaf (ex_leaf 100))) in H. cbv iota in H.
    destruct H as (c & y & A & B & _). rewrite A. split; [discriminate|exact B].
Defined.

(** C18. The callers' loop - look up, use the chain, hammer2_chain_next with the
    parent and chain - visits exactly the leaves of the tree that meet the range, in
    key order and each once, up to the first block that cannot be read, and then ends
    with that block's error.  Supposed as in C17: no chain is DELETED, the tree is small
    enough for the loop limit, MATCHIND is not set, and the range is a single key or does
    not end one past an indirect block ([lookup_misses_key_end] shows the key that is
    missed otherwise). *)
Theorem chain_iterate_all media D t r n p kn k ke flags fuel :
  root_ok media D t r -> path t r n p -> 0 <= k <= ke -> ke < 2 ^ 64 -> tst flags HAMMER2_LOOKUP_MATCHIND = false ->
  no_gap ke k (walk media D t r) -> (length (hits ke k (walk media D t r)) <= fuel)%nat ->
  exists res, hammer2_chain_lookup media t p kn k ke flags = Done res
    /\ iterate media flags ke fuel res = Done (collect (hits ke k (walk media D t r))).
Proof.
  intros Hr Hp Hk Hke Hf Hg Hfuel. destruct (lookup_ok media flags ke Hf Hke D t r n p k kn Hr Hp Hk Hg) as (res & E & H).
  exists res. split; [exact E|]. apply (iterate_ok media flags ke Hf Hke D t r fuel Hr); [|exact Hfuel].
  apply scanning_start; assumption.
Qed.

Lemma chain_iterate_all_witness :
  exists res, hammer2_chain_lookup ex_media ex_topo 0 0 50 300 0 = Done res
    /\ iterate ex_media 0 300 5 res = Done ([ex_leaf 100; ex_leaf 256], 0).
Proof.
  apply (chain_iterate_all ex_media 4 ex_topo 0 0 0 0 50 300 0 5 ex_root (path_refl _ _)); try lia.
  - reflexivity.
  - right. intros b Hb. vm_compute in Hb. repeat (apply elem_of_cons in Hb as [Hb|Hb]; [first [discriminate Hb|injection Hb as ->; vm_compute; discriminate]|]).
    apply not_elem_of_nil in Hb as [].
  - vm_compute. lia.
Defined.

(** The boundary that the two properties above leave out: when the range ends at
    the key behind a nested indirect block, the lookup leaves that block with
    key_beg raised to key_end, the short cut for single keys then applies to a search
    of two levels, and a leaf at key_end is not found. *)
Theorem lookup_misses_key_end :
  root_ok ex_media 4 ex_topo 0 /\ Leaf (ex_leaf 256) ∈ walk ex_media 4 ex_topo 0
  /\ first_hit_item 101 256 (walk ex_media 4 ex_topo 0) = Some (Leaf (ex_leaf 256))
  /\ exists res, hammer2_chain_lookup ex_media ex_topo 0 0 101 256 0 = Done res /\ r_chain res = None /\ r_error res = 0.
Proof.
  split; [exact ex_root|]. split; [vm_compute; do 3 right; left|]. split; [reflexivity|].
  destruct (hammer2_chain_lookup ex_media ex_topo 0 0 101 256 0) as [res|] eqn:E; [|vm_compute in E; discriminate E].
  exists res. split; [reflexivity|]. vm_compute in E. injection E as <-. auto.
Qed.
