(* ===== verification/Topology.v ===== *)
(** The topology in memory as modifying operations see it (hammer2_chain.c):
    nodes with the flags that record what is dirty, the device behind them, and
    [hammer2_chain_modify], which moves a block before it is changed.

    The model is sequential: an operation runs while the nodes it uses are locked.
    The data of a node, once loaded, stays loaded; locks, reference counts and the
    release of data are in ChainLife.  The buffer cache is the flat store that
    IoSpec proves it to be, with typed blocks for the structures the code accesses
    through pointers. *)

From Stdlib Require Import ZArith Lia Bool.
From stdpp Require Import base numbers list option gmap.
From S2P Require Import Prelude Disk Subr Freemap Check BlockTable ChainFind ChainCore Io.

Abbreviation HAMMER2_MODIFY_OPTDATA := 2 (only parsing).
Abbreviation HAMMER2_DELETE_PERMANENT := 1 (only parsing).
Abbreviation HAMMER2_OPFLAG_DIRECTDATA := 1 (only parsing).
Abbreviation HAMMER2_OPFLAG_PFSROOT := 2 (only parsing).
Abbreviation HAMMER2_BREF_FLAG_PFSROOT := 1 (only parsing).
Abbreviation HAMMER2_BREF_FLAG_EMERG_MIP := 4 (only parsing).

(** * Blocks *)

(** A block on the device: bytes, and behind them blockrefs.  An inode has 512
    bytes before its blockset, an indirect block has none, other blocks have no
    blockrefs. *)
Record block := Block { blk_raw : list Z; blk_table : list blockref }.
#[export] Instance block_inhabited : Inhabited block := populate (Block [] []).
#[export] Instance block_eq_dec : EqDecision block.
Proof. solve_decision. Defined.

(** The 128 bytes of a blockref; fields that are not modelled are zero. *)
Definition encode_bref (b : blockref) : list Z :=
  [u8 (br_type b); u8 (br_methods b); 0; u8 (br_keybits b); 0; u8 (br_flags b)]
  ++ le_bytes 2 (br_leaf_count b) ++ le_bytes 8 (br_key b) ++ le_bytes 8 (br_mirror_tid b)
  ++ le_bytes 8 (br_modify_tid b) ++ le_bytes 8 (br_data_off b) ++ le_bytes 8 0
  ++ le_bytes 8 (br_data_count b) ++ le_bytes 8 (br_inode_count b) ++ br_check b.
Definition encode_block (k : block) : list Z := blk_raw k ++ flat_map encode_bref (blk_table k).

(** What [hammer2_io_new] leaves. *)
Definition zero_block (type bytes : Z) : block :=
  match type with
  | HAMMER2_BREF_TYPE_INODE => Block (replicate 512 0) (replicate 4 bref_zero)
  | HAMMER2_BREF_TYPE_INDIRECT | HAMMER2_BREF_TYPE_FREEMAP_NODE =>
      Block [] (replicate (Z.to_nat (bytes / HAMMER2_BLOCKREF_BYTES)) bref_zero)
  | _ => Block (replicate (Z.to_nat bytes) 0) []
  end.

(** ipdata.meta.op_flags and pfs_inum. *)
Definition op_flags (k : block) : Z := default 0 (blk_raw k !! 81%nat).      (* 0x51 *)
Definition set_pfs_inum (inum : Z) (k : block) : block :=
  Block (fwrite (blk_raw k) 136 (le_bytes 8 inum)) (blk_table k).            (* 0x88 *)

(** The byte offset of a block. *)
Definition phys (data_off : Z) : Z := data_off .&~ HAMMER2_OFF_MASK_RADIX.

Lemma phys_radix r : 0 <= r < 64 -> phys r = 0.
Proof. intros H. unfold phys. change HAMMER2_OFF_MASK_RADIX with (Z.ones 6). rewrite ldiff_ones_sub, Z.mod_small by lia. lia. Qed.

(** * Nodes *)

(** HAMMER2_CHAIN_MODIFIED ... NOTTESTED *)
Record nflags := NFlags {
  f_modified : bool;  (* contents newer than the block table entry *)
  f_update : bool;  (* the parent must take over bref *)
  f_onflush : bool;  (* a descendant is dirty *)
  f_destroy : bool;  (* on its way out *)
  f_initial : bool;  (* storage not yet written *)
  f_dedupable : bool;  (* block shared through dedup *)
  f_volumesync : bool;  (* volsync waits for its commit *)
  f_testedgood : bool;  (* check code verified *)
  f_nottested : bool  (* no check code yet *)
}.
Definition set_f_modified (v : bool) (g : nflags) : nflags := NFlags v (f_update g) (f_onflush g) (f_destroy g)
  (f_initial g) (f_dedupable g) (f_volumesync g) (f_testedgood g) (f_nottested g).
Definition set_f_update (v : bool) (g : nflags) : nflags := NFlags (f_modified g) v (f_onflush g) (f_destroy g)
  (f_initial g) (f_dedupable g) (f_volumesync g) (f_testedgood g) (f_nottested g).
Definition set_f_onflush (v : bool) (g : nflags) : nflags := NFlags (f_modified g) (f_update g) v (f_destroy g)
  (f_initial g) (f_dedupable g) (f_volumesync g) (f_testedgood g) (f_nottested g).
Definition set_f_destroy (v : bool) (g : nflags) : nflags := NFlags (f_modified g) (f_update g) (f_onflush g) v
  (f_initial g) (f_dedupable g) (f_volumesync g) (f_testedgood g) (f_nottested g).
Definition set_f_initial (v : bool) (g : nflags) : nflags := NFlags (f_modified g) (f_update g) (f_onflush g)
  (f_destroy g) v (f_dedupable g) (f_volumesync g) (f_testedgood g) (f_nottested g).
Definition set_f_dedupable (v : bool) (g : nflags) : nflags := NFlags (f_modified g) (f_update g) (f_onflush g)
  (f_destroy g) (f_initial g) v (f_volumesync g) (f_testedgood g) (f_nottested g).
Definition set_f_volumesync (v : bool) (g : nflags) : nflags := NFlags (f_modified g) (f_update g) (f_onflush g)
  (f_destroy g) (f_initial g) (f_dedupable g) v (f_testedgood g) (f_nottested g).
Definition set_f_testedgood (v : bool) (g : nflags) : nflags := NFlags (f_modified g) (f_update g) (f_onflush g)
  (f_destroy g) (f_initial g) (f_dedupable g) (f_volumesync g) v (f_nottested g).
Definition set_f_nottested (v : bool) (g : nflags) : nflags := NFlags (f_modified g) (f_update g) (f_onflush g)
  (f_destroy g) (f_initial g) (f_dedupable g) (f_volumesync g) (f_testedgood g) v.

(** HAMMER2_CHAIN_DELETED, BLKMAPPED, BLKMAPUPD, HINT_LEAF_COUNT *)
Record lflags := LFlags { l_deleted : bool; l_blkmapped : bool; l_blkmapupd : bool; l_hint : bool }.

(** The part of chain->pmp that is used: [mp], [inode_tid], and [pfs_lsnap_tid] of
    its root inode. *)
Record pfs := Pfs { pm_mounted : bool; pm_inode_tid : Z; pm_lsnap_tid : Z }.

Record fnode := FNode {
  n_core : core;              (* bref, and the search fields of the block table *)
  n_link : lflags;
  n_flags : nflags;
  n_parent : option nat;
  n_tree : list nat;          (* core.rbtree, in key order *)
  n_bytes : Z;
  n_error : Z;
  n_data : option Z;          (* the block that data points into, a device offset *)
  n_pfsboundary : bool;       (* HAMMER2_CHAIN_PFSBOUNDARY *)
  n_pmp : option pfs
}.
Definition set_n_core (v : core) (x : fnode) : fnode := FNode v (n_link x) (n_flags x) (n_parent x) (n_tree x)
  (n_bytes x) (n_error x) (n_data x) (n_pfsboundary x) (n_pmp x).
Definition set_n_link (v : lflags) (x : fnode) : fnode := FNode (n_core x) v (n_flags x) (n_parent x) (n_tree x)
  (n_bytes x) (n_error x) (n_data x) (n_pfsboundary x) (n_pmp x).
Definition set_n_flags (v : nflags) (x : fnode) : fnode := FNode (n_core x) (n_link x) v (n_parent x) (n_tree x)
  (n_bytes x) (n_error x) (n_data x) (n_pfsboundary x) (n_pmp x).
Definition set_n_parent (v : option nat) (x : fnode) : fnode := FNode (n_core x) (n_link x) (n_flags x) v (n_tree x)
  (n_bytes x) (n_error x) (n_data x) (n_pfsboundary x) (n_pmp x).
Definition set_n_tree (v : list nat) (x : fnode) : fnode := FNode (n_core x) (n_link x) (n_flags x) (n_parent x) v
  (n_bytes x) (n_error x) (n_data x) (n_pfsboundary x) (n_pmp x).
Definition set_n_bytes (v : Z) (x : fnode) : fnode := FNode (n_core x) (n_link x) (n_flags x) (n_parent x) (n_tree x)
  v (n_error x) (n_data x) (n_pfsboundary x) (n_pmp x).
Definition set_n_error (v : Z) (x : fnode) : fnode := FNode (n_core x) (n_link x) (n_flags x) (n_parent x) (n_tree x)
  (n_bytes x) v (n_data x) (n_pfsboundary x) (n_pmp x).
Definition set_n_data (v : option Z) (x : fnode) : fnode := FNode (n_core x) (n_link x) (n_flags x) (n_parent x)
  (n_tree x) (n_bytes x) (n_error x) v (n_pfsboundary x) (n_pmp x).
Definition is_modified (x : fnode) : bool := f_modified (n_flags x).
Definition is_update (x : fnode) : bool := f_update (n_flags x).
Definition is_onflush (x : fnode) : bool := f_onflush (n_flags x).
Definition is_destroy (x : fnode) : bool := f_destroy (n_flags x).
Definition is_initial (x : fnode) : bool := f_initial (n_flags x).
Definition is_dedupable (x : fnode) : bool := f_dedupable (n_flags x).
Definition is_volumesync (x : fnode) : bool := f_volumesync (n_flags x).
Definition is_testedgood (x : fnode) : bool := f_testedgood (n_flags x).
Definition is_nottested (x : fnode) : bool := f_nottested (n_flags x).
Definition set_modified (v : bool) (x : fnode) : fnode := set_n_flags (set_f_modified v (n_flags x)) x.
Definition set_update (v : bool) (x : fnode) : fnode := set_n_flags (set_f_update v (n_flags x)) x.
Definition set_onflush (v : bool) (x : fnode) : fnode := set_n_flags (set_f_onflush v (n_flags x)) x.
Definition set_destroy (v : bool) (x : fnode) : fnode := set_n_flags (set_f_destroy v (n_flags x)) x.
Definition set_initial (v : bool) (x : fnode) : fnode := set_n_flags (set_f_initial v (n_flags x)) x.
Definition set_dedupable (v : bool) (x : fnode) : fnode := set_n_flags (set_f_dedupable v (n_flags x)) x.
Definition set_volumesync (v : bool) (x : fnode) : fnode := set_n_flags (set_f_volumesync v (n_flags x)) x.
Definition set_testedgood (v : bool) (x : fnode) : fnode := set_n_flags (set_f_testedgood v (n_flags x)) x.
Definition set_nottested (v : bool) (x : fnode) : fnode := set_n_flags (set_f_nottested v (n_flags x)) x.

Definition n_bref (x : fnode) : blockref := co_bref (n_core x).
Definition set_n_bref (b : blockref) (x : fnode) : fnode := set_n_core (set_co_bref b (n_core x)) x.
Definition n_type (x : fnode) : Z := br_type (n_bref x).
Definition n_phys (x : fnode) : Z := phys (br_data_off (n_bref x)).
(** The node as the block table routines see it, and what they change of it. *)
Definition chain_of (x : fnode) : mchain :=
  Chain (n_bref x) (l_deleted (n_link x)) (l_blkmapped (n_link x)) (l_blkmapupd (n_link x)) (l_hint (n_link x)).
Definition set_chain (c : mchain) (x : fnode) : fnode :=
  set_n_link (LFlags (ch_deleted c) (ch_blkmapped c) (ch_blkmapupd c) (ch_hint_leaf c)) x.
(** vchain and fchain: their data is part of the volume header. *)
Definition is_root (x : fnode) : bool :=
  (n_type x =? HAMMER2_BREF_TYPE_VOLUME) || (n_type x =? HAMMER2_BREF_TYPE_FREEMAP).
Definition is_indirect (x : fnode) : bool :=
  (n_type x =? HAMMER2_BREF_TYPE_INDIRECT) || (n_type x =? HAMMER2_BREF_TYPE_FREEMAP_NODE).

(** * The device *)

(** The freemap as the chain layer uses it.  [hammer2_freemap_alloc] places a block of
    the freemap itself in the reserved segment of its zone ([chain_freemap_alloc] below,
    with [hammer2_freemap_reserve] of Freemap); every other block comes from the search of
    the freemap, [ba_alloc], which gives an error or a data offset.  [ba_recover] is
    [hammer2_freemap_adjust], with which dedup recovers a block; [read_error] is what the
    device cannot read.  FreemapStorage makes an instance of the allocator of Freemap. *)
Class Storage := {
  ba_state : Type;
  ba_alloc : ba_state -> blockref -> Z -> Z * Z * ba_state;
  ba_recover : ba_state -> blockref -> ba_state;
  ba_in_use : ba_state -> Z -> Prop;
  read_error : Z -> bool
}.

(** Blocks of the freemap. *)
Definition freemap_bref (b : blockref) : bool :=
  (br_type b =? HAMMER2_BREF_TYPE_FREEMAP_NODE) || (br_type b =? HAMMER2_BREF_TYPE_FREEMAP_LEAF).

(** A block that is allocated was not in use, and the allocator hands out no other
    in its place. *)
Class StorageLaws (S : Storage) := {
  ba_alloc_fresh : forall a b n off a', ba_alloc a b n = (0, off, a') -> n <> 0 -> freemap_bref b = false ->
    ~ ba_in_use a (phys off) /\ ba_in_use a' (phys off) /\ phys off <> 0
    /\ forall o, ba_in_use a o -> ba_in_use a' o;
  ba_alloc_fail : forall a b n e off a', ba_alloc a b n = (e, off, a') -> e <> 0 ->
    forall o, ba_in_use a o -> ba_in_use a' o;
  ba_recover_keeps : forall a b o, ba_in_use a o -> ba_in_use (ba_recover a b) o
}.

(** [hammer2_freemap_alloc]: (error, data_off, freemap). *)
Definition chain_freemap_alloc {ST : Storage} (a : ba_state) (b : blockref) (bytes : Z) : outcome (Z * Z * ba_state) :=
  if bytes =? 0 then Done (0, 0, a)
  else if freemap_bref b then
    let! radix := hammer2_getradix bytes in
    assert! u64 (1 .<< radix) =? bytes;
    let! b := hammer2_freemap_reserve b radix in
    Done (0, br_data_off b, a)
  else Done (ba_alloc a b bytes).

(** The first 4MB of a 1GB zone, with the volume headers and the blocks of the freemap. *)
Definition in_reserve (o : Z) : Prop := o mod HAMMER2_FREEMAP_LEVEL1_SIZE < HAMMER2_ZONE_SEG.

(** The fields of the volume header that the topology uses. *)
Record voldata := Voldata {
  vd_mirror : Z;                  (* mirror_tid *)
  vd_freemap_tid : Z;
  vd_sroot : list blockref;       (* sroot_blockset *)
  vd_fmap : list blockref         (* freemap_blockset *)
}.
Definition set_vd_mirror (v : Z) (d : voldata) : voldata := Voldata v (vd_freemap_tid d) (vd_sroot d) (vd_fmap d).
Definition set_vd_freemap_tid (v : Z) (d : voldata) : voldata := Voldata (vd_mirror d) v (vd_sroot d) (vd_fmap d).
Definition set_vd_sroot (v : list blockref) (d : voldata) : voldata := Voldata (vd_mirror d) (vd_freemap_tid d) v
  (vd_fmap d).
Definition set_vd_fmap (v : list blockref) (d : voldata) : voldata := Voldata (vd_mirror d) (vd_freemap_tid d)
  (vd_sroot d) v.

Section topology.
Context {ST : Storage}.

Record fstate := FState {
  s_nodes : gmap nat fnode;
  s_next : nat;                   (* the allocator of chains *)
  s_dev : gmap Z block;           (* the device with the buffer cache in front *)
  s_log : list (Z * block);       (* for the proofs: the writes to s_dev, the last one first *)
  s_alloc : ba_state;
  s_voldata : voldata;
  s_volsync : option voldata;
  s_header : voldata;             (* the volume header on the device *)
  s_emerg : bool;                 (* HMNT2_EMERG *)
  s_vchain : nat;
  s_fchain : nat
}.
Definition set_s_nodes (v : gmap nat fnode) (s : fstate) : fstate := FState v (s_next s) (s_dev s) (s_log s) (s_alloc
  s) (s_voldata s) (s_volsync s) (s_header s) (s_emerg s) (s_vchain s) (s_fchain s).
Definition set_s_next (v : nat) (s : fstate) : fstate := FState (s_nodes s) v (s_dev s) (s_log s) (s_alloc s)
  (s_voldata s) (s_volsync s) (s_header s) (s_emerg s) (s_vchain s) (s_fchain s).
Definition set_s_dev (v : gmap Z block) (s : fstate) : fstate := FState (s_nodes s) (s_next s) v (s_log s) (s_alloc s)
  (s_voldata s) (s_volsync s) (s_header s) (s_emerg s) (s_vchain s) (s_fchain s).
Definition set_s_log (v : list (Z * block)) (s : fstate) : fstate := FState (s_nodes s) (s_next s) (s_dev s) v (s_alloc s)
  (s_voldata s) (s_volsync s) (s_header s) (s_emerg s) (s_vchain s) (s_fchain s).
Definition set_s_alloc (v : ba_state) (s : fstate) : fstate := FState (s_nodes s) (s_next s) (s_dev s) (s_log s) v
  (s_voldata s) (s_volsync s) (s_header s) (s_emerg s) (s_vchain s) (s_fchain s).
Definition set_s_voldata (v : voldata) (s : fstate) : fstate := FState (s_nodes s) (s_next s) (s_dev s) (s_log s)
  (s_alloc s) v (s_volsync s) (s_header s) (s_emerg s) (s_vchain s) (s_fchain s).
Definition set_s_volsync (v : option voldata) (s : fstate) : fstate := FState (s_nodes s) (s_next s) (s_dev s) (s_log
  s) (s_alloc s) (s_voldata s) v (s_header s) (s_emerg s) (s_vchain s) (s_fchain s).
Definition set_s_header (v : voldata) (s : fstate) : fstate := FState (s_nodes s) (s_next s) (s_dev s) (s_log s)
  (s_alloc s) (s_voldata s) (s_volsync s) v (s_emerg s) (s_vchain s) (s_fchain s).

Definition nd (s : fstate) (i : nat) : outcome fnode :=
  match s_nodes s !! i with
  | Some x => Done x
  | None => Panic
  end.
Definition put (i : nat) (x : fnode) (s : fstate) : fstate := set_s_nodes (<[i := x]> (s_nodes s)) s.
Definition dev_get (s : fstate) (off : Z) : block := default inhabitant (s_dev s !! off).
Definition dev_put (off : Z) (k : block) (s : fstate) : fstate :=
  set_s_log ((off, k) :: s_log s) (set_s_dev (<[off := k]> (s_dev s)) s).

(** [chain->data], and a store through it to the block table. *)
Definition node_block (s : fstate) (x : fnode) : option block :=
  if n_type x =? HAMMER2_BREF_TYPE_VOLUME then Some (Block [] (vd_sroot (s_voldata s)))
  else if n_type x =? HAMMER2_BREF_TYPE_FREEMAP then Some (Block [] (vd_fmap (s_voldata s)))
  else option_map (dev_get s) (n_data x).
Definition store_table (x : fnode) (bs : list blockref) (s : fstate) : fstate :=
  if n_type x =? HAMMER2_BREF_TYPE_VOLUME then set_s_voldata (set_vd_sroot bs (s_voldata s)) s
  else if n_type x =? HAMMER2_BREF_TYPE_FREEMAP then set_s_voldata (set_vd_fmap bs (s_voldata s)) s
  else
    match n_data x with
    | Some off => dev_put off (Block (blk_raw (dev_get s off)) bs) s
    | None => s
    end.

(** * Flags upward *)

(** [hammer2_chain_setflush]: every turn flags a node that was not. *)
Fixpoint setflush_loop (fuel : nat) (s : fstate) (i : nat) : outcome fstate :=
  let! x := nd s i in
  if is_onflush x then Done s
  else
    match fuel with
    | O => Panic
    | S fuel =>
        let s := put i (set_onflush true x) s in
        if n_type x =? HAMMER2_BREF_TYPE_INODE then Done s
        else
          match n_parent x with
          | None => Done s
          | Some p => setflush_loop fuel s p
          end
    end.
Definition hammer2_chain_setflush (s : fstate) (i : nat) : outcome fstate :=
  setflush_loop (size (s_nodes s)) s i.

(** * Loading *)

(** The check code of a block against its blockref. *)
Definition testcheck (x : fnode) (k : block) : outcome bool :=
  hammer2_chain_testcheck (Checked (br_methods (n_bref x)) (br_check (n_bref x)) (is_nottested x)) (encode_block k).
Definition setcheck (x : fnode) (k : block) : outcome fnode :=
  let! c := hammer2_chain_setcheck (Checked (br_methods (n_bref x)) (br_check (n_bref x)) (is_nottested x)) (encode_block k) in
  Done (set_nottested (ck_nottested c) (set_n_bref (set_check (br_flags (n_bref x)) (ck_check c) (n_bref x)) x)).

Definition hammer2_chain_load_data (s : fstate) (i : nat) : outcome fstate :=
  let! x := nd s i in
  let off := n_phys x in
  match n_data x with
  | Some _ => Done s
  | None =>
      if off =? 0 then Done s
      else if negb (is_initial x) && read_error off then Done (put i (set_n_error HAMMER2_ERROR_EIO x) s)
      else
        let x := set_n_error 0 x in
        let! (x, s) :=
          if is_initial x then
            Done (set_nottested true (set_initial false x), dev_put off (zero_block (n_type x) (n_bytes x)) s)
          else if is_modified x || is_testedgood x then Done (x, s)
          else
            let! good := testcheck x (dev_get s off) in
            Done (if good : bool then set_testedgood true x else set_n_error HAMMER2_ERROR_CHECK x, s) in
        assert! negb (is_root x);
        assert! negb ((n_type x =? HAMMER2_BREF_TYPE_DIRENT) && (n_bytes x =? 0));
        Done (put i (set_n_data (Some off) x) s)
  end.

(** [hammer2_chain_lock], as far as it loads. *)
Inductive resolve := RESOLVE_NEVER | RESOLVE_MAYBE | RESOLVE_ALWAYS.
Definition hammer2_chain_lock (s : fstate) (i : nat) (how : resolve) : outcome fstate :=
  let! x := nd s i in
  match how with
  | RESOLVE_NEVER => Done s
  | RESOLVE_MAYBE =>
      if is_root x || is_initial x || (n_type x =? HAMMER2_BREF_TYPE_DATA) then Done s
      else hammer2_chain_load_data s i
  | RESOLVE_ALWAYS => if is_root x then Done s else hammer2_chain_load_data s i
  end.

(** * [hammer2_chain_modify] *)

(** [newmod] of a chain that is not MODIFIED: it must move, unless its contents have
    no check code, or in emergency mode, and no snapshot can refer to it. *)
Definition overwrite_allowed (s : fstate) (x : fnode) : bool :=
  match n_pmp x with
  | None => false
  | Some pm =>
      (((n_type x =? HAMMER2_BREF_TYPE_DATA) || (n_type x =? HAMMER2_BREF_TYPE_DIRENT))
       && negb (is_initial x) && negb (is_dedupable x)
       && (HAMMER2_DEC_CHECK (br_methods (n_bref x)) =? HAMMER2_CHECK_NONE) || s_emerg s)
      && (pm_lsnap_tid pm <? br_modify_tid (n_bref x))
  end.

(** The allocation: (error, node, state). *)
Definition modify_alloc (s : fstate) (x : fnode) (dedup_off : Z) : outcome (Z * fnode * fstate) :=
  if negb (dedup_off =? 0) then
    let radix := dedup_off .& HAMMER2_OFF_MASK_RADIX in
    let x := set_n_bytes (if radix =? 0 then 0 else i32 (1 .<< radix)) (set_n_bref (set_data_off dedup_off (n_bref x)) x) in
    let x := set_dedupable true (set_modified false (set_n_error 0 x)) in
    Done (0, x, set_s_alloc (ba_recover (s_alloc s) (n_bref x)) s)
  else
    let! (error, off, a) := chain_freemap_alloc (s_alloc s) (n_bref x) (n_bytes x) in
    let s := set_s_alloc a s in
    let b := n_bref x in
    if error =? 0 then
      Done (0, set_dedupable false (set_n_bref (set_check (br_flags b .&~ HAMMER2_BREF_FLAG_EMERG_MIP) (br_check b) (set_data_off off b)) x), s)
    else if s_emerg s then
      Done (0, set_dedupable false (set_n_bref (set_check (br_flags b .| HAMMER2_BREF_FLAG_EMERG_MIP) (br_check b) b) x), s)
    else Done (error, set_dedupable false x, s).

(** The new buffer: zero-filled, or with a copy of the old one. *)
Definition modify_data (s : fstate) (x : fnode) (dedup_off : Z) : outcome (fnode * fstate) :=
  let wasinitial := is_initial x in
  let x := set_initial false x in
  let off := n_phys x in
  match n_type x with
  | HAMMER2_BREF_TYPE_VOLUME | HAMMER2_BREF_TYPE_FREEMAP =>
      assert! bool_decide (n_data x = None); Done (x, s)
  | HAMMER2_BREF_TYPE_DIRENT | HAMMER2_BREF_TYPE_INODE | HAMMER2_BREF_TYPE_FREEMAP_LEAF
  | HAMMER2_BREF_TYPE_DATA | HAMMER2_BREF_TYPE_INDIRECT | HAMMER2_BREF_TYPE_FREEMAP_NODE =>
      if (n_type x =? HAMMER2_BREF_TYPE_DIRENT) && (n_bytes x =? 0) then
        assert! bool_decide (n_data x = None); Done (x, s)
      else
        let fresh := wasinitial && (dedup_off =? 0) in
        if negb fresh && read_error off then Done (set_n_data None (set_n_error HAMMER2_ERROR_EIO x), s)
        else
          let s := if fresh then dev_put off (zero_block (n_type x) (n_bytes x)) s else s in
          let x := set_n_error 0 x in
          let! s :=
            match n_data x with
            | Some old => Done (if negb (old =? off) && (dedup_off =? 0) then dev_put off (dev_get s old) s else s)
            | None => assert! wasinitial || negb (dedup_off =? 0); Done s
            end in
          Done (set_n_data (Some off) x, s)
  | _ => Panic
  end.

(** The error it returns, and the state. *)
Definition hammer2_chain_modify (s : fstate) (i : nat) (mtid dedup_off flags : Z) : outcome (Z * fstate) :=
  let! x := nd s i in
  let optdata := tst flags HAMMER2_MODIFY_OPTDATA in
  assert! negb ((n_type x =? HAMMER2_BREF_TYPE_FREEMAP_NODE) || (n_type x =? HAMMER2_BREF_TYPE_FREEMAP_LEAF))
          || is_initial x || negb optdata;
  let load := bool_decide (n_data x = None) && negb (is_root x) && negb (n_bytes x =? 0) && negb optdata && negb (n_phys x =? 0) in
  let! s := if load then hammer2_chain_load_data s i else Done s in
  let! x := nd s i in
  if load && negb (n_error x =? 0) then Done (n_error x, s)
  else
    let setmodified := negb (is_modified x) in
    let newmod := if setmodified then negb (overwrite_allowed s x) else is_dedupable x in
    let setupdate := negb (is_update x) in
    let x := set_update true (set_modified true x) in
    let! (error, x, s) :=
      if negb (is_root x) && negb (n_bytes x =? 0) && ((n_phys x =? 0) || newmod) then modify_alloc s x dedup_off
      else Done (0, x, s) in
    if negb (error =? 0) then
      let x := if setmodified then set_modified false x else x in
      let x := if setupdate then set_update false x else x in
      Done (error, put i x s)
    else
      let b := n_bref x in
      let x := set_n_bref (set_tids (u64 (vd_mirror (s_voldata s) + 1)) (if mtid =? 0 then br_modify_tid b else mtid) b) x in
      let l := n_link x in
      let x := if l_blkmapped l then set_n_link (LFlags (l_deleted l) true true (l_hint l)) x else x in
      let! (x, s) :=
        if (n_type x =? HAMMER2_BREF_TYPE_DATA) && optdata && bool_decide (n_data x = None) && (dedup_off =? 0)
        then Done (x, s) else modify_data s x dedup_off in
      let s := put i x s in
      let! s := match n_parent x with Some p => hammer2_chain_setflush s p | None => Done s end in
      Done (n_error x, s).
Lemma nd_Done s i x : nd s i = Done x <-> s_nodes s !! i = Some x.
Proof. unfold nd. destruct (s_nodes s !! i); split; congruence. Qed.

End topology.

(** Run a computation that is [Done] forward. *)
Ltac run :=
  repeat (progress inv_done ||
    match goal with
    | p : (_ * _)%type |- _ => destruct p
    | u : unit |- _ => destruct u
    | H : (_, _) = (_, _) |- _ => injection H; clear H; intros; subst
    | H : nd _ _ = Done _ |- _ => apply nd_Done in H
    | H : bool_decide _ = true |- _ => apply bool_decide_eq_true in H
    end).
Ltac runs := repeat (run; case_match; try discriminate); run.
