(* ===== verification/FreemapStorage.v ===== *)
(** The freemap as the allocator of the topology: the functions of Freemap discharge the
    interface [Storage] and its laws.  Behind it, a small topology for the witnesses: an
    allocator that hands out one 64KB block after the other, and a volume with one inode. *)

From Stdlib Require Import ZArith Lia Bool.
From stdpp Require Import base numbers list option gmap.
From S2P Require Import Prelude Disk Bitmap Subr Freemap BmapAlloc FreemapAlloc FreemapMaint Check BlockTable ChainFind ChainCore Topology.

(** * [hammer2_freemap_alloc] and [hammer2_freemap_adjust] as a [Storage] *)

Section freemap.
Context {T IO : Type} `{!LeafStore T} `{!LeafStoreLaws T} `{!IoOps IO} `{!IoTotal IO}.
Implicit Types h : dev T IO.

(** A freemap that is well formed. *)
Definition fm_state : Type := { h : dev T IO | dev_ok h /\ heur_ok h }.

(** The calls that the laws speak of; outside of them the code may stop at an assertion,
    and the instance refuses. *)
Definition alloc_request (b : blockref) (n : Z) : bool :=
  match hammer2_getradix n with
  | Done r => (1 .<< r =? n) && (10 <=? r) && (r <=? 16) && (0 <=? br_type b) && (br_type b <? 256) && negb (freemap_bref b)
              && (negb (br_type b =? HAMMER2_BREF_TYPE_DATA) || (br_key b mod 2 ^ r =? 0))
  | Panic => false
  end.
Definition recover_request h (b : blockref) : bool :=
  let off := phys (br_data_off b) in
  let radix := br_data_off b .& HAMMER2_OFF_MASK_RADIX in
  (10 <=? radix) && (radix <=? 16) && (off mod 1024 =? 0) && (0 <=? off) && (off <? 2 ^ 62)
  && (dv_allocator_beg h <=? off) && (HAMMER2_ZONE_SEG <=? off mod 2 ^ 31)
  && (0 <=? dv_allocator_free h) && (dv_allocator_free h <? 2 ^ 64)
  && match leaf_at h (H2FMBASE off 30) with Some lf => lf_error lf =? 0 | None => false end.

Lemma alloc_request_spec b n : alloc_request b n = true -> exists r, n = 1 .<< r /\ data_request b r.
Proof.
  unfold alloc_request. destruct (hammer2_getradix n) as [r|]; [|discriminate]. intros H.
  rewrite !andb_true_iff, !Z.leb_le, Z.ltb_lt, Z.eqb_eq, negb_true_iff, orb_true_iff, negb_true_iff, Z.eqb_neq, Z.eqb_eq in H.
  destruct H as [[[[[[<- R1] R2] T1] T2] Hf] Hk]. unfold freemap_bref in Hf. apply orb_false_iff in Hf as [F1%Z.eqb_neq F2%Z.eqb_neq].
  exists r. split; [reflexivity|]. split; [split; assumption|]. split; [|split; assumption]. split; [split; assumption|].
  intros Ht. assert (Hp : 0 < 2 ^ r) by (apply pow2_pos; lia). apply Z.mod_divide; [lia|]. destruct Hk; [contradiction|assumption].
Qed.

Lemma fm_alloc_ok h b n r : dev_ok h /\ heur_ok h -> alloc_request b n = true -> hammer2_freemap_alloc h b n = Done r ->
  dev_ok r.1.2 /\ heur_ok r.1.2.
Proof.
  intros [Hok Hh] (radix & -> & Hr)%alloc_request_spec H. destruct (freemap_alloc_spec h b radix Hok Hh Hr) as (r' & E & Hs).
  replace r with r' by congruence. exact (alloc_spec_ok _ _ _ _ Hok Hs).
Qed.

(** The facts behind a recovery that is granted. *)
Lemma recover_spec h b : dev_ok h -> recover_request h b = true ->
  exists h' key n lf c m, hammer2_freemap_adjust h b HAMMER2_FREEMAP_DORECOVER = Done h'
    /\ (2 ^ 30 | key) /\ 0 <= n < 256 /\ leaf_at h key = Some lf /\ recovered h h' key n lf c m.
Proof.
  unfold recover_request. set (off := phys (br_data_off b)). set (radix := br_data_off b .& HAMMER2_OFF_MASK_RADIX). intros Hok H.
  rewrite !andb_true_iff, !Z.leb_le, !Z.ltb_lt, Z.eqb_eq in H. destruct H as [[[[[[[[[R1 R2] D] O1] O2] B] S] F1] F2] L].
  destruct (leaf_at h (H2FMBASE off 30)) as [lf|] eqn:El; [|discriminate]. apply Z.eqb_eq in L.
  assert (Hd : (1024 | off)) by (apply Z.mod_divide; [discriminate|exact D]).
  assert (Hx : br_data_off b = off .| radix) by (unfold off, radix, phys; symmetry; apply Z.lor_ldiff_and).
  assert (Hr : radix_ok radix) by (split; assumption). assert (Ho : 0 <= off < 2 ^ 62) by (split; assumption).
  assert (Hf : 0 <= dv_allocator_free h < 2 ^ 64) by (split; assumption).
  destruct (freemap_adjust_spec h b off radix lf Hok Hr Hd Ho Hx B S Hf El L) as (h' & Hrun & Hrec).
  exists h', (H2FMBASE off 30), (element_of off), lf. do 2 eexists. split; [exact Hrun|]. split; [apply H2FMBASE_spec; exact O1|].
  split; [unfold element_of; apply Z.mod_pos_bound; reflexivity|]. split; [exact El|exact Hrec].
Qed.

Lemma fm_recover_ok h b h' : dev_ok h /\ heur_ok h -> recover_request h b = true ->
  hammer2_freemap_adjust h b HAMMER2_FREEMAP_DORECOVER = Done h' -> dev_ok h' /\ heur_ok h'.
Proof.
  intros [Hok Hh] Hq H. destruct (recover_spec h b Hok Hq) as (h1 & key & n & lf & c & m & E & _ & _ & _ & Hr & _).
  replace h' with h1 by congruence. split; [exact Hr|]. unfold heur_ok. rewrite (freemap_adjust_heur _ _ _ _ E). exact Hh.
Qed.

(** (error, data_off, freemap) *)
Definition fm_alloc (a : fm_state) (b : blockref) (n : Z) : Z * Z * fm_state :=
  match bool_dec (alloc_request b n) true with
  | right _ => (HAMMER2_ERROR_EINVAL, 0, a)
  | left Hq =>
      match hammer2_freemap_alloc (proj1_sig a) b n as o return hammer2_freemap_alloc (proj1_sig a) b n = o -> Z * Z * fm_state with
      | Done r => fun E => (r.1.1, br_data_off r.2, exist _ r.1.2 (fm_alloc_ok _ b n r (proj2_sig a) Hq E))
      | Panic => fun _ => (HAMMER2_ERROR_EINVAL, 0, a)
      end eq_refl
  end.
Definition fm_recover (a : fm_state) (b : blockref) : fm_state :=
  match bool_dec (recover_request (proj1_sig a) b) true with
  | right _ => a
  | left Hq =>
      match hammer2_freemap_adjust (proj1_sig a) b HAMMER2_FREEMAP_DORECOVER as o
        return hammer2_freemap_adjust (proj1_sig a) b HAMMER2_FREEMAP_DORECOVER = o -> fm_state with
      | Done h => fun E => exist _ h (fm_recover_ok _ b h (proj2_sig a) Hq E)
      | Panic => fun _ => a
      end eq_refl
  end.

(** The first 1KB at an offset has been handed out. *)
Definition fm_in_use (a : fm_state) (o : Z) : Prop := dev_range_owned (proj1_sig a) (o, HAMMER2_ALLOC_MIN).

Definition freemap_storage (bad : Z -> bool) : Storage := {|
  ba_state := fm_state; ba_alloc := fm_alloc; ba_recover := fm_recover; ba_in_use := fm_in_use; read_error := bad
|}.

Lemma owned_prefix h o n : HAMMER2_ALLOC_MIN <= n -> dev_range_owned h (o, n) -> dev_range_owned h (o, HAMMER2_ALLOC_MIN).
Proof.
  intros Hn (key & i & lf & Hd & Hk & Hi & Hlf & [(A1 & A2 & A3) B C]). exists key, i, lf. cbn [fst snd] in *.
  split; [exact Hd|]. split; [exact Hk|]. split; [exact Hi|]. split; [exact Hlf|]. constructor; cbn [fst snd].
  - lia.
  - intros b Hb H1 H2. apply B; lia.
  - intros Hm. destruct (C Hm); lia.
Qed.

Lemma fm_alloc_cases a b n e off a' : fm_alloc a b n = (e, off, a') ->
  a' = a /\ e <> 0 \/ exists radix bref', data_request b radix /\ br_data_off bref' = off
                      /\ alloc_spec (proj1_sig a) b radix (e, proj1_sig a', bref').
Proof.
  unfold fm_alloc. destruct (bool_dec _ _) as [Hq|]; [|intros [= <- <- <-]; left; split; [reflexivity|discriminate]].
  destruct (alloc_request_spec b n Hq) as (radix & -> & Hr). destruct (freemap_alloc_spec (proj1_sig a) b radix) as (r & E & Hs); [apply (proj2_sig a)..|exact Hr|].
  generalize (fm_alloc_ok (proj1_sig a) b (1 .<< radix)). rewrite E. intros P [= <- <- <-].
  right. exists radix, r.2. split; [exact Hr|]. split; [reflexivity|]. destruct r as [[e h'] bref']. exact Hs.
Qed.

(** The freemap keeps the laws that the topology is proved against. *)
#[export] Instance freemap_storage_laws bad : StorageLaws (freemap_storage bad).
Proof.
  constructor; cbn.
  - intros a b n off a' H Hn _. destruct (fm_alloc_cases a b n 0 off a' H) as [[_ []]|(radix & bref' & Hr & <- & Hs)]; [reflexivity|].
    destruct (alloc_spec_cases _ _ _ _ _ _ (proj1 (proj2_sig a)) (proj1 Hr) Hs) as [Hmono [(_ & o & -> & B1 & _ & _ & B4 & Hsv)|([] & _)]]; [|reflexivity].
    cbn [set_data_off br_data_off]. unfold phys. destruct (data_off_split o radix (proj1 Hr) B1) as [-> _].
    pose proof (size_nblk radix (proj1 Hr)) as [Hsz _]. split; [|split; [|split]].
    + intros Hu. apply (sv_disjoint _ _ _ _ Hsv) in Hu. unfold disjoint_ranges in Hu. cbn in Hu. lia.
    + exact (owned_prefix _ _ _ (proj1 Hsz) (sv_owned _ _ _ _ Hsv)).
    + intros ->. rewrite Z.mod_0_l in B4 by discriminate. lia.
    + intros o'. apply Hmono.
  - intros a b n e off a' H He o. destruct (fm_alloc_cases a b n e off a' H) as [[-> _]|(radix & bref' & Hr & <- & Hs)]; [auto|].
    apply (alloc_spec_cases _ _ _ _ _ _ (proj1 (proj2_sig a)) (proj1 Hr) Hs).
  - intros a b o. unfold fm_recover. destruct (bool_dec _ _) as [Hq|]; [|auto].
    destruct (recover_spec (proj1_sig a) b (proj1 (proj2_sig a)) Hq) as (h' & key & i & lf & c & m & E & Hd & Hi & Hlf & Hrec).
    generalize (fm_recover_ok (proj1_sig a) b). rewrite E. intros P. exact (recovered_keeps _ _ _ _ _ _ _ _ Hd Hi Hlf Hrec).
Qed.
End freemap.

(** * A volume for the witnesses *)

(** An allocator that never reuses a block. *)
Definition bump : Storage := {|
  ba_state := nat;
  ba_alloc (a : nat) b n := (0, 65536 * Z.of_nat (65 + a) + match hammer2_getradix n with Done r => r | Panic => 0 end, S a);
  ba_recover a b := a;
  ba_in_use (a : nat) o := o < 65536 * Z.of_nat (65 + a);
  read_error o := false
|}.

Lemma phys_bump a n : phys (65536 * Z.of_nat a + match hammer2_getradix n with Done r => r | Panic => 0 end) = 65536 * Z.of_nat a.
Proof.
  set (r := match hammer2_getradix n with Done r => r | Panic => 0 end).
  assert (Hr : 0 <= r < 64) by (subst r; destruct (hammer2_getradix n) eqn:E; [exact (getradix_lt _ _ E)|lia]).
  unfold phys. change HAMMER2_OFF_MASK_RADIX with (Z.ones 6). rewrite ldiff_ones_sub by lia.
  replace ((65536 * Z.of_nat a + r) mod 2 ^ 6) with r; [lia|].
  replace (65536 * Z.of_nat a + r) with (r + (1024 * Z.of_nat a) * 2 ^ 6) by lia. rewrite Z.mod_add, Z.mod_small by lia. reflexivity.
Qed.

Lemma bump_laws : StorageLaws bump.
Proof.
  constructor.
  - intros a b n off a' [= <- <-] _. rewrite phys_bump. cbn. repeat split; lia.
  - intros a b n e off a' [= <- _ _] []. reflexivity.
  - intros a b o H. exact H.
Qed.

Definition demo_bref (type off : Z) (flags : Z) : blockref := Bref type 0 64 0 0 0 0 off 0 0 flags (replicate 64 0).
Definition demo_inode : blockref := demo_bref HAMMER2_BREF_TYPE_INODE (4259840 + 10) HAMMER2_BREF_FLAG_PFSROOT.
Definition demo_node (b : blockref) (used : Z) (parent : option nat) (tree : list nat) (mapped : bool) : fnode :=
  FNode (Core used used 0 true b) (LFlags false mapped false false) (NFlags false false false false false false false false false) parent tree
    (chain_bytes b) 0 None (tst (br_flags b) HAMMER2_BREF_FLAG_PFSROOT) None.
Definition demo_vol : voldata := Voldata 5 5 [demo_inode; bref_zero; bref_zero; bref_zero] (replicate 4 bref_zero).
Definition demo : fstate (ST := bump) :=
 
  @FState bump {[ 0%nat := demo_node (demo_bref HAMMER2_BREF_TYPE_VOLUME 0 0) 1 None [2%nat] false;
            1%nat := demo_node (demo_bref HAMMER2_BREF_TYPE_FREEMAP 0 0) 0 None [] false;
            2%nat := demo_node demo_inode 0 (Some 0%nat) [] true ]}
    3 {[ 4259840 := zero_block HAMMER2_BREF_TYPE_INODE 1024 ]} [] 1%nat demo_vol None demo_vol false 0 1.
