(* ===== verification/Reshape.v ===== *)
(** Operations that change the topology (hammer2_chain.c): deleting a chain from
    its parent, creating and moving chains, creating indirect blocks and
    collapsing them. *)

From Stdlib Require Import ZArith Lia Bool.
From stdpp Require Import base numbers list option gmap.
From S2P Require Import Prelude Disk Subr Check BlockTable ChainFind ChainCore Topology.

Abbreviation HAMMER2_INSERT_PFSROOT := 4 (only parsing).
Abbreviation HAMMER2_INSERT_SAMEPARENT := 8 (only parsing).
Abbreviation HAMMER2_METH_DEFAULT := 0 (only parsing).
Abbreviation HAMMER2_OBJTYPE_DIRECTORY := 1 (only parsing).
Abbreviation HAMMER2_IND_BYTES_MIN := 4096 (only parsing).
Abbreviation HAMMER2_IND_BYTES_NOM := 16384 (only parsing).
Abbreviation HAMMER2_FREEMAP_LEVELN_PSIZE := 32768 (only parsing).
Abbreviation HAMMER2_CHECK_DEFAULT := HAMMER2_CHECK_XXHASH64 (only parsing).
Abbreviation HAMMER2_KEY_MAX := 18446744073709551615 (only parsing).

Section reshape.
Context {ST : Storage}.

(** * The block table of a node *)

(** The children in memory, and the address of one that a scan returned. *)
Definition kids (s : fstate) (l : list nat) : list mchain := omap (fun i => chain_of <$> s_nodes s !! i) l.
Definition kid_at (s : fstate) (l : list nat) (c : mchain) : option nat :=
  head (filter (fun i => chain_of <$> s_nodes s !! i = Some c) l).

(** [hammer2_chain_base_and_count], with the table that base points to. *)
Definition base_of (s : fstate) (x : fnode) : outcome (option (list blockref) * Z) :=
  let! (base, count) := hammer2_chain_base_and_count (is_initial x) (n_type x) (n_bytes x) in
  match base with
  | None => Done (None, count)
  | Some _ =>
      match node_block s x with
      | Some k => Done (Some (blk_table k), count)
      | None => Panic
      end
  end.

(** The choice of base in the flush and in deletions: none for an inode with
    embedded data, or without data. *)
Definition update_base (s : fstate) (x : fnode) : outcome (option (list blockref) * Z) :=
  match n_type x with
  | HAMMER2_BREF_TYPE_INODE =>
      match node_block s x with
      | Some k => Done (if tst (op_flags k) HAMMER2_OPFLAG_DIRECTDATA then None else Some (blk_table k), HAMMER2_SET_COUNT)
      | None => Done (None, HAMMER2_SET_COUNT)
      end
  | HAMMER2_BREF_TYPE_INDIRECT | HAMMER2_BREF_TYPE_FREEMAP_NODE =>
      Done (blk_table <$> node_block s x, n_bytes x / HAMMER2_BLOCKREF_BYTES)
  | HAMMER2_BREF_TYPE_VOLUME | HAMMER2_BREF_TYPE_FREEMAP => Done (blk_table <$> node_block s x, HAMMER2_SET_COUNT)
  | _ => Panic
  end.

(** [hammer2_base_insert] and [hammer2_base_delete] on the table of [p]. *)
Definition table_insert (s : fstate) (p : nat) (base : option (list blockref)) (count : Z) (i : nat) (elm : blockref)
  : outcome fstate :=
  let! x := nd s p in
  let! y := nd s i in
  let! (co, bs, c) := hammer2_base_insert (n_core x) base count (Some (chain_of y)) elm in
  let s := store_table x bs (put p (set_n_core co x) s) in
  Done (match c with Some c => put i (set_chain c y) s | None => s end).

Definition table_delete (s : fstate) (p : nat) (base : option (list blockref)) (count : Z) (i : nat)
  : outcome (blockref * fstate) :=
  let! x := nd s p in
  let! y := nd s i in
  let! (co, bs, c, scan) := hammer2_base_delete (n_core x) base count (chain_of y) in
  Done (scan, put i (set_chain c y) (store_table x bs (put p (set_n_core co x) s))).

Definition count_brefs (s : fstate) (i : nat) (base : option (list blockref)) (count : Z) : outcome fstate :=
  let! x := nd s i in
  Done (put i (set_n_core (hammer2_chain_countbrefs (n_core x) base count) x) s).

(** * Links *)

(** Into the tree of the parent, in key order. *)
Fixpoint tree_place (s : fstate) (i : nat) (b : blockref) (l : list nat) : list nat :=
  match l with
  | [] => [i]
  | j :: l =>
      match s_nodes s !! j with
      | Some y => if br_key b <? br_key (n_bref y) then i :: j :: l else j :: tree_place s i b l
      | None => j :: tree_place s i b l
      end
  end.
Definition set_live_count (v : Z) (co : core) : core :=
  Core (co_live_zero co) v (co_cache_index co) (co_counted co) (co_bref co).

(** [hammer2_chain_insert]; [live] is HAMMER2_CHAIN_INSERT_LIVE. *)
Definition chain_link (s : fstate) (p i : nat) (live : bool) : outcome fstate :=
  let! x := nd s p in
  let! y := nd s i in
  assert! negb (existsb (fun c => overlap (n_bref y) (ch_bref c)) (kids s (n_tree x)));
  let x := set_n_tree (tree_place s i (n_bref y) (n_tree x)) x in
  let x := if live then set_n_core (set_live_count (u32 (co_live_count (n_core x) + 1)) (n_core x)) x else x in
  Done (put i (set_n_parent (Some p) y) (put p x s)).

(** Out of the tree: DELETED, live_count, RB_REMOVE, no parent. *)
Definition chain_unlink (s : fstate) (p i : nat) : outcome fstate :=
  let! x := nd s p in
  let! y := nd s i in
  let x := set_n_core (set_live_count (u32 (co_live_count (n_core x) - 1)) (n_core x)) x in
  let x := set_n_tree (filter (fun j => j <> i) (n_tree x)) x in
  let l := n_link y in
  Done (put i (set_n_parent None (set_n_link (LFlags true (l_blkmapped l) (l_blkmapupd l) (l_hint l)) y)) (put p x s)).

(** [hammer2_chain_alloc], with the references of the caller left out. *)
Definition new_node (bref : blockref) (pmp : option pfs) : outcome fnode :=
  match br_type bref with
  | HAMMER2_BREF_TYPE_INODE | HAMMER2_BREF_TYPE_INDIRECT | HAMMER2_BREF_TYPE_DATA | HAMMER2_BREF_TYPE_DIRENT
  | HAMMER2_BREF_TYPE_FREEMAP_NODE | HAMMER2_BREF_TYPE_FREEMAP_LEAF =>
      Done (FNode (Core 0 0 0 false bref) (LFlags false false false false)
              (NFlags false false false false false false false false false) None [] (chain_bytes bref) 0 None
              (tst (br_flags bref) HAMMER2_BREF_FLAG_PFSROOT) pmp)
  | _ => Panic
  end.
Definition add_node (x : fnode) (s : fstate) : nat * fstate :=
  (s_next s, set_s_next (S (s_next s)) (put (s_next s) x s)).

(** [hammer2_chain_get] with RESOLVE_NEVER. *)
Definition chain_get_never (s : fstate) (p : nat) (bref : blockref) : outcome (nat * fstate) :=
  let! x := nd s p in
  let! y := new_node bref (n_pmp x) in
  let '(i, s) := add_node (set_n_link (LFlags false true false false) y) s in
  let! s := chain_link s p i false in
  Done (i, s).

(** * Deletion *)

(** [_hammer2_chain_delete_helper]; returns the error, *obref (with type EMPTY when
    nothing was in the table), the state. *)
Definition delete_helper (s : fstate) (parent : option nat) (i : nat) (mtid : Z) : outcome (Z * blockref * fstate) :=
  let! x := nd s i in
  let none := bref_zero in
  assert! negb (l_deleted (n_link x));
  assert! bool_decide (n_parent x = parent);
  if l_blkmapped (n_link x) then
    match parent with
    | None => Panic
    | Some p =>
        let! px := nd s p in
        assert! n_error px =? 0;
        assert! negb (is_initial px);
        let! (error, s) := hammer2_chain_modify s p mtid 0 0 in
        if negb (error =? 0) then Done (error, none, s)
        else
          let! s := chain_unlink s p i in
          let! px := nd s p in
          let! (base, count) := update_base s px in
          match base with
          | Some _ => let! (scan, s) := table_delete s p base count i in Done (0, scan, s)
          | None => Done (0, none, s)
          end
    end
  else
    match parent with
    | Some p => let! s := chain_unlink s p i in Done (0, none, s)
    | None =>
        let l := n_link x in
        Done (0, none, put i (set_n_link (LFlags true (l_blkmapped l) (l_blkmapupd l) (l_hint l)) x) s)
    end.

(** [hammer2_chain_delete_obref]; [hammer2_chain_delete] drops the blockref. *)
Definition hammer2_chain_delete_obref (s : fstate) (parent : option nat) (i : nat) (mtid flags : Z)
  : outcome (Z * blockref * fstate) :=
  let! x := nd s i in
  let! (error, obref, s) :=
    if l_deleted (n_link x) then Done (0, bref_zero, s) else delete_helper s parent i mtid in
  if (error =? 0) && tst flags HAMMER2_DELETE_PERMANENT then
    let! x := nd s i in
    let! s := hammer2_chain_setflush (put i (set_destroy true x) s) i in
    Done (error, obref, s)
  else Done (error, obref, s).
Definition hammer2_chain_delete (s : fstate) (parent : option nat) (i : nat) (mtid flags : Z) : outcome (Z * fstate) :=
  let! (error, _, s) := hammer2_chain_delete_obref s parent i mtid flags in
  Done (error, s).

(** * Creation *)

(** A chain to create: NULL, or one to attach. *)
Record create_args := CreateArgs {
  ca_methods : Z;
  ca_key : Z;
  ca_keybits : Z;
  ca_type : Z;
  ca_bytes : Z;
  ca_mtid : Z;
  ca_dedup_off : Z;
  ca_flags : Z
}.

(** The new chain: a dummy blockref, INITIAL. *)
Definition create_alloc (s : fstate) (parent : option nat) (pmp : option pfs) (a : create_args) : outcome (nat * fstate) :=
  let! radix := hammer2_getradix (ca_bytes a) in
  let! methods :=
    if ca_methods a =? HAMMER2_METH_DEFAULT then
      match parent with
      | Some p => let! x := nd s p in Done (br_methods (n_bref x))
      | None => Panic
      end
    else Done (u8 (ca_methods a)) in
  let methods :=
    if negb (ca_type a =? HAMMER2_BREF_TYPE_DATA) && (HAMMER2_DEC_CHECK methods =? HAMMER2_CHECK_NONE)
    then methods .| HAMMER2_ENC_CHECK HAMMER2_CHECK_DEFAULT else methods in
  let! y := new_node (Bref (ca_type a) methods (ca_keybits a) 0 (ca_key a) 0 0 radix 0 0 0 (replicate 64 0)) pmp in
  match ca_type a with
  | HAMMER2_BREF_TYPE_VOLUME | HAMMER2_BREF_TYPE_FREEMAP | HAMMER2_BREF_TYPE_INDIRECT | HAMMER2_BREF_TYPE_FREEMAP_NODE => Panic
  | HAMMER2_BREF_TYPE_FREEMAP_LEAF =>
      assert! ca_bytes a =? HAMMER2_FREEMAP_LEVELN_PSIZE; Done (add_node (set_initial true y) s)
  | _ => Done (add_node (set_initial true y) s)
  end.

(** Reattaching a chain under a new key. *)
Definition create_reuse (s : fstate) (i : nat) (a : create_args) : outcome fstate :=
  let! y := nd s i in
  assert! bool_decide (n_parent y = None);
  let l := n_link y in
  Done (put i (set_n_link (LFlags false (l_blkmapped l) (l_blkmapupd l) (l_hint l))
                (set_n_bref (set_key (ca_key a) (ca_keybits a) (n_bref y)) y)) s).

(** The table of the parent at the label [again]. *)
Definition create_base (s : fstate) (x : fnode) : outcome (option (list blockref) * Z) :=
  match n_type x with
  | HAMMER2_BREF_TYPE_INODE =>
      match node_block s x with
      | Some k => assert! negb (tst (op_flags k) HAMMER2_OPFLAG_DIRECTDATA); Done (Some (blk_table k), HAMMER2_SET_COUNT)
      | None => Panic
      end
  | HAMMER2_BREF_TYPE_INDIRECT | HAMMER2_BREF_TYPE_FREEMAP_NODE =>
      if is_initial x then Done (None, n_bytes x / HAMMER2_BLOCKREF_BYTES)
      else
        match node_block s x with
        | Some k => Done (Some (blk_table k), n_bytes x / HAMMER2_BLOCKREF_BYTES)
        | None => Panic
        end
  | HAMMER2_BREF_TYPE_VOLUME | HAMMER2_BREF_TYPE_FREEMAP =>
      match node_block s x with
      | Some k => Done (Some (blk_table k), HAMMER2_SET_COUNT)
      | None => Panic
      end
  | _ => Panic
  end.

(** From the label [skip]: link the chain, mark it dirty. *)
Definition create_link (s : fstate) (parent : option nat) (i : nat) (allocated : bool) (a : create_args) : outcome (Z * fstate) :=
  let! y := nd s i in
  assert! bool_decide (n_parent y = None);
  let! s := match parent with Some p => chain_link s p i true | None => Done s end in
  let! y := nd s i in
  let! (error, s) :=
    if allocated then
      match n_type y with
      | HAMMER2_BREF_TYPE_DATA | HAMMER2_BREF_TYPE_FREEMAP_LEAF | HAMMER2_BREF_TYPE_DIRENT | HAMMER2_BREF_TYPE_INODE =>
          hammer2_chain_modify s i (ca_mtid a) (ca_dedup_off a) HAMMER2_MODIFY_OPTDATA
      | _ => Panic
      end
    else Done (0, put i (set_update true y) s) in
  let! s := match parent with Some p => hammer2_chain_setflush s p | None => Done s end in
  Done (error, s).

Section create.
(** [hammer2_chain_create_indirect]: (error, the new parent, state). *)
Context (create_indirect : fstate -> nat -> create_args -> outcome (Z * option nat * fstate)).

(** The loop at [again]: a full parent gets an indirect block. *)
Fixpoint create_again (maxloops : nat) (s : fstate) (p i : nat) (allocated : bool) (a : create_args)
  : outcome (Z * nat * option nat * fstate) :=
  match maxloops with
  | O => Panic
  | S maxloops =>
      let! x := nd s p in
      let! (base, count) := create_base s x in
      let! s := if co_counted (n_core x) then Done s else count_brefs s p base count in
      let! x := nd s p in
      let lc := co_live_count (n_core x) in
      assert! (0 <=? i32 lc) && (i32 lc <=? count);
      if lc =? count then
        assert! negb (tst (ca_flags a) HAMMER2_INSERT_SAMEPARENT);
        let! (error, nparent, s) := create_indirect s p a in
        match nparent with
        | None => Done (error, p, None, s)
        | Some p => create_again maxloops s p i allocated a
        end
      else
        let! (error, s) := create_link s (Some p) i allocated a in
        Done (error, p, Some i, s)
  end.

(** Returns the error, *parentp, *chainp, the state. *)
Definition chain_create (s : fstate) (parent : option nat) (chain : option nat) (pmp : option pfs) (a : create_args)
  : outcome (Z * option nat * option nat * fstate) :=
  let! _ :=
    match parent with
    | Some p => let! x := nd s p in assert! n_error x =? 0; Done tt
    | None => Done tt
    end in
  let! (i, s) :=
    match chain with
    | None => create_alloc s parent pmp a
    | Some i => let! s := create_reuse s i a in Done (i, s)
    end in
  let allocated := bool_decide (chain = None) in
  let! y := nd s i in
  let b := n_bref y in
  let s := if tst (ca_flags a) HAMMER2_INSERT_PFSROOT
           then put i (set_n_bref (set_check (br_flags b .| HAMMER2_BREF_FLAG_PFSROOT) (br_check b) b) y) s else s in
  match parent with
  | None => let! (error, s) := create_link s None i allocated a in Done (error, None, Some i, s)
  | Some p =>
      let! (error, p, c, s) := create_again (Z.to_nat 299999) s p i allocated a in
      Done (error, Some p, c, s)
  end.

(** [hammer2_chain_rename]: the parent afterwards, and the state. *)
Definition chain_rename (s : fstate) (p i : nat) (mtid flags : Z) : outcome (nat * fstate) :=
  let! y := nd s i in
  assert! bool_decide (n_parent y = None);
  let b := n_bref y in
  let! (_, np, chain, s) :=
    chain_create s (Some p) (Some i) (n_pmp y)
      (CreateArgs HAMMER2_METH_DEFAULT (br_key b) (br_keybits b) (br_type b) (n_bytes y) mtid 0 flags) in
  match chain, np with
  | Some c, Some p =>
      let! y := nd s c in
      assert! is_update y;
      let! s := hammer2_chain_setflush s p in
      Done (p, s)
  | _, _ => Panic
  end.

(** [hammer2_chain_rename_obref]: the old blockref goes into the new table. *)
Definition chain_rename_obref (s : fstate) (p i : nat) (mtid flags : Z) (obref : blockref) : outcome (nat * fstate) :=
  let! (p, s) := chain_rename s p i mtid flags in
  if is_empty obref then Done (p, s)
  else
    let! y := nd s i in
    assert! negb (l_blkmapped (n_link y));
    let! (_, s) := hammer2_chain_modify s p mtid 0 0 in
    let! x := nd s p in
    let! (base, count) := base_of s x in
    let! s := table_insert s p base count i obref in
    let! y := nd s i in
    let l := n_link y in
    let y := if bool_decide (obref = n_bref y) then set_update false y
             else set_update true (set_n_link (LFlags (l_deleted l) (l_blkmapped l) true (l_hint l)) y) in
    Done (p, put i y s).
End create.

(** * Indirect blocks *)

Definition ind_bytes (s : fstate) (x : fnode) (for_type count : Z) : outcome Z :=
  let! nbytes :=
    if (for_type =? HAMMER2_BREF_TYPE_FREEMAP_NODE) || (for_type =? HAMMER2_BREF_TYPE_FREEMAP_LEAF)
    then Done HAMMER2_FREEMAP_LEVELN_PSIZE
    else if n_type x =? HAMMER2_BREF_TYPE_INODE then
      match node_block s x with
      | Some k => Done (if default 0 (blk_raw k !! 80%nat) =? HAMMER2_OBJTYPE_DIRECTORY   (* meta.type, 0x50 *)
                        then HAMMER2_IND_BYTES_MIN else HAMMER2_IND_BYTES_NOM)
      | None => Panic
      end
    else Done HAMMER2_IND_BYTES_NOM in
  if nbytes <? count * HAMMER2_BLOCKREF_BYTES then
    assert! negb (for_type =? HAMMER2_BREF_TYPE_FREEMAP_NODE) && negb (for_type =? HAMMER2_BREF_TYPE_FREEMAP_LEAF);
    Done (count * HAMMER2_BLOCKREF_BYTES)
  else Done nbytes.

(** The range of the new block: (keybits, key, core of the parent). *)
Definition ind_range (for_type : Z) (co : core) (rb : rbtree) (base : option (list blockref)) (count key keybits ncount : Z)
  : outcome (Z * Z * core) :=
  match for_type with
  | HAMMER2_BREF_TYPE_FREEMAP_NODE | HAMMER2_BREF_TYPE_FREEMAP_LEAF => hammer2_chain_indkey_freemap co rb base count key
  | HAMMER2_BREF_TYPE_DATA => hammer2_chain_indkey_file co rb base count key ncount
  | HAMMER2_BREF_TYPE_DIRENT | HAMMER2_BREF_TYPE_INODE => hammer2_chain_indkey_dir co rb base count key keybits ncount
  | _ => Panic
  end.

(** The next child of [p] from [key_beg] on, in memory: *key_nextp, *bref and the
    chain, which is loaded when it was not there. *)
Definition next_child (s : fstate) (p : nat) (base : option (list blockref)) (count key_beg : Z)
  : outcome (option (nat * blockref) * Z * fstate) :=
  let! x := nd s p in
  let! (chain, bref, key_next, co) :=
    hammer2_combined_find (n_core x) (rb_of (kids s (n_tree x))) base count key_beg HAMMER2_KEY_MAX in
  let s := put p (set_n_core co x) s in
  match bref with
  | None => Done (None, key_next, s)
  | Some b =>
      match chain with
      | Some c => match kid_at s (n_tree x) c with Some i => Done (Some (i, b), key_after b, s) | None => Panic end
      | None => let! (i, s) := chain_get_never s p b in Done (Some (i, b), key_after b, s)
      end
  end.

Section indirect.
Context (rename_obref : fstate -> nat -> nat -> Z -> Z -> blockref -> outcome (nat * fstate)).

(** The loop of [hammer2_chain_create_indirect]: the children of [p] inside the
    range move to [i].  A child outside is not loaded. *)
Fixpoint ind_move (loops : nat) (s : fstate) (p i : nat) (key keybits key_beg mtid : Z) : outcome fstate :=
  match loops with
  | O => Panic
  | S loops =>
      let! x := nd s p in
      let! (base, count) := base_of s x in
      let! (chain, bref, key_next, co) :=
        hammer2_combined_find (n_core x) (rb_of (kids s (n_tree x))) base count key_beg HAMMER2_KEY_MAX in
      let s := put p (set_n_core co x) s in
      match bref with
      | None => Done s
      | Some b =>
          let key_next := key_after b in
          let! s :=
            if negb (rounddown_bits (key .^ br_key b) keybits =? 0) then Done s
            else
              let! (c, s) :=
                match chain with
                | Some ch => match kid_at s (n_tree x) ch with Some c => Done (c, s) | None => Panic end
                | None => chain_get_never s p b
                end in
              let! (error, obref, s) := hammer2_chain_delete_obref s (Some p) c mtid 0 in
              assert! error =? 0;
              let! (_, s) := rename_obref s i c mtid 0 obref in
              Done s in
          if key_next =? 0 then Done s else ind_move loops s p i key keybits key_next mtid
      end
  end.

Definition create_indirect (s : fstate) (p : nat) (a : create_args) : outcome (Z * option nat * fstate) :=
  let! (error, s) := hammer2_chain_modify s p (ca_mtid a) 0 0 in
  if negb (error =? 0) then Done (error, None, s)
  else
    let! x := nd s p in
    assert! negb (is_initial x);
    let! (base, count) := base_of s x in
    let! nbytes := ind_bytes s x (ca_type a) count in
    let! (keybits, key, co) :=
      ind_range (ca_type a) (n_core x) (rb_of (kids s (n_tree x))) base count (ca_key a) (ca_keybits a)
        (nbytes / HAMMER2_BLOCKREF_BYTES) in
    let s := put p (set_n_core co x) s in
    let key := rounddown_bits key keybits in
    let! radix := hammer2_getradix nbytes in
    let type := if (ca_type a =? HAMMER2_BREF_TYPE_FREEMAP_NODE) || (ca_type a =? HAMMER2_BREF_TYPE_FREEMAP_LEAF)
                then HAMMER2_BREF_TYPE_FREEMAP_NODE else HAMMER2_BREF_TYPE_INDIRECT in
    let methods := HAMMER2_ENC_CHECK (HAMMER2_DEC_CHECK (br_methods (n_bref x))) in    (* HAMMER2_COMP_NONE is 0 *)
    let! y := new_node (Bref type methods keybits 0 key 0 0 radix 0 0 0 (replicate 64 0)) (n_pmp x) in
    let '(i, s) := add_node (set_initial true y) s in
    let! (error, s) := hammer2_chain_modify s i (ca_mtid a) 0 0 in
    if negb (error =? 0) then Done (error, None, s)
    else
      let! y := nd s i in
      assert! negb (is_initial y);
      let! s := ind_move (Z.to_nat 100000) s p i key keybits 0 (ca_mtid a) in
      let! x := nd s p in
      assert! co_live_count (n_core x) <? count;
      let! s := chain_link s p i true in
      let! s := hammer2_chain_setflush s i in
      let! s := hammer2_chain_setflush s p in
      Done (0, Some (if rounddown_bits (ca_key a .^ key) keybits =? 0 then i else p), s).
End indirect.

(** The knot: a move into a new indirect block finds room there, so one level of
    creation inside another is enough; [depth] bounds the nesting. *)
Fixpoint create_indirect_at (depth : nat) (s : fstate) (p : nat) (a : create_args) : outcome (Z * option nat * fstate) :=
  match depth with
  | O => Panic
  | S depth => create_indirect (chain_rename_obref (create_indirect_at depth)) s p a
  end.
Definition hammer2_chain_create_indirect := create_indirect_at 2.
Definition hammer2_chain_create := chain_create hammer2_chain_create_indirect.
Definition hammer2_chain_rename := chain_rename hammer2_chain_create_indirect.
Definition hammer2_chain_rename_obref := chain_rename_obref hammer2_chain_create_indirect.

(** * [hammer2_chain_indirect_maintenance] *)

(** The children of the collapsed block go to the parent. *)
Fixpoint collapse_move (loops : nat) (s : fstate) (p i : nat) (key_beg : Z) : outcome fstate :=
  match loops with
  | O => Panic
  | S loops =>
      let! x := nd s i in
      match node_block s x with
      | None => Panic
      | Some k =>
          let! (sub, key_next, s) := next_child s i (Some (blk_table k)) (n_bytes x / HAMMER2_BLOCKREF_BYTES) key_beg in
          match sub with
          | None => Done s
          | Some (c, b) =>
              let! y := nd s c in
              let tid := br_modify_tid (n_bref y) in
              let! (error, obref, s) := hammer2_chain_delete_obref s (Some i) c tid 0 in
              assert! error =? 0;
              let! (p, s) := hammer2_chain_rename_obref s p c tid HAMMER2_INSERT_SAMEPARENT obref in
              if key_next =? 0 then Done s else collapse_move loops s p i key_next
          end
      end
  end.

(** Whether the block is worth collapsing. *)
Definition may_collapse (px x : fnode) (count : Z) : bool :=
  let plc := co_live_count (n_core px) in
  let lc := co_live_count (n_core x) in
  let chain_count := u32 (n_bytes x / HAMMER2_BLOCKREF_BYTES) in
  negb (u32 count <? u32 (plc + lc - 1)) && negb (u32 (u32 (chain_count * 3) / 4) <? lc).

(** True when the block is gone; the loop has a turn for every blockref and one more. *)
Definition hammer2_chain_indirect_maintenance (s : fstate) (p i : nat) : outcome (bool * fstate) :=
  let! x := nd s i in
  let! s :=
    if is_initial x || co_counted (n_core x) then Done s
    else
      match node_block s x with
      | Some k => count_brefs s i (Some (blk_table k)) (n_bytes x / HAMMER2_BLOCKREF_BYTES)
      | None => Panic
      end in
  let! x := nd s i in
  let tid := br_modify_tid (n_bref x) in
  if (co_live_count (n_core x) =? 0) && bool_decide (n_tree x = []) then
    let! (_, s) := hammer2_chain_delete s (Some p) i tid HAMMER2_DELETE_PERMANENT in
    Done (true, s)
  else
    let! px := nd s p in
    let! (base, count) := base_of s px in
    let! s := if is_initial px || co_counted (n_core px) then Done s else count_brefs s p base count in
    let! px := nd s p in
    if negb (may_collapse px x count) then Done (false, s)
    else
      let! (error, s) := hammer2_chain_modify s p 0 0 0 in
      if negb (error =? 0) then Done (false, s)
      else
        let! (error, s) := hammer2_chain_modify s i tid 0 0 in
        if negb (error =? 0) then Done (false, s)
        else
          let! x := nd s i in
          let s := put i (set_n_bref (set_stats (br_leaf_count (n_bref x)) 0 0 (n_bref x)) x) s in
          let! (error, s) := hammer2_chain_delete s (Some p) i (br_modify_tid (n_bref x)) HAMMER2_DELETE_PERMANENT in
          assert! error =? 0;
          let! s := collapse_move (Z.to_nat (n_bytes x)) s p i 0 in
          Done (true, s).
End reshape.
