(* ===== verification/Flush.v ===== *)
(** The flush of a topology (hammer2_flush.c): [hammer2_flush_core] goes down to
    what is dirty and, on the way up, fixes the check code of every modified block
    and enters its new blockref in the block table of its parent.
    [hammer2_xop_inode_flush] runs it for an inode and for the two roots, and
    prepares the volume header. *)

From Stdlib Require Import ZArith Lia Bool.
From stdpp Require Import base numbers list option gmap.
From S2P Require Import Prelude Disk Subr Check BlockTable ChainFind ChainCore Topology Reshape.

Abbreviation HAMMER2_FLUSH_TOP := 1 (only parsing).
Abbreviation HAMMER2_FLUSH_ALL := 2 (only parsing).
Abbreviation HAMMER2_FLUSH_INODE_STOP := 4 (only parsing).
Abbreviation HAMMER2_FLUSH_FSSYNC := 8 (only parsing).
Abbreviation HAMMER2_FLUSH_DEPTH_LIMIT := 60 (only parsing).
Abbreviation HAMMER2_DIRHASH_VISIBLE := 9223372036854775808 (only parsing).

Section flush.
Context {ST : Storage}.

(** HAMMER2_CHAIN_FLUSH_MASK: MODIFIED, UPDATE, ONFLUSH, DESTROY. *)
Definition flush_mask (x : fnode) : bool := is_modified x || is_update x || is_onflush x || is_destroy x.

Definition mounted (x : fnode) : bool := match n_pmp x with Some pm => pm_mounted pm | None => false end.

(** Where the recursion stops: at the root of a mounted PFS, at an inode. *)
Definition stop_pfs (flags : Z) (x : fnode) : bool :=
  n_pfsboundary x && negb (tst flags HAMMER2_FLUSH_ALL) && negb (tst flags HAMMER2_FLUSH_TOP) && mounted x.
Definition stop_inode (flags : Z) (x : fnode) : bool :=
  (n_type x =? HAMMER2_BREF_TYPE_INODE) && tst flags HAMMER2_FLUSH_INODE_STOP && negb (tst flags HAMMER2_FLUSH_ALL)
  && negb (tst flags HAMMER2_FLUSH_TOP) && mounted x.
(** An inode whose parent must not take over the blockref yet. *)
Definition keep_parent (flags : Z) (x : fnode) : bool :=
  (n_type x =? HAMMER2_BREF_TYPE_INODE) && tst flags HAMMER2_FLUSH_INODE_STOP && negb (tst flags HAMMER2_FLUSH_FSSYNC)
  && negb (tst flags HAMMER2_FLUSH_ALL) && mounted x.

(** * The bottom-up part *)

(** The check code of a modified chain, by type. *)
Definition flush_contents (s : fstate) (i : nat) : outcome fstate :=
  let! x := nd s i in
  let vd := s_voldata s in
  let check (s : fstate) (x : fnode) : outcome fstate :=
    match node_block s x with
    | Some k => let! x := setcheck x k in Done (put i x s)
    | None => Panic
    end in
  match n_type x with
  | HAMMER2_BREF_TYPE_FREEMAP =>
      let! v := nd s (s_vchain s) in
      assert! is_modified v;
      assert! bool_decide (i = s_fchain s);
      Done (set_s_voldata (set_vd_mirror (u64 (vd_mirror vd + 1)) (set_vd_freemap_tid (br_mirror_tid (n_bref x)) vd)) s)
  | HAMMER2_BREF_TYPE_VOLUME =>
      let vd := if vd_mirror vd <? br_mirror_tid (n_bref x) then set_vd_mirror (br_mirror_tid (n_bref x)) vd else vd in
      assert! bool_decide (n_data x = None);
      Done (put i (set_volumesync true x) (set_s_volsync (Some vd) (set_s_voldata vd s)))
  | HAMMER2_BREF_TYPE_DATA => Done s
  | HAMMER2_BREF_TYPE_INDIRECT | HAMMER2_BREF_TYPE_FREEMAP_NODE | HAMMER2_BREF_TYPE_FREEMAP_LEAF => check s x
  | HAMMER2_BREF_TYPE_DIRENT => if n_bytes x =? 0 then Done s else check s x
  | HAMMER2_BREF_TYPE_INODE =>
      match node_block s x, n_data x with
      | Some k, Some off =>
          let s :=
            if tst (op_flags k) HAMMER2_OPFLAG_PFSROOT then
              match n_pmp x with Some pm => dev_put off (set_pfs_inum (pm_inode_tid pm) k) s | None => s end
            else s in
          check s x
      | _, _ => Panic
      end
  | _ => Panic
  end.

(** MODIFIED is disposed of. *)
Definition flush_modified (s : fstate) (i : nat) : outcome fstate :=
  let! x := nd s i in
  if is_modified x then
    assert! is_update x || bool_decide (n_parent x = None);
    flush_contents (put i (set_modified false x) s) i
  else Done s.

(** The block table of the parent takes over the blockref: the old entry goes when
    BLKMAPUPD is set, the new one comes. *)
Definition flush_blockmap (s : fstate) (p i : nat) : outcome fstate :=
  let! px := nd s p in
  let! (base, count) := update_base s px in
  match base with
  | None => Done s
  | Some _ =>
      let! x := nd s i in
      let l := n_link x in
      let! s :=
        if l_blkmapupd l then
          if l_blkmapped l then let! (_, s) := table_delete s p base count i in Done s
          else Done (put i (set_n_link (LFlags (l_deleted l) false false (l_hint l)) x) s)
        else Done s in
      let! x := nd s i in
      if l_blkmapped (n_link x) then Done s
      else
        let! px := nd s p in
        let! (base, count) := update_base s px in
        table_insert s p base count i (n_bref x)
  end.

Definition propagate_tid (s : fstate) (p i : nat) : outcome fstate :=
  let! px := nd s p in
  let! x := nd s i in
  let b := n_bref px in
  Done (if br_modify_tid b <? br_modify_tid (n_bref x)
        then put p (set_n_bref (set_tids (br_mirror_tid b) (br_modify_tid (n_bref x)) b) px) s else s).

(** UPDATE is set and there is a parent: (error, state). *)
Definition flush_update (s : fstate) (p i : nat) : outcome (Z * fstate) :=
  let! x := nd s i in
  let s := put i (set_update false x) s in
  let! px := nd s p in
  if is_destroy px then
    let! s := propagate_tid s p i in
    let! x := nd s i in
    let l := n_link x in
    Done (0, put i (set_n_link (LFlags (l_deleted l) false false (l_hint l)) x) s)
  else
    let! (gone, s) :=
      if n_type x =? HAMMER2_BREF_TYPE_INDIRECT then hammer2_chain_indirect_maintenance s p i else Done (false, s) in
    if gone : bool then Done (0, s)
    else
      let! (error, s) := hammer2_chain_modify s p 0 0 0 in
      if negb (error =? 0) then
        let! x := nd s i in
        Done (error, put i (set_update true x) s)
      else
        let! s := propagate_tid s p i in
        let! s := flush_blockmap s p i in
        Done (0, s).

(** From the relocking on: (info->error, retry, state). *)
Definition flush_up (flags : Z) (s : fstate) (parent : option nat) (i : nat) (error : Z) : outcome (Z * bool * fstate) :=
  let! s := match parent with Some p => hammer2_chain_lock s p RESOLVE_ALWAYS | None => Done s end in
  let! s := hammer2_chain_lock s i RESOLVE_MAYBE in
  let! x := nd s i in
  let! perror := match parent with Some p => let! px := nd s p in Done (n_error px) | None => Done 0 end in
  if negb (perror =? 0) || negb (n_error x =? 0) then Done (error .| n_error x .| perror, false, s)
  else if bool_decide (n_parent x <> parent) then
    assert! bool_decide (parent <> None); Done (error, true, s)
  else
    let! pdestroy := match parent with Some p => let! px := nd s p in Done (is_destroy px) | None => Done false end in
    let s := if pdestroy : bool then put i (set_destroy true x) s else s in
    let! s := flush_modified s i in
    let! x := nd s i in
    match parent with
    | None => Done (error, false, put i (set_update false x) s)
    | Some p =>
        if keep_parent flags x then Done (error, false, s)
        else if is_update x then
          let! (e, s) := flush_update s p i in
          Done (error .| e, false, s)
        else Done (error, false, s)
    end.

(** * The recursion *)

(** [RB_SCAN]: the next node is taken before the callback. *)
Fixpoint next_in (l : list nat) (i : nat) : option (option nat) :=
  match l with
  | [] => None
  | j :: l => if decide (j = i) then Some (head l) else next_in l i
  end.

Section recursion.
(** [hammer2_flush_core] for a child: (info->error, state). *)
Context (core : fstate -> nat -> nat -> Z -> outcome (Z * fstate)) (flags : Z).

(** [hammer2_flush_recurse]: one child of [p]. *)
Definition flush_recurse (s : fstate) (p i : nat) (error : Z) : outcome (Z * fstate) :=
  let! s := hammer2_chain_lock s i RESOLVE_MAYBE in
  let! x := nd s i in
  let! (error, s) :=
    if bool_decide (n_parent x <> Some p) then Done (error, s)
    else if negb (n_error x =? 0) then Done (error .| n_error x, s)
    else
      let! px := nd s p in
      let x := if is_destroy px then set_destroy true x else x in
      let s := put i x s in
      if tst (br_flags (n_bref px)) HAMMER2_BREF_FLAG_PFSROOT && negb (is_destroy x)
         && (n_type px =? HAMMER2_BREF_TYPE_INODE) && negb (tst flags HAMMER2_FLUSH_FSSYNC)
         && negb (tst (br_key (n_bref x)) HAMMER2_DIRHASH_VISIBLE) then
        let! s := if flush_mask x then hammer2_chain_setflush s p else Done s in
        Done (error, s)
      else if flush_mask x then core s p i error
      else Done (error, s) in
  let! s := hammer2_chain_lock s p RESOLVE_MAYBE in
  let! px := nd s p in
  Done (error .| n_error px, s).

(** The scan of the children of [p], from [i] on. *)
Fixpoint flush_scan (fuel : nat) (s : fstate) (p : nat) (next : option nat) (error : Z) : outcome (Z * fstate) :=
  match next with
  | None => Done (error, s)
  | Some i =>
      match fuel with
      | O => Panic
      | S fuel =>
          let! px := nd s p in
          match next_in (n_tree px) i with
          | None => Panic
          | Some next =>
              let! (error, s) := flush_recurse s p i error in
              flush_scan fuel s p next error
          end
      end
  end.
Definition scan_children (s : fstate) (p : nat) (error : Z) : outcome (Z * fstate) :=
  let! px := nd s p in
  flush_scan (size (s_nodes s)) s p (head (n_tree px)) error.

(** The downward part for a chain with ONFLUSH or DESTROY. *)
Definition flush_down (s : fstate) (i : nat) (error : Z) : outcome (Z * fstate) :=
  let! x := nd s i in
  let! (e, s) := scan_children (put i (set_onflush false x) s) i 0 in
  let! x := nd s i in
  let! (e, s) :=
    if is_onflush x then scan_children (put i (set_onflush false x) s) i e else Done (e, s) in
  let! s := if negb (e =? 0) then hammer2_chain_setflush s i else Done s in
  Done (e .| error, s).
End recursion.

(** [hammer2_flush_core]: (info->error, retry, state); [info] are the flags of the
    recursion.  [depth] counts down from the limit, at which it panics. *)
Fixpoint hammer2_flush_core (depth : nat) (info : Z) (s : fstate) (parent : option nat) (i : nat) (flags error : Z)
  : outcome (Z * bool * fstate) :=
  let! x := nd s i in
  if negb (flush_mask x) then Done (error, false, s)
  else
    assert! bool_decide (n_parent x = parent);
    if stop_pfs flags x then
      let! s :=
        if is_onflush x || is_destroy x || is_modified x then
          match parent with Some p => hammer2_chain_setflush s p | None => Panic end
        else Done s in
      Done (error, false, s)
    else if stop_inode flags x then Done (error, false, s)
    else
      match depth with
      | O => Panic
      | S depth =>
          let! (error, s) :=
            if is_onflush x || is_destroy x then
              flush_down (fun s p i e => let! (e, _, s) := hammer2_flush_core depth info s (Some p) i info e in Done (e, s))
                info s i error
            else Done (error, s) in
          let! x := nd s i in
          if bool_decide (n_parent x <> parent) then Done (error, false, s)
          else flush_up flags s parent i error
      end.

Definition flush_depth : nat := Z.to_nat HAMMER2_FLUSH_DEPTH_LIMIT.

(** [hammer2_flush]; a retry needs a concurrent change of the parent. *)
Fixpoint flush_loop (loops : nat) (info : Z) (s : fstate) (i : nat) (flags error : Z) : outcome (Z * fstate) :=
  match loops with
  | O => Panic
  | S loops =>
      let! x := nd s i in
      let! (error, retry, s) := hammer2_flush_core flush_depth info s (n_parent x) i flags error in
      if retry : bool then flush_loop loops info s i flags error else Done (error, s)
  end.
Definition hammer2_flush (s : fstate) (i : nat) (flags : Z) : outcome (Z * fstate) :=
  flush_loop 2 (flags .&~ HAMMER2_FLUSH_TOP) s i flags 0.

(** * The volume *)

Definition hammer2_voldata_modify (s : fstate) : outcome fstate :=
  let! v := nd s (s_vchain s) in
  if is_modified v then Done s
  else
    let b := n_bref v in
    Done (put (s_vchain s) (set_n_bref (set_tids (u64 (vd_mirror (s_voldata s) + 1)) (br_modify_tid b) b) (set_modified true v)) s).

(** The volume part of [hammer2_xop_inode_flush]: the super-root [iroot], the freemap,
    the volume root; when all went well the volume header goes to the device. *)
Definition flush_volume (s : fstate) (iroot : option nat) : outcome (Z * fstate) :=
  let! (e0, s) :=
    match iroot with
    | Some c =>
        let! s := hammer2_chain_lock s c RESOLVE_ALWAYS in
        hammer2_flush s c (HAMMER2_FLUSH_TOP .| HAMMER2_FLUSH_INODE_STOP .| HAMMER2_FLUSH_FSSYNC)
    | None => Done (0, s)
    end in
  let! f := nd s (s_fchain s) in
  let! (e1, s) :=
    if flush_mask f then let! s := hammer2_voldata_modify s in hammer2_flush s (s_fchain s) HAMMER2_FLUSH_TOP
    else Done (0, s) in
  let! v := nd s (s_vchain s) in
  let! (e2, s) := if flush_mask v then hammer2_flush s (s_vchain s) HAMMER2_FLUSH_TOP else Done (0, s) in
  let error := e0 .| e1 .| e2 in
  let! v := nd s (s_vchain s) in
  match s_volsync s with
  | Some vd =>
      if (error =? 0) && is_volumesync v
      then Done (error, set_s_header vd (put (s_vchain s) (set_volumesync false v) s)) else Done (error, s)
  | None => Done (error, s)
  end.

(** [chain] is the chain of the inode; the flags are HAMMER2_XOP_INODE_STOP, _FSSYNC,
    _VOLHDR.  The error of the inode's own flush is dropped. *)
Definition hammer2_xop_inode_flush (s : fstate) (chain iroot : option nat) (inode_stop fssync volhdr : bool)
  : outcome (Z * fstate) :=
  let xflags := HAMMER2_FLUSH_TOP .| (if inode_stop then HAMMER2_FLUSH_INODE_STOP else 0)
                .| (if fssync then HAMMER2_FLUSH_FSSYNC else 0) in
  let! (ispfsroot, s) :=
    match chain with
    | None => Done (false, s)
    | Some c =>
        let! s := hammer2_chain_lock s c RESOLVE_ALWAYS in
        let! x := nd s c in
        let! s :=
          if flush_mask x then
            let! s := match n_parent x with Some p => hammer2_chain_setflush s p | None => Done s end in
            let! (_, s) := hammer2_flush s c xflags in
            Done s
          else Done s in
        let! x := nd s c in
        Done (n_pfsboundary x, s)
    end in
  if volhdr && ispfsroot then flush_volume s iroot else Done (0, s).
End flush.
