(* ===== verification/ModifySpec.v ===== *)
(** What [hammer2_chain_setflush] and [hammer2_chain_modify] do: the functional
    behaviour that the callers rely on. *)

From Stdlib Require Import ZArith Lia Bool.
From stdpp Require Import base numbers list option gmap fin_maps.
From S2P Require Import Prelude Disk Subr Check BlockTable ChainFind ChainCore Topology FreemapStorage.

Section spec.
Context {ST : Storage}.

(** * [hammer2_chain_setflush] *)

(** Everything but the ONFLUSH flags is as before, and no flag is lost. *)
Definition onflush_only (s s' : fstate) : Prop :=
  s' = set_s_nodes (s_nodes s') s
  /\ (forall i, is_Some (s_nodes s' !! i) <-> is_Some (s_nodes s !! i))
  /\ forall i x, s_nodes s !! i = Some x -> s_nodes s' !! i = Some x \/ s_nodes s' !! i = Some (set_onflush true x).

Lemma onflush_only_refl s : onflush_only s s.
Proof. split; [destruct s; reflexivity|]. split; [reflexivity|]. auto. Qed.
Lemma onflush_only_put s i x : s_nodes s !! i = Some x -> onflush_only s (put i (set_onflush true x) s).
Proof.
  intros Hx. split; [reflexivity|]. split.
  - intros j. cbn. destruct (decide (i = j)) as [<-|Hne]; [rewrite lookup_insert_eq, Hx; split; eauto|rewrite lookup_insert_ne by exact Hne; reflexivity].
  - intros j y Hy. cbn. destruct (decide (i = j)) as [<-|Hne]; [rewrite lookup_insert_eq; right; congruence|rewrite lookup_insert_ne by exact Hne; auto].
Qed.
Lemma onflush_only_trans a b c : onflush_only a b -> onflush_only b c -> onflush_only a c.
Proof.
  intros (E1 & D1 & F1) (E2 & D2 & F2). split; [rewrite E2, E1; reflexivity|]. split; [intros i; rewrite D2, D1; reflexivity|].
  intros i x Hx. destruct (F1 i x Hx) as [Hy|Hy]; destruct (F2 i _ Hy) as [Hz|Hz]; auto.
Qed.

(** Parents are in memory. *)
Definition parents_ok (s : fstate) : Prop := forall i x p, s_nodes s !! i = Some x -> n_parent x = Some p -> is_Some (s_nodes s !! p).
(** The nodes that a flag would still change. *)
Definition unflagged (s : fstate) : gmap nat fnode := filter (fun '(_, x) => is_onflush x = false) (s_nodes s).

Lemma unflagged_put s i x : s_nodes s !! i = Some x -> is_onflush x = false ->
  S (size (unflagged (put i (set_onflush true x) s))) = size (unflagged s).
Proof.
  intros Hx Ho. unfold unflagged. cbn [put set_s_nodes s_nodes].
  rewrite map_filter_insert_False by (cbn; discriminate). rewrite map_filter_delete.
  rewrite map_size_delete. rewrite (map_lookup_filter_Some_2 _ (s_nodes s) i x Hx) by exact Ho. cbn.
  assert (size (filter (fun '(_, y) => is_onflush y = false) (s_nodes s)) <> 0%nat).
  { intros E. apply map_size_empty_inv in E. apply (map_filter_empty_not_lookup _ _ i x E); [exact Ho|exact Hx]. }
  lia.
Qed.

Lemma parents_ok_put s i x : parents_ok s -> s_nodes s !! i = Some x -> parents_ok (put i (set_onflush true x) s).
Proof.
  intros H Hx j y p Hy Hp. cbn in *. assert (Hs : is_Some (s_nodes s !! p)).
  { destruct (decide (i = j)) as [<-|Hne]; [rewrite lookup_insert_eq in Hy; injection Hy as <-; exact (H i x p Hx Hp)|].
    rewrite lookup_insert_ne in Hy by exact Hne. exact (H j y p Hy Hp). }
  destruct (decide (i = p)) as [<-|Hne]; [rewrite lookup_insert_eq; eauto|rewrite lookup_insert_ne by exact Hne; exact Hs].
Qed.

(** A flag goes on to the parent, except from an inode. *)
Definition passes_on (s : fstate) (i : nat) : Prop :=
  forall x p, s_nodes s !! i = Some x -> is_onflush x = true -> n_type x <> HAMMER2_BREF_TYPE_INODE -> n_parent x = Some p ->
    exists y, s_nodes s !! p = Some y /\ is_onflush y = true.

Lemma passes_on_mono s s' j : onflush_only s s' -> passes_on s j ->
  (forall x, s_nodes s !! j = Some x -> is_onflush x = true) -> passes_on s' j.
Proof.
  intros (_ & D & G) H Hj x p Hx Ho Ht Hp. destruct (proj1 (D j) (ex_intro _ x Hx)) as [x0 Hx0].
  assert (E : n_type x0 = n_type x /\ n_parent x0 = n_parent x) by (destruct (G j x0 Hx0) as [E|E]; rewrite Hx in E; injection E as ->; auto).
  destruct E as [E1 E2]. destruct (H x0 p Hx0 (Hj x0 Hx0)) as (y & Hy & Hoy); [congruence..|].
  destruct (G p y Hy) as [E|E]; eauto.
Qed.

Lemma setflush_loop_spec fuel : forall s i, parents_ok s -> is_Some (s_nodes s !! i) -> (size (unflagged s) <= fuel)%nat ->
  exists s', setflush_loop fuel s i = Done s' /\ onflush_only s s'
    /\ (exists y, s_nodes s' !! i = Some y /\ is_onflush y = true)
    /\ forall E : nat -> Prop, (forall j, ~ E j -> passes_on s j) -> forall j, ~ E j -> passes_on s' j.
Proof.
  induction fuel as [|fuel IH]; intros s i Hp [x Hx] Hf; cbn [setflush_loop];
    (replace (nd s i) with (Done x) by (unfold nd; rewrite Hx; reflexivity)); cbn [obind];
    (destruct (is_onflush x) eqn:Ho; [exists s; split_and!; eauto using onflush_only_refl|]).
  - pose proof (unflagged_put s i x Hx Ho). lia.
  - set (t := put i (set_onflush true x) s). pose proof (unflagged_put s i x Hx Ho) as Hsz. fold t in Hsz.
    pose proof (onflush_only_put s i x Hx) as Ht. fold t in Ht. pose proof (parents_ok_put s i x Hp Hx) as Hpt. fold t in Hpt.
    assert (Hti : s_nodes t !! i = Some (set_onflush true x)) by apply lookup_insert_eq.
    assert (Hne : forall j, j <> i -> passes_on s j -> passes_on t j).
    { intros j Hj H y p Hy Hoy Hty Hpy. cbn in Hy. rewrite lookup_insert_ne in Hy by congruence.
      destruct (H y p Hy Hoy Hty Hpy) as (z & Hz & Hoz). destruct (proj2 (proj2 Ht) p z Hz) as [E|E]; eauto. }
    destruct (Z.eqb_spec (n_type x) HAMMER2_BREF_TYPE_INODE) as [Hino|Hino].
    { exists t. split_and!; eauto. intros E H j Hj. destruct (decide (j = i)) as [->|Hji]; [|auto].
      intros y p Hy _ Hty. rewrite Hti in Hy. injection Hy as <-. contradiction. }
    destruct (n_parent x) as [p|] eqn:Epar.
    2:{ exists t. split_and!; eauto. intros E H j Hj. destruct (decide (j = i)) as [->|Hji]; [|auto].
      intros y p Hy _ _ Hpy. rewrite Hti in Hy. injection Hy as <-. cbn in Hpy. congruence. }
    destruct (IH t p) as (s' & Hs' & Hto & (y & Hy & Hoy) & Hcl); [exact Hpt|apply (Hpt i _ p Hti); exact Epar|lia|].
    exists s'. split; [exact Hs'|]. split; [exact (onflush_only_trans _ _ _ Ht Hto)|].
    assert (Hi : s_nodes s' !! i = Some (set_onflush true x)) by (destruct (proj2 (proj2 Hto) i _ Hti) as [E|E]; exact E).
    split; [eauto|]. intros E H j Hj. destruct (decide (j = i)) as [->|Hji].
    + intros z q Hz _ _ Hq. rewrite Hi in Hz. injection Hz as <-. cbn in Hq. replace q with p by congruence. eauto.
    + apply (Hcl (fun k => E k \/ k = i)); [|intuition]. intros k Hk. apply Hne; [intuition|]. apply H. intuition.
Qed.

(** [hammer2_chain_setflush] makes a chain reachable for the flush.  It always
    returns, in at most as many turns as there are nodes without ONFLUSH; it changes
    nothing but ONFLUSH flags and clears none; the chain is flagged; and if before
    every flagged chain that is not an inode had a flagged parent, that is so
    afterwards. *)
Theorem setflush_reaches s i : parents_ok s -> is_Some (s_nodes s !! i) ->
  exists s', hammer2_chain_setflush s i = Done s' /\ onflush_only s s'
    /\ (exists y, s_nodes s' !! i = Some y /\ is_onflush y = true)
    /\ ((forall j, passes_on s j) -> forall j, passes_on s' j).
Proof.
  intros Hp Hi. assert (Hsz : (size (unflagged s) <= size (s_nodes s))%nat) by (unfold unflagged; apply map_size_filter).
  destruct (setflush_loop_spec _ s i Hp Hi Hsz) as (s' & A & B & C & D). exists s'. split_and!; auto.
  intros H j. apply (D (fun _ => False)); auto.
Qed.

Lemma setflush_total s i : parents_ok s -> is_Some (s_nodes s !! i) ->
  exists s', hammer2_chain_setflush s i = Done s' /\ onflush_only s s' /\ exists y, s_nodes s' !! i = Some y /\ is_onflush y = true.
Proof.
  intros Hp Hi. assert (Hsz : (size (unflagged s) <= size (s_nodes s))%nat) by (unfold unflagged; apply map_size_filter).
  destruct (setflush_loop_spec _ s i Hp Hi Hsz) as (s' & A & B & C & _). eauto.
Qed.

(** * [hammer2_chain_modify] *)

(** A chain whose data is a buffer of its own. *)
Definition buffered (x : fnode) : Prop :=
  n_type x ∈ [HAMMER2_BREF_TYPE_DIRENT; HAMMER2_BREF_TYPE_INODE; HAMMER2_BREF_TYPE_FREEMAP_LEAF; HAMMER2_BREF_TYPE_DATA;
              HAMMER2_BREF_TYPE_INDIRECT; HAMMER2_BREF_TYPE_FREEMAP_NODE] /\ n_bytes x <> 0.

Lemma buffered_type x : buffered x -> is_root x = false.
Proof.
  intros [H _]. unfold is_root. repeat (apply elem_of_cons in H as [->|H]; [reflexivity|]). apply elem_of_nil in H as [].
Qed.

(** The buffer of a loaded chain that moved from [old] to [n_phys x]. *)
Lemma modify_data_copy s x old : buffered x -> is_initial x = false -> n_data x = Some old -> read_error (n_phys x) = false ->
  modify_data s x 0 = Done (set_n_data (Some (n_phys x)) (set_n_error 0 (set_initial false x)),
                            if old =? n_phys x then s else dev_put (n_phys x) (dev_get s old) s).
Proof.
  intros [Hty Hb] Hi Hd Hr. unfold modify_data. cbv zeta.
  change (n_type (set_initial false x)) with (n_type x). change (n_bytes (set_initial false x)) with (n_bytes x).
  change (n_phys (set_initial false x)) with (n_phys x). change (n_data (set_n_error 0 (set_initial false x))) with (n_data x).
  rewrite Hi, Hd, Hr. cbn [andb negb orb]. replace (n_bytes x =? 0) with false by lia. rewrite andb_false_r. cbn [obind].
  replace (if negb (old =? n_phys x) && (0 =? 0) then dev_put (n_phys x) (dev_get s old) s else s)
    with (if old =? n_phys x then s else dev_put (n_phys x) (dev_get s old) s) by (destruct (old =? n_phys x); reflexivity).
  repeat (apply elem_of_cons in Hty as [->|Hty]; [reflexivity|]). apply elem_of_nil in Hty as [].
Qed.

(** Run [hammer2_chain_modify] up to the result of the allocator. *)
Ltac enter_modify s i x :=
  unfold hammer2_chain_modify;
  let Hnd := fresh "Hnd" in
  assert (Hnd : nd s i = Done x) by (unfold nd; match goal with H : s_nodes s !! i = Some x |- _ => rewrite H; reflexivity end);
  rewrite Hnd; cbn [obind]; change (tst 0 HAMMER2_MODIFY_OPTDATA) with false; cbn [negb]; rewrite orb_true_r; cbn [kassert obind];
  rewrite (bool_decide_eq_false_2 (n_data x = None)) by congruence; cbn [andb obind]; rewrite Hnd; cbn [obind];
  match goal with H1 : is_modified x = false, H2 : overwrite_allowed s x = false |- _ => rewrite H1, H2 end; cbn [negb];
  change (is_root (set_update true (set_modified true x))) with (is_root x); change (n_bytes (set_update true (set_modified true x))) with (n_bytes x);
  match goal with H1 : is_root x = false, H2 : buffered x |- _ =>
    rewrite H1, orb_true_r; replace (n_bytes x =? 0) with false by (destruct H2; lia) end;
  cbn [negb andb]; unfold modify_alloc; cbn [Z.eqb negb]; change (n_bref (set_update true (set_modified true x))) with (n_bref x);
  change (n_bytes (set_update true (set_modified true x))) with (n_bytes x); clear Hnd.

(** The node that comes out: MODIFIED and UPDATE, at the block [off], for the
    transaction [mtid]; an entry in the parent's table becomes stale. *)
Definition moved (s : fstate) (mtid off : Z) (x y : fnode) : Prop :=
  is_modified y = true /\ is_update y = true /\ is_initial y = false /\ is_dedupable y = false /\ n_error y = 0
  /\ br_data_off (n_bref y) = off /\ n_data y = Some (phys off) /\ n_parent y = n_parent x /\ n_tree y = n_tree x
  /\ br_key (n_bref y) = br_key (n_bref x) /\ br_mirror_tid (n_bref y) = u64 (vd_mirror (s_voldata s) + 1)
  /\ br_modify_tid (n_bref y) = (if mtid =? 0 then br_modify_tid (n_bref x) else mtid)
  /\ l_blkmapped (n_link y) = l_blkmapped (n_link x) /\ (l_blkmapped (n_link x) = true -> l_blkmapupd (n_link y) = true).

Definition loaded_clean (s : fstate) (i : nat) (x : fnode) : Prop :=
  s_nodes s !! i = Some x /\ buffered x /\ n_phys x <> 0 /\ n_data x = Some (n_phys x)
  /\ is_modified x = false /\ is_initial x = false.

(** Copy on write, functionally: [hammer2_chain_modify] on a clean chain that may
    not be overwritten moves it.  When the allocator gives [off], the call succeeds;
    the chain is at [off] with MODIFIED and UPDATE set and the new transaction ids;
    the new block has the contents of the old one; no other block is written, so the
    old one is as it was; no other chain changes, except that ancestors get ONFLUSH,
    beginning with the parent. *)
Theorem modify_copies s i x mtid off a :
  loaded_clean s i x -> overwrite_allowed s x = false -> parents_ok s -> (n_parent x <> Some i) ->
  chain_freemap_alloc (s_alloc s) (n_bref x) (n_bytes x) = Done (0, off, a) -> read_error (phys off) = false ->
  exists s' y, hammer2_chain_modify s i mtid 0 0 = Done (0, s')
    /\ (s_nodes s' !! i = Some y \/ s_nodes s' !! i = Some (set_onflush true y)) /\ moved s mtid off x y
    /\ s_alloc s' = a
    /\ s_dev s' = (if n_phys x =? phys off then s_dev s else <[phys off := dev_get s (n_phys x)]> (s_dev s))
    /\ (forall j z, j <> i -> s_nodes s !! j = Some z -> s_nodes s' !! j = Some z \/ s_nodes s' !! j = Some (set_onflush true z))
    /\ (forall p, n_parent x = Some p -> exists z, s_nodes s' !! p = Some z /\ is_onflush z = true).
Proof.
  intros (Hx & Hb & Hp & Hd & Hm & Hini) Hov Hpar Hself Ha Hre. pose proof (buffered_type x Hb) as Hroot.
  enter_modify s i x.
  rewrite Ha. cbn [obind Z.eqb negb].
  set (z := set_dedupable false _). 
  match goal with |- context [if l_blkmapped (n_link ?t) then _ else _] => set (z1 := t) end.
  set (z2 := if l_blkmapped (n_link z1) then _ else z1). cbn [andb]. rewrite andb_false_r.
  set (y := set_n_data (Some (phys off)) (set_n_error 0 (set_initial false z2))).
  assert (E2 : buffered z2 /\ is_initial z2 = false /\ n_data z2 = Some (n_phys x) /\ n_phys z2 = phys off /\ n_parent z2 = n_parent x
               /\ moved s mtid off x y).
  { subst y z2. destruct (l_blkmapped (n_link z1)) eqn:El; (split; [exact Hb|]); (split; [exact Hini|]); (split; [exact Hd|]);
      (split; [reflexivity|]); (split; [reflexivity|]); unfold moved; split_and!; try reflexivity; try exact Hini;
      change (l_blkmapped (n_link x)) with (l_blkmapped (n_link z1)); first [symmetry; exact El|intros _; reflexivity|congruence]. }
  destruct E2 as (Eb & Ei & Ed & Ep & Epar & Hmoved).
  rewrite (modify_data_copy _ z2 (n_phys x) Eb Ei Ed) by (rewrite Ep; exact Hre). rewrite Ep. cbn [andb obind].
  fold y. change (n_parent y) with (n_parent z2). rewrite Epar. change (n_error y) with 0. clearbody y. clear z z1 z2 Eb Ei Ed Ep Epar.
  set (t := put i y _). assert (Ht : s_nodes t = <[i := y]> (s_nodes s)) by (subst t; destruct (n_phys x =? phys off); reflexivity).
  assert (Hdev : s_alloc t = a /\ s_dev t = (if n_phys x =? phys off then s_dev s else <[phys off := dev_get s (n_phys x)]> (s_dev s))).
  { subst t. destruct (n_phys x =? phys off); split; reflexivity. }
  destruct Hdev as [Hal Hdev]. clearbody t.
  assert (Hlk : forall j z, j <> i -> s_nodes s !! j = Some z -> s_nodes t !! j = Some z) by (intros; rewrite Ht, lookup_insert_ne by congruence; assumption).
  assert (Hy : s_nodes t !! i = Some y) by (rewrite Ht; apply lookup_insert_eq).
  destruct (n_parent x) as [p|] eqn:Epx.
  - assert (Hpt : parents_ok t).
    { intros j z q Hz Hq. assert (Hs : is_Some (s_nodes s !! q)).
      { destruct (decide (j = i)) as [->|Hj]; [|rewrite Ht, lookup_insert_ne in Hz by congruence; exact (Hpar j z q Hz Hq)].
        rewrite Hy in Hz. injection Hz as <-. destruct Hmoved as (_ & _ & _ & _ & _ & _ & _ & E & _). rewrite Hq in E. exact (Hpar i x q Hx (eq_sym E)). }
      rewrite Ht. destruct (decide (i = q)) as [<-|]; [rewrite lookup_insert_eq; eauto|rewrite lookup_insert_ne by assumption; exact Hs]. }
    destruct (Hpar i x p Hx Epx) as [px Hpx]. assert (Hip : p <> i) by congruence.
    destruct (setflush_total t p Hpt (ex_intro _ px (Hlk p px Hip Hpx))) as (s' & -> & (Eo & _ & Hsame) & Hfl).
    exists s', y. cbn [obind]. rewrite Eo. split_and!; try assumption.
    + reflexivity.
    + exact (Hsame i y Hy).
    + intros j z Hj Hz. exact (Hsame j z (Hlk j z Hj Hz)).
    + intros q [= <-]. exact Hfl.
  - exists t, y. cbn [obind]. split_and!; auto. discriminate.
Qed.

(** When the allocator fails, outside of emergency mode, the call reports the
    error and the chain is as clean as before: no block is written, no flag that
    would make a flush take it up is left behind. *)
Theorem modify_out_of_space s i x mtid e off a :
  loaded_clean s i x -> overwrite_allowed s x = false -> s_emerg s = false ->
  chain_freemap_alloc (s_alloc s) (n_bref x) (n_bytes x) = Done (e, off, a) -> e <> 0 ->
  hammer2_chain_modify s i mtid 0 0 =
    Done (e, put i (set_dedupable false x) (set_s_alloc a s)).
Proof.
  intros (Hx & Hb & Hp & Hd & Hm & Hini) Hov Hem Ha He. pose proof (buffered_type x Hb) as Hroot.
  enter_modify s i x.
  rewrite Ha. cbn [obind]. replace (e =? 0) with false by lia.
  change (s_emerg (set_s_alloc a s)) with (s_emerg s). rewrite Hem. cbn [obind]. replace (e =? 0) with false by lia. cbn [negb].
  do 2 f_equal. clear - Hm. destruct x as [? ? g]. destruct g as [m u]. unfold is_modified, is_update in *. cbn in *. subst m. destruct u; reflexivity.
Qed.
End spec.

(** * Witnesses *)

Section witness.
#[local] Existing Instance bump.

Lemma demo_parents : parents_ok demo.
Proof.
  intros i x p Hx Hp. cbn in Hx. apply lookup_insert_Some in Hx as [[_ <-]|[_ Hx]]; [discriminate|].
  apply lookup_insert_Some in Hx as [[_ <-]|[_ Hx]]; [discriminate|]. apply lookup_singleton_Some in Hx as [_ <-]. injection Hp as <-. eexists. reflexivity.
Qed.

Lemma setflush_reaches_witness :
  exists s', hammer2_chain_setflush demo 2 = Done s' /\ onflush_only demo s' /\ exists y, s_nodes s' !! 2%nat = Some y /\ is_onflush y = true.
Proof.
  destruct (setflush_reaches demo 2 demo_parents (ex_intro _ _ eq_refl)) as (s' & A & B & C & _). exists s'. auto.
Defined.

(** The inode, loaded. *)
Definition demo_loaded_inode : fnode := set_n_data (Some 4259840) (demo_node demo_inode 0 (Some 0%nat) [] true).
Definition demo_loaded : fstate := put 2 demo_loaded_inode demo.

Lemma demo_loaded_ok : loaded_clean demo_loaded 2 demo_loaded_inode.
Proof. repeat split; discriminate || (cbn; set_solver). Qed.
Lemma demo_loaded_parents : parents_ok demo_loaded.
Proof.
  intros i x p Hx Hp. cbn in Hx. apply lookup_insert_Some in Hx as [[_ <-]|[_ Hx]]; [injection Hp as <-; eexists; reflexivity|].
  destruct (demo_parents i x p Hx Hp) as [y Hy]. unfold demo_loaded. cbn. destruct (decide (2%nat = p)) as [<-|Hne]; [eexists; apply lookup_insert_eq|].
  rewrite lookup_insert_ne by exact Hne. eauto.
Qed.

Lemma modify_copies_witness :
  exists s' y, hammer2_chain_modify demo_loaded 2 9 0 0 = Done (0, s') /\ moved demo_loaded 9 4325386 demo_loaded_inode y
    /\ s_dev s' = <[4325376 := dev_get demo_loaded 4259840]> (s_dev demo_loaded).
Proof.
  destruct (modify_copies demo_loaded 2 demo_loaded_inode 9 4325386 2%nat demo_loaded_ok eq_refl demo_loaded_parents ltac:(discriminate) eq_refl eq_refl)
    as (s' & y & A & _ & B & _ & C & _). exists s', y. auto.
Defined.
End witness.

(** The same volume with an allocator that is full. *)
Section full.
Definition full : Storage := {|
  ba_state := nat; ba_alloc a _ _ := (HAMMER2_ERROR_ENOSPC, 0, a); ba_recover a _ := a; ba_in_use _ _ := True; read_error _ := false
|}.
Definition demo_full : fstate (ST := full) :=
  @FState full (s_nodes demo_loaded) 3 (s_dev demo_loaded) [] 1%nat demo_vol None demo_vol false 0 1.

Lemma modify_out_of_space_witness :
  @hammer2_chain_modify full demo_full 2 9 0 0
  = Done (HAMMER2_ERROR_ENOSPC, put (ST := full) 2 (set_dedupable false demo_loaded_inode) (set_s_alloc (ST := full) 1%nat demo_full)).
Proof.
  apply (@modify_out_of_space full demo_full 2 demo_loaded_inode 9 HAMMER2_ERROR_ENOSPC 0 1%nat); try reflexivity; [|discriminate].
  repeat split; discriminate || (cbn; set_solver).
Defined.
End full.
