(* ===== verification/CowProof.v ===== *)
(** Copy on write: the lemmas.  An operation on the topology writes blocks of
    modified nodes and blocks that were free, and no others. *)

From Stdlib Require Import ZArith Lia Bool.
From stdpp Require Import base numbers list option gmap.
From S2P Require Import Prelude Disk Subr Freemap FreemapMaint Check BlockTable ChainFind ChainCore Topology Reshape Flush.

(** * Block tables: the entries that the table routines leave *)

(** The fields of a blockref that say where its block is and how it is checked. *)
Definition same_place (a b : blockref) : Prop :=
  br_type a = br_type b /\ br_methods a = br_methods b /\ br_data_off a = br_data_off b.
#[export] Instance same_place_equiv : Equivalence same_place.
Proof.
  unfold same_place. split.
  - intros a. auto.
  - intros a b (-> & -> & ->). auto.
  - intros a b c (-> & -> & ->) H. exact H.
Qed.

Lemma base_find_bref co base count kn k i kn' co' : hammer2_base_find co base count kn k = Done (i, kn', co') -> co_bref co' = co_bref co.
Proof. unfold hammer2_base_find. intros H. repeat (inv_done || case_match); reflexivity. Qed.

Lemma set_stats_place lc dc ic b : same_place (set_stats lc dc ic b) b.
Proof. repeat split. Qed.
Lemma insert_stats_place parent elm : same_place (insert_stats parent elm) parent.
Proof. unfold insert_stats. repeat case_match; repeat split. Qed.
Lemma delete_stats_place parent scan b hint : delete_stats parent scan = (b, hint) -> same_place b parent.
Proof. unfold delete_stats. intros H. repeat (case_match || simplify_eq); repeat split. Qed.

Section entries.
Context (P : blockref -> Prop) (Hzero : P bref_zero) (Hinh : P inhabitant).

Lemma aget_P (bs : list blockref) i : Forall P bs -> P (aget bs i).
Proof.
  intros H. unfold aget. destruct (bs !! Z.to_nat i) as [b|] eqn:E.
  - rewrite (list_lookup_total_correct _ _ _ E). exact (Forall_lookup_1 _ _ _ _ H E).
  - rewrite list_lookup_total_alt, E. exact Hinh.
Qed.
Lemma aset_P (bs : list blockref) i b : Forall P bs -> P b -> Forall P (aset bs i b).
Proof. intros H Hb. unfold aset. apply Forall_insert; assumption. Qed.
Lemma memmove_P bs d s n : Forall P bs -> Forall P (memmove bs d s n).
Proof. intros H. unfold memmove. rewrite !Forall_app. split_and!; [|apply Forall_take|]; auto using Forall_take, Forall_drop. Qed.

Lemma insert_shift_P elm count (He : P elm) fuel : forall bs i j k lz bs' lz', Forall P bs ->
  insert_shift fuel bs elm count i j k lz = Done (bs', lz') -> Forall P bs'.
Proof.
  induction fuel as [|fuel IH]; intros bs i j k lz bs' lz' Hb H; [discriminate|]. cbn [insert_shift] in H.
  repeat (inv_done || case_match); try discriminate; eauto using aset_P, memmove_P.
Qed.

Lemma base_insert_P co bs count chain elm co' bs' chain' : Forall P bs -> P elm ->
  hammer2_base_insert co (Some bs) count chain elm = Done (co', bs', chain') ->
  Forall P bs' /\ same_place (co_bref co') (co_bref co) /\ (forall c, chain = Some c -> exists c', chain' = Some c' /\ ch_bref c' = ch_bref c).
Proof.
  intros Hb He. unfold hammer2_base_insert. intros H.
  assert (Hc : forall c, chain = Some c -> exists c', option_map (fun c => Chain (ch_bref c) (ch_deleted c) true (ch_blkmapupd c) (ch_hint_leaf c)) chain = Some c' /\ ch_bref c' = ch_bref c).
  { intros c ->. eexists. split; reflexivity. }
  repeat (inv_done || case_match); try discriminate;
    match goal with Hf : hammer2_base_find _ _ _ _ _ = _ |- _ => apply base_find_bref in Hf; rename Hf into Ef end;
    (split; [|split; [cbn; rewrite Ef; apply insert_stats_place|exact Hc]]).
  - apply aset_P; assumption.
  - eapply insert_shift_P; eassumption.
Qed.

Lemma base_delete_P co bs count chain co' bs' chain' scan : Forall P bs ->
  hammer2_base_delete co (Some bs) count chain = Done (co', bs', chain', scan) ->
  Forall P bs' /\ P scan /\ same_place (co_bref co') (co_bref co) /\ ch_bref chain' = ch_bref chain.
Proof.
  intros Hb. unfold hammer2_base_delete. intros H.
  repeat (inv_done || case_match); try discriminate;
    match goal with Hf : hammer2_base_find _ _ _ _ _ = _ |- _ => apply base_find_bref in Hf; rename Hf into Ef end;
    match goal with Hd : delete_stats _ _ = _ |- _ => pose proof (delete_stats_place _ _ _ _ Hd) as Hp end;
    (split_and!; [apply aset_P; assumption|apply aget_P; assumption|rewrite <- Ef; exact Hp|reflexivity]).
Qed.
End entries.

(** * The invariant *)

(** A device after some writes, the last one first. *)
Definition replay (l : list (Z * block)) (dev : gmap Z block) : gmap Z block := foldr (fun w => <[w.1 := w.2]>) dev l.

(** The blocks to protect, and the device they are on; the reserved segments, where the
    blocks of the freemap rotate, are not among them. *)
Class Protected := {
  F : Z -> Prop;
  dev0 : gmap Z block;
  F_zero : ~ F 0;
  F_area : forall o, F o -> ~ in_reserve o
}.

(** ** The allocator *)

Section allocator.
Context {ST : Storage} {SL : StorageLaws ST}.

Lemma freemap_alloc_keeps a b n e off a' : chain_freemap_alloc a b n = Done (e, off, a') ->
  forall o, ba_in_use a o -> ba_in_use a' o.
Proof.
  unfold chain_freemap_alloc. intros H. destruct (Z.eqb_spec n 0) as [|Hn]; [run; auto|]. destruct (freemap_bref b) eqn:Hb; [run; auto|]. injection H as H.
  destruct (decide (e = 0)) as [->|He]; [exact (proj2 (proj2 (proj2 (ba_alloc_fresh _ _ _ _ _ H Hn Hb))))|exact (ba_alloc_fail _ _ _ _ _ _ H He)].
Qed.
(** A block that was not in use, or one of the reserved segment for the freemap. *)
Lemma freemap_alloc_place a b n off a' : chain_freemap_alloc a b n = Done (0, off, a') -> n <> 0 ->
  ~ ba_in_use a (phys off) /\ ba_in_use a' (phys off) /\ phys off <> 0 \/ freemap_bref b = true /\ in_reserve (phys off).
Proof.
  unfold chain_freemap_alloc. intros H Hn. replace (n =? 0) with false in H by lia. destruct (freemap_bref b) eqn:Hb.
  - run. right. split; [reflexivity|]. eapply reserve_in_segment. eassumption.
  - injection H as H. left. destruct (ba_alloc_fresh _ _ _ _ _ H Hn Hb) as (A & B & C & _). auto.
Qed.
Lemma freemap_alloc_data a b n off a' : chain_freemap_alloc a b n = Done (0, off, a') -> n <> 0 -> freemap_bref b = false ->
  ~ ba_in_use a (phys off) /\ ba_in_use a' (phys off) /\ phys off <> 0.
Proof. intros H Hn Hb. destruct (freemap_alloc_place _ _ _ _ _ H Hn) as [?|[E _]]; [assumption|congruence]. Qed.
End allocator.

Section safe.
Context {ST : Storage} {PR : Protected}.

(** Contents without a check code may be overwritten in place: such a block is not
    protected. *)
Definition in_place (b : blockref) : Prop :=
  (br_type b = HAMMER2_BREF_TYPE_DATA \/ br_type b = HAMMER2_BREF_TYPE_DIRENT)
  /\ HAMMER2_DEC_CHECK (br_methods b) = HAMMER2_CHECK_NONE.
Definition bref_safe (b : blockref) : Prop := in_place b \/ chain_bytes b = 0 -> ~ F (phys (br_data_off b)).

Lemma bref_safe_place a b : same_place a b -> bref_safe b -> bref_safe a.
Proof. intros (A & B & C). unfold bref_safe, in_place, chain_bytes. rewrite A, B, C. auto. Qed.
Lemma bref_safe_phys b : ~ F (phys (br_data_off b)) -> bref_safe b.
Proof. intros H _. exact H. Qed.
Lemma bref_safe_zero : bref_safe bref_zero.
Proof. apply bref_safe_phys, F_zero. Qed.
Lemma bref_safe_inhabitant : bref_safe inhabitant.
Proof. apply bref_safe_phys, F_zero. Qed.

(** A node that may be written is not protected; [data] points to its block. *)
Record node_safe (x : fnode) : Prop := {
  ns_data : forall o, n_data x = Some o -> o = n_phys x;
  ns_open : is_modified x = true \/ is_initial x = true -> ~ F (n_phys x);
  ns_bref : bref_safe (n_bref x);
  ns_bytes : is_root x = true \/ n_bytes x = 0 -> ~ F (n_phys x)
}.

Lemma n_phys_place x y : same_place (n_bref y) (n_bref x) -> n_phys y = n_phys x.
Proof. intros (_ & _ & E). unfold n_phys. rewrite E. reflexivity. Qed.
Lemma is_root_place x y : same_place (n_bref y) (n_bref x) -> is_root y = is_root x.
Proof. intros (E & _ & _). unfold is_root, n_type. rewrite E. reflexivity. Qed.

Lemma node_safe_same x y : node_safe x -> same_place (n_bref y) (n_bref x) -> n_bytes y = n_bytes x ->
  (n_data y = n_data x \/ n_data y = None) ->
  (is_modified y = true -> is_modified x = true \/ is_initial x = true) ->
  (is_initial y = true -> is_modified x = true \/ is_initial x = true) -> node_safe y.
Proof.
  intros [A B C D] Hp Hb Hd Hm Hi. pose proof (n_phys_place _ _ Hp) as Ep. pose proof (is_root_place _ _ Hp) as Er.
  constructor.
  - intros o Ho. rewrite Ep. apply A. destruct Hd; congruence.
  - rewrite Ep. intros [H|H]; auto.
  - exact (bref_safe_place _ _ Hp C).
  - rewrite Hb, Er, Ep. exact D.
Qed.

Record inv (s : fstate) : Prop := {
  iv_nodes : forall i x, s_nodes s !! i = Some x -> node_safe x;
  iv_next : forall i, (s_next s <= i)%nat -> s_nodes s !! i = None;
  iv_use : forall o, F o -> ba_in_use (s_alloc s) o;
  iv_emerg : s_emerg s = false;
  iv_tables : forall o k, s_dev s !! o = Some k -> Forall bref_safe (blk_table k);
  iv_roots : Forall bref_safe (vd_sroot (s_voldata s)) /\ Forall bref_safe (vd_fmap (s_voldata s));
  iv_log : Forall (fun w => ~ F w.1) (s_log s);
  iv_dev : s_dev s = replay (s_log s) dev0;
  iv_vol : exists v, s_nodes s !! s_vchain s = Some v /\ is_root v = true
}.

(** What a step keeps of a node: what the block is for and, on every node but [X],
    its size and MODIFIED. *)
Definition same_kind (a b : blockref) : Prop := br_type a = br_type b /\ br_methods a = br_methods b.
Definition kept (X : option nat) (i : nat) (x y : fnode) : Prop :=
  same_kind (n_bref y) (n_bref x) /\ (X <> Some i -> n_bytes y = n_bytes x /\ (is_modified x = true -> is_modified y = true)).
Definition fine (X : option nat) (s s' : fstate) : Prop :=
  inv s -> inv s' /\ forall i x, s_nodes s !! i = Some x -> exists y, s_nodes s' !! i = Some y /\ kept X i x y.
(** The same for a step that may clear MODIFIED. *)
Definition keep (s s' : fstate) : Prop :=
  inv s -> inv s' /\ forall i x, s_nodes s !! i = Some x -> exists y, s_nodes s' !! i = Some y /\ same_kind (n_bref y) (n_bref x).
Definition modified (s : fstate) (i : nat) : Prop := exists x, s_nodes s !! i = Some x /\ is_modified x = true.

Lemma kept_refl X i x : kept X i x x.
Proof. repeat split. auto. Qed.
Lemma kept_trans X i x y z : kept X i x y -> kept X i y z -> kept X i x z.
Proof.
  intros [[A B] C] [[D E] G]. split; [split; congruence|]. intros HX. destruct (C HX), (G HX). split; [congruence|auto].
Qed.
#[global] Instance fine_preorder X : PreOrder (fine X).
Proof.
  split.
  - intros s Hi. split; [exact Hi|]. intros i x Hx. eauto using kept_refl.
  - intros a b c A B Hi. destruct (A Hi) as [Hb A2]. destruct (B Hb) as [Hc B2]. split; [exact Hc|]. intros i x Hx.
    destruct (A2 i x Hx) as (y & Hy & Ky). destruct (B2 i y Hy) as (z & Hz & Kz). eauto using kept_trans.
Qed.
#[global] Instance keep_preorder : PreOrder keep.
Proof.
  split.
  - intros s Hi. split; [exact Hi|]. intros i x Hx. exists x. repeat split. exact Hx.
  - intros a b c A B Hi. destruct (A Hi) as [Hb A2]. destruct (B Hb) as [Hc B2]. split; [exact Hc|]. intros i x Hx.
    destruct (A2 i x Hx) as (y & Hy & K1 & K2). destruct (B2 i y Hy) as (z & Hz & K3 & K4). exists z. split; [exact Hz|]. split; congruence.
Qed.
Lemma fine_weaken X s s' : fine None s s' -> fine X s s'.
Proof.
  intros H Hi. destruct (H Hi) as [A B]. split; [exact A|]. intros i x Hx. destruct (B i x Hx) as (y & Hy & Hk & Hm).
  exists y. split; [exact Hy|split; [exact Hk|]]. intros _. apply Hm. discriminate.
Qed.
Lemma fine_keep X s s' : fine X s s' -> keep s s'.
Proof.
  intros H Hi. destruct (H Hi) as [A B]. split; [exact A|]. intros i x Hx. destruct (B i x Hx) as (y & Hy & Hk & _). eauto.
Qed.
Lemma fine_modified s s' i : fine None s s' -> inv s -> modified s i -> modified s' i.
Proof. intros H Hi (x & Hx & Hm). destruct (proj2 (H Hi) i x Hx) as (y & Hy & _ & Hk). exists y. split; [exact Hy|]. apply Hk; [discriminate|exact Hm]. Qed.
(** A node that was not there need not be kept. *)
Lemma fine_fresh s t u i : fine None s t -> fine (Some i) t u -> (inv s -> s_nodes s !! i = None) -> fine None s u.
Proof.
  intros H1 H2 Hi Hs. destruct (H1 Hs) as [Ht K1]. destruct (H2 Ht) as [Hu K2]. split; [exact Hu|]. intros j x Hx.
  destruct (K1 j x Hx) as (y & Hy & Ky). destruct (K2 j y Hy) as (z & Hz & Hk & Hm). exists z. split; [exact Hz|].
  apply (kept_trans _ _ _ y); [exact Ky|]. split; [exact Hk|]. intros _. apply Hm. intros [= ->]. rewrite Hi in Hx by exact Hs. discriminate.
Qed.

(** ** The ways a state changes *)

Lemma put_inv s i x y : inv s -> s_nodes s !! i = Some x -> is_root y = is_root x -> node_safe y -> inv (put i y s).
Proof.
  intros [A B C D E G H I (v & Hv & Hr)] Hx Hxy Hs. constructor; try assumption; cbn.
  - intros j z. destruct (decide (i = j)) as [<-|Hne]; [|rewrite lookup_insert_ne by exact Hne; apply A].
    rewrite lookup_insert_eq. intros [= <-]. exact Hs.
  - intros j Hj. rewrite lookup_insert_ne; [apply B; exact Hj|]. intros <-. rewrite B in Hx by exact Hj. discriminate.
  - destruct (decide (i = s_vchain s)) as [->|Hne]; [rewrite lookup_insert_eq|rewrite lookup_insert_ne by exact Hne; eauto].
    exists y. split; [reflexivity|]. congruence.
Qed.
(** A store into [t] of a node that was read in [s]. *)
Lemma put_fine X s t i x y : s_nodes s !! i = Some x -> fine X s t -> (inv s -> node_safe y) -> kept X i x y -> fine X s (put i y t).
Proof.
  intros Hx Ht Hs Hk Hi. destruct (Ht Hi) as [Hit Hkt]. split.
  - destruct (Hkt i x Hx) as (z & Hz & [Ez _] & _). apply (put_inv _ _ z); auto.
    destruct Hk as [[Ek _] _]. unfold is_root, n_type. rewrite Ez, Ek. reflexivity.
  - intros j z Hz. cbn. destruct (decide (i = j)) as [<-|Hne].
    + rewrite lookup_insert_eq. exists y. split; [reflexivity|]. replace z with x by congruence. exact Hk.
    + rewrite lookup_insert_ne by exact Hne. auto.
Qed.

Lemma put_keep s i x y : s_nodes s !! i = Some x -> same_kind (n_bref y) (n_bref x) -> (inv s -> node_safe y) -> keep s (put i y s).
Proof.
  intros Hx [K1 K2] Hs Hi. split.
  - apply (put_inv s i x); auto. unfold is_root, n_type. rewrite K1. reflexivity.
  - intros j z Hz. cbn. destruct (decide (i = j)) as [<-|Hne]; [rewrite lookup_insert_eq|rewrite lookup_insert_ne by exact Hne].
    + exists y. split; [reflexivity|]. replace z with x by congruence. split; assumption.
    + exists z. repeat split. exact Hz.
Qed.

(** Steps that leave the nodes alone. *)
Lemma env_fine s s' : s_nodes s' = s_nodes s -> (inv s -> inv s') -> fine None s s'.
Proof. intros E H Hi. split; [auto|]. rewrite E. eauto using kept_refl. Qed.

Lemma dev_fine s o k : (inv s -> ~ F o /\ Forall bref_safe (blk_table k)) -> fine None s (dev_put o k s).
Proof.
  intros Hk. apply env_fine; [reflexivity|]. intros Hi. destruct (Hk Hi) as [Ho Ht]. destruct Hi as [A B C D E G H I K].
  constructor; try assumption; cbn.
  - intros o' k'. destruct (decide (o = o')) as [<-|Hne]; [|rewrite lookup_insert_ne by exact Hne; apply E].
    rewrite lookup_insert_eq. intros [= <-]. exact Ht.
  - constructor; assumption.
  - rewrite I. reflexivity.
Qed.

Lemma alloc_fine s a : (inv s -> forall o, ba_in_use (s_alloc s) o -> ba_in_use a o) -> fine None s (set_s_alloc a s).
Proof.
  intros H. apply env_fine; [reflexivity|]. intros Hi. specialize (H Hi). destruct Hi as [A B C D E G J I K].
  constructor; try assumption. cbn. auto.
Qed.

Lemma voldata_fine s vd : (inv s -> Forall bref_safe (vd_sroot vd) /\ Forall bref_safe (vd_fmap vd)) -> fine None s (set_s_voldata vd s).
Proof.
  intros H. apply env_fine; [reflexivity|]. intros Hi. specialize (H Hi). destruct Hi as [A B C D E G J I K].
  constructor; assumption.
Qed.

Lemma volsync_fine s v : fine None s (set_s_volsync v s).
Proof. apply env_fine; [reflexivity|]. intros [A B C D E G J I K]. constructor; assumption. Qed.
Lemma header_fine s v : fine None s (set_s_header v s).
Proof. apply env_fine; [reflexivity|]. intros [A B C D E G J I K]. constructor; assumption. Qed.

Lemma add_node_fine s y i s' : add_node y s = (i, s') -> (inv s -> node_safe y) -> fine None s s'.
Proof.
  intros [= <- <-] Hy Hi. specialize (Hy Hi). split.
  - destruct Hi as [A B C D E G H I K]. constructor; try assumption; cbn.
    + intros j z. destruct (decide (s_next s = j)) as [<-|Hne]; [|rewrite lookup_insert_ne by exact Hne; apply A].
      rewrite lookup_insert_eq. intros [= <-]. exact Hy.
    + intros j Hj. rewrite lookup_insert_ne by lia. apply B. lia.
    + destruct K as (v & Hv & Hr). exists v. split; [|exact Hr]. rewrite lookup_insert_ne; [exact Hv|].
      intros Ev. rewrite <- Ev, B in Hv by lia. discriminate.
  - intros j z Hz. exists z. split; [|apply kept_refl]. cbn. rewrite lookup_insert_ne; [exact Hz|].
    intros <-. rewrite (iv_next _ Hi) in Hz by lia. discriminate.
Qed.

Lemma dev_get_tables s o : inv s -> Forall bref_safe (blk_table (dev_get s o)).
Proof.
  intros Hi. unfold dev_get. destruct (s_dev s !! o) as [k|] eqn:E; [exact (iv_tables _ Hi o k E)|constructor].
Qed.

Lemma zero_block_tables type bytes : Forall bref_safe (blk_table (zero_block type bytes)).
Proof. unfold zero_block. repeat case_match; cbn; try constructor; repeat constructor; try apply bref_safe_zero; apply Forall_replicate, bref_safe_zero. Qed.

(** A store of a node that differs in nothing that matters here. *)
Lemma put_same_fine X s t i x y : s_nodes s !! i = Some x -> fine X s t -> same_place (n_bref y) (n_bref x) -> n_bytes y = n_bytes x ->
  n_data y = n_data x -> is_modified y = is_modified x -> (is_initial y = true -> is_initial x = true) -> fine X s (put i y t).
Proof.
  intros Hx Ht Hp Hb Hd Hm Hi. eapply put_fine; [exact Hx|exact Ht| |].
  - intros Hinv. eapply node_safe_same; [exact (iv_nodes _ Hinv i x Hx)|exact Hp|exact Hb|left; exact Hd|rewrite Hm; auto|auto].
  - split; [split; apply Hp|]. intros _. split; [exact Hb|]. rewrite Hm. auto.
Qed.
End safe.

(** Compose steps. *)
Ltac steps :=
  solve [repeat first [reflexivity | eassumption
    | match goal with H : fine ?X ?a ?b |- fine ?X ?a _ => transitivity b; [exact H|] end
    | match goal with H : fine None ?a ?b |- fine _ ?a _ => transitivity b; [apply fine_weaken; exact H|] end
    | match goal with H : keep ?a ?b |- keep ?a _ => transitivity b; [exact H|] end
    | match goal with H : fine _ ?a ?b |- keep ?a _ => transitivity b; [exact (fine_keep _ _ _ H)|] end]].
Ltac side := first [eassumption | reflexivity | (split_and!; reflexivity) | (cbn; congruence) | (cbn; auto; fail)].
(** [t] is [s] with the node [i] stored unchanged in what matters. *)
Ltac same i s H := eapply (put_same_fine _ s s i); [exact H|reflexivity|side..].

Section modify.
Context {ST : Storage} {SL : StorageLaws ST} {PR : Protected}.

Lemma setflush_fine fuel : forall s i s', setflush_loop fuel s i = Done s' -> fine None s s'.
Proof.
  induction fuel as [|fuel IH]; intros s i s'; cbn [setflush_loop]; intros H; run.
  - case_match; run. reflexivity.
  - case_match; [run; reflexivity|].
    assert (Hp : fine None s (put i (set_onflush true x) s)) by same i s H0.
    runs; try exact Hp. etransitivity; [exact Hp|eapply IH; eassumption].
Qed.
Lemma chain_setflush_fine s i s' : hammer2_chain_setflush s i = Done s' -> fine None s s'.
Proof. apply setflush_fine. Qed.

Lemma load_fine s i s' : hammer2_chain_load_data s i = Done s' -> fine None s s'.
Proof.
  unfold hammer2_chain_load_data. intros H. run.
  destruct (n_data x) as [off|] eqn:Hd; [run; reflexivity|].
  destruct (n_phys x =? 0); [run; reflexivity|].
  destruct (_ && _); [run; same i s H0|]. run.
  assert (Hend : forall t y, fine None s t -> same_place (n_bref y) (n_bref x) -> n_bytes y = n_bytes x ->
            is_modified y = is_modified x -> (is_initial y = true -> is_initial x = true) ->
            fine None s (put i (set_n_data (Some (n_phys x)) y) t)).
  { intros t y Ht Hp Hb Hm Hi. pose proof (n_phys_place _ _ Hp) as Ep. pose proof (is_root_place _ _ Hp) as Er.
    eapply put_fine; [exact H0|exact Ht| |].
    - intros Hinv. pose proof (iv_nodes _ Hinv i x H0) as [A B C D]. constructor.
      + intros o [= <-]. symmetry. exact Ep.
      + change (is_modified y = true \/ is_initial y = true -> ~ F (n_phys y)). rewrite Hm, Ep. tauto.
      + exact (bref_safe_place _ _ Hp C).
      + change (is_root y = true \/ n_bytes y = 0 -> ~ F (n_phys y)). rewrite Er, Hb, Ep. exact D.
    - split; [split; apply Hp|]. intros _. split; [exact Hb|]. change (is_modified x = true -> is_modified y = true). congruence. }
  destruct (is_initial (set_n_error 0 x)) eqn:Hini.
  - run. apply Hend; try reflexivity; [|discriminate]. apply dev_fine.
    intros Hi. split; [|apply zero_block_tables]. apply (ns_open x); [exact (iv_nodes s Hi i x H0)|right; exact Hini].
  - revert H1. intros H1. repeat (run; case_match); run; apply Hend; side.
Qed.

Lemma lock_fine s i how s' : hammer2_chain_lock s i how = Done s' -> fine None s s'.
Proof. unfold hammer2_chain_lock. intros H. runs; try reflexivity; eapply load_fine; eassumption. Qed.

(** ** [hammer2_chain_modify] *)

(** A dedup target must not be protected when the chain may be overwritten in place. *)
Definition dedup_safe (b : blockref) (d : Z) : Prop := d <> 0 -> bref_safe (set_data_off d b).

Lemma dedup_bytes d b : (if d .& HAMMER2_OFF_MASK_RADIX =? 0 then 0 else i32 (1 .<< (d .& HAMMER2_OFF_MASK_RADIX))) = 0 ->
  chain_bytes (set_data_off d b) = 0.
Proof.
  unfold chain_bytes. cbn. destruct (_ =? 0); [reflexivity|]. unfold i32, u32. generalize (1 .<< (d .& 63)). intros z H.
  change (2 ^ 31) with 2147483648 in H. change (2 ^ 32) with 4294967296 in *. Z.to_euclidean_division_equations. lia.
Qed.

(** A node that may be given a buffer at its block and written there. *)
Record node_ready (d : Z) (x : fnode) : Prop := {
  nr_open : ~ F (n_phys x) \/ (d <> 0 /\ is_modified x = false);
  nr_bref : bref_safe (n_bref x);
  nr_bytes : is_root x = true \/ n_bytes x = 0 -> ~ F (n_phys x)
}.

Lemma modify_alloc_fine s x d e y t : modify_alloc s x d = Done (e, y, t) -> n_bytes x <> 0 -> is_root x = false ->
  (inv s -> dedup_safe (n_bref x) d) -> s_nodes t = s_nodes s /\ fine None s t.
Proof.
  unfold modify_alloc. intros H Hb Hr Hd. destruct (d =? 0); cbn [negb] in H.
  - apply obind_Done in H as ([[er off] a] & Ha & H).
    assert (Hf : fine None s (set_s_alloc a s)) by (apply alloc_fine; intros _; exact (freemap_alloc_keeps _ _ _ _ _ _ Ha)).
    destruct (er =? 0); [|destruct (s_emerg _)]; run; split; try reflexivity; exact Hf.
  - run. split; [reflexivity|]. apply alloc_fine. intros _ o. apply ba_recover_keeps.
Qed.

Lemma modify_alloc_ready s x d y t : modify_alloc s x d = Done (0, y, t) -> n_bytes x <> 0 -> is_root x = false ->
  inv s -> dedup_safe (n_bref x) d -> node_ready d y /\ same_kind (n_bref y) (n_bref x) /\ (d = 0 -> n_bytes y = n_bytes x /\ is_modified y = is_modified x).
Proof.
  unfold modify_alloc. intros H Hb Hr Hi Hd. destruct (Z.eqb_spec d 0) as [->|Hne]; cbn [negb] in H.
  - apply obind_Done in H as ([[er off] a] & Ha & H).
    destruct (Z.eqb_spec er 0) as [->|He].
    + run. assert (Hno : ~ F (phys off)).
      { intros Hf. destruct (freemap_alloc_place _ _ _ _ _ Ha Hb) as [[Hnew _]|[_ Hr']]; [exact (Hnew (iv_use _ Hi _ Hf))|exact (F_area _ Hf Hr')]. }
      split; [|split; [split; reflexivity|split; reflexivity]]. constructor; [left; exact Hno|apply bref_safe_phys; exact Hno|intros _; exact Hno].
    + destruct (s_emerg _) eqn:Hem; [|run; contradiction]. cbn in Hem. rewrite (iv_emerg _ Hi) in Hem. discriminate.
  - run. specialize (Hd Hne). split; [|split; [split; reflexivity|contradiction]]. constructor; cbn.
    + right. auto.
    + exact Hd.
    + intros [Hro|H0]; [unfold is_root, n_type in *; cbn in Hro; congruence|]. apply Hd. right. exact (dedup_bytes _ _ H0).
Qed.

Lemma modify_alloc_error s x d e y t : modify_alloc s x d = Done (e, y, t) -> e <> 0 ->
  n_bref y = n_bref x /\ n_bytes y = n_bytes x /\ n_data y = n_data x /\ is_modified y = is_modified x /\ is_initial y = is_initial x
  /\ is_update y = is_update x.
Proof.
  unfold modify_alloc. intros H He. destruct (negb _); [run; contradiction|]. apply obind_Done in H as ([[er off] a] & _ & H).
  destruct (er =? 0); [run; contradiction|]. destruct (s_emerg _); run; [contradiction|]. auto 10.
Qed.

Lemma modify_data_fine s x d y t : modify_data s x d = Done (y, t) -> (inv s -> node_ready d x) ->
  s_nodes t = s_nodes s /\ fine None s t /\ n_bref y = n_bref x /\ n_bytes y = n_bytes x /\ is_modified y = is_modified x
  /\ is_initial y = false /\ (n_data y = None \/ n_data y = Some (n_phys x)).
Proof.
  unfold modify_data. cbv zeta. intros H Hr.
  assert (Hw : forall u k, s_nodes u = s_nodes s -> fine None s u -> d = 0 -> (inv u -> Forall bref_safe (blk_table k)) ->
            fine None s (dev_put (n_phys x) k u)).
  { intros u k Eu Hu -> Hk Hi. destruct (Hu Hi) as [Hiu Hmu]. destruct (Hr Hi) as [[Ho|[[] _]] _ _]; [|reflexivity].
    exact (transitivity Hu (dev_fine u _ k (fun Hj => conj Ho (Hk Hj))) Hi). }
  assert (Hroot : forall b, (assert! b; Done (set_initial false x, s)) = Done (y, t) -> b = bool_decide (n_data x = None) ->
            s_nodes t = s_nodes s /\ fine None s t /\ n_bref y = n_bref x /\ n_bytes y = n_bytes x /\ is_modified y = is_modified x
            /\ is_initial y = false /\ (n_data y = None \/ n_data y = Some (n_phys x))).
  { intros b Hb ->. run. split_and!; try reflexivity. left. assumption. }
  assert (Hbuf : (if (n_type x =? HAMMER2_BREF_TYPE_DIRENT) && (n_bytes x =? 0)
                  then assert! bool_decide (n_data x = None); Done (set_initial false x, s)
                  else if negb (is_initial x && (d =? 0)) && read_error (n_phys x)
                  then Done (set_n_data None (set_n_error HAMMER2_ERROR_EIO (set_initial false x)), s)
                  else let s := if is_initial x && (d =? 0) then dev_put (n_phys x) (zero_block (n_type x) (n_bytes x)) s else s in
                       let! s := match n_data x with
                                 | Some old => Done (if negb (old =? n_phys x) && (d =? 0) then dev_put (n_phys x) (dev_get s old) s else s)
                                 | None => assert! is_initial x || negb (d =? 0); Done s
                                 end in
                       Done (set_n_data (Some (n_phys x)) (set_n_error 0 (set_initial false x)), s)) = Done (y, t) ->
            s_nodes t = s_nodes s /\ fine None s t /\ n_bref y = n_bref x /\ n_bytes y = n_bytes x /\ is_modified y = is_modified x
            /\ is_initial y = false /\ (n_data y = None \/ n_data y = Some (n_phys x))).
  { clear H. intros H. destruct (_ && (n_bytes x =? 0)); [exact (Hroot _ H eq_refl)|].
    destruct (_ && read_error _); [run; split_and!; try reflexivity; left; reflexivity|]. cbv zeta in H.
    set (u := if is_initial x && (d =? 0) then _ else s) in H.
    assert (Hu : s_nodes u = s_nodes s /\ fine None s u).
    { subst u. destruct (is_initial x && (d =? 0)) eqn:E; [|split; reflexivity]. split; [reflexivity|].
      apply Hw; [reflexivity|reflexivity|apply andb_prop in E; lia|intros _; apply zero_block_tables]. }
    destruct Hu as [Eu Hu]. run. clearbody u.
    assert (Ht : s_nodes t = s_nodes s /\ fine None s t).
    { destruct (n_data x) as [old|]; run; [|auto]. destruct (negb (old =? n_phys x) && (d =? 0)) eqn:E; [|auto].
      split; [exact Eu|]. apply Hw; [exact Eu|exact Hu|apply andb_prop in E; lia|intros Hi; apply dev_get_tables; exact Hi]. }
    destruct Ht as [Et Ht]. split_and!; try reflexivity; try assumption. right. reflexivity. }
  revert H. change (n_type (set_initial false x)) with (n_type x).
  change (n_phys (set_initial false x)) with (n_phys x). change (n_data (set_initial false x)) with (n_data x).
  change (n_bytes (set_initial false x)) with (n_bytes x). change (n_data (set_n_error 0 (set_initial false x))) with (n_data x).
  repeat case_match; try discriminate; intros H'; first [exact (Hbuf H')|exact (Hroot _ H' eq_refl)].
Qed.

Lemma n_bytes_dirty x : n_bytes (set_update true (set_modified true x)) = n_bytes x.
Proof. reflexivity. Qed.

(** A node that does not get a new block may be written at the one it has. *)
Lemma modify_stay_ready s x d : inv s -> node_safe x ->
  negb (is_root x) && negb (n_bytes x =? 0) && ((n_phys x =? 0) || (if negb (is_modified x) then negb (overwrite_allowed s x) else is_dedupable x)) = false ->
  node_ready d (set_update true (set_modified true x)).
Proof.
  intros Hi [A B C D] H. constructor; [left|exact C|exact D]. change (~ F (n_phys x)).
  destruct (is_root x) eqn:Hr; [apply D; auto|]. destruct (Z.eqb_spec (n_bytes x) 0) as [E|E]; [apply D; auto|].
  destruct (Z.eqb_spec (n_phys x) 0) as [->|Hp]; [exact F_zero|]. cbn in H.
  destruct (is_modified x) eqn:Hm; cbn in H; [apply B; auto|]. apply negb_false_iff in H.
  apply C. left. revert H. unfold overwrite_allowed. rewrite (iv_emerg _ Hi), orb_false_r. case_match; [|discriminate].
  rewrite !andb_true_iff, orb_true_iff, !Z.eqb_eq. unfold in_place, n_type. tauto.
Qed.

(** What [hammer2_chain_modify] stores in the end. *)
Lemma modify_store_fine X s t i x z y d : s_nodes s !! i = Some x -> fine X s t ->
  same_place (n_bref y) (n_bref z) -> n_bytes y = n_bytes z -> is_modified y = is_modified z ->
  (n_data y = None \/ n_data y = Some (n_phys z)) -> node_ready d z -> (is_initial y = true -> d = 0) ->
  same_kind (n_bref z) (n_bref x) -> (X <> Some i -> n_bytes z = n_bytes x /\ (is_modified x = true -> is_modified z = true)) ->
  fine X s (put i y t).
Proof.
  intros Hx Ht Hp Hb Hm Hd [Ho Hbr Hby] Hini [K1 K2] Hmod.
  pose proof (n_phys_place _ _ Hp) as Ep. pose proof (is_root_place _ _ Hp) as Er. eapply put_fine; [exact Hx|exact Ht| |].
  - intros _. constructor.
    + intros o Ho'. rewrite Ep. destruct Hd; congruence.
    + rewrite Ep, Hm. intros [H|H]; [|apply Hini in H as ->]; destruct Ho as [Ho|[Hne Hf]]; try exact Ho; try contradiction; congruence.
    + exact (bref_safe_place _ _ Hp Hbr).
    + rewrite Er, Hb, Ep. exact Hby.
  - destruct Hp as (P1 & P2 & _). split; [split; congruence|]. rewrite Hm, Hb. exact Hmod.
Qed.

Definition keeps (d : Z) (i : nat) : option nat := if d =? 0 then None else Some i.

Lemma dedup_safe_place a b d : same_place a b -> dedup_safe b d -> dedup_safe a d.
Proof. intros (A & B & C) H Hd. refine (bref_safe_place _ _ _ (H Hd)). split_and!; assumption || reflexivity. Qed.

Lemma load_place s i x s' : hammer2_chain_load_data s i = Done s' -> s_nodes s !! i = Some x ->
  exists y, s_nodes s' !! i = Some y /\ same_place (n_bref y) (n_bref x).
Proof.
  unfold hammer2_chain_load_data. intros H Hx. run. rewrite Hx in H0. injection H0 as <-.
  repeat (run; case_match); run; try (exists x; split; [exact Hx|reflexivity]);
    eexists; (split; [cbn; apply lookup_insert_eq|split_and!; reflexivity]).
Qed.

Lemma node_ready_place d x y : node_ready d x -> same_place (n_bref y) (n_bref x) -> n_bytes y = n_bytes x ->
  is_modified y = is_modified x -> node_ready d y.
Proof.
  intros [A B C] Hp Hb Hm. pose proof (n_phys_place _ _ Hp) as Ep. pose proof (is_root_place _ _ Hp) as Er.
  constructor; rewrite ?Ep, ?Er, ?Hb, ?Hm; auto. exact (bref_safe_place _ _ Hp B).
Qed.

(** The part of [hammer2_chain_modify] after the allocation. *)
Lemma modify_tail s i x t z mtid d fl e s' : s_nodes s !! i = Some x -> fine None s t ->
  node_ready d z -> same_kind (n_bref z) (n_bref x) -> (keeps d i <> Some i -> n_bytes z = n_bytes x /\ is_modified z = true) ->
  (let b := n_bref z in
   let z := set_n_bref (set_tids (u64 (vd_mirror (s_voldata t) + 1)) (if mtid =? 0 then br_modify_tid b else mtid) b) z in
   let l := n_link z in
   let z := if l_blkmapped l then set_n_link (LFlags (l_deleted l) true true (l_hint l)) z else z in
   let! (z, t) :=
     if (n_type z =? HAMMER2_BREF_TYPE_DATA) && tst fl HAMMER2_MODIFY_OPTDATA && bool_decide (n_data z = None) && (d =? 0)
     then Done (z, t) else modify_data t z d in
   let t := put i z t in
   let! t := match n_parent z with Some p => hammer2_chain_setflush t p | None => Done t end in
   Done (n_error z, t)) = Done (e, s') ->
  fine (keeps d i) s s' /\ (d = 0 -> inv s -> modified s' i).
Proof.
  intros Hx Ht Hr Hk Hm. cbv zeta. set (z1 := set_n_bref _ z). set (z2 := if l_blkmapped _ then _ else z1).
  assert (E2 : same_place (n_bref z2) (n_bref z) /\ n_bytes z2 = n_bytes z /\ is_modified z2 = is_modified z).
  { subst z2. destruct (l_blkmapped _); repeat split. }
  destruct E2 as (Ep & Eb & Em). pose proof (node_ready_place _ _ _ Hr Ep Eb Em) as Hr2. rewrite <- Em, <- Eb in Hm.
  assert (Hk2 : same_kind (n_bref z2) (n_bref x)) by (destruct Ep as (P1 & P2 & _), Hk as [K1 K2]; split; congruence).
  clearbody z2. clear z1 Hr Hk Ep Eb Em z. intros H. run.
  assert (Hs : fine (keeps d i) s (put i f f0) /\ is_modified f = is_modified z2).
  { destruct (_ && (d =? 0)) eqn:Ecase.
    - run. split; [|reflexivity]. rewrite !andb_true_iff, !Z.eqb_eq in Ecase. destruct Ecase as [[_ Hn] ->]. apply bool_decide_eq_true in Hn.
      apply (modify_store_fine _ s f0 i x f f 0); auto using fine_weaken; [reflexivity|]. intros HX. destruct (Hm HX). auto.
    - apply modify_data_fine in H0; [|auto]. destruct H0 as (E1 & Hf & E3 & E4 & E5 & E6 & E7).
      split; [|exact E5]. apply (modify_store_fine _ s f0 i x z2 f d); auto; try congruence.
      + transitivity t; apply fine_weaken; assumption.
      + rewrite E3. reflexivity.
      + intros HX. destruct (Hm HX). auto. }
  destruct Hs as [Hs Ef]. assert (Hfl : fine None (put i f f0) s') by (case_match; run; [eapply chain_setflush_fine; eassumption|reflexivity]).
  split; [steps|]. intros -> Hi. destruct (Hs Hi) as [Hi2 _]. apply (fine_modified _ _ _ Hfl Hi2).
  exists f. split; [apply lookup_insert_eq|]. rewrite Ef. apply Hm. discriminate.
Qed.

Lemma modify_fine s i mtid d fl e s' : hammer2_chain_modify s i mtid d fl = Done (e, s') ->
  (inv s -> forall x, s_nodes s !! i = Some x -> dedup_safe (n_bref x) d) ->
  fine (keeps d i) s s' /\ (e = 0 -> d = 0 -> inv s -> modified s' i).
Proof.
  unfold hammer2_chain_modify. cbv zeta. intros H Hd. run. set (load := (_ && negb (n_phys x =? 0))) in *.
  assert (Hl : fine None s x1 /\ same_place (n_bref x2) (n_bref x)).
  { clearbody load. destruct load; run.
    - pose proof (load_place _ _ _ _ H2 H0) as (y & Hy & Hp). rewrite H3 in Hy. injection Hy as <-. split; [exact (load_fine _ _ _ H2)|exact Hp].
    - split; [reflexivity|]. replace x2 with x by congruence. reflexivity. }
  destruct Hl as [Hl Hp]. destruct (load && negb (n_error x2 =? 0)) eqn:Herr.
  { run. split; [apply fine_weaken; exact Hl|]. apply andb_prop in Herr. lia. }
  clearbody load. clear H1 H2 Herr load. rename x1 into u, x2 into y.
  enough (Hu : inv u -> inv s -> fine (keeps d i) u s' /\ (e = 0 -> d = 0 -> inv u -> modified s' i)).
  { split; [|intros He Hz Hi; destruct (Hl Hi) as [Hiu _]; apply (Hu Hiu Hi); assumption].
    intros Hi. destruct (Hl Hi) as [Hiu Hm]. destruct (Hu Hiu Hi) as [A _]. destruct (A Hiu) as [B C]. split; [exact B|].
    exact (proj2 (transitivity (fine_weaken _ _ _ Hl) A Hi)). }
  intros Hiu Hi. specialize (Hd Hi x H0). apply (dedup_safe_place _ _ _ Hp) in Hd. pose proof (iv_nodes _ Hiu i y H3) as Hy. clear Hl Hp H0 x Hi s.
  set (z := set_update true (set_modified true y)) in *. change (is_root z) with (is_root y) in H. change (n_bytes z) with (n_bytes y) in H.
  change (n_phys z) with (n_phys y) in H.
  destruct (negb (is_root y) && negb (n_bytes y =? 0) && _) eqn:Hcase.
  - apply obind_Done in H as ([[er w] t] & Ha & H). rewrite !andb_true_iff, !negb_true_iff, Z.eqb_neq in Hcase. destruct Hcase as [[Hr Hb] _].
    pose proof (modify_alloc_fine u z d er w t Ha Hb Hr (fun _ => Hd)) as [Et Ht].
    destruct (Z.eqb_spec er 0) as [->|Her]; cbn [negb] in H.
    + destruct (modify_alloc_ready u z d w t Ha Hb Hr Hiu Hd) as (Hw & Hk & Hm).
      destruct (modify_tail u i y t w mtid d fl e s') as [A B]; auto. intros Hx. apply Hm. unfold keeps in Hx. destruct (Z.eqb_spec d 0); congruence.
    + apply modify_alloc_error in Ha as (E1 & E2 & E3 & E4 & E5 & E6); [|exact Her]. run. split; [|contradiction]. apply fine_weaken.
      match goal with |- fine _ _ (put i ?v t) => assert (Ev : same_place (n_bref v) (n_bref y) /\ n_bytes v = n_bytes y /\ n_data v = n_data y
        /\ is_modified v = is_modified y /\ is_initial v = is_initial y) end.
      { destruct (is_modified y) eqn:Em, (is_update y); cbn [negb]; (split; [change (same_place (n_bref w) (n_bref y)); rewrite E1; reflexivity|]);
          (split; [exact E2|]); (split; [exact E3|]); (split; [first [exact E4|reflexivity]|exact E5]). }
      destruct Ev as (V1 & V2 & V3 & V4 & V5). apply (put_same_fine _ u t i y); auto. congruence.
  - destruct (modify_tail u i y u z mtid d fl e s') as [A B]; auto; try reflexivity.
    + apply (modify_stay_ready u); assumption.
    + split; reflexivity.
Qed.
End modify.
