(* ===== verification/CowOps.v ===== *)
(** Copy on write: the operations that change the topology, and the flush. *)

From Stdlib Require Import ZArith Lia Bool.
From stdpp Require Import base numbers list option gmap.
From S2P Require Import Prelude Disk Subr Check BlockTable ChainFind ChainCore Topology Reshape Flush CowProof.

Section ops.
Context {ST : Storage} {SL : StorageLaws ST} {PR : Protected}.

(** ** Block tables *)

Definition base_safe (base : option (list blockref)) : Prop := forall bs, base = Some bs -> Forall bref_safe bs.

Lemma node_block_safe s x k : inv s -> node_block s x = Some k -> Forall bref_safe (blk_table k).
Proof.
  intros Hi. unfold node_block. destruct (_ =? _); [intros [= <-]; apply (iv_roots _ Hi)|].
  destruct (_ =? _); [intros [= <-]; apply (iv_roots _ Hi)|].
  destruct (n_data x); [|discriminate]. intros [= <-]. apply dev_get_tables, Hi.
Qed.
Lemma base_of_safe s x base count : base_of s x = Done (base, count) -> inv s -> base_safe base.
Proof.
  unfold base_of. intros H Hi. runs; intros bs' Hbs; [|discriminate]. injection Hbs as <-. eapply node_block_safe; eassumption.
Qed.
Lemma update_base_safe s x base count : update_base s x = Done (base, count) -> inv s -> base_safe base.
Proof.
  unfold update_base. intros H Hi bs ->. repeat case_match; try discriminate; simplify_eq; run;
    destruct (node_block s x) eqn:E; try discriminate; repeat case_match; simplify_eq; run; simplify_eq/=; eapply node_block_safe; eassumption.
Qed.

Lemma store_table_fine s x bs : (inv s -> (forall o, n_data x = Some o -> ~ F o) /\ Forall bref_safe bs) -> fine None s (store_table x bs s).
Proof.
  intros H. unfold store_table. destruct (_ =? _); [|destruct (_ =? _)].
  - apply voldata_fine. intros Hi. split; [apply (H Hi)|apply (iv_roots _ Hi)].
  - apply voldata_fine. intros Hi. split; [apply (iv_roots _ Hi)|apply (H Hi)].
  - destruct (n_data x) as [off|]; [|reflexivity]. apply dev_fine. intros Hi. destruct (H Hi) as [A B]. auto.
Qed.

(** The data of a modified node may be written. *)
Lemma modified_data s i x o : inv s -> modified s i -> s_nodes s !! i = Some x -> n_data x = Some o -> ~ F o.
Proof.
  intros Hi (y & Hy & Hm) Hx Ho. replace y with x in * by congruence. destruct (iv_nodes _ Hi i x Hx) as [A B _ _].
  rewrite (A o Ho). auto.
Qed.

Lemma set_core_fine s p x co : s_nodes s !! p = Some x -> same_place (co_bref co) (co_bref (n_core x)) ->
  fine None s (put p (set_n_core co x) s).
Proof. intros Hx Hp. eapply put_same_fine; [exact Hx|reflexivity|exact Hp|reflexivity..|cbn; auto]. Qed.

(** The two writes of a table update: the core of the parent and its table. *)
Lemma table_store_fine s p x co bs : s_nodes s !! p = Some x -> same_place (co_bref co) (co_bref (n_core x)) ->
  (inv s -> modified s p /\ Forall bref_safe bs) -> fine None s (store_table x bs (put p (set_n_core co x) s)).
Proof.
  intros Hx Hp H Hi. destruct (H Hi) as [Hm Hb].
  assert (Hf : fine None s (put p (set_n_core co x) s)) by (apply set_core_fine; assumption).
  refine (transitivity Hf (store_table_fine _ x bs _) Hi). intros _. split; [|exact Hb]. intros o. apply (modified_data s p x o Hi Hm Hx).
Qed.

(** Then the flags of the child. *)
Lemma table_step_fine s p i x y co bs c : s_nodes s !! p = Some x -> s_nodes s !! i = Some y ->
  same_place (co_bref co) (co_bref (n_core x)) -> (inv s -> modified s p /\ Forall bref_safe bs) ->
  fine None s (put i (set_chain c y) (store_table x bs (put p (set_n_core co x) s))).
Proof.
  intros Hx Hy Hp H. eapply put_same_fine; [exact Hy|exact (table_store_fine s p x co bs Hx Hp H)|reflexivity..|cbn; auto].
Qed.

Lemma table_insert_fine s p base count i elm s' : table_insert s p base count i elm = Done s' ->
  (inv s -> modified s p /\ base_safe base /\ bref_safe elm) -> fine None s s'.
Proof.
  unfold table_insert. intros H Hs. run. destruct base as [bs|]; [|unfold hammer2_base_insert in H2; run].
  intros Hi. destruct (Hs Hi) as (Hm & Hb & He). revert Hi.
  destruct (base_insert_P bref_safe _ _ _ _ _ _ _ _ (Hb _ eq_refl) He H2) as (A & B & _).
  match goal with |- inv ?a -> inv ?b /\ _ => change (fine None a b) end.
  destruct o; [apply table_step_fine|apply table_store_fine]; auto.
Qed.

Lemma table_delete_fine s p base count i scan s' : table_delete s p base count i = Done (scan, s') ->
  (inv s -> modified s p /\ base_safe base) -> fine None s s' /\ (inv s -> bref_safe scan).
Proof.
  unfold table_delete. intros H Hs. run. destruct base as [bs|]; [|unfold hammer2_base_delete in H2; run].
  split; intros Hi; destruct (Hs Hi) as (Hm & Hb);
    destruct (base_delete_P bref_safe bref_safe_zero bref_safe_inhabitant _ _ _ _ _ _ _ _ (Hb _ eq_refl) H2) as (A & B & C & _); [|exact B].
  revert Hi. match goal with |- inv ?a -> inv ?b /\ _ => change (fine None a b) end. apply table_step_fine; auto.
Qed.

Lemma count_brefs_fine s i base count s' : count_brefs s i base count = Done s' -> fine None s s'.
Proof.
  unfold count_brefs. intros H. run. apply set_core_fine; [assumption|].
  unfold hammer2_chain_countbrefs. repeat case_match; reflexivity.
Qed.

(** ** Links *)

(** Two stores: a parent and a child. *)
Lemma put2_fine s p i x y x' y' : s_nodes s !! p = Some x -> s_nodes s !! i = Some y ->
  same_place (n_bref x') (n_bref x) -> n_bytes x' = n_bytes x -> n_data x' = n_data x -> is_modified x' = is_modified x ->
  is_initial x' = is_initial x -> same_place (n_bref y') (n_bref y) -> n_bytes y' = n_bytes y -> n_data y' = n_data y ->
  is_modified y' = is_modified y -> is_initial y' = is_initial y -> fine None s (put i y' (put p x' s)).
Proof.
  intros Hx Hy A1 A2 A3 A4 A5 B1 B2 B3 B4 B5. apply (put_same_fine _ s _ i y); auto; [|congruence].
  apply (put_same_fine _ s s p x); auto; [reflexivity|congruence].
Qed.

Lemma chain_link_fine s p i live s' : chain_link s p i live = Done s' -> fine None s s'.
Proof. unfold chain_link. intros H. run. destruct live; eapply put2_fine; first [eassumption|reflexivity]. Qed.
Lemma chain_unlink_fine s p i s' : chain_unlink s p i = Done s' -> fine None s s'.
Proof. unfold chain_unlink. intros H. run. eapply put2_fine; first [eassumption|reflexivity]. Qed.

Lemma new_node_safe b pm y : new_node b pm = Done y -> bref_safe b -> node_safe y /\ n_bref y = b /\ is_modified y = false.
Proof.
  unfold new_node. intros H Hb. assert (E : y = FNode (Core 0 0 0 false b) (LFlags false false false false)
    (NFlags false false false false false false false false false) None [] (chain_bytes b) 0 None
    (tst (br_flags b) HAMMER2_BREF_FLAG_PFSROOT) pm /\ is_root y = false).
  { repeat (case_match; try discriminate); subst; run; (split; [reflexivity|]); unfold is_root, n_type, n_bref; cbn;
      match goal with Ht : br_type b = _ |- _ => rewrite Ht; reflexivity end. }
  destruct E as [-> Hr]. split_and!; try reflexivity. constructor.
  - discriminate.
  - intros [H1|H1]; discriminate H1.
  - exact Hb.
  - rewrite Hr. intros [H1|H1]; [discriminate|]. apply Hb. right. exact H1.
Qed.

Lemma chain_get_never_fine s p b i s' : chain_get_never s p b = Done (i, s') -> (inv s -> bref_safe b) -> fine None s s'.
Proof.
  unfold chain_get_never. intros H Hb. run. unfold add_node in H. run. apply chain_link_fine in H2.
  etransitivity; [|exact H2]. eapply add_node_fine; [reflexivity|]. intros Hi.
  destruct (new_node_safe _ _ _ H1 (Hb Hi)) as (A & _ & _). eapply node_safe_same; [exact A|reflexivity|reflexivity|left; reflexivity|cbn; auto..].
Qed.

Lemma modify0_fine s i mtid fl e s' : hammer2_chain_modify s i mtid 0 fl = Done (e, s') ->
  fine None s s' /\ (e = 0 -> inv s -> modified s' i).
Proof.
  intros H. destruct (modify_fine _ _ _ _ _ _ _ H) as [A B]; [intros _ x _ []; reflexivity|]. split; [exact A|]. auto.
Qed.

(** Replace what ran by what it did. *)
Ltac fines :=
  repeat match goal with
  | H : hammer2_chain_modify _ _ _ 0 _ = Done _ |- _ => apply modify0_fine in H as [? ?]
  | H : hammer2_chain_setflush _ _ = Done _ |- _ => apply chain_setflush_fine in H
  | H : hammer2_chain_lock _ _ _ = Done _ |- _ => apply lock_fine in H
  | H : chain_link _ _ _ _ = Done _ |- _ => apply chain_link_fine in H
  | H : chain_unlink _ _ _ = Done _ |- _ => apply chain_unlink_fine in H
  | H : count_brefs _ _ _ _ = Done _ |- _ => apply count_brefs_fine in H
  end.

(** ** Deletion *)

Lemma deleted_from_table s t p x base count i ob s' : fine None s t -> (inv s -> modified t p) ->
  update_base t x = Done (base, count) -> table_delete t p base count i = Done (ob, s') ->
  fine None s s' /\ (inv s -> bref_safe ob).
Proof.
  intros Hst Hm Hb H.
  assert (Ht : inv s -> fine None t s' /\ (inv t -> bref_safe ob)).
  { intros Hi. apply (table_delete_fine _ _ _ _ _ _ _ H). intros Hit. split; [auto|eapply update_base_safe; eassumption]. }
  split; [|intros Hi; apply (Ht Hi), (Hst Hi)]. intros Hi. exact (transitivity Hst (proj1 (Ht Hi)) Hi).
Qed.

Lemma delete_helper_fine s parent i mtid e ob s' : delete_helper s parent i mtid = Done (e, ob, s') ->
  fine None s s' /\ (inv s -> bref_safe ob).
Proof.
  unfold delete_helper. intros H. run. destruct (l_blkmapped _).
  - destruct parent as [p|]; [|discriminate]. run. fines.
    destruct (z =? 0) eqn:Ez; cbn [negb] in H; [|run; split; [assumption|intros _; apply bref_safe_zero]]. run. fines.
    match goal with Hm : fine None s ?a, Hu : fine None ?a ?b, Hd : _ -> _ -> modified ?a p |- _ =>
      assert (Hsb : fine None s b) by (etransitivity; eassumption);
      assert (Hmod : inv s -> modified b p) by (intros Hi; apply (fine_modified _ _ p Hu (proj1 (Hm Hi))); apply Hd; [lia|exact Hi])
    end.
    destruct o as [bs|]; run; [|split; [assumption|intros _; apply bref_safe_zero]].
    eapply deleted_from_table; [exact Hsb|exact Hmod|eassumption|eassumption].
  - split; [|intros _; destruct parent; run; apply bref_safe_zero]. destruct parent; run; fines; [assumption|].
    eapply put_same_fine; [exact H0|reflexivity|reflexivity..|cbn; auto].
Qed.

Lemma delete_obref_fine s parent i mtid fl e ob s' : hammer2_chain_delete_obref s parent i mtid fl = Done (e, ob, s') ->
  fine None s s' /\ (inv s -> bref_safe ob).
Proof.
  unfold hammer2_chain_delete_obref. intros H. run.
  assert (Hd : fine None s f /\ (inv s -> bref_safe b)).
  { destruct (l_deleted _); run; [split; [reflexivity|intros _; apply bref_safe_zero]|eapply delete_helper_fine; eassumption]. }
  destruct Hd as [Hd Hb]. clear H1. destruct (_ && _); run; split; auto.
  apply chain_setflush_fine in H2. etransitivity; [exact Hd|]. etransitivity; [|exact H2].
  eapply put_same_fine; [eassumption|reflexivity|reflexivity..|cbn; auto].
Qed.
Lemma delete_fine s parent i mtid fl e s' : hammer2_chain_delete s parent i mtid fl = Done (e, s') -> fine None s s'.
Proof. unfold hammer2_chain_delete. intros H. run. eapply delete_obref_fine; eassumption. Qed.

(** ** Creation *)

Lemma dedup_safe_kind a b d : same_kind a b -> dedup_safe b d -> dedup_safe a d.
Proof. intros (A & B) H Hd. refine (bref_safe_place _ _ _ (H Hd)). split_and!; assumption || reflexivity. Qed.

(** The node [i] may take over the block at [d]. *)
Definition takes (s : fstate) (i : nat) (d : Z) : Prop := exists y, s_nodes s !! i = Some y /\ dedup_safe (n_bref y) d.
Lemma takes_fine X s s' i d : fine X s s' -> inv s -> takes s i d -> takes s' i d.
Proof.
  intros H Hi (y & Hy & Hd). destruct (proj2 (H Hi) i y Hy) as (z & Hz & Hk & _). exists z. split; [exact Hz|].
  exact (dedup_safe_kind _ _ _ Hk Hd).
Qed.

(** A chain that is created may share a block, if its contents have a check code
    whenever that block is protected. *)
Definition create_methods (a : create_args) : Z :=
  let m := u8 (ca_methods a) in
  if negb (ca_type a =? HAMMER2_BREF_TYPE_DATA) && (HAMMER2_DEC_CHECK m =? HAMMER2_CHECK_NONE)
  then m .| HAMMER2_ENC_CHECK HAMMER2_CHECK_DEFAULT else m.
Definition dedup_args (a : create_args) : Prop :=
  ca_dedup_off a <> 0 -> ca_methods a <> HAMMER2_METH_DEFAULT
  /\ forall b, br_type b = ca_type a -> br_methods b = create_methods a -> bref_safe (set_data_off (ca_dedup_off a) b).

(** A fresh node, INITIAL and without storage. *)
Lemma add_initial_fine s b pm y i s' : new_node b pm = Done y -> phys (br_data_off b) = 0 -> add_node (set_initial true y) s = (i, s') ->
  fine None s s' /\ (inv s -> s_nodes s !! i = None) /\ exists z, s_nodes s' !! i = Some z /\ n_bref z = b.
Proof.
  intros Hy Hp Ha. destruct (new_node_safe b pm y Hy) as (A & Eb & Em); [apply bref_safe_phys; rewrite Hp; exact F_zero|].
  split_and!.
  - eapply add_node_fine; [exact Ha|]. intros _. assert (Ez : n_phys y = 0) by (unfold n_phys; rewrite Eb; exact Hp).
    destruct A as [A B C D]. constructor; [exact A|intros _|exact C|exact D]. change (~ F (n_phys y)). rewrite Ez. exact F_zero.
  - intros Hi. unfold add_node in Ha. run. apply (iv_next _ Hi). lia.
  - unfold add_node in Ha. run. eexists. split; [apply lookup_insert_eq|]. reflexivity.
Qed.

Lemma create_alloc_fine s parent pm a i s' : create_alloc s parent pm a = Done (i, s') -> dedup_args a ->
  fine None s s' /\ (inv s -> s_nodes s !! i = None) /\ takes s' i (ca_dedup_off a).
Proof.
  unfold create_alloc. cbv zeta. intros H Hd. run. apply getradix_lt in H0.
  assert (Hadd : add_node (set_initial true x1) s = (i, s')).
  { repeat (case_match; try discriminate); run; first [reflexivity|congruence]. }
  destruct (add_initial_fine _ _ _ _ _ _ H2 (phys_radix _ H0) Hadd) as (A & B & z & Hz & Ez). split_and!; [exact A|exact B|].
  exists z. split; [exact Hz|]. intros Hne. destruct (Hd Hne) as [Hm Hs]. apply Hs; rewrite Ez; [reflexivity|].
  cbn. unfold create_methods. destruct (Z.eqb_spec (ca_methods a) HAMMER2_METH_DEFAULT); [contradiction|]. run. reflexivity.
Qed.

Lemma create_reuse_fine s i a s' : create_reuse s i a = Done s' -> fine None s s'.
Proof. unfold create_reuse. intros H. run. eapply put_same_fine; [eassumption|reflexivity|repeat split|reflexivity..|cbn; auto]. Qed.

Definition links (allocated : bool) (d : Z) (i : nat) : option nat := if allocated then keeps d i else None.

Lemma create_modify_fine s i (allocated : bool) a e s' y : s_nodes s !! i = Some y ->
  (if allocated then
     match n_type y with
     | HAMMER2_BREF_TYPE_DATA | HAMMER2_BREF_TYPE_FREEMAP_LEAF | HAMMER2_BREF_TYPE_DIRENT | HAMMER2_BREF_TYPE_INODE =>
         hammer2_chain_modify s i (ca_mtid a) (ca_dedup_off a) HAMMER2_MODIFY_OPTDATA
     | _ => Panic
     end
   else Done (0, put i (set_update true y) s)) = Done (e, s') ->
  (inv s -> allocated = true -> takes s i (ca_dedup_off a)) -> fine (links allocated (ca_dedup_off a) i) s s'.
Proof.
  intros Hy H Ht. destruct allocated; cbn [links].
  - assert (Hm : hammer2_chain_modify s i (ca_mtid a) (ca_dedup_off a) HAMMER2_MODIFY_OPTDATA = Done (e, s')).
    { repeat (case_match; try discriminate); exact H. }
    apply (modify_fine _ _ _ _ _ _ _ Hm). intros Hi x Hx. destruct (Ht Hi eq_refl) as (z & Hz & Hd). replace x with z by congruence. exact Hd.
  - run. eapply put_same_fine; [exact Hy|reflexivity|reflexivity..|cbn; auto].
Qed.

Lemma create_link_fine s parent i allocated a e s' : create_link s parent i allocated a = Done (e, s') ->
  (inv s -> allocated = true -> takes s i (ca_dedup_off a)) -> fine (links allocated (ca_dedup_off a) i) s s'.
Proof.
  unfold create_link. intros H Ht. run.
  match goal with H1 : context [chain_link s] |- _ => match type of H1 with _ = Done ?t =>
    assert (Hl : fine None s t) by (destruct parent; run; fines; [assumption|reflexivity]); clear H1; set (u := t) in *; clearbody u end end.
  intros Hi. destruct (Hl Hi) as [Hi1 _]. refine (transitivity (fine_weaken _ _ _ Hl) _ Hi). transitivity f.
  - eapply create_modify_fine; [eassumption|eassumption|]. intros _ Ha. exact (takes_fine _ _ _ _ _ Hl Hi (Ht Hi Ha)).
  - apply fine_weaken. destruct parent; run; fines; [assumption|reflexivity].
Qed.

Section create.
Context (create_indirect : fstate -> nat -> create_args -> outcome (Z * option nat * fstate)).
Hypothesis ci_fine : forall s p a e np s', create_indirect s p a = Done (e, np, s') ->
  fine None s s' /\ (inv s -> forall p', np = Some p' -> modified s' p').

Lemma create_again_fine allocated a i loops : forall s p e p' c s',
  create_again create_indirect loops s p i allocated a = Done (e, p', c, s') ->
  (inv s -> allocated = true -> takes s i (ca_dedup_off a)) ->
  fine (links allocated (ca_dedup_off a) i) s s' /\ (allocated = false -> inv s -> modified s p -> modified s' p').
Proof.
  induction loops as [|loops IH]; intros s p e p' c s' H Ht; [discriminate|]. cbn [create_again] in H. run.
  match goal with Hc : context [count_brefs s p] |- _ => match type of Hc with _ = Done ?t =>
    assert (Hcnt : fine None s t) by (destruct (co_counted (n_core x)); run; fines; [reflexivity|assumption]); clear Hc; set (u := t) in *; clearbody u end end.
  assert (Htu : inv s -> inv u -> allocated = true -> takes u i (ca_dedup_off a)).
  { intros Hi _ Ha. exact (takes_fine _ _ _ _ _ Hcnt Hi (Ht Hi Ha)). }
  enough (Hend : inv s -> fine (links allocated (ca_dedup_off a) i) u s' /\ (allocated = false -> modified u p -> modified s' p')).
  { split; [intros Hi; exact (transitivity (fine_weaken _ _ _ Hcnt) (proj1 (Hend Hi)) Hi)|].
    intros Ha Hi Hm. apply (proj2 (Hend Hi) Ha). exact (fine_modified _ _ _ Hcnt Hi Hm). }
  intros Hi. destruct (Hcnt Hi) as [Hu _]. specialize (Htu Hi). destruct (_ =? z); run.
  - match goal with Hx : create_indirect _ _ _ = Done (_, _, ?t) |- _ => apply ci_fine in Hx as [Hind Hnp]; set (v := t) in *; clearbody v end.
    destruct (Hind Hu) as [Hv _]. specialize (Hnp Hu). destruct o0 as [q|]; run.
    + apply IH in H as [A B]; [|intros _ Ha; exact (takes_fine _ _ _ _ _ Hind Hu (Htu Hu Ha))].
      split; [exact (transitivity (fine_weaken _ _ _ Hind) A)|]. intros Ha _. exact (B Ha Hv (Hnp q eq_refl)).
    + split; [apply fine_weaken; assumption|]. intros _. exact (fine_modified _ _ _ Hind Hu).
  - match goal with Hx : create_link _ _ _ _ _ = Done _ |- _ => apply create_link_fine in Hx; [|exact Htu]; rename Hx into Hl end.
    split; [exact Hl|]. intros ->. exact (fine_modified _ _ _ Hl Hu).
Qed.

Lemma chain_create_fine s parent chain pm a e np nc s' : chain_create create_indirect s parent chain pm a = Done (e, np, nc, s') ->
  dedup_args a -> fine None s s'
  /\ (chain <> None -> inv s -> forall p p', parent = Some p -> np = Some p' -> modified s p -> modified s' p').
Proof.
  unfold chain_create. intros H Hd. run.
  match goal with Hc : context [create_alloc s] |- _ => match type of Hc with _ = Done (?i, ?t) =>
    assert (Hnew : fine None s t /\ (inv s -> chain = None -> s_nodes s !! i = None /\ takes t i (ca_dedup_off a)))
      by (destruct chain; run;
          [match goal with Hr : create_reuse _ _ _ = _ |- _ => apply create_reuse_fine in Hr; split; [exact Hr|discriminate] end
          |destruct (create_alloc_fine _ _ _ _ _ _ Hc Hd) as (A & B & C); split; auto]); clear Hc
  end end.
  destruct Hnew as [Ha Hnew].
  match type of Ha with fine None s ?t => match goal with Hy : s_nodes t !! ?i = Some ?y |- _ =>
    match type of H with context [set_check ?fl ?ck ?b] =>
      set (u := if tst (ca_flags a) HAMMER2_INSERT_PFSROOT then put i (set_n_bref (set_check fl ck b) y) t else t) in *;
      assert (Hu : fine None t u) by (subst u; destruct (tst _ _); [eapply put_same_fine; [exact Hy|reflexivity|repeat split|reflexivity..|cbn; auto]|reflexivity])
    end; clearbody u; rename i into i, t into t
  end end.
  assert (Hsu : fine None s u) by (etransitivity; eassumption).
  assert (Hend : inv s -> fine (links (bool_decide (chain = None)) (ca_dedup_off a) n) u s'
            /\ (bool_decide (chain = None) = false -> forall p p', parent = Some p -> np = Some p' -> modified u p -> modified s' p')).
  { intros Hi. destruct (Ha Hi) as [Ht _]. assert (Htk : inv u -> bool_decide (chain = None) = true -> takes u n (ca_dedup_off a)).
    { intros _ Hc. apply bool_decide_eq_true in Hc. exact (takes_fine _ _ _ _ _ Hu Ht (proj2 (Hnew Hi Hc))). }
    destruct parent; run.
    - match goal with Hc : create_again _ _ _ _ _ _ _ = _ |- _ => apply create_again_fine in Hc as [A B]; [|exact Htk] end.
      split; [exact A|]. intros Hc p p' [= <-] [= <-]. exact (B Hc (proj1 (Hsu Hi))).
    - split; [eapply create_link_fine; eassumption|discriminate]. }
  split.
  - intros Hi. destruct (Hend Hi) as [Hl _]. destruct chain as [c0|]; cbn in Hl; [exact (transitivity Hsu Hl Hi)|].
    destruct (Hnew Hi eq_refl) as [Hn _]. unfold keeps in Hl. destruct (ca_dedup_off a =? 0); [exact (transitivity Hsu Hl Hi)|].
    exact (fine_fresh _ _ _ n Hsu Hl (fun _ => Hn) Hi).
  - intros Hc Hi p p' Hp Hp' Hm. apply (proj2 (Hend Hi)) with p; auto; [apply bool_decide_eq_false; exact Hc|].
    exact (fine_modified _ _ _ Hsu Hi Hm).
Qed.

Lemma chain_rename_fine s p i mtid fl p' s' : chain_rename create_indirect s p i mtid fl = Done (p', s') ->
  fine None s s' /\ (inv s -> modified s p -> modified s' p').
Proof.
  unfold chain_rename. intros H. run.
  match goal with Hc : chain_create _ _ _ _ _ _ = Done _ |- _ => apply chain_create_fine in Hc as [Hf Hm]; [|intros []; reflexivity] end.
  repeat (case_match; try discriminate). run. fines. split; [etransitivity; eassumption|].
  intros Hi Hp. match goal with Hs : fine None _ s' |- _ => apply (fine_modified _ _ _ Hs (proj1 (Hf Hi))) end.
  apply (Hm ltac:(discriminate) Hi p p'); auto.
Qed.

Lemma chain_rename_obref_fine s p i mtid fl ob p' s' : chain_rename_obref create_indirect s p i mtid fl ob = Done (p', s') ->
  (inv s -> modified s p /\ bref_safe ob) -> fine None s s' /\ (inv s -> modified s' p').
Proof.
  unfold chain_rename_obref. intros H Hb. run.
  match goal with Hc : chain_rename _ _ _ _ _ _ = Done _ |- _ => apply chain_rename_fine in Hc as [Hf Hm] end.
  destruct (is_empty ob); run; [split; [assumption|]; intros Hi; apply (Hm Hi), (Hb Hi)|]. fines.
  match goal with Hx : fine None ?t ?u |- _ => match type of Hf with fine None s t =>
    assert (Hu : fine None s u) by (etransitivity; [exact Hf|exact Hx]);
    assert (Hmu : inv s -> modified u p') by (intros Hi; exact (fine_modified _ _ _ Hx (proj1 (Hf Hi)) (Hm Hi (proj1 (Hb Hi)))))
  end end.
  match goal with Hx : table_insert ?u _ _ _ _ _ = Done ?v, Hy : base_of ?u _ = Done _ |- _ =>
    assert (Hv : inv s -> fine None u v) by (intros Hi; apply (table_insert_fine _ _ _ _ _ _ _ Hx); intros Hiu;
      split_and!; [exact (Hmu Hi)|exact (base_of_safe _ _ _ _ Hy Hiu)|apply (Hb Hi)])
  end.
  match goal with Hx : s_nodes ?v !! i = Some ?y |- fine None s ?w /\ _ => match w with put i _ v =>
    assert (Hw : fine None v w) by (case_match; (eapply put_same_fine; [exact Hx|reflexivity|reflexivity|reflexivity|reflexivity|reflexivity|cbn; auto]))
  end end.
  split; intros Hi; specialize (Hv Hi).
  - exact (transitivity Hu (transitivity Hv Hw) Hi).
  - exact (fine_modified _ _ _ (transitivity Hv Hw) (proj1 (Hu Hi)) (Hmu Hi)).
Qed.
End create.

(** ** Indirect blocks *)

Lemma combined_find_slot co rb base count kb ke chain b kn co' :
  hammer2_combined_find co rb base count kb ke = Done (chain, b, kn, co') ->
  co_bref co' = co_bref co /\ (base_safe base -> chain = None -> forall x, b = Some x -> bref_safe x).
Proof.
  unfold hammer2_combined_find. cbv zeta. intros H. run.
  match goal with Hf : hammer2_base_find _ _ _ _ _ = _ |- _ => apply base_find_bref in Hf end.
  assert (Hslot : forall i, base_safe base -> bref_safe (aget (default [] base) i)).
  { intros i Hb. apply aget_P; [exact bref_safe_inhabitant|]. destruct base; [apply Hb; reflexivity|constructor]. }
  repeat (run; case_match); run; (split; [assumption|]); try discriminate; intros Hb _ y [= <-]; apply Hslot, Hb.
Qed.

Lemma indkey_scan_bref {S} (step : S -> blockref -> outcome S) rb base count fuel : forall co kb a a' co',
  indkey_scan step rb base count fuel co kb a = Done (a', co') -> co_bref co' = co_bref co.
Proof.
  induction fuel as [|fuel IH]; intros co kb a a' co' H; [discriminate|]. cbn [indkey_scan] in H. run.
  match goal with Hf : hammer2_combined_find _ _ _ _ _ _ = _ |- _ => apply combined_find_slot in Hf as [E _] end.
  rewrite <- E. repeat (run; case_match); run; try reflexivity; eauto.
Qed.

Lemma ind_range_bref ty co rb base count key kb nc r : ind_range ty co rb base count key kb nc = Done r -> co_bref (snd r) = co_bref co.
Proof.
  unfold ind_range, hammer2_chain_indkey_freemap, hammer2_chain_indkey_file, hammer2_chain_indkey_dir. intros H.
  repeat (case_match; try discriminate); run; repeat (case_match; run); run;
    match goal with Hs : indkey_scan _ _ _ _ _ _ _ _ = _ |- _ => exact (indkey_scan_bref _ _ _ _ _ _ _ _ _ _ Hs) end.
Qed.

Lemma set_core_bref_fine s p x co : s_nodes s !! p = Some x -> co_bref co = co_bref (n_core x) -> fine None s (put p (set_n_core co x) s).
Proof. intros Hx E. apply set_core_fine; [exact Hx|]. rewrite E. reflexivity. Qed.

Section indirect.
Context (rename_obref : fstate -> nat -> nat -> Z -> Z -> blockref -> outcome (nat * fstate)).
Hypothesis ro_fine : forall s p i mtid fl ob p' s', rename_obref s p i mtid fl ob = Done (p', s') ->
  (inv s -> modified s p /\ bref_safe ob) -> fine None s s' /\ (inv s -> modified s' p').

(** One child moves. *)
Lemma move_fine s p i c mtid mtid' fl e ob t q s' : hammer2_chain_delete_obref s p c mtid 0 = Done (e, ob, t) ->
  rename_obref t i c mtid' fl ob = Done (q, s') -> (inv s -> modified s i) -> fine None s s' /\ (inv s -> modified s' q).
Proof.
  intros Hd Hr Hm. apply delete_obref_fine in Hd as [Hst Hob].
  assert (Hts : inv s -> fine None t s' /\ (inv t -> modified s' q)).
  { intros Hi. apply (ro_fine _ _ _ _ _ _ _ _ Hr). intros _. split; [exact (fine_modified _ _ _ Hst Hi (Hm Hi))|exact (Hob Hi)]. }
  split; intros Hi; [exact (transitivity Hst (proj1 (Hts Hi)) Hi)|]. apply (Hts Hi), (Hst Hi).
Qed.

Lemma ind_move_fine loops : forall s p i key kb kbeg mtid s', ind_move rename_obref loops s p i key kb kbeg mtid = Done s' ->
  (inv s -> modified s i) -> fine None s s'.
Proof.
  induction loops as [|loops IH]; intros s p i key kb kbeg mtid s' H Hm; [discriminate|]. cbn [ind_move] in H. run.
  match goal with Hf : hammer2_combined_find _ _ _ _ _ _ = Done _ |- _ => apply combined_find_slot in Hf as [E Hslot] end.
  match goal with Hx : s_nodes s !! p = Some ?x |- _ => match type of E with co_bref ?co = _ => pose proof (set_core_bref_fine s p x co Hx E) as Hp;
    set (t := put p (set_n_core co x) s) in *; clearbody t end end.
  destruct o1 as [b|]; [|run; exact Hp]. run.
  match goal with Hc : context [rounddown_bits] |- _ => match type of Hc with _ = Done ?v => enough (Hv : fine None s v) end end.
  { case_match; run; [exact Hv|]. intros Hi. refine (transitivity Hv _ Hi). eapply IH; [eassumption|]. intros _. exact (fine_modified _ _ _ Hv Hi (Hm Hi)). }
  match goal with Hc : context [rounddown_bits] |- _ => destruct (negb _); run; [exact Hp|] end.
  match goal with Hc : context [chain_get_never t] |- _ => match type of Hc with _ = Done (?c, ?w) =>
    assert (Hw : inv s -> fine None t w) by (intros Hi; destruct o0; [destruct (kid_at _ _ _); run; reflexivity|];
      apply (chain_get_never_fine _ _ _ _ _ Hc); intros _; apply Hslot; [eapply base_of_safe; eassumption|reflexivity|reflexivity]); clear Hc
  end end.
  match goal with Hd : hammer2_chain_delete_obref ?w _ _ _ _ = _, Hr : rename_obref _ _ _ _ _ _ = Done (_, ?v) |- _ =>
    intros Hi; assert (Hsw : fine None s w) by exact (transitivity Hp (Hw Hi)); refine (transitivity Hsw _ Hi);
    apply (move_fine _ _ _ _ _ _ _ _ _ _ _ _ Hd Hr); intros _; exact (fine_modified _ _ _ Hsw Hi (Hm Hi)) end.
Qed.

Lemma create_indirect_fine s p a e np s' : create_indirect rename_obref s p a = Done (e, np, s') ->
  fine None s s' /\ (inv s -> forall p', np = Some p' -> modified s' p').
Proof.
  unfold create_indirect. intros H. run. fines.
  match goal with Hf : fine None s ?t, Hm : _ -> _ -> modified ?t p |- _ => rename Hf into H1', Hm into Hp; set (t1 := t) in *; clearbody t1 end.
  destruct (z =? 0) eqn:Ez; cbn [negb] in H; [|run; split; [exact H1'|discriminate]]. run.
  match goal with Hr : ind_range _ _ _ _ _ _ _ _ = Done _ |- _ => apply ind_range_bref in Hr; cbn in Hr; rename Hr into Er end.
  match goal with Hx : s_nodes t1 !! p = Some ?x |- _ => match type of Er with co_bref ?co = _ => pose proof (set_core_bref_fine t1 p x co Hx Er) as H2';
    set (t2 := put p (set_n_core co x) t1) in *; clearbody t2 end end.
  destruct (add_node _ t2) as [i t3] eqn:Eadd. run. fines.
  match goal with Hn : new_node ?b ?pm = Done ?y, Hr : hammer2_getradix _ = Done ?r |- _ =>
    destruct (add_initial_fine t2 b pm y i t3 Hn (phys_radix r (getradix_lt _ _ Hr)) Eadd) as [H3' _] end.
  match goal with Hf : fine None t3 ?t, Hm : _ -> _ -> modified ?t i |- _ => rename Hf into H4', Hm into Hi4; set (t4 := t) in *; clearbody t4 end.
  assert (Hs3 : fine None s t3) by steps. assert (Hs4 : fine None s t4) by steps.
  match type of H with context [negb (?e =? 0)] => destruct (e =? 0) eqn:Ee; cbn [negb] in H; [|run; split; [exact Hs4|discriminate]] end. run.
  assert (Hi4' : inv s -> modified t4 i) by (intros Hi; apply Hi4; [lia|apply (Hs3 Hi)]).
  match goal with Hv : ind_move _ _ _ _ _ _ _ _ _ = Done ?v |- _ =>
    assert (H5' : inv s -> fine None t4 v) by (intros Hi; apply (ind_move_fine _ _ _ _ _ _ _ _ _ Hv); intros _; exact (Hi4' Hi)); set (t5 := v) in *; clearbody t5 end.
  fines. assert (H6' : fine None t5 s') by steps.
  split; [intros Hi; exact (transitivity Hs4 (transitivity (H5' Hi) H6') Hi)|].
  intros Hi p' [= <-]. assert (H46 : fine None t4 s') by exact (transitivity (H5' Hi) H6').
  destruct (rounddown_bits _ _ =? 0); apply (fine_modified _ _ _ H46 (proj1 (Hs4 Hi))); [exact (Hi4' Hi)|].
  assert (H14 : fine None t1 t4) by steps. apply (fine_modified _ _ _ H14 (proj1 (H1' Hi))). apply Hp; [lia|exact Hi].
Qed.
End indirect.

Lemma create_indirect_at_fine depth : forall s p a e np s', create_indirect_at depth s p a = Done (e, np, s') ->
  fine None s s' /\ (inv s -> forall p', np = Some p' -> modified s' p').
Proof.
  induction depth as [|depth IH]; intros s p a e np s' H; [discriminate|]. cbn [create_indirect_at] in H.
  eapply create_indirect_fine; [|exact H]. intros. eapply chain_rename_obref_fine; eassumption.
Qed.

Lemma create_fine s parent chain pm a e np nc s' : hammer2_chain_create s parent chain pm a = Done (e, np, nc, s') -> dedup_args a -> fine None s s'.
Proof. intros H Hd. exact (proj1 (chain_create_fine _ (create_indirect_at_fine 2) _ _ _ _ _ _ _ _ _ H Hd)). Qed.
Lemma rename_fine s p i mtid fl p' s' : hammer2_chain_rename s p i mtid fl = Done (p', s') -> fine None s s'.
Proof. intros H. exact (proj1 (chain_rename_fine _ (create_indirect_at_fine 2) _ _ _ _ _ _ _ H)). Qed.
Lemma rename_obref_fine s p i mtid fl ob p' s' : hammer2_chain_rename_obref s p i mtid fl ob = Done (p', s') ->
  (inv s -> modified s p /\ bref_safe ob) -> fine None s s' /\ (inv s -> modified s' p').
Proof. intros H Hb. exact (chain_rename_obref_fine _ (create_indirect_at_fine 2) _ _ _ _ _ _ _ _ H Hb). Qed.

(** ** Maintenance *)

Lemma next_child_fine s p base count kb r kn s' : next_child s p base count kb = Done (r, kn, s') -> (inv s -> base_safe base) -> fine None s s'.
Proof.
  unfold next_child. intros H Hb. run.
  match goal with Hf : hammer2_combined_find _ _ _ _ _ _ = Done _ |- _ => apply combined_find_slot in Hf as [E Hslot] end.
  match goal with Hx : s_nodes s !! p = Some ?x |- _ => match type of E with co_bref ?co = _ => pose proof (set_core_bref_fine s p x co Hx E) as Hp end end.
  destruct o0 as [b|]; [|run; exact Hp]. destruct o as [c0|].
  - case_match; run. exact Hp.
  - run. intros Hi. match goal with Hc : chain_get_never _ _ _ = Done _ |- _ => apply chain_get_never_fine in Hc; [exact (transitivity Hp Hc Hi)|] end.
    intros _. exact (Hslot (Hb Hi) eq_refl b eq_refl).
Qed.

Lemma collapse_move_fine loops : forall s p i kb s', collapse_move loops s p i kb = Done s' -> (inv s -> modified s p) -> fine None s s'.
Proof.
  induction loops as [|loops IH]; intros s p i kb s' H Hm; [discriminate|]. cbn [collapse_move] in H. run.
  destruct (node_block s x) as [k|] eqn:Ek; [|discriminate]. run.
  match goal with Hc : next_child _ _ _ _ _ = Done _ |- _ => apply next_child_fine in Hc; [rename Hc into H1'|] end.
  2:{ intros Hi bs [= <-]. exact (node_block_safe _ _ _ Hi Ek). }
  destruct o as [[c b]|]; [|run; exact H1']. run.
  match goal with Hd : hammer2_chain_delete_obref ?w _ _ _ _ = _, Hr : hammer2_chain_rename_obref _ _ _ _ _ _ = Done (?q, ?v) |- _ =>
    assert (Hwv : inv s -> fine None w v /\ modified v q); [|set (s2 := v) in *; clearbody s2] end.
  { intros Hi. match goal with Hd : hammer2_chain_delete_obref _ _ _ _ _ = _, Hr : hammer2_chain_rename_obref _ _ _ _ _ _ = _ |- _ =>
      destruct (move_fine _ rename_obref_fine _ _ _ _ _ _ _ _ _ _ _ _ Hd Hr) as [A B] end.
    - intros _. exact (fine_modified _ _ _ H1' Hi (Hm Hi)).
    - split; [exact A|]. apply B, (H1' Hi). }
  assert (Hs2 : fine None s s2) by (intros Hi; exact (transitivity H1' (proj1 (Hwv Hi)) Hi)).
  match type of H with (if ?t =? 0 then _ else _) = _ => destruct (t =? 0) end; run; [exact Hs2|].
  intros Hi. refine (transitivity Hs2 _ Hi). eapply IH; [exact H|]. intros _. apply (Hwv Hi).
Qed.

Ltac fines2 :=
  repeat (fines; match goal with
  | H : hammer2_chain_delete _ _ _ _ _ = Done _ |- _ => apply delete_fine in H
  end).

Lemma maintenance_fine s p i gone s' : hammer2_chain_indirect_maintenance s p i = Done (gone, s') -> fine None s s'.
Proof.
  unfold hammer2_chain_indirect_maintenance. intros H. run.
  match goal with Hc : context [count_brefs s i] |- _ => match type of Hc with _ = Done ?t =>
    assert (H1' : fine None s t) by (clear H; runs; fines; first [assumption|reflexivity]);
    clear Hc; set (s1 := t) in *; clearbody s1 end end.
  destruct (_ && _); [run; fines2; steps|]. run.
  match goal with Hc : context [count_brefs s1 p] |- _ => match type of Hc with _ = Done ?t =>
    assert (H2' : fine None s1 t) by (clear H; runs; fines; first [assumption|reflexivity]); clear Hc; set (s2 := t) in *; clearbody s2 end end.
  destruct (negb (may_collapse _ _ _)); [run; steps|]. run. fines.
  match goal with Hf : fine None s2 ?t, Hm : _ -> inv s2 -> modified ?t p |- _ => rename Hf into H3', Hm into Hp; set (s3 := t) in *; clearbody s3 end.
  match type of H with context [negb (?e =? 0)] => destruct (e =? 0) eqn:Ee; cbn [negb] in H; [|run; steps] end. run. fines.
  match goal with Hf : fine None s3 ?t, Hm : _ -> inv s3 -> modified ?t i |- _ => rename Hf into H4'; clear Hm; set (s4 := t) in *; clearbody s4 end.
  match type of H with context [negb (?e =? 0)] => destruct (e =? 0); cbn [negb] in H; [|run; steps] end. run.
  match goal with Hx : s_nodes s4 !! i = Some ?x, Hd : hammer2_chain_delete ?t _ _ _ _ = Done (_, ?u) |- _ =>
    assert (H5' : fine None s4 t) by (eapply put_same_fine; [exact Hx|reflexivity|repeat split|reflexivity..|cbn; auto]);
    apply delete_fine in Hd; rename Hd into H6'; set (s5 := t) in *; clearbody s5; set (s6 := u) in *; clearbody s6 end.
  assert (H26 : fine None s2 s6) by steps. assert (H36 : fine None s3 s6) by steps. assert (H02 : fine None s s2) by steps.
  intros Hi. destruct (H02 Hi) as [Hi2 _]. refine (transitivity H02 (transitivity H26 _) Hi).
  eapply collapse_move_fine; [eassumption|]. intros _. apply (fine_modified _ _ _ H36 (proj1 (H3' Hi2))). apply Hp; [lia|exact Hi2].
Qed.

(** ** The flush *)

Lemma setcheck_same x k y : setcheck x k = Done y -> same_place (n_bref y) (n_bref x) /\ n_bytes y = n_bytes x /\ n_data y = n_data x
  /\ is_modified y = is_modified x /\ is_initial y = is_initial x.
Proof. unfold setcheck. intros H. run. repeat split. Qed.

Lemma put_check_fine s t i x k y : s_nodes s !! i = Some x -> fine None s t -> setcheck x k = Done y -> fine None s (put i y t).
Proof. intros Hx Ht Hc. apply setcheck_same in Hc as (A & B & C & D & E). eapply (put_same_fine _ s t i x); eauto. Qed.

Lemma flush_contents_fine s i s' : flush_contents s i = Done s' ->
  (inv s -> forall x o, s_nodes s !! i = Some x -> n_data x = Some o -> ~ F o) -> fine None s s'.
Proof.
  unfold flush_contents. cbv zeta. intros H Hd. run.
  assert (Hvd : forall vd, vd_sroot vd = vd_sroot (s_voldata s) -> vd_fmap vd = vd_fmap (s_voldata s) -> fine None s (set_s_voldata vd s)).
  { intros vd E1 E2. apply voldata_fine. intros Hi. rewrite E1, E2. exact (iv_roots _ Hi). }
  assert (Hvol : forall vd, fine None s (set_s_voldata vd s) -> fine None s (put i (set_volumesync true x) (set_s_volsync (Some vd) (set_s_voldata vd s)))).
  { intros vd Hf. eapply put_same_fine; [exact H0|etransitivity; [exact Hf|apply volsync_fine]|reflexivity..|cbn; auto]. }
  assert (Hdev : forall k o pm, node_block s x = Some k -> n_data x = Some o -> fine None s (dev_put o (set_pfs_inum pm k) s)).
  { intros k o pm Hk Ho. apply dev_fine. intros Hi. split; [exact (Hd Hi x o H0 Ho)|]. exact (node_block_safe _ _ _ Hi Hk). }
  repeat (case_match; try discriminate); run; try reflexivity;
    first [ apply Hvd; reflexivity | apply Hvol, Hvd; reflexivity
          | eapply put_check_fine; [exact H0| |eassumption]; first [reflexivity|apply Hdev; first [assumption|reflexivity]] ].
Qed.

Lemma flush_modified_keep s i s' : flush_modified s i = Done s' -> keep s s'.
Proof.
  unfold flush_modified. intros H. run. destruct (is_modified x) eqn:Em; [|run; reflexivity]. run.
  assert (Hx : inv s -> node_safe (set_modified false x)).
  { intros Hi. eapply node_safe_same; [exact (iv_nodes _ Hi i x H0)|reflexivity|reflexivity|left; reflexivity|discriminate|cbn; auto]. }
  assert (Hput : keep s (put i (set_modified false x) s)) by (apply (put_keep s i x); [exact H0|split; reflexivity|exact Hx]).
  intros Hi. refine (transitivity Hput (fine_keep None _ _ (flush_contents_fine _ _ _ H _)) Hi). intros _ y o Hy Hdo.
  cbn in Hy. rewrite lookup_insert_eq in Hy. injection Hy as <-. rewrite (ns_data _ (Hx Hi) o Hdo).
  apply (ns_open x (iv_nodes _ Hi i x H0)). auto.
Qed.

Lemma flush_blockmap_fine s p i s' : flush_blockmap s p i = Done s' -> (inv s -> modified s p) -> fine None s s'.
Proof.
  unfold flush_blockmap. intros H Hm. run. destruct o as [bs|]; [|run; reflexivity]. run.
  match goal with Hc : context [table_delete s] |- _ => match type of Hc with _ = Done ?t =>
    assert (Ht : fine None s t); [|set (t1 := t) in *; clearbody t1; clear Hc] end end.
  { clear H. destruct (l_blkmapupd _); [|run; reflexivity]. destruct (l_blkmapped _); run.
    - match goal with Hd : table_delete _ _ _ _ _ = Done _ |- _ => apply table_delete_fine in Hd; [apply Hd|] end.
      intros Hi. split; [exact (Hm Hi)|eapply update_base_safe; eassumption].
    - eapply put_same_fine; [eassumption|reflexivity|reflexivity..|cbn; auto]. }
  match type of H with context [l_blkmapped ?l] => destruct (l_blkmapped l) end; [run; exact Ht|]. run. intros Hi. destruct (Ht Hi) as [Hi1 _].
  refine (transitivity Ht (table_insert_fine _ _ _ _ _ _ _ H _) Hi). intros _.
  split_and!; [exact (fine_modified _ _ _ Ht Hi (Hm Hi))|eapply update_base_safe; eassumption|eapply ns_bref, iv_nodes; eassumption].
Qed.

Lemma propagate_fine s p i s' : propagate_tid s p i = Done s' -> fine None s s'.
Proof.
  unfold propagate_tid. intros H. run. case_match; [|reflexivity]. eapply put_same_fine; [eassumption|reflexivity|repeat split|reflexivity..|cbn; auto].
Qed.

Lemma flush_update_fine s p i e s' : flush_update s p i = Done (e, s') -> fine None s s'.
Proof.
  unfold flush_update. intros H. run.
  match goal with Hx : s_nodes s !! i = Some ?x, Hy : s_nodes ?t !! p = Some _ |- _ =>
    assert (H1' : fine None s t) by (eapply put_same_fine; [exact Hx|reflexivity..|cbn; auto]); set (s1 := t) in *; clearbody s1 end.
  destruct (is_destroy _).
  - run. match goal with Hp : propagate_tid _ _ _ = Done ?t |- _ => apply propagate_fine in Hp; assert (H2' : fine None s t) by steps end.
    etransitivity; [exact H2'|]. eapply put_same_fine; [eassumption|reflexivity..|cbn; auto].
  - run. match goal with Hc : context [hammer2_chain_indirect_maintenance s1] |- _ => match type of Hc with _ = Done (_, ?t) =>
      assert (H2' : fine None s1 t) by (clear H; runs; first [eapply maintenance_fine; eassumption|reflexivity]); set (s2 := t) in *; clearbody s2; clear Hc end end.
    destruct b; [run; steps|]. run. fines.
    match goal with Hf : fine None s2 ?t, Hm : _ -> inv s2 -> modified ?t p |- _ => rename Hf into H3', Hm into Hp; set (s3 := t) in *; clearbody s3 end.
    assert (H02 : fine None s s2) by steps. assert (H03 : fine None s s3) by steps.
    match type of H with context [negb (?e =? 0)] => destruct (e =? 0) eqn:Ee; cbn [negb] in H end; run.
    + match goal with Hq : propagate_tid _ _ _ = Done ?t, Hb : flush_blockmap _ _ _ = Done _ |- _ => apply propagate_fine in Hq; rename Hq into H4';
        set (s4 := t) in *; clearbody s4; rename Hb into H5 end.
      intros Hi. assert (H04 : fine None s s4) by (transitivity s3; assumption). refine (transitivity H04 (flush_blockmap_fine _ _ _ _ H5 _) Hi).
      intros _. apply (fine_modified _ _ _ H4' (proj1 (H03 Hi))). apply Hp; [lia|apply (H02 Hi)].
    + etransitivity; [exact H03|]. eapply put_same_fine; [eassumption|reflexivity..|cbn; auto].
Qed.

Lemma flush_up_keep flags s parent i e e' r s' : flush_up flags s parent i e = Done (e', r, s') -> keep s s'.
Proof.
  unfold flush_up. intros H. run.
  match goal with Hc : context [hammer2_chain_lock s] |- _ => match type of Hc with _ = Done ?t =>
    assert (H1' : fine None s t) by (clear H; runs; fines; first [assumption|reflexivity]); set (s1 := t) in *; clearbody s1; clear Hc end end.
  fines. match goal with Hc : fine None s1 ?t |- _ => assert (H2' : fine None s t) by (transitivity s1; assumption); set (s2 := t) in *; clearbody s2 end.
  destruct (_ || _); [run; exact (fine_keep _ _ _ H2')|].
  match type of H with context [bool_decide ?P] => destruct (bool_decide P) end; [run; exact (fine_keep _ _ _ H2')|]. run.
  match goal with Hx : s_nodes s2 !! i = Some ?x, Hc : flush_modified ?t i = Done ?u |- _ =>
    assert (H3' : fine None s2 t) by (clear H; match goal with |- fine _ _ (if ?b then _ else _) => destruct b end; [eapply put_same_fine; [exact Hx|reflexivity..|cbn; auto]|reflexivity]);
    apply flush_modified_keep in Hc; set (s3 := t) in *; clearbody s3; set (s4 := u) in *; clearbody s4 end.
  assert (H4' : keep s s4) by steps.
  destruct parent as [p|]; run.
  - repeat (run; case_match); run; try exact H4'; match goal with Hc : flush_update _ _ _ = Done _ |- _ => apply flush_update_fine in Hc; steps end.
  - etransitivity; [exact H4'|]. eapply (fine_keep None), put_same_fine; [eassumption|reflexivity..|cbn; auto].
Qed.

Section recursion.
Context (core : fstate -> nat -> nat -> Z -> outcome (Z * fstate)) (flags : Z).
Hypothesis core_keep : forall s p i e e' s', core s p i e = Done (e', s') -> keep s s'.

Lemma flush_recurse_keep s p i e e' s' : flush_recurse core flags s p i e = Done (e', s') -> keep s s'.
Proof.
  unfold flush_recurse. intros H. run. fines.
  match goal with Hc : fine None s ?t |- _ => rename Hc into H1'; set (s1 := t) in *; clearbody s1 end.
  match goal with Hc : fine None ?t s' |- _ => rename Hc into H9' ; set (s8 := t) in *; clearbody s8 end.
  assert (Hk : keep s1 s8); [|steps].
  destruct (bool_decide _); [run; reflexivity|]. destruct (negb _); [run; reflexivity|]. run.
  match goal with Hc : context [put i ?x s1] |- _ =>
    assert (H2' : fine None s1 (put i x s1)) by (clear Hc; match goal with |- context [if ?b then _ else _] => destruct b end;
      (eapply put_same_fine; [eassumption|reflexivity..|cbn; auto])); set (s2 := put i x s1) in *; clearbody s2 end.
  apply fine_keep in H2'. destruct (_ && negb (tst (br_key _) _)).
  - run. fines. match goal with Hc : (if ?b then _ else _) = Done s8 |- _ => destruct b end; run; fines; steps.
  - match goal with Hc : (if ?b then core _ _ _ _ else _) = _ |- _ => destruct b; [apply core_keep in Hc|run]; steps end.
Qed.

Lemma flush_scan_keep fuel : forall s p next e e' s', flush_scan core flags fuel s p next e = Done (e', s') -> keep s s'.
Proof.
  induction fuel as [|fuel IH]; intros s p next e e' s' H; cbn [flush_scan] in H; (destruct next as [i|]; [|run; reflexivity]); [discriminate|].
  run. destruct (next_in _ _); [|discriminate]. run.
  match goal with Hc : flush_recurse _ _ _ _ _ _ = _ |- _ => apply flush_recurse_keep in Hc; etransitivity; [exact Hc|eapply IH; eassumption] end.
Qed.
Lemma scan_children_keep s p e e' s' : scan_children core flags s p e = Done (e', s') -> keep s s'.
Proof. unfold scan_children. intros H. run. eapply flush_scan_keep; eassumption. Qed.

Lemma flush_down_keep s i e e' s' : flush_down core flags s i e = Done (e', s') -> keep s s'.
Proof.
  unfold flush_down. intros H. run.
  assert (Hput : forall t y, s_nodes t !! i = Some y -> keep t (put i (set_onflush false y) t)).
  { intros t y Hy. apply (fine_keep None). eapply put_same_fine; [exact Hy|reflexivity..|cbn; auto]. }
  match goal with Hc : scan_children _ _ (put i _ s) _ _ = Done (_, ?t) |- _ => apply scan_children_keep in Hc; assert (H1' : keep s t) by (etransitivity; [apply Hput; eassumption|exact Hc]);
    set (s1 := t) in *; clearbody s1 end.
  match goal with Hc : context [put i _ s1] |- _ => match type of Hc with _ = Done (_, ?t) =>
    assert (H2' : keep s1 t) by (match type of Hc with (if ?b then _ else _) = _ => destruct b end; run; [etransitivity; [apply Hput; eassumption|eapply scan_children_keep; eassumption]|reflexivity]);
    set (s2 := t) in *; clearbody s2; clear Hc end end.
  match goal with Hc : (if ?b then _ else _) = Done s' |- _ => destruct b end; run; fines; steps.
Qed.
End recursion.

Lemma flush_core_keep depth info : forall s parent i flags e e' r s',
  hammer2_flush_core depth info s parent i flags e = Done (e', r, s') -> keep s s'.
Proof.
  induction depth as [|depth IH]; intros s parent i flags e e' r s' H; cbn [hammer2_flush_core] in H; run;
    (destruct (negb (flush_mask x)); [run; reflexivity|]); run.
  all: match type of H with (if ?b then _ else _) = _ => destruct b end;
    [run; match goal with Hc : context [hammer2_chain_setflush] |- _ => match type of Hc with (if ?b then _ else _) = _ => destruct b end end; run; [destruct (n_parent x); run; fines; steps|reflexivity]|].
  all: match type of H with (if ?b then _ else _) = _ => destruct b end; [run; reflexivity|]. 1: discriminate. run.
  match goal with Hc : context [flush_down] |- _ => match type of Hc with _ = Done (_, ?t) =>
    assert (H1' : keep s t); [|set (s1 := t) in *; clearbody s1; clear Hc] end end.
  { clear H. case_match; run; [|reflexivity]. eapply flush_down_keep; [|eassumption]. intros ? ? ? ? ? ? Hc. cbn beta in Hc. run. eapply IH; eassumption. }
  match type of H with context [bool_decide ?P] => destruct (bool_decide P) end; [run; exact H1'|].
  apply flush_up_keep in H. steps.
Qed.

Lemma flush_loop_keep loops info : forall s i flags e e' s', flush_loop loops info s i flags e = Done (e', s') -> keep s s'.
Proof.
  induction loops as [|loops IH]; intros s i flags e e' s' H; [discriminate|]. cbn [flush_loop] in H. run.
  match goal with Hc : hammer2_flush_core _ _ _ _ _ _ _ = _ |- _ => apply flush_core_keep in Hc; rename Hc into H1' end.
  destruct b; [etransitivity; [exact H1'|eapply IH; eassumption]|run; exact H1'].
Qed.
Lemma flush_keep s i flags e s' : hammer2_flush s i flags = Done (e, s') -> keep s s'.
Proof. unfold hammer2_flush. apply flush_loop_keep. Qed.

Lemma voldata_modify_keep s s' : Flush.hammer2_voldata_modify s = Done s' -> keep s s'.
Proof.
  unfold hammer2_voldata_modify. intros H. run. case_match; run; [reflexivity|].
  apply (put_keep s _ x); [exact H0|split; reflexivity|]. intros Hi.
  assert (Hr : is_root x = true) by (destruct (iv_vol _ Hi) as (v & Hv & Hr); congruence).
  destruct (iv_nodes _ Hi _ _ H0) as [A B C D]. constructor; [exact A|intros _; apply D; left; exact Hr|exact C|exact D].
Qed.

Lemma flush_volume_keep s iroot e s' : flush_volume s iroot = Done (e, s') -> keep s s'.
Proof.
  unfold flush_volume. intros H. run.
  match goal with Hc : match iroot with _ => _ end = Done (_, ?t) |- _ =>
    assert (H1' : keep s t) by (destruct iroot; run; fines; [match goal with Hf : hammer2_flush _ _ _ = _ |- _ => apply flush_keep in Hf end; steps|reflexivity]);
    set (s1 := t) in *; clearbody s1; clear Hc end.
  match goal with Hc : context [hammer2_voldata_modify s1] |- _ => match type of Hc with _ = Done (_, ?t) =>
    assert (H2' : keep s1 t) by (match type of Hc with (if ?b then _ else _) = _ => destruct b end; run; [|reflexivity];
      match goal with Hv : hammer2_voldata_modify _ = _, Hf : hammer2_flush _ _ _ = _ |- _ => apply voldata_modify_keep in Hv; apply flush_keep in Hf end; steps);
    set (s2 := t) in *; clearbody s2; clear Hc end end.
  match goal with Hc : context [hammer2_flush s2] |- _ => match type of Hc with _ = Done (_, ?t) =>
    assert (H3' : keep s2 t) by (match type of Hc with (if ?b then _ else _) = _ => destruct b end; run; [|reflexivity];
      match goal with Hf : hammer2_flush _ _ _ = _ |- _ => exact (flush_keep _ _ _ _ _ Hf) end); set (s3 := t) in *; clearbody s3; clear Hc end end.
  assert (H03 : keep s s3) by steps. destruct (s_volsync s3); [|run; exact H03].
  match type of H with (if ?b then _ else _) = _ => destruct b end; run; [|exact H03].
  etransitivity; [exact H03|]. etransitivity; [|apply (fine_keep None), header_fine].
  apply (fine_keep None). eapply put_same_fine; [eassumption|reflexivity..|cbn; auto].
Qed.

Lemma inode_flush_keep s chain iroot a b c e s' : hammer2_xop_inode_flush s chain iroot a b c = Done (e, s') -> keep s s'.
Proof.
  unfold hammer2_xop_inode_flush. cbv zeta. intros H. run.
  match goal with Hc : context [hammer2_chain_lock s] |- _ => match type of Hc with _ = Done (_, ?t) =>
    assert (H1' : keep s t); [|set (s1 := t) in *; clearbody s1; clear Hc] end end.
  { clear H. destruct chain as [ch|]; run; [|reflexivity]. fines.
    match goal with Hf : fine None s ?t |- _ => set (s0 := t) in *; clearbody s0 end.
    match goal with Hc : (if flush_mask _ then _ else _) = _ |- _ => destruct (flush_mask _) end; run; [|steps].
    match goal with Hf : hammer2_flush _ _ _ = _ |- _ => apply flush_keep in Hf end.
    match goal with Hc : context [n_parent] |- _ => destruct (n_parent _) end; run; fines; steps. }
  match goal with Hc : (if ?b then _ else _) = _ |- _ => destruct b end; [etransitivity; [exact H1'|eapply flush_volume_keep; eassumption]|run; exact H1'].
Qed.
End ops.
