(* ===== verification/Cow.v ===== *)
(** Copy on write: what is on the medium stays on the medium.  Whatever operations
    run on the topology, and however many of their writes have reached the device,
    the main topology of the last volume header is intact: the tree from its
    sroot_blockset, with the inodes, directories and file data.

    The tree from freemap_blockset is not claimed to be: its blocks rotate through eight
    fixed slots of the reserved segments (FreemapMaint), so the eighth modification of a
    freemap block takes the slot of the first again.  What a mount does about it is in
    Recovery. *)

From Stdlib Require Import ZArith Lia Bool.
From stdpp Require Import base numbers list option gmap.
From S2P Require Import Prelude Disk Subr Check BlockTable ChainFind ChainCore Topology Reshape Flush FreemapStorage CowProof CowOps.

(** * The tree on a device *)

Section tree.
Context (dev : gmap Z block) (roots : list blockref).
(** A blockref that has a block, and one whose block holds blockrefs. *)
Definition stored (b : blockref) : Prop := chain_bytes b <> 0 /\ phys (br_data_off b) <> 0.
Definition has_table (b : blockref) : Prop :=
  br_type b = HAMMER2_BREF_TYPE_INODE \/ br_type b = HAMMER2_BREF_TYPE_INDIRECT \/ br_type b = HAMMER2_BREF_TYPE_FREEMAP_NODE.

Inductive reach : blockref -> Prop :=
| reach_root b : b ∈ roots -> reach b
| reach_child b b' k : reach b -> has_table b -> stored b -> dev !! phys (br_data_off b) = Some k -> b' ∈ blk_table k -> reach b'.

(** The blocks of the tree; contents without a check code may be overwritten. *)
Definition protected (o : Z) : Prop := exists b, reach b /\ ~ in_place b /\ stored b /\ phys (br_data_off b) = o.
End tree.

Lemma has_table_kept b : has_table b -> ~ in_place b.
Proof. unfold has_table, in_place. intros [H|[H|H]] [[E|E] _]; congruence. Qed.

(** Devices that agree on the protected blocks have the same tree. *)
Lemma reach_agree dev dev' roots b : (forall o, protected dev roots o -> dev' !! o = dev !! o) ->
  reach dev roots b <-> reach dev' roots b.
Proof.
  intros H. split; intros Hr.
  - induction Hr as [b Hb|b b' k Hr IH Ht Hs Hk Hb]; [apply reach_root; exact Hb|].
    eapply reach_child; [exact IH|exact Ht|exact Hs| |exact Hb]. rewrite H; [exact Hk|]. exists b. auto using has_table_kept.
  - induction Hr as [b Hb|b b' k Hr IH Ht Hs Hk Hb]; [apply reach_root; exact Hb|].
    eapply reach_child; [exact IH|exact Ht|exact Hs| |exact Hb]. rewrite <- H; [exact Hk|]. exists b. auto using has_table_kept.
Qed.

Lemma replay_other l dev o : Forall (fun w => w.1 <> o) l -> replay l dev !! o = dev !! o.
Proof. induction 1 as [|w l Hw _ IH]; [reflexivity|]. cbn. rewrite lookup_insert_ne by exact Hw. exact IH. Qed.

(** Both trees of a volume header; the main one is that of [vd_sroot]. *)
Definition tree_roots (vd : voldata) : list blockref := vd_sroot vd ++ vd_fmap vd.
Lemma main_reach dev vd b : reach dev (vd_sroot vd) b -> reach dev (tree_roots vd) b.
Proof.
  induction 1 as [b Hb|b b' k Hr IH Ht Hs Hk Hb]; [apply reach_root, elem_of_app; auto|]. eapply reach_child; eassumption.
Qed.

Lemma protected_zero dev roots : ~ protected dev roots 0.
Proof. intros (b & _ & _ & [_ H] & E). contradiction. Qed.
(** The main topology is outside the reserved segments, where the allocator never puts
    its blocks ([FreemapAlloc.freemap_alloc_correct]). *)
Definition outside_reserve (dev : gmap Z block) (roots : list blockref) : Prop := forall o, protected dev roots o -> ~ in_reserve o.
Definition protect (dev : gmap Z block) (roots : list blockref) (H : outside_reserve dev roots) : Protected :=
  {| F := protected dev roots; dev0 := dev; F_zero := protected_zero dev roots; F_area := H |}.

(** * Operations *)

Section machine.
Context {ST : Storage} {SL : StorageLaws ST}.

Inductive op :=
| OLock (i : nat) (how : resolve)
| OGet (p : nat) (key : Z)                              (* the child of [p] from [key] on *)
| OModify (i : nat) (mtid flags : Z)
| OWrite (i : nat) (raw : list Z)                       (* a store through chain->data *)
| OCreate (parent chain : option nat) (pmp : option pfs) (a : create_args)
| ODelete (parent : option nat) (i : nat) (mtid flags : Z)
| ORename (p i : nat) (mtid flags : Z)
| OFlush (chain iroot : option nat) (inode_stop fssync volhdr : bool).

Definition write_data (s : fstate) (i : nat) (raw : list Z) : outcome fstate :=
  let! x := nd s i in
  assert! is_modified x;
  match n_data x with
  | Some off => Done (dev_put off (Block raw (blk_table (dev_get s off))) s)
  | None => Panic
  end.

Definition op_step (s : fstate) (o : op) : outcome fstate :=
  match o with
  | OLock i how => hammer2_chain_lock s i how
  | OGet p key =>
      let! x := nd s p in
      let! (base, count) := base_of s x in
      let! (_, _, s) := next_child s p base count key in
      Done s
  | OModify i mtid flags => let! (_, s) := hammer2_chain_modify s i mtid 0 flags in Done s
  | OWrite i raw => write_data s i raw
  | OCreate parent chain pmp a => let! (_, _, _, s) := hammer2_chain_create s parent chain pmp a in Done s
  | ODelete parent i mtid flags => let! (_, s) := hammer2_chain_delete s parent i mtid flags in Done s
  | ORename p i mtid flags => let! (_, s) := hammer2_chain_rename s p i mtid flags in Done s
  | OFlush chain iroot a b c => let! (_, s) := hammer2_xop_inode_flush s chain iroot a b c in Done s
  end.

Fixpoint op_run (s : fstate) (l : list op) : outcome fstate :=
  match l with
  | [] => Done s
  | o :: l => let! s := op_step s o in op_run s l
  end.

(** Chains are created without dedup here; FileSafe adds the writes that share blocks. *)
Definition op_ok (o : op) : Prop :=
  match o with OCreate _ _ _ a => ca_dedup_off a = 0 | _ => True end.

Lemma op_step_keep {PR : Protected} s o s' : op_ok o -> op_step s o = Done s' -> keep s s'.
Proof.
  destruct o; cbn [op_ok op_step]; intros Hok H; run.
  - exact (fine_keep _ _ _ (lock_fine _ _ _ _ H)).
  - apply (fine_keep None). eapply next_child_fine; [eassumption|]. intros Hi. eapply base_of_safe; eassumption.
  - eapply fine_keep, modify0_fine. eassumption.
  - unfold write_data in H. run. destruct (n_data x) as [off|] eqn:Ed; run. apply (fine_keep None), dev_fine. intros Hi.
    split; [|apply dev_get_tables, Hi]. apply (modified_data s i x off Hi); auto. exists x. auto.
  - apply (fine_keep None). eapply create_fine; [eassumption|]. intros Hne. contradiction.
  - eapply fine_keep, delete_fine. eassumption.
  - eapply fine_keep, rename_fine. eassumption.
  - eapply inode_flush_keep. eassumption.
Qed.

Lemma op_run_keep {PR : Protected} l : forall s s', Forall op_ok l -> op_run s l = Done s' -> keep s s'.
Proof.
  induction l as [|o l IH]; cbn [op_run]; intros s s' Hok H; run; [reflexivity|]. apply Forall_cons in Hok as [Ho Hl].
  etransitivity; [eapply op_step_keep; eassumption|eauto].
Qed.

(** * A mounted volume *)

(** Nothing is modified, chains in memory are on the device, the freemap knows every
    block of the main topology, these are outside the reserved segments, and none of them
    is shared with a block that may be overwritten in place. *)
Record mounted_clean (s : fstate) : Prop := {
  mc_nodes : forall i x, s_nodes s !! i = Some x ->
    is_modified x = false /\ is_initial x = false /\ (forall o, n_data x = Some o -> o = n_phys x)
    /\ (is_root x = true /\ n_phys x = 0 \/ is_root x = false /\ reach (s_dev s) (tree_roots (s_header s)) (n_bref x) /\ n_bytes x = chain_bytes (n_bref x));
  mc_next : forall i, (s_next s <= i)%nat -> s_nodes s !! i = None;
  mc_vchain : exists v, s_nodes s !! s_vchain s = Some v /\ is_root v = true;
  mc_emerg : s_emerg s = false;
  mc_header : tree_roots (s_voldata s) = tree_roots (s_header s);
  mc_log : s_log s = [];
  mc_freemap : forall o, protected (s_dev s) (vd_sroot (s_header s)) o -> ba_in_use (s_alloc s) o;
  mc_area : outside_reserve (s_dev s) (vd_sroot (s_header s));
  mc_device : forall o k, s_dev s !! o = Some k ->
    blk_table k = [] \/ exists b, reach (s_dev s) (tree_roots (s_header s)) b /\ has_table b /\ stored b /\ phys (br_data_off b) = o;
  mc_unshared : forall b, reach (s_dev s) (tree_roots (s_header s)) b -> in_place b \/ chain_bytes b = 0 ->
    ~ protected (s_dev s) (vd_sroot (s_header s)) (phys (br_data_off b))
}.
(** The blocks of the main topology, protected. *)
Definition protect_main (s : fstate) (H : mounted_clean s) : Protected := protect (s_dev s) (vd_sroot (s_header s)) (mc_area s H).

Lemma mounted_inv s (H : mounted_clean s) : @inv ST (protect_main s H) s.
Proof.
  set (PR := protect_main s H). destruct H as [A B C D E G H Har I J].
  assert (Hsafe : forall b, reach (s_dev s) (tree_roots (s_header s)) b -> @bref_safe PR b).
  { intros b Hb Hc. exact (J b Hb Hc). }
  constructor; auto.
  - intros i x Hx. destruct (A i x Hx) as (Hm & Hi & Hd & Hcase). constructor; [exact Hd|rewrite Hm, Hi; intuition discriminate| |].
    + destruct Hcase as [[_ Hp]|(_ & Hr & _)]; [|exact (Hsafe _ Hr)]. apply bref_safe_phys. unfold n_phys in Hp. rewrite Hp. exact F_zero.
    + destruct Hcase as [[_ ->]|(-> & Hr & ->)]; [intros _; exact F_zero|]. intros [|Hz]; [discriminate|]. apply (Hsafe _ Hr). auto.
  - intros o k Hk. apply Forall_forall. intros b Hb. destruct (I o k Hk) as [E0|(c & Hc & Ht & Hs & <-)].
    + rewrite E0 in Hb. apply elem_of_nil in Hb as [].
    + apply Hsafe. eapply reach_child; eassumption.
  - assert (Hall : Forall bref_safe (tree_roots (s_voldata s))).
    { rewrite E. apply Forall_forall. intros b Hb. apply Hsafe, reach_root, Hb. }
    unfold tree_roots in Hall. apply Forall_app in Hall. exact Hall.
  - rewrite G. constructor.
  - rewrite G. reflexivity.
Qed.

(** The invariant protects the tree: whatever part of the log is written. *)
Lemma inv_keeps_tree s0 roots Ha w {s} : @inv ST (protect (s_dev s0) roots Ha) s -> (forall x, x ∈ w -> x ∈ s_log s) ->
  (forall o, protected (s_dev s0) roots o -> replay w (s_dev s0) !! o = s_dev s0 !! o)
  /\ (forall b, reach (replay w (s_dev s0)) roots b <-> reach (s_dev s0) roots b).
Proof.
  intros Hi Hw. assert (Ho : forall o, protected (s_dev s0) roots o -> replay w (s_dev s0) !! o = s_dev s0 !! o).
  { intros o Ho. apply replay_other, Forall_forall. intros x Hx E. pose proof (@iv_log _ _ _ Hi) as Hl. rewrite Forall_forall in Hl.
    apply (Hl x (Hw x Hx)). rewrite E. exact Ho. }
  split; [exact Ho|]. intros b. symmetry. apply reach_agree. exact Ho.
Qed.

(** C19. Copy on write, as crash consistency.  From a cleanly mounted volume, run any
    sequence of operations: loads, lookups, [hammer2_chain_modify], stores through
    chain->data, creation, deletion and renaming of chains with the indirect blocks
    they create, flushes with their maintenance and the commit, of the main topology and
    of the freemap.  Let any of the writes made so far reach the device, in any order.
    Then every block of the main topology of the volume header at mount time (from its
    sroot_blockset) that is not check-less contents is as it was, so that header still
    leads to exactly the same main topology.  The blocks of the freemap itself, which
    rotate through their eight reserved slots, are not covered. *)
Theorem committed_tree_survives s0 l s w dev :
  mounted_clean s0 -> Forall op_ok l -> op_run s0 l = Done s ->
  (forall x, x ∈ w -> x ∈ s_log s) -> dev = replay w (s_dev s0) ->
  let roots := vd_sroot (s_header s0) in
  (forall o, protected (s_dev s0) roots o -> dev !! o = s_dev s0 !! o)
  /\ (forall b, reach dev roots b <-> reach (s_dev s0) roots b).
Proof.
  intros Hm Hok Hrun Hw -> roots.
  destruct (op_run_keep (PR := protect_main s0 Hm) l s0 s Hok Hrun (mounted_inv s0 Hm)) as [Hi _]. exact (inv_keeps_tree _ _ _ w Hi Hw).
Qed.

(** C20. What a chain is never changes: over any sequence of operations from a cleanly
    mounted volume, no node is lost, and each keeps the type of its block and its
    check and compression methods; the volume root stays the volume root; and a
    MODIFIED node never has its data in a block of the main topology of the volume
    header at mount time.  (The flush relies on it when it chooses how to fix a check
    code, and the modify when it decides whether to overwrite.) *)
Theorem chains_keep_their_type s0 l s i x :
  mounted_clean s0 -> Forall op_ok l -> op_run s0 l = Done s -> s_nodes s0 !! i = Some x ->
  exists y, s_nodes s !! i = Some y /\ n_type y = n_type x /\ br_methods (n_bref y) = br_methods (n_bref x)
            /\ (is_modified y = true -> ~ protected (s_dev s0) (vd_sroot (s_header s0)) (n_phys y)).
Proof.
  intros Hm Hok Hrun Hx. set (PR := protect_main s0 Hm).
  destruct (op_run_keep (PR := PR) l s0 s Hok Hrun (mounted_inv s0 Hm)) as [Hi Hk].
  destruct (Hk i x Hx) as (y & Hy & K1 & K2). exists y. split_and!; try assumption.
  intros Hmod. apply (ns_open _ (iv_nodes _ Hi i y Hy)). auto.
Qed.
End machine.
(** * A volume with one inode *)

Section demo.
#[local] Existing Instance bump.
#[local] Existing Instance bump_laws.

(** Create a data chain under the inode and write it, and a leaf of the freemap; flush
    everything, and commit. *)
Definition demo_ops : list op :=
  [OLock 2 RESOLVE_ALWAYS; OCreate (Some 2%nat) None None (CreateArgs 48 0 16 HAMMER2_BREF_TYPE_DATA 1024 9 0 0);
   OModify 3 9 0; OWrite 3 (replicate 1024 7); OLock 1 RESOLVE_ALWAYS;
   OCreate (Some 1%nat) None None (CreateArgs 80 0 30 HAMMER2_BREF_TYPE_FREEMAP_LEAF 32768 9 0 0); OModify 4 9 0;
   OFlush (Some 2%nat) None false true true; OModify 2 10 0].

Lemma demo_tree_reach b : reach (s_dev demo) (tree_roots (s_header demo)) b -> b = demo_inode \/ b = bref_zero.
Proof.
  induction 1 as [b Hb|b b' k Hr IH Ht Hs Hk Hb].
  - change (b ∈ [demo_inode; bref_zero; bref_zero; bref_zero; bref_zero; bref_zero; bref_zero; bref_zero]) in Hb.
    repeat (apply elem_of_cons in Hb as [->|Hb]; [auto|]). apply elem_of_nil in Hb as [].
  - destruct IH as [-> | ->]; [|destruct Hs as [[] _]; reflexivity]. vm_compute in Hk. injection Hk as <-. right.
    cbn in Hb. repeat (apply elem_of_cons in Hb as [->|Hb]; [reflexivity|]). apply elem_of_nil in Hb as [].
Qed.
Lemma demo_protected o : protected (s_dev demo) (vd_sroot (s_header demo)) o -> o = 4259840.
Proof.
  intros (b & Hb%main_reach & _ & [Hs _] & <-). destruct (demo_tree_reach b Hb) as [-> | ->]; [reflexivity|]. destruct Hs. reflexivity.
Qed.

Lemma demo_clean : mounted_clean demo.
Proof.
  constructor; try reflexivity.
  - intros i x Hx. assert (Hi : reach (s_dev demo) (tree_roots (s_header demo)) demo_inode) by (apply reach_root, list_elem_of_here).
    cbn in Hx. apply lookup_insert_Some in Hx as [[_ <-]|[_ Hx]]; [|apply lookup_insert_Some in Hx as [[_ <-]|[_ Hx]]; [|apply lookup_singleton_Some in Hx as [_ <-]]];
      (split; [reflexivity|]; split; [reflexivity|]; split; [discriminate|]); [left; split; reflexivity..|right; split; [reflexivity|split; [exact Hi|reflexivity]]].
  - intros i Hi. cbn in Hi |- *. rewrite !lookup_insert_ne, lookup_singleton_ne by lia. reflexivity.
  - eexists. split; reflexivity.
  - intros o ->%demo_protected. reflexivity.
  - intros o ->%demo_protected H. vm_compute in H. discriminate.
  - intros o k Hk. right. exists demo_inode. split; [apply reach_root, list_elem_of_here|]. split; [left; reflexivity|].
    split; [split; discriminate|]. cbn in Hk. apply lookup_singleton_Some in Hk as [<- _]. reflexivity.
  - intros b [-> | ->]%demo_tree_reach; [intros [[[H|H] _]|H]; discriminate|]. intros _ H%demo_protected. discriminate.
Qed.

Lemma committed_tree_survives_witness :
  match op_run demo demo_ops with
  | Done s => length (s_log s) = 6%nat /\ existsb (fun w => w.1 <? HAMMER2_ZONE_SEG) (s_log s) = true
              /\ forall b, reach (replay (s_log s) (s_dev demo)) (vd_sroot demo_vol) b <-> reach (s_dev demo) (vd_sroot demo_vol) b
  | Panic => False
  end.
Proof.
  assert (Hl : match op_run demo demo_ops with Done s => length (s_log s) = 6%nat /\ existsb (fun w => w.1 <? HAMMER2_ZONE_SEG) (s_log s) = true | Panic => False end)
    by (vm_compute; split; reflexivity).
  destruct (op_run demo demo_ops) as [s|] eqn:E; [|contradiction Hl]. split; [apply Hl|]. split; [apply Hl|].
  refine (proj2 (committed_tree_survives demo demo_ops s (s_log s) _ demo_clean _ E (fun x H => H) eq_refl)).
  repeat constructor.
Defined.

Lemma chains_keep_their_type_witness :
  match op_run demo demo_ops with
  | Done s => exists y, s_nodes s !! 2%nat = Some y /\ n_type y = HAMMER2_BREF_TYPE_INODE /\ is_modified y = true
                        /\ ~ protected (s_dev demo) (vd_sroot demo_vol) (n_phys y)
  | Panic => False
  end.
Proof.
  assert (Hl : match op_run demo demo_ops with Done s => option_map is_modified (s_nodes s !! 2%nat) = Some true | Panic => False end) by (vm_compute; reflexivity).
  destruct (op_run demo demo_ops) as [s|] eqn:E; [|exact Hl].
  destruct (chains_keep_their_type demo demo_ops s 2 _ demo_clean ltac:(repeat constructor) E eq_refl) as (y & Hy & Ht & _ & Hp).
  rewrite Hy in Hl. injection Hl as Hl. exists y. split_and!; auto.
Defined.
End demo.
