(* ===== verification/Lz4.v ===== *)
(** LZ4 (hammer2_lz4.c, hammer2_lz4_encoder.h): the compressor and the decompressor
    of file data, with every access to a buffer checked: an access outside is
    [Panic].  The proofs are in Lz4Decode, Lz4Format, Lz4Encode and
    Lz4Theorems. *)

From Stdlib Require Import ZArith Lia Bool.
From stdpp Require Import base numbers list option.
From S2P Require Import Prelude Disk Crc Xxh Check.

Abbreviation MINMATCH := 4 (only parsing).
Abbreviation COPYLENGTH := 8 (only parsing).
Abbreviation LASTLITERALS := 5 (only parsing).
Abbreviation MFLIMIT := 12 (only parsing).
Abbreviation MINLENGTH := 13 (only parsing).
Abbreviation LZ4_64KLIMIT := 65547 (only parsing).
Abbreviation SKIPSTRENGTH := 6 (only parsing).
Abbreviation MAX_DISTANCE := 65535 (only parsing).
Abbreviation ML_BITS := 4 (only parsing).
Abbreviation ML_MASK := 15 (only parsing).
Abbreviation RUN_MASK := 15 (only parsing).
(** COMPRESS_64K is never defined: both functions of the encoder have 12 bits of hash
    and 32-bit cells. *)
Abbreviation HASHLOG := 12 (only parsing).       (* MEMORY_USAGE - 2 *)
Abbreviation STEPSIZE := 8 (only parsing).      (* LZ4_ARCH64 *)

(** * Memory *)

(** [n] bytes from [i] on; a store of the bytes [l] at [i]. *)
Definition rd_n (b : list Z) (i n : Z) : outcome (list Z) :=
  assert! (0 <=? i) && (0 <=? n) && (i + n <=? alen b);
  Done (take (Z.to_nat n) (drop (Z.to_nat i) b)).
Definition wr_n (b : list Z) (i : Z) (l : list Z) : outcome (list Z) :=
  assert! (0 <=? i) && (i + alen l <=? alen b);
  Done (take (Z.to_nat i) b ++ l ++ drop (Z.to_nat (i + alen l)) b).
Definition rd (b : list Z) (i : Z) : outcome Z :=
  assert! (0 <=? i) && (i <? alen b);
  Done (aget b i).
(** A16, A32, A64: little-endian. *)
Definition rd_le (b : list Z) (i n : Z) : outcome Z :=
  let! l := rd_n b i n in Done (le_value l).

(** A load and a store of [n] bytes, from [src] or within a buffer. *)
Definition copy_in (src : list Z) (s : Z) (dst : list Z) (d n : Z) : outcome (list Z) :=
  let! l := rd_n src s n in wr_n dst d l.
Definition copy_within (b : list Z) (s d n : Z) : outcome (list Z) := copy_in b s b d n.

(** * Decompression *)

(** [LZ4_WILDCOPY(s, d, e)] from another buffer, and within one: 8 bytes at a time, at
    least once; returns the buffer, s and d. *)
Fixpoint wild_in (fuel : nat) (src : list Z) (s : Z) (dst : list Z) (d e : Z) : outcome (list Z) :=
  match fuel with
  | O => Panic
  | S fuel =>
      let! dst := copy_in src s dst d 8 in
      if d + 8 <? e then wild_in fuel src (s + 8) dst (d + 8) e else Done dst
  end.
Fixpoint wild_within (fuel : nat) (b : list Z) (s d e : Z) : outcome (list Z * Z * Z) :=
  match fuel with
  | O => Panic
  | S fuel =>
      let! b := copy_within b s d 8 in
      if d + 8 <? e then wild_within fuel b (s + 8) (d + 8) e else Done (b, s + 8, d + 8)
  end.
(** [while(op<cpy) *op++=*ref++;] *)
Fixpoint copy_bytes (fuel : nat) (b : list Z) (s d : Z) : outcome (list Z) :=
  match fuel with
  | O => Done b
  | S fuel => let! b := copy_within b s d 1 in copy_bytes fuel b (s + 1) (d + 1)
  end.
Definition wild_fuel (d e : Z) : nat := S (Z.to_nat (e - d)).

Section decode.
Context (src : list Z) (iend oend : Z).

(** The run length: more bytes while they are 255; (length, ip). *)
Fixpoint run_length (fuel : nat) (ip length s : Z) : outcome (Z * Z) :=
  if (ip <? iend) && (s =? 255) then
    match fuel with
    | O => Panic
    | S fuel => let! s := rd src ip in run_length fuel (ip + 1) (length + s) s
    end
  else Done (length, ip).

(** The match length. *)
Fixpoint match_length (fuel : nat) (ip length : Z) : outcome (Z * Z) :=
  if ip <? iend - (LASTLITERALS + 1) then
    match fuel with
    | O => Panic
    | S fuel =>
        let! s := rd src ip in
        if s =? 255 then match_length fuel (ip + 1) (length + s) else Done (length + s, ip + 1)
    end
  else Done (length, ip).

Definition dec32table : list Z := [0; 3; 2; 3; 0; 0; 0; 0].
Definition dec64table : list Z := [0; 0; 0; -1; 0; 1; 2; 3].

(** The first 8 bytes of a match; (buffer, ref, op). *)
Definition match_start (dst : list Z) (ref op : Z) : outcome (list Z * Z * Z) :=
  if op - ref <? STEPSIZE then
    let dec64 := aget dec64table (op - ref) in
    let! dst := copy_bytes 4 dst ref op in
    let op := op + 4 in
    let ref := ref + 4 in
    let ref := ref - aget dec32table (op - ref) in
    let! dst := copy_within dst ref op 4 in
    Done (dst, ref - dec64, op + (STEPSIZE - 4))
  else
    let! dst := copy_within dst ref op 8 in
    Done (dst, ref + 8, op + 8).

(** The rest of the match up to [cpy]; None when it reaches into the last literals. *)
Definition match_rest (dst : list Z) (ref op cpy : Z) : outcome (option (list Z)) :=
  if oend - COPYLENGTH - (STEPSIZE - 4) <? cpy then
    if oend - LASTLITERALS <? cpy then Done None
    else
      let! (dst, ref, op) :=
        if op <? oend - COPYLENGTH then wild_within (wild_fuel op (oend - COPYLENGTH)) dst ref op (oend - COPYLENGTH)
        else Done (dst, ref, op) in
      let! dst := copy_bytes (Z.to_nat (cpy - op)) dst ref op in
      Done (Some dst)
  else
    let! (dst, _, _) := wild_within (wild_fuel op cpy) dst ref op cpy in
    Done (Some dst).

(** [LZ4_decompress_generic] for endOnInputSize, noPrefix and full: the result and
    the buffer.  A turn takes at least one byte of the input. *)
Definition output_error (ip : Z) (dst : list Z) : outcome (Z * list Z) := Done (- ip - 1, dst).

Fixpoint decode_loop (fuel : nat) (dst : list Z) (ip op : Z) : outcome (Z * list Z) :=
  match fuel with
  | O => Panic
  | S fuel =>
      let! token := rd src ip in
      let! (length, ip) :=
        if token .>> ML_BITS =? RUN_MASK then run_length (Z.to_nat iend) (ip + 1) RUN_MASK 255
        else Done (token .>> ML_BITS, ip + 1) in
      let cpy := op + length in
      if (oend - MFLIMIT <? cpy) || (iend - (2 + 1 + LASTLITERALS) <? ip + length) then
        if negb (ip + length =? iend) || (oend <? cpy) then output_error ip dst
        else
          let! dst := copy_in src ip dst op length in
          Done (op + length, dst)
      else
        let! dst := wild_in (wild_fuel op cpy) src ip dst op cpy in
        let ip := ip + length in
        let op := cpy in
        let! offset := rd_le src ip 2 in
        let ref := cpy - offset in
        let ip := ip + 2 in
        if ref <? 0 then output_error ip dst
        else
          let! (length, ip) :=
            if token .& ML_MASK =? ML_MASK then match_length (Z.to_nat iend) ip ML_MASK
            else Done (token .& ML_MASK, ip) in
          let! (dst, ref, op) := match_start dst ref op in
          let cpy := op + length - (STEPSIZE - 4) in
          let! r := match_rest dst ref op cpy in
          match r with
          | None => output_error ip dst
          | Some dst => decode_loop fuel dst ip cpy
          end
  end.
End decode.

Definition LZ4_decompress_generic (src dst : list Z) (inputSize outputSize : Z) : outcome (Z * list Z) :=
  if outputSize =? 0 then output_error 0 dst
  else decode_loop src inputSize outputSize (S (Z.to_nat inputSize)) dst 0 0.
Definition LZ4_decompress_safe (src dst : list Z) (inputSize maxOutputSize : Z) : outcome (Z * list Z) :=
  LZ4_decompress_generic src dst inputSize maxOutputSize.

(** * Compression *)

(** LZ4_NbCommonBytes: the number of zero bytes at the low end, for [val <> 0]. *)
Fixpoint common_bytes (fuel : nat) (val : Z) : Z :=
  match fuel with
  | O => 0
  | S fuel => if val .& 255 =? 0 then 1 + common_bytes fuel (val .>> 8) else 0
  end.
Definition LZ4_NbCommonBytes (val : Z) : Z := common_bytes 7 val.

(** A length in bytes of 255 and a last one. *)
Fixpoint length_bytes (fuel : nat) (len : Z) : list Z :=
  match fuel with
  | O => [u8 len]
  | S fuel => if 255 <=? len then 255 :: length_bytes fuel (len - 255) else [u8 len]
  end.
Definition encode_length (len : Z) : list Z := length_bytes (Z.to_nat len) len.

(** The match length: two bytes of 255 at a time, then one. *)
Fixpoint length_pairs (fuel : nat) (len : Z) : list Z :=
  match fuel with
  | O => [u8 len]
  | S fuel =>
      if 509 <? len then 255 :: 255 :: length_pairs fuel (len - 510)
      else if 255 <=? len then [255; u8 (len - 255)] else [u8 len]
  end.
Definition encode_match_length (len : Z) : list Z := length_pairs (Z.to_nat len) len.

Section encode.
(** [destSize] is the size of the buffer behind dest; what was written up to op is
    [out]. *)
Context (src : list Z) (destSize inputSize maxOutputSize : Z).
Definition emit (out l : list Z) : outcome (list Z) :=
  assert! alen out + alen l <=? destSize;
  Done (out ++ l).
Definition mflimit : Z := inputSize - MFLIMIT.
Definition matchlimit : Z := inputSize - LASTLITERALS.

Definition lz4_hash (p : Z) : outcome Z :=
  let! v := rd_le src p 4 in
  Done (u32 (v * 2654435761) .>> (MINMATCH * 8 - HASHLOG)).
Definition cell_of (p : Z) : Z := u32 p.

(** [A32(ref) == A32(ip)] *)
Definition same4 (ref ip : Z) : outcome bool :=
  let! a := rd_le src ref 4 in
  let! b := rd_le src ip 4 in
  Done (a =? b).

(** The search: None at the end of the input, otherwise (table, ip, ref). *)
Fixpoint find_match (fuel : nat) (table : list Z) (forwardIp forwardH attempts : Z) : outcome (option (list Z * Z * Z)) :=
  match fuel with
  | O => Panic
  | S fuel =>
      let h := forwardH in
      let step := attempts .>> SKIPSTRENGTH in
      let ip := forwardIp in
      let forwardIp := ip + step in
      if mflimit <? forwardIp then Done None
      else
        let! forwardH := lz4_hash forwardIp in
        let ref := aget table h in
        let table := aset table h (cell_of ip) in
        let! found :=
          if ref <? ip - MAX_DISTANCE then Done false else same4 ref ip in
        if found : bool then Done (Some (table, ip, ref))
        else find_match fuel table forwardIp forwardH (attempts + 1)
  end.

(** [while ((ip>anchor) && (ref>source) && (ip[-1]==ref[-1])) ip--, ref--;] *)
Fixpoint catch_up (fuel : nat) (anchor ip ref : Z) : outcome (Z * Z) :=
  if (anchor <? ip) && (0 <? ref) then
    match fuel with
    | O => Panic
    | S fuel =>
        let! a := rd src (ip - 1) in
        let! b := rd src (ref - 1) in
        if a =? b then catch_up fuel anchor (ip - 1) (ref - 1) else Done (ip, ref)
    end
  else Done (ip, ref).

(** The end of the match: 8 bytes at a time, then 4, 2 and 1. *)
Definition count_tail (ip ref : Z) : outcome Z :=
  let! (ip, ref) :=
    if ip <? matchlimit - 3 then
      let! a := rd_le src ref 4 in
      let! b := rd_le src ip 4 in
      Done (if a =? b then (ip + 4, ref + 4) else (ip, ref))
    else Done (ip, ref) in
  let! (ip, ref) :=
    if ip <? matchlimit - 1 then
      let! a := rd_le src ref 2 in
      let! b := rd_le src ip 2 in
      Done (if a =? b then (ip + 2, ref + 2) else (ip, ref))
    else Done (ip, ref) in
  if ip <? matchlimit then
    let! a := rd src ref in
    let! b := rd src ip in
    Done (if a =? b then ip + 1 else ip)
  else Done ip.
Fixpoint count_match (fuel : nat) (ip ref : Z) : outcome Z :=
  match fuel with
  | O => Panic
  | S fuel =>
      if ip <? matchlimit - (STEPSIZE - 1) then
        let! a := rd_le src ref 8 in
        let! b := rd_le src ip 8 in
        let diff := a .^ b in
        if diff =? 0 then count_match fuel (ip + STEPSIZE) (ref + STEPSIZE)
        else Done (ip + LZ4_NbCommonBytes diff)
      else count_tail ip ref
  end.

(** _last_literals: the result, and the output.  The limit is converted to U32 here, and
    only here. *)
Definition last_literals (anchor : Z) (out : list Z) : outcome (Z * list Z) :=
  let lastRun := inputSize - anchor in
  if u32 maxOutputSize <? alen out + lastRun + 1 + (lastRun + 255 - RUN_MASK) / 255 then Done (0, out)
  else
    let! lits := rd_n src anchor lastRun in
    let! out := emit out ((if RUN_MASK <=? lastRun then (RUN_MASK .<< ML_BITS) :: encode_length (lastRun - RUN_MASK)
                          else [u8 (lastRun .<< ML_BITS)]) ++ lits) in
    Done (alen out, out).

(** The bytes LZ4_WILDCOPY moves for [length]. *)
Definition wild_bytes (length : Z) : Z := if length <=? 8 then 8 else (length + 7) / 8 * 8.
(** The literals before a match: None when the output is full, otherwise the output
    and the place of the token.  LZ4_BLINDCOPY reads and writes beyond the end and then
    sets op back. *)
Definition emit_literals (anchor ip : Z) (out : list Z) : outcome (option (list Z * Z)) :=
  let length := ip - anchor in
  let token := alen out in
  if maxOutputSize <? alen out + 1 + length + (2 + 1 + LASTLITERALS) + (length .>> 8) then Done None
  else
    let! out := emit out (if RUN_MASK <=? length then (RUN_MASK .<< ML_BITS) :: encode_length (length - RUN_MASK)
                         else [u8 (length .<< ML_BITS)]) in
    let! lits := rd_n src anchor (wild_bytes length) in
    let! _ := emit out lits in
    Done (Some (out ++ take (Z.to_nat length) lits, token)).

(** _next_match: offset and length; None when the output is full, otherwise the
    output and ip. *)
Definition emit_match (ip ref token : Z) (out : list Z) : outcome (option (list Z * Z)) :=
  let! out := emit out (le_bytes 2 (u16 (ip - ref))) in
  let anchor := ip + MINMATCH in
  let! ip := count_match (S (Z.to_nat inputSize)) anchor (ref + MINMATCH) in
  let length := ip - anchor in
  if maxOutputSize <? alen out + (1 + LASTLITERALS) + (length .>> 8) then Done None
  else
    let! out :=
      if ML_MASK <=? length then emit (aset out token (u8 (aget out token + ML_MASK))) (encode_match_length (length - ML_MASK))
      else Done (aset out token (u8 (aget out token + u8 length))) in
    Done (Some (out, ip)).

(** What comes next: a search from an anchor, or a match at once with its token. *)
Inductive phase := Search (anchor ip forwardH : Z) | Match (ip ref token : Z).

(** The main loop: a turn for every search and every match. *)
Fixpoint encode_loop (fuel : nat) (table : list Z) (out : list Z) (ph : phase) : outcome (Z * list Z) :=
  match fuel with
  | O => Panic
  | S fuel =>
      match ph with
      | Search anchor ip forwardH =>
          let! r := find_match (S (Z.to_nat inputSize)) table ip forwardH ((1 .<< SKIPSTRENGTH) + 3) in
          match r with
          | None => last_literals anchor out
          | Some (table, ip, ref) =>
              let! (ip, ref) := catch_up (Z.to_nat inputSize) anchor ip ref in
              let! r := emit_literals anchor ip out in
              match r with
              | None => Done (0, out)
              | Some (out, token) => encode_loop fuel table out (Match ip ref token)
              end
          end
      | Match ip ref token =>
          let! r := emit_match ip ref token out in
          match r with
          | None => Done (0, out)
          | Some (out, ip) =>
              if mflimit <? ip then last_literals ip out
              else
                let! h2 := lz4_hash (ip - 2) in
                let table := aset table h2 (cell_of (ip - 2)) in
                let! h := lz4_hash ip in
                let ref := aget table h in
                let table := aset table h (cell_of ip) in
                let! found := if ip - MAX_DISTANCE <=? ref then same4 ref ip else Done false in
                if found : bool then
                  let! out' := emit out [0] in
                  encode_loop fuel table out' (Match ip ref (alen out))
                else
                  let! forwardH := lz4_hash (ip + 1) in
                  encode_loop fuel table out (Search ip (ip + 1) forwardH)
          end
      end
  end.

Definition LZ4_compress_heap : outcome (Z * list Z) :=
  if inputSize <? MINLENGTH then last_literals 0 []
  else
    let table := replicate (Z.to_nat (2 ^ HASHLOG)) 0 in
    let! h := lz4_hash 0 in
    let table := aset table h (cell_of 0) in
    let! forwardH := lz4_hash 1 in
    encode_loop (2 * Z.to_nat inputSize) table [] (Search 0 1 forwardH).
End encode.

(** The result is the size of the output, 0 when it does not fit. *)
Definition LZ4_compress64k_heap_limitedOutput := LZ4_compress_heap.
Definition LZ4_compress_heap_limitedOutput := LZ4_compress_heap.
Definition LZ4_compress_limitedOutput (source : list Z) (destSize inputSize maxOutputSize : Z) : outcome (Z * list Z) :=
  if inputSize <? LZ4_64KLIMIT then LZ4_compress64k_heap_limitedOutput source destSize inputSize maxOutputSize
  else LZ4_compress_heap_limitedOutput source destSize inputSize maxOutputSize.
