(* ===== verification/Lz4Decode.v ===== *)
(** LZ4 decompression: every access stays inside the buffers, and a match is copied
    as the byte-by-byte rule says. *)

From Stdlib Require Import ZArith Lia Bool.
From stdpp Require Import base numbers list option.
From S2P Require Import Prelude Disk Crc Check Lz4.

(** * Memory *)

Lemma bytes_take (l : list Z) n : 0 <= n <= alen l -> alen (take (Z.to_nat n) l) = n.
Proof. intros H. unfold alen in *. rewrite length_take. lia. Qed.
Lemma byte_take (l : list Z) n j : 0 <= j < n -> aget (take (Z.to_nat n) l) j = aget l j.
Proof. intros H. unfold aget. rewrite !list_lookup_total_alt, lookup_take_lt by lia. reflexivity. Qed.
Lemma byte_drop (l : list Z) n j : 0 <= n -> 0 <= j -> aget (drop (Z.to_nat n) l) j = aget l (n + j).
Proof. intros H H2. unfold aget. rewrite !list_lookup_total_alt, lookup_drop. do 2 f_equal. lia. Qed.
Lemma aget_app (a b : list Z) j : 0 <= j -> aget (a ++ b) j = if j <? alen a then aget a j else aget b (j - alen a).
Proof.
  intros Hj. unfold aget, alen. rewrite !list_lookup_total_alt. destruct (Z.ltb_spec j (Z.of_nat (length a))) as [H|H].
  - rewrite lookup_app_l by lia. reflexivity.
  - rewrite lookup_app_r by lia. do 2 f_equal. lia.
Qed.
Lemma bytes_app (a b : list Z) : alen (a ++ b) = alen a + alen b.
Proof. unfold alen. rewrite length_app. lia. Qed.
Lemma alen_nonneg (l : list Z) : 0 <= alen l.
Proof. unfold alen. lia. Qed.

Lemma rd_n_ok b i n : 0 <= i -> 0 <= n -> i + n <= alen b ->
  exists l, rd_n b i n = Done l /\ alen l = n /\ (forall j, 0 <= j < n -> aget l j = aget b (i + j)) /\ l = take (Z.to_nat n) (drop (Z.to_nat i) b).
Proof.
  intros Hi Hn H. unfold rd_n. rewrite assert_true by lia. eexists. split; [reflexivity|]. split_and!; [| |reflexivity].
  - unfold alen in *. rewrite length_take, length_drop. lia.
  - intros j Hj. rewrite byte_take, byte_drop by lia. reflexivity.
Qed.
Lemma rd_ok b i : 0 <= i < alen b -> rd b i = Done (aget b i).
Proof. intros H. unfold rd. rewrite assert_true by lia. reflexivity. Qed.
Lemma wr_n_ok b i l : 0 <= i -> i + alen l <= alen b ->
  exists b', wr_n b i l = Done b' /\ alen b' = alen b
    /\ forall j, 0 <= j -> aget b' j = if (i <=? j) && (j <? i + alen l) then aget l (j - i) else aget b j.
Proof.
  intros Hi H. pose proof (alen_nonneg l). unfold wr_n. rewrite assert_true by lia. eexists. split; [reflexivity|]. split.
  - rewrite !bytes_app, bytes_take by lia. unfold alen in *. rewrite length_drop. lia.
  - intros j Hj. rewrite aget_app, bytes_take by lia. destruct (Z.ltb_spec j i).
    + replace (i <=? j) with false by lia. apply byte_take. lia.
    + replace (i <=? j) with true by lia. cbn [andb]. rewrite aget_app by lia.
      destruct (Z.ltb_spec (j - i) (alen l)), (Z.ltb_spec j (i + alen l)); try lia; try reflexivity.
      rewrite byte_drop by lia. f_equal. lia.
Qed.

Lemma copy_in_ok src s dst d n : 0 <= s -> 0 <= n -> s + n <= alen src -> 0 <= d -> d + n <= alen dst ->
  exists b, copy_in src s dst d n = Done b /\ alen b = alen dst
    /\ forall j, 0 <= j -> aget b j = if (d <=? j) && (j <? d + n) then aget src (s + (j - d)) else aget dst j.
Proof.
  intros Hs Hn Hsn Hd Hdn. unfold copy_in. destruct (rd_n_ok src s n Hs Hn Hsn) as (l & -> & El & Hl & _). cbn [obind].
  destruct (wr_n_ok dst d l Hd) as (b & -> & Eb & Hb); [lia|]. exists b. split_and!; auto. intros j Hj. rewrite (Hb j Hj), El.
  destruct (Z.leb_spec d j); cbn [andb]; [|reflexivity]. destruct (Z.ltb_spec j (d + n)); [|reflexivity]. apply Hl. lia.
Qed.

(** * Copies of literals *)

Lemma wild_in_ok fuel : forall src s dst d e, (Z.to_nat (e - d) < fuel)%nat -> 0 <= s -> s + 8 <= alen src -> s + (e - d) + 7 <= alen src ->
  0 <= d -> d + 8 <= alen dst -> e + 7 <= alen dst ->
  exists b, wild_in fuel src s dst d e = Done b /\ alen b = alen dst
    /\ (forall j, 0 <= j < d -> aget b j = aget dst j) /\ (forall j, d <= j < e -> aget b j = aget src (s + (j - d))).
Proof.
  induction fuel as [|fuel IH]; intros src s dst d e Hf Hs Hs8 Hse Hd Hd8 He; [lia|]. cbn [wild_in].
  destruct (copy_in_ok src s dst d 8) as (b & -> & Eb & Hb); try lia. cbn [obind].
  destruct (Z.ltb_spec (d + 8) e) as [Hlt|Hge].
  - destruct (IH src (s + 8) b (d + 8) e) as (b2 & -> & E2 & Hlo & Hhi); try lia. exists b2. split_and!; [reflexivity|lia| |].
    + intros j Hj. rewrite Hlo, Hb by lia. replace (d <=? j) with false by lia. reflexivity.
    + intros j Hj. destruct (Z.lt_ge_cases j (d + 8)) as [Hj8|Hj8].
      * rewrite Hlo, Hb by lia. replace ((d <=? j) && (j <? d + 8)) with true by lia. reflexivity.
      * rewrite Hhi by lia. f_equal. lia.
  - exists b. split_and!; [reflexivity|exact Eb| |].
    + intros j Hj. rewrite Hb by lia. replace (d <=? j) with false by lia. reflexivity.
    + intros j Hj. rewrite Hb by lia. replace ((d <=? j) && (j <? d + 8)) with true by lia. reflexivity.
Qed.

(** * Copies of matches *)

(** Within [a, e) every byte repeats the one [off] before it. *)
Definition repeats (b : list Z) (a e off : Z) : Prop := forall j, a <= j < e -> aget b j = aget b (j - off).
Definition same_below (b b' : list Z) (d : Z) : Prop := forall j, 0 <= j < d -> aget b' j = aget b j.

Lemma repeats_multiple b a e off : 0 < off -> repeats b a e off -> forall m j, j < e -> a <= j - Z.of_nat m * off + off ->
  aget b j = aget b (j - Z.of_nat m * off).
Proof.
  intros Ho Hr m. induction m as [|m IH]; intros j Hj Ha; [f_equal; lia|].
  rewrite IH by lia. rewrite Hr by lia. f_equal. lia.
Qed.

(** What a copy inside a buffer does, from [s] to [d], a multiple of [off] further on. *)
Definition copied (b b' : list Z) (a s d e off n : Z) : Prop :=
  alen b' = alen b /\ same_below b b' d
  /\ forall k, 0 < off -> d - s = Z.of_nat k * off -> n <= d - s -> off <= a -> a - off <= s -> repeats b a d off -> repeats b' a e off.

(** A copy from a multiple of the distance keeps the repetition going. *)
Lemma copy_within_ok b s d n a off : 0 <= s -> s <= d -> 0 <= n -> d + n <= alen b -> a <= d ->
  exists b', copy_within b s d n = Done b' /\ copied b b' a s d (d + n) off n.
Proof.
  intros Hs Hsd Hn Hd Ha. unfold copy_within. destruct (copy_in_ok b s b d n) as (b' & -> & Eb & Hb); try lia.
  exists b'. split; [reflexivity|]. split; [exact Eb|]. split.
  { intros j Hj. rewrite Hb by lia. replace (d <=? j) with false by lia. reflexivity. }
  intros k Ho Hk Hle Ha0 Hsa Hr j Hj. rewrite (Hb j), (Hb (j - off)) by lia.
  destruct (Z.lt_ge_cases j d) as [Hjd|Hjd].
  - replace (d <=? j) with false by lia. replace (d <=? j - off) with false by lia. apply Hr. lia.
  - replace ((d <=? j) && (j <? d + n)) with true by lia. destruct (Z.lt_ge_cases (j - off) d) as [Hjo|Hjo].
    + replace (d <=? j - off) with false by lia. cbn [andb]. destruct k as [|k]; [lia|].
      rewrite (repeats_multiple b a d off Ho Hr k (j - off)) by lia. f_equal. lia.
    + replace ((d <=? j - off) && (j - off <? d + n)) with true by lia. rewrite Hr by lia. f_equal. lia.
Qed.

Lemma copied_trans b1 b2 b3 a s d e e' off n t : copied b1 b2 a s d e off n -> copied b2 b3 a (s + t) (d + t) e' off n -> 0 <= t -> d + t = e ->
  copied b1 b3 a s d e' off n.
Proof.
  intros (A1 & B1 & C1) (A2 & B2 & C2) Ht He. split; [lia|]. split.
  - intros j Hj. rewrite B2, B1 by lia. reflexivity.
  - intros k Ho Hk Hn Ha Hs Hr. apply (C2 k); try lia. rewrite He. apply (C1 k); auto.
Qed.

Lemma wild_within_ok fuel : forall b s d e a off, (Z.to_nat (e - d) < fuel)%nat -> 0 <= s -> s <= d -> d + 8 <= alen b -> e + 7 <= alen b -> a <= d ->
  exists b' d', wild_within fuel b s d e = Done (b', s + (d' - d), d') /\ e <= d' /\ d + 8 <= d' /\ (d' = d + 8 \/ d' < e + 8) /\ copied b b' a s d d' off 8.
Proof.
  induction fuel as [|fuel IH]; intros b s d e a off Hf Hs Hsd Hd8 He Ha; [lia|]. cbn [wild_within].
  destruct (copy_within_ok b s d 8 a off) as (b1 & -> & Hc); try lia. cbn [obind].
  pose proof Hc as (E1 & _ & _). destruct (Z.ltb_spec (d + 8) e) as [Hlt|Hge].
  - destruct (IH b1 (s + 8) (d + 8) e a off) as (b2 & d2 & -> & A & B & C & D); try lia. exists b2, d2.
    replace (s + 8 + (d2 - (d + 8))) with (s + (d2 - d)) by lia. split; [reflexivity|]. split; [exact A|]. split; [lia|]. split; [lia|].
    exact (copied_trans _ _ _ _ _ _ _ _ _ _ 8 Hc D ltac:(lia) ltac:(lia)).
  - exists b1, (d + 8). replace (s + (d + 8 - d)) with (s + 8) by lia. split; [reflexivity|]. split; [lia|]. split; [lia|]. split; [left; reflexivity|exact Hc].
Qed.

Lemma copied_refl b a s d off n : a <= d -> copied b b a s d d off n.
Proof. intros Ha. split; [reflexivity|]. split; [intros j _; reflexivity|]. intros k _ _ _ _ _ Hr. exact Hr. Qed.

Lemma copy_bytes_ok fuel : forall b s d a off, 0 <= s -> s <= d -> d + Z.of_nat fuel <= alen b -> a <= d ->
  exists b', copy_bytes fuel b s d = Done b' /\ copied b b' a s d (d + Z.of_nat fuel) off 1.
Proof.
  induction fuel as [|fuel IH]; intros b s d a off Hs Hsd Hd Ha; cbn [copy_bytes].
  - exists b. split; [reflexivity|]. replace (d + Z.of_nat 0) with d by lia. apply copied_refl. exact Ha.
  - destruct (copy_within_ok b s d 1 a off) as (b1 & -> & Hc); try lia. cbn [obind]. pose proof Hc as (E1 & _ & _).
    destruct (IH b1 (s + 1) (d + 1) a off) as (b2 & -> & D); try lia. exists b2. split; [reflexivity|].
    replace (d + Z.of_nat (S fuel)) with (d + 1 + Z.of_nat fuel) by lia. exact (copied_trans _ _ _ _ _ _ _ _ _ _ 1 Hc D ltac:(lia) ltac:(lia)).
Qed.

(** * A match *)


(** What a match copy from [a] has done up to [e]. *)
Definition match_done (b b' : list Z) (a e off : Z) : Prop :=
  alen b' = alen b /\ same_below b b' a /\ (0 < off -> repeats b' a e off).

(** The two tables make the distance a multiple of the offset, at least 4 and 8. *)
Lemma dec_tables off : 0 <= off < 8 -> exists d32 d64, aget dec32table off = d32 /\ aget dec64table off = d64
  /\ 0 <= d32 <= 3 /\ -1 <= d64 /\ 0 <= d32 + d64 <= 4
  /\ (0 < off -> (exists k, off + d32 = Z.of_nat k * off) /\ 4 <= off + d32 /\ (exists k, off + 4 + d32 + d64 = Z.of_nat k * off) /\ 8 <= off + 4 + d32 + d64).
Proof.
  intros H. assert (Hc : off = 0 \/ off = 1 \/ off = 2 \/ off = 3 \/ off = 4 \/ off = 5 \/ off = 6 \/ off = 7) by lia.
  do 2 eexists. split; [reflexivity|]. split; [reflexivity|].
  destruct Hc as [-> |[-> |[-> |[-> |[-> |[-> |[-> | ->]]]]]]];
    repeat match goal with |- context [aget ?t ?i] => let v := eval vm_compute in (aget t i) in change (aget t i) with v end;
    (split; [lia|]); (split; [lia|]); (split; [lia|]); intros Ho; (split; [|split; [lia|split; [|lia]]]); try lia.
  all: first [exists 1%nat; reflexivity|exists 2%nat; reflexivity|exists 3%nat; reflexivity|exists 4%nat; reflexivity|exists 8%nat; reflexivity].
Qed.

Lemma match_start_ok b ref a : 0 <= ref -> ref <= a -> a + 8 <= alen b -> let off := a - ref in
  exists b' ref', match_start b ref a = Done (b', ref', a + 8) /\ match_done b b' a (a + 8) off /\ 0 <= ref' <= a + 8
    /\ (0 < off -> 8 <= a + 8 - ref' /\ a - off <= ref' /\ exists k, a + 8 - ref' = Z.of_nat k * off).
Proof.
  intros Hr0 Hra Ha off. assert (Hemp : forall c, repeats c a a off) by (intros c j Hj; lia).
  unfold match_start. destruct (Z.ltb_spec (a - ref) STEPSIZE) as [Hlt|Hge].
  - destruct (copy_bytes_ok 4 b ref a a off) as (b1 & -> & E1 & S1 & R1); try lia. cbn [obind].
    change (Z.of_nat 4) with 4 in R1.
    replace (a + 4 - (ref + 4)) with off by lia. change (a - ref) with off.
    destruct (dec_tables off ltac:(lia)) as (d32 & d64 & -> & -> & B32 & B64 & Bs & Hm).
    destruct (copy_within_ok b1 (ref + 4 - d32) (a + 4) 4 a off) as (b2 & -> & E2 & S2 & R2); try lia. cbn [obind].
    exists b2, (ref + 4 - d32 - d64). replace (a + 4 + (STEPSIZE - 4)) with (a + 8) by lia. split; [reflexivity|]. split; [|split; [lia|]].
    + split; [lia|]. split; [intros j Hj; rewrite S2, S1 by lia; reflexivity|]. intros Ho. destruct (Hm Ho) as ((k & Hk) & H4 & _).
      replace (a + 8) with (a + 4 + 4) by lia. apply (R2 k); try lia. apply (R1 1%nat); try lia. apply Hemp.
    + intros Ho. destruct (Hm Ho) as (_ & _ & (k & Hk) & H8). split; [lia|]. split; [lia|]. exists k. lia.
  - destruct (copy_within_ok b ref a 8 a off) as (b1 & -> & E1 & S1 & R1); try lia. cbn [obind].
    exists b1, (ref + 8). split; [reflexivity|]. split; [|split; [lia|]].
    + split; [exact E1|]. split; [exact S1|]. intros Ho. apply (R1 1%nat); try lia. apply Hemp.
    + intros Ho. split; [lia|]. split; [lia|]. exists 1%nat. lia.
Qed.

Lemma match_rest_ok oend b ref d a cpy off : alen b = oend -> 0 <= ref <= d -> d + 4 <= oend -> a + 8 = d -> a + 12 <= oend -> cpy >= a + 4 ->
  off = 0 \/ 0 < off <= a /\ 8 <= d - ref /\ a - off <= ref /\ (exists k, d - ref = Z.of_nat k * off) /\ repeats b a d off ->
  (match_rest oend b ref d cpy = Done None /\ oend - LASTLITERALS < cpy)
  \/ exists b', match_rest oend b ref d cpy = Done (Some b') /\ cpy <= oend - LASTLITERALS /\ alen b' = oend /\ same_below b b' d
       /\ (0 < off -> repeats b' a cpy off).
Proof.
  intros Eb Href Hd Had Ha12 Hcpy Hoff. unfold match_rest.
  assert (Hcut : forall c e, repeats c a e off -> cpy <= e -> repeats c a cpy off) by (intros c e H He j Hj; apply H; lia).
  destruct (Z.ltb_spec (oend - COPYLENGTH - (STEPSIZE - 4)) cpy) as [Hnear|Hfar].
  - destruct (Z.ltb_spec (oend - LASTLITERALS) cpy) as [Hlate|Hok]; [left; split; [reflexivity|exact Hlate]|]. right.
    assert (Hw : exists b1 d1, (if d <? oend - COPYLENGTH then wild_within (wild_fuel d (oend - COPYLENGTH)) b ref d (oend - COPYLENGTH) else Done (b, ref, d))
              = Done (b1, ref + (d1 - d), d1) /\ oend - COPYLENGTH <= d1 <= oend /\ d <= d1 /\ copied b b1 a ref d d1 off 8).
    { destruct (Z.ltb_spec d (oend - COPYLENGTH)).
      - destruct (wild_within_ok (wild_fuel d (oend - COPYLENGTH)) b ref d (oend - COPYLENGTH) a off) as (b1 & d1 & E & A & B & C & D); try (unfold wild_fuel; lia).
        exists b1, d1. split; [exact E|]. split; [lia|]. split; [lia|exact D].
      - exists b, d. replace (ref + (d - d)) with ref by lia. split; [reflexivity|]. split; [lia|]. split; [lia|]. apply copied_refl. lia. }
    destruct Hw as (b1 & d1 & -> & Hd1 & Hdd & E1 & S1 & R1). cbn [obind].
    destruct (copy_bytes_ok (Z.to_nat (cpy - d1)) b1 (ref + (d1 - d)) d1 a off) as (b2 & -> & E2 & S2 & R2); try lia. cbn [obind].
    exists b2. split; [reflexivity|]. split; [lia|]. split; [lia|]. split; [intros j Hj; rewrite S2, S1 by lia; reflexivity|].
    intros Ho. destruct Hoff as [Hz|(Hoa & H8 & Hra & (k & Hk) & Hrep)]; [lia|].
    apply (Hcut b2 (d1 + Z.of_nat (Z.to_nat (cpy - d1)))); [|lia]. apply (R2 k); try lia. apply (R1 k); try lia. exact Hrep.
  - right. destruct (wild_within_ok (wild_fuel d cpy) b ref d cpy a off) as (b1 & d1 & -> & A & B & C & E1 & S1 & R1); try (unfold wild_fuel; lia).
    cbn [obind]. exists b1. split; [reflexivity|]. split; [lia|]. split; [lia|]. split; [exact S1|].
    intros Ho. destruct Hoff as [Hz|(Hoa & H8 & Hra & (k & Hk) & Hrep)]; [lia|].
    apply (Hcut b1 d1); [|lia]. apply (R1 k); try lia. exact Hrep.
Qed.

(** * Every access is inside the buffers *)

Section safe.
Context (src : list Z) (iend oend : Z).
Hypothesis (Hsrc : Forall is_byte src) (Elen : alen src = iend).

Lemma src_byte i : 0 <= i < iend -> is_byte (aget src i).
Proof. intros H. unfold aget. apply Forall_lookup_total_1; [exact Hsrc|]. unfold alen in Elen. lia. Qed.

Lemma run_length_ok fuel : forall ip length s, 0 <= ip <= iend -> iend - ip <= Z.of_nat fuel -> 0 <= s ->
  exists l ip', run_length src iend fuel ip length s = Done (l, ip') /\ length <= l /\ ip <= ip' <= iend.
Proof.
  induction fuel as [|fuel IH]; intros ip length s Hip Hf Hs; cbn [run_length]; (destruct (Z.ltb_spec ip iend); cbn [andb]; [|exists length, ip; split; [reflexivity|lia]]); [lia|].
  destruct (s =? 255); [|exists length, ip; split; [reflexivity|lia]]. rewrite rd_ok by lia. cbn [obind]. pose proof (src_byte ip ltac:(lia)) as Hb.
  destruct (IH (ip + 1) (length + aget src ip) (aget src ip)) as (l & ip' & -> & A & B); [lia|lia|apply Hb|]. exists l, ip'. split; [reflexivity|].
  destruct Hb. lia.
Qed.
Lemma match_length_ok fuel : forall ip length, 0 <= ip <= iend -> iend - ip <= Z.of_nat fuel ->
  exists l ip', match_length src iend fuel ip length = Done (l, ip') /\ length <= l /\ ip <= ip' <= Z.max ip (iend - 6).
Proof.
  induction fuel as [|fuel IH]; intros ip length Hip Hf; cbn [match_length];
    (destruct (Z.ltb_spec ip (iend - (LASTLITERALS + 1))); [|exists length, ip; split; [reflexivity|lia]]); [lia|].
  rewrite rd_ok by lia. cbn [obind]. pose proof (src_byte ip ltac:(lia)) as Hb. destruct Hb.
  destruct (aget src ip =? 255); [|eexists _, _; split; [reflexivity|lia]].
  destruct (IH (ip + 1) (length + aget src ip)) as (l & ip' & -> & A & B); [lia|lia|]. exists l, ip'. split; [reflexivity|lia].
Qed.

Lemma token_range t : is_byte t -> 0 <= t .>> ML_BITS <= 15 /\ 0 <= t .& ML_MASK <= 15.
Proof.
  intros H. split.
  - rewrite Z.shiftr_div_pow2 by lia. change (2 ^ 4) with 16. unfold is_byte in H.
    split; [apply Z.div_pos; lia|]. enough (t / 16 < 16) by lia. apply Z.div_lt_upper_bound; lia.
  - pose proof (Z.land_ones t 4 ltac:(lia)) as E. change (Z.ones 4) with 15 in E. change (2 ^ 4) with 16 in E. rewrite E.
    pose proof (Z.mod_pos_bound t 16 ltac:(lia)). lia.
Qed.

Lemma le_value_2 l : alen l = 2 -> Forall is_byte l -> 0 <= le_value l < 65536.
Proof.
  destruct l as [|a [|b [|c l]]]; unfold alen; cbn [length]; try lia. intros _ H. inversion_clear H as [|? ? Ha H']. inversion_clear H' as [|? ? Hb _].
  unfold is_byte in *. cbn [le_value]. rewrite Z.shiftl_0_l, Z.lxor_0_r.
  assert (Hs : 0 <= b .<< 8 < 2 ^ 16) by (rewrite Z.shiftl_mul_pow2 by lia; change (2 ^ 8) with 256; change (2 ^ 16) with 65536; lia).
  assert (Ha2 : 0 <= a < 2 ^ 16) by (change (2 ^ 16) with 65536; lia).
  exact (lxor_range a (b .<< 8) 16 ltac:(lia) Ha2 Hs).
Qed.

Lemma rd_le_2 i : 0 <= i -> i + 2 <= iend -> exists v, rd_le src i 2 = Done v /\ 0 <= v < 65536.
Proof.
  intros Hi H. unfold rd_le. destruct (rd_n_ok src i 2) as (l & -> & El & Hl & Eq); try lia. cbn [obind].
  exists (le_value l). split; [reflexivity|]. apply le_value_2; [exact El|]. rewrite Eq. apply Forall_take, Forall_drop, Hsrc.
Qed.

Lemma decode_loop_safe fuel : forall dst ip op, alen dst = oend -> 0 <= ip < iend -> 0 <= op <= oend -> iend - ip <= Z.of_nat fuel ->
  exists r b, decode_loop src iend oend fuel dst ip op = Done (r, b) /\ alen b = oend /\ - iend <= r + 1 /\ r <= oend.
Proof.
  induction fuel as [|fuel IH]; intros dst ip op Ed Hip Hop Hf; [lia|]. cbn [decode_loop].
  rewrite rd_ok by lia. cbn [obind]. set (token := aget src ip). pose proof (token_range token (src_byte ip Hip)) as [Ht1 Ht2].
  assert (Hrun : exists l i, (if token .>> ML_BITS =? RUN_MASK then run_length src iend (Z.to_nat iend) (ip + 1) RUN_MASK 255 else Done (token .>> ML_BITS, ip + 1))
            = Done (l, i) /\ 0 <= l /\ ip + 1 <= i <= iend).
  { destruct (_ =? RUN_MASK).
    - destruct (run_length_ok (Z.to_nat iend) (ip + 1) RUN_MASK 255) as (l & i & -> & A & B); try lia. exists l, i. split; [reflexivity|lia].
    - eexists _, _. split; [reflexivity|lia]. }
  destruct Hrun as (len & i & -> & Hlen & Hi). cbn [obind].
  assert (Herr : forall b j, alen b = oend -> 0 <= j <= iend -> exists r c, output_error j b = Done (r, c) /\ alen c = oend /\ - iend <= r + 1 /\ r <= oend).
  { intros b j Eb Hj. eexists _, _. split; [reflexivity|]. split; [exact Eb|]. lia. }
  destruct (Z.ltb_spec (oend - MFLIMIT) (op + len)) as [Hlate|Hroom]; cbn [orb]; [|destruct (Z.ltb_spec (iend - (2 + 1 + LASTLITERALS)) (i + len)) as [Hlate|Hin]].
  1-2: destruct (Z.eqb_spec (i + len) iend) as [Hend|Hne]; cbn [negb orb]; [|apply Herr; [exact Ed|lia]];
    (destruct (Z.ltb_spec oend (op + len)) as [Hbig|Hfit]; [apply Herr; [exact Ed|lia]|]);
    destruct (copy_in_ok src i dst op len) as (b & -> & Eb & _); try lia; cbn [obind]; exists (op + len), b; (split; [reflexivity|]); lia.
  destruct (wild_in_ok (wild_fuel op (op + len)) src i dst op (op + len)) as (b & -> & Eb & _ & _); try (unfold wild_fuel; lia). cbn [obind].
  destruct (rd_le_2 (i + len)) as (off & -> & Hoff); [lia|lia|]. cbn [obind].
  destruct (Z.ltb_spec (op + len - off) 0) as [Hneg|Href]; [apply Herr; lia|].
  assert (Hml : exists ml i', (if token .& ML_MASK =? ML_MASK then match_length src iend (Z.to_nat iend) (i + len + 2) ML_MASK else Done (token .& ML_MASK, i + len + 2))
            = Done (ml, i') /\ 0 <= ml /\ i + len + 2 <= i' <= iend - 6).
  { destruct (_ =? ML_MASK).
    - destruct (match_length_ok (Z.to_nat iend) (i + len + 2) ML_MASK) as (l & i' & -> & A & B); try lia. exists l, i'. split; [reflexivity|lia].
    - eexists _, _. split; [reflexivity|lia]. }
  destruct Hml as (ml & i' & -> & Hml & Hi'). cbn [obind].
  destruct (match_start_ok b (op + len - off) (op + len)) as (b2 & ref' & -> & (E2 & _ & R2) & Hr' & Hk); try lia. cbn [obind].
  replace (op + len - (op + len - off)) with off in * by lia.
  destruct (match_rest_ok oend b2 ref' (op + len + 8) (op + len) (op + len + 8 + ml - (STEPSIZE - 4)) off) as [[-> _]|(b3 & -> & Hc & E3 & _)]; try lia.
  - destruct (Z.eq_dec off 0) as [|Hnz]; [left; assumption|right]. destruct (Hk ltac:(lia)) as (A & B & C). split_and!; try lia; [exact C|apply R2; lia].
  - cbn [obind]. apply Herr; lia.
  - cbn [obind]. apply IH; lia.
Qed.
End safe.

(** * Longer buffers *)

(** What follows the input and the output in memory does not matter. *)
Section longer.
Context (src x : list Z) (iend oend : Z) (y : list Z).

Lemma rd_n_longer b z i n l : rd_n b i n = Done l -> rd_n (b ++ z) i n = Done l.
Proof.
  unfold rd_n. intros H. inv_done. rewrite bytes_app. pose proof (alen_nonneg z). rewrite assert_true by lia. f_equal.
  unfold alen in *. rewrite drop_app_le by lia. rewrite take_app_le by (rewrite length_drop; lia). reflexivity.
Qed.
Lemma rd_longer b z i v : rd b i = Done v -> rd (b ++ z) i = Done v.
Proof.
  unfold rd. intros H. inv_done. rewrite bytes_app. pose proof (alen_nonneg z). rewrite assert_true by lia. rewrite aget_app by lia.
  replace (i <? alen b) with true by lia. reflexivity.
Qed.
Lemma rd_le_longer b z i n v : rd_le b i n = Done v -> rd_le (b ++ z) i n = Done v.
Proof. unfold rd_le. intros H. inv_done. rewrite (rd_n_longer _ _ _ _ _ H0). reflexivity. Qed.
Lemma wr_n_longer b z i l b' : wr_n b i l = Done b' -> wr_n (b ++ z) i l = Done (b' ++ z).
Proof.
  unfold wr_n. intros H. inv_done. rewrite bytes_app. pose proof (alen_nonneg z). pose proof (alen_nonneg l). rewrite assert_true by lia. f_equal.
  rewrite take_app_le, drop_app_le by (unfold alen in *; lia). rewrite <- !app_assoc. reflexivity.
Qed.
Lemma copy_in_longer s z d a b n c : copy_in s a d b n = Done c -> copy_in (s ++ z) a (d ++ y) b n = Done (c ++ y).
Proof. unfold copy_in. intros H. inv_done. rewrite (rd_n_longer _ _ _ _ _ H0). cbn [obind]. apply wr_n_longer. exact H. Qed.

Lemma wild_in_longer fuel : forall s dst d e c, wild_in fuel src s dst d e = Done c -> wild_in fuel (src ++ x) s (dst ++ y) d e = Done (c ++ y).
Proof.
  induction fuel as [|fuel IH]; intros s dst d e c H; [discriminate|]. cbn [wild_in] in *. inv_done. rewrite (copy_in_longer _ _ _ _ _ _ _ H0). cbn [obind].
  destruct (_ <? e); [apply IH; exact H|]. inv_done. reflexivity.
Qed.
Lemma wild_within_longer fuel : forall b s d e c s' d', wild_within fuel b s d e = Done (c, s', d') -> wild_within fuel (b ++ y) s d e = Done (c ++ y, s', d').
Proof.
  induction fuel as [|fuel IH]; intros b s d e c s' d' H; [discriminate|]. cbn [wild_within] in *. unfold copy_within in *. inv_done.
  rewrite (copy_in_longer _ _ _ _ _ _ _ H0). cbn [obind]. destruct (_ <? e); [apply IH; exact H|]. inv_done. reflexivity.
Qed.
Lemma copy_bytes_longer fuel : forall b s d c, copy_bytes fuel b s d = Done c -> copy_bytes fuel (b ++ y) s d = Done (c ++ y).
Proof.
  induction fuel as [|fuel IH]; intros b s d c H; cbn [copy_bytes] in *; [inv_done; reflexivity|]. unfold copy_within in *. inv_done.
  rewrite (copy_in_longer _ _ _ _ _ _ _ H0). cbn [obind]. apply IH. exact H.
Qed.

Lemma run_length_longer fuel : forall ip l s r, run_length src iend fuel ip l s = Done r -> run_length (src ++ x) iend fuel ip l s = Done r.
Proof.
  induction fuel as [|fuel IH]; intros ip l s r H; cbn [run_length] in *; destruct ((ip <? iend) && (s =? 255)); try exact H.
  inv_done. rewrite (rd_longer _ _ _ _ H0). cbn [obind]. apply IH. exact H.
Qed.
Lemma match_length_longer fuel : forall ip l r, match_length src iend fuel ip l = Done r -> match_length (src ++ x) iend fuel ip l = Done r.
Proof.
  induction fuel as [|fuel IH]; intros ip l r H; cbn [match_length] in *; destruct (ip <? _); try exact H.
  inv_done. rewrite (rd_longer _ _ _ _ H0). cbn [obind]. destruct (_ =? 255); [apply IH; exact H|exact H].
Qed.
Lemma match_start_longer dst ref op c r' o' : match_start dst ref op = Done (c, r', o') -> match_start (dst ++ y) ref op = Done (c ++ y, r', o').
Proof.
  unfold match_start, copy_within. intros H. destruct (op - ref <? STEPSIZE); inv_done.
  - rewrite (copy_bytes_longer _ _ _ _ _ H0). cbn [obind]. rewrite (copy_in_longer _ _ _ _ _ _ _ H1). cbn [obind]. congruence.
  - rewrite (copy_in_longer _ _ _ _ _ _ _ H0). cbn [obind]. congruence.
Qed.
Lemma match_rest_longer dst ref op cpy c : match_rest oend dst ref op cpy = Done c ->
  match_rest oend (dst ++ y) ref op cpy = Done (option_map (fun b => b ++ y) c).
Proof.
  unfold match_rest. intros H. destruct (_ <? cpy); [destruct (_ <? cpy); [inv_done; reflexivity|]|].
  - inv_done. destruct x0 as [[b s] d]. replace (if op <? _ then _ else _) with (Done (b ++ y, s, d)).
    2:{ destruct (op <? _); [symmetry; apply wild_within_longer; exact H0|inv_done; congruence]. }
    cbn [obind] in *. inv_done. rewrite (copy_bytes_longer _ _ _ _ _ H1). reflexivity.
  - inv_done. destruct x0 as [[b s] d]. rewrite (wild_within_longer _ _ _ _ _ _ _ _ H0). cbn [obind] in *. inv_done. reflexivity.
Qed.

Lemma decode_loop_longer fuel : forall dst ip op r c, decode_loop src iend oend fuel dst ip op = Done (r, c) ->
  decode_loop (src ++ x) iend oend fuel (dst ++ y) ip op = Done (r, c ++ y).
Proof.
  induction fuel as [|fuel IH]; intros dst ip op r c H; [discriminate|]. cbn [decode_loop] in *. inv_done. rename x0 into token.
  rewrite (rd_longer _ _ _ _ H0). cbn [obind]. destruct x1 as [len i].
  assert (Hrun : (if token .>> ML_BITS =? RUN_MASK then run_length (src ++ x) iend (Z.to_nat iend) (ip + 1) RUN_MASK 255 else Done (token .>> ML_BITS, ip + 1)) = Done (len, i)).
  { destruct (_ =? RUN_MASK); [apply run_length_longer|]; exact H1. }
  rewrite Hrun. clear H0 H1 Hrun. cbn [obind] in *. destruct (_ || _).
  - destruct (_ || _); [unfold output_error in *; congruence|]. inv_done. rewrite (copy_in_longer _ _ _ _ _ _ _ H0). cbn [obind]. congruence.
  - inv_done. rewrite (wild_in_longer _ _ _ _ _ _ H0). cbn [obind]. rewrite (rd_le_longer _ _ _ _ _ H1). cbn [obind]. clear H0 H1.
    destruct (_ <? 0); [unfold output_error in *; congruence|]. inv_done. destruct x2 as [ml i'].
    assert (Hml : (if token .& ML_MASK =? ML_MASK then match_length (src ++ x) iend (Z.to_nat iend) (i + len + 2) ML_MASK else Done (token .& ML_MASK, i + len + 2)) = Done (ml, i')).
    { destruct (_ =? ML_MASK); [apply match_length_longer|]; exact H0. }
    rewrite Hml. cbn [obind] in *. inv_done. destruct x2 as [[b ref] o]. rewrite (match_start_longer _ _ _ _ _ _ H1). cbn [obind] in *. inv_done.
    rewrite (match_rest_longer _ _ _ _ _ H2). cbn [obind]. destruct x2 as [b'|]; cbn [option_map]; [apply IH; exact H|unfold output_error in *; congruence].
Qed.
Lemma decompress_longer dst r c : LZ4_decompress_generic src dst iend oend = Done (r, c) ->
  LZ4_decompress_generic (src ++ x) (dst ++ y) iend oend = Done (r, c ++ y).
Proof. unfold LZ4_decompress_generic. destruct (oend =? 0); [unfold output_error; congruence|apply decode_loop_longer]. Qed.
End longer.
