(* ===== verification/Lz4Format.v ===== *)
(** The LZ4 block format: what a list of sequences says, how it is written, and that
    the decompressor reads it back. *)

From Stdlib Require Import ZArith Lia Bool.
From stdpp Require Import base numbers list option.
From S2P Require Import Prelude Disk Crc Check Lz4 Lz4Decode.

(** * The format *)

(** Literals, then a match: an offset back and a length over MINMATCH. *)
Record lseq := LSeq { ls_lits : list Z; ls_off : Z; ls_len : Z }.

(** A length field beyond the four bits of the token. *)
Definition enc_ext (n : Z) : list Z := if 15 <=? n then encode_length (n - 15) else [].
Definition enc_token (lits len : Z) : Z := Z.min lits 15 * 16 + Z.min len 15.
Definition enc_seq (q : lseq) : list Z :=
  enc_token (alen (ls_lits q)) (ls_len q) :: enc_ext (alen (ls_lits q)) ++ ls_lits q ++ le_bytes 2 (ls_off q) ++ enc_ext (ls_len q).
Definition enc_last (l : list Z) : list Z := enc_token (alen l) 0 :: enc_ext (alen l) ++ l.
Definition piece (t : list Z) (i n : Z) : list Z := take (Z.to_nat n) (drop (Z.to_nat i) t).

(** The sequences that spell the text [t] from [p] to [p'], with the restrictions at
    the end of a block. *)
Inductive spells (t : list Z) : Z -> list lseq -> Z -> Prop :=
| spells_nil p : 0 <= p -> spells t p [] p
| spells_cons p n off ml qs p' :
    0 <= p -> 0 <= n -> p + n + MFLIMIT <= alen t ->
    0 < off <= p + n -> off < 65536 -> 0 <= ml -> p + n + ml + MINMATCH + LASTLITERALS <= alen t ->
    repeats t (p + n) (p + n + ml + MINMATCH) off ->
    spells t (p + n + ml + MINMATCH) qs p' ->
    spells t p (LSeq (piece t p n) off ml :: qs) p'.
Definition enc_block (t : list Z) (qs : list lseq) (p : Z) : list Z := concat (map enc_seq qs) ++ enc_last (drop (Z.to_nat p) t).

(** * Reading along *)

Definition at_pos (b : list Z) (i : Z) (l : list Z) : Prop := 0 <= i <= alen b /\ drop (Z.to_nat i) b = l.

Lemma at_pos_len b i l : at_pos b i l -> alen b = i + alen l.
Proof. intros [H E]. subst l. unfold alen in *. rewrite length_drop. lia. Qed.
Lemma at_pos_app b i l1 l2 : at_pos b i (l1 ++ l2) -> at_pos b (i + alen l1) l2.
Proof.
  intros H. pose proof (at_pos_len _ _ _ H) as El. rewrite bytes_app in El. pose proof (alen_nonneg l1). pose proof (alen_nonneg l2). destruct H as [H E].
  split; [lia|]. replace (Z.to_nat (i + alen l1)) with (Z.to_nat i + length l1)%nat by (unfold alen; lia).
  rewrite <- drop_drop, E. apply drop_app_length.
Qed.
Lemma at_pos_aget b i l j : at_pos b i l -> 0 <= j < alen l -> aget b (i + j) = aget l j.
Proof. intros [H <-] Hj. rewrite byte_drop by lia. reflexivity. Qed.
Lemma at_pos_cons b i x l : at_pos b i (x :: l) -> rd b i = Done x /\ at_pos b (i + 1) l.
Proof.
  intros H. pose proof (at_pos_len _ _ _ H) as El. split; [|exact (at_pos_app b i [x] l H)].
  rewrite rd_ok. 2:{ destruct H as [H _]. unfold alen in El at 2. cbn [length] in El. lia. }
  f_equal. replace i with (i + 0) by lia. rewrite (at_pos_aget b i (x :: l) 0 H); [reflexivity|]. unfold alen. cbn [length]. lia.
Qed.
Lemma at_pos_rd_n b i l1 l2 : at_pos b i (l1 ++ l2) -> rd_n b i (alen l1) = Done l1.
Proof.
  intros H. unfold rd_n. pose proof (at_pos_len _ _ _ H) as El. rewrite bytes_app in El. pose proof (alen_nonneg l1). pose proof (alen_nonneg l2).
  destruct H as [Hi E]. rewrite assert_true by lia. rewrite E, take_app_length' by (unfold alen; lia). reflexivity.
Qed.

(** ** Lengths *)

Lemma length_bytes_more fuel : forall n, 0 <= n -> (Z.to_nat n <= fuel)%nat -> length_bytes fuel n = length_bytes (Z.to_nat n) n.
Proof.
  induction fuel as [fuel IH] using lt_wf_ind. intros n Hn Hf. destruct fuel as [|fuel]; [replace (Z.to_nat n) with 0%nat by lia; reflexivity|].
  destruct (Z.leb_spec 255 n) as [Hbig|Hsmall].
  - destruct (Z.to_nat n) as [|k] eqn:Ek; [lia|]. cbn [length_bytes]. replace (255 <=? n) with true by lia. f_equal.
    rewrite (IH fuel) by lia. rewrite (IH k) by lia. reflexivity.
  - cbn [length_bytes]. replace (255 <=? n) with false by lia. destruct (Z.to_nat n) as [|k]; cbn [length_bytes]; [reflexivity|].
    replace (255 <=? n) with false by lia. reflexivity.
Qed.
Lemma encode_length_eq n : 0 <= n -> encode_length n = if 255 <=? n then 255 :: encode_length (n - 255) else [n].
Proof.
  intros Hn. unfold encode_length. destruct (Z.leb_spec 255 n) as [Hbig|Hsmall].
  - destruct (Z.to_nat n) as [|k] eqn:Ek; [lia|]. cbn [length_bytes]. replace (255 <=? n) with true by lia. f_equal. apply length_bytes_more; lia.
  - destruct (Z.to_nat n) as [|k]; cbn [length_bytes]; [|replace (255 <=? n) with false by lia]; rewrite u8_small by lia; reflexivity.
Qed.

(** Induction along the bytes of a length. *)
Lemma length_ind (P : Z -> Prop) : (forall n, 0 <= n < 255 -> P n) -> (forall n, 255 <= n -> P (n - 255) -> P n) -> forall n, 0 <= n -> P n.
Proof.
  intros H1 H2 n Hn. remember (Z.to_nat n) as k eqn:Ek. revert n Hn Ek. induction k as [k IH] using lt_wf_ind. intros n Hn ->.
  destruct (Z.lt_ge_cases n 255); [apply H1; lia|apply H2; [lia|]]. apply (IH (Z.to_nat (n - 255))); lia.
Qed.

Lemma encode_length_bytes n : 0 <= n -> Forall is_byte (encode_length n) /\ 1 <= alen (encode_length n) <= n / 255 + 1.
Proof.
  revert n. apply length_ind; intros n Hn.
  - rewrite encode_length_eq by lia. replace (255 <=? n) with false by lia. split; [constructor; [unfold is_byte; lia|constructor]|].
    unfold alen. cbn [length]. pose proof (Z.div_pos n 255). lia.
  - intros [Hb Hl]. rewrite encode_length_eq by lia. replace (255 <=? n) with true by lia. split; [constructor; [unfold is_byte; lia|exact Hb]|].
    change (alen (255 :: encode_length (n - 255))) with (alen ([255] ++ encode_length (n - 255))). rewrite bytes_app. unfold alen at 1 3. cbn [length].
    assert (n / 255 = (n - 255) / 255 + 1) by (replace n with (n - 255 + 1 * 255) at 1 by lia; rewrite Z.div_add by lia; reflexivity). lia.
Qed.

Lemma run_length_read src n : 0 <= n -> forall fuel ip length rest, at_pos src ip (encode_length n ++ rest) -> alen src - ip <= Z.of_nat fuel ->
  run_length src (alen src) fuel ip length 255 = Done (length + n, ip + alen (encode_length n)).
Proof.
  revert n. apply (length_ind (fun n => forall fuel ip length rest, at_pos src ip (encode_length n ++ rest) -> alen src - ip <= Z.of_nat fuel ->
    run_length src (alen src) fuel ip length 255 = Done (length + n, ip + alen (encode_length n)))); intros n Hn.
  - intros fuel ip length rest H Hf. rewrite (encode_length_eq n) in H |- * by lia. replace (255 <=? n) with false in H |- * by lia. cbn [app] in H.
    pose proof (at_pos_len _ _ _ H) as El. destruct (at_pos_cons _ _ _ _ H) as [Hrd Hat]. pose proof (at_pos_len _ _ _ Hat) as El2. pose proof (alen_nonneg rest).
    destruct fuel as [|fuel]; [lia|]. cbn [run_length]. replace (ip <? alen src) with true by lia. cbn [andb Z.eqb Pos.eqb]. rewrite Hrd. cbn [obind].
    destruct fuel as [|fuel]; cbn [run_length]; replace (n =? 255) with false by lia; rewrite andb_false_r; reflexivity.
  - intros IH fuel ip length rest H Hf. rewrite (encode_length_eq n) in H |- * by lia. replace (255 <=? n) with true in H |- * by lia. cbn [app] in H.
    destruct (at_pos_cons _ _ _ _ H) as [Hrd Hat]. pose proof (at_pos_len _ _ _ Hat) as El2. pose proof (alen_nonneg (encode_length (n - 255) ++ rest)).
    destruct fuel as [|fuel]; [lia|]. cbn [run_length]. replace (ip <? alen src) with true by lia. cbn [andb Z.eqb Pos.eqb]. rewrite Hrd. cbn [obind].
    rewrite (IH fuel (ip + 1) _ rest Hat) by lia. change (255 :: encode_length (n - 255)) with ([255] ++ encode_length (n - 255)). rewrite bytes_app.
    change (alen [255]) with 1. do 2 f_equal; lia.
Qed.

Lemma match_length_read src n : 0 <= n -> forall fuel ip length rest, at_pos src ip (encode_length n ++ rest) -> 6 <= alen rest -> alen src - ip <= Z.of_nat fuel ->
  match_length src (alen src) fuel ip length = Done (length + n, ip + alen (encode_length n)).
Proof.
  revert n. apply (length_ind (fun n => forall fuel ip length rest, at_pos src ip (encode_length n ++ rest) -> 6 <= alen rest -> alen src - ip <= Z.of_nat fuel ->
    match_length src (alen src) fuel ip length = Done (length + n, ip + alen (encode_length n)))); intros n Hn.
  - intros fuel ip length rest H Hrest Hf. rewrite (encode_length_eq n) in H |- * by lia. replace (255 <=? n) with false in H |- * by lia. cbn [app] in H.
    destruct (at_pos_cons _ _ _ _ H) as [Hrd Hat]. pose proof (at_pos_len _ _ _ Hat) as El2.
    destruct fuel as [|fuel]; [lia|]. cbn [match_length]. replace (ip <? alen src - (LASTLITERALS + 1)) with true by lia. rewrite Hrd. cbn [obind].
    replace (n =? 255) with false by lia. reflexivity.
  - intros IH fuel ip length rest H Hrest Hf. rewrite (encode_length_eq n) in H |- * by lia. replace (255 <=? n) with true in H |- * by lia. cbn [app] in H.
    destruct (at_pos_cons _ _ _ _ H) as [Hrd Hat]. pose proof (at_pos_len _ _ _ Hat) as El2. rewrite bytes_app in El2. pose proof (alen_nonneg (encode_length (n - 255))).
    destruct fuel as [|fuel]; [lia|]. cbn [match_length]. replace (ip <? alen src - (LASTLITERALS + 1)) with true by lia. rewrite Hrd. cbn [obind Z.eqb Pos.eqb].
    rewrite (IH fuel (ip + 1) _ rest Hat Hrest) by lia. change (255 :: encode_length (n - 255)) with ([255] ++ encode_length (n - 255)). rewrite bytes_app.
    change (alen [255]) with 1. do 2 f_equal; lia.
Qed.

(** ** Tokens *)

Lemma token_fields l m : 0 <= l -> 0 <= m -> enc_token l m .>> ML_BITS = Z.min l 15 /\ enc_token l m .& ML_MASK = Z.min m 15 /\ is_byte (enc_token l m).
Proof.
  intros Hl Hm. unfold enc_token, is_byte. set (a := Z.min l 15). set (b := Z.min m 15). assert (0 <= a <= 15) by lia. assert (0 <= b <= 15) by lia.
  split_and!; try lia.
  - rewrite Z.shiftr_div_pow2 by lia. change (2 ^ 4) with 16. rewrite Z.div_add_l, (Z.div_small b 16) by lia. lia.
  - pose proof (Z.land_ones (a * 16 + b) 4 ltac:(lia)) as E. change (Z.ones 4) with 15 in E. change (2 ^ 4) with 16 in E. rewrite E.
    rewrite Z.add_comm, Z.mod_add, Z.mod_small by lia. reflexivity.
Qed.

(** The run length and the match length as the decompressor takes them. *)
Lemma read_run src l m ip rest : 0 <= l -> 0 <= m -> at_pos src ip (enc_ext l ++ rest) ->
  (if enc_token l m .>> ML_BITS =? RUN_MASK then run_length src (alen src) (Z.to_nat (alen src)) ip RUN_MASK 255 else Done (enc_token l m .>> ML_BITS, ip))
  = Done (l, ip + alen (enc_ext l)).
Proof.
  intros Hl Hm H. destruct (token_fields l m Hl Hm) as (-> & _ & _). unfold enc_ext in *. destruct (Z.leb_spec 15 l).
  - replace (Z.min l 15 =? RUN_MASK) with true by lia. rewrite (run_length_read src (l - 15) ltac:(lia) _ _ _ rest H) by (destruct H; lia). do 2 f_equal. lia.
  - replace (Z.min l 15 =? RUN_MASK) with false by lia. change (alen []) with 0. do 2 f_equal; lia.
Qed.
Lemma read_match src l m ip rest : 0 <= l -> 0 <= m -> at_pos src ip (enc_ext m ++ rest) -> 6 <= alen rest ->
  (if enc_token l m .& ML_MASK =? ML_MASK then match_length src (alen src) (Z.to_nat (alen src)) ip ML_MASK else Done (enc_token l m .& ML_MASK, ip))
  = Done (m, ip + alen (enc_ext m)).
Proof.
  intros Hl Hm H Hr. destruct (token_fields l m Hl Hm) as (_ & -> & _). unfold enc_ext in *. destruct (Z.leb_spec 15 m).
  - replace (Z.min m 15 =? ML_MASK) with true by lia. rewrite (match_length_read src (m - 15) ltac:(lia) _ _ _ rest H) by (destruct H; lia). do 2 f_equal. lia.
  - replace (Z.min m 15 =? ML_MASK) with false by lia. change (alen []) with 0. do 2 f_equal; lia.
Qed.

(** * Decoding *)

(** The buffer holds the text up to [p]. *)
Definition agrees (t b : list Z) (p : Z) : Prop := forall j, 0 <= j < p -> aget b j = aget t j.

Lemma repeats_determined t b a e off : 0 < off <= a -> agrees t b a -> repeats t a e off -> repeats b a e off -> agrees t b e.
Proof.
  intros Ho Ha Ht Hb j Hj. remember (Z.to_nat j) as k eqn:Ek. revert j Hj Ek. induction k as [k IH] using lt_wf_ind. intros j Hj ->.
  destruct (Z.lt_ge_cases j a) as [Hlt|Hge]; [apply Ha; lia|]. rewrite Hb, Ht by lia. apply (IH (Z.to_nat (j - off))); lia.
Qed.

Lemma alen_piece t i n : 0 <= i -> 0 <= n -> i + n <= alen t -> alen (piece t i n) = n.
Proof. intros Hi Hn H. unfold piece, alen in *. rewrite length_take, length_drop. lia. Qed.
Lemma aget_piece t i n j : 0 <= i -> 0 <= j < n -> aget (piece t i n) j = aget t (i + j).
Proof. intros Hi Hj. unfold piece. rewrite byte_take, byte_drop by lia. reflexivity. Qed.

Section decode.
Context (E t : list Z) (oend : Z).
Hypothesis (Htext : alen t <= oend).

Lemma decode_seq fuel dst ip p n off ml rest :
  alen dst = oend -> agrees t dst p -> at_pos E ip (enc_seq (LSeq (piece t p n) off ml) ++ rest) -> 6 <= alen rest ->
  0 <= p -> 0 <= n -> p + n + MFLIMIT <= alen t -> 0 < off <= p + n -> off < 65536 -> 0 <= ml ->
  p + n + ml + MINMATCH + LASTLITERALS <= alen t -> repeats t (p + n) (p + n + ml + MINMATCH) off ->
  exists dst', decode_loop E (alen E) oend (S fuel) dst ip p
             = decode_loop E (alen E) oend fuel dst' (ip + alen (enc_seq (LSeq (piece t p n) off ml))) (p + n + ml + MINMATCH)
    /\ alen dst' = oend /\ agrees t dst' (p + n + ml + MINMATCH).
Proof.
  intros Ed Hag Hat Hrest Hp Hn Hfit Hoff Ho16 Hml Hend Hrep. cbn [decode_loop]. unfold enc_seq in *. cbn [ls_lits ls_off ls_len] in *.
  assert (En : alen (piece t p n) = n) by (apply alen_piece; lia). rewrite En in *.
  rewrite <- app_comm_cons, <- !app_assoc in Hat. destruct (at_pos_cons _ _ _ _ Hat) as [-> H1]. cbn [obind].
  rewrite (read_run E n ml (ip + 1) _ Hn Hml H1). cbn [obind]. apply at_pos_app in H1 as H2.
  pose proof (at_pos_rd_n _ _ _ _ H2) as Hlits. rewrite En in Hlits. apply at_pos_app in H2 as H3. rewrite En in H3.
  apply at_pos_app in H3 as H4. change (alen (le_bytes 2 off)) with 2 in H4. apply at_pos_app in H4 as H5.
  set (i1 := ip + 1 + alen (enc_ext n)) in *. assert (Hi1 : 0 <= i1) by (subst i1; destruct Hat as [[Hip _] _]; pose proof (alen_nonneg (enc_ext n)); lia).
  pose proof (at_pos_len _ _ _ H5) as EL5. pose proof (at_pos_len _ _ _ H3) as EL3. pose proof (alen_nonneg (enc_ext ml)). pose proof (alen_nonneg (enc_ext n)).
  replace (oend - MFLIMIT <? p + n) with false by lia. replace (alen E - (2 + 1 + LASTLITERALS) <? i1 + n) with false by lia. cbn [orb].
  destruct (wild_in_ok (wild_fuel p (p + n)) E i1 dst p (p + n)) as (b & -> & Eb & Hlo & Hhi); try (unfold wild_fuel; destruct Hat; lia). cbn [obind].
  assert (Hagb : agrees t b (p + n)).
  { intros j Hj. destruct (Z.lt_ge_cases j p); [rewrite Hlo by lia; apply Hag; lia|]. rewrite Hhi by lia.
    rewrite (at_pos_aget E i1 _ (j - p) H2), aget_app by first [lia|rewrite bytes_app, En; pose proof (alen_nonneg (le_bytes 2 off ++ enc_ext ml ++ rest)); lia].
    replace (j - p <? alen (piece t p n)) with true by lia. rewrite aget_piece by lia. f_equal. lia. }
  replace (rd_le E (i1 + n) 2) with (Done off).
  2:{ unfold rd_le. pose proof (at_pos_rd_n _ _ _ _ H3) as Hrd. change (alen (le_bytes 2 off)) with 2 in Hrd. rewrite Hrd. cbn [obind].
      rewrite le_value_bytes by (change (2 ^ (8 * Z.of_nat 2)) with 65536; lia). reflexivity. }
  cbn [obind]. replace (p + n - off <? 0) with false by lia. rewrite (read_match E n ml _ _ Hn Hml H4 Hrest). cbn [obind].
  destruct (match_start_ok b (p + n - off) (p + n)) as (b2 & ref' & -> & (E2 & S2 & R2) & Hr' & Hk); try lia. cbn [obind].
  replace (p + n - (p + n - off)) with off in * by lia.
  destruct (match_rest_ok oend b2 ref' (p + n + 8) (p + n) (p + n + 8 + ml - (STEPSIZE - 4)) off) as [[_ Hbad]|(b3 & -> & Hc & E3 & S3 & R3)]; try lia.
  { right. destruct (Hk ltac:(lia)) as (A & B & C). split_and!; try lia; [exact C|apply R2; lia]. }
  cbn [obind]. exists b3. split; [|split; [exact E3|]].
  - f_equal; [|lia]. change (enc_token n ml :: enc_ext n ++ piece t p n ++ le_bytes 2 off ++ enc_ext ml)
      with ([enc_token n ml] ++ enc_ext n ++ piece t p n ++ le_bytes 2 off ++ enc_ext ml). rewrite !bytes_app, En. change (alen (le_bytes 2 off)) with 2.
    change (alen [enc_token n ml]) with 1. lia.
  - apply (repeats_determined t b3 (p + n) _ off); [lia| |exact Hrep|].
    + intros j Hj. rewrite S3, S2 by lia. apply Hagb. lia.
    + intros j Hj. apply R3; lia.
Qed.

Lemma enc_seq_len q : 1 <= alen (enc_seq q).
Proof. unfold enc_seq. unfold alen. cbn [length]. lia. Qed.
Lemma enc_last_len l : alen l + 1 <= alen (enc_last l).
Proof. unfold enc_last, alen. cbn [length]. rewrite length_app. lia. Qed.

Lemma decode_last dst ip p : alen dst = oend -> agrees t dst p -> 0 <= p <= alen t -> at_pos E ip (enc_last (drop (Z.to_nat p) t)) ->
  forall fuel, exists dst', decode_loop E (alen E) oend (S fuel) dst ip p = Done (alen t, dst') /\ alen dst' = oend /\ agrees t dst' (alen t).
Proof.
  intros Ed Hag Hp Hat fuel. cbn [decode_loop]. unfold enc_last in Hat. set (l := drop (Z.to_nat p) t) in *.
  assert (El : alen l = alen t - p) by (subst l; unfold alen in *; rewrite length_drop; lia).
  destruct (at_pos_cons _ _ _ _ Hat) as [-> H1]. cbn [obind]. rewrite (read_run E (alen l) 0 (ip + 1) l) by (lia || exact H1). cbn [obind].
  apply at_pos_app in H1 as H2. pose proof (at_pos_len _ _ _ H2) as EL. set (i1 := ip + 1 + alen (enc_ext (alen l))) in *.
  replace (alen E - (2 + 1 + LASTLITERALS) <? i1 + alen l) with true by lia. rewrite orb_true_r.
  replace (i1 + alen l =? alen E) with true by lia. replace (oend <? p + alen l) with false by lia. cbn [negb orb].
  destruct (copy_in_ok E i1 dst p (alen l)) as (b & -> & Eb & Hb); try (destruct H2; lia). cbn [obind].
  exists b. split; [do 2 f_equal; lia|]. split; [lia|]. intros j Hj. rewrite Hb by lia. destruct (Z.leb_spec p j); cbn [andb]; [|apply Hag; lia].
  replace (j <? p + alen l) with true by lia. rewrite (at_pos_aget E i1 l (j - p) H2) by lia. subst l. rewrite byte_drop by lia. f_equal. lia.
Qed.

Lemma spells_end p qs p' : spells t p qs p' -> p <= alen t -> p' <= alen t /\ (qs <> [] -> p' + LASTLITERALS <= alen t) /\ 0 <= p <= p'.
Proof.
  induction 1 as [p Hp|p n off ml qs p' Hp Hn Hfit Hoff Ho16 Hml Hend Hrep Hs IH]; intros Hle.
  - split; [exact Hle|]. split; [contradiction|lia].
  - destruct IH as (A & B & C); [lia|]. split; [exact A|]. split; [|lia]. intros _.
    destruct qs as [|q qs]; [inversion Hs; subst; lia|apply B; discriminate].
Qed.

Lemma block_tail_long p qs p' : spells t p qs p' -> p + LASTLITERALS <= alen t -> 6 <= alen (concat (map enc_seq qs) ++ enc_last (drop (Z.to_nat p') t)).
Proof.
  intros Hs Hp. destruct (spells_end _ _ _ Hs) as (A & B & C); [lia|].
  assert (Hp' : p' + LASTLITERALS <= alen t) by (destruct qs; [inversion Hs; subst; exact Hp|apply B; discriminate]).
  rewrite bytes_app. pose proof (alen_nonneg (concat (map enc_seq qs))). pose proof (enc_last_len (drop (Z.to_nat p') t)).
  assert (alen (drop (Z.to_nat p') t) = alen t - p') by (unfold alen in *; rewrite length_drop; lia). lia.
Qed.

Lemma decode_block p qs p' : spells t p qs p' -> p <= alen t -> forall fuel dst ip, alen dst = oend -> agrees t dst p ->
  at_pos E ip (concat (map enc_seq qs) ++ enc_last (drop (Z.to_nat p') t)) -> (length qs < fuel)%nat ->
  exists dst', decode_loop E (alen E) oend fuel dst ip p = Done (alen t, dst') /\ alen dst' = oend /\ agrees t dst' (alen t).
Proof.
  induction 1 as [p Hp|p n off ml qs p' Hp Hn Hfit Hoff Ho16 Hml Hend Hrep Hs IH]; intros Hle fuel dst ip Ed Hag Hat Hf.
  - destruct fuel as [|fuel]; [cbn in Hf; lia|]. apply decode_last; auto.
  - destruct fuel as [|fuel]; [lia|]. cbn [map concat] in Hat. rewrite <- app_assoc in Hat.
    assert (Hlong : 6 <= alen (concat (map enc_seq qs) ++ enc_last (drop (Z.to_nat p') t))) by (apply (block_tail_long _ _ _ Hs); lia).
    destruct (decode_seq fuel dst ip p n off ml _ Ed Hag Hat Hlong Hp Hn Hfit Hoff Ho16 Hml Hend Hrep) as (d2 & -> & E2 & A2).
    apply IH; [lia|exact E2|exact A2|exact (at_pos_app _ _ _ _ Hat)|cbn in Hf; lia].
Qed.
End decode.

(** The decompressor gives the text back, into any buffer that is large enough. *)
Lemma decompress_block t qs p dst : spells t 0 qs p -> 0 < alen t <= alen dst ->
  exists dst', LZ4_decompress_safe (enc_block t qs p) dst (alen (enc_block t qs p)) (alen dst) = Done (alen t, dst')
    /\ alen dst' = alen dst /\ take (length t) dst' = t.
Proof.
  intros Hs Ht. unfold LZ4_decompress_safe, LZ4_decompress_generic. replace (alen dst =? 0) with false by lia.
  assert (Hnum : Z.of_nat (length qs) <= alen (concat (map enc_seq qs))).
  { clear Hs. induction qs as [|q qs IH]; [apply alen_nonneg|]. cbn [map concat length]. rewrite bytes_app. pose proof (enc_seq_len q). lia. }
  assert (Hfuel : (length qs < S (Z.to_nat (alen (enc_block t qs p))))%nat).
  { unfold enc_block. rewrite bytes_app. pose proof (enc_last_len (drop (Z.to_nat p) t)). pose proof (alen_nonneg (drop (Z.to_nat p) t)). lia. }
  assert (Hat : at_pos (enc_block t qs p) 0 (concat (map enc_seq qs) ++ enc_last (drop (Z.to_nat p) t))).
  { split; [pose proof (alen_nonneg (enc_block t qs p)); lia|reflexivity]. }
  destruct (decode_block (enc_block t qs p) t (alen dst) ltac:(lia) 0 qs p Hs ltac:(lia) (S (Z.to_nat (alen (enc_block t qs p)))) dst 0 eq_refl
    ltac:(intros j Hj; lia) Hat Hfuel) as (d2 & -> & E2 & A2).
  exists d2. split; [reflexivity|]. split; [exact E2|]. replace (length t) with (Z.to_nat (alen t)) by (unfold alen; lia).
  apply aget_ext; rewrite bytes_take by lia; [reflexivity|]. intros i Hi. rewrite byte_take by lia. apply A2. lia.
Qed.

(** ** The bytes of a block *)

Lemma bytes_le n x : Forall is_byte (le_bytes n x).
Proof. revert x. induction n as [|n IH]; intros x; [constructor|]. constructor; [unfold is_byte, u8; apply Z.mod_pos_bound; lia|apply IH]. Qed.
Lemma bytes_ext n : 0 <= n -> Forall is_byte (enc_ext n).
Proof. intros H. unfold enc_ext. destruct (Z.leb_spec 15 n); [apply encode_length_bytes; lia|constructor]. Qed.
Lemma bytes_seq q : 0 <= ls_len q -> Forall is_byte (ls_lits q) -> Forall is_byte (enc_seq q).
Proof.
  intros Hl Hb. pose proof (alen_nonneg (ls_lits q)). constructor; [apply token_fields; lia|].
  repeat apply Forall_app_2; auto using bytes_ext, bytes_le.
Qed.
Lemma block_bytes t qs p : Forall is_byte t -> spells t 0 qs p -> Forall is_byte (enc_block t qs p).
Proof.
  intros Hb Hs. unfold enc_block. apply Forall_app_2.
  - induction Hs as [|p n off ml qs p' _ _ _ _ _ Hml _ _ _ IH]; [constructor|]. cbn [map concat]. apply Forall_app_2; [|exact IH].
    apply bytes_seq; [exact Hml|]. apply Forall_take, Forall_drop, Hb.
  - set (l := drop (Z.to_nat p) t). pose proof (alen_nonneg l). constructor; [apply token_fields; lia|]. apply Forall_app_2; [apply bytes_ext; lia|apply Forall_drop, Hb].
Qed.
