(* ===== verification/Lz4Encode.v ===== *)
(** LZ4 compression: the output is a block that spells the input, so that it
    decompresses to the input again. *)

From Stdlib Require Import ZArith Lia Bool.
From stdpp Require Import base numbers list option.
From S2P Require Import Prelude Disk Crc Check Lz4 Lz4Decode Lz4Format.

(** * Words and bytes *)

Lemma le_value_cons x l : is_byte x -> 0 <= le_value l -> le_value (x :: l) = x + 256 * le_value l.
Proof.
  intros Hx Hl. cbn [le_value]. rewrite Z.shiftl_mul_pow2 by lia. change (2 ^ 8) with 256.
  rewrite Z.lxor_comm, Z.add_comm, (Z.mul_comm 256). symmetry. rewrite Z.add_nocarry_lxor; [reflexivity|].
  change 256 with (2 ^ 8). zbits k. destruct (decide (k < 8)).
  - rewrite testbit_low_mul by lia. reflexivity.
  - rewrite (testbit_high x 8) by (unfold is_byte in Hx; change (2 ^ 8) with 256; lia). apply andb_false_r.
Qed.
Lemma le_value_nonneg l : Forall is_byte l -> 0 <= le_value l.
Proof. induction 1 as [|x l Hx _ IH]; [reflexivity|]. rewrite le_value_cons by assumption. unfold is_byte in Hx. lia. Qed.

(** The first byte, and the rest, of the difference of two words. *)
Lemma diff_cons x y l m : is_byte x -> is_byte y -> Forall is_byte l -> Forall is_byte m ->
  ((le_value (x :: l) .^ le_value (y :: m)) .& 255 =? 0) = (x =? y)
  /\ (le_value (x :: l) .^ le_value (y :: m)) .>> 8 = le_value l .^ le_value m.
Proof.
  intros Hx Hy Hl Hm. apply le_value_nonneg in Hl, Hm. unfold is_byte in *.
  assert (Hlow : forall z v, 0 <= z < 256 -> 0 <= v -> (z + 256 * v) .& 255 = z).
  { intros z v Hz Hv. change 255 with (Z.ones 8). rewrite Z.land_ones by lia. change (2 ^ 8) with 256. rewrite Z.mul_comm, Z.mod_add, Z.mod_small by lia. reflexivity. }
  assert (Hhigh : forall z v, 0 <= z < 256 -> 0 <= v -> (z + 256 * v) .>> 8 = v).
  { intros z v Hz Hv. rewrite Z.shiftr_div_pow2 by lia. change (2 ^ 8) with 256. rewrite Z.mul_comm, Z.div_add, Z.div_small by lia. lia. }
  rewrite !le_value_cons by (unfold is_byte; assumption). split.
  - assert (Hdist : forall a b, (a .^ b) .& 255 = (a .& 255) .^ (b .& 255)).
    { intros a b. zbits k. destruct (Z.testbit a k), (Z.testbit b k), (Z.testbit 255 k); reflexivity. }
    rewrite Hdist, !Hlow by lia. destruct (Z.eqb_spec x y) as [->|Hne]; [rewrite Z.lxor_nilpotent; reflexivity|].
    apply Z.eqb_neq. intros E. apply Hne, Z.lxor_eq. exact E.
  - rewrite Z.shiftr_lxor, !Hhigh by lia. reflexivity.
Qed.

Lemma le_value_bytes_inj l : forall m, length l = length m -> Forall is_byte l -> Forall is_byte m -> le_value l = le_value m -> l = m.
Proof.
  induction l as [|x l IH]; intros [|y m] El Hl Hm E; try discriminate; [reflexivity|]. inversion_clear Hl. inversion_clear Hm.
  destruct (diff_cons x y l m) as [A B]; auto. rewrite E, Z.lxor_nilpotent in A, B. f_equal; [symmetry in A; apply Z.eqb_eq; exact A|].
  apply IH; auto. cbn in B. symmetry in B. apply Z.lxor_eq in B. exact B.
Qed.

(** LZ4_NbCommonBytes counts the leading bytes that are equal. *)
Lemma common_bytes_spec fuel : forall l m, length l = length m -> Forall is_byte l -> Forall is_byte m -> (fuel <= length l)%nat ->
  let k := common_bytes fuel (le_value l .^ le_value m) in
  0 <= k <= Z.of_nat fuel /\ (forall i, 0 <= i < k -> aget l i = aget m i) /\ (k < Z.of_nat fuel -> aget l k <> aget m k).
Proof.
  induction fuel as [|fuel IH]; intros l m El Hl Hm Hf k.
  - subst k. cbn. split; [lia|]. split; [lia|lia].
  - destruct l as [|x l], m as [|y m]; try discriminate; [cbn in Hf; lia|]. inversion_clear Hl. inversion_clear Hm.
    destruct (diff_cons x y l m) as [A B]; auto. subst k. cbn [common_bytes]. rewrite A, B. destruct (Z.eqb_spec x y) as [->|Hne].
    + destruct (IH l m) as (K1 & K2 & K3); auto; [cbn in Hf; lia|]. set (k := common_bytes fuel _) in *. split; [lia|]. split.
      * intros i Hi. destruct (Z.eq_dec i 0) as [->|Hi0]; [reflexivity|]. specialize (K2 (i - 1) ltac:(lia)).
        replace i with (1 + (i - 1)) by lia. rewrite <- !(byte_drop _ 1) by lia. exact K2.
      * intros Hk. rewrite <- !(byte_drop _ 1) by lia. apply K3. lia.
    + split; [lia|]. split; [lia|]. intros _. exact Hne.
Qed.

(** * Matches *)

Section encode.
Context (t : list Z).
Hypothesis Hbytes : Forall is_byte t.
Abbreviation n := (alen t).

Definition same_bytes (ref ip k : Z) : Prop := forall i, 0 <= i < k -> aget t (ref + i) = aget t (ip + i).

Lemma rd_n_bytes i k : 0 <= i -> 0 <= k -> i + k <= n -> exists l, rd_n t i k = Done l /\ length l = Z.to_nat k /\ Forall is_byte l
  /\ forall j, 0 <= j < k -> aget l j = aget t (i + j).
Proof.
  intros Hi Hk H. destruct (rd_n_ok t i k Hi Hk H) as (l & -> & El & Hl & Eq). exists l. split; [reflexivity|]. split; [unfold alen in El; lia|].
  split; [rewrite Eq; apply Forall_take, Forall_drop, Hbytes|exact Hl].
Qed.

(** A comparison of two words. *)
Lemma word_eq ref ip k : 0 <= ref -> 0 <= ip -> 0 <= k -> ref + k <= n -> ip + k <= n ->
  exists a b, rd_le t ref k = Done a /\ rd_le t ip k = Done b /\ ((a =? b) = true <-> same_bytes ref ip k)
    /\ (k = 8 -> (a .^ b <> 0 -> let c := LZ4_NbCommonBytes (a .^ b) in 0 <= c <= 7 /\ same_bytes ref ip c /\ aget t (ref + c) <> aget t (ip + c))).
Proof.
  intros Hr Hi Hk Hrk Hik. unfold rd_le. destruct (rd_n_bytes ref k Hr Hk Hrk) as (l & -> & El & Bl & Al).
  destruct (rd_n_bytes ip k Hi Hk Hik) as (m & -> & Em & Bm & Am). cbn [obind]. exists (le_value l), (le_value m). split; [reflexivity|]. split; [reflexivity|].
  assert (Hlm : le_value l = le_value m <-> same_bytes ref ip k).
  { split.
    - intros E i Hj. apply le_value_bytes_inj in E; [|congruence|assumption|assumption]. subst m. rewrite <- Al, <- Am by lia. reflexivity.
    - intros Hs. f_equal. apply aget_ext; [unfold alen; congruence|]. intros i Hj. unfold alen in Hj. rewrite Al, Am by lia. apply Hs. lia. }
  split; [rewrite Z.eqb_eq; exact Hlm|]. intros -> Hne. set (c := LZ4_NbCommonBytes _).
  destruct (common_bytes_spec 7 l m) as (C1 & C2 & C3); auto; [congruence|rewrite El; lia|]. fold (LZ4_NbCommonBytes (le_value l .^ le_value m)) in *. fold c in C1, C2, C3.
  split; [lia|]. split; [intros i Hj; rewrite <- Al, <- Am by lia; apply C2; lia|]. rewrite <- Al, <- Am by lia.
  destruct (Z.lt_ge_cases c 7) as [Hlt|Hge]; [apply C3; lia|]. intros E. apply Hne. replace (le_value l) with (le_value m); [apply Z.lxor_nilpotent|].
  f_equal. apply aget_ext; [unfold alen; congruence|]. intros i Hj. unfold alen in Hj. symmetry. destruct (Z.eq_dec i c) as [->|]; [exact E|apply C2; lia].
Qed.

(** The end of a match: sound, and not too early. *)
Definition ends_at (ref ip ip' : Z) : Prop :=
  ip <= ip' <= n - LASTLITERALS /\ same_bytes ref ip (ip' - ip)
  /\ forall X, X <= n - LASTLITERALS -> same_bytes ref ip (X - ip) -> X <= ip'.

Lemma same_bytes_shift ref ip k d : 0 <= d -> same_bytes ref ip k -> same_bytes (ref + d) (ip + d) (k - d).
Proof. intros Hd H i Hi. replace (ref + d + i) with (ref + (d + i)) by lia. replace (ip + d + i) with (ip + (d + i)) by lia. apply H. lia. Qed.
Lemma same_bytes_join ref ip d k : 0 <= d -> same_bytes ref ip d -> same_bytes (ref + d) (ip + d) k -> same_bytes ref ip (d + k).
Proof.
  intros Hd H1 H2 i Hi. destruct (Z.lt_ge_cases i d); [apply H1; lia|].
  replace (ref + i) with (ref + d + (i - d)) by lia. replace (ip + i) with (ip + d + (i - d)) by lia. apply H2. lia.
Qed.
Lemma same_bytes_less ref ip k k' : k' <= k -> same_bytes ref ip k -> same_bytes ref ip k'.
Proof. intros Hk H i Hi. apply H. lia. Qed.

Lemma ends_at_shift ref ip ip' d : 0 <= d -> same_bytes ref ip d -> ends_at (ref + d) (ip + d) ip' -> ends_at ref ip ip'.
Proof.
  intros Hd Hs (A & B & C). split; [lia|]. split.
  - replace (ip' - ip) with (d + (ip' - (ip + d))) by lia. apply same_bytes_join; assumption.
  - intros X HX HsX. destruct (Z.lt_ge_cases X (ip + d)); [lia|]. apply C; [exact HX|].
    replace (X - (ip + d)) with (X - ip - d) by lia. apply same_bytes_shift; assumption.
Qed.

Lemma differ_ends ref ip c : 0 <= c -> ip + c <= n - LASTLITERALS -> same_bytes ref ip c -> aget t (ref + c) <> aget t (ip + c) -> ends_at ref ip (ip + c).
Proof.
  intros Hc Hle Hs Hd. split; [lia|]. split; [replace (ip + c - ip) with c by lia; exact Hs|]. intros X HX HsX.
  destruct (Z.le_gt_cases X (ip + c)); [assumption|]. destruct Hd. apply HsX. lia.
Qed.
Lemma limit_ends ref ip : ip = n - LASTLITERALS -> ends_at ref ip ip.
Proof. intros ->. split; [lia|]. split; [intros i Hi; lia|]. lia. Qed.

(** No match of [k] bytes or more is left. *)
Definition below (ref ip k : Z) : Prop := forall X, X <= n - LASTLITERALS -> same_bytes ref ip (X - ip) -> X - ip < k.
Lemma below_ends ref ip : ip <= n - LASTLITERALS -> below ref ip 1 -> ends_at ref ip ip.
Proof. intros Hi H. split; [lia|]. split; [intros i Hj; lia|]. intros X HX Hs. specialize (H X HX Hs). lia. Qed.

(** One comparison of the tail. *)
Lemma tail_step ref ip k (b : bool) : 0 < k -> 0 <= ref < ip -> ip <= n - LASTLITERALS -> below ref ip (2 * k) ->
  (b = true <-> same_bytes ref ip k) -> let d := if (ip <? matchlimit n - (k - 1)) && b then k else 0 in
  0 <= d /\ ip + d <= n - LASTLITERALS /\ same_bytes ref ip d /\ below (ref + d) (ip + d) k.
Proof.
  intros Hk Hr Hi Hb Hbk d. unfold matchlimit in d. subst d. destruct (Z.ltb_spec ip (n - LASTLITERALS - (k - 1))) as [Hlt|Hge]; cbn [andb].
  - destruct b.
    + assert (Hs : same_bytes ref ip k) by (apply Hbk; reflexivity). split_and!; [lia|lia|exact Hs|]. intros X HX HsX.
      assert (X - ip < 2 * k); [|lia]. destruct (Z.lt_ge_cases X (ip + k)); [lia|]. apply Hb; [exact HX|].
      replace (X - ip) with (k + (X - (ip + k))) by lia. apply same_bytes_join; [lia|exact Hs|exact HsX].
    + split_and!; [lia|lia|intros i Hj; lia|]. rewrite !Z.add_0_r. intros X HX HsX. destruct (Z.lt_ge_cases (X - ip) k) as [|Hge]; [assumption|].
      enough (false = true) by discriminate. apply Hbk. eapply same_bytes_less; [|exact HsX]. lia.
  - split_and!; [lia|lia|intros i Hj; lia|]. rewrite !Z.add_0_r. intros X HX HsX. lia.
Qed.

Lemma cmp_step ref ip k : 0 < k -> 0 <= ref < ip -> ip <= n - LASTLITERALS -> below ref ip (2 * k) ->
  exists d, (if ip <? matchlimit n - (k - 1) then
               let! a := rd_le t ref k in
               let! b := rd_le t ip k in
               Done (if a =? b then (ip + k, ref + k) else (ip, ref))
             else Done (ip, ref)) = Done (ip + d, ref + d)
    /\ 0 <= d /\ ip + d <= n - LASTLITERALS /\ same_bytes ref ip d /\ below (ref + d) (ip + d) k.
Proof.
  intros Hk Hr Hi Hb. destruct (Z.ltb_spec ip (matchlimit n - (k - 1))) as [Hlt|Hge].
  - unfold matchlimit in Hlt. destruct (word_eq ref ip k) as (a & b & -> & -> & Hw & _); try lia. cbn [obind].
    pose proof (tail_step ref ip k (a =? b) Hk Hr Hi Hb Hw) as Hd. cbv zeta in Hd. unfold matchlimit in Hd. replace (ip <? n - LASTLITERALS - (k - 1)) with true in Hd by lia.
    cbn [andb] in Hd. destruct (a =? b); [exists k|exists 0]; (split; [do 2 f_equal; lia|exact Hd]).
  - exists 0. split; [do 2 f_equal; lia|]. pose proof (tail_step ref ip k false Hk Hr Hi Hb) as Hd. cbv zeta in Hd. rewrite andb_false_r in Hd.
    unfold matchlimit in Hge. split_and!; [lia|lia|intros i Hj; lia|]. rewrite !Z.add_0_r. intros X HX HsX. lia.
Qed.

Lemma count_tail_ok ref ip : 0 <= ref < ip -> ip <= n - LASTLITERALS -> n - LASTLITERALS - 8 < ip ->
  exists ip', count_tail t n ip ref = Done ip' /\ ends_at ref ip ip'.
Proof.
  intros Hr Hi Hlast. assert (B0 : below ref ip (2 * 4)) by (intros X HX _; lia). unfold count_tail.
  change (matchlimit n - 3) with (matchlimit n - (4 - 1)). change (matchlimit n - 1) with (matchlimit n - (2 - 1)).
  destruct (cmp_step ref ip 4) as (d & -> & D0 & D1 & D2 & D3); [lia..|exact B0|]. cbn [obind].
  destruct (cmp_step (ref + d) (ip + d) 2) as (e & -> & E0 & E1 & E2 & E3); [lia..|exact D3|]. cbn [obind]. unfold matchlimit.
  enough (exists ip', (if ip + d + e <? n - LASTLITERALS then
      let! a := rd t (ref + d + e) in let! b := rd t (ip + d + e) in Done (if a =? b then ip + d + e + 1 else ip + d + e)
      else Done (ip + d + e)) = Done ip' /\ ends_at (ref + d + e) (ip + d + e) ip') as (ip' & -> & Hends).
  { exists ip'. split; [reflexivity|]. apply ends_at_shift with d; [lia|exact D2|]. apply ends_at_shift with e; [lia|exact E2|exact Hends]. }
  destruct (Z.ltb_spec (ip + d + e) (n - LASTLITERALS)) as [Hlt|Hge].
  - rewrite !rd_ok by lia. cbn [obind]. destruct (Z.eqb_spec (aget t (ref + d + e)) (aget t (ip + d + e))) as [Heq|Hne].
    + eexists. split; [reflexivity|]. assert (Hs : same_bytes (ref + d + e) (ip + d + e) 1).
      { intros i Hj. replace i with 0 by lia. rewrite !Z.add_0_r. exact Heq. }
      apply ends_at_shift with 1; [lia|exact Hs|]. apply below_ends; [lia|]. intros X HX HsX. enough (X - (ip + d + e) < 2) by lia.
      destruct (Z.lt_ge_cases X (ip + d + e + 1)); [lia|]. apply E3; [exact HX|]. replace (X - (ip + d + e)) with (1 + (X - (ip + d + e + 1))) by lia.
      apply same_bytes_join; [lia|exact Hs|exact HsX].
    + eexists. split; [reflexivity|]. rewrite <- (Z.add_0_r (ip + d + e)) at 2. apply differ_ends; [lia..|intros i Hj; lia|rewrite !Z.add_0_r; exact Hne].
  - eexists. split; [reflexivity|]. apply limit_ends. lia.
Qed.

Lemma count_match_ok fuel : forall ref ip, 0 <= ref < ip -> ip <= n - LASTLITERALS -> n - ip < Z.of_nat fuel ->
  exists ip', count_match t n fuel ip ref = Done ip' /\ ends_at ref ip ip'.
Proof.
  induction fuel as [|fuel IH]; intros ref ip Hr Hi Hf; [lia|]. cbn [count_match]. unfold matchlimit at 1. destruct (Z.ltb_spec ip (n - LASTLITERALS - (STEPSIZE - 1))) as [Hlt|Hge].
  - destruct (word_eq ref ip 8) as (a & b & -> & -> & Hw & Hc); try lia. cbn [obind]. destruct (Z.eqb_spec (a .^ b) 0) as [E|Hne].
    + apply Z.lxor_eq in E. subst b. destruct (IH (ref + 8) (ip + 8)) as (ip' & -> & He); try lia. exists ip'. split; [reflexivity|].
      apply ends_at_shift with 8; [lia| |exact He]. apply Hw, Z.eqb_refl.
    + destruct (Hc eq_refl Hne) as (C1 & C2 & C3). eexists. split; [reflexivity|]. apply differ_ends; first [lia|assumption].
  - apply count_tail_ok; lia.
Qed.

(** ** Lengths *)

Lemma encode_match_length_eq k : 0 <= k -> encode_match_length k = encode_length k.
Proof.
  intros Hk. unfold encode_match_length. enough (forall fuel j, 0 <= j -> (Z.to_nat j <= fuel)%nat -> length_pairs fuel j = encode_length j) as H by (apply H; lia).
  clear. induction fuel as [|fuel IH]; intros j Hj Hf.
  - replace j with 0 by lia. reflexivity.
  - cbn [length_pairs]. rewrite (encode_length_eq j) by lia. destruct (Z.ltb_spec 509 j).
    + replace (255 <=? j) with true by lia. rewrite (encode_length_eq (j - 255)) by lia. replace (255 <=? j - 255) with true by lia. do 2 f_equal.
      rewrite IH by lia. f_equal. lia.
    + destruct (Z.leb_spec 255 j); [|rewrite u8_small by lia; reflexivity].
      rewrite (encode_length_eq (j - 255)) by lia. replace (255 <=? j - 255) with false by lia. rewrite u8_small by lia. reflexivity.
Qed.

(** ** The search *)

Hypothesis Hsize : n < 2 ^ 31.

(** Every cell of the hash table holds a position before [b]. *)
Definition table_ok (table : list Z) (b : Z) : Prop :=
  alen table = 2 ^ HASHLOG /\ forall h, 0 <= h < 2 ^ HASHLOG -> 0 <= aget table h < b.

Lemma lz4_hash_ok p : 0 <= p -> p + 4 <= n -> exists h, lz4_hash t p = Done h /\ 0 <= h < 2 ^ HASHLOG.
Proof.
  intros Hp Hn. unfold lz4_hash, rd_le. destruct (rd_n_bytes p 4) as (l & -> & _); try lia. cbn [obind]. eexists. split; [reflexivity|].
  pose proof (u32_range (le_value l * 2654435761)) as Hu. set (u := u32 _) in *. rewrite Z.shiftr_div_pow2 by lia.
  change (2 ^ (MINMATCH * 8 - HASHLOG)) with 1048576. change (2 ^ HASHLOG) with 4096. split; [apply Z.div_pos; lia|apply Z.div_lt_upper_bound; lia].
Qed.
Lemma table_ok_set table b h p : table_ok table b -> 0 <= h < 2 ^ HASHLOG -> 0 <= p < n -> table_ok (aset table h (cell_of p)) (Z.max b (p + 1)).
Proof.
  intros [El Hb] Hh Hp. split; [rewrite alen_aset; exact El|]. intros k Hk. unfold cell_of. rewrite u32_small by (change (2 ^ 32) with (2 * 2 ^ 31); lia).
  destruct (Z.eq_dec k h) as [->|Hne]; [rewrite aget_aset_eq by lia; lia|]. rewrite aget_aset_ne by lia. specialize (Hb k Hk). lia.
Qed.
Lemma table_ok_more table b b' : table_ok table b -> b <= b' -> table_ok table b'.
Proof. intros [El Hb] Hle. split; [exact El|]. intros h Hh. specialize (Hb h Hh). lia. Qed.

(** Four equal bytes at most 64 KB back. *)
Definition match_at (ref ip : Z) : Prop := 0 <= ref < ip /\ ip - ref <= MAX_DISTANCE /\ same_bytes ref ip MINMATCH.

Lemma probe_ok ref ip : 0 <= ref < ip -> ip + 4 <= n ->
  exists b, (if ref <? ip - MAX_DISTANCE then Done false else same4 t ref ip) = Done b /\ (b = true -> match_at ref ip).
Proof.
  intros Hr Hi. destruct (Z.ltb_spec ref (ip - MAX_DISTANCE)) as [Hfar|Hnear]; [exists false; split; [reflexivity|discriminate]|].
  unfold same4. destruct (word_eq ref ip 4) as (a & b & -> & -> & Hw & _); try lia. cbn [obind]. eexists. split; [reflexivity|].
  intros E. split; [lia|]. split; [lia|]. apply Hw. exact E.
Qed.

Lemma find_match_ok fuel : forall table fip fh att, table_ok table fip -> 1 <= fip -> 0 <= fh < 2 ^ HASHLOG -> 64 <= att -> n - fip < Z.of_nat fuel -> 0 < Z.of_nat fuel ->
  exists r, find_match t n fuel table fip fh att = Done r /\
    match r with
    | None => True
    | Some (table', ip, ref) => fip <= ip /\ ip + MINLENGTH <= n /\ match_at ref ip /\ table_ok table' (ip + 1)
    end.
Proof.
  induction fuel as [|fuel IH]; intros table fip fh att Ht Hf Hh Ha Hfuel Hpos; [lia|]. cbn [find_match]. unfold mflimit.
  set (step := att .>> SKIPSTRENGTH). assert (Hstep : 1 <= step).
  { subst step. rewrite Z.shiftr_div_pow2 by lia. change (2 ^ SKIPSTRENGTH) with 64. apply Z.div_le_lower_bound; lia. }
  destruct (Z.ltb_spec (n - MFLIMIT) (fip + step)) as [Hend|Hin]; [exists None; auto|].
  destruct (lz4_hash_ok (fip + step)) as (fh' & -> & Hfh'); [lia..|]. cbn [obind]. pose proof (proj2 Ht fh Hh) as Href.
  assert (Ht' : table_ok (aset table fh (cell_of fip)) (fip + 1)) by (eapply table_ok_more; [apply table_ok_set; eauto; lia|lia]).
  destruct (probe_ok (aget table fh) fip) as (b & -> & Hb); [lia..|]. cbn [obind]. destruct b.
  - eexists. split; [reflexivity|]. cbn. split_and!; [lia|lia|apply Hb; reflexivity|exact Ht'].
  - destruct (IH (aset table fh (cell_of fip)) (fip + step) fh' (att + 1)) as (r & -> & Hr); [eapply table_ok_more; [exact Ht'|lia]|lia..|].
    exists r. split; [reflexivity|]. destruct r as [[[tb ip] ref]|]; [|exact I]. destruct Hr as (A & B). split; [lia|exact B].
Qed.

Lemma catch_up_ok fuel : forall anchor ip ref, 0 <= anchor <= ip -> ip <= n -> 0 <= ref < ip -> ref <= Z.of_nat fuel ->
  exists d, catch_up t fuel anchor ip ref = Done (ip - d, ref - d) /\ 0 <= d <= ref /\ anchor <= ip - d /\ same_bytes (ref - d) (ip - d) d.
Proof.
  assert (Hstop : forall anchor ip ref, 0 <= anchor <= ip -> 0 <= ref < ip ->
    exists d, Done (ip, ref) = Done (ip - d, ref - d) /\ 0 <= d <= ref /\ anchor <= ip - d /\ same_bytes (ref - d) (ip - d) d).
  { intros anchor ip ref Ha Hr. exists 0. rewrite !Z.sub_0_r. split; [reflexivity|]. split; [lia|]. split; [lia|]. intros i Hi. lia. }
  induction fuel as [|fuel IH]; intros anchor ip ref Ha Hi Hr Hf; cbn [catch_up].
  - replace (0 <? ref) with false by lia. rewrite andb_false_r. apply Hstop; lia.
  - destruct ((anchor <? ip) && (0 <? ref)) eqn:Hc; [|apply Hstop; lia]. rewrite !rd_ok by lia. cbn [obind].
    destruct (Z.eqb_spec (aget t (ip - 1)) (aget t (ref - 1))) as [E|_]; [|apply Hstop; lia].
    destruct (IH anchor (ip - 1) (ref - 1)) as (d & -> & D1 & D2 & D3); [lia..|]. exists (d + 1). split; [do 2 f_equal; lia|]. split; [lia|]. split; [lia|].
    replace (ref - (d + 1)) with (ref - 1 - d) by lia. replace (ip - (d + 1)) with (ip - 1 - d) by lia. apply same_bytes_join; [lia|exact D3|].
    intros i Hj. replace i with 0 by lia. rewrite !Z.add_0_r. replace (ref - 1 - d + d) with (ref - 1) by lia. replace (ip - 1 - d + d) with (ip - 1) by lia. congruence.
Qed.
End encode.
