(* ===== verification/Lz4Theorems.v ===== *)
(** LZ4 as the file system uses it: the compressor always ends, writes at most one byte
    beyond its limit, and what it writes decompresses to the input; the decompressor
    stays in its buffers for any input. *)

From Stdlib Require Import ZArith Lia Bool.
From stdpp Require Import base numbers list option.
From S2P Require Import Prelude Disk Crc Check Lz4 Lz4Decode Lz4Format Lz4Encode.

(** * The bytes of a sequence *)

Lemma spells_snoc t p qs a l off ml : spells t p qs a -> 0 <= l -> a + l + MFLIMIT <= alen t ->
  0 < off <= a + l -> off < 65536 -> 0 <= ml -> a + l + ml + MINMATCH + LASTLITERALS <= alen t ->
  repeats t (a + l) (a + l + ml + MINMATCH) off ->
  spells t p (qs ++ [LSeq (piece t a l) off ml]) (a + l + ml + MINMATCH).
Proof.
  intros H. induction H as [p Hp|p n off' ml' qs p' Hp Hn Hfit Hoff Ho16 Hml Hend Hrep Hs IH]; intros; cbn [app].
  - apply spells_cons; auto. apply spells_nil. lia.
  - apply spells_cons; auto.
Qed.

(** The token with the literals, before the match is known. *)
Definition open_seq (lits : list Z) : list Z := Z.min (alen lits) 15 * 16 :: enc_ext (alen lits) ++ lits.

Lemma aset_middle (a : list Z) x r y : aset (a ++ x :: r) (alen a) y = a ++ y :: r.
Proof. unfold aset, alen. rewrite Nat2Z.id, insert_app_r_alt by lia. rewrite Nat.sub_diag. reflexivity. Qed.
Lemma aget_middle (a : list Z) x r : aget (a ++ x :: r) (alen a) = x.
Proof.
  unfold aget, alen. rewrite Nat2Z.id. apply list_lookup_total_correct. rewrite lookup_app_r, Nat.sub_diag by lia. reflexivity.
Qed.

(** The length fields that the limits leave room for. *)
Lemma enc_ext_len l : 0 <= l -> alen (enc_ext l) <= (l + 240) / 255.
Proof.
  intros Hl. unfold enc_ext. destruct (Z.leb_spec 15 l).
  - destruct (encode_length_bytes (l - 15)) as [_ H1]; [lia|]. replace (l + 240) with (l - 15 + 1 * 255) by lia. rewrite Z.div_add by lia. lia.
  - change (alen []) with 0. apply Z.div_pos; lia.
Qed.
Lemma enc_ext_short l : 0 <= l < 15 -> enc_ext l = [].
Proof. intros Hl. unfold enc_ext. replace (15 <=? l) with false by lia. reflexivity. Qed.
Lemma length_code l : 0 <= l ->
  (if RUN_MASK <=? l then (RUN_MASK .<< ML_BITS) :: encode_length (l - RUN_MASK) else [u8 (l .<< ML_BITS)]) = Z.min l 15 * 16 :: enc_ext l.
Proof.
  intros Hl. unfold enc_ext. destruct (Z.leb_spec 15 l).
  - replace (Z.min l 15) with 15 by lia. reflexivity.
  - replace (Z.min l 15) with l by lia. rewrite Z.shiftl_mul_pow2 by lia. change (2 ^ ML_BITS) with 16. rewrite u8_small by lia. reflexivity.
Qed.
Lemma wild_bytes_range l : 0 <= l -> l <= wild_bytes l <= l + 8 /\ (15 <= l -> wild_bytes l <= l + 7).
Proof. intros Hl. unfold wild_bytes. destruct (Z.leb_spec l 8); [lia|]. pose proof (Z.div_mod (l + 7) 8 ltac:(lia)). pose proof (Z.mod_pos_bound (l + 7) 8 ltac:(lia)). lia. Qed.

Section encode.
Context (t : list Z) (destSize max : Z).
Hypothesis Hbytes : Forall is_byte t.
Hypothesis Hsize : alen t <= 65536.
Hypothesis Hroom : max < destSize.
Hypothesis Hlimit : 0 <= max < 2 ^ 31.
Abbreviation n := (alen t).

Lemma emit_ok out l : alen out + alen l <= destSize -> emit destSize out l = Done (out ++ l).
Proof. intros H. unfold emit. rewrite assert_true by lia. reflexivity. Qed.

(** The extension of a length, against the room the code keeps for it. *)
Lemma ext_room l : 0 <= l <= 65536 -> alen (enc_ext l) <= (l .>> 8) + 2 /\ alen (enc_ext l) + wild_bytes l <= l + 9 + (l .>> 8).
Proof.
  intros Hl. rewrite Z.shiftr_div_pow2 by lia. change (2 ^ 8) with 256. pose proof (wild_bytes_range l ltac:(lia)) as [W1 W2].
  pose proof (Z.div_pos l 256 ltac:(lia) ltac:(lia)). destruct (Z.lt_ge_cases l 15) as [Hs|Hg].
  - rewrite enc_ext_short by lia. change (alen []) with 0. lia.
  - pose proof (enc_ext_len l ltac:(lia)) as He. pose proof (Z.div_mod (l + 240) 255 ltac:(lia)). pose proof (Z.mod_pos_bound (l + 240) 255 ltac:(lia)).
    pose proof (Z.div_mod l 256 ltac:(lia)). pose proof (Z.mod_pos_bound l 256 ltac:(lia)). lia.
Qed.

Lemma emit_literals_ok out anchor l : 0 <= anchor -> 0 <= l -> anchor + l + MINLENGTH - 1 <= n -> 
  exists r, emit_literals t destSize max anchor (anchor + l) out = Done r /\
    (r = None \/ r = Some (out ++ open_seq (piece t anchor l), alen out) /\ alen out + alen (open_seq (piece t anchor l)) <= max - 6).
Proof.
  intros Ha Hl Hn. unfold emit_literals. replace (anchor + l - anchor) with l by lia.
  destruct (Z.ltb_spec max (alen out + 1 + l + (2 + 1 + LASTLITERALS) + (l .>> 8))) as [_|Hfit]; [exists None; auto|].
  destruct (ext_room l) as [R1 R2]; [lia|]. pose proof (alen_nonneg (enc_ext l)). pose proof (wild_bytes_range l ltac:(lia)) as [W1 W2].
  rewrite length_code by lia. change (Z.min l 15 * 16 :: enc_ext l) with ([Z.min l 15 * 16] ++ enc_ext l). rewrite emit_ok.
  2:{ rewrite bytes_app. change (alen [_]) with 1. lia. }
  cbn [obind]. destruct (rd_n_ok t anchor (wild_bytes l)) as (w & -> & Ew & _ & Hw); [lia..|unfold wild_bytes in *; destruct (Z.leb_spec l 8); lia|]. cbn [obind].
  rewrite emit_ok by (rewrite !bytes_app, Ew; change (alen [_]) with 1; lia). cbn [obind]. eexists. split; [reflexivity|]. right.
  assert (El : alen (piece t anchor l) = l) by (apply alen_piece; lia).
  assert (Etk : take (Z.to_nat l) w = piece t anchor l). { rewrite Hw. unfold piece. rewrite take_take. f_equal. lia. }
  rewrite Etk. split.
  - do 2 f_equal. unfold open_seq. rewrite El. rewrite <- app_assoc. reflexivity.
  - unfold open_seq. rewrite El. change (?x :: ?a ++ ?b) with ([x] ++ a ++ b). rewrite !bytes_app, El. change (alen [_]) with 1. lia.
Qed.

(** A match found at [T] and started at [ip]. *)
Definition match_from (ref ip T : Z) : Prop :=
  0 <= ref < ip /\ ip - ref <= MAX_DISTANCE /\ ip + MFLIMIT <= n /\ ip <= T /\ T + MINMATCH + LASTLITERALS <= n /\ same_bytes t ref ip (T + MINMATCH - ip).

Lemma match_count ref ip T : match_from ref ip T -> exists ml, count_match t n (S (Z.to_nat n)) (ip + MINMATCH) (ref + MINMATCH) = Done (ip + ml + MINMATCH)
  /\ 0 <= ml /\ T <= ip + ml /\ ip + ml + MINMATCH + LASTLITERALS <= n /\ repeats t ip (ip + ml + MINMATCH) (ip - ref).
Proof.
  intros (Hr & Hd & Hi & HT & HTn & Hs). destruct (count_match_ok t Hbytes (S (Z.to_nat n)) (ref + MINMATCH) (ip + MINMATCH)) as (ip' & -> & A & B & C); [lia..|].
  exists (ip' - ip - MINMATCH). split; [f_equal; lia|]. split; [lia|]. split.
  - enough (T + MINMATCH <= ip') by lia. apply C; [lia|]. replace (T + MINMATCH - (ip + MINMATCH)) with (T + MINMATCH - ip - MINMATCH) by lia.
    apply same_bytes_shift; [lia|exact Hs].
  - split; [lia|]. intros j Hj. assert (H : same_bytes t ref ip (MINMATCH + (ip' - (ip + MINMATCH)))).
    { apply same_bytes_join; [lia| |exact B]. eapply same_bytes_less; [|exact Hs]. lia. }
    specialize (H (j - ip) ltac:(lia)). replace (ip + (j - ip)) with j in H by lia. rewrite <- H. f_equal. lia.
Qed.

Lemma emit_match_ok outq lits ref ip T : match_from ref ip T -> alen outq + alen (open_seq lits) <= max - 3 ->
  exists r, emit_match t destSize n max ip ref (alen outq) (outq ++ open_seq lits) = Done r /\
    (r = None \/ exists ml, r = Some (outq ++ enc_seq (LSeq lits (ip - ref) ml), ip + ml + MINMATCH)
       /\ 0 <= ml /\ T <= ip + ml /\ ip + ml + MINMATCH + LASTLITERALS <= n /\ repeats t ip (ip + ml + MINMATCH) (ip - ref)
       /\ alen (outq ++ enc_seq (LSeq lits (ip - ref) ml)) <= max - 4).
Proof.
  intros Hm Hlen. destruct (match_count _ _ _ Hm) as (ml & Hc & M1 & M2 & M3 & M4). destruct Hm as (Hr & Hd & Hi & _). unfold emit_match.
  rewrite u16_small by (change (2 ^ 16) with 65536; lia). rewrite emit_ok by (rewrite bytes_app; change (alen (le_bytes 2 _)) with 2; lia). cbn [obind].
  rewrite Hc. cbn [obind]. replace (ip + ml + MINMATCH - (ip + MINMATCH)) with ml by lia. set (off := le_bytes 2 (ip - ref)).
  destruct (Z.ltb_spec max (alen ((outq ++ open_seq lits) ++ off) + (1 + LASTLITERALS) + (ml .>> 8))) as [_|Hfit]; [exists None; auto|].
  destruct (ext_room ml) as [R1 _]; [lia|]. rewrite bytes_app in Hfit. change (alen off) with 2 in Hfit. rewrite bytes_app in Hfit.
  pose proof (alen_nonneg lits) as Hl. unfold open_seq. set (tk := Z.min (alen lits) 15 * 16).
  assert (Htk : forall x, 0 <= x <= 15 -> 0 <= tk + x < 256) by (subst tk; lia). rewrite <- app_assoc, <- app_comm_cons, aget_middle.
  assert (Henc : forall x y, aset (outq ++ tk :: (enc_ext (alen lits) ++ lits) ++ off) (alen outq) (u8 (tk + x)) ++ y
      = outq ++ u8 (tk + x) :: enc_ext (alen lits) ++ lits ++ off ++ y). { intros x y. rewrite aset_middle, <- !app_assoc, <- app_comm_cons, <- !app_assoc. reflexivity. }
  assert (Hq : enc_seq (LSeq lits (ip - ref) ml) = u8 (tk + Z.min ml 15) :: enc_ext (alen lits) ++ lits ++ off ++ enc_ext ml).
  { unfold enc_seq. cbn [ls_lits ls_off ls_len]. rewrite u8_small by (apply Htk; lia). reflexivity. }
  assert (Hlen2 : alen (outq ++ enc_seq (LSeq lits (ip - ref) ml)) = alen outq + alen (open_seq lits) + 2 + alen (enc_ext ml)).
  { rewrite Hq. unfold open_seq. change (?x :: ?l) with ([x] ++ l). rewrite !bytes_app. change (alen off) with 2. change (alen [_]) with 1. lia. }
  eexists. split.
  2:{ right. exists ml. split; [reflexivity|]. split_and!; try assumption. lia. }
  destruct (Z.leb_spec ML_MASK ml) as [Hbig|Hsmall].
  - unfold emit. rewrite encode_match_length_eq by lia. replace (encode_length (ml - ML_MASK)) with (enc_ext ml) by (unfold enc_ext; replace (15 <=? ml) with true by lia; reflexivity).
    rewrite assert_true. 2:{ rewrite <- bytes_app, Henc. rewrite Hq in Hlen2. replace (Z.min ml 15) with ML_MASK in Hlen2 by lia. lia. }
    cbn [obind]. rewrite Henc, Hq. replace (Z.min ml 15) with ML_MASK by lia. reflexivity.
  - cbn [obind]. rewrite (u8_small ml) by lia. pose proof (Henc ml []) as He. rewrite app_nil_r in He. rewrite He, Hq, (enc_ext_short ml) by lia.
    replace (Z.min ml 15) with ml by lia. reflexivity.
Qed.

Lemma last_literals_ok out anchor : 0 <= anchor <= n -> exists r out', last_literals t destSize n max anchor out = Done (r, out') /\
  (r = 0 \/ out' = out ++ enc_last (drop (Z.to_nat anchor) t) /\ r = alen out' /\ r <= max).
Proof.
  intros Ha. unfold last_literals. rewrite (u32_small max) by lia. destruct (Z.ltb_spec max (alen out + (n - anchor) + 1 + (n - anchor + 255 - RUN_MASK) / 255)) as [_|Hfit].
  - exists 0, out. auto.
  - destruct (rd_n_ok t anchor (n - anchor)) as (l & -> & El & _ & Hl); [lia..|]. cbn [obind].
    assert (E : l = drop (Z.to_nat anchor) t). { rewrite Hl. apply take_ge. rewrite length_drop. unfold alen. lia. }
    rewrite <- E. rewrite length_code by lia. pose proof (enc_ext_len (n - anchor) ltac:(lia)) as He. replace (n - anchor + 240) with (n - anchor + 255 - RUN_MASK) in He by lia.
    assert (Hlast : Z.min (n - anchor) 15 * 16 :: enc_ext (n - anchor) ++ l = enc_last l) by (unfold enc_last, enc_token; rewrite El; f_equal; lia).
    assert (Hlen : alen (enc_last l) = 1 + alen (enc_ext (n - anchor)) + (n - anchor)).
    { rewrite <- Hlast. change (?x :: ?a ++ ?b) with ([x] ++ a ++ b). rewrite !bytes_app, El. change (alen [_]) with 1. lia. }
    rewrite <- app_comm_cons, Hlast, emit_ok by lia. cbn [obind]. eexists _, _. split; [reflexivity|]. right. split; [reflexivity|]. split; [reflexivity|].
    rewrite bytes_app. lia.
Qed.

(** ** The loop *)

Definition phase_ok (table out : list Z) (ph : phase) : Prop :=
  match ph with
  | Search a ip fh => exists qs, spells t 0 qs a /\ out = concat (map enc_seq qs) /\ 0 <= a <= ip /\ 1 <= ip /\ a + MFLIMIT <= n
      /\ 0 <= fh < 2 ^ HASHLOG /\ table_ok table ip
  | Match ip ref token => exists qs a l T, spells t 0 qs a /\ 0 <= a /\ 0 <= l /\ ip = a + l /\ token = alen (concat (map enc_seq qs))
      /\ out = concat (map enc_seq qs) ++ open_seq (piece t a l) /\ alen out <= max - 3 /\ match_from ref ip T /\ table_ok table (T + 1)
  end.
(** The turns that are left. *)
Definition turns (ph : phase) : Z :=
  match ph with Search a _ _ => 2 * (n - a) | Match ip _ _ => 2 * (n - ip) - 1 end.
Definition result_ok (r : Z) (out : list Z) : Prop :=
  r = 0 \/ exists qs p, spells t 0 qs p /\ out = enc_block t qs p /\ r = alen out /\ r <= max.
Definition encodes (m : outcome (Z * list Z)) : Prop := exists r out, m = Done (r, out) /\ result_ok r out.

Lemma encodes_full out : encodes (Done (0, out)).
Proof. exists 0, out. split; [reflexivity|]. left. reflexivity. Qed.
Lemma encodes_last qs a : spells t 0 qs a -> 0 <= a <= n -> encodes (last_literals t destSize n max a (concat (map enc_seq qs))).
Proof.
  intros Hs Ha. destruct (last_literals_ok (concat (map enc_seq qs)) a Ha) as (r & out & -> & Hr). exists r, out. split; [reflexivity|].
  destruct Hr as [->|(-> & Er & Hle)]; [left; reflexivity|]. right. exists qs, a. auto.
Qed.

Definition loop_ends (fuel : nat) : Prop := forall table out ph, phase_ok table out ph -> turns ph <= Z.of_nat fuel ->
  encodes (encode_loop t destSize n max fuel table out ph).

Lemma search_turn fuel table out a ip fh : loop_ends fuel -> phase_ok table out (Search a ip fh) -> 2 * (n - a) <= Z.of_nat (S fuel) ->
  encodes (encode_loop t destSize n max (S fuel) table out (Search a ip fh)).
Proof.
  intros IH (qs & Hs & -> & Ha & Hip & Han & Hfh & Ht) Hf. cbn [encode_loop].
  destruct (find_match_ok t Hbytes ltac:(change (2 ^ 31) with 2147483648; lia) (S (Z.to_nat n)) table ip fh ((1 .<< SKIPSTRENGTH) + 3) Ht Hip Hfh) as (r & -> & Hr);
    [change (1 .<< SKIPSTRENGTH) with 64; lia|lia|lia|]. cbn [obind].
  destruct r as [[[table' ip'] ref]|]; [|apply encodes_last; [exact Hs|lia]]. destruct Hr as (R1 & R2 & (M1 & M2 & M3) & R3).
  destruct (catch_up_ok t (Z.to_nat n) a ip' ref) as (d & -> & D1 & D2 & D3); [lia..|]. cbn [obind].
  destruct (emit_literals_ok (concat (map enc_seq qs)) a (ip' - d - a)) as (r & Hr & Hcase); [lia..|].
  replace (a + (ip' - d - a)) with (ip' - d) in Hr by lia. rewrite Hr. cbn [obind].
  destruct Hcase as [->|[-> Hlen]]; [apply encodes_full|]. apply IH; [|cbn [turns]; lia].
  exists qs, a, (ip' - d - a), ip'. split_and!; try assumption; try reflexivity; try lia; [rewrite bytes_app; lia|].
  split_and!; try lia. replace (ip' + MINMATCH - (ip' - d)) with (d + MINMATCH) by lia. apply same_bytes_join; [lia|exact D3|].
  replace (ref - d + d) with ref by lia. replace (ip' - d + d) with ip' by lia. exact M3.
Qed.

Lemma match_turn fuel table out ip ref token : loop_ends fuel -> phase_ok table out (Match ip ref token) -> 2 * (n - ip) - 1 <= Z.of_nat (S fuel) ->
  encodes (encode_loop t destSize n max (S fuel) table out (Match ip ref token)).
Proof.
  intros IH (qs & a & l & T & Hs & Ha & Hl & Hip & -> & -> & Hlen & Hm & Ht) Hf. cbn [encode_loop].
  destruct (emit_match_ok (concat (map enc_seq qs)) (piece t a l) ref ip T Hm ltac:(rewrite bytes_app in Hlen; lia)) as (r & -> & Hr). cbn [obind].
  destruct Hr as [->|(ml & -> & M1 & M2 & M3 & M4 & M5)]; [apply encodes_full|]. destruct Hm as (Hr & Hd & Hi & HT & HTn & _).
  set (q := LSeq (piece t a l) (ip - ref) ml) in *. assert (Hout : concat (map enc_seq qs) ++ enc_seq q = concat (map enc_seq (qs ++ [q]))).
  { rewrite map_app, concat_app. cbn [map concat]. rewrite app_nil_r. reflexivity. }
  assert (Hs' : spells t 0 (qs ++ [q]) (ip + ml + MINMATCH)) by (subst q ip; apply spells_snoc; first [lia|assumption]). rewrite Hout in *.
  set (ip' := ip + ml + MINMATCH) in *. unfold mflimit. destruct (Z.ltb_spec (n - MFLIMIT) ip') as [Hend|Hin]; [apply encodes_last; [exact Hs'|lia]|].
  destruct (lz4_hash_ok t Hbytes (ip' - 2)) as (h2 & -> & Hh2); [lia..|]. cbn [obind]. destruct (lz4_hash_ok t Hbytes ip') as (h & -> & Hh); [lia..|]. cbn [obind].
  set (table2 := aset table h2 (cell_of (ip' - 2))).
  assert (H31 : n < 2 ^ 31) by (change (2 ^ 31) with 2147483648; lia).
  assert (Ht2 : table_ok table2 ip') by (eapply table_ok_more; [apply (table_ok_set t H31); eauto; lia|lia]).
  assert (Ht3 : table_ok (aset table2 h (cell_of ip')) (ip' + 1)) by (eapply table_ok_more; [apply (table_ok_set t H31); eauto; lia|lia]).
  pose proof (proj2 Ht2 h Hh) as Href. set (ref' := aget table2 h) in *.
  destruct (probe_ok t Hbytes ref' ip') as (b & Hb & Hmatch); [lia..|].
  replace (if ip' - MAX_DISTANCE <=? ref' then same4 t ref' ip' else Done false) with (Done b)
    by (rewrite <- Hb; destruct (Z.ltb_spec ref' (ip' - MAX_DISTANCE)), (Z.leb_spec (ip' - MAX_DISTANCE) ref'); first [reflexivity|lia]).
  cbn [obind]. destruct b.
  - destruct (Hmatch eq_refl) as (A & B & C). rewrite emit_ok by (change (alen [0]) with 1; lia). cbn [obind]. apply IH; [|cbn [turns]; lia].
    exists (qs ++ [q]), ip', 0, ip'. split_and!; try assumption; try lia; try reflexivity; [rewrite bytes_app; change (alen [0]) with 1; lia|].
    split_and!; try lia. replace (ip' + MINMATCH - ip') with MINMATCH by lia. exact C.
  - destruct (lz4_hash_ok t Hbytes (ip' + 1)) as (fh & -> & Hfh); [lia..|]. cbn [obind]. apply IH; [|cbn [turns]; lia].
    exists (qs ++ [q]). split_and!; try assumption; try lia; reflexivity.
Qed.

Lemma loop_ends_all fuel : loop_ends fuel.
Proof.
  induction fuel as [|fuel IH]; intros table out ph Hok Hf.
  - exfalso. destruct ph as [a ip fh|ip ref token]; cbn [turns] in Hf.
    + destruct Hok as (qs & _ & _ & _ & _ & Ha & _). lia.
    + destruct Hok as (qs & a & l & T & _ & _ & _ & _ & _ & _ & _ & (_ & _ & H & _) & _). lia.
  - destruct ph as [a ip fh|ip ref token]; [apply search_turn|apply match_turn]; assumption.
Qed.

Lemma compress_ends : encodes (LZ4_compress_limitedOutput t destSize n max).
Proof.
  enough (encodes (LZ4_compress_heap t destSize n max)) as H by (unfold LZ4_compress_limitedOutput; destruct (n <? LZ4_64KLIMIT); exact H).
  unfold LZ4_compress_heap. pose proof (alen_nonneg t) as Hn.
  destruct (Z.ltb_spec n MINLENGTH) as [Hshort|Hlong]; [apply (encodes_last [] 0); [apply spells_nil; lia|lia]|].
  destruct (lz4_hash_ok t Hbytes 0) as (h & -> & Hh); [lia..|]. cbn [obind]. destruct (lz4_hash_ok t Hbytes 1) as (fh & -> & Hfh); [lia..|]. cbn [obind].
  apply loop_ends_all; [|cbn [turns]; lia]. exists []. split_and!; try lia; try reflexivity; [apply spells_nil; lia|].
  eapply table_ok_more; [apply (table_ok_set t ltac:(change (2 ^ 31) with 2147483648; lia) _ 1)|]; [|exact Hh|lia|lia]. split.
  - unfold alen. rewrite length_replicate. rewrite Z2Nat.id by (change (2 ^ HASHLOG) with 4096; lia). reflexivity.
  - intros k Hk. replace (aget (replicate (Z.to_nat (2 ^ HASHLOG)) 0) k) with 0; [lia|]. symmetry. apply list_lookup_total_correct. apply lookup_replicate. split; [reflexivity|lia].
Qed.
End encode.

(** * The theorems *)

(** A compressible text, for the witnesses. *)
Definition sample : list Z := concat (replicate 12 [1; 2; 3]) ++ [9; 8; 7; 6; 5; 4; 3; 2; 1; 0; 255] ++ replicate 60 7 ++ [1; 2; 3; 4; 5; 6].

(** C21. Compression of a block of 1 to 65536 bytes, with a limit that is not negative and
    is below the size of the output buffer, always ends without an access outside of a
    buffer, by at most one byte beyond the limit (the blind copy of literals); it reports
    that the output does not fit, or a size within the limit with bytes as the output,
    and then the decompressor gives the same block back in every output buffer that can
    hold it.  (A negative limit is not rejected: see [lz4_negative_limit].) *)
Theorem lz4_roundtrip (t : list Z) (destSize max : Z) :
  Forall is_byte t -> 0 < alen t <= 65536 -> 0 <= max < 2 ^ 31 -> max < destSize ->
  exists r out, LZ4_compress_limitedOutput t destSize (alen t) max = Done (r, out) /\
    (r = 0 \/ r = alen out /\ Forall is_byte out /\ 0 < r <= max /\
      forall dst, alen t <= alen dst -> exists dst',
        LZ4_decompress_safe out dst r (alen dst) = Done (alen t, dst') /\ alen dst' = alen dst /\ take (length t) dst' = t).
Proof.
  intros Hb Hsize Hmax Hroom. destruct (compress_ends t destSize max Hb ltac:(lia) Hroom Hmax) as (r & out & -> & Hr). exists r, out. split; [reflexivity|].
  destruct Hr as [->|(qs & p & Hs & -> & -> & Hle)]; [left; reflexivity|right]. split; [reflexivity|]. split; [exact (block_bytes t qs p Hb Hs)|]. split.
  - split; [|exact Hle]. unfold enc_block. rewrite bytes_app. pose proof (alen_nonneg (concat (map enc_seq qs))).
    pose proof (enc_last_len (drop (Z.to_nat p) t)). pose proof (alen_nonneg (drop (Z.to_nat p) t)). lia.
  - intros dst Hd. apply decompress_block; [exact Hs|lia].
Qed.
Lemma lz4_roundtrip_witness : exists r out, LZ4_compress_limitedOutput sample 101 (alen sample) 100 = Done (r, out) /\
  (r = 0 \/ r = alen out /\ Forall is_byte out /\ 0 < r <= 100 /\
    forall dst, alen sample <= alen dst -> exists dst',
      LZ4_decompress_safe out dst r (alen dst) = Done (alen sample, dst') /\ alen dst' = alen dst /\ take (length sample) dst' = sample).
Proof.
  apply (lz4_roundtrip sample 101 100); [|vm_compute; split; [reflexivity|discriminate]|split; [discriminate|reflexivity]|reflexivity].
  apply (bool_decide_unpack _). vm_compute. exact I.
Defined.

(** The check before the last literals converts the limit to U32, so it passes every
    negative limit: an input without a match is written beyond an output buffer that
    does not hold it. *)
Lemma lz4_negative_limit (t : list Z) (destSize max : Z) :
  0 < alen t < MINLENGTH -> - 2 ^ 31 <= max < 0 -> destSize <= alen t ->
  LZ4_compress_limitedOutput t destSize (alen t) max = Panic.
Proof.
  intros Ht Hm Hd.
  enough (LZ4_compress_heap t destSize (alen t) max = Panic) as H by (unfold LZ4_compress_limitedOutput; destruct (alen t <? LZ4_64KLIMIT); exact H).
  unfold LZ4_compress_heap. replace (alen t <? MINLENGTH) with true by lia. unfold last_literals.
  replace (u32 max) with (max + 2 ^ 32) by (unfold u32; rewrite <- (Z.mod_add max 1) by lia; rewrite Z.mod_small; lia).
  change (alen []) with 0. replace (max + 2 ^ 32 <? _) with false by (symmetry; apply Z.ltb_ge; change RUN_MASK with 15; div_mod_lia).
  destruct (rd_n_ok t 0 (alen t - 0)) as (l & -> & El & _ & _); [lia..|]. cbn [obind]. rewrite length_code by lia.
  unfold emit. rewrite <- app_comm_cons. match goal with |- context [kassert ?b] => replace b with false; [reflexivity|] end.
  symmetry. apply Z.leb_gt. change (?x :: ?a ++ ?b) with ([x] ++ a ++ b). rewrite !bytes_app, El. change (alen [_]) with 1. change (alen []) with 0.
  pose proof (alen_nonneg (enc_ext (alen t - 0))). lia.
Qed.
(** The sample is in fact compressed. *)
Example sample_compressed : exists out, LZ4_compress_limitedOutput sample 101 (alen sample) 100 = Done (30, out).
Proof. eexists. vm_compute. reflexivity. Qed.

(** C22. Whatever the bytes of an input that is not empty are, the decompressor returns, with every read
    within the input and every access to the output within its buffer; the result is at
    most the size of the buffer, and a failure is - 1 - the place of the error. *)
Theorem lz4_decompress_safe_any (src dst : list Z) :
  Forall is_byte src -> 0 < alen src ->
  exists r dst', LZ4_decompress_safe src dst (alen src) (alen dst) = Done (r, dst') /\ alen dst' = alen dst
    /\ - alen src - 1 <= r <= alen dst.
Proof.
  intros Hb Hs. unfold LZ4_decompress_safe, LZ4_decompress_generic. pose proof (alen_nonneg dst).
  destruct (Z.eqb_spec (alen dst) 0) as [E|Hne]; [eexists _, _; split; [reflexivity|lia]|].
  destruct (decode_loop_safe src (alen src) (alen dst) Hb eq_refl (S (Z.to_nat (alen src))) dst 0 0) as (r & b & -> & A & B & C); [lia..|].
  exists r, b. split; [reflexivity|lia].
Qed.
Lemma lz4_decompress_safe_any_witness : exists r dst', LZ4_decompress_safe [31; 7; 1; 0; 255; 3] (replicate 20 0) 6 20 = Done (r, dst') /\ alen dst' = 20
    /\ - 6 - 1 <= r <= 20.
Proof.
  apply (lz4_decompress_safe_any [31; 7; 1; 0; 255; 3] (replicate 20 0)); [|reflexivity].
  apply (bool_decide_unpack _). vm_compute. exact I.
Defined.
