(* ===== verification/FileData.v ===== *)
(** File data (hammer2_strategy.c): how a logical block becomes a data chain and back,
    with compression, zero detection and deduplication.

    The chain of the block is what [hammer2_chain_lookup] returned, an argument here;
    the storage is the state of Topology.  The device buffers are its flat store, so
    the three ways to release a written buffer are one. *)

From Stdlib Require Import ZArith Lia Bool.
From stdpp Require Import base numbers list option gmap.
From S2P Require Import Prelude Disk Subr Crc Xxh Check BlockTable ChainFind ChainCore Lz4 Topology Reshape.

Abbreviation HAMMER2_COMP_NONE := 0 (only parsing).
Abbreviation HAMMER2_COMP_AUTOZERO := 1 (only parsing).
Abbreviation HAMMER2_COMP_LZ4 := 2 (only parsing).
Abbreviation HAMMER2_COMP_ZLIB := 3 (only parsing).
Abbreviation HAMMER2_EMBEDDED_BYTES := 512 (only parsing).
Abbreviation HAMMER2_DEDUP_HEUR_MASK := 262143 (only parsing).   (* 65536 * 4 - 1 *)
Abbreviation hz := 1000 (only parsing).
Abbreviation EIO_neg := (-5) (only parsing).

Definition HAMMER2_DEC_COMP (n : Z) : Z := n .& 15.
Definition HAMMER2_DEC_ALGO (n : Z) : Z := n .& 15.
Definition HAMMER2_DEC_LEVEL (n : Z) : Z := (n .>> 4) .& 15.

(** zlib, as the code uses it: deflate in one call, which ends the stream in the room
    given or not; inflate in one call, which says whether it met the end of the stream,
    and what it wrote. *)
Class Zlib := {
  deflate : Z -> list Z -> Z -> option (list Z);
  inflate : list Z -> Z -> bool * list Z
}.
Class ZlibLaws (ZL : Zlib) := {
  deflate_fits : forall level data room c, deflate level data room = Some c -> 0 < alen c <= room;
  deflate_bytes : forall level data room c, deflate level data room = Some c -> Forall is_byte c;
  inflate_deflate : forall level data room c pad room', deflate level data room = Some c -> alen data <= room' ->
    inflate (c ++ pad) room' = (true, data);
  inflate_room : forall c room, 0 <= room -> alen (inflate c room).2 <= room
}.

(** The dedup bits of the device buffers (IoDedup): a cached buffer with both bits of
    a block set, and the valid bits. *)
Class DedupBits (ST : Storage) := {
  dio_ready : ba_state -> Z -> Z -> bool;
  dio_set_valid : ba_state -> Z -> Z -> ba_state
}.
Class DedupBitsLaws {ST : Storage} (DB : DedupBits ST) := {
  set_valid_use : forall a off bytes o, ba_in_use a o -> ba_in_use (dio_set_valid a off bytes) o
}.

(** * Buffers *)

(** struct buf *)
Record buf := Buf {
  b_data : list Z;
  b_bufsize : Z;
  b_bcount : Z;
  b_resid : Z;
  b_error : Z;
  b_ioerror : bool        (* BIO_ERROR *)
}.
Definition set_b_data (l : list Z) (bp : buf) : buf :=
  Buf l (b_bufsize bp) (b_bcount bp) (b_resid bp) (b_error bp) (b_ioerror bp).
Definition set_b_done (bp : buf) : buf := Buf (b_data bp) (b_bufsize bp) (b_bcount bp) 0 0 (b_ioerror bp).
Definition set_b_resid0 (bp : buf) : buf := Buf (b_data bp) (b_bufsize bp) (b_bcount bp) 0 (b_error bp) (b_ioerror bp).
Definition zeros (n : Z) : list Z := replicate (Z.to_nat n) 0.

(** [bzero(bp->b_data + at, n)] *)
Definition bzero_at (at' n : Z) (bp : buf) : outcome buf :=
  let! l := wr_n (b_data bp) at' (zeros n) in Done (set_b_data l bp).
Definition bcopy_to (l : list Z) (bp : buf) : outcome buf :=
  let! l := wr_n (b_data bp) 0 l in Done (set_b_data l bp).

(** The u union of an inode, bytes 512 to 1023. *)
Definition inode_u (k : block) : list Z := take 512 (drop 512 (encode_block k)).
Definition set_inode_u (l : list Z) (k : block) : block := Block (take 512 (encode_block k) ++ take 512 l) [].

Section filedata.
Context {ST : Storage} {DB : DedupBits ST} {ZL : Zlib}.
(** The sysctl variables, and what a buffer of [hammer2_zone_rbuf] holds at first. *)
Context (hammer2_dedup_enable hammer2_always_compress : bool) (rbuf : list Z).

(** * State *)

(** The inode in memory. *)
Record finode := Finode {
  fi_comp_algo : Z;       (* meta.comp_algo *)
  fi_check_algo : Z;
  fi_comp_heuristic : Z;
  fi_dirtydata : bool;    (* HAMMER2_INODE_DIRTYDATA *)
  fi_modified : bool;     (* HAMMER2_INODE_MODIFIED *)
  fi_pmp : option pfs
}.
Definition set_heuristic (v : Z) (ip : finode) : finode :=
  Finode (fi_comp_algo ip) (fi_check_algo ip) v (fi_dirtydata ip) (fi_modified ip) (fi_pmp ip).
Definition set_dirtydata (ip : finode) : finode :=
  Finode (fi_comp_algo ip) (fi_check_algo ip) (fi_comp_heuristic ip) true (fi_modified ip) (fi_pmp ip).
Definition set_fi_modified (ip : finode) : finode :=
  Finode (fi_comp_algo ip) (fi_check_algo ip) (fi_comp_heuristic ip) (fi_dirtydata ip) true (fi_pmp ip).

(** struct hammer2_dedup; the table is [hmp->heur_dedup], zero at first. *)
Record dedup := Dedup { dd_data_off : Z; dd_crc : Z; dd_ticks : Z }.

Record fwstate := Fw {
  w_s : fstate;
  w_ip : finode;
  w_heur : gmap Z dedup;
  w_ticks : Z             (* getticks() *)
}.
Definition set_w_s (s : fstate) (w : fwstate) : fwstate := Fw s (w_ip w) (w_heur w) (w_ticks w).
Definition set_w_ip (ip : finode) (w : fwstate) : fwstate := Fw (w_s w) ip (w_heur w) (w_ticks w).
Definition set_w_heur (h : gmap Z dedup) (w : fwstate) : fwstate := Fw (w_s w) (w_ip w) h (w_ticks w).
Definition upd (i : nat) (x : fnode) (w : fwstate) : fwstate := set_w_s (put i x (w_s w)) w.
Definition heur (w : fwstate) (k : Z) : dedup := default (Dedup 0 0 0) (w_heur w !! k).

(** * Live dedup *)

(** The slot for [crc] among the four from [base] on: the same one, or the oldest. *)
Fixpoint dedup_slot (w : fwstate) (base crc best : Z) (l : list Z) : Z :=
  match l with
  | [] => best
  | i :: l =>
      if dd_crc (heur w (base + i)) =? crc then i
      else
        let dticks := i32 (u32 (dd_ticks (heur w (base + i)) - dd_ticks (heur w (base + best)))) in
        dedup_slot w base crc (if (dticks <? 0) || (hz * 60 * 30 <? dticks) then i else best) l
  end.
Definition dedup_base (crc : Z) : Z := crc .& (HAMMER2_DEDUP_HEUR_MASK .&~ 3).

(** [dio]: a device buffer is given; otherwise the one of the chain. *)
Definition hammer2_dedup_record (w : fwstate) (i : nat) (dio : bool) (data : list Z) : outcome fwstate :=
  if negb hammer2_dedup_enable then Done w
  else
    let! x := nd (w_s w) i in
    if negb (dio || bool_decide (n_data x <> None)) then Done w
    else
      let b := n_bref x in
      let! crc :=
        match HAMMER2_DEC_CHECK (br_methods b) with
        | HAMMER2_CHECK_ISCSI32 | HAMMER2_CHECK_SHA192 =>
            let! h := xxh64 (take (Z.to_nat (n_bytes x)) data) XXH_HAMMER2_SEED in Done (Some h)
        | HAMMER2_CHECK_XXHASH64 => Done (Some (le_value (take 8 (br_check b))))
        | _ => Done None
        end in
      match crc with
      | None => Done w
      | Some crc =>
          let base := dedup_base crc in
          let best := dedup_slot w base crc 0 [0; 1; 2; 3] in
          let w := set_w_heur (<[base + best := Dedup (br_data_off b) crc (u32 (w_ticks w))]> (w_heur w)) w in
          let s := put i (set_dedupable true x) (w_s w) in
          Done (set_w_s (set_s_alloc (dio_set_valid (s_alloc s) (br_data_off b) (n_bytes x)) s) w)
      end.

(** The block found for [data], 0 when there is none. *)
Fixpoint dedup_scan (w : fwstate) (data : list Z) (pblksize base crc : Z) (l : list Z) : Z * fwstate :=
  match l with
  | [] => (0, w)
  | i :: l =>
      let d := heur w (base + i) in
      let off := dd_data_off d in
      if negb (dd_crc d =? crc) then dedup_scan w data pblksize base crc l
      else if negb (i32 (1 .<< (off .& HAMMER2_OFF_MASK_RADIX)) =? pblksize) then dedup_scan w data pblksize base crc l
      else if dio_ready (s_alloc (w_s w)) off pblksize
              && bool_decide (take (Z.to_nat pblksize) data = encode_block (dev_get (w_s w) (phys off)))
      then (off, set_w_heur (<[base + i := Dedup off crc (u32 (w_ticks w))]> (w_heur w)) w)
      else dedup_scan w data pblksize base crc l
  end.
Definition hammer2_dedup_lookup (w : fwstate) (data : list Z) (pblksize : Z) : outcome (Z * fwstate) :=
  if negb hammer2_dedup_enable then Done (0, w)
  else
    let! crc := xxh64 (take (Z.to_nat pblksize) data) XXH_HAMMER2_SEED in
    Done (dedup_scan w data pblksize (dedup_base crc) crc [0; 1; 2; 3]).

Definition hammer2_dedup_clear (w : fwstate) : fwstate :=
  set_w_heur (fmap (fun d => Dedup 0 (dd_crc d) (u32 (w_ticks w - 1))) (w_heur w)) w.

(** * Reading *)

Definition hammer2_decompress_LZ4_callback (data : list Z) (bytes : Z) (bp : buf) : outcome buf :=
  assert! b_bufsize bp <=? HAMMER2_PBUFSIZE;
  let! v := rd_le data 0 4 in
  let compressed_size := i32 v in
  assert! u32 compressed_size <=? u64 (bytes - 4);
  let! (result, out) := LZ4_decompress_generic (drop 4 data) rbuf compressed_size (b_bufsize bp) in
  let! out := if result <? 0 then wr_n out 0 (zeros (b_bufsize bp)) else Done out in
  assert! result <=? b_bufsize bp;
  let! bp := bcopy_to (take (Z.to_nat (b_bufsize bp)) out) bp in
  let! bp := if result <? b_bufsize bp then bzero_at result (b_bufsize bp - result) bp else Done bp in
  Done (set_b_resid0 bp).

Definition hammer2_decompress_ZLIB_callback (data : list Z) (bytes : Z) (bp : buf) : outcome buf :=
  assert! b_bufsize bp <=? HAMMER2_PBUFSIZE;
  let '(ended, l) := inflate (take (Z.to_nat bytes) data) (b_bufsize bp) in
  let! out := wr_n rbuf 0 l in
  let! out := if ended : bool then Done out else wr_n out 0 (zeros (b_bufsize bp)) in
  let! bp := bcopy_to (take (Z.to_nat (b_bufsize bp)) out) bp in
  let result := alen l in
  let! bp := if result <? b_bufsize bp then bzero_at result (b_bufsize bp - result) bp else Done bp in
  Done (set_b_resid0 bp).

(** [data] is the block of the chain [i].  HAMMER2_CHAIN_RELEASE only concerns the
    life of the chain. *)
Definition hammer2_strategy_read_completion (w : fwstate) (i : nat) (bp : buf) : outcome (buf * fwstate) :=
  let! x := nd (w_s w) i in
  match node_block (w_s w) x with
  | None => Panic
  | Some k =>
      let data := encode_block k in
      if n_type x =? HAMMER2_BREF_TYPE_INODE then
        let! bp := bcopy_to (take (Z.to_nat HAMMER2_EMBEDDED_BYTES) (inode_u k)) bp in
        let! bp := bzero_at HAMMER2_EMBEDDED_BYTES (b_bcount bp - HAMMER2_EMBEDDED_BYTES) bp in
        Done (set_b_done bp, w)
      else if n_type x =? HAMMER2_BREF_TYPE_DATA then
        let! w := hammer2_dedup_record w i false data in
        match HAMMER2_DEC_COMP (br_methods (n_bref x)) with
        | HAMMER2_COMP_LZ4 => let! bp := hammer2_decompress_LZ4_callback data (n_bytes x) bp in Done (bp, w)
        | HAMMER2_COMP_ZLIB => let! bp := hammer2_decompress_ZLIB_callback data (n_bytes x) bp in Done (bp, w)
        | HAMMER2_COMP_NONE =>
            assert! n_bytes x <=? b_bcount bp;
            let! bp := bcopy_to (take (Z.to_nat (n_bytes x)) data) bp in
            let! bp := if n_bytes x <? b_bcount bp then bzero_at (n_bytes x) (b_bcount bp - n_bytes x) bp else Done bp in
            Done (set_b_done bp, w)
        | _ => Panic
        end
      else Panic
  end.

(** [hammer2_xop_strategy_read] on one node: [chain] is what the lookup returned with
    its error [lerr], loaded by the lock; NULL is a hole. *)
Definition hammer2_xop_strategy_read (w : fwstate) (chain : option nat) (lerr : Z) (bp : buf) : outcome (buf * fwstate) :=
  let fail (w : fwstate) := Done (Buf (b_data bp) (b_bufsize bp) (b_bcount bp) (b_resid bp) 5 true, w) in
  match chain with
  | None =>
      if lerr =? 0 then let! bp := bzero_at 0 (b_bcount bp) bp in Done (set_b_done bp, w)
      else fail w
  | Some i =>
      let! s := hammer2_chain_lock (w_s w) i RESOLVE_ALWAYS in
      let w := set_w_s s w in
      let! x := nd s i in
      if n_error x =? 0 then hammer2_strategy_read_completion w i bp else fail w
  end.

(** * Writing *)

(** [hammer2_chain_modify_ip] *)
Definition hammer2_chain_modify_ip (w : fwstate) (i : nat) (mtid flags : Z) : outcome (Z * fwstate) :=
  let w := set_w_ip (set_fi_modified (w_ip w)) w in
  let! (error, s) := hammer2_chain_modify (w_s w) i mtid 0 flags in
  Done (error, set_w_s s w).

(** [hammer2_chain_resize]; [hammer2_freemap_alloc] for the new size, then the old
    buffer is dropped. *)
Definition hammer2_chain_resize (s : fstate) (i : nat) (mtid dedup_off nradix flags : Z) : outcome (Z * fstate) :=
  let! x := nd s i in
  assert! (n_type x =? HAMMER2_BREF_TYPE_DATA) || (n_type x =? HAMMER2_BREF_TYPE_INDIRECT) || (n_type x =? HAMMER2_BREF_TYPE_DIRENT);
  let nbytes := if nradix =? 0 then 0 else u32 (1 .<< nradix) in
  if n_bytes x =? nbytes then Done (n_error x, s)
  else
    let! (error, s) := hammer2_chain_modify s i mtid dedup_off 0 in
    if negb (error =? 0) then Done (error, s)
    else
      let! x := nd s i in
      let! (error, off, a) := chain_freemap_alloc (s_alloc s) (n_bref x) nbytes in
      let s := set_s_alloc a s in
      if negb (error =? 0) then Done (error, s)
      else
        let x := set_n_bytes nbytes (set_n_bref (set_data_off off (n_bref x)) x) in
        let! x :=
          match n_data x with
          | Some _ =>
              assert! (n_type x =? HAMMER2_BREF_TYPE_DATA) || (n_type x =? HAMMER2_BREF_TYPE_DIRENT);
              Done (set_n_data None x)
          | None => Done x
          end in
        Done (n_error x, put i x s).

(** [hammer2_assign_physical]: parent and chain as the lookup left them, and its error.
    The result: *errorp, the chain, whether *datap became NULL, *parentp. *)
Definition hammer2_assign_physical (w : fwstate) (p : nat) (chain : option nat) (lerr : Z) (lbase pblksize mtid : Z)
    (data : list Z) : outcome (Z * option nat * bool * nat * fwstate) :=
  assert! HAMMER2_ALLOC_MIN <=? pblksize;
  let! pradix := hammer2_getradix pblksize in
  match chain with
  | None =>
      let! (dedup_off, w) := hammer2_dedup_lookup w data pblksize in
      let! (error, np, chain, s) :=
        hammer2_chain_create (w_s w) (Some p) None (fi_pmp (w_ip w))
          (CreateArgs (HAMMER2_ENC_CHECK (fi_check_algo (w_ip w)) .| HAMMER2_ENC_COMP HAMMER2_COMP_NONE)
             lbase HAMMER2_PBUFRADIX HAMMER2_BREF_TYPE_DATA pblksize mtid dedup_off 0) in
      let w := set_w_s s w in
      let w := if bool_decide (chain = None) then w else set_w_ip (set_dirtydata (w_ip w)) w in
      Done (lerr .| error, chain, negb (dedup_off =? 0), default p np, w)
  | Some i =>
      let! x := nd (w_s w) i in
      assert! negb (l_deleted (n_link x)) || (n_type x =? HAMMER2_BREF_TYPE_INODE);
      let! (error, deduped, w) :=
        if n_error x =? 0 then
          match n_type x with
          | HAMMER2_BREF_TYPE_INODE =>
              let! (error, w) := hammer2_chain_modify_ip w i mtid 0 in
              Done (lerr .| error, false, w)
          | HAMMER2_BREF_TYPE_DATA =>
              let! (dedup_off, w) := hammer2_dedup_lookup w data pblksize in
              let resize := negb (n_bytes x =? pblksize) in
              let! (error, s) :=
                if resize then
                  let! (error, s) := hammer2_chain_resize (w_s w) i mtid dedup_off pradix HAMMER2_MODIFY_OPTDATA in
                  Done (lerr .| error, s)
                else Done (lerr, w_s w) in
              if resize && negb (error =? 0) then Done (error, negb (dedup_off =? 0), set_w_s s w)
              else
                let! (error', s) := hammer2_chain_modify s i mtid dedup_off HAMMER2_MODIFY_OPTDATA in
                Done (error .| error', negb (dedup_off =? 0), set_w_s s w)
          | _ => Panic
          end
        else Done (n_error x, false, w) in
      Done (error, Some i, deduped, p, set_w_ip (set_dirtydata (w_ip w)) w)
  end.

(** The methods, the check code of [data], no longer INITIAL. *)
Definition set_contents (w : fwstate) (i : nat) (methods : Z) (data : list Z) : outcome fwstate :=
  let! x := nd (w_s w) i in
  let b := n_bref x in
  let x := set_n_bref (Bref (br_type b) (u8 methods) (br_keybits b) (br_leaf_count b) (br_key b) (br_mirror_tid b) (br_modify_tid b)
                         (br_data_off b) (br_data_count b) (br_inode_count b) (br_flags b) (br_check b)) x in
  let! x := setcheck x (Block (take (Z.to_nat (n_bytes x)) data) []) in
  Done (upd i (set_initial false x) w).

(** Through the device buffer of the chain: [hammer2_io_newnz], which reads when the
    block is a part of its buffer, the copy of [n] bytes, the check code, the dedup
    record.  A failure is that of the device, negative. *)
Definition write_dio (w : fwstate) (i : nat) (methods n : Z) (data : list Z) : outcome (Z * fwstate) :=
  let! x := nd (w_s w) i in
  let off := n_phys x in
  if negb (n_bytes x =? HAMMER2_PBUFSIZE) && read_error off then Done (EIO_neg, w)
  else
    let new := take (Z.to_nat n) data ++ drop (Z.to_nat n) (take (Z.to_nat (n_bytes x)) (encode_block (dev_get (w_s w) off))) in
    let w := set_w_s (dev_put off (Block new []) (w_s w)) w in
    let! w := set_contents w i methods new in
    let! w := hammer2_dedup_record w i true new in
    Done (0, w).

(** The data of a small file, in the inode. *)
Definition write_embedded (w : fwstate) (i : nat) (data : list Z) : outcome fwstate :=
  let! x := nd (w_s w) i in
  match n_data x with
  | None => Panic
  | Some off =>
      let k := dev_get (w_s w) off in
      assert! tst (op_flags k) HAMMER2_OPFLAG_DIRECTDATA;
      Done (set_w_s (dev_put off (set_inode_u data k) (w_s w)) w)
  end.

Definition hammer2_write_bp (w : fwstate) (i : nat) (data : list Z) (check_algo : Z) : outcome (Z * fwstate) :=
  let! x := nd (w_s w) i in
  assert! is_modified x;
  match n_type x with
  | HAMMER2_BREF_TYPE_INODE => let! w := write_embedded w i data in Done (0, w)
  | HAMMER2_BREF_TYPE_DATA =>
      write_dio w i (HAMMER2_ENC_COMP HAMMER2_COMP_NONE + HAMMER2_ENC_CHECK check_algo) (n_bytes x) data
  | _ => Panic
  end.

(** In units of long, 4 bytes on this target. *)
Fixpoint test_zeros (fuel : nat) (buf : list Z) (i bytes : Z) : bool :=
  match fuel with
  | O => true
  | S fuel =>
      if i <? bytes then
        if bool_decide (take 4 (drop (Z.to_nat i) buf) = replicate 4 0) then test_zeros fuel buf (i + 4) bytes else false
      else true
  end.
Definition test_block_zeros (buf : list Z) (bytes : Z) : bool := test_zeros (Z.to_nat bytes) buf 0 bytes.

(** All zeros: no chain. *)
Definition zero_write (w : fwstate) (p : nat) (chain : option nat) (lerr mtid : Z) : outcome (Z * fwstate) :=
  match chain with
  | None => Done (lerr, w)
  | Some i =>
      let! x := nd (w_s w) i in
      let! (error, w) :=
        if n_type x =? HAMMER2_BREF_TYPE_INODE then
          let! (error, w) := if lerr =? 0 then hammer2_chain_modify_ip w i mtid 0 else Done (lerr, w) in
          if error =? 0 then let! w := write_embedded w i (zeros HAMMER2_EMBEDDED_BYTES) in Done (0, w)
          else Done (error, w)
        else
          let! (_, s) := hammer2_chain_delete (w_s w) (Some p) i mtid HAMMER2_DELETE_PERMANENT in
          Done (lerr, set_w_s s w) in
      Done (error, set_w_ip (set_dirtydata (w_ip w)) w)
  end.

Definition hammer2_zero_check_and_write (w : fwstate) (p : nat) (chain : option nat) (lerr : Z) (lbase pblksize mtid : Z)
    (data : list Z) (check_algo : Z) : outcome (Z * fwstate) :=
  if negb (check_algo =? HAMMER2_CHECK_NONE) && test_block_zeros data pblksize then zero_write w p chain lerr mtid
  else
    let! (error, chain, deduped, _, w) := hammer2_assign_physical w p chain lerr lbase pblksize mtid data in
    if negb (error =? 0) then Done (error, w)
    else
      match chain with
      | None => Panic
      | Some i =>
          if deduped : bool then
            let! w := set_contents w i (HAMMER2_ENC_COMP HAMMER2_COMP_NONE + HAMMER2_ENC_CHECK check_algo) data in
            Done (0, w)
          else hammer2_write_bp w i data check_algo
      end.

(** The compressed block without its padding, None when it does not shrink. *)
Definition compress_block (data : list Z) (pblksize comp_algo : Z) : outcome (option (list Z)) :=
  match HAMMER2_DEC_ALGO comp_algo with
  | HAMMER2_COMP_LZ4 =>
      let! (r, out) := LZ4_compress_limitedOutput (take (Z.to_nat pblksize) data) (HAMMER2_PBUFSIZE / 2 - 4) pblksize (pblksize / 2 - 8) in
      Done (if r =? 0 then None else Some (le_bytes 4 r ++ out))
  | HAMMER2_COMP_ZLIB =>
      let level := HAMMER2_DEC_LEVEL comp_algo in
      let level := if level <? 6 then 6 else if 9 <? level then 9 else level in
      Done (deflate level (take (Z.to_nat pblksize) data) (pblksize / 2))
  | _ => Done None
  end.
Definition comp_block_size (comp_size : Z) : outcome Z :=
  if comp_size <=? 1024 then Done 1024
  else if comp_size <=? 2048 then Done 2048
  else if comp_size <=? 4096 then Done 4096
  else if comp_size <=? 8192 then Done 8192
  else if comp_size <=? 16384 then Done 16384
  else if comp_size <=? 32768 then Done 32768
  else Panic.

Definition hammer2_compress_and_write (w : fwstate) (p : nat) (chain : option nat) (lerr : Z) (lbase pblksize mtid : Z)
    (data : list Z) (comp_algo check_algo : Z) : outcome (Z * fwstate) :=
  assert! pblksize / 2 <=? 32768;
  assert! pblksize / 2 <=? HAMMER2_PBUFSIZE / 2;
  if negb (check_algo =? HAMMER2_CHECK_NONE) && test_block_zeros data pblksize then zero_write w p chain lerr mtid
  else
    let heuristic := fi_comp_heuristic (w_ip w) in
    let! comp :=
      if (heuristic <? 8) || (heuristic .& 7 =? 0) || hammer2_always_compress
      then compress_block data pblksize comp_algo else Done None in
    let! (comp_size, bdata, w) :=
      match comp with
      | None =>
          let h := i32 (heuristic + 1) in
          Done (pblksize, data, set_w_ip (set_heuristic (if 128 <? h then 8 else h) (w_ip w)) w)
      | Some c =>
          let! size := comp_block_size (alen c) in
          Done (size, c ++ zeros (size - alen c), set_w_ip (set_heuristic 0 (w_ip w)) w)
      end in
    let! (error, chain, deduped, _, w) := hammer2_assign_physical w p chain lerr lbase comp_size mtid bdata in
    if negb (error =? 0) then Done (error, w)
    else
      match chain with
      | None => Panic
      | Some i =>
          let! x := nd (w_s w) i in
          let methods := HAMMER2_ENC_COMP (if bool_decide (comp = None) then HAMMER2_COMP_NONE else comp_algo) + HAMMER2_ENC_CHECK check_algo in
          if n_type x =? HAMMER2_BREF_TYPE_INODE then
            let! (error, w) := hammer2_chain_modify_ip w i mtid 0 in
            if error =? 0 then let! w := write_embedded w i data in Done (0, w) else Done (error, w)
          else if deduped : bool then
            let! w := set_contents w i methods bdata in Done (0, w)
          else
            assert! is_modified x;
            if n_type x =? HAMMER2_BREF_TYPE_DATA then write_dio w i methods comp_size bdata else Panic
      end.

Definition hammer2_write_file_core (w : fwstate) (p : nat) (chain : option nat) (lerr : Z) (lbase pblksize mtid : Z)
    (data : list Z) : outcome (Z * fwstate) :=
  let check_algo := fi_check_algo (w_ip w) in
  match HAMMER2_DEC_ALGO (fi_comp_algo (w_ip w)) with
  | HAMMER2_COMP_NONE =>
      let! (error, chain, deduped, _, w) := hammer2_assign_physical w p chain lerr lbase pblksize mtid data in
      if negb (error =? 0) then Done (error, w)
      else
        match chain with
        | None => Panic
        | Some i =>
            let! x := nd (w_s w) i in
            if n_type x =? HAMMER2_BREF_TYPE_INODE then let! w := write_embedded w i data in Done (0, w)
            else if deduped : bool then
              let! w := set_contents w i (HAMMER2_ENC_COMP HAMMER2_COMP_NONE + HAMMER2_ENC_CHECK check_algo) data in Done (0, w)
            else hammer2_write_bp w i data check_algo
        end
  | HAMMER2_COMP_AUTOZERO => hammer2_zero_check_and_write w p chain lerr lbase pblksize mtid data check_algo
  | _ => hammer2_compress_and_write w p chain lerr lbase pblksize mtid data (fi_comp_algo (w_ip w)) check_algo
  end.
End filedata.
