(* ===== verification/FileRead.v ===== *)
(** Reading file data: what the read completion gives for a block as the write path
    stores it, and what it does with a block that does not decompress. *)

From Stdlib Require Import ZArith Lia Bool.
From stdpp Require Import base numbers list option gmap.
From S2P Require Import Prelude Disk Subr Crc Xxh Check BlockTable ChainFind ChainCore Lz4 Lz4Decode Lz4Format Lz4Encode Lz4Theorems Topology Reshape FileData.

(** * Bytes *)

Lemma alen_zeros n : 0 <= n -> alen (zeros n) = n.
Proof. intros H. unfold zeros, alen. rewrite length_replicate. lia. Qed.
Lemma take_alen (l x : list Z) : take (Z.to_nat (alen l)) (l ++ x) = l.
Proof. unfold alen. rewrite Nat2Z.id. apply take_app_length. Qed.
Lemma drop_alen (l x : list Z) : drop (Z.to_nat (alen l)) (l ++ x) = x.
Proof. unfold alen. rewrite Nat2Z.id. apply drop_app_length. Qed.
Lemma split_alen (l : list Z) n : 0 <= n <= alen l -> exists a b, l = a ++ b /\ alen a = n /\ alen b = alen l - n.
Proof.
  intros H. exists (take (Z.to_nat n) l), (drop (Z.to_nat n) l). split; [symmetry; apply take_drop|].
  unfold alen in *. rewrite length_take, length_drop. lia.
Qed.

(** A store over the middle part. *)
Lemma wr_n_middle a b c l : alen l = alen b -> wr_n (a ++ b ++ c) (alen a) l = Done (a ++ l ++ c).
Proof.
  intros H. unfold wr_n. rewrite !bytes_app, H. pose proof (alen_nonneg a). pose proof (alen_nonneg b). pose proof (alen_nonneg c).
  rewrite assert_true by lia. rewrite take_alen. do 3 f_equal. rewrite app_assoc.
  replace (alen a + alen b) with (alen (a ++ b)) by apply bytes_app. rewrite drop_alen. reflexivity.
Qed.
Lemma wr_n_all b l : alen l = alen b -> wr_n b 0 l = Done l.
Proof. intros H. pose proof (wr_n_middle [] b [] l H) as E. cbn [app] in E. rewrite !app_nil_r in E. exact E. Qed.
Lemma wr_n_front b c l : alen l = alen b -> wr_n (b ++ c) 0 l = Done (l ++ c).
Proof. intros H. exact (wr_n_middle [] b c l H). Qed.
Lemma wr_n_back a b l : alen l = alen b -> wr_n (a ++ b) (alen a) l = Done (a ++ l).
Proof. intros H. pose proof (wr_n_middle a b [] l H) as E. rewrite !app_nil_r in E. exact E. Qed.
(** Before the start of the buffer. *)
Lemma wr_n_before b i l : i < 0 -> wr_n b i l = Panic.
Proof. intros H. unfold wr_n. replace (0 <=? i) with false by lia. reflexivity. Qed.

(** The bytes [l], padded with zeros to the size of the buffer. *)
Definition filled (l : list Z) (bp : buf) : list Z := l ++ zeros (b_bufsize bp - alen l).
(** A buffer of one logical block. *)
Definition block_buf (bp : buf) : Prop :=
  b_bcount bp = b_bufsize bp /\ alen (b_data bp) = b_bufsize bp /\ b_bufsize bp <= HAMMER2_PBUFSIZE.

(** The last two steps of the callbacks. *)
Lemma fill_ok l junk bp : alen (b_data bp) = b_bufsize bp -> alen l <= b_bufsize bp -> alen (l ++ junk) = b_bufsize bp ->
  (let! bp := bcopy_to (l ++ junk) bp in
   let! bp := if alen l <? b_bufsize bp then bzero_at (alen l) (b_bufsize bp - alen l) bp else Done bp in
   Done (set_b_resid0 bp)) = Done (set_b_resid0 (set_b_data (filled l bp) bp)).
Proof.
  intros Hb Hl Hj. unfold bcopy_to. rewrite wr_n_all by lia. cbn [obind]. rewrite bytes_app in Hj. unfold filled.
  change (b_bufsize (set_b_data (l ++ junk) bp)) with (b_bufsize bp). destruct (Z.ltb_spec (alen l) (b_bufsize bp)) as [Hlt|Hge].
  - unfold bzero_at. change (b_data (set_b_data (l ++ junk) bp)) with (l ++ junk). rewrite wr_n_back by (rewrite alen_zeros; lia). reflexivity.
  - cbn [obind]. pose proof (alen_nonneg junk). replace junk with (@nil Z) by (destruct junk; [reflexivity|unfold alen in *; cbn in *; lia]).
    replace (b_bufsize bp - alen l) with 0 by lia. reflexivity.
Qed.

(** * Decompression *)

Section read.
Context {ST : Storage} {DB : DedupBits ST} {ZL : Zlib} {ZLL : ZlibLaws ZL}.
Context (rbuf : list Z).
Hypothesis Hrbuf : alen rbuf = HAMMER2_PBUFSIZE.

(** A block of LZ4: the size, the compressed bytes, padding. *)
Lemma lz4_callback_ok (t out pad : list Z) r bp : block_buf bp -> 0 < r < 65536 -> r = alen out -> alen t <= b_bufsize bp -> 4 + r + alen pad < 2 ^ 31 ->
  (forall dst, alen t <= alen dst -> exists dst',
     LZ4_decompress_safe out dst r (alen dst) = Done (alen t, dst') /\ alen dst' = alen dst /\ take (length t) dst' = t) ->
  hammer2_decompress_LZ4_callback rbuf (le_bytes 4 r ++ out ++ pad) (4 + r + alen pad) bp = Done (set_b_resid0 (set_b_data (filled t bp) bp)).
Proof.
  intros (_ & Hb & Hsz) Hr Er Ht Hbytes Hdec. unfold hammer2_decompress_LZ4_callback. rewrite assert_true by lia.
  pose proof (alen_nonneg pad). pose proof (alen_nonneg t). unfold rd_le.
  assert (Hhead : rd_n (le_bytes 4 r ++ out ++ pad) 0 4 = Done (le_bytes 4 r)).
  { unfold rd_n. rewrite !bytes_app. change (alen (le_bytes 4 r)) with 4. rewrite assert_true by (pose proof (alen_nonneg out); lia).
    change (Z.to_nat 0) with 0%nat. rewrite drop_0. reflexivity. }
  rewrite Hhead. cbn [obind]. rewrite le_value_bytes by (change (2 ^ (8 * Z.of_nat 4)) with 4294967296; lia).
  rewrite (i32_small r) by (change (2 ^ 31) with 2147483648; lia). rewrite (u32_small r) by (change (2 ^ 32) with 4294967296; lia).
  rewrite u64_small by (change (2 ^ 64) with 18446744073709551616; change (2 ^ 31) with 2147483648 in Hbytes; lia).
  rewrite assert_true by lia. change (drop 4 (le_bytes 4 r ++ out ++ pad)) with (out ++ pad).
  destruct (split_alen rbuf (b_bufsize bp)) as (d & junk & -> & Ed & _); [lia|].
  destruct (Hdec d ltac:(lia)) as (d' & Hd & El & Htake). unfold LZ4_decompress_safe in Hd. rewrite Ed in Hd.
  rewrite (decompress_longer out pad r (b_bufsize bp) junk d _ _ Hd). cbn [obind]. replace (alen t <? 0) with false by lia. cbn [obind].
  rewrite assert_true by lia. replace (b_bufsize bp) with (alen d') at 1 by lia. rewrite take_alen.
  rewrite <- (take_drop (length t) d'), Htake. apply fill_ok; [exact Hb|exact Ht|]. rewrite <- Htake at 1. rewrite take_drop. lia.
Qed.

Lemma zlib_callback_ok t c pad level room bp : block_buf bp -> alen t <= b_bufsize bp -> deflate level t room = Some c ->
  hammer2_decompress_ZLIB_callback rbuf (c ++ pad) (alen (c ++ pad)) bp = Done (set_b_resid0 (set_b_data (filled t bp) bp)).
Proof.
  intros (_ & Hb & Hsz) Ht Hc. unfold hammer2_decompress_ZLIB_callback. rewrite assert_true by lia.
  pose proof (take_alen (c ++ pad) []) as Htk. rewrite app_nil_r in Htk. rewrite Htk, (inflate_deflate _ _ _ _ _ _ Hc Ht).
  pose proof (alen_nonneg t). destruct (split_alen rbuf (alen t)) as (d & junk & -> & Ed & Ej); [lia|]. rewrite wr_n_front by lia. cbn [obind].
  destruct (split_alen junk (b_bufsize bp - alen t)) as (j1 & j2 & -> & E1 & _); [rewrite bytes_app in Hrbuf; lia|]. rewrite app_assoc.
  replace (b_bufsize bp) with (alen (t ++ j1)) at 1 by (rewrite bytes_app; lia). rewrite take_alen. apply fill_ok; [exact Hb|exact Ht|rewrite bytes_app; lia].
Qed.
End read.

(** ** A block that does not decompress *)

Section corrupt.
Context (rbuf : list Z).
Hypothesis Hrbuf : alen rbuf = HAMMER2_PBUFSIZE.

(** The decompressor fails: the callback clears its own buffer, copies it, and then
    clears from [result] on, which is before the buffer of the caller. *)
Lemma lz4_callback_overrun data bytes bp v r out : block_buf bp ->
  rd_le data 0 4 = Done v -> LZ4_decompress_generic (drop 4 data) rbuf (i32 v) (b_bufsize bp) = Done (r, out) -> r < 0 ->
  hammer2_decompress_LZ4_callback rbuf data bytes bp = Panic.
Proof.
  intros (_ & Hb & Hsz) Hv Hd Hr. unfold hammer2_decompress_LZ4_callback. rewrite assert_true by lia. rewrite Hv. cbn [obind].
  destruct (_ <=? u64 _); [|reflexivity]. cbn [kassert obind]. rewrite Hd. cbn [obind]. replace (r <? 0) with true by lia.
  destruct (wr_n out 0 _) as [o|]; [|reflexivity]. cbn [obind]. destruct (r <=? b_bufsize bp); [|reflexivity]. cbn [kassert obind].
  destruct (bcopy_to _ bp) as [bp'|] eqn:E; [|reflexivity]. cbn [obind].
  assert (Hsame : b_bufsize bp' = b_bufsize bp). { unfold bcopy_to in E. destruct (wr_n _ _ _); [injection E as <-; reflexivity|discriminate]. }
  rewrite Hsame. pose proof (alen_nonneg (b_data bp)). replace (r <? b_bufsize bp) with true by lia.
  unfold bzero_at. rewrite wr_n_before by lia. reflexivity.
Qed.
End corrupt.
