(* ===== verification/FileWrite.v ===== *)
(** Writing file data: what a write leaves in the chain and on the device, for each way
    to store a block. *)

From Stdlib Require Import ZArith Lia Bool.
From stdpp Require Import base numbers list option gmap.
From S2P Require Import Prelude Disk Subr Crc Xxh Check BlockTable ChainFind ChainCore Topology Reshape CowProof CowOps FileData.

Section write.
Context {ST : Storage} {SL : StorageLaws ST} {PR : Protected}.

(** * One node through [hammer2_chain_modify] *)

(** A node up to ONFLUSH. *)
Definition node_is (s : fstate) (i : nat) (y : fnode) : Prop :=
  s_nodes s !! i = Some y \/ s_nodes s !! i = Some (set_onflush true y).

(** No write to the device. *)
Definition quiet (s s' : fstate) : Prop := s_dev s' = s_dev s /\ s_emerg s' = s_emerg s.
Lemma no_write_trans a b c : quiet a b -> quiet b c -> quiet a c.
Proof. intros [A B] [C D]. split; congruence. Qed.

Lemma setflush_node fuel : forall s j s' i y, setflush_loop fuel s j = Done s' -> node_is s i y -> node_is s' i y /\ quiet s s'.
Proof.
  unfold quiet. induction fuel as [|fuel IH]; intros s j s' i y H Hy; cbn [setflush_loop] in H; run; destruct (is_onflush x); run; auto.
  assert (Hp : node_is (put j (set_onflush true x) s) i y).
  { unfold node_is in *. cbn. destruct (decide (j = i)) as [->|Hne]; [rewrite lookup_insert_eq; right|rewrite lookup_insert_ne by exact Hne; exact Hy].
    destruct Hy as [Hy|Hy]; rewrite H0 in Hy; injection Hy as ->; reflexivity. }
  destruct (n_type x =? HAMMER2_BREF_TYPE_INODE); [run; auto|]. destruct (n_parent x); [|run; auto].
  destruct (IH _ _ _ _ _ H Hp) as [A B]. split; [exact A|exact B].
Qed.

(** Whether a request for dedup is granted: the chain gets a new block. *)
Definition movable (s : fstate) (x : fnode) : Prop :=
  is_root x = false /\ n_bytes x <> 0
  /\ (n_phys x = 0 \/ (if is_modified x then is_dedupable x else negb (overwrite_allowed s x)) = true).

Definition dedup_size (d : Z) : Z :=
  let radix := d .& HAMMER2_OFF_MASK_RADIX in if radix =? 0 then 0 else i32 (1 .<< radix).

(** What a dedup sets. *)
Definition shares (d : Z) (x y : fnode) : Prop :=
  n_type y = n_type x /\ br_data_off (n_bref y) = d /\ n_bytes y = dedup_size d /\ n_error y = 0
  /\ is_modified y = false /\ is_dedupable y = true.

Lemma modify_data_dedup s x d y t : modify_data s x d = Done (y, t) -> n_type x = HAMMER2_BREF_TYPE_DATA -> d <> 0 -> n_error y = 0 ->
  br_data_off (n_bref x) = d -> t = s /\ y = set_n_data (Some (phys d)) (set_n_error 0 (set_initial false x)).
Proof.
  intros H Hty Hd He Hoff. unfold modify_data in H. change (n_type (set_initial false x)) with (n_type x) in H. rewrite Hty in H.
  cbn [andb] in H. change (HAMMER2_BREF_TYPE_DATA =? HAMMER2_BREF_TYPE_DIRENT) with false in H. cbn [andb] in H.
  replace (d =? 0) with false in H by lia. rewrite !andb_false_r in H. cbn [negb andb] in H.
  assert (Ep : n_phys (set_initial false x) = phys d) by (unfold n_phys; change (n_bref (set_initial false x)) with (n_bref x); rewrite Hoff; reflexivity). rewrite Ep in H.
  destruct (read_error (phys d)); [run; discriminate|]. run. destruct (n_data _); run; rewrite ?andb_false_r; auto.
Qed.

(** The block a dedup gives, without a write to the device. *)
Lemma modify_dedup s i x mtid d fl s' : hammer2_chain_modify s i mtid d fl = Done (0, s') -> s_nodes s !! i = Some x ->
  tst fl HAMMER2_MODIFY_OPTDATA = true \/ n_data x <> None -> n_type x = HAMMER2_BREF_TYPE_DATA -> d <> 0 -> movable s x ->
  exists y, node_is s' i y /\ shares d x y /\ n_data y = Some (phys d) /\ is_initial y = false /\ quiet s s'.
Proof.
  unfold hammer2_chain_modify. cbv zeta. intros H Hx Hload Hty Hd (Hr & Hb & Hm). run. rewrite Hx in H0. injection H0 as <-.
  assert (Hl : bool_decide (n_data x = None) && negb (is_root x) && negb (n_bytes x =? 0) && negb (tst fl HAMMER2_MODIFY_OPTDATA) && negb (n_phys x =? 0) = false).
  { destruct Hload as [-> | Hdat]; [cbn [negb]; rewrite andb_false_r; reflexivity|]. rewrite bool_decide_false by exact Hdat. reflexivity. }
  rewrite Hl in *. injection H2 as <-. rewrite Hx in H3. injection H3 as <-. cbn [andb] in H.
  set (z0 := set_update true (set_modified true x)) in *.
  change (is_root z0) with (is_root x) in H. change (n_bytes z0) with (n_bytes x) in H. change (n_phys z0) with (n_phys x) in H.
  rewrite Hr in H. replace (n_bytes x =? 0) with false in H by lia. cbn [negb andb] in H.
  replace ((n_phys x =? 0) || (if negb (is_modified x) then negb (overwrite_allowed s x) else is_dedupable x)) with true in H.
  2:{ destruct Hm as [-> | Hm]; [reflexivity|]. destruct (is_modified x); cbn [negb]; rewrite Hm, orb_true_r; reflexivity. }
  unfold modify_alloc in H. replace (negb (d =? 0)) with true in H by lia. cbn [obind Z.eqb negb] in H.
  match type of H with context [set_dedupable true ?a] => set (z := set_dedupable true a) in * end.
  assert (Hz : shares d x z) by (repeat split). clearbody z.
  match type of H with context [if l_blkmapped (n_link ?a) then _ else _] => set (z1 := a) in * end.
  assert (Hz1 : shares d x z1) by (destruct Hz as (A1 & A2 & A3 & A4 & A5 & A6); repeat split; assumption). clearbody z1.
  match type of H with context [if l_blkmapped (n_link z1) then ?a else z1] => set (z2 := if l_blkmapped (n_link z1) then a else z1) in * end.
  assert (Hz2 : shares d x z2). { subst z2. destruct (l_blkmapped _); [destruct Hz1 as (A1 & A2 & A3 & A4 & A5 & A6); repeat split; assumption|exact Hz1]. }
  clearbody z2. replace (d =? 0) with false in H by lia. rewrite andb_false_r in H. run.
  destruct Hz2 as (A1 & A2 & A3 & A4 & A5 & A6).
  apply modify_data_dedup in H0 as [-> ->]; [|congruence|exact Hd|assumption|exact A2].
  match goal with Hs : match n_parent ?q with _ => _ end = Done s' |- _ => set (y := q) in *; set (u := put i y _) in Hs end.
  assert (Hu : node_is u i y) by (left; apply lookup_insert_eq). exists y.
  assert (Hy : shares d x y) by (repeat split; assumption). enough (node_is s' i y /\ quiet u s') as [B C] by auto 10.
  destruct (n_parent y); [eapply setflush_node; eassumption|run; split; [exact Hu|split; reflexivity]].
Qed.

(** No error: none in the node. *)
Lemma modify_no_error s i mtid d fl s' : hammer2_chain_modify s i mtid d fl = Done (0, s') ->
  exists y, node_is s' i y /\ n_error y = 0.
Proof.
  unfold hammer2_chain_modify. cbv zeta. intros H. run. clear H1 H2. destruct (_ && negb (n_error x2 =? 0)) eqn:Herr.
  { apply andb_prop in Herr as [_ Herr]. assert (Hz : n_error x2 = 0) by congruence. rewrite Hz in Herr. discriminate. }
  clear Herr. match type of H with obind (if ?c then modify_alloc _ _ _ else _) _ = _ => apply obind_Done in H as ([[er w] t] & _ & H) end.
  destruct (Z.eqb_spec er 0) as [->|Her]; cbn [negb] in H; [|run; contradiction].
  match type of H with context [if l_blkmapped (n_link ?a) then _ else _] => set (z1 := a) in * end.
  match type of H with context [if l_blkmapped (n_link z1) then ?a else z1] => set (z2 := if l_blkmapped (n_link z1) then a else z1) in * end.
  clearbody z2. run.
  match goal with Hs : match n_parent ?q with _ => _ end = Done s' |- _ => exists q; set (u := put i q _) in Hs; assert (Hu : node_is u i q) by (left; apply lookup_insert_eq) end.
  split; [|assumption]. destruct (n_parent _); [eapply setflush_node; eassumption|run; auto].
Qed.

(** Loading leaves the block of a node alone. *)
Lemma load_same s i x s' : hammer2_chain_load_data s i = Done s' -> s_nodes s !! i = Some x ->
  exists y, s_nodes s' !! i = Some y /\ n_bref y = n_bref x /\ n_bytes y = n_bytes x /\ s_emerg s' = s_emerg s.
Proof.
  unfold hammer2_chain_load_data. intros H Hx. run. rewrite Hx in H0. injection H0 as <-.
  destruct (n_data x); [run; exists x; auto|]. destruct (n_phys x =? 0); [run; exists x; auto|].
  destruct (_ && read_error _); [run; eexists; split; [apply lookup_insert_eq|auto]|]. run. change (is_initial (set_n_error 0 x)) with (is_initial x) in H0.
  assert (n_bref f = n_bref x /\ n_bytes f = n_bytes x /\ s_emerg f0 = s_emerg s) as (A & B & C).
  { destruct (is_initial x); [run; auto|]. destruct (is_modified _ || _); run; [auto|]. match goal with b : bool |- _ => destruct b end; auto. }
  eexists. split; [apply lookup_insert_eq|auto].
Qed.

Lemma data_not_freemap x : n_type x = HAMMER2_BREF_TYPE_DATA -> freemap_bref (n_bref x) = false.
Proof. unfold n_type, freemap_bref. intros ->. reflexivity. Qed.
(** A chain of data that was modified has a block. *)
Lemma modify_home s i x mtid fl s' : hammer2_chain_modify s i mtid 0 fl = Done (0, s') -> s_nodes s !! i = Some x ->
  n_type x = HAMMER2_BREF_TYPE_DATA -> n_bytes x <> 0 -> s_emerg s = false -> exists y, node_is s' i y /\ n_phys y <> 0.
Proof.
  unfold hammer2_chain_modify. cbv zeta. intros H Hx Hty Hb He. run. rewrite Hx in H0. injection H0 as <-. clear H1.
  rename x2 into u0; rename x3 into v0.
  assert (n_bref v0 = n_bref x /\ n_bytes v0 = n_bytes x /\ s_emerg u0 = false) as (B1 & B2 & B3).
  { destruct (_ && negb (n_phys x =? 0)); [destruct (load_same _ _ _ _ H2 Hx) as (y & Hy & A & B & C); rewrite Hy in H3; injection H3 as <-; split_and!; congruence|].
    injection H2 as <-. rewrite Hx in H3. injection H3 as <-. auto. }
  clear H2. destruct (_ && negb (n_error v0 =? 0)) eqn:Herr; [apply andb_prop in Herr as [_ Herr]; assert (Hz : n_error v0 = 0) by congruence; rewrite Hz in Herr; discriminate|].
  clear Herr. set (x3 := set_update true (set_modified true v0)) in *.
  assert (Hroot : is_root x3 = false) by (unfold is_root, n_type; change (n_bref x3) with (n_bref v0); rewrite B1; unfold n_type in Hty; rewrite Hty; reflexivity).
  assert (Hnb : n_bytes x3 <> 0) by (change (n_bytes v0 <> 0); congruence). rewrite Hroot in H. replace (n_bytes x3 =? 0) with false in H by lia. cbn [negb andb] in H.
  match type of H with obind (if ?c then modify_alloc _ _ _ else _) _ = _ => apply obind_Done in H as ([[er w] t] & Ea & H);
    assert (Hw : er = 0 -> n_phys w <> 0); [destruct c eqn:Ec|] end.
  - unfold modify_alloc in Ea. cbn [Z.eqb negb] in Ea. apply obind_Done in Ea as ([[e off] a] & Hal & Ea).
    destruct (Z.eqb_spec e 0) as [->|]; [|change (s_emerg (set_s_alloc a u0)) with (s_emerg u0) in Ea; rewrite B3 in Ea; injection Ea as <- _ _; contradiction].
    injection Ea as <- <- _. intros _. apply (freemap_alloc_data _ _ _ _ _ Hal Hnb).
    change (n_bref x3) with (n_bref v0). rewrite B1. exact (data_not_freemap x Hty).
  - injection Ea as <- <- _. intros _. apply orb_false_iff in Ec as [Ec _]. apply Z.eqb_neq, Ec.
  - destruct (Z.eqb_spec er 0) as [Eer|Her]; cbn [negb] in H; [|run; contradiction]. specialize (Hw Eer).
    match type of H with context [if l_blkmapped (n_link ?a) then _ else _] => set (z1 := a) in * end.
    match type of H with context [if l_blkmapped (n_link z1) then ?a else z1] => set (z2 := if l_blkmapped (n_link z1) then a else z1) in * end.
    assert (Hz2 : n_phys z2 <> 0) by (subst z2; destruct (l_blkmapped _); exact Hw). clearbody z2. run.
    match goal with Hs : match n_parent ?q with _ => _ end = Done s' |- _ => assert (Hq : n_phys q <> 0) end.
    { match goal with Hm : (if _ then _ else modify_data _ _ _) = Done _ |- _ => destruct (_ && (0 =? 0)) in Hm; [run; exact Hz2|];
        unfold modify_data in Hm; runs; exact Hz2 end. }
    match goal with Hs : match n_parent ?q with _ => _ end = Done s' |- _ => exists q; set (u := put i q _) in Hs; assert (Hu : node_is u i q) by (left; apply lookup_insert_eq) end.
    split; [|exact Hq]. destruct (n_parent _); [eapply setflush_node; eassumption|run; auto].
Qed.

(** The data of a node is its own block. *)
Definition own_data (x : fnode) : Prop := n_data x = None \/ n_data x = Some (n_phys x).
(** A data chain of [bytes] that is ready to be written. *)
Record ready_leaf (bytes : Z) (y : fnode) : Prop := {
  lf_type : n_type y = HAMMER2_BREF_TYPE_DATA;
  lf_bytes : n_bytes y = bytes;
  lf_error : n_error y = 0;
  lf_data : own_data y;
  lf_home : n_data y = None -> n_phys y <> 0
}.
Lemma leaf_onflush bytes y : ready_leaf bytes y -> ready_leaf bytes (set_onflush true y).
Proof. intros [A B C D E]. constructor; assumption. Qed.
Lemma leaf_is s i y bytes : node_is s i y -> ready_leaf bytes y -> exists z, s_nodes s !! i = Some z /\ ready_leaf bytes z.
Proof. intros [H|H] Hl; eexists; (split; [exact H|]); [exact Hl|apply leaf_onflush; exact Hl]. Qed.
Lemma inv_own s i x : inv s -> s_nodes s !! i = Some x -> own_data x.
Proof.
  intros Hi Hx. unfold own_data. destruct (n_data x) as [o|] eqn:E; [right|left; reflexivity]. f_equal. exact (ns_data _ (iv_nodes _ Hi i x Hx) o E).
Qed.

(** A modification without dedup. *)
Lemma modify_data_node s i x mtid fl s' : hammer2_chain_modify s i mtid 0 fl = Done (0, s') -> inv s -> s_nodes s !! i = Some x ->
  n_type x = HAMMER2_BREF_TYPE_DATA ->
  inv s' /\ exists y, s_nodes s' !! i = Some y /\ n_type y = HAMMER2_BREF_TYPE_DATA /\ n_bytes y = n_bytes x /\ n_error y = 0.
Proof.
  intros H Hi Hx Hty. destruct (modify0_fine _ _ _ _ _ _ H) as [Hf _]. destruct (Hf Hi) as [Hi' Hk]. split; [exact Hi'|].
  destruct (Hk i x Hx) as (y & Hy & [Et _] & Hb). destruct (Hb ltac:(discriminate)) as [Eb _]. exists y. split; [exact Hy|].
  split; [unfold n_type; rewrite Et; exact Hty|]. split; [exact Eb|]. destruct (modify_no_error _ _ _ _ _ _ H) as (z & Hz & He).
  destruct Hz as [Hz|Hz]; rewrite Hy in Hz; injection Hz as ->; exact He.
Qed.
Lemma modify_plain s i x mtid fl s' : hammer2_chain_modify s i mtid 0 fl = Done (0, s') -> inv s -> s_nodes s !! i = Some x ->
  n_type x = HAMMER2_BREF_TYPE_DATA -> n_bytes x <> 0 -> inv s' /\ exists y, s_nodes s' !! i = Some y /\ ready_leaf (n_bytes x) y.
Proof.
  intros H Hi Hx Hty Hnb. destruct (modify_data_node _ _ _ _ _ _ H Hi Hx Hty) as (Hi' & y & Hy & A & B & C). split; [exact Hi'|].
  exists y. split; [exact Hy|]. constructor; try assumption; [exact (inv_own s' i y Hi' Hy)|]. intros _.
  destruct (modify_home _ _ _ _ _ _ H Hx Hty Hnb (iv_emerg _ Hi)) as (z & Hz & Hp). destruct Hz as [Hz|Hz]; rewrite Hy in Hz; injection Hz as ->; exact Hp.
Qed.
Lemma shares_leaf d x y : shares d x y -> n_type x = HAMMER2_BREF_TYPE_DATA -> n_data y = Some (phys d) -> ready_leaf (dedup_size d) y.
Proof.
  intros (A1 & A2 & A3 & A4 & _) Hty Hd. constructor; try assumption; [congruence| |congruence]. right. unfold n_phys. rewrite A2. exact Hd.
Qed.

(** ** [hammer2_chain_resize] *)

(** The node after a resize: the new size, an own block that is not in use otherwise,
    and no buffer. *)
Lemma resize_plain s i x mtid r fl s' : hammer2_chain_resize s i mtid 0 r fl = Done (0, s') -> inv s -> s_nodes s !! i = Some x ->
  n_type x = HAMMER2_BREF_TYPE_DATA -> 0 < r -> n_bytes x <> u32 (1 .<< r) -> u32 (1 .<< r) <> 0 ->
  inv s' /\ exists y, s_nodes s' !! i = Some y /\ ready_leaf (u32 (1 .<< r)) y.
Proof.
  unfold hammer2_chain_resize. intros H Hi Hx Hty Hr Hne Hnz. run. rewrite Hx in H0. injection H0 as <-. clear H1.
  replace (r =? 0) with false in H by lia. replace (n_bytes x =? u32 (1 .<< r)) with false in H by lia. run.
  destruct (Z.eqb_spec z 0) as [->|]; cbn [negb] in H; [|run; contradiction]. rename f into t.
  destruct (modify_data_node _ _ _ _ _ _ H0 Hi Hx Hty) as (Hit & y & Hy & A & _ & C). run. rewrite Hy in H1. injection H1 as <-.
  match goal with Hc : chain_freemap_alloc _ _ _ = Done (?v1, ?v2, ?v3) |- _ => rename Hc into Ha; rename v1 into er; rename v2 into off; rename v3 into a end. destruct (Z.eqb_spec er 0) as [->|]; cbn [negb] in H; [|run; contradiction]. run.
  destruct (freemap_alloc_data _ _ _ _ _ Ha Hnz (data_not_freemap y A)) as (Hnew & Hin & Hp). pose proof (freemap_alloc_keeps _ _ _ _ _ _ Ha) as Hkeep.
  assert (Hia : inv (set_s_alloc a t)) by (apply (alloc_fine t a (fun _ => Hkeep)); exact Hit).
  assert (HnF : ~ F (phys off)) by (intros Hf; exact (Hnew (iv_use _ Hit _ Hf))).
  set (y1 := set_n_bytes (u32 (1 .<< r)) (set_n_bref (set_data_off off (n_bref y)) y)) in *.
  assert (Hx0 : x0 = set_n_data None y1).
  { change (n_data y1) with (n_data y) in H1. destruct (n_data y) eqn:Ed; run; [reflexivity|]. subst y1. destruct y; cbn in *; subst; reflexivity. }
  subst x0. split.
  - apply (put_inv (set_s_alloc a t) i y); [exact Hia|exact Hy|reflexivity|]. constructor.
    + intros o. discriminate.
    + intros _. exact HnF.
    + apply bref_safe_phys. exact HnF.
    + intros _. exact HnF.
  - eexists. split; [apply lookup_insert_eq|]. constructor; [exact A|reflexivity|exact C|left; reflexivity|intros _; exact Hp].
Qed.

(** ** Dedup into an existing chain *)

(** Loading changes the data, the error and the check flags. *)
Definition loads (x y : fnode) : Prop :=
  n_bref y = n_bref x /\ n_bytes y = n_bytes x /\ is_modified y = is_modified x /\ is_dedupable y = is_dedupable x
  /\ is_initial y = is_initial x /\ n_pmp y = n_pmp x.
Lemma load_clean s i x s' : hammer2_chain_load_data s i = Done s' -> s_nodes s !! i = Some x -> is_initial x = false ->
  exists y, s_nodes s' !! i = Some y /\ loads x y /\ s_dev s' = s_dev s /\ s_emerg s' = s_emerg s
    /\ (n_phys x <> 0 -> n_error y = 0 -> n_data y <> None).
Proof.
  unfold hammer2_chain_load_data. intros H Hx Hini. run. rewrite Hx in H0. injection H0 as <-.
  destruct (n_data x) as [o|] eqn:Ed; [run; exists x; repeat split; [exact Hx|congruence]|].
  destruct (Z.eqb_spec (n_phys x) 0) as [|Hp]; [run; exists x; repeat split; [exact Hx|contradiction]|]. rewrite Hini in H. cbn [negb andb] in H.
  destruct (read_error _).
  - run. eexists. split; [apply lookup_insert_eq|]. repeat split. intros _. discriminate.
  - change (is_initial (set_n_error 0 x)) with (is_initial x) in H. rewrite Hini in H. cbn [obind] in H.
    assert (Hgo : forall z u, loads x z -> let v := put i (set_n_data (Some (n_phys x)) z) u in exists y, s_nodes v !! i = Some y /\ loads x y /\ s_dev v = s_dev u
      /\ s_emerg v = s_emerg u /\ (n_phys x <> 0 -> n_error y = 0 -> n_data y <> None)).
    { intros z u Hz v. eexists. split; [apply lookup_insert_eq|]. repeat split; try apply Hz. discriminate. }
    run. destruct (is_modified _ || _); run; [apply Hgo; repeat split|].
    match goal with b : bool |- _ => destruct b end; apply Hgo; repeat split.
Qed.
Lemma movable_loads s s' x y : loads x y -> s_emerg s' = s_emerg s -> movable s x -> movable s' y.
Proof.
  intros (A & B & C & D & E & G) He (Hr & Hb & Hm). unfold movable, overwrite_allowed, n_phys, is_root, n_type in *. rewrite A, B, C, D, E, G, He. auto.
Qed.

(** With the data loaded first, as [hammer2_chain_modify] does without OPTDATA. *)
Lemma modify_load_dedup s i x mtid d s' : hammer2_chain_modify s i mtid d 0 = Done (0, s') -> s_nodes s !! i = Some x -> is_initial x = false ->
  n_type x = HAMMER2_BREF_TYPE_DATA -> d <> 0 -> movable s x -> n_phys x <> 0 ->
  exists y, node_is s' i y /\ shares d x y /\ n_data y = Some (phys d) /\ is_initial y = false /\ quiet s s'.
Proof.
  intros H Hx Hini Hty Hd Hm Hp. destruct (n_data x) as [o|] eqn:Ed; [apply (modify_dedup _ _ _ _ _ _ _ H Hx); auto; right; congruence|].
  assert (Hroot : is_root x = false) by apply Hm. assert (Hb : n_bytes x <> 0) by apply Hm.
  assert (exists t y, hammer2_chain_load_data s i = Done t /\ s_nodes t !! i = Some y /\ n_data y <> None /\ hammer2_chain_modify t i mtid d 0 = Done (0, s'))
    as (t & y & Hl & Hy & Hyd & Ht).
  { unfold hammer2_chain_modify in H. cbv zeta in H. run. rewrite Hx in H0. injection H0 as <-. change (tst 0 2) with false in *.
    rewrite bool_decide_true, Hroot in * by exact Ed. replace (n_bytes x =? 0) with false in * by lia. replace (n_phys x =? 0) with false in * by lia.
    cbn [negb andb] in *. destruct (load_clean _ _ _ _ H2 Hx Hini) as (y & Hy & (L1 & L2 & L3 & L4 & L5 & L6) & _ & _ & Hdat).
    rewrite Hy in H3. injection H3 as <-. destruct (Z.eqb_spec (n_error y) 0) as [He|He]; cbn [negb] in H; [|run; contradiction].
    match type of H2 with _ = Done ?t => exists t, y end. split; [exact H2|]. split; [exact Hy|]. split; [apply Hdat; assumption|].
    unfold hammer2_chain_modify. cbv zeta. unfold nd. rewrite Hy. cbn [obind]. change (tst 0 2) with false.
    rewrite bool_decide_false by (apply Hdat; assumption). cbn [andb negb]. rewrite orb_true_r. cbn [kassert obind]. rewrite Hy. exact H. }
  destruct (load_clean _ _ _ _ Hl Hx Hini) as (z & Hz & Hld & Hdev & Hem & _). rewrite Hy in Hz. injection Hz as <-. pose proof Hld as (L1 & L2 & _).
  destruct (modify_dedup t i y mtid d 0 s' Ht Hy) as (w & Hw & Hsh & A & B & C); [right; exact Hyd|unfold n_type; rewrite L1; exact Hty|exact Hd|exact (movable_loads s t x y Hld Hem Hm)|].
  exists w. split; [exact Hw|]. split_and!; try assumption; [|apply (no_write_trans _ t); [split; assumption|assumption]].
  unfold shares in *. unfold n_type in *. rewrite L1 in Hsh. exact Hsh.
Qed.

Lemma overwrite_dedupable s x : is_dedupable x = true -> s_emerg s = false -> overwrite_allowed s x = false.
Proof. intros Hd He. unfold overwrite_allowed. rewrite Hd, He. destruct (n_pmp x); [|reflexivity]. cbn [negb]. rewrite !andb_false_r. reflexivity. Qed.

(** A resize for a dedup allocates a block too many, and leaves the chain ready for the
    second modification. *)
Lemma resize_dedup s i x mtid d r fl s' : hammer2_chain_resize s i mtid d r fl = Done (0, s') -> s_nodes s !! i = Some x -> is_initial x = false ->
  n_type x = HAMMER2_BREF_TYPE_DATA -> d <> 0 -> movable s x -> n_phys x <> 0 -> s_emerg s = false -> 0 < r -> n_bytes x <> u32 (1 .<< r) -> u32 (1 .<< r) <> 0 ->
  exists y, s_nodes s' !! i = Some y /\ n_type y = n_type x /\ movable s' y /\ quiet s s'.
Proof.
  unfold hammer2_chain_resize. intros H Hx Hini Hty Hd Hm Hp Hem Hr Hne Hnz. run. rewrite Hx in H0. injection H0 as <-. clear H1.
  replace (r =? 0) with false in H by lia. replace (n_bytes x =? u32 (1 .<< r)) with false in H by lia. run.
  destruct (Z.eqb_spec z 0) as [->|]; cbn [negb] in H; [|run; contradiction]. rename f into t.
  destruct (modify_load_dedup _ _ _ _ _ _ H0 Hx Hini Hty Hd Hm Hp) as (y & Hy & Hsh & Hyd & _ & Hdev).
  destruct Hsh as (S1 & S2 & S3 & S4 & S5 & S6).
  assert (exists z, s_nodes t !! i = Some z /\ n_type z = n_type x /\ n_error z = 0 /\ is_modified z = false /\ is_dedupable z = true /\ n_data z = Some (phys d)) as (z & Hz & Z1 & Z2 & Z3 & Z4 & Z5).
  { destruct Hy as [Hy|Hy]; eexists; (split; [exact Hy|]); auto 10. }
  run. rewrite Hz in H1. injection H1 as <-. match goal with Hc : chain_freemap_alloc _ _ _ = Done (?v1, ?v2, ?v3) |- _ => rename Hc into Ha; rename v1 into er; rename v2 into off; rename v3 into a end. 
  destruct (Z.eqb_spec er 0) as [->|]; cbn [negb] in H; [|run; contradiction].
  match type of H with context [n_data ?a] => change (n_data a) with (n_data z) in H; change (n_type a) with (n_type z) in H end. rewrite Z5 in H. run.
  eexists. split; [apply lookup_insert_eq|]. split; [exact Z1|]. split; [|exact Hdev]. destruct Hdev as [_ Hemt]. split; [|split; [exact Hnz|]].
  - unfold is_root. change (n_type (set_n_data None _)) with (n_type z). rewrite Z1, Hty. reflexivity.
  - right. change (is_modified (set_n_data None _)) with (is_modified z). rewrite Z3. apply negb_true_iff, overwrite_dedupable; [exact Z4|].
    change (s_emerg t = false). congruence.
Qed.

(** ** [hammer2_assign_physical] *)

Context {DB : DedupBits ST} (dedup_enable : bool).

Lemma dedup_scan_spec (w : fwstate) data n base crc l d w' : dedup_scan w data n base crc l = (d, w') -> n <> 1 ->
  w_s w' = w_s w /\ w_ip w' = w_ip w
  /\ (d <> 0 -> dedup_size d = n /\ take (Z.to_nat n) data = encode_block (dev_get (w_s w) (phys d))).
Proof.
  intros H Hn. induction l as [|j l IH]; cbn [dedup_scan] in H; [injection H as <- <-; split; [reflexivity|split; [reflexivity|contradiction]]|].
  destruct (negb _); [auto|]. destruct (negb (i32 _ =? n)) eqn:Es; [auto|]. apply negb_false_iff, Z.eqb_eq in Es.
  destruct (dio_ready _ _ _ && _) eqn:Er; [|auto]. apply andb_prop in Er as [_ Er]. apply bool_decide_eq_true in Er. injection H as <- <-.
  split; [reflexivity|]. split; [reflexivity|]. intros _. split; [|exact Er]. unfold dedup_size. destruct (Z.eqb_spec (dd_data_off (heur w (base + j)) .& 63) 0) as [E|_]; [|exact Es].
  rewrite E in Es. change (i32 (1 .<< 0)) with 1 in Es. congruence.
Qed.
Lemma dedup_lookup_spec (w : fwstate) data n d w' : hammer2_dedup_lookup dedup_enable w data n = Done (d, w') -> n <> 1 ->
  w_s w' = w_s w /\ w_ip w' = w_ip w
  /\ (d <> 0 -> dedup_size d = n /\ take (Z.to_nat n) data = encode_block (dev_get (w_s w) (phys d))).
Proof.
  unfold hammer2_dedup_lookup. intros H Hn. destruct (negb _); [run; split; [reflexivity|split; [reflexivity|contradiction]]|]. apply obind_Done in H as (crc & _ & H).
  apply (dedup_scan_spec w data n (dedup_base crc) crc [0; 1; 2; 3] d w'); congruence.
Qed.

(** The chain of the block, and the contents it already has when it was deduplicated. *)
Definition assigned (w : fwstate) (i : nat) (n : Z) (deduped : bool) (data : list Z) : Prop :=
  exists y, s_nodes (w_s w) !! i = Some y /\ ready_leaf n y
    /\ (deduped = true -> n_data y <> None /\ take (Z.to_nat n) data = encode_block (dev_get (w_s w) (n_phys y))).

(** A dedup that is found will be granted. *)
Definition may_share (w : fwstate) (x : fnode) (data : list Z) (n : Z) : Prop :=
  forall d w1, hammer2_dedup_lookup dedup_enable w data n = Done (d, w1) -> d <> 0 ->
    movable (w_s w) x /\ is_initial x = false /\ n_phys x <> 0.

Lemma shared_assigned s0 (w : fwstate) i y x d n data : node_is (w_s w) i y -> shares d x y -> n_type x = HAMMER2_BREF_TYPE_DATA -> n_data y = Some (phys d) ->
  dedup_size d = n -> take (Z.to_nat n) data = encode_block (dev_get s0 (phys d)) -> s_dev (w_s w) = s_dev s0 -> assigned w i n true data.
Proof.
  intros Hy Hsh Hty Hd Hn Hdata Hdev. pose proof (shares_leaf _ _ _ Hsh Hty Hd) as Hl. rewrite Hn in Hl. destruct (leaf_is _ _ _ _ Hy Hl) as (z & Hz & Hlz).
  exists z. split; [exact Hz|]. split; [exact Hlz|]. intros _.
  split; [destruct Hy as [Hy|Hy]; rewrite Hz in Hy; injection Hy as ->; cbn; congruence|]. rewrite Hdata. unfold dev_get. rewrite Hdev. do 3 f_equal.
  destruct Hsh as (_ & S2 & _). destruct Hy as [Hy|Hy]; rewrite Hz in Hy; injection Hy as ->; unfold n_phys; [|change (n_bref (set_onflush true y)) with (n_bref y)]; rewrite S2; reflexivity.
Qed.

Lemma pow2_size r : 10 <= r <= 16 -> u32 (1 .<< r) = 2 ^ r /\ 1024 <= 2 ^ r <= 65536.
Proof.
  intros H. assert (B : 1024 <= 2 ^ r <= 65536).
  { change 1024 with (2 ^ 10). change 65536 with (2 ^ 16). split; apply Z.pow_le_mono_r; lia. }
  rewrite Z.shiftl_1_l. split; [apply u32_small; change (2 ^ 32) with 4294967296; lia|exact B].
Qed.

(** The resize, when it is needed, and the modification. *)
Lemma resize_modify_plain s i x r mtid z t e s' : inv s -> s_nodes s !! i = Some x -> n_type x = HAMMER2_BREF_TYPE_DATA -> 10 <= r <= 16 ->
  (if negb (n_bytes x =? 2 ^ r) then let! (error, s) := hammer2_chain_resize s i mtid 0 r HAMMER2_MODIFY_OPTDATA in Done (0 .| error, s) else Done (0, s)) = Done (z, t) -> z = 0 ->
  hammer2_chain_modify t i mtid 0 HAMMER2_MODIFY_OPTDATA = Done (e, s') -> e = 0 ->
  inv s' /\ exists y, s_nodes s' !! i = Some y /\ ready_leaf (2 ^ r) y.
Proof.
  intros Hi Hx Hty Hr Hres -> Hmod ->. destruct (pow2_size r Hr) as [Esz Hsz].
  assert (inv t /\ exists y, s_nodes t !! i = Some y /\ n_type y = HAMMER2_BREF_TYPE_DATA /\ n_bytes y = 2 ^ r) as (Hit & y & Hy & Yt & Yb).
  { destruct (Z.eqb_spec (n_bytes x) (2 ^ r)) as [Eb|Eb]; cbn [negb] in Hres; [run; split; [exact Hi|exists x; auto]|]. run. rewrite Z.lor_0_l in *. subst z.
    match goal with Hs : hammer2_chain_resize _ _ _ _ _ _ = _ |- _ => destruct (resize_plain _ _ _ _ _ _ _ Hs Hi Hx Hty) as (Hit & y & Hy & [A B C D _]) end; try lia.
    split; [exact Hit|]. exists y. rewrite B, Esz. auto. }
  rewrite <- Yb. apply (modify_plain _ _ _ _ _ _ Hmod Hit Hy Yt). lia.
Qed.
Lemma resize_modify_dedup s i x r mtid d z t e s' : inv s -> s_nodes s !! i = Some x -> n_type x = HAMMER2_BREF_TYPE_DATA -> 10 <= r <= 16 ->
  d <> 0 -> movable s x -> is_initial x = false -> n_phys x <> 0 ->
  (if negb (n_bytes x =? 2 ^ r) then let! (error, s) := hammer2_chain_resize s i mtid d r HAMMER2_MODIFY_OPTDATA in Done (0 .| error, s) else Done (0, s)) = Done (z, t) -> z = 0 ->
  hammer2_chain_modify t i mtid d HAMMER2_MODIFY_OPTDATA = Done (e, s') -> e = 0 ->
  exists x' y, node_is s' i y /\ shares d x' y /\ n_type x' = HAMMER2_BREF_TYPE_DATA /\ n_data y = Some (phys d) /\ quiet s s'.
Proof.
  intros Hi Hx Hty Hr Hd Hm Hini Hp Hres -> Hmod ->. destruct (pow2_size r Hr) as [Esz Hsz].
  assert (exists y, s_nodes t !! i = Some y /\ n_type y = HAMMER2_BREF_TYPE_DATA /\ movable t y /\ quiet s t) as (y & Hy & Yt & Ym & Hq).
  { destruct (Z.eqb_spec (n_bytes x) (2 ^ r)) as [Eb|Eb]; cbn [negb] in Hres; [run; exists x; split_and!; try assumption; split; reflexivity|]. run. rewrite Z.lor_0_l in *. subst z.
    match goal with Hs : hammer2_chain_resize _ _ _ _ _ _ = _ |- _ =>
      destruct (resize_dedup _ _ _ _ _ _ _ _ Hs Hx Hini Hty Hd Hm Hp (iv_emerg _ Hi)) as (y & Hy & Yt & Ym & Hq) end; try lia.
    exists y. split_and!; try assumption. congruence. }
  destruct (modify_dedup _ _ _ _ _ _ _ Hmod Hy) as (z & Hz & Hsh & Hzd & _ & Hq2); [left; reflexivity|exact Yt|exact Hd|exact Ym|].
  exists y, z. split_and!; try assumption. exact (no_write_trans _ _ _ Hq Hq2).
Qed.

Lemma assign_existing w p i x lbase r mtid data c dd np w' :
  hammer2_assign_physical dedup_enable w p (Some i) 0 lbase (2 ^ r) mtid data = Done (0, c, dd, np, w') ->
  inv (w_s w) -> s_nodes (w_s w) !! i = Some x -> n_type x = HAMMER2_BREF_TYPE_DATA -> 10 <= r <= 16 -> may_share w x data (2 ^ r) ->
  c = Some i /\ assigned w' i (2 ^ r) dd data.
Proof.
  intros H Hi Hx Hty Hr Hshare. destruct (pow2_size r Hr) as [Esz Hsz]. unfold hammer2_assign_physical in H.
  rewrite assert_true in H by lia. rewrite getradix_pow2 in H by lia. cbn [obind] in H. run. rewrite Hx in H0. injection H0 as <-.
  destruct (Z.eqb_spec (n_error x) 0) as [He|He]; [|run; contradiction]. rewrite Hty in H2. cbn match in H2. run. split; [reflexivity|].
  destruct (dedup_lookup_spec _ _ _ _ _ H ltac:(lia)) as (Ew & _ & Hd). rewrite Ew in H0.
  destruct (Z.eqb_spec z0 0) as [Ez|Hz]; [|rewrite andb_true_r in H2; destruct (negb (n_bytes x =? 2 ^ r)); run; congruence]. cbn [negb] in H2. rewrite andb_false_r in H2. run.
  rewrite Z.lor_0_l in *. destruct (Z.eqb_spec z 0) as [-> | Hne]; cbn [negb].
  - destruct (resize_modify_plain _ _ _ _ _ _ _ _ _ Hi Hx Hty Hr H0 eq_refl H3 ltac:(assumption)) as (_ & y & Hy & Hl).
    exists y. split; [exact Hy|]. split; [exact Hl|discriminate].
  - destruct (Hd Hne) as [Hsize Hdata]. destruct (Hshare _ _ H Hne) as (Hm & Hini & Hp).
    destruct (resize_modify_dedup _ _ _ _ _ _ _ _ _ _ Hi Hx Hty Hr Hne Hm Hini Hp H0 eq_refl H3 ltac:(assumption)) as (x' & y & Hy & Hsh & Ht' & Hdat & [Hdev _]).
    eapply (shared_assigned (w_s w)); try eassumption.
Qed.

(** ** Creating the chain of a hole *)

(** A chain fresh from [create_alloc]. *)
Lemma create_alloc_data s p pm a i s' : create_alloc s (Some p) pm a = Done (i, s') -> ca_type a = HAMMER2_BREF_TYPE_DATA ->
  (exists r, 10 <= r <= 16 /\ ca_bytes a = 2 ^ r) -> inv s ->
  exists y, s_nodes s' !! i = Some y /\ s_nodes s !! i = None /\ n_type y = HAMMER2_BREF_TYPE_DATA /\ n_bytes y = ca_bytes a
    /\ n_phys y = 0 /\ n_pmp y = pm /\ is_modified y = false /\ s' = set_s_next (S (s_next s)) (put i y s).
Proof.
  unfold create_alloc. intros H Hty (r & Hr & Eb) Hi. destruct (pow2_size r Hr) as [Esz Hsz]. rewrite Eb, getradix_pow2 in H by lia. cbn [obind] in H. run.
  rewrite Hty in *. cbn [Z.eqb Pos.eqb negb andb] in H1. unfold new_node in H1. cbn [br_type] in H1. run.
  eexists. split; [apply lookup_insert_eq|]. split; [apply (iv_next _ Hi); lia|]. split; [reflexivity|].
  split; [|split; [apply (phys_radix r); lia|split; [reflexivity|split; [reflexivity|reflexivity]]]].
  change (chain_bytes (Bref HAMMER2_BREF_TYPE_DATA x (ca_keybits a) 0 (ca_key a) 0 0 r 0 0 0 (replicate 64 0)) = ca_bytes a).
  unfold chain_bytes. cbn [br_data_off]. replace (r .& HAMMER2_OFF_MASK_RADIX) with r.
  - replace (r =? 0) with false by lia. congruence.
  - change HAMMER2_OFF_MASK_RADIX with (Z.ones 6). rewrite Z.land_ones by lia. rewrite Z.mod_small by (change (2 ^ 6) with 64; lia). reflexivity.
Qed.

(** The new node at the link: of data, of the size asked for. *)
Lemma create_link_leaf s p i a y s' : create_link s (Some p) i true a = Done (0, s') -> inv s -> s_nodes s !! i = Some y ->
  n_type y = HAMMER2_BREF_TYPE_DATA -> n_bytes y = ca_bytes a -> ca_bytes a <> 0 -> ca_dedup_off a = 0 ->
  exists z, s_nodes s' !! i = Some z /\ ready_leaf (ca_bytes a) z.
Proof.
  unfold create_link. intros H Hi Hy Hty Hb Hnz Hd. run.
  match goal with Hl : chain_link _ _ _ _ = Done ?t |- _ => pose proof (chain_link_fine _ _ _ _ _ Hl) as Hf; clear Hl; set (u := t) in *; clearbody u end.
  destruct (Hf Hi) as [Hu Hk]. destruct (Hk i y Hy) as (w & Hw & [Et _] & Hkb). destruct (Hkb ltac:(discriminate)) as [Ebw _].
  assert (Htw : n_type w = HAMMER2_BREF_TYPE_DATA) by (unfold n_type; rewrite Et; exact Hty).
  assert (Ew : x2 = w) by congruence. subst x2. rewrite Htw, Hd in H4. cbn match in H4. rename H4 into Hmod.
  destruct (modify_plain _ _ _ _ _ _ Hmod Hu Hw Htw ltac:(congruence)) as (_ & z & Hz & Hl). rewrite Ebw, Hb in Hl.
  match goal with Hs : hammer2_chain_setflush _ _ = Done s' |- _ => destruct (setflush_node _ _ _ _ i z Hs (or_introl Hz)) as [Hn _] end.
  exact (leaf_is _ _ _ _ Hn Hl).
Qed.

Lemma create_again_leaf ci a i loops (Hci : forall s p b e np s', ci s p b = Done (e, np, s') -> fine None s s') : forall s p p' s' y,
  create_again ci loops s p i true a = Done (0, p', Some i, s') -> inv s -> s_nodes s !! i = Some y ->
  n_type y = HAMMER2_BREF_TYPE_DATA -> n_bytes y = ca_bytes a -> ca_bytes a <> 0 -> ca_dedup_off a = 0 ->
  exists z, s_nodes s' !! i = Some z /\ ready_leaf (ca_bytes a) z.
Proof.
  assert (Hkeep : forall s s' y, fine None s s' -> inv s -> s_nodes s !! i = Some y -> n_type y = HAMMER2_BREF_TYPE_DATA -> n_bytes y = ca_bytes a ->
    inv s' /\ exists z, s_nodes s' !! i = Some z /\ n_type z = HAMMER2_BREF_TYPE_DATA /\ n_bytes z = ca_bytes a).
  { intros s s' y Hf Hi Hy Ht Hb. destruct (Hf Hi) as [Hi' Hk]. split; [exact Hi'|]. destruct (Hk i y Hy) as (z & Hz & [Et _] & Hkb).
    destruct (Hkb ltac:(discriminate)) as [Eb _]. exists z. split; [exact Hz|]. unfold n_type in *. rewrite Et, Eb. auto. }
  induction loops as [|loops IH]; intros s p p' s' y H Hi Hy Ht Hb Hnz Hd; [discriminate|]. cbn [create_again] in H. run.
  match goal with Hc : context [count_brefs s p] |- _ => match type of Hc with _ = Done ?t =>
    assert (Hcnt : fine None s t) by (destruct (co_counted (n_core x)); run; [reflexivity|eapply count_brefs_fine; eassumption]); clear Hc; set (u := t) in *; clearbody u end end.
  destruct (Hkeep _ _ _ Hcnt Hi Hy Ht Hb) as (Hu & w & Hw & Htw & Hbw). destruct (_ =? z); run.
  - destruct o0 as [q|]; run; [|discriminate]. match goal with Hx : ci _ _ _ = Done _ |- _ => apply Hci in Hx; destruct (Hkeep _ _ _ Hx Hu Hw Htw Hbw) as (Hv & v & Hvn & Htv & Hbv) end.
    eapply IH; eassumption.
  - eapply create_link_leaf; eassumption.
Qed.

Lemma create_again_same ci a i loops al : forall s p e p' c s', create_again ci loops s p i al a = Done (e, p', Some c, s') -> c = i.
Proof.
  induction loops as [|loops IH]; intros s p e p' c s' H; [discriminate|]. cbn [create_again] in H. run. destruct (_ =? z); run; [|congruence].
  destruct o0; run; [eapply IH; eassumption|discriminate].
Qed.

Lemma create_leaf s p pm a np c s' : hammer2_chain_create s (Some p) None pm a = Done (0, np, Some c, s') -> inv s ->
  ca_type a = HAMMER2_BREF_TYPE_DATA -> (exists r, 10 <= r <= 16 /\ ca_bytes a = 2 ^ r) -> ca_dedup_off a = 0 -> ca_flags a = 0 ->
  exists z, s_nodes s' !! c = Some z /\ ready_leaf (ca_bytes a) z.
Proof.
  intros H Hi Hty Hsz Hd Hfl. unfold hammer2_chain_create, chain_create in H. rewrite Hfl in H. change (tst 0 HAMMER2_INSERT_PFSROOT) with false in H. cbn match in H. run.
  destruct (create_alloc_data _ _ _ _ _ _ H1 Hty Hsz Hi) as (y & Hy & _ & Ht & Hb & _).
  destruct (create_alloc_fine _ _ _ _ _ _ H1 (fun Hne => False_ind _ (Hne Hd))) as (Hf & _). destruct (Hf Hi) as [Hi2 _].
  match goal with Hg : create_again _ _ _ _ _ _ _ = Done _ |- _ => rename Hg into Hag end.
  rewrite bool_decide_true in Hag by reflexivity. pose proof (create_again_same _ _ _ _ _ _ _ _ _ _ _ Hag) as ->.
  destruct Hsz as (r & Hr & Er). pose proof (pow2_size r Hr) as [_ Hsz2]. eapply create_again_leaf; [|exact Hag|exact Hi2|exact Hy|exact Ht|exact Hb|lia|exact Hd].
  intros s1 p1 b e np' s2 Hx. exact (proj1 (create_indirect_at_fine 2 _ _ _ _ _ _ Hx)).
Qed.

(** The parent has room for one more. *)
Definition has_room (s : fstate) (p : nat) : Prop :=
  forall x base count, s_nodes s !! p = Some x -> create_base s x = Done (base, count) -> co_counted (n_core x) = true /\ co_live_count (n_core x) <> count.

Lemma chain_link_quiet s p i live s' y : chain_link s p i live = Done s' -> s_nodes s !! i = Some y -> quiet s s' /\ s_nodes s' !! i = Some (set_n_parent (Some p) y).
Proof.
  unfold chain_link. intros H Hy. run. rewrite Hy in H1. injection H1 as <-. split; [split; reflexivity|apply lookup_insert_eq].
Qed.

Lemma create_dedup s p pm a np c s' : hammer2_chain_create s (Some p) None pm a = Done (0, np, Some c, s') -> inv s -> has_room s p ->
  ca_type a = HAMMER2_BREF_TYPE_DATA -> (exists r, 10 <= r <= 16 /\ ca_bytes a = 2 ^ r) -> ca_dedup_off a <> 0 -> ca_flags a = 0 ->
  exists x y, node_is s' c y /\ shares (ca_dedup_off a) x y /\ n_type x = HAMMER2_BREF_TYPE_DATA /\ n_data y = Some (phys (ca_dedup_off a)) /\ quiet s s'.
Proof.
  intros H Hi Hroom Hty Hsz Hd Hfl. unfold hammer2_chain_create, chain_create in H. rewrite Hfl in H. change (tst 0 HAMMER2_INSERT_PFSROOT) with false in H. cbn match in H. run.
  destruct (create_alloc_data _ _ _ _ _ _ H1 Hty Hsz Hi) as (y & Hy & Hfresh & Ht & Hb & Hp & _ & Hm & Ef).
  match goal with Hg : create_again _ _ _ _ _ _ _ = Done _ |- _ => rename Hg into Hag end.
  rewrite bool_decide_true in Hag by reflexivity. pose proof (create_again_same _ _ _ _ _ _ _ _ _ _ _ Hag) as ->.
  destruct (Z.to_nat 299999) as [|loops] eqn:El; [discriminate|]. clear El. cbn [create_again] in Hag. run.
  assert (Hpn : p <> n) by congruence. subst f. cbn in H. rewrite lookup_insert_ne in H by congruence.
  change (create_base s x0 = Done (o, z)) in H4. destruct (Hroom _ _ _ H H4) as [Hcnt Hlive]. rewrite Hcnt in H5. run.
  assert (x3 = x0) as -> by (cbn in H6; rewrite lookup_insert_ne in H6 by congruence; congruence).
  replace (co_live_count (n_core x0) =? z) with false in Hag by lia. run. clear H4 H7 Hroom.
  match goal with Hl : create_link _ _ _ _ _ = Done _ |- _ => unfold create_link in Hl end. run.
  match goal with Hl : chain_link _ _ _ _ = Done ?t |- _ => destruct (chain_link_quiet _ _ _ _ _ _ Hl Hy) as [Hq Hn]; set (u := t) in *; clearbody u end.
  assert (x5 = set_n_parent (Some n0) y) as -> by congruence. change (n_type (set_n_parent (Some n0) y)) with (n_type y) in H10. rewrite Ht in H10. cbn match in H10.
  destruct Hsz as (r & Hr & Er). destruct (pow2_size r Hr) as [_ Hsz].
  destruct (modify_dedup _ _ _ _ _ _ _ H10 Hn) as (w & Hw & Hsh & Hwd & _ & Hq2); [left; reflexivity|exact Ht|exact Hd| |].
  { split; [unfold is_root; change (n_type (set_n_parent (Some n0) y)) with (n_type y); rewrite Ht; reflexivity|]. split; [change (n_bytes y <> 0); lia|left; exact Hp]. }
  destruct (setflush_node _ _ _ _ n w H11 Hw) as [Hw' Hq3]. exists (set_n_parent (Some n0) y), w. split_and!; try assumption.
  apply (no_write_trans _ u); [exact Hq|]. exact (no_write_trans _ _ _ Hq2 Hq3).
Qed.

Lemma assign_hole w p lbase r mtid data c dd np w' :
  hammer2_assign_physical dedup_enable w p None 0 lbase (2 ^ r) mtid data = Done (0, Some c, dd, np, w') ->
  inv (w_s w) -> 10 <= r <= 16 -> (forall d w1, hammer2_dedup_lookup dedup_enable w data (2 ^ r) = Done (d, w1) -> d <> 0 -> has_room (w_s w) p) ->
  assigned w' c (2 ^ r) dd data.
Proof.
  intros H Hi Hr Hshare. destruct (pow2_size r Hr) as [Esz Hsz]. unfold hammer2_assign_physical in H.
  rewrite assert_true in H by lia. rewrite getradix_pow2 in H by lia. cbn [obind] in H. run.
  rewrite Z.lor_0_l in *. subst z0. rewrite bool_decide_false by discriminate. destruct (dedup_lookup_spec _ _ _ _ _ H0 ltac:(lia)) as (Ew & _ & Hd). rewrite Ew in H1.
  assert (Hpow : exists r0, 10 <= r0 <= 16 /\ 2 ^ r = 2 ^ r0) by (exists r; auto). destruct (Z.eqb_spec z 0) as [-> | Hne]; cbn [negb].
  - destruct (create_leaf _ _ _ _ _ _ _ H1 Hi eq_refl Hpow eq_refl eq_refl) as (y & Hy & Hl). exists y. split; [exact Hy|]. split; [exact Hl|discriminate].
  - destruct (Hd Hne) as [Hsize Hdata]. destruct (create_dedup _ _ _ _ _ _ _ H1 Hi (Hshare _ _ H0 Hne) eq_refl Hpow Hne eq_refl) as (x & y & Hy & Hsh & Ht & Hdat & [Hdev _]).
    eapply (shared_assigned (w_s w)); try eassumption.
Qed.
End write.
