(* ===== verification/FileStored.v ===== *)
(** What a written block is on the device, and that reading it gives the data back. *)

From Stdlib Require Import ZArith Lia Bool.
From stdpp Require Import base numbers list option gmap.
From S2P Require Import Prelude Disk Subr Crc Xxh Check BlockTable ChainFind ChainCore Lz4 Lz4Decode Lz4Format Lz4Encode Lz4Theorems Topology Reshape CowProof FileData FileRead FileWrite.

Section stored.
Context {ST : Storage} {SL : StorageLaws ST} {PR : Protected} {DB : DedupBits ST} {ZL : Zlib} {ZLL : ZlibLaws ZL}.
Context (dedup_enable : bool) (rbuf : list Z).

(** The chain [c] of data stores the block [l] under the methods [m], and its check
    code is that of the block. *)
Definition stored (w : fwstate) (c : nat) (m : Z) (l : list Z) : Prop :=
  exists y, s_nodes (w_s w) !! c = Some y /\ ready_leaf (alen l) y /\ is_initial y = false
    /\ encode_block (dev_get (w_s w) (n_phys y)) = l /\ br_methods (n_bref y) = m /\ testcheck y (Block l []) = Done true
    /\ (n_data y = None -> is_modified y = true).

(** The bytes [l] are the text [t] under the methods [m]. *)
Definition decodes (m : Z) (l t : list Z) : Prop :=
  match HAMMER2_DEC_COMP m with
  | HAMMER2_COMP_NONE => l = t
  | HAMMER2_COMP_LZ4 => exists r out pad, l = le_bytes 4 r ++ out ++ pad /\ r = alen out /\ 0 < r < 65536 /\ alen pad < 65536
      /\ forall dst, alen t <= alen dst -> exists dst',
           LZ4_decompress_safe out dst r (alen dst) = Done (alen t, dst') /\ alen dst' = alen dst /\ take (length t) dst' = t
  | HAMMER2_COMP_ZLIB => exists c pad level room, deflate level t room = Some c /\ l = c ++ pad
  | _ => False
  end.

Lemma encode_raw l : encode_block (Block l []) = l.
Proof. unfold encode_block. cbn. apply app_nil_r. Qed.
Lemma take_all_alen (l : list Z) : take (Z.to_nat (alen l)) l = l.
Proof. pose proof (take_alen l []) as E. rewrite app_nil_r in E. exact E. Qed.

(** * The last steps of a write *)

Lemma set_contents_stored w i y m data w' l : set_contents w i m data = Done w' -> s_nodes (w_s w) !! i = Some y -> ready_leaf (alen l) y ->
  take (Z.to_nat (alen l)) data = l -> Forall is_byte l -> alen l < 2 ^ 32 -> encode_block (dev_get (w_s w) (n_phys y)) = l ->
  (n_data y = None -> is_modified y = true) -> stored w' i (u8 m) l /\ w_ip w' = w_ip w.
Proof.
  unfold set_contents. intros H Hy Hl Hdata Hb Hlen Hdev Hmod. apply obind_Done in H as (x & Hx & H). apply nd_Done in Hx.
  assert (x = y) as -> by congruence. clear Hx. apply obind_Done in H as (z & Hset & H). injection H as <-.
  pose proof Hl as [L1 L2 L3 L4 L5]. match type of Hset with setcheck ?q _ = _ => set (y1 := q) in * end.
  change (n_bytes y1) with (n_bytes y) in Hset. rewrite L2, Hdata in Hset. unfold setcheck in Hset. rewrite encode_raw in Hset.
  apply obind_Done in Hset as (f & Hset & E). injection E as <-. destruct (stored_passes _ _ _ Hb Hlen Hset) as (_ & Hm & Ht). cbn [ck_methods] in Hm. split; [|reflexivity].
  eexists. split; [apply lookup_insert_eq|]. split; [constructor; assumption|]. split; [reflexivity|]. split; [exact Hdev|]. split; [reflexivity|].
  split; [|exact Hmod]. unfold testcheck. rewrite encode_raw. change (br_methods (n_bref (set_initial false _))) with (u8 m).
  change (br_methods (n_bref y1)) with (u8 m) in Hm. rewrite <- Hm. destruct f as [fm fc ft]. exact Ht.
Qed.

Lemma dedup_record_stored w i dio data w' c m l : hammer2_dedup_record dedup_enable w i dio data = Done w' -> stored w c m l ->
  stored w' c m l /\ w_ip w' = w_ip w.
Proof.
  unfold hammer2_dedup_record. intros H Hs. destruct (negb dedup_enable); [run; auto|]. run. destruct (negb _); [run; auto|]. run.
  match goal with o : option Z |- _ => destruct o as [crc|] end; [|run; auto]. run. split; [|reflexivity].
  destruct Hs as (y & Hy & Hl & A & B & C & D & E). destruct (decide (i = c)) as [<-|Hne].
  - rewrite Hy in H0. injection H0 as <-. exists (set_dedupable true y). split; [apply lookup_insert_eq|]. split_and!; try assumption.
    destruct Hl as [L1 L2 L3 L4 L5]. constructor; assumption.
  - exists y. split; [cbn; rewrite lookup_insert_ne by exact Hne; exact Hy|]. split_and!; assumption.
Qed.
Lemma dedup_record_total w i x dio data : s_nodes (w_s w) !! i = Some x -> alen data < 2 ^ 32 -> exists w', hammer2_dedup_record dedup_enable w i dio data = Done w'.
Proof.
  intros Hx Hl. unfold hammer2_dedup_record. destruct (negb dedup_enable); [eauto|]. unfold nd. rewrite Hx. cbn [obind]. destruct (negb _); [eauto|].
  assert (Hlen : alen (take (Z.to_nat (n_bytes x)) data) < 2 ^ 64).
  { unfold alen in *. rewrite length_take. change (2 ^ 32) with 4294967296 in Hl. change (2 ^ 64) with 18446744073709551616. lia. }
  destruct (xxh64_value _ XXH_HAMMER2_SEED Hlen) as (h & Hh & _). rewrite Hh.
  case_match; cbn [obind]; eauto; repeat (case_match; cbn [obind]; eauto).
Qed.

Lemma write_dio_stored w i y m n data w' : write_dio dedup_enable w i m n data = Done (0, w') -> s_nodes (w_s w) !! i = Some y -> ready_leaf n y ->
  is_modified y = true -> 0 <= n <= alen data -> n < 2 ^ 32 -> Forall is_byte data -> stored w' i (u8 m) (take (Z.to_nat n) data) /\ w_ip w' = w_ip w.
Proof.
  unfold write_dio. intros H Hy Hl Hmod Hn Hn2 Hb. run. rewrite Hy in H0. injection H0 as <-.
  destruct (_ && read_error _); [discriminate|]. rewrite (lf_bytes _ _ Hl) in H. run.
  set (l := take (Z.to_nat n) data) in *. assert (Hll : alen l = n) by (apply bytes_take; lia).
  assert (Hnew : l ++ drop (Z.to_nat n) (take (Z.to_nat n) (encode_block (dev_get (w_s w) (n_phys y)))) = l).
  { rewrite drop_ge by (rewrite length_take; lia). apply app_nil_r. }
  rewrite Hnew in *. match goal with Hc : set_contents _ _ _ _ = Done _, Hr : hammer2_dedup_record _ _ _ _ _ = Done _ |- _ => rename Hc into Hset; rename Hr into Hrec end.
  destruct (set_contents_stored _ i y m l _ l Hset) as [Hs Hip].
  - exact Hy.
  - rewrite Hll. exact Hl.
  - apply take_all_alen.
  - apply Forall_take, Hb.
  - lia.
  - unfold dev_get. cbn. rewrite lookup_insert_eq. apply encode_raw.
  - intros _. exact Hmod.
  - destruct (dedup_record_stored _ _ _ _ _ _ _ _ Hrec Hs) as [Hs' Hip']. split; [exact Hs'|]. rewrite Hip', Hip. reflexivity.
Qed.

(** * Reading *)

Lemma stored_loads w c m l : stored w c m l -> (forall o, read_error o = false) -> exists s' x,
  hammer2_chain_lock (w_s w) c RESOLVE_ALWAYS = Done s' /\ s_nodes s' !! c = Some x /\ n_type x = HAMMER2_BREF_TYPE_DATA /\ n_error x = 0
  /\ n_bytes x = alen l /\ br_methods (n_bref x) = m /\ exists k, node_block s' x = Some k /\ encode_block k = l.
Proof.
  intros (y & Hy & [L1 L2 L3 L4 L5] & Hini & Hdev & Hm & _ & Hmod) Hread. unfold hammer2_chain_lock, nd. rewrite Hy. cbn [obind].
  assert (Hroot : is_root y = false) by (unfold is_root; rewrite L1; reflexivity). rewrite Hroot.
  unfold hammer2_chain_load_data, nd. rewrite Hy. cbn [obind]. destruct (n_data y) as [o|] eqn:Ed.
  - exists (w_s w), y. split_and!; try assumption; try reflexivity. exists (dev_get (w_s w) (n_phys y)). split; [|exact Hdev].
    unfold node_block. rewrite L1, Ed. cbn. destruct L4 as [L4|L4]; congruence.
  - specialize (L5 eq_refl). specialize (Hmod eq_refl). replace (n_phys y =? 0) with false by lia. rewrite Hini, Hread. cbn [andb negb].
    change (is_initial (set_n_error 0 y)) with (is_initial y). change (is_modified (set_n_error 0 y)) with (is_modified y).
    change (is_root (set_n_error 0 y)) with (is_root y). rewrite Hini, Hmod. cbn [orb obind]. change (is_root (set_n_error 0 y)) with (is_root y). rewrite Hroot.
    change (n_type (set_n_error 0 y)) with (n_type y). rewrite L1. cbn [kassert obind negb andb Z.eqb Pos.eqb].
    eexists _, _. split; [reflexivity|]. split; [apply lookup_insert_eq|]. split_and!; try assumption; try reflexivity.
    exists (dev_get (w_s w) (n_phys y)). split; [|exact Hdev]. unfold node_block. change (n_type (set_n_data _ (set_n_error 0 y))) with (n_type y). rewrite L1. reflexivity.
Qed.

(** A block that is shorter than the buffer, uncompressed. *)
Lemma plain_read l bp : block_buf bp -> alen l <= b_bufsize bp ->
  exists bp1, bcopy_to l bp = Done bp1
    /\ (if alen l <? b_bcount bp1 then bzero_at (alen l) (b_bcount bp1 - alen l) bp1 else Done bp1) = Done (set_b_data (filled l bp) bp).
Proof.
  intros (Hc & Hb & _) Hl. pose proof (alen_nonneg l). destruct (split_alen (b_data bp) (alen l)) as (d & junk & Ed & E1 & E2); [lia|].
  exists (set_b_data (l ++ junk) bp). split; [unfold bcopy_to; rewrite Ed, wr_n_front by lia; reflexivity|].
  change (b_bcount (set_b_data (l ++ junk) bp)) with (b_bcount bp). unfold filled. destruct (Z.ltb_spec (alen l) (b_bcount bp)) as [Hlt|Hge].
  - unfold bzero_at. change (b_data (set_b_data (l ++ junk) bp)) with (l ++ junk). rewrite wr_n_back by (rewrite alen_zeros; lia). cbn [obind]. rewrite Hc. reflexivity.
  - replace junk with (@nil Z) by (destruct junk; [reflexivity|unfold alen in *; cbn in *; lia]). replace (b_bufsize bp - alen l) with 0 by lia. reflexivity.
Qed.

Hypothesis Hrbuf : alen rbuf = HAMMER2_PBUFSIZE.

(** Reading back, and no residue. *)
Lemma read_stored w c m l t bp : stored w c m l -> decodes m l t -> (forall o, read_error o = false) -> alen l <= HAMMER2_PBUFSIZE ->
  block_buf bp -> alen t <= b_bufsize bp ->
  exists bp' w', hammer2_xop_strategy_read dedup_enable rbuf w (Some c) 0 bp = Done (bp', w') /\ b_data bp' = filled t bp /\ b_resid bp' = 0.
Proof.
  intros Hs Hd Hread Hlen Hbp Ht. destruct (stored_loads w c m l Hs Hread) as (s' & x & Hlock & Hx & Tx & Ex & Bx & Mx & k & Hk & El).
  unfold hammer2_xop_strategy_read. rewrite Hlock. cbn [obind]. unfold nd at 1. rewrite Hx. cbn [obind]. rewrite Ex. cbn [Z.eqb].
  unfold hammer2_strategy_read_completion. change (w_s (set_w_s s' w)) with s'. unfold nd at 1. rewrite Hx. cbn [obind]. rewrite Hk, El, Tx. cbn [Z.eqb Pos.eqb].
  destruct (dedup_record_total (set_w_s s' w) c x false l Hx) as [w' ->]; [change (2 ^ 32) with 4294967296; lia|]. cbn [obind]. rewrite Mx.
  unfold decodes in Hd. destruct (HAMMER2_DEC_COMP m) as [|[[[]|[]|]|[[]|[]|]|]|] eqn:Em; try contradiction.
  - subst t. rewrite Bx. pose proof Hbp as (Hc & _). rewrite assert_true by lia. rewrite take_all_alen. destruct (plain_read l bp Hbp Ht) as (bp1 & -> & E). cbn [obind]. rewrite E. cbn [obind]. eexists _, _. split; [reflexivity|]. split; reflexivity.
  - destruct Hd as (cc & pad & level & room & Hdef & ->). rewrite Bx, (zlib_callback_ok rbuf Hrbuf t cc pad level room bp Hbp Ht Hdef). cbn [obind]. eexists _, _. split; [reflexivity|]. split; reflexivity.
  - destruct Hd as (r & out & pad & -> & Er & Hr & Hpad & Hdec). rewrite Bx, !bytes_app. change (alen (le_bytes 4 r)) with 4. replace (4 + (alen out + alen pad)) with (4 + r + alen pad) by lia.
    rewrite (lz4_callback_ok rbuf Hrbuf t out pad r bp Hbp Hr Er Ht); [|change (2 ^ 31) with 2147483648; lia|exact Hdec]. cbn [obind]. eexists _, _. split; [reflexivity|]. split; reflexivity.
Qed.
End stored.
