(* ===== verification/FileTheorems.v ===== *)
(** The data that is written to a file is the data that is read, for every way to store
    a block; and the writes where it is not. *)

From Stdlib Require Import ZArith Lia Bool.
From stdpp Require Import base numbers list option gmap.
From S2P Require Import Prelude Disk Subr Crc Xxh Check BlockTable ChainFind ChainCore Lz4 Lz4Decode Lz4Format Lz4Encode Lz4Theorems Topology Reshape CowProof CowOps FreemapStorage Cow FileData FileRead FileWrite FileStored.

(** * Zeros *)

Lemma zeros_split n k : 0 <= k <= n -> zeros n = zeros k ++ zeros (n - k).
Proof. intros H. unfold zeros. rewrite <- replicate_add. f_equal. lia. Qed.
Lemma bytes_zeros n : Forall is_byte (zeros n).
Proof. apply Forall_replicate. unfold is_byte. lia. Qed.

Lemma test_zeros_spec fuel : forall buf i bytes, test_zeros fuel buf i bytes = true -> 0 <= i -> i <= bytes <= alen buf -> (bytes - i) mod 4 = 0 ->
  bytes - i <= Z.of_nat fuel -> take (Z.to_nat (bytes - i)) (drop (Z.to_nat i) buf) = zeros (bytes - i).
Proof.
  induction fuel as [|fuel IH]; intros buf i bytes H Hi Hb Hm Hf; [replace (bytes - i) with 0 by lia; reflexivity|]. cbn [test_zeros] in H.
  destruct (Z.ltb_spec i bytes) as [Hlt|Hge]; [|replace (bytes - i) with 0 by lia; reflexivity].
  destruct (bool_decide _) eqn:E; [|discriminate]. apply bool_decide_eq_true in E.
  assert (4 <= bytes - i) by (pose proof (Z.div_mod (bytes - i) 4 ltac:(lia)); lia).
  rewrite (zeros_split _ 4) by lia. replace (bytes - i - 4) with (bytes - (i + 4)) by lia. rewrite <- IH with (buf := buf); try lia; try assumption.
  - change (zeros 4) with (replicate 4 0). rewrite <- E. replace (Z.to_nat (bytes - i)) with (4 + Z.to_nat (bytes - (i + 4)))%nat by lia.
    replace (Z.to_nat (i + 4)) with (Z.to_nat i + 4)%nat by lia. rewrite <- drop_drop, take_take_drop. reflexivity.
  - replace (bytes - (i + 4)) with (bytes - i + (-1) * 4) by lia. rewrite Z.mod_add by lia. exact Hm.
Qed.
Lemma block_zeros data r : test_block_zeros data (2 ^ r) = true -> 10 <= r -> 2 ^ r <= alen data -> take (Z.to_nat (2 ^ r)) data = zeros (2 ^ r).
Proof.
  intros H Hr Hlen. pose proof (pow2_pos r ltac:(lia)). pose proof (test_zeros_spec _ data 0 (2 ^ r) H) as E. rewrite Z.sub_0_r in E. apply E; try lia.
  replace r with (r - 2 + 2) by lia. rewrite Z.pow_add_r by lia. apply Z.mod_mul. discriminate.
Qed.

Section theorems.
Context {ST : Storage} {SL : StorageLaws ST} {PR : Protected} {DB : DedupBits ST} {ZL : Zlib} {ZLL : ZlibLaws ZL}.
Context (dedup_enable always_compress : bool) (rbuf : list Z).

(** * Compressed blocks *)

Lemma comp_block_size_ok n size : comp_block_size n = Done size -> exists r, 10 <= r <= 15 /\ size = 2 ^ r /\ n <= size.
Proof.
  unfold comp_block_size. intros H.
  repeat match type of H with (if ?a <=? ?b then _ else _) = _ => destruct (Z.leb_spec a b); [injection H as <-|] end; [..|discriminate].
  1: exists 10. 2: exists 11. 3: exists 12. 4: exists 13. 5: exists 14. 6: exists 15. all: split; [lia|split; [reflexivity|assumption]].
Qed.

(** What the compressors give decompresses, with any padding. *)
Lemma compress_block_decodes data n algo c m pad : compress_block data n algo = Done (Some c) -> Forall is_byte data -> 16 <= n <= 65536 -> n <= alen data ->
  HAMMER2_DEC_COMP m = algo .& 15 -> alen pad < 65536 -> decodes m (c ++ pad) (take (Z.to_nat n) data) /\ Forall is_byte c.
Proof.
  unfold compress_block, decodes, HAMMER2_DEC_ALGO. intros H Hb Hn Hlen Hm Hpad. rewrite Hm.
  destruct (algo .& 15) as [|[[[]|[]|]|[[]|[]|]|]|]; try discriminate.
  - injection H as H. split; [|exact (deflate_bytes _ _ _ _ H)]. eexists _, pad, _, _. split; [exact H|reflexivity].
  - apply obind_Done in H as ([r out] & H & E). destruct (Z.eqb_spec r 0) as [|Hr0]; [discriminate|].
    assert (c = le_bytes 4 r ++ out) as -> by (inversion E; reflexivity). clear E.
    set (t := take (Z.to_nat n) data) in *. assert (Ht : alen t = n) by (apply bytes_take; lia).
    assert (Hmax : n / 2 - 8 < 65536 / 2 - 4) by (pose proof (Z.div_le_mono n 65536 2); change (65536 / 2) with 32768 in *; lia).
    rewrite <- Ht in H at 1.
    destruct (compress_ends t (65536 / 2 - 4) (n / 2 - 8) (Forall_take _ _ _ Hb) ltac:(lia) Hmax ltac:(div_mod_lia)) as (r' & out' & E & Hr).
    rewrite E in H. injection H as -> ->. destruct Hr as [|(qs & p & Hs & -> & Er & Hle)]; [contradiction|].
    pose proof (block_bytes t qs p (Forall_take _ _ _ Hb) Hs) as Hob. split; [|apply Forall_app_2; [apply bytes_le|exact Hob]].
    exists r, (enc_block t qs p), pad. split; [rewrite <- app_assoc; reflexivity|]. split; [exact Er|].
    split; [pose proof (alen_nonneg (enc_block t qs p)); change (65536 / 2) with 32768 in *; lia|]. split; [exact Hpad|].
    intros dst Hd. rewrite Er. apply decompress_block; [exact Hs|lia].
Qed.

Lemma methods_comp a b : HAMMER2_DEC_COMP (u8 (HAMMER2_ENC_COMP a + HAMMER2_ENC_CHECK b)) = a .& 15.
Proof.
  unfold HAMMER2_DEC_COMP, HAMMER2_ENC_COMP, HAMMER2_ENC_CHECK, u8. change 15 with (Z.ones 4). rewrite !Z.land_ones, Z.shiftl_mul_pow2 by lia.
  change (2 ^ 4) with 16. change (2 ^ 8) with (16 * 16). rewrite Z.rem_mul_r by lia. rewrite Z.mod_add by lia. rewrite (Z.mul_comm 16), Z.mod_add by lia.
  rewrite !Z.mod_mod by lia. reflexivity.
Qed.

(** * Where the block goes *)

(** The chain that the lookup found for the block, or a hole; and if a block with the
    same data is found, the chain can take it over. *)
Definition target (w : fwstate) (p : nat) (chain : option nat) : Prop :=
  match chain with
  | Some i => exists x, s_nodes (w_s w) !! i = Some x /\ n_type x = HAMMER2_BREF_TYPE_DATA /\ forall data n, may_share dedup_enable w x data n
  | None => forall data n d w1, hammer2_dedup_lookup dedup_enable w data n = Done (d, w1) -> d <> 0 -> has_room (w_s w) p
  end.

Lemma scan_ip (w : fwstate) ip data n base crc l : dedup_scan (set_w_ip ip w) data n base crc l = (let '(d, w1) := dedup_scan w data n base crc l in (d, set_w_ip ip w1)).
Proof.
  induction l as [|j l IH]; [reflexivity|]. cbn [dedup_scan]. change (heur (set_w_ip ip w) (base + j)) with (heur w (base + j)). change (w_s (set_w_ip ip w)) with (w_s w).
  destruct (negb _); [exact IH|]. destruct (negb _); [exact IH|]. destruct (_ && _); [reflexivity|exact IH].
Qed.
Lemma lookup_ip (w : fwstate) ip data n d w1 : hammer2_dedup_lookup dedup_enable (set_w_ip ip w) data n = Done (d, w1) ->
  exists w2, hammer2_dedup_lookup dedup_enable w data n = Done (d, w2).
Proof.
  unfold hammer2_dedup_lookup. destruct (negb _); [intros [= <- _]; eauto|]. intros H. apply obind_Done in H as (crc & -> & H). cbn [obind]. rewrite scan_ip in H.
  destruct (dedup_scan w data n (dedup_base crc) crc _) as [d' w2]. injection H as <- _. eauto.
Qed.
Lemma target_ip (w : fwstate) ip p chain : target w p chain -> target (set_w_ip ip w) p chain.
Proof.
  destruct chain as [i|]; cbn.
  - intros (x & Hx & Ht & H). exists x. split; [exact Hx|]. split; [exact Ht|]. intros data n d w1 Hl Hd. destruct (lookup_ip _ _ _ _ _ _ Hl) as [w2 Hl2]. exact (H data n d w2 Hl2 Hd).
  - intros H data n d w1 Hl Hd. destruct (lookup_ip _ _ _ _ _ _ Hl) as [w2 Hl2]. exact (H data n d w2 Hl2 Hd).
Qed.

Lemma assign_target w p chain lbase r mtid data c dd np w' :
  hammer2_assign_physical dedup_enable w p chain 0 lbase (2 ^ r) mtid data = Done (0, Some c, dd, np, w') ->
  inv (w_s w) -> target w p chain -> 10 <= r <= 16 -> (forall i, chain = Some i -> c = i) /\ assigned w' c (2 ^ r) dd data.
Proof.
  intros H Hi Ht Hr. destruct chain as [i|].
  - destruct Ht as (x & Hx & Hty & Hsh). destruct (assign_existing _ _ _ _ _ _ _ _ _ _ _ _ _ H Hi Hx Hty Hr (Hsh _ _)) as [E Ha].
    injection E as ->. split; [congruence|exact Ha].
  - split; [discriminate|]. apply (assign_hole _ _ _ _ _ _ _ _ _ _ _ H Hi Hr). intros d w1. apply Ht.
Qed.

(** The end of a write: shared, or through a device buffer. *)
Lemma finish_shared w c r m data w' : set_contents w c m data = Done w' -> assigned w c (2 ^ r) true data -> 10 <= r <= 16 -> 2 ^ r <= alen data -> Forall is_byte data ->
  stored w' c (u8 m) (take (Z.to_nat (2 ^ r)) data).
Proof.
  intros H (y & Hy & Hl & Hd) Hr Hlen Hb. destruct (Hd eq_refl) as [Hnn Hdev]. pose proof (pow2_size r Hr) as [_ Hsz].
  assert (El : alen (take (Z.to_nat (2 ^ r)) data) = 2 ^ r) by (apply bytes_take; lia).
  refine (proj1 (set_contents_stored _ _ y _ data _ _ H Hy _ _ _ _ _ _)); rewrite ?El; [exact Hl|reflexivity|apply Forall_take, Hb|change (2 ^ 32) with 4294967296; lia|symmetry; exact Hdev|contradiction].
Qed.
Lemma finish_dio w c r m data dd w' x : write_dio dedup_enable w c m (2 ^ r) data = Done (0, w') -> assigned w c (2 ^ r) dd data -> s_nodes (w_s w) !! c = Some x -> is_modified x = true ->
  10 <= r <= 16 -> 2 ^ r <= alen data -> Forall is_byte data -> stored w' c (u8 m) (take (Z.to_nat (2 ^ r)) data).
Proof.
  intros H (y & Hy & Hl & _) Hx Hm Hr Hlen Hb. assert (x = y) as -> by congruence. pose proof (pow2_size r Hr) as [_ Hsz].
  refine (proj1 (write_dio_stored _ _ _ y _ _ _ _ H Hy Hl Hm _ _ Hb)); [lia|change (2 ^ 32) with 4294967296; lia].
Qed.

(** * The whole write *)

(** The chain holds a block that decodes to [t]. *)
Definition written (w' : fwstate) (chain : option nat) (t : list Z) : Prop :=
  exists c m l, (forall i, chain = Some i -> c = i) /\ stored w' c m l /\ decodes m l t /\ alen l <= HAMMER2_PBUFSIZE.
(** No chain is left for a block of zeros: there was none, or it is deleted. *)
Definition zeroed (w w' : fwstate) (p : nat) (chain : option nat) (mtid : Z) : Prop :=
  match chain with
  | Some i => exists e, hammer2_chain_delete (w_s w) (Some p) i mtid HAMMER2_DELETE_PERMANENT = Done (e, w_s w')
  | None => w_s w' = w_s w
  end.

Lemma zero_write_zeroed w p chain mtid w' : zero_write w p chain 0 mtid = Done (0, w') -> target w p chain -> zeroed w w' p chain mtid.
Proof.
  unfold zero_write. intros H Ht. destruct chain as [i|]; [|injection H as <-; reflexivity]. destruct Ht as (x & Hx & Hty & _).
  unfold nd in H. rewrite Hx in H. cbn [obind] in H. rewrite Hty in H. cbn [Z.eqb Pos.eqb] in H. runs. exists z. assumption.
Qed.

Lemma write_bp_dio w i data check w' y n : hammer2_write_bp dedup_enable w i data check = Done (0, w') -> s_nodes (w_s w) !! i = Some y -> ready_leaf n y ->
  is_modified y = true /\ write_dio dedup_enable w i (HAMMER2_ENC_COMP HAMMER2_COMP_NONE + HAMMER2_ENC_CHECK check) n data = Done (0, w').
Proof.
  unfold hammer2_write_bp. intros H Hy Hl. unfold nd in H. rewrite Hy in H. cbn [obind] in H. rewrite (lf_type _ _ Hl), (lf_bytes _ _ Hl) in H.
  apply obind_Done in H as (u & Hm & H). apply kassert_Done in Hm. auto.
Qed.

(** An uncompressed block. *)
Lemma plain_written w1 chain c dd r data check w' : (forall i, chain = Some i -> c = i) -> assigned w1 c (2 ^ r) dd data -> 10 <= r <= 16 -> 2 ^ r <= alen data -> Forall is_byte data ->
  (if dd : bool then let! w := set_contents w1 c (HAMMER2_ENC_COMP HAMMER2_COMP_NONE + HAMMER2_ENC_CHECK check) data in Done (0, w)
   else hammer2_write_bp dedup_enable w1 c data check) = Done (0, w') ->
  written w' chain (take (Z.to_nat (2 ^ r)) data).
Proof.
  intros Hc Ha Hr Hlen Hb H. pose proof (pow2_size r Hr) as [_ Hsz]. eexists c, _, (take (Z.to_nat (2 ^ r)) data). split; [exact Hc|]. split; [|split].
  - destruct dd.
    + apply obind_Done in H as (w2 & H & E). injection E as <-. exact (finish_shared _ _ _ _ _ _ H Ha Hr Hlen Hb).
    + pose proof Ha as (y & Hy & Hl & _). destruct (write_bp_dio _ _ _ _ _ _ _ H Hy Hl) as [Hm Hd]. exact (finish_dio _ _ _ _ _ _ _ _ Hd Ha Hy Hm Hr Hlen Hb).
  - unfold decodes. rewrite methods_comp. reflexivity.
  - rewrite bytes_take by lia. lia.
Qed.

Lemma zero_check_written w p chain lbase r mtid data check w' : hammer2_zero_check_and_write dedup_enable w p chain 0 lbase (2 ^ r) mtid data check = Done (0, w') ->
  inv (w_s w) -> target w p chain -> 10 <= r <= 16 -> 2 ^ r <= alen data -> Forall is_byte data ->
  take (Z.to_nat (2 ^ r)) data = zeros (2 ^ r) /\ zeroed w w' p chain mtid \/ written w' chain (take (Z.to_nat (2 ^ r)) data).
Proof.
  unfold hammer2_zero_check_and_write. intros H Hi Ht Hr Hlen Hb. destruct (_ && test_block_zeros data (2 ^ r)) eqn:Hz.
  - apply andb_prop in Hz as [_ Hz]. left. split; [apply block_zeros; [exact Hz|lia|exact Hlen]|exact (zero_write_zeroed _ _ _ _ _ H Ht)].
  - right. apply obind_Done in H as ([[[[e c] dd] np] w1] & Ha & H). destruct (Z.eqb_spec e 0) as [->|]; cbn [negb] in H; [|run; contradiction].
    destruct c as [c|]; [|discriminate]. destruct (assign_target _ _ _ _ _ _ _ _ _ _ _ Ha Hi Ht Hr) as [Hc Has]. exact (plain_written _ _ _ _ _ _ _ _ Hc Has Hr Hlen Hb H).
Qed.

(** The block that is stored: [l], of 2^r bytes, which decodes to [t] under [algo]. *)
Lemma block_written w1 chain lbase r p mtid l t data algo check w' : inv (w_s w1) -> target w1 p chain -> 10 <= r <= 16 -> 2 ^ r <= alen l -> Forall is_byte l ->
  (forall m, HAMMER2_DEC_COMP m = algo .& 15 -> decodes m (take (Z.to_nat (2 ^ r)) l) t) ->
  (let! (error, chain, deduped, _, w) := hammer2_assign_physical dedup_enable w1 p chain 0 lbase (2 ^ r) mtid l in
   if negb (error =? 0) then Done (error, w)
   else
     match chain with
     | None => Panic
     | Some i =>
         let! x := nd (w_s w) i in
         if n_type x =? HAMMER2_BREF_TYPE_INODE then
           let! (error, w) := hammer2_chain_modify_ip w i mtid 0 in
           if error =? 0 then let! w := write_embedded w i data in Done (0, w) else Done (error, w)
         else if deduped : bool then
           let! w := set_contents w i (HAMMER2_ENC_COMP algo + HAMMER2_ENC_CHECK check) l in Done (0, w)
         else
           assert! is_modified x;
           if n_type x =? HAMMER2_BREF_TYPE_DATA
           then write_dio dedup_enable w i (HAMMER2_ENC_COMP algo + HAMMER2_ENC_CHECK check) (2 ^ r) l else Panic
     end) = Done (0, w') -> written w' chain t.
Proof.
  intros Hi Ht Hr Hlen Hb Hdec H. pose proof (pow2_size r Hr) as [_ Hsz].
  apply obind_Done in H as ([[[[e c] dd] np] w2] & Ha & H). destruct (Z.eqb_spec e 0) as [->|]; cbn [negb] in H; [|run; contradiction].
  destruct c as [c|]; [|discriminate]. destruct (assign_target _ _ _ _ _ _ _ _ _ _ _ Ha Hi Ht Hr) as [Hc Has]. pose proof Has as (y & Hy & Hl & _).
  unfold nd in H. rewrite Hy in H. cbn [obind] in H. rewrite (lf_type _ _ Hl) in H. cbn [Z.eqb Pos.eqb] in H.
  eexists c, _, (take (Z.to_nat (2 ^ r)) l). split; [exact Hc|]. split; [|split; [apply Hdec, methods_comp|rewrite bytes_take by lia; lia]]. destruct dd.
  - apply obind_Done in H as (w3 & H & E). injection E as <-. exact (finish_shared _ _ _ _ _ _ H Has Hr Hlen Hb).
  - apply obind_Done in H as (u & Hm & H). apply kassert_Done in Hm. exact (finish_dio _ _ _ _ _ _ _ _ H Has Hy Hm Hr Hlen Hb).
Qed.

Lemma compress_written w p chain lbase r mtid data algo check w' :
  hammer2_compress_and_write dedup_enable always_compress w p chain 0 lbase (2 ^ r) mtid data algo check = Done (0, w') ->
  inv (w_s w) -> target w p chain -> 10 <= r <= 16 -> 2 ^ r <= alen data -> Forall is_byte data ->
  take (Z.to_nat (2 ^ r)) data = zeros (2 ^ r) /\ zeroed w w' p chain mtid \/ written w' chain (take (Z.to_nat (2 ^ r)) data).
Proof.
  unfold hammer2_compress_and_write. intros H Hi Ht Hr Hlen Hb. pose proof (pow2_size r Hr) as [_ Hsz].
  apply obind_Done in H as (u1 & _ & H). apply obind_Done in H as (u2 & _ & H). destruct (_ && test_block_zeros data (2 ^ r)) eqn:Hz.
  - apply andb_prop in Hz as [_ Hz]. left. split; [apply block_zeros; [exact Hz|lia|exact Hlen]|exact (zero_write_zeroed _ _ _ _ _ H Ht)].
  - right. apply obind_Done in H as (comp & Hc & H). apply obind_Done in H as ([[size l] w1] & Hs & H). destruct comp as [c|].
    + apply obind_Done in Hs as (size' & Hs & E). apply comp_block_size_ok in Hs as (r' & Hr' & -> & Hfit). injection E as <- <- E1.
      assert (Hi1 : inv (w_s w1)) by (rewrite <- E1; exact Hi). assert (Ht1 : target w1 p chain) by (rewrite <- E1; apply target_ip, Ht). clear E1.
      pose proof (pow2_size r' ltac:(lia)) as [_ Hsz']. destruct (_ || _) in Hc; [|discriminate].
      assert (Hpad : alen (zeros (2 ^ r' - alen c)) < 65536) by (pose proof (alen_nonneg c); pose proof (Z.pow_le_mono_r 2 r' 15); change (2 ^ 15) with 32768 in *; rewrite alen_zeros; lia).
      assert (El : alen (c ++ zeros (2 ^ r' - alen c)) = 2 ^ r') by (rewrite bytes_app, alen_zeros; lia).
      pose proof (fun m Hm => proj1 (compress_block_decodes data (2 ^ r) algo c m _ Hc Hb ltac:(lia) Hlen Hm Hpad)) as Hdec.
      assert (Hcb : Forall is_byte c) by (apply (compress_block_decodes data (2 ^ r) algo c algo [] Hc Hb ltac:(lia) Hlen eq_refl); change (alen []) with 0; lia).
      rewrite bool_decide_false in H by discriminate.
      apply (block_written w1 chain lbase r' p mtid (c ++ zeros (2 ^ r' - alen c)) (take (Z.to_nat (2 ^ r)) data) data algo check w' Hi1 Ht1); [lia|lia| | |exact H].
      * apply Forall_app_2; [exact Hcb|apply bytes_zeros].
      * pose proof (take_all_alen (c ++ zeros (2 ^ r' - alen c))) as E. rewrite El in E. rewrite E. exact Hdec.
    + injection Hs as <- <- E1.
      assert (Hi1 : inv (w_s w1)) by (rewrite <- E1; exact Hi). assert (Ht1 : target w1 p chain) by (rewrite <- E1; apply target_ip, Ht). clear E1.
      rewrite bool_decide_true in H by reflexivity.
      apply (block_written w1 chain lbase r p mtid data (take (Z.to_nat (2 ^ r)) data) data HAMMER2_COMP_NONE check w' Hi1 Ht1); [lia|lia|exact Hb| |exact H].
      intros m Hm. unfold decodes. rewrite Hm. reflexivity.
Qed.

(** C23. What is written to a file is what is read.  A logical block of [2 ^ r] bytes is
    written with any compression and check algorithm of the inode, over a data chain or
    into a hole; the device can be read.  When dedup offers a block, this supposes that
    the chain can take it over ([target]): a chain that is written over has a block, is
    not INITIAL, and must move for the write, being MODIFIED and DEDUPABLE, or not
    MODIFIED and not to be overwritten in place; a hole has room for the blockref in its parent.  A MODIFIED
    chain that is not DEDUPABLE is left out: there the write is lost
    ([dedup_write_lost]).  If
    [hammer2_write_file_core] reports no error, either the block is all zeros and there
    is no chain for it, or its chain holds a block that passes its check code and that
    the read path, from the load to the decompression, turns into the same bytes,
    followed by zeros up to the size of the buffer. *)
Theorem file_write_read w p chain lbase r mtid data w' :
  alen rbuf = HAMMER2_PBUFSIZE -> (forall o, read_error o = false) -> inv (w_s w) -> target w p chain -> 10 <= r <= 16 -> 2 ^ r <= alen data -> Forall is_byte data ->
  hammer2_write_file_core dedup_enable always_compress w p chain 0 lbase (2 ^ r) mtid data = Done (0, w') ->
  let t := take (Z.to_nat (2 ^ r)) data in
  t = zeros (2 ^ r) /\ zeroed w w' p chain mtid
  \/ exists c y, (forall i, chain = Some i -> c = i) /\ s_nodes (w_s w') !! c = Some y /\ n_type y = HAMMER2_BREF_TYPE_DATA
       /\ testcheck y (dev_get (w_s w') (n_phys y)) = Done true
       /\ forall bp, block_buf bp -> 2 ^ r <= b_bufsize bp -> exists bp' w2,
            hammer2_xop_strategy_read dedup_enable rbuf w' (Some c) 0 bp = Done (bp', w2) /\ b_data bp' = filled t bp /\ b_resid bp' = 0.
Proof.
  intros Hrb Hread Hi Ht Hr Hlen Hb H t. pose proof (pow2_size r Hr) as [_ Hsz].
  enough (t = zeros (2 ^ r) /\ zeroed w w' p chain mtid \/ written w' chain t) as [Hz|(c & m & l & Hc & Hs & Hdec & Hll)]; [left; exact Hz| |].
  - right. pose proof Hs as (y & Hy & Hl & _ & Hdev & _ & Htest & _). exists c, y. split; [exact Hc|]. split; [exact Hy|]. split; [exact (lf_type _ _ Hl)|]. split.
    + unfold testcheck in *. rewrite encode_raw in Htest. rewrite Hdev. exact Htest.
    + intros bp Hbp Hsize. apply (read_stored dedup_enable rbuf Hrb w' c m l t bp Hs Hdec Hread Hll Hbp). subst t. rewrite bytes_take by lia. exact Hsize.
  - unfold hammer2_write_file_core in H. destruct (HAMMER2_DEC_ALGO (fi_comp_algo (w_ip w))) as [|[q|q|]|q].
    1: { right. apply obind_Done in H as ([[[[e c] dd] np] w1] & Ha & H). destruct (Z.eqb_spec e 0) as [->|]; cbn [negb] in H; [|run; contradiction].
         destruct c as [c|]; [|discriminate]. destruct (assign_target _ _ _ _ _ _ _ _ _ _ _ Ha Hi Ht Hr) as [Hc Has]. pose proof Has as (y & Hy & Hl & _).
         unfold nd in H. rewrite Hy in H. cbn [obind] in H. rewrite (lf_type _ _ Hl) in H. cbn [Z.eqb Pos.eqb] in H. exact (plain_written _ _ _ _ _ _ _ _ Hc Has Hr Hlen Hb H). }
    3: exact (zero_check_written _ _ _ _ _ _ _ _ _ H Hi Ht Hr Hlen Hb).
    all: exact (compress_written _ _ _ _ _ _ _ _ _ _ H Hi Ht Hr Hlen Hb).
Qed.

(** ** A dedup that is not granted *)

(** A MODIFIED chain with a block of its own keeps it: the offset of a dedup is not
    looked at. *)
Lemma modify_stays s i x mtid d e s' : hammer2_chain_modify s i mtid d HAMMER2_MODIFY_OPTDATA = Done (e, s') -> s_nodes s !! i = Some x ->
  n_type x = HAMMER2_BREF_TYPE_DATA -> is_modified x = true -> is_dedupable x = false -> n_phys x <> 0 -> d <> 0 ->
  s_dev s' = s_dev s /\ exists y, s_nodes s' !! i = Some y /\ n_phys y = n_phys x /\ n_bytes y = n_bytes x /\ n_type y = HAMMER2_BREF_TYPE_DATA.
Proof.
  unfold hammer2_chain_modify. cbv zeta. intros H Hx Hty Hm Hdd Hp Hd. run. rewrite Hx in H0. injection H0 as <-. clear H1.
  assert (Hld : bool_decide (n_data x = None) && negb (is_root x) && negb (n_bytes x =? 0) && negb (tst 2 2) && negb (n_phys x =? 0) = false)
    by (change (tst 2 2) with true; cbn [negb]; rewrite andb_false_r; reflexivity).
  rewrite Hld in *. injection H2 as <-. cbn [andb] in H. rewrite Hx in H3. injection H3 as <-.
  set (x1 := set_update true (set_modified true x)) in *. change (n_phys x1) with (n_phys x) in H. rewrite Hm, Hdd in H. replace (n_phys x =? 0) with false in H by lia.
  cbn [negb orb] in H. rewrite andb_false_r in H. cbn [obind Z.eqb negb] in H.
  match type of H with context [if l_blkmapped (n_link ?a) then _ else _] => set (z1 := a) in * end.
  match type of H with context [if l_blkmapped (n_link z1) then ?a else z1] => set (z2 := if l_blkmapped (n_link z1) then a else z1) in * end.
  assert (n_phys z2 = n_phys x /\ n_bytes z2 = n_bytes x /\ n_type z2 = HAMMER2_BREF_TYPE_DATA) as (A & B & C) by (subst z2; destruct (l_blkmapped _); auto). clearbody z2.
  replace (d =? 0) with false in H by lia. rewrite andb_false_r in H. run.
  match goal with Hmd : modify_data _ _ _ = Done (?q, ?t), Hs : match n_parent ?q with _ => _ end = Done _ |- _ => rename Hmd into Hdata; rename Hs into Hset; set (y := q) in *; set (u := t) in * end.
  assert (s_dev u = s_dev s /\ n_phys y = n_phys x /\ n_bytes y = n_bytes x /\ n_type y = HAMMER2_BREF_TYPE_DATA) as (Hdev & A' & B' & C').
  { unfold modify_data in Hdata. change (n_type (set_initial false z2)) with (n_type z2) in Hdata. rewrite C in Hdata. replace (d =? 0) with false in Hdata by lia.
    rewrite !andb_false_r in Hdata. cbn [negb andb] in Hdata. change (n_phys (set_initial false z2)) with (n_phys z2) in Hdata.
    destruct (read_error _) in Hdata; [injection Hdata as <- <-; auto|].
    apply obind_Done in Hdata as (t & Ht & Hdata). destruct (n_data _) in Ht; [rewrite andb_false_r in Ht; injection Ht as <-|apply obind_Done in Ht as (uu & _ & Ht); injection Ht as <-]; injection Hdata as <- <-; auto. }
  assert (Hu : node_is (put i y u) i y) by (left; apply lookup_insert_eq).
  assert (node_is s' i y /\ s_dev s' = s_dev u) as [Hn E].
  { destruct (n_parent y); [destruct (setflush_node _ _ _ _ _ _ Hset Hu) as [G [Q _]]; split; [exact G|exact Q]|injection Hset as <-; split; [exact Hu|reflexivity]]. }
  split; [congruence|]. destruct Hn as [Hn|Hn]; eexists; (split; [exact Hn|]); auto.
Qed.

(** C25. A write can be lost.  When [hammer2_dedup_lookup] finds a block with the data of a
    write over a chain that is MODIFIED and not DEDUPABLE (the block of a file without
    check codes, which is never recorded for dedup), [hammer2_chain_modify] keeps the
    chain's own block, but [hammer2_assign_physical] reports a dedup, so the data is not
    written: the write succeeds, with the same block and the old contents on the device,
    under the check code of the new data. *)
Theorem dedup_write_lost w p i x lbase r mtid data d w1 w' :
  HAMMER2_DEC_ALGO (fi_comp_algo (w_ip w)) = HAMMER2_COMP_NONE -> s_nodes (w_s w) !! i = Some x -> n_type x = HAMMER2_BREF_TYPE_DATA -> n_error x = 0 ->
  is_modified x = true -> is_dedupable x = false -> n_phys x <> 0 -> n_bytes x = 2 ^ r -> 10 <= r <= 16 -> 2 ^ r <= alen data -> Forall is_byte data ->
  hammer2_dedup_lookup dedup_enable w data (2 ^ r) = Done (d, w1) -> d <> 0 ->
  hammer2_write_file_core dedup_enable always_compress w p (Some i) 0 lbase (2 ^ r) mtid data = Done (0, w') ->
  s_dev (w_s w') = s_dev (w_s w)
  /\ exists y, s_nodes (w_s w') !! i = Some y /\ n_phys y = n_phys x /\ testcheck y (Block (take (Z.to_nat (2 ^ r)) data) []) = Done true.
Proof.
  intros Halgo Hx Hty He Hm Hdd Hp Hb Hr Hlen Hbytes Hl Hd H. pose proof (pow2_size r Hr) as [_ Hsz].
  unfold hammer2_write_file_core in H. rewrite Halgo in H. cbn match in H. apply obind_Done in H as ([[[[e c] dd] np] w2] & Ha & H).
  destruct (Z.eqb_spec e 0) as [->|]; cbn [negb] in H; [|run; contradiction]. unfold hammer2_assign_physical in Ha.
  rewrite assert_true in Ha by lia. rewrite getradix_pow2 in Ha by lia. cbn [obind] in Ha. unfold nd in Ha. rewrite Hx in Ha. cbn [obind] in Ha.
  apply obind_Done in Ha as (u & _ & Ha). rewrite He, Hty, Hl, Hb in Ha. cbn [Z.eqb Pos.eqb negb obind andb] in Ha. rewrite Z.eqb_refl in Ha. cbn [negb obind andb] in Ha. replace (d =? 0) with false in Ha by lia.
  destruct (dedup_lookup_spec _ _ _ _ _ _ Hl ltac:(lia)) as (Ew & _ & _). rewrite Ew in Ha.
  apply obind_Done in Ha as ([[e2 dd2] w3] & Ha & E). apply obind_Done in Ha as ([e3 s3] & Hmod & Ha). injection Ha as <- <- <-. injection E as He3 <- <- <- <-.
  rewrite Z.lor_0_l in He3. subst e3.
  destruct (modify_stays _ _ _ _ _ _ _ Hmod Hx Hty Hm Hdd Hp Hd) as (Hdev & y & Hy & Yp & Yb & Yt).
  unfold nd in H. change (w_s (set_w_ip _ (set_w_s s3 w1))) with s3 in H. rewrite Hy in H. cbn [obind] in H. rewrite Yt in H. cbn [Z.eqb Pos.eqb negb] in H.
  apply obind_Done in H as (w4 & H & E). injection E as <-. unfold set_contents in H. unfold nd in H. change (w_s (set_w_ip _ (set_w_s s3 w1))) with s3 in H. rewrite Hy in H. cbn [obind] in H.
  apply obind_Done in H as (z & Hset & H). injection H as <-. unfold setcheck in Hset. rewrite encode_raw in Hset.
  apply obind_Done in Hset as (ck & Hset & E). injection E as <-. set (l := take (Z.to_nat (2 ^ r)) data) in *.
  match type of Hset with context [n_bytes ?q] => change (n_bytes q) with (n_bytes y) in Hset end. rewrite Yb, Hb in Hset. fold l in Hset.
  assert (Hlb : alen l < 2 ^ 32) by (subst l; rewrite bytes_take by lia; change (2 ^ 32) with 4294967296; lia).
  destruct (stored_passes _ _ _ (Forall_take _ _ _ Hbytes) Hlb Hset) as (_ & Hmm & Htest). cbn [ck_methods] in Hmm.
  split; [exact Hdev|]. eexists. split; [apply lookup_insert_eq|]. split; [exact Yp|]. unfold testcheck. rewrite encode_raw. destruct ck as [cm cc cn]. cbn [ck_methods] in Hmm. subst cm. exact Htest.
Qed.
End theorems.

(** * A small example *)

Section demo.
#[local] Existing Instance bump.
#[local] Existing Instance bump_laws.
(** No zlib, and every buffer is cached. *)
#[local] Instance nozlib : Zlib := {| deflate _ _ _ := None; inflate _ _ := (false, []) |}.
#[local] Instance nozlib_laws : ZlibLaws nozlib.
Proof. constructor; try discriminate. intros c room H. exact H. Qed.
#[local] Instance bits : DedupBits bump := {| dio_ready _ _ _ := true; dio_set_valid a _ _ := a |}.

(** The volume of FreemapStorage with the inode loaded, of a file with the given algorithms. *)
Definition demo_open : fstate := match hammer2_chain_lock demo 2 RESOLVE_ALWAYS with Done s => s | Panic => demo end.
Definition demo_file (comp check : Z) : fwstate := Fw demo_open (Finode comp check 0 false false None) ∅ 7.
Definition demo_data : list Z := concat (replicate 64 [1; 2; 3; 4]) ++ zeros 3840.
Definition demo_buf : buf := Buf (replicate (Z.to_nat 16384) 9) 16384 16384 16384 0 false.
Definition demo_write (comp : Z) (w : fwstate) (chain : option nat) (lbase : Z) : outcome (Z * fwstate) :=
  hammer2_write_file_core true false w 2 chain 0 lbase (2 ^ 12) 11 demo_data.

Lemma demo_room comp check : has_room (w_s (demo_file comp check)) 2.
Proof.
  intros x base count Hx Hb. vm_compute in Hx. injection Hx as <-. vm_compute in Hb. injection Hb as _ <-. vm_compute. split; [reflexivity|discriminate].
Qed.

#[local] Instance demo_protect : Protected := protect_main demo demo_clean.
Lemma demo_open_inv : inv demo_open.
Proof.
  pose proof (mounted_inv demo demo_clean) as Hm. change (inv demo) in Hm. unfold demo_open.
  destruct (hammer2_chain_lock demo 2 RESOLVE_ALWAYS) as [s|] eqn:Hl; [|exact Hm]. exact (proj1 (lock_fine _ _ _ _ Hl Hm)).
Qed.

Lemma file_write_read_witness :
  match hammer2_write_file_core true false (demo_file HAMMER2_COMP_LZ4 HAMMER2_CHECK_XXHASH64) 2 None 0 0 (2 ^ 12) 11 demo_data with
  | Done (e, w') => e = 0 /\ exists c y, s_nodes (w_s w') !! c = Some y /\ testcheck y (dev_get (w_s w') (n_phys y)) = Done true
      /\ exists bp' w2, hammer2_xop_strategy_read true (zeros 65536) w' (Some c) 0 demo_buf = Done (bp', w2) /\ b_data bp' = filled demo_data demo_buf
  | Panic => False
  end.
Proof.
  pose proof demo_open_inv as Hi.
  assert (Hb : Forall is_byte demo_data) by (apply (bool_decide_unpack _); vm_compute; exact I).
  destruct (hammer2_write_file_core _ _ _ _ _ _ _ _ _ _) as [[e w']|] eqn:E.
  2: assert (Hn : match hammer2_write_file_core true false (demo_file HAMMER2_COMP_LZ4 HAMMER2_CHECK_XXHASH64) 2 None 0 0 (2 ^ 12) 11 demo_data with Done _ => true | Panic => false end = true) by (vm_compute; reflexivity); rewrite E in Hn; discriminate.
  assert (He : e = 0).
  { assert (Hn : match hammer2_write_file_core true false (demo_file HAMMER2_COMP_LZ4 HAMMER2_CHECK_XXHASH64) 2 None 0 0 (2 ^ 12) 11 demo_data with Done (e, _) => e | Panic => 1 end = 0) by (vm_compute; reflexivity).
    rewrite E in Hn. exact Hn. }
  split; [exact He|]. subst e.
  destruct (file_write_read true false (zeros 65536) (demo_file HAMMER2_COMP_LZ4 HAMMER2_CHECK_XXHASH64) 2 None 0 12 11 demo_data w') as [[Hz _]|(c & y & _ & Hy & _ & Ht & Hrd)].
  - vm_compute. reflexivity.
  - reflexivity.
  - exact Hi.
  - intros data n d w1 _ _. apply demo_room.
  - lia.
  - vm_compute. discriminate.
  - exact Hb.
  - exact E.
  - vm_compute in Hz. discriminate.
  - exists c, y. split; [exact Hy|]. split; [exact Ht|]. destruct (Hrd demo_buf) as (bp' & w2 & Hr & Hd & _); [|vm_compute; discriminate|].
    + split; [reflexivity|]. split; [vm_compute; reflexivity|discriminate].
    + exists bp', w2. split; [exact Hr|]. rewrite Hd. f_equal.
Defined.

(** Two files: one block of each, then the data of the second into the first. *)
Definition demo_old : list Z := replicate (Z.to_nat 4096) 5.
Definition with_check (check : Z) (w : fwstate) : fwstate := set_w_ip (Finode HAMMER2_COMP_NONE check 0 false false None) w.
Definition demo_two : outcome fwstate :=
  let! (_, w) := hammer2_write_file_core true false (demo_file HAMMER2_COMP_NONE HAMMER2_CHECK_NONE) 2 None 0 0 (2 ^ 12) 11 demo_old in
  let! (_, w) := hammer2_write_file_core true false (with_check HAMMER2_CHECK_XXHASH64 w) 2 None 0 65536 (2 ^ 12) 12 demo_data in
  Done (with_check HAMMER2_CHECK_NONE w).
Definition demo_over (w : fwstate) : outcome (Z * fwstate) := hammer2_write_file_core true false w 2 (Some 3%nat) 0 0 (2 ^ 12) 13 demo_data.

Definition demo_chain (w : fwstate) : option (Z * Z * bool * bool * Z * Z) :=
  option_map (fun x => (n_type x, n_error x, is_modified x, is_dedupable x, n_phys x, n_bytes x)) (s_nodes (w_s w) !! 3%nat).
Lemma done_fst {A} (o : outcome (Z * A)) d : match o with Done (d, _) => d | Panic => 0 end = d -> d <> 0 -> exists a, o = Done (d, a).
Proof. destruct o as [[e a]|]; [intros ->; eauto|congruence]. Qed.
Lemma demo_two_facts :
  match demo_two with
  | Done w => demo_chain w = Some (3, 0, true, false, 4325376, 4096)
      /\ match hammer2_dedup_lookup true w demo_data (2 ^ 12) with Done (d, _) => d | Panic => 0 end = 4390924
      /\ match demo_over w with Done (e, _) => e | Panic => 1 end = 0
      /\ encode_block (dev_get (w_s w) 4325376) = demo_old /\ HAMMER2_DEC_ALGO (fi_comp_algo (w_ip w)) = HAMMER2_COMP_NONE
  | Panic => False
  end.
Proof. vm_compute. split_and!; reflexivity. Qed.

Lemma dedup_write_lost_witness :
  match demo_two with
  | Done w =>
      match demo_over w with
      | Done (e, w') => e = 0 /\ s_dev (w_s w') = s_dev (w_s w) /\ encode_block (dev_get (w_s w) 4325376) = demo_old
          /\ exists y, s_nodes (w_s w') !! 3%nat = Some y /\ n_phys y = 4325376 /\ testcheck y (Block (take (Z.to_nat (2 ^ 12)) demo_data) []) = Done true
      | Panic => False
      end
  | Panic => False
  end.
Proof.
  pose proof demo_two_facts as H. destruct demo_two as [w|]; [|exact H]. destruct H as (Hn & Hl & Ho & Hold & Hal).
  destruct (demo_over w) as [[e w']|] eqn:E; [|discriminate Ho]. subst e. split; [reflexivity|].
  unfold demo_chain in Hn. destruct (s_nodes (w_s w) !! 3%nat) as [x|] eqn:Ex; [|discriminate Hn]. cbn in Hn. injection Hn as N1 N2 N3 N4 N5 N6.
  destruct (done_fst (hammer2_dedup_lookup true w demo_data (2 ^ 12)) 4390924 Hl) as [w1 El]; [discriminate|].
  assert (Hlen : 2 ^ 12 <= alen demo_data) by (vm_compute; discriminate).
  assert (Hb : Forall is_byte demo_data) by (apply (bool_decide_unpack _); vm_compute; exact I).
  assert (Hp0 : n_phys x <> 0) by (rewrite N5; discriminate).
  destruct (dedup_write_lost true false w 2 3 x 0 12 13 demo_data 4390924 w1 w' Hal Ex N1 N2 N3 N4 Hp0 N6 ltac:(lia) Hlen Hb El ltac:(lia) E) as (A & y & Hy & Hp & Ht).
  split; [exact A|]. split; [exact Hold|]. exists y. split; [exact Hy|]. split; [congruence|exact Ht].
Defined.
End demo.
