(* ===== verification/FileSafe.v ===== *)
(** File writes and the committed tree: the writes of hammer2_strategy.c keep the
    copy-on-write invariant when the file has check codes, and a machine of chain
    operations, file reads and file writes. *)

From Stdlib Require Import ZArith Lia Bool.
From stdpp Require Import base numbers list option gmap relations.
From S2P Require Import Prelude Disk Subr Crc Xxh Check BlockTable ChainFind ChainCore Topology Reshape CowProof CowOps FreemapStorage Cow FileData FileRead FileWrite FileStored FileTheorems.

(** Contents that have a check code. *)
Definition has_check (methods : Z) : Prop := HAMMER2_DEC_CHECK methods <> HAMMER2_CHECK_NONE.

Lemma dedup_size_bytes d b : dedup_size d <> 0 -> chain_bytes (set_data_off d b) <> 0.
Proof.
  unfold dedup_size, chain_bytes. cbn. destruct (_ =? 0); [congruence|]. set (z := 1 .<< (d .& 63)). intros H E. apply H. unfold i32, u32 in *. rewrite <- Z.add_mod_idemp_l by discriminate. rewrite E. reflexivity.
Qed.

Section safe.
Context {ST : Storage} {SL : StorageLaws ST} {PR : Protected}.

Lemma dedup_safe_checked b d : has_check (br_methods b) -> (d <> 0 -> dedup_size d <> 0) -> dedup_safe b d.
Proof. intros Hc Hs Hd [[_ E]|E]; [contradiction|]. exfalso. exact (dedup_size_bytes _ _ (Hs Hd) E). Qed.
Lemma bref_safe_checked a b : has_check (br_methods b) -> br_data_off b = br_data_off a -> bref_safe a -> bref_safe b.
Proof. intros Hc E Ha [[_ H]|H]; [contradiction|]. rewrite E. apply Ha. right. unfold chain_bytes in *. rewrite <- E. exact H. Qed.

Lemma resize_inv s i x mtid d r fl e s' : hammer2_chain_resize s i mtid d r fl = Done (e, s') -> inv s -> s_nodes s !! i = Some x ->
  dedup_safe (n_bref x) d -> 0 < r -> u32 (1 .<< r) <> 0 ->
  inv s' /\ exists y, s_nodes s' !! i = Some y /\ same_kind (n_bref y) (n_bref x).
Proof.
  unfold hammer2_chain_resize. intros H Hi Hx Hd Hr Hnz. run. rewrite Hx in H0. injection H0 as <-. clear H1.
  replace (r =? 0) with false in H by lia. destruct (n_bytes x =? _); [run; split; [exact Hi|exists x; split; [exact Hx|split; reflexivity]]|]. run.
  destruct (modify_fine _ _ _ _ _ _ _ H0) as [Hf _]; [intros _ y Hy; replace y with x by congruence; exact Hd|]. destruct (Hf Hi) as [Hit Hk].
  destruct (Hk i x Hx) as (y & Hy & Ek & _). destruct (negb (z =? 0)); [run; split; [exact Hit|exists y; auto]|]. run. rewrite Hy in H1. injection H1 as <-.
  match goal with Hc : chain_freemap_alloc _ _ _ = Done (?v1, ?v2, ?v3) |- _ => rename Hc into Ha; rename v1 into er; rename v2 into off; rename v3 into a end. 
  pose proof (freemap_alloc_keeps _ _ _ _ _ _ Ha) as Hkeep. destruct (Z.eqb_spec er 0) as [->|Her]; cbn [negb] in H.
  - assert (Hia : inv (set_s_alloc a f)) by (apply (alloc_fine f a (fun _ => Hkeep)); exact Hit).
    assert (HnF : ~ CowProof.F (phys off)) 
      by (intros Hf0; destruct (freemap_alloc_place _ _ _ _ _ Ha Hnz) as [[Hnew _]|[_ Hr0]]; [exact (Hnew (iv_use _ Hit _ Hf0))|exact (F_area _ Hf0 Hr0)]). run.
    set (y1 := set_n_bytes (u32 (1 .<< r)) (set_n_bref (set_data_off off (n_bref y)) y)) in *.
    match goal with Hm : match n_data y1 with _ => _ end = Done ?q |- _ => rename Hm into Hdata; set (y2 := q) in *; assert (Ey : n_bref y2 = n_bref y1 /\ n_data y2 = None) by
      (destruct (n_data y1) eqn:Ed in Hdata; [apply obind_Done in Hdata as (u & _ & Hdata); injection Hdata as Hdata; rewrite <- Hdata; split; reflexivity|injection Hdata as Hdata; rewrite <- Hdata; split; [reflexivity|exact Ed]]) end.
    destruct Ey as [Ey1 Ey2]. clearbody y2. assert (Ep : n_phys y2 = phys off) by (unfold n_phys; rewrite Ey1; reflexivity). split.
    + apply (put_inv (set_s_alloc a f) i y); [exact Hia|exact Hy|unfold is_root, n_type; rewrite Ey1; reflexivity|]. constructor; rewrite ?Ep; auto.
      * intros o Ho. congruence.
      * apply bref_safe_phys. change (~ CowProof.F (n_phys y2)). rewrite Ep. exact HnF.
    + exists y2. split; [apply lookup_insert_eq|]. rewrite Ey1. exact Ek.
  - run. split; [apply (alloc_fine f a); [intros _; exact Hkeep|exact Hit]|]. exists y. split; [exact Hy|exact Ek].
Qed.

(** * The steps of a write *)

Context {DB : DedupBits ST} {DBL : DedupBitsLaws DB} {ZL : Zlib} (dedup_enable always_compress : bool).

Lemma set_contents_inv (w : fwstate) i m data w' : set_contents w i m data = Done w' -> inv (w_s w) -> has_check (u8 m) -> inv (w_s w').
Proof.
  unfold set_contents. intros H Hi Hc. run. unfold setcheck in *. run. pose proof (iv_nodes _ Hi i x H0) as [A B C D].
  apply (put_inv _ _ x); [exact Hi|exact H0|reflexivity|]. constructor.
  - exact A.
  - intros [Hm|Hini]; [apply B; left; exact Hm|discriminate].
  - refine (bref_safe_checked (n_bref x) _ _ _ C); [exact Hc|reflexivity].
  - exact D.
Qed.

Lemma dedup_record_inv (w : fwstate) i dio data w' : hammer2_dedup_record dedup_enable w i dio data = Done w' -> inv (w_s w) -> inv (w_s w').
Proof.
  unfold hammer2_dedup_record. intros H Hi. destruct (negb dedup_enable); [run; exact Hi|]. run. destruct (negb _); [run; exact Hi|]. run.
  match goal with o : option Z |- _ => destruct o end; [|run; exact Hi]. run. pose proof (iv_nodes _ Hi i x H0) as [A B C D].
  apply alloc_fine; [intros _ o Ho; apply set_valid_use, Ho|]. apply (put_inv _ _ x); [exact Hi|exact H0|reflexivity|]. constructor; assumption.
Qed.

Lemma write_dio_inv (w : fwstate) i m n data e w' x : write_dio dedup_enable w i m n data = Done (e, w') -> inv (w_s w) -> s_nodes (w_s w) !! i = Some x -> is_modified x = true ->
  has_check (u8 m) -> inv (w_s w').
Proof.
  unfold write_dio. intros H Hi Hx Hm Hc. run. rewrite Hx in H0. injection H0 as <-. destruct (_ && read_error _); [run; exact Hi|]. run.
  match goal with Hr : hammer2_dedup_record _ _ _ _ _ = Done _ |- _ => apply (dedup_record_inv _ _ _ _ _ Hr); clear Hr end.
  match goal with Hs : set_contents _ _ _ _ = Done _ |- _ => apply (set_contents_inv _ _ _ _ _ Hs); [clear Hs|exact Hc] end.
  cbn. apply dev_fine; [|exact Hi]. intros _. split; [|constructor]. apply (ns_open _ (iv_nodes _ Hi i x Hx)). left. exact Hm.
Qed.

Lemma write_embedded_inv (w : fwstate) i data w' : write_embedded w i data = Done w' -> inv (w_s w) -> modified (w_s w) i -> inv (w_s w').
Proof.
  unfold write_embedded. intros H Hi (x & Hx & Hm). run. assert (x0 = x) as -> by congruence. destruct (n_data x) as [off|] eqn:Ed; [|discriminate]. run.
  cbn. apply dev_fine; [|exact Hi]. intros _. split; [|constructor]. pose proof (iv_nodes _ Hi i x Hx) as Hn. rewrite (ns_data _ Hn off Ed). apply (ns_open _ Hn). left. exact Hm.
Qed.

Lemma modify_ip_inv (w : fwstate) i mtid fl e w' : hammer2_chain_modify_ip w i mtid fl = Done (e, w') -> inv (w_s w) ->
  inv (w_s w') /\ (e = 0 -> modified (w_s w') i).
Proof.
  unfold hammer2_chain_modify_ip. intros H Hi. run. match goal with Hm : hammer2_chain_modify _ _ _ _ _ = Done _ |- _ => destruct (modify0_fine _ _ _ _ _ _ Hm) as [Hf Hmod] end.
  split; [apply Hf, Hi|]. intros ->. exact (Hmod eq_refl Hi).
Qed.

(** * The chain of the block *)

Lemma methods_check a b : HAMMER2_DEC_CHECK (u8 (HAMMER2_ENC_COMP a + HAMMER2_ENC_CHECK b)) = b .& 15.
Proof.
  unfold HAMMER2_DEC_CHECK, HAMMER2_ENC_COMP, HAMMER2_ENC_CHECK, u8. change 15 with (Z.ones 4). rewrite !Z.land_ones, Z.shiftl_mul_pow2, Z.shiftr_div_pow2 by lia.
  change (2 ^ 4) with 16. change (2 ^ 8) with 256. pose proof (Z.mod_pos_bound a 16 ltac:(lia)). pose proof (Z.mod_pos_bound b 16 ltac:(lia)).
  rewrite (Z.mod_small (_ + _) 256) by lia. rewrite Z.div_add, (Z.div_small (a mod 16)) by lia. rewrite Z.add_0_l. apply Z.mod_mod. lia.
Qed.
Lemma create_check b : HAMMER2_DEC_CHECK (u8 (HAMMER2_ENC_CHECK b .| HAMMER2_ENC_COMP HAMMER2_COMP_NONE)) = b .& 15.
Proof. rewrite <- (methods_check HAMMER2_COMP_NONE b). change (HAMMER2_ENC_COMP 0) with 0. rewrite Z.lor_0_r. reflexivity. Qed.

(** The type of a chain that [hammer2_chain_create] makes. *)
Lemma create_alloc_type s p pm a n s' x : create_alloc s p pm a = Done (n, s') -> s_nodes s' !! n = Some x -> n_type x = ca_type a.
Proof.
  unfold create_alloc. cbv zeta. intros H Hx. run.
  assert (Hadd : add_node (set_initial true x2) s = (n, s')) by (repeat (case_match; try discriminate); run; first [reflexivity|congruence]).
  destruct (add_initial_fine _ _ _ _ _ _ H2 (phys_radix _ (getradix_lt _ _ H0)) Hadd) as (_ & _ & z & Hz & Ez).
  assert (z = x) as <- by congruence. unfold n_type. rewrite Ez. reflexivity.
Qed.
Lemma create_type s p pm a e np c s' : hammer2_chain_create s (Some p) None pm a = Done (e, np, Some c, s') -> inv s -> dedup_args a ->
  exists y, s_nodes s' !! c = Some y /\ n_type y = ca_type a.
Proof.
  unfold hammer2_chain_create, chain_create. intros H Hi Hd. run.
  destruct (create_alloc_fine _ _ _ _ _ _ H1 Hd) as (Hf & Hnew & Htk). destruct (Hf Hi) as [Ht _]. rewrite bool_decide_true in * by reflexivity.
  match type of H4 with create_again _ _ ?u _ _ _ _ = _ => set (t := u) in *; assert (Hty : exists y, s_nodes t !! n = Some y /\ n_type y = ca_type a);
    [|assert (Hut : fine None f t); [|clearbody t]] end.
  - assert (Hx : n_type x = ca_type a).
    { exact (create_alloc_type _ _ _ _ _ _ _ H1 H0). }
    subst t. destruct (tst _ _); [eexists; split; [apply lookup_insert_eq|exact Hx]|eauto].
  - subst t. destruct (tst _ _); [|reflexivity]. eapply put_same_fine; [exact H0|reflexivity|repeat split|reflexivity..|cbn; auto].
  - destruct Hty as (y & Hy & Ey). pose proof (create_again_same _ _ _ _ _ _ _ _ _ _ _ H4) as ->.
    match type of H4 with create_again ?g _ _ _ _ _ _ = _ => pose proof (create_again_fine g (fun s1 p1 b e np' s2 Hx => create_indirect_at_fine 2 _ _ _ _ _ _ Hx)) as Hag end.
    destruct (Hag _ _ _ _ _ _ _ _ _ _ H4) as [A _]; [intros _ _; exact (takes_fine _ _ _ _ _ Hut Ht Htk)|].
    destruct (Hut Ht) as [Hit _]. destruct (proj2 (A Hit) n y Hy) as (z & Hz & [Ez _] & _). exists z. split; [exact Hz|]. unfold n_type in *. congruence.
Qed.

(** The contents of the file and those of the chain to be written have a check code. *)
Definition checked_file (w : fwstate) (chain : option nat) : Prop :=
  fi_check_algo (w_ip w) .& 15 <> HAMMER2_CHECK_NONE
  /\ forall i x, chain = Some i -> s_nodes (w_s w) !! i = Some x -> n_type x = HAMMER2_BREF_TYPE_DATA -> has_check (br_methods (n_bref x)).

(** An inode that is to be written is MODIFIED. *)
Definition inode_ready (s : fstate) (c : nat) : Prop :=
  exists y, s_nodes s !! c = Some y /\ (n_type y = HAMMER2_BREF_TYPE_INODE -> modified s c).

Lemma lookup_sized (w : fwstate) data r d w1 : hammer2_dedup_lookup dedup_enable w data (2 ^ r) = Done (d, w1) -> 10 <= r <= 16 -> w_s w1 = w_s w /\ w_ip w1 = w_ip w /\ (d <> 0 -> dedup_size d <> 0).
Proof.
  intros H Hr. pose proof (pow2_size r Hr) as [_ Hsz]. destruct (dedup_lookup_spec _ _ _ _ _ _ H ltac:(lia)) as (A & B & C).
  split; [exact A|]. split; [exact B|]. intros Hd. rewrite (proj1 (C Hd)). lia.
Qed.

Lemma assign_hole_inv (w : fwstate) p lerr lbase r mtid data e c dd np w' :
  hammer2_assign_physical dedup_enable w p None lerr lbase (2 ^ r) mtid data = Done (e, c, dd, np, w') -> inv (w_s w) -> checked_file w None -> 10 <= r <= 16 ->
  inv (w_s w') /\ forall i, c = Some i -> inode_ready (w_s w') i.
Proof.
  intros H Hi [Hc _] Hr. pose proof (pow2_size r Hr) as [_ Hsz]. unfold hammer2_assign_physical in H.
  rewrite assert_true in H by lia. rewrite getradix_pow2 in H by lia. cbn [obind] in H. run.
  match goal with Hl : hammer2_dedup_lookup _ _ _ _ = Done _, Hn : hammer2_chain_create _ _ _ _ _ = Done _ |- _ => rename Hl into Hlook; rename Hn into Hnew end.
  destruct (lookup_sized _ _ _ _ _ Hlook Hr) as (Ew & _ & Hsize). rewrite Ew in Hnew.
  match type of Hnew with hammer2_chain_create _ _ _ _ ?q = _ => assert (Hargs : dedup_args q) end.
  { intros Hd. cbn in Hd. cbn [ca_methods ca_type ca_dedup_off]. assert (Hm : HAMMER2_DEC_CHECK (u8 (HAMMER2_ENC_CHECK (fi_check_algo (w_ip w)) .| HAMMER2_ENC_COMP 0)) <> 0) by (rewrite create_check; exact Hc).
    match type of Hnew with context [CreateArgs (HAMMER2_ENC_CHECK (fi_check_algo (w_ip ?v)) .| _)] => replace (w_ip v) with (w_ip w) in * by (symmetry; eapply lookup_sized; eassumption) end.
    split; [intros E; apply Hm; rewrite E; reflexivity|]. intros b _ Hb. refine (dedup_safe_checked b _ _ Hsize Hd). unfold has_check. rewrite Hb.
    unfold create_methods. cbn [ca_methods ca_type Z.eqb Pos.eqb negb andb]. exact Hm. }
  pose proof (create_fine _ _ _ _ _ _ _ _ _ Hnew Hargs Hi) as [Hi' _]. split; [destruct (bool_decide _); exact Hi'|]. intros i ->.
  destruct (create_type _ _ _ _ _ _ _ _ Hnew Hi Hargs) as (y & Hy & Ty). rewrite bool_decide_false by discriminate. exists y. split; [exact Hy|]. rewrite Ty. discriminate.
Qed.

Lemma modify_keeps s i x mtid d fl e s' : hammer2_chain_modify s i mtid d fl = Done (e, s') -> inv s -> s_nodes s !! i = Some x -> dedup_safe (n_bref x) d ->
  inv s' /\ exists y, s_nodes s' !! i = Some y /\ same_kind (n_bref y) (n_bref x).
Proof.
  intros H Hi Hx Hd. destruct (modify_fine _ _ _ _ _ _ _ H) as [Hf _]; [intros _ y Hy; replace y with x by congruence; exact Hd|].
  destruct (Hf Hi) as [Hi' Hk]. split; [exact Hi'|]. destruct (Hk i x Hx) as (y & Hy & Ek & _). eauto.
Qed.
Lemma same_kind_trans a b c : same_kind a b -> same_kind b c -> same_kind a c.
Proof. intros [A B] [C D]. split; congruence. Qed.

(** The data chain: resized when it has another size, then modified. *)
Lemma assign_data_inv s i x r mtid d lerr e1 s1 e2 s2 : inv s -> s_nodes s !! i = Some x -> dedup_safe (n_bref x) d -> 10 <= r <= 16 ->
  (if negb (n_bytes x =? 2 ^ r) then let! (error, s) := hammer2_chain_resize s i mtid d r HAMMER2_MODIFY_OPTDATA in Done (lerr .| error, s) else Done (lerr, s)) = Done (e1, s1) ->
  (inv s1 /\ exists y, s_nodes s1 !! i = Some y /\ same_kind (n_bref y) (n_bref x))
  /\ (hammer2_chain_modify s1 i mtid d HAMMER2_MODIFY_OPTDATA = Done (e2, s2) -> inv s2 /\ exists y, s_nodes s2 !! i = Some y /\ same_kind (n_bref y) (n_bref x)).
Proof.
  intros Hi Hx Hd Hr Hres. destruct (pow2_size r Hr) as [Esz Hsz].
  assert (H1 : inv s1 /\ exists y, s_nodes s1 !! i = Some y /\ same_kind (n_bref y) (n_bref x)).
  { destruct (negb _); run; [|split; [exact Hi|exists x; split; [exact Hx|split; reflexivity]]]. eapply resize_inv; try eassumption; lia. }
  split; [exact H1|]. destruct H1 as (Hi1 & y & Hy & Ky). intros H. destruct (modify_keeps _ _ _ _ _ _ _ _ H Hi1 Hy) as (Hi2 & z & Hz & Kz); [exact (dedup_safe_kind _ _ _ Ky Hd)|].
  split; [exact Hi2|]. exists z. split; [exact Hz|exact (same_kind_trans _ _ _ Kz Ky)].
Qed.

Lemma assign_chain_inv (w : fwstate) p i lerr lbase r mtid data e c dd np w' :
  hammer2_assign_physical dedup_enable w p (Some i) lerr lbase (2 ^ r) mtid data = Done (e, c, dd, np, w') -> inv (w_s w) -> checked_file w (Some i) -> 10 <= r <= 16 ->
  inv (w_s w') /\ (e = 0 -> forall j, c = Some j -> inode_ready (w_s w') j).
Proof.
  intros H Hi [_ Hc] Hr. pose proof (pow2_size r Hr) as [_ Hsz]. unfold hammer2_assign_physical in H.
  rewrite assert_true in H by lia. rewrite getradix_pow2 in H by lia. cbn [obind] in H. run. rename H0 into Hx, H2 into Hin.
  assert (Hdata : forall y s, same_kind (n_bref y) (n_bref x) -> n_type x = HAMMER2_BREF_TYPE_DATA -> s_nodes s !! i = Some y -> inode_ready s i).
  { intros y s [Ek _] Ht Hy. exists y. split; [exact Hy|]. unfold n_type in *. rewrite Ek, Ht. discriminate. }
  destruct (Z.eqb_spec (n_error x) 0) as [_|Herr]; [|injection Hin as <- <- <-; split; [exact Hi|intros E; contradiction]].
  destruct (Z.eqb_spec (n_type x) HAMMER2_BREF_TYPE_INODE) as [Ht|Ht]; [|destruct (Z.eqb_spec (n_type x) HAMMER2_BREF_TYPE_DATA) as [Ht'|Ht']].
  - rewrite Ht in Hin. apply obind_Done in Hin as ([e1 w1] & Hm & Hin). injection Hin as <- <- <-. destruct (modify_ip_inv _ _ _ _ _ _ Hm Hi) as [Hi1 Hmod].
    split; [exact Hi1|]. intros E j [= <-]. apply Z.lor_eq_0_iff in E as [_ E]. destruct (Hmod E) as (y & Hy & Hym). exists y. split; [exact Hy|]. intros _. exists y. auto.
  - rewrite Ht' in Hin. cbn match in Hin. apply obind_Done in Hin as ([d w1] & Hl & Hin). destruct (lookup_sized _ _ _ _ _ Hl Hr) as (Ew & _ & Hsize). rewrite Ew in Hin.
    apply obind_Done in Hin as ([e1 s1] & Hres & Hin). pose proof (dedup_safe_checked (n_bref x) d (Hc i x eq_refl Hx Ht') Hsize) as Hsafe.
    destruct (_ && negb (e1 =? 0)); [injection Hin as <- <- <-|apply obind_Done in Hin as ([e2 s2] & Hm & Hin); injection Hin as <- <- <-].
    + destruct (assign_data_inv _ _ _ _ mtid d lerr e1 s1 0 s1 Hi Hx Hsafe Hr Hres) as [(Hi1 & y & Hy & Ky) _]. split; [exact Hi1|]. intros _ j [= <-]. exact (Hdata y s1 Ky Ht' Hy).
    + destruct (assign_data_inv _ _ _ _ mtid d lerr e1 s1 e2 s2 Hi Hx Hsafe Hr Hres) as [_ Hgo]. destruct (Hgo Hm) as (Hi2 & y & Hy & Ky). split; [exact Hi2|]. intros _ j [= <-]. exact (Hdata y s2 Ky Ht' Hy).
  - exfalso. destruct (n_type x) as [|[[[]|[]|]|[]|]|]; try discriminate; contradiction.
Qed.

Lemma assign_inv (w : fwstate) p chain lerr lbase r mtid data e c dd np w' :
  hammer2_assign_physical dedup_enable w p chain lerr lbase (2 ^ r) mtid data = Done (e, c, dd, np, w') -> inv (w_s w) -> checked_file w chain -> 10 <= r <= 16 ->
  inv (w_s w') /\ (e = 0 -> forall i, c = Some i -> inode_ready (w_s w') i).
Proof.
  intros H Hi Hc Hr. destruct chain as [i|]; [exact (assign_chain_inv _ _ _ _ _ _ _ _ _ _ _ _ _ H Hi Hc Hr)|].
  destruct (assign_hole_inv _ _ _ _ _ _ _ _ _ _ _ _ H Hi Hc Hr) as [A B]. auto.
Qed.

(** * The writes *)

Lemma zero_write_inv (w : fwstate) p chain lerr mtid e w' : zero_write w p chain lerr mtid = Done (e, w') -> inv (w_s w) -> inv (w_s w').
Proof.
  unfold zero_write. intros H Hi. destruct chain as [i|]; [|run; exact Hi]. run. destruct (n_type x =? _) in *.
  - run. match goal with Hm : (if lerr =? 0 then _ else _) = Done (?e1, ?w1) |- _ => assert (inv (w_s w1) /\ (e1 = 0 -> modified (w_s w1) i)) as [Hi1 Hmod] end.
    { destruct (Z.eqb_spec lerr 0); [eapply modify_ip_inv; eassumption|run; split; [exact Hi|contradiction]]. }
    destruct (Z.eqb_spec z 0) as [->|]; run; [|exact Hi1].
    match goal with He : write_embedded _ _ _ = Done _ |- _ => exact (write_embedded_inv _ _ _ _ He Hi1 (Hmod eq_refl)) end.
  - run. match goal with Hd : hammer2_chain_delete _ _ _ _ _ = Done _ |- _ => exact (proj1 (delete_fine _ _ _ _ _ _ _ Hd Hi)) end.
Qed.

Lemma write_bp_inv (w : fwstate) i data check e w' : hammer2_write_bp dedup_enable w i data check = Done (e, w') -> inv (w_s w) -> check .& 15 <> 0 -> inv (w_s w').
Proof.
  unfold hammer2_write_bp. intros H Hi Hc. apply obind_Done in H as (x & Hx & H). apply nd_Done in Hx. apply obind_Done in H as (u & Hm & H). apply kassert_Done in Hm.
  destruct (Z.eqb_spec (n_type x) HAMMER2_BREF_TYPE_INODE) as [Ht|Ht]; [|destruct (Z.eqb_spec (n_type x) HAMMER2_BREF_TYPE_DATA) as [Ht'|Ht']].
  - rewrite Ht in H. cbn match in H. run. eapply write_embedded_inv; [eassumption|exact Hi|exists x; auto].
  - rewrite Ht' in H. cbn match in H. eapply write_dio_inv; [exact H|exact Hi|exact Hx|exact Hm|]. unfold has_check. rewrite methods_check. exact Hc.
  - exfalso. destruct (n_type x) as [|[[[]|[]|]|[]|]|]; try discriminate; contradiction.
Qed.

(** The uncompressed end: shared, or through the device buffer. *)
Lemma plain_inv (w : fwstate) i dd data check e w' : (if dd : bool then let! w := set_contents w i (HAMMER2_ENC_COMP HAMMER2_COMP_NONE + HAMMER2_ENC_CHECK check) data in Done (0, w)
   else hammer2_write_bp dedup_enable w i data check) = Done (e, w') -> inv (w_s w) -> check .& 15 <> 0 -> inv (w_s w').
Proof.
  intros H Hi Hc. destruct dd; [|exact (write_bp_inv _ _ _ _ _ _ H Hi Hc)]. run.
  eapply set_contents_inv; [eassumption|exact Hi|]. unfold has_check. rewrite methods_check. exact Hc.
Qed.

Lemma zero_check_inv (w : fwstate) p chain lerr lbase r mtid data e w' :
  hammer2_zero_check_and_write dedup_enable w p chain lerr lbase (2 ^ r) mtid data (fi_check_algo (w_ip w)) = Done (e, w') ->
  inv (w_s w) -> checked_file w chain -> 10 <= r <= 16 -> inv (w_s w').
Proof.
  unfold hammer2_zero_check_and_write. intros H Hi Hc Hr. destruct (_ && test_block_zeros _ _); [exact (zero_write_inv _ _ _ _ _ _ _ H Hi)|].
  apply obind_Done in H as ([[[[e1 c] dd] np] w1] & Ha & H). destruct (assign_inv _ _ _ _ _ _ _ _ _ _ _ _ _ Ha Hi Hc Hr) as [Hi1 _].
  destruct (negb (e1 =? 0)); [injection H as _ <-; exact Hi1|]. destruct c as [i|]; [|discriminate]. exact (plain_inv _ _ _ _ _ _ _ H Hi1 (proj1 Hc)).
Qed.

Lemma compress_inv (w : fwstate) p chain lerr lbase r mtid data algo e w' :
  hammer2_compress_and_write dedup_enable always_compress w p chain lerr lbase (2 ^ r) mtid data algo (fi_check_algo (w_ip w)) = Done (e, w') ->
  inv (w_s w) -> checked_file w chain -> 10 <= r <= 16 -> inv (w_s w').
Proof.
  unfold hammer2_compress_and_write. intros H Hi Hc Hr. apply obind_Done in H as (u1 & _ & H). apply obind_Done in H as (u2 & _ & H).
  destruct (_ && test_block_zeros _ _); [exact (zero_write_inv _ _ _ _ _ _ _ H Hi)|]. apply obind_Done in H as (comp & _ & H). apply obind_Done in H as ([[size bd] w1] & Hs & H).
  assert (inv (w_s w1) /\ checked_file w1 chain /\ exists r', 10 <= r' <= 16 /\ size = 2 ^ r') as (Hi1 & Hc1 & r' & Hr' & ->).
  { destruct comp as [c|]; run; (split; [exact Hi|]); (split; [exact Hc|]); [|exists r; auto].
    match goal with Hsz : comp_block_size _ = Done _ |- _ => apply comp_block_size_ok in Hsz as (r' & Hr' & -> & _) end. exists r'. split; [lia|reflexivity]. }
  apply obind_Done in H as ([[[[e1 c] dd] np] w2] & Ha & H). destruct (assign_inv _ _ _ _ _ _ _ _ _ _ _ _ _ Ha Hi1 Hc1 Hr') as [Hi2 _].
  destruct (negb (e1 =? 0)); [injection H as _ <-; exact Hi2|]. destruct c as [i|]; [|discriminate]. run. destruct (n_type x =? _) in H.
  - run. match goal with Hm : hammer2_chain_modify_ip _ _ _ _ = Done _ |- _ => destruct (modify_ip_inv _ _ _ _ _ _ Hm Hi2) as [Hi3 Hmod] end.
    destruct (Z.eqb_spec z 0) as [->|]; run; [|exact Hi3]. eapply write_embedded_inv; [eassumption|exact Hi3|exact (Hmod eq_refl)].
  - assert (Hm : has_check (u8 (HAMMER2_ENC_COMP (if bool_decide (comp = None) then HAMMER2_COMP_NONE else algo) + HAMMER2_ENC_CHECK (fi_check_algo (w_ip w))))) by (unfold has_check; rewrite methods_check; apply Hc).
    destruct dd; run; [eapply set_contents_inv; eassumption|]. destruct (n_type x =? _) in H; [|discriminate]. eapply write_dio_inv; eassumption.
Qed.

Lemma file_write_inv (w : fwstate) p chain lerr lbase r mtid data e w' :
  hammer2_write_file_core dedup_enable always_compress w p chain lerr lbase (2 ^ r) mtid data = Done (e, w') ->
  inv (w_s w) -> checked_file w chain -> 10 <= r <= 16 -> inv (w_s w').
Proof.
  unfold hammer2_write_file_core. intros H Hi Hc Hr. destruct (HAMMER2_DEC_ALGO (fi_comp_algo (w_ip w))) as [|[q|q|]|q].
  1: { apply obind_Done in H as ([[[[e1 c] dd] np] w1] & Ha & H). destruct (assign_inv _ _ _ _ _ _ _ _ _ _ _ _ _ Ha Hi Hc Hr) as [Hi1 Hrdy].
       destruct (Z.eqb_spec e1 0) as [->|]; cbn [negb] in H; [|injection H as _ <-; exact Hi1]. destruct c as [i|]; [|discriminate].
       destruct (Hrdy eq_refl i eq_refl) as (y & Hy & Hino). apply obind_Done in H as (x & Hx & H). apply nd_Done in Hx. assert (x = y) as -> by congruence.
       destruct (Z.eqb_spec (n_type y) HAMMER2_BREF_TYPE_INODE) as [Ht|_]; [run; eapply write_embedded_inv; [eassumption|exact Hi1|exact (Hino Ht)]|].
       exact (plain_inv _ _ _ _ _ _ _ H Hi1 (proj1 Hc)). }
  3: exact (zero_check_inv _ _ _ _ _ _ _ _ _ _ H Hi Hc Hr).
  all: exact (compress_inv _ _ _ _ _ _ _ _ _ _ _ H Hi Hc Hr).
Qed.

Lemma file_read_inv (w : fwstate) rbuf chain lerr bp bp' w' : hammer2_xop_strategy_read dedup_enable rbuf w chain lerr bp = Done (bp', w') -> inv (w_s w) -> inv (w_s w').
Proof.
  unfold hammer2_xop_strategy_read. intros H Hi. destruct chain as [i|]; [|destruct (lerr =? 0); run; exact Hi]. run.
  match goal with Hl : hammer2_chain_lock _ _ _ = Done _ |- _ => pose proof (proj1 (lock_fine _ _ _ _ Hl Hi)) as Hi1 end.
  destruct (n_error x0 =? 0); [|run; exact Hi1]. unfold hammer2_strategy_read_completion in H. change (w_s (set_w_s x w)) with x in H.
  apply obind_Done in H as (x1 & _ & H). destruct (node_block x x1) as [k|]; [|discriminate]. cbv zeta in H.
  destruct (_ =? HAMMER2_BREF_TYPE_INODE) in H; [run; exact Hi1|]. destruct (_ =? HAMMER2_BREF_TYPE_DATA) in H; [|discriminate].
  apply obind_Done in H as (w1 & Hrec & H). assert (Hi2 : inv (w_s w1)) by (eapply dedup_record_inv; [exact Hrec|exact Hi1]).
  destruct (HAMMER2_DEC_COMP _) as [|[[[]|[]|]|[[]|[]|]|]|]; try discriminate; run; exact Hi2.
Qed.
End safe.

(** * The machine *)

Section machine.
Context {ST : Storage} {SL : StorageLaws ST} {DB : DedupBits ST} {DBL : DedupBitsLaws DB} {ZL : Zlib}.
Context (dedup_enable always_compress : bool) (rbuf : list Z).

(** A chain operation, a read or a write of file data of a file with check codes, or a
    change of file.  The clock advances at will. *)
Inductive fs_step : fwstate -> fwstate -> Prop :=
| fs_op w o s : op_ok o -> op_step (w_s w) o = Done s -> fs_step w (set_w_s s w)
| fs_read w chain lerr bp bp' w' : hammer2_xop_strategy_read dedup_enable rbuf w chain lerr bp = Done (bp', w') -> fs_step w w'
| fs_write w p chain lerr lbase r mtid data e w' : 10 <= r <= 16 -> checked_file w chain ->
    hammer2_write_file_core dedup_enable always_compress w p chain lerr lbase (2 ^ r) mtid data = Done (e, w') -> fs_step w w'
| fs_dedup_clear w : fs_step w (hammer2_dedup_clear w)
| fs_file w ip ticks : fs_step w (Fw (w_s w) ip (w_heur w) ticks).

Lemma fs_step_inv {PR : Protected} w w' : fs_step w w' -> inv (w_s w) -> inv (w_s w').
Proof.
  intros H Hi. destruct H as [w o s Hok Ho|w chain lerr bp bp' w' H|w p chain lerr lbase r mtid data e w' Hr Hc H|w|w ip ticks].
  - exact (proj1 (op_step_keep _ _ _ Hok Ho Hi)).
  - exact (file_read_inv _ _ _ _ _ _ _ _ H Hi).
  - exact (file_write_inv _ _ _ _ _ _ _ _ _ _ _ _ H Hi Hc Hr).
  - exact Hi.
  - exact Hi.
Qed.
Lemma fs_steps_inv {PR : Protected} w w' : rtc fs_step w w' -> inv (w_s w) -> inv (w_s w').
Proof. induction 1 as [w|w1 w2 w3 Hs _ IH]; [auto|]. intros Hi. exact (IH (fs_step_inv _ _ Hs Hi)). Qed.

(** C24. Crash consistency with file data, for files whose contents have check codes.
    From a cleanly mounted volume, interleave in any order chain operations with their
    flushes, file reads, and writes to files with a check algorithm other than none,
    with compression, with the blocks they share through dedup, over chains or into
    holes, and with every error they can meet.  Let any of the writes made so far reach
    the device, in any order.  Then the volume header at mount time still leads to
    exactly the same main topology (the tree from its sroot_blockset), file data
    included; the rotating blocks of the freemap itself are not covered. *)
Theorem file_writes_keep_committed_tree w0 w l dev :
  mounted_clean (w_s w0) -> rtc fs_step w0 w -> (forall x, x ∈ l -> x ∈ s_log (w_s w)) -> dev = replay l (s_dev (w_s w0)) ->
  let roots := vd_sroot (s_header (w_s w0)) in
  (forall o, protected (s_dev (w_s w0)) roots o -> dev !! o = s_dev (w_s w0) !! o)
  /\ (forall b, reach dev roots b <-> reach (s_dev (w_s w0)) roots b).
Proof.
  intros Hm Hrun Hl -> roots. set (PR := protect_main (w_s w0) Hm).
  pose proof (fs_steps_inv (PR := PR) w0 w Hrun (mounted_inv (w_s w0) Hm)) as Hi.
  exact (inv_keeps_tree _ _ _ l Hi Hl).
Qed.
End machine.

(** * A small example *)

Section demo.
#[local] Existing Instance bump.
#[local] Existing Instance bump_laws.
#[local] Existing Instance nozlib.
#[local] Existing Instance bits.
#[local] Instance bits_laws : DedupBitsLaws bits.
Proof. constructor. intros a off bytes o H. exact H. Qed.

(** The inode is loaded, a block of a file is written, another file shares it, the inode
    is flushed. *)
Definition session (w0 : fwstate) (ip : finode) (data : list Z) (r : Z) : outcome fwstate :=
  let! s := op_step (w_s w0) (OLock 2 RESOLVE_ALWAYS) in
  let! (_, w) := hammer2_write_file_core true false (Fw s ip (w_heur w0) 7) 2 None 0 0 (2 ^ r) 11 data in
  let! (_, w) := hammer2_write_file_core true false (Fw (w_s w) ip (w_heur w) 8) 2 None 0 65536 (2 ^ r) 11 data in
  let! s := op_step (w_s w) (OFlush (Some 2%nat) None false true true) in
  Done (set_w_s s w).
Lemma session_steps w0 ip data r w : session w0 ip data r = Done w -> fi_check_algo ip = HAMMER2_CHECK_XXHASH64 -> 10 <= r <= 16 ->
  rtc (fs_step true false (zeros 65536)) w0 w.
Proof.
  intros E Hip Hr. unfold session in E.
  apply obind_Done in E as (s1 & E1 & E). apply obind_Done in E as ([e2 w2] & E2 & E). apply obind_Done in E as ([e3 w3] & E3 & E). apply obind_Done in E as (s4 & E4 & E).
  injection E as <-. assert (Hc : forall s h t, checked_file (Fw s ip h t) None) by (intros s h t; split; [cbn; rewrite Hip; discriminate|discriminate]).
  eapply rtc_l; [eapply fs_op; [|exact E1]; exact I|]. eapply rtc_l; [exact (fs_file _ _ _ (set_w_s s1 w0) ip 7)|].
  eapply rtc_l; [eapply fs_write; [exact Hr|apply Hc|exact E2]|]. eapply rtc_l; [exact (fs_file _ _ _ w2 ip 8)|].
  eapply rtc_l; [eapply fs_write; [exact Hr|apply Hc|exact E3]|]. eapply rtc_l; [eapply fs_op; [|exact E4]; exact I|]. apply rtc_refl.
Qed.

Definition demo_lz4 : finode := Finode HAMMER2_COMP_LZ4 HAMMER2_CHECK_XXHASH64 0 false false None.
Definition demo_mounted : fwstate := Fw demo demo_lz4 ∅ 7.
Definition demo_session : outcome fwstate := session demo_mounted demo_lz4 demo_data 12.

Lemma file_writes_keep_committed_tree_witness :
  match demo_session with
  | Done w => (2 < length (s_log (w_s w)))%nat
      /\ forall b, reach (replay (s_log (w_s w)) (s_dev demo)) (vd_sroot demo_vol) b <-> reach (s_dev demo) (vd_sroot demo_vol) b
  | Panic => False
  end.
Proof.
  assert (Hl : match demo_session with Done w => (2 < length (s_log (w_s w)))%nat | Panic => False end) by (vm_compute; lia).
  destruct demo_session as [w|] eqn:E; [|exact Hl]. split; [exact Hl|]. pose proof (session_steps _ _ _ _ _ E eq_refl ltac:(lia)) as Hrun.
  exact (proj2 (file_writes_keep_committed_tree true false (zeros 65536) demo_mounted w (s_log (w_s w)) _ demo_clean Hrun (fun x H => H) eq_refl)).
Defined.
End demo.
