(* ===== verification/Xop.v ===== *)
(** Cluster operations (hammer2_admin.c, hammer2_cluster.c): a back end feeds chains
    into a ring, the front end collects them in key order.

    The back end runs inside [hammer2_xop_start] in this port, so an operation is
    sequential; what threads share, the inode dependencies, is in Ipdep.  The chains
    are held while they are in the operation: [x_holds] counts these references. *)

From Stdlib Require Import ZArith Lia Bool.
From stdpp Require Import base numbers list option gmultiset.
From S2P Require Import Prelude Disk Subr.

Abbreviation HAMMER2_XOPFIFO := 16 (only parsing).
Abbreviation HAMMER2_MAXCLUSTER := 8 (only parsing).
Abbreviation HAMMER2_XOPMASK_VOP := 2147483648 (only parsing).      (* 0x80000000 *)
Abbreviation HAMMER2_XOPMASK_ALLDONE := 2147483648 (only parsing).  (* 0x80000000 *)
Abbreviation HAMMER2_CITEM_NULL := 4 (only parsing).
Abbreviation HAMMER2_CHECK_NULL := 1 (only parsing).
Abbreviation HAMMER2_PFSTYPE_NONE := 0 (only parsing).
Abbreviation HAMMER2_PFSTYPE_MASTER := 6 (only parsing).
Abbreviation HAMMER2_PFSTYPE_SUPROOT := 8 (only parsing).

(** * State *)

(** struct hammer2_xop_fifo; None is a NULL array. *)
Record fifo := Fifo {
  ff_array : option (list (option nat));
  ff_errors : option (list Z);
  ff_ri : Z;
  ff_wi : Z
}.
#[export] Instance fifo_inhabited : Inhabited fifo := populate (Fifo None None 0 0).

(** struct hammer2_cluster_item *)
Record citem := Citem { ci_chain : option nat; ci_flags : Z; ci_error : Z }.
#[export] Instance citem_inhabited : Inhabited citem := populate (Citem None 0 0).

(** struct hammer2_cluster; [cl_types] is pmp->pfs_types. *)
Record cluster := Cluster {
  cl_array : list citem;
  cl_types : list Z;
  cl_focus : option nat;
  cl_nchains : Z;
  cl_error : Z
}.
Definition set_cl_array (a : list citem) (c : cluster) : cluster := Cluster a (cl_types c) (cl_focus c) (cl_nchains c) (cl_error c).
Definition set_cl_focus (f : option nat) (e : Z) (c : cluster) : cluster := Cluster (cl_array c) (cl_types c) f (cl_nchains c) e.

(** struct hammer2_xop_head, as the queue uses it. *)
Record xhead := Xhead {
  x_collect : list fifo;
  x_cluster : cluster;
  x_collect_key : Z;
  x_run_mask : Z;
  x_chk_mask : Z;
  x_fifo_size : Z;
  x_holds : gmultiset nat;           (* hammer2_chain_ref_hold ... drop_unhold *)
  x_ip1 : option (list citem);       (* ip1 and its ccache *)
  x_refs : gmultiset nat;            (* the references of ccache *)
  x_freed : bool
}.
Definition set_x_collect (l : list fifo) (x : xhead) : xhead :=
  Xhead l (x_cluster x) (x_collect_key x) (x_run_mask x) (x_chk_mask x) (x_fifo_size x) (x_holds x) (x_ip1 x) (x_refs x) (x_freed x).
Definition set_x_cluster (c : cluster) (x : xhead) : xhead :=
  Xhead (x_collect x) c (x_collect_key x) (x_run_mask x) (x_chk_mask x) (x_fifo_size x) (x_holds x) (x_ip1 x) (x_refs x) (x_freed x).
Definition set_x_collect_key (k : Z) (x : xhead) : xhead :=
  Xhead (x_collect x) (x_cluster x) k (x_run_mask x) (x_chk_mask x) (x_fifo_size x) (x_holds x) (x_ip1 x) (x_refs x) (x_freed x).
Definition set_x_masks (run chk : Z) (x : xhead) : xhead :=
  Xhead (x_collect x) (x_cluster x) (x_collect_key x) run chk (x_fifo_size x) (x_holds x) (x_ip1 x) (x_refs x) (x_freed x).
Definition set_x_fifo_size (n : Z) (x : xhead) : xhead :=
  Xhead (x_collect x) (x_cluster x) (x_collect_key x) (x_run_mask x) (x_chk_mask x) n (x_holds x) (x_ip1 x) (x_refs x) (x_freed x).
Definition set_x_holds (h : gmultiset nat) (x : xhead) : xhead :=
  Xhead (x_collect x) (x_cluster x) (x_collect_key x) (x_run_mask x) (x_chk_mask x) (x_fifo_size x) h (x_ip1 x) (x_refs x) (x_freed x).
Definition set_x_ip1 (i : option (list citem)) (r : gmultiset nat) (x : xhead) : xhead :=
  Xhead (x_collect x) (x_cluster x) (x_collect_key x) (x_run_mask x) (x_chk_mask x) (x_fifo_size x) (x_holds x) i r (x_freed x).
Definition set_x_freed  (x : xhead) : xhead :=
  Xhead (x_collect x) (x_cluster x) (x_collect_key x) (x_run_mask x) (x_chk_mask x) (x_fifo_size x) (x_holds x) (x_ip1 x) (x_refs x) true.

Definition fifo_mask (x : xhead) : Z := i32 (x_fifo_size x - 1).
Definition put_fifo (i : Z) (f : fifo) (x : xhead) : xhead := set_x_collect (aset (x_collect x) i f) x.
Definition put_item (i : Z) (c : citem) (x : xhead) : xhead := set_x_cluster (set_cl_array (aset (cl_array (x_cluster x)) i c) (x_cluster x)) x.

(** [hammer2_chain_ref_hold], [hammer2_chain_drop_unhold] *)
Definition hold (c : option nat) (x : xhead) : xhead :=
  match c with Some c => set_x_holds ({[+ c +]} ⊎ x_holds x) x | None => x end.
Definition drop_unhold (c : option nat) (x : xhead) : outcome xhead :=
  match c with
  | Some c => assert! bool_decide (c ∈ x_holds x); Done (set_x_holds (x_holds x ∖ {[+ c +]}) x)
  | None => Done x
  end.

Section xop.
(** bref.key and error of the chains, what [hrealloc] leaves behind the old array,
    and the error number of errno.h. *)
Context (ch_key ch_error : nat -> Z) (junk : option nat) (junk_error ECONNABORTED : Z).

(** * The ring *)

Definition pow2b (n : Z) : bool := n .& (n - 1) =? 0.

(** [hmalloc] zeroes, [hrealloc] keeps the old contents. *)
Definition grow {A} (zero fill : A) (l : option (list A)) (n old : Z) : list A :=
  match l with
  | None => replicate (Z.to_nat n) zero
  | Some l => l ++ replicate (Z.to_nat (n - old)) fill
  end.
Definition hammer2_xop_fifo_alloc (f : fifo) (new_nmemb old_nmemb : Z) : outcome fifo :=
  assert! old_nmemb <? new_nmemb;
  assert! (if old_nmemb =? 0 then bool_decide (ff_array f = None) && bool_decide (ff_errors f = None)
           else negb (bool_decide (ff_array f = None)) && negb (bool_decide (ff_errors f = None)));
  assert! pow2b new_nmemb;
  assert! HAMMER2_XOPFIFO <=? new_nmemb;
  Done (Fifo (Some (grow None junk (ff_array f) new_nmemb old_nmemb))
             (Some (grow 0 junk_error (ff_errors f) new_nmemb old_nmemb)) (ff_ri f) (ff_wi f)).

(** [nchains], [types]: the cluster of the inode and of its PFS; [cc], [refs]: its cache. *)
Definition hammer2_xop_alloc (nchains : Z) (types : list Z) (cc : list citem) (refs : gmultiset nat) : outcome xhead :=
  let zero := Fifo None None 0 0 in
  let! f := hammer2_xop_fifo_alloc zero HAMMER2_XOPFIFO 0 in
  Done (Xhead (f :: replicate 7 zero) (Cluster (replicate 8 (Citem None 0 0)) types None nchains 0)
          0 HAMMER2_XOPMASK_VOP 0 HAMMER2_XOPFIFO ∅ (Some cc) refs false).

Definition hammer2_xop_active (x : xhead) : bool := tst (x_run_mask x) HAMMER2_XOPMASK_VOP.

(** The loop of [hammer2_xop_feed] that doubles a full ring; the size is an int. *)
Fixpoint feed_grow (fuel : nat) (x : xhead) (i : Z) : outcome (Z * xhead) :=
  let f := aget (x_collect x) i in
  if ff_ri f =? i32 (ff_wi f - x_fifo_size x) then
    if negb (tst (x_run_mask x) HAMMER2_XOPMASK_VOP) then Done (HAMMER2_ERROR_ABORTED, x)
    else
      match fuel with
      | O => Panic
      | S fuel =>
          let old := x_fifo_size x in
          let x := set_x_fifo_size (i32 (old * 2)) x in
          let! f := hammer2_xop_fifo_alloc f (x_fifo_size x) old in
          feed_grow fuel (put_fifo i f x) i
      end
  else Done (0, x).

(** A store into an array of the ring: it must be there. *)
Definition ring_set {A} (l : option (list A)) (i : Z) (v : A) : outcome (list A) :=
  match l with
  | Some l => assert! (0 <=? i) && (i <? alen l); Done (aset l i v)
  | None => Panic
  end.
Definition ring_get {A} `{Inhabited A} (l : option (list A)) (i : Z) : outcome A :=
  match l with
  | Some l => assert! (0 <=? i) && (i <? alen l); Done (aget l i)
  | None => Panic
  end.

Definition hammer2_xop_feed (x : xhead) (chain : option nat) (clindex error : Z) : outcome (Z * xhead) :=
  if negb (hammer2_xop_active x) then Done (HAMMER2_ERROR_ABORTED, x)
  else
    let! (e, x) := feed_grow 32 x clindex in
    if negb (e =? 0) then Done (e, x)
    else
      let x := hold chain x in
      let error := if error =? 0 then match chain with Some c => ch_error c | None => 0 end else error in
      let f := aget (x_collect x) clindex in
      let! es := ring_set (ff_errors f) (ff_wi f .& fifo_mask x) error in
      let! l := ring_set (ff_array f) (ff_wi f .& fifo_mask x) chain in
      Done (0, put_fifo clindex (Fifo (Some l) (Some es) (ff_ri f) (i32 (ff_wi f + 1))) x).

(** * Collecting *)

(** The first loop of [hammer2_cluster_check]: the focus is the master's. *)
Fixpoint focus_loop (n : nat) (i : Z) (c : cluster) : outcome cluster :=
  match n with
  | O => Done c
  | S n =>
      let it := aget (cl_array c) i in
      match aget (cl_types c) i with
      | HAMMER2_PFSTYPE_MASTER | HAMMER2_PFSTYPE_SUPROOT => focus_loop n (i + 1) (set_cl_focus (ci_chain it) (ci_error it) c)
      | HAMMER2_PFSTYPE_NONE => focus_loop n (i + 1) c
      | _ => Panic
      end
  end.
(** The second one: only the first element has a chain. *)
Fixpoint check_loop (n : nat) (i key : Z) (c : cluster) : outcome unit :=
  match n with
  | O => Done tt
  | S n =>
      let chain := ci_chain (aget (cl_array c) i) in
      let! _ :=
        (if i =? 0 then
           match chain with
           | Some ch => assert! bool_decide (cl_focus c = Some ch); assert! ch_key ch =? key; Done tt
           | None => Panic
           end
         else assert! bool_decide (chain = None); Done tt) in
      check_loop n (i + 1) key c
  end.
Definition hammer2_cluster_check (c : cluster) (key flags : Z) : outcome (Z * cluster) :=
  let n := Z.to_nat (cl_nchains c) in
  let! c := focus_loop n 0 (set_cl_focus None 0 c) in
  if tst flags HAMMER2_CHECK_NULL then
    let e := if cl_error c =? 0 then HAMMER2_ERROR_ENOENT else cl_error c in
    Done (e, set_cl_focus (cl_focus c) e c)
  else
    match cl_focus c with
    | None => Done (HAMMER2_ERROR_EIO, c)
    | Some _ => let! _ := check_loop n 0 key c in Done (cl_error c, c)
    end.

(** The first loop of [hammer2_xop_collect], on element [i] again after every element
    it takes out of the ring: (lokey, keynull, state). *)
Fixpoint collect_loop (fuel : nat) (x : xhead) (i lokey keynull : Z) : outcome (Z * Z * xhead) :=
  match fuel with
  | O => Panic
  | S fuel =>
      if i <? cl_nchains (x_cluster x) then
        let it := aget (cl_array (x_cluster x)) i in
        let adv := match ci_chain it with None => true | Some c => ch_key c <? x_collect_key x end in
        if negb adv then
          match ci_chain it with
          | Some c => collect_loop fuel x (i + 1) (Z.min lokey (ch_key c)) (keynull .&~ HAMMER2_CHECK_NULL)
          | None => Panic
          end
        else
          let! x := drop_unhold (ci_chain it) x in
          let f := aget (x_collect x) i in
          if negb (ff_ri f =? ff_wi f) then
            let! chain := ring_get (ff_array f) (ff_ri f .& fifo_mask x) in
            let! error := ring_get (ff_errors f) (ff_ri f .& fifo_mask x) in
            let x := put_fifo i (Fifo (ff_array f) (ff_errors f) (i32 (ff_ri f + 1)) (ff_wi f)) x in
            let flags := if bool_decide (chain = None) then ci_flags it .| HAMMER2_CITEM_NULL else ci_flags it in
            collect_loop fuel (put_item i (Citem chain flags error) x) i lokey keynull
          else collect_loop fuel (put_item i (Citem None (ci_flags it) (ci_error it)) x) (i + 1) lokey keynull
      else Done (lokey, keynull, x)
  end.
(** Every turn takes an entry out of a ring or goes to the next element. *)
Definition ring_entries (x : xhead) : Z := fold_right (fun f n => (ff_wi f - ff_ri f) + n) 0 (x_collect x).
Definition collect_fuel (x : xhead) : nat := S (Z.to_nat (cl_nchains (x_cluster x) + ring_entries x)).

Definition hammer2_xop_collect (x : xhead) : outcome (Z * xhead) :=
  let! (lokey, keynull, x) := collect_loop (collect_fuel x) x 0 HAMMER2_KEY_MAX HAMMER2_CHECK_NULL in
  let! (error, c) := hammer2_cluster_check (x_cluster x) lokey keynull in
  let x := set_x_cluster c x in
  Done (error, set_x_collect_key (if lokey =? HAMMER2_KEY_MAX then lokey else u64 (lokey + 1)) x).

(** * Retiring *)

(** The chains of the cluster replace the ones the inode caches. *)
Fixpoint drop_refs (l : list citem) (r : gmultiset nat) : outcome (gmultiset nat) :=
  match l with
  | [] => Done r
  | Citem (Some c) _ _ :: l => assert! bool_decide (c ∈ r); drop_refs l (r ∖ {[+ c +]})
  | Citem None _ _ :: l => drop_refs l r
  end.
Fixpoint add_refs (l : list citem) (r : gmultiset nat) : gmultiset nat :=
  match l with
  | [] => r
  | Citem (Some c) _ _ :: l => add_refs l ({[+ c +]} ⊎ r)
  | Citem None _ _ :: l => add_refs l r
  end.
Definition cache_chains (x : xhead) : outcome xhead :=
  match x_ip1 x with
  | Some prior =>
      let cc := take (Z.to_nat (cl_nchains (x_cluster x))) (cl_array (x_cluster x)) in
      let! r := drop_refs prior (add_refs cc (x_refs x)) in
      Done (set_x_ip1 (Some cc) r x)
  | None => Done x
  end.
Fixpoint drop_cluster (n : nat) (i : Z) (x : xhead) : outcome xhead :=
  match n with
  | O => Done x
  | S n =>
      let it := aget (cl_array (x_cluster x)) i in
      let! x := drop_unhold (ci_chain it) x in
      drop_cluster n (i + 1) (put_item i (Citem None 0 (ci_error it)) x)
  end.
Fixpoint drain_fifo (fuel : nat) (i : Z) (x : xhead) : outcome xhead :=
  let f := aget (x_collect x) i in
  if ff_ri f =? ff_wi f then Done x
  else
    match fuel with
    | O => Panic
    | S fuel =>
        let! chain := ring_get (ff_array f) (ff_ri f .& fifo_mask x) in
        let! x := drop_unhold chain x in
        drain_fifo fuel i (put_fifo i (Fifo (ff_array f) (ff_errors f) (i32 (ff_ri f + 1)) (ff_wi f)) x)
    end.
Fixpoint drain_fifos (n : nat) (i mask : Z) (x : xhead) : outcome xhead :=
  match n with
  | O => Done x
  | S n =>
      if mask =? 0 then Done x
      else
        let! x := drain_fifo (Z.to_nat (ring_entries x)) i x in
        drain_fifos n (i + 1) (mask .&~ u32 (1 .<< i)) x
  end.
Fixpoint free_fifos (n : nat) (i : Z) (x : xhead) : outcome xhead :=
  match n with
  | O => Done x
  | S n =>
      let f := aget (x_collect x) i in
      assert! bool_decide (ff_array f = None) || (0 <? x_fifo_size x);
      assert! bool_decide (ff_errors f = None) || (0 <? x_fifo_size x);
      free_fifos n (i + 1) (put_fifo i (Fifo None None (ff_ri f) (ff_wi f)) x)
  end.
(** The dependencies of ip1..ip4 are in Ipdep. *)
Definition hammer2_xop_retire (x : xhead) (mask : Z) : outcome xhead :=
  assert! tst (x_run_mask x) mask;
  let omask := x_run_mask x in
  let x := set_x_masks (u32 (omask - mask)) (x_chk_mask x) x in
  if negb (omask .& HAMMER2_XOPMASK_ALLDONE =? mask) then Done x
  else
    let! x := cache_chains x in
    let! x := drop_cluster (Z.to_nat (cl_nchains (x_cluster x))) 0 x in
    let! x := drain_fifos 8 0 (x_chk_mask x) x in
    let! x := free_fifos (Z.to_nat (cl_nchains (x_cluster x))) 0 x in
    Done (set_x_freed x).

(** * Starting *)

(** The elements of the inode's cluster; [storage_func] is the back end, which changes
    the operation and what it works on. *)
Section start.
Context {W : Type} (storage_func : W -> xhead -> Z -> outcome (W * xhead)) (notidx : Z).

Fixpoint start_loop (l : list (option nat)) (i : Z) (w : W) (x : xhead) : outcome (W * xhead) :=
  match l with
  | [] => Done (w, x)
  | None :: l => start_loop l (i + 1) w x
  | Some _ :: l =>
      if i =? notidx then start_loop l (i + 1) w x
      else
        let mask := u32 (1 .<< i) in
        let x := set_x_masks (x_run_mask x .| mask) (x_chk_mask x .| mask) x in
        let! (w, x) :=
          if hammer2_xop_active x then storage_func w x i
          else let! (_, x) := hammer2_xop_feed x None i ECONNABORTED in Done (w, x) in
        let! x := hammer2_xop_retire x mask in
        start_loop l (i + 1) w x
  end.
Definition hammer2_xop_start_except (l : list (option nat)) (w : W) (x : xhead) : outcome (W * xhead) := start_loop l 0 w x.
End start.
Definition hammer2_xop_start {W} (storage_func : W -> xhead -> Z -> outcome (W * xhead)) (l : list (option nat)) (w : W) (x : xhead)
  : outcome (W * xhead) := start_loop storage_func (-1) l 0 w x.
End xop.
