(* ===== verification/XopProof.v ===== *)
(** The ring of a cluster operation as a queue: what [hammer2_xop_feed] puts in comes
    out of [hammer2_xop_collect] in order, and every hold is released.

    [xst] relates an operation on a cluster of one element to the list of its pending
    responses; [advance] and [scan] are the reference for the collection. *)

From Stdlib Require Import ZArith Lia Bool.
From stdpp Require Import base numbers list option gmultiset.
From S2P Require Import Prelude Disk Subr Xop.

(** A response: the chain and the error it was fed with. *)
Abbreviation response := (option nat * Z)%type.

(** * The relation *)

Definition pow2_size (n : Z) : Prop := exists k, 4 <= k <= 30 /\ n = 2 ^ k.

Definition ring_holds {A} `{Inhabited A} (l : list A) (size ri : Z) (vals : list A) : Prop :=
  alen l = size /\ forall j v, vals !! j = Some v -> aget l ((ri + Z.of_nat j) mod size) = v.

Record ring_ok (f : fifo) (size ri : Z) (pend : list response) : Prop := RingOk {
  ro_array : exists l, ff_array f = Some l /\ ring_holds l size ri (fst <$> pend);
  ro_errors : exists l, ff_errors f = Some l /\ ring_holds l size ri (snd <$> pend);
  ro_ri : ff_ri f = ri;
  ro_wi : ff_wi f = ri + alen pend;
  ro_len : alen pend <= size;
  ro_pos : 0 <= ri;
  ro_bound : ri + alen pend < 2 ^ 30
}.

Fixpoint held_by (l : list response) : gmultiset nat :=
  match l with
  | [] => ∅
  | (Some c, _) :: l => {[+ c +]} ⊎ held_by l
  | (None, _) :: l => held_by l
  end.
Definition holds_of (it : citem) (pend : list response) : gmultiset nat := held_by ((ci_chain it, 0) :: pend).

(** What the functions do not change of an operation. *)
Record xenv := Xenv { e_run : Z; e_chk : Z; e_type : Z; e_ip1 : option (list citem); e_refs : gmultiset nat }.

Record xst (x : xhead) (e : xenv) (it : citem) (key ri : Z) (pend : list response) : Prop := Xst {
  xs_ring : ring_ok (aget (x_collect x) 0) (x_fifo_size x) ri pend;
  xs_size : pow2_size (x_fifo_size x);
  xs_fifos : alen (x_collect x) = 8;
  xs_rest : forall i, 0 < i < 8 -> aget (x_collect x) i = Fifo None None 0 0;
  xs_items : alen (cl_array (x_cluster x)) = 8;
  xs_item : aget (cl_array (x_cluster x)) 0 = it;
  xs_nchains : cl_nchains (x_cluster x) = 1;
  xs_types : aget (cl_types (x_cluster x)) 0 = e_type e;
  xs_key : x_collect_key x = key;
  xs_run : x_run_mask x = e_run e;
  xs_chk : x_chk_mask x = e_chk e;
  xs_holds : x_holds x = holds_of it pend;
  xs_ip1 : x_ip1 x = e_ip1 e;
  xs_refs : x_refs x = e_refs e;
  xs_freed : x_freed x = false
}.

(** * The ring *)

Lemma pow2_size_range n : pow2_size n -> 16 <= n <= 2 ^ 30.
Proof.
  intros (k & Hk & ->). split; [|apply Z.pow_le_mono_r; lia].
  change 16 with (2 ^ 4). apply Z.pow_le_mono_r; lia.
Qed.

Lemma ring_index x i : pow2_size (x_fifo_size x) -> i .& fifo_mask x = i mod x_fifo_size x.
Proof.
  intros H. pose proof (pow2_size_range _ H). destruct H as (k & Hk & E). unfold fifo_mask.
  rewrite i32_small by lia. rewrite E, <- Z.land_ones, Z.ones_equiv by lia. reflexivity.
Qed.

Lemma alen_app_one {A} (l : list A) x : alen (l ++ [x]) = alen l + 1.
Proof. unfold alen. rewrite length_app. simpl. lia. Qed.
Lemma alen_succ {A} (x : A) l : alen (x :: l) = alen l + 1.
Proof. unfold alen. simpl. lia. Qed.
Lemma alen_ge0 {A} (l : list A) : 0 <= alen l.
Proof. unfold alen. lia. Qed.

Lemma mod_ne a b n : 0 < n -> a < b < a + n -> a mod n <> b mod n.
Proof.
  intros Hn Hab E. assert ((b - a) mod n = 0) as H0.
  { rewrite Zminus_mod, E, Z.sub_diag. apply Z.mod_0_l. lia. }
  rewrite Z.mod_small in H0; lia.
Qed.

Lemma ring_holds_snoc {A} `{Inhabited A} (l : list A) size ri vals v :
  0 < size -> alen vals < size -> ring_holds l size ri vals ->
  ring_holds (aset l ((ri + alen vals) mod size) v) size ri (vals ++ [v]).
Proof.
  intros Hs Hlt [Hl Hv]. split; [rewrite alen_aset; exact Hl|]. intros j u Hj.
  pose proof (Z.mod_pos_bound (ri + alen vals) size Hs). pose proof (Z.mod_pos_bound (ri + Z.of_nat j) size Hs).
  apply lookup_app_Some in Hj as [Hj|[Hge Hj]].
  - pose proof (lookup_lt_Some _ _ _ Hj). unfold alen in *.
    rewrite aget_aset_ne; [auto|lia|lia|]. apply not_eq_sym, mod_ne; lia.
  - apply list_lookup_singleton_Some in Hj as [Hz <-]. replace (Z.of_nat j) with (alen vals) by (unfold alen; lia).
    apply aget_aset_eq. lia.
Qed.

Lemma ring_holds_tail {A} `{Inhabited A} (l : list A) size ri v vals :
  ring_holds l size ri (v :: vals) -> aget l (ri mod size) = v /\ ring_holds l size (ri + 1) vals.
Proof.
  intros [Hl Hv]. split; [|split; [exact Hl|]].
  - specialize (Hv 0%nat v eq_refl). rewrite Z.add_0_r in Hv. exact Hv.
  - intros j u Hj. specialize (Hv (S j) u Hj). rewrite <- Hv. do 2 f_equal. lia.
Qed.

(** Doubling keeps the entries when none has been taken out. *)
Lemma ring_holds_grow {A} `{Inhabited A} (zero fill : A) l size vals :
  0 < size -> alen vals <= size -> ring_holds l size 0 vals ->
  ring_holds (grow zero fill (Some l) (size * 2) size) (size * 2) 0 vals.
Proof.
  intros Hs Hle [Hl Hv]. unfold grow. split.
  - unfold alen in *. rewrite length_app, length_replicate. lia.
  - intros j v Hj. specialize (Hv j v Hj). pose proof (lookup_lt_Some _ _ _ Hj). unfold alen in *.
    rewrite Z.mod_small in * by lia. unfold aget in *. rewrite lookup_total_app_l; [exact Hv|lia].
Qed.

Lemma pow2b_true k : 0 <= k -> pow2b (2 ^ k) = true.
Proof.
  intros Hk. unfold pow2b. apply Z.eqb_eq. rewrite Z.sub_1_r, <- Z.ones_equiv, Z.land_ones by lia.
  apply Z.mod_same. lia.
Qed.

Section feeding.
Context (ch_error : nat -> Z) (junk : option nat) (junk_error : Z).
Abbreviation feed := (hammer2_xop_feed ch_error junk junk_error).

(** * Feeding *)

Lemma fifo_alloc_grow f size pend :
  pow2_size size -> size < 2 ^ 30 -> ring_ok f size 0 pend ->
  exists f', hammer2_xop_fifo_alloc junk junk_error f (size * 2) size = Done f' /\ ring_ok f' (size * 2) 0 pend /\ pow2_size (size * 2).
Proof.
  intros Hp Hlt [(l & El & Hl) (es & Ees & Hes) Hri Hwi Hlen Hpos Hb].
  pose proof (pow2_size_range _ Hp). destruct Hp as (k & Hk & Es).
  assert (size * 2 = 2 ^ (k + 1)) as E2 by (rewrite Z.pow_add_r, <- Es by lia; lia).
  eexists. split; [|split].
  - unfold hammer2_xop_fifo_alloc. rewrite El, Ees.
    rewrite (assert_true (_ <? _)) by (apply Z.ltb_lt; lia).
    rewrite assert_true by (destruct (size =? 0) eqn:E0; [apply Z.eqb_eq in E0; lia|reflexivity]).
    rewrite assert_true by (rewrite E2; apply pow2b_true; lia).
    rewrite assert_true by (apply Z.leb_le; lia). reflexivity.
  - split; cbn [ff_array ff_errors ff_ri ff_wi]; try lia.
    + eexists. split; [reflexivity|]. apply ring_holds_grow; [lia|unfold alen in *; rewrite length_fmap; lia|exact Hl].
    + eexists. split; [reflexivity|]. apply ring_holds_grow; [lia|unfold alen in *; rewrite length_fmap; lia|exact Hes].
  - exists (k + 1). split; [|exact E2].
    assert (k < 30) by (apply (Z.pow_lt_mono_r_iff 2); lia). lia.
Qed.

Definition eff_error (r : response) : Z := if r.2 =? 0 then match r.1 with Some c => ch_error c | None => 0 end else r.2.
Definition stored (r : response) : response := (r.1, eff_error r).

Lemma held_by_snoc l r : held_by (l ++ [r]) = held_by [r] ⊎ held_by l.
Proof.
  induction l as [|[[c|] e] l IH]; [multiset_solver| |exact IH]. cbn [app held_by] in *.
  destruct r as [[d|] e']; cbn [held_by] in *; rewrite IH; multiset_solver.
Qed.

(** Growing happens at most once a call. *)
Lemma feed_grow_ok n x e it key pend :
  xst x e it key 0 pend -> tst (e_run e) HAMMER2_XOPMASK_VOP = true -> alen pend + 1 < 2 ^ 30 ->
  exists x', feed_grow junk junk_error (S n) x 0 = Done (0, x') /\ xst x' e it key 0 pend /\ alen pend < x_fifo_size x'.
Proof.
  intros [Hr Hs ??????? Hrun] Hact Hlen. pose proof Hr as [_ _ Hri Hwi Hle _ _]. pose proof (pow2_size_range _ Hs).
  pose proof (alen_ge0 pend). cbn [feed_grow]. rewrite Hri, Hwi, Z.add_0_l, i32_small by lia.
  destruct (0 =? _) eqn:Efull; [|apply Z.eqb_neq in Efull; exists x; split; [reflexivity|split; [split; assumption|lia]]].
  apply Z.eqb_eq in Efull. rewrite Hrun, Hact. cbn [negb].
  destruct (fifo_alloc_grow (aget (x_collect x) 0) (x_fifo_size x) pend Hs ltac:(lia) Hr) as (f' & Ef & Hf' & Hs').
  rewrite i32_small by lia. cbn [x_fifo_size set_x_fifo_size x_collect]. rewrite Ef. cbn [obind].
  assert (aget (x_collect (put_fifo 0 f' (set_x_fifo_size (x_fifo_size x * 2) x))) 0 = f') as Eg
    by (apply aget_aset_eq; cbn; lia).
  eexists. split; [|split].
  - destruct n; cbn [feed_grow]; rewrite Eg; destruct Hf' as [_ _ -> -> _ _ _]; cbn [x_fifo_size put_fifo set_x_collect set_x_fifo_size];
      rewrite i32_small by lia; destruct (0 =? _) eqn:E2; try reflexivity; apply Z.eqb_eq in E2; lia.
  - split; try assumption; try (cbn; assumption).
    + rewrite Eg. exact Hf'.
    + cbn. rewrite alen_aset. assumption.
    + intros i Hi. cbn. rewrite aget_aset_ne by lia. auto.
  - cbn. lia.
Qed.

Lemma ring_index_range x i : pow2_size (x_fifo_size x) -> (0 <=? i .& fifo_mask x) && (i .& fifo_mask x <? x_fifo_size x) = true.
Proof.
  intros H. rewrite ring_index by exact H. pose proof (pow2_size_range _ H).
  pose proof (Z.mod_pos_bound i (x_fifo_size x) ltac:(lia)).
  apply andb_true_intro. split; [apply Z.leb_le|apply Z.ltb_lt]; lia.
Qed.
Lemma ring_set_ok {A} `{Inhabited A} x (l : list A) i v :
  pow2_size (x_fifo_size x) -> alen l = x_fifo_size x ->
  ring_set (Some l) (i .& fifo_mask x) v = Done (aset l (i mod x_fifo_size x) v).
Proof. intros Hp E. unfold ring_set. rewrite E, assert_true by (apply ring_index_range, Hp). rewrite ring_index by exact Hp. reflexivity. Qed.
Lemma ring_get_ok {A} `{Inhabited A} x (l : list A) i :
  pow2_size (x_fifo_size x) -> alen l = x_fifo_size x ->
  ring_get (Some l) (i .& fifo_mask x) = Done (aget l (i mod x_fifo_size x)).
Proof. intros Hp E. unfold ring_get. rewrite E, assert_true by (apply ring_index_range, Hp). rewrite ring_index by exact Hp. reflexivity. Qed.

(** A response fed before anything has been collected joins the queue. *)
Lemma feed_ok x e it key pend r :
  xst x e it key 0 pend -> tst (e_run e) HAMMER2_XOPMASK_VOP = true -> alen pend + 1 < 2 ^ 30 ->
  exists x', feed x r.1 0 r.2 = Done (0, x') /\ xst x' e it key 0 (pend ++ [stored r]).
Proof.
  intros H Hact Hlen. destruct (feed_grow_ok 31 _ _ _ _ _ H Hact Hlen) as (x1 & Eg & H1 & Hroom).
  unfold hammer2_xop_feed, hammer2_xop_active. rewrite (xs_run _ _ _ _ _ _ H), Hact. cbn [negb].
  rewrite Eg. cbn [obind Z.eqb negb]. clear Eg H x. destruct H1 as [Hr Hs Hf Hre ?????? ? Hh ???].
  destruct Hr as [(l & El & Hl) (es & Ees & Hes) Hri Hwi Hle _ Hb]. pose proof (pow2_size_range _ Hs).
  set (x2 := hold r.1 x1).
  assert (x_collect x2 = x_collect x1 /\ x_fifo_size x2 = x_fifo_size x1) as [E1 E2] by (unfold x2, hold; destruct (r.1); split; reflexivity).
  rewrite E1, El, Ees, Hwi. rewrite <- E2 in Hs, Hl, Hes, Hle, Hroom.
  rewrite (ring_set_ok x2) by (assumption || apply Hes). cbn [obind].
  rewrite (ring_set_ok x2) by (assumption || apply Hl). cbn [obind].
  eexists. split; [reflexivity|]. rewrite Z.add_0_l in *. assert (0 < x_fifo_size x2) as Hpos by lia. pose proof (alen_ge0 pend).
  assert (forall B (g : response -> B), alen (g <$> pend) = alen pend) as Hmap by (intros; unfold alen; rewrite length_fmap; reflexivity).
  split; try (unfold x2, hold; destruct (r.1); cbn; assumption).
  - unfold put_fifo. cbn [x_collect set_x_collect x_fifo_size]. rewrite E1, aget_aset_eq by lia.
    split; cbn [ff_array ff_errors ff_ri ff_wi]; rewrite ?alen_app_one; try lia.
    + eexists. split; [reflexivity|]. rewrite fmap_app. pose proof (ring_holds_snoc l _ _ _ r.1 Hpos ltac:(rewrite Hmap; exact Hroom) Hl) as G. rewrite Hmap in G. exact G.
    + eexists. split; [reflexivity|]. rewrite fmap_app. pose proof (ring_holds_snoc es _ _ _ (eff_error r) Hpos ltac:(rewrite Hmap; exact Hroom) Hes) as G. rewrite Hmap in G. exact G.
    + rewrite i32_small by lia. lia.
  - cbn. rewrite alen_aset, E1. exact Hf.
  - intros i Hi. cbn. rewrite aget_aset_ne, E1 by lia. auto.
  - unfold holds_of in *. cbn [x_holds put_fifo set_x_collect]. unfold x2, hold.
    cbn [held_by] in *. rewrite held_by_snoc. unfold stored. destruct r as [[c|] er]; cbn [fst snd held_by x_holds set_x_holds]; rewrite Hh; destruct (ci_chain it); clear; multiset_solver.
Qed.

(** The back end that feeds [rs], as far as the collector is interested. *)
Fixpoint feed_all (rs : list response) (x : xhead) (clindex : Z) : outcome xhead :=
  match rs with
  | [] => Done x
  | r :: rs =>
      let! (error, x) := feed x r.1 clindex r.2 in
      if negb (error =? 0) then Done x else feed_all rs x clindex
  end.
Lemma feed_all_ok rs : forall x e it key pend,
  xst x e it key 0 pend -> tst (e_run e) HAMMER2_XOPMASK_VOP = true -> alen pend + alen rs < 2 ^ 30 ->
  exists x', feed_all rs x 0 = Done x' /\ xst x' e it key 0 (pend ++ map stored rs).
Proof.
  induction rs as [|r rs IH]; intros x e it key pend H Hact Hlen.
  - exists x. rewrite app_nil_r. split; [reflexivity|exact H].
  - rewrite alen_succ in Hlen. pose proof (alen_ge0 rs).
    destruct (feed_ok _ _ _ _ _ r H Hact ltac:(lia)) as (x1 & E1 & H1).
    destruct (IH _ _ _ _ _ H1 Hact ltac:(rewrite alen_app_one; lia)) as (x2 & E2 & H2).
    exists x2. rewrite <- app_assoc in H2. split; [|exact H2]. cbn [feed_all]. rewrite E1. exact E2.
Qed.
End feeding.

(** * Collecting *)

Lemma drop_unhold_ok c x m : x_holds x = held_by ((c, 0) :: m) -> drop_unhold c x = Done (set_x_holds (held_by m) x).
Proof.
  intros H. destruct c as [c|]; cbn [drop_unhold held_by] in *.
  - rewrite H. rewrite assert_true by (apply bool_decide_eq_true; multiset_solver). do 2 f_equal. multiset_solver.
  - destruct x; cbn in *; subst; reflexivity.
Qed.

Section collecting.
Context (ch_key : nat -> Z).
Abbreviation collect := (hammer2_xop_collect ch_key).

(** The element stays when its key has been reached; otherwise the next response
    replaces it, and at the end of the queue its chain is dropped. *)
Definition fresh (key : Z) (it : citem) : bool := match ci_chain it with Some c => key <=? ch_key c | None => false end.
Definition load (r : response) (it : citem) : citem :=
  Citem r.1 (if bool_decide (r.1 = None) then ci_flags it .| HAMMER2_CITEM_NULL else ci_flags it) r.2.
Fixpoint advance (key : Z) (it : citem) (pend : list response) : citem * list response :=
  if fresh key it then (it, pend)
  else
    match pend with
    | [] => (Citem None (ci_flags it) (ci_error it), [])
    | r :: pend => advance key (load r it) pend
    end.


(** One turn of the loop on a state whose element has been dropped. *)
Lemma take_one x e it key ri r pend :
  xst x e it key ri (r :: pend) ->
  xst (put_item 0 (load r it) (put_fifo 0 (Fifo (ff_array (aget (x_collect x) 0)) (ff_errors (aget (x_collect x) 0))
         (i32 (ri + 1)) (ff_wi (aget (x_collect x) 0))) (set_x_holds (held_by (r :: pend)) x))) e (load r it) key (ri + 1) pend.
Proof.
  intros [[(l & El & Hl) (es & Ees & Hes) Hri Hwi Hle Hpos Hb] Hs Hf Hre Hit ????????].
  pose proof (alen_ge0 pend). rewrite alen_succ in *. cbn [fmap list_fmap] in *.
  apply ring_holds_tail in Hl as [_ Hl], Hes as [_ Hes].
  split; try (cbn; assumption); cbn [x_collect put_item put_fifo set_x_collect set_x_holds x_fifo_size set_x_cluster x_cluster cl_array set_cl_array].
  - rewrite aget_aset_eq by lia. split; cbn [ff_array ff_errors ff_ri ff_wi]; try lia; eauto.
    apply i32_small. lia.
  - rewrite alen_aset. exact Hf.
  - intros i Hi. rewrite aget_aset_ne by lia. auto.
  - rewrite alen_aset. exact Hit.
  - apply aget_aset_eq. lia.
  - cbn. destruct r as [[c|] er]; reflexivity.
Qed.
Lemma empty_item x e it key ri pend :
  xst x e it key ri pend ->
  xst (put_item 0 (Citem None (ci_flags it) (ci_error it)) (set_x_holds (held_by pend) x)) e (Citem None (ci_flags it) (ci_error it)) key ri pend.
Proof.
  intros [? ? ? ? Hit ????????]. split; try (cbn; assumption); cbn [x_cluster put_item set_x_cluster set_x_holds cl_array set_cl_array].
  - rewrite alen_aset. exact Hit.
  - apply aget_aset_eq. lia.
  - reflexivity.
Qed.

Definition lokey_of (it : citem) : Z := match ci_chain it with Some c => Z.min HAMMER2_KEY_MAX (ch_key c) | None => HAMMER2_KEY_MAX end.
Definition keynull_of (it : citem) : Z := match ci_chain it with Some _ => 0 | None => HAMMER2_CHECK_NULL end.

Abbreviation loop := (collect_loop ch_key).

Lemma loop_done n x lo kn : cl_nchains (x_cluster x) = 1 -> loop (S n) x 1 lo kn = Done (lo, kn, x).
Proof. intros E. cbn [collect_loop]. rewrite E. reflexivity. Qed.

Lemma adv_fresh key it : match ci_chain it with None => true | Some c => ch_key c <? key end = negb (fresh key it).
Proof. unfold fresh. destruct (ci_chain it); [|reflexivity]. rewrite Z.leb_antisym. symmetry. apply negb_involutive. Qed.

Lemma loop_fresh n x e it key ri pend :
  xst x e it key ri pend -> fresh key it = true ->
  loop (S (S n)) x 0 HAMMER2_KEY_MAX HAMMER2_CHECK_NULL = Done (lokey_of it, keynull_of it, x).
Proof.
  intros H Hf. cbn [collect_loop]. rewrite (xs_nchains _ _ _ _ _ _ H), (xs_item _ _ _ _ _ _ H), (xs_key _ _ _ _ _ _ H), adv_fresh, Hf.
  unfold fresh in Hf. unfold lokey_of, keynull_of. destruct (ci_chain it); [|discriminate Hf]. reflexivity.
Qed.

Lemma loop_take n x e it key ri r pend lo kn :
  xst x e it key ri (r :: pend) -> fresh key it = false ->
  exists x', loop (S n) x 0 lo kn = loop n x' 0 lo kn /\ xst x' e (load r it) key (ri + 1) pend.
Proof.
  intros H Hf. eexists. split; [|exact (take_one _ _ _ _ _ _ _ H)].
  pose proof (drop_unhold_ok _ _ _ (xs_holds _ _ _ _ _ _ H)) as Ed.
  destruct (xs_ring _ _ _ _ _ _ H) as [(l & El & Hl) (es & Ees & Hes) Hri Hwi _ _ _].
  pose proof (alen_ge0 pend). rewrite alen_succ in Hwi. pose proof (xs_size _ _ _ _ _ _ H) as Hs.
  cbn [collect_loop]. rewrite (xs_nchains _ _ _ _ _ _ H), (xs_item _ _ _ _ _ _ H), (xs_key _ _ _ _ _ _ H), adv_fresh, Hf.
  cbn [Z.ltb Z.compare negb]. rewrite Ed. cbn [obind x_collect set_x_holds]. rewrite Hri.
  destruct (ri =? _) eqn:E; [apply Z.eqb_eq in E; lia|]. cbn [negb]. rewrite El, Ees.
  rewrite (ring_get_ok (set_x_holds _ x)) by (exact Hs || apply Hl). cbn [obind].
  rewrite (ring_get_ok (set_x_holds _ x)) by (exact Hs || apply Hes). cbn [obind].
  apply ring_holds_tail in Hl as [E1 _], Hes as [E2 _]. cbn [x_fifo_size set_x_holds]. rewrite E1, E2. reflexivity.
Qed.

Lemma loop_empty n x e it key ri :
  xst x e it key ri [] -> fresh key it = false ->
  exists x', loop (S (S n)) x 0 HAMMER2_KEY_MAX HAMMER2_CHECK_NULL = Done (HAMMER2_KEY_MAX, HAMMER2_CHECK_NULL, x')
    /\ xst x' e (Citem None (ci_flags it) (ci_error it)) key ri [].
Proof.
  intros H Hf. eexists. split; [|exact (empty_item _ _ _ _ _ _ H)].
  destruct (xs_ring _ _ _ _ _ _ H) as [_ _ Hri Hwi _ _ _]. change (alen []) with 0 in Hwi.
  cbn [collect_loop]. rewrite (xs_nchains _ _ _ _ _ _ H), (xs_item _ _ _ _ _ _ H), (xs_key _ _ _ _ _ _ H), adv_fresh, Hf.
  cbn [Z.ltb Z.compare negb]. rewrite (drop_unhold_ok _ _ _ (xs_holds _ _ _ _ _ _ H)). cbn [obind x_collect set_x_holds].
  rewrite Hri, Hwi, Z.add_0_r, Z.eqb_refl. cbn [negb].
  apply loop_done, (xs_nchains _ _ _ _ _ _ H).
Qed.

Lemma collect_loop_ok pend : forall fuel x e it key ri,
  xst x e it key ri pend -> (length pend + 2 <= fuel)%nat ->
  exists x' ri', loop fuel x 0 HAMMER2_KEY_MAX HAMMER2_CHECK_NULL
      = Done (lokey_of (advance key it pend).1, keynull_of (advance key it pend).1, x')
    /\ xst x' e (advance key it pend).1 key ri' (advance key it pend).2.
Proof.
  induction pend as [|r pend IH]; intros fuel x e it key ri H Hfuel; (destruct fuel as [|[|fuel]]; [simpl in Hfuel; lia..|]);
    cbn [advance]; destruct (fresh key it) eqn:Hf; cbn [fst snd].
  - exists x, ri. split; [exact (loop_fresh _ _ _ _ _ _ _ H Hf)|exact H].
  - destruct (loop_empty fuel _ _ _ _ _ H Hf) as (x' & E & H'). exists x', ri. split; [exact E|exact H'].
  - exists x, ri. split; [exact (loop_fresh _ _ _ _ _ _ _ H Hf)|exact H].
  - destruct (loop_take (S fuel) _ _ _ _ _ _ _ HAMMER2_KEY_MAX HAMMER2_CHECK_NULL H Hf) as (x1 & E & H1).
    destruct (IH (S fuel) _ _ _ _ _ H1 ltac:(simpl in Hfuel; lia)) as (x' & ri' & E' & H'). exists x', ri'. rewrite E. split; [exact E'|exact H'].
Qed.

(** The value of a call and the key of the next one. *)
Definition verdict (it : citem) : Z :=
  match ci_chain it with Some _ => ci_error it | None => if ci_error it =? 0 then HAMMER2_ERROR_ENOENT else ci_error it end.
Definition next_key (it : citem) : Z :=
  match ci_chain it with Some c => if ch_key c =? HAMMER2_KEY_MAX then HAMMER2_KEY_MAX else ch_key c + 1 | None => HAMMER2_KEY_MAX end.

Definition master_type (t : Z) : Prop := t = HAMMER2_PFSTYPE_MASTER \/ t = HAMMER2_PFSTYPE_SUPROOT.
Definition key_of_ok (it : citem) : Prop := forall c, ci_chain it = Some c -> 0 <= ch_key c <= HAMMER2_KEY_MAX.

Lemma cluster_check_ok x e it key ri pend :
  key_of_ok it -> master_type (e_type e) -> xst x e it key ri pend ->
  exists c, hammer2_cluster_check ch_key (x_cluster x) (lokey_of it) (keynull_of it) = Done (verdict it, c)
    /\ c = Cluster (cl_array (x_cluster x)) (cl_types (x_cluster x)) (ci_chain it) 1 (verdict it).
Proof.
  intros Hk Ht H. eexists. split; [|reflexivity]. unfold hammer2_cluster_check, verdict, lokey_of, keynull_of.
  pose proof (xs_nchains _ _ _ _ _ _ H) as Hn. rewrite Hn. change (Z.to_nat 1) with 1%nat.
  assert (focus_loop 1 0 (set_cl_focus None 0 (x_cluster x)) = Done (set_cl_focus (ci_chain it) (ci_error it) (x_cluster x))) as ->.
  { cbn [focus_loop set_cl_focus cl_types cl_array]. rewrite (xs_types _ _ _ _ _ _ H), (xs_item _ _ _ _ _ _ H).
    destruct Ht as [-> | ->]; reflexivity. }
  cbn [obind cl_focus cl_error set_cl_focus]. destruct (ci_chain it) as [ch|] eqn:Ec.
  - replace (tst 0 HAMMER2_CHECK_NULL) with false by reflexivity. cbn [check_loop cl_array set_cl_focus].
    rewrite (xs_item _ _ _ _ _ _ H), Ec. cbn [Z.eqb obind cl_focus set_cl_focus]. rewrite assert_true by (apply bool_decide_eq_true; reflexivity).
    specialize (Hk ch Ec). rewrite Z.min_r by lia. rewrite assert_true by (apply Z.eqb_refl).
    cbn [obind]. unfold set_cl_focus. rewrite Hn. reflexivity.
  - unfold set_cl_focus. rewrite Hn. reflexivity.
Qed.

Lemma ring_entries_eq x e it key ri pend : xst x e it key ri pend -> ring_entries x = alen pend.
Proof.
  intros [[_ _ Hri Hwi _ _ _] _ Hf Hre _ _ _ _ _ _ _ _ _ _ _]. unfold ring_entries.
  destruct (x_collect x) as [|f l] eqn:E; [discriminate Hf|]. change (aget (f :: l) 0) with f in *. cbn [fold_right].
  rewrite Hri, Hwi. enough (fold_right (fun f n => ff_wi f - ff_ri f + n) 0 l = 0) as -> by lia.
  assert (forall g, g ∈ l -> ff_wi g - ff_ri g = 0) as Hz.
  { intros g Hg. apply list_elem_of_lookup in Hg as (j & Hj). pose proof (lookup_lt_Some _ _ _ Hj). rewrite alen_succ in Hf. unfold alen in Hf.
    specialize (Hre (Z.of_nat (S j)) ltac:(lia)). unfold aget in Hre. rewrite Nat2Z.id, (list_lookup_total_correct (f :: l) (S j) g Hj) in Hre. rewrite Hre. reflexivity. }
  clear - Hz. induction l as [|g l IH]; [reflexivity|]. cbn [fold_right]. rewrite IH by (intros; apply Hz; right; assumption).
  rewrite Hz by left. reflexivity.
Qed.

Lemma collect_ok x e it key ri pend :
  key_of_ok (advance key it pend).1 -> master_type (e_type e) -> xst x e it key ri pend ->
  let it' := (advance key it pend).1 in
  exists x' ri', collect x = Done (verdict it', x') /\ xst x' e it' (next_key it') ri' (advance key it pend).2
    /\ cl_focus (x_cluster x') = ci_chain it'.
Proof.
  intros Hk Ht H it'. unfold hammer2_xop_collect, collect_fuel.
  rewrite (ring_entries_eq _ _ _ _ _ _ H), (xs_nchains _ _ _ _ _ _ H).
  destruct (collect_loop_ok pend (S (Z.to_nat (1 + alen pend))) _ _ _ _ _ H ltac:(unfold alen; lia)) as (x1 & ri' & E1 & H1).
  rewrite E1. cbn [obind]. fold it' in Hk, H1 |- *.
  destruct (cluster_check_ok _ _ _ _ _ _ Hk Ht H1) as (c & Ec & Hc). rewrite Ec. cbn [obind].
  eexists _, ri'. split; [reflexivity|]. split; [|rewrite Hc; reflexivity].
  rewrite Hc. destruct H1. split; try (cbn; assumption); [reflexivity|].
  cbn [x_collect_key set_x_collect_key]. unfold lokey_of, next_key. destruct (ci_chain it') as [ch|] eqn:Ech; [|reflexivity].
  specialize (Hk ch Ech). rewrite Z.min_r by lia. destruct (ch_key ch =? HAMMER2_KEY_MAX) eqn:E; [apply Z.eqb_eq, E|].
  apply Z.eqb_neq in E. apply u64_small. lia.
Qed.
End collecting.
