(* ===== verification/XopTheorems.v ===== *)
(** Cluster operations as their users see them: what is collected is what was fed, in
    key order, however many responses there are, and an operation leaves nothing held. *)

From Stdlib Require Import ZArith Lia Bool Sorted.
From stdpp Require Import base numbers list option gmultiset.
From S2P Require Import Prelude Disk Subr Xop XopProof.

Section session.
Context (ch_key ch_error : nat -> Z) (junk : option nat) (junk_error ECONNABORTED : Z).
Abbreviation collect := (hammer2_xop_collect ch_key).
Abbreviation start := (hammer2_xop_start ch_error junk junk_error ECONNABORTED).

(** * An operation from beginning to end *)

(** The front end collects until there is an error and uses the chains it was given. *)
Fixpoint frontend (fuel : nat) (x : xhead) : outcome (list nat * Z * xhead) :=
  match fuel with
  | O => Panic
  | S fuel =>
      let! (error, x) := collect x in
      if negb (error =? 0) then Done ([], error, x)
      else
        match cl_focus (x_cluster x) with
        | Some c => let! (l, error, x) := frontend fuel x in Done (c :: l, error, x)
        | None => Panic
        end
  end.

Definition session (types : list Z) (cc : list citem) (refs : gmultiset nat) (ichain : nat) (rs : list response)
  : outcome (list nat * Z * xhead) :=
  let! x := hammer2_xop_alloc junk junk_error 1 types cc refs in
  let! (_, x) := start (fun _ x i => let! x := feed_all ch_error junk junk_error rs x i in Done (tt, x)) [Some ichain] tt x in
  let! (seen, error, x) := frontend (S (length rs)) x in
  let! x := hammer2_xop_retire x HAMMER2_XOPMASK_VOP in
  Done (seen, error, x).

(** The reference: chains whose key has been passed are skipped, the scan ends with the
    first error, or with the error of the last response taken (ENOENT for none). *)
Fixpoint scan (key last : Z) (rs : list response) : list nat * Z :=
  match rs with
  | [] => ([], if last =? 0 then HAMMER2_ERROR_ENOENT else last)
  | (None, error) :: rs => scan key error rs
  | (Some c, error) :: rs =>
      if ch_key c <? key then scan key error rs
      else if error =? 0 then let '(l, e) := scan (ch_key c + 1) 0 rs in (c :: l, e)
      else ([], error)
  end.

(** * Lemmas *)

Lemma scan_advance rs : forall key it,
  fresh ch_key key it = false ->
  let it' := (advance ch_key key it rs).1 in
  scan key (ci_error it) rs =
    match ci_chain it' with
    | Some c => if ci_error it' =? 0 then (c :: (scan (ch_key c + 1) 0 (advance ch_key key it rs).2).1, (scan (ch_key c + 1) 0 (advance ch_key key it rs).2).2)
                else ([], ci_error it')
    | None => ([], verdict it')
    end.
Proof.
  induction rs as [|[ch er] rs IH]; intros key it Hf; cbn [advance]; rewrite Hf; [reflexivity|].
  destruct (fresh ch_key key (load (ch, er) it)) eqn:Hl.
  - assert (advance ch_key key (load (ch, er) it) rs = (load (ch, er) it, rs)) as -> by (destruct rs; cbn [advance]; rewrite Hl; reflexivity).
    unfold fresh, load in Hl. cbn [ci_chain fst] in Hl. destruct ch as [c|]; [|discriminate Hl].
    cbn [fst snd ci_chain load ci_error scan]. rewrite Z.ltb_antisym, Hl. cbn [negb]. destruct (er =? 0); [|reflexivity].
    destruct (scan _ _ _); reflexivity.
  - specialize (IH key _ Hl). cbn zeta in IH. rewrite <- IH.
    unfold fresh, load in Hl. cbn [ci_chain fst] in Hl. destruct ch as [c|]; cbn [scan load ci_error snd]; [|reflexivity].
    rewrite Z.ltb_antisym, Hl. reflexivity.
Qed.

Lemma advance_shorter rs : forall key it c,
  fresh ch_key key it = false -> ci_chain (advance ch_key key it rs).1 = Some c ->
  (length (advance ch_key key it rs).2 < length rs)%nat.
Proof.
  induction rs as [|r rs IH]; intros key it c Hf; cbn [advance]; rewrite Hf; [discriminate|]. intros Hc.
  destruct (fresh ch_key key (load r it)) eqn:Hl.
  - destruct rs; cbn [advance]; rewrite Hl; simpl; lia.
  - specialize (IH _ _ _ Hl Hc). simpl. lia.
Qed.

(** The chains of the responses have keys below KEY_MAX. *)
Definition keys_below_max (rs : list response) : Prop :=
  Forall (fun r : response => match r.1 with Some c => 0 <= ch_key c < HAMMER2_KEY_MAX | None => True end) rs.

Lemma advance_keys rs : forall key it,
  fresh ch_key key it = false -> keys_below_max rs ->
  keys_below_max (advance ch_key key it rs).2 /\ forall c, ci_chain (advance ch_key key it rs).1 = Some c -> 0 <= ch_key c < HAMMER2_KEY_MAX.
Proof.
  induction rs as [|r rs IH]; intros key it Hf Hk; cbn [advance]; rewrite Hf.
  - split; [exact Hk|discriminate].
  - apply Forall_cons_1 in Hk as [Hr Hk]. destruct (fresh ch_key key (load r it)) eqn:Hl; [|exact (IH _ _ Hl Hk)].
    assert (advance ch_key key (load r it) rs = (load r it, rs)) as -> by (destruct rs; cbn [advance]; rewrite Hl; reflexivity).
    split; [exact Hk|]. cbn [fst load ci_chain]. intros c Hc. rewrite Hc in Hr. exact Hr.
Qed.

Lemma frontend_ok fuel : forall x e it key ri pend,
  keys_below_max pend -> master_type (e_type e) -> fresh ch_key key it = false -> (length pend < fuel)%nat ->
  xst x e it key ri pend ->
  exists x' it' key' ri' pend', frontend fuel x = Done ((scan key (ci_error it) pend).1, (scan key (ci_error it) pend).2, x')
    /\ xst x' e it' key' ri' pend'.
Proof.
  induction fuel as [|fuel IH]; intros x e it key ri pend Hk Ht Hf Hfuel H; [lia|].
  destruct (advance_keys _ _ _ Hf Hk) as [Hk1 Hkc].
  destruct (collect_ok ch_key x e it key ri pend ltac:(intros c Hc; specialize (Hkc c Hc); lia) Ht H) as (x1 & ri1 & E & H1 & Hc).
  cbn [frontend]. rewrite E. cbn [obind]. rewrite (scan_advance pend key it Hf). cbn zeta.
  set (it1 := (advance ch_key key it pend).1) in *. unfold verdict. destruct (ci_chain it1) as [c|] eqn:Ec.
  - destruct (ci_error it1 =? 0) eqn:Ee; cbn [negb fst snd].
    + rewrite Hc. pose proof (advance_shorter _ _ _ _ Hf Ec). specialize (Hkc c eq_refl).
      assert (next_key ch_key it1 = ch_key c + 1) as Hnk by (unfold next_key; rewrite Ec; destruct (ch_key c =? _) eqn:Em; [apply Z.eqb_eq in Em; lia|reflexivity]).
      rewrite Hnk in H1. apply Z.eqb_eq in Ee. assert (length (advance ch_key key it pend).2 < fuel)%nat as Hless by lia.
      assert (fresh ch_key (ch_key c + 1) it1 = false) as Hf1 by (unfold fresh; rewrite Ec; apply Z.leb_gt; lia).
      destruct (IH _ _ _ _ _ _ Hk1 Ht Hf1 Hless H1) as (x' & it' & key' & ri' & pend' & E' & H').
      rewrite Ee in E'. exists x', it', key', ri', pend'. rewrite E'. split; [reflexivity|exact H'].
    + exists x1, it1, (next_key ch_key it1), ri1, (advance ch_key key it pend).2. split; [reflexivity|exact H1].
  - assert (((if ci_error it1 =? 0 then HAMMER2_ERROR_ENOENT else ci_error it1) =? 0) = false) as -> by (destruct (ci_error it1 =? 0) eqn:E0; [reflexivity|exact E0]).
    cbn [negb fst snd]. do 5 eexists. split; [reflexivity|exact H1].
Qed.

(** * Retiring *)

Lemma retire_backend x e it key ri pend :
  xst x e it key ri pend -> e_run e = HAMMER2_XOPMASK_VOP .| 1 ->
  exists x', hammer2_xop_retire x 1 = Done x' /\ xst x' (Xenv HAMMER2_XOPMASK_VOP (e_chk e) (e_type e) (e_ip1 e) (e_refs e)) it key ri pend.
Proof.
  intros H Hr. unfold hammer2_xop_retire. rewrite (xs_run _ _ _ _ _ _ H), Hr.
  rewrite assert_true by reflexivity. cbn [negb]. eexists. split; [reflexivity|]. destruct H. split; try (cbn; assumption). reflexivity.
Qed.

Definition refs_of (l : list citem) : gmultiset nat := held_by (map (fun it => (ci_chain it, 0)) l).
Lemma add_refs_ok l : forall r, add_refs l r = refs_of l ⊎ r.
Proof using.
  unfold refs_of. induction l as [|[[c|] f e] l IH]; intros r; cbn [add_refs map held_by ci_chain]; rewrite ?IH; clear; multiset_solver.
Qed.
Lemma drop_refs_ok l : forall r, drop_refs l (r ⊎ refs_of l) = Done r.
Proof using.
  unfold refs_of. induction l as [|[[c|] f e] l IH]; intros r; cbn [drop_refs map held_by ci_chain].
  - f_equal. clear. multiset_solver.
  - rewrite assert_true by (apply bool_decide_eq_true; clear; multiset_solver).
    etransitivity; [|exact (IH r)]. f_equal. clear. multiset_solver.
  - exact (IH r).
Qed.

(** The draining loop: [same] is what it and the cleanup of the cluster leave alone. *)
Definition same (x x' : xhead) : Prop :=
  x_cluster x' = x_cluster x /\ x_ip1 x' = x_ip1 x /\ x_refs x' = x_refs x /\ x_fifo_size x' = x_fifo_size x
  /\ x_chk_mask x' = x_chk_mask x.

Lemma drain_ok pend : forall x ri,
  ring_ok (aget (x_collect x) 0) (x_fifo_size x) ri pend -> pow2_size (x_fifo_size x) -> alen (x_collect x) = 8 ->
  x_holds x = held_by pend ->
  exists x', drain_fifo (length pend) 0 x = Done x' /\ x_holds x' = ∅ /\ same x x'.
Proof.
  induction pend as [|[ch er] pend IH]; intros x ri [(l & El & Hl) (es & Ees & Hes) Hri Hwi Hle Hpos Hb] Hs Hc Hh.
  - change (alen []) with 0 in Hwi. cbn [drain_fifo length]. rewrite Hri, Hwi, Z.add_0_r, Z.eqb_refl.
    exists x. repeat split. exact Hh.
  - rewrite alen_succ in *. pose proof (alen_ge0 pend). cbn [drain_fifo length]. rewrite Hri, Hwi.
    destruct (ri =? _) eqn:E; [apply Z.eqb_eq in E; lia|]. rewrite El, (ring_get_ok x) by (exact Hs || apply Hl).
    cbn [fmap list_fmap] in Hl, Hes. apply ring_holds_tail in Hl as [Eh Hl], Hes as [_ Hes]. cbn [fst] in Eh. cbn [obind]. rewrite Eh.
    assert (x_holds x = held_by ((ch, 0) :: pend)) as Hh' by exact Hh. rewrite (drop_unhold_ok _ _ _ Hh'). cbn [obind].
    edestruct IH with (ri := ri + 1) as (x' & E' & H1 & H2);
      [..|exists x'; split; [exact E'|split; [exact H1|exact H2]]]; try exact Hs; try reflexivity.
    + cbn [x_collect put_fifo set_x_collect x_fifo_size set_x_holds]. rewrite aget_aset_eq by lia.
      split; cbn [ff_array ff_errors ff_ri ff_wi]; try lia; eauto. apply i32_small. lia.
    + cbn. rewrite alen_aset. exact Hc.
Qed.

Lemma free_one x : 0 < x_fifo_size x -> exists x', free_fifos 1 0 x = Done x' /\ x_holds x' = x_holds x /\ same x x'.
Proof.
  intros H. apply Z.ltb_lt in H. cbn [free_fifos]. rewrite H, !orb_true_r. eexists. split; [reflexivity|]. repeat split.
Qed.

Lemma take_one_item (l : list citem) it : alen l = 8 -> aget l 0 = it -> take (Z.to_nat 1) l = [it].
Proof. destruct l; [discriminate|]. intros _ <-. reflexivity. Qed.

Lemma retire_frontend x e it key ri pend cc :
  xst x e it key ri pend -> e_run e = HAMMER2_XOPMASK_VOP -> e_chk e = 1 -> e_ip1 e = Some cc -> e_refs e = refs_of cc ->
  exists x', hammer2_xop_retire x HAMMER2_XOPMASK_VOP = Done x' /\ x_freed x' = true /\ x_holds x' = ∅
    /\ x_ip1 x' = Some [it] /\ x_refs x' = refs_of [it].
Proof using.
  intros H Hr Hchk Hcc Hrefs. unfold hammer2_xop_retire. rewrite (xs_run _ _ _ _ _ _ H), Hr, assert_true by reflexivity.
  replace (negb (_ .& HAMMER2_XOPMASK_ALLDONE =? _)) with false by reflexivity. unfold cache_chains. cbn [x_ip1 set_x_masks x_cluster x_refs].
  rewrite (xs_ip1 _ _ _ _ _ _ H), Hcc, (xs_nchains _ _ _ _ _ _ H), (take_one_item _ it) by apply H.
  rewrite add_refs_ok, (xs_refs _ _ _ _ _ _ H), Hrefs, drop_refs_ok. cbn [obind x_cluster set_x_ip1 set_x_masks].
  rewrite (xs_nchains _ _ _ _ _ _ H). change (Z.to_nat 1) with 1%nat. cbn [drop_cluster set_x_ip1 set_x_masks x_cluster]. rewrite (xs_item _ _ _ _ _ _ H).
  pose proof (xs_holds _ _ _ _ _ _ H) as Hh.
  rewrite (drop_unhold_ok _ (set_x_ip1 _ _ (set_x_masks _ _ x)) _ Hh). cbn [obind].
  set (x1 := put_item _ _ _).
  assert (ring_entries x1 = alen pend) as Hn by exact (ring_entries_eq _ _ _ _ _ _ H).
  destruct (drain_ok pend x1 ri) as (x2 & E2 & Hz & Hsame); try apply H; [reflexivity|].
  cbn [drain_fifos]. change (x_chk_mask x1) with (x_chk_mask x). rewrite (xs_chk _ _ _ _ _ _ H), Hchk. cbn [Z.eqb].
  rewrite Hn. unfold alen at 1. rewrite Nat2Z.id, E2. cbn [obind]. replace (1 .&~ u32 (1 .<< 0)) with 0 by reflexivity. cbn [Z.eqb obind].
  destruct Hsame as (S1 & S2 & S3 & S4 & _).
  rewrite S1. change (cl_nchains (x_cluster x1)) with (cl_nchains (x_cluster x)). rewrite (xs_nchains _ _ _ _ _ _ H). change (Z.to_nat 1) with 1%nat.
  destruct (free_one x2) as (x3 & E3 & Hz3 & _ & T2 & T3 & _).
  { rewrite S4. change (x_fifo_size x1) with (x_fifo_size x). pose proof (pow2_size_range _ (xs_size _ _ _ _ _ _ H)). lia. }
  rewrite E3. cbn [obind]. eexists. split; [reflexivity|]. cbn [x_freed set_x_freed x_holds x_ip1 x_refs].
  rewrite Hz3, Hz, T2, T3, S2, S3. repeat split.
Qed.

(** * Starting *)

Definition env0 (run chk : Z) (types : list Z) (cc : list citem) : xenv := Xenv run chk (aget types 0) (Some cc) (refs_of cc).

Lemma xop_alloc_ok types cc :
  exists x, hammer2_xop_alloc junk junk_error 1 types cc (refs_of cc) = Done x
    /\ xst x (env0 HAMMER2_XOPMASK_VOP 0 types cc) (Citem None 0 0) 0 0 [].
Proof.
  eexists. split; [reflexivity|]. split; try reflexivity.
  - split; try reflexivity; try (unfold alen; simpl; lia); eexists; (split; [reflexivity|split; [reflexivity|intros j v Hj; discriminate Hj]]).
  - exists 4. split; [lia|reflexivity].
  - intros i Hi. assert (i = 1 \/ i = 2 \/ i = 3 \/ i = 4 \/ i = 5 \/ i = 6 \/ i = 7) as Hc by lia.
    repeat destruct Hc as [-> | Hc]; subst; reflexivity.
Qed.

(** Any back end that leaves the responses [pend] behind. *)
Lemma start_ok {W} (f : W -> xhead -> Z -> outcome (W * xhead)) w w' x types cc ichain pend :
  (forall x1, xst x1 (env0 (HAMMER2_XOPMASK_VOP .| 1) 1 types cc) (Citem None 0 0) 0 0 [] ->
     exists x2, f w x1 0 = Done (w', x2) /\ xst x2 (env0 (HAMMER2_XOPMASK_VOP .| 1) 1 types cc) (Citem None 0 0) 0 0 pend) ->
  xst x (env0 HAMMER2_XOPMASK_VOP 0 types cc) (Citem None 0 0) 0 0 [] ->
  exists x', start f [Some ichain] w x = Done (w', x')
    /\ xst x' (env0 HAMMER2_XOPMASK_VOP 1 types cc) (Citem None 0 0) 0 0 pend.
Proof.
  intros Hf H. unfold hammer2_xop_start. cbn [start_loop]. change (u32 (1 .<< 0)) with 1.
  replace (0 =? -1) with false by reflexivity.
  set (x1 := set_x_masks _ _ x).
  assert (xst x1 (env0 (HAMMER2_XOPMASK_VOP .| 1) 1 types cc) (Citem None 0 0) 0 0 []) as H1.
  { unfold x1. pose proof (xs_run _ _ _ _ _ _ H) as E1. pose proof (xs_chk _ _ _ _ _ _ H) as E2. rewrite E1, E2.
    destruct H. split; try (cbn; assumption); reflexivity. }
  unfold hammer2_xop_active. rewrite (xs_run _ _ _ _ _ _ H1). replace (tst _ _) with true by reflexivity.
  destruct (Hf _ H1) as (x2 & E2 & H2).
  rewrite E2. cbn [obind]. destruct (retire_backend _ _ _ _ _ _ H2 eq_refl) as (x3 & E3 & H3).
  rewrite E3. exists x3. split; [reflexivity|exact H3].
Qed.

(** The scan of responses in key order is everything there is. *)
Lemma scan_sorted cs final : forall key,
  Forall (fun c => ch_error c = 0) cs -> Forall (fun c => key <= ch_key c) cs -> StronglySorted (fun c d => ch_key c < ch_key d) cs ->
  scan key 0 (map (stored ch_error) (map (fun c => (Some c, 0)) cs ++ [(None, final)]))
    = (cs, if final =? 0 then HAMMER2_ERROR_ENOENT else final).
Proof.
  induction cs as [|c cs IH]; intros key He Hk Hs.
  - cbn [map app scan]. unfold stored, eff_error. cbn [fst snd]. destruct (final =? 0) eqn:E; cbn [scan]; [reflexivity|]. rewrite E. reflexivity.
  - inversion He as [|? ? Hec Hes]; inversion Hk as [|? ? Hkc _]; subst. apply StronglySorted_inv in Hs as [Hs Hlt].
    cbn [map app]. unfold stored at 1, eff_error at 1. cbn [fst snd Z.eqb scan]. rewrite Hec.
    destruct (ch_key c <? key) eqn:E; [apply Z.ltb_lt in E; lia|]. cbn [Z.eqb].
    rewrite IH; [reflexivity|exact Hes| |exact Hs]. eapply Forall_impl; [|exact Hlt]. cbn. lia.
Qed.

(** C26. A cluster operation from [hammer2_xop_alloc] to [hammer2_xop_retire] never
    aborts, whatever chains and errors the back end feeds (fewer than 2^30 of them): the
    front end sees exactly the chains the reference [scan] selects, ends with the error
    [scan] names, and at the end no chain is held, the operation is freed and the inode
    caches the references of the last element only.  Responses in increasing key order
    are all seen, in that order, and end with ENOENT or the back end's final error. *)
Theorem xop_session types cc ichain rs :
  keys_below_max rs -> master_type (aget types 0) -> alen rs < 2 ^ 30 ->
  (exists x it, session types cc (refs_of cc) ichain rs
       = Done ((scan 0 0 (map (stored ch_error) rs)).1, (scan 0 0 (map (stored ch_error) rs)).2, x)
     /\ x_freed x = true /\ x_holds x = ∅ /\ x_ip1 x = Some [it] /\ x_refs x = refs_of [it]) /\
  (forall cs final, rs = map (fun c => (Some c, 0)) cs ++ [(None, final)] ->
     Forall (fun c => ch_error c = 0) cs -> StronglySorted (fun c d => ch_key c < ch_key d) cs ->
     exists x, session types cc (refs_of cc) ichain rs = Done (cs, if final =? 0 then HAMMER2_ERROR_ENOENT else final, x)).
Proof.
  intros Hk Ht Hlen. match goal with |- ?G /\ _ => assert G as Hmain end.
  { destruct (xop_alloc_ok types cc) as (x0 & E0 & H0).
    destruct (start_ok (fun _ x i => let! x := feed_all ch_error junk junk_error rs x i in Done (tt, x)) tt tt x0 types cc ichain (map (stored ch_error) rs)) as (x1 & E1 & H1);
      [|exact H0|].
    { intros x Hx. destruct (feed_all_ok ch_error junk junk_error rs _ _ _ _ _ Hx eq_refl ltac:(exact Hlen)) as (x' & E & Hx').
      exists x'. rewrite E. split; [reflexivity|exact Hx']. }
    assert (length (map (stored ch_error) rs) < S (length rs))%nat as Hl by (rewrite length_map; lia).
    assert (fresh ch_key 0 (Citem None 0 0) = false) as Hf by reflexivity.
    assert (keys_below_max (map (stored ch_error) rs)) as Hk' by (apply Forall_map; exact Hk).
    destruct (frontend_ok _ _ _ _ _ _ _ Hk' (Ht : master_type (e_type (env0 HAMMER2_XOPMASK_VOP 1 types cc))) Hf Hl H1) as (x2 & it & key & ri & pend & E2 & H2).
    destruct (retire_frontend _ _ _ _ _ _ _ H2 eq_refl eq_refl eq_refl eq_refl) as (x3 & E3 & H3).
    exists x3, it. split; [|exact H3]. unfold session. rewrite E0. cbn [obind]. rewrite E1. cbn [obind]. rewrite E2. cbn [obind ci_error]. rewrite E3. reflexivity. }
  split; [exact Hmain|]. intros cs final -> He Hs. destruct Hmain as (x & it & E & _). exists x. rewrite E.
  rewrite (scan_sorted cs final 0 He); [reflexivity| |exact Hs]. apply Forall_app in Hk as [Hk _]. apply Forall_map in Hk.
  eapply Forall_impl; [|exact Hk]. cbn. lia.
Qed.

(** * Growing a ring that has been read *)

Lemma feed_grow_full n x e it key ri pend :
  xst x e it key ri pend -> tst (e_run e) HAMMER2_XOPMASK_VOP = true -> alen pend = x_fifo_size x -> x_fifo_size x < 2 ^ 29 -> ri + 2 * x_fifo_size x < 2 ^ 30 ->
  exists x' l l' es es', feed_grow junk junk_error (S n) x 0 = Done (0, x')
    /\ ff_array (aget (x_collect x) 0) = Some l /\ alen l = x_fifo_size x
    /\ x' = put_fifo 0 (Fifo (Some l') (Some es') ri (ri + x_fifo_size x)) (set_x_fifo_size (x_fifo_size x * 2) x)
    /\ l' = l ++ replicate (Z.to_nat (x_fifo_size x)) junk /\ es' = es ++ replicate (Z.to_nat (x_fifo_size x)) junk_error /\ alen es = x_fifo_size x.
Proof.
  intros H Hact Hfull Hlt Hb. pose proof (xs_size _ _ _ _ _ _ H) as Hs. pose proof (pow2_size_range _ Hs).
  destruct (xs_ring _ _ _ _ _ _ H) as [(l & El & Hl) (es & Ees & Hes) Hri Hwi _ Hpos _]. set (size := x_fifo_size x) in *.
  exists (put_fifo 0 (Fifo (Some (l ++ replicate (Z.to_nat size) junk)) (Some (es ++ replicate (Z.to_nat size) junk_error)) ri (ri + size)) (set_x_fifo_size (size * 2) x)).
  exists l, (l ++ replicate (Z.to_nat size) junk), es, (es ++ replicate (Z.to_nat size) junk_error).
  split; [|repeat split; try assumption; [apply Hl|apply Hes]].
  cbn [feed_grow]. fold size. rewrite Hri, Hwi, Hfull, i32_small by lia.
  replace (ri =? ri + size - size) with true by (symmetry; apply Z.eqb_eq; lia). rewrite (xs_run _ _ _ _ _ _ H), Hact. cbn [negb].
  rewrite i32_small by lia. cbn [x_fifo_size set_x_fifo_size].
  assert (hammer2_xop_fifo_alloc junk junk_error (aget (x_collect x) 0) (size * 2) size
          = Done (Fifo (Some (l ++ replicate (Z.to_nat size) junk)) (Some (es ++ replicate (Z.to_nat size) junk_error)) ri (ri + size))) as ->.
  { unfold hammer2_xop_fifo_alloc. rewrite El, Ees, Hri, Hwi, Hfull, (assert_true (_ <? _)) by (apply Z.ltb_lt; lia).
    rewrite assert_true by (destruct (size =? 0) eqn:E0; [apply Z.eqb_eq in E0; lia|reflexivity]).
    rewrite assert_true by (destruct Hs as (k & Hk & E); replace (size * 2) with (2 ^ (k + 1)) by (rewrite Z.pow_add_r by lia; lia); apply pow2b_true; lia).
    rewrite assert_true by (apply Z.leb_le; lia). unfold grow. replace (size * 2 - size) with size by lia. reflexivity. }
  cbn [obind]. assert (0 <= 0 < alen (x_collect x)) as Hf by (rewrite (xs_fifos _ _ _ _ _ _ H); lia).
  destruct n; cbn [feed_grow x_collect put_fifo set_x_collect set_x_fifo_size]; rewrite aget_aset_eq by exact Hf;
    cbn [ff_ri ff_wi x_fifo_size put_fifo set_x_collect set_x_fifo_size]; rewrite i32_small by lia;
    (destruct (ri =? ri + size - size * 2) eqn:E; [apply Z.eqb_eq in E; lia|reflexivity]).
Qed.

(** When the ring is full and has been read from (0 < ri < size), feeding one more
    response doubles the array without moving its wrapped part: the slot that the
    collector will read for the pending response number size - ri is then whatever
    [hrealloc] left there, and the response itself is out of reach. *)
Theorem feed_growth_loses x e it key ri pend r :
  xst x e it key ri pend -> tst (e_run e) HAMMER2_XOPMASK_VOP = true ->
  alen pend = x_fifo_size x -> x_fifo_size x <= 2 ^ 28 -> 0 < ri < x_fifo_size x ->
  exists x', hammer2_xop_feed ch_error junk junk_error x r.1 0 r.2 = Done (0, x')
    /\ ff_ri (aget (x_collect x') 0) = ri /\ x_fifo_size x' = x_fifo_size x * 2
    /\ let slot := (ri + (x_fifo_size x - ri)) .& fifo_mask x' in ring_get (ff_array (aget (x_collect x') 0)) slot = Done junk.
Proof.
  intros H Hact Hfull Hlt Hri. pose proof (xs_size _ _ _ _ _ _ H) as Hs. pose proof (pow2_size_range _ Hs). set (size := x_fifo_size x) in *.
  assert (ri + 2 * size < 2 ^ 30) as Hb by lia. assert (size < 2 ^ 29) as Hlt' by lia.
  destruct (feed_grow_full 31 _ _ _ _ _ _ H Hact Hfull ltac:(exact Hlt') Hb) as (x1 & l & l' & es & es' & Eg & El & Hll & Hx1 & Hl' & Hes' & Hesl).
  fold size in Hll, Hx1, Hl', Hes', Hesl.
  assert (pow2_size (size * 2)) as Hs2.
  { destruct Hs as (k & Hk & E). exists (k + 1). rewrite Z.pow_add_r, <- E by lia. split; [|lia].
    assert (k < 29) by (apply (Z.pow_lt_mono_r_iff 2); lia). lia. }
  set (x2 := hold r.1 x1).
  assert (x_collect x2 = x_collect x1 /\ x_fifo_size x2 = size * 2) as [E1 E2] by (unfold x2, hold; rewrite Hx1; destruct (r.1); split; reflexivity).
  assert (0 <= 0 < alen (x_collect x)) as Hf by (rewrite (xs_fifos _ _ _ _ _ _ H); lia).
  assert (aget (x_collect x1) 0 = Fifo (Some l') (Some es') ri (ri + size)) as Ef by (rewrite Hx1; apply aget_aset_eq; exact Hf).
  assert (alen l' = size * 2 /\ alen es' = size * 2) as [L1 L2] by (rewrite Hl', Hes'; unfold alen in *; rewrite !length_app, !length_replicate; lia).
  unfold hammer2_xop_feed, hammer2_xop_active. rewrite (xs_run _ _ _ _ _ _ H), Hact. cbn [negb]. rewrite Eg. cbn [obind Z.eqb negb].
  fold x2. rewrite E1, Ef. cbn [ff_errors ff_array ff_wi ff_ri].
  rewrite (ring_set_ok x2) by (rewrite E2; assumption). cbn [obind]. rewrite (ring_set_ok x2) by (rewrite E2; assumption). cbn [obind].
  rewrite E2, (Z.mod_small (ri + size)) by lia. eexists. split; [reflexivity|].
  unfold put_fifo at 1. cbn [x_collect set_x_collect x_fifo_size]. rewrite E1.
  assert (0 <= 0 < alen (x_collect x1)) as Hf1 by (rewrite Hx1; cbn; rewrite alen_aset; exact Hf).
  rewrite aget_aset_eq by exact Hf1. split; [reflexivity|]. split; [exact E2|]. cbn zeta. unfold put_fifo. cbn [x_collect set_x_collect]. rewrite E1, aget_aset_eq by exact Hf1. cbn [ff_array].
  rewrite (ring_get_ok (set_x_collect _ x2)) by (cbn; rewrite E2; try rewrite alen_aset; assumption).
  cbn [x_fifo_size set_x_collect]. rewrite E2, Z.mod_small, aget_aset_ne, Hl' by lia. f_equal. unfold aget, alen in *.
  rewrite lookup_total_app_r, lookup_total_replicate_2 by lia. reflexivity.
Qed.
End session.

(** * Witnesses *)

(** Eighteen responses, more than the first ring holds. *)
Definition ex_key (c : nat) : Z := Z.of_nat c mod 1000.
Definition ex_chains : list nat := seq 1 18.
Lemma xop_session_witness :
  exists x, session ex_key (fun _ => 0) None 0 10060 [HAMMER2_PFSTYPE_MASTER] [] (refs_of []) 7
              (map (fun c => (Some c, 0)) ex_chains ++ [(None, 0)]) = Done (ex_chains, HAMMER2_ERROR_ENOENT, x).
Proof.
  assert (keys_below_max ex_key (map (fun c => (Some c, 0)) ex_chains ++ [(None, 0)])) as Hk by (repeat constructor; discriminate).
  destruct (xop_session ex_key (fun _ => 0) None 0 10060 [HAMMER2_PFSTYPE_MASTER] [] 7
              (map (fun c => (Some c, 0)) ex_chains ++ [(None, 0)]) Hk ltac:(left; reflexivity) ltac:(reflexivity)) as [_ H].
  apply (H ex_chains 0 eq_refl).
  - apply Forall_true. reflexivity.
  - unfold ex_chains, ex_key. cbn [seq]. repeat constructor.
Defined.

(** Chains 2 to 17 are pending in a ring of 16 from which chain 1 has been taken. *)
Definition ex_pend : list response := map (fun c => (Some c, 0)) (seq 2 16).
Definition ex_full : xhead :=
  Xhead (Fifo (Some (Some 17%nat :: map Some (seq 2 15))) (Some (replicate 16 0)) 1 17 :: replicate 7 (Fifo None None 0 0))
    (Cluster (replicate 8 (Citem None 0 0)) [HAMMER2_PFSTYPE_MASTER] None 1 0) 2 HAMMER2_XOPMASK_VOP 0 16
    (held_by ex_pend) None ∅ false.
Lemma ex_full_xst : xst ex_full (Xenv HAMMER2_XOPMASK_VOP 0 HAMMER2_PFSTYPE_MASTER None ∅) (Citem None 0 0) 2 1 ex_pend.
Proof.
  split; try reflexivity.
  - split; try reflexivity; try (vm_compute; discriminate); (eexists; split; [reflexivity|split; [reflexivity|]]);
      intros j v Hj; do 16 (destruct j as [|j]; [injection Hj as <-; reflexivity|]); discriminate Hj.
  - exists 4. split; [lia|reflexivity].
  - intros i Hi. assert (i = 1 \/ i = 2 \/ i = 3 \/ i = 4 \/ i = 5 \/ i = 6 \/ i = 7) as Hc by lia.
    repeat destruct Hc as [-> | Hc]; subst; reflexivity.
Qed.
(** The slot of chain 17 holds the junk, here chain 99. *)
Lemma feed_growth_loses_witness :
  ex_pend !! 15%nat = Some (Some 17%nat, 0) /\
  exists x', hammer2_xop_feed (fun _ => 0) (Some 99%nat) 0 ex_full (Some 18%nat) 0 0 = Done (0, x')
    /\ ring_get (ff_array (aget (x_collect x') 0)) (16 .& fifo_mask x') = Done (Some 99%nat).
Proof.
  split; [reflexivity|].
  destruct (feed_growth_loses (fun _ => 0) (Some 99%nat) 0 _ _ _ _ _ _ (Some 18%nat, 0) ex_full_xst eq_refl eq_refl ltac:(cbn; lia) ltac:(cbn; lia))
    as (x' & E & _ & _ & Hslot).
  exists x'. split; [exact E|exact Hslot].
Defined.
