(* ===== verification/Ipdep.v ===== *)
(** Inode dependencies of cluster operations (hammer2_admin.c): an operation waits until
    none of its inodes is used by another one.

    Threads run one operation each; every section under a [xop_lock] is one step, the
    sleep on a condition variable is a state of the thread.  The schedules that the
    theorems quantify over are lists of [event]s. *)

From Stdlib Require Import ZArith Lia Bool.
From stdpp Require Import base numbers list option fin_maps gmap.
From S2P Require Import Prelude.

Abbreviation HAMMER2_IHASH_SIZE := 32 (only parsing).

(** Inodes by their number. *)
Abbreviation inode := Z (only parsing).
Definition ipdep_idx (ip : inode) : Z := ip mod HAMMER2_IHASH_SIZE.

(** ip1 to ip4 of an operation. *)
Record xop_ips := XopIps { ip1 : option inode; ip2 : option inode; ip3 : option inode; ip4 : option inode }.

(** The part of the PFS that the operations share: the lists by slot and PMPF_WAITING. *)
Record pmp_deps := PmpDeps { ipdep_lists : gmap Z (list inode); pmpf_waiting : bool }.
Definition ipdep_list (s : pmp_deps) (idx : Z) : list inode := default [] (ipdep_lists s !! idx).
Definition set_list (idx : Z) (l : list inode) (s : pmp_deps) : pmp_deps := PmpDeps (<[idx := l]> (ipdep_lists s)) (pmpf_waiting s).
Definition set_waiting (w : bool) (s : pmp_deps) : pmp_deps := PmpDeps (ipdep_lists s) w.

(** true: collision *)
Definition xop_testset_ipdep (ip : inode) (idx : Z) (s : pmp_deps) : bool * pmp_deps :=
  if bool_decide (ip ∈ ipdep_list s idx) then (true, s)
  else (false, set_list idx (ip :: ipdep_list s idx) s).

Fixpoint list_remove_first (ip : inode) (l : list inode) : list inode :=
  match l with
  | [] => []
  | x :: l => if x =? ip then l else x :: list_remove_first ip l
  end.
Definition xop_unset_ipdep (ip : inode) (idx : Z) (s : pmp_deps) : pmp_deps :=
  set_list idx (list_remove_first ip (ipdep_list s idx)) s.

(** One turn of [hammer2_xop_testset_ipdep] under the lock; true: sleep, then again. *)
Definition hammer2_xop_testset_ipdep (ip : inode) (s : pmp_deps) : bool * pmp_deps :=
  let '(collision, s) := xop_testset_ipdep ip (ipdep_idx ip) s in
  if collision then (true, set_waiting true s) else (false, s).

(** true: wake the sleepers of the slot. *)
Definition hammer2_xop_unset_ipdep (ip : inode) (s : pmp_deps) : bool * pmp_deps :=
  let s := xop_unset_ipdep ip (ipdep_idx ip) s in
  if pmpf_waiting s then (true, set_waiting false s) else (false, s).

(** * The inodes [hammer2_xop_start] sets and [hammer2_xop_retire] unsets *)

Definition opt_list (i : option inode) : list inode := match i with Some i => [i] | None => [] end.
Definition start_ips (x : xop_ips) : list inode :=
  opt_list (ip1 x) ++ opt_list (ip2 x)
  ++ (if bool_decide (ip3 x = ip1 x) then [] else opt_list (ip3 x))
  ++ (if bool_decide (ip4 x = ip2 x) then [] else opt_list (ip4 x)).

(** Every field is NULL once it is done. *)
Definition retire_ip1 (x : xop_ips) : list inode * xop_ips := (opt_list (ip1 x), XopIps None (ip2 x) (ip3 x) (ip4 x)).
Definition retire_ip2 (x : xop_ips) : list inode * xop_ips := (opt_list (ip2 x), XopIps (ip1 x) None (ip3 x) (ip4 x)).
Definition retire_ip3 (x : xop_ips) : list inode * xop_ips :=
  (if bool_decide (ip3 x = ip1 x) then [] else opt_list (ip3 x), XopIps (ip1 x) (ip2 x) None (ip4 x)).
Definition retire_ip4 (x : xop_ips) : list inode * xop_ips :=
  (if bool_decide (ip4 x = ip2 x) then [] else opt_list (ip4 x), XopIps (ip1 x) (ip2 x) (ip3 x) None).
Definition retire_ips (x : xop_ips) : list inode :=
  let '(l1, x) := retire_ip1 x in
  let '(l2, x) := retire_ip2 x in
  let '(l3, x) := retire_ip3 x in
  let '(l4, x) := retire_ip4 x in
  l1 ++ l2 ++ l3 ++ l4.

(** * Threads *)

(** [Setting got todo]: the inodes that have been set and the ones to come; with no
    more to come the back end runs.  [Unsetting todo]: in [hammer2_xop_retire]. *)
Inductive tstate :=
| Setting (got todo : list inode)
| Sleeping (got todo : list inode)
| Unsetting (todo : list inode)
| Finished.
Record thread := Thread { t_op : xop_ips; t_state : tstate }.
Definition set_t_state (p : tstate) (t : thread) : thread := Thread (t_op t) p.
Record machine := Machine { m_pmp : pmp_deps; m_threads : list thread }.

Definition sleeps_on (idx : Z) (t : thread) : bool :=
  match t_state t with Sleeping _ (ip :: _) => ipdep_idx ip =? idx | _ => false end.
Definition wake (t : thread) : thread :=
  match t_state t with Sleeping got todo => set_t_state (Setting got todo) t | _ => t end.
Definition wakeup (idx : Z) (l : list thread) : list thread := map (fun t => if sleeps_on idx t then wake t else t) l.

Definition thread_step (t : nat) (m : machine) : option machine :=
  x ← m_threads m !! t;
  let put s p l := Machine s (<[t := set_t_state p x]> l) in
  match t_state x with
  | Setting got (ip :: todo) =>
      let '(sleep, s) := hammer2_xop_testset_ipdep ip (m_pmp m) in
      Some (put s (if sleep then Sleeping got (ip :: todo) else Setting (got ++ [ip]) todo) (m_threads m))
  | Setting got [] => Some (put (m_pmp m) (Unsetting (retire_ips (t_op x))) (m_threads m))
  | Unsetting (ip :: todo) =>
      let '(wakes, s) := hammer2_xop_unset_ipdep ip (m_pmp m) in
      Some (put s (Unsetting todo) (if wakes then wakeup (ipdep_idx ip) (m_threads m) else m_threads m))
  | Unsetting [] => Some (put (m_pmp m) Finished (m_threads m))
  | Sleeping _ _ | Finished => None
  end.

(** Condition variables may also wake a thread for no reason. *)
Inductive event := Step (t : nat) | Spurious (t : nat).
Definition event_step (e : event) (m : machine) : option machine :=
  match e with
  | Step t => thread_step t m
  | Spurious t => x ← m_threads m !! t; Some (Machine (m_pmp m) (<[t := wake x]> (m_threads m)))
  end.
Fixpoint run_events (es : list event) (m : machine) : option machine :=
  match es with
  | [] => Some m
  | e :: es => m ← event_step e m; run_events es m
  end.

Definition start_machine (ops : list xop_ips) : machine :=
  Machine (PmpDeps ∅ false) (map (fun x => Thread x (Setting [] (start_ips x))) ops).

Definition holding (t : thread) : list inode :=
  match t_state t with
  | Setting got _ | Sleeping got _ => got
  | Unsetting todo => todo
  | Finished => []
  end.
Definition running (t : thread) : Prop := match t_state t with Setting _ [] => True | _ => False end.

(** No inode is named twice. *)
Definition no_alias (x : xop_ips) : Prop :=
  NoDup (opt_list (ip1 x) ++ opt_list (ip2 x) ++ opt_list (ip3 x) ++ opt_list (ip4 x)).
