(* ===== verification/IpdepTheorems.v ===== *)
(** Exclusion by inode dependencies, the alias that breaks it and the lost wakeup. *)

From Stdlib Require Import ZArith Lia Bool.
From stdpp Require Import base numbers list option fin_maps gmap.
From S2P Require Import Prelude Ipdep.

(** * The invariant *)

Definition all_held (l : list thread) : list inode := concat (map holding l).

(** The lists are what the threads hold; nothing is held twice. *)
Record ipdep_inv (m : machine) : Prop := IpdepInv {
  ii_lists : forall idx, ipdep_list (m_pmp m) idx ≡ₚ filter (fun ip => ipdep_idx ip = idx) (all_held (m_threads m));
  ii_once : NoDup (all_held (m_threads m));
  ii_todo : forall t x, m_threads m !! t = Some x ->
    no_alias (t_op x) /\
    match t_state x with Setting got todo | Sleeping got todo => got ++ todo = start_ips (t_op x) | _ => True end
}.

(** Without aliases an operation retires what it started with. *)
Lemma retire_start x : no_alias x -> retire_ips x = start_ips x.
Proof.
  unfold no_alias, retire_ips, start_ips. destruct x as [a b c d]; cbn. intros H.
  assert (forall i n j : option inode, n = None -> (forall k, i = Some k -> j <> Some k) -> (if bool_decide (i = n) then [] else opt_list i) = (if bool_decide (i = j) then [] else opt_list i)) as Heq.
  { intros [i|] n j -> Hij; repeat case_bool_decide; try reflexivity; try discriminate. destruct (Hij i eq_refl). auto. }
  do 2 f_equal. f_equal; (apply Heq; [reflexivity|]); intros k -> ->; cbn in H.
  - apply NoDup_cons in H as [H _]. apply H. set_solver.
  - apply NoDup_app in H as (_ & _ & H). cbn in H. apply NoDup_cons in H as [H _]. apply H. set_solver.
Qed.

Lemma all_held_insert l t x y :
  l !! t = Some x ->
  exists rest, all_held l ≡ₚ holding x ++ rest /\ all_held (<[t := y]> l) ≡ₚ holding y ++ rest.
Proof.
  intros H. pose proof (lookup_lt_Some _ _ _ H) as Hlt. exists (all_held (take t l) ++ all_held (drop (S t) l)).
  rewrite insert_take_drop by exact Hlt. split; [rewrite <- (take_drop_middle l t x H) at 1|];
    unfold all_held; rewrite map_app, concat_app; cbn [map concat]; apply Permutation_app_swap_app.
Qed.

Lemma holding_wakeup idx l : map holding (wakeup idx l) = map holding l.
Proof.
  unfold wakeup. rewrite map_map. apply map_ext. intros [op [| | |]]; unfold wake; cbn; try reflexivity; destruct (match todo with [] => false | ip :: _ => ipdep_idx ip =? idx end); reflexivity.
Qed.
Lemma lookup_wakeup idx l t y :
  wakeup idx l !! t = Some y -> exists x, l !! t = Some x /\ (y = x \/ y = wake x).
Proof.
  unfold wakeup. change (map ?f l) with (f <$> l). rewrite list_lookup_fmap. destruct (l !! t) as [x|]; [|discriminate].
  cbn. intros [= <-]. exists x. split; [reflexivity|]. destruct (sleeps_on idx x); auto.
Qed.

Lemma list_remove_first_perm ip l m : l ≡ₚ ip :: m -> list_remove_first ip l ≡ₚ m.
Proof.
  assert (forall l, ip ∈ l -> l ≡ₚ ip :: list_remove_first ip l) as H.
  { clear. induction l as [|x l IH]; intros Hin; [set_solver|]. cbn. destruct (x =? ip) eqn:E.
    - apply Z.eqb_eq in E as ->. reflexivity.
    - apply Z.eqb_neq in E. apply elem_of_cons in Hin as [->|Hin]; [contradiction|]. rewrite (IH Hin) at 1. apply Permutation_swap. }
  intros Hp. apply (Permutation_cons_inv (a := ip)). rewrite <- Hp. symmetry. apply H. rewrite Hp. left.
Qed.

(** * Every step keeps it *)

Lemma ipdep_list_set idx l s i : ipdep_list (set_list idx l s) i = if decide (idx = i) then l else ipdep_list s i.
Proof.
  unfold ipdep_list, set_list. cbn. destruct (decide (idx = i)) as [->|Hne].
  - rewrite lookup_insert_eq. reflexivity.
  - rewrite lookup_insert_ne by exact Hne. reflexivity.
Qed.

(** A thread that changes its state but not what it holds. *)
Lemma ipdep_inv_move m t x p s :
  ipdep_inv m -> m_threads m !! t = Some x -> holding (set_t_state p x) = holding x ->
  (forall idx, ipdep_list s idx = ipdep_list (m_pmp m) idx) ->
  match p with Setting got todo | Sleeping got todo => got ++ todo = start_ips (t_op x) | _ => True end ->
  ipdep_inv (Machine s (<[t := set_t_state p x]> (m_threads m))).
Proof.
  intros [Hl Ho Ht] Hx Hh Hs Hp. destruct (all_held_insert _ _ _ (set_t_state p x) Hx) as (rest & E1 & E2).
  assert (all_held (<[t := set_t_state p x]> (m_threads m)) ≡ₚ all_held (m_threads m)) as E by (rewrite E1, E2, Hh; reflexivity).
  split; cbn [m_pmp m_threads].
  - intros idx. rewrite Hs, E. apply Hl.
  - rewrite E. exact Ho.
  - intros u y Hy. apply list_lookup_insert_Some in Hy as [(-> & <- & _)|(_ & Hy)]; [|exact (Ht _ _ Hy)].
    split; [exact (proj1 (Ht _ _ Hx))|exact Hp].
Qed.

Lemma ipdep_inv_set m t x got ip todo :
  ipdep_inv m -> m_threads m !! t = Some x -> t_state x = Setting got (ip :: todo) ->
  ip ∉ ipdep_list (m_pmp m) (ipdep_idx ip) ->
  ipdep_inv (Machine (set_list (ipdep_idx ip) (ip :: ipdep_list (m_pmp m) (ipdep_idx ip)) (m_pmp m)) (<[t := set_t_state (Setting (got ++ [ip]) todo) x]> (m_threads m))).
Proof.
  intros [Hl Ho Ht] Hx Hst Hnew. destruct (all_held_insert _ _ _ (set_t_state (Setting (got ++ [ip]) todo) x) Hx) as (rest & E1 & E2).
  assert (all_held (<[t := set_t_state (Setting (got ++ [ip]) todo) x]> (m_threads m)) ≡ₚ ip :: all_held (m_threads m)) as E.
  { rewrite E1, E2. unfold holding. rewrite Hst. cbn. rewrite <- app_assoc. symmetry. apply Permutation_middle. }
  split; cbn [m_pmp m_threads].
  - intros idx. rewrite ipdep_list_set, E. destruct (decide (ipdep_idx ip = idx)) as [<-|Hne].
    + rewrite filter_cons_True by reflexivity. rewrite (Hl (ipdep_idx ip)). reflexivity.
    + rewrite filter_cons_False by exact Hne. apply Hl.
  - rewrite E. apply NoDup_cons. split; [|exact Ho]. intros Hin. apply Hnew. rewrite (Hl (ipdep_idx ip)).
    apply list_elem_of_filter. split; [reflexivity|exact Hin].
  - intros u y Hy. apply list_lookup_insert_Some in Hy as [(-> & <- & _)|(_ & Hy)]; [|exact (Ht _ _ Hy)].
    destruct (Ht _ _ Hx) as [Ha Htd]. rewrite Hst in Htd. split; [exact Ha|]. cbn. rewrite <- app_assoc. exact Htd.
Qed.

Lemma inv_unset m t x ip todo s :
  ipdep_inv m -> m_threads m !! t = Some x -> t_state x = Unsetting (ip :: todo) ->
  (forall idx, ipdep_list s idx = ipdep_list (xop_unset_ipdep ip (ipdep_idx ip) (m_pmp m)) idx) ->
  ipdep_inv (Machine s (<[t := set_t_state (Unsetting todo) x]> (m_threads m))).
Proof.
  intros [Hl Ho Ht] Hx Hst Hs. destruct (all_held_insert _ _ _ (set_t_state (Unsetting todo) x) Hx) as (rest & E1 & E2).
  assert (all_held (m_threads m) ≡ₚ ip :: all_held (<[t := set_t_state (Unsetting todo) x]> (m_threads m))) as E.
  { rewrite E1, E2. unfold holding. rewrite Hst. reflexivity. }
  split; cbn [m_pmp m_threads].
  - intros idx. rewrite Hs. unfold xop_unset_ipdep. rewrite ipdep_list_set. specialize (Hl idx) as Hli. rewrite E in Hli.
    destruct (decide (ipdep_idx ip = idx)) as [<-|Hne].
    + rewrite filter_cons_True in Hli by reflexivity. apply list_remove_first_perm, Hli.
    + rewrite filter_cons_False in Hli by exact Hne. exact Hli.
  - rewrite E in Ho. apply NoDup_cons in Ho as [_ Ho]. exact Ho.
  - intros u y Hy. apply list_lookup_insert_Some in Hy as [(-> & <- & _)|(_ & Hy)]; [|exact (Ht _ _ Hy)].
    split; [exact (proj1 (Ht _ _ Hx))|exact I].
Qed.

Lemma inv_wakeup m idx : ipdep_inv m -> ipdep_inv (Machine (m_pmp m) (wakeup idx (m_threads m))).
Proof.
  intros [Hl Ho Ht]. assert (all_held (wakeup idx (m_threads m)) = all_held (m_threads m)) as E by (unfold all_held; rewrite holding_wakeup; reflexivity).
  split; cbn [m_pmp m_threads]; rewrite ?E; try assumption.
  intros t y Hy. apply lookup_wakeup in Hy as (x & Hx & [-> | ->]); [exact (Ht _ _ Hx)|]. specialize (Ht _ _ Hx).
  destruct x as [op [| | |]]; exact Ht.
Qed.

Lemma thread_step_inv m m' t : ipdep_inv m -> thread_step t m = Some m' -> ipdep_inv m'.
Proof.
  intros Hi H. unfold thread_step in H. apply bind_Some in H as (x & Hx & H). destruct (ii_todo _ Hi _ _ Hx) as [Ha Htd].
  destruct (t_state x) as [got [|ip todo]| |[|ip todo]|] eqn:Hst; try discriminate H.
  - injection H as <-. apply ipdep_inv_move; try assumption; try reflexivity. unfold holding. rewrite Hst. cbn [t_state set_t_state].
    rewrite retire_start by exact Ha. rewrite app_nil_r in Htd. symmetry. exact Htd.
  - unfold hammer2_xop_testset_ipdep, xop_testset_ipdep in H. case_bool_decide as Hin.
    + injection H as <-. apply ipdep_inv_move; try assumption; try reflexivity. unfold holding. rewrite Hst. reflexivity.
    + injection H as <-. apply ipdep_inv_set; assumption.
  - injection H as <-. apply ipdep_inv_move; try assumption; try reflexivity. unfold holding. rewrite Hst. reflexivity.
  - unfold hammer2_xop_unset_ipdep in H. destruct (pmpf_waiting _); injection H as <-.
    + assert (exists x', wakeup (ipdep_idx ip) (m_threads m) !! t = Some x' /\ x' = x) as (x' & Hx' & ->).
      { unfold wakeup. change (map ?f (m_threads m)) with (f <$> m_threads m). rewrite list_lookup_fmap, Hx. cbn. eexists. split; [reflexivity|].
        unfold sleeps_on. rewrite Hst. reflexivity. }
      apply (inv_unset _ t x ip todo _ (inv_wakeup _ (ipdep_idx ip) Hi) Hx' Hst). reflexivity.
    + apply (inv_unset _ t x ip todo _ Hi Hx Hst). reflexivity.
Qed.

Lemma event_step_inv e m m' : ipdep_inv m -> event_step e m = Some m' -> ipdep_inv m'.
Proof.
  intros Hi H. destruct e as [t|t]; [exact (thread_step_inv _ _ _ Hi H)|]. cbn in H. apply bind_Some in H as (x & Hx & [= <-]).
  destruct (ii_todo _ Hi _ _ Hx) as [_ Htd].
  assert (wake x = set_t_state (t_state (wake x)) x) as -> by (unfold wake; destruct x as [op [| | |]]; reflexivity).
  apply ipdep_inv_move; try assumption; try reflexivity.
  - unfold holding, wake. destruct x as [op [| | |]]; reflexivity.
  - unfold wake. destruct x as [op [| | |]]; exact Htd.
Qed.

Lemma start_inv ops : Forall no_alias ops -> ipdep_inv (start_machine ops).
Proof.
  intros H. assert (all_held (m_threads (start_machine ops)) = []) as E by (unfold all_held, start_machine; cbn; rewrite map_map; induction ops; [reflexivity|]; cbn; apply IHops; inversion H; assumption).
  split; rewrite ?E.
  - reflexivity.
  - constructor.
  - cbn. intros t x Hx. change (map ?f ops) with (f <$> ops) in Hx. rewrite list_lookup_fmap in Hx. apply fmap_Some in Hx as (op & Hop & ->).
    split; [|reflexivity]. rewrite Forall_lookup in H. exact (H _ _ Hop).
Qed.

Lemma run_events_inv es : forall m m', ipdep_inv m -> run_events es m = Some m' -> ipdep_inv m'.
Proof.
  induction es as [|e es IH]; intros m m' Hi H; [injection H as <-; exact Hi|]. cbn in H. apply bind_Some in H as (m1 & H1 & H).
  exact (IH _ _ (event_step_inv _ _ _ Hi H1) H).
Qed.

Lemma held_apart l t u x y :
  NoDup (all_held l) -> t <> u -> l !! t = Some x -> l !! u = Some y -> forall ip, ip ∈ holding x -> ip ∈ holding y -> False.
Proof.
  intros H Htu Hx Hy ip Hix Hiy. destruct (all_held_insert l t x x Hx) as (rest & E & E').
  destruct (all_held_insert l u y y Hy) as (rest' & F & _).
  assert (<[t := Thread (t_op x) Finished]> l !! u = Some y) as Hy' by (rewrite list_lookup_insert_ne by exact Htu; exact Hy).
  destruct (all_held_insert l t x (Thread (t_op x) Finished) Hx) as (r & G & G'). cbn in G'.
  destruct (all_held_insert _ u y y Hy') as (r' & K & _).
  rewrite G in H. apply NoDup_app in H as (_ & H & _). apply (H ip Hix). rewrite <- G', K. set_solver.
Qed.

(** C27. However the steps of the threads interleave, spurious wakeups included, when no
    operation names an inode twice no two operations hold the dependency of the same
    inode; an operation whose back end runs holds all the inodes it names, and the lists
    of the PFS have exactly the inodes that are held. *)
Theorem ipdep_exclusion ops es m :
  Forall no_alias ops -> run_events es (start_machine ops) = Some m ->
  (forall t u x y, t <> u -> m_threads m !! t = Some x -> m_threads m !! u = Some y ->
     forall ip, ip ∈ holding x -> ip ∈ holding y -> False) /\
  (forall t x, m_threads m !! t = Some x -> running x -> holding x = start_ips (t_op x)) /\
  (forall idx ip, ip ∈ ipdep_list (m_pmp m) idx <->
     ipdep_idx ip = idx /\ exists t x, m_threads m !! t = Some x /\ ip ∈ holding x).
Proof.
  intros Ha H. destruct (run_events_inv _ _ _ (start_inv _ Ha) H) as [Hl Ho Ht]. split; [|split].
  - intros. eapply held_apart; eauto.
  - intros t x Hx Hr. destruct (Ht _ _ Hx) as [_ Htd]. unfold running in Hr. unfold holding.
    destruct (t_state x) as [got [|]| | |]; try contradiction. rewrite app_nil_r in Htd. exact Htd.
  - intros idx ip. rewrite (Hl idx), list_elem_of_filter. unfold all_held. split; intros [Hidx Hin]; (split; [exact Hidx|]).
    + apply list_elem_of_In, in_concat in Hin as (h & Hh & Hin). apply in_map_iff in Hh as (x & <- & Hx).
      apply list_elem_of_In, list_elem_of_lookup in Hx as (t & Hx). exists t, x. split; [exact Hx|apply list_elem_of_In, Hin].
    + destruct Hin as (t & x & Hx & Hin). apply list_elem_of_In, in_concat. exists (holding x). split; [|apply list_elem_of_In, Hin].
      apply in_map, list_elem_of_In. apply list_elem_of_lookup. exists t. exact Hx.
Qed.

(** * Counterexamples *)

Definition op1 (ip : inode) : xop_ips := XopIps (Some ip) None None None.
(** hammer2_rename: the source directory, the file, the target directory. *)
Definition rename_op (fdip fip tdip : inode) : xop_ips := XopIps (Some fdip) (Some fip) (Some tdip) None.

(** ** Running a schedule step by step *)

Lemma run_step t es m m1 m' : thread_step t m = Some m1 -> run_events es m1 = Some m' -> run_events (Step t :: es) m = Some m'.
Proof. cbn. intros -> H. exact H. Qed.
Lemma run_events_app es1 es2 m m1 : run_events es1 m = Some m1 -> run_events (es1 ++ es2) m = run_events es2 m1.
Proof.
  revert m. induction es1 as [|e es1 IH]; cbn; intros m H; [injection H as ->; reflexivity|].
  destruct (event_step e m) as [m2|]; [exact (IH _ H)|discriminate].
Qed.

Lemma step_set t m x got ip todo : m_threads m !! t = Some x -> t_state x = Setting got (ip :: todo) ->
  ip ∉ ipdep_list (m_pmp m) (ipdep_idx ip) ->
  thread_step t m = Some (Machine (set_list (ipdep_idx ip) (ip :: ipdep_list (m_pmp m) (ipdep_idx ip)) (m_pmp m))
                            (<[t := set_t_state (Setting (got ++ [ip]) todo) x]> (m_threads m))).
Proof.
  intros Hx Hs Hin. unfold thread_step. rewrite Hx. cbn. rewrite Hs. unfold hammer2_xop_testset_ipdep, xop_testset_ipdep.
  rewrite bool_decide_false by exact Hin. reflexivity.
Qed.
Lemma step_sleep t m x got ip todo : m_threads m !! t = Some x -> t_state x = Setting got (ip :: todo) ->
  ip ∈ ipdep_list (m_pmp m) (ipdep_idx ip) ->
  thread_step t m = Some (Machine (set_waiting true (m_pmp m)) (<[t := set_t_state (Sleeping got (ip :: todo)) x]> (m_threads m))).
Proof.
  intros Hx Hs Hin. unfold thread_step. rewrite Hx. cbn. rewrite Hs. unfold hammer2_xop_testset_ipdep, xop_testset_ipdep.
  rewrite bool_decide_true by exact Hin. reflexivity.
Qed.
Lemma step_retire t m x got : m_threads m !! t = Some x -> t_state x = Setting got [] ->
  thread_step t m = Some (Machine (m_pmp m) (<[t := set_t_state (Unsetting (retire_ips (t_op x))) x]> (m_threads m))).
Proof. intros Hx Hs. unfold thread_step. rewrite Hx. cbn. rewrite Hs. reflexivity. Qed.
Lemma step_finish t m x : m_threads m !! t = Some x -> t_state x = Unsetting [] ->
  thread_step t m = Some (Machine (m_pmp m) (<[t := set_t_state Finished x]> (m_threads m))).
Proof. intros Hx Hs. unfold thread_step. rewrite Hx. cbn. rewrite Hs. reflexivity. Qed.
Lemma step_unset t m x ip todo : m_threads m !! t = Some x -> t_state x = Unsetting (ip :: todo) -> pmpf_waiting (m_pmp m) = false ->
  thread_step t m = Some (Machine (xop_unset_ipdep ip (ipdep_idx ip) (m_pmp m)) (<[t := set_t_state (Unsetting todo) x]> (m_threads m))).
Proof.
  intros Hx Hs Hw. unfold thread_step. rewrite Hx. cbn. rewrite Hs. unfold hammer2_xop_unset_ipdep.
  change (pmpf_waiting (xop_unset_ipdep ip (ipdep_idx ip) (m_pmp m))) with (pmpf_waiting (m_pmp m)). rewrite Hw. reflexivity.
Qed.
Lemma step_unset_wakes t m x ip todo : m_threads m !! t = Some x -> t_state x = Unsetting (ip :: todo) -> pmpf_waiting (m_pmp m) = true ->
  thread_step t m = Some (Machine (set_waiting false (xop_unset_ipdep ip (ipdep_idx ip) (m_pmp m)))
                            (<[t := set_t_state (Unsetting todo) x]> (wakeup (ipdep_idx ip) (m_threads m)))).
Proof.
  intros Hx Hs Hw. unfold thread_step. rewrite Hx. cbn. rewrite Hs. unfold hammer2_xop_unset_ipdep.
  change (pmpf_waiting (xop_unset_ipdep ip (ipdep_idx ip) (m_pmp m))) with (pmpf_waiting (m_pmp m)). rewrite Hw. reflexivity.
Qed.
Lemma ipdep_list_waiting w s i : ipdep_list (set_waiting w s) i = ipdep_list s i.
Proof. reflexivity. Qed.
Lemma ipdep_list_unset ip s i : ipdep_list (xop_unset_ipdep ip (ipdep_idx ip) s) i =
  if decide (ipdep_idx ip = i) then list_remove_first ip (ipdep_list s (ipdep_idx ip)) else ipdep_list s i.
Proof. apply ipdep_list_set. Qed.

(** What the lists of the slots hold after some steps; the next step of a schedule. *)
Ltac slots :=
  cbn [m_pmp];
  repeat (rewrite ?ipdep_list_waiting, ?ipdep_list_unset, ?ipdep_list_set; match goal with
    | |- context [decide (?a = ?b)] => first [rewrite (decide_True (P := a = b)) by congruence|rewrite (decide_False (P := a = b)) by congruence] end);
  repeat match goal with |- context [ipdep_list (PmpDeps ∅ false) ?i] => change (ipdep_list (PmpDeps ∅ false) i) with (@nil inode) end;
  repeat progress (cbn [list_remove_first]; rewrite ?Z.eqb_refl; repeat match goal with H : (_ =? _) = false |- _ => rewrite H end);
  rewrite ?not_elem_of_cons, ?list_elem_of_singleton, ?elem_of_cons; intuition (try congruence; try (eapply not_elem_of_nil; eassumption)).
Ltac play lem := eapply run_step; [eapply lem; [reflexivity|reflexivity|..]; [..|first [reflexivity|slots]]|cbn [m_pmp m_threads]; unfold wakeup, set_t_state, op1;
  cbn [t_op t_state insert list_insert map sleeps_on wake set_t_state app]; rewrite ?Z.eqb_refl;
  repeat match goal with H : (_ =? _) = false |- _ => rewrite H end].
Ltac play0 lem := eapply run_step; [eapply lem; reflexivity|cbn [m_pmp m_threads]; unfold wakeup, set_t_state, op1;
  cbn [t_op t_state insert list_insert map sleeps_on wake set_t_state app]; rewrite ?Z.eqb_refl;
  repeat match goal with H : (_ =? _) = false |- _ => rewrite H end].

(** ** The rename within one directory *)

Definition rename_schedule : list event :=
  [Step 0; Step 0; Step 0;    (* the rename sets the directory and the file, its back end runs *)
   Step 1;                    (* the second operation sleeps *)
   Step 0;                    (* the rename unsets the directory and wakes it *)
   Step 1;                    (* it sets the directory: its back end runs *)
   Step 0; Step 0;            (* the rename unsets the file, then the directory again *)
   Step 2].                   (* the third operation sets the directory too *)

(** C28. Every rename within one directory [d], whatever the file [f] and whatever else
    runs: ip3 = ip1, and [hammer2_xop_retire] compares ip3 with ip1 after it has cleared
    ip1, so it unsets the directory twice.  There is a schedule in which the second time
    takes away the dependency of an operation that started in between, and a third one
    runs on the same directory at the same time. *)
Theorem rename_breaks_exclusion d f rest : d <> f ->
  start_ips (rename_op d f d) = [d; f] /\ retire_ips (rename_op d f d) = [d; f; d] /\
  exists es m x y, run_events es (start_machine (rename_op d f d :: op1 d :: op1 d :: rest)) = Some m /\
    m_threads m !! 1%nat = Some x /\ m_threads m !! 2%nat = Some y /\
    running x /\ running y /\ holding x = [d] /\ holding y = [d].
Proof.
  intros Hne. assert (Hne' : (f =? d) = false) by lia. assert (Hne2 : (d =? f) = false) by lia.
  assert (E1 : start_ips (rename_op d f d) = [d; f]) by (unfold start_ips; cbn; rewrite bool_decide_true by reflexivity; reflexivity).
  assert (E2 : retire_ips (rename_op d f d) = [d; f; d]) by reflexivity.
  split; [exact E1|]. split; [exact E2|]. exists rename_schedule.
  destruct (decide (ipdep_idx d = ipdep_idx f)) as [Ei|Ei]; do 3 eexists;
    (split; [unfold rename_schedule, start_machine; cbn [map]; rewrite E1;
             play step_set; play step_set; play0 step_retire; play step_sleep; play step_unset_wakes; play step_set;
             play step_unset; play step_unset; play step_set; reflexivity|]); repeat split.
Qed.
Lemma rename_breaks_exclusion_witness :
  start_ips (rename_op 1 10 1) = [1; 10] /\ retire_ips (rename_op 1 10 1) = [1; 10; 1] /\
  exists es m x y, run_events es (start_machine [rename_op 1 10 1; op1 1; op1 1; op1 7]) = Some m /\
    m_threads m !! 1%nat = Some x /\ m_threads m !! 2%nat = Some y /\
    running x /\ running y /\ holding x = [1] /\ holding y = [1].
Proof. apply (rename_breaks_exclusion 1 10 [op1 7]). discriminate. Defined.

(** ** The lost wakeup *)

Lemma sleeper_stays idx l t y got ip todo : l !! t = Some y -> t_state y = Sleeping got (ip :: todo) -> ipdep_idx ip <> idx ->
  wakeup idx l !! t = Some y.
Proof.
  intros Hy Hs Hne. unfold wakeup. change (map ?f l) with (f <$> l). rewrite list_lookup_fmap, Hy. cbn. unfold sleeps_on. rewrite Hs.
  replace (ipdep_idx ip =? idx) with false by lia. reflexivity.
Qed.

(** No thread moves another one while PMPF_WAITING is clear. *)
Lemma quiet_step u m m' t y got todo : pmpf_waiting (m_pmp m) = false -> m_threads m !! t = Some y -> t_state y = Sleeping got todo ->
  thread_step u m = Some m' -> m_threads m' !! t = Some y.
Proof.
  intros Hw Hy Hs H. assert (Hut : u <> t) by (intros ->; unfold thread_step in H; rewrite Hy in H; cbn in H; rewrite Hs in H; discriminate).
  unfold thread_step in H. apply bind_Some in H as (x & Hx & H).
  destruct (t_state x) as [g [|ip td]| |[|ip td]|]; try discriminate H.
  - injection H as <-. cbn. rewrite list_lookup_insert_ne by congruence. exact Hy.
  - destruct (hammer2_xop_testset_ipdep ip (m_pmp m)) as [sl s]. injection H as <-. cbn. rewrite list_lookup_insert_ne by congruence. exact Hy.
  - injection H as <-. cbn. rewrite list_lookup_insert_ne by congruence. exact Hy.
  - unfold hammer2_xop_unset_ipdep in H. change (pmpf_waiting (xop_unset_ipdep ip (ipdep_idx ip) (m_pmp m))) with (pmpf_waiting (m_pmp m)) in H.
    rewrite Hw in H. injection H as <-. cbn. rewrite list_lookup_insert_ne by congruence. exact Hy.
Qed.

Definition sleeper_schedule : list event :=
  [Step 0; Step 1;            (* two operations hold [a] and [b] *)
   Step 2;                    (* the third sleeps on the slot of [a] *)
   Step 1; Step 1; Step 1;    (* [b] is unset: PMPF_WAITING is cleared, the slot of [b] is woken *)
   Step 0; Step 0; Step 0].   (* [a] is unset: nobody is woken *)

(** C29. PMPF_WAITING is one flag for all slots while every slot has its own condition
    variable.  For any inodes [a] and [b] of different slots, in any state: an operation
    that unsets [b] clears the flag and leaves every operation that sleeps for [a]
    asleep; while the flag is clear, no step of any operation wakes a sleeper, the
    unsetting of [a] included.  So there is a schedule of three operations on [a], [b]
    and [a] that ends with a sleeper although its inode is free, all the other
    operations have finished, and no step of the code can wake it. *)
Theorem ipdep_wakeup_lost a b : ipdep_idx a <> ipdep_idx b ->
  (forall m u x todo t y got rest, m_threads m !! u = Some x -> t_state x = Unsetting (b :: todo) -> pmpf_waiting (m_pmp m) = true ->
     m_threads m !! t = Some y -> t_state y = Sleeping got (a :: rest) ->
     exists m', thread_step u m = Some m' /\ pmpf_waiting (m_pmp m') = false /\ m_threads m' !! t = Some y) /\
  (forall m u m' t y got todo, pmpf_waiting (m_pmp m) = false -> m_threads m !! t = Some y -> t_state y = Sleeping got todo ->
     thread_step u m = Some m' -> m_threads m' !! t = Some y) /\
  exists es m x, run_events es (start_machine [op1 a; op1 b; op1 a]) = Some m /\
    m_threads m !! 2%nat = Some x /\ t_state x = Sleeping [] [a] /\
    ~ (a ∈ ipdep_list (m_pmp m) (ipdep_idx a)) /\ forall t, thread_step t m = None.
Proof.
  intros Hne. split; [|split].
  - intros m u x todo t y got rest Hx Hsx Hw Hy Hsy. eexists. split; [exact (step_unset_wakes _ _ _ _ _ Hx Hsx Hw)|]. split; [reflexivity|].
    cbn. rewrite list_lookup_insert_ne by congruence. exact (sleeper_stays _ _ _ _ _ _ _ Hy Hsy Hne).
  - intros m u m' t y got todo Hw Hy Hs H. exact (quiet_step u m m' t y got todo Hw Hy Hs H).
  - assert (Hf : (ipdep_idx a =? ipdep_idx b) = false) by lia. assert (Hab : (b =? a) = false) by (destruct (Z.eqb_spec b a); congruence).
    exists sleeper_schedule. do 2 eexists. split; [unfold sleeper_schedule, start_machine; cbn [map]|].
    { play step_set. play step_set. play step_sleep. play0 step_retire. play step_unset_wakes. play0 step_finish. play0 step_retire. play step_unset.
      play0 step_finish. reflexivity. }
    split; [reflexivity|]. split; [reflexivity|]. split; [slots|]. intros [|[|[|t]]]; reflexivity.
Qed.
Lemma ipdep_wakeup_lost_witness :
  exists es m x, run_events es (start_machine [op1 1; op1 2; op1 1]) = Some m /\
    m_threads m !! 2%nat = Some x /\ t_state x = Sleeping [] [1] /\
    ~ (1 ∈ ipdep_list (m_pmp m) (ipdep_idx 1)) /\ forall t, thread_step t m = None.
Proof. apply (ipdep_wakeup_lost 1 2). discriminate. Defined.

Definition ex_events : list event := [Step 0; Step 0; Step 1; Spurious 1; Step 1; Step 2].
Definition ex_ops : list xop_ips := [rename_op 1 10 2; op1 10; op1 3].
Lemma ipdep_exclusion_witness :
  exists m, run_events ex_events (start_machine ex_ops) = Some m /\
    forall ip, ip ∈ ipdep_list (m_pmp m) 3 <-> ipdep_idx ip = 3 /\ exists t x, m_threads m !! t = Some x /\ ip ∈ holding x.
Proof.
  assert (Forall no_alias ex_ops) as Ha.
  { apply Forall_lookup. intros [|[|[|i]]] op Hop; try discriminate Hop; injection Hop as <-; apply (bool_decide_unpack _); vm_compute; exact I. }
  eexists. split; [vm_compute; reflexivity|].
  intros ip. refine (proj2 (proj2 (ipdep_exclusion ex_ops ex_events _ Ha _)) 3 ip). vm_compute. reflexivity.
Defined.
