(* ===== verification/DirRead.v ===== *)
(** Reading directories (hammer2_xops.c): the back ends that look up names and keys
    under a directory inode and feed what they find.

    The topology is the one of Lookup, the operation is the one of Xop; a back end
    changes both.  [data] is what locking a chain makes available as chain->data (NULL
    after a read error), [inodes] the clusters of the inodes in memory. *)

From Stdlib Require Import ZArith Lia Bool.
From stdpp Require Import base numbers list option gmap gmultiset.
From S2P Require Import Prelude Disk Subr BlockTable Lookup Xop.

Abbreviation HAMMER2_LOOKUP_NODATA := 2 (only parsing).
Abbreviation HAMMER2_LOOKUP_SHARED := 256 (only parsing).        (* 0x0100 *)
Abbreviation HAMMER2_LOOKUP_ALWAYS := 2048 (only parsing).       (* 0x0800 *)
Abbreviation HAMMER2_RESOLVE_SHARED := 16 (only parsing).        (* 0x10 *)
Abbreviation HAMMER2_DIRHASH_VISIBLE := 9223372036854775808 (only parsing).
Abbreviation HAMMER2_DIRHASH_LOMASK := 32767 (only parsing).     (* 0x7FFF *)

(** * Directory entries *)

(** The fields of embed.dirent share their bytes with the statistics of the blockref. *)
Definition dirent_inum (b : blockref) : Z := u64 (br_data_count b).
Definition dirent_namlen (b : blockref) : Z := u16 (br_inode_count b).
Definition dirent_type (b : blockref) : Z := u8 (br_inode_count b .>> 16).

(** What the functions read of chain->data: of an inode, or the buffer of a long name. *)
Record cdata := Cdata {
  cd_inum : Z;
  cd_type : Z;
  cd_name_len : Z;
  cd_filename : list Z;
  cd_buf : list Z
}.

(** bcmp of the first [len] bytes *)
Definition same_bytes (a b : list Z) (len : Z) : bool := bool_decide (take (Z.to_nat len) a = take (Z.to_nat len) b).

Section dir.
Context (media : blockref -> loaded) (data : blockref -> option cdata) (inodes : Z -> option (list (option nat))).
Context (junk : option nat) (junk_error : Z).
Abbreviation chain_lookup := (hammer2_chain_lookup media).
Abbreviation chain_next := (hammer2_chain_next media).

Definition chain_error (t : topo) (c : nat) : Z := match t_nodes t !! c with Some y => l_error y | None => 0 end.
Definition chain_key (t : topo) (c : nat) : Z := match t_nodes t !! c with Some y => br_key (l_bref y) | None => 0 end.
Abbreviation feed := (fun t => hammer2_xop_feed (chain_error t) junk junk_error).

Definition hammer2_chain_dirent_test (b : blockref) (name : list Z) : outcome bool :=
  let name_len := alen name in
  if br_type b =? HAMMER2_BREF_TYPE_INODE then
    match data b with
    | Some d => Done ((cd_name_len d =? name_len) && same_bytes (cd_filename d) name name_len)
    | None => Panic
    end
  else if (br_type b =? HAMMER2_BREF_TYPE_DIRENT) && (dirent_namlen b =? name_len) then
    if 64 <? name_len then
      match data b with
      | Some d => Done (same_bytes (cd_buf d) name name_len)
      | None => Panic
      end
    else Done (same_bytes (br_check b) name name_len)
  else Done false.

(** * Inodes *)

Definition hammer2_inode_chain (cl : list (option nat)) (clindex : Z) : option nat :=
  if alen cl <=? clindex then None else aget cl clindex.
(** The parent is read from a chain that may be NULL. *)
Definition hammer2_inode_chain_and_parent (t : topo) (cl : list (option nat)) (clindex : Z) : outcome (nat * option nat) :=
  match hammer2_inode_chain cl clindex with
  | Some c => let! x := node t c in Done (c, l_parent x)
  | None => Panic
  end.

Definition set_l_error (e : Z) (x : lnode) : lnode :=
  LNode (l_chain x) (l_parent x) (l_initial x) (l_direct x) (l_bytes x) e (l_core x) (l_base x) (l_tree x).

(** (error, parent, chain); [iroot] is the cluster of the root inode of the PFS. *)
Definition hammer2_chain_inode_find (t : topo) (iroot : list (option nat)) (inum clindex flags : Z)
  : outcome (Z * option nat * option nat * topo) :=
  assert! flags .& HAMMER2_LOOKUP_NODATA =? 0;
  match inodes inum with
  | Some cl =>
      let! (c, parent) := hammer2_inode_chain_and_parent t cl clindex in
      Done (chain_error t c, parent, Some c, t)
  | None =>
      match hammer2_inode_chain iroot clindex with
      | None => Done (HAMMER2_ERROR_EIO, None, None, t)
      | Some parent =>
          let! res := chain_lookup t parent 0 inum inum flags in
          match r_chain res with
          | Some c =>
              if r_error res =? 0 then
                let! x := node (r_topo res) c in
                match data (l_bref x) with
                | Some d =>
                    if (l_error x =? 0) && negb (inum =? cd_inum d) then
                      Done (HAMMER2_ERROR_CHECK, Some (r_parent res), Some c, set_node c (set_l_error HAMMER2_ERROR_CHECK x) (r_topo res))
                    else Done (l_error x, Some (r_parent res), Some c, r_topo res)
                | None => Done (l_error x, Some (r_parent res), Some c, r_topo res)
                end
              else Done (r_error res, Some (r_parent res), Some c, r_topo res)
          | None => Done (r_error res, Some (r_parent res), None, r_topo res)
          end
      end
  end.

(** * Back ends *)

Definition hammer2_xop_ipcluster (ip1 : list (option nat)) (t : topo) (x : xhead) (clindex : Z) : outcome (topo * xhead) :=
  let chain := hammer2_inode_chain ip1 clindex in
  let error := match chain with Some c => chain_error t c | None => HAMMER2_ERROR_EIO end in
  let! (_, x) := feed t x chain clindex error in
  Done (t, x).

(** The loop of readdir, scanlhc and scanall: every chain is fed, until a feed or a
    lookup fails; the turns are the entries of the directory. *)
Fixpoint feed_scan (fuel : nat) (key_end flags : Z) (res : result) (x : xhead) (clindex : Z) : outcome (Z * topo * xhead) :=
  match r_chain res with
  | None => Done (r_error res, r_topo res, x)
  | Some c =>
      match fuel with
      | O => Panic
      | S fuel =>
          let! (error, x) := feed (r_topo res) x (Some c) clindex 0 in
          if negb (error =? 0) then Done (error, r_topo res, x)
          else
            let! res := chain_next (r_topo res) (r_parent res) (Some c) (r_key_next res) key_end flags in
            feed_scan fuel key_end flags res x clindex
      end
  end.

Definition hammer2_xop_readdir (fuel : nat) (ip1 : list (option nat)) (lkey : Z) (t : topo) (x : xhead) (clindex : Z)
  : outcome (topo * xhead) :=
  let flags := HAMMER2_LOOKUP_ALWAYS .| HAMMER2_LOOKUP_SHARED in
  let! (error, t, x) :=
    match hammer2_inode_chain ip1 clindex with
    | None => Done (0, t, x)
    | Some parent =>
        let! res := chain_lookup t parent 0 lkey lkey flags in
        let! res :=
          match r_chain res with
          | None => chain_lookup (r_topo res) (r_parent res) (r_key_next res) lkey HAMMER2_KEY_MAX flags
          | Some _ => Done res
          end in
        feed_scan fuel HAMMER2_KEY_MAX flags res x clindex
    end in
  let! (_, x) := feed t x None clindex error in
  Done (t, x).

Definition hammer2_xop_scanlhc (fuel : nat) (ip1 : list (option nat)) (lhc : Z) (t : topo) (x : xhead) (clindex : Z)
  : outcome (topo * xhead) :=
  let flags := HAMMER2_LOOKUP_ALWAYS .| HAMMER2_LOOKUP_SHARED in
  let! (error, t, x) :=
    match hammer2_inode_chain ip1 clindex with
    | None => Done (HAMMER2_ERROR_EIO, t, x)
    | Some parent =>
        let key_end := u64 (lhc + HAMMER2_DIRHASH_LOMASK) in
        let! res := chain_lookup t parent 0 lhc key_end flags in
        feed_scan fuel key_end flags res x clindex
    end in
  let! (_, x) := feed t x None clindex error in
  Done (t, x).

Definition hammer2_xop_scanall (fuel : nat) (ip1 : list (option nat)) (key_beg key_end resolve_flags lookup_flags : Z) (t : topo) (x : xhead) (clindex : Z)
  : outcome (topo * xhead) :=
  assert! tst resolve_flags HAMMER2_RESOLVE_SHARED;
  assert! tst lookup_flags HAMMER2_LOOKUP_SHARED;
  let! (error, t, x) :=
    match hammer2_inode_chain ip1 clindex with
    | None => Done (0, t, x)
    | Some parent =>
        let! res := chain_lookup t parent 0 key_beg key_end lookup_flags in
        feed_scan fuel key_end lookup_flags res x clindex
    end in
  let! (_, x) := feed t x None clindex error in
  Done (t, x).

(** Without a chain of the inode nothing is fed. *)
Definition hammer2_xop_lookup (ip1 : list (option nat)) (lhc : Z) (t : topo) (x : xhead) (clindex : Z) : outcome (topo * xhead) :=
  match hammer2_inode_chain ip1 clindex with
  | None => Done (t, x)
  | Some parent =>
      let! res := chain_lookup t parent 0 lhc lhc (HAMMER2_LOOKUP_ALWAYS .| HAMMER2_LOOKUP_SHARED) in
      let error :=
        if r_error res =? 0 then
          match r_chain res with Some c => chain_error (r_topo res) c | None => HAMMER2_ERROR_ENOENT end
        else r_error res in
      let! (_, x) := feed (r_topo res) x (r_chain res) clindex error in
      Done (r_topo res, x)
  end.

(** The search of nresolve, unlink and nrename for the entry of a name. *)
Fixpoint name_scan (fuel : nat) (name : list Z) (key_end flags : Z) (res : result) : outcome result :=
  match r_chain res with
  | None => Done res
  | Some c =>
      match fuel with
      | O => Panic
      | S fuel =>
          let! y := node (r_topo res) c in
          let! found := hammer2_chain_dirent_test (l_bref y) name in
          if found : bool then Done res
          else
            let! res := chain_next (r_topo res) (r_parent res) (Some c) (r_key_next res) key_end flags in
            name_scan fuel name key_end flags res
      end
  end.

(** The chain that was found, or the inode behind the directory entry: (error, chain). *)
Definition nresolve_target (iroot : list (option nat)) (res : result) (clindex : Z) : outcome (Z * option nat * topo) :=
  match r_chain res with
  | None => Done (r_error res, None, r_topo res)
  | Some c =>
      let! y := node (r_topo res) c in
      if l_error y =? 0 then
        if br_type (l_bref y) =? HAMMER2_BREF_TYPE_DIRENT then
          let! (error, _, chain, t) := hammer2_chain_inode_find (r_topo res) iroot (dirent_inum (l_bref y)) clindex HAMMER2_LOOKUP_SHARED in
          Done (error, chain, t)
        else Done (r_error res, Some c, r_topo res)
      else Done (if r_error res =? 0 then l_error y else r_error res, Some c, r_topo res)
  end.

Definition hammer2_xop_nresolve (fuel : nat) (iroot ip1 : list (option nat)) (name : list Z) (t : topo) (x : xhead) (clindex : Z)
  : outcome (topo * xhead) :=
  let flags := HAMMER2_LOOKUP_ALWAYS .| HAMMER2_LOOKUP_SHARED in
  let! (error, chain, t) :=
    match hammer2_inode_chain ip1 clindex with
    | None => Done (HAMMER2_ERROR_EIO, None, t)
    | Some parent =>
        let lhc := hammer2_dirhash name in
        let key_end := u64 (lhc + HAMMER2_DIRHASH_LOMASK) in
        let! res := chain_lookup t parent 0 lhc key_end flags in
        let! res := name_scan fuel name key_end flags res in
        nresolve_target iroot res clindex
    end in
  let! (_, x) := feed t x chain clindex error in
  Done (t, x).

(** [oparent], [ochain] stay locked across the search; when they were unlocked and are
    no longer parent and child the caller has to start again. *)
Definition checkdirempty (iroot : list (option nat)) (t : topo) (oparent : option nat) (oc : nat) (clindex : Z) : outcome (Z * topo) :=
  let! y := node t oc in
  let isdirent := br_type (l_bref y) =? HAMMER2_BREF_TYPE_DIRENT in
  let! (error, chain, t) :=
    if isdirent then
      let! (error, _, chain, t) := hammer2_chain_inode_find t iroot (dirent_inum (l_bref y)) clindex 0 in Done (error, chain, t)
    else Done (0, Some oc, t) in
  let! (error, t) :=
    match chain with
    | Some parent =>
        if error =? 0 then
          let! res := chain_lookup t parent 0 HAMMER2_DIRHASH_VISIBLE HAMMER2_KEY_MAX 0 in
          Done (match r_chain res with Some _ => HAMMER2_ERROR_ENOTEMPTY | None => r_error res end, r_topo res)
        else Done (error, t)
    | None => Done (error, t)
    end in
  if isdirent then
    let! y := node t oc in
    match oparent with
    | Some p =>
        let! px := node t p in
        if ch_deleted (l_chain y) || ch_deleted (l_chain px) || negb (bool_decide (l_parent y = Some p)) then Done (HAMMER2_ERROR_EAGAIN, t)
        else Done (error, t)
    | None => Panic
    end
  else Done (error, t).

(** * A free key for a new entry *)

(** The loop of hammer2_dirent_create: [lhc] goes up with the keys that are taken. *)
Fixpoint lhc_loop (fuel : nat) (key : nat -> Z) (lhc : Z) (x : xhead) : outcome (Z * Z * xhead) :=
  match fuel with
  | O => Panic
  | S fuel =>
      let! (error, x) := hammer2_xop_collect key x in
      if negb (error =? 0) then Done (error, lhc, x)
      else
        match cl_focus (x_cluster x) with
        | Some c => if negb (lhc =? key c) then Done (0, lhc, x) else lhc_loop fuel key (u64 (lhc + 1)) x
        | None => Panic
        end
  end.

(** hammer2_dirent_create up to the creation of the entry: (error, lhc). *)
Definition dirent_create_lhc (fuel : nat) (ECONNABORTED : Z) (types : list Z) (cc : list citem) (refs : gmultiset nat)
    (dip : list (option nat)) (name : list Z) (t : topo) : outcome (Z * Z * topo * xhead) :=
  let lhcbase := hammer2_dirhash name in
  let! x := hammer2_xop_alloc junk junk_error (alen dip) types cc refs in
  let! (t, x) := hammer2_xop_start (chain_error t) junk junk_error ECONNABORTED (hammer2_xop_scanlhc fuel dip lhcbase) dip t x in
  let! (error, lhc, x) := lhc_loop (S (S fuel)) (chain_key t) lhcbase x in
  let! x := hammer2_xop_retire x HAMMER2_XOPMASK_VOP in
  if negb (error =? 0) && negb (error =? HAMMER2_ERROR_ENOENT) then Done (error, lhc, t, x)
  else
    let lhc := if error =? 0 then lhc else u64 (lhc + 1) in
    if negb ((lhcbase .^ lhc) .&~ HAMMER2_DIRHASH_LOMASK =? 0) then Done (HAMMER2_ERROR_ENOSPC, lhc, t, x)
    else Done (0, lhc, t, x).
End dir.
