(* ===== verification/DirTheorems.v ===== *)
(** Reading directories: the lookups of the topology, the ring of the operation and the
    collector together list a directory, find a name and find a free key. *)

From Stdlib Require Import ZArith Lia Bool Sorted.
From stdpp Require Import base numbers gmultiset list option gmap.
From S2P Require Import Prelude Disk Crc Subr BlockTable BlockTableProof ChainFind ChainFindProof Lookup LookupSpec LookupProof LookupTop Xop XopProof XopTheorems DirRead.

Section dir.
Context (media : blockref -> loaded) (data : blockref -> option cdata) (inodes : Z -> option (list (option nat))).
Context (junk : option nat) (junk_error ECONNABORTED : Z).
Abbreviation leaves := LookupTop.collect.

(** * Chains across loads *)

Definition has_bref (t : topo) (c : nat) (b : blockref) : Prop := exists y, t_nodes t !! c = Some y /\ l_bref y = b.
Definition response_of (t : topo) (c : nat) : response := (Some c, chain_error t c).

Lemma loads_chain t t' c b : loads media t t' -> has_bref t c b ->
  has_bref t' c b /\ chain_error t' c = chain_error t c.
Proof.
  intros Hld (y & Hy & Hb). destruct (ld_node _ _ _ Hld _ _ Hy) as (y' & Hy' & E1 & _ & E2 & _). split.
  - exists y'. split; [exact Hy'|]. unfold l_bref in *. rewrite E1. exact Hb.
  - unfold chain_error. rewrite Hy, Hy'. exact E2.
Qed.
Lemma loads_chains t t' cs bs : loads media t t' -> Forall2 (has_bref t) cs bs ->
  Forall2 (has_bref t') cs bs /\ map (response_of t') cs = map (response_of t) cs.
Proof.
  intros Hld. induction 1 as [|c b cs bs H _ [IH1 IH2]]; [split; [constructor|reflexivity]|].
  destruct (loads_chain _ _ _ _ Hld H) as [H1 H2]. split; [constructor; assumption|]. cbn [map]. unfold response_of at 1 3. rewrite H2, IH2. reflexivity.
Qed.

(** * The loop that feeds *)

Lemma feed_scan_ok D t r ke flags (Hflags : tst flags HAMMER2_LOOKUP_MATCHIND = false) (Hke : ke < 2 ^ 64) fuel :
  root_ok media D t r -> forall l res, scanning media ke D t r l res -> (length l <= fuel)%nat ->
  exists cs t', loads media (r_topo res) t' /\ Forall2 (has_bref t') cs (leaves l).1 /\
  forall x e it key pend, xst x e it key 0 pend -> tst (e_run e) HAMMER2_XOPMASK_VOP = true -> alen pend + Z.of_nat (length l) < 2 ^ 30 ->
    exists x', feed_scan media junk junk_error fuel ke flags res x 0 = Done ((leaves l).2, t', x')
      /\ xst x' e it key 0 (pend ++ map (response_of t') cs).
Proof.
  intros Hr. assert (forall fuel res l, (leaves l).1 = [] -> r_chain res = None /\ r_error res = (leaves l).2 ->
    exists cs t', loads media (r_topo res) t' /\ Forall2 (has_bref t') cs (leaves l).1 /\
    forall x e it key pend, xst x e it key 0 pend -> tst (e_run e) HAMMER2_XOPMASK_VOP = true -> alen pend + Z.of_nat (length l) < 2 ^ 30 ->
      exists x', feed_scan media junk junk_error fuel ke flags res x 0 = Done ((leaves l).2, t', x')
        /\ xst x' e it key 0 (pend ++ map (response_of t') cs)) as Hend.
  { clear. intros fuel res l El [Hc He]. exists [], (r_topo res). rewrite El. split; [apply loads_refl|]. split; [apply List.Forall2_nil|].
    intros x e it key pend Hx _ _. exists x. cbn [map]. rewrite app_nil_r. split; [|exact Hx]. destruct fuel; cbn [feed_scan]; rewrite Hc, He; reflexivity. }
  induction fuel as [|fuel IH]; intros [|[b|b er|b] l] res Hs Hf;
    try (apply Hend; [reflexivity|exact (scanning_nil _ _ _ _ _ _ Hs)]);
    try (apply (Hend _ _ (Bad b er :: l)); [reflexivity|exact (scanning_bad _ _ _ _ _ _ _ _ _ Hs)]);
    try (destruct (scanning_enter _ _ _ _ _ _ _ _ Hs)).
  - cbn in Hf. lia.
  - destruct (scanning_leaf _ _ _ Hflags Hke _ _ _ _ _ _ Hr Hs) as (c & y & res' & Hc & _ & Hy & Eb & En & Hld & Hs').
    destruct (IH l res' Hs' ltac:(cbn in Hf; lia)) as (cs & t' & Hld' & Hcs & Hrun).
    pose proof (loads_trans _ _ _ _ Hld Hld') as Hld2.
    destruct (loads_chain _ _ c b Hld2 ltac:(exists y; split; assumption)) as [Hb Herr].
    exists (c :: cs), t'. cbn [leaves feed_scan]. rewrite Hc, En. destruct (leaves l) as [bs er] eqn:El. cbn [fst snd] in *.
    split; [exact Hld2|]. split; [constructor; assumption|]. intros x e it key pend Hx Hact Hlen. cbn [length] in Hlen.
    destruct (feed_ok (chain_error (r_topo res)) junk junk_error _ _ _ _ _ (Some c, 0) Hx Hact ltac:(lia)) as (x1 & E1 & Hx1).
    destruct (Hrun x1 e it key _ Hx1 Hact ltac:(rewrite alen_app_one; lia)) as (x' & E & Hx').
    exists x'. cbn [fst snd] in E1. rewrite E1. cbn [obind Z.eqb negb]. rewrite E. split; [reflexivity|].
    rewrite <- app_assoc in Hx'. cbn [app map]. unfold response_of at 1. rewrite Herr. exact Hx'.
Qed.

(** Feeding the end of the scan. *)
Lemma feed_end t x e it key pend error :
  xst x e it key 0 pend -> tst (e_run e) HAMMER2_XOPMASK_VOP = true -> alen pend + 1 < 2 ^ 30 ->
  exists x', hammer2_xop_feed (chain_error t) junk junk_error x None 0 error = Done (0, x') /\ xst x' e it key 0 (pend ++ [(None, error)]).
Proof.
  intros Hx Hact Hlen. destruct (feed_ok (chain_error t) junk junk_error _ _ _ _ _ (None, error) Hx Hact Hlen) as (x' & E & Hx').
  exists x'. split; [exact E|]. unfold stored, eff_error in Hx'. cbn [fst snd] in Hx'. destruct (error =? 0) eqn:E0; [apply Z.eqb_eq in E0; subst; exact Hx'|exact Hx'].
Qed.

(** * An operation on a directory *)

Definition dir_session (backend : topo -> xhead -> Z -> outcome (topo * xhead)) (types : list Z) (cc : list citem) (refs : gmultiset nat)
    (ichain : nat) (n : nat) (t : topo) : outcome (list nat * Z * topo * xhead) :=
  let! x := hammer2_xop_alloc junk junk_error 1 types cc refs in
  let! (t, x) := hammer2_xop_start (chain_error t) junk junk_error ECONNABORTED backend [Some ichain] t x in
  let! (seen, error, x) := frontend (chain_key t) n x in
  let! x := hammer2_xop_retire x HAMMER2_XOPMASK_VOP in
  Done (seen, error, t, x).

Definition cleaned (x : xhead) : Prop :=
  x_freed x = true /\ x_holds x = ∅ /\ exists it, x_ip1 x = Some [it] /\ x_refs x = refs_of [it].

Lemma dir_session_ok backend types cc ichain n t t' pend :
  master_type (aget types 0) -> (length pend < n)%nat -> keys_below_max (chain_key t') pend ->
  (forall x1, xst x1 (env0 (HAMMER2_XOPMASK_VOP .| 1) 1 types cc) (Citem None 0 0) 0 0 [] ->
     exists x2, backend t x1 0 = Done (t', x2) /\ xst x2 (env0 (HAMMER2_XOPMASK_VOP .| 1) 1 types cc) (Citem None 0 0) 0 0 pend) ->
  exists x, dir_session backend types cc (refs_of cc) ichain n t
      = Done ((scan (chain_key t') 0 0 pend).1, (scan (chain_key t') 0 0 pend).2, t', x) /\ cleaned x.
Proof.
  intros Ht Hn Hk Hb. destruct (xop_alloc_ok junk junk_error types cc) as (x0 & E0 & H0).
  destruct (start_ok (chain_error t) junk junk_error ECONNABORTED backend t t' x0 types cc ichain pend Hb H0) as (x1 & E1 & H1).
  assert (fresh (chain_key t') 0 (Citem None 0 0) = false) as Hf by reflexivity.
  destruct (frontend_ok (chain_key t') n _ _ _ _ _ _ Hk (Ht : master_type (e_type (env0 HAMMER2_XOPMASK_VOP 1 types cc))) Hf Hn H1) as (x2 & it & key & ri & pend' & E2 & H2).
  destruct (retire_frontend _ _ _ _ _ _ _ H2 eq_refl eq_refl eq_refl eq_refl) as (x3 & E3 & A & B & C & F).
  exists x3. split; [|split; [exact A|split; [exact B|eauto]]].
  unfold dir_session. rewrite E0. cbn [obind]. rewrite E1. cbn [obind]. rewrite E2. cbn [obind ci_error]. rewrite E3. reflexivity.
Qed.

(** * Order *)

Lemma leaves_length l : (length (leaves l).1 <= length l)%nat.
Proof.
  induction l as [|[b|b e|b] l IH]; cbn [leaves fst length]; try lia. destruct (leaves l) as [bs e]. cbn [fst length] in *. lia.
Qed.
Lemma leaves_in l b : b ∈ (leaves l).1 -> Leaf b ∈ l.
Proof.
  induction l as [|[a|a e|a] l IH]; cbn [leaves]; try (intros []%not_elem_of_nil).
  - destruct (leaves l) as [bs er]. cbn [fst] in *. intros [->|H]%elem_of_cons; [left|right; exact (IH H)].
  - intros H. right. exact (IH H).
Qed.
Lemma leaves_sorted l : StronglySorted item_before l -> (forall it, it ∈ l -> key_ok (item_bref it)) ->
  StronglySorted (fun a b => br_key a < br_key b) (leaves l).1.
Proof.
  induction 1 as [|a l Hs IH Hf]; intros Hk; [constructor|].
  assert (StronglySorted (fun a b => br_key a < br_key b) (leaves l).1) as IH' by (apply IH; intros it H; apply Hk; right; exact H).
  destruct a as [a|a e|a]; cbn [leaves]; [|constructor|exact IH'].
  pose proof (leaves_in l) as Hin. destruct (leaves l) as [bs er]. cbn [fst] in *. constructor; [exact IH'|].
  apply Forall_forall. intros b Hb. rewrite Forall_forall in Hf. specialize (Hf _ (Hin _ Hb)). unfold item_before in Hf. cbn [item_bref] in Hf.
  apply before_keys in Hf; [exact Hf|]. exact (Hk (Leaf a) ltac:(left)).
Qed.

(** The order of the chains is the order of their keys. *)
Lemma chains_sorted t cs bs : Forall2 (has_bref t) cs bs -> StronglySorted (fun a b => br_key a < br_key b) bs ->
  StronglySorted (fun c d => chain_key t c < chain_key t d) cs.
Proof.
  assert (forall c b, has_bref t c b -> chain_key t c = br_key b) as Hkey by (intros c b (y & Hy & <-); unfold chain_key; rewrite Hy; reflexivity).
  induction 1 as [|c b cs bs Hc Hcs IH]; intros Hs; [constructor|]. apply StronglySorted_inv in Hs as [Hs Hf]. constructor; [exact (IH Hs)|].
  rewrite (Hkey _ _ Hc). clear IH Hs Hc. induction Hcs as [|d b' cs bs Hd _ IH]; [constructor|].
  inversion Hf as [|? ? H1 H2]; subst. constructor; [rewrite (Hkey _ _ Hd); exact H1|exact (IH H2)].
Qed.

Definition fed (t : topo) (cs : list nat) (error : Z) : list response := map (response_of t) cs ++ [(None, error)].

Lemma fed_sorted t cs error : Forall (fun c => chain_error t c = 0) cs -> Forall (fun c => 0 <= chain_key t c) cs ->
  StronglySorted (fun c d => chain_key t c < chain_key t d) cs ->
  scan (chain_key t) 0 0 (fed t cs error) = (cs, if error =? 0 then HAMMER2_ERROR_ENOENT else error).
Proof.
  intros He Hk Hs. rewrite <- (scan_sorted (chain_key t) (chain_error t) cs error 0 He Hk Hs). f_equal.
  unfold fed. rewrite map_app, map_map. f_equal. cbn [map]. unfold stored, eff_error. cbn [fst snd].
  destruct (error =? 0) eqn:E; [apply Z.eqb_eq in E; subst|]; reflexivity.
Qed.

(** * The hits of a directory *)

Section directory.
Context (D : nat) (t : topo) (r : nat) (Hroot : root_ok media D t r).
Abbreviation its := (walk media D t r).

Lemma dir_key_ok it : it ∈ its -> key_ok (item_bref it).
Proof. destruct (rk_node _ _ _ _ Hroot) as (x & Hx & He & _). exact (walk_key_ok media D t r x (rk_wf _ _ _ _ Hroot) Hx (or_introl He) it). Qed.

Lemma dir_hits_sorted ke k : StronglySorted item_before (hits ke k its).
Proof. rewrite <- hits_shown. unfold hits. apply sorted_filter, walk_sorted, (rk_wf _ _ _ _ Hroot). Qed.

Lemma dir_leaves_sorted ke k : StronglySorted (fun a b => br_key a < br_key b) (leaves (hits ke k its)).1.
Proof. apply leaves_sorted; [apply dir_hits_sorted|]. intros it [_ H]%list_elem_of_filter. exact (dir_key_ok it H). Qed.

Lemma filter_none (P : item -> Prop) `{forall x, Decision (P x)} (l : list item) : (forall x, x ∈ l -> ~ P x) -> filter P l = [].
Proof.
  induction l as [|a l IH]; [reflexivity|]. intros Hn. rewrite filter_cons, decide_False by (apply Hn; left).
  apply IH. intros x Hx. apply Hn. right. exact Hx.
Qed.

(** What a search of the single key [k] finds is also first when the range goes on. *)
Lemma first_hit_widen k ke it : k <= ke -> first_hit_item k k its = Some it -> first_hit_item k ke its = Some it.
Proof.
  intros Hle. rewrite !head_hits, <- (hits_shown k k), <- (hits_shown ke k).
  pose proof (walk_sorted media D t r (rk_wf _ _ _ _ Hroot)) as Hs.
  assert (forall it', it' ∈ shown its -> key_ok (item_bref it') /\ is_enter it' = false) as Hk
    by (intros it' [H0 H]%list_elem_of_filter; split; [exact (dir_key_ok it' H)|exact H0]).
  induction Hs as [|a l Hs IH Hf]; [discriminate|]. destruct (Hk a ltac:(left)) as [Hka Hea].
  assert (forall k', hit k k' a = (k <=? range_last (item_bref a)) && (br_key (item_bref a) <=? k')) as Hhit by (destruct a; [reflexivity..|discriminate]).
  pose proof (key_last_range _ Hka) as [_ Hr]. unfold hits in *. rewrite !filter_cons, !Hhit.
  assert (forall it', it' ∈ l -> key_ok (item_bref it') /\ is_enter it' = false) as Hk' by (intros; apply Hk; right; assumption).
  destruct (Z.leb_spec k (range_last (item_bref a))) as [H1|H1]; cbn [andb].
  - destruct (Z.leb_spec (br_key (item_bref a)) k) as [H2|H2].
    + rewrite (decide_True _ _ eq_refl). destruct (Z.leb_spec (br_key (item_bref a)) ke); [|lia]. rewrite decide_True by reflexivity. exact id.
    + rewrite decide_False by discriminate. rewrite (filter_none _ l); [discriminate|]. intros b Hb.
      rewrite Forall_forall in Hf. specialize (Hf b Hb). unfold item_before, before in Hf. destruct b; cbn in Hf |- *; try discriminate; lia.
  - rewrite !decide_False by discriminate. exact (IH Hk').
Qed.

(** The first search of readdir: the whole range from [lkey] is left to scan. *)
Lemma readdir_search lkey flags : tst flags HAMMER2_LOOKUP_MATCHIND = false -> 0 <= lkey <= HAMMER2_KEY_MAX -> no_gap HAMMER2_KEY_MAX lkey its ->
  exists res1 res t1, hammer2_chain_lookup media t r 0 lkey lkey flags = Done res1
    /\ match r_chain res1 with
       | None => hammer2_chain_lookup media (r_topo res1) (r_parent res1) (r_key_next res1) lkey HAMMER2_KEY_MAX flags
       | Some _ => Done res1
       end = Done res
    /\ root_ok media D t1 r /\ loads media t t1 /\ walk media D t1 r = its
    /\ scanning media HAMMER2_KEY_MAX D t1 r (hits HAMMER2_KEY_MAX lkey its) res.
Proof.
  intros Hfl Hl Hg. assert (no_gap lkey lkey its) as Hg1 by (left; reflexivity).
  destruct (lookup_ok media flags lkey Hfl ltac:(lia) D t r 0 r lkey 0 Hroot (path_refl _ _) ltac:(lia) Hg1) as (res1 & E1 & H1).
  destruct (rk_node _ _ _ _ Hroot) as (x & Hx & _).
  exists res1. rewrite E1. pose proof H1 as (Hld & (n & Hp) & Hm). destruct (r_chain res1) as [c|] eqn:Ec.
  - exists res1, t. split; [reflexivity|]. split; [reflexivity|]. split; [exact Hroot|]. split; [apply loads_refl|]. split; [reflexivity|].
    apply scanning_start; [exact Hl|exact Hg|]. split; [exact Hld|]. split; [exists n; exact Hp|].
    destruct (first_hit_item lkey lkey its) as [it|] eqn:Eh; [|destruct Hm; congruence].
    rewrite (first_hit_widen lkey HAMMER2_KEY_MAX it ltac:(lia) Eh), Ec. exact Hm.
  - pose proof (root_loads media D t _ r Hroot Hld) as Hr1. pose proof (ld_walk _ _ _ Hld D r x Hx) as Hw.
    destruct (lookup_ok media flags HAMMER2_KEY_MAX Hfl ltac:(lia) D (r_topo res1) r n (r_parent res1) lkey (r_key_next res1) Hr1 Hp ltac:(lia) ltac:(rewrite Hw; exact Hg)) as (res & E & H).
    exists res, (r_topo res1). split; [reflexivity|]. split; [exact E|]. split; [exact Hr1|]. split; [exact Hld|]. split; [exact Hw|].
    rewrite <- Hw. apply scanning_start; [lia|rewrite Hw; exact Hg|exact H].
Qed.

(** What a back end of the feeding kind leaves behind. *)
Definition feeds (backend : topo -> xhead -> Z -> outcome (topo * xhead)) (bs : list blockref) (error : Z) : Prop :=
  exists cs t', loads media t t' /\ Forall2 (has_bref t') cs bs /\
  forall x e it key, xst x e it key 0 [] -> tst (e_run e) HAMMER2_XOPMASK_VOP = true ->
    exists x', backend t x 0 = Done (t', x') /\ xst x' e it key 0 (fed t' cs error).

Lemma fed_all ke flags t1 l res : tst flags HAMMER2_LOOKUP_MATCHIND = false -> ke < 2 ^ 64 ->
  root_ok media D t1 r -> loads media t t1 -> scanning media ke D t1 r l res -> Z.of_nat (length l) < 2 ^ 30 - 1 ->
  forall fuel, (length l <= fuel)%nat ->
  feeds (fun _ x i => let! (error, t, x) := feed_scan media junk junk_error fuel ke flags res x i in
                      let! (_, x) := hammer2_xop_feed (chain_error t) junk junk_error x None i error in Done (t, x))
    (leaves l).1 (leaves l).2.
Proof.
  intros Hfl Hke Hr1 Hld Hs Hlen fuel Hf.
  destruct (feed_scan_ok D t1 r ke flags Hfl Hke fuel Hr1 l res Hs Hf) as (cs & t' & Hld' & Hcs & Hrun).
  exists cs, t'. split; [exact (loads_trans _ _ _ _ Hld (loads_trans _ _ _ _ (proj1 Hs) Hld'))|]. split; [exact Hcs|].
  intros x e it key Hx Hact. destruct (Hrun x e it key [] Hx Hact ltac:(change (alen []) with 0; lia)) as (x1 & E1 & Hx1).
  assert (alen (map (response_of t') cs) + 1 < 2 ^ 30) as Hl2.
  { unfold alen. rewrite length_map, (Forall2_length _ _ _ Hcs). enough (length (leaves l).1 <= length l)%nat by lia.
    apply leaves_length. }
  destruct (feed_end t' x1 e it key _ (leaves l).2 Hx1 Hact Hl2) as (x' & E' & Hx').
  exists x'. rewrite E1. cbn [obind]. rewrite E'. split; [reflexivity|exact Hx'].
Qed.

Lemma readdir_feeds lkey fuel : 0 <= lkey <= HAMMER2_KEY_MAX -> no_gap HAMMER2_KEY_MAX lkey its ->
  let l := hits HAMMER2_KEY_MAX lkey its in
  (length l <= fuel)%nat -> Z.of_nat (length l) < 2 ^ 30 - 1 ->
  feeds (hammer2_xop_readdir media junk junk_error fuel [Some r] lkey) (leaves l).1 (leaves l).2.
Proof.
  intros Hl Hg l Hf Hlen.
  destruct (readdir_search lkey (HAMMER2_LOOKUP_ALWAYS .| HAMMER2_LOOKUP_SHARED) eq_refl Hl Hg) as (res1 & res & t1 & E1 & E2 & Hr1 & Hld & Hw & Hs).
  destruct (fed_all HAMMER2_KEY_MAX (HAMMER2_LOOKUP_ALWAYS .| HAMMER2_LOOKUP_SHARED) t1 l res eq_refl ltac:(lia) Hr1 Hld Hs Hlen fuel Hf) as (cs & t' & A & B & C).
  exists cs, t'. split; [exact A|]. split; [exact B|]. intros x e it key Hx Hact. destruct (C x e it key Hx Hact) as (x' & E & Hx').
  exists x'. split; [|exact Hx']. rewrite <- E. unfold hammer2_xop_readdir. change (hammer2_inode_chain [Some r] 0) with (Some r). cbv beta zeta iota.
  rewrite E1. cbn [obind]. destruct (r_chain res1) eqn:Ec.
  - injection E2 as ->. reflexivity.
  - rewrite E2. reflexivity.
Qed.

(** * Listing *)

Lemma fed_keys t' cs bs error : Forall2 (has_bref t') cs bs -> Forall (fun b => 0 <= br_key b < HAMMER2_KEY_MAX) bs ->
  keys_below_max (chain_key t') (fed t' cs error).
Proof.
  intros H Hk. unfold keys_below_max, fed. apply Forall_app. split; [|repeat constructor].
  apply Forall_map. induction H as [|c b cs bs (y & Hy & Hb) _ IH]; [apply List.Forall_nil|].
  inversion Hk as [|? ? H1 H2]; subst. apply List.Forall_cons; [|exact (IH H2)]. cbn. unfold chain_key. rewrite Hy. exact H1.
Qed.
Lemma fed_nonneg t' cs bs : Forall2 (has_bref t') cs bs -> Forall (fun b => 0 <= br_key b < HAMMER2_KEY_MAX) bs -> Forall (fun c => 0 <= chain_key t' c) cs.
Proof.
  induction 1 as [|c b cs bs (y & Hy & Hb) _ IH]; intros Hk; [apply List.Forall_nil|].
  inversion Hk as [|? ? H1 H2]; subst. apply List.Forall_cons; [|exact (IH H2)]. unfold chain_key. rewrite Hy. lia.
Qed.

(** The entries of the directory have keys below KEY_MAX. *)
Definition keys_small : Prop := forall b, Leaf b ∈ its -> br_key b < HAMMER2_KEY_MAX.
Lemma dir_leaves_small ke k : keys_small -> Forall (fun b => 0 <= br_key b < HAMMER2_KEY_MAX) (leaves (hits ke k its)).1.
Proof.
  intros Hs. apply List.Forall_forall. intros b Hb. apply list_elem_of_In, leaves_in, list_elem_of_filter in Hb as [_ Hb].
  destruct (dir_key_ok _ Hb) as (_ & H & _). cbn in H. specialize (Hs b Hb). lia.
Qed.

(** C30. The session of hammer2_xop_readdir on a well-formed directory, whatever part of
    it is in memory: the front end is given the scan of the directory's entries from
    [lkey] on, up to the first block that cannot be read; when no entry is errored that
    is every one of them in key order and once, and then the error of that block, or
    ENOENT at the end of the directory.  Only blocks are loaded, nothing stays held. *)
Theorem readdir_lists types cc lkey fuel :
  0 <= lkey <= HAMMER2_KEY_MAX -> no_gap HAMMER2_KEY_MAX lkey its -> keys_small -> master_type (aget types 0) ->
  let l := hits HAMMER2_KEY_MAX lkey its in
  (length l <= fuel)%nat -> Z.of_nat (length l) < 2 ^ 30 - 1 ->
  exists seen final cs t' x,
    dir_session (hammer2_xop_readdir media junk junk_error fuel [Some r] lkey) types cc (refs_of cc) r (S (S fuel)) t = Done (seen, final, t', x)
    /\ (seen, final) = scan (chain_key t') 0 0 (fed t' cs (leaves l).2)
    /\ loads media t t' /\ Forall2 (has_bref t') cs (leaves l).1 /\ cleaned x
    /\ (Forall (fun c => chain_error t' c = 0) cs ->
        seen = cs /\ final = if (leaves l).2 =? 0 then HAMMER2_ERROR_ENOENT else (leaves l).2).
Proof.
  intros Hl Hg Hsm Ht l Hf Hlen. destruct (readdir_feeds lkey fuel Hl Hg Hf Hlen) as (cs & t' & Hld & Hcs & Hrun). fold l in Hcs, Hrun.
  pose proof (dir_leaves_small HAMMER2_KEY_MAX lkey Hsm) as Hsmall. fold l in Hsmall.
  assert (length (fed t' cs (leaves l).2) < S (S fuel))%nat as Hn.
  { unfold fed. rewrite length_app, length_map, (Forall2_length _ _ _ Hcs). pose proof (leaves_length l). cbn [length]. lia. }
  destruct (dir_session_ok (hammer2_xop_readdir media junk junk_error fuel [Some r] lkey) types cc r (S (S fuel)) t t' (fed t' cs (leaves l).2)
              Ht Hn (fed_keys _ _ _ _ Hcs Hsmall)) as (x & E & Hx).
  { intros x1 Hx1. exact (Hrun x1 _ _ _ Hx1 eq_refl). }
  eexists _, _, cs, t', x. split; [exact E|]. split; [destruct (scan _ _ _ _); reflexivity|]. split; [exact Hld|]. split; [exact Hcs|]. split; [exact Hx|].
  intros He. rewrite fed_sorted; [split; reflexivity|exact He|exact (fed_nonneg _ _ _ Hcs Hsmall)|].
  exact (chains_sorted _ _ _ Hcs (dir_leaves_sorted _ _)).
Qed.

(** * A free key *)

Lemma scanlhc_feeds lhc fuel : 0 <= lhc -> lhc + HAMMER2_DIRHASH_LOMASK <= HAMMER2_KEY_MAX -> no_gap (lhc + HAMMER2_DIRHASH_LOMASK) lhc its ->
  let l := hits (lhc + HAMMER2_DIRHASH_LOMASK) lhc its in
  (length l <= fuel)%nat -> Z.of_nat (length l) < 2 ^ 30 - 1 ->
  feeds (hammer2_xop_scanlhc media junk junk_error fuel [Some r] lhc) (leaves l).1 (leaves l).2.
Proof.
  intros H0 Hl Hg l Hf Hlen. set (ke := lhc + HAMMER2_DIRHASH_LOMASK) in *. assert (0 <= lhc <= ke) as Hrange by (unfold ke; lia).
  destruct (lookup_ok media (HAMMER2_LOOKUP_ALWAYS .| HAMMER2_LOOKUP_SHARED) ke eq_refl ltac:(lia) D t r 0 r lhc 0 Hroot (path_refl _ _) ltac:(unfold ke; lia) Hg) as (res & E & H).
  destruct (fed_all ke (HAMMER2_LOOKUP_ALWAYS .| HAMMER2_LOOKUP_SHARED) t l res eq_refl ltac:(lia) Hroot (loads_refl _ _)
              (scanning_start _ _ _ _ _ _ _ Hrange Hg H) Hlen fuel Hf) as (cs & t' & A & B & C).
  exists cs, t'. split; [exact A|]. split; [exact B|]. intros x e it key Hx Hact. destruct (C x e it key Hx Hact) as (x' & E' & Hx').
  exists x'. split; [|exact Hx']. rewrite <- E'. unfold hammer2_xop_scanlhc. change (hammer2_inode_chain [Some r] 0) with (Some r). cbv beta zeta iota.
  fold ke. rewrite u64_small by (unfold ke in *; lia). rewrite E. reflexivity.
Qed.
End directory.

(** The collector on a queue of error-free chains in key order. *)
Lemma collect_next ch_key x e it key ri c pend :
  master_type (e_type e) -> fresh ch_key key it = false -> key <= ch_key c -> 0 <= ch_key c < HAMMER2_KEY_MAX ->
  xst x e it key ri ((Some c, 0) :: pend) ->
  exists x' ri' it', hammer2_xop_collect ch_key x = Done (0, x') /\ cl_focus (x_cluster x') = Some c
    /\ fresh ch_key (ch_key c + 1) it' = false /\ xst x' e it' (ch_key c + 1) ri' pend.
Proof.
  intros Ht Hf Hle Hk H. assert (advance ch_key key it ((Some c, 0) :: pend) = (load (Some c, 0) it, pend)) as Ea.
  { cbn [advance]. rewrite Hf. assert (fresh ch_key key (load (Some c, 0) it) = true) as Hl by (unfold fresh; cbn [load ci_chain fst]; lia).
    destruct pend; cbn [advance]; rewrite Hl; reflexivity. }
  destruct (collect_ok ch_key x e it key ri _ ltac:(rewrite Ea; intros d [= <-]; lia) Ht H) as (x' & ri' & E & Hx' & Hc). rewrite Ea in *.
  exists x', ri', (load (Some c, 0) it). split; [exact E|]. split; [exact Hc|]. cbn [fst snd] in Hx'.
  assert (next_key ch_key (load (Some c, 0) it) = ch_key c + 1) as En by (unfold next_key; cbn [ci_chain load fst]; destruct (ch_key c =? _) eqn:Em; [apply Z.eqb_eq in Em; lia|reflexivity]).
  rewrite En in Hx'. split; [unfold fresh; cbn [load ci_chain fst]; lia|exact Hx'].
Qed.
Lemma collect_end ch_key x e it key ri error :
  master_type (e_type e) -> fresh ch_key key it = false -> xst x e it key ri [(None, error)] ->
  exists x' ri' it' key', hammer2_xop_collect ch_key x = Done (if error =? 0 then HAMMER2_ERROR_ENOENT else error, x') /\ xst x' e it' key' ri' [].
Proof.
  intros Ht Hf H. assert (advance ch_key key it [(None, error)] = (Citem None (ci_flags (load (None, error) it)) error, [])) as Ea by (cbn [advance]; rewrite Hf; reflexivity).
  destruct (collect_ok ch_key x e it key ri _ ltac:(rewrite Ea; intros d [=]) Ht H) as (x' & ri' & E & Hx' & Hc). rewrite Ea in *.
  exists x', ri', (Citem None (ci_flags (load (None, error) it)) error), (next_key ch_key (Citem None (ci_flags (load (None, error) it)) error)).
  split; [exact E|exact Hx'].
Qed.

Lemma lhc_loop_ok ch_key cs : forall fuel lhc x e it key ri,
  master_type (e_type e) -> fresh ch_key key it = false -> 0 <= key <= lhc -> StronglySorted (fun c d => ch_key c < ch_key d) cs ->
  Forall (fun c => lhc <= ch_key c < HAMMER2_KEY_MAX) cs -> (length cs < fuel)%nat ->
  xst x e it key ri (map (fun c => (Some c, 0)) cs ++ [(None, 0)]) ->
  exists error lhc' x' it' key' ri' pend', lhc_loop fuel ch_key lhc x = Done (error, lhc', x') /\ xst x' e it' key' ri' pend'
    /\ lhc <= lhc' /\ (forall k, lhc <= k < lhc' -> exists c, c ∈ cs /\ ch_key c = k)
    /\ (error = 0 /\ (exists c, c ∈ cs /\ lhc' < ch_key c) /\ (forall c, c ∈ cs -> ch_key c <> lhc') \/ error = HAMMER2_ERROR_ENOENT /\ forall c, c ∈ cs -> ch_key c < lhc').
Proof.
  induction cs as [|c cs IH]; intros fuel lhc x e it key ri Ht Hf Hkey Hs Hk Hfuel H; (destruct fuel as [|fuel]; [simpl in Hfuel; lia|]); cbn [lhc_loop].
  - destruct (collect_end ch_key x e it key ri 0 Ht Hf H) as (x' & ri' & it' & key' & E & Hx'). rewrite E. cbn [obind].
    exists HAMMER2_ERROR_ENOENT, lhc, x', it', key', ri', []. split; [reflexivity|]. split; [exact Hx'|]. split; [lia|]. split; [lia|].
    right. split; [reflexivity|]. intros c []%not_elem_of_nil.
  - inversion Hk as [|? ? Hkc Hkcs]; subst. apply StronglySorted_inv in Hs as [Hs Hlt].
    destruct (collect_next ch_key x e it key ri c _ Ht Hf ltac:(lia) ltac:(lia) H) as (x1 & ri1 & it1 & E & Hfoc & Hf1 & H1).
    rewrite E. cbn [obind Z.eqb negb]. rewrite Hfoc. destruct (Z.eqb_spec lhc (ch_key c)) as [Heq|Hne]; cbn [negb].
    + rewrite u64_small by lia. destruct (IH fuel (lhc + 1) x1 e it1 (ch_key c + 1) ri1 Ht Hf1 ltac:(lia) Hs) as (er & lhc' & x' & it' & key' & ri' & pend' & E' & Hx' & A & B & C); [|simpl in Hfuel; lia|exact H1|].
      { rewrite List.Forall_forall in *. intros d Hd. specialize (Hlt d Hd). specialize (Hkcs d Hd). lia. }
      exists er, lhc', x', it', key', ri', pend'. split; [exact E'|]. split; [exact Hx'|]. split; [lia|]. split.
      * intros k Hk'. destruct (Z.eq_dec k lhc) as [->|Hn]; [exists c; split; [left|symmetry; exact Heq]|].
        destruct (B k ltac:(lia)) as (d & Hd & Ed). exists d. split; [right; exact Hd|exact Ed].
      * destruct C as [(-> & (d & Hd & Hgt) & C)|[-> C]]; [left|right]; (split; [reflexivity|]).
        -- split; [exists d; split; [right; exact Hd|exact Hgt]|]. intros d' [->|Hd']%elem_of_cons; [lia|exact (C d' Hd')].
        -- intros d [->|Hd]%elem_of_cons; [lia|exact (C d Hd)].
    + exists 0, lhc, x1, it1, (ch_key c + 1), ri1, (map (fun c => (Some c, 0)) cs ++ [(None, 0)]). split; [reflexivity|]. split; [exact H1|].
      split; [lia|]. split; [lia|]. left. split; [reflexivity|]. split; [exists c; split; [left|lia]|]. intros d [->|Hd]%elem_of_cons; [lia|]. rewrite List.Forall_forall in Hlt.
      specialize (Hlt d ltac:(apply list_elem_of_In; exact Hd)). lia.
Qed.

(** The collision space of a hash: the keys with its upper 49 bits. *)
Lemma same_space a b : 0 <= a -> 0 <= b -> ((a .^ b) .&~ HAMMER2_DIRHASH_LOMASK =? 0) = (a / 2 ^ 15 =? b / 2 ^ 15).
Proof.
  intros Ha Hb. change HAMMER2_DIRHASH_LOMASK with (Z.ones 15). rewrite ldiff_ones by lia.
  rewrite <- Z.shiftr_div_pow2, Z.shiftr_lxor, !Z.shiftr_div_pow2 by lia.
  destruct (Z.eqb_spec (a / 2 ^ 15) (b / 2 ^ 15)) as [E|E].
  - rewrite E, Z.lxor_nilpotent. reflexivity.
  - apply Z.eqb_neq. intros H. apply E, Z.lxor_eq. lia.
Qed.

Lemma dirhash_base name : Forall is_byte name ->
  let base := hammer2_dirhash name in 0 <= base /\ base + HAMMER2_DIRHASH_LOMASK <= HAMMER2_KEY_MAX /\ base mod 2 ^ 15 = 0.
Proof.
  intros Hn base. destruct (dirhash_shape name Hn) as (Hr & _ & _ & Hlow & _). fold base in Hr, Hlow.
  change 32767 with (Z.ones 15) in Hlow. rewrite Z.land_ones in Hlow by lia. split; [lia|]. split; [|exact Hlow].
  pose proof (Z.div_mod base (2 ^ 15) ltac:(lia)). rewrite Hlow in *.
  assert (base / 2 ^ 15 < 2 ^ 49) by (apply Z.div_lt_upper_bound; lia). lia.
Qed.

Lemma leaves_all l : (forall b e, ~ (Bad b e ∈ l)) -> (leaves l).2 = 0 /\ forall b, Leaf b ∈ l -> b ∈ (leaves l).1.
Proof.
  induction l as [|[b|b e|b] l IH]; cbn [leaves]; intros Hn.
  - split; [reflexivity|]. intros b []%not_elem_of_nil.
  - destruct IH as [IH1 IH2]; [intros b' e' H; exact (Hn b' e' ltac:(right; exact H))|]. destruct (leaves l) as [bs er]. cbn [fst snd] in *.
    split; [exact IH1|]. intros b' [[= ->]|H]%elem_of_cons; [left|right; exact (IH2 _ H)].
  - destruct (Hn b e ltac:(left)).
  - destruct IH as [IH1 IH2]; [intros b' e' H; exact (Hn b' e' ltac:(right; exact H))|]. split; [exact IH1|].
    intros b' [[=]|H]%elem_of_cons. exact (IH2 _ H).
Qed.

(** What the theorem on free keys assumes of a directory that can be read. *)
Record readable (D : nat) (t : topo) (r : nat) : Prop := {
  rd_root : root_ok media D t r;
  rd_good : forall b e, ~ (Bad b e ∈ walk media D t r);
  rd_single : forall b, Leaf b ∈ walk media D t r -> br_keybits b = 0;
  rd_keys : keys_small D t r;
  rd_loaded : forall c y, t_nodes t !! c = Some y -> Leaf (l_bref y) ∈ walk media D t r -> l_error y = 0;
  rd_media : forall b, Leaf b ∈ walk media D t r -> ld_error (media b) = 0
}.

Lemma rd_chains D t r (Hr : readable D t r) t' c b :
  loads media t t' -> has_bref t' c b -> Leaf b ∈ walk media D t r -> chain_error t' c = 0.
Proof.
  intros Hld (y & Hy & <-) Hb. unfold chain_error. rewrite Hy. destruct (t_nodes t !! c) as [x|] eqn:Hx.
  - destruct (ld_node _ _ _ Hld _ _ Hx) as (y' & Hy' & E1 & _ & E2 & _). rewrite Hy in Hy'. injection Hy' as <-.
    rewrite E2. apply (rd_loaded _ _ _ Hr c x Hx). unfold l_bref in *. rewrite <- E1. exact Hb.
  - rewrite (ld_new _ _ _ Hld _ _ Hx Hy). exact (rd_media _ _ _ Hr _ Hb).
Qed.

(** The entries with keys from [base] to [ke], and no error. *)
Lemma readable_leaves D t r base ke : readable D t r ->
  (leaves (hits ke base (walk media D t r))).2 = 0 /\
  forall b, b ∈ (leaves (hits ke base (walk media D t r))).1 <-> Leaf b ∈ walk media D t r /\ base <= br_key b <= ke.
Proof.
  intros Hr. assert (forall b, Leaf b ∈ walk media D t r -> range_last b = br_key b) as Hone.
  { intros b Hb. unfold range_last. rewrite (rd_single _ _ _ Hr b Hb). lia. }
  destruct (leaves_all (hits ke base (walk media D t r))) as [H1 H2]; [intros b e [_ H]%list_elem_of_filter; exact (rd_good _ _ _ Hr b e H)|].
  split; [exact H1|]. intros b. split.
  - intros H%leaves_in. apply list_elem_of_filter in H as [Hh Hb]. split; [exact Hb|]. cbn [hit] in Hh. rewrite (Hone b Hb) in Hh. lia.
  - intros [Hb Hk]. apply H2, list_elem_of_filter. split; [|exact Hb]. cbn [hit]. rewrite (Hone b Hb). lia.
Qed.

(** The check that ends in ENOSPC. *)
Lemma lhc_in_space base lhc : 0 <= base -> base mod 2 ^ 15 = 0 -> 0 <= lhc ->
  ((base .^ lhc) .&~ HAMMER2_DIRHASH_LOMASK =? 0) = (base <=? lhc) && (lhc <=? base + HAMMER2_DIRHASH_LOMASK).
Proof.
  intros Hb Hm Hl. rewrite same_space by assumption. pose proof (Z.div_mod base (2 ^ 15) ltac:(lia)). pose proof (Z.div_mod lhc (2 ^ 15) ltac:(lia)).
  pose proof (Z.mod_pos_bound lhc (2 ^ 15) ltac:(lia)). change (2 ^ 15) with 32768 in *.
  destruct (Z.eqb_spec (base / 32768) (lhc / 32768)); symmetry; [apply andb_true_iff; rewrite !Z.leb_le; lia|apply andb_false_iff; rewrite !Z.leb_gt; lia].
Qed.

(** The scan and the loop: every key from [base] to the result is taken, and the result
    is free, or behind all the entries. *)
Lemma free_key_scan D t r types cc base fuel :
  readable D t r -> master_type (aget types 0) -> 0 <= base ->
  let ke := base + HAMMER2_DIRHASH_LOMASK in
  ke <= HAMMER2_KEY_MAX ->
  let l := hits ke base (walk media D t r) in
  no_gap ke base (walk media D t r) -> (length l <= fuel)%nat -> Z.of_nat (length l) < 2 ^ 30 - 1 ->
  exists x0 x1 x2 x3 t' error lhc,
    hammer2_xop_alloc junk junk_error 1 types cc (refs_of cc) = Done x0
    /\ hammer2_xop_start (chain_error t) junk junk_error ECONNABORTED (hammer2_xop_scanlhc media junk junk_error fuel [Some r] base) [Some r] t x0 = Done (t', x1)
    /\ lhc_loop (S (S fuel)) (chain_key t') base x1 = Done (error, lhc, x2) /\ hammer2_xop_retire x2 HAMMER2_XOPMASK_VOP = Done x3
    /\ loads media t t' /\ cleaned x3 /\ base <= lhc
    /\ (forall k, base <= k < lhc -> exists b, Leaf b ∈ walk media D t r /\ br_key b = k /\ k <= ke /\ k < HAMMER2_KEY_MAX)
    /\ (error = 0 /\ lhc < ke /\ (forall b, Leaf b ∈ walk media D t r -> br_key b <> lhc)
        \/ error = HAMMER2_ERROR_ENOENT /\ forall b, Leaf b ∈ walk media D t r -> br_key b <= ke -> br_key b < lhc).
Proof.
  intros Hr Ht Hb0 ke Hbm l Hg Hf Hlen.
  destruct (scanlhc_feeds D t r (rd_root _ _ _ Hr) base fuel Hb0 Hbm Hg Hf Hlen) as (cs & t' & Hld & Hcs & Hrun).
  destruct (readable_leaves D t r base ke Hr) as [He Hin]. fold ke l in Hcs, Hrun, He, Hin. rewrite He in Hrun.
  assert (Forall2 (fun c b => chain_key t' c = br_key b) cs (leaves l).1) as Hkeys.
  { eapply Forall2_impl; [exact Hcs|]. intros c b (y & Hy & <-). unfold chain_key. rewrite Hy. reflexivity. }
  assert (fed t' cs 0 = map (fun c => (Some c, 0)) cs ++ [(None, 0)]) as Efed.
  { unfold fed. f_equal. apply map_ext_in. intros c Hc. unfold response_of. f_equal.
    apply list_elem_of_In, list_elem_of_lookup in Hc as (j & Hj). destruct (Forall2_lookup_l _ _ _ _ _ Hcs Hj) as (b & Hbj & Hcb).
    apply (rd_chains _ _ _ Hr t' c b Hld Hcb), (Hin b), list_elem_of_lookup. eauto. }
  destruct (xop_alloc_ok junk junk_error types cc) as (x0 & E0 & H0).
  destruct (start_ok (chain_error t) junk junk_error ECONNABORTED (hammer2_xop_scanlhc media junk junk_error fuel [Some r] base) t t' x0 types cc r (fed t' cs 0)
    ltac:(intros x1 Hx1; exact (Hrun x1 _ _ _ Hx1 eq_refl)) H0) as (x1 & E1 & H1).
  assert (forall c, c ∈ cs -> exists b, b ∈ (leaves l).1 /\ chain_key t' c = br_key b) as Hcb.
  { intros c (j & Hj)%list_elem_of_lookup. destruct (Forall2_lookup_l _ _ _ _ _ Hkeys Hj) as (b & Hbj & Eb). exists b. split; [apply list_elem_of_lookup; eauto|exact Eb]. }
  assert (forall b, b ∈ (leaves l).1 -> exists c, c ∈ cs /\ chain_key t' c = br_key b) as Hbc.
  { intros b (j & Hj)%list_elem_of_lookup. destruct (Forall2_lookup_r _ _ _ _ _ Hkeys Hj) as (c & Hcj & Eb). exists c. split; [apply list_elem_of_lookup; eauto|exact Eb]. }
  rewrite Efed in H1. assert (fresh (chain_key t') 0 (Citem None 0 0) = false) as Hfr by reflexivity.
  destruct (lhc_loop_ok (chain_key t') cs (S (S fuel)) base x1 _ _ 0 0 (Ht : master_type (e_type (env0 HAMMER2_XOPMASK_VOP 1 types cc))) Hfr ltac:(lia)
    (chains_sorted _ _ _ Hcs (dir_leaves_sorted D t r (rd_root _ _ _ Hr) _ _))) as (error & lhc & x2 & it & key & ri & pend & E2 & H2 & Hge & Hused & Hres); [| |exact H1|].
  { apply List.Forall_forall. intros c Hc. apply list_elem_of_In in Hc. destruct (Hcb c Hc) as (b & Hb & ->). apply Hin in Hb as [Hb Hk].
    pose proof (rd_keys _ _ _ Hr b Hb). lia. }
  { pose proof (leaves_length l). rewrite (Forall2_length _ _ _ Hcs). lia. }
  destruct (retire_frontend _ _ _ _ _ _ _ H2 eq_refl eq_refl eq_refl eq_refl) as (x3 & E3 & A & B & C & F).
  exists x0, x1, x2, x3, t', error, lhc. do 4 (split; [assumption|]). split; [exact Hld|]. split; [split; [exact A|split; [exact B|eauto]]|]. split; [exact Hge|]. split.
  - intros k Hk. destruct (Hused k Hk) as (c & Hc & <-). destruct (Hcb c Hc) as (b & Hb & Eb). apply Hin in Hb as [Hb Hbk].
    exists b. pose proof (rd_keys _ _ _ Hr b Hb). repeat split; [exact Hb|lia..].
  - destruct Hres as [(-> & (c & Hc & Hlt) & Hfree)|[-> Hall]]; [left|right]; (split; [reflexivity|]).
    + destruct (Hcb c Hc) as (b & Hb & Eb). apply Hin in Hb as [Hb Hbk]. split; [lia|]. intros b' Hb' E. 
      destruct (Hbc b') as (c' & Hc' & Ec'); [apply Hin; split; [exact Hb'|lia]|]. apply (Hfree c' Hc'). lia.
    + intros b Hb Hbk. destruct (Z.le_gt_cases base (br_key b)); [|lia].
      destruct (Hbc b) as (c & Hc & Ec); [apply Hin; split; [exact Hb|lia]|]. specialize (Hall c Hc). lia.
Qed.

(** C32. The key that hammer2_dirent_create picks for a new name, on a directory that can
    be read: it lies in the collision space of the name's hash and no entry has it; or
    the result is ENOSPC, and then every key of the space but the last is taken. *)
Theorem free_key_found D t r types cc name fuel :
  readable D t r -> Forall is_byte name -> master_type (aget types 0) ->
  let base := hammer2_dirhash name in
  let ke := base + HAMMER2_DIRHASH_LOMASK in
  let l := hits ke base (walk media D t r) in
  no_gap ke base (walk media D t r) -> (length l <= fuel)%nat -> Z.of_nat (length l) < 2 ^ 30 - 1 ->
  exists error lhc t' x,
    dirent_create_lhc media junk junk_error fuel ECONNABORTED types cc (refs_of cc) [Some r] name t = Done (error, lhc, t', x)
    /\ loads media t t' /\ cleaned x
    /\ (error = 0 /\ base <= lhc <= ke /\ (forall b, Leaf b ∈ walk media D t r -> br_key b <> lhc)
        \/ error = HAMMER2_ERROR_ENOSPC /\ forall k, base <= k < ke -> exists b, Leaf b ∈ walk media D t r /\ br_key b = k).
Proof.
  intros Hr Hn Ht base ke l Hg Hf Hlen. destruct (dirhash_base name Hn) as (Hb0 & Hbm & Hb15). fold base in Hb0, Hbm, Hb15.
  destruct (free_key_scan D t r types cc base fuel Hr Ht Hb0 Hbm Hg Hf Hlen) as (x0 & x1 & x2 & x3 & t' & error & lhc & E0 & E1 & E2 & E3 & Hld & Hcl & Hge & Hused & Hres).
  unfold dirent_create_lhc. change (alen [Some r]) with 1. fold base. rewrite E0. cbn [obind]. rewrite E1. cbn [obind]. rewrite E2. cbn [obind]. rewrite E3. cbn [obind].
  fold ke in Hbm, Hused, Hres.
  destruct Hres as [(-> & Hlt & Hfree)|(-> & Hall)]; cbn [Z.eqb negb andb].
  - rewrite (lhc_in_space base lhc) by lia. fold ke. replace ((base <=? lhc) && (lhc <=? ke)) with true by lia. cbn [negb].
    exists 0, lhc, t', x3. split; [reflexivity|]. split; [exact Hld|]. split; [exact Hcl|]. left. split; [reflexivity|]. split; [lia|exact Hfree].
  - assert (lhc <= ke + 1 /\ lhc <= HAMMER2_KEY_MAX) as [Hl1 Hl2].
    { destruct (Z.eq_dec lhc base) as [->|Hne]; [unfold ke in *; lia|]. destruct (Hused (lhc - 1) ltac:(lia)) as (b & _ & _ & H1 & H2). lia. }
    assert (u64 (lhc + 1) = lhc + 1 \/ u64 (lhc + 1) = 0 /\ lhc = HAMMER2_KEY_MAX) as Hu.
    { destruct (Z.eq_dec lhc HAMMER2_KEY_MAX) as [->|]; [right; split; reflexivity|left; apply u64_small; lia]. }
    change (negb (HAMMER2_ERROR_ENOENT =? HAMMER2_ERROR_ENOENT)) with false. cbn [andb]. rewrite (lhc_in_space base _ Hb0 Hb15) by (destruct Hu; lia). fold ke.
    destruct ((base <=? u64 (lhc + 1)) && (u64 (lhc + 1) <=? ke)) eqn:Esp; cbn [negb].
    + apply andb_true_iff in Esp as [S1%Z.leb_le S2%Z.leb_le]. assert (u64 (lhc + 1) = lhc + 1) as Eu by lia. rewrite Eu in *.
      exists 0, (lhc + 1), t', x3. split; [reflexivity|]. split; [exact Hld|]. split; [exact Hcl|]. left. split; [reflexivity|]. split; [lia|].
      intros b Hb E. specialize (Hall b Hb). lia.
    + exists HAMMER2_ERROR_ENOSPC, (u64 (lhc + 1)), t', x3. split; [reflexivity|]. split; [exact Hld|]. split; [exact Hcl|]. right. split; [reflexivity|].
      intros k Hk. apply andb_false_iff in Esp. rewrite !Z.leb_gt in Esp. assert (ke <= lhc) as Hke by (destruct Hu as [Eu|[Eu ->]]; [rewrite Eu in Esp; lia|exact Hbm]). destruct (Hused k ltac:(lia)) as (b & Hb & Eb & _). eauto.
Qed.

(** * Finding a name *)

Abbreviation test := (hammer2_chain_dirent_test data).

(** The first entry with the name, or the error that ends the search. *)
Fixpoint name_find (name : list Z) (l : list item) : blockref + Z :=
  match l with
  | [] => inr 0
  | Leaf b :: l => match test b name with Done true => inl b | _ => name_find name l end
  | Bad _ e :: _ => inr e
  | Enter _ :: l => name_find name l
  end.

Lemma name_find_good name l : (forall b e, ~ (Bad b e ∈ l)) -> forall e, name_find name l = inr e -> e = 0.
Proof.
  induction l as [|[b|b e|b] l IH]; intros Hn e'; cbn [name_find].
  - intros [= <-]. reflexivity.
  - destruct (test b name) as [[|]|]; [discriminate| |]; apply IH; intros b' e H; exact (Hn b' e ltac:(right; exact H)).
  - destruct (Hn b e ltac:(left)).
  - apply IH. intros b' e H. exact (Hn b' e ltac:(right; exact H)).
Qed.

Lemma name_scan_ok D t r ke flags (Hflags : tst flags HAMMER2_LOOKUP_MATCHIND = false) (Hke : ke < 2 ^ 64) name fuel :
  root_ok media D t r -> forall l res, scanning media ke D t r l res -> (length l <= fuel)%nat ->
  (forall b, Leaf b ∈ l -> exists v, test b name = Done v) ->
  exists res', name_scan media data fuel name ke flags res = Done res' /\ loads media (r_topo res) (r_topo res')
    /\ match name_find name l with
       | inl b => Leaf b ∈ l /\ exists c, r_chain res' = Some c /\ r_error res' = 0 /\ has_bref (r_topo res') c b
       | inr e => r_chain res' = None /\ r_error res' = e
       end.
Proof.
  intros Hr. assert (forall fuel res e, r_chain res = None /\ r_error res = e ->
    exists res', name_scan media data fuel name ke flags res = Done res' /\ loads media (r_topo res) (r_topo res') /\ r_chain res' = None /\ r_error res' = e) as Hend.
  { intros n res e [Hc He]. exists res. split; [destruct n; cbn [name_scan]; rewrite Hc; reflexivity|]. split; [apply loads_refl|auto]. }
  induction fuel as [|fuel IH]; intros [|[b|b er|b] l] res Hs Hf Htest; cbn [name_find];
    try (apply Hend; exact (scanning_nil _ _ _ _ _ _ Hs)); try (apply Hend; exact (scanning_bad _ _ _ _ _ _ _ _ _ Hs));
    try (destruct (scanning_enter _ _ _ _ _ _ _ _ Hs)).
  - cbn in Hf. lia.
  - destruct (scanning_leaf _ _ _ Hflags Hke _ _ _ _ _ _ Hr Hs) as (c & y & res' & Hc & He & Hy & Eb & En & Hld & Hs').
    destruct (Htest b ltac:(left)) as [v Hv]. cbn [name_scan]. rewrite Hc. unfold node. rewrite Hy. cbn [obind]. rewrite Eb, Hv. cbn [obind].
    destruct v.
    + exists res. split; [reflexivity|]. split; [apply loads_refl|]. split; [left|]. exists c. split; [exact Hc|]. split; [exact He|]. exists y. auto.
    + rewrite En. cbn [obind]. destruct (IH l res' Hs' ltac:(cbn in Hf; lia)) as (res2 & E2 & Hld2 & H2); [intros b' Hb'; apply Htest; right; exact Hb'|].
      exists res2. split; [exact E2|]. split; [exact (loads_trans _ _ _ _ Hld Hld2)|].
      destruct (name_find name l) as [b'|e]; [|exact H2]. destruct H2 as [H2 H3]. split; [right; exact H2|exact H3].
Qed.

(** The inode behind a directory entry, through the root of the PFS. *)
Lemma inode_find_ok D t q inum flags : tst flags HAMMER2_LOOKUP_MATCHIND = false -> flags .& HAMMER2_LOOKUP_NODATA = 0 ->
  readable D t q -> 0 <= inum < 2 ^ 64 -> inodes inum = None ->
  (forall b, Leaf b ∈ walk media D t q -> br_key b = inum -> exists d, data b = Some d /\ cd_inum d = br_key b) ->
  exists parent chain t', hammer2_chain_inode_find media data inodes t [Some q] inum 0 flags = Done (0, parent, chain, t') /\ loads media t t'
    /\ match chain with
       | Some c => exists b, Leaf b ∈ walk media D t q /\ br_key b = inum /\ has_bref t' c b /\ chain_error t' c = 0
       | None => forall b, Leaf b ∈ walk media D t q -> br_key b <> inum
       end.
Proof.
  intros Hfl Hnd Hq Hi Hno Hdata. unfold hammer2_chain_inode_find. rewrite Hnd, Hno. change (hammer2_inode_chain [Some q] 0) with (Some q).
  rewrite assert_true by reflexivity. cbv iota.
  destruct (lookup_ok media flags inum Hfl ltac:(lia) D t q 0 q inum 0 (rd_root _ _ _ Hq) (path_refl _ _) ltac:(lia) ltac:(left; reflexivity)) as (res & E & Hld & _ & Hm).
  rewrite E. cbn [obind].
  assert (forall b, Leaf b ∈ walk media D t q -> hit inum inum (Leaf b) = (br_key b =? inum)) as Hhit.
  { intros b Hb. cbn [hit]. unfold range_last. rewrite (rd_single _ _ _ Hq b Hb). lia. }
  destruct (first_hit_item inum inum (walk media D t q)) as [[b|b e|b]|] eqn:Eh.
  - apply head_Some_elem_of, list_elem_of_filter in Eh as [Hh Hb]. rewrite Hhit in Hh by exact Hb. apply Z.eqb_eq in Hh.
    destruct Hm as (c & y & Hc & He & Hy & Eb & _). rewrite Hc, He. cbn [Z.eqb]. unfold node. rewrite Hy. cbn [obind]. rewrite Eb.
    destruct (Hdata b Hb Hh) as (d & -> & Hd). assert (chain_error (r_topo res) c = 0) as Hce by (apply (rd_chains _ _ _ Hq _ _ b Hld); [exists y; auto|exact Hb]).
    assert (l_error y = 0) as Hye by (unfold chain_error in Hce; rewrite Hy in Hce; exact Hce). rewrite Hye, Hd, Hh, !Z.eqb_refl. cbn [negb andb].
    eexists _, (Some c), (r_topo res). split; [reflexivity|]. split; [exact Hld|]. exists b. repeat split; try assumption. exists y. auto.
  - apply head_Some_elem_of, list_elem_of_filter in Eh as [_ Hb]. destruct (rd_good _ _ _ Hq _ _ Hb).
  - destruct Hm.
  - destruct Hm as [Hc He]. rewrite Hc, He. eexists _, None, (r_topo res). split; [reflexivity|]. split; [exact Hld|]. intros b Hb Ek.
    assert (Leaf b ∈ filter (fun it => hit inum inum it = true) (walk media D t q)) as Hin
      by (apply list_elem_of_filter; split; [rewrite Hhit by exact Hb; apply Z.eqb_eq, Ek|exact Hb]).
    unfold first_hit_item in Eh. destruct (filter _ _); [apply not_elem_of_nil in Hin as []|discriminate Eh].
Qed.

Lemma readable_loads D t t' q : readable D t q -> loads media t t' -> readable D t' q.
Proof.
  intros Hq Hld. destruct (rk_node _ _ _ _ (rd_root _ _ _ Hq)) as (x & Hx & _). pose proof (ld_walk _ _ _ Hld D q x Hx) as Hw.
  split; unfold keys_small; rewrite ?Hw; try apply Hq; [exact (root_loads media D t t' q (rd_root _ _ _ Hq) Hld)|].
  intros c y Hy Hb. pose proof (rd_chains _ _ _ Hq t' c (l_bref y) Hld ltac:(exists y; auto) Hb) as H. unfold chain_error in H. rewrite Hy in H. exact H.
Qed.

(** A back end with a single error-free response, or NULL. *)
Lemma one_response backend types cc ichain t t' ch :
  master_type (aget types 0) -> match ch with Some c => 0 <= chain_key t' c < HAMMER2_KEY_MAX /\ chain_error t' c = 0 | None => True end ->
  (forall x, backend t x 0 = let! (_, x) := hammer2_xop_feed (chain_error t') junk junk_error x ch 0 0 in Done (t', x)) ->
  exists x, dir_session backend types cc (refs_of cc) ichain 3 t
      = Done (match ch with Some c => [c] | None => [] end, HAMMER2_ERROR_ENOENT, t', x) /\ cleaned x.
Proof.
  intros Ht Hch Hb. assert (stored (chain_error t') (ch, 0) = (ch, 0)) as Est.
  { unfold stored, eff_error. cbn [fst snd Z.eqb]. destruct ch as [c|]; [rewrite (proj2 Hch)|]; reflexivity. }
  destruct (dir_session_ok backend types cc ichain 3 t t' [(ch, 0)] Ht ltac:(simpl; lia)) as (x & E & Hx).
  { apply List.Forall_cons; [|apply List.Forall_nil]. cbn [fst]. destruct ch; [exact (proj1 Hch)|exact I]. }
  { intros x1 Hx1. destruct (feed_ok (chain_error t') junk junk_error _ _ _ _ _ (ch, 0) Hx1 eq_refl ltac:(change (alen []) with 0; lia)) as (x2 & E2 & H2).
    exists x2. rewrite Hb. cbn [fst snd] in E2. rewrite E2. rewrite Est in H2. split; [reflexivity|exact H2]. }
  exists x. split; [|exact Hx]. rewrite E. destruct ch as [c|]; [|reflexivity]. cbn [scan].
  destruct (Z.ltb_spec (chain_key t' c) 0) as [H|H]; [lia|reflexivity].
Qed.

(** What a name leads to, under the root [q] of the PFS. *)
Definition leads_to (Dq : nat) (t : topo) (q : nat) (found : blockref + Z) (chain : option nat) (t' : topo) : Prop :=
  match found with
  | inr _ => chain = None
  | inl b =>
      if br_type b =? HAMMER2_BREF_TYPE_DIRENT then
        match chain with
        | Some c => exists b', has_bref t' c b' /\ Leaf b' ∈ walk media Dq t q /\ br_key b' = dirent_inum b
        | None => forall b', Leaf b' ∈ walk media Dq t q -> br_key b' <> dirent_inum b
        end
      else exists c, chain = Some c /\ has_bref t' c b
  end.

Lemma nresolve_target_ok Dq t q found res :
  readable Dq t q -> loads media t (r_topo res) ->
  match found with
  | inl b => exists c, r_chain res = Some c /\ r_error res = 0 /\ has_bref (r_topo res) c b /\ chain_error (r_topo res) c = 0
               /\ 0 <= br_key b < HAMMER2_KEY_MAX /\ inodes (dirent_inum b) = None
  | inr e => r_chain res = None /\ r_error res = e /\ e = 0
  end ->
  match found with
  | inl b => forall b', Leaf b' ∈ walk media Dq t q -> br_key b' = dirent_inum b -> exists d, data b' = Some d /\ cd_inum d = br_key b'
  | inr _ => True
  end ->
  exists chain t', nresolve_target media data inodes [Some q] res 0 = Done (0, chain, t') /\ loads media t t'
    /\ leads_to Dq t q found chain t'
    /\ match chain with Some c => 0 <= chain_key t' c < HAMMER2_KEY_MAX /\ chain_error t' c = 0 | None => True end.
Proof.
  intros Hq Hld Hm Hdata. destruct found as [b|e]; unfold nresolve_target, leads_to.
  - destruct Hm as (c & Hc & He & (y & Hy & Eb) & Hce & Hk & Hno). rewrite Hc. unfold node. rewrite Hy. cbn [obind].
    assert (l_error y = 0) as Hye by (unfold chain_error in Hce; rewrite Hy in Hce; exact Hce). rewrite Hye, Eb, He. cbn [Z.eqb].
    destruct (br_type b =? HAMMER2_BREF_TYPE_DIRENT).
    + pose proof (readable_loads Dq t _ q Hq Hld) as Hq'. destruct (rk_node _ _ _ _ (rd_root _ _ _ Hq)) as (x & Hx & _).
      pose proof (ld_walk _ _ _ Hld Dq q x Hx) as Hw.
      destruct (inode_find_ok Dq (r_topo res) q (dirent_inum b) HAMMER2_LOOKUP_SHARED eq_refl eq_refl Hq' (u64_range _) Hno ltac:(rewrite Hw; exact Hdata))
        as (parent & chain & t' & Ef & Hld' & Hch). rewrite Hw in Hch. rewrite Ef. cbn [obind].
      exists chain, t'. split; [reflexivity|]. split; [exact (loads_trans _ _ _ _ Hld Hld')|]. destruct chain as [c'|]; [|split; [exact Hch|exact I]].
      destruct Hch as (b' & Hb' & Ek & Hh & Hce'). split; [exists b'; auto|]. split; [|exact Hce'].
      destruct Hh as (y' & Hy' & Ey'). unfold chain_key. rewrite Hy', Ey'. pose proof (rd_keys _ _ _ Hq b' Hb'). pose proof (u64_range (br_data_count b)). unfold dirent_inum in Ek. lia.
    + exists (Some c), (r_topo res). split; [reflexivity|]. split; [exact Hld|]. split; [exists c; split; [reflexivity|exists y; auto]|].
      split; [|exact Hce]. unfold chain_key. rewrite Hy, Eb. exact Hk.
  - destruct Hm as (Hc & He & ->). rewrite Hc, He. exists None, (r_topo res). split; [reflexivity|]. split; [exact Hld|]. split; [reflexivity|exact I].
Qed.

(** C31. The session of hammer2_xop_nresolve on directories that can be read: the front
    end is given the chain of the first entry with the name in the collision space of
    its hash, and for a directory entry the inode with the number of the entry under
    the root of the PFS; and ENOENT alone when there is no such entry or inode. *)
Theorem nresolve_finds D t r Dq q types cc name fuel :
  readable D t r -> readable Dq t q -> Forall is_byte name -> master_type (aget types 0) ->
  let base := hammer2_dirhash name in
  let l := hits (base + HAMMER2_DIRHASH_LOMASK) base (walk media D t r) in
  no_gap (base + HAMMER2_DIRHASH_LOMASK) base (walk media D t r) -> (length l <= fuel)%nat ->
  (forall b, Leaf b ∈ l -> exists v, test b name = Done v) ->
  (forall b b', Leaf b ∈ l -> Leaf b' ∈ walk media Dq t q -> br_key b' = dirent_inum b -> exists d, data b' = Some d /\ cd_inum d = br_key b') ->
  (forall b, Leaf b ∈ l -> inodes (dirent_inum b) = None) ->
  exists seen t' x,
    dir_session (hammer2_xop_nresolve media data inodes junk junk_error fuel [Some q] [Some r] name) types cc (refs_of cc) r 3 t
      = Done (seen, HAMMER2_ERROR_ENOENT, t', x)
    /\ loads media t t' /\ cleaned x
    /\ exists chain, seen = match chain with Some c => [c] | None => [] end /\ leads_to Dq t q (name_find name l) chain t'.
Proof.
  intros Hr Hq Hn Ht base l Hg Hf Htest Hdata Hino. destruct (dirhash_base name Hn) as (Hb0 & Hbm & _). fold base in Hb0, Hbm.
  set (ke := base + HAMMER2_DIRHASH_LOMASK) in *. set (fl := HAMMER2_LOOKUP_ALWAYS .| HAMMER2_LOOKUP_SHARED).
  assert (0 <= base <= ke) as Hrange by (unfold ke; lia).
  destruct (lookup_ok media fl ke eq_refl ltac:(lia) D t r 0 r base 0 (rd_root _ _ _ Hr) (path_refl _ _) Hrange Hg) as (res & E & H).
  destruct (name_scan_ok D t r ke fl eq_refl ltac:(lia) name fuel (rd_root _ _ _ Hr) l res (scanning_start _ _ _ _ _ _ _ Hrange Hg H) Hf Htest) as (res2 & E2 & Hld2 & Hm).
  pose proof (loads_trans _ _ _ _ (proj1 H) Hld2) as Hld.
  assert (name_find name l = inr 0 \/ exists b, name_find name l = inl b /\ Leaf b ∈ l) as Hfind.
  { assert (forall b e, ~ (Bad b e ∈ l)) as Hbad by (intros b e [_ Hb]%list_elem_of_filter; exact (rd_good _ _ _ Hr b e Hb)).
    destruct (name_find name l) as [b|e] eqn:Ef; [right; exists b; split; [reflexivity|exact (proj1 Hm)]|left; f_equal; exact (name_find_good name l Hbad e Ef)]. }
  destruct (nresolve_target_ok Dq t q (name_find name l) res2 Hq Hld) as (chain & t' & Et & Hld' & Hlead & Hch); [| |].
  { destruct Hfind as [Ef|(b & Ef & Hb)]; rewrite Ef in Hm |- *; [destruct Hm; auto|].
    destruct Hm as (_ & c & Hc & He & Hh). exists c. do 3 (split; [assumption|]). pose proof Hb as [_ Hbi]%list_elem_of_filter.
    split; [exact (rd_chains _ _ _ Hr _ _ b Hld Hh Hbi)|]. split; [|exact (Hino b Hb)].
    destruct (dir_key_ok D t r (rd_root _ _ _ Hr) _ Hbi) as (_ & Hk & _). cbn in Hk. pose proof (rd_keys _ _ _ Hr b Hbi). lia. }
  { destruct Hfind as [->|(b & -> & Hb)]; [exact I|]. intros b' Hb' Ek. exact (Hdata b b' Hb Hb' Ek). }
  destruct (one_response (hammer2_xop_nresolve media data inodes junk junk_error fuel [Some q] [Some r] name) types cc r t t' chain Ht Hch) as (x & Ex & Hx).
  { intros x. unfold hammer2_xop_nresolve. change (hammer2_inode_chain [Some r] 0) with (Some r). cbv beta zeta iota. fold base fl.
    rewrite u64_small by (unfold ke in *; lia). fold ke. rewrite E. cbn [obind]. rewrite E2. cbn [obind]. rewrite Et. reflexivity. }
  exists (match chain with Some c => [c] | None => [] end), t', x. split; [exact Ex|]. split; [exact Hld'|]. split; [exact Hx|]. eauto.
Qed.
End dir.
