(* ===== verification/DirWitness.v ===== *)
(** A directory on which the properties of DirTheorems are used: the root of a PFS with
    the inode 5 and the entry "a" for it. *)

From Stdlib Require Import ZArith Lia Bool Sorted.
From stdpp Require Import base numbers gmultiset list option gmap.
From S2P Require Import Prelude Disk Crc Subr BlockTable BlockTableProof BlockTableSpec ChainFind ChainFindProof Lookup LookupSpec LookupProof LookupTop LookupTheorems Xop XopProof XopTheorems DirRead DirTheorems.

Definition dd_name : list Z := [97].
Definition dd_hash : Z := Eval vm_compute in hammer2_dirhash dd_name.
Definition dd_inode : blockref := Bref HAMMER2_BREF_TYPE_INODE 0 0 0 5 0 0 10 0 0 0 [].
Definition dd_entry : blockref := Bref HAMMER2_BREF_TYPE_DIRENT 0 0 0 dd_hash 0 0 0 5 1 0 (97 :: replicate 63 0).
Definition dd_root : lnode :=
  LNode (Chain (ex_bref HAMMER2_BREF_TYPE_INODE 0 1 10) false true false false) None false false 1024 0
    (Core 0 0 0 false (ex_bref HAMMER2_BREF_TYPE_INODE 0 1 10)) (Some [dd_inode; dd_entry; ex_none; ex_none]) [].
Definition dd_topo : topo := Topo {[ 0%nat := dd_root ]} 1.
Definition dd_media (b : blockref) : loaded := Loaded 0 false [].
Definition dd_data (b : blockref) : option cdata := Some (Cdata (br_key b) 1 0 [] []).
Definition dd_inodes (inum : Z) : option (list (option nat)) := None.

Lemma dd_entries : entries dd_topo dd_root = [dd_inode; dd_entry].
Proof. vm_compute. reflexivity. Qed.
Lemma dd_walk : walk dd_media 2 dd_topo 0 = [Leaf dd_inode; Leaf dd_entry].
Proof. vm_compute. reflexivity. Qed.

Lemma dd_wf : wf dd_media 2 dd_topo 0.
Proof.
  exists dd_root. split; [reflexivity|]. intros _. rewrite dd_entries. split.
  - constructor.
    + intros j []%not_elem_of_nil.
    + constructor; constructor.
    + eexists _, _. split; [reflexivity|]. split; [|discriminate]. exact (ex_table [dd_inode; dd_entry; ex_none; ex_none] eq_refl).
    + intros b c _ []%not_elem_of_nil.
    + discriminate.
  - intros b [->|[->|[]%not_elem_of_nil]%elem_of_cons]%elem_of_cons; discriminate.
Qed.

Lemma dd_root_ok : root_ok dd_media 2 dd_topo 0.
Proof.
  constructor; [|exact dd_wf|exists dd_root; repeat split; discriminate|rewrite dd_walk; reflexivity].
  intros i Hi. cbn in Hi. split.
  - cbn. rewrite lookup_singleton_ne by lia. reflexivity.
  - intros p x Hx. cbn in Hx. apply lookup_singleton_Some in Hx as [_ <-]. apply not_elem_of_nil.
Qed.

Lemma dd_leaf b : Leaf b ∈ walk dd_media 2 dd_topo 0 -> b = dd_inode \/ b = dd_entry.
Proof. rewrite dd_walk. intros [[= ->]|[[= ->]|[]%not_elem_of_nil]%elem_of_cons]%elem_of_cons; auto. Qed.

Lemma dd_small : keys_small dd_media 2 dd_topo 0.
Proof. intros b [-> | ->]%dd_leaf; reflexivity. Qed.

Lemma dd_readable : readable dd_media 2 dd_topo 0.
Proof.
  constructor; [exact dd_root_ok| | |exact dd_small| |reflexivity].
  - intros b e. rewrite dd_walk. intros [H|[H|H%not_elem_of_nil]%elem_of_cons]%elem_of_cons; [discriminate H|discriminate H|exact H].
  - intros b [-> | ->]%dd_leaf; reflexivity.
  - intros c y Hy _. cbn in Hy. apply lookup_singleton_Some in Hy as [_ <-]. reflexivity.
Qed.

Lemma dd_no_gap ke k : no_gap ke k (walk dd_media 2 dd_topo 0).
Proof. right. intros b. rewrite dd_walk. intros [H|[H|H%not_elem_of_nil]%elem_of_cons]%elem_of_cons; [discriminate H|discriminate H|destruct H]. Qed.

Definition master_types : list Z := [HAMMER2_PFSTYPE_MASTER].

(** Everything from key 6 on: the entry. *)
Lemma readdir_lists_witness :
  exists seen final t' x, dir_session None 0 10060 (hammer2_xop_readdir dd_media None 0 2 [Some 0%nat] 6) master_types [] (refs_of []) 0 4 dd_topo
    = Done (seen, final, t', x) /\ cleaned x /\ exists c, seen = [c] /\ has_bref t' c dd_entry.
Proof.
  destruct (readdir_lists dd_media None 0 10060 2 dd_topo 0 dd_root_ok master_types [] 6 2 ltac:(lia) (dd_no_gap _ _) dd_small (or_introl eq_refl))
    as (seen & final & cs & t' & x & E & _ & Hld & Hcs & Hx & Hall); [vm_compute; lia|vm_compute; reflexivity|].
  exists seen, final, t', x. split; [exact E|]. split; [exact Hx|].
  assert ((collect (hits HAMMER2_KEY_MAX 6 (walk dd_media 2 dd_topo 0))).1 = [dd_entry]) as El by (rewrite dd_walk; vm_compute; reflexivity).
  rewrite El in Hcs. inversion Hcs as [|c b cs' bs' Hc Hnil]; subst. inversion Hnil; subst.
  destruct Hall as [-> _]; [|exists c; split; [reflexivity|exact Hc]].
  apply List.Forall_cons; [|apply List.Forall_nil]. apply (rd_chains dd_media 2 dd_topo 0 dd_readable t' c dd_entry Hld Hc). rewrite dd_walk. right. left.
Defined.

(** The key behind the entry with the same hash. *)
Lemma free_key_found_witness :
  exists error lhc t' x, dirent_create_lhc dd_media None 0 2 10060 master_types [] (refs_of []) [Some 0%nat] dd_name dd_topo = Done (error, lhc, t', x)
    /\ cleaned x.
Proof.
  destruct (free_key_found dd_media None 0 10060 2 dd_topo 0 master_types [] dd_name 2 dd_readable) as (error & lhc & t' & x & E & _ & Hx & _).
  - repeat constructor; discriminate.
  - left. reflexivity.
  - apply dd_no_gap.
  - rewrite dd_walk. vm_compute. lia.
  - rewrite dd_walk. vm_compute. reflexivity.
  - exists error, lhc, t', x. split; [exact E|exact Hx].
Defined.

(** The name leads to the inode 5. *)
Lemma nresolve_finds_witness :
  exists seen t' x, dir_session None 0 10060 (hammer2_xop_nresolve dd_media dd_data dd_inodes None 0 2 [Some 0%nat] [Some 0%nat] dd_name) master_types [] (refs_of []) 0 3 dd_topo
    = Done (seen, HAMMER2_ERROR_ENOENT, t', x) /\ exists c, seen = [c] /\ has_bref t' c dd_inode.
Proof.
  assert (hits (hammer2_dirhash dd_name + HAMMER2_DIRHASH_LOMASK) (hammer2_dirhash dd_name) (walk dd_media 2 dd_topo 0) = [Leaf dd_entry]) as El
    by (rewrite dd_walk; vm_compute; reflexivity).
  destruct (nresolve_finds dd_media dd_data dd_inodes None 0 10060 2 dd_topo 0 2 0 master_types [] dd_name 2 dd_readable dd_readable)
    as (seen & t' & x & E & _ & _ & chain & Hseen & Hlead).
  - repeat constructor; discriminate.
  - left. reflexivity.
  - apply dd_no_gap.
  - rewrite El. simpl. lia.
  - rewrite El. intros b [[= ->]|[]%not_elem_of_nil]%elem_of_cons. exists true. vm_compute. reflexivity.
  - intros b b' _ _ _. eexists. split; reflexivity.
  - reflexivity.
  - exists seen, t', x. split; [exact E|]. rewrite El in Hlead. replace (name_find dd_data dd_name [Leaf dd_entry]) with (@inl blockref Z dd_entry) in Hlead by (vm_compute; reflexivity).
    unfold leads_to in Hlead. replace (br_type dd_entry =? HAMMER2_BREF_TYPE_DIRENT) with true in Hlead by reflexivity. destruct chain as [c|].
    + destruct Hlead as (b' & Hb' & Hin & Hk). exists c. split; [exact Hseen|]. apply dd_leaf in Hin as [-> | ->]; [exact Hb'|vm_compute in Hk; discriminate Hk].
    + exfalso. apply (Hlead dd_inode); [rewrite dd_walk; left|reflexivity].
Defined.
