(* ===== verification/Ccms.v ===== *)
(** Cache coherency locks (hammer2_ccms.c): a counting lock, shared or exclusive, that
    its exclusive owner can take again and that a shared holder can upgrade.

    A function is one turn under [cst->spin]; a turn that has to sleep returns
    [false] and is tried again later (ssleep drops the spinlock and waits a while in
    this port).  The reads outside the spinlock ask whether the current thread is the
    owner, or holds the lock; only that thread changes the answer.  Threads are
    numbers, [me] is curthread. *)

From Stdlib Require Import ZArith Lia Bool.
From stdpp Require Import base numbers list option.
From S2P Require Import Prelude.

Abbreviation CCMS_STATE_INVALID := 0 (only parsing).
Abbreviation CCMS_STATE_SHARED := 2 (only parsing).
Abbreviation CCMS_STATE_EXCLUSIVE := 3 (only parsing).

(** struct ccms_cst without the spinlock and the persistent state. *)
Record ccms_cst := Cst {
  cst_upgrade : Z;           (* upgrades pending *)
  cst_count : Z;             (* < 0: exclusive, > 0: shared *)
  cst_blocked : bool;
  cst_td : option nat
}.
Definition set_upgrade (v : Z) (c : ccms_cst) : ccms_cst := Cst v (cst_count c) (cst_blocked c) (cst_td c).
Definition set_count (v : Z) (c : ccms_cst) : ccms_cst := Cst (cst_upgrade c) v (cst_blocked c) (cst_td c).
Definition set_blocked (v : bool) (c : ccms_cst) : ccms_cst := Cst (cst_upgrade c) (cst_count c) v (cst_td c).
Definition set_td (v : option nat) (c : ccms_cst) : ccms_cst := Cst (cst_upgrade c) (cst_count c) (cst_blocked c) v.

Definition ccms_cst_init : ccms_cst := Cst 0 0 false None.
Definition ccms_cst_uninit (c : ccms_cst) : outcome unit := kassert (cst_count c =? 0).

Definition ccms_thread_lock_owned (me : nat) (c : ccms_cst) : bool := (cst_count c <? 0) && bool_decide (cst_td c = Some me).

(** The turn under the spinlock: who may enter, and the sleep. *)
Definition lock_turn (me : nat) (c : ccms_cst) (state : Z) : outcome (bool * ccms_cst) :=
  if state =? CCMS_STATE_SHARED then
    if (cst_count c <? 0) || negb (cst_upgrade c =? 0) then Done (false, c)
    else
      let c := set_count (i32 (cst_count c + 1)) c in
      assert! bool_decide (cst_td c = None); Done (true, c)
  else if state =? CCMS_STATE_EXCLUSIVE then
    if negb (cst_count c =? 0) || negb (cst_upgrade c =? 0) then Done (false, c)
    else Done (true, set_td (Some me) (set_count (-1) c))
  else Panic.

Definition ccms_thread_lock (me : nat) (c : ccms_cst) (state : Z) : outcome (bool * ccms_cst) :=
  if ccms_thread_lock_owned me c then Done (true, set_count (i32 (cst_count c - 1)) c)
  else
    let! (entered, c) := lock_turn me c state in
    Done (entered, if entered : bool then c else set_blocked true c).

(** EBUSY is [false]. *)
Definition ccms_thread_lock_nonblock (me : nat) (c : ccms_cst) (state : Z) : outcome (bool * ccms_cst) :=
  if ccms_thread_lock_owned me c then Done (true, set_count (i32 (cst_count c - 1)) c)
  else lock_turn me c state.

(** Wake the sleepers. *)
Definition unblock (c : ccms_cst) : ccms_cst := if cst_blocked c then set_blocked false c else c.

Definition ccms_thread_unlock (me : nat) (c : ccms_cst) : outcome ccms_cst :=
  if cst_count c <? 0 then
    assert! bool_decide (cst_td c = Some me);
    if cst_count c <? -1 then Done (set_count (i32 (cst_count c + 1)) c)
    else
      assert! cst_count c =? -1;
      Done (unblock (set_td None (set_count 0 c)))
  else if 0 <? cst_count c then
    let c := set_count (cst_count c - 1) c in
    Done (if cst_count c =? 0 then unblock c else c)
  else Panic.

(** (the state that was held, the lock) *)
Definition ccms_thread_lock_temp_release (me : nat) (c : ccms_cst) : outcome (Z * ccms_cst) :=
  if cst_count c <? 0 then let! c := ccms_thread_unlock me c in Done (CCMS_STATE_EXCLUSIVE, c)
  else if 0 <? cst_count c then let! c := ccms_thread_unlock me c in Done (CCMS_STATE_SHARED, c)
  else Done (CCMS_STATE_INVALID, c).
Definition ccms_thread_lock_temp_restore (me : nat) (c : ccms_cst) (ostate : Z) : outcome (bool * ccms_cst) := ccms_thread_lock me c ostate.

(** [Some ostate]: the lock is exclusive now; [None]: the loop below goes on. *)
Definition upgrade_turn (me : nat) (c : ccms_cst) : option Z * ccms_cst :=
  if negb (cst_count c =? 0) then (None, set_blocked true c)
  else (Some CCMS_STATE_SHARED, set_td (Some me) (set_count (-1) c)).
Definition ccms_thread_lock_upgrade (me : nat) (c : ccms_cst) : outcome (option Z * ccms_cst) :=
  if cst_count c <? 0 then
    assert! bool_decide (cst_td c = Some me); Done (Some CCMS_STATE_EXCLUSIVE, c)
  else if 0 <? cst_count c then
    Done (upgrade_turn me (set_count (cst_count c - 1) (set_upgrade (i32 (cst_upgrade c + 1)) c)))
  else Panic.

Definition ccms_thread_lock_downgrade (me : nat) (c : ccms_cst) (ostate : Z) : outcome ccms_cst :=
  if ostate =? CCMS_STATE_SHARED then
    assert! bool_decide (cst_td c = Some me);
    assert! cst_count c =? -1;
    Done (unblock (set_td None (set_count 1 (set_upgrade (i32 (cst_upgrade c - 1)) c))))
  else Done c.

Definition ccms_thread_lock_setown (me : nat) (c : ccms_cst) : outcome ccms_cst :=
  assert! cst_count c <? 0; Done (set_td (Some me) c).

Definition ccms_thread_unlock_upgraded (me : nat) (c : ccms_cst) (ostate : Z) : outcome ccms_cst :=
  if ostate =? CCMS_STATE_SHARED then
    assert! bool_decide (cst_td c = Some me);
    assert! cst_count c =? -1;
    Done (unblock (set_td None (set_count 0 (set_upgrade (i32 (cst_upgrade c - 1)) c))))
  else ccms_thread_unlock me c.

(** * Threads that follow the protocol *)

(** What a thread has: nothing, a lock it waits for, a shared lock, an upgrade it waits
    for, or the exclusive lock [depth] times, upgraded from a shared one or not. *)
Inductive hold :=
| Idle
| WaitLock (state : Z)
| Shared
| WaitUpgrade
| Excl (depth : Z) (upgraded : bool).

(** The calls: locks while idle or exclusive (a shared lock is not taken twice), the
    release that fits, and the retries of the sleepers. *)
Inductive call :=
| Lock (state : Z)
| LockNonblock (state : Z)
| Unlock
| Upgrade
| Downgrade
| UnlockUpgraded
| Retry.

Definition entered (state : Z) : hold := if state =? CCMS_STATE_SHARED then Shared else Excl 1 false.
Definition valid_state (state : Z) : bool := (state =? CCMS_STATE_SHARED) || (state =? CCMS_STATE_EXCLUSIVE).

(** None: the call does not fit what the thread has. *)
Definition thread_call (me : nat) (h : hold) (a : call) (c : ccms_cst) : option (outcome (hold * ccms_cst)) :=
  match a, h with
  | Lock st, Idle | Retry, WaitLock st =>
      if valid_state st then
        Some (let! (ok, c) := ccms_thread_lock me c st in Done (if ok : bool then entered st else WaitLock st, c))
      else None
  | Lock st, Excl d u =>
      if valid_state st && (d <? 2 ^ 30) then
        Some (let! (ok, c) := ccms_thread_lock me c st in Done (if ok : bool then Excl (d + 1) u else h, c))
      else None
  | LockNonblock st, Idle =>
      if valid_state st then
        Some (let! (ok, c) := ccms_thread_lock_nonblock me c st in Done (if ok : bool then entered st else Idle, c))
      else None
  | LockNonblock st, Excl d u =>
      if valid_state st && (d <? 2 ^ 30) then
        Some (let! (ok, c) := ccms_thread_lock_nonblock me c st in Done (if ok : bool then Excl (d + 1) u else h, c))
      else None
  | Unlock, Shared => Some (let! c := ccms_thread_unlock me c in Done (Idle, c))
  | Unlock, Excl d u =>
      if (d =? 1) && u then None
      else Some (let! c := ccms_thread_unlock me c in Done (if d =? 1 then Idle else Excl (d - 1) u, c))
  | Upgrade, Shared =>
      Some (let! (r, c) := ccms_thread_lock_upgrade me c in Done (match r with Some _ => Excl 1 true | None => WaitUpgrade end, c))
  | Upgrade, Excl d u => Some (let! (_, c) := ccms_thread_lock_upgrade me c in Done (h, c))
  | Retry, WaitUpgrade =>
      Some (let '(r, c) := upgrade_turn me c in Done (match r with Some _ => Excl 1 true | None => WaitUpgrade end, c))
  | Downgrade, Excl 1 true => Some (let! c := ccms_thread_lock_downgrade me c CCMS_STATE_SHARED in Done (Shared, c))
  | UnlockUpgraded, Excl 1 true => Some (let! c := ccms_thread_unlock_upgraded me c CCMS_STATE_SHARED in Done (Idle, c))
  | _, _ => None
  end.

(** The lock and its threads. *)
Record ccms_machine := Ccms { cm_cst : ccms_cst; cm_threads : list hold }.

(** A call of thread [t]; calls that do not fit are skipped. *)
Definition ccms_step (m : ccms_machine) (t : nat) (a : call) : outcome ccms_machine :=
  match cm_threads m !! t with
  | Some h =>
      match thread_call t h a (cm_cst m) with
      | Some r => let! (h, c) := r in Done (Ccms c (<[t := h]> (cm_threads m)))
      | None => Done m
      end
  | None => Done m
  end.
Fixpoint ccms_run (m : ccms_machine) (l : list (nat * call)) : outcome ccms_machine :=
  match l with
  | [] => Done m
  | (t, a) :: l => let! m := ccms_step m t a in ccms_run m l
  end.
Definition ccms_start (n : nat) : ccms_machine := Ccms ccms_cst_init (replicate n Idle).
