(* ===== verification/CcmsTheorems.v ===== *)
(** The CCMS lock (Ccms): whatever the interleaving of threads that follow the
    protocol, no assertion fails, an exclusive holder is alone, and the lock is never
    lost: when nobody holds it, some waiting thread gets it at its next try.

    The invariant counts what the threads hold and compares the sums with the fields. *)

From Stdlib Require Import ZArith Lia Bool.
From stdpp Require Import base numbers list option.
From S2P Require Import Prelude Ccms.

(** * Sums over the threads *)

Definition sum_over (f : hold -> Z) (l : list hold) : Z := foldr (fun h acc => f h + acc) 0 l.

Definition w_shared (h : hold) : Z := match h with Shared => 1 | _ => 0 end.
Definition w_excl (h : hold) : Z := match h with Excl _ _ => 1 | _ => 0 end.
Definition w_upgrade (h : hold) : Z := match h with WaitUpgrade | Excl _ true => 1 | _ => 0 end.

Lemma sum_over_insert f l t h h' : l !! t = Some h -> sum_over f (<[t:=h']> l) = sum_over f l - f h + f h'.
Proof.
  revert t. induction l as [|x l IH]; intros [|t]; cbn; try discriminate.
  - intros [= ->]. lia.
  - intros H. change (f x + sum_over f (<[t:=h']> l) = f x + sum_over f l - f h + f h').
    rewrite (IH _ H). lia.
Qed.
Lemma sum_over_range f l : (forall h, 0 <= f h <= 1) -> 0 <= sum_over f l <= Z.of_nat (length l).
Proof. intros H. induction l as [|x l IH]; cbn -[Z.of_nat]; [lia|]. specialize (H x). unfold sum_over in *. lia. Qed.
Lemma sum_over_ge f l t h : (forall h, 0 <= f h <= 1) -> l !! t = Some h -> f h <= sum_over f l.
Proof.
  intros H. revert t. induction l as [|x l IH]; intros [|t]; cbn; try discriminate.
  - intros [= ->]. pose proof (sum_over_range f l H). unfold sum_over in *. lia.
  - intros Ht. apply IH in Ht. specialize (H x). unfold sum_over in *. lia.
Qed.
(** Two different threads count twice. *)
Lemma sum_over_two f l t h t' h' :
  (forall h, 0 <= f h <= 1) -> l !! t = Some h -> l !! t' = Some h' -> t <> t' -> f h + f h' <= sum_over f l.
Proof.
  intros H. revert t t'. induction l as [|x l IH]; intros [|t] [|t']; cbn; try discriminate; try congruence.
  - intros [= ->] Ht' _. pose proof (sum_over_ge f l _ _ H Ht'). unfold sum_over in *. lia.
  - intros Ht [= ->] _. pose proof (sum_over_ge f l _ _ H Ht). unfold sum_over in *. lia.
  - intros Ht Ht' Hne. specialize (IH t t' Ht Ht' ltac:(congruence)). specialize (H x). unfold sum_over in *. lia.
Qed.
Lemma sum_over_pos f l : 0 < sum_over f l -> exists t h, l !! t = Some h /\ 0 < f h.
Proof.
  induction l as [|x l IH]; cbn; [lia|]. intros H. destruct (decide (0 < f x)).
  - exists 0%nat, x. auto.
  - destruct IH as (t & h & Ht & Hh); [unfold sum_over in *; lia|]. exists (S t), h. auto.
Qed.
Lemma sum_over_idle f n : f Idle = 0 -> sum_over f (replicate n Idle) = 0.
Proof. intros H. induction n; cbn; [reflexivity|]. unfold sum_over in *. lia. Qed.

Lemma w_shared_range h : 0 <= w_shared h <= 1. Proof. destruct h; cbn; lia. Qed.
Lemma w_excl_range h : 0 <= w_excl h <= 1. Proof. destruct h; cbn; lia. Qed.
Lemma w_upgrade_range h : 0 <= w_upgrade h <= 1. Proof. destruct h as [| | | |? []]; cbn; lia. Qed.

(** * The invariant *)

(** A thread waits only for a lock that exists. *)
Definition hold_ok (h : hold) : Prop := match h with WaitLock st => valid_state st = true | _ => True end.

(** Nobody is exclusive: the count is the number of shared holders. *)
Definition free_or_shared (c : ccms_cst) (l : list hold) : Prop :=
  cst_td c = None /\ cst_count c = sum_over w_shared l /\ sum_over w_excl l = 0.

(** One thread is, as often as the count says. *)
Definition exclusive (c : ccms_cst) (l : list hold) : Prop :=
  exists t d u, cst_td c = Some t /\ l !! t = Some (Excl d u) /\ cst_count c = - d /\ 1 <= d <= 2 ^ 30
             /\ sum_over w_excl l = 1 /\ sum_over w_shared l = 0.

Record ccms_inv (m : ccms_machine) : Prop := {
  ci_len : Z.of_nat (length (cm_threads m)) < 2 ^ 31;
  ci_ok : Forall hold_ok (cm_threads m);
  ci_upgrade : cst_upgrade (cm_cst m) = sum_over w_upgrade (cm_threads m);
  ci_held : free_or_shared (cm_cst m) (cm_threads m) \/ exclusive (cm_cst m) (cm_threads m)
}.

Lemma ccms_start_inv n : Z.of_nat n < 2 ^ 31 -> ccms_inv (ccms_start n).
Proof.
  intros Hn. split; unfold ccms_start; cbn [cm_cst cm_threads].
  - rewrite length_replicate. exact Hn.
  - apply Forall_replicate. exact I.
  - symmetry. apply (sum_over_idle w_upgrade). reflexivity.
  - left. split; [reflexivity|]. rewrite !sum_over_idle by reflexivity. auto.
Qed.

(** The blocked flag is not in the invariant. *)
Lemma unblock_fields c : cst_upgrade (unblock c) = cst_upgrade c /\ cst_count (unblock c) = cst_count c /\ cst_td (unblock c) = cst_td c.
Proof. unfold unblock. destruct (cst_blocked c); auto. Qed.

(** A thread's new hold, when the lock is not exclusive afterwards. *)
Lemma put_shared l t h h' c' :
  Z.of_nat (length l) < 2 ^ 31 -> Forall hold_ok l -> l !! t = Some h -> hold_ok h' ->
  cst_td c' = None -> cst_upgrade c' = sum_over w_upgrade l - w_upgrade h + w_upgrade h' ->
  cst_count c' = sum_over w_shared l - w_shared h + w_shared h' ->
  sum_over w_excl l - w_excl h + w_excl h' = 0 ->
  ccms_inv (Ccms c' (<[t:=h']> l)).
Proof.
  intros Hl Hok Ht Hh' Htd Hu Hc He. split; cbn [cm_cst cm_threads].
  - rewrite length_insert. exact Hl.
  - apply Forall_insert; assumption.
  - rewrite (sum_over_insert _ _ _ _ _ Ht). exact Hu.
  - left. split; [exact Htd|]. rewrite !(sum_over_insert _ _ _ _ _ Ht). auto.
Qed.
Lemma put_excl l t h d u c' :
  Z.of_nat (length l) < 2 ^ 31 -> Forall hold_ok l -> l !! t = Some h -> 1 <= d <= 2 ^ 30 ->
  cst_td c' = Some t -> cst_count c' = - d ->
  cst_upgrade c' = sum_over w_upgrade l - w_upgrade h + w_upgrade (Excl d u) ->
  sum_over w_shared l = w_shared h -> sum_over w_excl l = w_excl h ->
  ccms_inv (Ccms c' (<[t:=Excl d u]> l)).
Proof.
  intros Hl Hok Ht Hd Htd Hc Hu Hs He. split; cbn [cm_cst cm_threads].
  - rewrite length_insert. exact Hl.
  - apply Forall_insert; [assumption|exact I].
  - rewrite (sum_over_insert _ _ _ _ _ Ht). exact Hu.
  - right. exists t, d, u. rewrite !(sum_over_insert _ _ _ _ _ Ht), Hs, He. cbn.
    split; [exact Htd|]. split; [|lia]. apply list_lookup_insert_eq. eauto using lookup_lt_Some.
Qed.
(** A thread that is not exclusive, before or after, and the lock as it was. *)
Lemma put_other m t h h' c' :
  ccms_inv m -> cm_threads m !! t = Some h -> hold_ok h' ->
  cst_upgrade c' = cst_upgrade (cm_cst m) -> cst_count c' = cst_count (cm_cst m) -> cst_td c' = cst_td (cm_cst m) ->
  w_upgrade h' = w_upgrade h -> w_shared h' = w_shared h -> w_excl h = 0 -> w_excl h' = 0 ->
  ccms_inv (Ccms c' (<[t:=h']> (cm_threads m))).
Proof.
  intros [Hl Hok Hu Hheld] Ht Hh' Eu Ec Etd Wu Ws We We'. split; cbn [cm_cst cm_threads].
  - rewrite length_insert. exact Hl.
  - apply Forall_insert; assumption.
  - rewrite (sum_over_insert _ _ _ _ _ Ht). lia.
  - unfold free_or_shared, exclusive. rewrite !(sum_over_insert _ _ _ _ _ Ht), Ec, Etd, We, We', Ws.
    destruct Hheld as [(H1 & H2 & H3)|(t0 & d & u & H1 & H2 & H3)]; [left; split; [exact H1|lia]|right].
    exists t0, d, u. split; [exact H1|]. split; [|lia].
    rewrite list_lookup_insert_ne; [exact H2|]. intros ->. rewrite Ht in H2. injection H2 as ->. cbn in We. lia.
Qed.

(** What thread [t] knows about the lock from what it has. *)
Definition sees (m : ccms_machine) (t : nat) (h : hold) : Prop :=
  let c := cm_cst m in
  match h with
  | Excl d u => cst_td c = Some t /\ cst_count c = - d /\ 1 <= d <= 2 ^ 30
                /\ sum_over w_excl (cm_threads m) = 1 /\ sum_over w_shared (cm_threads m) = 0
  | Shared => cst_td c = None /\ 1 <= cst_count c /\ cst_count c = sum_over w_shared (cm_threads m)
              /\ sum_over w_excl (cm_threads m) = 0
  | _ => cst_td c <> Some t
         /\ (cst_count c < 0 \/ cst_td c = None /\ 0 <= cst_count c /\ cst_count c = sum_over w_shared (cm_threads m)
                                /\ sum_over w_excl (cm_threads m) = 0)
  end.

Lemma thread_sees m t h : ccms_inv m -> cm_threads m !! t = Some h -> sees m t h.
Proof.
  intros [Hl Hok Hu Hheld] Ht.
  pose proof (sum_over_range w_shared (cm_threads m) w_shared_range) as Rs.
  pose proof (sum_over_ge w_shared _ _ _ w_shared_range Ht) as Gs.
  pose proof (sum_over_ge w_excl _ _ _ w_excl_range Ht) as Ge.
  destruct Hheld as [(H1 & H2 & H3)|(t0 & d0 & u0 & H1 & H2 & H3 & H4 & H5 & H6)].
  - destruct h; cbn in *; rewrite ?H1; try lia; (split; [discriminate || reflexivity|first [lia|right; split; [reflexivity|lia]]]).
  - destruct (decide (t = t0)) as [->|Hne].
    + assert (h = Excl d0 u0) as -> by congruence. cbn. auto.
    + pose proof (sum_over_two w_excl _ _ _ _ _ w_excl_range Ht H2 Hne) as G2.
      destruct h; cbn in *; rewrite ?H1; try lia; (split; [congruence|left; lia]).
Qed.

(** * Every call keeps the invariant *)

(** A thread without the lock enters, or finds it taken. *)
Definition outside (h : hold) : Prop := match h with Idle | WaitLock _ => True | _ => False end.

Lemma outside_not_owner m t h : ccms_inv m -> cm_threads m !! t = Some h -> outside h -> ccms_thread_lock_owned t (cm_cst m) = false.
Proof.
  intros Hm Ht Ho. pose proof (thread_sees _ _ _ Hm Ht) as Hs. unfold ccms_thread_lock_owned.
  apply andb_false_iff. right. apply bool_decide_eq_false. destruct h; cbn in *; tauto.
Qed.

Lemma lock_turn_inv m t h st :
  ccms_inv m -> cm_threads m !! t = Some h -> outside h -> valid_state st = true ->
  exists ok c', lock_turn t (cm_cst m) st = Done (ok, c')
    /\ if ok : bool then ccms_inv (Ccms c' (<[t:=entered st]> (cm_threads m))) else c' = cm_cst m.
Proof.
  intros Hm Ht Ho Hst. pose proof (thread_sees _ _ _ Hm Ht) as Hs. destruct Hm as [Hl Hok Hu Hheld].
  assert (W : w_shared h = 0 /\ w_excl h = 0 /\ w_upgrade h = 0) by (destruct h; cbn in *; tauto).
  assert (Hs' : cst_count (cm_cst m) < 0 \/ cst_td (cm_cst m) = None /\ 0 <= cst_count (cm_cst m)
            /\ cst_count (cm_cst m) = sum_over w_shared (cm_threads m) /\ sum_over w_excl (cm_threads m) = 0)
    by (destruct h; cbn in *; tauto). clear Hs.
  pose proof (sum_over_range w_shared (<[t:=Shared]> (cm_threads m)) w_shared_range) as R.
  rewrite (sum_over_insert _ _ _ _ _ Ht), length_insert in R. cbn [w_shared] in R.
  unfold lock_turn, valid_state, entered in *.
  destruct (st =? CCMS_STATE_SHARED) eqn:E1; [|destruct (st =? CCMS_STATE_EXCLUSIVE) eqn:E2; [|discriminate]].
  - clear Hst. destruct (_ || _) eqn:G; [exists false, (cm_cst m); auto|]. apply orb_false_iff in G as [G1 G2].
    apply Z.ltb_ge in G1. destruct Hs' as [|(Htd & _ & Hc & He)]; [lia|].
    rewrite assert_true by (cbn; rewrite Htd; reflexivity). eexists true, _. split; [reflexivity|].
    apply (put_shared _ _ h); cbn; try assumption; try exact I; rewrite ?i32_small; lia.
  - clear Hst. destruct (_ || _) eqn:G; [exists false, (cm_cst m); auto|]. apply orb_false_iff in G as [G1 G2].
    apply negb_false_iff, Z.eqb_eq in G1. destruct Hs' as [|(Htd & _ & Hc & He)]; [lia|].
    eexists true, _. split; [reflexivity|].
    apply (put_excl _ _ h); cbn; try assumption; try reflexivity; lia.
Qed.

(** The exclusive owner goes one deeper. *)
Lemma owner_lock m t d u :
  ccms_inv m -> cm_threads m !! t = Some (Excl d u) -> d < 2 ^ 30 ->
  let c' := set_count (i32 (cst_count (cm_cst m) - 1)) (cm_cst m) in
  ccms_thread_lock_owned t (cm_cst m) = true /\ ccms_inv (Ccms c' (<[t:=Excl (d + 1) u]> (cm_threads m))).
Proof.
  intros Hm Ht Hd. destruct (thread_sees _ _ _ Hm Ht) as (Htd & Hc & Hdr & He & Hs). destruct Hm as [Hl Hok Hu Hheld].
  split.
  - unfold ccms_thread_lock_owned. rewrite (bool_decide_eq_true_2 _ Htd), Hc. apply andb_true_iff. split; [apply Z.ltb_lt; lia|reflexivity].
  - apply (put_excl _ _ (Excl d u)); cbn [set_count cst_td cst_count cst_upgrade w_shared w_excl]; try assumption; rewrite ?i32_small; try lia.
    rewrite Hu. destruct u; cbn; lia.
Qed.

Lemma lock_inv m t h st :
  ccms_inv m -> cm_threads m !! t = Some h -> outside h -> valid_state st = true ->
  exists ok c', ccms_thread_lock t (cm_cst m) st = Done (ok, c')
    /\ ccms_inv (Ccms c' (<[t:=if ok : bool then entered st else WaitLock st]> (cm_threads m))).
Proof.
  intros Hm Ht Ho Hst. unfold ccms_thread_lock. rewrite (outside_not_owner _ _ _ Hm Ht Ho).
  destruct (lock_turn_inv _ _ _ st Hm Ht Ho Hst) as (ok & c' & -> & Hc'). cbn [obind].
  eexists ok, _. split; [reflexivity|]. destruct ok; [exact Hc'|subst c'].
  eapply put_other; try eassumption; try reflexivity; destruct h; cbn in *; tauto.
Qed.
Lemma lock_nonblock_inv m t st :
  ccms_inv m -> cm_threads m !! t = Some Idle -> valid_state st = true ->
  exists ok c', ccms_thread_lock_nonblock t (cm_cst m) st = Done (ok, c')
    /\ ccms_inv (Ccms c' (<[t:=if ok : bool then entered st else Idle]> (cm_threads m))).
Proof.
  intros Hm Ht Hst. unfold ccms_thread_lock_nonblock. rewrite (outside_not_owner _ _ _ Hm Ht I).
  destruct (lock_turn_inv _ _ _ st Hm Ht I Hst) as (ok & c' & -> & Hc').
  eexists ok, _. split; [reflexivity|]. destruct ok; [exact Hc'|subst c'].
  eapply put_other; try eassumption; try reflexivity; exact I.
Qed.

(** The fields after a step, whether or not sleepers were woken. *)
Ltac fields := rewrite ?(proj1 (unblock_fields _)), ?(proj1 (proj2 (unblock_fields _))), ?(proj2 (proj2 (unblock_fields _)));
  cbn [set_count set_td set_upgrade set_blocked cst_td cst_count cst_upgrade w_shared w_excl w_upgrade].

Lemma unlock_shared_inv m t :
  ccms_inv m -> cm_threads m !! t = Some Shared ->
  exists c', ccms_thread_unlock t (cm_cst m) = Done c' /\ ccms_inv (Ccms c' (<[t:=Idle]> (cm_threads m))).
Proof.
  intros Hm Ht. destruct (thread_sees _ _ _ Hm Ht) as (Htd & Hc1 & Hc & He). destruct Hm as [Hl Hok Hu Hheld].
  unfold ccms_thread_unlock. rewrite (proj2 (Z.ltb_ge _ _)), (proj2 (Z.ltb_lt _ _)) by lia.
  eexists. split; [reflexivity|]. destruct (_ =? 0);
    (apply (put_shared _ _ Shared); try assumption; try exact I; fields; try assumption; lia).
Qed.

Lemma unlock_excl_inv m t d u :
  ccms_inv m -> cm_threads m !! t = Some (Excl d u) -> (d =? 1) && u = false ->
  exists c', ccms_thread_unlock t (cm_cst m) = Done c'
    /\ ccms_inv (Ccms c' (<[t:=if d =? 1 then Idle else Excl (d - 1) u]> (cm_threads m))).
Proof.
  intros Hm Ht Hdu. destruct (thread_sees _ _ _ Hm Ht) as (Htd & Hc & Hd & He & Hs). destruct Hm as [Hl Hok Hu Hheld].
  unfold ccms_thread_unlock. rewrite (proj2 (Z.ltb_lt _ _)) by lia. rewrite assert_true by (rewrite Htd; apply bool_decide_eq_true_2; reflexivity).
  destruct (d =? 1) eqn:E; [apply Z.eqb_eq in E; cbn in Hdu; subst u|apply Z.eqb_neq in E].
  - rewrite (proj2 (Z.ltb_ge _ _)) by lia. rewrite assert_true by (apply Z.eqb_eq; lia).
    eexists. split; [reflexivity|].
    apply (put_shared _ _ (Excl d false)); try assumption; try exact I; fields; reflexivity || lia.
  - rewrite (proj2 (Z.ltb_lt _ _)) by lia. eexists. split; [reflexivity|].
    apply (put_excl _ _ (Excl d u)); try assumption; fields; rewrite ?i32_small; try assumption; destruct u; lia.
Qed.

(** An upgrader waits for the shared holders that are left. *)
Lemma upgrade_turn_inv m t :
  ccms_inv m -> cm_threads m !! t = Some WaitUpgrade ->
  let '(r, c') := upgrade_turn t (cm_cst m) in
  ccms_inv (Ccms c' (<[t:=match r with Some _ => Excl 1 true | None => WaitUpgrade end]> (cm_threads m))).
Proof.
  intros Hm Ht. destruct (thread_sees _ _ _ Hm Ht) as (Htd & Hs). unfold upgrade_turn.
  destruct (cst_count (cm_cst m) =? 0) eqn:E; cbn [negb].
  - apply Z.eqb_eq in E. destruct Hs as [|(Htd' & _ & Hc & He)]; [lia|]. destruct Hm as [Hl Hok Hu Hheld].
    apply (put_excl _ _ WaitUpgrade); try assumption; fields; reflexivity || lia.
  - eapply put_other; try eassumption; try reflexivity; exact I.
Qed.
Lemma upgrade_inv m t :
  ccms_inv m -> cm_threads m !! t = Some Shared ->
  exists r c', ccms_thread_lock_upgrade t (cm_cst m) = Done (r, c')
    /\ ccms_inv (Ccms c' (<[t:=match r with Some _ => Excl 1 true | None => WaitUpgrade end]> (cm_threads m))).
Proof.
  intros Hm Ht. destruct (thread_sees _ _ _ Hm Ht) as (Htd & Hc1 & Hc & He).
  pose proof (sum_over_range w_upgrade (<[t:=WaitUpgrade]> (cm_threads m)) w_upgrade_range) as R.
  rewrite (sum_over_insert _ _ _ _ _ Ht), length_insert in R. cbn [w_upgrade] in R.
  set (c0 := set_count (cst_count (cm_cst m) - 1) (set_upgrade (i32 (cst_upgrade (cm_cst m) + 1)) (cm_cst m))).
  assert (H0 : ccms_inv (Ccms c0 (<[t:=WaitUpgrade]> (cm_threads m)))).
  { destruct Hm as [Hl Hok Hu Hheld]. apply (put_shared _ _ Shared); try assumption; try exact I; unfold c0; fields;
      rewrite ?i32_small; try assumption; lia. }
  apply upgrade_turn_inv with (t := t) in H0; cbn [cm_cst cm_threads] in *;
    [|apply list_lookup_insert_eq; eauto using lookup_lt_Some].
  unfold ccms_thread_lock_upgrade. rewrite (proj2 (Z.ltb_ge _ _)), (proj2 (Z.ltb_lt _ _)) by lia. fold c0.
  destruct (upgrade_turn t c0) as [r c']. rewrite list_insert_insert_eq in H0. eauto.
Qed.
Lemma upgrade_owner m t d u :
  ccms_inv m -> cm_threads m !! t = Some (Excl d u) ->
  ccms_thread_lock_upgrade t (cm_cst m) = Done (Some CCMS_STATE_EXCLUSIVE, cm_cst m).
Proof.
  intros Hm Ht. destruct (thread_sees _ _ _ Hm Ht) as (Htd & Hc & Hd & _).
  unfold ccms_thread_lock_upgrade. rewrite (proj2 (Z.ltb_lt _ _)) by lia.
  rewrite assert_true by (apply bool_decide_eq_true_2; exact Htd). reflexivity.
Qed.

(** What downgrade and unlock_upgraded do with the upgraded lock. *)
Lemma upgraded_back_inv m t h' n b :
  ccms_inv m -> cm_threads m !! t = Some (Excl 1 true) -> hold_ok h' -> w_shared h' = n -> w_excl h' = 0 -> w_upgrade h' = 0 ->
  let c' := set_td None (set_count n (set_upgrade (i32 (cst_upgrade (cm_cst m) - 1)) (cm_cst m))) in
  ccms_inv (Ccms (if b : bool then unblock c' else c') (<[t:=h']> (cm_threads m))).
Proof.
  intros Hm Ht Hh' Wn We Wu. destruct (thread_sees _ _ _ Hm Ht) as (Htd & Hc & Hd & He & Hs). destruct Hm as [Hl Hok Hu Hheld].
  pose proof (sum_over_range w_upgrade (cm_threads m) w_upgrade_range) as R.
  destruct b; (apply (put_shared _ _ (Excl 1 true)); try assumption; fields; rewrite ?i32_small; try reflexivity; lia).
Qed.
Lemma downgrade_inv m t :
  ccms_inv m -> cm_threads m !! t = Some (Excl 1 true) ->
  exists c', ccms_thread_lock_downgrade t (cm_cst m) CCMS_STATE_SHARED = Done c' /\ ccms_inv (Ccms c' (<[t:=Shared]> (cm_threads m))).
Proof.
  intros Hm Ht. destruct (thread_sees _ _ _ Hm Ht) as (Htd & Hc & _).
  unfold ccms_thread_lock_downgrade. cbn [Z.eqb Pos.eqb].
  rewrite assert_true by (apply bool_decide_eq_true_2; exact Htd). rewrite assert_true by (apply Z.eqb_eq; lia).
  eexists. split; [reflexivity|]. apply (upgraded_back_inv _ _ Shared 1 true); auto. exact I.
Qed.
Lemma unlock_upgraded_inv m t :
  ccms_inv m -> cm_threads m !! t = Some (Excl 1 true) ->
  exists c', ccms_thread_unlock_upgraded t (cm_cst m) CCMS_STATE_SHARED = Done c' /\ ccms_inv (Ccms c' (<[t:=Idle]> (cm_threads m))).
Proof.
  intros Hm Ht. destruct (thread_sees _ _ _ Hm Ht) as (Htd & Hc & _).
  unfold ccms_thread_unlock_upgraded. cbn [Z.eqb Pos.eqb].
  rewrite assert_true by (apply bool_decide_eq_true_2; exact Htd). rewrite assert_true by (apply Z.eqb_eq; lia).
  eexists. split; [reflexivity|]. apply (upgraded_back_inv _ _ Idle 0 true); auto. exact I.
Qed.

(** Every call that fits what the thread has succeeds and keeps the invariant. *)
Lemma call_inv m t h a r :
  ccms_inv m -> cm_threads m !! t = Some h -> thread_call t h a (cm_cst m) = Some r ->
  exists h' c', r = Done (h', c') /\ ccms_inv (Ccms c' (<[t:=h']> (cm_threads m))).
Proof.
  intros Hm Ht Hr.
  assert (Hself : ccms_inv (Ccms (cm_cst m) (<[t:=h]> (cm_threads m))))
    by (rewrite list_insert_id by exact Ht; destruct m; exact Hm).
  destruct a, h as [|st'| | |d u]; cbn [thread_call] in Hr; try discriminate.
  - destruct (valid_state _) eqn:V; [injection Hr as <-|discriminate].
    destruct (lock_inv _ _ _ _ Hm Ht I V) as (ok & c' & -> & H). cbn. eauto.
  - destruct (valid_state state) eqn:V; [|discriminate]. destruct (d <? 2 ^ 30) eqn:Ed; [|discriminate]. injection Hr as <-.
    destruct (owner_lock _ _ _ _ Hm Ht (proj1 (Z.ltb_lt _ _) Ed)) as (Ho & H).
    unfold ccms_thread_lock. rewrite Ho. cbn. eauto.
  - destruct (valid_state _) eqn:V; [injection Hr as <-|discriminate].
    destruct (lock_nonblock_inv _ _ _ Hm Ht V) as (ok & c' & -> & H). cbn. eauto.
  - destruct (valid_state state) eqn:V; [|discriminate]. destruct (d <? 2 ^ 30) eqn:Ed; [|discriminate]. injection Hr as <-.
    destruct (owner_lock _ _ _ _ Hm Ht (proj1 (Z.ltb_lt _ _) Ed)) as (Ho & H).
    unfold ccms_thread_lock_nonblock. rewrite Ho. cbn. eauto.
  - injection Hr as <-. destruct (unlock_shared_inv _ _ Hm Ht) as (c' & -> & H). cbn. eauto.
  - destruct ((d =? 1) && u) eqn:E; [discriminate|]. injection Hr as <-.
    destruct (unlock_excl_inv _ _ _ _ Hm Ht E) as (c' & -> & H). cbn. eauto.
  - injection Hr as <-. destruct (upgrade_inv _ _ Hm Ht) as (r0 & c' & -> & H). cbn. eauto.
  - injection Hr as <-. rewrite (upgrade_owner _ _ _ _ Hm Ht). cbn. eauto.
  - destruct d as [|[]|], u; try discriminate. injection Hr as <-.
    destruct (downgrade_inv _ _ Hm Ht) as (c' & -> & H). cbn. eauto.
  - destruct d as [|[]|], u; try discriminate. injection Hr as <-.
    destruct (unlock_upgraded_inv _ _ Hm Ht) as (c' & -> & H). cbn. eauto.
  - destruct (valid_state _) eqn:V; [injection Hr as <-|discriminate].
    destruct (lock_inv _ _ _ _ Hm Ht I V) as (ok & c' & -> & H). cbn. eauto.
  - injection Hr as <-. pose proof (upgrade_turn_inv _ _ Hm Ht) as H. destruct (upgrade_turn t (cm_cst m)) as [r0 c']. eauto.
Qed.

Lemma step_inv m t a : ccms_inv m -> exists m', ccms_step m t a = Done m' /\ ccms_inv m'.
Proof.
  intros Hm. unfold ccms_step. destruct (cm_threads m !! t) as [h|] eqn:Ht; [|eauto].
  destruct (thread_call t h a (cm_cst m)) as [r|] eqn:Hr; [|eauto].
  destruct (call_inv _ _ _ _ _ Hm Ht Hr) as (h' & c' & -> & H). cbn. eauto.
Qed.
Lemma run_inv l m : ccms_inv m -> exists m', ccms_run m l = Done m' /\ ccms_inv m'.
Proof.
  revert m. induction l as [|[t a] l IH]; intros m Hm; cbn; [eauto|].
  destruct (step_inv m t a Hm) as (m1 & -> & H1). cbn. apply IH. exact H1.
Qed.

(** * Exclusion and progress *)

(** The thread may use what the lock protects, alone or with others. *)
Definition holds (h : hold) : bool := match h with Shared | Excl _ _ => true | _ => false end.
Definition waits (h : hold) : bool := match h with WaitLock _ | WaitUpgrade => true | _ => false end.

(** C33. Safety of the CCMS lock: in every interleaving of fewer than 2^31 threads that
    lock (blocking or not), lock again, unlock, upgrade, downgrade and retry, no
    assertion of hammer2_ccms.c fails; a thread with the exclusive lock is the only one
    with any lock, is the one ccms_thread_lock_owned answers, and the count is minus its depth. *)
Theorem ccms_exclusion n l :
  Z.of_nat n < 2 ^ 31 ->
  exists m, ccms_run (ccms_start n) l = Done m
    /\ forall t d u, cm_threads m !! t = Some (Excl d u) ->
         ccms_thread_lock_owned t (cm_cst m) = true /\ cst_count (cm_cst m) = - d
         /\ forall t' h, cm_threads m !! t' = Some h -> t' <> t ->
              holds h = false /\ ccms_thread_lock_owned t' (cm_cst m) = false.
Proof.
  intros Hn. destruct (run_inv l _ (ccms_start_inv n Hn)) as (m & -> & Hm). exists m. split; [reflexivity|].
  intros t d u Ht. destruct (thread_sees _ _ _ Hm Ht) as (Htd & Hc & Hd & He & Hs). unfold ccms_thread_lock_owned.
  rewrite Htd, Hc. split; [|split; [reflexivity|]].
  - rewrite bool_decide_eq_true_2 by reflexivity. apply andb_true_iff. split; [apply Z.ltb_lt; lia|reflexivity].
  - intros t' h Ht' Hne. split; [|apply andb_false_iff; right; apply bool_decide_eq_false; congruence].
    pose proof (thread_sees _ _ _ Hm Ht') as Hs'. destruct h; try reflexivity; cbn in Hs'; destruct Hs' as [H _]; congruence.
Qed.

(** The turn of a waiting thread on a lock that nobody has. *)
Lemma retry_lock m t st :
  cm_threads m !! t = Some (WaitLock st) -> valid_state st = true ->
  cst_count (cm_cst m) = 0 -> cst_upgrade (cm_cst m) = 0 -> cst_td (cm_cst m) = None ->
  exists c, ccms_step m t Retry = Done (Ccms c (<[t:=entered st]> (cm_threads m))).
Proof.
  intros Ht V Hc Hu Htd. unfold ccms_step. rewrite Ht. cbn [thread_call]. rewrite V.
  unfold ccms_thread_lock, ccms_thread_lock_owned, lock_turn, valid_state in *. rewrite Hc, Hu, Htd. cbn.
  apply orb_true_iff in V as [E|E]; rewrite E; [|destruct (st =? 2)]; cbn; rewrite ?assert_true by (rewrite Htd; reflexivity); eexists; reflexivity.
Qed.
Lemma retry_upgrade m t :
  cm_threads m !! t = Some WaitUpgrade -> cst_count (cm_cst m) = 0 ->
  exists c, ccms_step m t Retry = Done (Ccms c (<[t:=Excl 1 true]> (cm_threads m))).
Proof. intros Ht Hc. unfold ccms_step. rewrite Ht. cbn [thread_call]. unfold upgrade_turn. rewrite Hc. cbn. eauto. Qed.

(** With no holder the count is 0 and the upgrades pending are the upgraders waiting. *)
Lemma nobody_holds m :
  ccms_inv m -> (forall t' h', cm_threads m !! t' = Some h' -> holds h' = false) ->
  cst_count (cm_cst m) = 0 /\ cst_td (cm_cst m) = None
  /\ (cst_upgrade (cm_cst m) <> 0 -> exists t, cm_threads m !! t = Some WaitUpgrade).
Proof.
  intros [Hl Hok Hu Hheld] Hfree.
  destruct Hheld as [(Htd & Hc & He)|(t0 & d & u & _ & H0 & _)]; [|specialize (Hfree _ _ H0); discriminate].
  pose proof (sum_over_range w_shared (cm_threads m) w_shared_range) as Rs.
  pose proof (sum_over_range w_upgrade (cm_threads m) w_upgrade_range) as Ru.
  split; [|split; [exact Htd|intros Hne]].
  - destruct (Z.eq_dec (sum_over w_shared (cm_threads m)) 0); [lia|].
    destruct (sum_over_pos w_shared (cm_threads m)) as (t' & h' & H1 & H2); [lia|]. destruct h'; cbn in H2; try lia.
    specialize (Hfree _ _ H1). discriminate.
  - destruct (sum_over_pos w_upgrade (cm_threads m)) as (t1 & h1 & H1 & H2); [lia|]. destruct h1 as [| | | |? []]; cbn in H2; try lia; [eauto|].
    specialize (Hfree _ _ H1). discriminate.
Qed.

(** C34. Progress of the CCMS lock: whatever happened before, when no thread holds the lock
    and some wait for it, one of them gets it at its next try (an upgrader, if there
    is one): no sequence of upgrades, downgrades and releases leaves it unusable. *)
Theorem ccms_progress n l m t h :
  Z.of_nat n < 2 ^ 31 -> ccms_run (ccms_start n) l = Done m ->
  (forall t' h', cm_threads m !! t' = Some h' -> holds h' = false) ->
  cm_threads m !! t = Some h -> waits h = true ->
  exists t1 h1 m1 h2, cm_threads m !! t1 = Some h1 /\ waits h1 = true /\ (h = WaitUpgrade -> h1 = WaitUpgrade)
    /\ ccms_step m t1 Retry = Done m1 /\ cm_threads m1 !! t1 = Some h2 /\ holds h2 = true.
Proof.
  intros Hn Hrun Hfree Ht Hw. destruct (run_inv l _ (ccms_start_inv n Hn)) as (m' & Hr & Hm).
  assert (m' = m) as -> by congruence. clear Hr.
  destruct (nobody_holds _ Hm Hfree) as (Hc & Htd & Hup).
  assert (Hcase : h = WaitUpgrade \/ exists st, h = WaitLock st) by (destruct h; try discriminate; eauto).
  destruct (Z.eq_dec (cst_upgrade (cm_cst m)) 0) as [U|U]; [destruct Hcase as [->|[st ->]]|].
  - pose proof (sum_over_ge w_upgrade _ _ _ w_upgrade_range Ht) as G. rewrite (ci_upgrade _ Hm) in U. cbn in G. lia.
  - pose proof (proj1 (Forall_lookup _ _) (ci_ok _ Hm) _ _ Ht) as V.
    destruct (retry_lock _ _ _ Ht V Hc U Htd) as (c & Hstep).
    exists t, (WaitLock st), (Ccms c (<[t:=entered st]> (cm_threads m))), (entered st).
    split; [exact Ht|]. split; [reflexivity|]. split; [discriminate|]. split; [exact Hstep|].
    split; [apply list_lookup_insert_eq; eauto using lookup_lt_Some|]. unfold entered. destruct (_ =? _); reflexivity.
  - destruct (Hup U) as [t1 H1]. destruct (retry_upgrade _ _ H1 Hc) as (c & Hstep).
    exists t1, WaitUpgrade, (Ccms c (<[t1:=Excl 1 true]> (cm_threads m))), (Excl 1 true).
    split; [exact H1|]. split; [reflexivity|]. split; [auto|]. split; [exact Hstep|].
    split; [apply list_lookup_insert_eq; eauto using lookup_lt_Some|reflexivity].
Qed.

(** * Examples *)

(** Two readers, one of which upgrades while the other still reads, and a writer: the
    upgrader waits, then the reader leaves. *)
Definition demo_calls : list (nat * call) :=
  [(0%nat, Lock CCMS_STATE_SHARED); (1%nat, Lock CCMS_STATE_SHARED); (2%nat, Lock CCMS_STATE_EXCLUSIVE);
   (0%nat, Upgrade); (1%nat, Unlock)].
Definition demo_waiting : ccms_machine :=
  Ccms (Cst 1 0 false None) [WaitUpgrade; Idle; WaitLock CCMS_STATE_EXCLUSIVE].

(** The upgrader gets the lock first. *)
Lemma ccms_exclusion_witness :
  exists m, ccms_run (ccms_start 3) (demo_calls ++ [(2%nat, Retry); (0%nat, Retry)]) = Done m
    /\ cm_threads m !! 0%nat = Some (Excl 1 true) /\ ccms_thread_lock_owned 0 (cm_cst m) = true.
Proof.
  destruct (ccms_exclusion 3 (demo_calls ++ [(2%nat, Retry); (0%nat, Retry)]) eq_refl) as (m & Hr & H).
  exists m. split; [exact Hr|].
  assert (H0 : cm_threads m !! 0%nat = Some (Excl 1 true)).
  { vm_compute in Hr. injection Hr as <-. reflexivity. }
  split; [exact H0|]. exact (proj1 (H _ _ _ H0)).
Defined.

Lemma ccms_progress_witness :
  exists t1 h1 m1 h2, cm_threads demo_waiting !! t1 = Some h1 /\ waits h1 = true
    /\ ccms_step demo_waiting t1 Retry = Done m1 /\ cm_threads m1 !! t1 = Some h2 /\ holds h2 = true.
Proof.
  destruct (ccms_progress 3 demo_calls demo_waiting 2 (WaitLock CCMS_STATE_EXCLUSIVE)) as (t1 & h1 & m1 & h2 & H1 & H2 & _ & H3).
  - reflexivity.
  - vm_compute. reflexivity.
  - intros t' h' H. destruct t' as [|[|[|]]]; cbn in H; try discriminate; injection H as <-; reflexivity.
  - reflexivity.
  - reflexivity.
  - exists t1, h1, m1, h2. auto.
Defined.
