(* ===== verification/Tools.v ===== *)
(** What the offline tools share: the volume set of lh1/src/sbin/hammer2/ondisk.c and
    the CRT shims it stands on (hammer2_user_windows.h, hammer2_user_subs.c).

    A file descriptor is the number of the file in [ios]; a tool that calls errx or
    exit is [Exit], whatever it had done before; a failed assertion and a store outside
    an allocation are [Abort].  Paths and console output are left out. *)

From Stdlib Require Import ZArith Lia Bool.
From stdpp Require Import base numbers list option gmap.
From S2P Require Import Prelude Disk Crc Subr Check Io Volumes.

(** * Running a tool *)

Inductive tool (A : Type) : Type :=
| Ran (x : A)
| Exit
| Abort.
Arguments Ran {A} x.
Arguments Exit {A}.
Arguments Abort {A}.

Definition tbind {A B} (m : tool A) (k : A -> tool B) : tool B :=
  match m with
  | Ran x => k x
  | Exit => Exit
  | Abort => Abort
  end.
Definition tassert (b : bool) : tool unit := if b then Ran tt else Abort.
(** [if (b) errx(1, ...)] *)
Definition errx (b : bool) : tool unit := if b then Exit else Ran tt.

Notation "'let?' x ':=' m 'in' k" := (tbind m (fun x => k))
  (at level 10, x pattern, m at level 200, k at level 200) : c_scope.
Notation "'assert?' b ';' k" := (tbind (tassert b) (fun _ => k))
  (at level 10, b at level 200, k at level 200) : c_scope.
Notation "'errx?' b ';' k" := (tbind (errx b) (fun _ => k))
  (at level 10, b at level 200, k at level 200) : c_scope.

(** * The CRT *)

(** [None] is a failed call; [fstat_id] is [st_ino] and [st_dev]; [qsort_by] is qsort of
    an array of byte arrays by a key. *)
Class Crt := {
  GetFileSizeEx : Z -> option Z;
  GetLengthInfo : Z -> option Z;
  filelengthi64 : Z -> Z;
  fstat_id : Z -> Z * Z;
  qsort_by : (list Z -> Z) -> list (list Z) -> list (list Z)
}.

Section tools.
Context {W : Win32} {CRT : Crt}.

Definition check_volume (fd : Z) : tool Z :=
  let rest := match GetLengthInfo fd with
              | Some size => Ran (u64 size)
              | None => errx? filelengthi64 fd <? 0; Ran (filelengthi64 fd)
              end in
  match GetFileSizeEx fd with
  | Some size => if 0 <? size then Ran size else rest
  | None => rest
  end.

(** Seek and write; the callers exit on a failure. *)
Definition pwrite (s : ios) (fd : Z) (buf : list Z) (off : Z) : tool ios :=
  if 2 ^ 63 <=? off then Exit                       (* negative as long long *)
  else
    let '(f, ok) := WriteFile fd (file_of s fd) off buf in
    if ok : bool then Ran (set_file fd f s) else Exit.

(** * The volume set *)

Record tvolume := Tvolume {
  tv_fd : Z;
  tv_id : Z;
  tv_offset : Z;
  tv_size : Z
}.
#[export] Instance tvolume_inhabited : Inhabited tvolume := populate (Tvolume (- 1) (- 1) 0 0).

(** struct hammer2_ondisk *)
Record ondisk := Ondisk {
  fo_version : Z;
  fo_nvolumes : Z;
  fo_volumes : list tvolume;
  fo_total_size : Z;
  fo_fsid : list Z;
  fo_fstype : list Z
}.

Definition hammer2_init_volume : tvolume := Tvolume (- 1) (- 1) OFF_NONE OFF_NONE.
Definition hammer2_init_ondisk : ondisk :=
  Ondisk (- 1) 0 (replicate 64 hammer2_init_volume) 0 (replicate 16 0) (replicate 16 0).
Definition hammer2_install_volume (fd id offset size : Z) : tvolume := Tvolume fd id offset size.

(** * Verification *)

Definition tv_installed (volumes : list tvolume) : Z := alen (filter (fun vol => tv_id vol <> - 1) volumes).

(** The second loop of [hammer2_verify_volumes_common], from slot [i]; [st] is the array
    of stat buffers, one per installed volume but indexed by the slot. *)
Fixpoint tool_common_loop (i : Z) (st : list (Z * Z)) (vols : list tvolume) : tool unit :=
  match vols with
  | [] => Ran tt
  | vol :: vols =>
      if tv_id vol =? - 1 then tool_common_loop (i + 1) st vols
      else
        assert? i <? alen st;                        (* stat(path, &st[i]) *)
        errx? tv_fd vol =? - 1;                      (* fstat(-1, &st[i]) fails *)
        let st := aset st i (fstat_id (tv_fd vol)) in
        errx? existsb (fun j => bool_decide (aget st i = aget st j)) (seqZ 0 i);
        errx? tv_offset vol =? OFF_NONE;
        errx? tv_size vol =? OFF_NONE;
        let? size := check_volume (tv_fd vol) in
        errx? size <? tv_size vol;
        tool_common_loop (i + 1) st vols
  end.
Definition tool_verify_volumes_common (fsp : ondisk) : tool unit :=
  errx? fo_version fsp =? - 1;
  tool_common_loop 0 (replicate (Z.to_nat (tv_installed (fo_volumes fsp))) (0, 0)) (fo_volumes fsp).

(** The result is [fsp->nvolumes]. *)
Definition tool_verify_volumes_1 (fsp : ondisk) (root : option (list Z)) : tool Z :=
  let nvolumes := tv_installed (fo_volumes fsp) in
  errx? negb (nvolumes =? 1);
  let? _ := match root with
            | None => Ran tt
            | Some vd =>
                errx? negb (vd_volu_id vd =? 0);
                errx? negb (vd_nvolumes vd =? 0);
                errx? negb (vd_total_size vd =? 0);
                errx (existsb (fun i => negb (vd_volu_loff vd i =? 0)) (seqZ 0 HAMMER2_MAX_VOLUMES))
            end in
  let vol := aget (fo_volumes fsp) 0 in
  errx? negb (tv_id vol =? 0);
  errx? negb (tv_offset vol =? 0);
  errx? tst (tv_size vol) HAMMER2_VOLUME_ALIGNMASK64;
  Ran nvolumes.

(** The last loop of [hammer2_verify_volumes_2]; [prev] is [vol - 1]. *)
Fixpoint tool_2_loop (nvolumes i : Z) (prev : option tvolume) (vols : list tvolume) : tool unit :=
  match vols with
  | [] => Ran tt
  | vol :: vols =>
      if tv_id vol =? - 1 then tool_2_loop nvolumes (i + 1) (Some vol) vols
      else
        errx? tst (tv_offset vol) HAMMER2_FREEMAP_LEVEL1_MASK;
        let? _ := match prev with
                  | Some p =>
                      errx? negb (tv_id vol =? tv_id p + 1);
                      errx (negb (tv_offset vol =? u64 (tv_offset p + tv_size p)))
                  | None => errx (negb (tv_offset vol =? 0))
                  end in
        let? _ := if negb (i =? nvolumes - 1) then
                    errx? tv_size vol <? HAMMER2_FREEMAP_LEVEL1_SIZE;
                    errx (tst (tv_size vol) HAMMER2_FREEMAP_LEVEL1_MASK)
                  else errx (tst (tv_size vol) HAMMER2_VOLUME_ALIGNMASK64) in
        tool_2_loop nvolumes (i + 1) (Some vol) vols
  end.

Definition tool_verify_volumes_2 (fsp : ondisk) (root : option (list Z)) : tool unit :=
  let nvolumes := tv_installed (fo_volumes fsp) in
  errx? negb (fo_nvolumes fsp =? nvolumes);
  let? _ := match root with
            | None => Ran tt
            | Some vd =>
                errx? negb (vd_volu_id vd =? HAMMER2_ROOT_VOLUME);
                errx? negb (vd_nvolumes vd =? fo_nvolumes fsp);
                errx? negb (vd_total_size vd =? fo_total_size fsp);
                errx? existsb (fun i => vd_volu_loff vd i =? OFF_NONE) (seqZ 0 nvolumes);
                errx (existsb (fun i => negb (vd_volu_loff vd i =? OFF_NONE))
                        (seqZ nvolumes (HAMMER2_MAX_VOLUMES - nvolumes)))
            end in
  tool_2_loop (fo_nvolumes fsp) 0 None (fo_volumes fsp).

Definition tool_verify_volumes (fsp : ondisk) (root : option (list Z)) : tool ondisk :=
  let? _ := tool_verify_volumes_common fsp in
  let? n := if HAMMER2_VOL_VERSION_MULTI_VOLUMES <=? fo_version fsp
            then let? _ := tool_verify_volumes_2 fsp root in Ran (fo_nvolumes fsp)
            else tool_verify_volumes_1 fsp root in
  assert? 0 <? n;
  Ran (Ondisk (fo_version fsp) n (fo_volumes fsp) (fo_total_size fsp) (fo_fsid fsp) (fo_fstype fsp)).

(** * Opening a file system *)

(** [read]: what is left of the device, at most [n] bytes. *)
Definition tool_read (s : ios) (fd size off n : Z) : list Z := fread (file_of s fd) off (Z.min n (size - off)).

Fixpoint tool_header_loop (n : nat) (s : ios) (fd size i mirror_tid zone : Z) (voldata : list Z) : Z * list Z :=
  match n with
  | O => (zone, voldata)
  | S n =>
      if size <=? i * HAMMER2_ZONE_BYTES64 then (zone, voldata)
      else
        let vd := tool_read s fd size (i * HAMMER2_ZONE_BYTES64) HAMMER2_PBUFSIZE in
        if negb (alen vd =? HAMMER2_PBUFSIZE) then tool_header_loop n s fd size (i + 1) mirror_tid zone voldata
        else if negb (header_valid vd) then tool_header_loop n s fd size (i + 1) mirror_tid zone voldata
        else if (zone =? - 1) || (mirror_tid <? vd_mirror_tid vd)
        then tool_header_loop n s fd size (i + 1) (vd_mirror_tid vd) i vd
        else tool_header_loop n s fd size (i + 1) mirror_tid zone voldata
  end.
Definition tool_read_volume_header (s : ios) (fd : Z) (voldata : list Z) : tool (Z * list Z) :=
  let? size := check_volume fd in
  Ran (tool_header_loop 4 s fd size 0 (2 ^ 64 - 1) (- 1) voldata).

(** [hammer2_add_volume] with the opened file. *)
Definition hammer2_add_volume (s : ios) (fso : ondisk) (fd : Z) : tool ondisk :=
  let? (zone, vd) := tool_read_volume_header s fd [] in
  errx? zone <? 0;
  let i := vd_volu_id vd in
  errx? HAMMER2_MAX_VOLUMES <=? i;
  errx? negb (tv_id (aget (fo_volumes fso) i) =? - 1);
  let? fso := if fo_nvolumes fso =? 0
              then Ran (Ondisk (i32 (vd_version vd)) (vd_nvolumes vd) (fo_volumes fso) (fo_total_size fso)
                          (vd_fsid vd) (vd_fstype vd))
              else
                errx? negb (fo_version fso =? i32 (vd_version vd));
                errx? negb (fo_nvolumes fso =? vd_nvolumes vd);
                errx? bool_decide (fo_fsid fso <> vd_fsid vd);
                errx? bool_decide (fo_fstype fso <> vd_fstype vd);
                Ran fso in
  let vol := hammer2_install_volume fd i (vd_volu_loff vd i) (vd_volu_size vd) in
  Ran (Ondisk (fo_version fso) (fo_nvolumes fso) (aset (fo_volumes fso) i vol)
         (u64 (fo_total_size fso + vd_volu_size vd)) (fo_fsid fso) (fo_fstype fso)).

(** The volume an offset is on; this port opens one device. *)
Definition tool_get_volume (fso : ondisk) (offset : Z) : option tvolume :=
  let offset := offset .&~ HAMMER2_OFF_MASK_RADIX in
  match list_find (fun v => tv_offset v <= offset /\ offset < u64 (tv_offset v + tv_size v))
          (take (Z.to_nat (fo_nvolumes fso)) (fo_volumes fso)) with
  | Some (_, v) => Some v
  | None => None
  end.

Definition hammer2_read_root_volume_header (s : ios) (fso : ondisk) : tool (option (list Z)) :=
  match tool_get_volume fso 0 with
  | None => Ran None
  | Some v =>
      let? (zone, vd) := tool_read_volume_header s (tv_fd v) (replicate (Z.to_nat HAMMER2_VOLUME_BYTES) 0) in
      errx? zone <? 0;
      Ran (Some vd)
  end.

Definition tool_init_volumes (s : ios) (fd : Z) : tool ondisk :=
  let? fso := hammer2_add_volume s hammer2_init_ondisk fd in
  let? root := hammer2_read_root_volume_header s fso in
  tool_verify_volumes fso root.
End tools.
