(* ===== verification/ToolsProof.v ===== *)
(** The tools (Tools) read the headers as the driver does (Volumes), and what their volume
    check does with a set that has a gap. *)

From Stdlib Require Import ZArith Lia Bool.
From stdpp Require Import base numbers list option gmap.
From S2P Require Import Prelude Disk Crc Subr Check Io IoLemmas IoSpec Volumes VolumesProof Tools.

(** * The header *)

(** There is nothing to read past the end of the device. *)
Lemma newest_past s fd size i zone vd :
  0 <= i <= 4 -> size <= i * HAMMER2_ZONE_BYTES64 -> newest s fd size i zone vd -> newest s fd size 4 zone vd.
Proof.
  intros Hi Hs [[-> H]|(Hz & Hu & Hv & H)]; [left|right].
  - split; [reflexivity|]. intros j Hj [A B]. destruct (decide (j < i)); [exact (H j ltac:(lia) (conj A B))|lia].
  - split; [lia|]. split; [exact Hu|]. split; [exact Hv|]. intros j Hj [A B].
    destruct (decide (j < i)); [exact (H j ltac:(lia) (conj A B))|lia].
Qed.

(** The loop keeps the newest of the copies it has seen; [mirror_tid] is the one of
    [voldata] once there is one. *)
Lemma tool_header_newest s fd size n : forall i mirror_tid zone voldata,
  0 <= i -> i + Z.of_nat n = 4 -> (2 ^ 16 | size) ->
  newest s fd size i zone voldata -> (zone <> - 1 -> mirror_tid = vd_mirror_tid voldata) ->
  let r := tool_header_loop n s fd size i mirror_tid zone voldata in newest s fd size 4 r.1 r.2.
Proof.
  induction n as [|n IH]; intros i tid zone vd Hi Hn Hd H Ht.
  { cbn [tool_header_loop fst snd]. replace 4 with i by lia. exact H. }
  cbn [tool_header_loop]. destruct (Z.leb_spec size (i * HAMMER2_ZONE_BYTES64)) as [Hs|Hs].
  { cbn [fst snd]. apply (newest_past _ _ _ i); [lia|exact Hs|exact H]. }
  assert (Hread : tool_read s fd size (i * HAMMER2_ZONE_BYTES64) HAMMER2_PBUFSIZE = header_copy s fd i).
  { unfold tool_read, header_copy. f_equal. destruct Hd as [q Hq]. lia. }
  rewrite Hread. assert (Hl : alen (header_copy s fd i) = HAMMER2_PBUFSIZE).
  { unfold alen, header_copy. rewrite fread_length. lia. }
  rewrite Hl, Z.eqb_refl. cbn [negb]. destruct (header_valid (header_copy s fd i)) eqn:Hv; cbn [negb].
  2: { apply IH; try assumption; try lia. apply newest_skip; [exact H|]. intros [_ Hu]. congruence. }
  destruct ((zone =? - 1) || (tid <? vd_mirror_tid (header_copy s fd i))) eqn:Hc; apply IH; try assumption; try lia.
  - apply (newest_take _ _ _ _ zone vd); [lia|exact H|split; assumption|].
    destruct (Z.eqb_spec zone (- 1)); [reflexivity|]. rewrite <- Ht by assumption. exact Hc.
  - apply newest_keep; [exact H|]. apply orb_false_iff in Hc as [Hz Hc]. rewrite Hz. apply Z.eqb_neq in Hz. rewrite <- Ht by exact Hz. exact Hc.
Qed.

Section tools.
Context {W : Win32} {WL : Win32Laws} {CRT : Crt}.

(** C37. The tools and the driver agree on the header of a device: reading with the tools'
    [hammer2_read_volume_header] gives the copy and the contents that a mount reads, and
    fails when the mount fails, on every device whose size is a multiple of 64KB. *)
Theorem tool_header_equiv s fd size vd0 :
  check_volume fd = Ran size -> (2 ^ 16 | size) ->
  exists zone vd vd', tool_read_volume_header s fd vd0 = Ran (zone, vd)
    /\ hammer2_read_volume_header s fd size vd0 = (if zone =? - 1 then - EINVAL else zone, vd')
    /\ (zone <> - 1 -> 0 <= zone < 4 /\ vd = vd' /\ vd = header_copy s fd zone).
Proof.
  intros Hc Hd. unfold tool_read_volume_header. rewrite Hc. cbn [tbind].
  assert (H0 : newest s fd size 0 (- 1) vd0) by (left; split; [reflexivity|intros i Hi; lia]).
  pose proof (tool_header_newest s fd size 4 0 (2 ^ 64 - 1) (- 1) vd0 ltac:(lia) ltac:(lia) Hd H0 ltac:(congruence)) as H.
  cbn zeta in H.
  destruct (tool_header_loop 4 s fd size 0 (2 ^ 64 - 1) (- 1) vd0) as [zone vd]. cbn [fst snd] in H.
  destruct (read_volume_header_newest s fd size vd0) as (z' & vd' & Hn & E).
  exists zone, vd, vd'. split; [reflexivity|]. destruct (Z.eqb_spec zone (- 1)) as [->|Hz].
  - split; [|congruence]. destruct H as [[_ Hno]|(Hr & _)]; [|lia]. rewrite E.
    destruct Hn as [[-> _]|(Hr & Hu & _)]; [reflexivity|]. destruct (Hno z' Hr Hu).
  - pose proof H as H'. destruct H' as [[Hr _]|(Hr & _ & Hv & _)]; [lia|].
    destruct (newest_unique _ _ _ _ _ _ _ Hn H ltac:(lia)) as [-> ->]. rewrite E, (proj2 (Z.eqb_neq zone (- 1))) by exact Hz. auto.
Qed.

(** * A set with a gap *)

Lemma unused_not_installed k : filter (fun vol => tv_id vol <> - 1) (replicate k hammer2_init_volume) = [].
Proof. induction k as [|k IH]; [reflexivity|]. cbn [replicate]. rewrite filter_cons_False by (cbn; lia). exact IH. Qed.

(** One volume, not the root: [hammer2_verify_volumes_common] allocates one stat buffer
    and stores into the second. *)
Lemma tool_gap_overflows fsp v k root :
  fo_version fsp <> - 1 -> fo_volumes fsp = hammer2_init_volume :: v :: replicate k hammer2_init_volume -> tv_id v = 1 ->
  tool_verify_volumes fsp root = Abort.
Proof.
  intros Hv Hvols Hid. unfold tool_verify_volumes, tool_verify_volumes_common. rewrite (proj2 (Z.eqb_neq _ _)) by exact Hv.
  cbn [errx tbind]. rewrite Hvols. assert (Hn : tv_installed (hammer2_init_volume :: v :: replicate k hammer2_init_volume) = 1).
  { unfold tv_installed, alen. rewrite filter_cons_False by (cbn; lia). rewrite filter_cons_True by lia.
    rewrite unused_not_installed. reflexivity. }
  rewrite Hn. cbn. rewrite (proj2 (Z.eqb_neq (tv_id v) _)) by lia. reflexivity.
Qed.
End tools.

(** The 4GB device of [demo_disk]. *)
Definition demo_tools : Crt := {|
  GetFileSizeEx _ := Some (2 ^ 32);
  GetLengthInfo _ := None;
  filelengthi64 _ := - 1;
  fstat_id fd := (fd, 0);
  qsort_by _ l := l
|}.
Lemma tool_header_equiv_witness :
  exists zone vd vd', tool_read_volume_header (CRT := demo_tools) demo_disk 1 [] = Ran (zone, vd)
    /\ hammer2_read_volume_header (W := demo_win32) demo_disk 1 (2 ^ 32) [] = (if zone =? - 1 then - EINVAL else zone, vd').
Proof.
  destruct (tool_header_equiv (WL := demo_win32_laws) (CRT := demo_tools) demo_disk 1 (2 ^ 32) []) as (zone & vd & vd' & A & B & _).
  - reflexivity.
  - exists (2 ^ 16). reflexivity.
  - exists zone, vd, vd'. split; [exact A|exact B].
Defined.
