(* ===== verification/Newfs.v ===== *)
(** newfs_hammer2: lh1/src/sbin/newfs_hammer2/mkfs_hammer2.c on opened devices.

    Structures are built as the bytes they are on the media, with the offsets of
    hammer2_disk.h.  The clock, the uuids that CoCreateGuid makes and the parsed
    options are arguments. *)

From Stdlib Require Import ZArith Lia Bool.
From stdpp Require Import base numbers list option gmap.
From S2P Require Import Prelude Disk Crc Subr Xxh Check Io Volumes Tools.

Abbreviation MAXLABELS := 4 (only parsing).
Abbreviation HAMMER2_BOOT_MIN_BYTES := 8388608 (only parsing).
Abbreviation HAMMER2_BOOT_NOM_BYTES := 67108864 (only parsing).
Abbreviation HAMMER2_AUX_MIN_BYTES := 8388608 (only parsing).
Abbreviation HAMMER2_AUX_NOM_BYTES := 268435456 (only parsing).
Abbreviation HAMMER2_AUX_MAX_BYTES := 1073741824 (only parsing).
Abbreviation HAMMER2_INODE_BYTES := 1024 (only parsing).
Abbreviation HAMMER2_ZONE_BLOCKS_SEG := 64 (only parsing).
Abbreviation HAMMER2_COPYID_LOCAL := 255 (only parsing).
Abbreviation HAMMER2_COMP_AUTOZERO := 1 (only parsing).
Abbreviation HAMMER2_OBJTYPE_DIRECTORY := 1 (only parsing).
Abbreviation HAMMER2_OPFLAG_PFSROOT := 2 (only parsing).
Abbreviation HAMMER2_PFSTYPE_MASTER := 6 (only parsing).
Abbreviation HAMMER2_PFSTYPE_SUPROOT := 8 (only parsing).
Abbreviation HAMMER2_BREF_FLAG_PFSROOT := 1 (only parsing).
Abbreviation DMSG_PEER_HAMMER2 := 3 (only parsing).
Abbreviation HAMMER2_LABEL_NONE := 0 (only parsing).
Abbreviation HAMMER2_LABEL_BOOT := 1 (only parsing).
Abbreviation HAMMER2_LABEL_ROOT := 2 (only parsing).
Abbreviation HAMMER2_LABEL_DATA := 3 (only parsing).

(** hammer2_mkfs_options_t; [NLabels] is the length of [Label]. *)
Record mkfs_options := Opts {
  Hammer2Version : Z;
  Hammer2_FSType : list Z;
  Hammer2_VolFSID : list Z;
  Hammer2_SupCLID : list Z;
  Hammer2_SupFSID : list Z;
  Hammer2_PfsCLID : Z -> list Z;
  Hammer2_PfsFSID : Z -> list Z;
  BootAreaSize : Z;
  AuxAreaSize : Z;
  Label : list (list Z);
  CompType : Z;
  DefaultLabelType : Z
}.
Definition set_label (v : list (list Z)) (o : mkfs_options) : mkfs_options :=
  Opts (Hammer2Version o) (Hammer2_FSType o) (Hammer2_VolFSID o) (Hammer2_SupCLID o) (Hammer2_SupFSID o)
    (Hammer2_PfsCLID o) (Hammer2_PfsFSID o) (BootAreaSize o) (AuxAreaSize o) v (CompType o) (DefaultLabelType o).
Definition set_areas (boot aux : Z) (o : mkfs_options) : mkfs_options :=
  Opts (Hammer2Version o) (Hammer2_FSType o) (Hammer2_VolFSID o) (Hammer2_SupCLID o) (Hammer2_SupFSID o)
    (Hammer2_PfsCLID o) (Hammer2_PfsFSID o) boot aux (Label o) (CompType o) (DefaultLabelType o).

Definition LOCAL : list Z := [76; 79; 67; 65; 76].
Definition BOOT : list Z := [66; 79; 79; 84].
Definition ROOT : list Z := [82; 79; 79; 84].
Definition DATA : list Z := [68; 65; 84; 65].
Definition SUPROOT : list Z := [83; 85; 80; 82; 79; 79; 84].

(** * Options *)

(** [strdup] into the next slot of [Label]. *)
Definition add_label (l : list Z) (o : mkfs_options) : tool mkfs_options :=
  assert? alen (Label o) <? MAXLABELS; Ran (set_label (Label o ++ [l]) o).

Definition default_label (o : mkfs_options) : tool mkfs_options :=
  if DefaultLabelType o =? HAMMER2_LABEL_BOOT then add_label BOOT o
  else if DefaultLabelType o =? HAMMER2_LABEL_ROOT then add_label ROOT o
  else if DefaultLabelType o =? HAMMER2_LABEL_DATA then add_label DATA o
  else if DefaultLabelType o =? HAMMER2_LABEL_NONE then Ran o
  else Abort.

(** [while (size > limit) size >>= 1]; 32 turns reach 0. *)
Fixpoint halve (n : nat) (size limit : Z) : Z :=
  match n with
  | O => size
  | S n => if limit <? size then halve n (size .>> 1) limit else size
  end.

Definition volume_round (size : Z) : Z := u64 (size + HAMMER2_VOLUME_ALIGNMASK64) .&~ HAMMER2_VOLUME_ALIGNMASK64.

Definition boot_area_size (given total_size : Z) : Z :=
  let size :=
    if given =? 0 then
      let size := halve 32 HAMMER2_BOOT_NOM_BYTES (total_size / 20) in
      if size <? HAMMER2_BOOT_MIN_BYTES then HAMMER2_BOOT_MIN_BYTES else size
    else if given <? HAMMER2_BOOT_MIN_BYTES then HAMMER2_BOOT_MIN_BYTES else given in
  volume_round size.
Definition aux_area_size (given total_size : Z) : Z :=
  let size :=
    if given =? 0 then
      let size := halve 32 HAMMER2_AUX_NOM_BYTES (total_size / 20) in
      if size <? HAMMER2_AUX_MIN_BYTES then HAMMER2_AUX_MIN_BYTES else size
    else if given <? HAMMER2_AUX_MIN_BYTES then HAMMER2_AUX_MIN_BYTES else given in
  volume_round size.

Definition adjust_options (total_size : Z) (o : mkfs_options) : tool mkfs_options :=
  let? o := default_label o in
  Ran (set_areas (boot_area_size (BootAreaSize o) total_size) (aux_area_size (AuxAreaSize o) total_size) o).

(** * Blockrefs and inodes *)

(** Assignments to fields, as (offset, size, value), and copies of bytes. *)
Definition puts (b : list Z) (l : list (Z * nat * Z)) : list Z := foldl (fun b '(off, n, v) => vd_put b off n v) b l.
Definition zeros (n : Z) : list Z := replicate (Z.to_nat n) 0.

Fixpoint radix_loop (fuel : nat) (bytes radix : Z) : Z * Z :=
  match fuel with
  | O => (bytes, radix)
  | S fuel => if bytes .& 1 =? 0 then radix_loop fuel (bytes .>> 1) (radix + 1) else (bytes, radix)
  end.

(** The new [*basep] and the 128 bytes of the blockref. *)
Definition alloc_direct (base bytes : Z) : tool (Z * list Z) :=
  assert? negb (bytes =? 0);
  let '(bytes, radix) := radix_loop 64 bytes 0 in
  assert? bytes =? 1;
  let radix := if radix <? HAMMER2_RADIX_MIN then HAMMER2_RADIX_MIN else radix in
  Ran (u64 (base + u32 (1 .<< radix)), puts (zeros 128) [(32, 8%nat, base .| radix); (4, 1%nat, radix)]).

Definition bref_type (b : list Z) : Z := vd_u8 b 0.
Definition bref_methods (b : list Z) : Z := vd_u8 b 1.
Definition bref_flags (b : list Z) : Z := vd_u8 b 5.
Definition bref_key (b : list Z) : Z := vd_u64 b 8.
Definition bref_data_off (b : list Z) : Z := vd_u64 b 32.
Definition bref_check (b : list Z) : list Z := vd_bytes b 64 64.

(** dirhash of hammer2_user_subs.c *)
Definition dirhash (aname : list Z) : Z :=
  let len := alen aname in
  let '(crcx, j) := foldl (dirhash_step aname) (0, 0) (seqZ 0 len) in
  let crcx := if negb (len =? j) then u32 (crcx + hammer2_icrc32 (slice aname j len)) else crcx in
  let key := (crcx .| 2147483648) .<< 32 in
  let crcx := hammer2_icrc32 aname in
  let crcx := crcx .^ u32 (crcx .<< 16) in
  key .| (crcx .& 4294901760) .| 32768.

(** strcasecmp(l, "BOOT") == 0 *)
Definition tolower (c : Z) : Z := if (65 <=? c) && (c <=? 90) then c + 32 else c.
Definition is_boot (l : list Z) : bool := bool_decide (map tolower l = map tolower BOOT).

Definition HAMMER2_ENC_ALGO (n : Z) : Z := n.

(** A PFS root inode, 1024 bytes. *)
Definition root_inode (o : mkfs_options) (now i : Z) : list Z :=
  let label := aget (Label o) i in
  let comp := if is_boot label then HAMMER2_COMP_AUTOZERO else CompType o in
  let raw := puts (zeros HAMMER2_INODE_BYTES)
    [(0, 2%nat, 1);                                   (* version *)
     (16, 8%nat, now); (24, 8%nat, now); (40, 8%nat, now);  (* ctime, mtime, btime *)
     (80, 1%nat, HAMMER2_OBJTYPE_DIRECTORY);          (* type *)
     (84, 4%nat, 493);                                (* mode 0755 *)
     (88, 8%nat, 1);                                  (* inum *)
     (104, 8%nat, 1);                                 (* nlinks *)
     (128, 2%nat, alen label)] in                     (* name_len *)
  let raw := fwrite raw 256 label in                  (* filename *)
  let raw := puts raw
    [(120, 8%nat, dirhash (vd_bytes raw 256 (alen label)));   (* name_key *)
     (131, 1%nat, HAMMER2_ENC_ALGO comp);             (* comp_algo *)
     (133, 1%nat, HAMMER2_ENC_ALGO HAMMER2_CHECK_XXHASH64)] in
  let raw := fwrite raw 144 (Hammer2_PfsCLID o i) in
  let raw := fwrite raw 160 (Hammer2_PfsFSID o i) in
  puts raw
    [(135, 1%nat, HAMMER2_PFSTYPE_MASTER);
     (81, 1%nat, vd_u8 raw 81 .| HAMMER2_OPFLAG_PFSROOT);
     (136, 8%nat, 16)].                               (* pfs_inum *)

(** The blockref of an inode; [flags] is 0 for the super-root. *)
Definition newfs_bref (bref raw : list Z) (key methods flags : Z) : tool (list Z) :=
  match xxh64 raw XXH_HAMMER2_SEED with
  | Panic => Abort
  | Done h =>
      Ran (puts bref
        [(8, 8%nat, key); (2, 1%nat, HAMMER2_COPYID_LOCAL); (3, 1%nat, 0); (64, 8%nat, h);
         (0, 1%nat, HAMMER2_BREF_TYPE_INODE); (1, 1%nat, methods); (16, 8%nat, 16); (5, 1%nat, flags)])
  end.

(** The super-root inode with the blockrefs of the PFS roots. *)
Definition sroot_inode (o : mkfs_options) (now : Z) (roots : list (list Z)) : list Z :=
  let raw := puts (zeros HAMMER2_INODE_BYTES)
    [(0, 2%nat, 1); (16, 8%nat, now); (24, 8%nat, now); (40, 8%nat, now);
     (80, 1%nat, HAMMER2_OBJTYPE_DIRECTORY);
     (84, 4%nat, 448);                                (* mode 0700 *)
     (88, 8%nat, 0); (104, 8%nat, 2); (128, 2%nat, 0); (120, 8%nat, 0);
     (131, 1%nat, HAMMER2_ENC_ALGO HAMMER2_COMP_AUTOZERO);
     (133, 1%nat, HAMMER2_ENC_ALGO HAMMER2_CHECK_XXHASH64)] in
  let raw := fwrite raw 144 (Hammer2_SupCLID o) in
  let raw := fwrite raw 160 (Hammer2_SupFSID o) in
  let raw := puts raw [(135, 1%nat, HAMMER2_PFSTYPE_SUPROOT)] in
  let raw := fwrite raw 256 (SUPROOT ++ [0]) in       (* snprintf *)
  let raw := puts raw [(120, 8%nat, 0); (128, 2%nat, 7); (136, 8%nat, 0)] in
  fwrite raw 512 (concat roots).

(** * Formatting *)

Section newfs.
Context {W : Win32} {CRT : Crt}.

(** [n] zero buffers from [base] on. *)
Fixpoint clear_blocks (n : nat) (s : ios) (fd base : Z) : tool ios :=
  match n with
  | O => Ran s
  | S n =>
      let? s := pwrite s fd (zeros HAMMER2_PBUFSIZE) base in
      clear_blocks n s fd (base + HAMMER2_PBUFSIZE)
  end.

Definition format_hammer2_misc (s : ios) (vol : tvolume) (o : mkfs_options) (boot_base aux_base : Z) : tool (Z * ios) :=
  let alloc_base := aux_base + AuxAreaSize o in
  let? s := clear_blocks (Z.to_nat HAMMER2_ZONE_BLOCKS_SEG) s (tv_fd vol) 0 in
  assert? negb (tst alloc_base HAMMER2_PBUFMASK);
  assert? alloc_base <? HAMMER2_FREEMAP_LEVEL1_SIZE;
  let? s := clear_blocks (Z.to_nat ((alloc_base - boot_base) / HAMMER2_PBUFSIZE)) s (tv_fd vol) boot_base in
  Ran (alloc_base, s).

(** The loop over the labels from [i] on: the buffer with the inodes so far, their
    blockrefs, [alloc_base]. *)
Fixpoint format_roots (n : nat) (o : mkfs_options) (now sroot_off i alloc_base : Z) (buf : list Z)
    (roots : list (list Z)) : tool (Z * list Z * list (list Z)) :=
  match n with
  | O => Ran (alloc_base, buf, roots)
  | S n =>
      let? (alloc_base, bref) := alloc_direct alloc_base HAMMER2_INODE_BYTES in
      let off := bref_data_off bref in
      assert? (sroot_off .^ off) .&~ HAMMER2_PBUFMASK =? 0;
      let raw := root_inode o now i in
      let? bref := newfs_bref bref raw (vd_u64 raw 120)
                     (HAMMER2_ENC_CHECK HAMMER2_CHECK_XXHASH64 .| HAMMER2_ENC_COMP 0) HAMMER2_BREF_FLAG_PFSROOT in
      format_roots n o now sroot_off (i + 1) alloc_base
        (fwrite buf (off .& (HAMMER2_PBUFMASK - HAMMER2_OFF_MASK_RADIX)) raw) (roots ++ [bref])
  end.

(** The blockref of the super-root, [alloc_base] and the files. *)
Definition format_hammer2_inode (s : ios) (vol : tvolume) (o : mkfs_options) (now alloc_base : Z)
    : tool (list Z * Z * ios) :=
  let alloc_base := alloc_base .&~ HAMMER2_PBUFMASK in
  let? (alloc_base, sroot) := alloc_direct alloc_base HAMMER2_INODE_BYTES in
  let off := bref_data_off sroot in
  let? (x, roots) := format_roots (length (Label o)) o now off 0 alloc_base (zeros HAMMER2_PBUFSIZE) [] in
  let '(alloc_base, buf) := x in
  let raw := sroot_inode o now (qsort_by bref_key roots) in
  let? sroot := newfs_bref sroot raw 0
                  (HAMMER2_ENC_CHECK HAMMER2_CHECK_XXHASH64 .| HAMMER2_ENC_COMP HAMMER2_COMP_AUTOZERO) 0 in
  let buf := fwrite buf (off .& (HAMMER2_PBUFMASK - HAMMER2_OFF_MASK_RADIX)) raw in
  assert? (off .&~ HAMMER2_PBUFMASK) =? ((alloc_base - 1) .&~ HAMMER2_PBUFMASK);
  let? s := pwrite s (tv_fd vol) buf (off .&~ HAMMER2_PBUFMASK) in
  Ran (sroot, alloc_base, s).

(** The header of volume [vol] without its check codes. *)
Definition format_voldata (fso : ondisk) (free_size : Z) (vol : tvolume) (o : mkfs_options)
    (sroot_blockset : list Z) (alloc_base : Z) : list Z :=
  let root := tv_id vol =? HAMMER2_ROOT_VOLUME in
  let boot_base := HAMMER2_ZONE_SEG in
  let aux_base := boot_base + BootAreaSize o in
  let vd := puts (zeros HAMMER2_PBUFSIZE) [(0, 8%nat, HAMMER2_VOLUME_ID_HBO)] in
  let vd := if root then
              puts vd [(8, 8%nat, boot_base); (16, 8%nat, boot_base + BootAreaSize o);
                       (24, 8%nat, aux_base); (32, 8%nat, aux_base + AuxAreaSize o)]
            else vd in
  let vd := puts vd [(40, 8%nat, tv_size vol); (48, 4%nat, Hammer2Version o); (52, 4%nat, 0)] in
  let vd := if HAMMER2_VOL_VERSION_MULTI_VOLUMES <=? vd_version vd then
              let vd := puts vd [(59, 1%nat, tv_id vol); (60, 1%nat, fo_nvolumes fso); (192, 8%nat, fo_total_size fso)] in
              puts vd (map (fun i => (3584 + 8 * i, 8%nat,
                                      if i <? fo_nvolumes fso then tv_offset (aget (fo_volumes fso) i) else OFF_NONE))
                           (seqZ 0 HAMMER2_MAX_VOLUMES))
            else vd in
  let vd := fwrite vd 64 (Hammer2_VolFSID o) in
  let vd := fwrite vd 80 (Hammer2_FSType o) in
  let vd := puts vd [(58, 1%nat, DMSG_PEER_HAMMER2); (96, 8%nat, free_size)] in
  let vd := if root then puts vd [(104, 8%nat, free_size); (112, 8%nat, alloc_base)] else vd in
  let vd := fwrite vd 512 sroot_blockset in
  puts vd [(120, 8%nat, 16); (144, 8%nat, 16)].      (* mirror_tid, freemap_tid *)

Definition seal_voldata (vd : list Z) : list Z :=
  let vd := vd_put vd (icrc_sects_off HAMMER2_VOL_ICRC_SECT1) 4 (hammer2_icrc32 (vd_bytes vd 512 512)) in
  let vd := vd_put vd (icrc_sects_off HAMMER2_VOL_ICRC_SECT0) 4 (hammer2_icrc32 (vd_bytes vd 0 508)) in
  vd_put vd 65532 4 (hammer2_icrc32 (vd_bytes vd 0 65532)).

(** The copies from [i] on. *)
Fixpoint write_headers (n : nat) (s : ios) (vol : tvolume) (buf : list Z) (i : Z) : tool ios :=
  match n with
  | O => Ran s
  | S n =>
      if tv_size vol <=? i * HAMMER2_ZONE_BYTES64 then Ran s
      else let? s := pwrite s (tv_fd vol) buf (i * HAMMER2_ZONE_BYTES64) in write_headers n s vol buf (i + 1)
  end.

Definition format_hammer2 (s : ios) (fso : ondisk) (free_size : Z) (o : mkfs_options) (now index : Z) : tool ios :=
  let vol := aget (fo_volumes fso) index in
  let boot_base := HAMMER2_ZONE_SEG in
  let aux_base := boot_base + BootAreaSize o in
  let? s := pwrite s (tv_fd vol) (zeros HAMMER2_PBUFSIZE) (u64 (tv_size vol - HAMMER2_PBUFSIZE)) in
  let? (x, s) :=
    if tv_id vol =? HAMMER2_ROOT_VOLUME then
      let? (alloc_base, s) := format_hammer2_misc s vol o boot_base aux_base in
      let? (x, s) := format_hammer2_inode s vol o now alloc_base in
      let '(sroot, alloc_base) := x in
      Ran (sroot ++ zeros 384, alloc_base, s)
    else
      Ran (puts (zeros 512) (map (fun i => (128 * i, 1%nat, HAMMER2_BREF_TYPE_INVALID)) (seqZ 0 4)), 0, s) in
  let '(sroot_blockset, alloc_base) := x in
  assert? (tv_id vol =? HAMMER2_ROOT_VOLUME) || (alloc_base =? 0);
  let buf := seal_voldata (format_voldata fso free_size vol o sroot_blockset alloc_base) in
  write_headers 4 s vol buf 0.

(** * hammer2_mkfs *)

(** The loop that installs the volumes, from volume [i] of [n]. *)
Fixpoint install_loop (n i : Z) (fds : list Z) (volumes : list tvolume) (total : Z) : tool (list tvolume * Z) :=
  match fds with
  | [] => Ran (volumes, total)
  | fd :: fds =>
      let? size := check_volume fd in
      let size := if i =? n - 1 then size .&~ HAMMER2_VOLUME_ALIGNMASK64 else size .&~ HAMMER2_FREEMAP_LEVEL1_MASK in
      install_loop n (i + 1) fds (aset volumes i (hammer2_install_volume fd i total size)) (u64 (total + size))
  end.

Fixpoint format_loop (n : nat) (s : ios) (fso : ondisk) (free_size : Z) (o : mkfs_options) (now i : Z) : tool ios :=
  match n with
  | O => Ran s
  | S n => let? s := format_hammer2 s fso free_size o now i in format_loop n s fso free_size o now (i + 1)
  end.

Definition reserved_size (total_size : Z) : Z :=
  u64 (u64 (total_size + HAMMER2_FREEMAP_LEVEL1_MASK) / HAMMER2_FREEMAP_LEVEL1_SIZE * HAMMER2_ZONE_SEG).

Definition hammer2_mkfs (s : ios) (fds : list Z) (o : mkfs_options) (now : Z) : tool ios :=
  let nvolumes := alen fds in
  let? (volumes, total) := install_loop nvolumes 0 fds (fo_volumes hammer2_init_ondisk) 0 in
  let fso := Ondisk (Hammer2Version o) nvolumes volumes total (replicate 16 0) (replicate 16 0) in
  let? fso := tool_verify_volumes fso None in
  let? o := adjust_options (fo_total_size fso) o in
  let free_size := u64 (fo_total_size fso - reserved_size (fo_total_size fso) - BootAreaSize o - AuxAreaSize o) in
  errx? 2 ^ 63 <=? free_size;
  format_loop (length fds) s fso free_size o now 0.
End newfs.
