(* ===== verification/NewfsBytes.v ===== *)
(** The bytes newfs writes (Newfs): reading fields back, inodes and blockrefs that pass
    their check codes, headers that are valid. *)

From Stdlib Require Import ZArith Lia Bool Zdiv.
From stdpp Require Import base numbers list option gmap.
From S2P Require Import Prelude Disk Crc Subr Xxh Check Io IoLemmas Volumes VolumesProof Tools Newfs.

(** * Reading what was written *)

Lemma fread_fwrite_ne f off d off' n :
  0 <= off -> 0 <= off' -> off' + n <= off \/ off + alen d <= off' -> fread (fwrite f off d) off' n = fread f off' n.
Proof.
  unfold alen. intros H H' Hd. apply fread_ext. intros j Hj.
  rewrite fbyte_fwrite by exact H. rewrite decide_False by lia. reflexivity.
Qed.
Lemma fread_fwrite_eq f off d n : 0 <= off -> n = alen d -> fread (fwrite f off d) off n = d.
Proof.
  unfold alen. intros H ->. apply fbyte_ext; rewrite fread_length; [lia|]. intros j Hj.
  rewrite fbyte_fread by exact Hj. rewrite fbyte_fwrite by exact H. rewrite decide_True by lia. f_equal. lia.
Qed.
(** A part of what was written. *)
Lemma fread_fwrite_in f off d off' n :
  0 <= off <= off' -> 0 <= n -> off' + n <= off + alen d -> fread (fwrite f off d) off' n = fread d (off' - off) n.
Proof.
  unfold alen. intros H Hn Hl. apply fbyte_ext; rewrite !fread_length; [reflexivity|]. intros j Hj.
  rewrite !fbyte_fread by exact Hj. rewrite fbyte_fwrite by lia. rewrite decide_True by lia. f_equal. lia.
Qed.
Lemma fread_zeros k off n : 0 <= off -> fread (zeros k) off n = zeros n.
Proof.
  intros H. unfold zeros. apply fbyte_ext; rewrite fread_length, ?length_replicate; [reflexivity|]. intros j Hj.
  rewrite fbyte_fread by exact Hj. unfold fbyte. rewrite (lookup_replicate_2 (Z.to_nat n)) by lia. cbn [default].
  destruct (decide (Z.to_nat off + j < Z.to_nat k)%nat) as [D|D].
  - rewrite lookup_replicate_2 by exact D. reflexivity.
  - rewrite lookup_ge_None_2 by (rewrite length_replicate; lia). reflexivity.
Qed.
Lemma fread_all f n : n = alen f -> fread f 0 n = f.
Proof.
  unfold alen. intros ->. apply fbyte_ext; rewrite fread_length; [lia|]. intros j Hj.
  rewrite fbyte_fread by exact Hj. reflexivity.
Qed.
Lemma fread_app a b n : n = alen a -> fread (a ++ b) 0 n = a.
Proof.
  unfold alen. intros ->. apply fbyte_ext; rewrite fread_length; [lia|]. intros j Hj.
  rewrite fbyte_fread by exact Hj. unfold fbyte. rewrite lookup_app_l by lia. reflexivity.
Qed.
Lemma fread_fread f off n off' n' :
  0 <= off -> 0 <= off' -> 0 <= n' -> off' + n' <= n -> fread (fread f off n) off' n' = fread f (off + off') n'.
Proof.
  intros H H' Hn Hl. apply fbyte_ext; rewrite !fread_length; [reflexivity|]. intros j Hj.
  rewrite !fbyte_fread by lia. f_equal. lia.
Qed.

Lemma alen_le_bytes n v : alen (le_bytes n v) = Z.of_nat n.
Proof. unfold alen. rewrite le_bytes_length. reflexivity. Qed.

(** A block of [n] bytes. *)
Definition is_block (n : Z) (b : list Z) : Prop := alen b = n /\ Forall is_byte b.

Lemma zeros_block n : 0 <= n -> is_block n (zeros n).
Proof.
  intros H. split; [unfold alen, zeros; rewrite length_replicate; lia|].
  apply Forall_replicate. unfold is_byte. lia.
Qed.
Lemma fwrite_block n b off d : is_block n b -> 0 <= off -> off + alen d <= n -> Forall is_byte d -> is_block n (fwrite b off d).
Proof.
  unfold is_block, alen. intros [Hl Hb] H Hd Hdb. split; [rewrite fwrite_length by lia; exact Hl|].
  unfold fwrite. apply Forall_app. split; [|apply Forall_app; split; [exact Hdb|apply Forall_drop, Hb]].
  apply Forall_take, Forall_app. split; [exact Hb|]. apply Forall_replicate. unfold is_byte. lia.
Qed.
Lemma puts_block n b l :
  is_block n b -> Forall (fun '(off, k, _) => 0 <= off /\ off + Z.of_nat k <= n) l -> is_block n (puts b l).
Proof.
  intros Hb Hl. revert b Hb. induction Hl as [|[[off k] v] l [H1 H2] _ IH]; intros b Hb; [exact Hb|].
  cbn [puts foldl]. apply IH. apply fwrite_block; [exact Hb|exact H1|rewrite alen_le_bytes; exact H2|apply le_bytes_bytes].
Qed.
Lemma puts_app b l1 l2 : puts b (l1 ++ l2) = puts (puts b l1) l2.
Proof. apply foldl_app. Qed.
Lemma puts_cons b off n v l : puts b ((off, n, v) :: l) = puts (fwrite b off (le_bytes n v)) l.
Proof. reflexivity. Qed.

(** Fields elsewhere. *)
Lemma fread_puts_ne b l off n :
  0 <= off -> Forall (fun '(o, k, _) => 0 <= o /\ (off + n <= o \/ o + Z.of_nat k <= off)) l ->
  fread (puts b l) off n = fread b off n.
Proof.
  intros H Hl. revert b. induction Hl as [|[[o k] v] l [H1 H2] _ IH]; intros b; [reflexivity|].
  rewrite puts_cons, IH. apply fread_fwrite_ne; [exact H1|exact H|rewrite alen_le_bytes; exact H2].
Qed.

(** One field per index. *)
Lemma fread_puts_map b (off : Z) (k : nat) (f : Z -> Z) n i :
  0 <= off -> 0 <= i < n ->
  fread (puts b (map (fun i => (off + Z.of_nat k * i, k, f i)) (seqZ 0 n))) (off + Z.of_nat k * i) (Z.of_nat k) = le_bytes k (f i).
Proof.
  intros H Hi. replace n with (i + (1 + (n - i - 1))) by lia. rewrite !seqZ_app by lia.
  rewrite !map_app, !puts_app. rewrite fread_puts_ne.
  - change (seqZ (0 + i) 1) with [0 + i]. cbn [map]. rewrite puts_cons. cbn [puts foldl].
    replace (off + Z.of_nat k * (0 + i)) with (off + Z.of_nat k * i) by lia.
    rewrite fread_fwrite_eq by (rewrite ?alen_le_bytes; nia). reflexivity.
  - nia.
  - apply Forall_map. rewrite Forall_forall. intros j Hj. apply elem_of_seqZ in Hj. nia.
Qed.

(** The accessors as reads. *)
Lemma block_vd_bytes n b off k : is_block n b -> 0 <= off -> 0 <= k -> off + k <= n -> vd_bytes b off k = fread b off k.
Proof. intros [Hl _] H1 H2 H3. apply vd_bytes_fread; lia. Qed.
Lemma block_field n b off (k : nat) w v :
  w = Z.of_nat k -> is_block n b -> 0 <= off -> off + w <= n -> fread b off w = le_bytes k v ->
  0 <= v < 2 ^ (8 * w) -> le_value (vd_bytes b off w) = v.
Proof. intros -> Hb H1 H2 E Hv. rewrite (block_vd_bytes n) by (try assumption; lia). rewrite E. apply le_value_bytes, Hv. Qed.

(** Read a field of nested writes. *)
Ltac rd :=
  repeat first
    [ rewrite fread_fwrite_eq by (rewrite ?alen_le_bytes; lia)
    | rewrite fread_fwrite_ne by (rewrite ?alen_le_bytes; lia)
    | rewrite fread_zeros by lia ].
Ltac open_puts := rewrite ?puts_cons; cbn [puts foldl].
Ltac read_raw E raw_ids raw_named := rewrite E; unfold raw_ids, raw_named; open_puts; rd; reflexivity.

(** * The header *)

Record opts_ok (o : mkfs_options) : Prop := {
  oo_version : 1 <= Hammer2Version o <= 2;
  oo_fsid : is_block 16 (Hammer2_VolFSID o);
  oo_fstype : is_block 16 (Hammer2_FSType o);
  oo_supclid : is_block 16 (Hammer2_SupCLID o);
  oo_supfsid : is_block 16 (Hammer2_SupFSID o);
  oo_pfsclid i : is_block 16 (Hammer2_PfsCLID o i);
  oo_pfsfsid i : is_block 16 (Hammer2_PfsFSID o i);
  oo_labels : Forall (fun l => 1 <= alen l <= 255 /\ Forall is_byte l) (Label o)
}.

(** The header before the test of its version. *)
Definition voldata_1 (vol : tvolume) (o : mkfs_options) : list Z :=
  let root := tv_id vol =? HAMMER2_ROOT_VOLUME in
  let boot_base := HAMMER2_ZONE_SEG in
  let aux_base := boot_base + BootAreaSize o in
  let vd := puts (zeros HAMMER2_PBUFSIZE) [(0, 8%nat, HAMMER2_VOLUME_ID_HBO)] in
  let vd := if root then
              puts vd [(8, 8%nat, boot_base); (16, 8%nat, boot_base + BootAreaSize o);
                       (24, 8%nat, aux_base); (32, 8%nat, aux_base + AuxAreaSize o)]
            else vd in
  puts vd [(40, 8%nat, tv_size vol); (48, 4%nat, Hammer2Version o); (52, 4%nat, 0)].

Lemma voldata_1_block vol o : is_block 65536 (voldata_1 vol o).
Proof.
  unfold voldata_1. destruct (_ =? _); repeat (apply puts_block; [|repeat constructor; lia]); apply zeros_block; lia.
Qed.
Lemma voldata_1_version vol o : opts_ok o -> vd_version (voldata_1 vol o) = Hammer2Version o.
Proof.
  intros [Hv _ _ _ _ _ _ _]. unfold vd_version, vd_u32.
  rewrite (block_field 65536 _ 48 4 4 (Hammer2Version o)); [apply u32_small; lia|reflexivity|apply voldata_1_block|lia|lia| |lia].
  unfold voldata_1. open_puts. rd. reflexivity.
Qed.

(** The fields of version 2. *)
Definition voldata_2 (fso : ondisk) (vol : tvolume) (o : mkfs_options) : list Z :=
  if 2 <=? Hammer2Version o then
    puts (puts (voldata_1 vol o) [(59, 1%nat, tv_id vol); (60, 1%nat, fo_nvolumes fso); (192, 8%nat, fo_total_size fso)])
      (map (fun i => (3584 + 8 * i, 8%nat, if i <? fo_nvolumes fso then tv_offset (aget (fo_volumes fso) i) else OFF_NONE))
           (seqZ 0 HAMMER2_MAX_VOLUMES))
  else voldata_1 vol o.

Lemma format_voldata_eq fso free vol o bs alloc :
  opts_ok o ->
  format_voldata fso free vol o bs alloc
  = let vd := fwrite (fwrite (voldata_2 fso vol o) 64 (Hammer2_VolFSID o)) 80 (Hammer2_FSType o) in
    let vd := puts vd [(58, 1%nat, DMSG_PEER_HAMMER2); (96, 8%nat, free)] in
    let vd := if tv_id vol =? HAMMER2_ROOT_VOLUME then puts vd [(104, 8%nat, free); (112, 8%nat, alloc)] else vd in
    puts (fwrite vd 512 bs) [(120, 8%nat, 16); (144, 8%nat, 16)].
Proof.
  intros Ho. unfold format_voldata. fold (voldata_1 vol o). rewrite voldata_1_version by exact Ho. reflexivity.
Qed.

Lemma volu_loff_apart off n :
  0 <= off -> 0 <= n -> off + n <= 3584 \/ 4096 <= off -> forall f : Z -> Z,
  Forall (fun '(o, k, _) => 0 <= o /\ (off + n <= o \/ o + Z.of_nat k <= off))
    (map (fun i => (3584 + 8 * i, 8%nat, f i)) (seqZ 0 64)).
Proof. intros H Hn H1 f. apply Forall_map. rewrite Forall_forall. intros i Hi. apply elem_of_seqZ in Hi. cbn. lia. Qed.

Lemma voldata_2_block fso vol o : is_block 65536 (voldata_2 fso vol o).
Proof.
  unfold voldata_2. destruct (_ <=? _); [|apply voldata_1_block]. apply puts_block.
  - apply puts_block; [apply voldata_1_block|repeat constructor; lia].
  - apply Forall_map. rewrite Forall_forall. intros i Hi. apply elem_of_seqZ in Hi. cbn. lia.
Qed.
Lemma format_voldata_block fso free vol o bs alloc :
  opts_ok o -> is_block 512 bs -> is_block 65536 (format_voldata fso free vol o bs alloc).
Proof.
  intros Ho [Hl Hb]. rewrite format_voldata_eq by exact Ho. cbn zeta. destruct Ho as [_ [] [] _ _ _ _ _].
  apply puts_block; [|repeat constructor; lia]. apply fwrite_block; [|lia|lia|exact Hb].
  destruct (_ =? _); repeat (apply puts_block; [|repeat constructor; lia]);
    (apply fwrite_block; [|lia|lia|assumption]); (apply fwrite_block; [|lia|lia|assumption]); apply voldata_2_block.
Qed.

(** What is at [off] is still what version 1 or 2 put there. *)
Lemma format_voldata_low fso free vol o bs alloc off n :
  opts_ok o -> is_block 512 bs -> 0 <= off -> 0 <= n ->
  off + n <= 58 \/ 59 <= off /\ off + n <= 64 \/ 192 <= off /\ off + n <= 512 \/ 1024 <= off ->
  fread (format_voldata fso free vol o bs alloc) off n = fread (voldata_2 fso vol o) off n.
Proof.
  intros Ho [Hl _] H Hn Hd. rewrite format_voldata_eq by exact Ho. cbn zeta. destruct Ho as [_ [Hf _] [Ht _] _ _ _ _ _].
  destruct (_ =? _); open_puts; rewrite !fread_fwrite_ne by (rewrite ?alen_le_bytes; lia); reflexivity.
Qed.

Lemma voldata_2_low fso vol o off n :
  0 <= off -> 0 <= n -> off + n <= 59 \/ 61 <= off /\ off + n <= 192 \/ 200 <= off /\ off + n <= 3584 \/ 4096 <= off ->
  fread (voldata_2 fso vol o) off n = fread (voldata_1 vol o) off n.
Proof.
  intros H Hn Hd. unfold voldata_2. destruct (_ <=? _); [|reflexivity].
  rewrite fread_puts_ne; [|exact H|apply volu_loff_apart; lia]. open_puts.
  rewrite !fread_fwrite_ne by (rewrite ?alen_le_bytes; lia). reflexivity.
Qed.

Lemma seal_voldata_eq vd : seal_voldata vd = sealv (seal0 (seal1 vd)).
Proof. reflexivity. Qed.
Lemma seal_block vd : is_block 65536 vd -> is_block 65536 (seal_voldata vd).
Proof.
  intros H. rewrite seal_voldata_eq. repeat (apply put_header; [|lia|lia]). exact H.
Qed.
Lemma seal_fread vd off n :
  0 <= off -> 0 <= n -> off + n <= 504 \/ 512 <= off /\ off + n <= 65532 -> fread (seal_voldata vd) off n = fread vd off n.
Proof.
  intros H Hn Hd. rewrite seal_voldata_eq. unfold sealv, seal0, seal1, vd_put.
  rewrite !fread_fwrite_ne by (rewrite ?alen_le_bytes; lia). reflexivity.
Qed.

(** The header of a volume on the media. *)
Definition volume_header (fso : ondisk) (free : Z) (vol : tvolume) (o : mkfs_options) (bs : list Z) (alloc : Z) : list Z :=
  seal_voldata (format_voldata fso free vol o bs alloc).

Section header.
Context (fso : ondisk) (free : Z) (vol : tvolume) (o : mkfs_options) (bs : list Z) (alloc : Z).
Hypothesis Ho : opts_ok o.
Hypothesis Hbs : is_block 512 bs.
Let hdr := volume_header fso free vol o bs alloc.

Lemma volume_header_block : is_block 65536 hdr.
Proof using Ho Hbs. apply seal_block, format_voldata_block; assumption. Qed.

(** A field that version 1 or 2 put. *)
Lemma header_field off (k : nat) w v :
  w = Z.of_nat k ->
  0 <= off -> off + w <= 58 \/ 59 <= off /\ off + w <= 64 \/ 192 <= off /\ off + w <= 504
              \/ 3584 <= off /\ off + w <= 4096 ->
  fread (voldata_2 fso vol o) off w = le_bytes k v -> 0 <= v < 2 ^ (8 * w) ->
  le_value (vd_bytes hdr off w) = v.
Proof using Ho Hbs.
  intros Hw H Hd E Hv. apply (block_field 65536 _ _ k); [exact Hw|apply volume_header_block|exact H|lia| |exact Hv].
  unfold hdr, volume_header. rewrite seal_fread, format_voldata_low by (try assumption; lia). exact E.
Qed.

Lemma header_magic : vd_magic hdr = HAMMER2_VOLUME_ID_HBO.
Proof using Ho Hbs.
  unfold vd_magic, vd_u64. rewrite (header_field 0 8 8 HAMMER2_VOLUME_ID_HBO); [reflexivity|reflexivity|lia|lia| |lia].
  rewrite voldata_2_low by lia. unfold voldata_1. destruct (_ =? _); open_puts; rd; reflexivity.
Qed.
Lemma header_is_valid : header_valid hdr = true.
Proof using Ho Hbs.
  unfold hdr, volume_header. rewrite seal_voldata_eq. apply seal_valid; [apply format_voldata_block; assumption|].
  rewrite <- header_magic. unfold vd_magic, vd_u64. do 2 f_equal.
  rewrite !(block_vd_bytes 65536) by (try lia; try apply volume_header_block; apply format_voldata_block; assumption).
  unfold hdr, volume_header. rewrite seal_fread by lia. reflexivity.
Qed.
Lemma header_size : 0 <= tv_size vol < 2 ^ 64 -> vd_volu_size hdr = tv_size vol.
Proof using Ho Hbs.
  intros H. unfold vd_volu_size, vd_u64. rewrite (header_field 40 8 8 (tv_size vol)); [apply u64_small; lia|reflexivity|lia|lia| |lia].
  rewrite voldata_2_low by lia. unfold voldata_1. open_puts. rd. reflexivity.
Qed.
Lemma header_version : vd_version hdr = Hammer2Version o.
Proof using Ho Hbs.
  pose proof (oo_version o Ho). unfold vd_version, vd_u32.
  rewrite (header_field 48 4 4 (Hammer2Version o)); [apply u32_small; lia|reflexivity|lia|lia| |lia].
  rewrite voldata_2_low by lia. unfold voldata_1. open_puts. rd. reflexivity.
Qed.

(** Version 1 has none of the fields of version 2. *)
Lemma voldata_1_zero off n :
  0 <= off -> 0 <= n -> 56 <= off -> fread (voldata_1 vol o) off n = zeros n.
Proof using.
  intros H Hn Hd. unfold voldata_1. destruct (_ =? _); open_puts; rd; reflexivity.
Qed.
Lemma header_v1_field off (k : nat) w :
  w = Z.of_nat k -> Hammer2Version o = 1 -> 59 <= off /\ off + w <= 64 \/ 192 <= off /\ off + w <= 504
              \/ 3584 <= off /\ off + w <= 4096 ->
  le_value (vd_bytes hdr off w) = 0.
Proof using Ho Hbs.
  intros -> Hv Hd. apply (header_field off k _ 0); [reflexivity|lia|lia| |pose proof (pow2_pos (8 * Z.of_nat k)); lia].
  unfold voldata_2. rewrite (proj2 (Z.leb_gt _ _)) by lia. rewrite voldata_1_zero by lia.
  unfold zeros. rewrite Nat2Z.id. clear. induction k as [|k IH]; [reflexivity|]. cbn [replicate le_bytes]. rewrite IH. reflexivity.
Qed.

Lemma header_v2_small :
  Hammer2Version o = 2 -> 0 <= tv_id vol < 64 -> 0 <= fo_nvolumes fso <= 64 -> 0 <= fo_total_size fso < 2 ^ 64 ->
  vd_volu_id hdr = tv_id vol /\ vd_nvolumes hdr = fo_nvolumes fso /\ vd_total_size hdr = fo_total_size fso.
Proof using Ho Hbs.
  intros Hv Hid Hn Ht. unfold vd_volu_id, vd_nvolumes, vd_total_size, vd_u8, vd_u64.
  assert (E : forall off w, 0 <= off -> 0 <= w -> off + w <= 3584 ->
    fread (voldata_2 fso vol o) off w
    = fread (puts (voldata_1 vol o) [(59, 1%nat, tv_id vol); (60, 1%nat, fo_nvolumes fso); (192, 8%nat, fo_total_size fso)]) off w).
  { intros off w A A' B. unfold voldata_2. rewrite (proj2 (Z.leb_le _ _)) by lia. apply fread_puts_ne; [lia|]. apply volu_loff_apart; lia. }
  split; [|split].
  - rewrite (header_field 59 1 1 (tv_id vol)); [apply u8_small; lia|reflexivity|lia|lia| |lia]. rewrite E by lia. open_puts. rd. reflexivity.
  - rewrite (header_field 60 1 1 (fo_nvolumes fso)); [apply u8_small; lia|reflexivity|lia|lia| |lia]. rewrite E by lia. open_puts. rd. reflexivity.
  - rewrite (header_field 192 8 8 (fo_total_size fso)); [apply u64_small; lia|reflexivity|lia|lia| |lia]. rewrite E by lia. open_puts. rd. reflexivity.
Qed.
Lemma header_v2_loff i :
  Hammer2Version o = 2 -> 0 <= i < 64 ->
  let v := if i <? fo_nvolumes fso then tv_offset (aget (fo_volumes fso) i) else OFF_NONE in
  0 <= v < 2 ^ 64 -> vd_volu_loff hdr i = v.
Proof using Ho Hbs.
  intros Hv Hi v Hr. unfold vd_volu_loff, vd_u64. rewrite (header_field (3584 + 8 * i) 8 8 v); [apply u64_small; lia|reflexivity|lia|lia| |lia].
  unfold voldata_2. rewrite (proj2 (Z.leb_le _ _)) by lia.
  exact (fread_puts_map _ 3584 8 (fun i => if i <? fo_nvolumes fso then tv_offset (aget (fo_volumes fso) i) else OFF_NONE) 64 i ltac:(lia) Hi).
Qed.

(** The fields all versions set last. *)
Lemma header_high off n :
  0 <= off -> 0 <= n -> 58 <= off -> off + n <= 192 \/ 512 <= off /\ off + n <= 1024 ->
  fread hdr off n
  = fread (let vd := fwrite (fwrite (voldata_2 fso vol o) 64 (Hammer2_VolFSID o)) 80 (Hammer2_FSType o) in
    let vd := puts vd [(58, 1%nat, DMSG_PEER_HAMMER2); (96, 8%nat, free)] in
    let vd := if tv_id vol =? HAMMER2_ROOT_VOLUME then puts vd [(104, 8%nat, free); (112, 8%nat, alloc)] else vd in
    puts (fwrite vd 512 bs) [(120, 8%nat, 16); (144, 8%nat, 16)]) off n.
Proof using Ho Hbs.
  intros H Hn H58 Hd. unfold hdr, volume_header. rewrite seal_fread, format_voldata_eq by (assumption || lia). reflexivity.
Qed.
Lemma header_mirror_tid : vd_mirror_tid hdr = 16.
Proof using Ho Hbs.
  unfold vd_mirror_tid, vd_u64. rewrite (block_field 65536 _ 120 8 8 16); [reflexivity|reflexivity|apply volume_header_block|lia|lia| |lia].
  rewrite header_high by lia. cbn zeta. open_puts. rd. reflexivity.
Qed.
Lemma header_ids : vd_fsid hdr = Hammer2_VolFSID o /\ vd_fstype hdr = Hammer2_FSType o.
Proof using Ho Hbs.
  destruct Ho as [_ [Hf _] [Ht _] _ _ _ _ _]. pose proof (proj1 Hbs).
  unfold vd_fsid, vd_fstype. rewrite !(block_vd_bytes 65536) by (apply volume_header_block || lia).
  rewrite !header_high by lia. cbn zeta. destruct (_ =? _); open_puts; rd; split; reflexivity.
Qed.
Lemma header_sroot : vd_bytes hdr 512 512 = bs.
Proof using Ho Hbs.
  pose proof (proj1 Hbs). rewrite (block_vd_bytes 65536) by (apply volume_header_block || lia).
  rewrite header_high by lia. cbn zeta. open_puts. rd. reflexivity.
Qed.
Lemma header_allocator_beg : tv_id vol = 0 -> 0 <= alloc < 2 ^ 64 -> vd_u64 hdr 112 = alloc.
Proof using Ho Hbs.
  intros Hid Ha. pose proof (proj1 Hbs). unfold vd_u64.
  rewrite (block_field 65536 _ 112 8 8 alloc); [apply u64_small; lia|reflexivity|apply volume_header_block|lia|lia| |lia].
  rewrite header_high by lia. cbn zeta. rewrite Hid. cbn [Z.eqb]. open_puts. rd. reflexivity.
Qed.
End header.

(** * Inodes and their blockrefs *)

Lemma dirhash_driver l : dirhash l = hammer2_dirhash l.
Proof. reflexivity. Qed.

Lemma alloc_direct_inode base :
  0 <= base < 2 ^ 62 -> (2 ^ 10 | base) ->
  alloc_direct base HAMMER2_INODE_BYTES = Ran (base + 1024, puts (zeros 128) [(32, 8%nat, base + 10); (4, 1%nat, 10)]).
Proof.
  intros Hb Hd. unfold alloc_direct. change (radix_loop 64 HAMMER2_INODE_BYTES 0) with (1, 10). cbn [negb tassert tbind Z.eqb Pos.eqb Z.ltb Z.compare Pos.compare Pos.compare_cont].
  rewrite (lor_disjoint base 10 10) by (assumption || lia). change (u32 (1 .<< 10)) with 1024. rewrite u64_small by lia. reflexivity.
Qed.

(** The file system finds an inode [raw] through the blockref [b]. *)
Definition dev_block (s : ios) (fd : Z) (b : list Z) : list Z :=
  fread (file_of s fd) (bref_data_off b .&~ HAMMER2_OFF_MASK_RADIX) HAMMER2_INODE_BYTES.
Definition passes (b raw : list Z) : Prop :=
  hammer2_chain_testcheck (Checked (bref_methods b) (bref_check b) false) raw = Done true.

Record inode_ref (b raw : list Z) (off key flags : Z) : Prop := {
  ir_block : is_block 128 b;
  ir_type : bref_type b = HAMMER2_BREF_TYPE_INODE;
  ir_off : bref_data_off b = off + 10;
  ir_key : bref_key b = key;
  ir_flags : bref_flags b = flags;
  ir_check : passes b raw
}.

Lemma inode_bref_ok off raw key comp flags :
  0 <= off < 2 ^ 62 -> is_block 1024 raw -> 0 <= key < 2 ^ 64 -> 0 <= comp < 16 -> 0 <= flags < 2 ^ 8 ->
  exists b, newfs_bref (puts (zeros 128) [(32, 8%nat, off + 10); (4, 1%nat, 10)]) raw key
              (HAMMER2_ENC_CHECK HAMMER2_CHECK_XXHASH64 .| HAMMER2_ENC_COMP comp) flags = Ran b
    /\ inode_ref b raw off key flags.
Proof.
  intros Ho [Hl Hr] Hk Hc Hf. unfold newfs_bref. destruct (xxh64_value raw XXH_HAMMER2_SEED ltac:(lia)) as (h & Hx & Hh).
  assert (Hm : HAMMER2_ENC_CHECK HAMMER2_CHECK_XXHASH64 .| HAMMER2_ENC_COMP comp = 48 + comp).
  { unfold HAMMER2_ENC_COMP. change 15 with (Z.ones 4). rewrite land_ones_mod, Z.mod_small by lia.
    apply (lor_disjoint 48 comp 4); [lia|exists 3; reflexivity|lia]. }
  rewrite Hx, Hm. eexists. split; [reflexivity|].
  match goal with |- inode_ref ?x _ _ _ _ => set (b := x) end.
  assert (Hb : is_block 128 b).
  { unfold b. repeat (apply puts_block; [|repeat constructor; lia]). apply zeros_block. lia. }
  assert (F : forall off (k : nat) w v, w = Z.of_nat k -> 0 <= off -> off + w <= 128 -> fread b off w = le_bytes k v ->
    0 <= v < 2 ^ (8 * w) -> le_value (vd_bytes b off w) = v).
  { intros. eapply block_field; eassumption. }
  assert (Hmeth : bref_methods b = 48 + comp).
  { unfold bref_methods, vd_u8. rewrite (F 1 1%nat 1 (48 + comp)); [apply u8_small; lia|lia..| |lia]. unfold b. open_puts. rd. reflexivity. }
  split; [exact Hb|..].
  - unfold bref_type, vd_u8. rewrite (F 0 1%nat 1 1); [reflexivity|lia..| |lia]. unfold b. open_puts. rd. reflexivity.
  - unfold bref_data_off, vd_u64. rewrite (F 32 8%nat 8 (off + 10)); [apply u64_small; lia|lia..| |lia]. unfold b. open_puts. rd. reflexivity.
  - unfold bref_key, vd_u64. rewrite (F 8 8%nat 8 key); [apply u64_small; lia|lia..| |lia]. unfold b. open_puts. rd. reflexivity.
  - unfold bref_flags, vd_u8. rewrite (F 5 1%nat 1 flags); [apply u8_small; lia|lia..| |lia]. unfold b. open_puts. rd. reflexivity.
  - unfold passes, hammer2_chain_testcheck. cbn [ck_methods ck_check ck_nottested]. rewrite Hmeth.
    assert (HAMMER2_DEC_CHECK (48 + comp) = 3) as ->.
    { unfold HAMMER2_DEC_CHECK. rewrite Z.shiftr_div_pow2 by lia. change 15 with (Z.ones 4). rewrite land_ones_mod by lia.
      replace (48 + comp) with (3 * 2 ^ 4 + comp) by lia. rewrite Z.div_add_l, Z.div_small by lia. reflexivity. }
    rewrite Hx. cbn [obind]. f_equal. apply Z.eqb_eq.
    unfold bref_check. rewrite (block_vd_bytes 128) by (assumption || lia).
    assert (E : take 8 (fread b 64 64) = fread b 64 8).
    { apply fbyte_ext; rewrite length_take, !fread_length; [reflexivity|]. intros j Hj.
      unfold fbyte. rewrite lookup_take_lt by lia. fold (fbyte (fread b 64 64) j). fold (fbyte (fread b 64 8) j).
      rewrite !fbyte_fread by lia. reflexivity. }
    rewrite E. unfold b. open_puts. rd. apply le_value_bytes. lia.
Qed.

(** A PFS root directory: empty, inode 1, under its label. *)
Record pfs_inode (label raw : list Z) : Prop := {
  pi_block : is_block HAMMER2_INODE_BYTES raw;
  pi_type : vd_u8 raw 80 = HAMMER2_OBJTYPE_DIRECTORY;
  pi_op_flags : vd_u8 raw 81 = HAMMER2_OPFLAG_PFSROOT;
  pi_inum : vd_u64 raw 88 = 1;
  pi_name_key : vd_u64 raw 120 = hammer2_dirhash label;
  pi_name_len : le_value (vd_bytes raw 128 2) = alen label;
  pi_filename : vd_bytes raw 256 (alen label) = label;
  pi_pfs_type : vd_u8 raw 135 = HAMMER2_PFSTYPE_MASTER;
  pi_pfs_inum : vd_u64 raw 136 = 16;
  pi_blockset : vd_bytes raw 512 512 = zeros 512
}.

Section root_inode.
Context (o : mkfs_options) (now i : Z).
Hypothesis Ho : opts_ok o.
Hypothesis Hi : 0 <= i < alen (Label o).
Let label := aget (Label o) i.
Let raw := root_inode o now i.

Lemma label_ok : 1 <= alen label <= 255 /\ Forall is_byte label.
Proof using Ho Hi. apply (proj1 (Forall_forall _ _) (oo_labels o Ho)). unfold label. apply aget_elem. exact Hi. Qed.

(** The name is in place before the rest is. *)
Definition raw_named (label : list Z) : list Z :=
  fwrite (puts (zeros HAMMER2_INODE_BYTES)
    [(0, 2%nat, 1); (16, 8%nat, now); (24, 8%nat, now); (40, 8%nat, now); (80, 1%nat, HAMMER2_OBJTYPE_DIRECTORY);
     (84, 4%nat, 493); (88, 8%nat, 1); (104, 8%nat, 1); (128, 2%nat, alen label)]) 256 label.
Lemma raw_named_block : is_block 1024 (raw_named label).
Proof using Ho Hi.
  destruct label_ok as [Hl Hb]. apply fwrite_block; [|lia|lia|exact Hb].
  apply puts_block; [apply zeros_block; lia|repeat constructor; lia].
Qed.
Lemma raw_named_name : vd_bytes (raw_named label) 256 (alen label) = label.
Proof using Ho Hi.
  destruct label_ok as [Hl _]. rewrite (block_vd_bytes 1024) by (apply raw_named_block || lia).
  apply fread_fwrite_eq; [lia|reflexivity].
Qed.

Definition raw_ids : list Z :=
  fwrite (fwrite (puts (raw_named label)
    [(120, 8%nat, hammer2_dirhash label);
     (131, 1%nat, HAMMER2_ENC_ALGO (if is_boot label then HAMMER2_COMP_AUTOZERO else CompType o));
     (133, 1%nat, HAMMER2_ENC_ALGO HAMMER2_CHECK_XXHASH64)]) 144 (Hammer2_PfsCLID o i)) 160 (Hammer2_PfsFSID o i).
Lemma raw_ids_block : is_block 1024 raw_ids.
Proof using Ho Hi.
  destruct (oo_pfsclid o Ho i) as [C1 C2], (oo_pfsfsid o Ho i) as [F1 F2].
  apply fwrite_block; [|lia|lia|exact F2]. apply fwrite_block; [|lia|lia|exact C2].
  apply puts_block; [apply raw_named_block|repeat constructor; lia].
Qed.
Lemma root_inode_eq : raw = puts raw_ids [(135, 1%nat, HAMMER2_PFSTYPE_MASTER); (81, 1%nat, HAMMER2_OPFLAG_PFSROOT); (136, 8%nat, 16)].
Proof using Ho Hi.
  unfold raw, root_inode. fold label. fold (raw_named label). rewrite raw_named_name, dirhash_driver. fold raw_ids.
  assert (E : vd_u8 raw_ids 81 = 0); [|rewrite E; reflexivity].
  destruct (oo_pfsclid o Ho i) as [C1 _], (oo_pfsfsid o Ho i) as [F1 _]. destruct label_ok as [Hl _].
  unfold vd_u8. rewrite (block_field 1024 _ 81 1 1 0); [reflexivity|reflexivity|apply raw_ids_block|lia|lia| |lia].
  unfold raw_ids, raw_named. open_puts. rd. reflexivity.
Qed.

Lemma root_inode_ok : pfs_inode label raw.
Proof using Ho Hi.
  destruct (oo_pfsclid o Ho i) as [C1 _], (oo_pfsfsid o Ho i) as [F1 _]. destruct label_ok as [Hl Hlb].
  assert (Hb : is_block 1024 raw).
  { rewrite root_inode_eq. apply puts_block; [apply raw_ids_block|repeat constructor; lia]. }
  assert (F : forall off (k : nat) w v, w = Z.of_nat k -> 0 <= off -> off + w <= 1024 -> fread raw off w = le_bytes k v ->
    0 <= v < 2 ^ (8 * w) -> le_value (vd_bytes raw off w) = v).
  { intros. eapply block_field; eassumption. }
  destruct (dirhash_shape label Hlb) as (Hd & _).
  assert (E : forall off w, fread raw off w = fread (puts raw_ids [(135, 1%nat, HAMMER2_PFSTYPE_MASTER); (81, 1%nat, HAMMER2_OPFLAG_PFSROOT); (136, 8%nat, 16)]) off w)
    by (intros; rewrite <- root_inode_eq; reflexivity).
  split; [exact Hb|unfold vd_u8, vd_u64..].
  - rewrite (F 80 1%nat 1 1); [reflexivity|lia..| |lia]. read_raw E raw_ids raw_named.
  - rewrite (F 81 1%nat 1 2); [reflexivity|lia..| |lia]. read_raw E raw_ids raw_named.
  - rewrite (F 88 8%nat 8 1); [reflexivity|lia..| |lia]. read_raw E raw_ids raw_named.
  - rewrite (F 120 8%nat 8 (hammer2_dirhash label)); [apply u64_small; lia|lia..| |lia]. read_raw E raw_ids raw_named.
  - rewrite (F 128 2%nat 2 (alen label)); [reflexivity|lia..| |lia]. read_raw E raw_ids raw_named.
  - rewrite (block_vd_bytes 1024) by (assumption || lia). read_raw E raw_ids raw_named.
  - rewrite (F 135 1%nat 1 6); [reflexivity|lia..| |lia]. read_raw E raw_ids raw_named.
  - rewrite (F 136 8%nat 8 16); [reflexivity|lia..| |lia]. read_raw E raw_ids raw_named.
  - rewrite (block_vd_bytes 1024) by (assumption || lia). read_raw E raw_ids raw_named.
Qed.
End root_inode.

(** Entry [k] of the blockset of an inode or of the header. *)
Definition blockset_ref (raw : list Z) (k : nat) : list Z := vd_bytes raw (512 + 128 * Z.of_nat k) 128.

Lemma concat_block (roots : list (list Z)) : Forall (is_block 128) roots -> is_block (128 * alen roots) (concat roots).
Proof.
  unfold is_block, alen. induction 1 as [|b l [Hl Hb] _ [IHl IHb]]; cbn [concat length]; [split; [lia|constructor]|].
  rewrite length_app. split; [lia|]. apply Forall_app. auto.
Qed.
Lemma concat_fread (roots : list (list Z)) k b :
  Forall (is_block 128) roots -> roots !! k = Some b -> fread (concat roots) (128 * Z.of_nat k) 128 = b.
Proof.
  unfold is_block, alen. intros H Hk. apply list_elem_of_split_length in Hk as (l1 & l2 & -> & ->).
  apply Forall_app in H as [H1 H2]. apply Forall_cons in H2 as [[Hb _] _].
  destruct (concat_block l1 H1) as [Hc _]. unfold alen in Hc. rewrite concat_app. cbn [concat].
  apply fbyte_ext; rewrite fread_length; [lia|]. intros j Hj. rewrite fbyte_fread by lia. unfold fbyte.
  rewrite lookup_app_r by lia. rewrite lookup_app_l by lia. do 2 f_equal. lia.
Qed.

Record sroot_ok (raw : list Z) (roots : list (list Z)) : Prop := {
  so_block : is_block HAMMER2_INODE_BYTES raw;
  so_type : vd_u8 raw 80 = HAMMER2_OBJTYPE_DIRECTORY;
  so_inum : vd_u64 raw 88 = 0;
  so_pfs_type : vd_u8 raw 135 = HAMMER2_PFSTYPE_SUPROOT;
  so_refs k b : roots !! k = Some b -> blockset_ref raw k = b;
  so_unused k : (length roots <= k < 4)%nat -> blockset_ref raw k = zeros 128
}.

Lemma sroot_inode_ok o now roots :
  opts_ok o -> Forall (is_block 128) roots -> (length roots <= 4)%nat -> sroot_ok (sroot_inode o now roots) roots.
Proof.
  intros Ho Hr Hn. destruct (oo_supclid o Ho) as [C1 C2], (oo_supfsid o Ho) as [F1 F2].
  destruct (concat_block roots Hr) as [Hc Hcb]. unfold alen in Hc. fold (alen (concat roots)) in Hc.
  assert (S8 : alen (SUPROOT ++ [0]) = 8) by reflexivity. set (raw := sroot_inode o now roots).
  assert (Hb : is_block 1024 raw).
  { unfold raw, sroot_inode. apply fwrite_block; [|lia|lia|exact Hcb]. apply puts_block; [|repeat constructor; lia].
    apply fwrite_block; [|lia|lia|repeat constructor; unfold is_byte; lia]. apply puts_block; [|repeat constructor; lia].
    apply fwrite_block; [|lia|lia|exact F2]. apply fwrite_block; [|lia|lia|exact C2].
    apply puts_block; [apply zeros_block; lia|repeat constructor; lia]. }
  assert (F : forall off (k : nat) w v, w = Z.of_nat k -> 0 <= off -> off + w <= 1024 -> fread raw off w = le_bytes k v ->
    0 <= v < 2 ^ (8 * w) -> le_value (vd_bytes raw off w) = v).
  { intros. eapply block_field; eassumption. }
  split; [exact Hb|unfold vd_u8, vd_u64..].
  - rewrite (F 80 1%nat 1 1); [reflexivity|lia..| |lia]. unfold raw, sroot_inode. open_puts. rd. reflexivity.
  - rewrite (F 88 8%nat 8 0); [reflexivity|lia..| |lia]. unfold raw, sroot_inode. open_puts. rd. reflexivity.
  - rewrite (F 135 1%nat 1 8); [reflexivity|lia..| |lia]. unfold raw, sroot_inode. open_puts. rd. reflexivity.
  - intros k b Hk. pose proof (lookup_lt_Some _ _ _ Hk). unfold blockset_ref.
    rewrite (block_vd_bytes 1024) by (assumption || lia). unfold raw, sroot_inode.
    rewrite fread_fwrite_in by lia. replace (512 + 128 * Z.of_nat k - 512) with (128 * Z.of_nat k) by lia.
    exact (concat_fread roots k b Hr Hk).
  - intros k Hk. unfold blockset_ref. rewrite (block_vd_bytes 1024) by (assumption || lia). unfold raw, sroot_inode. open_puts.
    rd. reflexivity.
Qed.
