(* ===== verification/NewfsLayout.v ===== *)
(** The volumes newfs lays out (Newfs): one after the other, aligned, and accepted by the
    checks of the tools and by those of a mount. *)

From Stdlib Require Import ZArith Lia Bool Zdiv.
From stdpp Require Import base numbers list option gmap.
From S2P Require Import Prelude Disk Crc Subr Check Io IoLemmas Volumes VolumesProof VolumeTable Tools ToolsProof Newfs.

(** * The layout *)

Section layout.
Context {CRT : Crt}.
(** The media size of each device. *)
Context (media : Z -> Z).

Definition dev_size (last : bool) (fd : Z) : Z :=
  if last then media fd .&~ HAMMER2_VOLUME_ALIGNMASK64 else media fd .&~ HAMMER2_FREEMAP_LEVEL1_MASK.

Fixpoint layout (n i off : Z) (fds : list Z) : list tvolume :=
  match fds with
  | [] => []
  | fd :: fds =>
      let size := dev_size (i =? n - 1) fd in
      Tvolume fd i off size :: layout n (i + 1) (off + size) fds
  end.
Fixpoint layout_end (n i off : Z) (fds : list Z) : Z :=
  match fds with
  | [] => off
  | fd :: fds => layout_end n (i + 1) (off + dev_size (i =? n - 1) fd) fds
  end.

Lemma dev_size_facts last fd :
  0 <= media fd -> 0 <= dev_size last fd <= media fd /\ (2 ^ 23 | dev_size last fd)
    /\ (last = false -> (2 ^ 30 | dev_size last fd)) /\ media fd - dev_size last fd < 2 ^ 30
    /\ (last = true -> media fd - dev_size last fd < 2 ^ 23).
Proof.
  intros H. unfold dev_size. destruct last.
  - change HAMMER2_VOLUME_ALIGNMASK64 with (Z.ones 23). rewrite ldiff_ones_sub by lia.
    pose proof (mod_pow2_range (media fd) 23 ltac:(lia)). pose proof (Z.mod_le (media fd) (2 ^ 23) H ltac:(lia)).
    split; [lia|]. split; [|split; [discriminate|lia]].
    exists (media fd / 2 ^ 23). rewrite Z.mod_eq by lia. lia.
  - change HAMMER2_FREEMAP_LEVEL1_MASK with (Z.ones 30). rewrite ldiff_ones_sub by lia.
    pose proof (mod_pow2_range (media fd) 30 ltac:(lia)). pose proof (Z.mod_le (media fd) (2 ^ 30) H ltac:(lia)).
    assert (D : (2 ^ 30 | media fd - media fd mod 2 ^ 30)) by (exists (media fd / 2 ^ 30); rewrite Z.mod_eq by lia; lia).
    split; [lia|]. split; [destruct D as [q Hq]; exists (q * 2 ^ 7); lia|]. split; [auto|]. split; [lia|discriminate].
Qed.

Lemma layout_length n fds : forall i off, length (layout n i off fds) = length fds.
Proof. induction fds as [|fd fds IH]; intros i off; [reflexivity|]. cbn. f_equal. apply IH. Qed.
Lemma layout_lookup n fds : forall i off k v,
  layout n i off fds !! k = Some v ->
  fds !! k = Some (tv_fd v) /\ tv_id v = i + Z.of_nat k /\ tv_size v = dev_size (tv_id v =? n - 1) (tv_fd v).
Proof.
  induction fds as [|fd fds IH]; intros i off k v H; [discriminate H|]. destruct k as [|k]; cbn in H.
  - injection H as <-. cbn. repeat split; lia.
  - destruct (IH _ _ _ _ H) as (A & B & C). split; [exact A|]. split; [lia|exact C].
Qed.

(** What the checks look at. *)
Inductive laid (n : Z) : Z -> Z -> list tvolume -> Z -> Prop :=
| laid_nil i off : laid n i off [] off
| laid_cons i off v vols e :
    tv_id v = i -> tv_offset v = off -> (2 ^ 30 | off) ->
    0 < tv_size v <= media (tv_fd v) -> media (tv_fd v) <= 2 ^ 57 -> (2 ^ 23 | tv_size v) ->
    (i <> n - 1 -> (2 ^ 30 | tv_size v)) ->
    laid n (i + 1) (off + tv_size v) vols e -> laid n i off (v :: vols) e.

(** The devices are large enough. *)
Definition media_ok (n i : Z) (fds : list Z) : Prop :=
  forall k fd, fds !! k = Some fd -> media fd <= 2 ^ 57 /\ (if i + Z.of_nat k =? n - 1 then 2 ^ 23 <= media fd else 2 ^ 30 <= media fd).

Lemma media_ok_tail n i fd fds : media_ok n i (fd :: fds) -> media_ok n (i + 1) fds.
Proof. intros H k f Hk. specialize (H (S k) f Hk). replace (i + 1 + Z.of_nat k) with (i + Z.of_nat (S k)) by lia. exact H. Qed.

Lemma layout_laid n fds : forall i off,
  n = i + alen fds -> media_ok n i fds -> (2 ^ 30 | off) -> laid n i off (layout n i off fds) (layout_end n i off fds).
Proof.
  induction fds as [|fd fds IH]; intros i off Hn Hm Hd; [constructor|]. cbn [layout layout_end].
  pose proof (Hm 0%nat fd eq_refl) as [Hmax Hmin]. replace (i + Z.of_nat 0) with i in Hmin by lia.
  unfold alen in Hn. cbn [length] in Hn. rewrite Nat2Z.inj_succ in Hn. fold (alen fds) in Hn.
  destruct (dev_size_facts (i =? n - 1) fd) as (A & B & C & D & E); [destruct (_ =? _); lia|].
  constructor; cbn [tv_id tv_offset tv_size tv_fd]; try assumption; try reflexivity.
  - destruct (Z.eqb_spec i (n - 1)); [specialize (E eq_refl); lia|lia].
  - intros Hne. apply C, Z.eqb_neq, Hne.
  - destruct fds as [|fd' fds']; [constructor|]. apply IH; [lia|exact (media_ok_tail _ _ _ _ Hm)|].
    apply Z.divide_add_r; [exact Hd|]. apply C, Z.eqb_neq. unfold alen in Hn. cbn [length] in Hn. lia.
Qed.

Lemma layout_end_range n fds : forall i off,
  media_ok n i fds -> off <= layout_end n i off fds <= off + alen fds * 2 ^ 57.
Proof.
  induction fds as [|fd fds IH]; intros i off Hm; cbn [layout_end]; [unfold alen; cbn [length]; lia|].
  pose proof (Hm 0%nat fd eq_refl) as [Hmax Hmin].
  destruct (dev_size_facts (i =? n - 1) fd) as (A & _); [destruct (_ =? _); lia|].
  specialize (IH (i + 1) (off + dev_size (i =? n - 1) fd) (media_ok_tail _ _ _ _ Hm)).
  unfold alen in *. cbn [length]. lia.
Qed.

Lemma laid_range n i off vols e : laid n i off vols e -> off <= e /\ forall v, v ∈ vols -> off <= tv_offset v /\ tv_offset v + tv_size v <= e.
Proof.
  induction 1 as [|i off v vols e Hid Ho Hd Hs Hm Hd' Hl H [IH1 IH2]]; [split; [lia|intros v Hv; apply not_elem_of_nil in Hv; contradiction]|].
  split; [lia|]. intros w Hw. apply elem_of_cons in Hw as [->|Hw]; [lia|]. specialize (IH2 w Hw). lia.
Qed.

Lemma laid_sizes n i off vols e : laid n i off vols e -> forall v, v ∈ vols -> 0 < tv_size v <= media (tv_fd v).
Proof.
  induction 1 as [|i off v vols e Hid Ho Hd Hs Hm Hd' Hl H IH]; intros w Hw; [apply not_elem_of_nil in Hw; contradiction|].
  apply elem_of_cons in Hw as [->|Hw]; [exact Hs|exact (IH w Hw)].
Qed.

Lemma laid_head n i off v vols e : laid n i off (v :: vols) e -> tv_id v = i /\ tv_offset v = off /\ (2 ^ 23 | tv_size v).
Proof. intros H. inversion H. auto. Qed.

(** * The loop that installs them *)

Lemma aset_mid {A} `{!Inhabited A} (pre : list A) x y rest i : i = alen pre -> aset (pre ++ x :: rest) i y = pre ++ y :: rest.
Proof.
  intros ->. unfold aset, alen. rewrite Nat2Z.id. rewrite insert_app_r_alt by lia.
  rewrite Nat.sub_diag. reflexivity.
Qed.
Lemma aget_mid {A} `{!Inhabited A} (pre : list A) x rest i : i = alen pre -> aget (pre ++ x :: rest) i = x.
Proof. intros ->. unfold aget, alen. rewrite Nat2Z.id. apply list_lookup_total_middle. reflexivity. Qed.

Lemma install_loop_layout n k fds : forall i pre off,
  i = alen pre -> n = i + alen fds -> n <= 64 -> media_ok n i fds ->
  (forall fd, fd ∈ fds -> check_volume fd = Ran (media fd)) -> 0 <= off <= i * 2 ^ 57 ->
  install_loop n i fds (pre ++ replicate (length fds + k) hammer2_init_volume) off
  = Ran (pre ++ layout n i off fds ++ replicate k hammer2_init_volume, layout_end n i off fds).
Proof.
  induction fds as [|fd fds IH]; intros i pre off Hi Hn Hn64 Hm Hc Ho; [reflexivity|].
  cbn [install_loop layout layout_end length Nat.add replicate]. rewrite (Hc fd) by left. cbn [tbind].
  pose proof (Hm 0%nat fd eq_refl) as [Hmax Hmin].
  unfold alen in Hn. cbn [length] in Hn. rewrite Nat2Z.inj_succ in Hn. fold (alen fds) in Hn.
  assert (0 <= alen fds) by (unfold alen; lia). assert (0 <= alen pre) by (unfold alen; lia).
  destruct (dev_size_facts (i =? n - 1) fd) as (A & _); [destruct (_ =? _); lia|].
  fold (dev_size (i =? n - 1) fd). rewrite aset_mid by exact Hi. unfold hammer2_install_volume. rewrite u64_small by lia.
  set (v := Tvolume fd i off _). change (v :: replicate (length fds + k) hammer2_init_volume) with ([v] ++ replicate (length fds + k) hammer2_init_volume).
  rewrite app_assoc. rewrite IH.
  - rewrite <- app_assoc. reflexivity.
  - unfold alen in *. rewrite length_app. cbn [length]. lia.
  - lia.
  - exact Hn64.
  - exact (media_ok_tail _ _ _ _ Hm).
  - intros f Hf. apply Hc. right. exact Hf.
  - lia.
Qed.

(** * The checks of the tools *)

Lemma installed_app vols k :
  Forall (fun v => tv_id v <> - 1) vols -> tv_installed (vols ++ replicate k hammer2_init_volume) = alen vols.
Proof.
  intros H. unfold tv_installed, alen. f_equal. rewrite filter_app, length_app.
  assert (E : filter (fun vol => tv_id vol <> - 1) vols = vols).
  { induction H as [|v l Hv _ IH]; [reflexivity|]. rewrite filter_cons_True by exact Hv. f_equal. exact IH. }
  rewrite E, unused_not_installed. cbn [length]. lia.
Qed.

Lemma common_loop_unused k : forall i st, tool_common_loop i st (replicate k hammer2_init_volume) = Ran tt.
Proof. induction k as [|k IH]; intros i st; [reflexivity|]. cbn. apply IH. Qed.
Lemma loop_2_unused n k : forall i prev, tool_2_loop n i prev (replicate k hammer2_init_volume) = Ran tt.
Proof. induction k as [|k IH]; intros i prev; [reflexivity|]. cbn. apply IH. Qed.

Lemma common_loop_laid n k i off vols e :
  laid n i off vols e -> forall done : list Z, i = alen done -> 0 <= off -> e < 2 ^ 64 - 1 ->
  Forall (fun v => check_volume (tv_fd v) = Ran (media (tv_fd v)) /\ tv_fd v <> - 1) vols ->
  NoDup (map fstat_id (done ++ map tv_fd vols)) ->
  tool_common_loop i (map fstat_id done ++ replicate (length vols) (0, 0)) (vols ++ replicate k hammer2_init_volume) = Ran tt.
Proof.
  induction 1 as [|i off v vols e Hid Ho Hd Hs Hm Hd' Hl H IH]; intros done Hi Hoff He Hc Hnd; [apply common_loop_unused|].
  apply Forall_cons in Hc as [[Hcv Hfd] Hc]. pose proof (proj1 (laid_range _ _ _ _ _ H)) as Hle.
  assert (0 <= alen done) by (unfold alen; lia).
  cbn [app tool_common_loop length replicate]. rewrite (proj2 (Z.eqb_neq _ _)) by lia.
  assert (El : alen (map fstat_id done) = i) by (unfold alen in *; rewrite length_map; lia).
  rewrite (proj2 (Z.ltb_lt _ _)) by (rewrite Hi; unfold alen; rewrite length_app, length_map; cbn [length]; lia).
  cbn [tassert tbind]. rewrite (proj2 (Z.eqb_neq _ _)) by exact Hfd. cbn [errx tbind].
  rewrite aset_mid by lia. rewrite aget_mid by lia.
  replace (existsb _ (seqZ 0 i)) with false.
  2: { symmetry. apply not_true_is_false. intros K. apply existsb_exists in K as (j & Hj & K). apply list_elem_of_In, elem_of_seqZ in Hj.
       apply bool_decide_eq_true in K. unfold aget in K.
       rewrite list_lookup_total_alt, lookup_app_l in K by (unfold alen in El; lia).
       destruct (lookup_lt_is_Some_2 (map fstat_id done) (Z.to_nat j)) as [x Hx]; [unfold alen in El; lia|].
       rewrite Hx in K. cbn in K. subst x. rewrite map_app in Hnd. apply NoDup_app in Hnd as (_ & Hnd & _).
       apply (Hnd (fstat_id (tv_fd v))); [eapply list_elem_of_lookup_2; exact Hx|]. cbn [map]. left. }
  cbn [errx tbind]. rewrite (proj2 (Z.eqb_neq _ _)) by lia. cbn [errx tbind].
  rewrite (proj2 (Z.eqb_neq _ _)) by lia. cbn [errx tbind]. rewrite Hcv. cbn [tbind].
  rewrite (proj2 (Z.ltb_ge _ _)) by lia. cbn [errx tbind].
  change (fstat_id (tv_fd v) :: replicate (length vols) (0, 0)) with ([fstat_id (tv_fd v)] ++ replicate (length vols) (0, 0)).
  rewrite app_assoc. change [fstat_id (tv_fd v)] with (map fstat_id [tv_fd v]). rewrite <- map_app.
  apply IH; [unfold alen in *; rewrite length_app; cbn [length]; lia|lia|exact He|exact Hc|].
  rewrite <- app_assoc. exact Hnd.
Qed.

Lemma tst_mask_false x k : 0 <= k -> (2 ^ k | x) -> tst x (Z.ones k) = false.
Proof.
  intros Hk H. unfold tst. rewrite land_ones_mod by exact Hk. pose proof (pow2_pos k Hk).
  rewrite (proj2 (Z.mod_divide x (2 ^ k) ltac:(lia)) H). reflexivity.
Qed.

(** The previous volume ends where the next begins. *)
Definition follows (i off : Z) (prev : option tvolume) : Prop :=
  match prev with
  | Some p => tv_id p + 1 = i /\ tv_offset p + tv_size p = off
  | None => off = 0
  end.

Lemma loop_2_laid n k i off vols e :
  laid n i off vols e -> forall prev, 0 <= i -> 0 <= off -> e < 2 ^ 64 -> follows i off prev ->
  tool_2_loop n i prev (vols ++ replicate k hammer2_init_volume) = Ran tt.
Proof.
  induction 1 as [|i off v vols e Hid Ho Hd Hs Hm Hd' Hl H IH]; intros prev Hi Hoff He Hf; [apply loop_2_unused|].
  pose proof (proj1 (laid_range _ _ _ _ _ H)) as Hle.
  cbn [app tool_2_loop]. rewrite (proj2 (Z.eqb_neq _ _)) by lia.
  change HAMMER2_FREEMAP_LEVEL1_MASK with (Z.ones 30). rewrite tst_mask_false by (rewrite ?Ho; assumption || lia). cbn [errx tbind].
  assert (Hp : match prev with
    | Some p => errx? negb (tv_id v =? tv_id p + 1); errx (negb (tv_offset v =? u64 (tv_offset p + tv_size p)))
    | None => errx (negb (tv_offset v =? 0)) end = Ran tt).
  { destruct prev as [p|]; cbn in Hf.
    - destruct Hf as [A B]. rewrite (proj2 (Z.eqb_eq _ _)) by lia. cbn [negb errx tbind]. rewrite B, u64_small by lia.
      rewrite Ho, Z.eqb_refl. reflexivity.
    - rewrite Ho, Hf. reflexivity. }
  rewrite Hp. cbn [tbind].
  assert (Hn : (if negb (i =? n - 1) then errx? tv_size v <? HAMMER2_FREEMAP_LEVEL1_SIZE; errx (tst (tv_size v) (Z.ones 30))
    else errx (tst (tv_size v) HAMMER2_VOLUME_ALIGNMASK64)) = Ran tt).
  { destruct (Z.eqb_spec i (n - 1)) as [E|E]; cbn [negb].
    - change HAMMER2_VOLUME_ALIGNMASK64 with (Z.ones 23). rewrite tst_mask_false by (assumption || lia). reflexivity.
    - specialize (Hl E). rewrite tst_mask_false by (assumption || lia). destruct Hl as [q Hq].
      rewrite (proj2 (Z.ltb_ge _ _)) by nia. reflexivity. }
  rewrite Hn. cbn [tbind]. apply IH; [lia|lia|exact He|]. cbn. lia.
Qed.

Lemma laid_ids n i off vols e : laid n i off vols e -> 0 <= i -> Forall (fun v => tv_id v <> - 1) vols.
Proof. induction 1 as [|i off v vols e Hid _ _ _ _ _ _ _ IH]; intros Hi; constructor; [lia|apply IH; lia]. Qed.

Lemma tool_verify_laid version n total vols k fsid fstype :
  laid n 0 0 vols total -> total < 2 ^ 64 - 1 -> n = alen vols -> 0 < n -> version = 2 \/ version = 1 /\ n = 1 ->
  Forall (fun v => check_volume (tv_fd v) = Ran (media (tv_fd v)) /\ tv_fd v <> - 1) vols ->
  NoDup (map fstat_id (map tv_fd vols)) ->
  let fso := Ondisk version n (vols ++ replicate k hammer2_init_volume) total fsid fstype in
  tool_verify_volumes fso None = Ran fso.
Proof.
  intros Hl Ht Hn Hn0 Hv Hc Hnd fso. pose proof (laid_ids _ _ _ _ _ Hl ltac:(lia)) as Hids.
  unfold tool_verify_volumes, tool_verify_volumes_common. cbn [fo_version fo_volumes fo_nvolumes fo_total_size fo_fsid fo_fstype fso].
  rewrite (proj2 (Z.eqb_neq version (- 1))) by lia. cbn [errx tbind]. rewrite installed_app by exact Hids.
  replace (Z.to_nat (alen vols)) with (length vols) by (unfold alen; lia).
  pose proof (common_loop_laid n k 0 0 vols total Hl [] eq_refl ltac:(lia) ltac:(lia) Hc Hnd) as E. cbn [map app] in E.
  rewrite E. cbn [tbind].
  assert (Hrun : (if HAMMER2_VOL_VERSION_MULTI_VOLUMES <=? version then let? _ := tool_verify_volumes_2 fso None in Ran n
                  else tool_verify_volumes_1 fso None) = Ran n).
  { destruct Hv as [->|[-> Hn1]].
    - cbn [Z.leb Z.compare Pos.compare Pos.compare_cont]. unfold tool_verify_volumes_2.
      cbn [fo_nvolumes fo_volumes fso]. rewrite installed_app by exact Hids. rewrite Hn, Z.eqb_refl. cbn [negb errx tbind].
      rewrite <- Hn, (loop_2_laid n k 0 0 vols total Hl None) by (cbn; lia). reflexivity.
    - cbn [Z.leb Z.compare Pos.compare Pos.compare_cont]. unfold tool_verify_volumes_1. cbn [fo_volumes fso].
      rewrite installed_app by exact Hids. rewrite <- Hn, Hn1. cbn [negb errx tbind Z.eqb Pos.eqb].
      destruct vols as [|v vols]; [unfold alen in Hn; cbn in Hn; lia|]. pose proof (laid_head _ _ _ _ _ _ Hl) as (Hid & Ho & Hd').
      change (aget ((v :: vols) ++ replicate k hammer2_init_volume) 0) with v. rewrite Hid, Ho.
      cbn [negb errx tbind Z.eqb Pos.eqb]. change HAMMER2_VOLUME_ALIGNMASK64 with (Z.ones 23).
      rewrite tst_mask_false by (assumption || lia). reflexivity. }
  rewrite Hrun. cbn [tbind]. rewrite (proj2 (Z.ltb_lt 0 n)) by lia. reflexivity.
Qed.

(** * The checks of a mount *)

(** The device a descriptor was opened on, and the volume as a mount has it. *)
Definition dev_of (fd : Z) : devvp := Devvp (Some fd) (media fd).
Definition mounted_vol (v : tvolume) : hvolume := Hvolume (Some (dev_of (tv_fd v))) (tv_id v) (tv_offset v) (tv_size v).
Definition mount_table (vols : list tvolume) (k : nat) : list hvolume := map mounted_vol vols ++ replicate k empty_vol.

Lemma mount_common_laid n k i off vols e :
  laid n i off vols e -> 0 <= i -> 0 <= off -> e < 2 ^ 64 - 1 -> volumes_common_loop (mount_table vols k) = Done 0.
Proof.
  induction 1 as [|i off v vols e Hid Ho Hd Hs Hm Hd' Hl H IH]; intros Hi Hoff He.
  { unfold mount_table. cbn [map app]. clear He. induction k as [|k IHk]; [reflexivity|]. cbn. exact IHk. }
  pose proof (proj1 (laid_range _ _ _ _ _ H)) as Hle.
  unfold mount_table. cbn [map app volumes_common_loop mounted_vol vo_id vo_dev vo_offset vo_size dev_of e_bdev e_size].
  rewrite (proj2 (Z.eqb_neq (tv_id v) _)) by lia. rewrite (proj2 (Z.eqb_neq (tv_offset v) _)) by lia.
  rewrite (proj2 (Z.eqb_neq (tv_size v) _)) by lia. rewrite (proj2 (Z.ltb_ge _ _)) by lia.
  rewrite (proj2 (Z.eqb_neq (tv_size v) 0)) by lia. apply IH; lia.
Qed.

Lemma mount_loop_2_unused root k : forall i prev, volumes_2_loop root i prev (replicate k empty_vol) = Done 0.
Proof. induction k as [|k IH]; intros i prev; [reflexivity|]. cbn. apply IH. Qed.
Lemma mount_loop_2_laid root n k i off vols e :
  laid n i off vols e -> vd_nvolumes root = n -> forall prev, 0 <= i -> 0 <= off -> e < 2 ^ 64 -> follows i off prev ->
  volumes_2_loop root i (option_map mounted_vol prev) (mount_table vols k) = Done 0.
Proof.
  intros H Hnv. induction H as [|i off v vols e Hid Ho Hd Hs Hm Hd' Hl H IH]; intros prev Hi Hoff He Hf; [apply mount_loop_2_unused|].
  pose proof (proj1 (laid_range _ _ _ _ _ H)) as Hle.
  unfold mount_table. cbn [map app volumes_2_loop mounted_vol vo_id vo_dev vo_offset vo_size].
  rewrite (proj2 (Z.eqb_neq (tv_id v) _)) by lia.
  change HAMMER2_FREEMAP_LEVEL1_MASK with (Z.ones 30). change HAMMER2_VOLUME_ALIGNMASK64 with (Z.ones 23).
  rewrite (tst_mask_false (tv_offset v)) by (rewrite ?Ho; assumption || lia).
  assert (Hp : match option_map mounted_vol prev with
    | Some p => (tv_id v <=? vo_id p) || negb (tv_offset v =? u64 (vo_offset p + vo_size p))
    | None => negb (tv_offset v =? 0) end = false).
  { destruct prev as [p|]; cbn in Hf |- *; [|rewrite Ho, Hf; reflexivity]. destruct Hf as [A B].
    rewrite B, u64_small, Ho, Z.eqb_refl by lia. rewrite (proj2 (Z.leb_gt _ _)) by lia. reflexivity. }
  rewrite Hp, Hnv. fold (mount_table vols k).
  specialize (IH (Some v) ltac:(lia) ltac:(lia) He ltac:(cbn; lia)). cbn [option_map mounted_vol] in IH. unfold mounted_vol in IH at 1.
  destruct (Z.eqb_spec i (n - 1)) as [E|E]; cbn [negb].
  - rewrite tst_mask_false by (assumption || lia). exact IH.
  - specialize (Hl E). rewrite tst_mask_false by (assumption || lia). destruct Hl as [q Hq].
    rewrite (proj2 (Z.ltb_ge _ _)) by nia. exact IH.
Qed.

Lemma mount_table_split vols k :
  Forall (fun v => tv_id v <> - 1) vols -> initialized (mount_table vols k) = map mounted_vol vols.
Proof.
  intros H. apply initialized_split; [apply Forall_replicate; reflexivity|]. apply Forall_map.
  eapply Forall_impl; [exact H|]. intros v Hv. exact Hv.
Qed.
Lemma mount_total n i off vols e :
  laid n i off vols e -> 0 <= off -> e < 2 ^ 64 -> foldl (fun total vol => u64 (total + vo_size vol)) off (map mounted_vol vols) = e.
Proof.
  induction 1 as [|i off v vols e Hid Ho Hd Hs Hm Hd' Hl H IH]; intros Hoff He; [reflexivity|].
  pose proof (proj1 (laid_range _ _ _ _ _ H)) as Hle. cbn [map foldl mounted_vol vo_size]. rewrite u64_small by lia. apply IH; lia.
Qed.

(** The fields of the root header. *)
Definition root_header_ok (root : list Z) (n total : Z) (vols : list tvolume) : Prop :=
  vd_volu_id root = 0
  /\ (vd_version root = 2 /\ vd_nvolumes root = n /\ vd_total_size root = total
       /\ (forall i, 0 <= i < 64 -> vd_volu_loff root i = if i <? n then tv_offset (aget vols i) else OFF_NONE)
      \/ vd_version root = 1 /\ n = 1 /\ vd_nvolumes root = 0 /\ vd_total_size root = 0
         /\ (forall i, 0 <= i < 64 -> vd_volu_loff root i = 0) /\ vd_volu_size root = total).

Lemma existsb_seqZ f a m : (forall i, a <= i < a + m -> f i = false) -> existsb f (seqZ a m) = false.
Proof.
  intros H. apply not_true_is_false. intros K. apply existsb_exists in K as (j & Hj & K).
  apply list_elem_of_In, elem_of_seqZ in Hj. rewrite H in K by lia. discriminate K.
Qed.

Lemma mount_verify_laid root n total vols k :
  laid n 0 0 vols total -> total < 2 ^ 64 - 1 -> n = alen vols -> 0 < n <= 64 -> root_header_ok root n total vols ->
  hammer2_verify_volumes (mount_table vols k) root = Done 0.
Proof.
  intros Hl Ht Hn Hn0 [Hid Hr]. pose proof (laid_ids _ _ _ _ _ Hl ltac:(lia)) as Hids.
  unfold hammer2_verify_volumes, hammer2_verify_volumes_common. rewrite Hid. cbn [Z.eqb negb].
  rewrite (mount_common_laid n k 0 0 vols total Hl) by lia. cbn [obind Z.eqb negb].
  assert (Hcount : count_volumes (mount_table vols k) = n).
  { unfold count_volumes. rewrite mount_table_split by exact Hids. unfold alen in *. rewrite length_map. lia. }
  destruct Hr as [(Hv & Hnv & Hts & Hloff)|(Hv & Hn1 & Hnv & Hts & Hloff & Hsz)]; rewrite Hv; cbn [Z.leb Z.compare Pos.compare Pos.compare_cont].
  - unfold hammer2_verify_volumes_2. rewrite Hcount, Hnv, Z.eqb_refl, Hts. cbn [negb]. unfold sum_sizes.
    rewrite mount_table_split by exact Hids. rewrite (mount_total n 0 0 vols total Hl) by lia. rewrite Z.eqb_refl. cbn [negb].
    rewrite !existsb_seqZ.
    + exact (mount_loop_2_laid root n k 0 0 vols total Hl Hnv None ltac:(lia) ltac:(lia) ltac:(lia) eq_refl).
    + intros i Hi. rewrite Hloff, (proj2 (Z.ltb_ge i n)) by lia. reflexivity.
    + intros i Hi. rewrite Hloff, (proj2 (Z.ltb_lt i n)) by lia. apply Z.eqb_neq.
      assert (Hin : aget vols i ∈ vols) by (apply aget_elem; lia).
      pose proof (proj2 (laid_range _ _ _ _ _ Hl) _ Hin). pose proof (laid_sizes _ _ _ _ _ Hl _ Hin). lia.
  - unfold hammer2_verify_volumes_1. rewrite Hcount, Hn1, Hnv, Hts. cbn [negb Z.eqb Pos.eqb].
    rewrite existsb_seqZ by (intros i Hi; rewrite Hloff by lia; reflexivity).
    destruct vols as [|v vols]; [unfold alen in Hn; cbn in Hn; lia|]. pose proof (laid_head _ _ _ _ _ _ Hl) as (Hvid & Ho & Hd').
    change (aget (mount_table (v :: vols) k) HAMMER2_ROOT_VOLUME) with (mounted_vol v).
    cbn [mounted_vol vo_dev vo_id vo_offset vo_size kassert obind]. rewrite Hvid, Ho. cbn [Z.eqb negb].
    change HAMMER2_VOLUME_ALIGNMASK64 with (Z.ones 23). rewrite tst_mask_false by (assumption || lia). reflexivity.
Qed.
End layout.
