(* ===== verification/NewfsFormat.v ===== *)
(** Formatting the volumes (Newfs): what is on the devices afterwards. *)

From Stdlib Require Import ZArith Lia Bool Zdiv.
From stdpp Require Import base numbers list option gmap sorting.
From S2P Require Import Prelude Disk Crc Subr Xxh Check Io IoLemmas Volumes VolumesProof Tools Newfs NewfsBytes.

(** qsort sorts. *)
Class CrtLaws `{!Crt} : Prop := {
  qsort_perm key l : qsort_by key l ≡ₚ l;
  qsort_sorted key l : StronglySorted (fun a b => key a <= key b) (qsort_by key l)
}.

(** * Writes to one file *)

(** [s'] differs from [s] only in [lo, hi) of file [fd]. *)
Definition only_in (fd lo hi : Z) (s s' : ios) : Prop :=
  (forall fd', fd' <> fd -> file_of s' fd' = file_of s fd')
  /\ forall off n, 0 <= off -> off + n <= lo \/ hi <= off -> fread (file_of s' fd) off n = fread (file_of s fd) off n.

Lemma only_in_refl fd lo hi s : only_in fd lo hi s s.
Proof. split; auto. Qed.
Lemma only_in_trans fd lo hi s s' s'' : only_in fd lo hi s s' -> only_in fd lo hi s' s'' -> only_in fd lo hi s s''.
Proof. intros [A B] [A' B']. split; intros; [rewrite A', A by assumption|rewrite B', B by assumption]; reflexivity. Qed.
Lemma only_in_weaken fd lo hi lo' hi' s s' : only_in fd lo hi s s' -> lo' <= lo -> hi <= hi' -> only_in fd lo' hi' s s'.
Proof. intros [A B] H1 H2. split; [exact A|]. intros off n Ho Hd. apply B; lia. Qed.

Lemma file_of_set fd f s : file_of (set_file fd f s) fd = f.
Proof. unfold file_of, set_file. cbn [s_files]. rewrite lookup_insert_eq. reflexivity. Qed.
Lemma file_of_set_ne fd fd' f s : fd' <> fd -> file_of (set_file fd f s) fd' = file_of s fd'.
Proof. intros H. unfold file_of, set_file. cbn [s_files]. rewrite lookup_insert_ne by congruence. reflexivity. Qed.

(** * What a formatted root volume holds *)

(** The blockref [b] names the inode [raw], which lies between [lo] and [hi] on [fd] and
    passes the check code of [b]. *)
Record names_inode (s : ios) (fd lo hi : Z) (b raw : list Z) : Prop := {
  ni_block : is_block 128 b;
  ni_type : bref_type b = HAMMER2_BREF_TYPE_INODE;
  ni_radix : bref_data_off b .& HAMMER2_OFF_MASK_RADIX = 10;
  ni_place : let off := bref_data_off b .&~ HAMMER2_OFF_MASK_RADIX in lo <= off /\ off + HAMMER2_INODE_BYTES <= hi;
  ni_data : dev_block s fd b = raw;
  ni_check : passes b raw
}.

(** The super-root: a PFS root for each label, under the hash of its name, in order. *)
Definition super_root (s : ios) (fd lo hi : Z) (labels : list (list Z)) (b : list Z) : Prop :=
  exists raw, names_inode s fd lo hi b raw
    /\ vd_u8 raw 80 = HAMMER2_OBJTYPE_DIRECTORY /\ vd_u8 raw 135 = HAMMER2_PFSTYPE_SUPROOT
    /\ (forall label, label ∈ labels -> exists k pfs, (k < length labels)%nat
          /\ names_inode s fd lo hi (blockset_ref raw k) pfs /\ pfs_inode label pfs
          /\ bref_key (blockset_ref raw k) = hammer2_dirhash label
          /\ bref_flags (blockset_ref raw k) = HAMMER2_BREF_FLAG_PFSROOT)
    /\ (forall k k', (k < k' < length labels)%nat -> bref_key (blockset_ref raw k) <= bref_key (blockset_ref raw k'))
    /\ (forall k, (length labels <= k < 4)%nat -> blockset_ref raw k = zeros 128).

Lemma names_inode_frame s s' fd lo hi b raw :
  fread (file_of s' fd) lo (hi - lo) = fread (file_of s fd) lo (hi - lo) -> 0 <= lo ->
  names_inode s fd lo hi b raw -> names_inode s' fd lo hi b raw.
Proof.
  intros E Hlo [A B C D F G]. split; try assumption. rewrite <- F. unfold dev_block. cbn zeta in D.
  set (off := bref_data_off b .&~ HAMMER2_OFF_MASK_RADIX) in *.
  replace off with (lo + (off - lo)) by lia. rewrite <- !(fread_fread _ lo (hi - lo)) by lia. rewrite E. reflexivity.
Qed.
Lemma super_root_frame s s' fd lo hi labels b :
  fread (file_of s' fd) lo (hi - lo) = fread (file_of s fd) lo (hi - lo) -> 0 <= lo ->
  super_root s fd lo hi labels b -> super_root s' fd lo hi labels b.
Proof.
  intros E Hlo (raw & A & B & C & D & F & G). exists raw.
  split; [exact (names_inode_frame _ _ _ _ _ _ _ E Hlo A)|]. split; [exact B|]. split; [exact C|]. split; [|auto].
  intros label Hl. destruct (D label Hl) as (k & pfs & Hk & H1 & H2). exists k, pfs.
  split; [exact Hk|]. split; [exact (names_inode_frame _ _ _ _ _ _ _ E Hlo H1)|exact H2].
Qed.

Section format.
Context {W : Win32} {WL : Win32Laws} {CRT : Crt} {CL : CrtLaws}.

Lemma pwrite_ok s fd buf off :
  0 <= off < 2 ^ 63 ->
  exists s', pwrite s fd buf off = Ran s' /\ only_in fd off (off + alen buf) s s'
    /\ file_of s' fd = fwrite (file_of s fd) off buf.
Proof.
  intros H. unfold pwrite. rewrite (proj2 (Z.leb_gt _ _)) by lia. rewrite WriteFile_some. eexists. split; [reflexivity|].
  rewrite file_of_set. split; [|reflexivity]. split; [intros fd' Hne; apply file_of_set_ne; exact Hne|].
  intros o n Ho Hd. rewrite file_of_set. apply fread_fwrite_ne; lia.
Qed.

Lemma clear_blocks_ok fd n : forall s base,
  0 <= base -> base + 65536 * Z.of_nat n < 2 ^ 62 ->
  exists s', clear_blocks n s fd base = Ran s' /\ only_in fd base (base + 65536 * Z.of_nat n) s s'.
Proof.
  induction n as [|n IH]; intros s base Hb Hm; [exists s; split; [reflexivity|apply only_in_refl]|].
  cbn [clear_blocks]. destruct (pwrite_ok s fd (zeros HAMMER2_PBUFSIZE) base) as (s1 & -> & H1 & _); [lia|]. cbn [tbind].
  destruct (IH s1 (base + HAMMER2_PBUFSIZE)) as (s2 & -> & H2); [lia|lia|]. exists s2. split; [reflexivity|].
  pose proof (proj1 (zeros_block HAMMER2_PBUFSIZE ltac:(lia))) as Hz. rewrite Hz in H1.
  apply only_in_trans with s1; eapply only_in_weaken; (exact H1 || exact H2 || lia).
Qed.

Lemma misc_ok s vol o :
  0 <= BootAreaSize o -> 0 <= AuxAreaSize o -> (2 ^ 16 | BootAreaSize o) -> (2 ^ 16 | AuxAreaSize o) ->
  let base := HAMMER2_ZONE_SEG + BootAreaSize o + AuxAreaSize o in
  base < HAMMER2_FREEMAP_LEVEL1_SIZE ->
  exists s', format_hammer2_misc s vol o HAMMER2_ZONE_SEG (HAMMER2_ZONE_SEG + BootAreaSize o) = Ran (base, s')
    /\ only_in (tv_fd vol) 0 base s s'.
Proof.
  intros Hb Ha Hdb Hda base Hlt. unfold format_hammer2_misc. fold base.
  destruct (clear_blocks_ok (tv_fd vol) (Z.to_nat HAMMER2_ZONE_BLOCKS_SEG) s 0) as (s1 & E1 & H1); [lia|lia|].
  rewrite E1. cbn [tbind].
  assert (Hd : (2 ^ 16 | base)) by (apply Z.divide_add_r; [apply Z.divide_add_r; [exists 64; reflexivity|exact Hdb]|exact Hda]).
  assert (Ht : tst base HAMMER2_PBUFMASK = false).
  { unfold tst. change HAMMER2_PBUFMASK with (Z.ones 16). rewrite land_ones_mod by lia.
    rewrite (proj2 (Z.mod_divide base (2 ^ 16) ltac:(lia)) Hd). reflexivity. }
  rewrite Ht, (proj2 (Z.ltb_lt _ _) Hlt). cbn [negb tassert tbind].
  assert (Hbase : HAMMER2_ZONE_SEG <= base) by (unfold base; lia). clearbody base.
  pose proof (Z.div_pos (base - HAMMER2_ZONE_SEG) HAMMER2_PBUFSIZE ltac:(lia) ltac:(lia)).
  pose proof (Z.mul_div_le (base - HAMMER2_ZONE_SEG) HAMMER2_PBUFSIZE ltac:(lia)).
  destruct (clear_blocks_ok (tv_fd vol) (Z.to_nat ((base - HAMMER2_ZONE_SEG) / HAMMER2_PBUFSIZE)) s1 HAMMER2_ZONE_SEG)
    as (s2 & E2 & H2); [lia|lia|]. rewrite E2. cbn [tbind].
  exists s2. split; [reflexivity|]. apply only_in_trans with s1; eapply only_in_weaken; (exact H1 || exact H2 || lia).
Qed.

(** An area that reaches the reserved part of the next 1GB trips the assertion, after the
    reserve of the volume has been cleared. *)
Lemma misc_aborts s vol o :
  HAMMER2_FREEMAP_LEVEL1_SIZE <= HAMMER2_ZONE_SEG + BootAreaSize o + AuxAreaSize o ->
  format_hammer2_misc s vol o HAMMER2_ZONE_SEG (HAMMER2_ZONE_SEG + BootAreaSize o) = Abort.
Proof.
  intros Hlt. unfold format_hammer2_misc.
  destruct (clear_blocks_ok (tv_fd vol) (Z.to_nat HAMMER2_ZONE_BLOCKS_SEG) s 0) as (s1 & E1 & _); [lia|lia|].
  rewrite E1. cbn [tbind]. rewrite (proj2 (Z.ltb_ge _ _)) by lia. destruct (negb _); reflexivity.
Qed.

(** * The inode block *)

Lemma low_bits x : 0 <= x -> x .& (HAMMER2_PBUFMASK - HAMMER2_OFF_MASK_RADIX) = x mod 2 ^ 16 - x mod 2 ^ 6.
Proof.
  intros H. change (HAMMER2_PBUFMASK - HAMMER2_OFF_MASK_RADIX) with (Z.ldiff (Z.ones 16) (Z.ones 6)).
  assert (E : Z.land x (Z.ldiff (Z.ones 16) (Z.ones 6)) = Z.ldiff (Z.land x (Z.ones 16)) (Z.ones 6)).
  { apply Z.bits_inj'. intros k Hk. rewrite !Z.ldiff_spec, !Z.land_spec, Z.ldiff_spec. apply andb_assoc. }
  rewrite E, land_ones_mod, ldiff_ones_sub by lia. rewrite Z.mod_mod_divide by (exists (2 ^ 10); reflexivity). reflexivity.
Qed.
(** The offset of inode [j] in the block at [base], and its parts. *)
Lemma inode_off_low base j :
  0 <= base -> (2 ^ 16 | base) -> 0 <= j < 64 ->
  (base + 1024 * j + 10) .& (HAMMER2_PBUFMASK - HAMMER2_OFF_MASK_RADIX) = 1024 * j
  /\ (base + 1024 * j + 10) .&~ HAMMER2_PBUFMASK = base
  /\ (base + 1024 * j + 10) .&~ HAMMER2_OFF_MASK_RADIX = base + 1024 * j.
Proof.
  intros Hb [q Hq] Hj.
  assert (E16 : (base + 1024 * j + 10) mod 2 ^ 16 = 1024 * j + 10).
  { replace (base + 1024 * j + 10) with (1024 * j + 10 + q * 2 ^ 16) by lia. rewrite Z.mod_add, Z.mod_small by lia. reflexivity. }
  assert (E6 : (base + 1024 * j + 10) mod 2 ^ 6 = 10).
  { replace (base + 1024 * j + 10) with (10 + (q * 2 ^ 10 + 16 * j) * 2 ^ 6) by lia. rewrite Z.mod_add by lia. reflexivity. }
  split; [rewrite low_bits by lia; lia|]. split.
  - change HAMMER2_PBUFMASK with (Z.ones 16). rewrite ldiff_ones_sub by lia. lia.
  - change HAMMER2_OFF_MASK_RADIX with (Z.ones 6). rewrite ldiff_ones_sub by lia. lia.
Qed.
Lemma same_block a b : 0 <= a -> 0 <= b -> a .&~ HAMMER2_PBUFMASK = b .&~ HAMMER2_PBUFMASK -> (a .^ b) .&~ HAMMER2_PBUFMASK = 0.
Proof.
  intros Ha Hb H. apply Z.bits_inj'. intros k Hk. rewrite Z.ldiff_spec, Z.lxor_spec, Z.bits_0.
  assert (K := f_equal (fun z => Z.testbit z k) H). cbn in K. rewrite !Z.ldiff_spec in K.
  destruct (Z.testbit HAMMER2_PBUFMASK k); [apply andb_false_r|]. rewrite !andb_true_r in K. rewrite K.
  rewrite xorb_nilpotent. reflexivity.
Qed.

(** The inodes of the labels before [i] are in the buffer, with their blockrefs. *)
Definition roots_at (o : mkfs_options) (now base i : Z) (buf : list Z) (roots : list (list Z)) : Prop :=
  is_block 65536 buf /\ alen roots = i
  /\ forall j, 0 <= j < i -> exists b, roots !! Z.to_nat j = Some b
       /\ inode_ref b (root_inode o now j) (base + 1024 * (j + 1)) (hammer2_dirhash (aget (Label o) j)) HAMMER2_BREF_FLAG_PFSROOT
       /\ fread buf (1024 * (j + 1)) 1024 = root_inode o now j.

Lemma format_roots_ok o now base n : forall i buf roots,
  opts_ok o -> 0 <= base < 2 ^ 40 -> (2 ^ 16 | base) -> 0 <= i -> i + Z.of_nat n = alen (Label o) -> alen (Label o) <= 4 ->
  roots_at o now base i buf roots ->
  exists buf' roots', format_roots n o now (base + 10) i (base + 1024 * (i + 1)) buf roots
                      = Ran (base + 1024 * (alen (Label o) + 1), buf', roots')
    /\ roots_at o now base (alen (Label o)) buf' roots'.
Proof.
  induction n as [|n IH]; intros i buf roots Ho Hb Hd Hi Hn Hl Hat.
  { exists buf, roots. cbn [format_roots]. replace i with (alen (Label o)) in * by lia. auto. }
  cbn [format_roots]. assert (Hda : (2 ^ 10 | base + 1024 * (i + 1))) by (destruct Hd as [q Hq]; exists (q * 2 ^ 6 + (i + 1)); lia).
  rewrite alloc_direct_inode by (assumption || lia). cbn [tbind].
  pose proof (root_inode_ok o now i Ho ltac:(lia)) as Hp. set (raw := root_inode o now i) in *.
  destruct (dirhash_shape (aget (Label o) i)) as (Hdh & _); [exact (proj2 (label_ok o i Ho ltac:(lia)))|].
  destruct (inode_bref_ok (base + 1024 * (i + 1)) raw (hammer2_dirhash (aget (Label o) i)) 0 HAMMER2_BREF_FLAG_PFSROOT)
    as (b & Eb & Hr); [lia|exact (pi_block _ _ Hp)|exact Hdh|lia|lia|].
  set (b0 := puts (zeros 128) _) in *.
  assert (E0 : bref_data_off b0 = base + 1024 * (i + 1) + 10).
  { unfold bref_data_off, vd_u64. rewrite (block_field 128 b0 32 8 8 (base + 1024 * (i + 1) + 10)); [apply u64_small; lia|reflexivity| |lia|lia| |lia].
    - unfold b0. apply puts_block; [apply zeros_block; lia|repeat constructor; lia].
    - unfold b0. open_puts. rd. reflexivity. }
  destruct (inode_off_low base (i + 1)) as (L1 & L2 & L3); [lia|exact Hd|lia|].
  destruct (inode_off_low base 0) as (_ & L0 & _); [lia|exact Hd|lia|]. replace (base + 1024 * 0 + 10) with (base + 10) in L0 by lia.
  rewrite E0, same_block by (lia || (rewrite L0, L2; reflexivity)). cbn [Z.eqb tassert tbind].
  rewrite (pi_name_key _ _ Hp), Eb, L1. cbn [tbind].
  replace (base + 1024 * (i + 1) + 1024) with (base + 1024 * (i + 1 + 1)) by lia. apply IH; try assumption; try lia.
  destruct Hat as (Hbuf & Hlen & Hj). destruct (pi_block _ _ Hp) as [Hrl Hrb].
  split; [apply fwrite_block; try assumption; lia|]. split; [unfold alen in *; rewrite length_app; cbn [length]; lia|].
  intros j Hjr. destruct (decide (j = i)) as [->|Hne].
  - exists b. split; [|split; [exact Hr|apply fread_fwrite_eq; [lia|symmetry; exact Hrl]]].
    rewrite lookup_app_r by (unfold alen in Hlen; lia). replace (Z.to_nat i - length roots)%nat with 0%nat by (unfold alen in Hlen; lia). reflexivity.
  - destruct (Hj j ltac:(lia)) as (bj & H1 & H2 & H3). exists bj. split; [apply lookup_app_l_Some; exact H1|].
    split; [exact H2|]. rewrite fread_fwrite_ne by lia. exact H3.
Qed.
(** The blockref of inode [j] names what was written for it. *)
Lemma inode_ref_names s fd base hi buf j b raw key flags :
  0 <= base < 2 ^ 40 -> (2 ^ 16 | base) -> 0 <= j < 63 -> base + 1024 * (j + 1) <= hi ->
  fread (file_of s fd) base 65536 = buf -> inode_ref b raw (base + 1024 * j) key flags -> fread buf (1024 * j) 1024 = raw ->
  names_inode s fd base hi b raw.
Proof.
  intros Hb Hd Hj Hhi Hf [A B C D E F] Hr. destruct (inode_off_low base j) as (_ & _ & L); [lia|exact Hd|lia|].
  split; try assumption.
  - rewrite C. destruct Hd as [q Hq]. change HAMMER2_OFF_MASK_RADIX with (Z.ones 6). rewrite land_ones_mod by lia.
    replace (base + 1024 * j + 10) with (10 + (q * 2 ^ 10 + 16 * j) * 2 ^ 6) by lia. rewrite Z.mod_add by lia. reflexivity.
  - cbn zeta. rewrite C, L. lia.
  - unfold dev_block. rewrite C, L, <- Hr, <- Hf. symmetry. apply fread_fread; lia.
Qed.

Lemma sorted_keys key (l : list (list Z)) i j a b :
  StronglySorted (fun a b => key a <= key b) l -> (i < j)%nat -> l !! i = Some a -> l !! j = Some b -> key a <= key b.
Proof.
  intros H. revert i j. induction H as [|x l Hs IH Hx]; intros [|i] [|j] Hij Hi Hj; try lia; try discriminate; cbn in Hi, Hj.
  - injection Hi as ->. rewrite Forall_forall in Hx. apply Hx. eapply list_elem_of_lookup_2, Hj.
  - exact (IH i j ltac:(lia) Hi Hj).
Qed.

(** The sorted blockrefs and the super-root inode over them. *)
Lemma sorted_roots o now base buf roots :
  roots_at o now base (alen (Label o)) buf roots ->
  let l := qsort_by bref_key roots in l ≡ₚ roots /\ length l = length (Label o) /\ Forall (is_block 128) l.
Proof.
  intros (_ & Hlen & Hroots) l. assert (Hp : l ≡ₚ roots) by apply qsort_perm. split; [exact Hp|].
  split; [rewrite (Permutation_length Hp); unfold alen in Hlen; lia|].
  rewrite Hp. apply Forall_lookup. intros k x Hk. pose proof (lookup_lt_Some _ _ _ Hk).
  destruct (Hroots (Z.of_nat k)) as (b' & E & Hb' & _); [unfold alen in *; lia|]. rewrite Nat2Z.id, Hk in E. injection E as ->. apply Hb'.
Qed.
Lemma super_root_made s fd o now base buf roots b :
  opts_ok o -> 0 <= base < 2 ^ 40 -> (2 ^ 16 | base) -> alen (Label o) <= 4 -> roots_at o now base (alen (Label o)) buf roots ->
  let raw := sroot_inode o now (qsort_by bref_key roots) in
  fread (file_of s fd) base 65536 = fwrite buf 0 raw -> inode_ref b raw base 0 0 ->
  super_root s fd base (base + 1024 * (alen (Label o) + 1)) (Label o) b.
Proof.
  intros Ho Hb Hd Hn Hat raw Hf Hr. destruct (sorted_roots _ _ _ _ _ Hat) as (Hp & Hll & Hblk).
  destruct Hat as (Hbuf & Hlen & Hroots). set (l := qsort_by bref_key roots) in *.
  destruct (sroot_inode_ok o now l Ho Hblk) as [S1 S2 S3 S4 S5 S6]; [unfold alen in Hn; lia|]. fold raw in S1, S2, S3, S4, S5, S6.
  exists raw. split; [|split; [exact S2|split; [exact S4|split; [|split]]]].
  - apply (inode_ref_names s fd base _ (fwrite buf 0 raw) 0 b raw 0 0); try assumption; try lia.
    + unfold alen. lia.
    + replace (base + 1024 * 0) with base by lia. exact Hr.
    + apply fread_fwrite_eq; [lia|symmetry; apply S1].
  - intros label Hlab. apply list_elem_of_lookup in Hlab as [i Hi]. pose proof (lookup_lt_Some _ _ _ Hi) as Hil.
    destruct (Hroots (Z.of_nat i)) as (bi & E & Hbi & Hin); [unfold alen; lia|]. rewrite Nat2Z.id in E.
    assert (Hmem : bi ∈ l) by (rewrite Hp; eapply list_elem_of_lookup_2; exact E).
    apply list_elem_of_lookup in Hmem as [k Hk]. pose proof (lookup_lt_Some _ _ _ Hk).
    assert (El : aget (Label o) (Z.of_nat i) = label).
    { unfold aget. rewrite Nat2Z.id, list_lookup_total_alt, Hi. reflexivity. }
    pose proof (root_inode_ok o now (Z.of_nat i) Ho ltac:(unfold alen; lia)) as Hpfs. rewrite El in Hpfs, Hbi.
    exists k, (root_inode o now (Z.of_nat i)). rewrite (S5 k bi Hk). split; [lia|]. split; [|split; [exact Hpfs|split; [apply Hbi|apply Hbi]]].
    destruct Hbi as [? ? ? ? ? ?]. eapply (inode_ref_names s fd base _ (fwrite buf 0 raw) (Z.of_nat i + 1)); try eassumption; [unfold alen in *; lia..|split; eassumption|].
    rewrite fread_fwrite_ne; [exact Hin|lia|lia|]. right. rewrite (proj1 S1). lia.
  - intros k k' Hk. destruct (lookup_lt_is_Some_2 l k) as [x Hx]; [lia|]. destruct (lookup_lt_is_Some_2 l k') as [y Hy]; [lia|].
    rewrite (S5 k x Hx), (S5 k' y Hy). apply (sorted_keys bref_key l k k'); try assumption; [apply qsort_sorted|lia].
  - intros k Hk. apply S6. lia.
Qed.

Lemma format_inode_ok s vol o now base :
  opts_ok o -> 0 <= base < 2 ^ 40 -> (2 ^ 16 | base) -> alen (Label o) <= 4 ->
  exists b s', let hi := base + 1024 * (alen (Label o) + 1) in
    format_hammer2_inode s vol o now base = Ran (b, hi, s')
    /\ only_in (tv_fd vol) base (base + 65536) s s' /\ is_block 128 b /\ super_root s' (tv_fd vol) base hi (Label o) b.
Proof.
  intros Ho Hb Hd Hn. unfold format_hammer2_inode. assert (0 <= alen (Label o)) by (unfold alen; lia).
  assert (E0 : base .&~ HAMMER2_PBUFMASK = base).
  { change HAMMER2_PBUFMASK with (Z.ones 16). rewrite ldiff_ones_sub by lia.
    rewrite (proj2 (Z.mod_divide base (2 ^ 16) ltac:(lia)) Hd). lia. }
  assert (Hd10 : (2 ^ 10 | base)) by (destruct Hd as [q Hq]; exists (q * 2 ^ 6); lia).
  rewrite E0, alloc_direct_inode by (assumption || lia). cbn [tbind]. set (b0 := puts (zeros 128) _).
  assert (Eb : bref_data_off b0 = base + 10).
  { unfold bref_data_off, vd_u64. rewrite (block_field 128 b0 32 8 8 (base + 10)); [apply u64_small; lia|reflexivity| |lia|lia| |lia].
    - unfold b0. apply puts_block; [apply zeros_block; lia|repeat constructor; lia].
    - unfold b0. open_puts. rd. reflexivity. }
  rewrite Eb. destruct (format_roots_ok o now base (length (Label o)) 0 (zeros HAMMER2_PBUFSIZE) []) as (buf & roots & E & Hat);
    try assumption; [lia|unfold alen; lia| |].
  { split; [apply zeros_block; lia|]. split; [reflexivity|]. intros j Hj. lia. }
  replace (base + 1024 * (0 + 1)) with (base + 1024) in E by lia. rewrite E. cbn [tbind].
  set (raw := sroot_inode o now (qsort_by bref_key roots)).
  destruct (sorted_roots _ _ _ _ _ Hat) as (_ & Hll & Hblk).
  destruct (sroot_inode_ok o now _ Ho Hblk) as [[Hrl Hrb] _ _ _ _ _]; [unfold alen in Hn; lia|]. fold raw in Hrl, Hrb.
  destruct (inode_bref_ok base raw 0 HAMMER2_COMP_AUTOZERO 0) as (b & Er & Hr); [lia|split; assumption|lia|lia|lia|].
  unfold b0. rewrite Er. cbn [tbind]. destruct (inode_off_low base 0) as (L1 & L2 & _); [lia|exact Hd|lia|].
  replace (base + 1024 * 0 + 10) with (base + 10) in * by lia. rewrite L1, L2.
  assert (Ea : (base + 1024 * (alen (Label o) + 1) - 1) .&~ HAMMER2_PBUFMASK = base).
  { change HAMMER2_PBUFMASK with (Z.ones 16). rewrite ldiff_ones_sub by lia. destruct Hd as [q Hq].
    replace (base + 1024 * (alen (Label o) + 1) - 1) with (1024 * (alen (Label o) + 1) - 1 + q * 2 ^ 16) by lia.
    rewrite Z.mod_add, Z.mod_small by lia. lia. }
  rewrite Ea, Z.eqb_refl. cbn [tassert tbind].
  destruct (proj1 Hat) as [Hbl Hbb].
  assert (Hlen : alen (fwrite buf (1024 * 0) raw) = 65536).
  { apply (fwrite_block 65536); [split; assumption|lia|lia|exact Hrb]. }
  destruct (pwrite_ok s (tv_fd vol) (fwrite buf (1024 * 0) raw) base) as (s' & E' & Ho' & Hf'); [lia|].
  rewrite E'. cbn [tbind]. rewrite Hlen in Ho'. exists b, s'. split; [reflexivity|]. split; [exact Ho'|].
  split; [apply Hr|]. apply (super_root_made s' (tv_fd vol) o now base buf roots b); try assumption.
  rewrite Hf'. apply fread_fwrite_eq; [lia|symmetry; exact Hlen].
Qed.
(** * The headers *)

(** [s'] differs from [s] only in the copies of the header from [i] on. *)
Definition headers_only (fd i : Z) (s s' : ios) : Prop :=
  (forall fd', fd' <> fd -> file_of s' fd' = file_of s fd')
  /\ forall off n, 0 <= off ->
       (forall j, i <= j < 4 -> off + n <= j * HAMMER2_ZONE_BYTES64 \/ j * HAMMER2_ZONE_BYTES64 + HAMMER2_PBUFSIZE <= off) ->
       fread (file_of s' fd) off n = fread (file_of s fd) off n.

Lemma write_headers_ok vol buf n : forall s i,
  alen buf = HAMMER2_PBUFSIZE -> 0 <= i -> i + Z.of_nat n = 4 ->
  exists s', write_headers n s vol buf i = Ran s' /\ headers_only (tv_fd vol) i s s'
    /\ forall j, i <= j < 4 -> header_copy s' (tv_fd vol) j
         = if j * HAMMER2_ZONE_BYTES64 <? tv_size vol then buf else header_copy s (tv_fd vol) j.
Proof.
  induction n as [|n IH]; intros s i Hb Hi Hn.
  { exists s. split; [reflexivity|]. split; [split; auto|]. intros j Hj. lia. }
  cbn [write_headers]. destruct (Z.leb_spec (tv_size vol) (i * HAMMER2_ZONE_BYTES64)) as [Hs|Hs].
  { exists s. split; [reflexivity|]. split; [split; auto|]. intros j Hj. rewrite (proj2 (Z.ltb_ge _ _)) by lia. reflexivity. }
  destruct (pwrite_ok s (tv_fd vol) buf (i * HAMMER2_ZONE_BYTES64)) as (s1 & -> & [Ho1 Hf1] & E1); [lia|]. cbn [tbind].
  destruct (IH s1 (i + 1) Hb ltac:(lia) ltac:(lia)) as (s2 & -> & [Ho2 Hf2] & Hc). exists s2. split; [reflexivity|].
  rewrite Hb in Hf1. split; [split|].
  - intros fd' Hne. rewrite Ho2, Ho1 by exact Hne. reflexivity.
  - intros off m H0 Hd. rewrite Hf2 by (try assumption; intros j Hj; apply Hd; lia). apply Hf1; [exact H0|]. apply Hd. lia.
  - intros j Hj. destruct (decide (j = i)) as [->|Hne].
    + unfold header_copy. rewrite Hf2 by (intros; lia). rewrite E1, fread_fwrite_eq by lia.
      rewrite (proj2 (Z.ltb_lt _ _)) by lia. reflexivity.
    + rewrite Hc by lia. destruct (_ <? _); [reflexivity|]. unfold header_copy. apply Hf1; lia.
Qed.

(** * One volume, and all of them *)

(** What [format_hammer2] leaves on the device of [v]. *)
Definition formatted (fso : ondisk) (free : Z) (o : mkfs_options) (s0 s : ios) (v : tvolume) : Prop :=
  exists bs alloc, is_block 512 bs
    /\ (forall j, 0 <= j < 4 -> header_copy s (tv_fd v) j
          = if j * HAMMER2_ZONE_BYTES64 <? tv_size v then volume_header fso free v o bs alloc else header_copy s0 (tv_fd v) j)
    /\ (tv_id v = 0 ->
         let base := HAMMER2_ZONE_SEG + BootAreaSize o + AuxAreaSize o in
         alloc = base + 1024 * (alen (Label o) + 1) /\ super_root s (tv_fd v) base alloc (Label o) (fread bs 0 128)).

Lemma formatted_frame fso free o s0 s s' v :
  0 <= BootAreaSize o -> 0 <= AuxAreaSize o ->
  file_of s' (tv_fd v) = file_of s (tv_fd v) -> formatted fso free o s0 s v -> formatted fso free o s0 s' v.
Proof.
  intros Hb Ha E (bs & alloc & A & B & C). exists bs, alloc. split; [exact A|]. split.
  - intros j Hj. rewrite <- (B j Hj). unfold header_copy. rewrite E. reflexivity.
  - intros Hid. destruct (C Hid) as [D F]. split; [exact D|]. eapply super_root_frame; [rewrite E; reflexivity|lia|exact F].
Qed.

(** The conditions under which formatting succeeds. *)
Record areas_ok (o : mkfs_options) : Prop := {
  ao_opts : opts_ok o;
  ao_boot : 0 <= BootAreaSize o /\ (2 ^ 16 | BootAreaSize o);
  ao_aux : 0 <= AuxAreaSize o /\ (2 ^ 16 | AuxAreaSize o);
  ao_base : HAMMER2_ZONE_SEG + BootAreaSize o + AuxAreaSize o < HAMMER2_FREEMAP_LEVEL1_SIZE;
  ao_labels : alen (Label o) <= MAXLABELS
}.

(** The part that only the root volume has. *)
Lemma format_root_ok s v o now :
  areas_ok o -> let base := HAMMER2_ZONE_SEG + BootAreaSize o + AuxAreaSize o in
  exists b s', (let? (alloc_base, s) := format_hammer2_misc s v o HAMMER2_ZONE_SEG (HAMMER2_ZONE_SEG + BootAreaSize o) in
                let? (x, s) := format_hammer2_inode s v o now alloc_base in
                let '(sroot, alloc_base) := x in Ran (sroot ++ zeros 384, alloc_base, s))
               = Ran (b ++ zeros 384, base + 1024 * (alen (Label o) + 1), s')
    /\ only_in (tv_fd v) 0 (base + 65536) s s' /\ is_block 128 b
    /\ super_root s' (tv_fd v) base (base + 1024 * (alen (Label o) + 1)) (Label o) b.
Proof.
  intros [Ho [Hb Hdb] [Ha Hda] Hlt Hn] base.
  destruct (misc_ok s v o Hb Ha Hdb Hda Hlt) as (s1 & E1 & H1). rewrite E1. cbn [tbind].
  assert (Hd : (2 ^ 16 | base)) by (apply Z.divide_add_r; [apply Z.divide_add_r; [exists 64; reflexivity|exact Hdb]|exact Hda]).
  destruct (format_inode_ok s1 v o now base Ho) as (b & s2 & E2 & H2 & H3 & H4); [unfold base; lia|exact Hd|exact Hn|].
  fold base. rewrite E2. cbn [tbind]. exists b, s2. split; [reflexivity|]. split; [|split; assumption].
  apply only_in_trans with s1; eapply only_in_weaken; (exact H1 || exact H2 || (unfold base; lia)).
Qed.

Lemma invalid_blockset : is_block 512 (puts (zeros 512) (map (fun i => (128 * i, 1%nat, HAMMER2_BREF_TYPE_INVALID)) (seqZ 0 4))).
Proof. apply puts_block; [apply zeros_block; lia|]. repeat constructor; lia. Qed.

Lemma format_hammer2_ok s fso free o now index v :
  areas_ok o -> aget (fo_volumes fso) index = v -> 2 ^ 23 <= tv_size v < 2 ^ 62 ->
  (tv_id v = 0 -> HAMMER2_ZONE_SEG + BootAreaSize o + AuxAreaSize o + 65536 <= tv_size v) ->
  exists s', format_hammer2 s fso free o now index = Ran s'
    /\ (forall fd, fd <> tv_fd v -> file_of s' fd = file_of s fd) /\ formatted fso free o s s' v.
Proof.
  intros Ha Hv Hs Hroom. set (base := HAMMER2_ZONE_SEG + BootAreaSize o + AuxAreaSize o) in *.
  unfold format_hammer2. rewrite Hv. rewrite u64_small by lia. pose proof (proj1 (zeros_block HAMMER2_PBUFSIZE ltac:(lia))) as Hz.
  destruct (pwrite_ok s (tv_fd v) (zeros HAMMER2_PBUFSIZE) (tv_size v - HAMMER2_PBUFSIZE)) as (s1 & -> & H1 & _); [lia|]. cbn [tbind].
  rewrite Hz in H1. pose proof (ao_base o Ha) as Hlt. fold base in Hlt.
  assert (Hbase : HAMMER2_ZONE_SEG <= base) by (destruct Ha as [_ [? _] [? _] _ _]; unfold base; lia).
  assert (Hmid : exists bs alloc s2,
    (if tv_id v =? HAMMER2_ROOT_VOLUME then
       let? (alloc_base, s) := format_hammer2_misc s1 v o HAMMER2_ZONE_SEG (HAMMER2_ZONE_SEG + BootAreaSize o) in
       let? (x, s) := format_hammer2_inode s v o now alloc_base in
       let '(sroot, alloc_base) := x in Ran (sroot ++ zeros 384, alloc_base, s)
     else Ran (puts (zeros 512) (map (fun i => (128 * i, 1%nat, HAMMER2_BREF_TYPE_INVALID)) (seqZ 0 4)), 0, s1)) = Ran (bs, alloc, s2)
    /\ only_in (tv_fd v) 0 (base + 65536) s1 s2 /\ is_block 512 bs /\ (tv_id v =? 0) || (alloc =? 0) = true
    /\ (tv_id v = 0 -> alloc = base + 1024 * (alen (Label o) + 1) /\ super_root s2 (tv_fd v) base alloc (Label o) (fread bs 0 128))).
  { destruct (Z.eqb_spec (tv_id v) HAMMER2_ROOT_VOLUME) as [Hid|Hid].
    - destruct (format_root_ok s1 v o now Ha) as (b & s2 & E & Ho & [Hbl Hbb] & Hsr). fold base in E, Ho, Hsr. rewrite E.
      exists (b ++ zeros 384), (base + 1024 * (alen (Label o) + 1)), s2. split; [reflexivity|]. split; [exact Ho|].
      split; [split; [unfold alen in *; rewrite length_app; unfold zeros; rewrite length_replicate; lia|]|].
      { apply Forall_app. split; [exact Hbb|]. apply (zeros_block 384). lia. }
      split; [reflexivity|]. intros _. split; [reflexivity|].
      rewrite fread_app by lia. exact Hsr.
    - eexists _, 0, s1. split; [reflexivity|]. split; [apply only_in_refl|]. split; [exact invalid_blockset|].
      split; [apply orb_true_r|]. intros Hid'. contradiction. }
  destruct Hmid as (bs & alloc & s2 & -> & H2 & Hbs & Hassert & Hroot). cbn [tbind]. rewrite Hassert. cbn [tassert tbind].
  destruct (write_headers_ok v (volume_header fso free v o bs alloc) 4 s2 0) as (s3 & E3 & [Ho3 Hf3] & Hc); [|lia|lia|].
  { apply volume_header_block; [apply Ha|exact Hbs]. }
  unfold volume_header in E3. rewrite E3. exists s3. split; [reflexivity|]. split.
  { intros fd Hne. rewrite Ho3, (proj1 H2), (proj1 H1) by exact Hne. reflexivity. }
  exists bs, alloc. split; [exact Hbs|]. split.
  - intros j Hj. rewrite Hc by lia. destruct (Z.ltb_spec (j * HAMMER2_ZONE_BYTES64) (tv_size v)); [reflexivity|].
    unfold header_copy. rewrite (proj2 H2) by lia. apply (proj2 H1); lia.
  - intros Hid. fold base. destruct (Hroot Hid) as [Hal Hsr]. split; [exact Hal|].
    pose proof (ao_labels o Ha). apply (super_root_frame s2); [|lia|exact Hsr]. apply Hf3; [lia|]. intros j Hj.
    destruct (decide (j = 0)) as [->|]; [|left]; lia.
Qed.
End format.
