(* ===== verification/NewfsMount.v ===== *)
(** A mount of formatted volumes (NewfsFormat): [hammer2_init_volumes] on the devices in
    any order builds the table of the layout. *)

From Stdlib Require Import ZArith Lia Bool Zdiv.
From stdpp Require Import base numbers list option gmap sorting.
From S2P Require Import Prelude Disk Crc Subr Xxh Check Io IoLemmas Volumes VolumesProof VolumeTable Tools Newfs NewfsBytes NewfsLayout NewfsFormat.

Section mount.
Context {W : Win32} (s : ios) (media : Z -> Z) (vols : list tvolume) (hd : tvolume -> list Z).
Context (version nv : Z) (fsid fstype : list Z).

(** What a mount reads from each device. *)
Record good_header (v : tvolume) : Prop := {
  gh_read vd0 : hammer2_read_volume_header s (tv_fd v) (media (tv_fd v)) vd0 = (0, hd v);
  gh_id : vd_volu_id (hd v) = tv_id v;
  gh_loff : vd_volu_loff (hd v) (tv_id v) = tv_offset v;
  gh_size : vd_volu_size (hd v) = tv_size v;
  gh_version : vd_version (hd v) = version;
  gh_nvolumes : vd_nvolumes (hd v) = nv;
  gh_fsid : vd_fsid (hd v) = fsid;
  gh_fstype : vd_fstype (hd v) = fstype
}.
Hypothesis Hver : 1 <= version <= 2.
Hypothesis Hids : forall k v, vols !! k = Some v -> tv_id v = Z.of_nat k.
Hypothesis Hlen : (length vols <= 64)%nat.

(** The table when the volumes with the ids [done] have been read. *)
Record built (done : list Z) (t : ivol) : Prop := {
  bt_len : alen (iv_volumes t) = 64;
  bt_table k : (k < 64)%nat ->
    aget (iv_volumes t) (Z.of_nat k)
    = match vols !! k with
      | Some v => if decide (Z.of_nat k ∈ done) then mounted_vol media v else empty_vol
      | None => empty_vol
      end;
  bt_ref : iv_ref t = None \/ iv_ref t = Some (version, nv, fsid, fstype);
  bt_root : 0 ∈ done /\ (exists v, v ∈ vols /\ tv_id v = 0 /\ iv_root t = hd v /\ iv_rootdev t = Some (tv_fd v))
            \/ iv_rootdev t = None /\ 0 ∉ done
}.

Lemma init_built : built [] init_ivol.
Proof using.
  split; [reflexivity| |left; reflexivity|].
  - intros k Hk. assert (E : aget (iv_volumes init_ivol) (Z.of_nat k) = empty_vol).
    { unfold aget, init_ivol. cbn [iv_volumes]. rewrite Nat2Z.id. apply lookup_total_replicate_2. exact Hk. }
    rewrite E. destruct (vols !! k); [|reflexivity]. rewrite decide_False by apply not_elem_of_nil. reflexivity.
  - right. split; [reflexivity|apply not_elem_of_nil].
Qed.

Lemma step_built done t v :
  v ∈ vols -> good_header v -> tv_id v ∉ done -> built done t ->
  exists t', init_volume s (dev_of media (tv_fd v)) t = Done (0, t') /\ built (tv_id v :: done) t'.
Proof using Hver Hids Hlen.
  intros Hv [Hr Hid Hlo Hsz Hve Hnv Hf Ht] Hnd [Bl Bt Bref Broot].
  apply list_elem_of_lookup in Hv as [k Hk]. pose proof (Hids k v Hk) as Hvk. pose proof (lookup_lt_Some _ _ _ Hk).
  unfold init_volume. cbn [e_bdev dev_of e_size]. rewrite Hr. cbn [iv_volumes iv_voldata iv_root iv_zone iv_rootdev iv_ref].
  rewrite Hid. rewrite (proj2 (Z.ltb_ge 0 0)) by lia. rewrite (proj2 (Z.leb_gt HAMMER2_MAX_VOLUMES (tv_id v))) by lia.
  assert (Hfree : aget (iv_volumes t) (tv_id v) = empty_vol).
  { rewrite Hvk, Bt, Hk by lia. rewrite decide_False by (rewrite <- Hvk; exact Hnd). reflexivity. }
  rewrite Hfree. cbn [empty_vol vo_id Z.eqb Pos.eqb negb].
  assert (Hi : i32 (vd_version (hd v)) = version) by (rewrite Hve; apply i32_small; lia).
  assert (Hsame : same_header (iv_ref t) (hd v) = true /\ header_ref (iv_ref t) (hd v) = (version, nv, fsid, fstype)).
  { unfold same_header, header_ref. destruct Bref as [-> | ->]; cbn [default]; rewrite Hi, Hnv, Hf, Ht; [auto|].
    rewrite !Z.eqb_refl, !bool_decide_eq_true_2 by reflexivity. auto. }
  destruct Hsame as [-> ->]. cbn [negb fst]. rewrite (proj2 (Z.ltb_ge version _)), (proj2 (Z.ltb_ge _ version)) by lia. cbn [orb].
  rewrite Hlo, Hsz. fold (dev_of media (tv_fd v)). change (Hvolume (Some (dev_of media (tv_fd v))) (tv_id v) (tv_offset v) (tv_size v)) with (mounted_vol media v).
  assert (Ht' : forall j, (j < 64)%nat -> aget (aset (iv_volumes t) (tv_id v) (mounted_vol media v)) (Z.of_nat j)
    = match vols !! j with
      | Some w => if decide (Z.of_nat j ∈ tv_id v :: done) then mounted_vol media w else empty_vol
      | None => empty_vol
      end).
  { intros j Hj. destruct (decide (j = k)) as [->|Hne].
    - rewrite Hvk, aget_aset_eq by lia. rewrite Hk. rewrite decide_True by left. reflexivity.
    - rewrite Hvk, aget_aset_ne by lia. rewrite Bt by exact Hj. destruct (vols !! j) as [w|]; [|reflexivity].
      apply decide_ext. rewrite elem_of_cons. split; [auto|]. intros [E|]; [lia|assumption]. }
  assert (Hl' : alen (aset (iv_volumes t) (tv_id v) (mounted_vol media v)) = 64) by (rewrite alen_aset; exact Bl).
  destruct (Z.eqb_spec (tv_id v) HAMMER2_ROOT_VOLUME) as [E0|E0].
  - destruct Broot as [[H0 _]|[Hrd Hn0]]; [rewrite <- E0 in H0; contradiction|].
    rewrite Hrd. cbn [kassert obind]. eexists. split; [reflexivity|].
    split; cbn [iv_volumes iv_ref iv_root iv_rootdev]; [exact Hl'|exact Ht'|right; reflexivity|].
    left. split; [rewrite <- E0; left|]. exists v. split; [eapply list_elem_of_lookup_2; exact Hk|auto].
  - eexists. split; [reflexivity|]. split; cbn [iv_volumes iv_ref iv_root iv_rootdev]; [exact Hl'|exact Ht'|right; reflexivity|].
    destruct Broot as [[H0 Hb]|[Hrd Hn0]]; [left; split; [right; exact H0|exact Hb]|right].
    split; [exact Hrd|]. rewrite not_elem_of_cons. auto.
Qed.

Lemma loop_built l : forall done t,
  (forall v, v ∈ l -> v ∈ vols /\ good_header v) -> NoDup (done ++ map tv_id l) -> built done t ->
  exists done' t', init_loop s (map (fun v => dev_of media (tv_fd v)) l) t = Done (0, t') /\ built done' t'
    /\ forall i, i ∈ done' <-> i ∈ done \/ i ∈ map tv_id l.
Proof using Hver Hids Hlen.
  induction l as [|v l IH]; intros done t Hl Hnd Hb.
  { exists done, t. split; [reflexivity|]. split; [exact Hb|]. intros i. cbn. rewrite elem_of_nil. tauto. }
  destruct (Hl v ltac:(left)) as [Hv Hg]. cbn [map] in Hnd.
  assert (Hp : done ++ tv_id v :: map tv_id l ≡ₚ (tv_id v :: done) ++ map tv_id l) by (symmetry; apply Permutation_middle).
  rewrite Hp in Hnd. cbn [app] in Hnd. apply NoDup_cons in Hnd as [Hn Hnd].
  destruct (step_built done t v Hv Hg) as (t1 & E1 & H1); [rewrite elem_of_app in Hn; tauto|exact Hb|].
  destruct (IH (tv_id v :: done) t1) as (done' & t' & E2 & H2 & Hin).
  { intros w Hw. apply Hl. right. exact Hw. }
  { cbn [app]. apply NoDup_cons. auto. }
  { exact H1. }
  exists done', t'. cbn [map init_loop]. rewrite E1. cbn [obind Z.eqb negb]. split; [exact E2|]. split; [exact H2|].
  intros i. rewrite Hin. cbn [map]. rewrite !elem_of_cons. tauto.
Qed.

(** With all of them read. *)
Lemma built_table done t :
  built done t -> (forall v, v ∈ vols -> tv_id v ∈ done) -> iv_volumes t = mount_table media vols (64 - length vols).
Proof using Hids Hlen.
  intros [Bl Bt _ _] Hall. unfold alen in Bl.
  apply list_eq_same_length with 64%nat; [|lia|].
  { unfold mount_table. rewrite length_app, length_map, length_replicate. lia. }
  intros k x y Hk Hx Hy. specialize (Bt k Hk). unfold aget in Bt. rewrite Nat2Z.id, list_lookup_total_alt, Hx in Bt. cbn in Bt. subst x.
  unfold mount_table in Hy. destruct (vols !! k) as [v|] eqn:E.
  - rewrite lookup_app_l in Hy by (rewrite length_map; eapply lookup_lt_Some; exact E).
    rewrite list_lookup_fmap, E in Hy. injection Hy as <-. rewrite decide_True; [reflexivity|].
    rewrite <- (Hids k v E). apply Hall. eapply list_elem_of_lookup_2. exact E.
  - apply lookup_ge_None_1 in E. rewrite lookup_app_r in Hy by (rewrite length_map; exact E).
    rewrite length_map in Hy. apply lookup_replicate in Hy as [-> _]. reflexivity.
Qed.

Lemma init_volumes_built n total devs v0 :
  (forall v, v ∈ vols -> good_header v) -> devs ≡ₚ map (fun v => dev_of media (tv_fd v)) vols ->
  vols !! 0%nat = Some v0 -> laid media n 0 0 vols total -> total < 2 ^ 64 - 1 -> n = alen vols ->
  root_header_ok (hd v0) n total vols ->
  exists t, hammer2_init_volumes s devs = Done (0, t)
    /\ iv_volumes t = mount_table media vols (64 - length vols) /\ iv_root t = hd v0 /\ iv_rootdev t = Some (tv_fd v0).
Proof using Hver Hids Hlen.
  intros Hg Hp Hv0 Hl Ht Hn Hroot. apply Permutation_map_inv in Hp as (l & -> & Hp).
  assert (Hid : map tv_id l ≡ₚ map tv_id vols) by (rewrite Hp; reflexivity).
  assert (Hseq : NoDup (map tv_id vols)).
  { apply NoDup_alt. intros i j x Hi Hj. apply list_lookup_fmap_Some in Hi as (v & -> & Hi). apply list_lookup_fmap_Some in Hj as (w & E & Hj).
    rewrite (Hids _ _ Hi), (Hids _ _ Hj) in E. lia. }
  destruct (loop_built l [] init_ivol) as (done & t & E & Hb & Hin).
  { intros v Hv. rewrite <- Hp in Hv. split; [exact Hv|apply Hg; exact Hv]. }
  { cbn [app]. rewrite Hid. exact Hseq. }
  { exact init_built. }
  assert (Hall : forall v, v ∈ vols -> tv_id v ∈ done).
  { intros v Hv. apply Hin. right. rewrite Hid. apply list_elem_of_fmap_2. exact Hv. }
  pose proof (built_table done t Hb Hall) as Htab. pose proof (list_elem_of_lookup_2 _ _ _ Hv0) as Hin0.
  destruct (bt_root _ _ Hb) as [[_ (w & Hw & Hw0 & Hrt & Hrd)]|[_ Hno]].
  2: { exfalso. apply Hno. specialize (Hall v0 Hin0). rewrite (Hids 0%nat v0 Hv0) in Hall. exact Hall. }
  assert (w = v0) as ->.
  { apply list_elem_of_lookup in Hw as [k Hk]. rewrite (Hids k w Hk) in Hw0. assert (k = 0%nat) as -> by lia. congruence. }
  exists t. split; [|auto]. unfold hammer2_init_volumes. rewrite E. cbn [obind Z.eqb negb]. rewrite Hrt.
  rewrite (gh_version v0 (Hg v0 Hin0)). rewrite (proj2 (Z.eqb_neq version 0)) by lia. rewrite Htab.
  assert (Hn0 : 0 < n <= 64) by (pose proof (lookup_lt_Some _ _ _ Hv0); unfold alen in Hn; lia).
  rewrite (mount_verify_laid media (hd v0) n total vols _ Hl Ht Hn Hn0 Hroot). reflexivity.
Qed.
End mount.

