(* ===== verification/NewfsTheorems.v ===== *)
(** newfs_hammer2 (Newfs) makes a file system that mounts: the headers of all volumes, the
    super-root and the PFS roots are where the driver looks for them and pass its
    checks; and what is left of an older file system where newfs does not write. *)

From Stdlib Require Import ZArith Lia Bool Zdiv.
From stdpp Require Import base numbers list option gmap sorting.
From S2P Require Import Prelude Disk Crc Subr Xxh Check Io IoLemmas IoSpec Volumes VolumesProof VolumeTable Tools Newfs NewfsBytes NewfsLayout NewfsFormat NewfsMount.

(** * Sizes *)

Lemma halve_range n x limit : 0 <= x -> 0 <= halve n x limit <= x.
Proof.
  revert x. induction n as [|n IH]; intros x Hx; cbn [halve]; [lia|]. destruct (_ <? _); [|lia].
  rewrite Z.shiftr_div_pow2 by lia. pose proof (Z.div_pos x (2 ^ 1) Hx ltac:(lia)).
  specialize (IH (x / 2 ^ 1) ltac:(lia)). pose proof (Z.div_le_upper_bound x (2 ^ 1) x ltac:(lia) ltac:(lia)). lia.
Qed.
(** 32 turns are enough: the loop of the code ends. *)
Lemma halve_ends n x limit : 0 <= limit -> 0 <= x < 2 ^ Z.of_nat n -> halve n x limit <= limit.
Proof.
  intros Hl. revert x. induction n as [|n IH]; intros x Hx; [cbn in *; lia|]. cbn [halve]. destruct (Z.ltb_spec limit x); [|lia].
  apply IH. rewrite Z.shiftr_div_pow2 by lia. rewrite Nat2Z.inj_succ, Z.pow_succ_r in Hx by lia.
  split; [apply Z.div_pos; lia|apply Z.div_lt_upper_bound; lia].
Qed.

Lemma volume_round_range x : 0 <= x < 2 ^ 62 -> x <= volume_round x < x + 2 ^ 23 /\ (2 ^ 23 | volume_round x).
Proof.
  intros Hx. unfold volume_round. rewrite u64_small by lia. change HAMMER2_VOLUME_ALIGNMASK64 with (Z.ones 23).
  apply roundup_mask. lia.
Qed.
(** A multiple of 8MB that is not above a multiple of 8MB. *)
Lemma volume_round_max x m : 0 <= x <= m -> m < 2 ^ 62 -> (2 ^ 23 | m) -> volume_round x <= m.
Proof.
  intros Hx Hm [q Hq]. destruct (volume_round_range x) as [A [r Hr]]; [lia|]. nia.
Qed.

Definition area_given (x max : Z) : Prop := 0 <= x <= max.
Lemma boot_area_range given total :
  area_given given (2 ^ 28) -> 0 <= total ->
  let b := boot_area_size given total in 2 ^ 23 <= b <= 2 ^ 28 /\ (2 ^ 23 | b).
Proof.
  intros Hg Ht b. unfold b, boot_area_size, area_given in *. set (size := if given =? 0 then _ else _).
  assert (Hs : 2 ^ 23 <= size <= 2 ^ 28).
  { unfold size. pose proof (halve_range 32 HAMMER2_BOOT_NOM_BYTES (total / 20) ltac:(lia)) as H.
    destruct (given =? 0); cbn zeta; destruct (Z.ltb_spec (halve 32 HAMMER2_BOOT_NOM_BYTES (total / 20)) HAMMER2_BOOT_MIN_BYTES);
      destruct (Z.ltb_spec given HAMMER2_BOOT_MIN_BYTES); lia. }
  destruct (volume_round_range size) as [A B]; [lia|]. pose proof (volume_round_max size (2 ^ 28) ltac:(lia) ltac:(lia) ltac:(exists 32; reflexivity)).
  split; [lia|exact B].
Qed.
Lemma aux_area_range given total :
  area_given given (2 ^ 30) -> 0 <= total ->
  let b := aux_area_size given total in 2 ^ 23 <= b <= 2 ^ 30 /\ (2 ^ 23 | b).
Proof.
  intros Hg Ht b. unfold b, aux_area_size, area_given in *. set (size := if given =? 0 then _ else _).
  assert (Hs : 2 ^ 23 <= size <= 2 ^ 30).
  { unfold size. pose proof (halve_range 32 HAMMER2_AUX_NOM_BYTES (total / 20) ltac:(lia)) as H.
    destruct (given =? 0); cbn zeta; destruct (Z.ltb_spec (halve 32 HAMMER2_AUX_NOM_BYTES (total / 20)) HAMMER2_AUX_MIN_BYTES);
      destruct (Z.ltb_spec given HAMMER2_AUX_MIN_BYTES); lia. }
  destruct (volume_round_range size) as [A B]; [lia|]. pose proof (volume_round_max size (2 ^ 30) ltac:(lia) ltac:(lia) ltac:(exists 128; reflexivity)).
  split; [lia|exact B].
Qed.

Lemma reserved_range total : 0 < total <= 2 ^ 63 -> HAMMER2_ZONE_SEG <= reserved_size total.
Proof.
  intros H. unfold reserved_size. rewrite (u64_small (total + HAMMER2_FREEMAP_LEVEL1_MASK)) by lia.
  pose proof (Z.div_le_lower_bound (total + HAMMER2_FREEMAP_LEVEL1_MASK) HAMMER2_FREEMAP_LEVEL1_SIZE 1 ltac:(lia) ltac:(lia)).
  pose proof (Z.div_le_upper_bound (total + HAMMER2_FREEMAP_LEVEL1_MASK) HAMMER2_FREEMAP_LEVEL1_SIZE (2 ^ 34) ltac:(lia) ltac:(lia)).
  rewrite u64_small by lia. lia.
Qed.

(** * Formatting all volumes *)

(** The end of all volumes. *)
Definition total_size (media : Z -> Z) (fds : list Z) : Z := layout_end media (alen fds) 0 0 fds.
(** The options after [adjust_options] with the labels of [o1]. *)
Definition final_options (media : Z -> Z) (fds : list Z) (o o1 : mkfs_options) : mkfs_options :=
  let total := total_size media fds in
  set_areas (boot_area_size (BootAreaSize o) total) (aux_area_size (AuxAreaSize o) total) o1.

(** What newfs needs: up to 64 different devices that are large enough, options in the
    ranges that its command line accepts, room for the areas. *)
Record newfs_fits `{!Crt} (media : Z -> Z) (fds : list Z) (o o1 : mkfs_options) : Prop := {
  nf_count : 1 <= alen fds <= HAMMER2_MAX_VOLUMES;
  nf_version : Hammer2Version o = 2 \/ Hammer2Version o = 1 /\ alen fds = 1;
  nf_media : media_ok media (alen fds) 0 fds;
  nf_check fd : fd ∈ fds -> check_volume fd = Ran (media fd) /\ 0 <= fd;
  nf_distinct : NoDup (map fstat_id fds);
  nf_labels : default_label o = Ran o1 /\ alen (Label o1) <= MAXLABELS;
  nf_opts : opts_ok o1;
  nf_boot : area_given (BootAreaSize o) (2 ^ 28);
  nf_aux : area_given (AuxAreaSize o) (2 ^ 30);
  nf_room : let o' := final_options media fds o o1 in
    HAMMER2_ZONE_SEG + BootAreaSize o' + AuxAreaSize o' < HAMMER2_FREEMAP_LEVEL1_SIZE
    /\ reserved_size (total_size media fds) + BootAreaSize o' + AuxAreaSize o' <= total_size media fds
}.

Lemma default_label_areas o o1 :
  default_label o = Ran o1 -> Hammer2Version o1 = Hammer2Version o /\ BootAreaSize o1 = BootAreaSize o /\ AuxAreaSize o1 = AuxAreaSize o.
Proof.
  unfold default_label, add_label, tassert. repeat destruct (_ =? _); try destruct (_ <? _); cbn; intros [= <-]; auto.
Qed.

Section newfs.
Context {W : Win32} {WL : Win32Laws} {CRT : Crt} {CL : CrtLaws}.

Lemma format_loop_ok fso free o now s0 rest n : forall s i pre cur,
  areas_ok o -> fo_volumes fso = pre ++ cur ++ rest -> length cur = n -> i = alen pre ->
  NoDup (map tv_fd (pre ++ cur)) ->
  (forall v, v ∈ cur -> 2 ^ 23 <= tv_size v < 2 ^ 62
     /\ (tv_id v = 0 -> HAMMER2_ZONE_SEG + BootAreaSize o + AuxAreaSize o + 65536 <= tv_size v)) ->
  (forall v, v ∈ pre -> formatted fso free o s0 s v) ->
  (forall v, v ∈ cur -> file_of s (tv_fd v) = file_of s0 (tv_fd v)) ->
  exists s', format_loop n s fso free o now i = Ran s' /\ forall v, v ∈ pre ++ cur -> formatted fso free o s0 s' v.
Proof.
  induction n as [|n IH]; intros s i pre cur Ha Hv Hn Hi Hnd Hok Hpre Hcur.
  { destruct cur; [|discriminate Hn]. exists s. split; [reflexivity|]. rewrite app_nil_r. exact Hpre. }
  destruct cur as [|v cur]; [discriminate Hn|]. cbn [format_loop]. injection Hn as Hn.
  destruct (Hok v ltac:(left)) as [Hs Hroom].
  destruct (format_hammer2_ok s fso free o now i v Ha) as (s1 & E1 & Hother & Hf); [|exact Hs|exact Hroom|].
  { rewrite Hv. cbn [app]. apply aget_mid. exact Hi. }
  assert (Hnd' : forall w, w ∈ pre ++ cur -> tv_fd w <> tv_fd v).
  { intros w Hw E. rewrite map_app in Hnd. cbn [map] in Hnd. rewrite <- Permutation_middle in Hnd. apply NoDup_cons in Hnd as [Hnd _].
    apply Hnd. rewrite <- map_app, <- E. apply list_elem_of_fmap_2. exact Hw. }
  rewrite E1. cbn [tbind].
  destruct (IH s1 (i + 1) (pre ++ [v]) cur) as (s' & E' & Hall); try assumption.
  - rewrite Hv, <- app_assoc. reflexivity.
  - unfold alen in *. rewrite length_app. cbn [length]. lia.
  - rewrite <- app_assoc. exact Hnd.
  - intros w Hw. apply Hok. right. exact Hw.
  - intros w Hw. apply elem_of_app in Hw as [Hw|Hw].
    + apply (formatted_frame fso free o s0 s); [apply Ha|apply Ha| |apply Hpre; exact Hw].
      apply Hother, Hnd', elem_of_app. left. exact Hw.
    + apply list_elem_of_singleton in Hw as ->. destruct Hf as (bs & alloc & B1 & B2 & B3). exists bs, alloc.
      split; [exact B1|]. split; [|exact B3]. intros j Hj. rewrite (B2 j Hj). destruct (_ <? _); [reflexivity|].
      unfold header_copy. rewrite Hcur by left. reflexivity.
  - intros w Hw. rewrite Hother by (apply Hnd', elem_of_app; right; exact Hw). apply Hcur. right. exact Hw.
  - exists s'. split; [exact E'|]. rewrite <- app_assoc in Hall. exact Hall.
Qed.

(** The areas that are chosen, and that the first volume has room for them. *)
Lemma fits_areas media fds o o1 :
  newfs_fits media fds o o1 -> let o' := final_options media fds o o1 in
  0 < total_size media fds <= 2 ^ 63 /\ areas_ok o'
  /\ forall v, v ∈ layout media (alen fds) 0 0 fds -> 2 ^ 23 <= tv_size v < 2 ^ 62
       /\ (tv_id v = 0 -> HAMMER2_ZONE_SEG + BootAreaSize o' + AuxAreaSize o' + 65536 <= tv_size v).
Proof.
  intros [Hc Hv Hm Hck Hd [Hlab Hl4] Ho Hb Ha Hr] o'. fold o' in Hr. destruct Hr as [Hbase Hspace].
  pose proof (layout_laid media (alen fds) fds 0 0 ltac:(lia) Hm ltac:(exists 0; reflexivity)) as Hlaid.
  fold (total_size media fds) in Hlaid.
  pose proof (layout_end_range media (alen fds) fds 0 0 Hm) as Hend. fold (total_size media fds) in Hend.
  assert (Hsz : forall v, v ∈ layout media (alen fds) 0 0 fds -> 2 ^ 23 <= tv_size v < 2 ^ 62).
  { intros v Hin. apply list_elem_of_lookup in Hin as [k Hk]. destruct (layout_lookup _ _ _ _ _ _ _ Hk) as (A & B & C).
    pose proof (Hm k (tv_fd v) A) as [Hmax Hmin]. rewrite <- B in Hmin.
    destruct (dev_size_facts media (tv_id v =? alen fds - 1) (tv_fd v)) as (D & [q E] & F); [destruct (_ =? _); lia|].
    pose proof (laid_sizes _ _ _ _ _ _ Hlaid v ltac:(eapply list_elem_of_lookup_2; exact Hk)). rewrite C in *. nia. }
  destruct (layout media (alen fds) 0 0 fds) as [|v0 vs] eqn:El.
  { apply (f_equal length) in El. rewrite layout_length in El. cbn in El. unfold alen in Hc. lia. }
  destruct (laid_head _ _ _ _ _ _ _ Hlaid) as (Hid0 & Hoff0 & Hd0).
  pose proof (proj2 (laid_range _ _ _ _ _ _ Hlaid) v0 ltac:(left)) as Hrange0. pose proof (Hsz v0 ltac:(left)) as Hs0.
  assert (Ht : 0 < total_size media fds <= 2 ^ 63) by lia.
  destruct (boot_area_range (BootAreaSize o) (total_size media fds) Hb ltac:(lia)) as [Hbr [qb Hbd]].
  destruct (aux_area_range (AuxAreaSize o) (total_size media fds) Ha ltac:(lia)) as [Har [qa Had]].
  change (boot_area_size (BootAreaSize o) (total_size media fds)) with (BootAreaSize o') in Hbr, Hbd.
  change (aux_area_size (AuxAreaSize o) (total_size media fds)) with (AuxAreaSize o') in Har, Had.
  split; [exact Ht|]. split.
  { split; [destruct Ho; split; assumption|split; [lia|exists (qb * 2 ^ 7); lia]|split; [lia|exists (qa * 2 ^ 7); lia]|exact Hbase|exact Hl4]. }
  intros v Hin. split; [exact (Hsz v Hin)|]. intros Hid.
  assert (v = v0) as ->.
  { apply list_elem_of_lookup in Hin as [k Hk]. rewrite <- El in Hk. destruct (layout_lookup _ _ _ _ _ _ _ Hk) as (_ & B & _).
    rewrite El in Hk. destruct k; [cbn in Hk; congruence|lia]. }
  pose proof (reserved_range _ Ht) as Hres. destruct Hd0 as [q0 Hq0].
  assert (HAMMER2_ZONE_SEG + BootAreaSize o' + AuxAreaSize o' <= tv_size v0); [|nia].
  destruct vs as [|v1 vs].
  - inversion Hlaid as [|? ? ? ? ? ? ? ? ? ? ? ? Hnil]; subst. inversion Hnil; subst. lia.
  - inversion Hlaid as [|? ? ? ? ? ? ? ? ? ? ? Hbig Hnext]; subst.
    assert (0 <> alen fds - 1) as Hne.
    { apply (f_equal length) in El. rewrite layout_length in El. cbn in El. unfold alen. lia. }
    destruct (Hbig ltac:(lia)) as [q Hq]. nia.
Qed.
(** The volume set of newfs. *)
Definition newfs_set (media : Z -> Z) (fds : list Z) (o : mkfs_options) : ondisk :=
  Ondisk (Hammer2Version o) (alen fds)
    (layout media (alen fds) 0 0 fds ++ replicate (64 - length fds) hammer2_init_volume) (total_size media fds)
    (replicate 16 0) (replicate 16 0).

Lemma fits_laid media fds o o1 :
  newfs_fits media fds o o1 -> laid media (alen fds) 0 0 (layout media (alen fds) 0 0 fds) (total_size media fds).
Proof. intros H. apply layout_laid; [lia|apply (nf_media _ _ _ _ H)|exists 0; reflexivity]. Qed.

Lemma layout_fds media n i off fds : map tv_fd (layout media n i off fds) = fds.
Proof. revert i off. induction fds as [|fd fds IH]; intros i off; [reflexivity|]. cbn. f_equal. apply IH. Qed.

Lemma mkfs_runs s media fds o o1 now :
  newfs_fits media fds o o1 -> let o' := final_options media fds o o1 in
  exists s' free, hammer2_mkfs s fds o now = Ran s'
    /\ forall v, v ∈ layout media (alen fds) 0 0 fds -> formatted (newfs_set media fds o) free o' s s' v.
Proof.
  intros H o'. pose proof (fits_areas _ _ _ _ H) as (Ht & Hareas & Hvols). fold o' in Hareas, Hvols.
  pose proof (fits_laid _ _ _ _ H) as Hlaid. destruct H as [Hc Hv Hm Hck Hd [Hlab Hl4] Ho Hb Ha [Hbase Hspace]]. fold o' in Hbase, Hspace.
  unfold hammer2_mkfs. assert (Hlen : (length fds <= 64)%nat) by (unfold alen in Hc; lia).
  assert (Hinst : install_loop (alen fds) 0 fds (fo_volumes hammer2_init_ondisk) 0
    = Ran (layout media (alen fds) 0 0 fds ++ replicate (64 - length fds) hammer2_init_volume, total_size media fds)).
  { unfold hammer2_init_ondisk. cbn [fo_volumes]. replace 64%nat with (length fds + (64 - length fds))%nat at 1 by lia.
    apply (install_loop_layout media (alen fds) (64 - length fds) fds 0 [] 0); try assumption; try lia; [reflexivity|].
    intros fd Hfd. apply Hck. exact Hfd. }
  rewrite Hinst. cbn [tbind]. fold (newfs_set media fds o).
  assert (Hver : tool_verify_volumes (newfs_set media fds o) None = Ran (newfs_set media fds o)).
  { apply (tool_verify_laid media); try assumption; try lia.
    - unfold alen. rewrite layout_length. reflexivity.
    - apply Forall_forall. intros v Hin. apply (list_elem_of_fmap_2 tv_fd) in Hin. rewrite layout_fds in Hin.
      destruct (Hck _ Hin). split; [assumption|lia].
    - rewrite layout_fds. exact Hd. }
  rewrite Hver. cbn [tbind]. unfold adjust_options. rewrite Hlab. cbn [tbind fo_total_size newfs_set].
  destruct (default_label_areas _ _ Hlab) as (_ & Eb & Ea). rewrite Eb, Ea.
  change (set_areas (boot_area_size (BootAreaSize o) (total_size media fds)) (aux_area_size (AuxAreaSize o) (total_size media fds)) o1) with o'.
  pose proof (reserved_range _ Ht). destruct (ao_boot _ Hareas) as [Hb0 _]. destruct (ao_aux _ Hareas) as [Ha0 _].
  set (free := u64 _). assert (Hfree : 0 <= free < 2 ^ 63) by (unfold free; rewrite u64_small; lia).
  rewrite (proj2 (Z.leb_gt (2 ^ 63) free)) by lia. cbn [errx tbind].
  destruct (format_loop_ok (newfs_set media fds o) free o' now s (replicate (64 - length fds) hammer2_init_volume) (length fds) s 0 []
    (layout media (alen fds) 0 0 fds) Hareas) as (s' & E & Hf).
  - reflexivity.
  - apply layout_length.
  - reflexivity.
  - cbn [app]. rewrite layout_fds. exact (NoDup_fmap_1 _ _ Hd).
  - exact Hvols.
  - intros v Hin. apply not_elem_of_nil in Hin. contradiction.
  - reflexivity.
  - exists s', free. split; [exact E|exact Hf].
Qed.

(** * The headers a mount reads *)

(** No valid header of an older file system where newfs does not write one: a device can
    be longer than its volume. *)
Definition no_stale (s : ios) (media : Z -> Z) (fds : list Z) : Prop :=
  forall v, v ∈ layout media (alen fds) 0 0 fds -> forall j, 0 <= j < 4 ->
    tv_size v <= j * HAMMER2_ZONE_BYTES64 < media (tv_fd v) -> header_valid (header_copy s (tv_fd v) j) = false.

Lemma formatted_newest fso free o s s' v bs alloc media :
  opts_ok o -> is_block 512 bs -> 0 < tv_size v <= media (tv_fd v) ->
  (forall j, 0 <= j < 4 -> header_copy s' (tv_fd v) j
     = if j * HAMMER2_ZONE_BYTES64 <? tv_size v then volume_header fso free v o bs alloc else header_copy s (tv_fd v) j) ->
  (forall j, 0 <= j < 4 -> tv_size v <= j * HAMMER2_ZONE_BYTES64 < media (tv_fd v) -> header_valid (header_copy s (tv_fd v) j) = false) ->
  newest s' (tv_fd v) (media (tv_fd v)) 4 0 (volume_header fso free v o bs alloc).
Proof.
  intros Ho Hbs Hs Hc Hst. pose proof (header_is_valid fso free v o bs alloc Ho Hbs) as Hval.
  pose proof (Hc 0 ltac:(lia)) as H0. rewrite (proj2 (Z.ltb_lt _ _)) in H0 by lia.
  right. split; [lia|]. split; [split; [lia|rewrite H0; exact Hval]|]. split; [symmetry; exact H0|].
  intros j Hj [Hu Hv]. rewrite (Hc j Hj) in Hv |- *. destruct (Z.ltb_spec (j * HAMMER2_ZONE_BYTES64) (tv_size v)); [lia|].
  rewrite Hst in Hv by lia. discriminate Hv.
Qed.

Lemma layout_nth media fds o o1 v :
  newfs_fits media fds o o1 -> v ∈ layout media (alen fds) 0 0 fds ->
  0 <= tv_id v < alen fds /\ aget (layout media (alen fds) 0 0 fds) (tv_id v) = v
  /\ 0 <= tv_offset v /\ tv_offset v + tv_size v <= total_size media fds /\ 0 < tv_size v <= media (tv_fd v).
Proof.
  intros H Hin. pose proof (fits_laid _ _ _ _ H) as Hlaid.
  pose proof (proj2 (laid_range _ _ _ _ _ _ Hlaid) v Hin) as Hr. pose proof (laid_sizes _ _ _ _ _ _ Hlaid v Hin) as Hs.
  apply list_elem_of_lookup in Hin as [k Hk]. destruct (layout_lookup _ _ _ _ _ _ _ Hk) as (Hfd & Hid & _).
  pose proof (lookup_lt_Some _ _ _ Hfd) as Hlt. split; [unfold alen; lia|]. split; [|lia].
  unfold aget. rewrite Hid, list_lookup_total_alt. replace (Z.to_nat (0 + Z.of_nat k)) with k by lia. rewrite Hk. reflexivity.
Qed.
(** The same for an index. *)
Lemma layout_at media fds o o1 i :
  newfs_fits media fds o o1 -> 0 <= i < alen fds ->
  aget (fo_volumes (newfs_set media fds o)) i = aget (layout media (alen fds) 0 0 fds) i
  /\ aget (layout media (alen fds) 0 0 fds) i ∈ layout media (alen fds) 0 0 fds.
Proof.
  intros H Hi. split.
  - unfold aget. cbn [fo_volumes newfs_set]. apply lookup_total_app_l. rewrite layout_length. unfold alen in Hi. lia.
  - apply aget_elem. unfold alen in *. rewrite layout_length. exact Hi.
Qed.

(** What a header says about the volume set. *)
Lemma header_table media fds o o1 v free bs alloc :
  newfs_fits media fds o o1 -> v ∈ layout media (alen fds) 0 0 fds -> is_block 512 bs ->
  let vols := layout media (alen fds) 0 0 fds in
  let h := volume_header (newfs_set media fds o) free v (final_options media fds o o1) bs alloc in
  vd_volu_id h = tv_id v
  /\ (Hammer2Version o = 2 /\ vd_nvolumes h = alen fds /\ vd_total_size h = total_size media fds
       /\ (forall i, 0 <= i < 64 -> vd_volu_loff h i = if i <? alen fds then tv_offset (aget vols i) else OFF_NONE)
      \/ Hammer2Version o = 1 /\ alen fds = 1 /\ vd_nvolumes h = 0 /\ vd_total_size h = 0
         /\ (forall i, 0 <= i < 64 -> vd_volu_loff h i = 0)).
Proof.
  intros H Hin Hbs vols h. pose proof (fits_areas _ _ _ _ H) as (Ht & Hareas & _).
  pose proof (ao_opts _ Hareas) as Ho. pose proof (nf_count _ _ _ _ H) as Hc.
  destruct (layout_nth _ _ _ _ _ H Hin) as (Hid & _ & _).
  destruct (default_label_areas _ _ (proj1 (nf_labels _ _ _ _ H))) as (Ev & _ & _).
  set (o' := final_options media fds o o1) in *. assert (Ev' : Hammer2Version o' = Hammer2Version o) by exact Ev.
  destruct (nf_version _ _ _ _ H) as [E|[E E1]].
  - destruct (header_v2_small (newfs_set media fds o) free v o' bs alloc Ho Hbs) as (A & B & D); [lia|lia|cbn; lia|cbn; lia|].
    split; [exact A|]. left. split; [exact E|]. split; [exact B|]. split; [exact D|]. intros i Hi.
    pose proof (header_v2_loff (newfs_set media fds o) free v o' bs alloc Ho Hbs i ltac:(lia) Hi) as L. cbn zeta in L.
    change (fo_nvolumes (newfs_set media fds o)) with (alen fds) in L. destruct (Z.ltb_spec i (alen fds)) as [Hlt|Hge]; [|apply L; lia].
    destruct (layout_at _ _ _ _ i H ltac:(lia)) as [E2 Hm]. rewrite E2 in L. destruct (layout_nth _ _ _ _ _ H Hm) as (_ & _ & Hr). apply L. lia.
  - assert (F : forall off (k : nat) w, w = Z.of_nat k -> 59 <= off /\ off + w <= 64 \/ 192 <= off /\ off + w <= 504
      \/ 3584 <= off /\ off + w <= 4096 -> le_value (vd_bytes h off w) = 0).
    { intros off k w Hw Hd. apply (header_v1_field (newfs_set media fds o) free v o' bs alloc Ho Hbs off k w Hw ltac:(lia) Hd). }
    unfold vd_volu_id, vd_nvolumes, vd_total_size, vd_volu_loff, vd_u8, vd_u64.
    rewrite (F 59 1%nat 1), (F 60 1%nat 1), (F 192 8%nat 8) by lia. split; [change (u8 0) with 0; lia|]. right.
    split; [exact E|]. split; [exact E1|]. split; [reflexivity|]. split; [reflexivity|]. intros i Hi. rewrite (F _ 8%nat 8) by lia. reflexivity.
Qed.

(** A header makes its device good for a mount. *)
Lemma header_good media s' fds o o1 v free bs alloc (hd : tvolume -> list Z) :
  newfs_fits media fds o o1 -> v ∈ layout media (alen fds) 0 0 fds -> is_block 512 bs ->
  hd v = volume_header (newfs_set media fds o) free v (final_options media fds o o1) bs alloc ->
  newest s' (tv_fd v) (media (tv_fd v)) 4 0 (hd v) ->
  good_header s' media hd (Hammer2Version o) (if Hammer2Version o =? 2 then alen fds else 0)
    (Hammer2_VolFSID o1) (Hammer2_FSType o1) v
  /\ (tv_id v = 0 -> root_header_ok (hd v) (alen fds) (total_size media fds) (layout media (alen fds) 0 0 fds)).
Proof.
  intros H Hin Hbs Hhd Hn. pose proof (fits_areas _ _ _ _ H) as (Ht & Hareas & _). pose proof (ao_opts _ Hareas) as Ho.
  destruct (header_table _ _ _ _ v free bs alloc H Hin Hbs) as [Tid Tv]. destruct (layout_nth _ _ _ _ _ H Hin) as (Hid & Hag & Hr).
  destruct (default_label_areas _ _ (proj1 (nf_labels _ _ _ _ H))) as (Ev & _ & _). pose proof (nf_count _ _ _ _ H).
  pose proof (header_size (newfs_set media fds o) free v _ bs alloc Ho Hbs ltac:(lia)) as Hsize.
  pose proof (header_version (newfs_set media fds o) free v _ bs alloc Ho Hbs) as Hversion.
  destruct (header_ids (newfs_set media fds o) free v _ bs alloc Ho Hbs) as [Hfs Hft]. rewrite <- Hhd in *.
  assert (Hv : vd_version (hd v) = Hammer2Version o) by (rewrite Hversion; exact Ev). split.
  - split; try assumption.
    + intros vd0. apply read_is; [lia|exact Hn].
    + destruct Tv as [(E & _ & _ & L)|(E & E1 & _ & _ & L)]; rewrite L by lia.
      * rewrite (proj2 (Z.ltb_lt _ _)) by lia. rewrite Hag. reflexivity.
      * pose proof (fits_laid _ _ _ _ H) as Hlaid. destruct (layout media (alen fds) 0 0 fds) as [|v0 vs] eqn:El; [apply not_elem_of_nil in Hin; contradiction|].
        destruct (laid_head _ _ _ _ _ _ _ Hlaid) as (_ & Ho0 & _). replace (tv_id v) with 0 in Hag by lia. assert (v0 = v) as <- by exact Hag. congruence.
    + destruct Tv as [(E & N & _)|(E & _ & N & _)]; rewrite E, N; reflexivity.
  - intros Hid0. split; [lia|]. destruct Tv as [(E & N & T & L)|(E & E1 & N & T & L)]; [left|right].
    + split; [lia|]. split; [exact N|]. split; [exact T|exact L].
    + split; [lia|]. split; [exact E1|]. split; [exact N|]. split; [exact T|]. split; [exact L|]. rewrite Hsize.
      pose proof (fits_laid _ _ _ _ H) as Hlaid. destruct fds as [|fd [|]]; [unfold alen in E1; cbn in E1; lia| |unfold alen in E1; cbn in E1; lia].
      cbn [layout] in Hin, Hlaid |- *. apply list_elem_of_singleton in Hin as ->. cbn [tv_size]. unfold total_size. cbn [layout_end]. lia.
Qed.
(** Every device after newfs, when nothing stale is left. *)
Lemma mkfs_headers s media fds o o1 now :
  newfs_fits media fds o o1 -> no_stale s media fds ->
  exists s' hd, hammer2_mkfs s fds o now = Ran s'
    /\ forall v, v ∈ layout media (alen fds) 0 0 fds ->
         good_header s' media hd (Hammer2Version o) (if Hammer2Version o =? 2 then alen fds else 0)
           (Hammer2_VolFSID o1) (Hammer2_FSType o1) v
         /\ (tv_id v = 0 ->
             let o' := final_options media fds o o1 in
             let base := HAMMER2_ZONE_SEG + BootAreaSize o' + AuxAreaSize o' in
             let alloc := base + 1024 * (alen (Label o1) + 1) in
             root_header_ok (hd v) (alen fds) (total_size media fds) (layout media (alen fds) 0 0 fds)
             /\ vd_u64 (hd v) 112 = alloc
             /\ super_root s' (tv_fd v) base alloc (Label o1) (blockset_ref (hd v) 0)).
Proof.
  intros H Hst. destruct (mkfs_runs s media fds o o1 now H) as (s' & free & E & Hf).
  set (hd := fun v => (hammer2_read_volume_header s' (tv_fd v) (media (tv_fd v)) []).2).
  exists s', hd. split; [exact E|]. intros v Hin. destruct (Hf v Hin) as (bs & alloc & Hbs & Hc & Hr).
  destruct (fits_areas _ _ _ _ H) as (Ht & Hareas & _). pose proof (ao_opts _ Hareas) as Ho.
  destruct (layout_nth _ _ _ _ _ H Hin) as (_ & _ & Hsz).
  assert (Hn := formatted_newest _ free _ s s' v bs alloc media Ho Hbs ltac:(lia) Hc (Hst v Hin)).
  assert (Hhd : hd v = volume_header (newfs_set media fds o) free v (final_options media fds o o1) bs alloc).
  { unfold hd. rewrite (read_is s' (tv_fd v) (media (tv_fd v)) [] 0 _ ltac:(lia) Hn). reflexivity. }
  rewrite <- Hhd in Hn. destruct (header_good _ s' _ _ _ v free bs alloc hd H Hin Hbs Hhd Hn) as [Hg Hroot].
  split; [exact Hg|]. intros Hid o' base al. split; [exact (Hroot Hid)|]. destruct (Hr Hid) as [Hal Hsr].
  assert (El : Label o' = Label o1) by reflexivity. destruct Hareas as [_ [Hb _] [Ha _] Hlt Hl]. fold o' in Hal, Hsr, Hb, Ha, Hlt, Hl.
  rewrite El in Hal, Hsr, Hl. assert (0 <= alen (Label o1)) by (unfold alen; lia). fold base in Hal, Hsr.
  assert (Hbase : 0 <= base < 2 ^ 62) by (unfold base; lia).
  fold al in Hal. rewrite <- Hal. split.
  - rewrite Hhd. apply header_allocator_beg; try assumption. unfold al in Hal. lia.
  - replace (blockset_ref (hd v) 0) with (fread bs 0 128); [exact Hsr|].
    pose proof (header_sroot (newfs_set media fds o) free v o' bs alloc Ho Hbs) as Hsb. fold o' in Hhd. rewrite <- Hhd in Hsb.
    assert (Hblk : is_block 65536 (hd v)) by (rewrite Hhd; apply volume_header_block; assumption).
    unfold blockset_ref. rewrite (block_vd_bytes 65536) by (assumption || lia). rewrite (block_vd_bytes 65536) in Hsb by (assumption || lia).
    rewrite <- Hsb. apply fread_fread; lia.
Qed.

(** C35. newfs makes a file system that mounts: on devices that are large enough it ends
    without an error; a mount of the devices, in any order, accepts them and finds the
    volumes where newfs laid them out, end to end; the header it reads leads to the
    super-root, and from there to a root inode for each label, under the key of the
    label's name; all of them pass their check codes and lie before the space that the
    allocator starts with. *)
Theorem newfs_mounts s media fds o o1 now :
  newfs_fits media fds o o1 -> no_stale s media fds ->
  exists s', hammer2_mkfs s fds o now = Ran s'
    /\ forall devs, devs ≡ₚ map (dev_of media) fds ->
       exists t, hammer2_init_volumes s' devs = Done (0, t)
         /\ mount_geometry (iv_root t) = Done (alen fds, total_size media fds)
         /\ mounted_volumes (alen fds) (iv_volumes t)
            = map (fun v => Volume (tv_fd v) (tv_offset v) (tv_size v)) (layout media (alen fds) 0 0 fds)
         /\ iv_rootdev t = Some (aget fds 0)
         /\ let o' := final_options media fds o o1 in
            let base := HAMMER2_ZONE_SEG + BootAreaSize o' + AuxAreaSize o' in
            let allocator_beg := vd_u64 (iv_root t) 112 in
            allocator_beg = base + HAMMER2_INODE_BYTES * (alen (Label o1) + 1)
            /\ super_root s' (aget fds 0) base allocator_beg (Label o1) (blockset_ref (iv_root t) 0).
Proof.
  intros H Hst. destruct (mkfs_headers s media fds o o1 now H Hst) as (s' & hd & E & Hg). exists s'. split; [exact E|].
  intros devs Hd. pose proof (fits_laid _ _ _ _ H) as Hlaid. pose proof (nf_count _ _ _ _ H) as Hc.
  pose proof (fits_areas _ _ _ _ H) as (Ht & Hareas & _). set (vols := layout media (alen fds) 0 0 fds) in *.
  assert (Hlen : length vols = length fds) by apply layout_length.
  destruct fds as [|fd0 fds']; [unfold alen in Hc; cbn in Hc; lia|]. set (fds := fd0 :: fds') in *.
  set (v0 := Tvolume fd0 0 0 (dev_size media (0 =? alen fds - 1) fd0)).
  assert (Hv0 : vols !! 0%nat = Some v0) by reflexivity. assert (Hin0 : v0 ∈ vols) by (eapply list_elem_of_lookup_2; exact Hv0).
  destruct (Hg v0 Hin0) as [_ Hroot]. destruct (Hroot eq_refl) as (Hro & Hal & Hsr).
  destruct (init_volumes_built s' media vols hd (Hammer2Version o) (if Hammer2Version o =? 2 then alen fds else 0)
    (Hammer2_VolFSID o1) (Hammer2_FSType o1)) with (n := alen fds) (total := total_size media fds) (devs := devs) (v0 := v0) as (t & Ei & Htab & Hrt & Hrd).
  - destruct (nf_version _ _ _ _ H); lia.
  - intros k v Hk. destruct (layout_lookup _ _ _ _ _ _ _ Hk) as (_ & Hid & _). lia.
  - unfold alen in Hc. lia.
  - intros v Hin. apply Hg. exact Hin.
  - rewrite Hd. rewrite <- (layout_fds media (alen fds) 0 0 fds) at 1. fold vols. rewrite map_map. reflexivity.
  - exact Hv0.
  - exact Hlaid.
  - lia.
  - unfold alen. rewrite Hlen. reflexivity.
  - exact Hro.
  - exists t. split; [exact Ei|]. rewrite Hrt, Htab, Hrd. split; [|split; [|split; [reflexivity|split; [exact Hal|rewrite Hal; exact Hsr]]]].
    + unfold mount_geometry. destruct Hro as [_ [(Ev & N & T & _)|(Ev & N1 & N & T & _ & Sz)]]; rewrite Ev; cbn [Z.leb Z.compare Pos.compare Pos.compare_cont fst].
      * rewrite N, T, (proj2 (Z.ltb_lt _ _)) by lia. reflexivity.
      * rewrite Sz, N1. reflexivity.
    + unfold mounted_volumes, mount_table. replace (Z.to_nat (alen fds)) with (length (map (mounted_vol media) vols))
        by (rewrite length_map; unfold alen; lia).
      rewrite take_app_length, map_map. reflexivity.
Qed.

(** C36. What newfs leaves behind: a device can be longer than its volume, by up to 1GB, and
    a mount looks for headers on the whole device. A header of an older file system that
    lies there and has seen more flushes than the new one (its mirror_tid is above 16,
    with which newfs starts) wins over it: the device does not mount with its new header. *)
Theorem newfs_keeps_stale_header s media fds o o1 now v j vd0 :
  newfs_fits media fds o o1 -> v ∈ layout media (alen fds) 0 0 fds ->
  0 <= j < 4 -> tv_size v <= j * HAMMER2_ZONE_BYTES64 < media (tv_fd v) ->
  header_valid (header_copy s (tv_fd v) j) = true -> 16 < vd_mirror_tid (header_copy s (tv_fd v) j) ->
  exists s' z, hammer2_mkfs s fds o now = Ran s'
    /\ 0 <= z < 4 /\ tv_size v <= z * HAMMER2_ZONE_BYTES64
    /\ hammer2_read_volume_header s' (tv_fd v) (media (tv_fd v)) vd0 = (z, header_copy s (tv_fd v) z).
Proof.
  intros H Hin Hj Hplace Hval Htid. destruct (mkfs_runs s media fds o o1 now H) as (s' & free & E & Hf).
  destruct (Hf v Hin) as (bs & alloc & Hbs & Hc & _). destruct (fits_areas _ _ _ _ H) as (_ & Hareas & _). pose proof (ao_opts _ Hareas) as Ho.
  destruct (read_volume_header_newest s' (tv_fd v) (media (tv_fd v)) vd0) as (z & vd & Hn & Er).
  assert (Hcj : header_copy s' (tv_fd v) j = header_copy s (tv_fd v) j) by (rewrite (Hc j Hj), (proj2 (Z.ltb_ge _ _)) by lia; reflexivity).
  assert (Huj : usable s' (tv_fd v) (media (tv_fd v)) j) by (split; [lia|rewrite Hcj; exact Hval]).
  destruct Hn as [[_ Hno]|(Hz & Hu & Hvd & Hbest)]; [destruct (Hno j Hj Huj)|].
  destruct (Hbest j Hj Huj) as [Hle _]. rewrite Hcj in Hle.
  destruct (Z.ltb_spec (z * HAMMER2_ZONE_BYTES64) (tv_size v)) as [Hnew|Hold].
  - exfalso. pose proof (Hc z Hz) as Hcz. rewrite (proj2 (Z.ltb_lt _ _)) in Hcz by lia. rewrite Hvd, Hcz, header_mirror_tid in Hle by assumption. lia.
  - exists s', z. split; [exact E|]. split; [exact Hz|]. split; [exact Hold|]. rewrite Er.
    rewrite (proj2 (Z.eqb_neq z (- 1))) by lia. rewrite Hvd. rewrite (Hc z Hz), (proj2 (Z.ltb_ge _ _)) by lia. reflexivity.
Qed.
End newfs.

(** * Examples *)

Definition demo_media (fd : Z) : Z := if fd =? 1 then 2 ^ 30 else if fd =? 2 then 2 ^ 26 else 2 ^ 31 + 2 ^ 22.
Definition key_le (key : list Z -> Z) (a b : list Z) : Prop := key a <= key b.
#[export] Instance key_le_dec key : RelDecision (key_le key).
Proof. intros a b. unfold key_le. apply _. Defined.
#[export] Instance key_le_trans key : Transitive (key_le key).
Proof. intros a b c. unfold key_le. lia. Qed.
#[export] Instance key_le_total key : Total (key_le key).
Proof. intros a b. unfold key_le. lia. Qed.
#[export] Instance demo_crt : Crt := {
  GetFileSizeEx fd := Some (demo_media fd);
  GetLengthInfo _ := None;
  filelengthi64 _ := - 1;
  fstat_id fd := (fd, 0);
  qsort_by key l := merge_sort (key_le key) l
}.
#[export] Instance demo_crt_laws : CrtLaws.
Proof.
  split.
  - intros key l. apply merge_sort_Permutation.
  - intros key l. exact (StronglySorted_merge_sort (key_le key) l).
Qed.

Definition demo_uuid : list Z := replicate 16 7.
Definition demo_opts : mkfs_options :=
  Opts 2 demo_uuid demo_uuid demo_uuid demo_uuid (fun _ => demo_uuid) (fun _ => demo_uuid) 0 0 [LOCAL] 2 HAMMER2_LABEL_DATA.
Definition demo_opts_1 : mkfs_options := set_label [LOCAL; DATA] demo_opts.

Lemma demo_uuid_block : is_block 16 demo_uuid.
Proof. split; [reflexivity|]. apply Forall_replicate. unfold is_byte. lia. Qed.
Lemma demo_opts_ok : opts_ok demo_opts_1.
Proof.
  split; try (intros; exact demo_uuid_block); [cbn; lia|].
  unfold demo_opts_1, set_label. cbn [Label].
  apply Forall_cons. split; [split; [vm_compute; split; congruence|unfold LOCAL; bytes]|].
  apply Forall_cons. split; [split; [vm_compute; split; congruence|unfold DATA; bytes]|]. apply Forall_nil. exact I.
Qed.
Lemma demo_fits fds :
  fds = [1; 2] \/ fds = [3] -> newfs_fits demo_media fds demo_opts demo_opts_1.
Proof.
  intros H. split.
  - destruct H as [-> | ->]; vm_compute; split; congruence.
  - left. reflexivity.
  - intros k fd Hk. destruct H as [-> | ->]; destruct k as [|[|]]; cbn in Hk; try discriminate; injection Hk as <-; vm_compute; split; congruence.
  - intros fd Hfd. split; [|destruct H as [-> | ->]; repeat (apply elem_of_cons in Hfd as [->|Hfd]; [lia|]); apply not_elem_of_nil in Hfd; contradiction].
    unfold check_volume. cbn [GetFileSizeEx demo_crt]. unfold demo_media. destruct (fd =? 1), (fd =? 2); reflexivity.
  - destruct H as [-> | ->]; cbn; repeat constructor; rewrite ?elem_of_cons, ?elem_of_nil; intuition congruence.
  - split; [reflexivity|vm_compute; congruence].
  - exact demo_opts_ok.
  - vm_compute. split; congruence.
  - vm_compute. split; congruence.
  - destruct H as [-> | ->]; vm_compute; split; congruence.
Qed.

Definition blank_disks : ios := Ios [] ∅ 0 0 0 0 ∅ 0 256.

(** Two devices, mounted in the other order. *)
Lemma newfs_mounts_witness :
  exists s', hammer2_mkfs (W := demo_win32) blank_disks [1; 2] demo_opts 1000 = Ran s'
    /\ exists t, hammer2_init_volumes (W := demo_win32) s' [dev_of demo_media 2; dev_of demo_media 1] = Done (0, t)
    /\ mount_geometry (iv_root t) = Done (2, 2 ^ 30 + 2 ^ 26).
Proof.
  destruct (newfs_mounts (WL := demo_win32_laws) blank_disks demo_media [1; 2] demo_opts demo_opts_1 1000 (demo_fits _ (or_introl eq_refl))) as (s' & E & H).
  - intros v Hv j Hj Hp. exfalso. cbn [layout] in Hv.
    repeat (apply elem_of_cons in Hv as [->|Hv]; [change (2 ^ 30 <= j * HAMMER2_ZONE_BYTES64 < 2 ^ 30) in Hp || change (2 ^ 26 <= j * HAMMER2_ZONE_BYTES64 < 2 ^ 26) in Hp; lia|]).
    apply not_elem_of_nil in Hv. exact Hv.
  - exists s'. split; [exact E|]. destruct (H [dev_of demo_media 2; dev_of demo_media 1]) as (t & E' & G & _); [apply perm_swap|].
    exists t. split; [exact E'|]. rewrite G. vm_compute. reflexivity.
Defined.

(** A device of 2GB and 4MB: the volume has 2GB, the second header is not rewritten. *)
Definition stale_header : list Z := sync_volume demo_voldata 100.
Definition stale_disk : ios := Ios [] ∅ 0 0 0 0 {[ 3 := fwrite [] (1 * HAMMER2_ZONE_BYTES64) stale_header ]} 0 256.
Lemma stale_facts : header_valid (header_copy stale_disk 3 1) = true /\ vd_mirror_tid (header_copy stale_disk 3 1) = 100.
Proof.
  destruct demo_voldata_facts as (Hm & _ & Ht & _).
  destruct (sync_volume_facts demo_voldata 100 demo_is_header Hm ltac:(lia)) as ([Hl _] & Hv & Hmt & _). fold stale_header in Hl, Hv, Hmt.
  assert (E : header_copy stale_disk 3 1 = stale_header); [|rewrite E; split; [exact Hv|rewrite Hmt, Ht; reflexivity]].
  unfold header_copy, stale_disk, file_of. cbn [s_files]. rewrite lookup_singleton_eq. cbn [default].
  apply fread_fwrite_eq; [lia|symmetry; exact Hl].
Qed.
Lemma newfs_keeps_stale_header_witness :
  exists s' z, hammer2_mkfs (W := demo_win32) stale_disk [3] demo_opts 1000 = Ran s'
    /\ 0 <= z < 4 /\ 2 ^ 31 <= z * HAMMER2_ZONE_BYTES64
    /\ hammer2_read_volume_header (W := demo_win32) s' 3 (2 ^ 31 + 2 ^ 22) [] = (z, header_copy stale_disk 3 z).
Proof.
  destruct stale_facts as [Hv Ht].
  apply (newfs_keeps_stale_header (WL := demo_win32_laws) stale_disk demo_media [3] demo_opts demo_opts_1 1000 (Tvolume 3 0 0 (2 ^ 31)) 1 []).
  - apply demo_fits. right. reflexivity.
  - left.
  - lia.
  - cbn. lia.
  - exact Hv.
  - cbn [tv_fd]. lia.
Defined.
