(* ===== verification/Recovery.v ===== *)
(** Crash recovery at mount time (hammer2_vfsops.c: hammer2_recovery,
    hammer2_recovery_scan) and the scan of the children of a chain that it uses
    (hammer2_chain.c: hammer2_chain_scan).

    The topology and the blocks behind it are those of Lookup; a scanned chain stays
    in memory.  The freemap is the device of Freemap: hammer2_freemap_adjust works on
    a tree of its own.  Nothing has been modified when a mount recovers, so no PFS
    root is HAMMER2_CHAIN_ONFLUSH and the flush of such a root is left out, as are
    the transaction around the recovery and the messages. *)

From Stdlib Require Import ZArith Lia Bool.
From stdpp Require Import base numbers list option gmap.
From S2P Require Import Prelude Disk BlockTable ChainFind Freemap Lookup.

Abbreviation HAMMER2_RECOVERY_MAXDEPTH := 10%nat (only parsing).

Section recovery.
Context (media : blockref -> loaded) {T IO : Type} `{!LeafStore T}.

(** * [hammer2_chain_scan] *)

(** [chain->data] of a locked chain: hammer2_chain_load_data leaves it NULL when there
    is no block behind the blockref or the block cannot be read. *)
Definition has_data (x : lnode) : bool :=
  negb (br_data_off (l_bref x) .&~ HAMMER2_OFF_MASK_RADIX =? 0) && negb (l_error x =? HAMMER2_ERROR_EIO).

(** [base] and [count] of the parent. *)
Definition scan_base (x : lnode) : outcome (option (list blockref) * Z) :=
  match br_type (l_bref x) with
  | HAMMER2_BREF_TYPE_FREEMAP_NODE | HAMMER2_BREF_TYPE_INDIRECT =>
      assert! l_initial x || has_data x; lookup_base x
  | _ => lookup_base x
  end.

(** Children that the scan returns as chains. *)
Definition recurses (b : blockref) : bool :=
  match br_type b with
  | HAMMER2_BREF_TYPE_INODE | HAMMER2_BREF_TYPE_FREEMAP_NODE | HAMMER2_BREF_TYPE_INDIRECT
  | HAMMER2_BREF_TYPE_VOLUME | HAMMER2_BREF_TYPE_FREEMAP => true
  | _ => false
  end.

(** The error, *chainp, *bref. *)
Record scanned := Scanned { sc_error : Z; sc_chain : option nat; sc_bref : blockref; sc_topo : topo }.

(** From the label [again] on; [maxloops] bounds the turns. *)
Fixpoint scan_again (maxloops : nat) (t : topo) (parent : nat) (key : Z) (bref : blockref) : outcome scanned :=
  match maxloops with
  | O => Panic
  | S maxloops =>
      let! x := node t parent in
      if negb (l_error x =? 0) then Done (Scanned (l_error x) None bref t)
      else if (br_type (l_bref x) =? HAMMER2_BREF_TYPE_INODE) && l_direct x then
        Done (Scanned HAMMER2_ERROR_EOF None bref t)
      else
        let! (base, count) := scan_base x in
        let co := hammer2_chain_countbrefs (l_core x) base count in
        let! (chain, bref_ptr, next_key, co) :=
          hammer2_combined_find co (rb_of (chains_of t (l_tree x))) base count key HAMMER2_KEY_MAX in
        let t := set_node parent (set_l_core co x) t in
        match bref_ptr with
        | None => Done (Scanned HAMMER2_ERROR_EOF None bref t)
        | Some b =>
            let! (c, t) :=
              match chain with
              | None => if recurses b then let! (c, t) := chain_get media t parent b in Done (Some c, t) else Done (None, t)
              | Some ch => match chain_at t (l_tree x) ch with Some c => Done (Some c, t) | None => Panic end
              end in
            match c with
            | None => Done (Scanned 0 None b t)
            | Some c =>
                let! y := node t c in
                if ch_deleted (l_chain y) then
                  if next_key =? 0 then Done (Scanned HAMMER2_ERROR_EOF None b t)
                  else scan_again maxloops t parent next_key b
                else Done (Scanned 0 (Some c) b t)
            end
        end
  end.

Definition hammer2_chain_scan (t : topo) (parent : nat) (bref : blockref) (first : bool) : outcome scanned :=
  let key := if first then 0 else key_after bref in
  if negb first && (key =? 0) then Done (Scanned HAMMER2_ERROR_EOF None bref t)
  else scan_again lookup_maxloops t parent key bref.

(** * [hammer2_recovery_scan] *)

(** The chains in memory, the device, info->list: the deferred chains with their
    sync_tid. *)
Record rstate := RState { rs_topo : topo; rs_dev : dev T IO; rs_list : list (nat * Z) }.

Definition rs_adjust (b : blockref) (s : rstate) : outcome rstate :=
  let! h := hammer2_freemap_adjust (rs_dev s) b HAMMER2_FREEMAP_DORECOVER in
  Done (RState (rs_topo s) h (rs_list s)).
Definition rs_set_topo (t : topo) (s : rstate) : rstate := RState t (rs_dev s) (rs_list s).
Definition rs_defer (c : nat) (sync_tid : Z) (s : rstate) : rstate :=
  RState (rs_topo s) (rs_dev s) (rs_list s ++ [(c, sync_tid)]).

(** The loop over the children; [rec] is the recursion and [fuel] bounds the turns. *)
Fixpoint recovery_children (rec : nat -> rstate -> outcome (Z * rstate)) (parent : nat) (sync_tid : Z) (fuel : nat)
    (bref : blockref) (first : bool) (rup_error : Z) (s : rstate) : outcome (Z * rstate) :=
  match fuel with
  | O => Panic
  | S fuel =>
      let! r := hammer2_chain_scan (rs_topo s) parent bref first in
      let s := rs_set_topo (sc_topo r) s in
      let b := sc_bref r in
      if negb (sc_error r =? 0) then Done ((sc_error r .| rup_error) .&~ HAMMER2_ERROR_EOF, s)
      else
        match sc_chain r with
        | None =>
            let! s := if sync_tid <? br_mirror_tid b then rs_adjust b s else Done s in
            recovery_children rec parent sync_tid fuel b false rup_error s
        | Some c =>
            let! (tmp_error, s) := if sync_tid <? br_mirror_tid b then rec c s else Done (0, s) in
            recovery_children rec parent sync_tid fuel b false (rup_error .| tmp_error) s
        end
  end.

(** One more than the children. *)
Definition scan_fuel (x : lnode) : nat :=
  match lookup_base x with
  | Done (_, count) => S (Z.to_nat count + length (l_tree x))
  | Panic => 1
  end.

(** [depth] is HAMMER2_RECOVERY_MAXDEPTH less info->depth. *)
Fixpoint hammer2_recovery_scan (depth : nat) (sync_tid : Z) (parent : nat) (s : rstate) : outcome (Z * rstate) :=
  let! x := node (rs_topo s) parent in
  let type := br_type (l_bref x) in
  let! s := if negb (type =? HAMMER2_BREF_TYPE_VOLUME) then rs_adjust (l_bref x) s else Done s in
  let below :=
    match depth with
    | O => Done (0, rs_defer parent sync_tid s)
    | S depth => recovery_children (hammer2_recovery_scan depth sync_tid) parent sync_tid (scan_fuel x) (l_bref x) true 0 s
    end in
  match type with
  | HAMMER2_BREF_TYPE_VOLUME => below
  | HAMMER2_BREF_TYPE_INODE =>
      assert! has_data x;
      if l_direct x then Done (0, s) else below
  | HAMMER2_BREF_TYPE_INDIRECT => below
  | HAMMER2_BREF_TYPE_DIRENT | HAMMER2_BREF_TYPE_DATA | HAMMER2_BREF_TYPE_FREEMAP
  | HAMMER2_BREF_TYPE_FREEMAP_NODE | HAMMER2_BREF_TYPE_FREEMAP_LEAF => Done (0, s)
  | _ => Done (HAMMER2_ERROR_BADBREF, s)
  end.

(** * [hammer2_recovery] *)

(** The deferred chains, first in first out. *)
Fixpoint recover_deferred (turns : nat) (freemap_tid error : Z) (s : rstate) : outcome (Z * rstate) :=
  match rs_list s with
  | [] => Done (error, s)
  | (parent, _) :: l =>
      match turns with
      | O => Panic
      | S turns =>
          let! (e, s) := hammer2_recovery_scan HAMMER2_RECOVERY_MAXDEPTH freemap_tid parent (RState (rs_topo s) (rs_dev s) l) in
          recover_deferred turns freemap_tid (error .| e) s
      end
  end.

Definition hammer2_recovery (turns : nat) (t : topo) (vchain : nat) (freemap_tid : Z) (hmp : dev T IO)
  : outcome (Z * topo * dev T IO) :=
  let! (error, s) := hammer2_recovery_scan HAMMER2_RECOVERY_MAXDEPTH freemap_tid vchain (RState t hmp []) in
  let! (error, s) := recover_deferred turns freemap_tid error s in
  Done (error, rs_topo s, rs_dev s).
End recovery.
