(* ===== verification/RecoveryProof.v ===== *)
(** The scan of the children of a chain, on a topology in memory that agrees with the
    media: it returns the entries of the block table one by one, in key order. *)

From Stdlib Require Import ZArith Lia Bool Sorted.
From stdpp Require Import base numbers list option gmap sorting relations.
From S2P Require Import Prelude Disk BlockTable BlockTableProof BlockTableSpec ChainFind ChainFindProof Freemap Lookup LookupSpec LookupProof Recovery.

Section proof.
Context (media : blockref -> loaded).

(** * The topology on the media *)

(** Blocks with a block table that recovery goes through. *)
Definition directed (b : blockref) : bool :=
  match br_type b with
  | HAMMER2_BREF_TYPE_VOLUME | HAMMER2_BREF_TYPE_INDIRECT => true
  | HAMMER2_BREF_TYPE_INODE => negb (ld_direct (media b))
  | _ => false
  end.
Definition opened (b : blockref) : Prop := directed b = true /\ ld_error (media b) = 0.

(** [b] is a child of [p]. *)
Definition child (p b : blockref) : Prop := opened p /\ b ∈ live (ld_table (media p)).
(** A child that was written after the freemap. *)
Definition newer (sync_tid : Z) (p b : blockref) : Prop := child p b /\ sync_tid < br_mirror_tid b.

Definition table_count (b : blockref) : Z :=
  if br_type b =? HAMMER2_BREF_TYPE_INDIRECT then bref_bytes b / HAMMER2_BLOCKREF_BYTES else HAMMER2_SET_COUNT.

(** The types that tables hold. *)
Definition known (b : blockref) : bool :=
  bool_decide (br_type b ∈ [HAMMER2_BREF_TYPE_INODE; HAMMER2_BREF_TYPE_INDIRECT; HAMMER2_BREF_TYPE_DATA;
                            HAMMER2_BREF_TYPE_DIRENT; HAMMER2_BREF_TYPE_FREEMAP_NODE; HAMMER2_BREF_TYPE_FREEMAP_LEAF]).

(** Under [p]: tables in order; [d] bounds the depth. *)
Fixpoint sound (d : nat) (p : blockref) : Prop :=
  match d with
  | O => False
  | S d =>
      ld_error (media p) ∈ [0; HAMMER2_ERROR_EIO; HAMMER2_ERROR_CHECK]
      /\ (br_type p <> HAMMER2_BREF_TYPE_VOLUME -> br_data_off p .&~ HAMMER2_OFF_MASK_RADIX <> 0)
      /\ (opened p ->
          table_wf (table_count p) (ld_table (media p))
          /\ forall b, b ∈ live (ld_table (media p)) ->
               known b = true /\ (is_node_type p = true -> inside p b) /\ (recurses b = true -> sound d b))
  end.

(** * The topology in memory *)

Record agrees (t : topo) (i : nat) (x : lnode) : Prop := {
  ag_error : l_error x = ld_error (media (l_bref x));
  ag_direct : l_direct x = ld_direct (media (l_bref x));
  ag_table : opened (l_bref x) ->
    local_ok t i x /\ lookup_base x = Done (Some (ld_table (media (l_bref x))), table_count (l_bref x))
    /\ entries t x = live (ld_table (media (l_bref x)))
}.

(** What is in memory is what is on the media: nothing was modified. *)
Record clean (t : topo) : Prop := {
  cl_fresh : fresh_ok t;
  cl_node : forall i x, t_nodes t !! i = Some x -> agrees t i x
}.

Abbreviation loads := (loads media).

Lemma clean_step t t' : clean t -> loads t t' ->
  (forall i x x', t_nodes t !! i = Some x -> t_nodes t' !! i = Some x' -> local_ok t i x -> local_ok t' i x') ->
  (forall i x', t_nodes t !! i = None -> t_nodes t' !! i = Some x' -> agrees t' i x') -> clean t'.
Proof.
  intros [Hf Hn] Hl Ho Hnew. constructor; [exact (ld_fresh _ _ _ Hl Hf)|]. intros i x' Hx'.
  destruct (t_nodes t !! i) as [x|] eqn:Hx; [|exact (Hnew i x' Hx Hx')].
  destruct (ld_node _ _ _ Hl i x Hx) as (x'' & E & A1 & _ & A3 & A4 & A5 & A6 & _). rewrite Hx' in E. injection E as <-.
  destruct (Hn i x Hx) as [B1 B2 B3]. assert (Eb : l_bref x' = l_bref x) by (unfold l_bref; rewrite A1; reflexivity).
  constructor; rewrite ?Eb; [congruence..|]. intros H. destruct (B3 H) as (C1 & C2 & C3).
  split; [exact (Ho i x x' Hx Hx' C1)|]. split; congruence.
Qed.

(** ** Counting the table *)

Section core.
Context (t : topo) (i : nat) (x : lnode) (co : core).
Hypothesis Hi : t_nodes t !! i = Some x.
Hypothesis Hco : forall bs count, lookup_base x = Done (Some bs, count) -> co_counted co = true -> live_end (co_live_zero co) bs.
Abbreviation t1 := (set_node i (set_l_core co x) t).

Lemma core_node j y y' : t_nodes t !! j = Some y -> t_nodes t1 !! j = Some y' -> y' = if decide (i = j) then set_l_core co x else y.
Proof.
  intros Hy Hy'. cbn in Hy'. destruct (decide (i = j)) as [<-|Hne].
  - rewrite lookup_insert_eq in Hy'. congruence.
  - rewrite lookup_insert_ne in Hy' by exact Hne. congruence.
Qed.

Lemma core_chain j : l_chain <$> t_nodes t1 !! j = l_chain <$> t_nodes t !! j.
Proof.
  cbn. destruct (decide (i = j)) as [<-|Hne]; [rewrite lookup_insert_eq, Hi; reflexivity|].
  rewrite lookup_insert_ne by exact Hne. reflexivity.
Qed.

Lemma core_local j y y' : t_nodes t !! j = Some y -> t_nodes t1 !! j = Some y' -> local_ok t j y -> local_ok t1 j y'.
Proof.
  intros Hy Hy' [Lk Lc Lb Lo Li]. pose proof (core_node j y y' Hy Hy') as E.
  assert (E' : l_tree y' = l_tree y /\ l_chain y' = l_chain y /\ lookup_base y' = lookup_base y).
  { rewrite E. destruct (decide (i = j)) as [<-|]; [|auto]. rewrite Hi in Hy. injection Hy as <-. auto. }
  destruct E' as (E1 & E2 & E3). assert (Ec : chains_of t1 (l_tree y) = chains_of t (l_tree y)) by (apply chains_of_ext; intros; apply core_chain).
  assert (Et : table y' = table y) by (unfold table; rewrite E3; reflexivity).
  constructor.
  - rewrite E1. intros k Hk. destruct (Lk k Hk) as (z & Hz & Hp & Hd). destruct (decide (i = k)) as [<-|Hne].
    + rewrite Hi in Hz. injection Hz as <-. exists (set_l_core co x). split; [apply lookup_insert_eq|auto].
    + exists z. split; [cbn; rewrite lookup_insert_ne by exact Hne; exact Hz|auto].
  - rewrite E1, Ec. exact Lc.
  - destruct Lb as (base & count & B1 & B2). exists base, count. split; [congruence|]. destruct base as [bs|]; [|exact I].
    destruct B2 as [B2 B3]. split; [exact B2|]. rewrite E. destruct (decide (i = j)) as [<-|]; [|exact B3].
    rewrite Hi in Hy. injection Hy as <-. exact (Hco bs count B1).
  - rewrite Et, E1, Ec. exact Lo.
  - unfold l_bref, entries. rewrite E1, E2, Et, Ec. exact Li.
Qed.

Lemma core_clean : clean t -> clean t1 /\ loads t t1.
Proof.
  intros H. pose proof (set_core_loads media t i x co Hi Hco) as Hl. split; [|exact Hl].
  apply (clean_step t); [exact H|exact Hl|exact core_local|]. intros j y' Hj Hy'. cbn in Hy'.
  rewrite lookup_insert_ne in Hy' by congruence. congruence.
Qed.
End core.

(** ** Loading a child *)

Lemma recurses_cases b : known b = true -> recurses b = true ->
  br_type b = HAMMER2_BREF_TYPE_INODE \/ br_type b = HAMMER2_BREF_TYPE_INDIRECT \/ br_type b = HAMMER2_BREF_TYPE_FREEMAP_NODE.
Proof.
  unfold known, recurses. intros H%bool_decide_eq_true Hr. rewrite !elem_of_cons, elem_of_nil in H.
  destruct H as [E|[E|[E|[E|[E|[E|[]]]]]]]; rewrite E in *; auto; discriminate.
Qed.

Lemma loaded_agrees t i p b d : known b = true -> recurses b = true -> sound d b ->
  agrees t i (loaded_node media p b).
Proof.
  intros Hk Hr Hs. constructor; [reflexivity..|]. change (l_bref (loaded_node media p b)) with b. intros Ho.
  destruct d as [|d]; [destruct Hs|]. destruct Hs as (_ & _ & Hs). destruct (Hs Ho) as [Ht Hb]. destruct Ho as [Hd He].
  assert (Eb : lookup_base (loaded_node media p b) = Done (Some (ld_table (media b)), table_count b)).
  { unfold lookup_base, table_count. cbn [loaded_node l_bref l_base l_initial l_bytes l_chain ch_bref]. rewrite He. cbn [Z.eqb].
    unfold directed in Hd. destruct (recurses_cases b Hk Hr) as [E|[E|E]]; rewrite E in *; try reflexivity. discriminate. }
  assert (Etab : table (loaded_node media p b) = live (ld_table (media b))) by (unfold table; rewrite Eb; reflexivity).
  assert (Eent : entries t (loaded_node media p b) = live (ld_table (media b))) by (unfold entries; rewrite Etab; apply brefs_nil).
  split; [|auto]. constructor.
  - intros j Hj. apply not_elem_of_nil in Hj as [].
  - constructor; constructor.
  - eexists _, _. split; [exact Eb|]. split; [exact Ht|discriminate].
  - intros b' c _ Hc. apply not_elem_of_nil in Hc as [].
  - change (l_bref (loaded_node media p b)) with b. intros Hty b' Hb'. rewrite Eent in Hb'. apply (Hb b' Hb'), Hty.
Qed.

Lemma get_clean t p x b d : clean t -> t_nodes t !! p = Some x -> opened (l_bref x) -> b ∈ table x ->
  (forall c, c ∈ chains_of t (l_tree x) -> br_key (ch_bref c) <> br_key b) -> known b = true -> recurses b = true -> sound d b ->
  chain_get media t p b = Done (t_next t, got media t p x b) /\ clean (got media t p x b) /\ loads t (got media t p x b).
Proof.
  intros [Hf Hn] Hx Ho Hb Hno Hk Hr Hs. destruct (ag_table _ _ _ (Hn p x Hx) Ho) as (Hl & _).
  pose proof (get_loads media t p x b Hf Hx Hl Hb Hno) as Hld.
  split; [unfold chain_get, node; rewrite Hx; reflexivity|]. split; [|exact Hld].
  apply (clean_step t); [constructor; assumption|exact Hld| |].
  - intros j y y' Hy Hy' Hloc. rewrite (got_old media t p x b Hf j y Hy) in Hy'. injection Hy' as <-.
    exact (got_local media t p x b Hf Hx Hl Hb Hno j y Hloc Hy).
  - intros j y' Hj Hy'. cbn in Hy'. destruct (decide (p = j)) as [<-|Hpj]; [congruence|]. rewrite lookup_insert_ne in Hy' by exact Hpj.
    destruct (decide (t_next t = j)) as [<-|Hij].
    + rewrite lookup_insert_eq in Hy'. injection Hy' as <-. exact (loaded_agrees _ _ p b d Hk Hr Hs).
    + rewrite lookup_insert_ne in Hy' by exact Hij. congruence.
Qed.

(** * One scan *)

Abbreviation items x := (live (ld_table (media (l_bref x)))).

(** What a scan from [k] returns: the first entry that ends at or after it, or the end. *)
Inductive scans (t : topo) (x : lnode) (k : Z) (b0 : blockref) : outcome scanned -> Prop :=
| scans_eof t' : clean t' -> loads t t' -> (forall b, b ∈ items x -> range_last b < k) ->
    scans t x k b0 (Done (Scanned HAMMER2_ERROR_EOF None b0 t'))
| scans_item t' b oc : clean t' -> loads t t' -> b ∈ items x -> k <= range_last b ->
    (forall b', b' ∈ items x -> range_last b' < k \/ br_key b <= br_key b') ->
    match oc with
    | Some c => exists y, t_nodes t' !! c = Some y /\ l_bref y = b
    | None => recurses b = false
    end ->
    scans t x k b0 (Done (Scanned 0 oc b t')).

Lemma opened_open x t i d : agrees t i x -> opened (l_bref x) -> sound d (l_bref x) ->
  l_error x = 0 /\ (br_type (l_bref x) =? HAMMER2_BREF_TYPE_INODE) && l_direct x = false
  /\ scan_base x = lookup_base x.
Proof.
  intros [A1 A2 _] [Ho He] Hs. rewrite A1. split; [exact He|]. split.
  - rewrite A2. unfold directed in Ho. destruct (Z.eqb_spec (br_type (l_bref x)) HAMMER2_BREF_TYPE_INODE) as [E|]; [|reflexivity].
    rewrite E in Ho. apply negb_true_iff in Ho. exact Ho.
  - unfold scan_base, has_data. destruct d as [|d]; [destruct Hs|]. destruct Hs as (_ & Hoff & _). rewrite A1, He.
    unfold directed in Ho. destruct (decide (br_type (l_bref x) = HAMMER2_BREF_TYPE_INDIRECT)) as [E|E].
    + rewrite E. rewrite E in Hoff. rewrite (proj2 (Z.eqb_neq _ _) (Hoff ltac:(discriminate))). rewrite orb_true_r. reflexivity.
    + destruct (br_type (l_bref x)) as [|q|q]; try reflexivity. do 9 (try destruct q; try reflexivity; try discriminate; try congruence).
Qed.

Lemma first_item t i x k b chain : agrees t i x -> opened (l_bref x) ->
  first_in_view (view (table x) (chains_of t (l_tree x))) k (b, chain) ->
  b ∈ items x /\ k <= range_last b /\ forall b', b' ∈ items x -> range_last b' < k \/ br_key b <= br_key b'.
Proof.
  intros [_ _ H] Ho Hv. destruct (H Ho) as (_ & _ & E). rewrite <- E. exact (first_entry t x k b chain Hv).
Qed.

Lemma scan_step d t i x k b0 M : clean t -> t_nodes t !! i = Some x -> opened (l_bref x) -> sound (S d) (l_bref x) ->
  0 <= k < 2 ^ 64 -> scans t x k b0 (scan_again media (S M) t i k b0).
Proof.
  intros Hc Hx Ho Hs Hk. pose proof (cl_node _ Hc i x Hx) as Hag. destruct (opened_open x t i (S d) Hag Ho Hs) as (He & Hd & Esb).
  destruct (ag_table _ _ _ Hag Ho) as (Hl & Elb & Een).
  destruct (countbrefs_base t i x Hl) as (base & count & Eb & Et & Hb).
  destruct (combined_any _ base count (chains_of t (l_tree x)) k HAMMER2_KEY_MAX Hb (lo_chains _ _ _ Hl)) as (chain & bref & kn' & cc & Ec & H);
    [rewrite Et; exact (lo_coherent _ _ _ Hl)|lia|lia|]. rewrite Et in H.
  set (co := set_cache_index cc _) in Ec.
  destruct (core_clean t i x co Hx) as [Hc1 Hl1]; [|exact Hc|].
  { intros bs cnt E _. rewrite Eb in E. injection E as -> ->. exact (tb_zero _ _ _ Hb). }
  set (t1 := set_node i (set_l_core co x) t) in *. set (x1 := set_l_core co x).
  assert (Hx1 : t_nodes t1 !! i = Some x1) by apply lookup_insert_eq.
  cbn [scan_again]. unfold node at 1. rewrite Hx. cbn [obind]. rewrite He, Hd. cbn [negb Z.eqb]. rewrite Esb, Eb. cbn [obind].
  fold co. rewrite Ec. cbn [obind]. fold t1. destruct bref as [b|].
  2: { destruct H as [_ H]. apply scans_eof; [assumption..|]. intros b Hbi. rewrite <- Een in Hbi. unfold entries, brefs in Hbi.
       apply list_elem_of_fmap in Hbi as (v & -> & Hv). destruct (H v Hv) as [H'|H']; [exact H'|]. exfalso.
       pose proof (brefs_sorted (table x) (chains_of t (l_tree x)) (table_entries_ok t i x Hl) (lo_chains _ _ _ Hl) (lo_coherent _ _ _ Hl)) as [_ Hks].
       rewrite Forall_forall in Hks. destruct (Hks v.1) as (_ & Hr & _); [apply list_elem_of_fmap; eauto|]. pose proof (key_last_range v.1 (Hks v.1 ltac:(apply list_elem_of_fmap; eauto))).
       unfold range_last in *. lia. }
  destruct H as [Hv Hbke]. destruct (first_item t i x k b chain Hag Ho Hv) as (Hbi & Hkb & Hmin).
  destruct Hv as (Hin & _ & _). destruct chain as [ch|].
  - destruct (elem_of_view _ _ _ Hin) as [[_ E]|(ch' & Hch & E)]; [discriminate E|]. injection E as -> <-.
    assert (Hch1 : ch ∈ chains_of t1 (l_tree x)) by (rewrite (chains_of_ext t t1); [exact Hch|intros; apply core_chain, Hx]).
    destruct (chain_at_found t1 (l_tree x) ch Hch1) as (c & y & -> & Hcin & Hy & Ey). cbn [obind]. unfold node. rewrite Hy. cbn [obind].
    destruct (ag_table _ _ _ (cl_node _ Hc1 i x1 Hx1) Ho) as (Hl1' & _). destruct (lo_kids _ _ _ Hl1' c Hcin) as (y' & Hy' & _ & Hdel).
    rewrite Hy in Hy'. injection Hy' as <-. rewrite Hdel. apply scans_item; try assumption. exists y. split; [exact Hy|].
    unfold l_bref. rewrite Ey. reflexivity.
  - destruct (recurses b) eqn:Hr; [|cbn [obind]; apply scans_item; assumption].
    destruct (view_none _ _ b (table_entries_ok t i x Hl) (lo_chains _ _ _ Hl) (lo_coherent _ _ _ Hl) Hin) as [Hbt Hno].
    destruct Hs as (_ & _ & Hs). destruct (Hs Ho) as [_ Hsb]. destruct (Hsb b Hbi) as (Hkn & _ & Hsd).
    destruct (get_clean t1 i x1 b d) as (-> & Hc2 & Hl2); try assumption.
    { intros c Hcin. apply Hno. rewrite (chains_of_ext t t1) in Hcin; [exact Hcin|intros; apply core_chain, Hx]. }
    { exact (Hsd Hr). }
    cbn [obind]. pose proof (got_new media t1 i x1 b (cl_fresh _ Hc1) Hx1 (proj1 (ag_table _ _ _ (cl_node _ Hc1 i x1 Hx1) Ho))) as Hn.
    unfold node. rewrite Hn. cbn [obind loaded_node l_chain ch_deleted]. apply scans_item; try assumption.
    + exact (loads_trans _ _ _ _ Hl1 Hl2).
    + eexists. split; [exact Hn|reflexivity].
Qed.

(** * The next child *)

Lemma items_sorted d p : opened p -> sound (S d) p ->
  StronglySorted before (live (ld_table (media p))) /\ Forall key_ok (live (ld_table (media p))).
Proof. intros Ho (_ & _ & H). destruct (H Ho) as [[_ [H1 H2]] _]. auto. Qed.

(** After the entries [V1], of which [b0] is the last one. *)
Definition position (V1 : list blockref) (b0 : blockref) (first : bool) : Prop :=
  if first then V1 = [] else exists l, V1 = l ++ [b0].

Lemma key_bounds b : key_ok b -> 0 <= br_key b <= range_last b /\ range_last b < 2 ^ 64.
Proof.
  intros H. pose proof (key_last_range b H). destruct H as (H1 & H2 & H3). unfold range_last in *. pose proof (pow2_pos (br_keybits b)). lia.
Qed.

Lemma sorted_parts l1 l2 a b : StronglySorted before (l1 ++ l2) -> a ∈ l1 -> b ∈ l2 -> range_last a < br_key b.
Proof. intros H Ha Hb. exact (StronglySorted_app_1_elem_of before l1 l2 a b H Ha Hb). Qed.

(** The key of the next search lies between the entries before and those to come. *)
Lemma position_key V1 V2 b0 first : StronglySorted before (V1 ++ V2) -> Forall key_ok (V1 ++ V2) -> position V1 b0 first ->
  let k := if first then 0 else key_after b0 in
  (k = 0 /\ first = false /\ V2 = [])
  \/ ((negb first && (k =? 0)) = false /\ 0 <= k < 2 ^ 64 /\ (forall b, b ∈ V1 -> range_last b < k) /\ (forall b, b ∈ V2 -> k <= range_last b)).
Proof.
  intros Hso Hk Hp k. rewrite Forall_forall in Hk. unfold k. destruct first; cbn [position negb andb] in *.
  - right. subst V1. split; [reflexivity|]. split; [lia|]. split; [intros b Hb; apply not_elem_of_nil in Hb as []|].
    intros b Hb. destruct (key_bounds b (Hk b Hb)). lia.
  - destruct Hp as (l & ->). assert (H0 : b0 ∈ l ++ [b0]) by (apply elem_of_app; right; left).
    assert (Hk0 : key_ok b0) by (apply Hk, elem_of_app; auto). rewrite key_after_range by exact Hk0. pose proof (key_bounds b0 Hk0).
    destruct (Z.eqb_spec (range_last b0) (2 ^ 64 - 1)) as [El|El].
    + left. split; [reflexivity|]. split; [reflexivity|]. destruct V2 as [|b V2]; [reflexivity|exfalso].
      pose proof (sorted_parts _ _ b0 b Hso H0 ltac:(left)). pose proof (key_bounds b (Hk b ltac:(apply elem_of_app; right; left))). lia.
    + right. split; [cbn; lia|]. split; [lia|]. split.
      * intros b Hb. apply elem_of_app in Hb as [Hb|Hb%list_elem_of_singleton]; [|subst b; lia].
        pose proof (sorted_parts _ _ b b0 (StronglySorted_app_1_l _ _ _ Hso) Hb ltac:(left)). lia.
      * intros b Hb. pose proof (sorted_parts _ _ b0 b Hso H0 Hb). pose proof (key_bounds b (Hk b ltac:(apply elem_of_app; auto))). lia.
Qed.

Lemma chain_scan_next d t i x b0 first V1 V2 : clean t -> t_nodes t !! i = Some x -> opened (l_bref x) -> sound (S d) (l_bref x) ->
  items x = V1 ++ V2 -> position V1 b0 first ->
  exists t', clean t' /\ loads t t' /\
  match V2 with
  | [] => hammer2_chain_scan media t i b0 first = Done (Scanned HAMMER2_ERROR_EOF None b0 t')
  | b :: _ => exists oc, hammer2_chain_scan media t i b0 first = Done (Scanned 0 oc b t')
      /\ match oc with
         | Some c => exists y, t_nodes t' !! c = Some y /\ l_bref y = b
         | None => recurses b = false
         end
  end.
Proof.
  intros Hc Hx Ho Hs E Hp. destruct (items_sorted d _ Ho Hs) as [Hso Hk]. rewrite E in Hso, Hk.
  unfold hammer2_chain_scan. destruct (position_key V1 V2 b0 first Hso Hk Hp) as [(-> & -> & ->)|(-> & Hk0 & Hlo & Hhi)].
  { exists t. split; [exact Hc|]. split; [apply loads_refl|]. reflexivity. }
  set (k := if first then 0 else key_after b0) in *.
  assert (exists M, lookup_maxloops = S M) as (M & ->) by (exists (Z.to_nat 299998); unfold lookup_maxloops; rewrite <- Z2Nat.inj_succ by lia; reflexivity).
  destruct (scan_step d t i x k b0 M Hc Hx Ho Hs Hk0) as [t' H1 H2 H3|t' b oc H1 H2 Hb Hkb Hmin Hoc]; exists t'; (split; [assumption|]); (split; [assumption|]).
  - destruct V2 as [|b V2]; [reflexivity|exfalso]. specialize (Hhi b ltac:(left)). specialize (H3 b). rewrite E in H3.
    specialize (H3 ltac:(apply elem_of_app; right; left)). lia.
  - rewrite E in Hb, Hmin. apply elem_of_app in Hb as [Hb|Hb]; [specialize (Hlo b Hb); lia|]. destruct V2 as [|b' V2]; [apply not_elem_of_nil in Hb as []|].
    assert (b = b') as ->; [|exists oc; auto]. apply elem_of_cons in Hb as [|Hb]; [assumption|exfalso].
    rewrite Forall_forall in Hk. pose proof (sorted_parts [b'] V2 b' b (StronglySorted_app_1_r _ _ _ Hso) ltac:(left) Hb).
    pose proof (key_bounds b' (Hk b' ltac:(apply elem_of_app; right; left))).
    destruct (Hmin b' ltac:(apply elem_of_app; right; left)) as [Hm|Hm]; [|lia]. specialize (Hhi b' ltac:(left)). lia.
Qed.
End proof.
