(* ===== verification/RecoveryWalk.v ===== *)
(** What crash recovery visits: the blocks that were written after the freemap, below
    the volume, each of them and no others, and the errors on the way. *)

From Stdlib Require Import ZArith Lia Bool Sorted.
From stdpp Require Import base numbers list option gmap sorting relations.
From S2P Require Import Prelude Disk BlockTable BlockTableProof BlockTableSpec ChainFind ChainFindProof Freemap Lookup LookupSpec LookupProof Recovery RecoveryProof.

(** * Adjusting a list of blocks *)

Section adjust_all.
Context {T IO : Type} `{!LeafStore T}.

Fixpoint adjust_all (l : list blockref) (h : dev T IO) : outcome (dev T IO) :=
  match l with
  | [] => Done h
  | b :: l => let! h := hammer2_freemap_adjust h b HAMMER2_FREEMAP_DORECOVER in adjust_all l h
  end.

Lemma adjust_all_app l1 l2 h : adjust_all (l1 ++ l2) h = let! h := adjust_all l1 h in adjust_all l2 h.
Proof.
  revert h. induction l1 as [|b l1 IH]; intros h; [reflexivity|]. cbn [adjust_all app].
  destruct (hammer2_freemap_adjust h b HAMMER2_FREEMAP_DORECOVER) as [h'|]; cbn [obind]; [apply IH|reflexivity].
Qed.
End adjust_all.

(** * Errors *)

(** An error of recovery, without the mark of the end. *)
Definition plain (e : Z) : Prop := e .&~ HAMMER2_ERROR_EOF = e.

Lemma ldiff_lor a b c : (a .| b) .&~ c = (a .&~ c) .| (b .&~ c).
Proof. apply Z.bits_inj'. intros n _. rewrite Z.lor_spec, !Z.ldiff_spec, Z.lor_spec. destruct (Z.testbit a n), (Z.testbit b n), (Z.testbit c n); reflexivity. Qed.

Lemma plain_lor a b : plain a -> plain b -> plain (a .| b).
Proof. unfold plain. intros Ha Hb. rewrite ldiff_lor. congruence. Qed.
Lemma plain_eof e : plain e -> (HAMMER2_ERROR_EOF .| e) .&~ HAMMER2_ERROR_EOF = e.
Proof. unfold plain. intros H. rewrite ldiff_lor, H. reflexivity. Qed.

Section walk.
Context (media : blockref -> loaded) {T IO : Type} `{!LeafStore T} (sync_tid : Z).

Abbreviation loads := (loads media).
Abbreviation clean := (clean media).
Abbreviation newer := (newer media sync_tid).
Abbreviation sound := (sound media).
Abbreviation rstate := (rstate (T := T) (IO := IO)).

(** The blocks [ok] are closed under going down, and their inodes can be read. *)
Context (ok : blockref -> Prop).
Hypothesis Hok : forall b b', ok b -> newer b b' -> ok b'.
Hypothesis Hread : forall b, ok b -> br_type b = HAMMER2_BREF_TYPE_INODE -> ld_error (media b) <> HAMMER2_ERROR_EIO.

(** A block that recovery goes through and that cannot be used. *)
Definition bad (b : blockref) : Prop := directed media b = true /\ ld_error (media b) <> 0.

(** The chain [c] is deferred, with [h] levels below it at most. *)
Definition deferred (h : nat) (t : topo) (c : nat) (b : blockref) : Prop :=
  exists y, t_nodes t !! c = Some y /\ l_bref y = b /\ known b = true /\ recurses b = true /\ sound h b /\ ok b.

(** A part of the work, the blocks [P], was done: [L] was adjusted, what is below the
    chains [Q] is still to be done, and the error is [e]. *)
Record visits (h : nat) (P : blockref -> Prop) (L : list blockref) (Q : list (nat * Z)) (e : Z) (t t' : topo) : Prop := {
  vi_clean : clean t';
  vi_loads : loads t t';
  vi_only : forall b, b ∈ L -> P b;
  vi_all : forall b, P b -> b ∈ L \/ exists c s q, (c, s) ∈ Q /\ deferred h t' c q /\ rtc newer q b;
  vi_deferred : forall c s, (c, s) ∈ Q -> exists q, deferred h t' c q /\ P q;
  vi_plain : plain e;
  vi_error : e <> 0 -> exists b, P b /\ bad b;
  vi_bad : forall b, P b -> bad b -> e <> 0 \/ exists c s q, (c, s) ∈ Q /\ deferred h t' c q /\ rtc newer q b
}.

Lemma deferred_loads h t t' c q : loads t t' -> deferred h t c q -> deferred h t' c q.
Proof.
  intros Hl (y & Hy & E & H). destruct (ld_node _ _ _ Hl c y Hy) as (y' & Hy' & Ec & _). exists y'. split; [exact Hy'|].
  unfold l_bref in *. rewrite Ec. auto.
Qed.

Lemma visits_nil h t : clean t -> visits h (fun _ => False) [] [] 0 t t.
Proof.
  intros Hc. constructor; try (intros; contradiction).
  - exact Hc.
  - apply loads_refl.
  - intros b Hb. apply not_elem_of_nil in Hb as [].
  - intros c s Hs. apply not_elem_of_nil in Hs as [].
  - reflexivity.
Qed.

Lemma visits_iff h P P' L Q e t t' : (forall b, P b <-> P' b) -> visits h P L Q e t t' -> visits h P' L Q e t t'.
Proof.
  intros E [A B C D F G I J]. constructor; try assumption.
  - intros b Hb. apply E, C, Hb.
  - intros b Hb. apply D, E, Hb.
  - intros c s Hs. destruct (F c s Hs) as (q & H1 & H2). exists q. split; [exact H1|apply E, H2].
  - intros He. destruct (I He) as (b & H1 & H2). exists b. split; [apply E, H1|exact H2].
  - intros b Hb. apply J, E, Hb.
Qed.

Lemma visits_app h P1 P2 L1 L2 Q1 Q2 e1 e2 t t1 t2 : visits h P1 L1 Q1 e1 t t1 -> visits h P2 L2 Q2 e2 t1 t2 ->
  visits h (fun b => P1 b \/ P2 b) (L1 ++ L2) (Q1 ++ Q2) (e1 .| e2) t t2.
Proof.
  intros [A1 B1 C1 D1 F1 G1 I1 J1] [A2 B2 C2 D2 F2 G2 I2 J2].
  assert (Hq : forall b, (exists c s q, (c, s) ∈ Q1 /\ deferred h t1 c q /\ rtc newer q b) \/ (exists c s q, (c, s) ∈ Q2 /\ deferred h t2 c q /\ rtc newer q b) ->
            exists c s q, (c, s) ∈ Q1 ++ Q2 /\ deferred h t2 c q /\ rtc newer q b).
  { intros b [(c & s & q & H1 & H2 & H3)|(c & s & q & H1 & H2 & H3)]; exists c, s, q; rewrite elem_of_app; eauto using deferred_loads. }
  constructor.
  - exact A2.
  - exact (loads_trans media t t1 t2 B1 B2).
  - intros b [Hb|Hb]%elem_of_app; auto.
  - intros b [Hb|Hb]; rewrite elem_of_app; [destruct (D1 b Hb)|destruct (D2 b Hb)]; eauto 6.
  - intros c s [Hs|Hs]%elem_of_app; [destruct (F1 c s Hs) as (q & H1 & H2)|destruct (F2 c s Hs) as (q & H1 & H2)]; exists q; eauto using deferred_loads.
  - exact (plain_lor e1 e2 G1 G2).
  - intros He. destruct (decide (e1 = 0)) as [->|H1]; [|destruct (I1 H1) as (b & ? & ?); eauto].
    rewrite Z.lor_0_l in He. destruct (I2 He) as (b & ? & ?); eauto.
  - intros b [Hb|Hb] Hbad; [destruct (J1 b Hb Hbad) as [H|H]|destruct (J2 b Hb Hbad) as [H|H]]; eauto 6;
      left; rewrite Z.lor_eq_0_iff; tauto.
Qed.

(** Work that stops at one block. *)
Lemma visits_one h b t e : clean t -> plain e -> (e <> 0 <-> bad b) -> visits h (fun b' => b' = b) [b] [] e t t.
Proof.
  intros Hc Hp He. constructor.
  - exact Hc.
  - apply loads_refl.
  - intros b' Hb. apply list_elem_of_singleton in Hb. exact Hb.
  - intros b' ->. left. left.
  - intros c s Hs. apply not_elem_of_nil in Hs as [].
  - exact Hp.
  - intros H. exists b. tauto.
  - intros b' -> Hbad. tauto.
Qed.

Lemma visits_load h P L Q e t0 t t' : loads t0 t -> visits h P L Q e t t' -> visits h P L Q e t0 t'.
Proof. intros Hl [A B C D F G I J]. constructor; try assumption. exact (loads_trans media _ _ _ Hl B). Qed.

(** The chain is put off with everything below it. *)
Lemma visits_defer h b t c : clean t -> deferred h t c b ->
  visits h (rtc newer b) [b] [(c, sync_tid)] 0 t t.
Proof.
  intros Hc Hd. assert (Hq : forall b', rtc newer b b' -> exists c' s q, (c', s) ∈ [(c, sync_tid)] /\ deferred h t c' q /\ rtc newer q b').
  { intros b' Hb'. exists c, sync_tid, b. split; [left|auto]. }
  constructor.
  - exact Hc.
  - apply loads_refl.
  - intros b' Hb. apply list_elem_of_singleton in Hb as ->. apply rtc_refl.
  - intros b' Hb. right. auto.
  - intros c' s Hs. apply list_elem_of_singleton in Hs. injection Hs as -> ->. exists b. split; [exact Hd|apply rtc_refl].
  - reflexivity.
  - congruence.
  - intros b' Hb _. right. auto.
Qed.

(** * The loop over the children *)

(** [f] does the work [P] from the chains [t] on, whatever the device. *)
Definition runs (h : nat) (P : blockref -> Prop) (t : topo) (e0 : Z) (f : rstate -> outcome (Z * rstate)) : Prop :=
  exists L Q e t', visits h P L Q e t t'
    /\ forall dev l, f (RState t dev l) = let! dev := adjust_all L dev in Done (e0 .| e, RState t' dev (l ++ Q)).

(** The recursion does its work on every chain of [h] levels. *)
Definition recursion_ok (h hq : nat) (rec : nat -> rstate -> outcome (Z * rstate)) : Prop :=
  forall t c y, clean t -> t_nodes t !! c = Some y -> known (l_bref y) = true -> (recurses (l_bref y) = true -> sound h (l_bref y)) -> ok (l_bref y) ->
    runs hq (rtc newer (l_bref y)) t 0 (rec c).

Definition below (V : list blockref) (b : blockref) : Prop :=
  exists b1, b1 ∈ V /\ sync_tid < br_mirror_tid b1 /\ rtc newer b1 b.

(** Below a block that is not gone through there is nothing. *)
Lemma newer_stop b b' : ~ opened media b -> rtc newer b b' <-> b' = b.
Proof.
  intros Hn. split; [|intros ->; apply rtc_refl]. intros [->|(c & [[Ho _] _] & _)]%rtc_inv; [reflexivity|contradiction].
Qed.

Lemma recurses_directed b : recurses b = false -> ~ directed media b = true.
Proof.
  unfold recurses, directed. destruct (br_type b) as [|q|q]; try discriminate.
  do 9 (try destruct q; try discriminate).
Qed.

(** One child, and then the others. *)
Lemma runs_then h P1 P2 P t t1 L1 Q1 e1 e0 (f : rstate -> outcome (Z * rstate)) (k : Z -> rstate -> outcome (Z * rstate)) :
  visits h P1 L1 Q1 e1 t t1 -> (forall b, P1 b \/ P2 b <-> P b) -> plain e0 ->
  (forall dev l, f (RState t dev l) = let! dev := adjust_all L1 dev in k (e0 .| e1) (RState t1 dev (l ++ Q1))) ->
  (forall e, plain e -> runs h P2 t1 e (k e)) -> runs h P t e0 f.
Proof.
  intros V1 HP He Hf Hk. destruct (Hk (e0 .| e1) (plain_lor e0 e1 He (vi_plain _ _ _ _ _ _ _ V1))) as (L2 & Q2 & e2 & t2 & V2 & Hk2).
  exists (L1 ++ L2), (Q1 ++ Q2), (e1 .| e2), t2. split.
  - exact (visits_iff h _ P _ _ _ t t2 HP (visits_app h P1 P2 L1 L2 Q1 Q2 e1 e2 t t1 t2 V1 V2)).
  - intros dev l. rewrite Hf, adjust_all_app. destruct (adjust_all L1 dev) as [dev1|]; [|reflexivity]. cbn [obind].
    rewrite Hk2, Z.lor_assoc, app_assoc. reflexivity.
Qed.

Lemma child_part h hq rec t t1 b oc : recursion_ok h hq rec -> clean t1 -> loads t t1 -> known b = true ->
  (recurses b = true -> sound h b) -> (sync_tid < br_mirror_tid b -> ok b) ->
  match oc with
  | Some c => exists y, t_nodes t1 !! c = Some y /\ l_bref y = b
  | None => recurses b = false
  end ->
  exists L1 Q1 e1 t2, visits hq (fun b' => sync_tid < br_mirror_tid b /\ rtc newer b b') L1 Q1 e1 t t2
  /\ forall dev l rup (k : Z -> rstate -> outcome (Z * rstate)),
    match oc with
    | None => let! s := if sync_tid <? br_mirror_tid b then rs_adjust b (RState t1 dev l) else Done (RState t1 dev l) in k rup s
    | Some c => let! (tmp, s) := if sync_tid <? br_mirror_tid b then rec c (RState t1 dev l) else Done (0, RState t1 dev l) in k (rup .| tmp) s
    end = let! dev := adjust_all L1 dev in k (rup .| e1) (RState t2 dev (l ++ Q1)).
Proof.
  intros Hrec Hc Hl Hk Hs Hokb Hoc. destruct (Z.ltb_spec sync_tid (br_mirror_tid b)) as [Hn|Hn].
  - destruct oc as [c|].
    + destruct Hoc as (y & Hy & Eb). destruct (Hrec t1 c y Hc Hy) as (L & Q & e & t2 & Hv & Hf); [rewrite Eb; exact Hk|rewrite Eb; exact Hs|rewrite Eb; exact (Hokb Hn)|].
      rewrite Eb in Hv. exists L, Q, e, t2. split; [apply (visits_load hq _ _ _ _ t t1 t2 Hl), (visits_iff hq _ _ _ _ _ t1 t2) with (2 := Hv); tauto|].
      intros dev l rup k. rewrite Hf. destruct (adjust_all L dev); reflexivity.
    + exists [b], [], 0, t1. split.
      * apply (visits_load hq _ _ _ _ t t1 t1 Hl). pose proof (recurses_directed b Hoc) as Hd.
        apply (visits_iff hq (fun b' => b' = b)).
        -- intros b'. rewrite newer_stop by (intros [H _]; contradiction). tauto.
        -- apply visits_one; [exact Hc|reflexivity|]. split; [congruence|intros [H _]; contradiction].
      * intros dev l rup k. unfold rs_adjust. cbn [adjust_all rs_dev rs_topo rs_list]. rewrite app_nil_r, Z.lor_0_r.
        destruct (hammer2_freemap_adjust dev b HAMMER2_FREEMAP_DORECOVER); reflexivity.
  - exists [], [], 0, t1. split.
    + apply (visits_load hq _ _ _ _ t t1 t1 Hl). apply (visits_iff hq (fun _ => False)); [|exact (visits_nil hq t1 Hc)].
      intros b'. split; [intros []|]. lia.
    + intros dev l rup k. rewrite app_nil_r. destruct oc; cbn [obind adjust_all]; rewrite ?Z.lor_0_r; reflexivity.
Qed.

Lemma below_cons a V b : (sync_tid < br_mirror_tid a /\ rtc newer a b) \/ below V b <-> below (a :: V) b.
Proof.
  split.
  - intros [[H1 H2]|(b1 & H1 & H2 & H3)]; [exists a; split; [left|auto]|exists b1; split; [right|]; auto].
  - intros (b1 & [->|H1]%elem_of_cons & H2 & H3); [left|right; exists b1]; auto.
Qed.

Lemma children_run h hq rec i : recursion_ok h hq rec ->
  forall V2 V1 fuel t x b0 first rup, (length V2 < fuel)%nat -> clean t -> t_nodes t !! i = Some x -> opened media (l_bref x) ->
  sound (S h) (l_bref x) -> live (ld_table (media (l_bref x))) = V1 ++ V2 -> position V1 b0 first -> plain rup ->
  (forall b, b ∈ V2 -> sync_tid < br_mirror_tid b -> ok b) ->
  runs hq (below V2) t rup (recovery_children media rec i sync_tid fuel b0 first rup).
Proof.
  intros Hrec. induction V2 as [|b V2 IH]; intros V1 fuel t x b0 first rup Hfu Hc Hx Ho Hs E Hp Hr Hokv; (destruct fuel as [|fuel]; [cbn in Hfu; lia|]);
    destruct (chain_scan_next media h t i x b0 first V1 _ Hc Hx Ho Hs E Hp) as (t1 & Hc1 & Hl1 & Hscan).
  - exists [], [], 0, t1. split.
    + apply (visits_load hq _ _ _ _ t t1 t1 Hl1). apply (visits_iff hq (fun _ => False)); [|exact (visits_nil hq t1 Hc1)].
      intros b. split; [intros []|]. intros (b1 & H1 & _). apply not_elem_of_nil in H1 as [].
    + intros dev l. cbn [recovery_children rs_topo]. rewrite Hscan. cbn [obind sc_error sc_topo]. cbn [negb Z.eqb].
      rewrite plain_eof, Z.lor_0_r, app_nil_r by exact Hr. reflexivity.
  - destruct Hscan as (oc & Hscan & Hoc). pose proof Hs as (_ & _ & Hsb). destruct (Hsb Ho) as [_ Hb].
    destruct (Hb b) as (Hkn & _ & Hsd); [rewrite E; apply elem_of_app; right; left|].
    destruct (child_part h hq rec t t1 b oc Hrec Hc1 Hl1 Hkn Hsd (Hokv b ltac:(left)) Hoc) as (L1 & Q1 & e1 & t2 & Hv & Hf).
    apply (runs_then hq _ (below V2) _ t t2 L1 Q1 e1 rup _ (recovery_children media rec i sync_tid fuel b false) Hv); [intros b'; apply below_cons|exact Hr| |].
    + intros dev l. rewrite <- Hf. cbn [recovery_children rs_topo]. rewrite Hscan. reflexivity.
    + intros e He. destruct (ld_node _ _ _ (vi_loads _ _ _ _ _ _ _ Hv) i x Hx) as (x2 & Hx2 & Ec & _).
      assert (Eb : l_bref x2 = l_bref x) by (unfold l_bref; rewrite Ec; reflexivity). cbn in Hfu.
      apply (IH (V1 ++ [b]) fuel t2 x2); rewrite ?Eb; try assumption; [lia|exact (vi_clean _ _ _ _ _ _ _ Hv)|rewrite E, <- app_assoc; reflexivity|exists V1; reflexivity|intros b' Hb'; apply Hokv; right; exact Hb'].
Qed.

(** * The scan of one chain *)

Lemma live_len_le bs : (length (live bs) <= length bs)%nat.
Proof. induction bs as [|b bs IH]; cbn; [lia|]. destruct (is_empty b); cbn; lia. Qed.

Lemma fuel_enough t i x : agrees media t i x -> opened media (l_bref x) -> sound 1 (l_bref x) \/ (exists d, sound (S d) (l_bref x)) ->
  (length (live (ld_table (media (l_bref x)))) < scan_fuel x)%nat.
Proof.
  intros [_ _ H] Ho Hs. destruct (H Ho) as (_ & E & _). unfold scan_fuel. rewrite E.
  assert (Ht : alen (ld_table (media (l_bref x))) = table_count (l_bref x)) by (destruct Hs as [(_ & _ & Hs)|(d & _ & _ & Hs)]; destruct (Hs Ho) as [[Hn _] _]; exact Hn).
  rewrite <- Ht. unfold alen. rewrite Nat2Z.id. pose proof (live_len_le (ld_table (media (l_bref x)))). lia.
Qed.

(** What the scan does with the chain, by the type of its block. *)
Definition scan_body (depth c : nat) (y : lnode) (s : rstate) : outcome (Z * rstate) :=
  if directed media (l_bref y) then
    match depth with
    | O => Done (0, rs_defer c sync_tid s)
    | S depth => recovery_children media (hammer2_recovery_scan media depth sync_tid) c sync_tid (scan_fuel y) (l_bref y) true 0 s
    end
  else Done (0, s).

Lemma recovery_scan_turn depth c y (dev : dev T IO) t l : t_nodes t !! c = Some y -> agrees media t c y -> known (l_bref y) = true ->
  (recurses (l_bref y) = true -> exists h, sound h (l_bref y)) -> ok (l_bref y) ->
  hammer2_recovery_scan media depth sync_tid c (RState t dev l)
  = let! dev := hammer2_freemap_adjust dev (l_bref y) HAMMER2_FREEMAP_DORECOVER in scan_body depth c y (RState t dev l).
Proof.
  intros Hy [A1 A2 _] Hk Hs Hoky. unfold known in Hk. apply bool_decide_eq_true in Hk. rewrite !elem_of_cons, elem_of_nil in Hk.
  assert (Hd : br_type (l_bref y) = HAMMER2_BREF_TYPE_INODE -> has_data y = true).
  { intros E. destruct Hs as ([|h] & Hs); [unfold recurses; rewrite E; reflexivity|destruct Hs|]. destruct Hs as (_ & Hoff & _).
    unfold has_data. rewrite A1. rewrite (proj2 (Z.eqb_neq _ _) (Hread _ Hoky E)). rewrite (proj2 (Z.eqb_neq _ _) (Hoff ltac:(rewrite E; discriminate))). reflexivity. }
  destruct depth as [|depth]; cbn [hammer2_recovery_scan rs_topo]; unfold node; rewrite Hy; cbn [obind]; unfold scan_body, directed, rs_adjust; cbn [rs_dev rs_topo rs_list];
    destruct Hk as [E|[E|[E|[E|[E|[E|[]]]]]]]; rewrite ?Hd by exact E; rewrite E; cbn [negb Z.eqb Pos.eqb];
    destruct (hammer2_freemap_adjust dev (l_bref y) HAMMER2_FREEMAP_DORECOVER) as [dev'|]; try reflexivity; cbn [obind kassert]; rewrite A2;
    destruct (ld_direct (media (l_bref y))); reflexivity.
Qed.

Lemma directed_recurses b : directed media b = true -> recurses b = true.
Proof. intros H. destruct (recurses b) eqn:E; [reflexivity|]. destruct (recurses_directed b E H). Qed.

(** A block that cannot be used has no children. *)
Lemma scan_bad rec c t y fuel : t_nodes t !! c = Some y -> agrees media t c y -> ld_error (media (l_bref y)) <> 0 -> plain (ld_error (media (l_bref y))) ->
  forall (dev : dev T IO) l, recovery_children media rec c sync_tid (S fuel) (l_bref y) true 0 (RState t dev l) = Done (ld_error (media (l_bref y)), RState t dev l).
Proof.
  intros Hy [A1 _ _] He Hp dev l. apply Z.eqb_neq in He.
  assert (exists M, lookup_maxloops = S M) as (M & E) by (exists (Z.to_nat 299998); unfold lookup_maxloops; rewrite <- Z2Nat.inj_succ by lia; reflexivity).
  assert (Hs : hammer2_chain_scan media t c (l_bref y) true = Done (Scanned (ld_error (media (l_bref y))) None (l_bref y) t)).
  { unfold hammer2_chain_scan. rewrite E. cbn [negb andb scan_again]. unfold node. rewrite Hy. cbn [obind]. rewrite A1, He. reflexivity. }
  cbn [recovery_children rs_topo]. rewrite Hs. cbn [obind sc_error sc_topo rs_set_topo rs_dev rs_list]. rewrite He. cbn [negb].
  rewrite Z.lor_0_r, Hp. reflexivity.
Qed.

Lemma visits_below h b : opened media b -> forall t L Q e t',
  visits h (below (live (ld_table (media b)))) L Q e t t' -> clean t -> visits h (rtc newer b) (b :: L) Q e t t'.
Proof.
  intros Ho t L Q e t' Hv Hc. assert (H1 : visits h (fun b' => b' = b) [b] [] 0 t t).
  { apply visits_one; [exact Hc|reflexivity|]. split; [congruence|]. intros [_ He]. destruct Ho. contradiction. }
  pose proof (visits_app h _ _ _ _ _ _ _ _ _ _ _ H1 Hv) as H. apply (visits_iff h) with (2 := H). intros b'. split.
  - intros [->|(b1 & B1 & B2 & B3)]; [apply rtc_refl|]. apply (rtc_l newer b b1); [|exact B3]. split; [split|]; assumption.
  - intros [->|(b1 & [[_ B1] B2] & B3)]%rtc_inv; [auto|]. right. exists b1. auto.
Qed.

Lemma turn_runs depth c y t hq P L Q e t' : t_nodes t !! c = Some y -> agrees media t c y -> known (l_bref y) = true ->
  (recurses (l_bref y) = true -> exists h, sound h (l_bref y)) -> ok (l_bref y) -> visits hq P (l_bref y :: L) Q e t t' ->
  (forall dev l, scan_body depth c y (RState t dev l) = let! dev := adjust_all L dev in Done (e, RState t' dev (l ++ Q))) ->
  runs hq P t 0 (hammer2_recovery_scan media depth sync_tid c).
Proof.
  intros Hy Hag Hk Hs Hoky Hv Hb. exists (l_bref y :: L), Q, e, t'. split; [exact Hv|]. intros dev l.
  rewrite (recovery_scan_turn depth c y dev t l Hy Hag Hk Hs Hoky). cbn [adjust_all].
  destruct (hammer2_freemap_adjust dev (l_bref y) HAMMER2_FREEMAP_DORECOVER) as [dev'|]; [|reflexivity]. cbn [obind]. apply Hb.
Qed.

Lemma visits_alone hq b t e : clean t -> ~ opened media b -> plain e -> (e <> 0 <-> bad b) -> visits hq (rtc newer b) [b] [] e t t.
Proof.
  intros Hc Hn Hp He. apply (visits_iff hq (fun b' => b' = b)); [|apply visits_one; assumption].
  intros b'. rewrite newer_stop by exact Hn. reflexivity.
Qed.

Lemma visits_undirected hq b t : clean t -> directed media b = false -> visits hq (rtc newer b) [b] [] 0 t t.
Proof.
  intros Hc Hd. apply visits_alone; [exact Hc|intros [H _]; congruence|reflexivity|]. split; [congruence|intros [H _]; congruence].
Qed.

Lemma recovery_scan_runs depth : forall h t c y, clean t -> t_nodes t !! c = Some y -> known (l_bref y) = true ->
  (recurses (l_bref y) = true -> sound h (l_bref y)) -> ok (l_bref y) ->
  runs (h - depth) (rtc newer (l_bref y)) t 0 (hammer2_recovery_scan media depth sync_tid c).
Proof.
  induction depth as [|depth IH]; intros h t c y Hc Hy Hk Hs Hoky; pose proof (cl_node _ _ Hc c y Hy) as Hag;
    assert (Hs' : recurses (l_bref y) = true -> exists h, sound h (l_bref y)) by eauto; set (b := l_bref y) in *;
    (destruct (directed media b) eqn:Hd;
     [|apply (turn_runs _ c y t _ _ [] [] 0 t Hy Hag Hk Hs' Hoky);
        [exact (visits_undirected _ b t Hc Hd)
        |intros dev l; unfold scan_body; fold b; rewrite Hd, app_nil_r; reflexivity]]);
    pose proof (Hs (directed_recurses b Hd)) as Hsb.
  - rewrite Nat.sub_0_r. apply (turn_runs _ c y t _ _ [] [(c, sync_tid)] 0 t Hy Hag Hk Hs' Hoky).
    + apply visits_defer; [exact Hc|]. exists y. repeat (split; auto). exact (directed_recurses b Hd).
    + intros dev l. unfold scan_body. fold b. rewrite Hd. reflexivity.
  - destruct h as [|h]; [destruct Hsb|]. destruct (decide (ld_error (media b) = 0)) as [He|He].
    + assert (Ho : opened media b) by (split; assumption).
      destruct (children_run h (h - depth) (hammer2_recovery_scan media depth sync_tid) c (IH h) (live (ld_table (media b))) []
        (scan_fuel y) t y b true 0) as (L & Q & e & t' & Hv & Hf); try assumption; try reflexivity.
      2: { intros b' Hb' Hn'. apply (Hok b b' Hoky). split; [split; assumption|exact Hn']. }
      { apply (fuel_enough t c y Hag Ho). right. exists h. exact Hsb. }
      apply (turn_runs _ c y t _ _ L Q e t' Hy Hag Hk Hs' Hoky); [exact (visits_below _ b Ho t L Q e t' Hv Hc)|].
      intros dev l. unfold scan_body. fold b. rewrite Hd. apply Hf.
    + assert (Hpl : plain (ld_error (media b))).
      { destruct Hsb as (Hin & _). rewrite !elem_of_cons, elem_of_nil in Hin. destruct Hin as [->|[->|[->|[]]]]; reflexivity. }
      apply (turn_runs _ c y t _ _ [] [] (ld_error (media b)) t Hy Hag Hk Hs' Hoky).
      * apply visits_alone; [exact Hc|intros [_ H]; contradiction|exact Hpl|]. split; [intros _; split; assumption|auto].
      * intros dev l. unfold scan_body. fold b. rewrite Hd, app_nil_r.
        assert (exists n, scan_fuel y = S n) as (n & ->) by (unfold scan_fuel; destruct (lookup_base y) as [[? ?]|]; eauto).
        exact (scan_bad _ c t y n Hy Hag He Hpl dev l).
Qed.

(** * The deferred chains *)

Abbreviation queue h t := (Forall2 (fun (cs : nat * Z) q => deferred h t cs.1 q)).
Definition under (qs : list blockref) (b : blockref) : Prop := exists q, q ∈ qs /\ rtc newer q b.

Lemma queue_loads h t t' l qs : loads t t' -> queue h t l qs -> queue h t' l qs.
Proof. intros Hl. induction 1; constructor; eauto using deferred_loads. Qed.

Lemma queue_exists h P t t' L Q e : visits h P L Q e t t' -> exists qs, queue h t' Q qs /\ forall q, q ∈ qs -> P q.
Proof.
  intros V. pose proof (vi_deferred _ _ _ _ _ _ _ V) as H. clear V. induction Q as [|[c s] Q IH].
  - exists []. split; [constructor|]. intros q Hq. apply not_elem_of_nil in Hq as [].
  - destruct (H c s ltac:(left)) as (q & H1 & H2). destruct IH as (qs & H3 & H4); [intros c' s' Hc'; apply (H c' s'); right; exact Hc'|].
    exists (q :: qs). split; [constructor; assumption|]. intros q' [->|Hq]%elem_of_cons; auto.
Qed.

(** One turn for each chain of the list; what they defer comes after the rest. *)
Lemma deferred_round h l qs t : queue h t l qs -> clean t -> forall e0 rest, plain e0 ->
  exists L Q e t', visits (h - HAMMER2_RECOVERY_MAXDEPTH) (under qs) L Q e t t'
  /\ forall n (dev : dev T IO), recover_deferred media (length l + n) sync_tid e0 (RState t dev (l ++ rest))
       = let! dev := adjust_all L dev in recover_deferred media n sync_tid (e0 .| e) (RState t' dev (rest ++ Q)).
Proof.
  intros Hq. revert t Hq. induction l as [|[c s] l IH] in qs |- *; intros t Hq Hc e0 rest He0; inversion Hq as [|? q ? qs' Hd Hq']; subst.
  - exists [], [], 0, t. split.
    + apply (visits_iff _ (fun _ => False)); [|exact (visits_nil _ t Hc)]. intros b. split; [intros []|]. intros (q & Hq0 & _). apply not_elem_of_nil in Hq0 as [].
    + intros n dev. rewrite Z.lor_0_r, app_nil_r. reflexivity.
  - destruct Hd as (y & Hy & Eq & Hk & _ & Hs & Hoky). cbn [fst] in Hy.
    destruct (recovery_scan_runs HAMMER2_RECOVERY_MAXDEPTH h t c y Hc Hy) as (L1 & Q1 & e1 & t1 & V1 & F1); [rewrite Eq; assumption|rewrite Eq; auto|rewrite Eq; assumption|].
    rewrite Eq in V1. pose proof (plain_lor e0 e1 He0 (vi_plain _ _ _ _ _ _ _ V1)) as He1.
    destruct (IH qs' t1 (queue_loads h t t1 l qs' (vi_loads _ _ _ _ _ _ _ V1) Hq') (vi_clean _ _ _ _ _ _ _ V1) (e0 .| e1) (rest ++ Q1) He1)
      as (L2 & Q2 & e2 & t2 & V2 & F2).
    exists (L1 ++ L2), (Q1 ++ Q2), (e1 .| e2), t2. split.
    + apply (visits_iff _ (fun b => rtc newer q b \/ under qs' b)); [|exact (visits_app _ _ _ _ _ _ _ _ _ _ _ _ V1 V2)].
      intros b. unfold under. setoid_rewrite elem_of_cons. split; [intros [H|(q' & H & H')]; eauto|]. intros (q' & [->|H] & H'); eauto.
    + intros n dev. cbn [length Nat.add app recover_deferred rs_list rs_topo rs_dev]. rewrite F1, adjust_all_app.
      destruct (adjust_all L1 dev) as [dev1|]; [|reflexivity]. cbn [obind]. rewrite Z.lor_0_l, <- app_assoc, F2, Z.lor_assoc, app_assoc. reflexivity.
Qed.

(** What was deferred is done as well. *)
Lemma visits_finish h P L1 Q e1 t t1 qs L2 e2 t2 : (forall q b, P q -> rtc newer q b -> P b) ->
  visits h P L1 Q e1 t t1 -> queue h t1 Q qs -> (forall q, q ∈ qs -> P q) -> visits 0 (under qs) L2 [] e2 t1 t2 ->
  visits 0 P (L1 ++ L2) [] (e1 .| e2) t t2.
Proof.
  intros Hcl [A1 B1 C1 D1 F1 G1 I1 J1] Hq Hqs [A2 B2 C2 D2 F2 G2 I2 J2].
  assert (Hun : forall b, under qs b -> P b) by (intros b (q & H1 & H2); eauto).
  assert (Hin : forall c s q b, (c, s) ∈ Q -> deferred h t1 c q -> rtc newer q b -> under qs b).
  { intros c s q b Hcs (y & Hy & Ey & _) Hb. apply list_elem_of_lookup in Hcs as (i & Hi).
    destruct (Forall2_lookup_l _ _ _ _ _ Hq Hi) as (q' & Hq' & (y' & Hy' & Ey' & _)). cbn [fst] in Hy'. rewrite Hy in Hy'. injection Hy' as <-.
    exists q'. split; [exact (list_elem_of_lookup_2 _ _ _ Hq')|congruence]. }
  assert (Hno : forall b, ~ exists c s q, (c, s) ∈ ([] : list (nat * Z)) /\ deferred 0 t2 c q /\ rtc newer q b).
  { intros b (c & s & q & H & _). apply not_elem_of_nil in H as []. }
  constructor.
  - exact A2.
  - exact (loads_trans media t t1 t2 B1 B2).
  - intros b [Hb|Hb]%elem_of_app; auto.
  - intros b Hb. left. apply elem_of_app. destruct (D1 b Hb) as [H|(c & s & q & H1 & H2 & H3)]; [auto|].
    destruct (D2 b (Hin c s q b H1 H2 H3)) as [H|H]; [auto|destruct (Hno b H)].
  - intros c s Hs. apply not_elem_of_nil in Hs as [].
  - exact (plain_lor e1 e2 G1 G2).
  - intros He. destruct (decide (e1 = 0)) as [->|H1]; [|exact (I1 H1)]. rewrite Z.lor_0_l in He. destruct (I2 He) as (b & H1 & H2); eauto.
  - intros b Hb Hbad. left. rewrite Z.lor_eq_0_iff. destruct (J1 b Hb Hbad) as [H|(c & s & q & H1 & H2 & H3)]; [tauto|].
    destruct (J2 b (Hin c s q b H1 H2 H3) Hbad) as [H|H]; [tauto|destruct (Hno b H)].
Qed.

Lemma deferred_runs : forall h l qs t e0, queue h t l qs -> clean t -> plain e0 ->
  exists turns L e t', visits 0 (under qs) L [] e t t'
  /\ forall k (dev : dev T IO), recover_deferred media (turns + k) sync_tid e0 (RState t dev l)
       = let! dev := adjust_all L dev in Done (e0 .| e, RState t' dev []).
Proof.
  induction h as [h IH] using lt_wf_ind. intros l qs t e0 Hq Hc He0. destruct l as [|cs l].
  - inversion Hq; subst. exists 0%nat, [], 0, t. split.
    + apply (visits_iff _ (fun _ => False)); [|exact (visits_nil _ t Hc)]. intros b. split; [intros []|]. intros (q & Hq0 & _). apply not_elem_of_nil in Hq0 as [].
    + intros k dev. rewrite Z.lor_0_r. destruct k; reflexivity.
  - assert (Hh : h <> 0%nat). { intros ->. inversion Hq as [|? ? ? ? (y & _ & _ & _ & _ & [] & _) _]. }
    destruct (deferred_round h (cs :: l) qs t Hq Hc e0 [] He0) as (L1 & Q1 & e1 & t1 & V1 & F1). rewrite app_nil_r in F1.
    destruct (queue_exists _ _ _ _ _ _ _ V1) as (qs1 & Hq1 & Hqs1).
    destruct (IH (h - HAMMER2_RECOVERY_MAXDEPTH)%nat ltac:(lia) Q1 qs1 t1 (e0 .| e1) Hq1 (vi_clean _ _ _ _ _ _ _ V1) (plain_lor _ _ He0 (vi_plain _ _ _ _ _ _ _ V1)))
      as (n & L2 & e2 & t2 & V2 & F2).
    exists (length (cs :: l) + n)%nat, (L1 ++ L2), (e1 .| e2), t2. split.
    + apply (visits_finish (h - HAMMER2_RECOVERY_MAXDEPTH) _ L1 Q1 e1 t t1 qs1 L2 e2 t2); try assumption. intros q b (q' & H1 & H2) H3. exists q'. split; [exact H1|etrans; eassumption].
    + intros k dev. rewrite <- Nat.add_assoc, F1, adjust_all_app. destruct (adjust_all L1 dev) as [dev1|]; [|reflexivity]. cbn [obind].
      cbn [app]. rewrite F2, Z.lor_assoc. reflexivity.
Qed.
End walk.
