(* ===== verification/RecoveryTheorems.v ===== *)
(** Crash recovery: it reaches every block that was written after the freemap, it
    marks their storage, and it stops the program at an inode that cannot be read. *)

From Stdlib Require Import ZArith Lia Bool Sorted.
From stdpp Require Import base numbers list option gmap sorting relations.
From S2P Require Import Prelude Disk Bitmap Subr BlockTable BlockTableProof BlockTableSpec ChainFind ChainFindProof Freemap BmapAlloc FreemapAlloc FreemapMaint Lookup LookupSpec LookupProof LookupTheorems Recovery RecoveryProof RecoveryWalk.

(** * The freemap

    Every block that recovery adjusts is marked, as far as [hammer2_freemap_adjust] can,
    and nothing becomes free. *)

Section freemap.
Context {T IO : Type} `{!LeafStore T} `{!LeafStoreLaws T}.
Implicit Types h : dev T IO.

(** The storage of a blockref, as recovery expects it: an allocation unit in the part of
    the volume that the freemap manages, with a leaf that can be read. *)
Record storage h (b : blockref) (off radix : Z) : Prop := {
  st_radix : radix_ok radix;
  st_aligned : (HAMMER2_ALLOC_MIN | off);
  st_range : 0 <= off < 2 ^ 62;
  st_off : br_data_off b = off .| radix;
  st_beg : dv_allocator_beg h <= off;
  st_zone : HAMMER2_ZONE_SEG <= off mod HAMMER2_ZONE_BYTES64;
  st_leaf : exists lf, leaf_at h (H2FMBASE off 30) = Some lf /\ lf_error lf = 0
}.

(** The blocks of the storage are allocated. *)
Definition held h (off radix : Z) : Prop :=
  exists lf, leaf_at h (H2FMBASE off 30) = Some lf
  /\ forall c, block_of off <= c < block_of off + nblk radix -> blk (aget (lf_bmdata lf) (element_of off)) c = 3.

(** Leaves stay, and their blocks are what they were, or allocated. *)
Definition grows h h' : Prop :=
  dv_allocator_beg h' = dv_allocator_beg h
  /\ forall key lf, leaf_at h key = Some lf -> lf_error lf = 0 ->
       exists lf', leaf_at h' key = Some lf' /\ lf_error lf' = 0
       /\ forall n c, 0 <= n < 256 -> 0 <= c < 256 ->
            blk (aget (lf_bmdata lf') n) c = 3 \/ blk (aget (lf_bmdata lf') n) c = blk (aget (lf_bmdata lf) n) c.

Lemma grows_refl h : grows h h.
Proof. split; [reflexivity|]. intros key lf Hl He. exists lf. auto. Qed.

Lemma grows_trans h1 h2 h3 : grows h1 h2 -> grows h2 h3 -> grows h1 h3.
Proof.
  intros [B1 L1] [B2 L2]. split; [congruence|]. intros key lf Hl He. destruct (L1 key lf Hl He) as (lf2 & Hl2 & He2 & H2).
  destruct (L2 key lf2 Hl2 He2) as (lf3 & Hl3 & He3 & H3). exists lf3. split; [exact Hl3|]. split; [exact He3|].
  intros n c Hn Hc. destruct (H3 n c Hn Hc) as [H|H]; [auto|]. rewrite H. apply H2; assumption.
Qed.

Lemma storage_grows h h' b off radix : grows h h' -> storage h b off radix -> storage h' b off radix.
Proof.
  intros [B L] [A1 A2 A3 A4 A5 A6 (lf & Hl & He)]. constructor; try assumption; [lia|].
  destruct (L _ lf Hl He) as (lf' & Hl' & He' & _). eauto.
Qed.

Lemma block_range off : 0 <= off -> 0 <= block_of off < 256.
Proof. intros Ho. unfold block_of. change (2 ^ 22) with 4194304. change (2 ^ 14) with 16384. div_mod_lia. Qed.

(** The run of an allocation unit lies in its element. *)
Lemma unit_range off radix : radix_ok radix -> 0 <= off -> (2 ^ radix | off) -> block_of off + nblk radix <= 256.
Proof.
  intros Hr Ho [k Hk]. unfold block_of. change (2 ^ 22) with (256 * 16384). change (2 ^ 14) with 16384.
  assert (E : off mod (256 * 16384) / 16384 = off / 16384 mod 256) by div_mod_lia. rewrite E. clear E. subst off. radix_cases Hr; cbn; div_mod_lia.
Qed.

(** Adjusting keeps the leaf readable and the static allocation. *)
Lemma adjust_frame h b off radix lf h' : storage h b off radix -> leaf_at h (H2FMBASE off 30) = Some lf -> lf_error lf = 0 ->
  hammer2_freemap_adjust h b HAMMER2_FREEMAP_DORECOVER = Done h' ->
  dv_allocator_beg h' = dv_allocator_beg h /\ forall lf', leaf_at h' (H2FMBASE off 30) = Some lf' -> lf_error lf' = 0.
Proof.
  intros [A1 A2 A3 A4 A5 A6 _] Hl He. unfold hammer2_freemap_adjust. cbn [hammer2_trans_sub]. rewrite A4.
  destruct (data_off_split off radix A1 A2) as [-> ->]. unfold leaf_at in Hl.
  pose proof A1 as A1'. unfold radix_ok in A1'. rewrite !assert_true by (try reflexivity; lia). cbv zeta.
  change (dv_allocator_beg (set_dev_modify_tid (u64 (dv_modify_tid h + 1)) h)) with (dv_allocator_beg h).
  replace (off <? dv_allocator_beg h) with false by lia.
  rewrite assert_true by (change HAMMER2_ZONE_MASK64 with (Z.ones 31); rewrite Z.land_ones by lia; apply Z.leb_le; exact A6).
  unfold adjust_leaf. change (dv_fchain (set_dev_modify_tid (u64 (dv_modify_tid h + 1)) h)) with (dv_fchain h).
  change HAMMER2_FREEMAP_LEVEL1_RADIX with 30. rewrite Hl, He. cbn [negb Z.eqb obind].
  destruct (adjust_loop _ _ _ _ _ _ _) as [[[bm md] bytes]|]; [|discriminate]. cbn [obind].
  assert (Hfin : forall h1, dv_allocator_beg h1 = dv_allocator_beg h -> (forall lf', leaf_at h1 (H2FMBASE off 30) = Some lf' -> lf_error lf' = 0) ->
     Done (if bytes =? 0 then h1 else adjust_allocator_free (- bytes) h1) = Done h' ->
     dv_allocator_beg h' = dv_allocator_beg h /\ forall lf', leaf_at h' (H2FMBASE off 30) = Some lf' -> lf_error lf' = 0).
  { intros h1 B L [= <-]. unfold adjust_allocator_free, hammer2_voldata_modify, leaf_at in *.
    destruct (bytes =? 0); [auto|]. destruct (dv_vchain_modified h1); auto. }
  destruct md.
  - destruct (leaf_modify_ok (H2FMBASE off 30) (dv_modify_tid h) _ _ Hl) as (t & me & Ht & _). cbn [set_dev_modify_tid dv_fchain] in *. rewrite Ht.
    cbn [obind]. apply Hfin; [reflexivity|]. intros lf' Hlf'. unfold leaf_at in Hlf'. cbn in Hlf'. rewrite leaf_write_eq in Hlf'. injection Hlf' as <-. exact He.
  - cbn [obind]. apply Hfin; [reflexivity|]. intros lf' Hlf'. unfold leaf_at in Hlf'. cbn in Hlf'. rewrite Hl in Hlf'. injection Hlf' as <-. exact He.
Qed.

Lemma adjust_step h b off radix : dev_ok h -> 0 <= dv_allocator_free h < 2 ^ 64 -> storage h b off radix ->
  exists h', hammer2_freemap_adjust h b HAMMER2_FREEMAP_DORECOVER = Done h'
    /\ dev_ok h' /\ 0 <= dv_allocator_free h' < 2 ^ 64 /\ grows h h'
    /\ ((2 ^ radix | off) -> block_of off mod 32 < 16 -> held h' off radix).
Proof.
  intros Hok Hfree Hst. pose proof Hst as [A1 A2 A3 A4 A5 A6 (lf & Hl & He)].
  destruct (freemap_adjust_spec h b off radix lf Hok A1 A2 A3 A4 A5 A6 Hfree Hl He) as (h' & E & Hok' & lf' & Hl' & Hm & Hoth & Hk & Hf & _).
  destruct (adjust_frame h b off radix lf h' Hst Hl He E) as [Hbeg Herr]. specialize (Herr lf' Hl').
  exists h'. split; [exact E|]. split; [exact Hok'|]. split; [rewrite Hf; apply u64_range|]. split.
  - split; [exact Hbeg|]. intros key lf0 Hl0 He0. destruct (decide (key = H2FMBASE off 30)) as [->|Hne].
    + rewrite Hl in Hl0. injection Hl0 as <-. exists lf'. split; [exact Hl'|]. split; [exact Herr|]. intros n c Hn Hc.
      destruct (decide (n = element_of off)) as [->|Hn']; [|right; rewrite Hoth by assumption; reflexivity].
      rewrite (Hm c Hc). destruct (_ && _); auto.
    + exists lf0. rewrite Hk by exact Hne. auto.
  - intros Hu Hlow. exists lf'. split; [exact Hl'|]. intros c Hc. pose proof (block_range off ltac:(lia)). pose proof (unit_range off radix A1 ltac:(lia) Hu).
    rewrite Hm by lia. replace (32 * (block_of off / 32) + block_of off mod 16) with (block_of off) by div_mod_lia.
    replace ((block_of off <=? c) && (c <? block_of off + nblk radix)) with true by lia. reflexivity.
Qed.

Lemma held_grows h h' b off radix : grows h h' -> storage h b off radix -> (2 ^ radix | off) -> held h off radix -> held h' off radix.
Proof.
  intros [_ L] [A1 _ A3 _ _ _ (lf0 & Hl0 & He0)] Hu (lf & Hl & H). rewrite Hl0 in Hl. injection Hl as <-.
  destruct (L _ lf0 Hl0 He0) as (lf' & Hl' & _ & H'). exists lf'. split; [exact Hl'|]. intros c Hc.
  pose proof (block_range off ltac:(lia)). pose proof (unit_range off radix A1 ltac:(lia) Hu).
  destruct (H' (element_of off) c ltac:(apply Z.mod_pos_bound; lia) ltac:(lia)) as [E|E]; [exact E|]. rewrite E. exact (H c Hc).
Qed.

Lemma adjust_all_ok l : forall h, dev_ok h -> 0 <= dv_allocator_free h < 2 ^ 64 -> (forall b, b ∈ l -> exists off radix, storage h b off radix) ->
  exists h', adjust_all l h = Done h' /\ dev_ok h' /\ grows h h'
    /\ forall b off radix, b ∈ l -> storage h b off radix -> (2 ^ radix | off) -> block_of off mod 32 < 16 -> held h' off radix.
Proof.
  induction l as [|b l IH]; intros h Hok Hf Hst.
  - exists h. split; [reflexivity|]. split; [exact Hok|]. split; [apply grows_refl|]. intros b off radix Hb. apply not_elem_of_nil in Hb as [].
  - assert (Hb : exists h1, hammer2_freemap_adjust h b HAMMER2_FREEMAP_DORECOVER = Done h1 /\ dev_ok h1 /\ 0 <= dv_allocator_free h1 < 2 ^ 64 /\ grows h h1
       /\ forall off radix, storage h b off radix -> (2 ^ radix | off) -> block_of off mod 32 < 16 -> held h1 off radix).
    { destruct (Hst b ltac:(left)) as (off & radix & Hs). destruct (adjust_step h b off radix Hok Hf Hs) as (h1 & E & H1 & H2 & H3 & _).
      exists h1. repeat (split; [assumption|]). intros off' radix' Hs' Hu Hlow. destruct (adjust_step h b off' radix' Hok Hf Hs') as (h1' & E' & _ & _ & _ & H4).
      rewrite E in E'. injection E' as <-. exact (H4 Hu Hlow). }
    destruct Hb as (h1 & E & Hok1 & Hf1 & Hg1 & Hh1).
    destruct (IH h1 Hok1 Hf1) as (h' & E' & Hok' & Hg' & Hh').
    { intros b' Hb'. destruct (Hst b' ltac:(right; exact Hb')) as (off & radix & Hs). eauto using storage_grows. }
    exists h'. cbn [adjust_all]. rewrite E. cbn [obind]. split; [exact E'|]. split; [exact Hok'|]. split; [exact (grows_trans _ _ _ Hg1 Hg')|].
    intros b' off radix [->|Hb']%elem_of_cons Hs Hu Hlow.
    + exact (held_grows h1 h' b off radix Hg' (storage_grows _ _ _ _ _ Hg1 Hs) Hu (Hh1 off radix Hs Hu Hlow)).
    + exact (Hh' b' off radix Hb' (storage_grows _ _ _ _ _ Hg1 Hs) Hu Hlow).
Qed.
End freemap.

(** * The whole recovery *)

Section recovery.
Context (media : blockref -> loaded).

(** The volume and what was loaded below it, as a mount has them. *)
Record mounted (H : nat) (t : topo) (r : nat) (v : blockref) : Prop := {
  mo_clean : clean media t;
  mo_root : exists x, t_nodes t !! r = Some x /\ l_bref x = v;
  mo_type : br_type v = HAMMER2_BREF_TYPE_VOLUME;
  mo_read : ld_error (media v) = 0;
  mo_sound : sound media H v
}.

Lemma mounted_opened H t r v : mounted H t r v -> opened media v.
Proof. intros [_ _ E He _]. split; [unfold directed; rewrite E; reflexivity|exact He]. Qed.

Lemma tc_first {A} (R : relation A) x y : tc R x y <-> exists z, R x z /\ rtc R z y.
Proof.
  split; [|intros (z & H1 & H2); eapply tc_rtc_r; [apply tc_once; exact H1|exact H2]].
  induction 1 as [x y H|x y z H1 H2 _]; [exists y|exists y]; auto using rtc_refl, tc_rtc.
Qed.

Lemma tc_last {A} (R : relation A) x y : tc R x y -> exists z, rtc R x z /\ R z y.
Proof. induction 1 as [x y H|x y z H1 _ (w & H2 & H3)]; [exists x; auto using rtc_refl|]. exists w. split; [exact (rtc_l R x y w H1 H2)|exact H3]. Qed.

(** The blocks in the tree, as a relation on positions: what is below the volume. *)
Lemma below_tc sync_tid v b : opened media v -> below media sync_tid (live (ld_table (media v))) b <-> tc (newer media sync_tid) v b.
Proof.
  intros Ho. rewrite tc_first. split.
  - intros (b1 & H1 & H2 & H3). exists b1. split; [split; [split|]|]; assumption.
  - intros (b1 & [[_ H1] H2] & H3). exists b1. auto.
Qed.

Section run.
Context {T IO : Type} `{!LeafStore T}.

Lemma root_scan depth sync_tid r x (s : rstate (T := T) (IO := IO)) : t_nodes (rs_topo s) !! r = Some x -> br_type (l_bref x) = HAMMER2_BREF_TYPE_VOLUME ->
  hammer2_recovery_scan media (S depth) sync_tid r s
  = recovery_children media (hammer2_recovery_scan media depth sync_tid) r sync_tid (scan_fuel x) (l_bref x) true 0 s.
Proof. intros Hx Ht. cbn [hammer2_recovery_scan]. unfold node. rewrite Hx. cbn [obind]. rewrite Ht. reflexivity. Qed.

Lemma recovery_run H t r v sync_tid : mounted (S H) t r v ->
  (forall b, tc (newer media sync_tid) v b -> br_type b = HAMMER2_BREF_TYPE_INODE -> ld_error (media b) <> HAMMER2_ERROR_EIO) ->
  exists turns L e t', visits media sync_tid (tc (newer media sync_tid) v) 0 (tc (newer media sync_tid) v) L [] e t t'
  /\ forall k (h : dev T IO), hammer2_recovery media (turns + k) t r sync_tid h = let! h' := adjust_all L h in Done (e, t', h').
Proof.
  intros Hm Hread. pose proof (mounted_opened _ _ _ _ Hm) as Ho. destruct Hm as [Hc (x & Hx & Ev) Ht He Hs].
  set (ok := tc (newer media sync_tid) v). assert (Hok : forall b b', ok b -> newer media sync_tid b b' -> ok b') by (intros b b' H1 H2; eapply tc_r; eassumption).
  destruct (children_run (T := T) (IO := IO) media sync_tid ok H (H - 9) (hammer2_recovery_scan media 9 sync_tid) r
     (recovery_scan_runs media sync_tid ok Hok Hread 9 H) (live (ld_table (media v))) [] (scan_fuel x) t x v true 0) as (L1 & Q1 & e1 & t1 & V1 & F1);
    rewrite ?Ev; try assumption; try reflexivity.
  { rewrite <- Ev. apply (fuel_enough media t r x (cl_node _ _ Hc r x Hx)); rewrite ?Ev; eauto. }
  { intros b Hb Hn. apply tc_once. split; [split|]; assumption. }
  apply (visits_iff media sync_tid ok _ _ _ _ _ _ _ _ (fun b => below_tc sync_tid v b Ho)) in V1.
  destruct (queue_exists media sync_tid ok _ _ _ _ _ _ _ V1) as (qs & Hq & Hqs).
  destruct (deferred_runs (T := T) (IO := IO) media sync_tid ok Hok Hread _ _ _ _ e1 Hq (vi_clean _ _ _ _ _ _ _ _ _ _ V1) (vi_plain _ _ _ _ _ _ _ _ _ _ V1)) as (n & L2 & e2 & t2 & V2 & F2).
  exists n, (L1 ++ L2), (e1 .| e2), t2. split.
  - apply (visits_finish media sync_tid ok _ _ L1 Q1 e1 t t1 qs L2 e2 t2) with (2 := V1) (3 := Hq) (4 := Hqs) (5 := V2). intros q b. apply tc_rtc_r.
  - intros k h. unfold hammer2_recovery. rewrite (root_scan 9 sync_tid r x (RState t h []) Hx) by (rewrite Ev; exact Ht). rewrite Ev, F1, adjust_all_app.
    destruct (adjust_all L1 h) as [h1|]; [|reflexivity]. cbn [obind app]. rewrite Z.lor_0_l, F2.
    destruct (adjust_all L2 h1) as [h2|]; reflexivity.
Qed.
End run.

(** In a tree whose flushes propagate their transaction ids upward, nothing new is
    below something old. *)
Lemma newer_all v sync_tid : (forall p b, tc (child media) v p -> child media p b -> br_mirror_tid b <= br_mirror_tid p) ->
  forall b, tc (child media) v b -> sync_tid < br_mirror_tid b -> tc (newer media sync_tid) v b.
Proof.
  intros Hm. assert (H : forall b, rtc (child media) v b -> b = v \/ tc (child media) v b /\ (sync_tid < br_mirror_tid b -> tc (newer media sync_tid) v b)).
  { apply rtc_ind_r; [auto|]. intros p b _ Hpb [->|[Hp IH]]; right.
    - split; [apply tc_once, Hpb|]. intros Hn. apply tc_once. split; assumption.
    - split; [eapply tc_r; eassumption|]. intros Hn. eapply tc_r; [|split; eassumption]. apply IH. specialize (Hm p b Hp Hpb). lia. }
  intros b (p & Hp & Hpb)%tc_last Hn. destruct (H p Hp) as [->|[Htc IH]]; [apply tc_once; split; assumption|].
  eapply tc_r; [apply IH|split; eassumption]. specialize (Hm p b Htc Hpb). lia.
Qed.
End recovery.

(** * A small volume *)

(** The super-root inode is the only child of the volume; [tbl] is its table.  Only the
    volume is in memory.  Everything has the transaction id 9. *)
Definition demo_bref (type keybits key data_off : Z) : blockref := Bref type 0 keybits 0 key 9 0 data_off 0 0 0 [].
Definition demo_volume : blockref := demo_bref HAMMER2_BREF_TYPE_VOLUME 0 0 0.
Definition demo_off : Z := 1073741824 + 4194304.
Definition demo_inode : blockref := demo_bref HAMMER2_BREF_TYPE_INODE 0 0 (demo_off .| 10).
Definition demo_data : blockref := demo_bref HAMMER2_BREF_TYPE_DATA 16 0 ((demo_off + 65536) .| 16).
Definition demo_dirent : blockref := demo_bref HAMMER2_BREF_TYPE_DIRENT 0 65536 0.
Definition demo_sroot : list blockref := demo_inode :: replicate 3 ex_none.
Definition demo_media (tbl : list blockref) (b : blockref) : loaded :=
  if br_type b =? HAMMER2_BREF_TYPE_VOLUME then Loaded 0 false demo_sroot
  else if br_type b =? HAMMER2_BREF_TYPE_INODE then Loaded 0 false tbl
  else Loaded 0 true [].
Definition demo_root : lnode :=
  LNode (Chain demo_volume false true false false) None false false 0 0 (Core 0 0 0 false demo_volume) (Some demo_sroot) [].
Definition demo_topo : topo := Topo {[ 0%nat := demo_root ]} 1.

Lemma demo_mounted tbl : alen tbl = 4 -> entries_okb (live tbl) = true ->
  (forall b, b ∈ live tbl -> known b = true /\ recurses b = false) -> mounted (demo_media tbl) 3 demo_topo 0 demo_volume.
Proof.
  intros Hn Hok Ht. constructor; [|exists demo_root; split; reflexivity|reflexivity..|].
  - constructor.
    + intros i Hi. cbn in Hi. split; [cbn; rewrite lookup_singleton_ne by lia; reflexivity|].
      intros p x Hx. cbn in Hx. apply lookup_singleton_Some in Hx as [_ <-]. apply not_elem_of_nil.
    + intros i x Hx. cbn in Hx. apply lookup_singleton_Some in Hx as [<- <-]. constructor; [reflexivity..|]. intros _.
      split; [|split; reflexivity]. constructor.
      * intros j []%not_elem_of_nil.
      * constructor; constructor.
      * eexists _, _. split; [reflexivity|]. split; [|discriminate]. exact (ex_table demo_sroot eq_refl).
      * intros b c _ []%not_elem_of_nil.
      * discriminate.
  - split; [left|]. split; [intros []; reflexivity|]. intros _. split; [exact (ex_table demo_sroot eq_refl)|].
    change (live _) with [demo_inode]. intros b ->%list_elem_of_singleton. split; [reflexivity|]. split; [discriminate|]. intros _.
    split; [left|]. split; [intros _; vm_compute; discriminate|]. intros _. split.
    + change (ld_table (demo_media tbl demo_inode)) with tbl. change (table_count demo_inode) with 4. rewrite <- Hn. exact (ex_table tbl Hok).
    + change (ld_table (demo_media tbl demo_inode)) with tbl. intros b Hb. destruct (Ht b Hb) as [H1 H2]. split; [exact H1|].
      split; [discriminate|]. congruence.
Qed.

Lemma demo_newer tbl b : tc (newer (demo_media tbl) 5) demo_volume b -> (forall b, b ∈ live tbl -> recurses b = false) ->
  b = demo_inode \/ b ∈ live tbl.
Proof.
  intros (b1 & [[_ H1] _] & H)%tc_first Ht. change (live _) with [demo_inode] in H1. apply list_elem_of_singleton in H1 as ->.
  apply rtc_inv in H as [<-|(b2 & [[_ H2] _] & H)]; [auto|]. right. change (live _) with (live tbl) in H2.
  apply newer_stop in H as ->; [exact H2|]. intros [Hd _]. exact (recurses_directed _ _ (Ht b2 H2) Hd).
Qed.

Definition demo_files : list blockref := [demo_data; ex_none; ex_none; ex_none].
Definition demo_names : list blockref := [demo_dirent; ex_none; ex_none; ex_none].

(** * The results *)

(** C38. Crash recovery on the volume of a mount ends, for any number of levels, and
    adjusts the freemap for exactly the blocks that the topology reaches from the volume
    through blockrefs newer than the freemap, provided that no inode among them fails to
    be read (EIO), which stops the program ([recovery_unreadable_inode]).  It reports an
    error just when one of these blocks, an indirect block or an inode with a wrong check
    code, could not be used.  If transaction ids do not grow downward, no block newer than
    the freemap is left out. *)
Theorem recovery_exact media {T IO : Type} `{!LeafStore T} D t r v sync_tid :
  mounted media (S D) t r v ->
  (forall b, tc (newer media sync_tid) v b -> br_type b = HAMMER2_BREF_TYPE_INODE -> ld_error (media b) <> HAMMER2_ERROR_EIO) ->
  exists turns L e t', clean media t'
  /\ (forall k (h : dev T IO), hammer2_recovery media (turns + k) t r sync_tid h = let! h' := adjust_all L h in Done (e, t', h'))
  /\ (forall b, b ∈ L <-> tc (newer media sync_tid) v b)
  /\ (e <> 0 <-> exists b, tc (newer media sync_tid) v b /\ bad media b)
  /\ ((forall p b, tc (child media) v p -> child media p b -> br_mirror_tid b <= br_mirror_tid p) ->
      forall b, tc (child media) v b -> sync_tid < br_mirror_tid b -> b ∈ L).
Proof.
  intros Hm Hread. destruct (recovery_run (T := T) (IO := IO) media D t r v sync_tid Hm Hread) as (turns & L & e & t' & V & E).
  exists turns, L, e, t'. split; [exact (vi_clean _ _ _ _ _ _ _ _ _ _ V)|]. split; [exact E|].
  assert (HL : forall b, b ∈ L <-> tc (newer media sync_tid) v b).
  { intros b. split; [apply (vi_only _ _ _ _ _ _ _ _ _ _ V)|]. intros Hb.
    destruct (vi_all _ _ _ _ _ _ _ _ _ _ V b Hb) as [H|(c & s & q & H & _)]; [exact H|apply not_elem_of_nil in H as []]. }
  split; [exact HL|]. split.
  - split; [exact (vi_error _ _ _ _ _ _ _ _ _ _ V)|]. intros (b & Hb & Hbad).
    destruct (vi_bad _ _ _ _ _ _ _ _ _ _ V b Hb Hbad) as [H|(c & s & q & H & _)]; [exact H|apply not_elem_of_nil in H as []].
  - intros Hmono b Hb Hn. apply HL, newer_all; assumption.
Qed.

Lemma recovery_exact_witness : exists turns L e t', clean (demo_media demo_files) t'
  /\ (forall k (h : dev (gmap Z leaf) unit), hammer2_recovery (demo_media demo_files) (turns + k) demo_topo 0 5 h = let! h' := adjust_all L h in Done (e, t', h'))
  /\ (forall b, b ∈ L <-> tc (newer (demo_media demo_files) 5) demo_volume b)
  /\ (e <> 0 <-> exists b, tc (newer (demo_media demo_files) 5) demo_volume b /\ bad (demo_media demo_files) b)
  /\ ((forall p b, tc (child (demo_media demo_files)) demo_volume p -> child (demo_media demo_files) p b -> br_mirror_tid b <= br_mirror_tid p) ->
      forall b, tc (child (demo_media demo_files)) demo_volume b -> 5 < br_mirror_tid b -> b ∈ L).
Proof.
  apply (recovery_exact (demo_media demo_files) 2).
  - apply demo_mounted; [reflexivity..|]. intros b ->%list_elem_of_singleton. split; reflexivity.
  - intros b [-> | ->%list_elem_of_singleton]%demo_newer; [discriminate..|]. intros b' ->%list_elem_of_singleton. reflexivity.
Defined.

(** C39. After crash recovery no storage that was written after the freemap is free,
    if every such block is an allocation unit of the managed part of the volume whose
    freemap leaf can be read, and lies in the lower half of its word of the bitmap (in
    the upper half recovery marks another block).  Nothing becomes free, and the volume
    stays well formed. *)
Theorem recovery_protects media {T IO : Type} `{!LeafStore T} `{!LeafStoreLaws T} D t r v sync_tid (h : dev T IO) :
  mounted media (S D) t r v ->
  (forall b, tc (newer media sync_tid) v b -> br_type b = HAMMER2_BREF_TYPE_INODE -> ld_error (media b) <> HAMMER2_ERROR_EIO) ->
  dev_ok h -> 0 <= dv_allocator_free h < 2 ^ 64 ->
  (forall b, tc (newer media sync_tid) v b -> exists off radix, storage h b off radix) ->
  exists turns e t' h', (forall k, hammer2_recovery media (turns + k) t r sync_tid h = Done (e, t', h'))
  /\ dev_ok h' /\ grows h h'
  /\ forall b off radix, tc (newer media sync_tid) v b -> storage h b off radix -> (2 ^ radix | off) -> block_of off mod 32 < 16 ->
       held h' off radix.
Proof.
  intros Hm Hread Hok Hf Hst. destruct (recovery_run (T := T) (IO := IO) media D t r v sync_tid Hm Hread) as (turns & L & e & t' & V & E).
  destruct (adjust_all_ok L h Hok Hf) as (h' & Ea & Hok' & Hg & Hh).
  { intros b Hb. apply Hst, (vi_only _ _ _ _ _ _ _ _ _ _ V), Hb. }
  exists turns, e, t', h'. split; [intros k; rewrite E, Ea; reflexivity|]. split; [exact Hok'|]. split; [exact Hg|].
  intros b off radix Hb. apply Hh. destruct (vi_all _ _ _ _ _ _ _ _ _ _ V b Hb) as [H|(c & s & q & H & _)]; [exact H|apply not_elem_of_nil in H as []].
Qed.

Lemma recovery_protects_witness : exists turns e t' h',
  (forall k, hammer2_recovery (demo_media demo_files) (turns + k) demo_topo 0 5 volume_leaf_demo = Done (e, t', h'))
  /\ dev_ok h' /\ grows volume_leaf_demo h'
  /\ forall b off radix, tc (newer (demo_media demo_files) 5) demo_volume b -> storage volume_leaf_demo b off radix -> (2 ^ radix | off) ->
       block_of off mod 32 < 16 -> held h' off radix.
Proof.
  apply (recovery_protects (demo_media demo_files) 2).
  - apply demo_mounted; [reflexivity..|]. intros b ->%list_elem_of_singleton. split; reflexivity.
  - intros b [-> | ->%list_elem_of_singleton]%demo_newer; [discriminate..|]. intros b' ->%list_elem_of_singleton. reflexivity.
  - apply volume_leaf_demo_ok.
  - cbn. lia.
  - intros b [-> | ->%list_elem_of_singleton]%demo_newer; [exists demo_off, 10|exists (demo_off + 65536), 16|intros b' ->%list_elem_of_singleton; reflexivity].
    + constructor; [unfold radix_ok; lia|exists (demo_off / 1024); reflexivity|unfold demo_off; lia|reflexivity|cbn; unfold demo_off; lia|vm_compute; discriminate|].
      exists leaf_demo. split; reflexivity.
    + constructor; [unfold radix_ok; lia|exists ((demo_off + 65536) / 1024); reflexivity|unfold demo_off; lia|reflexivity|cbn; unfold demo_off; lia|vm_compute; discriminate|].
      exists leaf_demo. split; reflexivity.
Defined.

Lemma adjust_embedded {T IO : Type} `{!LeafStore T} b (h : dev T IO) : br_data_off b = 0 -> hammer2_freemap_adjust h b HAMMER2_FREEMAP_DORECOVER = Panic.
Proof. intros E. unfold hammer2_freemap_adjust. rewrite E. reflexivity. Qed.

Lemma adjust_all_panic {T IO : Type} `{!LeafStore T} b l : b ∈ l -> br_data_off b = 0 -> forall h : dev T IO, adjust_all l h = Panic.
Proof.
  intros Hb E. induction Hb as [l|b b' l Hb IH]; intros h; cbn [adjust_all].
  - rewrite adjust_embedded by exact E. reflexivity.
  - destruct (hammer2_freemap_adjust h b' HAMMER2_FREEMAP_DORECOVER); [exact (IH E _)|reflexivity].
Qed.

(** C40. A directory entry with a name of at most 64 bytes is embedded in its blockref
    and has no storage.  When such an entry is newer than the freemap, recovery does not
    pass it over: hammer2_freemap_adjust asserts that there is a radix, and the mount
    stops the program. *)
Theorem recovery_embedded_dirent media {T IO : Type} `{!LeafStore T} D t r v sync_tid b :
  mounted media (S D) t r v ->
  (forall b, tc (newer media sync_tid) v b -> br_type b = HAMMER2_BREF_TYPE_INODE -> ld_error (media b) <> HAMMER2_ERROR_EIO) ->
  tc (newer media sync_tid) v b -> br_type b = HAMMER2_BREF_TYPE_DIRENT -> br_data_off b = 0 ->
  exists turns, forall k (h : dev T IO), hammer2_recovery media (turns + k) t r sync_tid h = Panic.
Proof.
  intros Hm Hread Hb _ Hoff. destruct (recovery_run (T := T) (IO := IO) media D t r v sync_tid Hm Hread) as (turns & L & e & t' & V & E).
  exists turns. intros k h. rewrite E, (adjust_all_panic b); [reflexivity| |exact Hoff].
  destruct (vi_all _ _ _ _ _ _ _ _ _ _ V b Hb) as [H|(c & s & q & H & _)]; [exact H|apply not_elem_of_nil in H as []].
Qed.

Lemma recovery_embedded_dirent_witness :
  exists turns, forall k (h : dev (gmap Z leaf) unit), hammer2_recovery (demo_media demo_names) (turns + k) demo_topo 0 5 h = Panic.
Proof.
  apply (recovery_embedded_dirent (demo_media demo_names) 2 demo_topo 0 demo_volume 5 demo_dirent); [| | |reflexivity..].
  - apply demo_mounted; [reflexivity..|]. intros b ->%list_elem_of_singleton. split; reflexivity.
  - intros b [-> | ->%list_elem_of_singleton]%demo_newer; [discriminate..|]. intros b' ->%list_elem_of_singleton. reflexivity.
  - apply tc_first. exists demo_inode. split.
    + split; [split; [split; reflexivity|]|reflexivity]. left.
    + apply rtc_once. split; [split; [split; reflexivity|]|reflexivity]. left.
Defined.

(** An inode whose block cannot be read has no data, and the scan looks at its flags. *)
Lemma recovery_unreadable_inode media {T IO : Type} `{!LeafStore T} depth sync_tid c y (s : rstate (T := T) (IO := IO)) :
  t_nodes (rs_topo s) !! c = Some y -> br_type (l_bref y) = HAMMER2_BREF_TYPE_INODE -> l_error y = HAMMER2_ERROR_EIO ->
  hammer2_recovery_scan media depth sync_tid c s = Panic.
Proof.
  intros Hy Ht He. destruct depth; cbn [hammer2_recovery_scan]; unfold node; rewrite Hy; cbn [obind]; rewrite Ht; cbn [negb Z.eqb Pos.eqb];
    unfold has_data; rewrite He, andb_false_r; (destruct (rs_adjust (l_bref y) s); reflexivity).
Qed.
